(* ===== verification/_CoqProject ===== *)
-Q . S2P
Prelude.v
KMem.v
Array.v
Queue.v
Bitmap.v
CopyInOut.v
Uio.v
Cpu.v
Coremap.v
KPages.v
Kheap.v
KheapLists.v
KheapProof.v
KheapLaws.v
Frames.v
VmStats.v
Swapfile.v
Pt.v
PtProof.v
PtOps.v
PtCopy.v
PtSpec.v
Vnode.v
HeapPages.v
Loadelf.v
Vm.v
VmProof.v
VmFault.v
VmExample.v
AddrSpace.v
AddrSpaceProof.v
Elf.v
HeapCpu.v
LinkedList.v
Thread.v
ThreadProof.v
ThreadSwitch.v
ThreadSpec.v
ThreadTheorems.v
Synch.v
SynchSched.v
SynchInv.v
SynchProof.v
SynchTheorems.v
Kernel.v
Process.v
ProcessProof.v
ProcessRw.v
ProcessLife.v
ProcessFork.v
SimpleKernel.v
ProcessTheorems.v
Trap.v
TrapProof.v
SfsData.v
SfsDev.v
Sfs.v
SfsInv.v
SfsBlock.v
SfsIo.v
SfsRw.v
SfsDir.v
SfsTrunc.v
SfsTheorems.v
Lhd.v
SfsExample.v
Libc.v
LibcStr.v
LibcTheorems.v
Printf.v
PrintfProof.v
Console.v
Menu.v
Vfs.v
VfsProof.v
VfsList.v
VfsTheorems.v
Device.v
Args.v
