(* ===== verification/Prelude.v ===== *)
(** * OS/161 kernel: verification library (root file)

    The program is the OS/161 1.11 kernel for MIPS under src/os161-1.11/kern, with
    the semester's additions (options A1 to A3): locks and condition variables,
    a coremap, page tables, a swap file, demand paging, processes and system calls.
    Paths below are relative to kern/, but for lib/libc, the C library that the kernel
    shares with the user programs, which is relative to src/os161-1.11.

    ** Parts of the program and how they interact

    The heap (lib/kheap.c) gets pages from the coremap (vm/coremap.c) through
    [alloc_kpages] (vm/vm.c), and everything that allocates uses the heap. Page
    tables (vm/pt.c) and user frames come from the same coremap. A page fault
    (vm/vm.c) walks or extends the page table of the current address space
    (vm/addrspace.c), reads the page of the executable (userprog/loadelf.c) through
    a vnode (fs/vfs/vnode.c) and a uio (userprog/uio.c, lib/copyinout.c), and fills
    the TLB. Threads (thread/thread.c) are scheduled round robin
    (thread/scheduler.c) through a ring (lib/queue.c), sleep on addresses in an
    array (lib/array.c), and synchronise through semaphores, locks and condition
    variables (thread/synch.c), all under the interrupt priority level
    (arch/mips/mips/spl.c).

    A trap (arch/mips/mips/trap.c) is an interrupt, a fault or a system call; system
    calls are dispatched by number (arch/mips/mips/syscall.c) to the functions on
    processes and open files (arch/mips/mips/syscall/). These name files through the
    VFS layer (fs/vfs), which finds the device or the file system in its table and
    calls it through the function tables of vnodes; behind them are devices
    (fs/vfs/device.c) and the file system SFS (fs/sfs), whose blocks the disk driver
    (dev/lamebus/lhd.c) moves. The menu (main/menu.c) reads command lines from the
    console ([kgets], [kprintf]) with the string and formatting functions of the C
    library.

    ** How code is modelled

    A routine is a function in the kernel monad [M S A] of this file: it runs on the
    state [S] it can reach and returns a value ([Ret]), returns an error number with
    the state it left ([Err]), stops the machine ([Panic], with the fault: a failed
    assertion, memory exhaustion where the code panics, an access C leaves
    undefined), or does not return ([NoReturn]). [zoom] runs a routine of one
    component on the larger state of another, so routines compose as the C calls do.
    Addresses and machine words are integers with their width written out ([u32],
    [s32], [u8]); structures are records, reached through finite maps by their
    address when there are many of them.

    [wp F m s Q E] is total correctness: from [s], [m] ends, with [Q] when it returns,
    with [E] when it fails, and a panic only for a fault in [F]; [safe] allows none
    and [safe_oom] only exhaustion of physical memory.

    ** Files

    Shared: Prelude.v (monad, rules, machine integers, list access), KMem.v (the
    contract of [kmalloc]/[kfree] as the class [KHeapLaws], and a simple heap that
    meets it), Cpu.v (spl.c: level, status register, current thread, and locks nobody
    contends for).

    Data structures: Array.v (lib/array.c), Queue.v (lib/queue.c), Bitmap.v
    (lib/bitmap.c), LinkedList.v (lib/linkedlist.c).

    Memory: Coremap.v (arch/mips/mips/ram.c, vm/coremap.c), KPages.v ([alloc_kpages],
    [free_kpages] and their contract [KPagesLaws]), Kheap.v (lib/kheap.c) with
    KheapLists.v, KheapProof.v, KheapLaws.v (the heap meets its contract over any page
    allocator that meets [KPagesLaws]), HeapPages.v (heap and page tables on one
    coremap), HeapCpu.v (heaps in a kernel that switches threads, accounting of
    blocks).

    User memory and I/O: CopyInOut.v (lib/copyinout.c), Uio.v (userprog/uio.c), Args.v
    ([copyArgsOut] of userprog/runprogram.c).

    Virtual memory: Frames.v (what pt.c wants of the coremap), VmStats.v
    (vm/uw-vmstats.c), Swapfile.v (vm/swapfile.c), Pt.v (vm/pt.c) with PtProof.v,
    PtOps.v, PtCopy.v, PtSpec.v, Vnode.v (fs/vfs/vnode.c), Loadelf.v
    (userprog/loadelf.c), Vm.v (vm/vm.c) with VmProof.v, VmFault.v,
    VmExample.v, AddrSpace.v (vm/addrspace.c) with AddrSpaceProof.v,
    Elf.v ([load_elf] on the address spaces).

    Threads: Thread.v (thread/thread.c, thread/scheduler.c, arch/mips/mips/pcb.c)
    with ThreadProof.v (invariant, accounting), ThreadSwitch.v ([mi_switch]),
    ThreadSpec.v, ThreadTheorems.v. A thread that does not run has a
    [frame] saying where it goes on, in place of its saved registers; a call that
    switches returns the [control] of the thread that runs next.

    Synchronisation: Synch.v (thread/synch.c, thread/hardclock.c), SynchSched.v (the
    threads as synch.c sees them), SynchInv.v, SynchProof.v, SynchTheorems.v.

    Processes: Kernel.v (the kernel the system calls use, as the classes of its
    operations and laws), SimpleKernel.v (a kernel that meets them), Process.v
    (arch/mips/mips/syscall/: fork, exit, waitpid, getpid, open, close, read, write)
    with ProcessProof.v, ProcessRw.v, ProcessLife.v, ProcessFork.v,
    ProcessTheorems.v; Trap.v (trap.c, syscall.c, interrupt.c) with TrapProof.v.

    SFS: SfsData.v (include/kern/sfs.h, the layouts on disk), SfsDev.v
    (fs/sfs/sfs_io.c, and the contract of a block device), Sfs.v (the functions of
    fs/sfs/sfs_vnode.c on one file) with SfsInv.v (the invariant), SfsBlock.v, SfsIo.v,
    SfsRw.v, SfsDir.v, SfsTrunc.v, SfsTheorems.v, SfsExample.v; Lhd.v
    (dev/lamebus/lhd.c, which meets the contract of a block device).

    C library and console: Libc.v (lib/libc: memory blocks, strings, [atoi]) with
    LibcStr.v and LibcTheorems.v; Printf.v (lib/libc/__printf.c, snprintf.c) with
    PrintfProof.v; Console.v (lib/kprintf.c, lib/kgets.c, [strerror]); Menu.v
    (main/menu.c: command lines).

    VFS: Vfs.v (fs/vfs/vfslist.c, vfslookup.c, vfscwd.c, vfspath.c) with VfsProof.v,
    VfsList.v, VfsTheorems.v; Device.v (fs/vfs/device.c, devnull.c).

    ** What the theorems show

    Memory: page blocks never overlap, nor meet the kernel and the coremap when that ends
    on a page boundary, [coremap_getpages] and [coremap_freepages]
    do exactly what they should and undo each other, a request for one page succeeds
    when a page is free; [kmalloc] returns fresh disjoint blocks and [kfree] takes
    exactly its block out of use. Arrays, rings and bitmaps refine lists and sets.

    User memory: [copyin], [copyout], [copyinstr] and [uiomove] move the right bytes,
    never touch kernel memory for the user, and fail as documented; the arguments of the
    first program reach its stack as an array of strings, unless [kmalloc] returned NULL.

    Virtual memory: operations of page tables in terms of the walk of an address;
    [pt_copy] and [as_copy] copy pages into frames of their own, which pages and with
    which permissions; [vm_fault] loads, maps or refuses a page on every branch, from
    where in the file, and keeps the TLB in accord with the page table; pages survive the
    swap file; [load_elf] accepts well-formed executables with at most three segments,
    panics on others and refuses what is not well-formed without effect.

    Threads: every sequence of fork, yield, sleep, wake-up and exit keeps each thread
    on one list and every heap block accounted for; yield is round robin; exit gives
    everything back. Synchronisation: in every interleaving of permitted calls locks
    exclude, and no wake-up of a lock or semaphore is lost. What is permitted, where
    the code relies on a free slot in a list, is in [tstep] and [allowed].

    Processes: [sys_fork] makes a child with a fresh id, for which the open files are
    opened again; the exit code reaches the parent and the process disappears; opening and
    closing a file leaves everything as it was; reads and writes move the position by what
    they transfer. Those that allocate do so while memory lasts ([MemoryLasts]). Traps: the registers a system call, a repaired fault and a killed
    process leave.

    SFS: a file is a list of bytes, which writes replace and reads deliver, whatever
    blocks they touch; what was written is read back; no other file changes; names
    linked into a directory are found and unlinked ones are not; which blocks truncation
    drops and frees. All of it for every device that meets the contract; what writes, for
    a device whose writes meet no media error ([ReliableWrites]), since a write that does
    may be lost ([sfs_wblock_media_error]).

    C library: [memmove], by words or bytes and in either direction, is the
    simultaneous copy; the string functions do on memory what their names say of lists
    of characters; printf sends exactly what format and arguments stand for, but for the
    documented X, and
    [snprintf] stores as much as fits and no more; [atoi] reads back what was printed.
    [kgets] leaves the line that editing gives, the menu runs the commands of a line
    with their words and shows what it should on the console.

    VFS: over every sequence of calls, failing ones included, each reference to a
    vnode is accounted for, with those that a failing [vfs_adddev] or [vfs_addfs] loses; adding and mounting devices changes what names stand for
    as it should; a path of a device name leads to what the table says. Seeks on block
    devices succeed exactly on the blocks there are.

    Some theorems prove what the code gets wrong, see the findings of the manifest:
    one slot too few after [q_preallocate], the endless search of a full swap file,
    [lock_acquire] when its queue cannot grow, the disk write that is reported as done
    after a media error, the block that [sfs_truncate] keeps, the trailing colon that
    [vfs_setbootfs] refuses, the handles that [sys__exit] leaves open, the offset and the
    permissions of pages, the fourth region.

    ** Interfaces

    [KHeap]/[KHeapLaws], [KPages]/[KPagesLaws], [Frames], [SwapVnode], [UserIO],
    [ElfRead], [LockLens], [HasCpu] and [KHeapCpu] state what one part promises to
    another. Clients are proved against them; Coremap.v, KPages.v, KheapLaws.v and
    Frames.v discharge those of the memory system, Lhd.v that of the block device. The
    kernel of the system calls (Kernel.v), the file systems of the VFS layer ([FsOps],
    [FsLaws]), the console ([Console], [ConsoleLaws]) and the receiver of formatted
    output ([SendLaws]) are interfaces with instances that show they can be met.
    Code behind function pointers elsewhere ([VOP_READ], [VOP_RECLAIM]) is a parameter.
    The contracts allow what the code behind them can do: [kmalloc] may return NULL, the
    disk may report a media error, a file may end a transfer short. Where a theorem needs
    that it does not, that is a hypothesis of its own, with a name: [MemoryLasts],
    [ReliableWrites] (met by a card whose writes do not fail, [CardWrites]) and
    [transfers_complete].

    ** Bounds and fuel

    Loops over arrays and tables run over the range the code does. [while] and the
    fixpoints with fuel return [NoReturn] when the fuel is used up, which [wp] forbids,
    so every theorem also shows that the fuel was enough: [grow_size] doubles a size
    that fits 32 bits, at most 32 times; the search for a free page, a free slot or a
    page reference stops at the end of its table; [wake_all] removes an element of the
    queue in each turn; the string functions stop at the zero of the string, [convert]
    divides a 32-bit number by its base, [kgets] reads one character in each turn;
    [scheduler] idles at most [idle_fuel] times, which does not
    matter when a thread is ready. Sizes are bounded where C arithmetic would overflow:
    such bounds are hypotheses, met in the witnesses.

    ** Not modelled

    The table of loaded vnodes of SFS and what uses it (creating, linking, removing,
    renaming and looking up files in fs/sfs/sfs_vnode.c), and SFS volumes
    (fs/sfs/sfs_fs.c). [sys_execv], and the rest of [runprogram], which replace the address space
    they run on; [sys_execv] is an operation of the interface of Kernel.v. The commands
    of the menu, and [panic], which is a way a routine can end. Boot (main/main.c), the
    console and the other device drivers (dev/): they are register accesses to hardware
    that is not part of the sources. dumbvm.c is not compiled in this configuration. The
    rest of the C library (wrappers of system calls, random numbers), the user programs
    and the tests (bin/, sbin/, testbin/, kern/test, asst1) are not part of the kernel.
    Assembly (exceptions, the register switch, the TLB instructions) is modelled by what
    its callers rely on. That threads contend for the locks of the VFS layer and for the
    static buffers of SFS is left out: their functions are verified for one thread. *)

From Stdlib Require Import ZArith Lia.
From stdpp Require Import base list gmap numbers.

Local Open Scope Z_scope.

(** ** The kernel monad

    A kernel routine runs on the part [S] of the kernel's state it can reach
    and ends in one of four ways: it returns a value; it returns a non-zero
    error number (the C idiom [if (result) return result;]) with the state it
    leaves behind; it stops the machine through [panic] or a failed [assert];
    or it never returns. *)

(** Why the machine stopped. [Out_of_memory] is the panic of
    [coremap_getpages] when no physical page is left; it is kept apart from the
    others because every [kmalloc] can end in it. [Undefined] marks an execution
    to which C gives no meaning: an access outside an object, the use of an
    indeterminate value, a signed overflow. *)
Inductive fault :=
| Assertion_failed
| Panic_called
| Out_of_memory
| Undefined.

Inductive outcome (S A : Type) :=
| Ret (a : A) (s : S)
| Err (e : Z) (s : S)
| Panic (f : fault)
| NoReturn.
Arguments Ret {S A} a s.
Arguments Err {S A} e s.
Arguments Panic {S A} f.
Arguments NoReturn {S A}.

(** The value returned, without the state *)
Definition returned {S A} (o : outcome S A) : option A :=
  match o with Ret a _ => Some a | _ => None end.

Definition M (S A : Type) : Type := S → outcome S A.

#[global] Instance M_ret S : MRet (M S) := λ A a s, Ret a s.
#[global] Instance M_bind S : MBind (M S) := λ A B k m s,
  match m s with
  | Ret a s' => k a s'
  | Err e s' => Err e s'
  | Panic f => Panic f
  | NoReturn => NoReturn
  end.

Section operations.
Context {S : Type}.

Definition get : M S S := λ s, Ret s s.
Definition gets {A} (f : S → A) : M S A := λ s, Ret (f s) s.
Definition put (s : S) : M S () := λ _, Ret tt s.
Definition modify (f : S → S) : M S () := λ s, Ret tt (f s).
(** [return e;] with a non-zero error number *)
Definition fail {A} (e : Z) : M S A := λ s, Err e s.
Definition panic {A} : M S A := λ _, Panic Panic_called.
Definition oom {A} : M S A := λ _, Panic Out_of_memory.
Definition assert (b : bool) : M S () :=
  λ s, if b then Ret tt s else Panic Assertion_failed.
Definition undefined {A} : M S A := λ _, Panic Undefined.
(** The value of [o], which the program has no right to miss *)
Definition the {A} (o : option A) : M S A :=
  match o with Some a => mret a | None => undefined end.
Definition noreturn {A} : M S A := λ _, NoReturn.
Definition when (b : bool) (m : M S ()) : M S () :=
  if b then m else mret tt.

(** [result = f(...);] where the caller looks at [result] itself *)
Definition try {A} (m : M S A) : M S (A + Z) := λ s,
  match m s with
  | Ret a s' => Ret (inl a) s'
  | Err e s' => Ret (inr e) s'
  | Panic f => Panic f
  | NoReturn => NoReturn
  end.

(** Running a component on its part of a larger state *)
Definition zoom {T A} (view : S → T) (upd : T → S → S) (m : M T A) : M S A :=
  λ s, match m (view s) with
  | Ret a t => Ret a (upd t s)
  | Err e t => Err e (upd t s)
  | Panic f => Panic f
  | NoReturn => NoReturn
  end.

(** Loops: over a list, over an index range, and [while] with a bound on
    the number of iterations. *)
Fixpoint for_each {A} (l : list A) (f : A → M S ()) : M S () :=
  match l with
  | [] => mret tt
  | x :: l => f x ;; for_each l f
  end.

Definition for_range (lo n : Z) (f : Z → M S ()) : M S () :=
  for_each (seqZ lo n) f.

Fixpoint while (fuel : nat) (cond : S → bool) (body : M S ()) : M S () :=
  λ s, if cond s then
    match fuel with
    | O => NoReturn
    | Datatypes.S fuel => (body ;; while fuel cond body) s
    end
  else Ret tt s.
End operations.

(** ** Total-correctness triples

    [wp F m s Q E]: run from [s], [m] returns, and satisfies [Q] on a normal
    return and [E] on an error return; the only faults it may stop with are
    those [F] allows. *)
Definition wp {S A} (F : fault → Prop) (m : M S A) (s : S)
    (Q : A → S → Prop) (E : Z → S → Prop) : Prop :=
  match m s with
  | Ret a s' => Q a s'
  | Err e s' => E e s'
  | Panic f => F f
  | NoReturn => False
  end.

(** No fault at all; only physical memory may run out. *)
Definition safe : fault → Prop := λ _, False.
Definition safe_oom : fault → Prop := λ f, f = Out_of_memory.
(** The error return cannot happen. *)
Definition noerr {S} : Z → S → Prop := λ _ _, False.

Section wp_rules.
Context {S : Type} (F : fault → Prop).
Implicit Types s : S.

Lemma wp_bind {A B} (m : M S A) (k : A → M S B) s Q E :
  wp F m s (λ a s', wp F (k a) s' Q E) E → wp F (m ≫= k) s Q E.
Proof. unfold wp, mbind, M_bind. by destruct (m s). Qed.

Lemma wp_unbind {A B} (m : M S A) (k : A → M S B) s Q E :
  wp F (m ≫= k) s Q E → wp F m s (λ a s', wp F (k a) s' Q E) E.
Proof. unfold wp, mbind, M_bind. by destruct (m s). Qed.

Lemma wp_ret {A} (a : A) s (Q : A → S → Prop) E :
  Q a s → wp F (mret a) s Q E.
Proof. done. Qed.

Lemma wp_mono {A} (m : M S A) s (Q Q' : A → S → Prop) (E E' : Z → S → Prop) :
  wp F m s Q E →
  (∀ a s', Q a s' → Q' a s') → (∀ e s', E e s' → E' e s') →
  wp F m s Q' E'.
Proof. unfold wp. destruct (m s); naive_solver. Qed.

Lemma wp_and {A} (m : M S A) s (Q Q' : A → S → Prop) (E E' : Z → S → Prop) :
  wp F m s Q E → wp F m s Q' E' →
  wp F m s (λ a s', Q a s' ∧ Q' a s') (λ e s', E e s' ∧ E' e s').
Proof. unfold wp. by destruct (m s). Qed.

(** The outcome is that of the run. *)
Lemma wp_run {A} (m : M S A) s (Q : A → S → Prop) (E : Z → S → Prop) :
  wp F m s Q E →
  wp F m s (λ a s', Q a s' ∧ m s = Ret a s') (λ e s', E e s' ∧ ∃ s s', m s = Err e s').
Proof. unfold wp. destruct (m s) eqn:Hm; naive_solver. Qed.

Lemma wp_faults {A} (G : fault → Prop) (m : M S A) s Q E :
  wp G m s Q E → (∀ f, G f → F f) → wp F m s Q E.
Proof. unfold wp. destruct (m s); naive_solver. Qed.

(** A run that returns satisfies the postcondition of its triple. *)
Lemma wp_returns {A} (m : M S A) s a s' (Q : A → S → Prop) E :
  wp F m s Q E → m s = Ret a s' → Q a s'.
Proof. unfold wp. intros Hwp Heq. by rewrite Heq in Hwp. Qed.

Lemma wp_fails {A} (m : M S A) s e s' (Q : A → S → Prop) (E : Z → S → Prop) :
  wp F m s Q E → m s = Err e s' → E e s'.
Proof. unfold wp. intros Hwp Heq. by rewrite Heq in Hwp. Qed.

Lemma wp_assert b s (Q : () → S → Prop) E :
  b = true → Q tt s → wp F (assert b) s Q E.
Proof. by intros ->. Qed.

Lemma wp_get s (Q : S → S → Prop) E : Q s s → wp F get s Q E.
Proof. done. Qed.
Lemma wp_gets {A} (f : S → A) s (Q : A → S → Prop) E :
  Q (f s) s → wp F (gets f) s Q E.
Proof. done. Qed.
Lemma wp_put s s' (Q : () → S → Prop) E : Q tt s' → wp F (put s') s Q E.
Proof. done. Qed.
Lemma wp_modify f s (Q : () → S → Prop) E :
  Q tt (f s) → wp F (modify f) s Q E.
Proof. done. Qed.
Lemma wp_fail {A} e s (Q : A → S → Prop) (E : Z → S → Prop) :
  E e s → wp F (fail e) s Q E.
Proof. done. Qed.

Lemma wp_the {A} (o : option A) a s (Q : A → S → Prop) E :
  o = Some a → Q a s → wp F (the o) s Q E.
Proof. by intros ->. Qed.

Lemma wp_when b (m : M S ()) s (Q : () → S → Prop) E :
  (b = true → wp F m s Q E) → (b = false → Q tt s) → wp F (when b m) s Q E.
Proof. destruct b; unfold when; [|intros; apply wp_ret]; naive_solver. Qed.

Lemma wp_try {A} (m : M S A) s (Q : A + Z → S → Prop) E :
  wp F m s (λ a s', Q (inl a) s') (λ e s', Q (inr e) s') →
  wp F (try m) s Q E.
Proof. unfold wp, try. by destruct (m s). Qed.

Lemma wp_zoom {T A} (view : S → T) (upd : T → S → S) (m : M T A) s
    (Q : A → S → Prop) (E : Z → S → Prop) :
  wp F m (view s) (λ a t, Q a (upd t s)) (λ e t, E e (upd t s)) →
  wp F (zoom view upd m) s Q E.
Proof. unfold wp, zoom. by destruct (m (view s)). Qed.

(** Loop rules: an invariant indexed by the part already done. *)
Lemma wp_for_each {A} (f : A → M S ()) (I : list A → S → Prop) E :
  ∀ (l done : list A) s (Q : () → S → Prop),
  (∀ pre x post s, done ++ l = pre ++ x :: post → I pre s →
     wp F (f x) s (λ _ s', I (pre ++ [x]) s') E) →
  I done s →
  (∀ s', I (done ++ l) s' → Q tt s') →
  wp F (for_each l f) s Q E.
Proof.
  induction l as [|x l IH]; intros done s Q Hf HI HQ; simpl.
  - apply wp_ret, HQ. by rewrite app_nil_r.
  - apply wp_bind. eapply wp_mono; [by apply (Hf done x l)| |done].
    intros [] s' HI'. eapply (IH (done ++ [x])); [|done|].
    + intros pre y post s'' Heq. apply (Hf pre y post).
      by rewrite <- Heq, <- (assoc_L (++)).
    + intros s''. rewrite <- (assoc_L (++)). apply HQ.
Qed.

Lemma wp_for_range (f : Z → M S ()) (I : Z → S → Prop) E lo n s
    (Q : () → S → Prop) :
  0 ≤ n →
  (∀ i s, lo ≤ i < lo + n → I i s → wp F (f i) s (λ _ s', I (i + 1) s') E) →
  I lo s →
  (∀ s', I (lo + n) s' → Q tt s') →
  wp F (for_range lo n f) s Q E.
Proof.
  intros Hn Hf. unfold for_range. revert lo s Hf.
  rewrite <- (Z2Nat.id n Hn). generalize (Z.to_nat n). clear n Hn.
  induction n as [|n IH]; intros lo s Hf HI HQ.
  - apply wp_ret, HQ. by rewrite Z.add_0_r.
  - rewrite seqZ_cons by lia. simpl. apply wp_bind.
    eapply wp_mono; [apply Hf; [lia|done]| |done].
    intros [] s' HI'. replace (Z.pred (Z.of_nat (Datatypes.S n))) with (Z.of_nat n) by lia.
    apply (IH (Z.succ lo)).
    + intros i s'' ?. apply Hf. lia.
    + by rewrite <- Z.add_1_r.
    + intros s'' HI''. apply HQ.
      by replace (lo + Z.of_nat (Datatypes.S n))
        with (Z.succ lo + Z.of_nat n) by lia.
Qed.

(** [while] returns within [fuel] iterations when a measure decreases. *)
Lemma wp_while (I : S → Prop) (measure : S → nat) cond (body : M S ()) E :
  ∀ fuel s (Q : () → S → Prop),
  (measure s ≤ fuel)%nat → I s →
  (∀ s, I s → cond s = true → (0 < measure s)%nat ∧
     wp F body s (λ _ s', I s' ∧ (measure s' < measure s)%nat) E) →
  (∀ s', I s' → cond s' = false → Q tt s') →
  wp F (while fuel cond body) s Q E.
Proof.
  induction fuel as [|fuel IH]; intros s Q Hm HI Hbody HQ;
    unfold wp; simpl; destruct (cond s) eqn:Hc; try by apply HQ.
  - destruct (Hbody s HI Hc). lia.
  - destruct (Hbody s HI Hc) as [_ Hwp]. fold (while fuel cond body).
    change (wp F (body ;; while fuel cond body) s Q E).
    apply wp_bind. eapply wp_mono; [exact Hwp| |done].
    intros [] s' [HI' Hlt]. apply IH; [lia|done..].
Qed.
End wp_rules.

(** One step of symbolic execution, driven by the head of the program. *)
Ltac wp_step :=
  lazymatch goal with
  | |- wp _ (mbind _ _) _ _ _ => apply wp_bind
  | |- wp _ (mret _) _ _ _ => apply wp_ret
  | |- wp _ get _ _ _ => apply wp_get
  | |- wp _ (gets _) _ _ _ => apply wp_gets
  | |- wp _ (put _) _ _ _ => apply wp_put
  | |- wp _ (modify _) _ _ _ => apply wp_modify
  | |- wp _ (fail _) _ _ _ => apply wp_fail
  | |- wp _ (try _) _ _ _ => apply wp_try
  | |- wp _ (zoom _ _ _) _ _ _ => apply wp_zoom
  | |- wp _ (let _ := _ in _) _ _ _ => cbv zeta
  end; cbv beta.
Ltac wp_steps := repeat wp_step.
(** Case analysis on the next test; branches that arithmetic refutes go. *)
Ltac wp_if :=
  lazymatch goal with
  | |- wp _ (when ?b _) _ _ _ => apply wp_when; intros ?
  | |- wp _ (if ?b then _ else _) _ _ _ => destruct b eqn:?
  end; try (exfalso; lia); cbv beta.
(** A conjunction of known facts, definitions kept folded *)
Ltac split_done := repeat (split; [done|]); done.
(** Discharge an assertion or a total access by [tac]. *)
Tactic Notation "wp_assert" "by" tactic3(tac) :=
  wp_steps; apply wp_assert; [solve [tac]|]; cbv beta.
Tactic Notation "wp_the" uconstr(x) "by" tactic3(tac) :=
  wp_steps; eapply (wp_the _ _ x); [solve [tac]|]; cbv beta.

(** ** Machine integers

    [u_int32_t], [size_t], [vaddr_t] and [paddr_t] are values in [0 .. 2^32),
    [int] and [off_t] in [-2^31 .. 2^31). Unsigned arithmetic wraps around;
    conversions to [int] wrap as gcc does on this machine. *)
Definition u32 (z : Z) : Z := z `mod` 2 ^ 32.
Definition s32 (z : Z) : Z := (z + 2 ^ 31) `mod` 2 ^ 32 - 2 ^ 31.
Definition u16 (z : Z) : Z := z `mod` 2 ^ 16.
Definition u8 (z : Z) : Z := z `mod` 2 ^ 8.
Definition INT_MAX : Z := 2 ^ 31 - 1.
Definition is_u32 (z : Z) : Prop := 0 ≤ z < 2 ^ 32.

Lemma u32_small z : 0 ≤ z < 2 ^ 32 → u32 z = z.
Proof. apply Z.mod_small. Qed.
Lemma u32_range z : 0 ≤ u32 z < 2 ^ 32.
Proof. apply Z.mod_pos_bound. lia. Qed.
Lemma s32_small z : - 2 ^ 31 ≤ z < 2 ^ 31 → s32 z = z.
Proof. intros. unfold s32. rewrite Z.mod_small; lia. Qed.

Lemma u16_small z : 0 ≤ z < 2 ^ 16 → u16 z = z.
Proof. apply Z.mod_small. Qed.

(** Bits of unsigned words *)
Lemma u32_testbit_high w k : is_u32 w → 32 ≤ k → Z.testbit w k = false.
Proof.
  intros [Hw0 Hw] Hk. destruct (decide (w = 0)) as [->|]; [apply Z.testbit_0_l|].
  apply Z.bits_above_log2; [lia|].
  apply Z.lt_le_trans with 32; [apply Z.log2_lt_pow2|]; lia.
Qed.

Lemma u32_of_testbits w : 0 ≤ w → (∀ k, 32 ≤ k → Z.testbit w k = false) → is_u32 w.
Proof.
  intros Hw Hhigh. split; [done|]. destruct (decide (w = 0)) as [->|]; [lia|].
  apply Z.log2_lt_pow2; [lia|]. destruct (decide (Z.log2 w < 32)); [done|].
  pose proof (Z.bit_log2 w ltac:(lia)) as Hb. rewrite Hhigh in Hb by lia. done.
Qed.

Lemma testbit_u32 z k : 0 ≤ k < 32 → Z.testbit (u32 z) k = Z.testbit z k.
Proof. intros Hk. apply Z.mod_pow2_bits_low. lia. Qed.

(** [DIVROUNDUP] and [ROUNDUP] of lib.h *)
Definition DIVROUNDUP (a b : Z) : Z := u32 (a + b - 1) / b.

(** ** Error numbers (kern/errno.h) *)
Definition EINVAL : Z := 1.
Definition EFAULT : Z := 2.
Definition ENAMETOOLONG : Z := 3.
Definition ENOMEM : Z := 4.
Definition EIO : Z := 5.
Definition ENOENT : Z := 6.
Definition ENOTDIR : Z := 7.
Definition EISDIR : Z := 8.
Definition EEXIST : Z := 9.
Definition EXDEV : Z := 10.
Definition EAGAIN : Z := 11.
Definition ESPIPE : Z := 12.
Definition EUNIMP : Z := 13.
Definition ENXIO : Z := 14.
Definition ENODEV : Z := 15.
Definition EBUSY : Z := 16.
Definition EIOCTL : Z := 17.
Definition ENOTEMPTY : Z := 18.
Definition ERANGE : Z := 19.
Definition ENOSPC : Z := 20.
Definition EMFILE : Z := 21.
Definition ENFILE : Z := 22.
Definition ENOSYS : Z := 23.
Definition ENOEXEC : Z := 24.
Definition E2BIG : Z := 25.
Definition EBADF : Z := 26.

(** ** Memory layout (arch/mips/include/vm.h) *)
Definition PAGE_SIZE : Z := 4096.
Definition PAGE_FRAME : Z := 0xfffff000.
Definition MIPS_KSEG0 : Z := 0x80000000.
Definition MIPS_KSEG1 : Z := 0xa0000000.
Definition USERTOP : Z := MIPS_KSEG0.
Definition USERSTACK : Z := USERTOP.
Definition PADDR_TO_KVADDR (paddr : Z) : Z := u32 (paddr + MIPS_KSEG0).
Definition KVADDR_TO_PADDR (kvaddr : Z) : Z := u32 (kvaddr - MIPS_KSEG0).

(** An address and its page *)
Lemma land_PAGE_FRAME x : is_u32 x → Z.land x PAGE_FRAME = x / PAGE_SIZE * PAGE_SIZE.
Proof.
  intros Hx. change PAGE_SIZE with (2 ^ 12).
  rewrite <- Z.shiftl_mul_pow2, <- Z.shiftr_div_pow2 by lia.
  apply Z.bits_inj'. intros k Hk. rewrite Z.land_spec, Z.shiftl_spec by done.
  change PAGE_FRAME with (Z.shiftl (Z.ones 20) 12). rewrite Z.shiftl_spec by done.
  destruct (decide (k < 12)).
  - rewrite !(Z.testbit_neg_r _ (k - 12)) by lia. by rewrite andb_false_r.
  - rewrite Z.shiftr_spec by lia. replace (k - 12 + 12) with k by lia.
    destruct (decide (k < 32)).
    + rewrite Z.ones_spec_low by lia. apply andb_true_r.
    + by rewrite u32_testbit_high by (done || lia).
Qed.

Lemma land_page_offset x :
  Z.land x (u32 (Z.lnot PAGE_FRAME)) = x `mod` PAGE_SIZE.
Proof. change (u32 (Z.lnot PAGE_FRAME)) with (Z.ones 12). by apply Z.land_ones. Qed.

(** ** Arrays indexed by C integers *)
Section zlist.
Context {A : Type}.
Implicit Types l : list A.

Definition zlookup (l : list A) (i : Z) : option A :=
  if 0 <=? i then l !! Z.to_nat i else None.
(** [l[i] = x]; no meaning outside the array *)
Definition zstore (l : list A) (i : Z) (x : A) : option (list A) :=
  if (0 <=? i) && (i <? Z.of_nat (length l)) then Some (<[Z.to_nat i := x]> l)
  else None.

Lemma zlookup_nat l (n : nat) : zlookup l (Z.of_nat n) = l !! n.
Proof.
  unfold zlookup. destruct (Z.leb_spec 0 (Z.of_nat n)); [|lia].
  by rewrite Nat2Z.id.
Qed.

Lemma zlookup_lt_is_Some l i :
  0 ≤ i < Z.of_nat (length l) → is_Some (zlookup l i).
Proof.
  intros. unfold zlookup. destruct (Z.leb_spec 0 i); [|lia].
  apply lookup_lt_is_Some. lia.
Qed.

Lemma zlookup_lt_Some l i x :
  zlookup l i = Some x → 0 ≤ i < Z.of_nat (length l).
Proof.
  unfold zlookup. destruct (Z.leb_spec 0 i) as [Hi|Hi]; [|done].
  intros ?%lookup_lt_Some. lia.
Qed.

Lemma zstore_Some l i x :
  0 ≤ i < Z.of_nat (length l) → zstore l i x = Some (<[Z.to_nat i := x]> l).
Proof.
  intros. unfold zstore. destruct (Z.leb_spec 0 i); [|lia].
  destruct (Z.ltb_spec i (Z.of_nat (length l))); [done|lia].
Qed.

Lemma zlookup_insert l i j x :
  0 ≤ i < Z.of_nat (length l) → 0 ≤ j →
  zlookup (<[Z.to_nat i := x]> l) j =
    if decide (i = j) then Some x else zlookup l j.
Proof.
  intros Hi Hj. unfold zlookup. destruct (Z.leb_spec 0 j); [|lia].
  case_decide as Hij.
  - subst. apply list_lookup_insert_eq. lia.
  - apply list_lookup_insert_ne. lia.
Qed.

Lemma zlookup_insert_eq l i x :
  0 ≤ i < Z.of_nat (length l) →
  zlookup (<[Z.to_nat i := x]> l) i = Some x.
Proof. intros. rewrite zlookup_insert by lia. by rewrite decide_True. Qed.

Lemma zlookup_insert_ne l i j x :
  i ≠ j → 0 ≤ i → zlookup (<[Z.to_nat i := x]> l) j = zlookup l j.
Proof.
  intros Hne Hi. unfold zlookup. destruct (Z.leb_spec 0 j); [|done].
  apply list_lookup_insert_ne. lia.
Qed.

Lemma zlist_eq l1 l2 :
  length l1 = length l2 →
  (∀ i, 0 ≤ i < Z.of_nat (length l1) → zlookup l1 i = zlookup l2 i) → l1 = l2.
Proof.
  intros Hlen Heq. apply list_eq_same_length with (length l1); [done..|].
  intros n x y Hn Hx Hy. specialize (Heq (Z.of_nat n)).
  rewrite !zlookup_nat in Heq. rewrite Heq in Hx by lia. congruence.
Qed.
End zlist.

(** Lengths of the buffers the components build *)
Create Rewrite HintDb kernel.
#[export] Hint Rewrite @length_insert @length_app @length_take @length_drop
  @length_replicate @length_fmap : kernel.
