(* ===== verification/KMem.v ===== *)
(** * The kernel heap as its clients see it

    [kmalloc] and [kfree] (kern/lib/kheap.c) are used by almost every component.
    The clients are proved against the interface of this file: a heap state, the
    two operations, and the laws that relate them to the set of live blocks.
    The allocator of kheap.c itself is the subject of [Kheap]. *)

From Stdlib Require Import ZArith Lia.
From stdpp Require Import base list gmap numbers.
From S2P Require Import Prelude.

Local Open Scope Z_scope.

(** The operations, on an abstract heap state. Address 0 is [NULL]. *)
Class KHeap (H : Type) := {
  kmalloc : Z → M H Z;
  kfree : Z → M H ();
}.

(** The contract. [heap_owns h m] says that the live blocks of [h] are exactly
    the addresses of [m], each with the size asked for. *)
Class KHeapLaws (H : Type) `{!KHeap H} := {
  heap_owns : H → gmap Z Z → Prop;
  heap_owns_null h m : heap_owns h m → m !! 0 = None;
  heap_owns_disjoint h m a n b k :
    heap_owns h m → m !! a = Some n → m !! b = Some k → a ≠ b →
    a + n ≤ b ∨ b + k ≤ a;
  kmalloc_law h m sz :
    heap_owns h m → 0 ≤ sz < 2 ^ 31 →
    wp safe_oom (kmalloc sz) h
      (λ p h', (p = 0 ∧ heap_owns h' m) ∨
               (p ≠ 0 ∧ m !! p = None ∧ heap_owns h' (<[p := sz]> m)))
      noerr;
  kfree_law h m p :
    heap_owns h m → is_Some (m !! p) →
    wp safe (kfree p) h (λ _ h', heap_owns h' (delete p m)) noerr;
  kfree_null h : wp safe (kfree 0) h (λ _ h', h' = h) noerr;
}.

(** A client keeps its own data beside the heap. *)
Definition on_heap {H C A} (m : M H A) : M (H * C) A :=
  zoom fst (λ h s, (h, s.2)) m.
Definition on_data {H C A} (m : M C A) : M (H * C) A :=
  zoom snd (λ c s, (s.1, c)) m.

Lemma wp_on_data {H C A} F (m : M C A) h (c : C) (Q : A → H * C → Prop) E :
  wp F m c (λ a c', Q a (h, c')) (λ e c', E e (h, c')) →
  wp F (on_data m) (h, c) Q E.
Proof. intros. by apply wp_zoom. Qed.

(** Symbolic execution of a client; it stops at heap calls and assertions. *)
Ltac mem_step :=
  lazymatch goal with
  | |- wp _ (on_data _) (_, _) _ _ => apply wp_on_data; cbv beta
  | _ => wp_step
  end.
Ltac mem_steps := repeat mem_step.

Section client_rules.
Context `{HL : KHeapLaws H} {C : Type}.

(** [kmalloc] from a client: [NULL], or a fresh block of that size. *)
Lemma wp_kmalloc h m (c : C) sz (Q : Z → H * C → Prop) E :
  heap_owns h m → 0 ≤ sz < 2 ^ 31 →
  (∀ h', heap_owns h' m → Q 0 (h', c)) →
  (∀ p h', p ≠ 0 → m !! p = None → heap_owns h' (<[p := sz]> m) →
     Q p (h', c)) →
  wp safe_oom (on_heap (kmalloc sz)) (h, c) Q E.
Proof.
  intros Hm Hsz HQ0 HQ. apply wp_zoom. eapply wp_mono;
    [by apply (kmalloc_law h m)| |done].
  intros p h' [[-> ?]|(? & ? & ?)]; simpl; eauto.
Qed.

Lemma wp_kfree F h m (c : C) p (Q : () → H * C → Prop) E :
  heap_owns h m → is_Some (m !! p) →
  (∀ h', heap_owns h' (delete p m) → Q tt (h', c)) →
  wp F (on_heap (kfree p)) (h, c) Q E.
Proof.
  intros Hm Hp HQ. apply wp_zoom. apply wp_faults with safe; [|done].
  eapply wp_mono; [by apply (kfree_law h m)| |done].
  intros [] h' ?. simpl. eauto.
Qed.
End client_rules.

(** ** A heap that satisfies the contract

    The simplest one: addresses are handed out in increasing order and never
    reused, and the first [budget] requests succeed. It shows that the contract
    can be met, and runs the clients in their examples. *)
Module SimpleHeap.
Record t := { next : Z; live : gmap Z Z; budget : nat }.

Definition init (budget : nat) : t := {| next := 16; live := ∅; budget := budget |}.

Definition malloc (sz : Z) : M t Z :=
  h ← get;
  match budget h with
  | O => mret 0
  | S b =>
    put {| next := next h + Z.max 1 sz; live := <[next h := sz]> (live h);
           budget := b |};;
    mret (next h)
  end.

Definition free (p : Z) : M t () :=
  if p =? 0 then mret tt else
  h ← get;
  _ ← the (live h !! p);
  put {| next := next h; live := delete p (live h); budget := budget h |}.

#[global] Instance heap : KHeap t := {| kmalloc := malloc; kfree := free |}.

Record owns (h : t) (m : gmap Z Z) : Prop := {
  owns_live : live h = m;
  owns_next : 0 < next h;
  owns_below p sz : m !! p = Some sz → 0 < p < next h ∧ 0 ≤ sz ∧ p + sz ≤ next h;
  owns_disjoint p sz q sz' :
    m !! p = Some sz → m !! q = Some sz' → p ≠ q → p + sz ≤ q ∨ q + sz' ≤ p;
}.

Lemma owns_malloc h m sz :
  owns h m → 0 ≤ sz →
  wp safe_oom (malloc sz) h
    (λ p h', (p = 0 ∧ owns h' m) ∨
             (p ≠ 0 ∧ m !! p = None ∧ owns h' (<[p := sz]> m))) noerr.
Proof.
  intros [<- Hn Hlive Hdis] Hsz. unfold malloc. wp_steps.
  destruct (budget h) as [|b] eqn:Hb; wp_steps; [left; by split; [|split]|].
  right. split_and!; [lia| |].
  { destruct (live h !! next h) eqn:Hl; [|done]. specialize (Hlive _ _ Hl). lia. }
  split; simpl; [done|lia| |].
  - intros p sz' [[<- <-]|[_ Hp]]%lookup_insert_Some; [lia|].
    specialize (Hlive _ _ Hp). lia.
  - intros p1 s1 p2 s2 [[<- <-]|[_ H1]]%lookup_insert_Some
      [[<- <-]|[_ H2]]%lookup_insert_Some Hne; [done| | |by eapply Hdis].
    + specialize (Hlive _ _ H2). lia.
    + specialize (Hlive _ _ H1). lia.
Qed.

Lemma owns_free h m p :
  owns h m → is_Some (m !! p) →
  wp safe (free p) h (λ _ h', owns h' (delete p m)) noerr.
Proof.
  intros [<- Hn Hlive Hdis] [sz Hp]. unfold free.
  pose proof (Hlive _ _ Hp). destruct (Z.eqb_spec p 0); [lia|].
  wp_steps. rewrite Hp. split; simpl; [done..| |].
  - intros p' sz' [_ ?]%lookup_delete_Some. eauto.
  - intros p1 s1 p2 s2 [_ ?]%lookup_delete_Some [_ ?]%lookup_delete_Some. eauto.
Qed.

#[global, program] Instance laws : KHeapLaws t :=
  {| heap_owns := owns; heap_owns_disjoint h m p sz q sz' H := owns_disjoint h m H p sz q sz' |}.
Next Obligation.
  intros h m [_ _ Hlive _]. destruct (m !! 0) eqn:H0; [|done].
  specialize (Hlive _ _ H0). lia.
Qed.
Next Obligation. intros. by apply owns_malloc; [|lia]. Qed.
Next Obligation. intros. by apply owns_free. Qed.
Next Obligation. done. Qed.

Lemma init_owns b : heap_owns (init b) ∅.
Proof. split; [done|done|intros p sz|intros p sz q sz']; by rewrite lookup_empty. Qed.
End SimpleHeap.
