(* ===== verification/Array.v ===== *)
(** * Resizeable arrays of pointers (kern/lib/array.c)

    The state of an operation is the kernel heap and the [struct array]. The
    buffer [v] is its address ([0] is [NULL]) together with its words; a word
    that was never written since [kmalloc] is [None]. The theorems refine the
    array to the list of the [num] visible pointers. *)

From Stdlib Require Import ZArith Lia.
From stdpp Require Import base list gmap numbers.
From S2P Require Import Prelude KMem.

Local Open Scope Z_scope.

Record array (A : Type) := MkArray {
  num : Z;
  max : Z;
  v : Z;
  words : list (option A);
}.
Arguments MkArray {A} num max v words.
Arguments num {A} a.
Arguments max {A} a.
Arguments v {A} a.
Arguments words {A} a.

(** [sizeof(struct array)], [sizeof(void * )] *)
Definition sizeof_array : Z := 12.
Definition sizeof_ptr : Z := 4.

Section operations.
Context `{!KHeap H} {A : Type}.
Implicit Types a : array A.

Definition array_create : M H (option (Z * array A)) :=
  a ← kmalloc sizeof_array;
  if a =? 0 then mret None else mret (Some (a, MkArray 0 0 0 [])).

Definition array_getnum : M (H * array A) Z := on_data (gets num).

Definition array_getguy (index : Z) : M (H * array A) A :=
  a ← on_data get;
  assert (num a <=? max a);;
  assert ((0 <=? index) && (index <? num a));;
  w ← the (zlookup (words a) index);
  the w.

(** [while (nguys > newmax) newmax = (newmax+1)*2;] *)
Fixpoint grow_max {S} (fuel : nat) (nguys newmax : Z) : M S Z :=
  if newmax <? nguys then
    match fuel with
    | O => noreturn
    | Datatypes.S fuel =>
      if INT_MAX <? (newmax + 1) * 2 then undefined
      else grow_max fuel nguys ((newmax + 1) * 2)
    end
  else mret newmax.

(** The loop doubles [newmax], so 32 iterations exceed every [int]. *)
Definition grow_max_fuel : nat := 32.

Definition array_preallocate (nguys : Z) : M (H * array A) () :=
  a ← on_data get;
  assert ((0 <=? num a) && (num a <=? max a));;
  newmax ← grow_max grow_max_fuel nguys (max a);
  newv ← on_heap (kmalloc (u32 (newmax * sizeof_ptr)));
  if newv =? 0 then fail ENOMEM else
  (* for (i=0; i<a->num; i++) newv[i] = a->v[i]; *)
  (if Z.of_nat (length (words a)) <? num a then undefined else
  on_data (put (MkArray (num a) newmax (v a)
    (take (Z.to_nat (num a)) (words a) ++
     replicate (Z.to_nat (newmax - num a)) None)));;
  when (negb (v a =? 0)) (on_heap (kfree (v a)));;
  on_data (modify (λ a', MkArray (num a') (max a') newv (words a')))).

Definition array_setsize (nguys : Z) : M (H * array A) () :=
  a ← on_data get;
  assert ((0 <=? num a) && (num a <=? max a));;
  (if max a <? nguys then array_preallocate nguys
   else if (nguys =? 0) && (16 <? max a) then
     assert (negb (v a =? 0));;
     on_heap (kfree (v a));;
     on_data (put (MkArray (num a) 0 0 []))
   else mret tt);;
  on_data (modify (λ a', MkArray nguys (max a') (v a') (words a'))).

Definition array_setguy (index : Z) (ptr : A) : M (H * array A) () :=
  a ← on_data get;
  assert (num a <=? max a);;
  assert ((0 <=? index) && (index <? num a));;
  ws ← the (zstore (words a) index (Some ptr));
  on_data (put (MkArray (num a) (max a) (v a) ws)).

Definition array_add (guy : A) : M (H * array A) () :=
  ix ← on_data (gets num);
  array_setsize (ix + 1);;
  a ← on_data get;
  ws ← the (zstore (words a) ix (Some guy));
  on_data (put (MkArray (num a) (max a) (v a) ws)).

(** [memmove(a->v+index, a->v+index+1, nmove*sizeof(void * ))] *)
Definition array_remove (index : Z) : M (H * array A) () :=
  a ← on_data get;
  assert (num a <=? max a);;
  assert ((0 <=? index) && (index <? num a));;
  let nmove := num a - (index + 1) in
  if Z.of_nat (length (words a)) <? num a then undefined else
  let i := Z.to_nat index in
  let ws := take i (words a)
            ++ take (Z.to_nat nmove) (drop (S i) (words a))
            ++ drop (i + Z.to_nat nmove) (words a) in
  on_data (put (MkArray (num a - 1) (max a) (v a) ws)).

Definition array_destroy (self : Z) : M (H * array A) () :=
  a ← on_data get;
  when (negb (v a =? 0)) (on_heap (kfree (v a)));;
  on_heap (kfree self).
End operations.

(** ** Refinement to lists *)

(** [array_rep m a l]: the visible elements of [a] are [l]; its buffer is the
    live block [v a] of [m], of [max a] words. *)
Record array_rep {A} (m : gmap Z Z) (a : array A) (l : list A) : Prop := {
  array_rep_num : num a = Z.of_nat (length l);
  array_rep_max : Z.of_nat (length (words a)) = max a;
  array_rep_words : Some <$> l = take (length l) (words a);
  array_rep_buf : if v a =? 0 then max a = 0 else is_Some (m !! v a);
}.

(** Nothing of the heap but the array's own buffer changed. *)
Definition array_frame {A} (m : gmap Z Z) (a : array A) (m' : gmap Z Z) (a' : array A) :=
  delete (v a') m' = delete (v a) m.

Section lemmas.
Context `{HL : KHeapLaws H} {A : Type}.
Implicit Types (h : H) (a : array A) (l : list A) (m : gmap Z Z).

Lemma array_rep_le m a l : array_rep m a l → 0 ≤ num a ≤ max a.
Proof.
  intros [Hn Hm Hw _]. rewrite Hn, <- Hm.
  assert (length l ≤ length (words a))%nat; [|lia].
  rewrite <- (length_fmap Some l), Hw, length_take. lia.
Qed.

Lemma array_rep_lookup m a l (i : nat) :
  array_rep m a l → (i < length l)%nat → words a !! i = Some <$> l !! i.
Proof.
  intros Hr Hi. rewrite <- list_lookup_fmap, (array_rep_words _ _ _ Hr).
  by rewrite lookup_take_lt.
Qed.

(** The doubling loop ends within its fuel and does not overflow. *)
Lemma grow_max_spec {S} F fuel nguys newmax s (Q : Z → S → Prop) E :
  0 ≤ newmax → nguys ≤ 2 ^ 30 - 1 → nguys < (newmax + 1) * 2 ^ Z.of_nat fuel →
  (∀ n, newmax ≤ n → nguys ≤ n → n ≤ Z.max newmax (2 * nguys) → Q n s) →
  wp F (grow_max fuel nguys newmax) s Q E.
Proof.
  revert newmax. induction fuel as [|fuel IH]; intros newmax H0 Hn Hf HQ; simpl.
  - destruct (Z.ltb_spec newmax nguys); [lia|]. apply wp_ret, HQ; lia.
  - destruct (Z.ltb_spec newmax nguys); [|apply wp_ret, HQ; lia].
    rewrite Nat2Z.inj_succ, Z.pow_succ_r in Hf by lia.
    destruct (Z.ltb_spec INT_MAX ((newmax + 1) * 2)) as [Hov|];
      [unfold INT_MAX in Hov; lia|].
    apply IH; [lia..|nia|]. intros n ???. apply HQ; lia.
Qed.

(** A fresh buffer holding the visible words represents the same list. *)
Lemma fresh_buffer_rep m m' a l newmax p sz :
  array_rep m a l → max a ≤ newmax → p ≠ 0 → m' !! p = Some sz →
  array_rep m' (MkArray (num a) newmax p
    (take (Z.to_nat (num a)) (words a) ++
     replicate (Z.to_nat (newmax - num a)) None)) l.
Proof.
  intros Hr Hle Hp Hmp. pose proof (array_rep_le _ _ _ Hr).
  destruct Hr as [Hn Hm Hws Hv]. split; simpl.
  - done.
  - autorewrite with kernel. lia.
  - rewrite Hn, Nat2Z.id, <- Hws, take_app_length'; [done|].
    by rewrite length_fmap.
  - destruct (Z.eqb_spec p 0); [done|eauto].
Qed.

(** Replacing one buffer by another in the set of live blocks. *)
Lemma swap_buffer m p q (sz : Z) :
  m !! p = None → m !! 0 = None → (q = 0 ∨ is_Some (m !! q)) →
  delete p (if q =? 0 then <[p := sz]> m else delete q (<[p := sz]> m)) =
  delete q m.
Proof.
  intros Hp H0 Hq. destruct (Z.eqb_spec q 0) as [->|Hne].
  - rewrite delete_insert_id by done. by rewrite delete_id.
  - destruct Hq as [|[x Hq]]; [done|]. assert (p ≠ q) by naive_solver.
    by rewrite delete_delete, delete_insert_id.
Qed.

Lemma array_preallocate_spec h m a l nguys :
  heap_owns h m → array_rep m a l → max a < 2 ^ 28 → nguys < 2 ^ 28 →
  wp safe_oom (array_preallocate nguys) (h, a)
    (λ _ '(h', a'), ∃ m', heap_owns h' m' ∧ array_rep m' a' l ∧
       array_frame m a m' a' ∧ nguys ≤ max a' ∧ max a ≤ max a' ∧
       max a' ≤ Z.max (max a) (2 * nguys))
    (λ e '(h', a'), e = ENOMEM ∧ a' = a ∧ heap_owns h' m).
Proof.
  intros Hh Hr Hmax Hng. pose proof (array_rep_le _ _ _ Hr) as Hle.
  pose proof (heap_owns_null _ _ Hh) as Hnull.
  pose proof (array_rep_max _ _ _ Hr) as Hw. pose proof (array_rep_buf _ _ _ Hr) as Hv.
  unfold array_preallocate. mem_steps.
  wp_assert by lia. mem_steps.
  apply grow_max_spec; [lia..|unfold grow_max_fuel; lia|].
  intros newmax Hnm1 Hnm2 Hnm3. mem_steps.
  rewrite u32_small by (unfold sizeof_ptr; lia).
  apply (wp_kmalloc _ m); [done|unfold sizeof_ptr; lia| |].
  { intros h' Hh'. wp_if. mem_steps. by split_and!. }
  intros p h' Hp Hmp Hh'. do 2 wp_if. mem_steps.
  set (m' := if v a =? 0 then <[p := newmax * sizeof_ptr]> m
             else delete (v a) (<[p := newmax * sizeof_ptr]> m)).
  assert (p ≠ v a) as Hpv.
  { intros Heq. destruct (Z.eqb_spec (v a) 0); [lia|].
    destruct Hv. congruence. }
  assert (delete p m' = delete (v a) m) as Hsame.
  { apply swap_buffer; [done..|]. destruct (Z.eqb_spec (v a) 0); eauto. }
  assert (m' !! p = Some (newmax * sizeof_ptr)) as Hpm.
  { unfold m'. destruct (Z.eqb_spec (v a) 0).
    - apply lookup_insert_eq.
    - rewrite lookup_delete_ne by done. apply lookup_insert_eq. }
  wp_if; mem_steps.
  - apply (wp_kfree _ _ (<[p := newmax * sizeof_ptr]> m)); [done| |].
    { rewrite lookup_insert_ne by done. destruct (v a =? 0); [lia|done]. }
    intros h'' Hh''. mem_steps. simpl. exists m'.
    split_and!; [|by eapply fresh_buffer_rep|done|lia..].
    unfold m'. by destruct (v a =? 0).
  - simpl. exists m'. split_and!; [|by eapply fresh_buffer_rep|done|lia..].
    unfold m'. by destruct (v a =? 0).
Qed.

Lemma array_push_rep m a l g :
  array_rep m a l → num a < max a →
  array_rep m (MkArray (num a + 1) (max a) (v a)
                 (<[Z.to_nat (num a) := Some g]> (words a))) (l ++ [g]).
Proof.
  intros Hr Hlt. pose proof Hr as [Hn Hm Hws Hv]. split; simpl.
  - rewrite length_app; simpl; lia.
  - autorewrite with kernel. lia.
  - rewrite fmap_app, Hws, length_app, Hn, Nat2Z.id. simpl.
    rewrite Nat.add_1_r. erewrite take_S_r;
      [|apply list_lookup_insert_eq; lia].
    by rewrite take_insert_ge by lia.
  - done.
Qed.

Lemma array_setsize_room F h m a l n :
  array_rep m a l → n ≤ max a → n ≠ 0 →
  wp F (array_setsize n) (h, a)
    (λ _ s', s' = (h, MkArray n (max a) (v a) (words a))) noerr.
Proof.
  intros Hr Hn Hn0. pose proof (array_rep_le _ _ _ Hr).
  unfold array_setsize. mem_steps. wp_assert by lia. mem_steps.
  do 2 wp_if. by mem_steps.
Qed.

(** Within its capacity the array grows without touching the heap. *)
Lemma array_add_room F h m a l g :
  array_rep m a l → num a < max a →
  wp F (array_add g) (h, a)
    (λ _ '(h', a'), h' = h ∧ array_rep m a' (l ++ [g]) ∧
       max a' = max a ∧ v a' = v a) noerr.
Proof.
  intros Hr Hlt. pose proof (array_rep_le _ _ _ Hr).
  pose proof (array_rep_max _ _ _ Hr).
  unfold array_add. mem_steps.
  eapply wp_mono; [eapply array_setsize_room; [done|lia..]| |done].
  intros _ s' ->. mem_steps; simpl. wp_the _ by (apply zstore_Some; lia).
  mem_steps. simpl. split_and!; [done| |done..]. by apply array_push_rep.
Qed.

Lemma array_add_spec h m a l g :
  heap_owns h m → array_rep m a l → max a < 2 ^ 28 → num a < 2 ^ 28 - 1 →
  wp safe_oom (array_add g) (h, a)
    (λ _ '(h', a'), ∃ m', heap_owns h' m' ∧ array_rep m' a' (l ++ [g]) ∧
       array_frame m a m' a')
    (λ e '(h', a'), e = ENOMEM ∧ a' = a ∧ heap_owns h' m).
Proof.
  intros Hh Hr Hmax Hnum. pose proof (array_rep_le _ _ _ Hr).
  destruct (decide (num a < max a)) as [Hlt|Hge].
  { eapply wp_mono; [by eapply array_add_room| |done].
    intros _ [h' a'] (-> & Hr' & _ & Hv). exists m. unfold array_frame.
    by rewrite Hv. }
  unfold array_add, array_setsize. mem_steps. wp_assert by lia. mem_steps.
  wp_if. eapply wp_mono; [apply (array_preallocate_spec h m a l); [done..|lia|lia]| |].
  2: { intros e [h' a'] (-> & -> & ?). done. }
  intros _ [h' a'] (m' & Hh' & Hr' & Hs & Hle & _ & _).
  pose proof (array_rep_max _ _ _ Hr'). pose proof (array_rep_num _ _ _ Hr').
  pose proof (array_rep_num _ _ _ Hr).
  mem_steps; simpl. wp_the _ by (apply zstore_Some; lia).
  mem_steps. simpl. exists m'. split_and!; [done| |done].
  replace (num a) with (num a') by lia. apply array_push_rep; [done|lia].
Qed.

Lemma array_getguy_spec F h m a l i x :
  array_rep m a l → zlookup l i = Some x →
  wp F (array_getguy i) (h, a) (λ y s', y = x ∧ s' = (h, a)) noerr.
Proof.
  intros Hr Hi. pose proof (array_rep_le _ _ _ Hr).
  pose proof (array_rep_num _ _ _ Hr). pose proof (zlookup_lt_Some _ _ _ Hi).
  unfold array_getguy. mem_steps. wp_assert by lia. mem_steps.
  wp_assert by lia. mem_steps.
  eapply (wp_the _ _ (Some x)); [|by apply (wp_the _ _ x)].
  unfold zlookup in *. destruct (0 <=? i); [|done].
  erewrite array_rep_lookup by (done || lia). by rewrite Hi.
Qed.

Lemma array_setguy_spec F h m a l i x :
  array_rep m a l → 0 ≤ i < num a →
  wp F (array_setguy i x) (h, a)
    (λ _ '(h', a'), h' = h ∧ array_rep m a' (<[Z.to_nat i := x]> l) ∧
       max a' = max a ∧ v a' = v a) noerr.
Proof.
  intros Hr Hi. pose proof (array_rep_le _ _ _ Hr).
  pose proof Hr as [Hn Hm Hws Hv].
  unfold array_setguy. mem_steps. wp_assert by lia. mem_steps.
  wp_assert by lia. mem_steps. wp_the _ by (apply zstore_Some; lia).
  mem_steps. simpl. split_and!; [done| |done..].
  split; simpl; autorewrite with kernel; [done..| |done].
  rewrite list_fmap_insert, Hws, take_insert_lt; [done|lia].
Qed.

Lemma array_remove_spec F h m a l i :
  array_rep m a l → 0 ≤ i < num a →
  wp F (array_remove i) (h, a)
    (λ _ '(h', a'), h' = h ∧ array_rep m a' (delete (Z.to_nat i) l) ∧
       max a' = max a ∧ v a' = v a) noerr.
Proof.
  intros Hr Hi. pose proof (array_rep_le _ _ _ Hr).
  pose proof Hr as [Hn Hm Hws Hv].
  unfold array_remove. mem_steps. wp_assert by lia. mem_steps.
  wp_assert by lia. mem_steps. wp_if. mem_steps. simpl.
  split_and!; [done| |done..].
  set (n := Z.to_nat i). rewrite Hn in Hi.
  replace (Z.to_nat (num a - (i + 1))) with (length l - S n)%nat by lia.
  assert (length (words a) = Z.to_nat (max a)) by lia.
  assert (Some <$> delete n l = take n (words a) ++
            take (length l - S n) (drop (S n) (words a))) as Hdel.
  { rewrite delete_take_drop, fmap_app, fmap_take, fmap_drop, Hws.
    rewrite take_take, Nat.min_l, take_drop_commute by lia.
    by replace (S n + (length l - S n))%nat with (length l) by lia. }
  assert (length (delete n l) = length l - 1)%nat as Hlen.
  { apply length_delete, lookup_lt_is_Some. lia. }
  split; simpl; [lia| | |done].
  - autorewrite with kernel. lia.
  - rewrite Hdel, Hlen, (assoc_L (++)), take_app_length'; [done|].
    autorewrite with kernel. lia.
Qed.

Lemma array_setsize_0 F h m a l :
  heap_owns h m → array_rep m a l →
  wp F (array_setsize 0) (h, a)
    (λ _ '(h', a'), ∃ m', heap_owns h' m' ∧ array_rep m' a' [] ∧
       array_frame m a m' a') noerr.
Proof.
  intros Hh Hr. pose proof (array_rep_le _ _ _ Hr).
  pose proof Hr as [Hn Hm Hws Hv]. pose proof (heap_owns_null _ _ Hh).
  unfold array_setsize. mem_steps. wp_assert by lia. mem_steps.
  do 2 wp_if; mem_steps; simpl.
  - destruct (Z.eqb_spec (v a) 0); [lia|]. wp_assert by done. mem_steps.
    apply (wp_kfree _ _ m); [done..|]. intros h' Hh'. mem_steps. simpl.
    exists (delete (v a) m). split_and!; [done|by split|].
    unfold array_frame; simpl. apply delete_id.
    rewrite lookup_delete_ne; [done|congruence].
  - exists m. split_and!; [done|by split|done].
Qed.

Lemma array_destroy_spec h m a l self :
  heap_owns h m → array_rep m a l → is_Some (m !! self) → self ≠ v a →
  wp safe (array_destroy self) (h, a)
    (λ _ '(h', a'), heap_owns h' (delete self (delete (v a) m))) noerr.
Proof.
  intros Hh [_ _ _ Hv] Hself Hne. pose proof (heap_owns_null _ _ Hh).
  unfold array_destroy. mem_steps.
  destruct (Z.eqb_spec (v a) 0) as [Hz|]; simpl; mem_steps.
  - rewrite Hz, (delete_id m 0) by done. by apply (wp_kfree _ _ m).
  - apply (wp_kfree _ _ m); [done..|]. intros h' Hh'.
    apply (wp_kfree _ _ (delete (v a) m)); [done| |done].
    by rewrite lookup_delete_ne.
Qed.
End lemmas.

(** ** Properties *)
Section properties.
Context `{HL : KHeapLaws H} {A : Type}.
Implicit Types (h : H) (a : array A) (l : list A) (m : gmap Z Z).

(** [array_add] appends to the list the array stands for, or returns
    [ENOMEM] and leaves the array as it was; it violates no assertion, reads
    and writes only inside its buffer, and changes no other heap block. *)
Theorem array_add_refines h m a l g :
  heap_owns h m → array_rep m a l → max a < 2 ^ 28 → num a < 2 ^ 28 - 1 →
  wp safe_oom (array_add g) (h, a)
    (λ _ '(h', a'), ∃ m', heap_owns h' m' ∧ array_rep m' a' (l ++ [g]) ∧
       array_frame m a m' a')
    (λ e '(h', a'), e = ENOMEM ∧ a' = a ∧ heap_owns h' m).
Proof. apply array_add_spec. Qed.

(** [array_remove] deletes the element at the index and closes the hole;
    the other elements keep their order and the heap is untouched. *)
Theorem array_remove_refines h m a l i :
  array_rep m a l → 0 ≤ i < num a →
  wp safe (array_remove i) (h, a)
    (λ _ '(h', a'), h' = h ∧ array_rep m a' (delete (Z.to_nat i) l)) noerr.
Proof.
  intros. eapply wp_mono; [by apply (array_remove_spec _ _ m _ l)| |done].
  by intros _ [h' a'] (-> & ? & _).
Qed.

(** Additions within the capacity, one after the other. *)
Lemma array_adds_room F gs : ∀ h m a l,
  array_rep m a l → num a + Z.of_nat (length gs) ≤ max a →
  wp F (for_each gs array_add) (h, a)
    (λ _ '(h', a'), h' = h ∧ array_rep m a' (l ++ gs) ∧ v a' = v a) noerr.
Proof.
  induction gs as [|g gs IH]; intros h m a l Hr Hle; simpl.
  { wp_steps. by rewrite app_nil_r. }
  simpl in Hle. wp_steps. eapply wp_mono; [eapply array_add_room; [done|lia]| |done].
  intros _ [h' a'] (-> & Hr' & Hmax & Hv).
  pose proof (array_rep_num _ _ _ Hr). pose proof (array_rep_num _ _ _ Hr') as Hn'.
  rewrite length_app in Hn'. simpl in Hn'.
  eapply wp_mono; [apply (IH h m a' (l ++ [g])); [done|lia]| |done].
  intros _ [h' a''] (-> & Hr'' & Hv'). rewrite <- (assoc_L (++)) in Hr''.
  split_and!; [done..|congruence].
Qed.

(** after [array_preallocate] has reserved room for [nguys] elements,
    adding elements up to that number cannot fail: the only error of the whole
    sequence is [array_preallocate]'s own [ENOMEM], with the array unchanged. *)
Theorem array_preallocate_reserves h m a l nguys gs :
  heap_owns h m → array_rep m a l → max a < 2 ^ 28 → nguys < 2 ^ 28 →
  num a + Z.of_nat (length gs) ≤ nguys →
  wp safe_oom (array_preallocate nguys ;; for_each gs array_add) (h, a)
    (λ _ '(h', a'), ∃ m', heap_owns h' m' ∧ array_rep m' a' (l ++ gs) ∧
       array_frame m a m' a')
    (λ e '(h', a'), e = ENOMEM ∧ a' = a ∧ heap_owns h' m).
Proof.
  intros Hh Hr Hmax Hng Hle. wp_steps.
  eapply wp_mono; [by apply (array_preallocate_spec h m a l)| |done].
  intros _ [h' a'] (m' & Hh' & Hr' & Hs & Hle' & _).
  pose proof (array_rep_num _ _ _ Hr). pose proof (array_rep_num _ _ _ Hr').
  eapply wp_mono; [apply (array_adds_room _ gs h' m' a' l); [done|lia]| |done].
  intros _ [h'' a''] (-> & Hr'' & Hv). exists m'. unfold array_frame in *.
  by rewrite Hv.
Qed.
End properties.

(** An empty array over a heap that can satisfy three requests. *)
Definition ex_array : array nat := MkArray 0 0 0 [].
Definition ex_array3 : array nat := MkArray 3 4 16 [Some 1; Some 2; Some 3; None]%nat.

Lemma array_add_refines_witness :
  wp safe_oom (array_add 7%nat) (SimpleHeap.init 3, ex_array)
    (λ _ '(h', a'), ∃ m', heap_owns h' m' ∧ array_rep m' a' [7]%nat ∧
       array_frame ∅ ex_array m' a')
    (λ e '(h', a'), e = ENOMEM ∧ a' = ex_array ∧ heap_owns h' ∅).
Proof.
  apply (array_add_refines (SimpleHeap.init 3) ∅ ex_array [] 7%nat);
    [apply SimpleHeap.init_owns|by split|done|done].
Defined.

Lemma array_remove_refines_witness :
  wp safe (array_remove 1) (SimpleHeap.init 3, ex_array3)
    (λ _ '(h', a'), h' = SimpleHeap.init 3 ∧
       array_rep {[16 := 16]} a' (delete 1%nat [1; 2; 3]%nat)) noerr.
Proof.
  apply (array_remove_refines (SimpleHeap.init 3) {[16 := 16]} ex_array3
           [1; 2; 3]%nat 1); [split; try done; by eexists|done].
Defined.

Lemma array_preallocate_reserves_witness :
  wp safe_oom (array_preallocate 2 ;; for_each [5; 6]%nat array_add)
    (SimpleHeap.init 3, ex_array)
    (λ _ '(h', a'), ∃ m', heap_owns h' m' ∧ array_rep m' a' [5; 6]%nat ∧
       array_frame ∅ ex_array m' a')
    (λ e '(h', a'), e = ENOMEM ∧ a' = ex_array ∧ heap_owns h' ∅).
Proof.
  apply (array_preallocate_reserves (SimpleHeap.init 3) ∅ ex_array [] 2
           [5; 6]%nat); [apply SimpleHeap.init_owns|by split|done|done|done].
Defined.
