(* ===== verification/Queue.v ===== *)
(** * Queues of pointers as ring buffers (kern/lib/queue.c)

    The run queue of the scheduler and the wait queues of locks and condition
    variables. The state is the kernel heap and the [struct queue]; the ring
    holds at most [size - 1] pointers, and [q_addtail] doubles a full ring.
    The theorems refine the ring to a first-in first-out list. *)

From Stdlib Require Import ZArith Lia.
From stdpp Require Import base list gmap numbers.
From S2P Require Import Prelude KMem.

Local Open Scope Z_scope.

Record queue (A : Type) := MkQueue {
  size : Z;
  nextwrite : Z;
  nextread : Z;
  data : Z;
  slots : list (option A);
}.
Arguments MkQueue {A} size nextwrite nextread data slots.
Arguments size {A} q.
Arguments nextwrite {A} q.
Arguments nextread {A} q.
Arguments data {A} q.
Arguments slots {A} q.

(** [sizeof(struct queue)], [sizeof(void * )] *)
Definition sizeof_queue : Z := 16.
Definition sizeof_slot : Z := 4.

Section operations.
Context `{!KHeap H} {A : Type}.
Implicit Types q : queue A.

(** [while (nsize < targetsize) { nsize *= 2; assert(nsize > 0); }] *)
Fixpoint grow_size {S} (fuel : nat) (targetsize nsize : Z) : M S Z :=
  if nsize <? targetsize then
    match fuel with
    | O => noreturn
    | Datatypes.S fuel =>
      if INT_MAX <? nsize * 2 then undefined else
      assert (0 <? nsize * 2);; grow_size fuel targetsize (nsize * 2)
    end
  else mret nsize.

(** Doubling a positive [int] 32 times exceeds every [int]. *)
Definition grow_size_fuel : nat := 32.

(** [for (i=onr; i!=onw; i = (i+1)%osize) { result = q_addtail(q, olddata[i]);
    assert(result==0); }]; a turn visits a slot of the old ring once. *)
Fixpoint move_slots (addtail : A → M (H * queue A) ()) (fuel : nat)
    (i onw osize : Z) (olddata : list (option A)) : M (H * queue A) () :=
  if i =? onw then mret tt else
  match fuel with
  | O => noreturn
  | S fuel =>
    w ← the (zlookup olddata i);
    x ← the w;
    r ← try (addtail x);
    assert (if r is inl _ then true else false);;
    move_slots addtail fuel ((i + 1) `mod` osize) onw osize olddata
  end.

(** [q_grow] and [q_addtail] call each other; [q_grow] receives the
    [q_addtail] it calls. *)
Definition q_grow_with (addtail : A → M (H * queue A) ())
    (targetsize : Z) : M (H * queue A) () :=
  q ← on_data get;
  nsize ← grow_size grow_size_fuel targetsize (size q);
  ndata ← on_heap (kmalloc (u32 (nsize * sizeof_slot)));
  if ndata =? 0 then fail ENOMEM else
  (on_data (put (MkQueue nsize 0 0 ndata (replicate (Z.to_nat nsize) None)));;
   move_slots addtail (Z.to_nat (size q)) (nextread q) (nextwrite q) (size q)
     (slots q);;
   on_heap (kfree (data q))).

Fixpoint q_addtail_at (depth : nat) (ptr : A) : M (H * queue A) () :=
  q ← on_data get;
  assert (0 <? size q);;
  (if (nextwrite q + 1) `mod` size q =? nextread q then
     match depth with
     | O => noreturn
     | S depth => q_grow_with (q_addtail_at depth) (size q + 1)
     end
   else mret tt);;
  q ← on_data get;
  let nextnext := (nextwrite q + 1) `mod` size q in
  sl ← the (zstore (slots q) (nextwrite q) (Some ptr));
  on_data (put (MkQueue (size q) nextnext (nextread q) (data q) sl)).

(** Growing re-inserts into a ring with room, so the nested [q_addtail] does
    not grow again: one level is enough. *)
Definition q_addtail : A → M (H * queue A) () := q_addtail_at 1.
Definition q_grow : Z → M (H * queue A) () := q_grow_with (q_addtail_at 0).

Definition q_create (sz : Z) : M H (option (Z * queue A)) :=
  q ← kmalloc sizeof_queue;
  if q =? 0 then mret None else
  d ← kmalloc (u32 (sz * sizeof_slot));
  if d =? 0 then kfree q;; mret None
  else mret (Some (q, MkQueue sz 0 0 d (replicate (Z.to_nat sz) None))).

Definition q_preallocate (sz : Z) : M (H * queue A) () :=
  q ← on_data get;
  assert (0 <? size q);;
  when (size q <? sz) (q_grow sz).

Definition q_empty (q : queue A) : bool := nextwrite q =? nextread q.

Definition q_remhead : M (H * queue A) A :=
  q ← on_data get;
  assert (0 <? size q);;
  assert (negb (q_empty q));;
  w ← the (zlookup (slots q) (nextread q));
  on_data (put (MkQueue (size q) (nextwrite q) ((nextread q + 1) `mod` size q)
                  (data q) (slots q)));;
  the w.

Definition q_destroy (self : Z) : M (H * queue A) () :=
  q ← on_data get;
  assert (q_empty q);;
  on_heap (kfree (data q));;
  on_heap (kfree self).

Definition q_getstart (q : queue A) : Z := nextread q.
Definition q_getend (q : queue A) : Z := nextwrite q.
Definition q_getsize (q : queue A) : Z := size q.
Definition q_getguy (index : Z) : M (H * queue A) A :=
  q ← on_data get;
  assert ((0 <=? index) && (index <? size q));;
  w ← the (zlookup (slots q) index);
  the w.
End operations.

(** ** Refinement to first-in first-out lists *)

(** [queue_rep m q l]: from [nextread] on, modulo [size], the ring holds [l]. *)
Record queue_rep {A} (m : gmap Z Z) (q : queue A) (l : list A) : Prop := {
  queue_rep_size : Z.of_nat (length (slots q)) = size q;
  queue_rep_room : Z.of_nat (length l) < size q;
  queue_rep_read : 0 ≤ nextread q < size q;
  queue_rep_write : nextwrite q = (nextread q + Z.of_nat (length l)) `mod` size q;
  queue_rep_slots : ∀ k x, zlookup l k = Some x →
    zlookup (slots q) ((nextread q + k) `mod` size q) = Some (Some x);
  queue_rep_data : is_Some (m !! data q);
}.

Definition queue_frame {A} (m : gmap Z Z) (q : queue A) (m' : gmap Z Z) (q' : queue A) :=
  delete (data q') m' = delete (data q) m.

Section lemmas.
Context `{HL : KHeapLaws H} {A : Type}.
Implicit Types (h : H) (q : queue A) (l : list A) (m : gmap Z Z).

Lemma mod_wrap x s : 0 ≤ x < 2 * s → x `mod` s = if x <? s then x else x - s.
Proof.
  intros. destruct (Z.ltb_spec x s); [apply Z.mod_small; lia|].
  symmetry. apply (Z.mod_unique x s 1); lia.
Qed.

(** The ring is full exactly when the next write would reach the reader. *)
Lemma queue_full_iff m q l :
  queue_rep m q l →
  (nextwrite q + 1) `mod` size q = nextread q ↔
  Z.of_nat (length l) = size q - 1.
Proof.
  intros [Hs Hr Hrd -> _ _]. rewrite Zplus_mod_idemp_l, mod_wrap by lia.
  destruct (Z.ltb_spec (nextread q + Z.of_nat (length l) + 1) (size q)); lia.
Qed.

Lemma q_empty_iff m q l : queue_rep m q l → q_empty q = true ↔ l = [].
Proof.
  intros [Hs Hr Hrd Hw _ _]. unfold q_empty. rewrite Z.eqb_eq, Hw.
  rewrite mod_wrap by lia. split.
  - destruct l; [done|]. simpl in *. case_match; lia.
  - intros ->. cbn [length Z.of_nat]. rewrite Z.add_0_r.
    destruct (Z.ltb_spec (nextread q) (size q)); lia.
Qed.

Lemma zlookup_app_last l x k y :
  zlookup (l ++ [x]) k = Some y →
  zlookup l k = Some y ∨ (k = Z.of_nat (length l) ∧ y = x).
Proof.
  intros Hk. pose proof (zlookup_lt_Some _ _ _ Hk) as Hlt.
  rewrite length_app in Hlt; simpl in Hlt. unfold zlookup in *.
  destruct (Z.leb_spec 0 k); [|done].
  apply lookup_app_Some in Hk as [?|[Hge Hk]]; [by left|right].
  apply list_lookup_singleton_Some in Hk as [? ->]. split; [lia|done].
Qed.

Lemma queue_push_rep m q l x :
  queue_rep m q l → Z.of_nat (length l) < size q - 1 →
  queue_rep m (MkQueue (size q) ((nextwrite q + 1) `mod` size q) (nextread q)
    (data q) (<[Z.to_nat (nextwrite q) := Some x]> (slots q))) (l ++ [x]).
Proof.
  intros [Hs Hr Hrd Hw Hsl Hd] Hlt.
  assert (0 ≤ nextwrite q < size q) by (rewrite Hw; apply Z.mod_pos_bound; lia).
  split; simpl; [by rewrite length_insert|rewrite length_app; simpl; lia|done| | |done].
  - rewrite Hw, Zplus_mod_idemp_l, length_app. simpl. f_equal. lia.
  - intros k y [Hk|[-> ->]]%zlookup_app_last.
    + pose proof (zlookup_lt_Some _ _ _ Hk). rewrite zlookup_insert_ne; [eauto| |lia].
      rewrite Hw, !mod_wrap by lia. repeat case_match; lia.
    + rewrite <- Hw. apply zlookup_insert_eq. lia.
Qed.

Lemma q_addtail_room F depth h m q l x :
  queue_rep m q l → Z.of_nat (length l) < size q - 1 →
  wp F (q_addtail_at depth x) (h, q)
    (λ _ '(h', q'), h' = h ∧ queue_rep m q' (l ++ [x]) ∧
       size q' = size q ∧ data q' = data q) noerr.
Proof.
  intros Hrep Hlt. pose proof (queue_full_iff _ _ _ Hrep) as Hfull.
  pose proof Hrep as [Hs Hr Hrd Hw _ _].
  assert (0 ≤ nextwrite q < size q) by (rewrite Hw; apply Z.mod_pos_bound; lia).
  destruct depth; cbn [q_addtail_at]; mem_steps; (wp_assert by lia); mem_steps;
    wp_if; mem_steps; (wp_the _ by (apply zstore_Some; lia)); mem_steps;
    (split_and!; [done|by apply queue_push_rep|done..]).
Qed.

Lemma grow_size_spec {S} F fuel target n s (Q : Z → S → Prop) E :
  0 < n → target ≤ 2 ^ 29 → target < n * 2 ^ Z.of_nat fuel →
  (∀ n', n ≤ n' → target ≤ n' → n' ≤ Z.max n (2 * target) → Q n' s) →
  wp F (grow_size fuel target n) s Q E.
Proof.
  revert n. induction fuel as [|fuel IH]; intros n H0 Ht Hf HQ; simpl.
  - destruct (Z.ltb_spec n target); [lia|]. apply wp_ret, HQ; lia.
  - destruct (Z.ltb_spec n target); [|apply wp_ret, HQ; lia].
    rewrite Nat2Z.inj_succ, Z.pow_succ_r in Hf by lia.
    destruct (Z.ltb_spec INT_MAX (n * 2)) as [Hov|]; [unfold INT_MAX in Hov; lia|].
    wp_step. wp_assert by lia. apply IH; [lia..|nia|]. intros n' ???. apply HQ; lia.
Qed.

(** Moving the elements of an old ring [q0] one by one into a larger ring. *)
Lemma move_slots_spec F depth m0 q0 l m h :
  queue_rep m0 q0 l → ∀ n k fuel q,
  length l = (k + n)%nat → (n ≤ fuel)%nat →
  queue_rep m q (take k l) → Z.of_nat (length l) < size q →
  wp F (move_slots (q_addtail_at depth) fuel
          ((nextread q0 + Z.of_nat k) `mod` size q0) (nextwrite q0) (size q0)
          (slots q0)) (h, q)
    (λ _ '(h', q'), h' = h ∧ queue_rep m q' l ∧
       size q' = size q ∧ data q' = data q) noerr.
Proof.
  intros Hrep0. pose proof Hrep0 as [Hs Hr Hrd Hw Hsl _].
  induction n as [|n IH]; intros k fuel q Hk Hfuel Hrep Hroom.
  - replace (Z.of_nat k) with (Z.of_nat (length l)) by lia. rewrite <- Hw.
    rewrite firstn_all2 in Hrep by lia.
    destruct fuel; simpl; rewrite Z.eqb_refl; by wp_steps.
  - destruct fuel as [|fuel]; [lia|]. cbn [move_slots].
    destruct (Z.eqb_spec ((nextread q0 + Z.of_nat k) `mod` size q0) (nextwrite q0))
      as [Heq|_].
    { exfalso. rewrite Hw, !mod_wrap in Heq by lia. repeat case_match; lia. }
    destruct (lookup_lt_is_Some_2 l k) as [x Hx]; [lia|].
    wp_steps. wp_the (Some x) by (apply Hsl; by rewrite zlookup_nat).
    wp_steps. wp_the x by done. wp_steps.
    eapply wp_mono; [eapply q_addtail_room; [done|]| |done].
    { rewrite length_take. lia. }
    intros _ [h' q'] (-> & Hrep' & Hsz & Hd). wp_assert by done.
    rewrite <- (take_S_r _ _ _ Hx) in Hrep'.
    replace (((nextread q0 + Z.of_nat k) `mod` size q0 + 1) `mod` size q0)
      with ((nextread q0 + Z.of_nat (S k)) `mod` size q0)
      by (rewrite Zplus_mod_idemp_l; f_equal; lia).
    eapply wp_mono; [apply IH; [lia..|done|lia]| |done].
    intros _ [h' q''] (-> & ? & ? & ?). split_and!; [done..|lia|congruence].
Qed.

Lemma fresh_ring_rep m n p sz :
  0 < n → m !! p = Some sz →
  queue_rep m (MkQueue n 0 0 p (replicate (Z.to_nat n) (@None A))) [].
Proof.
  intros Hn Hp. split; simpl; [rewrite length_replicate; lia|lia|lia| | |eauto].
  - by rewrite Z.mod_0_l by lia.
  - intros k x Hk. unfold zlookup in Hk. by destruct (0 <=? k).
Qed.

Lemma queue_rep_owner m m' q l :
  queue_rep m q l → is_Some (m' !! data q) → queue_rep m' q l.
Proof. by intros [] ?; split. Qed.

Lemma q_grow_spec depth h m q l target :
  heap_owns h m → queue_rep m q l → size q < 2 ^ 28 → target < 2 ^ 28 →
  wp safe_oom (q_grow_with (q_addtail_at depth) target) (h, q)
    (λ _ '(h', q'), ∃ m', heap_owns h' m' ∧ queue_rep m' q' l ∧
       queue_frame m q m' q' ∧ target ≤ size q' ∧ size q ≤ size q' ∧
       size q' ≤ Z.max (size q) (2 * target))
    (λ e '(h', q'), e = ENOMEM ∧ q' = q ∧ heap_owns h' m).
Proof.
  intros Hh Hrep Hsz Ht. pose proof Hrep as [Hs Hr Hrd Hw _ [sz0 Hd]].
  unfold q_grow_with. mem_steps.
  apply grow_size_spec; [lia..|unfold grow_size_fuel; lia|].
  intros n Hn1 Hn2 Hn3. mem_steps.
  rewrite u32_small by (unfold sizeof_slot; lia).
  apply (wp_kmalloc _ m); [done|unfold sizeof_slot; lia| |].
  { intros h' Hh'. wp_if. wp_steps. by split_and!. }
  intros p h' Hp Hmp Hh'. wp_if. mem_steps.
  assert (p ≠ data q) by congruence.
  eapply wp_mono.
  { assert ((nextread q + Z.of_nat 0) `mod` size q = nextread q) as Hi0.
    { rewrite Z.add_0_r. by apply Z.mod_small. }
    rewrite <- Hi0. apply (move_slots_spec _ depth m q l (<[p := n * sizeof_slot]> m) h' Hrep (length l));
      [lia..| |simpl; lia].
    eapply fresh_ring_rep; [lia|apply lookup_insert_eq]. }
  2: done.
  intros _ [h'' q'] (-> & Hrep' & Hsz' & Hd'). simpl in *.
  apply (wp_kfree _ _ (<[p := n * sizeof_slot]> m)); [done| |].
  { rewrite lookup_insert_ne by done. eauto. }
  intros h'' Hh''. exists (delete (data q) (<[p := n * sizeof_slot]> m)).
  split_and!; [done| | |lia..].
  - eapply queue_rep_owner; [done|]. rewrite Hd', lookup_delete_ne by done.
    rewrite lookup_insert_eq. eauto.
  - unfold queue_frame. rewrite Hd', delete_delete. by rewrite delete_insert_id.
Qed.

Lemma q_preallocate_spec h m q l n :
  heap_owns h m → queue_rep m q l → size q < 2 ^ 28 → n < 2 ^ 28 →
  wp safe_oom (q_preallocate n) (h, q)
    (λ _ '(h', q'), ∃ m', heap_owns h' m' ∧ queue_rep m' q' l ∧
       queue_frame m q m' q' ∧ n ≤ size q' ∧ size q ≤ size q' ∧
       size q' ≤ Z.max (size q) (2 * n))
    (λ e '(h', q'), e = ENOMEM ∧ q' = q ∧ heap_owns h' m).
Proof.
  intros Hh Hrep Hsz Hn. pose proof Hrep as [_ Hr _ _ _ _]. unfold q_preallocate.
  mem_steps. wp_assert by lia. mem_steps. wp_if.
  - by apply (q_grow_spec 0 h m q l).
  - mem_steps. exists m. split_and!; try done; lia.
Qed.

Lemma q_addtail_spec h m q l x :
  heap_owns h m → queue_rep m q l → size q < 2 ^ 28 - 1 →
  wp safe_oom (q_addtail x) (h, q)
    (λ _ '(h', q'), ∃ m', heap_owns h' m' ∧ queue_rep m' q' (l ++ [x]) ∧
       queue_frame m q m' q')
    (λ e '(h', q'), e = ENOMEM ∧ q' = q ∧ heap_owns h' m).
Proof.
  intros Hh Hrep Hsz. pose proof Hrep as [Hs Hr Hrd Hw _ _].
  pose proof (queue_full_iff _ _ _ Hrep) as Hfull.
  destruct (decide (Z.of_nat (length l) < size q - 1)) as [Hlt|Hge].
  { eapply wp_mono; [by eapply q_addtail_room| |done].
    intros _ [h' q'] (-> & Hr' & _ & Hd). exists m. unfold queue_frame. by rewrite Hd. }
  unfold q_addtail. cbn [q_addtail_at]. mem_steps. wp_assert by lia. mem_steps.
  wp_if. eapply wp_mono; [apply (q_grow_spec 0 h m q l); [done..|lia|lia]| |done].
  intros _ [h' q'] (m' & Hh' & Hrep' & Hsame & Hle & _).
  pose proof Hrep' as [Hs' _ _ Hw' _ _]. mem_steps.
  wp_the _ by (apply zstore_Some; rewrite Hw', Hs'; apply Z.mod_pos_bound; lia).
  mem_steps. exists m'. split_and!; [done| |done]. apply queue_push_rep; [done|lia].
Qed.

Lemma q_remhead_spec F h m q x l :
  queue_rep m q (x :: l) →
  wp F q_remhead (h, q)
    (λ y '(h', q'), y = x ∧ h' = h ∧ queue_rep m q' l ∧
       size q' = size q ∧ data q' = data q) noerr.
Proof.
  intros Hrep. pose proof Hrep as [Hs Hr Hrd Hw Hsl Hd].
  unfold q_remhead. mem_steps. wp_assert by lia. mem_steps.
  assert (q_empty q = false) as ->.
  { destruct (q_empty q) eqn:He; [|done].
    by apply (q_empty_iff _ _ _ Hrep) in He. }
  wp_assert by done. mem_steps.
  eapply (wp_the _ _ (Some x)).
  { specialize (Hsl 0 x eq_refl). by rewrite Z.add_0_r, Z.mod_small in Hsl. }
  mem_steps. apply (wp_the _ _ x); [done|].
  split_and!; [done..| |done|done]. simpl in Hr, Hw.
  split; simpl; [done|lia|apply Z.mod_pos_bound; lia| | |done].
  - rewrite Hw, Zplus_mod_idemp_l. f_equal. lia.
  - intros k y Hk. rewrite Zplus_mod_idemp_l, <- Z.add_assoc.
    apply Hsl. pose proof (zlookup_lt_Some _ _ _ Hk).
    unfold zlookup in *. destruct (Z.leb_spec 0 k); [|done].
    destruct (Z.leb_spec 0 (1 + k)); [|lia].
    by replace (Z.to_nat (1 + k)) with (S (Z.to_nat k)) by lia.
Qed.
End lemmas.

(** Removing [n] pointers from the head, in order. *)
Fixpoint q_remheads {H A} (n : nat) : M (H * queue A) (list A) :=
  match n with
  | O => mret []
  | S n => x ← q_remhead; xs ← q_remheads n; mret (x :: xs)
  end.

(** ** Properties *)
Section properties.
Context `{HL : KHeapLaws H} {A : Type}.
Implicit Types (h : H) (q : queue A) (l : list A) (m : gmap Z Z).

Lemma q_addtails_room F xs : ∀ h m q l,
  queue_rep m q l → Z.of_nat (length l + length xs) < size q →
  wp F (for_each xs q_addtail) (h, q)
    (λ _ '(h', q'), h' = h ∧ queue_rep m q' (l ++ xs) ∧
       size q' = size q ∧ data q' = data q) noerr.
Proof.
  induction xs as [|x xs IH]; intros h m q l Hr Hlt; simpl in *.
  { wp_steps. by rewrite app_nil_r. }
  wp_steps. eapply wp_mono; [eapply q_addtail_room; [done|lia]| |done].
  intros _ [h' q'] (-> & Hr' & Hs & Hd).
  eapply wp_mono; [apply (IH h m q' (l ++ [x])); [done|]| |done].
  { rewrite length_app; simpl; lia. }
  intros _ [h' q''] (-> & Hr'' & ? & ?). rewrite <- (assoc_L (++)) in Hr''.
  split_and!; [done..|lia|congruence].
Qed.

Lemma q_remheads_spec F xs : ∀ h m q l,
  queue_rep m q (xs ++ l) →
  wp F (q_remheads (length xs)) (h, q)
    (λ ys '(h', q'), ys = xs ∧ h' = h ∧ queue_rep m q' l ∧ data q' = data q) noerr.
Proof.
  induction xs as [|x xs IH]; intros h m q l Hr; simpl; wp_steps; [done|].
  eapply wp_mono; [by apply (q_remhead_spec _ _ m _ x (xs ++ l))| |done].
  intros y [h' q'] (-> & -> & Hr' & _ & Hd). wp_steps.
  eapply wp_mono; [by apply (IH h m q' l)| |done].
  intros ys [h' q''] (-> & -> & Hr'' & Hd'). wp_steps. rewrite Hd'. by split_and!.
Qed.

(** [q_addtail] appends at the tail of the first-in first-out list the
    ring stands for, growing the ring when it is full, or returns [ENOMEM] and
    leaves the queue as it was; its assertions hold, its recursion through
    [q_grow] ends, and no other heap block changes. *)
Theorem q_addtail_refines h m q l x :
  heap_owns h m → queue_rep m q l → size q < 2 ^ 28 - 1 →
  wp safe_oom (q_addtail x) (h, q)
    (λ _ '(h', q'), ∃ m', heap_owns h' m' ∧ queue_rep m' q' (l ++ [x]) ∧
       queue_frame m q m' q')
    (λ e '(h', q'), e = ENOMEM ∧ q' = q ∧ heap_owns h' m).
Proof. apply q_addtail_spec. Qed.

(** what was added comes out in the order of addition: draining a queue
    that held [l] after adding [xs] within its capacity yields [l ++ xs], and
    leaves it empty. *)
Theorem q_fifo h m q l xs :
  queue_rep m q l → Z.of_nat (length l + length xs) < size q →
  wp safe (for_each xs q_addtail ;; q_remheads (length (l ++ xs))) (h, q)
    (λ ys '(h', q'), ys = l ++ xs ∧ h' = h ∧ q_empty q' = true) noerr.
Proof.
  intros Hr Hlt. wp_steps.
  eapply wp_mono; [by apply (q_addtails_room _ xs h m q l)| |done].
  intros _ [h' q'] (-> & Hr' & _). eapply wp_mono.
  { eapply (q_remheads_spec _ (l ++ xs) h m q' []). by rewrite app_nil_r. }
  - intros ys [h' q''] (-> & -> & Hr'' & _). split_and!; [done..|].
    by apply (q_empty_iff _ _ _ Hr'').
  - done.
Qed.

(** after [q_preallocate sz] the queue takes additions up to a total of
    [sz - 1] pointers without failing (a ring of [sz] slots holds one less). *)
Theorem q_preallocate_reserves h m q l sz xs :
  heap_owns h m → queue_rep m q l → size q < 2 ^ 28 → sz < 2 ^ 28 →
  Z.of_nat (length l + length xs) ≤ sz - 1 →
  wp safe_oom (q_preallocate sz ;; for_each xs q_addtail) (h, q)
    (λ _ '(h', q'), ∃ m', heap_owns h' m' ∧ queue_rep m' q' (l ++ xs) ∧
       queue_frame m q m' q')
    (λ e '(h', q'), e = ENOMEM ∧ q' = q ∧ heap_owns h' m).
Proof.
  intros Hh Hr Hsz Hlt Hle. pose proof (queue_rep_room _ _ _ Hr).
  assert (∀ h' m' q', heap_owns h' m' → queue_rep m' q' l → sz ≤ size q' →
    queue_frame m q m' q' →
    wp safe_oom (for_each xs q_addtail) (h', q')
      (λ _ '(h', q'), ∃ m', heap_owns h' m' ∧ queue_rep m' q' (l ++ xs) ∧
         queue_frame m q m' q') noerr) as Hadd.
  { intros h' m' q' Hh' Hr' Hs' Hsame.
    eapply wp_mono; [apply (q_addtails_room _ xs h' m' q' l); [done|lia]| |done].
    intros _ [h'' q''] (-> & Hr'' & _ & Hd). exists m'. unfold queue_frame in *.
    by rewrite Hd. }
  unfold q_preallocate. mem_steps. wp_assert by lia. wp_if.
  - eapply wp_mono; [by apply (q_grow_spec 0 h m q l)| |done].
    intros _ [h' q'] (m' & Hh' & Hr' & Hsame & Hle' & _).
    eapply wp_mono; [by eapply Hadd|done|done].
  - eapply wp_mono; [eapply (Hadd h m q); [done..|lia|done]|done|done].
Qed.
End properties.

(** The run queue as [scheduler_bootstrap] creates it, on a heap with no memory
    left. *)
Definition full_heap : SimpleHeap.t :=
  {| SimpleHeap.next := 1000; SimpleHeap.live := {[16 := 128]};
     SimpleHeap.budget := 0 |}.
Definition boot_queue : queue nat :=
  MkQueue 32 0 0 16 (replicate 32 None).

(** [q_preallocate 32] accepts the run queue of 32 slots as it is, yet adding
    32 pointers to it needs [q_grow] and fails with [ENOMEM] when the heap is
    exhausted: the reservation is one pointer short of its argument. *)
Theorem q_preallocate_one_short :
  ∃ s, (q_preallocate 32 ;; for_each (seq 0 32) q_addtail)
         (full_heap, boot_queue) = Err ENOMEM s ∧ size s.2 = 32 ∧
       q_getend s.2 = 31.
Proof. eexists. split; [vm_compute; reflexivity|by split]. Qed.

Definition ex_queue : queue nat := MkQueue 4 1 2 16 [Some 9; None; Some 7; Some 8]%nat.

Lemma ex_queue_rep : queue_rep {[16 := 16]} ex_queue [7; 8; 9]%nat.
Proof.
  split; [done..| |by eexists]. intros k x Hk.
  pose proof (zlookup_lt_Some _ _ _ Hk) as Hlt. simpl in Hlt.
  assert (k = 0 ∨ k = 1 ∨ k = 2) as [-> | [-> | ->]] by lia;
    vm_compute in Hk; simplify_eq; reflexivity.
Qed.

Lemma ex_heap_owns (b : nat) :
  heap_owns {| SimpleHeap.next := 1000; SimpleHeap.live := {[16 := 16]};
               SimpleHeap.budget := b |} {[16 := 16]}.
Proof.
  split; simpl; [done|lia| |].
  - intros p sz [<- <-]%lookup_singleton_Some. lia.
  - intros p sz q sz' [<- <-]%lookup_singleton_Some [<- <-]%lookup_singleton_Some. done.
Qed.

(** A full ring of four slots that wraps around, and a heap with memory: the
    addition grows it. *)
Lemma q_addtail_refines_witness :
  wp safe_oom (q_addtail 10%nat)
    ({| SimpleHeap.next := 1000; SimpleHeap.live := {[16 := 16]};
        SimpleHeap.budget := 1 |}, ex_queue)
    (λ _ '(h', q'), ∃ m', heap_owns h' m' ∧
       queue_rep m' q' [7; 8; 9; 10]%nat ∧ queue_frame {[16 := 16]} ex_queue m' q')
    (λ e '(h', q'), e = ENOMEM ∧ q' = ex_queue ∧ heap_owns h' {[16 := 16]}).
Proof.
  apply (q_addtail_refines _ {[16 := 16]} ex_queue [7; 8; 9]%nat 10%nat);
    [apply ex_heap_owns|apply ex_queue_rep|done].
Defined.

Lemma q_fifo_witness :
  wp safe (for_each [1; 2]%nat q_addtail ;; q_remheads 2) (full_heap, boot_queue)
    (λ ys '(h', q'), ys = [1; 2]%nat ∧ h' = full_heap ∧ q_empty q' = true) noerr.
Proof.
  apply (q_fifo full_heap {[16 := 128]} boot_queue [] [1; 2]%nat); [|done].
  eapply (fresh_ring_rep _ 32 16 128); [done|apply lookup_singleton_eq].
Defined.

Lemma q_preallocate_reserves_witness :
  wp safe_oom (q_preallocate 5 ;; for_each [10]%nat q_addtail)
    ({| SimpleHeap.next := 1000; SimpleHeap.live := {[16 := 16]};
        SimpleHeap.budget := 1 |}, ex_queue)
    (λ _ '(h', q'), ∃ m', heap_owns h' m' ∧
       queue_rep m' q' ([7; 8; 9] ++ [10])%nat ∧ queue_frame {[16 := 16]} ex_queue m' q')
    (λ e '(h', q'), e = ENOMEM ∧ q' = ex_queue ∧ heap_owns h' {[16 := 16]}).
Proof.
  apply (q_preallocate_reserves _ {[16 := 16]} ex_queue [7; 8; 9]%nat 5 [10]%nat);
    [apply ex_heap_owns|apply ex_queue_rep|done..].
Defined.
