(* ===== verification/Bitmap.v ===== *)
(** * Bitmaps (kern/lib/bitmap.c)

    The free-block map of the SFS file system. A bitmap is its number of bits
    and its bytes; the bits of the last byte beyond [nbits] are kept set, so
    that [bitmap_alloc] never hands them out. The theorems describe the
    operations on the set of bits. *)

From Stdlib Require Import ZArith Lia.
From stdpp Require Import base list gmap numbers.
From S2P Require Import Prelude KMem.

Local Open Scope Z_scope.

(** [BITS_PER_WORD], [WORD_ALLBITS]; the word type is [unsigned char]. *)
Definition BITS_PER_WORD : Z := 8.
Definition WORD_ALLBITS : Z := 0xff.

Record bitmap := MkBitmap {
  nbits : Z;
  bits : list Z;
}.

(** [sizeof(struct bitmap)] *)
Definition sizeof_bitmap : Z := 8.

(** [for (j=overbits; j<BITS_PER_WORD; j++) b->v[ix] |= ((WORD_TYPE)1 << j);] *)
Definition mark_leftover (overbits w : Z) : Z :=
  foldl (λ w j, u8 (Z.lor w (u8 (Z.shiftl 1 j)))) w
    (seqZ overbits (BITS_PER_WORD - overbits)).

Section operations.
Context `{!KHeap H}.

(** Returns the addresses of the [struct bitmap] and of its bytes, and the
    bitmap. *)
Definition bitmap_create (nb : Z) : M H (option (Z * Z * bitmap)) :=
  let words := DIVROUNDUP nb BITS_PER_WORD in
  b ← kmalloc sizeof_bitmap;
  if b =? 0 then mret None else
  v ← kmalloc words;
  if v =? 0 then kfree b;; mret None else
  let bm := replicate (Z.to_nat words) 0 in
  if nb / BITS_PER_WORD <? words then
    let ix := words - 1 in
    let overbits := nb - ix * BITS_PER_WORD in
    assert (nb / BITS_PER_WORD =? words - 1);;
    assert ((0 <? overbits) && (overbits <? BITS_PER_WORD));;
    w ← the (zlookup bm ix);
    bm ← the (zstore bm ix (mark_leftover overbits w));
    mret (Some (b, v, MkBitmap nb bm))
  else mret (Some (b, v, MkBitmap nb bm)).

Definition bitmap_destroy (b v : Z) : M H () := kfree v;; kfree b.
End operations.

(** [bitmap_getdata]: the bytes, for I/O *)
Definition bitmap_getdata (b : bitmap) : list Z := bits b.

(** The inner loop of [bitmap_alloc]: the first clear bit of a byte. *)
Fixpoint first_clear (fuel : nat) (offset w : Z) : option Z :=
  match fuel with
  | O => None
  | S fuel =>
    if Z.land w (u8 (Z.shiftl 1 offset)) =? 0 then Some offset
    else first_clear fuel (offset + 1) w
  end.

(** The outer loop, from byte [ix] on: [fuel] bytes are left. *)
Fixpoint alloc_from (fuel : nat) (ix : Z) : M bitmap Z :=
  match fuel with
  | O => fail ENOSPC
  | S fuel =>
    b ← get;
    w ← the (zlookup (bits b) ix);
    if negb (w =? WORD_ALLBITS) then
      match first_clear 8 0 w with
      | Some offset =>
        let mask := u8 (Z.shiftl 1 offset) in
        bs ← the (zstore (bits b) ix (Z.lor w mask));
        put (MkBitmap (nbits b) bs);;
        let index := u32 (ix * BITS_PER_WORD + offset) in
        assert (index <? nbits b);;
        mret index
      | None => assert false;; alloc_from fuel (ix + 1)
      end
    else alloc_from fuel (ix + 1)
  end.

Definition bitmap_alloc : M bitmap Z :=
  b ← get;
  alloc_from (Z.to_nat (DIVROUNDUP (nbits b) BITS_PER_WORD)) 0.

Definition bitmap_translate (bitno : Z) : Z * Z :=
  (bitno / BITS_PER_WORD, u8 (Z.shiftl 1 (bitno `mod` BITS_PER_WORD))).

Definition bitmap_mark (index : Z) : M bitmap () :=
  b ← get;
  assert (index <? nbits b);;
  let '(ix, mask) := bitmap_translate index in
  w ← the (zlookup (bits b) ix);
  assert (Z.land w mask =? 0);;
  bs ← the (zstore (bits b) ix (Z.lor w mask));
  put (MkBitmap (nbits b) bs).

Definition bitmap_unmark (index : Z) : M bitmap () :=
  b ← get;
  assert (index <? nbits b);;
  let '(ix, mask) := bitmap_translate index in
  w ← the (zlookup (bits b) ix);
  assert (negb (Z.land w mask =? 0));;
  bs ← the (zstore (bits b) ix (Z.land w (u8 (Z.lnot mask))));
  put (MkBitmap (nbits b) bs).

(** The result of the C function is the masked byte; callers test it for 0. *)
Definition bitmap_isset (index : Z) : M bitmap Z :=
  b ← get;
  let '(ix, mask) := bitmap_translate index in
  w ← the (zlookup (bits b) ix);
  mret (Z.land w mask).

(** ** The set of bits *)

(** Bit [i] of the map *)
Definition bit (b : bitmap) (i : Z) : bool :=
  match zlookup (bits b) (i / 8) with
  | Some w => Z.testbit w (i `mod` 8)
  | None => false
  end.

(** Well-formed: one byte per eight bits, bytes in range, the leftover bits of
    the last byte set. The bound keeps [DIVROUNDUP] from wrapping around. *)
Record bitmap_wf (b : bitmap) : Prop := {
  wf_nbits : 0 ≤ nbits b < 2 ^ 32 - 8;
  wf_length : Z.of_nat (length (bits b)) = (nbits b + 7) / 8;
  wf_bytes : Forall (λ w, 0 ≤ w < 256) (bits b);
  wf_leftover : ∀ i, nbits b ≤ i < 8 * Z.of_nat (length (bits b)) → bit b i = true;
}.

(** [b'] is [b] with bit [i] set to [x]. *)
Definition bit_updated (b b' : bitmap) (i : Z) (x : bool) : Prop :=
  nbits b' = nbits b ∧ bit b' i = x ∧ ∀ j, 0 ≤ j → j ≠ i → bit b' j = bit b j.

(** ** Bits of a byte *)
Section bytes.
Lemma mask_eq o : 0 ≤ o < 8 → u8 (Z.shiftl 1 o) = 2 ^ o.
Proof.
  intros. rewrite Z.shiftl_1_l. apply Z.mod_small.
  split; [lia|]. by apply Z.pow_lt_mono_r; lia.
Qed.

Lemma land_mask_zero w o :
  0 ≤ o < 8 → (Z.land w (u8 (Z.shiftl 1 o)) =? 0) = negb (Z.testbit w o).
Proof.
  intros. rewrite mask_eq by done. destruct (Z.testbit w o) eqn:Hb.
  - apply Z.eqb_neq. intros Heq. apply (f_equal (λ x, Z.testbit x o)) in Heq.
    rewrite Z.land_spec, Hb, Z.pow2_bits_true, Z.testbit_0_l in Heq by lia. done.
  - apply Z.eqb_eq. apply Z.bits_inj'. intros j Hj.
    rewrite Z.land_spec, Z.pow2_bits_eqb, Z.testbit_0_l by lia.
    destruct (Z.eqb_spec o j) as [->|]; [by rewrite Hb|apply andb_false_r].
Qed.

Lemma byte_of_testbits w :
  0 ≤ w → (∀ j, 8 ≤ j → Z.testbit w j = false) → 0 ≤ w < 256.
Proof.
  intros Hw Hj. split; [done|]. destruct (decide (w = 0)) as [->|]; [done|].
  apply (Z.log2_lt_pow2 w 8); [lia|].
  destruct (decide (Z.log2 w < 8)); [done|].
  specialize (Hj (Z.log2 w)). rewrite Z.bit_log2 in Hj by lia. exfalso. discriminate Hj. lia.
Qed.

Lemma byte_testbit_high w j : 0 ≤ w < 256 → 8 ≤ j → Z.testbit w j = false.
Proof.
  intros Hw Hj. rewrite <- (Z.mod_small w (2 ^ 8)) by lia.
  by apply Z.mod_pow2_bits_high; lia.
Qed.

Lemma set_byte_spec w o :
  0 ≤ w < 256 → 0 ≤ o < 8 →
  0 ≤ Z.lor w (u8 (Z.shiftl 1 o)) < 256 ∧
  ∀ j, 0 ≤ j → Z.testbit (Z.lor w (u8 (Z.shiftl 1 o))) j =
               if decide (j = o) then true else Z.testbit w j.
Proof.
  intros Hw Ho. rewrite mask_eq by done.
  assert (∀ j, 0 ≤ j → Z.testbit (Z.lor w (2 ^ o)) j =
               if decide (j = o) then true else Z.testbit w j) as Hbits.
  { intros j Hj. rewrite Z.lor_spec, Z.pow2_bits_eqb by lia.
    case_decide; destruct (Z.eqb_spec o j); try lia;
      by rewrite ?orb_true_r, ?orb_false_r. }
  split; [|done]. apply byte_of_testbits.
  - apply Z.lor_nonneg; lia.
  - intros j Hj. rewrite Hbits by lia. case_decide; [lia|].
    by apply byte_testbit_high.
Qed.

Lemma clear_byte_spec w o :
  0 ≤ w < 256 → 0 ≤ o < 8 →
  0 ≤ Z.land w (u8 (Z.lnot (u8 (Z.shiftl 1 o)))) < 256 ∧
  ∀ j, 0 ≤ j → Z.testbit (Z.land w (u8 (Z.lnot (u8 (Z.shiftl 1 o))))) j =
               if decide (j = o) then false else Z.testbit w j.
Proof.
  intros Hw Ho. rewrite mask_eq by done.
  assert (∀ j, 0 ≤ j → Z.testbit (Z.land w (u8 (Z.lnot (2 ^ o)))) j =
               if decide (j = o) then false else Z.testbit w j) as Hbits.
  { intros j Hj. rewrite Z.land_spec. unfold u8.
    destruct (decide (j < 8)).
    - rewrite Z.mod_pow2_bits_low, Z.lnot_spec, Z.pow2_bits_eqb by lia.
      case_decide; destruct (Z.eqb_spec o j); try lia;
        by rewrite ?andb_false_r, ?andb_true_r.
    - rewrite (byte_testbit_high w) by lia. by case_decide. }
  split; [|done]. apply byte_of_testbits.
  - apply Z.land_nonneg; lia.
  - intros j Hj. rewrite Hbits by lia. case_decide; [done|].
    by apply byte_testbit_high.
Qed.

Lemma first_clear_spec fuel : ∀ o w,
  0 ≤ o → o + Z.of_nat fuel ≤ 8 →
  match first_clear fuel o w with
  | Some k => o ≤ k < o + Z.of_nat fuel ∧ Z.testbit w k = false ∧
              ∀ j, o ≤ j < k → Z.testbit w j = true
  | None => ∀ j, o ≤ j < o + Z.of_nat fuel → Z.testbit w j = true
  end.
Proof.
  induction fuel as [|fuel IH]; intros o w Ho Hf; simpl; [lia|].
  rewrite land_mask_zero by lia. destruct (Z.testbit w o) eqn:Hb; simpl.
  - specialize (IH (o + 1) w). destruct (first_clear fuel (o + 1) w) as [k|].
    + destruct IH as (Hk & Hbk & Hj); [lia..|]. split_and!; [lia|lia|done|].
      intros j Hj'. destruct (decide (j = o)) as [->|]; [done|apply Hj; lia].
    + intros j Hj'. destruct (decide (j = o)) as [->|]; [done|apply IH; lia].
  - split_and!; [lia|lia|done|lia].
Qed.

Lemma all_bits_byte w :
  0 ≤ w < 256 → (∀ j, 0 ≤ j < 8 → Z.testbit w j = true) → w = WORD_ALLBITS.
Proof.
  intros Hw Hj. apply Z.bits_inj'. intros j Hj0. destruct (decide (j < 8)).
  - rewrite Hj by lia. symmetry. change WORD_ALLBITS with (Z.ones 8).
    apply Z.ones_spec_low. lia.
  - rewrite !byte_testbit_high; [done|unfold WORD_ALLBITS; lia|lia|done|lia].
Qed.
End bytes.

(** ** The operations on the set of bits *)
Section lemmas.
Implicit Types b : bitmap.

Lemma bit_split b i w :
  zlookup (bits b) (i / 8) = Some w → bit b i = Z.testbit w (i `mod` 8).
Proof. unfold bit. by intros ->. Qed.

Lemma wf_byte b ix w :
  bitmap_wf b → zlookup (bits b) ix = Some w → 0 ≤ w < 256.
Proof.
  intros Hwf Hix. unfold zlookup in Hix. destruct (0 <=? ix); [|done].
  eapply (Forall_lookup_1 (λ w, 0 ≤ w < 256)); [by apply wf_bytes|done].
Qed.

(** Changing one bit of one byte. *)
Lemma byte_update b ix o w w' x :
  bitmap_wf b → zlookup (bits b) ix = Some w → 0 ≤ o < 8 →
  0 ≤ w' < 256 →
  (∀ j, 0 ≤ j → Z.testbit w' j = if decide (j = o) then x else Z.testbit w j) →
  (x = true ∨ 8 * ix + o < nbits b) →
  let b' := MkBitmap (nbits b) (<[Z.to_nat ix := w']> (bits b)) in
  bitmap_wf b' ∧ bit_updated b b' (8 * ix + o) x.
Proof.
  intros Hwf Hix Ho Hw' Hbits Hx b'.
  pose proof (zlookup_lt_Some _ _ _ Hix) as Hlt.
  assert (∀ j, 0 ≤ j → bit b' j = if decide (j = 8 * ix + o) then x else bit b j)
    as Hb'.
  { intros j Hj. unfold bit, b'; simpl.
    rewrite zlookup_insert by (try lia; apply Z.div_pos; lia).
    pose proof (Z.div_mod j 8). pose proof (Z.mod_pos_bound j 8).
    case_decide as Heq.
    - rewrite Hbits by lia. subst ix. rewrite Hix.
      repeat case_decide; (done || lia).
    - case_decide; [|done]. exfalso. apply Heq. subst j.
      apply (Z.div_unique _ 8 ix o); lia. }
  split.
  - destruct Hwf as [Hn Hl Hby Hle]. split; unfold b'; simpl;
      [done|by rewrite length_insert|by apply Forall_insert|].
    rewrite length_insert. intros i Hi. fold b'. rewrite Hb' by lia.
    case_decide; [|by apply Hle]. destruct Hx; [done|lia].
  - unfold bit_updated. split_and!; [done| |].
    + rewrite Hb' by lia. by rewrite decide_True.
    + intros j Hj Hne. rewrite Hb' by done. by rewrite decide_False.
Qed.

Lemma wf_words b :
  bitmap_wf b → DIVROUNDUP (nbits b) BITS_PER_WORD = Z.of_nat (length (bits b)).
Proof.
  intros [Hn -> _ _]. unfold DIVROUNDUP, BITS_PER_WORD.
  rewrite u32_small by lia. f_equal. lia.
Qed.

Lemma alloc_from_spec b : bitmap_wf b → ∀ fuel ix,
  Z.of_nat (length (bits b)) = ix + Z.of_nat fuel → 0 ≤ ix →
  (∀ j, 0 ≤ j < 8 * ix → bit b j = true) →
  wp safe (alloc_from fuel ix) b
    (λ i b', 0 ≤ i < nbits b ∧ bit b i = false ∧
       (∀ j, 0 ≤ j < i → bit b j = true) ∧
       bitmap_wf b' ∧ bit_updated b b' i true)
    (λ e b', e = ENOSPC ∧ b' = b ∧ ∀ j, 0 ≤ j < nbits b → bit b j = true).
Proof.
  intros Hwf. pose proof Hwf as [Hn Hl _ Hle].
  assert (8 * ((nbits b + 7) / 8) < nbits b + 8 ∧ nbits b ≤ 8 * ((nbits b + 7) / 8))
    as Hround by (split; Z.div_mod_to_equations; lia).
  induction fuel as [|fuel IH]; intros ix Hlen Hix Hbelow; cbn [alloc_from].
  { wp_steps. split_and!; [done..|]. intros j Hj. apply Hbelow. lia. }
  destruct (zlookup_lt_is_Some (bits b) ix) as [w Hw]; [lia|].
  pose proof (wf_byte _ _ _ Hwf Hw) as Hbyte.
  assert (∀ o, 0 ≤ o < 8 → bit b (8 * ix + o) = Z.testbit w o) as Hbit.
  { intros o Ho. unfold bit.
    replace ((8 * ix + o) / 8) with ix by (Z.div_mod_to_equations; lia).
    rewrite Hw. f_equal. Z.div_mod_to_equations; lia. }
  wp_the w by done. pose proof (first_clear_spec 8 0 w) as Hfc.
  destruct (Z.eqb_spec w WORD_ALLBITS) as [->|Hne]; cbn [negb].
  - apply IH; [lia..|]. intros j Hj. destruct (decide (j < 8 * ix)); [auto with lia|].
    replace j with (8 * ix + (j - 8 * ix)) by lia. rewrite Hbit by lia.
    apply (Z.ones_spec_low 8). lia.
  - destruct (first_clear 8 0 w) as [o|].
    2: { exfalso. apply Hne, all_bits_byte; [done|]. intros. by apply Hfc. }
    destruct Hfc as (Ho & Hclear & Hset); [done..|]. simpl in Ho.
    assert (8 * ix + o < nbits b) as Hlt.
    { destruct (decide (8 * ix + o < nbits b)); [done|].
      specialize (Hle (8 * ix + o)). rewrite Hbit in Hle by lia.
      rewrite Hle in Hclear by lia. done. }
    destruct (set_byte_spec w o) as [Hw' Hbits']; [done|lia|].
    wp_the _ by (apply zstore_Some; lia). wp_steps.
    unfold BITS_PER_WORD. rewrite u32_small by lia. wp_assert by lia. wp_steps.
    replace (ix * 8 + o) with (8 * ix + o) by lia.
    destruct (byte_update b ix o w _ true Hwf Hw ltac:(lia) Hw' Hbits') as [Hwf' Hu];
      [by left|].
    split; [lia|]. split; [rewrite Hbit; [done|lia]|]. split; [|done].
    intros j Hj. destruct (decide (j < 8 * ix)); [auto with lia|].
    replace j with (8 * ix + (j - 8 * ix)) by lia. rewrite Hbit by lia.
    apply Hset. lia.
Qed.

Lemma wf_byte_of b i :
  bitmap_wf b → 0 ≤ i < nbits b →
  ∃ w, zlookup (bits b) (i / 8) = Some w ∧ 0 ≤ w < 256 ∧
       bit b i = Z.testbit w (i `mod` 8).
Proof.
  intros Hwf Hi. destruct (zlookup_lt_is_Some (bits b) (i / 8)) as [w Hw].
  { rewrite (wf_length _ Hwf). Z.div_mod_to_equations; lia. }
  exists w. split_and!; [done|by eapply wf_byte..|by apply bit_split].
Qed.

Lemma byte_update_at b i w w' x :
  bitmap_wf b → 0 ≤ i < nbits b → zlookup (bits b) (i / 8) = Some w →
  0 ≤ w' < 256 →
  (∀ j, 0 ≤ j → Z.testbit w' j = if decide (j = i `mod` 8) then x else Z.testbit w j) →
  let b' := MkBitmap (nbits b) (<[Z.to_nat (i / 8) := w']> (bits b)) in
  bitmap_wf b' ∧ bit_updated b b' i x.
Proof.
  intros Hwf Hi Hw Hw' Hbits. pose proof (Z.mod_pos_bound i 8).
  assert (8 * (i / 8) + i `mod` 8 = i) as Heq by (symmetry; apply Z.div_mod; lia).
  pose proof (byte_update b (i / 8) (i `mod` 8) w w' x Hwf Hw) as Hup.
  rewrite Heq in Hup. apply Hup; [lia|done..|right; lia].
Qed.

Lemma bitmap_mark_ok b i :
  bitmap_wf b → 0 ≤ i < nbits b → bit b i = false →
  wp safe (bitmap_mark i) b
    (λ _ b', bitmap_wf b' ∧ bit_updated b b' i true) noerr.
Proof.
  intros Hwf Hi Hb. destruct (wf_byte_of b i) as (w & Hw & Hbyte & Hbit); [done..|].
  pose proof (zlookup_lt_Some _ _ _ Hw). pose proof (Z.mod_pos_bound i 8).
  destruct (set_byte_spec w (i `mod` 8)) as [Hw' Hbits']; [done|lia|].
  unfold bitmap_mark, bitmap_translate, BITS_PER_WORD.
  wp_assert by lia. wp_the w by done.
  wp_assert by (rewrite land_mask_zero by lia; by rewrite <- Hbit, Hb).
  wp_the _ by (apply zstore_Some; lia). wp_steps.
  by eapply byte_update_at.
Qed.

Lemma bitmap_unmark_ok b i :
  bitmap_wf b → 0 ≤ i < nbits b → bit b i = true →
  wp safe (bitmap_unmark i) b
    (λ _ b', bitmap_wf b' ∧ bit_updated b b' i false) noerr.
Proof.
  intros Hwf Hi Hb. destruct (wf_byte_of b i) as (w & Hw & Hbyte & Hbit); [done..|].
  pose proof (zlookup_lt_Some _ _ _ Hw). pose proof (Z.mod_pos_bound i 8).
  destruct (clear_byte_spec w (i `mod` 8)) as [Hw' Hbits']; [done|lia|].
  unfold bitmap_unmark, bitmap_translate, BITS_PER_WORD.
  wp_assert by lia. wp_the w by done.
  wp_assert by (rewrite land_mask_zero by lia; by rewrite <- Hbit, Hb).
  wp_the _ by (apply zstore_Some; lia). wp_steps.
  by eapply byte_update_at.
Qed.

Lemma bitmap_isset_ok F b i :
  bitmap_wf b → 0 ≤ i < nbits b →
  wp F (bitmap_isset i) b (λ r b', b' = b ∧ (r =? 0) = negb (bit b i)) noerr.
Proof.
  intros Hwf Hi. destruct (wf_byte_of b i) as (w & Hw & _ & Hbit); [done..|].
  pose proof (Z.mod_pos_bound i 8).
  unfold bitmap_isset, bitmap_translate, BITS_PER_WORD. wp_the w by done. wp_steps.
  split; [done|]. by rewrite land_mask_zero, Hbit by lia.
Qed.

Lemma mark_leftover_spec o : 0 ≤ o < 8 →
  0 ≤ mark_leftover o 0 < 256 ∧
  ∀ j, 0 ≤ j < 8 → Z.testbit (mark_leftover o 0) j = (o <=? j).
Proof.
  intros Ho. assert (o = 0 ∨ o = 1 ∨ o = 2 ∨ o = 3 ∨ o = 4 ∨ o = 5 ∨ o = 6 ∨ o = 7)
    as Hc by lia.
  destruct_or! Hc; subst o; (split; [vm_compute; split; congruence|]);
    intros j Hj; assert (j = 0 ∨ j = 1 ∨ j = 2 ∨ j = 3 ∨ j = 4 ∨ j = 5 ∨ j = 6 ∨ j = 7)
    as Hc' by lia; destruct_or! Hc'; subst j; reflexivity.
Qed.
End lemmas.

Section create.
Context `{HL : KHeapLaws H}.

(** The bits of a map of [n] zero bytes whose last byte is [w]. *)
Lemma create_wf nb :
  0 ≤ nb < 2 ^ 32 - 8 →
  let words := (nb + 7) / 8 in
  let bm := replicate (Z.to_nat words) 0 in
  let b := if nb / 8 <? words
           then MkBitmap nb (<[Z.to_nat (words - 1) :=
                               mark_leftover (nb - (words - 1) * 8) 0]> bm)
           else MkBitmap nb bm in
  bitmap_wf b ∧ ∀ i, 0 ≤ i < nb → bit b i = false.
Proof.
  intros Hnb words bm.
  assert (words = (nb + 7) / 8) as Hwords by done. clearbody words.
  assert (0 ≤ words ∧ 8 * words < nb + 8 ∧ nb ≤ 8 * words) as (Hw0 & Hw1 & Hw2)
    by (clear bm; subst words; split_and!; Z.div_mod_to_equations; lia).
  assert (length bm = Z.to_nat words) as Hlen by apply length_replicate.
  assert (∀ i, 0 ≤ i < 8 * words → zlookup bm (i / 8) = Some 0) as Hbm.
  { intros i Hi. unfold zlookup. destruct (Z.leb_spec 0 (i / 8)).
    - apply lookup_replicate. split; [done|]. Z.div_mod_to_equations; lia.
    - exfalso. Z.div_mod_to_equations; lia. }
  destruct (Z.ltb_spec (nb / 8) words) as [Hlt|Hge].
  - set (o := nb - (words - 1) * 8).
    assert (0 < o < 8) as Ho.
    { unfold o. split; [lia|]. destruct (decide (o = 8)); [|unfold o in *; lia].
      exfalso. unfold o in *. assert (nb = words * 8) as -> by lia.
      rewrite Z.div_mul in Hlt by lia. lia. }
    destruct (mark_leftover_spec o) as [Hr Hbits]; [lia|].
    set (b := MkBitmap _ _).
    assert (∀ i, 0 ≤ i < 8 * words → bit b i = (nb <=? i)) as Hbit.
    { intros i Hi. unfold bit, b; simpl.
      pose proof (Z.div_mod i 8). pose proof (Z.mod_pos_bound i 8).
      rewrite zlookup_insert by (rewrite ?Hlen; Z.div_mod_to_equations; lia).
      case_decide as Heq.
      - rewrite Hbits by lia. unfold o.
        destruct (Z.leb_spec (nb - (words - 1) * 8) (i `mod` 8)),
          (Z.leb_spec nb i); lia || done.
      - rewrite Hbm by lia. rewrite Z.testbit_0_l.
        destruct (Z.leb_spec nb i); [|done]. exfalso. apply Heq.
        unfold o in *. Z.div_mod_to_equations; lia. }
    split; [split|]; unfold b; simpl.
    + done.
    + rewrite length_insert, Hlen. lia.
    + apply Forall_insert; [|done]. by apply Forall_replicate.
    + rewrite length_insert, Hlen. intros i Hi. fold b. rewrite Hbit by lia. lia.
    + intros i Hi. fold b. rewrite Hbit by lia. lia.
  - assert (nb = 8 * words) as Heq.
    { clear bm Hlen Hbm. Z.div_mod_to_equations; lia. }
    set (b := MkBitmap _ _).
    assert (∀ i, 0 ≤ i < nb → bit b i = false) as Hbit.
    { intros i Hi. unfold bit, b; simpl. rewrite Hbm by lia. apply Z.testbit_0_l. }
    split; [split|done]; unfold b; simpl.
    + done.
    + rewrite Hlen. lia.
    + by apply Forall_replicate.
    + rewrite Hlen. intros. lia.
Qed.

Lemma bitmap_create_ok h m nb :
  heap_owns h m → 0 ≤ nb < 2 ^ 32 - 8 →
  wp safe_oom (bitmap_create nb) h
    (λ r h', match r with
     | None => heap_owns h' m
     | Some (p, v, b) =>
       heap_owns h' (<[v := (nb + 7) / 8]> (<[p := sizeof_bitmap]> m)) ∧
       m !! p = None ∧ m !! v = None ∧ p ≠ v ∧
       nbits b = nb ∧ bitmap_wf b ∧ ∀ i, 0 ≤ i < nb → bit b i = false
     end) noerr.
Proof.
  intros Hh Hnb. unfold bitmap_create, DIVROUNDUP, BITS_PER_WORD.
  rewrite u32_small by lia. replace (nb + 8 - 1) with (nb + 7) by lia.
  assert (0 ≤ (nb + 7) / 8 < 2 ^ 31) by (split; Z.div_mod_to_equations; lia).
  wp_steps. eapply wp_mono;
    [apply (kmalloc_law h m); [done|unfold sizeof_bitmap; lia]| |done].
  intros p h1 [[-> Hh1]|(Hp & Hmp & Hh1)]; wp_if; wp_steps; [done|].
  eapply wp_mono; [by apply (kmalloc_law h1 (<[p := sizeof_bitmap]> m))| |done].
  intros v h2 [[-> Hh2]|(Hv & Hmv & Hh2)]; wp_if; wp_steps.
  { apply wp_faults with safe; [|done].
    eapply wp_mono; [apply (kfree_law h2 (<[p := sizeof_bitmap]> m)); [done|]| |done].
    - rewrite lookup_insert_eq. eauto.
    - intros [] h3 Hh3. rewrite delete_insert_id in Hh3 by done. by wp_steps. }
  apply lookup_insert_None in Hmv as [Hmv Hpv].
  destruct (create_wf nb Hnb) as [Hwf Hclear].
  assert (8 * ((nb + 7) / 8) < nb + 8 ∧ nb ≤ 8 * ((nb + 7) / 8))
    as Hround by (split; Z.div_mod_to_equations; lia).
  destruct (Z.ltb_spec (nb / 8) ((nb + 7) / 8)) as [Hlt|Hge].
  - assert (nb / 8 = (nb + 7) / 8 - 1) as Hq by (Z.div_mod_to_equations; lia).
    wp_assert by lia. wp_assert by (Z.div_mod_to_equations; lia).
    wp_the 0 by
      (unfold zlookup; destruct (Z.leb_spec 0 ((nb + 7) / 8 - 1));
       [apply lookup_replicate; split; [done|lia]|Z.div_mod_to_equations; lia]).
    wp_the _ by
      (apply zstore_Some; rewrite length_replicate; Z.div_mod_to_equations; lia).
    wp_steps. by split_and!.
  - wp_steps. by split_and!.
Qed.
End create.

(** ** Correctness *)

(** A well-formed map is determined by its size and its bits. *)
Lemma bitmap_ext b b' :
  bitmap_wf b → bitmap_wf b' → nbits b = nbits b' →
  (∀ i, 0 ≤ i → bit b i = bit b' i) → b = b'.
Proof.
  intros Hwf Hwf' Hn Hbits. destruct b as [n bs], b' as [n' bs']; simpl in Hn; subst n'.
  f_equal. pose proof (wf_length _ Hwf) as Hl. pose proof (wf_length _ Hwf') as Hl'.
  simpl in *. apply zlist_eq; [lia|]. intros ix Hix.
  destruct (zlookup_lt_is_Some bs ix Hix) as [w Hw].
  destruct (zlookup_lt_is_Some bs' ix) as [w' Hw']; [lia|].
  rewrite Hw, Hw'. f_equal.
  pose proof (wf_byte _ ix w Hwf Hw) as Hb. pose proof (wf_byte _ ix w' Hwf' Hw') as Hb'.
  apply Z.bits_inj'. intros o Ho. destruct (decide (o < 8)).
  - specialize (Hbits (ix * 8 + o) ltac:(lia)). revert Hbits. unfold bit; simpl.
    rewrite Z.div_add_l, (Z.div_small o 8), Z.add_0_r, Hw, Hw' by lia.
    by rewrite Z.add_comm, Z.mod_add, Z.mod_small by lia.
  - assert (∀ x, 0 ≤ x < 256 → Z.testbit x o = false) as Hhigh.
    { intros x Hx. destruct (decide (x = 0)) as [->|]; [apply Z.testbit_0_l|].
      apply Z.bits_above_log2; [lia|]. apply Z.log2_lt_pow2; [lia|].
      apply Z.lt_le_trans with (2 ^ 8); [lia|]. apply Z.pow_le_mono_r; lia. }
    by rewrite !Hhigh.
Qed.

Lemma bitmap_alloc_ok b :
  bitmap_wf b →
  wp safe bitmap_alloc b
    (λ i b', 0 ≤ i < nbits b ∧ bit b i = false ∧
       (∀ j, 0 ≤ j < i → bit b j = true) ∧
       bitmap_wf b' ∧ bit_updated b b' i true)
    (λ e b', e = ENOSPC ∧ b' = b ∧ ∀ j, 0 ≤ j < nbits b → bit b j = true).
Proof.
  intros Hwf. unfold bitmap_alloc. wp_steps. rewrite wf_words by done.
  apply alloc_from_spec; [done|lia..].
Qed.

(** On a well-formed map [bitmap_alloc] never fails an assertion and never
    leaves its buffer. It hands out the lowest clear bit and sets that bit and
    no other, the map staying well-formed; it answers ENOSPC, changing nothing,
    only when all [nbits] bits are set. *)
Theorem bitmap_alloc_first_fit b :
  bitmap_wf b →
  wp safe bitmap_alloc b
    (λ i b', 0 ≤ i < nbits b ∧ bit b i = false ∧
       (∀ j, 0 ≤ j < i → bit b j = true) ∧
       bitmap_wf b' ∧ bit_updated b b' i true)
    (λ e b', e = ENOSPC ∧ b' = b ∧ ∀ j, 0 ≤ j < nbits b → bit b j = true).
Proof. apply bitmap_alloc_ok. Qed.

(** Freeing what was just allocated gives back the very same bytes, and in
    between [bitmap_isset] reports the bit as set. *)
Theorem bitmap_alloc_unmark_roundtrip b i0 :
  bitmap_wf b → 0 ≤ i0 < nbits b → bit b i0 = false →
  wp safe (i ← bitmap_alloc; r ← bitmap_isset i; bitmap_unmark i;; mret r) b
    (λ r b', b' = b ∧ r ≠ 0) noerr.
Proof.
  intros Hwf Hi0 Hfree. wp_steps.
  eapply wp_mono; [by apply bitmap_alloc_ok| |].
  2:{ intros e b' (_ & _ & Hfull). rewrite Hfull in Hfree; done. }
  intros i b1 (Hi & Hclear & _ & Hwf1 & Hn1 & Hset & Hsame). wp_steps.
  eapply wp_mono; [apply bitmap_isset_ok; [done|by rewrite Hn1]| |done].
  intros r b2 [-> Hr]. wp_steps.
  eapply wp_mono; [apply bitmap_unmark_ok; [done|by rewrite Hn1|done]| |done].
  intros [] b3 (Hwf3 & Hn3 & Hclr & Hsame3). wp_steps.
  split; [|rewrite Hset in Hr; lia]. apply bitmap_ext; [done..|congruence|].
  intros j Hj. destruct (decide (j = i)) as [->|]; [congruence|].
  rewrite Hsame3 by done. by apply Hsame.
Qed.

(** [bitmap_create] yields a well-formed map of [nb] clear bits, whose
    leftover bits can never be allocated; when one of its two blocks cannot be
    allocated it returns NULL and the heap is as before. *)
Theorem bitmap_create_clear `{HL : KHeapLaws H} h m nb :
  heap_owns h m → 0 ≤ nb < 2 ^ 32 - 8 →
  wp safe_oom (bitmap_create nb) h
    (λ r h', match r with
     | None => heap_owns h' m
     | Some (p, v, b) =>
       heap_owns h' (<[v := (nb + 7) / 8]> (<[p := sizeof_bitmap]> m)) ∧
       m !! p = None ∧ m !! v = None ∧ p ≠ v ∧
       nbits b = nb ∧ bitmap_wf b ∧ ∀ i, 0 ≤ i < nb → bit b i = false
     end) noerr.
Proof. apply bitmap_create_ok. Qed.

(** ** Examples *)

(** Thirteen bits, of which 0 to 8 are in use *)
Definition ex_bitmap : bitmap := MkBitmap 13 [0xff; 0xe1].

Lemma ex_bitmap_wf : bitmap_wf ex_bitmap.
Proof.
  split; simpl; [lia|done|repeat constructor; lia|].
  intros i Hi. assert (i = 13 ∨ i = 14 ∨ i = 15) as [-> | [-> | ->]] by lia; done.
Qed.

Lemma bitmap_alloc_first_fit_witness :
  wp safe bitmap_alloc ex_bitmap
    (λ i b', 0 ≤ i < 13 ∧ bit ex_bitmap i = false ∧
       (∀ j, 0 ≤ j < i → bit ex_bitmap j = true) ∧
       bitmap_wf b' ∧ bit_updated ex_bitmap b' i true)
    (λ e b', e = ENOSPC ∧ b' = ex_bitmap ∧
       ∀ j, 0 ≤ j < 13 → bit ex_bitmap j = true) ∧
  bitmap_alloc ex_bitmap = Ret 9 (MkBitmap 13 [0xff; 0xe3]).
Proof.
  split; [|reflexivity]. apply (bitmap_alloc_first_fit ex_bitmap), ex_bitmap_wf.
Defined.

Lemma bitmap_alloc_unmark_roundtrip_witness :
  wp safe (i ← bitmap_alloc; r ← bitmap_isset i; bitmap_unmark i;; mret r) ex_bitmap
    (λ r b', b' = ex_bitmap ∧ r ≠ 0) noerr.
Proof.
  apply (bitmap_alloc_unmark_roundtrip ex_bitmap 9); [apply ex_bitmap_wf|split; done|done].
Defined.

Lemma bitmap_create_clear_witness :
  wp safe_oom (bitmap_create 13) (SimpleHeap.init 2)
    (λ r h', match r with
     | None => heap_owns h' ∅
     | Some (p, v, b) =>
       heap_owns h' (<[v := (13 + 7) / 8]> (<[p := sizeof_bitmap]> ∅)) ∧
       (∅ : gmap Z Z) !! p = None ∧ (∅ : gmap Z Z) !! v = None ∧ p ≠ v ∧
       nbits b = 13 ∧ bitmap_wf b ∧ ∀ i, 0 ≤ i < 13 → bit b i = false
     end) noerr.
Proof.
  apply (bitmap_create_clear (SimpleHeap.init 2) ∅ 13);
    [apply SimpleHeap.init_owns|split; done].
Defined.
