(* ===== verification/CopyInOut.v ===== *)
(** * Copying between user and kernel memory

    Model of kern/lib/copyinout.c. Memory is a function from addresses to
    bytes. Touching a user address may fault for good: [user_read a] and
    [user_write a] say whether the virtual memory system lets the access
    succeed; they are parameters, since that depends on the address space. A
    fault during a copy resumes in [copyfail], whose [longjmp] makes the copy
    function return EFAULT: in the model the copy loop ends with [false]. *)

From Stdlib Require Import ZArith Lia.
From stdpp Require Import base list gmap numbers.
From S2P Require Import Prelude.

Local Open Scope Z_scope.

(** [badfaultfunc] tells whether [pcb_badfaultfunc] of the current thread is set
    to [copyfail]. *)
Record copystate := MkCopy {
  bytes : Z → Z;
  badfaultfunc : bool;
}.

Definition poke (m : Z → Z) (a v : Z) : Z → Z := λ x, if x =? a then v else m x.

Definition set_byte (a v : Z) : M copystate () :=
  modify (λ s, MkCopy (poke (bytes s) a v) (badfaultfunc s)).
Definition get_byte (a : Z) : M copystate Z := gets (λ s, bytes s a).
Definition set_badfaultfunc (b : bool) : M copystate () :=
  modify (λ s, MkCopy (bytes s) b).

Section operations.
Context (user_read user_write : Z → bool).

(** The result is the error or [*stoplen]. *)
Definition copycheck (userptr len : Z) : M copystate Z :=
  let bot := userptr in
  let top := u32 (bot + len - 1) in
  if top <? bot then fail EFAULT else
  if USERTOP <=? bot then fail EFAULT else
  if USERTOP <=? top then mret (u32 (USERTOP - bot)) else mret len.

(** [memcpy] with one side in user space: [rd] and [wr] say whether reading the
    source and writing the destination succeeds; [false] when an access
    faults. *)
Fixpoint memcpy (rd wr : Z → bool) (n : nat) (dest src : Z) : M copystate bool :=
  match n with
  | O => mret true
  | S n =>
    if negb (rd src && wr dest) then mret false else
    b ← get_byte src;
    set_byte dest b;;
    memcpy rd wr n (u32 (dest + 1)) (u32 (src + 1))
  end.

Definition copyin (usersrc dest len : Z) : M copystate () :=
  stoplen ← copycheck usersrc len;
  if negb (stoplen =? len) then fail EFAULT else
  set_badfaultfunc true;;
  ok ← memcpy user_read (λ _, true) (Z.to_nat len) dest usersrc;
  set_badfaultfunc false;;
  if ok : bool then mret tt else fail EFAULT.

Definition copyout (src userdest len : Z) : M copystate () :=
  stoplen ← copycheck userdest len;
  if negb (stoplen =? len) then fail EFAULT else
  set_badfaultfunc true;;
  ok ← memcpy (λ _, true) user_write (Z.to_nat len) userdest src;
  set_badfaultfunc false;;
  if ok : bool then mret tt else fail EFAULT.

(** The outcome of [copystr]: a fault, an error number, or the length stored in
    [*gotlen] *)
Inductive strresult := StrFault | StrError (e : Z) | StrDone (gotlen : Z).

(** The loop of [copystr] from index [i] on; [fuel] characters may follow.
    [rd] and [wr] are as in [memcpy]. *)
Fixpoint copystr_from (rd wr : Z → bool) (fuel : nat) (i dest src maxlen stoplen : Z) :
    M copystate strresult :=
  if (i <? maxlen) && (i <? stoplen) then
    match fuel with
    | O => noreturn
    | S fuel =>
      if negb (rd (u32 (src + i))) then mret StrFault else
      b ← get_byte (u32 (src + i));
      if negb (wr (u32 (dest + i))) then mret StrFault else
      set_byte (u32 (dest + i)) b;;
      (* src[i] is read again *)
      b ← get_byte (u32 (src + i));
      if b =? 0 then mret (StrDone (i + 1))
      else copystr_from rd wr fuel (i + 1) dest src maxlen stoplen
    end
  else if stoplen <? maxlen then mret (StrError EFAULT)
  else mret (StrError ENAMETOOLONG).

Definition copystr (rd wr : Z → bool) (dest src maxlen stoplen : Z) :
    M copystate strresult :=
  copystr_from rd wr (Z.to_nat (Z.min maxlen stoplen)) 0 dest src maxlen stoplen.

Definition str_return (r : strresult) : M copystate Z :=
  match r with
  | StrFault => fail EFAULT
  | StrError e => fail e
  | StrDone n => mret n
  end.

(** The result is [*actual]. *)
Definition copyinstr (usersrc dest len : Z) : M copystate Z :=
  stoplen ← copycheck usersrc len;
  set_badfaultfunc true;;
  r ← copystr user_read (λ _, true) dest usersrc len stoplen;
  set_badfaultfunc false;;
  str_return r.

Definition copyoutstr (src userdest len : Z) : M copystate Z :=
  stoplen ← copycheck userdest len;
  set_badfaultfunc true;;
  r ← copystr (λ _, true) user_write userdest src len stoplen;
  set_badfaultfunc false;;
  str_return r.
End operations.

(** ** Lemmas *)

(** Memory agrees outside of [len] bytes from [a] on. *)
Definition same_outside (a len : Z) (m m' : Z → Z) : Prop :=
  ∀ x, ¬ a ≤ x < a + len → m' x = m x.

Section lemmas.
Context (user_read user_write : Z → bool) (F : fault → Prop).

(** A range that passes the check lies in user space, up to the length it
    reports. *)
Lemma copycheck_ok p len s (Q : Z → copystate → Prop) (E : Z → copystate → Prop) :
  is_u32 p → is_u32 len →
  (USERTOP ≤ p ∨ 2 ^ 32 < p + len ∨ len = 0 → E EFAULT s) →
  (∀ stoplen, p < USERTOP → 0 ≤ stoplen ≤ USERTOP - p →
     (stoplen = len ∧ 0 < len ∨ stoplen = USERTOP - p ∧ (stoplen < len ∨ p = 0 ∧ len = 0)) →
     Q stoplen s) →
  wp F (copycheck p len) s Q E.
Proof.
  unfold is_u32, copycheck, USERTOP, MIPS_KSEG0. intros Hp Hlen HE HQ.
  assert (u32 (p + len - 1) = p + len - 1 ∧ 0 < p + len ≤ 2 ^ 32 ∨
          u32 (p + len - 1) = p + len - 1 - 2 ^ 32 ∧ 2 ^ 32 < p + len ∨
          u32 (p + len - 1) = 2 ^ 32 - 1 ∧ p = 0 ∧ len = 0) as Htop.
  { unfold u32. destruct (decide (p + len = 0)).
    { right; right. split; [|lia]. replace (p + len - 1) with (2 ^ 32 - 1 + -1 * 2 ^ 32) by lia.
      rewrite Z.mod_add, Z.mod_small by lia. done. }
    destruct (decide (p + len ≤ 2 ^ 32)); [left|right; left]; (split; [|lia]).
    - apply Z.mod_small. lia.
    - symmetry. apply (Z.mod_unique _ _ 1); lia. }
  wp_steps. repeat (wp_if; wp_steps; [apply HE; lia|]). wp_if; wp_steps.
  - rewrite u32_small by lia. apply HQ; lia.
  - apply HQ; lia.
Qed.

Lemma memcpy_ok (rd wr : Z → bool) : ∀ n dest src s,
  0 ≤ src → src + Z.of_nat n ≤ 2 ^ 32 → 0 ≤ dest → dest + Z.of_nat n ≤ 2 ^ 32 →
  src + Z.of_nat n ≤ dest ∨ dest + Z.of_nat n ≤ src →
  wp F (memcpy rd wr n dest src) s
    (λ ok s', badfaultfunc s' = badfaultfunc s ∧
       same_outside dest (Z.of_nat n) (bytes s) (bytes s') ∧
       (ok = true → ∀ k, 0 ≤ k < Z.of_nat n → bytes s' (dest + k) = bytes s (src + k)) ∧
       ok = forallb rd (seqZ src (Z.of_nat n)) && forallb wr (seqZ dest (Z.of_nat n))) noerr.
Proof.
  induction n as [|n IH]; intros dest src s Hs1 Hs2 Hd1 Hd2 Hdisj; cbn [memcpy].
  { wp_steps. split_and!; [done|done|lia|done]. }
  rewrite (seqZ_cons src), (seqZ_cons dest) by lia. cbn [forallb].
  destruct (rd src && wr dest) eqn:Hrw; cbn [negb]; wp_steps.
  2:{ split_and!; [done|done|done|].
      destruct (rd src), (wr dest); try done. by destruct (forallb rd _). }
  apply andb_true_iff in Hrw as [-> ->].
  unfold get_byte, set_byte. wp_steps. cbn [bytes badfaultfunc andb].
  destruct (decide (n = 0%nat)) as [->|Hn].
  { cbn [memcpy]. wp_steps. cbn [bytes badfaultfunc]. split_and!; [done| | |done].
    - intros x Hx. unfold poke. destruct (Z.eqb_spec x dest); [lia|done].
    - intros _ k Hk. assert (k = 0) as -> by lia. rewrite !Z.add_0_r. unfold poke.
      by rewrite Z.eqb_refl. }
  rewrite !u32_small by lia. eapply wp_mono; [apply IH; lia| |done].
  intros ok s' (Hb & Hsame & Hcopy & Hok). cbn [bytes badfaultfunc] in *.
  split_and!; [done| | |].
  - intros x Hx. rewrite Hsame by lia. unfold poke. by destruct (Z.eqb_spec x dest); [lia|].
  - intros -> k Hk. destruct (decide (k = 0)) as [->|].
    + rewrite !Z.add_0_r, Hsame by lia. unfold poke. by rewrite Z.eqb_refl.
    + replace (dest + k) with (dest + 1 + (k - 1)) by lia.
      rewrite Hcopy by (done || lia). unfold poke.
      destruct (Z.eqb_spec (src + 1 + (k - 1)) dest); [lia|]. f_equal. lia.
  - rewrite Hok. by replace (Z.pred (Z.of_nat (S n))) with (Z.of_nat n) by lia.
Qed.

(** The loop of [copystr]: it stops at the first null byte, provided that comes
    before both limits and before an address that faults. *)
Definition str_at (m : Z → Z) (a n : Z) : Prop :=
  0 < n ∧ m (a + (n - 1)) = 0 ∧ ∀ k, 0 ≤ k < n - 1 → m (a + k) ≠ 0.

Lemma copystr_from_ok (rd wr : Z → bool) maxlen stoplen dest src :
  let lim := Z.min maxlen stoplen in
  0 ≤ lim → 0 ≤ src → src + lim ≤ 2 ^ 32 → 0 ≤ dest → dest + lim ≤ 2 ^ 32 →
  src + lim ≤ dest ∨ dest + lim ≤ src →
  ∀ fuel i s, 0 ≤ i ≤ lim → lim - i ≤ Z.of_nat fuel →
  wp F (copystr_from rd wr fuel i dest src maxlen stoplen) s
    (λ r s', badfaultfunc s' = badfaultfunc s ∧
       same_outside (dest + i) (lim - i) (bytes s) (bytes s') ∧
       match r with
       | StrFault => ∃ k, i ≤ k < lim ∧ (rd (src + k) = false ∨ wr (dest + k) = false) ∧
           ∀ j, i ≤ j < k → bytes s (src + j) ≠ 0
       | StrError e => (∀ j, i ≤ j < lim → bytes s (src + j) ≠ 0) ∧
           e = if stoplen <? maxlen then EFAULT else ENAMETOOLONG
       | StrDone n => i < n ≤ lim ∧ str_at (bytes s) (src + i) (n - i) ∧
           same_outside (dest + i) (n - i) (bytes s) (bytes s') ∧
           ∀ k, i ≤ k < n → bytes s' (dest + k) = bytes s (src + k)
       end) noerr.
Proof.
  intros lim Hlim Hs1 Hs2 Hd1 Hd2 Hdisj. induction fuel as [|fuel IH]; intros i s Hi Hf.
  { cbn [copystr_from]. destruct (_ && _) eqn:Hc; [lia|].
    destruct (stoplen <? maxlen) eqn:Hm; wp_steps; (split_and!; [done|done|lia|done]). }
  cbn [copystr_from]. destruct ((i <? maxlen) && (i <? stoplen)) eqn:Hc.
  2:{ destruct (stoplen <? maxlen) eqn:Hm; wp_steps;
        (split_and!; [done|done|lia|done]). }
  rewrite !u32_small by lia.
  destruct (rd (src + i)) eqn:Hrd; cbn [negb]; wp_steps.
  2:{ split_and!; [done|done|]. exists i. split_and!; [lia|lia|by left|lia]. }
  unfold get_byte, set_byte. wp_steps.
  destruct (wr (dest + i)) eqn:Hwr; cbn [negb]; wp_steps.
  2:{ split_and!; [done|done|]. exists i. split_and!; [lia|lia|by right|lia]. }
  cbn [bytes badfaultfunc].
  set (m' := poke (bytes s) (dest + i) (bytes s (src + i))).
  assert (∀ x, x ≠ dest + i → m' x = bytes s x) as Hne.
  { intros x Hx. unfold m', poke. by destruct (Z.eqb_spec x (dest + i)). }
  assert (m' (dest + i) = bytes s (src + i)) as Hat.
  { unfold m', poke. by rewrite Z.eqb_refl. }
  rewrite Hne by lia. destruct (Z.eqb_spec (bytes s (src + i)) 0) as [H0|H0]; wp_steps.
  { cbn [bytes badfaultfunc]. split_and!; [done|intros x Hx; apply Hne; lia|lia|lia| | |].
    - split_and!; [lia| |lia]. rewrite <- H0. f_equal. lia.
    - intros x Hx. apply Hne. lia.
    - intros k Hk. assert (k = i) as -> by lia. done. }
  eapply wp_mono; [apply IH; lia| |done]. cbn [bytes badfaultfunc].
  intros r s' (Hb & Hsame & Hr).
  assert (∀ j, i + 1 ≤ j < lim → m' (src + j) = bytes s (src + j)) as Hsrc.
  { intros j Hj. apply Hne. lia. }
  split; [done|]. split.
  { intros x Hx. rewrite Hsame, Hne by lia. done. }
  destruct r as [|e|n].
  - destruct Hr as (k & Hk & Hbad & Hnz). exists k. split_and!; [lia|lia|done|].
    intros j Hj. destruct (decide (j = i)) as [->|]; [done|]. rewrite <- Hsrc by lia.
    apply Hnz. lia.
  - destruct Hr as [Hnz ->]. split; [|done]. intros j Hj.
    destruct (decide (j = i)) as [->|]; [done|]. rewrite <- Hsrc by lia. apply Hnz. lia.
  - destruct Hr as (Hn & (Hn1 & Hz & Hnz) & Hout & Hcopy).
    split; [lia|]. split; [split_and!; [lia| |]|].
    + rewrite <- Hz. rewrite <- Hne by lia. f_equal. lia.
    + intros k Hk. destruct (decide (k = 0)) as [->|]; [by rewrite Z.add_0_r|].
      rewrite <- Hne by lia. replace (src + i + k) with (src + (i + 1) + (k - 1)) by lia.
      apply Hnz. lia.
    + split.
      * intros x Hx. rewrite Hout, Hne by lia. done.
      * intros k Hk. destruct (decide (k = i)) as [->|].
        -- rewrite Hout by lia. done.
        -- rewrite Hcopy by lia. apply Hsrc. lia.
Qed.
End lemmas.

(** ** The four copy functions *)

(** What [copyin] and [copyout] promise, for a copy of [len] bytes from [src] to
    [dest] whose user side is the [len] bytes from [p] on: it succeeds exactly if
    these are user addresses that do not fault; nothing but the destination
    changes, and the fault handler is put back. *)
Definition copied (acc : Z → bool) (p dest src len : Z) (s s' : copystate) : Prop :=
  badfaultfunc s' = false ∧
  p + len ≤ USERTOP ∧ forallb acc (seqZ p len) = true ∧
  same_outside dest len (bytes s) (bytes s') ∧
  ∀ k, 0 ≤ k < len → bytes s' (dest + k) = bytes s (src + k).

Definition not_copied (acc : Z → bool) (p dest len e : Z) (s s' : copystate) : Prop :=
  e = EFAULT ∧ badfaultfunc s' = false ∧
  (USERTOP < p + len ∧ s' = s ∨
   p + len ≤ USERTOP ∧ forallb acc (seqZ p len) = false ∧
   same_outside dest len (bytes s) (bytes s')).

(** Kernel addresses are those from USERTOP up. *)
Definition kernel_range (a len : Z) : Prop := USERTOP ≤ a ∧ a + len ≤ 2 ^ 32.

Lemma forallb_true {A} (l : list A) : forallb (λ _, true) l = true.
Proof. by induction l. Qed.

Lemma same_outside_refl a len m : same_outside a len m m.
Proof. done. Qed.

(** The result of [copystr] as a copy function reports it: the string is
    there up to its null byte, the buffer is too short, or an address before its
    end is bad; a length that takes the range past the top of memory is refused
    outright. *)
Definition str_copied (p dest src len n : Z) (s s' : copystate) : Prop :=
  badfaultfunc s' = false ∧ 0 < n ≤ len ∧ p + n ≤ USERTOP ∧
  str_at (bytes s) src n ∧
  same_outside dest n (bytes s) (bytes s') ∧
  ∀ k, 0 ≤ k < n → bytes s' (dest + k) = bytes s (src + k).

Definition str_not_copied (acc : Z → bool) (p dest src len e : Z) (s s' : copystate) : Prop :=
  badfaultfunc s' = false ∧
  same_outside dest (Z.min len (Z.max 0 (USERTOP - p))) (bytes s) (bytes s') ∧
  (e = ENAMETOOLONG ∧ p + len ≤ USERTOP ∧ (∀ k, 0 ≤ k < len → bytes s (src + k) ≠ 0) ∨
   e = EFAULT ∧ 2 ^ 32 < p + len ∧ s' = s ∨
   e = EFAULT ∧ ∃ k, 0 ≤ k < len ∧ (USERTOP ≤ p + k ∨ acc (p + k) = false) ∧
     ∀ j, 0 ≤ j < k → bytes s (src + j) ≠ 0).

(** Common part of [copyin] and [copyout]: the copy between the check and the
    result *)
Lemma copy_guarded_ok (rd wr acc : Z → bool) p dest src len s :
  0 < len → badfaultfunc s = false → is_u32 p → is_u32 len →
  (p + len ≤ USERTOP → 0 ≤ src ∧ src + len ≤ 2 ^ 32 ∧ 0 ≤ dest ∧ dest + len ≤ 2 ^ 32 ∧
     (src + len ≤ dest ∨ dest + len ≤ src)) →
  (p + len ≤ USERTOP →
     forallb rd (seqZ src len) && forallb wr (seqZ dest len) = forallb acc (seqZ p len)) →
  wp safe (stoplen ← copycheck p len;
           if negb (stoplen =? len) then fail EFAULT else
           set_badfaultfunc true;;
           ok ← memcpy rd wr (Z.to_nat len) dest src;
           set_badfaultfunc false;;
           if ok : bool then mret tt else fail EFAULT) s
    (λ _ s', copied acc p dest src len s s')
    (λ e s', not_copied acc p dest len e s s').
Proof.
  intros Hpos Hbf Hp Hl Hr Hacc. unfold set_badfaultfunc. wp_steps.
  apply copycheck_ok; [done|done|intros Hbad|intros stoplen Hlt Hst Hcase].
  { split_and!; [done|done|]. left. unfold USERTOP, MIPS_KSEG0, is_u32 in *. split; [lia|done]. }
  wp_if; wp_steps.
  { split_and!; [done|done|]. left. split; [lia|done]. }
  assert (p + len ≤ USERTOP) as Hin by lia.
  destruct (Hr Hin) as (?&?&?&?&?).
  eapply wp_mono; [apply memcpy_ok; rewrite ?Z2Nat.id by lia; done| |done].
  intros ok s' (_ & Hsame & Hcopy & Hok). rewrite Z2Nat.id, (Hacc Hin) in * by lia. wp_steps.
  destruct ok; wp_steps; (split_and!; [done|done|..]); [done..|by apply Hcopy|].
  right. split_and!; done.
Qed.

Lemma copystr_guarded_ok (rd wr acc : Z → bool) p dest src len s :
  0 < len → badfaultfunc s = false → is_u32 p → is_u32 len →
  (∀ n, 0 ≤ n ≤ len → p + n ≤ USERTOP → 0 ≤ src ∧ src + n ≤ 2 ^ 32 ∧
     0 ≤ dest ∧ dest + n ≤ 2 ^ 32 ∧ (src + n ≤ dest ∨ dest + n ≤ src)) →
  (∀ k, rd (src + k) && wr (dest + k) = acc (p + k)) →
  wp safe (stoplen ← copycheck p len;
           set_badfaultfunc true;;
           r ← copystr rd wr dest src len stoplen;
           set_badfaultfunc false;;
           str_return r) s
    (λ n s', str_copied p dest src len n s s')
    (λ e s', str_not_copied acc p dest src len e s s').
Proof.
  intros Hpos Hbf Hp Hl Hr Hacc. unfold set_badfaultfunc. wp_steps.
  apply copycheck_ok; [done|done|intros Hbad|intros stoplen Hlt Hst Hcase].
  { split_and!; [done|done|].
    destruct (decide (2 ^ 32 < p + len)); [right; left; by split_and!|].
    right; right. split; [done|]. exists 0. split_and!; [lia|lia|left; lia|lia]. }
  assert (Z.min len stoplen = Z.min len (USERTOP - p)) as Hlim by lia.
  destruct (Hr (Z.min len stoplen)) as (?&?&?&?&?); [lia..|].
  wp_steps. unfold copystr.
  eapply wp_mono; [apply copystr_from_ok; (lia || done)| |done].
  cbn [bytes badfaultfunc]. rewrite !Z.add_0_r, !Z.sub_0_r.
  intros r s' (_ & Hsame & Hres). wp_steps. unfold str_not_copied. rewrite Z.max_r by lia. rewrite <- Hlim.
  destruct r as [|e|n]; cbn [str_return]; wp_steps.
  - destruct Hres as (k & Hk & Hbad & Hnz). split_and!; [done|done|]. right; right.
    split; [done|]. exists k. split_and!; [lia|lia| |done]. right. rewrite <- Hacc.
    destruct Hbad as [->| ->]; [done|apply andb_false_r].
  - destruct Hres as [Hnz ->]. split_and!; [done|done|].
    destruct (Z.ltb_spec stoplen len).
    + right; right. split; [done|]. exists stoplen. split_and!; [lia|lia|left; lia|].
      intros j Hj. apply Hnz. lia.
    + left. split_and!; [done|lia|]. intros k Hk. apply Hnz. lia.
  - destruct Hres as (Hn & Hstr & Hout & Hcopy). rewrite !Z.sub_0_r in *.
    split_and!; [done|lia|lia|lia|done|done|done].
Qed.

Section functions.
Context (user_read user_write : Z → bool).

(** [copyin] succeeds exactly when the source lies below USERTOP and every
    byte of it can be read; then the destination holds the bytes of the source.
    Otherwise the error is EFAULT. In both cases nothing outside the destination
    changes and [pcb_badfaultfunc] is clear again. *)
Theorem copyin_spec usersrc dest len s :
  is_u32 usersrc → is_u32 len → 0 < len → kernel_range dest len → badfaultfunc s = false →
  wp safe (copyin user_read usersrc dest len) s
    (λ _ s', copied user_read usersrc dest usersrc len s s')
    (λ e s', not_copied user_read usersrc dest len e s s').
Proof.
  unfold is_u32, kernel_range. intros Hu Hl Hpos [Hd1 Hd2] Hbf.
  apply copy_guarded_ok; try done; [lia|]. intros _. by rewrite forallb_true, andb_true_r.
Qed.

Lemma copyout_ok src userdest len s :
  is_u32 userdest → is_u32 len → 0 < len → kernel_range src len → badfaultfunc s = false →
  wp safe (copyout user_write src userdest len) s
    (λ _ s', copied user_write userdest userdest src len s s' ∧
       ∀ x, USERTOP ≤ x → bytes s' x = bytes s x)
    (λ e s', not_copied user_write userdest userdest len e s s' ∧
       ∀ x, USERTOP ≤ x → bytes s' x = bytes s x).
Proof.
  unfold is_u32, kernel_range. intros Hu Hl Hpos [Hd1 Hd2] Hbf.
  eapply wp_mono.
  - apply (copy_guarded_ok (λ _, true) user_write user_write); try done; [lia|].
    intros _. by rewrite forallb_true.
  - intros [] s' Hc. split; [done|]. destruct Hc as (_&?&_&Hs&_).
    intros x Hx. apply Hs. lia.
  - intros e s' Hc. split; [done|]. destruct Hc as (_ & _ & Hs).
    destruct Hs as [[_ ->]|(?&_&Hs)]; [done|]. intros x Hx. apply Hs. lia.
Qed.

(** A copy of no bytes fails with EFAULT, whatever the address: the last address
    [bot + len - 1] then lies before the first one. *)
Lemma copyout_zero_length src userdest s :
  is_u32 userdest →
  wp safe (copyout user_write src userdest 0) s (λ _ _, False) (λ e s', e = EFAULT ∧ s' = s).
Proof.
  unfold is_u32. intros Hu. unfold copyout. wp_steps. apply copycheck_ok; [done|done|done|].
  intros stoplen Hlt Hs Hcase. wp_if; wp_steps. done.
Qed.

(** C37: [copyout] writes user memory only: from a kernel buffer, it succeeds exactly
    when the length is positive, the destination lies below USERTOP and every byte of it
    can be written, and then the bytes are those of the buffer. On failure, which is
    EFAULT, at most destination bytes have changed, and so no kernel memory in either
    case. A copy of no bytes always fails, and changes nothing. *)
Theorem copyout_spec src userdest len s :
  is_u32 userdest → is_u32 len → kernel_range src len → badfaultfunc s = false →
  wp safe (copyout user_write src userdest len) s
    (λ _ s', 0 < len ∧ copied user_write userdest userdest src len s s' ∧
       ∀ x, USERTOP ≤ x → bytes s' x = bytes s x)
    (λ e s', e = EFAULT ∧
       (len = 0 ∧ s' = s ∨ 0 < len ∧ not_copied user_write userdest userdest len e s s') ∧
       ∀ x, USERTOP ≤ x → bytes s' x = bytes s x).
Proof.
  intros Hu Hl Hk Hbf. destruct (decide (len = 0)) as [->|Hne].
  - eapply wp_mono; [by apply copyout_zero_length|done|]. intros e s' [-> ->]. split; [done|]. split; [by left|done].
  - assert (0 < len) by (unfold is_u32 in Hl; lia).
    eapply wp_mono; [by apply copyout_ok|done|]. intros e s' [Hn Hx]. split; [apply Hn|]. split; [by right|done].
Qed.

(** [copyinstr] copies a string from user space up to and including its null
    byte and reports its length; it fails with ENAMETOOLONG exactly if none of the
    first [len] bytes, all of them readable, is null, and with EFAULT if a bad
    address comes before the end of the string. *)
Theorem copyinstr_spec usersrc dest len s :
  is_u32 usersrc → is_u32 len → 0 < len → kernel_range dest len → badfaultfunc s = false →
  wp safe (copyinstr user_read usersrc dest len) s
    (λ n s', str_copied usersrc dest usersrc len n s s')
    (λ e s', str_not_copied user_read usersrc dest usersrc len e s s').
Proof.
  unfold is_u32, kernel_range. intros Hu Hl Hpos [Hd1 Hd2] Hbf.
  apply copystr_guarded_ok; try done; [lia|]. intros k. apply andb_true_r.
Qed.

Lemma copyoutstr_ok src userdest len s :
  is_u32 userdest → is_u32 len → 0 < len → kernel_range src len → badfaultfunc s = false →
  wp safe (copyoutstr user_write src userdest len) s
    (λ n s', str_copied userdest userdest src len n s s')
    (λ e s', str_not_copied user_write userdest userdest src len e s s').
Proof.
  unfold is_u32, kernel_range. intros Hu Hl Hpos [Hd1 Hd2] Hbf.
  apply copystr_guarded_ok; try done. lia.
Qed.

(** As for [copyout] *)
Lemma copyin_zero_length usersrc dest s :
  is_u32 usersrc →
  wp safe (copyin user_read usersrc dest 0) s (λ _ _, False) (λ e s', e = EFAULT ∧ s' = s).
Proof.
  unfold is_u32. intros Hu. unfold copyin. wp_steps. apply copycheck_ok; [done|done|done|].
  intros stoplen Hlt Hs Hcase. wp_if; wp_steps. done.
Qed.
End functions.

(** Witnesses: a page of user memory at 0x1000 that holds the string "hi" *)
Definition ex_mem : copystate :=
  MkCopy (λ a, if a =? 4096 then 104 else if a =? 4097 then 105 else 0) false.
Definition ex_acc (a : Z) : bool := (4096 <=? a) && (a <? 8192).

Lemma copyin_spec_witness :
  wp safe (copyin ex_acc 4096 2147483648 2) ex_mem
    (λ _ s', copied ex_acc 4096 2147483648 4096 2 ex_mem s')
    (λ e s', not_copied ex_acc 4096 2147483648 2 e ex_mem s').
Proof. apply copyin_spec; vm_compute; (done || split; congruence). Defined.

Lemma copyout_spec_witness :
  wp safe (copyout ex_acc 2147483648 8190 4) ex_mem
    (λ _ s', 0 < 4 ∧ copied ex_acc 8190 8190 2147483648 4 ex_mem s' ∧
       ∀ x, USERTOP ≤ x → bytes s' x = bytes ex_mem x)
    (λ e s', e = EFAULT ∧
       (4 = 0 ∧ s' = ex_mem ∨ 0 < 4 ∧ not_copied ex_acc 8190 8190 4 e ex_mem s') ∧
       ∀ x, USERTOP ≤ x → bytes s' x = bytes ex_mem x).
Proof. apply copyout_spec; vm_compute; (done || split; congruence). Defined.

Lemma copyinstr_spec_witness :
  wp safe (copyinstr ex_acc 4096 2147483648 16) ex_mem
    (λ n s', str_copied 4096 2147483648 4096 16 n ex_mem s')
    (λ e s', str_not_copied ex_acc 4096 2147483648 4096 16 e ex_mem s').
Proof. apply copyinstr_spec; vm_compute; (done || split; congruence). Defined.
