(* ===== verification/Uio.v ===== *)
(** * Moving data through a uio

    Model of kern/include/uio.h and kern/userprog/uio.c. The state is the memory of
    [CopyInOut] with the [uio] the functions update; the address space of the
    current thread ([curthread->t_vmspace]) and the outcome of user accesses are
    parameters. [off_t] is a signed 32-bit integer. *)

From Stdlib Require Import ZArith Lia.
From stdpp Require Import base list gmap numbers.
From S2P Require Import Prelude CopyInOut.

Local Open Scope Z_scope.

(** The enumerations are integers, so that the checks for other values have a
    meaning. *)
Definition UIO_READ : Z := 0.
Definition UIO_WRITE : Z := 1.
Definition UIO_USERSPACE : Z := 0.
Definition UIO_SYSSPACE : Z := 1.
Definition UIO_USERISPACE : Z := 2.

(** [iov_base] is [iov_kbase] and [iov_ubase], which share their storage. *)
Record iovec := MkIovec { iov_base : Z; iov_len : Z }.
Record uio := MkUio {
  uio_iovec : iovec;
  uio_offset : Z;
  uio_resid : Z;
  uio_segflg : Z;
  uio_rw : Z;
  uio_space : Z;
}.

Definition US := (copystate * uio)%type.

Definition on_mem {A} (m : M copystate A) : M US A := zoom fst (λ c s, (c, s.2)) m.
Definition get_uio : M US uio := gets snd.
Definition upd_uio (f : uio → uio) : M US () := modify (λ s, (s.1, f s.2)).

(** [memmove]: the source is read as it was before. *)
Definition memmove (dest src n : Z) : M copystate () :=
  modify (λ s, MkCopy (λ x, if (dest <=? x) && (x <? dest + n)
                            then bytes s (src + (x - dest)) else bytes s x)
                      (badfaultfunc s)).

Definition adv_base (size : Z) (u : uio) : uio :=
  MkUio (MkIovec (u32 (iov_base (uio_iovec u) + size)) (iov_len (uio_iovec u)))
    (uio_offset u) (uio_resid u) (uio_segflg u) (uio_rw u) (uio_space u).
Definition adv_counts (size : Z) (u : uio) : uio :=
  MkUio (MkIovec (iov_base (uio_iovec u)) (u32 (iov_len (uio_iovec u) - size)))
    (s32 (uio_offset u + size)) (u32 (uio_resid u - size))
    (uio_segflg u) (uio_rw u) (uio_space u).

Section operations.
Context (user_read user_write : Z → bool) (t_vmspace : Z).

(** The [switch] of the loop of [uiomove] *)
Definition uio_transfer (ptr size : Z) : M US () :=
  u ← get_uio;
  let base := iov_base (uio_iovec u) in
  if uio_segflg u =? UIO_SYSSPACE then
    (if uio_rw u =? UIO_READ then on_mem (memmove base ptr size)
     else on_mem (memmove ptr base size));;
    upd_uio (adv_base size)
  else if (uio_segflg u =? UIO_USERSPACE) || (uio_segflg u =? UIO_USERISPACE) then
    (if uio_rw u =? UIO_READ then on_mem (copyout user_write ptr base size)
     else on_mem (copyin user_read base ptr size));;
    upd_uio (adv_base size)
  else panic.

(** The loop; every iteration moves at least one of the [n] bytes. *)
Fixpoint uiomove_loop (fuel : nat) (ptr n : Z) : M US () :=
  u ← get_uio;
  if (0 <? n) && (0 <? uio_resid u) then
    match fuel with
    | O => noreturn
    | S fuel =>
      let size := if n <? iov_len (uio_iovec u) then n else iov_len (uio_iovec u) in
      if size =? 0 then panic else
      uio_transfer ptr size;;
      upd_uio (adv_counts size);;
      uiomove_loop fuel (u32 (ptr + size)) (u32 (n - size))
    end
  else mret tt.

Definition uiomove (ptr n : Z) : M US () :=
  u ← get_uio;
  if negb (uio_rw u =? UIO_READ) && negb (uio_rw u =? UIO_WRITE) then panic else
  (if uio_segflg u =? UIO_SYSSPACE then assert (uio_space u =? 0)
   else assert (uio_space u =? t_vmspace));;
  uiomove_loop (Z.to_nat n) ptr n.

(** [zeros] is the address of the static array of 16 zero bytes. *)
Fixpoint uiomovezeros_loop (zeros : Z) (fuel : nat) (n : Z) : M US () :=
  if 0 <? n then
    match fuel with
    | O => noreturn
    | S fuel =>
      let amt := if n <? 16 then n else 16 in
      uiomove zeros amt;;
      uiomovezeros_loop zeros fuel (u32 (n - amt))
    end
  else mret tt.

Definition uiomovezeros (zeros n : Z) : M US () :=
  u ← get_uio;
  assert (uio_rw u =? UIO_READ);;
  uiomovezeros_loop zeros (Z.to_nat n) n.

Definition mk_kuio (kbuf len pos rw : Z) : M US () :=
  upd_uio (λ _, MkUio (MkIovec kbuf len) pos len UIO_SYSSPACE rw 0).
End operations.

(** ** Lemmas *)

(** A uio set up as uio.h asks: the block holds the residual count, and the
    address space is the one of its segment. *)
Definition uio_ok (t_vmspace : Z) (u : uio) : Prop :=
  (uio_rw u = UIO_READ ∨ uio_rw u = UIO_WRITE) ∧
  iov_len (uio_iovec u) = uio_resid u ∧ is_u32 (uio_resid u) ∧
  is_u32 (iov_base (uio_iovec u)) ∧
  (uio_segflg u = UIO_SYSSPACE ∧ uio_space u = 0 ∧
     iov_base (uio_iovec u) + uio_resid u < 2 ^ 32 ∨
   (uio_segflg u = UIO_USERSPACE ∨ uio_segflg u = UIO_USERISPACE) ∧
     uio_space u = t_vmspace).

(** The same, with a residual count that may be set below the length of the
    block *)
Definition uio_wf (t_vmspace : Z) (u : uio) : Prop :=
  (uio_rw u = UIO_READ ∨ uio_rw u = UIO_WRITE) ∧
  0 ≤ uio_resid u ≤ iov_len (uio_iovec u) ∧ is_u32 (iov_len (uio_iovec u)) ∧
  is_u32 (iov_base (uio_iovec u)) ∧
  (uio_segflg u = UIO_SYSSPACE ∧ uio_space u = 0 ∧
     iov_base (uio_iovec u) + uio_resid u < 2 ^ 32 ∨
   (uio_segflg u = UIO_USERSPACE ∨ uio_segflg u = UIO_USERISPACE) ∧
     uio_space u = t_vmspace).

(** [size] bytes further on *)
Definition advance (size : Z) (u : uio) : uio :=
  MkUio (MkIovec (iov_base (uio_iovec u) + size) (iov_len (uio_iovec u) - size))
    (s32 (uio_offset u + size)) (uio_resid u - size)
    (uio_segflg u) (uio_rw u) (uio_space u).

(** Where the data goes and where it comes from *)
Definition uio_dest (u : uio) (ptr : Z) : Z :=
  if uio_rw u =? UIO_READ then iov_base (uio_iovec u) else ptr.
Definition uio_src (u : uio) (ptr : Z) : Z :=
  if uio_rw u =? UIO_READ then ptr else iov_base (uio_iovec u).

(** [size] bytes have gone between the buffer and the block, and no other byte
    of memory has changed. *)
Definition moved (u : uio) (ptr size : Z) (c c' : copystate) : Prop :=
  badfaultfunc c' = false ∧ iov_base (uio_iovec u) + size < 2 ^ 32 ∧
  same_outside (uio_dest u ptr) size (bytes c) (bytes c') ∧
  ∀ k, 0 ≤ k < size → bytes c' (uio_dest u ptr + k) = bytes c (uio_src u ptr + k).

(** A transfer that failed: the error is EFAULT and the uio is as before. *)
Definition not_moved (u : uio) (ptr size e : Z) (c : copystate) (s' : US) : Prop :=
  e = EFAULT ∧ s'.2 = u ∧ uio_segflg u ≠ UIO_SYSSPACE ∧ badfaultfunc s'.1 = false ∧
  same_outside (uio_dest u ptr) size (bytes c) (bytes s'.1).

Lemma s32_add x y : s32 (s32 x + y) = s32 (x + y).
Proof.
  unfold s32. f_equal.
  replace ((x + 2 ^ 31) `mod` 2 ^ 32 - 2 ^ 31 + y + 2 ^ 31)
    with ((x + 2 ^ 31) `mod` 2 ^ 32 + y) by lia.
  rewrite Zplus_mod_idemp_l. f_equal. lia.
Qed.

Lemma advance_advance a b u : advance b (advance a u) = advance (a + b) u.
Proof.
  destruct u as [[base len] off resid seg rw sp]. unfold advance. simpl.
  rewrite s32_add. f_equal; [f_equal|f_equal|]; lia.
Qed.

Lemma advance_zero u : - 2 ^ 31 ≤ uio_offset u < 2 ^ 31 → advance 0 u = u.
Proof.
  destruct u as [[base len] off resid seg rw sp]. unfold advance. simpl. intros.
  rewrite !Z.add_0_r, !Z.sub_0_r, s32_small by lia. done.
Qed.

Lemma uio_ok_wf t u : uio_ok t u → uio_wf t u.
Proof. unfold uio_ok, uio_wf, is_u32. intros (?&?&?&?&?). split_and!; lia || done. Qed.

Lemma adv_counts_base size u :
  0 ≤ size ≤ uio_resid u → uio_resid u ≤ iov_len (uio_iovec u) → is_u32 (iov_len (uio_iovec u)) →
  0 ≤ iov_base (uio_iovec u) → iov_base (uio_iovec u) + size < 2 ^ 32 →
  adv_counts size (adv_base size u) = advance size u.
Proof.
  destruct u as [[base len] off resid seg rw sp]. unfold advance, adv_counts, adv_base, is_u32.
  simpl. intros ? ? ? ? ?. by rewrite !u32_small by lia.
Qed.

Lemma uio_ok_advance t size u :
  uio_ok t u → 0 ≤ size ≤ uio_resid u → iov_base (uio_iovec u) + size < 2 ^ 32 →
  uio_ok t (advance size u).
Proof.
  unfold uio_ok, is_u32. destruct u as [[base len] off resid seg rw sp]. simpl.
  intros (?&?&?&?&Hs) ? ?. split_and!; lia.
Qed.

Lemma uio_wf_advance t size u :
  uio_wf t u → 0 ≤ size ≤ uio_resid u → iov_base (uio_iovec u) + size < 2 ^ 32 →
  uio_wf t (advance size u).
Proof.
  unfold uio_wf, is_u32. destruct u as [[base len] off resid seg rw sp]. simpl.
  intros (?&?&?&?&Hs) ? ?. split_and!; lia.
Qed.

Section lemmas.
Context (user_read user_write : Z → bool) (t_vmspace : Z).

Lemma uio_transfer_ok ptr size c u :
  uio_wf t_vmspace u → 0 < size ≤ uio_resid u → kernel_range ptr size →
  badfaultfunc c = false →
  wp safe (uio_transfer user_read user_write ptr size) (c, u)
    (λ _ s', s'.2 = adv_base size u ∧ moved u ptr size c s'.1)
    (λ e s', not_moved u ptr size e c s').
Proof.
  intros (Hrw & Hlen & Hres & Hbase & Hseg) Hsize [Hp1 Hp2] Hbf.
  unfold uio_transfer, get_uio, upd_uio, on_mem, moved, not_moved, is_u32 in *. wp_steps. simpl.
  destruct Hseg as [(Hseg & Hsp & Hrange)|[Hseg Hsp]].
  { rewrite Hseg, Z.eqb_refl. unfold memmove, uio_dest, uio_src.
    destruct (uio_rw u =? UIO_READ); wp_steps; simpl; split_and!; try (done || lia);
      (intros x Hx; simpl; destruct (_ && _) eqn:?; [|lia || done]; [f_equal; lia]). }
  assert ((uio_segflg u =? UIO_SYSSPACE) = false) as -> by (destruct Hseg as [->| ->]; done).
  assert ((uio_segflg u =? UIO_USERSPACE) || (uio_segflg u =? UIO_USERISPACE) = true) as ->
    by (destruct Hseg as [->| ->]; done).
  assert (uio_segflg u ≠ UIO_SYSSPACE) as Hns by (destruct Hseg as [->| ->]; done).
  unfold uio_dest, uio_src. set (base := iov_base (uio_iovec u)) in *.
  destruct (uio_rw u =? UIO_READ); wp_steps; simpl.
  - eapply wp_mono.
    + apply (copy_guarded_ok (λ _, true) user_write user_write); try (done || unfold is_u32; lia).
      intros _. by rewrite forallb_true.
    + intros [] c' (?&?&_&?&?). wp_steps. simpl. split_and!; try done. lia.
    + intros e c' (->&?&[[_ ->]|(_&_&?)]); split_and!; done.
  - eapply wp_mono.
    + apply (copy_guarded_ok user_read (λ _, true) user_read); try (done || unfold is_u32; lia).
      intros _. by rewrite forallb_true, andb_true_r.
    + intros [] c' (?&?&_&?&?). wp_steps. simpl. split_and!; try done. lia.
    + intros e c' (->&?&[[_ ->]|(_&_&?)]); split_and!; done.
Qed.

Lemma uiomove_loop_done fuel ptr n c u (Q : () → US → Prop) E :
  n ≤ 0 ∨ uio_resid u ≤ 0 → Q tt (c, u) →
  wp safe (uiomove_loop user_read user_write fuel ptr n) (c, u) Q E.
Proof.
  intros H HQ. destruct fuel; cbn [uiomove_loop]; unfold get_uio; wp_steps; simpl;
    (destruct (_ && _) eqn:?; [lia|by wp_steps]).
Qed.

(** The checks before the loop pass. *)
Lemma uiomove_checks ptr n c u (Q : () → US → Prop) E :
  uio_wf t_vmspace u →
  wp safe (uiomove_loop user_read user_write (Z.to_nat n) ptr n) (c, u) Q E →
  wp safe (uiomove user_read user_write t_vmspace ptr n) (c, u) Q E.
Proof.
  intros (Hrw & _ & _ & _ & Hseg) Hloop. unfold uiomove, get_uio. wp_steps. simpl.
  assert (negb (uio_rw u =? UIO_READ) && negb (uio_rw u =? UIO_WRITE) = false) as ->
    by (destruct Hrw as [->| ->]; done).
  wp_steps. destruct Hseg as [(-> & -> & ?)|[[-> | ->] ->]]; (apply wp_assert; [|done]);
    (done || apply Z.eqb_refl).
Qed.

Lemma uiomove_ok ptr n c u (Q : () → US → Prop) (E : Z → US → Prop) :
  uio_ok t_vmspace u → is_u32 n → kernel_range ptr n → badfaultfunc c = false →
  - 2 ^ 31 ≤ uio_offset u < 2 ^ 31 →
  let amt := Z.min n (uio_resid u) in
  (∀ c', moved u ptr amt c c' → Q tt (c', advance amt u)) →
  (∀ e s', not_moved u ptr amt e c s' → E e s') →
  wp safe (uiomove user_read user_write t_vmspace ptr n) (c, u) Q E.
Proof.
  intros Hok Hn Hp Hbf Hoff amt HQ HE. pose proof Hok as (Hrw & Hlen & Hres & Hbase & Hseg).
  apply uiomove_checks; [by apply uio_ok_wf|].
  assert (0 < amt ∨ amt = 0) as [Hpos|H0] by (unfold is_u32 in *; lia).
  - destruct (Z.to_nat n) as [|fuel] eqn:Hfuel; [unfold is_u32 in *; lia|].
    cbn [uiomove_loop]. unfold get_uio. wp_steps. simpl.
    unfold is_u32 in *. wp_if.
    assert ((if n <? iov_len (uio_iovec u) then n else iov_len (uio_iovec u)) = amt) as ->
      by (destruct (Z.ltb_spec n (iov_len (uio_iovec u))); lia).
    wp_if. wp_steps. eapply wp_mono.
    + apply uio_transfer_ok; [by apply uio_ok_wf|lia| |done]. unfold kernel_range in *. lia.
    + intros [] [c' u'] [Hu' Hmoved]. simpl in Hu'. subst u'. unfold upd_uio. wp_steps. simpl.
      pose proof Hmoved as (_ & ? & _). rewrite adv_counts_base by (unfold is_u32; lia).
      apply uiomove_loop_done; [simpl; rewrite u32_small by lia; lia|].
      by apply HQ.
    + intros e s' Hs'. by apply HE.
  - apply uiomove_loop_done; [unfold is_u32 in *; lia|].
    rewrite <- (advance_zero u Hoff) at 1. rewrite <- H0. apply HQ. rewrite H0.
    split_and!; [done|unfold is_u32 in *; lia|done|lia].
Qed.

(** With at least [n] bytes left exactly [n] bytes move, however long the block is. *)
Lemma uiomove_exact ptr n c u (Q : () → US → Prop) (E : Z → US → Prop) :
  uio_wf t_vmspace u → 0 ≤ n ≤ uio_resid u → kernel_range ptr n → badfaultfunc c = false →
  - 2 ^ 31 ≤ uio_offset u < 2 ^ 31 →
  (∀ c', moved u ptr n c c' → Q tt (c', advance n u)) →
  (∀ e s', not_moved u ptr n e c s' → E e s') →
  wp safe (uiomove user_read user_write t_vmspace ptr n) (c, u) Q E.
Proof.
  intros Hwf Hn Hp Hbf Hoff HQ HE. pose proof Hwf as (Hrw & Hlen & Hres & Hbase & Hseg).
  apply uiomove_checks; [done|]. destruct (decide (n = 0)) as [->|Hne].
  { apply uiomove_loop_done; [lia|]. rewrite <- (advance_zero u Hoff) at 1. apply HQ.
    unfold is_u32 in Hbase. split_and!; [done|lia|done|lia]. }
  destruct (Z.to_nat n) as [|fuel] eqn:Hfuel; [lia|].
  cbn [uiomove_loop]. unfold get_uio. wp_steps. simpl. unfold is_u32 in *. wp_if.
  assert ((if n <? iov_len (uio_iovec u) then n else iov_len (uio_iovec u)) = n) as ->
    by (destruct (Z.ltb_spec n (iov_len (uio_iovec u))); lia).
  wp_if. wp_steps. eapply wp_mono; [by apply uio_transfer_ok; [..|lia| |]| |].
  - intros [] [c' u'] [Hu' Hmoved]. simpl in Hu'. subst u'. unfold upd_uio. wp_steps. simpl.
    pose proof Hmoved as (_ & ? & _). rewrite adv_counts_base by (unfold is_u32; lia).
    apply uiomove_loop_done; [simpl; rewrite u32_small by lia; lia|]. by apply HQ.
  - intros e s' Hs'. by apply HE.
Qed.
End lemmas.

(** ** Properties *)

(** What [uiomovezeros] has done after [d] bytes: the first [d] bytes of the block
    are zero and the uio has advanced past them. *)
Definition zeroed (u : uio) (d total : Z) (c : copystate) (s' : US) : Prop :=
  s'.2 = advance d u ∧ badfaultfunc s'.1 = false ∧
  iov_base (uio_iovec u) + d < 2 ^ 32 ∧
  same_outside (iov_base (uio_iovec u)) total (bytes c) (bytes s'.1) ∧
  ∀ k, 0 ≤ k < d → bytes s'.1 (iov_base (uio_iovec u) + k) = 0.

Lemma s32_range z : - 2 ^ 31 ≤ s32 z < 2 ^ 31.
Proof. unfold s32. pose proof (Z.mod_pos_bound (z + 2 ^ 31) (2 ^ 32)). lia. Qed.

(** A further change of memory within the block, past the first [d] bytes, of
    which the first [m] are made zero *)
Lemma zeroed_step u d m total c c' c'' :
  zeroed u d total c (c', advance d u) → 0 ≤ d → 0 ≤ m → badfaultfunc c'' = false →
  iov_base (uio_iovec u) + (d + m) < 2 ^ 32 →
  same_outside (iov_base (uio_iovec u) + d) (total - d) (bytes c') (bytes c'') →
  (∀ k, 0 ≤ k < m → bytes c'' (iov_base (uio_iovec u) + d + k) = 0) →
  zeroed u (d + m) total c (c'', advance (d + m) u).
Proof.
  intros (_ & _ & _ & Hsame & Hzero) Hd Hm Hbf Hb Hsame' Hzero'. simpl in *.
  split_and!; [done|done|done| |]; simpl.
  - intros x Hx. rewrite Hsame' by lia. by apply Hsame.
  - intros k Hk. destruct (decide (k < d)).
    + rewrite Hsame' by lia. apply Hzero. lia.
    + rewrite <- (Hzero' (k - d)) by lia. f_equal. lia.
Qed.

Section properties.
Context (user_read user_write : Z → bool) (t_vmspace : Z).

(** [uiomove] moves [min n resid] bytes between the buffer and the block the
    uio describes, in the direction of [uio_rw], and changes no other memory; it
    advances the block and the offset and lowers the residual count by exactly
    that amount, leaving a uio that can be used again. An error is EFAULT, only
    for user blocks, and leaves the uio as it was. *)
Theorem uiomove_spec ptr n c u :
  uio_ok t_vmspace u → is_u32 n → kernel_range ptr n → badfaultfunc c = false →
  - 2 ^ 31 ≤ uio_offset u < 2 ^ 31 →
  let amt := Z.min n (uio_resid u) in
  wp safe (uiomove user_read user_write t_vmspace ptr n) (c, u)
    (λ _ s', s'.2 = advance amt u ∧ uio_ok t_vmspace s'.2 ∧ moved u ptr amt c s'.1)
    (λ e s', not_moved u ptr amt e c s').
Proof.
  intros Hok Hn Hp Hbf Hoff amt. apply uiomove_ok; try done.
  intros c' Hm. split_and!; [done| |apply Hm].
  apply uio_ok_advance; [done| |apply Hm]. destruct Hok as (_&_&?&_). unfold is_u32 in *. lia.
Qed.

Lemma uiomovezeros_loop_ok zeros total c u :
  kernel_range zeros 16 → (∀ k, 0 ≤ k < 16 → bytes c (zeros + k) = 0) →
  0 ≤ total ≤ uio_resid u →
  (iov_base (uio_iovec u) + total ≤ zeros ∨ zeros + 16 ≤ iov_base (uio_iovec u)) →
  uio_rw u = UIO_READ → uio_ok t_vmspace u →
  ∀ fuel n d c',
  zeroed u d total c (c', advance d u) →
  is_u32 n → n ≤ Z.of_nat fuel → 0 ≤ d ≤ total → total = d + Z.min n (uio_resid u - d) →
  wp safe (uiomovezeros_loop user_read user_write t_vmspace zeros fuel n) (c', advance d u)
    (λ _ s', zeroed u total total c s')
    (λ e s', e = EFAULT ∧ ∃ d, 0 ≤ d ≤ total ∧ zeroed u d total c s').
Proof.
  intros Hz Hz0 Htot Hdisj Hrw Hok. induction fuel as [|fuel IH]; intros n d c' Hd Hn Hf Hdt Ht;
    cbn [uiomovezeros_loop]; unfold is_u32 in *; (wp_if; wp_steps).
  1,3: by assert (total = d) as -> by lia.
  pose proof Hd as (_ & Hbf & Hb & Hsame & Hzero). simpl in Hbf, Hsame, Hzero.
  set (amt := if n <? 16 then n else 16).
  assert (0 < amt ≤ 16 ∧ amt ≤ n) as Hamt by (unfold amt; destruct (Z.ltb_spec n 16); lia).
  set (m := Z.min amt (uio_resid u - d)).
  assert (uio_rw (advance d u) = UIO_READ) as Hrw' by done.
  apply uiomove_ok; [apply uio_ok_advance; (done || lia)|unfold is_u32; lia|unfold kernel_range in *; lia|done| | |].
  { simpl. apply s32_range. }
  - intros c'' (Hbf' & Hb' & Hsame' & Hcopy). unfold uio_dest, uio_src in *.
    rewrite Hrw', Z.eqb_refl, advance_advance in *. cbn [uio_iovec advance iov_base uio_resid] in *.
    fold m in Hb', Hsame', Hcopy |- *. rewrite u32_small by lia.
    assert (m = Z.min amt (uio_resid u - d)) as Hm by done. clearbody m amt.
    apply IH; [|lia..]. apply (zeroed_step _ _ _ _ _ c'); try (done || lia).
    + intros x Hx. apply Hsame'. lia.
    + intros k Hk. rewrite Hcopy by lia. rewrite Hsame by lia. apply Hz0. lia.
  - intros e [c'' u''] (-> & Hu & _ & Hbf' & Hsame'). simpl in Hu. subst u''.
    unfold uio_dest in Hsame'. rewrite Hrw', Z.eqb_refl in Hsame'. simpl in Hsame'. fold m in Hsame'.
    assert (m = Z.min amt (uio_resid u - d)) as Hm by done. clearbody m amt.
    split; [done|]. exists d. split; [lia|]. rewrite <- (Z.add_0_r d).
    apply (zeroed_step _ _ _ _ _ c'); try (done || lia).
    intros x Hx. apply Hsame'. lia.
Qed.

(** The same with at least [n] bytes left, however long the block is *)
Lemma uiomovezeros_loop_exact zeros total c u :
  kernel_range zeros 16 → (∀ k, 0 ≤ k < 16 → bytes c (zeros + k) = 0) →
  0 ≤ total ≤ uio_resid u →
  (iov_base (uio_iovec u) + total ≤ zeros ∨ zeros + 16 ≤ iov_base (uio_iovec u)) →
  uio_rw u = UIO_READ → uio_wf t_vmspace u →
  ∀ fuel n d c',
  zeroed u d total c (c', advance d u) →
  is_u32 n → n ≤ Z.of_nat fuel → 0 ≤ d ≤ total → total = d + n →
  wp safe (uiomovezeros_loop user_read user_write t_vmspace zeros fuel n) (c', advance d u)
    (λ _ s', zeroed u total total c s')
    (λ e s', e = EFAULT ∧ uio_segflg u ≠ UIO_SYSSPACE ∧ ∃ d, 0 ≤ d ≤ total ∧ zeroed u d total c s').
Proof.
  intros Hz Hz0 Htot Hdisj Hrw Hok. induction fuel as [|fuel IH]; intros n d c' Hd Hn Hf Hdt Ht;
    cbn [uiomovezeros_loop]; unfold is_u32 in *; (wp_if; wp_steps).
  1,3: by assert (total = d) as -> by lia.
  pose proof Hd as (_ & Hbf & Hb & Hsame & Hzero). simpl in Hbf, Hsame, Hzero.
  set (amt := if n <? 16 then n else 16).
  assert (0 < amt ≤ 16 ∧ amt ≤ n) as Hamt by (unfold amt; destruct (Z.ltb_spec n 16); lia).
  clearbody amt. assert (uio_rw (advance d u) = UIO_READ) as Hrw' by done.
  apply uiomove_exact; [by apply uio_wf_advance; [..|lia|]|simpl; lia|unfold kernel_range in *; lia|done|simpl; apply s32_range| |].
  - intros c'' (Hbf' & Hb' & Hsame' & Hcopy). unfold uio_dest, uio_src in *.
    rewrite Hrw', Z.eqb_refl, advance_advance in *. cbn [uio_iovec advance iov_base uio_resid] in *.
    rewrite u32_small by lia.
    apply IH; [|lia..]. apply (zeroed_step _ _ _ _ _ c'); try (done || lia).
    + intros x Hx. apply Hsame'. lia.
    + intros k Hk. rewrite Hcopy by lia. rewrite Hsame by lia. apply Hz0. lia.
  - intros e [c'' u''] (-> & Hu & Hseg & Hbf' & Hsame'). simpl in Hu. subst u''.
    unfold uio_dest in Hsame'. rewrite Hrw', Z.eqb_refl in Hsame'. simpl in Hsame'.
    split; [done|]. split; [done|]. exists d. split; [lia|]. rewrite <- (Z.add_0_r d).
    apply (zeroed_step _ _ _ _ _ c'); try (done || lia).
    intros x Hx. apply Hsame'. lia.
Qed.

Lemma uiomovezeros_exact zeros n c u :
  kernel_range zeros 16 → (∀ k, 0 ≤ k < 16 → bytes c (zeros + k) = 0) →
  badfaultfunc c = false → - 2 ^ 31 ≤ uio_offset u < 2 ^ 31 →
  uio_rw u = UIO_READ → uio_wf t_vmspace u → 0 ≤ n ≤ uio_resid u →
  (iov_base (uio_iovec u) + n ≤ zeros ∨ zeros + 16 ≤ iov_base (uio_iovec u)) →
  wp safe (uiomovezeros user_read user_write t_vmspace zeros n) (c, u)
    (λ _ s', zeroed u n n c s')
    (λ e s', e = EFAULT ∧ uio_segflg u ≠ UIO_SYSSPACE ∧ ∃ d, 0 ≤ d ≤ n ∧ zeroed u d n c s').
Proof.
  intros Hz Hz0 Hbf Hoff Hrw Hok Hn Hdisj. unfold uiomovezeros, get_uio.
  wp_assert by (simpl; by rewrite Hrw).
  pose proof Hok as (_ & Hlen & Hl & Hb & _). unfold is_u32 in Hl, Hb.
  rewrite <- (advance_zero u Hoff) at 1. apply uiomovezeros_loop_exact; try (done || unfold is_u32; lia).
  split_and!; simpl; [done|done|lia|done|lia].
Qed.

(** [uiomovezeros] fills the next [min n resid] bytes of the block with zeros
    and advances the uio past them, for any [n]; on EFAULT the uio has advanced
    past a prefix that is filled. No other memory changes. *)
Theorem uiomovezeros_spec zeros n c u :
  kernel_range zeros 16 → (∀ k, 0 ≤ k < 16 → bytes c (zeros + k) = 0) →
  is_u32 n → badfaultfunc c = false → - 2 ^ 31 ≤ uio_offset u < 2 ^ 31 →
  uio_rw u = UIO_READ → uio_ok t_vmspace u →
  let total := Z.min n (uio_resid u) in
  (iov_base (uio_iovec u) + total ≤ zeros ∨ zeros + 16 ≤ iov_base (uio_iovec u)) →
  wp safe (uiomovezeros user_read user_write t_vmspace zeros n) (c, u)
    (λ _ s', zeroed u total total c s')
    (λ e s', e = EFAULT ∧ ∃ d, 0 ≤ d ≤ total ∧ zeroed u d total c s').
Proof.
  intros Hz Hz0 Hn Hbf Hoff Hrw Hok total Hdisj. unfold uiomovezeros, get_uio.
  wp_assert by (simpl; by rewrite Hrw).
  assert (0 ≤ total ≤ uio_resid u ∧ total = Z.min n (uio_resid u)) as [? Ht].
  { destruct Hok as (_&_&?&_). unfold is_u32, total in *. lia. }
  assert (0 ≤ n ∧ is_u32 (iov_base (uio_iovec u))) as [? Hb].
  { destruct Hok as (_&_&_&?&_). unfold is_u32 in *. lia. }
  rewrite <- (advance_zero u Hoff) at 1. apply uiomovezeros_loop_ok; try (done || lia).
  split_and!; simpl; [done|done|unfold is_u32 in Hb; lia|done|lia].
Qed.
End properties.

(** a uio made by [mk_kuio] is well formed, and a [uiomove] of its whole
    length moves all of it and leaves nothing. *)
Theorem mk_kuio_uiomove user_read user_write t_vmspace kbuf ptr len pos rw s :
  rw = UIO_READ ∨ rw = UIO_WRITE → 0 ≤ kbuf → is_u32 len → kbuf + len < 2 ^ 32 →
  kernel_range ptr len → - 2 ^ 31 ≤ pos < 2 ^ 31 → badfaultfunc s.1 = false →
  wp safe (mk_kuio kbuf len pos rw;; uiomove user_read user_write t_vmspace ptr len) s
    (λ _ s', uio_resid s'.2 = 0 ∧ uio_offset s'.2 = s32 (pos + len) ∧
       let dest := if rw =? UIO_READ then kbuf else ptr in
       let src := if rw =? UIO_READ then ptr else kbuf in
       same_outside dest len (bytes s.1) (bytes s'.1) ∧
       ∀ k, 0 ≤ k < len → bytes s'.1 (dest + k) = bytes s.1 (src + k)) noerr.
Proof.
  intros Hrw Hk Hlen Hkl Hp Hpos Hbf. unfold mk_kuio, upd_uio. wp_steps. unfold is_u32 in *.
  apply uiomove_ok; simpl; try (done || lia).
  - unfold uio_ok, is_u32. simpl. split_and!; lia.
  - intros c' (_ & _ & Hsame & Hcopy). simpl. rewrite Z.min_id in *. split_and!; (done || lia).
  - by intros e s' (_ & _ & ? & _).
Qed.

(** Witnesses *)
Definition ex_uio : uio :=
  MkUio (MkIovec 4096 100) 0 100 UIO_USERSPACE UIO_READ 2147483744.
Definition ex_zero : copystate := MkCopy (λ _, 0) false.

Lemma uiomove_spec_witness :
  wp safe (uiomove ex_acc ex_acc 2147483744 2147487744 512) (ex_zero, ex_uio)
    (λ _ s', s'.2 = advance 100 ex_uio ∧ uio_ok 2147483744 s'.2 ∧
       moved ex_uio 2147487744 100 ex_zero s'.1)
    (λ e s', not_moved ex_uio 2147487744 100 e ex_zero s').
Proof.
  apply (uiomove_spec ex_acc ex_acc 2147483744 2147487744 512 ex_zero ex_uio);
    unfold uio_ok, is_u32, kernel_range, USERTOP, MIPS_KSEG0; simpl; (done || lia).
Defined.

Lemma uiomovezeros_spec_witness :
  wp safe (uiomovezeros ex_acc ex_acc 2147483744 2147487744 40) (ex_zero, ex_uio)
    (λ _ s', zeroed ex_uio 40 40 ex_zero s')
    (λ e s', e = EFAULT ∧ ∃ d, 0 ≤ d ≤ 40 ∧ zeroed ex_uio d 40 ex_zero s').
Proof.
  apply (uiomovezeros_spec ex_acc ex_acc 2147483744 2147487744 40 ex_zero ex_uio);
    unfold uio_ok, is_u32, kernel_range, USERTOP, MIPS_KSEG0; simpl; (done || lia).
Defined.

Lemma mk_kuio_uiomove_witness :
  wp safe (mk_kuio 2147487744 512 1024 UIO_WRITE;; uiomove ex_acc ex_acc 0 2147491840 512)
    (ex_zero, ex_uio)
    (λ _ s', uio_resid s'.2 = 0 ∧ uio_offset s'.2 = s32 (1024 + 512) ∧
       same_outside 2147491840 512 (bytes ex_zero) (bytes s'.1) ∧
       ∀ k, 0 ≤ k < 512 → bytes s'.1 (2147491840 + k) = bytes ex_zero (2147487744 + k)) noerr.
Proof.
  apply (mk_kuio_uiomove ex_acc ex_acc 0 2147487744 2147491840 512 1024 UIO_WRITE (ex_zero, ex_uio));
    unfold is_u32, kernel_range, USERTOP, MIPS_KSEG0; simpl; (done || lia || by right).
Defined.
