(* ===== verification/Cpu.v ===== *)
(** * The processor: interrupt level, status register, current thread

    Model of kern/arch/mips/mips/spl.c, of the two globals [in_interrupt]
    (interrupt.c) and [curthread] (thread.c), and of the path of [lock_acquire]
    and [lock_release] (kern/thread/synch.c) on which no other thread holds the
    lock; the scheduling of the threads that wait is the subject of Synch.v. *)

From Stdlib Require Import ZArith Lia.
From stdpp Require Import base list gmap numbers.
From S2P Require Import Prelude.

Local Open Scope Z_scope.

(** [cp0_status] is coprocessor 0 register 12; [curthread] is the address of the
    running thread's structure, 0 while the scheduler runs. *)
Record cpu := MkCpu {
  curspl : Z;
  cp0_status : Z;
  in_interrupt : Z;
  curthread : Z;
}.

(** machine/spl.h and machine/specialreg.h *)
Definition SPL_HIGH : Z := 15.
Definition CST_IEc : Z := 1.

(** A state that contains a processor *)
Class HasCpu (S : Type) := {
  cpu_of : S → cpu;
  set_cpu : cpu → S → S;
  cpu_of_set c s : cpu_of (set_cpu c s) = c;
  set_cpu_of s : set_cpu (cpu_of s) s = s;
  set_cpu_set c c' s : set_cpu c (set_cpu c' s) = set_cpu c s;
}.

#[global] Instance cpu_has_cpu : HasCpu cpu :=
  {| cpu_of c := c; set_cpu c _ := c;
     cpu_of_set _ _ := eq_refl; set_cpu_of _ := eq_refl;
     set_cpu_set _ _ _ := eq_refl |}.

Section pair.
Context {A T : Type} `{!HasCpu A}.

Definition pair_cpu_of (s : A * T) : cpu := cpu_of s.1.
Definition pair_set_cpu (c : cpu) (s : A * T) : A * T := (set_cpu c s.1, s.2).

Lemma pair_cpu_of_set c s : pair_cpu_of (pair_set_cpu c s) = c.
Proof. apply cpu_of_set. Qed.
Lemma pair_set_cpu_of s : pair_set_cpu (pair_cpu_of s) s = s.
Proof. unfold pair_set_cpu, pair_cpu_of. rewrite set_cpu_of. by destruct s. Qed.
Lemma pair_set_cpu_set c c' s :
  pair_set_cpu c (pair_set_cpu c' s) = pair_set_cpu c s.
Proof. unfold pair_set_cpu. cbn [fst snd]. by rewrite set_cpu_set. Qed.

#[global] Instance pair_has_cpu : HasCpu (A * T) :=
  {| cpu_of := pair_cpu_of; set_cpu := pair_set_cpu;
     cpu_of_set := pair_cpu_of_set; set_cpu_of := pair_set_cpu_of;
     set_cpu_set := pair_set_cpu_set |}.
End pair.

(** Compute the processor of a pair. *)
Ltac cpu_simpl :=
  cbn [cpu_of set_cpu pair_has_cpu pair_cpu_of pair_set_cpu cpu_has_cpu fst snd].

(** ** Interrupts on and off *)

Definition interrupts_on (c : cpu) : cpu :=
  MkCpu (curspl c) (Z.lor (cp0_status c) CST_IEc) (in_interrupt c) (curthread c).

Definition interrupts_off (c : cpu) : cpu :=
  MkCpu (curspl c) (Z.land (cp0_status c) (u32 (Z.lnot CST_IEc)))
    (in_interrupt c) (curthread c).

Definition with_curspl (n : Z) (c : cpu) : cpu :=
  MkCpu n (cp0_status c) (in_interrupt c) (curthread c).

(** The processor after [splx(newspl)] *)
Definition spl_set (newspl : Z) (c : cpu) : cpu :=
  with_curspl newspl
    (if 0 <? newspl then interrupts_off c
     else if newspl =? 0 then interrupts_on c else c).

Section spl.
Context {S : Type} `{!HasCpu S}.

Definition splx (newspl : Z) : M S Z :=
  s ← get;
  put (set_cpu (spl_set newspl (cpu_of s)) s);;
  mret (curspl (cpu_of s)).

Definition splhigh : M S Z := splx SPL_HIGH.
Definition spl0 : M S Z := splx 0.

Definition get_curthread : M S Z := gets (λ s, curthread (cpu_of s)).
Definition get_curspl : M S Z := gets (λ s, curspl (cpu_of s)).

(** The idiom [s = splhigh(); ...; splx(s);] *)
Definition with_splhigh {A} (m : M S A) : M S A :=
  s ← splhigh;
  a ← m;
  _ ← splx s;
  mret a.
End spl.

(** The interrupt-enable flag agrees with the level. *)
Record cpu_wf (c : cpu) : Prop := {
  wf_spl : 0 ≤ curspl c;
  wf_status : is_u32 (cp0_status c);
  wf_ie : Z.testbit (cp0_status c) 0 = (curspl c =? 0);
}.

(** The processor runs a thread. *)
Definition running (c : cpu) : Prop := cpu_wf c ∧ curthread c ≠ 0.

Section spl_lemmas.

Lemma u32_land x y : is_u32 x → 0 ≤ y → is_u32 (Z.land x y).
Proof.
  intros [Hx0 Hx] Hy. split; [apply Z.land_nonneg; by left|].
  destruct (decide (Z.land x y = 0)) as [->|]; [lia|].
  assert (0 ≤ Z.land x y) by (apply Z.land_nonneg; by left).
  apply Z.log2_lt_pow2; [lia|].
  eapply Z.le_lt_trans; [by apply Z.log2_land|].
  apply Z.min_lt_iff. left. destruct (decide (x = 0)) as [->|]; [done|].
  apply Z.log2_lt_pow2; lia.
Qed.

Lemma u32_lor x y : is_u32 x → is_u32 y → is_u32 (Z.lor x y).
Proof.
  intros [Hx0 Hx] [Hy0 Hy]. assert (0 ≤ Z.lor x y) by (apply Z.lor_nonneg; lia).
  split; [done|]. destruct (decide (Z.lor x y = 0)) as [->|]; [lia|].
  apply Z.log2_lt_pow2; [lia|]. rewrite Z.log2_lor by done.
  apply Z.max_lub_lt.
  - destruct (decide (x = 0)) as [->|]; [done|]. apply Z.log2_lt_pow2; lia.
  - destruct (decide (y = 0)) as [->|]; [done|]. apply Z.log2_lt_pow2; lia.
Qed.

Lemma spl_set_wf n c : cpu_wf c → 0 ≤ n → cpu_wf (spl_set n c).
Proof.
  intros [Hs Hst Hie] Hn. unfold spl_set.
  destruct (Z.ltb_spec 0 n), (Z.eqb_spec n 0); try lia; split;
    cbn [curspl cp0_status with_curspl interrupts_on interrupts_off].
  - done.
  - apply u32_land; [done|by vm_compute].
  - rewrite Z.land_spec. replace (Z.testbit (u32 (Z.lnot CST_IEc)) 0) with false by done.
    rewrite andb_false_r. symmetry. lia.
  - lia.
  - apply u32_lor; [done|by vm_compute].
  - rewrite Z.lor_spec. subst. apply orb_true_r.
Qed.

Lemma ie_on_bit st k :
  0 ≤ k → Z.testbit (Z.lor st CST_IEc) k = if k =? 0 then true else Z.testbit st k.
Proof.
  intros Hk. rewrite Z.lor_spec. destruct (Z.eqb_spec k 0) as [->|].
  - apply orb_true_r.
  - rewrite (Z.bits_above_log2 CST_IEc) by (change (Z.log2 CST_IEc) with 0; lia || done). apply orb_false_r.
Qed.

Lemma ie_off_bit st k :
  is_u32 st → 0 ≤ k →
  Z.testbit (Z.land st (u32 (Z.lnot CST_IEc))) k
  = if k =? 0 then false else Z.testbit st k.
Proof.
  intros Hst Hk. change (u32 (Z.lnot CST_IEc)) with (Z.ldiff (Z.ones 32) 1).
  rewrite Z.land_spec, Z.ldiff_spec, Z.testbit_ones_nonneg by lia.
  destruct (Z.eqb_spec k 0) as [->|]; [apply andb_false_r|].
  rewrite (Z.bits_above_log2 1) by (simpl; lia). rewrite andb_true_r.
  destruct (Z.ltb_spec k 32); [by rewrite andb_true_r|].
  by rewrite u32_testbit_high.
Qed.

(** Restoring the level restores the whole processor. *)
Lemma spl_set_back n c :
  cpu_wf c → 0 ≤ n → spl_set (curspl c) (spl_set n c) = c.
Proof.
  intros Hwf Hn. pose proof (spl_set_wf n c Hwf Hn) as [_ Hst1 _].
  pose proof (wf_spl _ Hwf) as Hs. destruct Hwf as [_ Hst Hie].
  destruct c as [spl st ii cur].
  unfold spl_set, with_curspl, interrupts_on, interrupts_off in *.
  cbn [curspl cp0_status in_interrupt curthread] in *.
  destruct (Z.ltb_spec 0 spl), (Z.ltb_spec 0 n), (Z.eqb_spec spl 0),
    (Z.eqb_spec n 0); try lia; cbn [curspl cp0_status in_interrupt curthread] in *;
    f_equal; apply Z.bits_inj'; intros k Hk;
    rewrite ?ie_on_bit, ?ie_off_bit, ?ie_on_bit, ?ie_off_bit by done;
    destruct (Z.eqb_spec k 0) as [->|]; done.
Qed.
End spl_lemmas.

Lemma curthread_spl_set n c : curthread (spl_set n c) = curthread c.
Proof. unfold spl_set. by destruct (0 <? n), (n =? 0). Qed.

Lemma running_spl n c : running c → 0 ≤ n → running (spl_set n c).
Proof.
  intros [Hc Hcur] Hn. split; [by apply spl_set_wf|by rewrite curthread_spl_set].
Qed.

Section spl_rules.
Context {S : Type} `{!HasCpu S} (F : fault → Prop).

Lemma wp_splx n s (Q : Z → S → Prop) E :
  Q (curspl (cpu_of s)) (set_cpu (spl_set n (cpu_of s)) s) → wp F (splx n) s Q E.
Proof. intros HQ. unfold splx. by wp_steps. Qed.

Lemma wp_with_splhigh {A} (m : M S A) s (Q : A → S → Prop) E :
  wp F m (set_cpu (spl_set SPL_HIGH (cpu_of s)) s)
    (λ a s', Q a (set_cpu (spl_set (curspl (cpu_of s)) (cpu_of s')) s')) E →
  wp F (with_splhigh m) s Q E.
Proof.
  intros Hm. unfold with_splhigh, splhigh. wp_steps. apply wp_splx. wp_steps.
  eapply wp_mono; [exact Hm| |done]. intros a s' HQ. wp_steps. apply wp_splx.
  by wp_steps.
Qed.
End spl_rules.

(** ** Locks no other thread holds

    [lock_get] and [lock_set] give access to the [owner] field of the lock in
    the state. When another thread holds the lock the caller sleeps until that
    thread releases it; that is not a run of this function alone, so the model
    ends there, in [NoReturn]. Without waiters [lock_release] has nobody to wake
    up. *)
Section lock.
Context {S : Type} `{!HasCpu S} (lock_get : S → Z) (lock_set : Z → S → S).

Definition lock_acquire_free : M S () :=
  cur ← get_curthread;
  owner ← gets lock_get;
  assert (negb (owner =? cur));;
  with_splhigh (
    owner ← gets lock_get;
    if owner =? 0 then modify (lock_set cur) else noreturn).

Definition lock_release_free : M S () :=
  cur ← get_curthread;
  owner ← gets lock_get;
  assert (owner =? cur);;
  with_splhigh (modify (lock_set 0)).

End lock.

(** The owner field is independent of the processor. *)
Class LockLens {S : Type} `{!HasCpu S} (lock_get : S → Z) (lock_set : Z → S → S) := {
  lock_get_set o s : lock_get (lock_set o s) = o;
  lock_set_get s : lock_set (lock_get s) s = s;
  lock_set_set o o' s : lock_set o (lock_set o' s) = lock_set o s;
  lock_get_cpu c s : lock_get (set_cpu c s) = lock_get s;
  lock_set_cpu o c s : lock_set o (set_cpu c s) = set_cpu c (lock_set o s);
  cpu_of_lock o s : cpu_of (lock_set o s) = cpu_of s;
}.

Section lock_rules.
Context {S : Type} `{!HasCpu S} (lock_get : S → Z) (lock_set : Z → S → S).
Context `{!LockLens lock_get lock_set} (F : fault → Prop).

(** Changing the owner at the high level, then restoring the level *)
Lemma lock_set_back o s (P : S → Prop) :
  cpu_wf (cpu_of s) → P (lock_set o s) →
  let s' := lock_set o (set_cpu (spl_set SPL_HIGH (cpu_of s)) s) in
  P (set_cpu (spl_set (curspl (cpu_of s)) (cpu_of s')) s').
Proof.
  intros Hcpu HP s'. unfold s'.
  rewrite (lock_set_cpu (lock_get := lock_get)), set_cpu_set, cpu_of_set,
    spl_set_back by done.
  by rewrite <- (cpu_of_lock (lock_get := lock_get) (lock_set := lock_set) o s), set_cpu_of.
Qed.

(** Taking a free lock changes its owner and nothing else. *)
Lemma wp_lock_acquire_free s (Q : () → S → Prop) E :
  cpu_wf (cpu_of s) → curthread (cpu_of s) ≠ 0 → lock_get s = 0 →
  Q tt (lock_set (curthread (cpu_of s)) s) →
  wp F (lock_acquire_free lock_get lock_set) s Q E.
Proof.
  intros Hcpu Hcur Hfree HQ. unfold lock_acquire_free, get_curthread.
  wp_assert by (rewrite Hfree; lia). apply wp_with_splhigh. wp_steps.
  rewrite (lock_get_cpu (lock_set := lock_set)), Hfree. wp_steps.
  by apply lock_set_back.
Qed.

Lemma wp_lock_release_free s (Q : () → S → Prop) E :
  cpu_wf (cpu_of s) → lock_get s = curthread (cpu_of s) →
  Q tt (lock_set 0 s) →
  wp F (lock_release_free lock_get lock_set) s Q E.
Proof.
  intros Hcpu Hheld HQ. unfold lock_release_free, get_curthread.
  wp_assert by (rewrite Hheld; lia). apply wp_with_splhigh. wp_steps.
  by apply lock_set_back.
Qed.
End lock_rules.
