(* ===== verification/Coremap.v ===== *)
(** * Physical pages: the boot-time RAM and the coremap

    Model of kern/arch/mips/mips/ram.c and kern/vm/coremap.c. The table is a
    list with one entry per physical page. The swapping branch of
    [coremap_getpages] is under [#if SWAPFILE_ENABLED], which no header defines:
    the model is the [#else] branch, which panics.

    The theorems: the table's invariant holds after [coremap_bootstrap] and
    after every operation; an allocation hands out pages that were free and
    disturbs no other block, nor the table if it ends on a page boundary; a freed block is exactly the one allocated; which
    requests fail. *)

From Stdlib Require Import ZArith Lia.
From stdpp Require Import base list gmap numbers.
From S2P Require Import Prelude Cpu.

Local Open Scope Z_scope.

(** ** Data *)

Inductive page_state := FREE | ALLOCATED | FIXED.

#[global] Instance page_state_eq_dec : EqDecision page_state.
Proof. solve_decision. Defined.

(** [addrspace] is the address of the address space, 0 for NULL. *)
Record coremap_page := MkPage {
  addrspace : Z;
  addr : Z;
  page_count : Z;
  state : page_state;
}.

(** [sizeof (struct coremap_page)] *)
Definition sizeof_coremap_page : Z := 16.

(** The globals of ram.c and coremap.c; [coremap_base] is the physical address of
    the table itself, [lock_owner] the owner of [coremap_lock]. The table is a list of
    its own, apart from the memory that it occupies: writing to a page that has been
    handed out does not change it here. This is right as long as no page that holds a
    part of the table is handed out, which needs the table to end on a page boundary
    ([coremap_hands_out_itself] is a machine where it does not); the theorem about all
    runs has that as a hypothesis. *)
Record cmap := MkCmap {
  firstpaddr : Z;
  lastpaddr : Z;
  coremap_base : Z;
  coremap : list coremap_page;
  lock_owner : Z;
  coremap_initialized : Z;
  coremap_size : Z;
  coremap_pages_in_use : Z;
  last_page_used : Z;
}.

Definition CM : Type := cpu * cmap.

(** Updates of one field *)
Definition set_ram (first last : Z) (c : cmap) : cmap :=
  MkCmap first last (coremap_base c) (coremap c) (lock_owner c)
    (coremap_initialized c) (coremap_size c) (coremap_pages_in_use c) (last_page_used c).
Definition set_coremap (l : list coremap_page) (c : cmap) : cmap :=
  MkCmap (firstpaddr c) (lastpaddr c) (coremap_base c) l (lock_owner c)
    (coremap_initialized c) (coremap_size c) (coremap_pages_in_use c) (last_page_used c).
Definition set_owner (o : Z) (c : cmap) : cmap :=
  MkCmap (firstpaddr c) (lastpaddr c) (coremap_base c) (coremap c) o
    (coremap_initialized c) (coremap_size c) (coremap_pages_in_use c) (last_page_used c).
Definition set_in_use (n : Z) (c : cmap) : cmap :=
  MkCmap (firstpaddr c) (lastpaddr c) (coremap_base c) (coremap c) (lock_owner c)
    (coremap_initialized c) (coremap_size c) n (last_page_used c).
Definition set_last (i : Z) (c : cmap) : cmap :=
  MkCmap (firstpaddr c) (lastpaddr c) (coremap_base c) (coremap c) (lock_owner c)
    (coremap_initialized c) (coremap_size c) (coremap_pages_in_use c) i.

Definition on_map {A} (m : M cmap A) : M CM A := zoom snd (λ c s, (s.1, c)) m.

(** ** Boot-time memory (ram.c) *)

(** [mips_ramsize()] and [firstfree] are given by the machine and by start.S. *)
Definition ram_bootstrap (mips_ramsize firstfree : Z) : M cmap () :=
  let ramsize := if 508 * 1024 * 1024 <? mips_ramsize then 508 * 1024 * 1024
                 else mips_ramsize in
  modify (set_ram (u32 (firstfree - MIPS_KSEG0)) ramsize).

Definition ram_stealmem (npages : Z) : M cmap Z :=
  let size := u32 (npages * PAGE_SIZE) in
  c ← get;
  if lastpaddr c <? u32 (firstpaddr c + size) then mret 0 else
  put (set_ram (u32 (firstpaddr c + size)) (lastpaddr c) c);;
  mret (firstpaddr c).

Definition ram_getsize : M cmap (Z * Z) :=
  c ← get;
  put (set_ram 0 0 c);;
  mret (firstpaddr c, lastpaddr c).

(** ** The coremap (coremap.c) *)

Definition lock_get (s : CM) : Z := lock_owner s.2.
Definition lock_set (o : Z) (s : CM) : CM := (s.1, set_owner o s.2).

#[global] Instance coremap_lock_lens : LockLens lock_get lock_set.
Proof. split; intros; try done; by destruct s as [? []]. Qed.

Definition page_free : coremap_page := MkPage 0 0 0 FREE.
Definition page_fixed : coremap_page := MkPage 0 0 0 FIXED.

(** [coremap[i] = p;] *)
Definition set_page (i : Z) (p : coremap_page) : M cmap () :=
  c ← get;
  l ← the (zstore (coremap c) i p);
  put (set_coremap l c).

Definition get_page (i : Z) : M cmap coremap_page :=
  c ← get;
  the (zlookup (coremap c) i).

(** [lock_create] allocates, so its result is an argument: the address of the
    new lock, or 0. The table starts as whatever the memory at [first] holds,
    [junk]. *)
Definition coremap_bootstrap (lock : Z) (junk : list coremap_page) : M cmap () :=
  fl ← ram_getsize;
  let '(first, last) := fl in
  let size := last / PAGE_SIZE in
  let first' := u32 (first + u32 (size * sizeof_coremap_page)) in
  c ← get;
  put (MkCmap (firstpaddr c) (lastpaddr c) first junk (lock_owner c)
         (coremap_initialized c) size (coremap_pages_in_use c) (last_page_used c));;
  for_range 0 (first' / PAGE_SIZE) (λ i,
    set_page i page_fixed;;
    modify (λ c, set_in_use (u32 (coremap_pages_in_use c + 1)) c));;
  for_range (first' / PAGE_SIZE) (size - first' / PAGE_SIZE) (λ i,
    set_page i page_free);;
  (if lock =? 0 then panic else modify (set_owner 0));;
  modify (λ c, MkCmap (firstpaddr c) (lastpaddr c) (coremap_base c) (coremap c)
    (lock_owner c) 1 (coremap_size c) (coremap_pages_in_use c) (last_page_used c)).

(** One of the two loops of [coremap_getfreepages]: [fuel] entries from [i] on,
    [pages] of the entries just before [i] being free. *)
Fixpoint find_run (fuel : nat) (i pages npages : Z) : M cmap Z :=
  match fuel with
  | O => mret (-1)
  | S fuel =>
    p ← get_page i;
    let pages := if bool_decide (state p = FREE) then u32 (pages + 1) else 0 in
    if pages =? npages then
      modify (set_last i);;
      mret (s32 (i - (npages - 1)))
    else find_run fuel (i + 1) pages npages
  end.

Definition coremap_getfreepages (npages : Z) : M cmap Z :=
  c ← get;
  page ← find_run (Z.to_nat (coremap_size c - last_page_used c))
           (last_page_used c) 0 npages;
  if negb (page =? -1) then mret page else
  find_run (Z.to_nat (last_page_used c)) 0 0 npages.

(** [coremap_getpages]: the pages found become a block. *)
Definition take_run (page npages : Z) : M cmap () :=
  set_page page (MkPage 0 0 npages ALLOCATED);;
  for_range 1 (npages - 1) (λ i, set_page (page + i) (MkPage 0 0 0 ALLOCATED));;
  modify (λ c, set_in_use (u32 (coremap_pages_in_use c + npages)) c).

Definition coremap_getpages (npages : Z) : M CM Z :=
  if npages =? 0 then panic else
  with_splhigh (
    c ← gets snd;
    if negb (coremap_initialized c =? 0) then
      lock_acquire_free lock_get lock_set;;
      page ← on_map (coremap_getfreepages npages);
      paddr ← (
        if negb (page =? -1) then
          on_map (take_run page npages);;
          mret (u32 (page * PAGE_SIZE))
        else oom);
      lock_release_free lock_get lock_set;;
      mret paddr
    else on_map (ram_stealmem npages)).

Definition coremap_freepages (paddr : Z) : M CM () :=
  c ← gets snd;
  if negb (coremap_initialized c =? 0) then
    with_splhigh (
      let page := paddr / PAGE_SIZE in
      lock_acquire_free lock_get lock_set;;
      p ← on_map (get_page page);
      let npages := page_count p in
      (if negb (npages =? 0) then
         on_map (for_range 0 npages (λ i,
           p ← get_page (page + i);
           when (bool_decide (state p = ALLOCATED) || bool_decide (state p = FIXED))
             (set_page (page + i) page_free)));;
         on_map (modify (λ c, set_in_use (u32 (coremap_pages_in_use c - npages)) c))
       else mret tt);;
      lock_release_free lock_get lock_set)
  else panic.

Definition coremap_ispagefixed (paddr : Z) : M CM bool :=
  p ← on_map (get_page (paddr / PAGE_SIZE));
  mret (bool_decide (state p = FIXED)).

Definition coremap_setpagefixed (paddr fixed : Z) : M CM () :=
  lock_acquire_free lock_get lock_set;;
  let page := paddr / PAGE_SIZE in
  p ← on_map (get_page page);
  (if negb (bool_decide (state p = FREE)) then
     if negb (fixed =? 0) then
       on_map (set_page page (MkPage (addrspace p) (addr p) (page_count p) FIXED))
     else
       on_map (set_page page (MkPage (addrspace p) (addr p) (page_count p) ALLOCATED))
   else mret tt);;
  lock_release_free lock_get lock_set.

(** The new values of the caller's variables [*addrspace] and [*vaddr], when the
    function assigns them *)
Definition coremap_getpagevaddr (paddr : Z) : M CM (option (Z * Z)) :=
  p ← on_map (get_page (paddr / PAGE_SIZE));
  if negb (bool_decide (state p = FREE)) then mret (Some (addrspace p, addr p))
  else mret None.

Definition coremap_setpagevaddr (paddr as_ vaddr : Z) : M CM () :=
  lock_acquire_free lock_get lock_set;;
  let page := paddr / PAGE_SIZE in
  p ← on_map (get_page page);
  (if negb (bool_decide (state p = FREE)) then
     on_map (set_page page (MkPage as_ vaddr (page_count p) (state p)))
   else mret tt);;
  lock_release_free lock_get lock_set.

(** [lock_destroy]: nobody may hold the lock. Its storage is not part of this
    state. *)
Definition coremap_shutdown : M CM () :=
  s ← get;
  assert (lock_get s =? 0).

(** ** The table's invariant *)

Section table.
Implicit Types l : list coremap_page.

(** The number of entries that are not free *)
Definition in_use l : Z := Z.of_nat (length (filter (λ p, state p ≠ FREE) l)).

(** [run l a n]: the [n] pages from [a] on are free. *)
Definition run l (a n : Z) : Prop :=
  ∀ j, a ≤ j < a + n → ∃ p, zlookup l j = Some p ∧ state p = FREE.

(** A free page carries no data; the first page of a block carries the block's
    length, and the others of the block are in use and carry no length. *)
Record table_ok l : Prop := {
  table_free i p : zlookup l i = Some p → state p = FREE → p = page_free;
  table_block i p : zlookup l i = Some p → page_count p ≠ 0 →
    0 < page_count p ∧
    ∀ k, 1 ≤ k < page_count p →
      ∃ q, zlookup l (i + k) = Some q ∧ state q ≠ FREE ∧ page_count q = 0;
}.

(** [l'] is [l] with the entries [a <= j < b] replaced by [f j]. *)
Definition filled l l' (a b : Z) (f : Z → coremap_page) : Prop :=
  length l' = length l ∧
  ∀ j, 0 ≤ j → zlookup l' j = if decide (a ≤ j < b) then Some (f j) else zlookup l j.

Lemma in_use_insert l i p q :
  zlookup l i = Some p →
  in_use (<[Z.to_nat i := q]> l) =
    in_use l + (if bool_decide (state q = FREE) then 0 else 1)
             - (if bool_decide (state p = FREE) then 0 else 1).
Proof.
  intros Hp. unfold zlookup in Hp. destruct (0 <=? i); [|done].
  pose proof (lookup_lt_Some _ _ _ Hp). rewrite insert_take_drop by done.
  rewrite <- (take_drop_middle l _ p) at 3 by done. unfold in_use.
  rewrite !list.filter_app, !length_app, !filter_cons.
  repeat case_decide; repeat case_bool_decide; simpl; try congruence; lia.
Qed.

Lemma in_use_bounds l : 0 ≤ in_use l ≤ Z.of_nat (length l).
Proof. unfold in_use. pose proof (length_filter (λ p, state p ≠ FREE) l). lia. Qed.

Lemma filled_nil l a f : filled l l a a f.
Proof. split; [done|]. intros j Hj. rewrite decide_False by lia. done. Qed.

Lemma filled_snoc l l' a i f :
  filled l l' a i f → 0 ≤ a ≤ i → i < Z.of_nat (length l) →
  filled l (<[Z.to_nat i := f i]> l') a (i + 1) f.
Proof.
  intros [Hlen Hl'] Ha Hi. split; [by rewrite length_insert|].
  intros j Hj. rewrite zlookup_insert, Hl' by lia.
  repeat case_decide; subst; (done || lia).
Qed.

Lemma filled_same l l' a b f :
  filled l l' a b f → (∀ j, 0 ≤ j → a ≤ j < b → zlookup l j = Some (f j)) → l' = l.
Proof.
  intros [Hlen Hl'] Hsame. apply zlist_eq; [done|]. intros j Hj.
  rewrite Hl' by lia. case_decide; [|done]. by rewrite Hsame by lia.
Qed.

Lemma run_lt_length l a n : 0 < n → run l a n → 0 ≤ a ∧ a + n ≤ Z.of_nat (length l).
Proof.
  intros Hn Hrun. destruct (Hrun a) as (p & Hp%zlookup_lt_Some & _); [lia|].
  destruct (Hrun (a + n - 1)) as (q & Hq%zlookup_lt_Some & _); [lia|]. lia.
Qed.
End table.

(** The invariant of the globals, whoever holds the lock *)
Record cm_inv (c : cmap) : Prop := {
  cm_len : Z.of_nat (length (coremap c)) = coremap_size c;
  cm_size : coremap_size c ≤ 2 ^ 17;
  cm_last : 0 ≤ last_page_used c ≤ coremap_size c;
  cm_count : coremap_pages_in_use c = in_use (coremap c);
  cm_table : table_ok (coremap c);
  cm_init : coremap_initialized c ≠ 0;
}.

(** Between operations the lock is free. *)
Definition cm_wf (c : cmap) : Prop := cm_inv c ∧ lock_owner c = 0.

(** ** Searching *)

Section searching.
Context (F : fault → Prop).

Lemma set_page_ok i p c (Q : () → cmap → Prop) E :
  0 ≤ i < Z.of_nat (length (coremap c)) →
  Q tt (set_coremap (<[Z.to_nat i := p]> (coremap c)) c) →
  wp F (set_page i p) c Q E.
Proof.
  intros Hi HQ. unfold set_page. wp_the _ by (by apply zstore_Some). by wp_steps.
Qed.

Lemma get_page_ok i p c (Q : coremap_page → cmap → Prop) E :
  zlookup (coremap c) i = Some p → Q p c → wp F (get_page i) c Q E.
Proof. intros Hp HQ. unfold get_page. by wp_the p by done. Qed.

(** The result of a search from [lo] up to [hi] *)
Definition search_post (c : cmap) (lo hi npages r : Z) (c' : cmap) : Prop :=
  (r = -1 ∧ c' = c ∧ ∀ a, lo ≤ a → a + npages ≤ hi → ¬ run (coremap c) a npages) ∨
  (lo ≤ r ∧ r + npages ≤ hi ∧ run (coremap c) r npages ∧
   c' = set_last (r + npages - 1) c).

Lemma find_run_ok c lo npages :
  0 ≤ lo → 0 < npages < 2 ^ 31 → Z.of_nat (length (coremap c)) ≤ 2 ^ 17 →
  ∀ fuel i pages,
  i + Z.of_nat fuel ≤ Z.of_nat (length (coremap c)) →
  0 ≤ pages < npages → lo ≤ i - pages →
  run (coremap c) (i - pages) pages →
  (i - pages = lo ∨ ∃ p, zlookup (coremap c) (i - pages - 1) = Some p ∧ state p ≠ FREE) →
  (∀ a, lo ≤ a → a + npages ≤ i → ¬ run (coremap c) a npages) →
  wp F (find_run fuel i pages npages) c
    (search_post c lo (i + Z.of_nat fuel) npages) noerr.
Proof.
  intros Hlo Hn Hlen. induction fuel as [|fuel IH];
    intros i pages Hi Hp Hlop Hrun Hmax Hnone; cbn [find_run].
  { wp_steps. left. split_and!; [done..|]. intros a Ha Han. apply Hnone; lia. }
  destruct (zlookup_lt_is_Some (coremap c) i) as [p Hpi]; [lia|].
  wp_steps. eapply get_page_ok; [done|]. rewrite u32_small by lia.
  case_bool_decide as Hfree.
  - assert (run (coremap c) (i - pages) (pages + 1)) as Hrun'.
    { intros j Hj. destruct (decide (j = i)) as [->|]; [eauto|]. apply Hrun. lia. }
    wp_if; wp_steps.
    + right. rewrite s32_small by lia. assert (npages = pages + 1) as -> by lia.
      replace (i - (pages + 1 - 1)) with (i - pages) by lia.
      split_and!; [lia..|done|]. f_equal. lia.
    + replace (i + Z.of_nat (S fuel)) with (i + 1 + Z.of_nat fuel) by lia.
      apply IH; replace (i + 1 - (pages + 1)) with (i - pages) by lia; try done; [lia..|].
      intros a Ha Han Hbad. destruct (decide (a + npages = i + 1)); [|apply (Hnone a); [lia..|done]].
      assert (i - pages ≤ a); [|lia].
      destruct Hmax as [|(q & Hq & Hqn)]; [lia|].
      destruct (decide (i - pages ≤ a)); [done|].
      destruct (Hbad (i - pages - 1)) as (q' & Hq' & ?); [lia|]. congruence.
  - wp_if. replace (i + Z.of_nat (S fuel)) with (i + 1 + Z.of_nat fuel) by lia.
    apply IH; replace (i + 1 - 0) with (i + 1) by lia; [lia..| |right|].
    + intros j Hj. lia.
    + exists p. by replace (i + 1 - 1) with i by lia.
    + intros a Ha Han Hbad. destruct (decide (a + npages = i + 1)); [|apply (Hnone a); [lia..|done]].
      destruct (Hbad i) as (q & Hq & ?); [lia|]. congruence.
Qed.

(** Where [coremap_getfreepages] looks: from the last page used to the end,
    then from the start up to the last page used. *)
Definition findable (c : cmap) (a npages : Z) : Prop :=
  run (coremap c) a npages ∧
  (last_page_used c ≤ a ∨ a + npages ≤ last_page_used c).

Lemma coremap_getfreepages_ok c npages :
  cm_inv c → 0 < npages < 2 ^ 31 →
  wp F (coremap_getfreepages npages) c
    (λ r c', (r = -1 ∧ c' = c ∧ ∀ a, ¬ findable c a npages) ∨
             (findable c r npages ∧ c' = set_last (r + npages - 1) c)) noerr.
Proof.
  intros Hwf Hn. pose proof (cm_len _ Hwf). pose proof (cm_size _ Hwf).
  pose proof (cm_last _ Hwf) as Hlast.
  unfold coremap_getfreepages. wp_steps. eapply wp_mono.
  { apply (find_run_ok c (last_page_used c) npages); try lia;
      intros j Hj; lia. }
  2: done.
  intros r c' [(-> & -> & Hnone)|(Hr & Hrn & Hrun & ->)].
  - simpl (negb _). cbv iota. eapply wp_mono.
    { apply (find_run_ok c 0 npages); try lia;
        intros j Hj; lia. }
    2: done.
    intros r c' [(-> & -> & Hnone')|(Hr & Hrn & Hrun & ->)].
    + left. split_and!; [done..|]. intros a [Hrun [Ha|Ha]].
      * apply (Hnone a); [done| |done]. pose proof (run_lt_length _ _ _ (proj1 Hn) Hrun). lia.
      * apply (Hnone' a); [| |done]; [|lia].
        pose proof (run_lt_length _ _ _ (proj1 Hn) Hrun). lia.
    + right. split; [|done]. split; [done|right; lia].
  - destruct (Z.eqb_spec r (-1)); [lia|]. simpl (negb _). cbv iota. wp_steps.
    right. split; [|done]. split; [done|by left].
Qed.
End searching.

(** ** Allocating *)

(** The entries of a block of [n] pages that starts at [a] *)
Definition block_page (a n j : Z) : coremap_page :=
  MkPage 0 0 (if j =? a then n else 0) ALLOCATED.

(** The coremap after the block [a], [n] has been taken *)
Definition with_block (a n : Z) (l' : list coremap_page) (c : cmap) : cmap :=
  set_in_use (coremap_pages_in_use c + n) (set_coremap l' (set_last (a + n - 1) c)).

Lemma table_alloc l l' a n :
  table_ok l → 0 < n → run l a n → filled l l' a (a + n) (block_page a n) →
  table_ok l'.
Proof.
  intros [Hfree Hblock] Hn Hrun [Hlen Hl'].
  pose proof (run_lt_length l a n Hn Hrun). split.
  - intros i p Hp Hs. pose proof (zlookup_lt_Some _ _ _ Hp).
    rewrite Hl' in Hp by lia. case_decide; [simplify_eq; done|]. by apply (Hfree i).
  - intros i p Hp Hc. pose proof (zlookup_lt_Some _ _ _ Hp).
    rewrite Hl' in Hp by lia. case_decide as Hi.
    + simplify_eq. simpl in *. destruct (Z.eqb_spec i a); [|done]. split; [done|].
      intros k Hk. rewrite Hl' by lia. rewrite decide_True by lia.
      eexists; split_and!; [done..|]. simpl. by destruct (Z.eqb_spec (i + k) a); [lia|].
    + destruct (Hblock i p Hp Hc) as [Hpos Hrest]. split; [done|]. intros k Hk.
      destruct (Hrest k Hk) as (q & Hq & Hqs & Hqc). rewrite Hl' by lia.
      case_decide as Hik; [|eauto]. destruct (Hrun (i + k) Hik) as (q' & ? & ?). congruence.
Qed.

Section allocating.
Context (F : fault → Prop).

Lemma wp_on_map {A} (m : M cmap A) p c (Q : A → CM → Prop) E :
  wp F m c (λ a c', Q a (p, c')) (λ e c', E e (p, c')) →
  wp F (on_map m) (p, c) Q E.
Proof. intros Hm. by apply wp_zoom. Qed.

(** The pages of a freshly found run become a block. *)
Lemma take_run_ok c a n (Q : () → cmap → Prop) E :
  0 < n → run (coremap c) a n → 0 ≤ coremap_pages_in_use c →
  coremap_pages_in_use c + n < 2 ^ 32 →
  (∀ l', filled (coremap c) l' a (a + n) (block_page a n) →
     in_use l' = in_use (coremap c) + n →
     Q tt (set_in_use (coremap_pages_in_use c + n) (set_coremap l' c))) →
  wp F (take_run a n) c Q E.
Proof.
  intros Hn Hrun Hu0 Hu HQ. pose proof (run_lt_length _ _ _ Hn Hrun) as Hlen.
  destruct (Hrun a) as (pa & Hpa & Hpas); [lia|].
  unfold take_run. wp_steps. apply set_page_ok; [lia|]. wp_steps.
  set (l1 := <[Z.to_nat a := _]> _).
  assert (filled (coremap c) l1 a (a + 1) (block_page a n)) as Hl1.
  { unfold l1. replace (MkPage 0 0 n ALLOCATED) with (block_page a n a).
    - apply filled_snoc; [apply filled_nil|lia..].
    - unfold block_page. by rewrite Z.eqb_refl. }
  assert (∀ i, 1 ≤ i → block_page a n (a + i) = MkPage 0 0 0 ALLOCATED) as Hbp.
  { intros i Hi. unfold block_page. by destruct (Z.eqb_spec (a + i) a); [lia|]. }
  apply (wp_for_range _ _ (λ i c', ∃ l', c' = set_coremap l' c ∧
    filled (coremap c) l' a (a + i) (block_page a n) ∧
    in_use l' = in_use (coremap c) + i)); [lia| | |].
  - intros i c' Hi (l' & -> & Hl' & Hcnt).
    destruct (Hrun (a + i)) as (q & Hq & Hqs); [lia|].
    apply set_page_ok; simpl; [destruct Hl' as [-> _]; lia|].
    eexists. split; [done|]. rewrite <- (Hbp i) by lia. split.
    + replace (a + (i + 1)) with (a + i + 1) by lia. apply filled_snoc; [done|lia..].
    + rewrite (in_use_insert _ _ q).
      * rewrite (bool_decide_eq_true_2 (state q = FREE)), Hbp by (done || lia). simpl. lia.
      * destruct Hl' as [_ ->]; [|lia]. by rewrite decide_False by lia.
  - exists l1. split; [done|]. split; [done|]. unfold l1.
    rewrite (in_use_insert _ _ pa) by done. rewrite (bool_decide_eq_true_2 (state pa = FREE)) by done.
    simpl. lia.
  - intros c' (l' & -> & Hl' & Hcnt). wp_steps.
    rewrite u32_small by (simpl; lia).
    apply HQ; [by replace (a + n) with (a + (1 + (n - 1))) by lia|lia].
Qed.
End allocating.

(** ** Allocating and freeing *)

Definition no_room (c : cmap) (n : Z) (f : fault) : Prop :=
  f = Out_of_memory ∧ ∀ a, ¬ findable c a n.

Lemma with_block_inv a n l' c :
  cm_inv c → 0 < n → run (coremap c) a n →
  filled (coremap c) l' a (a + n) (block_page a n) →
  in_use l' = in_use (coremap c) + n → cm_inv (with_block a n l' c).
Proof.
  intros [Hlen Hsize Hlast Hcnt Htab Hinit] Hn Hrun Hl' Hin.
  pose proof (run_lt_length _ _ _ Hn Hrun). pose proof (proj1 Hl') as Hlen'.
  split; simpl; [by rewrite Hlen'|done|lia|lia| |done].
  eapply table_alloc; done.
Qed.

Lemma cm_inv_owner o c : cm_inv c → cm_inv (set_owner o c).
Proof. intros []. by split. Qed.

Lemma coremap_getpages_ok p c n :
  running p → cm_wf c → 0 < n < 2 ^ 31 →
  wp (no_room c n) (coremap_getpages n) (p, c)
    (λ paddr '(p', c'), ∃ a l', paddr = a * PAGE_SIZE ∧ p' = p ∧
       findable c a n ∧ filled (coremap c) l' a (a + n) (block_page a n) ∧
       c' = with_block a n l' c ∧ cm_wf c') noerr.
Proof.
  intros [Hcpu Hcur] [Hinv Hlock] Hn. pose proof Hinv as [Hlen Hsize Hlast Hcnt _ Hinit].
  pose proof (in_use_bounds (coremap c)) as Hbound.
  unfold coremap_getpages. wp_if. apply wp_with_splhigh. wp_steps. simpl.
  destruct (Z.eqb_spec (coremap_initialized c) 0); [done|]. simpl (negb _). cbv iota.
  assert (cpu_wf (spl_set SPL_HIGH p)) as Hcpu1 by (by apply spl_set_wf).
  assert (curthread (spl_set SPL_HIGH p) = curthread p) as Hcur1 by done.
  wp_steps. apply (wp_lock_acquire_free _ _ _); [done..|].
  unfold lock_set; cpu_simpl. rewrite Hcur1.
  wp_steps. apply wp_on_map.
  eapply wp_mono; [apply coremap_getfreepages_ok; [by apply cm_inv_owner|done]| |done].
  intros a c' [(-> & -> & Hnone)|[Hfind ->]]; [by split|].
  pose proof Hfind as [Hrun _]. pose proof (run_lt_length _ _ _ (proj1 Hn) Hrun).
  wp_steps. destruct (Z.eqb_spec a (-1)); [simpl in *; lia|].
  simpl (negb _). cbv iota.
  wp_steps. apply wp_on_map, take_run_ok; simpl in *; [lia|done|lia..|].
  intros l' Hl' Hin. rewrite u32_small by (unfold PAGE_SIZE; lia). wp_steps.
  apply (wp_lock_release_free lock_get lock_set _); [done..|]. wp_steps.
  unfold lock_set; cbn [fst snd]. rewrite spl_set_back by done. exists a, l'.
  assert (set_owner 0 (set_in_use (coremap_pages_in_use c + n)
    (set_coremap l' (set_last (a + n - 1) (set_owner (curthread p) c))))
    = with_block a n l' c) as Heq by (destruct c; simpl in *; by subst).
  rewrite Heq. split_and!; try done. split; [|done]. by apply with_block_inv; try lia.
Qed.

(** The coremap after the block [a], [n] has been given back *)
Definition without_block (n : Z) (l' : list coremap_page) (c : cmap) : cmap :=
  set_in_use (coremap_pages_in_use c - n) (set_coremap l' c).

Lemma table_release l l' a n p :
  table_ok l → zlookup l a = Some p → page_count p = n → 0 < n →
  filled l l' a (a + n) (λ _, page_free) → table_ok l'.
Proof.
  intros [Hfree Hblock] Hp Hpn Hn [Hlen Hl']. pose proof (zlookup_lt_Some _ _ _ Hp).
  destruct (Hblock a p Hp) as [_ Hmem]; [lia|]. split.
  - intros i q Hq Hs. pose proof (zlookup_lt_Some _ _ _ Hq).
    rewrite Hl' in Hq by lia. case_decide; [by simplify_eq|]. by apply (Hfree i).
  - intros i q Hq Hc. pose proof (zlookup_lt_Some _ _ _ Hq).
    rewrite Hl' in Hq by lia. case_decide as Hi; [by simplify_eq|].
    destruct (Hblock i q Hq Hc) as [Hpos Hrest]. split; [done|]. intros k Hk.
    destruct (Hrest k Hk) as (r & Hr & Hrs & Hrc). rewrite Hl' by lia.
    case_decide as Hik; [|eauto]. exfalso.
    (* the page [i + k] is in both blocks: one of their heads is in the other *)
    destruct (decide (i < a)) as [Hia|Hia].
    + destruct (Hrest (a - i)) as (r' & Hr' & _ & Hz); [lia|].
      replace (i + (a - i)) with a in Hr' by lia. simplify_eq. lia.
    + destruct (Hmem (i - a)) as (r' & Hr' & _ & Hz); [lia|].
      replace (a + (i - a)) with i in Hr' by lia. simplify_eq.
Qed.

Lemma without_block_inv a n p l' c :
  cm_inv c → zlookup (coremap c) a = Some p → page_count p = n → 0 < n →
  filled (coremap c) l' a (a + n) (λ _, page_free) →
  in_use l' = in_use (coremap c) - n → cm_inv (without_block n l' c).
Proof.
  intros [Hlen Hsize Hlast Hcnt Htab Hinit] Hp Hpn Hn Hl' Hin.
  split; simpl; [by rewrite (proj1 Hl')|done|lia|lia| |done].
  by eapply table_release.
Qed.

Section freeing.
Context (F : fault → Prop).

(** The pages of a block are in use. *)
Lemma block_pages_used l a p k :
  table_ok l → zlookup l a = Some p → page_count p ≠ 0 → 0 ≤ k < page_count p →
  ∃ q, zlookup l (a + k) = Some q ∧ state q ≠ FREE.
Proof.
  intros [Hfree Hblock] Hp Hc Hk. destruct (decide (k = 0)) as [->|].
  - exists p. rewrite Z.add_0_r. split; [done|]. intros Hs.
    apply (Hfree a p Hp) in Hs. by subst.
  - destruct (Hblock a p Hp Hc) as [_ Hmem].
    destruct (Hmem k) as (q & ? & ? & _); [lia|eauto].
Qed.

Lemma free_loop_ok c a p (Q : () → cmap → Prop) E :
  table_ok (coremap c) → zlookup (coremap c) a = Some p → 0 < page_count p →
  (∀ l', filled (coremap c) l' a (a + page_count p) (λ _, page_free) →
     in_use l' = in_use (coremap c) - page_count p → Q tt (set_coremap l' c)) →
  wp F (for_range 0 (page_count p) (λ i,
          p ← get_page (a + i);
          when (bool_decide (state p = ALLOCATED) || bool_decide (state p = FIXED))
            (set_page (a + i) page_free))) c Q E.
Proof.
  intros Htab Hp Hn HQ. pose proof (zlookup_lt_Some _ _ _ Hp).
  apply (wp_for_range _ _ (λ i c', ∃ l', c' = set_coremap l' c ∧
    filled (coremap c) l' a (a + i) (λ _, page_free) ∧
    in_use l' = in_use (coremap c) - i)); [lia| | |].
  - intros i c' Hi (l' & -> & Hl' & Hcnt).
    destruct (block_pages_used _ a p i Htab Hp) as (q & Hq & Hqs); [lia..|].
    assert (zlookup l' (a + i) = Some q) as Hq'.
    { destruct Hl' as [_ ->]; [|lia]. by rewrite decide_False by lia. }
    pose proof (zlookup_lt_Some _ _ _ Hq'). pose proof (zlookup_lt_Some _ _ _ Hq).
    wp_steps. eapply get_page_ok; [done|]. apply wp_when; intros Hb.
    + apply set_page_ok; [simpl; lia|]. eexists. split; [done|]. split.
      * replace (a + (i + 1)) with (a + i + 1) by lia.
        apply (filled_snoc _ _ _ _ (λ _, page_free)); [done|lia..].
      * simpl. rewrite (in_use_insert _ _ q) by done.
        rewrite (bool_decide_eq_false_2 (state q = FREE)) by done. simpl. lia.
    + exfalso. destruct (state q) eqn:?; simpl in *; congruence.
  - exists (coremap c). split; [by destruct c|].
    split; [rewrite Z.add_0_r; apply filled_nil|lia].
  - intros c' (l' & -> & Hl' & Hcnt). by apply HQ.
Qed.

Lemma coremap_freepages_ok p c paddr q :
  running p → cm_wf c → zlookup (coremap c) (paddr / PAGE_SIZE) = Some q →
  wp F (coremap_freepages paddr) (p, c)
    (λ _ '(p', c'), p' = p ∧ cm_wf c' ∧
       if page_count q =? 0 then c' = c else
       ∃ l', filled (coremap c) l' (paddr / PAGE_SIZE)
               (paddr / PAGE_SIZE + page_count q) (λ _, page_free) ∧
             c' = without_block (page_count q) l' c) noerr.
Proof.
  intros [Hcpu Hcur] [Hinv Hlock] Hq. pose proof Hinv as [Hlen Hsize Hlast Hcnt Htab Hinit].
  pose proof (in_use_bounds (coremap c)) as Hbound.
  unfold coremap_freepages. wp_steps. simpl.
  destruct (Z.eqb_spec (coremap_initialized c) 0); [done|]. simpl (negb _). cbv iota.
  apply wp_with_splhigh. set (a := paddr / PAGE_SIZE) in *.
  assert (cpu_wf (spl_set SPL_HIGH p)) as Hcpu1 by (by apply spl_set_wf).
  assert (curthread (spl_set SPL_HIGH p) = curthread p) as Hcur1 by done.
  wp_steps. apply (wp_lock_acquire_free _ _ _); [done..|].
  unfold lock_set; cpu_simpl. rewrite Hcur1.
  wp_steps. apply wp_on_map. eapply get_page_ok; [done|]. wp_steps.
  destruct (Z.eqb_spec (page_count q) 0) as [Hz|Hz]; simpl (negb _); cbv iota; wp_steps.
  - apply (wp_lock_release_free lock_get lock_set _); [done..|].
    unfold lock_set; cbn [fst snd]. rewrite spl_set_back by done.
    assert (set_owner 0 (set_owner (curthread p) c) = c) as ->
      by (destruct c; simpl in *; by subst).
    by split_and!.
  - destruct (table_block _ Htab a q Hq Hz) as [Hpos _].
    apply wp_on_map. eapply free_loop_ok; [done..|]. simpl.
    intros l' Hl' Hin. wp_steps. apply wp_on_map. wp_steps. simpl.
    pose proof (in_use_bounds l'). rewrite u32_small by lia.
    apply (wp_lock_release_free lock_get lock_set _); [done..|].
    unfold lock_set; cbn [fst snd]. rewrite spl_set_back by done.
    assert (set_owner 0 (set_in_use (coremap_pages_in_use c - page_count q)
      (set_coremap l' (set_owner (curthread p) c)))
      = without_block (page_count q) l' c) as -> by (destruct c; simpl in *; by subst).
    split; [done|]. split; [|by exists l'].
    split; [by eapply without_block_inv|done].
Qed.
End freeing.

(** ** Page attributes *)

(** Entries may change their attributes, not whether they are free nor their
    place in a block. *)
Lemma table_attributes l i p q :
  table_ok l → zlookup l i = Some p →
  state p ≠ FREE → state q ≠ FREE → page_count q = page_count p →
  table_ok (<[Z.to_nat i := q]> l).
Proof.
  intros [Hfree Hblock] Hp Hps Hqs Hqc. pose proof (zlookup_lt_Some _ _ _ Hp).
  assert (∀ j r, zlookup (<[Z.to_nat i := q]> l) j = Some r →
    ∃ r', zlookup l j = Some r' ∧ page_count r = page_count r' ∧
      (state r = FREE → r = r')) as Hold.
  { intros j r Hr. pose proof (zlookup_lt_Some _ _ _ Hr).
    rewrite zlookup_insert in Hr by lia. case_decide; [|eauto].
    simplify_eq. exists p. split_and!; [done..|]. intros Hr. by destruct Hqs. }
  split.
  - intros j r Hr Hs. destruct (Hold j r Hr) as (r' & Hr' & _ & Heq).
    specialize (Heq Hs). subst r'. by apply (Hfree j).
  - intros j r Hr Hc. destruct (Hold j r Hr) as (r' & Hr' & Hrc & _).
    rewrite Hrc in *. destruct (Hblock j r' Hr' Hc) as [Hpos Hmem].
    split; [done|]. intros k Hk. destruct (Hmem k Hk) as (s & Hs & Hss & Hsc).
    pose proof (zlookup_lt_Some _ _ _ Hs). rewrite zlookup_insert by lia.
    case_decide; [|eauto]. exists q. split_and!; [done..|]. subst. congruence.
Qed.

(** The coremap with entry [i] replaced *)
Definition with_page (i : Z) (q : coremap_page) (c : cmap) : cmap :=
  set_coremap (<[Z.to_nat i := q]> (coremap c)) c.

Lemma with_page_wf i p q c :
  cm_wf c → zlookup (coremap c) i = Some p →
  state p ≠ FREE → state q ≠ FREE → page_count q = page_count p →
  cm_wf (with_page i q c).
Proof.
  intros [[Hlen Hsize Hlast Hcnt Htab Hinit] Hlock] Hp Hps Hqs Hqc.
  split; [|done]. split; simpl; try done.
  - by rewrite length_insert.
  - rewrite (in_use_insert _ _ p) by done.
    rewrite !bool_decide_eq_false_2 by done. lia.
  - by eapply table_attributes.
Qed.

Section attributes.
Context (F : fault → Prop).

(** What [coremap_setpagefixed] and [coremap_setpagevaddr] share: change an entry
    that is not free, under the lock. *)
Lemma change_page_ok p c i q f (Q : () → CM → Prop) E :
  running p → cm_wf c → zlookup (coremap c) i = Some q →
  Q tt (p, if bool_decide (state q = FREE) then c else with_page i (f q) c) →
  wp F (lock_acquire_free lock_get lock_set;;
        q ← on_map (get_page i);
        (if negb (bool_decide (state q = FREE)) then on_map (set_page i (f q))
         else mret tt);;
        lock_release_free lock_get lock_set) (p, c) Q E.
Proof.
  intros [Hcpu Hcur] [Hinv Hlock] Hq HQ. pose proof (zlookup_lt_Some _ _ _ Hq).
  wp_steps. apply (wp_lock_acquire_free _ _ _); [done..|].
  unfold lock_set; cpu_simpl.
  wp_steps. apply wp_on_map. eapply get_page_ok; [done|]. wp_steps.
  case_bool_decide; simpl (negb _); cbv iota; wp_steps.
  - apply (wp_lock_release_free lock_get lock_set _); [done..|].
    unfold lock_set; cbn [fst snd].
    by replace (set_owner 0 _) with c by (destruct c; simpl in *; by subst).
  - apply wp_on_map, set_page_ok; [done|]. wp_steps.
    apply (wp_lock_release_free lock_get lock_set _); [done..|].
    unfold lock_set; cbn [fst snd].
    by replace (set_owner 0 _) with (with_page i (f q) c)
      by (destruct c; simpl in *; by subst).
Qed.

Lemma coremap_setpagevaddr_ok p c paddr as_ vaddr q :
  running p → cm_wf c → zlookup (coremap c) (paddr / PAGE_SIZE) = Some q →
  wp F (coremap_setpagevaddr paddr as_ vaddr) (p, c)
    (λ _ '(p', c'), p' = p ∧ cm_wf c' ∧
       c' = if bool_decide (state q = FREE) then c else
            with_page (paddr / PAGE_SIZE) (MkPage as_ vaddr (page_count q) (state q)) c)
    noerr.
Proof.
  intros Hp Hc Hq. unfold coremap_setpagevaddr.
  apply (change_page_ok p c _ q (λ q, MkPage as_ vaddr (page_count q) (state q))); [done..|].
  case_bool_decide; split_and!; try done. by eapply with_page_wf.
Qed.

Lemma coremap_setpagefixed_ok p c paddr fixed q :
  running p → cm_wf c → zlookup (coremap c) (paddr / PAGE_SIZE) = Some q →
  wp F (coremap_setpagefixed paddr fixed) (p, c)
    (λ _ '(p', c'), p' = p ∧ cm_wf c' ∧
       c' = if bool_decide (state q = FREE) then c else
            with_page (paddr / PAGE_SIZE)
              (MkPage (addrspace q) (addr q) (page_count q)
                 (if fixed =? 0 then ALLOCATED else FIXED)) c)
    noerr.
Proof.
  intros Hp Hc Hq. unfold coremap_setpagefixed.
  destruct (Z.eqb_spec fixed 0); simpl (negb (bool_decide _)); cbn [negb].
  - apply (change_page_ok p c _ q
      (λ q, MkPage (addrspace q) (addr q) (page_count q) ALLOCATED)); [done..|].
    case_bool_decide; split_and!; try done. by eapply with_page_wf.
  - apply (change_page_ok p c _ q
      (λ q, MkPage (addrspace q) (addr q) (page_count q) FIXED)); [done..|].
    case_bool_decide; split_and!; try done. by eapply with_page_wf.
Qed.
End attributes.

(** ** Bootstrap *)

(** After [ram_bootstrap] and any number of [ram_stealmem] calls *)
Record boot_state (c : cmap) : Prop := {
  boot_in_use : coremap_pages_in_use c = 0;
  boot_last : last_page_used c = 0;
  boot_first : 0 ≤ firstpaddr c;
  boot_ram : lastpaddr c ≤ 508 * 1024 * 1024;
  (* the table fits behind the kernel *)
  boot_room : firstpaddr c + lastpaddr c / PAGE_SIZE * sizeof_coremap_page ≤ lastpaddr c;
}.

(** First byte behind the table *)
Definition table_end (c : cmap) : Z :=
  firstpaddr c + lastpaddr c / PAGE_SIZE * sizeof_coremap_page.

Definition boot_page (limit j : Z) : coremap_page :=
  if j <? limit then page_fixed else page_free.

Lemma fixed_loop_ok F c n (Q : () → cmap → Prop) E :
  0 ≤ n ≤ Z.of_nat (length (coremap c)) → n < 2 ^ 32 → coremap_pages_in_use c = 0 →
  (∀ l', filled (coremap c) l' 0 n (λ _, page_fixed) →
     Q tt (set_in_use n (set_coremap l' c))) →
  wp F (for_range 0 n (λ i, set_page i page_fixed;;
          modify (λ c, set_in_use (u32 (coremap_pages_in_use c + 1)) c))) c Q E.
Proof.
  intros Hn Hn32 Hz HQ.
  apply (wp_for_range _ _ (λ i c', ∃ l', c' = set_in_use i (set_coremap l' c) ∧
    filled (coremap c) l' 0 i (λ _, page_fixed))); [lia| | |].
  - intros i c' Hi (l' & -> & Hl'). pose proof (proj1 Hl').
    wp_steps. apply set_page_ok; [simpl; lia|]. wp_steps.
    exists (<[Z.to_nat i := page_fixed]> l'). simpl. rewrite u32_small by lia.
    split; [done|]. apply (filled_snoc _ _ _ _ (λ _, page_fixed)); [done|lia..].
  - exists (coremap c). split; [destruct c; simpl in *; by subst|apply filled_nil].
  - intros c' (l' & -> & Hl'). by apply HQ.
Qed.

Lemma free_pages_loop_ok F c a n (Q : () → cmap → Prop) E :
  0 ≤ a → 0 ≤ n → a + n ≤ Z.of_nat (length (coremap c)) →
  (∀ l', filled (coremap c) l' a (a + n) (λ _, page_free) → Q tt (set_coremap l' c)) →
  wp F (for_range a n (λ i, set_page i page_free)) c Q E.
Proof.
  intros Ha Hn Hlen HQ.
  apply (wp_for_range _ _ (λ i c', ∃ l', c' = set_coremap l' c ∧ a ≤ i ∧
    filled (coremap c) l' a i (λ _, page_free))); [lia| | |].
  - intros i c' Hi (l' & -> & Hai & Hl'). pose proof (proj1 Hl').
    apply set_page_ok; [simpl; lia|]. eexists. split; [done|]. split; [lia|].
    apply (filled_snoc _ _ _ _ (λ _, page_free)); [done|lia..].
  - exists (coremap c). split_and!; [by destruct c|done|apply filled_nil].
  - intros c' (l' & -> & _ & Hl'). by apply HQ.
Qed.

(** The number of entries in use of a table made at boot *)
Lemma boot_in_use_count (k n : nat) (l : list coremap_page) :
  (k ≤ n)%nat → length l = n →
  (∀ j, 0 ≤ j < Z.of_nat n → zlookup l j = Some (boot_page (Z.of_nat k) j)) →
  l = replicate k page_fixed ++ replicate (n - k) page_free.
Proof.
  intros Hk Hlen Hl. apply zlist_eq.
  { rewrite length_app, !length_replicate. lia. }
  intros j Hj. rewrite Hl by lia. unfold zlookup, boot_page.
  destruct (Z.leb_spec 0 j); [|lia]. destruct (Z.ltb_spec j (Z.of_nat k)).
  - rewrite lookup_app_l by (rewrite length_replicate; lia).
    symmetry. apply lookup_replicate. split; [done|lia].
  - rewrite lookup_app_r by (rewrite length_replicate; lia).
    rewrite length_replicate. symmetry. apply lookup_replicate. split; [done|lia].
Qed.

Lemma in_use_boot k n :
  in_use (replicate k page_fixed ++ replicate n page_free) = Z.of_nat k.
Proof.
  unfold in_use. rewrite list.filter_app, length_app.
  assert (length (filter (λ p, state p ≠ FREE) (replicate n page_free)) = 0%nat) as ->.
  { induction n; cbn [replicate]; [done|]. by rewrite filter_cons_False by auto. }
  induction k; cbn [replicate]; [done|]. rewrite filter_cons_True by done.
  cbn [length]. lia.
Qed.

Lemma coremap_bootstrap_ok c lock junk :
  boot_state c → lock ≠ 0 →
  Z.of_nat (length junk) = lastpaddr c / PAGE_SIZE →
  wp safe (coremap_bootstrap lock junk) c
    (λ _ c', cm_wf c' ∧ coremap_size c' = lastpaddr c / PAGE_SIZE ∧
       coremap_base c' = firstpaddr c ∧
       ∀ j, 0 ≤ j < coremap_size c' →
         zlookup (coremap c') j = Some (boot_page (table_end c / PAGE_SIZE) j)) noerr.
Proof.
  intros [Huse Hlast Hfirst Hram Hroom] Hlock Hjunk.
  assert (0 ≤ lastpaddr c / PAGE_SIZE ≤ 2 ^ 17) as Hsz.
  { split; [lia|]. unfold PAGE_SIZE. apply Z.div_le_upper_bound; lia. }
  assert (0 ≤ table_end c / PAGE_SIZE ≤ lastpaddr c / PAGE_SIZE) as Hte.
  { unfold table_end, sizeof_coremap_page in *. split.
    - apply Z.div_pos; [lia|done].
    - apply Z.div_le_mono; [done|lia]. }
  unfold coremap_bootstrap, ram_getsize, sizeof_coremap_page in *.
  wp_steps. rewrite !u32_small by (rewrite ?u32_small; lia).
  change (firstpaddr c + lastpaddr c / PAGE_SIZE * 16) with (table_end c).
  set (size := lastpaddr c / PAGE_SIZE) in *. set (k := table_end c / PAGE_SIZE) in *.
  wp_steps. simpl. apply fixed_loop_ok; [simpl; lia|lia|done|]. simpl.
  intros l1 [Hlen1 Hl1]. wp_steps. apply free_pages_loop_ok; [lia..|simpl; lia|]. simpl.
  intros l2 [Hlen2 Hl2]. wp_steps.
  assert (∀ j, 0 ≤ j < size → zlookup l2 j = Some (boot_page k j)) as Hall.
  { intros j Hj. rewrite Hl2 by lia. unfold boot_page. case_decide.
    - by destruct (Z.ltb_spec j k); [lia|].
    - rewrite Hl1 by lia. rewrite decide_True by lia. by destruct (Z.ltb_spec j k); [|lia]. }
  destruct (Z.eqb_spec lock 0); [done|]. wp_steps.
  split; [|by split_and!]. split; [|done]. split; simpl; [lia|lia|lia| | |done].
  - rewrite (boot_in_use_count (Z.to_nat k) (Z.to_nat size) l2) by
      (rewrite ?Z2Nat.id by lia; (lia || done)).
    rewrite in_use_boot. lia.
  - assert (∀ i p, zlookup l2 i = Some p → p = page_free ∨ p = page_fixed) as Hcases.
    { intros i p Hp. pose proof (zlookup_lt_Some _ _ _ Hp).
      rewrite Hall in Hp by lia. unfold boot_page in Hp. destruct (i <? k); simplify_eq; auto. }
    split; intros i p Hp; destruct (Hcases i p Hp) as [-> | ->]; done.
Qed.

(** ** The allocator over time

    The kernel's calls as a transition system. [live] records what has been
    handed out and not yet given back: the address of a block and its number of
    pages. Each call runs on some processor state [p] with a current thread. *)
Inductive cm_step : cmap * gmap Z Z → cmap * gmap Z Z → Prop :=
| step_getpages p p' c c' live n paddr :
    running p → 0 < n < 2 ^ 31 →
    coremap_getpages n (p, c) = Ret paddr (p', c') →
    cm_step (c, live) (c', <[paddr := n]> live)
| step_freepages p p' c c' live n paddr :
    running p → live !! paddr = Some n →
    coremap_freepages paddr (p, c) = Ret tt (p', c') →
    cm_step (c, live) (c', delete paddr live)
| step_setpagefixed p p' c c' live paddr fixed :
    running p → 0 ≤ paddr / PAGE_SIZE < coremap_size c →
    coremap_setpagefixed paddr fixed (p, c) = Ret tt (p', c') →
    cm_step (c, live) (c', live)
| step_setpagevaddr p p' c c' live paddr as_ vaddr :
    running p → 0 ≤ paddr / PAGE_SIZE < coremap_size c →
    coremap_setpagevaddr paddr as_ vaddr (p, c) = Ret tt (p', c') →
    cm_step (c, live) (c', live).

(** [l] has a block of [n] pages at [a]. *)
Definition block_at (l : list coremap_page) (a n : Z) : Prop :=
  ∃ q, zlookup l a = Some q ∧ page_count q = n ∧ n ≠ 0.

(** The entries below [limit] belong to the kernel for good. *)
Definition reserved (l : list coremap_page) (limit : Z) : Prop :=
  (∀ j, 0 ≤ j < limit → ∃ q, zlookup l j = Some q ∧ state q ≠ FREE) ∧
  (∀ a n, block_at l a n → limit ≤ a).

Definition live_ok (limit : Z) (st : cmap * gmap Z Z) : Prop :=
  cm_wf st.1 ∧ reserved (coremap st.1) limit ∧
  ∀ paddr n, st.2 !! paddr = Some n →
    ∃ a, paddr = a * PAGE_SIZE ∧ block_at (coremap st.1) a n.

Lemma block_disjoint l a n b m :
  table_ok l → block_at l a n → block_at l b m → a ≠ b → a + n ≤ b ∨ b + m ≤ a.
Proof.
  intros [_ Hblock] (q & Hq & Hqn & Hn) (r & Hr & Hrm & Hm) Hab.
  destruct (decide (a + n ≤ b ∨ b + m ≤ a)) as [|Hover]; [done|]. exfalso.
  destruct (Hblock a q Hq) as [_ Ha]; [lia|]. destruct (Hblock b r Hr) as [_ Hb]; [lia|].
  destruct (decide (a < b)).
  - destruct (Ha (b - a)) as (r' & Hr' & _ & ?); [lia|].
    replace (a + (b - a)) with b in Hr' by lia. simplify_eq.
  - destruct (Hb (a - b)) as (q' & Hq' & _ & ?); [lia|].
    replace (b + (a - b)) with a in Hq' by lia. simplify_eq.
Qed.

(** A run of free pages meets no block. *)
Lemma run_block_disjoint l a n b m :
  table_ok l → run l a n → block_at l b m → ∀ k, 0 ≤ k < m → ¬ a ≤ b + k < a + n.
Proof.
  intros Hl Hrun (q & Hq & Hqm & Hm) k Hk Hin.
  destruct (block_pages_used l b q k) as (r & Hr & Hrs); [done..|lia|lia|].
  destruct (Hrun (b + k) Hin) as (r' & Hr' & ?). congruence.
Qed.

Lemma block_positive l a n : table_ok l → block_at l a n → 0 < n.
Proof.
  intros [_ Hblock] (q & Hq & Hqn & Hn). destruct (Hblock a q Hq); lia.
Qed.

Lemma block_at_nonneg l a n : block_at l a n → 0 ≤ a.
Proof. intros (q & ?%zlookup_lt_Some & _). lia. Qed.

Lemma block_fits l a n : table_ok l → block_at l a n → 0 < n ∧ a + n ≤ Z.of_nat (length l).
Proof.
  intros Hl Ha. pose proof (block_positive _ _ _ Hl Ha). destruct Ha as (q & Hq & Hqn & Hn0).
  destruct (block_pages_used l a q (n - 1)) as (r & Hr%zlookup_lt_Some & _); [done..|lia|lia|]. lia.
Qed.

(** What allocation does to blocks *)
Lemma block_at_filled l l' a n b m :
  table_ok l → 0 < n → run l a n → filled l l' a (a + n) (block_page a n) →
  block_at l' b m ↔ (b = a ∧ m = n) ∨ block_at l b m.
Proof.
  intros Hl Hn Hrun [Hlen Hl']. pose proof (run_lt_length _ _ _ Hn Hrun). split.
  - intros Hb. pose proof (block_at_nonneg _ _ _ Hb). destruct Hb as (q & Hq & Hqm & Hm).
    rewrite Hl' in Hq by done. case_decide; [|right; by exists q].
    left. simplify_eq. simpl in *. by destruct (Z.eqb_spec b a).
  - intros [[-> ->]|Hb].
    + exists (block_page a n a). rewrite Hl', decide_True by lia. simpl.
      rewrite Z.eqb_refl. split_and!; [done..|lia].
    + pose proof (block_at_nonneg _ _ _ Hb). pose proof (block_positive _ _ _ Hl Hb).
      pose proof (run_block_disjoint _ _ _ _ _ Hl Hrun Hb 0) as Hout.
      destruct Hb as (q & Hq & ? & ?). exists q. rewrite Hl' by done.
      rewrite decide_False; [done|]. rewrite Z.add_0_r in Hout. apply Hout. lia.
Qed.

(** What freeing does to blocks *)
Lemma block_at_released l l' a n b m :
  table_ok l → block_at l a n → filled l l' a (a + n) (λ _, page_free) →
  block_at l' b m ↔ b ≠ a ∧ block_at l b m.
Proof.
  intros Hl Ha [Hlen Hl']. pose proof (block_positive _ _ _ Hl Ha). split.
  - intros Hb. pose proof (block_at_nonneg _ _ _ Hb). destruct Hb as (q & Hq & Hqm & Hm).
    rewrite Hl' in Hq by done. case_decide; [simplify_eq; done|].
    split; [lia|by exists q].
  - intros [Hba Hb]. pose proof (block_at_nonneg _ _ _ Hb).
    pose proof (block_positive _ _ _ Hl Hb).
    destruct (block_disjoint _ _ _ _ _ Hl Ha Hb) as [Hd|Hd]; [done| |];
      destruct Hb as (q & Hq & ? & ?); exists q; rewrite Hl', decide_False by lia; done.
Qed.

Lemma block_at_page l i q q' b m :
  zlookup l i = Some q → page_count q' = page_count q →
  block_at (<[Z.to_nat i := q']> l) b m ↔ block_at l b m.
Proof.
  intros Hq Hc. pose proof (zlookup_lt_Some _ _ _ Hq).
  split; intros Hb; pose proof (block_at_nonneg _ _ _ Hb); destruct Hb as (r & Hr & Hrc & Hm).
  - rewrite zlookup_insert in Hr by lia. case_decide; [|by exists r].
    simplify_eq. exists q. split_and!; congruence.
  - destruct (decide (i = b)) as [->|].
    + exists q'. rewrite zlookup_insert_eq by lia. simplify_eq. split_and!; [done..|congruence].
    + exists r. by rewrite zlookup_insert_ne by lia.
Qed.

Lemma reserved_alloc l l' a n limit :
  table_ok l → reserved l limit → 0 < n → run l a n →
  filled l l' a (a + n) (block_page a n) → reserved l' limit.
Proof.
  intros Hl [Hres Hblk] Hn Hrun Hfill. pose proof (run_lt_length _ _ _ Hn Hrun).
  assert (limit ≤ a) as Hla.
  { destruct (decide (limit ≤ a)); [done|].
    destruct (Hres a) as (q & Hq & Hqs); [lia|]. destruct (Hrun a) as (q' & ? & ?); [lia|].
    congruence. }
  split.
  - intros j Hj. destruct (Hres j Hj) as (q & Hq & Hqs). exists q.
    destruct Hfill as [_ ->]; [|lia]. by rewrite decide_False by lia.
  - intros b m Hb. rewrite block_at_filled in Hb by done.
    destruct Hb as [[-> ->]|Hb]; [done|by eapply Hblk].
Qed.

Lemma reserved_release l l' a n limit :
  table_ok l → reserved l limit → block_at l a n →
  filled l l' a (a + n) (λ _, page_free) → reserved l' limit.
Proof.
  intros Hl [Hres Hblk] Ha Hfill. pose proof (Hblk _ _ Ha).
  pose proof (block_positive _ _ _ Hl Ha). split.
  - intros j Hj. destruct (Hres j Hj) as (q & Hq & Hqs). exists q.
    destruct Hfill as [_ ->]; [|lia]. by rewrite decide_False by lia.
  - intros b m Hb. rewrite block_at_released in Hb by done. destruct Hb as [_ Hb]. by eapply Hblk.
Qed.

Lemma reserved_page l i q q' limit :
  reserved l limit → zlookup l i = Some q → state q' ≠ FREE →
  page_count q' = page_count q → reserved (<[Z.to_nat i := q']> l) limit.
Proof.
  intros [Hres Hblk] Hq Hs Hc. pose proof (zlookup_lt_Some _ _ _ Hq). split.
  - intros j Hj. destruct (Hres j Hj) as (r & Hr & Hrs).
    rewrite zlookup_insert by lia. case_decide; [eauto|by exists r].
  - intros b m. rewrite block_at_page by done. apply Hblk.
Qed.

Lemma cm_step_ok limit st st' :
  live_ok limit st → cm_step st st' → live_ok limit st'.
Proof.
  intros (Hwf & Hres & Hlive) Hstep.
  inversion Hstep as [p p' c c' live n paddr Hp Hn Hrun|p p' c c' live n paddr Hp Hpa Hrun
    |p p' c c' live paddr fixed Hp Hpa Hrun|p p' c c' live paddr as_ vaddr Hp Hpa Hrun];
    subst; simpl in *; pose proof (cm_table _ (proj1 Hwf)) as Htab.
  - eapply wp_returns in Hrun; [|by apply coremap_getpages_ok].
    destruct Hrun as (a & l' & -> & -> & [Hfree _] & Hfill & -> & Hwf').
    split; [done|]. split; [apply (reserved_alloc (coremap c) l' a n); auto; lia|].
    simpl. intros paddr m [[<- <-]|[Hne Hm]]%lookup_insert_Some.
    + exists a. split; [done|]. apply (block_at_filled (coremap c) l' a n); auto; lia.
    + destruct (Hlive _ _ Hm) as (b & -> & Hb). exists b. split; [done|].
      apply (block_at_filled (coremap c) l' a n); auto; lia.
  - destruct (Hlive _ _ Hpa) as (a & -> & Ha). pose proof Ha as (q & Hq & Hqn & Hn0).
    eapply wp_returns in Hrun;
      [|apply (coremap_freepages_ok safe _ _ _ q); [done..|]];
      rewrite Z.div_mul in * by done; [|done].
    destruct Hrun as (-> & Hwf' & Hrest). destruct (Z.eqb_spec (page_count q) 0); [lia|].
    destruct Hrest as (l' & Hfill & ->). rewrite Hqn in Hfill.
    split; [done|]. split; [by eapply reserved_release|].
    simpl. intros paddr m [Hne Hm]%lookup_delete_Some.
    destruct (Hlive _ _ Hm) as (b & -> & Hb). exists b. split; [done|].
    apply (block_at_released (coremap c) l' a n); auto. split; [|done]. intros ->. done.
  - destruct (zlookup_lt_is_Some (coremap c) (paddr / PAGE_SIZE)) as [q Hq];
      [by rewrite (cm_len _ (proj1 Hwf))|].
    eapply wp_returns in Hrun; [|by apply (coremap_setpagefixed_ok safe _ _ _ _ q)].
    destruct Hrun as (-> & Hwf' & ->). case_bool_decide; [done|].
    split; [done|]. split; [by eapply reserved_page; [..|destruct (fixed =? 0)|]|].
    intros pa m Hm. destruct (Hlive _ _ Hm) as (b & -> & Hb). exists b. split; [done|].
    by apply (block_at_page _ _ q).
  - destruct (zlookup_lt_is_Some (coremap c) (paddr / PAGE_SIZE)) as [q Hq];
      [by rewrite (cm_len _ (proj1 Hwf))|].
    eapply wp_returns in Hrun; [|by apply (coremap_setpagevaddr_ok safe _ _ _ _ _ q)].
    destruct Hrun as (-> & Hwf' & ->). case_bool_decide; [done|].
    split; [done|]. split; [by eapply reserved_page|].
    intros pa m Hm. destruct (Hlive _ _ Hm) as (b & -> & Hb). exists b. split; [done|].
    by apply (block_at_page _ _ q).
Qed.

Lemma boot_live_ok c0 lock junk c :
  boot_state c0 → lock ≠ 0 → Z.of_nat (length junk) = lastpaddr c0 / PAGE_SIZE →
  coremap_bootstrap lock junk c0 = Ret tt c →
  live_ok (table_end c0 / PAGE_SIZE) (c, ∅).
Proof.
  intros Hboot Hlock Hjunk Hrun.
  eapply wp_returns in Hrun; [|by apply coremap_bootstrap_ok].
  destruct Hrun as (Hwf & Hsize & _ & Hall). pose proof (cm_len _ (proj1 Hwf)).
  assert (table_end c0 / PAGE_SIZE ≤ lastpaddr c0 / PAGE_SIZE) as Hle.
  { destruct Hboot. unfold table_end. apply Z.div_le_mono; [done|lia]. }
  split; [done|]. split; [split|]; simpl.
  - intros j Hj. rewrite Hall by lia. eexists. split; [done|]. unfold boot_page.
    by destruct (Z.ltb_spec j (table_end c0 / PAGE_SIZE)); [|lia].
  - intros a n (q & Hq & Hqn & Hn). pose proof (zlookup_lt_Some _ _ _ Hq).
    rewrite Hall in Hq by lia. unfold boot_page in Hq.
    destruct (a <? _); simplify_eq; done.
  - intros paddr n Hn. by rewrite lookup_empty in Hn.
Qed.

Lemma cm_reachable_ok limit st st' :
  live_ok limit st → rtc cm_step st st' → live_ok limit st'.
Proof. intros Hok Hsteps. induction Hsteps; eauto using cm_step_ok. Qed.

(** ** Correctness *)

(** C3: No page is ever handed out twice. The coremap ends on a page boundary, for
    instance behind a kernel that does on a machine with whole megabytes. From bootstrap
    on, whatever calls of the coremap the kernel makes, giving back only blocks it was
    handed, the table's invariant holds and the blocks handed out and not given back are
    page-aligned, lie in memory behind the kernel and behind the table, and do not
    overlap. Without the page boundary the table's last page is handed out
    ([coremap_hands_out_itself]). *)
Theorem coremap_no_double_allocation c0 lock junk c st :
  boot_state c0 → table_end c0 `mod` PAGE_SIZE = 0 →
  lock ≠ 0 → Z.of_nat (length junk) = lastpaddr c0 / PAGE_SIZE →
  coremap_bootstrap lock junk c0 = Ret tt c →
  rtc cm_step (c, ∅) st →
  cm_wf st.1 ∧
  (∀ paddr n, st.2 !! paddr = Some n →
     paddr `mod` PAGE_SIZE = 0 ∧ table_end c0 ≤ paddr ∧
     0 < n ∧ paddr + n * PAGE_SIZE ≤ coremap_size st.1 * PAGE_SIZE) ∧
  (∀ paddr n paddr' n', st.2 !! paddr = Some n → st.2 !! paddr' = Some n' →
     paddr ≠ paddr' →
     paddr + n * PAGE_SIZE ≤ paddr' ∨ paddr' + n' * PAGE_SIZE ≤ paddr).
Proof.
  intros Hboot Hend Hlock Hjunk Hrun Hsteps.
  assert (live_ok (table_end c0 / PAGE_SIZE) st) as (Hwf & [_ Hres] & Hlive)
    by (eapply cm_reachable_ok; [by eapply boot_live_ok|done]).
  apply Z.div_exact in Hend; [|done]. pose proof (cm_table _ (proj1 Hwf)) as Htab.
  unfold PAGE_SIZE in *. split; [done|]. split.
  - intros paddr n Hn. destruct (Hlive _ _ Hn) as (a & -> & Ha).
    pose proof (Hres _ _ Ha). pose proof (block_fits _ _ _ Htab Ha) as Hfit.
    rewrite (cm_len _ (proj1 Hwf)) in Hfit. split; [by apply Z.mod_mul|lia].
  - intros paddr n paddr' n' Hn Hn' Hne.
    destruct (Hlive _ _ Hn) as (a & -> & Ha), (Hlive _ _ Hn') as (b & -> & Hb).
    destruct (block_disjoint _ _ _ _ _ Htab Ha Hb); lia.
Qed.

(** [coremap_getpages] returns the address of a run of free pages that it
    turns into one block, leaves every other entry, the interrupt level and the
    lock as they were, and keeps the invariant. It panics only when there is no
    run of that many free pages on either side of the last page used. *)
Theorem coremap_getpages_spec p c n :
  running p → cm_wf c → 0 < n < 2 ^ 31 →
  wp (no_room c n) (coremap_getpages n) (p, c)
    (λ paddr '(p', c'), ∃ a l', paddr = a * PAGE_SIZE ∧ p' = p ∧
       findable c a n ∧ filled (coremap c) l' a (a + n) (block_page a n) ∧
       c' = with_block a n l' c ∧ cm_wf c') noerr.
Proof. apply coremap_getpages_ok. Qed.

(** A request for one page succeeds whenever some page is free. *)
Theorem coremap_getpages_one_complete p c j q :
  running p → cm_wf c → zlookup (coremap c) j = Some q → state q = FREE →
  wp safe (coremap_getpages 1) (p, c)
    (λ paddr '(p', c'), p' = p ∧ cm_wf c' ∧ block_at (coremap c') (paddr / PAGE_SIZE) 1)
    noerr.
Proof.
  intros Hp Hwf Hq Hfree. apply wp_faults with (no_room c 1).
  - eapply wp_mono; [by apply coremap_getpages_ok| |done].
    intros paddr [p' c'] (a & l' & -> & -> & [Hrun _] & Hfill & -> & Hwf').
    split_and!; [done..|]. rewrite Z.div_mul by done.
    apply (block_at_filled (coremap c) l' a 1); auto; [|lia].
    apply cm_table, Hwf.
  - intros f [_ Hnone]. apply (Hnone j). split.
    + intros i Hi. assert (i = j) as -> by lia. eauto.
    + lia.
Qed.

(** Freeing a block right after it was allocated restores the table and the
    count exactly. *)
Theorem coremap_get_free_roundtrip p c n :
  running p → cm_wf c → 0 < n < 2 ^ 31 →
  wp (no_room c n) (paddr ← coremap_getpages n; coremap_freepages paddr) (p, c)
    (λ _ '(p', c'), p' = p ∧ c' = set_last (last_page_used c') c) noerr.
Proof.
  intros Hp Hwf Hn. pose proof (cm_table _ (proj1 Hwf)) as Htab.
  wp_steps. eapply wp_mono; [by apply coremap_getpages_ok| |done].
  intros paddr [p1 c1] (a & l1 & -> & -> & [Hrun _] & [Hlen1 Hl1] & -> & Hwf1).
  pose proof (run_lt_length _ _ _ (proj1 Hn) Hrun).
  assert (zlookup l1 (a * PAGE_SIZE / PAGE_SIZE) = Some (block_page a n a)) as Hhead.
  { rewrite Z.div_mul by done. rewrite Hl1, decide_True by lia. done. }
  eapply wp_mono; [by apply (coremap_freepages_ok _ _ _ _ (block_page a n a))| |done].
  intros [] [p2 c2] (-> & _ & Hc2). simpl in Hc2.
  rewrite Z.div_mul, Z.eqb_refl in Hc2 by done.
  destruct (Z.eqb_spec n 0); [lia|]. destruct Hc2 as (l2 & [Hlen2 Hl2] & ->).
  split; [done|]. assert (l2 = coremap c) as ->.
  { apply zlist_eq; [congruence|]. intros j Hj. rewrite Hl2, Hl1 by lia.
    repeat case_decide; try done. destruct (Hrun j) as (q & Hq & Hqs); [done|].
    rewrite Hq. f_equal. symmetry. by apply (table_free _ Htab j). }
  destruct c; unfold without_block, with_block, set_in_use, set_coremap, set_last; simpl in *.
  f_equal. lia.
Qed.

(** [coremap_bootstrap] builds a table that satisfies the invariant, whose
    first entries are fixed and whose other entries are free. When the kernel
    ends on a page boundary and the size of RAM is a multiple of one megabyte,
    every page that holds a part of the table is fixed. *)
Theorem coremap_bootstrap_protects c lock junk :
  boot_state c → lock ≠ 0 → Z.of_nat (length junk) = lastpaddr c / PAGE_SIZE →
  wp safe (coremap_bootstrap lock junk) c
    (λ _ c', cm_wf c' ∧ coremap_size c' = lastpaddr c / PAGE_SIZE ∧
       (firstpaddr c `mod` PAGE_SIZE = 0 → lastpaddr c `mod` 2 ^ 20 = 0 →
        ∀ x, coremap_base c' ≤ x <
               coremap_base c' + coremap_size c' * sizeof_coremap_page →
        zlookup (coremap c') (x / PAGE_SIZE) = Some page_fixed)) noerr.
Proof.
  intros Hboot Hlock Hjunk.
  eapply wp_mono; [by apply coremap_bootstrap_ok| |done].
  intros [] c' (Hwf & Hsize & Hbase & Hall). split_and!; [done..|].
  intros Hf Hl x Hx. pose proof Hboot as [_ _ Hf0 Hram Hroom].
  rewrite Hsize, Hbase in *. unfold boot_page, table_end, sizeof_coremap_page, PAGE_SIZE in *.
  assert (lastpaddr c = 2 ^ 20 * (lastpaddr c / 2 ^ 20)) as HL by (by apply Z.div_exact).
  assert (firstpaddr c = 4096 * (firstpaddr c / 4096)) as HF by (by apply Z.div_exact).
  set (M := lastpaddr c / 2 ^ 20) in *. set (f := firstpaddr c / 4096) in *.
  assert (lastpaddr c / 4096 = 256 * M) as Hpages.
  { rewrite HL. replace (2 ^ 20 * M) with (256 * M * 4096) by lia. by apply Z.div_mul. }
  rewrite Hpages in *.
  assert ((firstpaddr c + 256 * M * 16) / 4096 = f + M) as Hend.
  { rewrite HF. replace (4096 * f + 256 * M * 16) with ((f + M) * 4096) by lia.
    by apply Z.div_mul. }
  assert (0 ≤ x / 4096 < f + M) as Hxp.
  { split; [apply Z.div_pos; lia|]. apply Z.div_lt_upper_bound; lia. }
  rewrite Hall by (split; [lia|]; nia). rewrite Hend.
  by destruct (Z.ltb_spec (x / 4096) (f + M)); [|lia].
Qed.

(** ** Examples *)

(** The globals on a machine with [pages] pages whose kernel ends at [first] *)
Definition boot_cmap (first pages : Z) : cmap :=
  MkCmap first (pages * PAGE_SIZE) 0 [] 0 0 0 0 0.

Definition boot_junk (pages : nat) : list coremap_page :=
  replicate pages (MkPage 1 1 1 FREE).

Definition ex_cpu : cpu := MkCpu 0 0xff01 0 0x80001000.

Lemma ex_cpu_running : running ex_cpu.
Proof. split; [split; done|done]. Qed.

(** On a machine with half a megabyte the table fills half a page. That page is
    marked free, and the first allocation hands it out: the table's own
    storage. *)
Lemma coremap_hands_out_itself :
  ∃ s, (on_map (coremap_bootstrap 1 (boot_junk 128));;
        paddr ← coremap_getpages 1;
        base ← on_map (gets coremap_base);
        mret (paddr, base)) (ex_cpu, boot_cmap 0x2f000 128)
       = Ret (0x2f000, 0x2f000) s.
Proof. eexists. vm_compute. reflexivity. Qed.

(** Six pages, of which 2 and 3 are free, and the last page used is 3: the run is
    not found, and the kernel panics for lack of memory. *)
Definition ex_straddle : cmap :=
  MkCmap 0 0 0
    [page_fixed; page_fixed; page_free; page_free; page_fixed; page_fixed] 0 1 6 4 3.

Lemma coremap_misses_straddling_run :
  run (coremap ex_straddle) 2 2 ∧
  coremap_getpages 2 (ex_cpu, ex_straddle) = Panic Out_of_memory.
Proof.
  split; [|reflexivity]. intros j Hj.
  assert (j = 2 ∨ j = 3) as [-> | ->] by lia; by eexists.
Qed.

(** One megabyte, of which the kernel takes 47 pages *)
Definition ex_boot : cmap := boot_cmap 0x2f000 256.
Definition ex_cmap : cmap :=
  MkCmap 0 0 0x2f000 (replicate 48 page_fixed ++ replicate 208 page_free) 0 1 256 48 0.

Lemma ex_boot_state : boot_state ex_boot.
Proof. by split. Qed.

Lemma ex_boot_run : coremap_bootstrap 1 (boot_junk 256) ex_boot = Ret tt ex_cmap.
Proof. vm_compute. reflexivity. Qed.

Lemma ex_cmap_wf : cm_wf ex_cmap.
Proof.
  apply (wp_returns safe (coremap_bootstrap 1 (boot_junk 256)) ex_boot tt ex_cmap _ _
    (coremap_bootstrap_ok ex_boot 1 (boot_junk 256) ex_boot_state ltac:(done) eq_refl)).
  apply ex_boot_run.
Qed.

(** Two allocations, of two pages and of one *)
Definition run_getpages (n : Z) (c : cmap) : cmap :=
  match coremap_getpages n (ex_cpu, c) with Ret _ (_, c') => c' | _ => c end.
Definition ex_live : cmap * gmap Z Z :=
  (run_getpages 1 (run_getpages 2 ex_cmap), <[0x32000 := 1]> {[0x30000 := 2]}).

Lemma ex_live_reachable : rtc cm_step (ex_cmap, ∅) ex_live.
Proof.
  eapply (rtc_l _ _ (run_getpages 2 ex_cmap, {[0x30000 := 2]})).
  - apply (step_getpages ex_cpu ex_cpu); [apply ex_cpu_running|lia|by vm_compute].
  - apply rtc_once. apply (step_getpages ex_cpu ex_cpu); [apply ex_cpu_running|lia|by vm_compute].
Qed.

Lemma coremap_no_double_allocation_witness :
  cm_wf ex_live.1 ∧
  (∀ paddr n, ex_live.2 !! paddr = Some n →
     paddr `mod` PAGE_SIZE = 0 ∧ table_end ex_boot ≤ paddr ∧
     0 < n ∧ paddr + n * PAGE_SIZE ≤ coremap_size ex_live.1 * PAGE_SIZE) ∧
  (∀ paddr n paddr' n', ex_live.2 !! paddr = Some n → ex_live.2 !! paddr' = Some n' →
     paddr ≠ paddr' →
     paddr + n * PAGE_SIZE ≤ paddr' ∨ paddr' + n' * PAGE_SIZE ≤ paddr).
Proof.
  apply (coremap_no_double_allocation ex_boot 1 (boot_junk 256) ex_cmap ex_live);
    [apply ex_boot_state|reflexivity|done|reflexivity|apply ex_boot_run|apply ex_live_reachable].
Defined.

Lemma coremap_getpages_spec_witness :
  wp (no_room ex_cmap 3) (coremap_getpages 3) (ex_cpu, ex_cmap)
    (λ paddr '(p', c'), ∃ a l', paddr = a * PAGE_SIZE ∧ p' = ex_cpu ∧
       findable ex_cmap a 3 ∧ filled (coremap ex_cmap) l' a (a + 3) (block_page a 3) ∧
       c' = with_block a 3 l' ex_cmap ∧ cm_wf c') noerr.
Proof.
  apply (coremap_getpages_spec ex_cpu ex_cmap 3); [apply ex_cpu_running|apply ex_cmap_wf|lia].
Defined.

Lemma coremap_getpages_one_complete_witness :
  wp safe (coremap_getpages 1) (ex_cpu, ex_cmap)
    (λ paddr '(p', c'), p' = ex_cpu ∧ cm_wf c' ∧
       block_at (coremap c') (paddr / PAGE_SIZE) 1) noerr.
Proof.
  apply (coremap_getpages_one_complete ex_cpu ex_cmap 48 page_free);
    [apply ex_cpu_running|apply ex_cmap_wf|reflexivity|reflexivity].
Defined.

Lemma coremap_get_free_roundtrip_witness :
  wp (no_room ex_cmap 3) (paddr ← coremap_getpages 3; coremap_freepages paddr)
    (ex_cpu, ex_cmap)
    (λ _ '(p', c'), p' = ex_cpu ∧ c' = set_last (last_page_used c') ex_cmap) noerr.
Proof.
  apply (coremap_get_free_roundtrip ex_cpu ex_cmap 3);
    [apply ex_cpu_running|apply ex_cmap_wf|lia].
Defined.

Lemma coremap_bootstrap_protects_witness :
  wp safe (coremap_bootstrap 1 (boot_junk 256)) ex_boot
    (λ _ c', cm_wf c' ∧ coremap_size c' = lastpaddr ex_boot / PAGE_SIZE ∧
       (firstpaddr ex_boot `mod` PAGE_SIZE = 0 → lastpaddr ex_boot `mod` 2 ^ 20 = 0 →
        ∀ x, coremap_base c' ≤ x <
               coremap_base c' + coremap_size c' * sizeof_coremap_page →
        zlookup (coremap c') (x / PAGE_SIZE) = Some page_fixed)) noerr.
Proof.
  apply (coremap_bootstrap_protects ex_boot 1 (boot_junk 256));
    [apply ex_boot_state|done|reflexivity].
Defined.
