(* ===== verification/KPages.v ===== *)
(** * Kernel pages: the interface between the kernel heap and the coremap

    [alloc_kpages] and [free_kpages] of kern/vm/vm.c, as an interface with its
    contract, and the proof that their code, on top of the coremap, meets the
    contract. The heap (Kheap.v) is verified against the contract alone. *)

From Stdlib Require Import ZArith Lia.
From stdpp Require Import base list gmap numbers.
From S2P Require Import Prelude Cpu Coremap.

Local Open Scope Z_scope.

(** ** The interface *)

Class KPages (P : Type) `{!HasCpu P} := {
  alloc_kpages : Z → M P Z;
  free_kpages : Z → M P ();
}.

(** The contract. [pages_own s m] says that [m] maps the kernel virtual address
    of every run of pages handed out to its length in pages. *)
Class KPagesLaws (P : Type) `{!HasCpu P} `{!KPages P} := {
  pages_own : P → gmap Z Z → Prop;
  pages_running s m : pages_own s m → running (cpu_of s);
  pages_cpu s m c : pages_own s m → running c → pages_own (set_cpu c s) m;
  pages_range s m a n :
    pages_own s m → m !! a = Some n →
    0 < n ∧ a `mod` PAGE_SIZE = 0 ∧ MIPS_KSEG0 ≤ a ∧ a + n * PAGE_SIZE ≤ MIPS_KSEG1;
  pages_disjoint s m a n b k :
    pages_own s m → m !! a = Some n → m !! b = Some k → a ≠ b →
    a + n * PAGE_SIZE ≤ b ∨ b + k * PAGE_SIZE ≤ a;
  alloc_kpages_law s m n :
    pages_own s m → 0 < n < 2 ^ 31 →
    wp safe_oom (alloc_kpages n) s
      (λ a s', cpu_of s' = cpu_of s ∧
         ((a = 0 ∧ pages_own s' m) ∨
          (a ≠ 0 ∧ m !! a = None ∧ pages_own s' (<[a := n]> m)))) noerr;
  free_kpages_law s m a :
    pages_own s m → is_Some (m !! a) →
    wp safe (free_kpages a) s
      (λ _ s', cpu_of s' = cpu_of s ∧ pages_own s' (delete a m)) noerr;
}.

(** In particular the interrupt level may change. *)
Lemma pages_spl `{KPagesLaws P} s m k :
  pages_own s m → 0 ≤ k → pages_own (set_cpu (spl_set k (cpu_of s)) s) m.
Proof. intros Hs Hk. apply pages_cpu; [done|]. apply running_spl; [|done]. by eapply pages_running. Qed.

(** ** The code of vm.c, on the coremap *)

Definition coremap_alloc_kpages (npages : Z) : M CM Z :=
  paddr ← with_splhigh (coremap_getpages npages);
  if paddr =? 0 then mret 0 else mret (PADDR_TO_KVADDR paddr).

Definition coremap_free_kpages (addr : Z) : M CM () :=
  with_splhigh (coremap_freepages (KVADDR_TO_PADDR addr)).

#[global] Instance coremap_kpages : KPages CM :=
  {| alloc_kpages := coremap_alloc_kpages; free_kpages := coremap_free_kpages |}.

(** Page 0 holds the exception handlers and is never handed out. *)
Definition coremap_pages_own (s : CM) (m : gmap Z Z) : Prop :=
  running s.1 ∧ cm_wf s.2 ∧ reserved (coremap s.2) 1 ∧
  ∀ a n, m !! a = Some n →
    ∃ b, a = b * PAGE_SIZE + MIPS_KSEG0 ∧ block_at (coremap s.2) b n.

Section coremap_pages.
Implicit Types s : CM.

(** Blocks lie inside the table. *)
Lemma block_bound c b n :
  cm_inv c → block_at (coremap c) b n → 0 ≤ b ∧ 0 < n ∧ b + n ≤ 2 ^ 17.
Proof.
  intros Hinv Hb. pose proof (cm_table _ Hinv) as Htab.
  pose proof (block_positive _ _ _ Htab Hb). pose proof (block_at_nonneg _ _ _ Hb).
  destruct Hb as (q & Hq & Hqn & Hn).
  destruct (block_pages_used _ _ q (n - 1) Htab Hq) as (r & Hr & _); [lia..|].
  apply zlookup_lt_Some in Hr. rewrite (cm_len _ Hinv) in Hr.
  pose proof (cm_size _ Hinv). lia.
Qed.

Lemma coremap_pages_range s m a n :
  coremap_pages_own s m → m !! a = Some n →
  0 < n ∧ a `mod` PAGE_SIZE = 0 ∧ MIPS_KSEG0 ≤ a ∧ a + n * PAGE_SIZE ≤ MIPS_KSEG1.
Proof.
  intros (_ & [Hinv _] & _ & Hm) Ha. destruct (Hm _ _ Ha) as (b & -> & Hb).
  pose proof (block_bound _ _ _ Hinv Hb).
  replace (b * PAGE_SIZE + MIPS_KSEG0) with ((b + 0x80000) * PAGE_SIZE)
    by (unfold PAGE_SIZE, MIPS_KSEG0; lia).
  rewrite Z.mod_mul by done. unfold PAGE_SIZE, MIPS_KSEG0, MIPS_KSEG1. lia.
Qed.

Lemma coremap_pages_disjoint s m a n b k :
  coremap_pages_own s m → m !! a = Some n → m !! b = Some k → a ≠ b →
  a + n * PAGE_SIZE ≤ b ∨ b + k * PAGE_SIZE ≤ a.
Proof.
  intros (_ & [Hinv _] & _ & Hm) Ha Hb Hab.
  destruct (Hm _ _ Ha) as (a' & -> & Ha'), (Hm _ _ Hb) as (b' & -> & Hb').
  destruct (block_disjoint _ _ _ _ _ (cm_table _ Hinv) Ha' Hb');
    unfold PAGE_SIZE in *; lia.
Qed.

Lemma coremap_alloc_kpages_ok s m n :
  coremap_pages_own s m → 0 < n < 2 ^ 31 →
  wp safe_oom (coremap_alloc_kpages n) s
    (λ a s', s'.1 = s.1 ∧ a ≠ 0 ∧ m !! a = None ∧ coremap_pages_own s' (<[a := n]> m))
    noerr.
Proof.
  destruct s as [p c]. intros (Hp & Hwf & Hres & Hm) Hn. simpl in *.
  pose proof (cm_table _ (proj1 Hwf)) as Htab.
  unfold coremap_alloc_kpages. wp_steps. apply wp_with_splhigh. simpl.
  apply wp_faults with (no_room c n); [|by intros f [-> _]].
  eapply wp_mono; [apply coremap_getpages_ok; [by apply running_spl|done..]| |done].
  intros paddr [p' c'] (a & l' & -> & -> & [Hrun _] & Hfill & -> & Hwf').
  assert (reserved l' 1) as Hres' by (apply (reserved_alloc (coremap c) l' a n); auto; lia).
  assert (block_at l' a n) as Ha by (apply (block_at_filled (coremap c) l' a n); auto; lia).
  pose proof (proj2 Hres' _ _ Ha). pose proof (block_bound _ _ _ (proj1 Hwf') Ha).
  destruct (Z.eqb_spec (a * PAGE_SIZE) 0); [unfold PAGE_SIZE in *; lia|]. wp_steps.
  unfold PADDR_TO_KVADDR. rewrite u32_small by (unfold PAGE_SIZE, MIPS_KSEG0; lia).
  cpu_simpl. rewrite spl_set_back by (done || apply Hp).
  split; [done|]. split; [unfold PAGE_SIZE, MIPS_KSEG0; lia|].
  split; [|split; [done|]; split; [done|]; split; [done|]].
  - apply eq_None_not_Some. intros [k Hk]. destruct (Hm _ _ Hk) as (b & Heq & Hb).
    assert (b = a) as -> by (unfold PAGE_SIZE in *; lia).
    pose proof (block_positive _ _ _ Htab Hb).
    apply (run_block_disjoint _ _ _ _ _ Htab Hrun Hb 0); lia.
  - intros b k [[<- <-]|[Hne Hk]]%lookup_insert_Some; simpl; [by exists a|].
    destruct (Hm _ _ Hk) as (b' & -> & Hb'). exists b'. split; [done|].
    apply (block_at_filled (coremap c) l' a n); auto; lia.
Qed.

Lemma coremap_free_kpages_ok s m a :
  coremap_pages_own s m → is_Some (m !! a) →
  wp safe (coremap_free_kpages a) s
    (λ _ s', s'.1 = s.1 ∧ coremap_pages_own s' (delete a m)) noerr.
Proof.
  destruct s as [p c]. intros (Hp & Hwf & Hres & Hm) [n Ha]. simpl in *.
  destruct (Hm _ _ Ha) as (b & -> & Hb). pose proof Hb as (q & Hq & Hqn & Hn).
  pose proof (block_bound _ _ _ (proj1 Hwf) Hb).
  pose proof (cm_table _ (proj1 Hwf)) as Htab.
  unfold coremap_free_kpages. apply wp_with_splhigh. simpl.
  unfold KVADDR_TO_PADDR. rewrite u32_small by (unfold PAGE_SIZE, MIPS_KSEG0; lia).
  replace (b * PAGE_SIZE + MIPS_KSEG0 - MIPS_KSEG0) with (b * PAGE_SIZE) by lia.
  eapply wp_mono; [apply (coremap_freepages_ok safe _ _ _ q);
    [by apply running_spl|done|by rewrite Z.div_mul]| |done].
  intros [] [p' c'] (-> & Hwf' & Hrest). cpu_simpl.
  rewrite spl_set_back by (done || apply Hp). rewrite Z.div_mul in Hrest by done.
  destruct (Z.eqb_spec (page_count q) 0); [lia|].
  destruct Hrest as (l' & Hfill & ->). rewrite Hqn in Hfill.
  split; [done|]. split; [done|]. split; [done|].
  split; [by eapply reserved_release|].
  intros a' k [Hne Hk]%lookup_delete_Some. simpl.
  destruct (Hm _ _ Hk) as (b' & -> & Hb'). exists b'. split; [done|].
  apply (block_at_released (coremap c) l' b n); auto. split; [|done]. by intros ->.
Qed.
End coremap_pages.

#[global, refine] Instance coremap_kpages_laws : KPagesLaws CM :=
  {| pages_own := coremap_pages_own;
     pages_range := coremap_pages_range;
     pages_disjoint := coremap_pages_disjoint |}.
Proof.
  - by intros s m (? & _).
  - intros [p c] m p' (_ & Hrest) Hp'. by split.
  - intros s m n Hs Hn. eapply wp_mono; [by apply coremap_alloc_kpages_ok| |done].
    intros a s' (Hcpu & ? & ? & ?). split; [done|]. by right.
  - intros s m a Hs Ha. by apply coremap_free_kpages_ok.
Defined.

(** The pages of the booted kernel: none has been handed out yet. *)
Lemma ex_pages_own : pages_own (ex_cpu, ex_cmap) ∅.
Proof.
  change (coremap_pages_own (ex_cpu, ex_cmap) ∅).
  split; [apply ex_cpu_running|]. split; [apply ex_cmap_wf|]. split.
  - split.
    + intros j Hj. assert (j = 0) as -> by lia. by eexists.
    + intros a n Hb. destruct (decide (a = 0)) as [->|].
      * destruct Hb as (q & Hq & Hqn & Hn). vm_compute in Hq. by simplify_eq.
      * pose proof (block_at_nonneg _ _ _ Hb). lia.
  - intros a n. by rewrite lookup_empty.
Qed.
