(* ===== verification/Kheap.v ===== *)
(** * The kernel heap: kmalloc and kfree

    Model of kern/lib/kheap.c on top of the kernel page interface (KPages.v).
    The consistency checks under [SLOW] and [SLOWER] are compiled out, and
    [kheap_printstats] only prints. The page references, their bitmap, the lists
    through them and the free lists inside the pages are modelled as the code
    has them; [mem] is the kernel's memory, by the address of a word.

    KheapProof.v proves that this code is a heap in the sense of KMem.v. *)

From Stdlib Require Import ZArith Lia.
From stdpp Require Import base list gmap numbers.
From S2P Require Import Prelude Cpu KPages.

Local Open Scope Z_scope.

(** ** Data *)

Definition sizes : list Z := [16; 32; 64; 128; 256; 512; 1024; 2048].
Definition NSIZES : Z := 8.
Definition LARGEST_SUBPAGE_SIZE : Z := 2048.

(** A pointer to a [struct pageref] is NULL or the address of an element of
    [pagerefs], given by its index. *)
Record pageref := MkPageref {
  next_samesize : option Z;
  next_all : option Z;
  pageaddr_and_blocktype : Z;
  freelist_offset : Z;
  nfree : Z;
}.

Definition INVALID_OFFSET : Z := 0xffff.

Definition PR_PAGEADDR (pr : pageref) : Z :=
  Z.land (pageaddr_and_blocktype pr) PAGE_FRAME.
Definition PR_BLOCKTYPE (pr : pageref) : Z :=
  Z.land (pageaddr_and_blocktype pr) (u32 (Z.lnot PAGE_FRAME)).
Definition MKPAB (pa blk : Z) : Z :=
  Z.lor (Z.land pa PAGE_FRAME) (Z.land blk (u32 (Z.lnot PAGE_FRAME))).

Definition NPAGEREFS : Z := 256.
Definition INUSE_WORDS : Z := 8.

Record kheap := MkKheap {
  pagerefs : list pageref;
  pagerefs_inuse : list Z;
  sizebases : list (option Z);
  allbase : option Z;
  mem : gmap Z Z;
}.

Definition set_pagerefs (l : list pageref) (h : kheap) : kheap :=
  MkKheap l (pagerefs_inuse h) (sizebases h) (allbase h) (mem h).
Definition set_inuse (l : list Z) (h : kheap) : kheap :=
  MkKheap (pagerefs h) l (sizebases h) (allbase h) (mem h).
Definition set_sizebases (l : list (option Z)) (h : kheap) : kheap :=
  MkKheap (pagerefs h) (pagerefs_inuse h) l (allbase h) (mem h).
Definition set_allbase (b : option Z) (h : kheap) : kheap :=
  MkKheap (pagerefs h) (pagerefs_inuse h) (sizebases h) b (mem h).
Definition set_mem (m : gmap Z Z) (h : kheap) : kheap :=
  MkKheap (pagerefs h) (pagerefs_inuse h) (sizebases h) (allbase h) m.

(** Access through a pointer to a page reference *)
Definition get_pr (i : Z) : M kheap pageref :=
  h ← get;
  the (zlookup (pagerefs h) i).
Definition set_pr (i : Z) (pr : pageref) : M kheap () :=
  h ← get;
  l ← the (zstore (pagerefs h) i pr);
  put (set_pagerefs l h).

(** Access to a word of memory *)
Definition load_word (a : Z) : M kheap Z :=
  h ← get;
  the (mem h !! a).
Definition store_word (a w : Z) : M kheap () :=
  modify (λ h, set_mem (<[a := w]> (mem h)) h).

Definition size_of (blktype : Z) : M kheap Z := the (zlookup sizes blktype).

(** ** Page references *)

(** [for (k=1,j=0; k!=0; k<<=1,j++)]: the first clear bit from [j] on *)
Fixpoint first_clear32 (fuel : nat) (j w : Z) : option Z :=
  match fuel with
  | O => None
  | S fuel =>
    if Z.land w (u32 (Z.shiftl 1 j)) =? 0 then Some j
    else first_clear32 fuel (j + 1) w
  end.

(** The loop of [allocpageref], from word [i] on: [fuel] words are left. *)
Fixpoint allocpageref_from (fuel : nat) (i : Z) : M kheap (option Z) :=
  match fuel with
  | O => mret None
  | S fuel =>
    h ← get;
    w ← the (zlookup (pagerefs_inuse h) i);
    if w =? 0xffffffff then allocpageref_from fuel (i + 1) else
    match first_clear32 32 0 w with
    | Some j =>
      l ← the (zstore (pagerefs_inuse h) i (Z.lor w (u32 (Z.shiftl 1 j))));
      put (set_inuse l h);;
      mret (Some (i * 32 + j))
    | None => assert false;; allocpageref_from fuel (i + 1)
    end
  end.

Definition allocpageref : M kheap (option Z) :=
  allocpageref_from (Z.to_nat INUSE_WORDS) 0.

Definition freepageref (j : Z) : M kheap () :=
  assert ((0 <=? j) && (j <? NPAGEREFS));;
  let i := j / 32 in
  let k := u32 (Z.shiftl 1 (j `mod` 32)) in
  h ← get;
  w ← the (zlookup (pagerefs_inuse h) i);
  assert (negb (Z.land w k =? 0));;
  l ← the (zstore (pagerefs_inuse h) i (Z.land w (u32 (Z.lnot k))));
  put (set_inuse l h).

(** ** The lists of pages

    The two loops of [remove_lists] walk with a pointer to the link they look
    at: the base of the list or the field of a page reference. *)
Inductive link := BaseLink | NextLink (i : Z).
Inductive which_list := SamesizeList (blktype : Z) | AllList.

Definition next_of (w : which_list) (pr : pageref) : option Z :=
  match w with SamesizeList _ => next_samesize pr | AllList => next_all pr end.
Definition with_next (w : which_list) (nx : option Z) (pr : pageref) : pageref :=
  match w with
  | SamesizeList _ =>
    MkPageref nx (next_all pr) (pageaddr_and_blocktype pr) (freelist_offset pr) (nfree pr)
  | AllList =>
    MkPageref (next_samesize pr) nx (pageaddr_and_blocktype pr) (freelist_offset pr)
      (nfree pr)
  end.

Definition read_link (w : which_list) (guy : link) : M kheap (option Z) :=
  h ← get;
  match guy with
  | BaseLink =>
    match w with
    | SamesizeList t => the (zlookup (sizebases h) t)
    | AllList => mret (allbase h)
    end
  | NextLink i => pr ← get_pr i; mret (next_of w pr)
  end.

Definition write_link (w : which_list) (guy : link) (p : option Z) : M kheap () :=
  h ← get;
  match guy with
  | BaseLink =>
    match w with
    | SamesizeList t => l ← the (zstore (sizebases h) t p); put (set_sizebases l h)
    | AllList => put (set_allbase p h)
    end
  | NextLink i => pr ← get_pr i; set_pr i (with_next w p pr)
  end.

(** A list has at most [NPAGEREFS] elements. *)
Fixpoint unlink (fuel : nat) (w : which_list) (guy : link) (pr : Z) : M kheap () :=
  match fuel with
  | O => noreturn
  | S fuel =>
    g ← read_link w guy;
    match g with
    | None => mret tt
    | Some x =>
      if x =? pr then
        p ← get_pr pr;
        write_link w guy (next_of w p)
      else unlink fuel w (NextLink x) pr
    end
  end.

Definition list_fuel : nat := 257.

Definition remove_lists (pr blktype : Z) : M kheap () :=
  assert ((0 <=? blktype) && (blktype <? NSIZES));;
  unlink list_fuel (SamesizeList blktype) BaseLink pr;;
  unlink list_fuel AllList BaseLink pr.

(** The first size, from index [i] on, that is large enough *)
Fixpoint blocktype_from (l : list Z) (i sz : Z) : M kheap Z :=
  match l with
  | [] => panic
  | s :: l => if sz <=? s then mret i else blocktype_from l (i + 1) sz
  end.

Definition blocktype (sz : Z) : M kheap Z := blocktype_from sizes 0 sz.

(** ** Small blocks *)

(** The loop of [subpage_kmalloc]: the first page of the list with a free
    block *)
Fixpoint find_free (fuel : nat) (blktype : Z) (pr : option Z) : M kheap (option Z) :=
  match pr with
  | None => mret None
  | Some i =>
    match fuel with
    | O => noreturn
    | S fuel =>
      p ← get_pr i;
      assert (PR_BLOCKTYPE p =? blktype);;
      if 0 <? nfree p then mret (Some i)
      else find_free fuel blktype (next_samesize p)
    end
  end.

(** The code at [doalloc:] *)
Definition doalloc (pr : Z) : M kheap Z :=
  p ← get_pr pr;
  assert (freelist_offset p <? PAGE_SIZE);;
  let prpage := PR_PAGEADDR p in
  let fla := u32 (prpage + freelist_offset p) in
  fl ← load_word fla;
  let nf := u16 (nfree p - 1) in
  (if negb (fl =? 0) then
     assert (0 <? nf);;
     assert (u32 (fl - prpage) <? PAGE_SIZE);;
     set_pr pr (MkPageref (next_samesize p) (next_all p) (pageaddr_and_blocktype p)
                  (u16 (u32 (fl - prpage))) nf)
   else
     assert (nf =? 0);;
     set_pr pr (MkPageref (next_samesize p) (next_all p) (pageaddr_and_blocktype p)
                  INVALID_OFFSET nf));;
  mret fla.

(** [for (i=1; i<pr->nfree; i++)]: link the blocks of a fresh page; the result is
    the last value of [fl]. *)
Fixpoint build_freelist (fuel : nat) (i fla sz fl : Z) : M kheap Z :=
  match fuel with
  | O => mret fl
  | S fuel =>
    let fl := u32 (fla + i * sz) in
    let next := u32 (fla + (i - 1) * sz) in
    store_word fl next;;
    assert (negb (fl =? next));;
    build_freelist fuel (i + 1) fla sz fl
  end.

(** A fresh page [prpage] gets its reference [pr] and its free list, and is put
    at the head of both lists. *)
Definition setup_page (pr prpage blktype : Z) : M kheap () :=
  sz ← size_of blktype;
  let nf := u16 (PAGE_SIZE / sz) in
  store_word prpage 0;;
  fl ← build_freelist (Z.to_nat (nf - 1)) 1 prpage sz prpage;
  let off := u16 (u32 (fl - prpage)) in
  assert (off =? (nf - 1) * sz);;
  h ← get;
  base ← the (zlookup (sizebases h) blktype);
  set_pr pr (MkPageref base (allbase h) (MKPAB prpage blktype) off nf);;
  h ← get;
  l ← the (zstore (sizebases h) blktype (Some pr));
  put (set_sizebases l (set_allbase (Some pr) h)).

(** [fill_deadbeef(ptr, len)] *)
Definition fill_deadbeef (ptr len : Z) : M kheap () :=
  for_range 0 (len / 4) (λ i, store_word (u32 (ptr + 4 * i)) 0xdeadbeef).

(** The loop of [subpage_kfree]: the page that contains [ptraddr] *)
Fixpoint find_page (fuel : nat) (ptraddr : Z) (pr : option Z) : M kheap (option Z) :=
  match pr with
  | None => mret None
  | Some i =>
    match fuel with
    | O => noreturn
    | S fuel =>
      p ← get_pr i;
      let prpage := PR_PAGEADDR p in
      assert ((0 <=? PR_BLOCKTYPE p) && (PR_BLOCKTYPE p <? NSIZES));;
      if (prpage <=? ptraddr) && (ptraddr <? u32 (prpage + PAGE_SIZE)) then mret (Some i)
      else find_page fuel ptraddr (next_all p)
    end
  end.

Section heap.
Context {P : Type} `{!HasCpu P} `{!KPages P}.

Definition KH : Type := P * kheap.

Definition on_kheap {A} (m : M kheap A) : M KH A := zoom snd (λ h s, (s.1, h)) m.
Definition on_pages {A} (m : M P A) : M KH A := zoom fst (λ p s, (p, s.2)) m.

(** A return value of 0 is NULL. *)
Definition subpage_kmalloc (sz : Z) : M KH Z :=
  blktype ← on_kheap (blocktype sz);
  with_splhigh (
    h ← gets snd;
    base ← the (zlookup (sizebases h) blktype);
    found ← on_kheap (find_free list_fuel blktype base);
    match found with
    | Some pr => on_kheap (doalloc pr)
    | None =>
      pr ← on_kheap allocpageref;
      match pr with
      | None => mret 0
      | Some pr =>
        prpage ← on_pages (alloc_kpages 1);
        if prpage =? 0 then on_kheap (freepageref pr);; mret 0 else
        on_kheap (setup_page pr prpage blktype);;
        on_kheap (doalloc pr)
      end
    end).

Definition subpage_kfree (ptraddr : Z) : M KH Z :=
  with_splhigh (
    h ← gets snd;
    found ← on_kheap (find_page list_fuel ptraddr (allbase h));
    match found with
    | None => mret (-1)
    | Some pr =>
      p ← on_kheap (get_pr pr);
      let prpage := PR_PAGEADDR p in
      let blktype := PR_BLOCKTYPE p in
      sz ← on_kheap (size_of blktype);
      let offset := u32 (ptraddr - prpage) in
      (if (PAGE_SIZE <=? offset) || negb (offset `mod` sz =? 0) then panic else mret tt);;
      on_kheap (fill_deadbeef ptraddr sz);;
      let fla := u32 (prpage + offset) in
      on_kheap (store_word fla
        (if freelist_offset p =? INVALID_OFFSET then 0
         else u32 (prpage + freelist_offset p)));;
      let nf := u16 (nfree p + 1) in
      on_kheap (set_pr pr (MkPageref (next_samesize p) (next_all p)
        (pageaddr_and_blocktype p) (u16 offset) nf));;
      assert (nf <=? PAGE_SIZE / sz);;
      when (nf =? PAGE_SIZE / sz) (
        on_kheap (remove_lists pr blktype);;
        on_pages (free_kpages prpage);;
        on_kheap (freepageref pr));;
      mret 0
    end).

Definition kmalloc (sz : Z) : M KH Z :=
  if LARGEST_SUBPAGE_SIZE <=? sz then
    let npages := u32 (sz + PAGE_SIZE - 1) / PAGE_SIZE in
    address ← on_pages (alloc_kpages npages);
    if address =? 0 then mret 0 else mret address
  else subpage_kmalloc sz.

Definition kfree (ptr : Z) : M KH () :=
  if ptr =? 0 then mret tt else
  r ← subpage_kfree ptr;
  if negb (r =? 0) then
    assert (ptr `mod` PAGE_SIZE =? 0);;
    on_pages (free_kpages ptr)
  else mret tt.
End heap.
Arguments KH : clear implicits.

(** The globals before the first call *)
Definition kheap_init : kheap :=
  MkKheap (replicate 256 (MkPageref None None 0 0 0)) (replicate 8 0)
    (replicate 8 None) None ∅.
