(* ===== verification/KheapLists.v ===== *)
(** * The data structures of the kernel heap

    The bitmap of page references, the linked lists through the page references
    and the free list inside a page (kern/lib/kheap.c): what each describes, and
    what the operations of Kheap.v do to it. *)

From Stdlib Require Import ZArith Lia.
From stdpp Require Import base list gmap numbers.
From S2P Require Import Prelude Cpu KPages Kheap.

Local Open Scope Z_scope.

(** ** Pages and block types *)

(** The size of blocks of type [t], and how many of them fill a page *)
Definition bsize (t : Z) : Z := 2 ^ (t + 4).
Definition nblocks (t : Z) : Z := 2 ^ (8 - t).

Definition type_ok (t : Z) : Prop := 0 ≤ t < 8.

Lemma type_cases t : type_ok t →
  t = 0 ∨ t = 1 ∨ t = 2 ∨ t = 3 ∨ t = 4 ∨ t = 5 ∨ t = 6 ∨ t = 7.
Proof. unfold type_ok. lia. Qed.

Ltac by_type H := apply type_cases in H; destruct_or! H; subst; vm_compute.

Lemma sizes_lookup t : type_ok t → zlookup sizes t = Some (bsize t).
Proof. intros Ht. by_type Ht; done. Qed.

Lemma bsize_bounds t : type_ok t → 16 ≤ bsize t ≤ 2048.
Proof. intros Ht. by_type Ht; split; discriminate. Qed.

Lemma nblocks_bounds t : type_ok t → 2 ≤ nblocks t ≤ 256.
Proof. intros Ht. by_type Ht; split; discriminate. Qed.

Lemma nblocks_bsize t : type_ok t → nblocks t * bsize t = PAGE_SIZE.
Proof. intros Ht. by_type Ht; done. Qed.

Lemma page_div_bsize t : type_ok t → PAGE_SIZE / bsize t = nblocks t.
Proof. intros Ht. by_type Ht; done. Qed.

Lemma blocktype_ok F sz h (Q : Z → kheap → Prop) E :
  0 ≤ sz < LARGEST_SUBPAGE_SIZE →
  (∀ t, type_ok t → sz ≤ bsize t → Q t h) → wp F (blocktype sz) h Q E.
Proof.
  unfold LARGEST_SUBPAGE_SIZE, blocktype, sizes. intros Hsz HQ. cbn [blocktype_from].
  repeat (wp_if; [wp_steps; apply HQ; [unfold type_ok; lia|unfold bsize; simpl; lia]|]).
  wp_if. wp_steps. apply HQ; [unfold type_ok; lia|unfold bsize; simpl; lia].
Qed.

(** The address of a kernel page *)
Definition page_addr (pa : Z) : Prop :=
  pa `mod` PAGE_SIZE = 0 ∧ MIPS_KSEG0 ≤ pa ∧ pa + PAGE_SIZE ≤ MIPS_KSEG1.

Lemma page_addr_eq pa : page_addr pa → ∃ q, pa = q * 4096.
Proof.
  intros [Hm _]. exists (pa / 4096). pose proof (Z.div_mod pa 4096).
  unfold PAGE_SIZE in *. lia.
Qed.

Lemma pab_split pa t : page_addr pa → type_ok t →
  Z.land (pa + t) PAGE_FRAME = pa ∧ Z.land (pa + t) (u32 (Z.lnot PAGE_FRAME)) = t.
Proof.
  intros Hpa Ht. destruct (page_addr_eq _ Hpa) as [q ->].
  destruct Hpa as (_ & Hlo & Hhi).
  unfold type_ok, MIPS_KSEG0, MIPS_KSEG1, PAGE_SIZE in *.
  rewrite land_PAGE_FRAME, land_page_offset by (unfold is_u32; lia). unfold PAGE_SIZE.
  split; Z.div_mod_to_equations; lia.
Qed.

Lemma mkpab pa t : page_addr pa → type_ok t → MKPAB pa t = pa + t.
Proof.
  intros Hpa Ht. destruct (page_addr_eq _ Hpa) as [q ->].
  destruct Hpa as (_ & Hlo & Hhi). unfold MKPAB.
  unfold type_ok, MIPS_KSEG0, MIPS_KSEG1, PAGE_SIZE in *.
  rewrite land_PAGE_FRAME, land_page_offset by (unfold is_u32; lia). unfold PAGE_SIZE.
  rewrite Z.div_mul, (Z.mod_small t) by lia.
  assert (Z.land (q * 4096) t = 0) as Hz.
  { change 4096 with (2 ^ 12). rewrite <- Z.shiftl_mul_pow2 by lia.
    apply Z.bits_inj'. intros k Hk. rewrite Z.land_spec, Z.shiftl_spec, Z.testbit_0_l by done.
    destruct (decide (k < 12)); [by rewrite Z.testbit_neg_r by lia|].
    rewrite (Z.bits_above_log2 t), andb_false_r; [done|lia|].
    destruct (decide (t = 0)) as [->|]; [simpl; lia|]. apply Z.log2_lt_pow2; [lia|].
    apply Z.lt_le_trans with (2 ^ 3); [lia|]. apply Z.pow_le_mono_r; lia. }
  rewrite Z.add_nocarry_lxor by done. symmetry. by apply Z.lxor_lor.
Qed.

(** ** The bitmap of page references *)

Definition ref_used (l : list Z) (i : Z) : bool :=
  match zlookup l (i / 32) with Some w => Z.testbit w (i `mod` 32) | None => false end.

Record inuse_ok (l : list Z) : Prop := {
  inuse_len : length l = 8%nat;
  inuse_words : Forall is_u32 l;
}.

Section inuse.
Implicit Types l : list Z.

Lemma bit32 j : 0 ≤ j < 32 → u32 (Z.shiftl 1 j) = 2 ^ j.
Proof.
  intros Hj. rewrite Z.shiftl_1_l. apply u32_small. split; [lia|].
  apply Z.pow_lt_mono_r; lia.
Qed.

Lemma land_bit32 w j : 0 ≤ j < 32 →
  (Z.land w (u32 (Z.shiftl 1 j)) =? 0) = negb (Z.testbit w j).
Proof.
  intros Hj. rewrite bit32 by done. destruct (Z.testbit w j) eqn:Hb; simpl.
  - apply Z.eqb_neq. intros Hz. assert (Z.testbit (Z.land w (2 ^ j)) j = true) as Ht.
    { rewrite Z.land_spec, Hb, Z.pow2_bits_true by lia. done. }
    by rewrite Hz, Z.testbit_0_l in Ht.
  - apply Z.eqb_eq. apply Z.bits_inj'. intros k Hk.
    rewrite Z.land_spec, Z.testbit_0_l. destruct (decide (k = j)) as [->|].
    + by rewrite Hb.
    + by rewrite Z.pow2_bits_false, andb_false_r by lia.
Qed.

Lemma set_bit32 w j k : 0 ≤ j < 32 → 0 ≤ k →
  Z.testbit (Z.lor w (u32 (Z.shiftl 1 j))) k = if decide (k = j) then true else Z.testbit w k.
Proof.
  intros Hj Hk. rewrite bit32 by done. rewrite Z.lor_spec. case_decide as Hkj.
  - subst. rewrite Z.pow2_bits_true by lia. apply orb_true_r.
  - rewrite Z.pow2_bits_false by lia. apply orb_false_r.
Qed.

Lemma clear_bit32 w j k : is_u32 w → 0 ≤ j < 32 → 0 ≤ k →
  Z.testbit (Z.land w (u32 (Z.lnot (u32 (Z.shiftl 1 j))))) k
  = if decide (k = j) then false else Z.testbit w k.
Proof.
  intros Hw Hj Hk. rewrite bit32 by done. rewrite Z.land_spec. case_decide as Hkj.
  - subst. rewrite testbit_u32, Z.lnot_spec, Z.pow2_bits_true by lia. apply andb_false_r.
  - destruct (decide (k < 32)).
    + rewrite testbit_u32, Z.lnot_spec, Z.pow2_bits_false by lia. apply andb_true_r.
    + by rewrite u32_testbit_high by (done || lia).
Qed.

Lemma first_clear32_spec w : ∀ fuel j, 0 ≤ j → j + Z.of_nat fuel ≤ 32 →
  match first_clear32 fuel j w with
  | Some o => j ≤ o < 32 ∧ Z.testbit w o = false
  | None => ∀ k, j ≤ k < j + Z.of_nat fuel → Z.testbit w k = true
  end.
Proof.
  induction fuel as [|fuel IH]; intros j Hj Hf; cbn [first_clear32].
  { intros k Hk. lia. }
  rewrite land_bit32 by lia. destruct (Z.testbit w j) eqn:Hb; simpl.
  - specialize (IH (j + 1) ltac:(lia) ltac:(lia)).
    destruct (first_clear32 fuel (j + 1) w).
    + destruct IH. split; [lia|done].
    + intros k Hk. destruct (decide (k = j)) as [->|]; [done|]. apply IH. lia.
  - split; [lia|done].
Qed.

Lemma inuse_word l i w : inuse_ok l → zlookup l i = Some w → is_u32 w.
Proof.
  intros [_ Hw] Hi. unfold zlookup in Hi. destruct (0 <=? i); [|done].
  by eapply (Forall_lookup_1 is_u32).
Qed.

(** Storing a word that differs in one bit *)
Lemma ref_used_store l i j w w' x :
  inuse_ok l → zlookup l i = Some w → 0 ≤ j < 32 → 0 ≤ w' →
  (∀ k, 0 ≤ k → Z.testbit w' k = if decide (k = j) then x else Z.testbit w k) →
  let l' := <[Z.to_nat i := w']> l in
  inuse_ok l' ∧
  ∀ k, 0 ≤ k → ref_used l' k = if decide (k = i * 32 + j) then x else ref_used l k.
Proof.
  intros Hl Hi Hj Hw' Hbits l'. pose proof (zlookup_lt_Some _ _ _ Hi).
  pose proof (inuse_word _ _ _ Hl Hi) as Hw. destruct Hl as [Hlen Hwords].
  split; [split|].
  - unfold l'. by rewrite length_insert.
  - apply Forall_insert; [done|]. apply u32_of_testbits; [done|].
    intros k Hk. rewrite Hbits, decide_False by lia. by apply u32_testbit_high.
  - intros k Hk. unfold ref_used, l'.
    pose proof (Z.div_mod k 32). pose proof (Z.mod_pos_bound k 32).
    rewrite zlookup_insert by (try lia; apply Z.div_pos; lia).
    case_decide as Heq.
    + rewrite Hbits by lia. subst i. rewrite Hi. repeat case_decide; (done || lia).
    + case_decide; [|done]. exfalso. apply Heq. subst k.
      apply (Z.div_unique _ 32 i j); lia.
Qed.

(** [allocpageref] sets a clear bit, or finds every bit set. *)
Lemma allocpageref_from_ok F h : inuse_ok (pagerefs_inuse h) → ∀ fuel i,
  i + Z.of_nat fuel = 8 → 0 ≤ i →
  wp F (allocpageref_from fuel i) h
    (λ r h', match r with
     | None => h' = h
     | Some p => 0 ≤ p < NPAGEREFS ∧ ref_used (pagerefs_inuse h) p = false ∧
         ∃ l', h' = set_inuse l' h ∧ inuse_ok l' ∧
           ∀ k, 0 ≤ k → ref_used l' k =
             if decide (k = p) then true else ref_used (pagerefs_inuse h) k
     end) noerr.
Proof.
  intros Hl. pose proof (inuse_len _ Hl) as Hlen.
  induction fuel as [|fuel IH]; intros i Hi Hi0; cbn [allocpageref_from]; wp_steps; [done|].
  destruct (zlookup_lt_is_Some (pagerefs_inuse h) i) as [w Hw]; [lia|].
  pose proof (inuse_word _ _ _ Hl Hw) as Hu. wp_the w by done. wp_if.
  { apply IH; lia. }
  pose proof (first_clear32_spec w 32 0 ltac:(lia) ltac:(lia)) as Hfc.
  destruct (first_clear32 32 0 w) as [j|].
  - destruct Hfc as [Hj Hbit].
    destruct (ref_used_store (pagerefs_inuse h) i j w
      (Z.lor w (u32 (Z.shiftl 1 j))) true) as [Hl' Hbits'];
      [done|done|lia| |intros; apply set_bit32; lia|].
    { apply Z.lor_nonneg. split; [apply Hu|apply u32_range]. }
    wp_the _ by (apply zstore_Some; lia). wp_steps.
    split; [unfold NPAGEREFS; lia|]. split.
    + unfold ref_used. rewrite Z.div_add_l, (Z.div_small j 32), Z.add_0_r, Hw by lia.
      by rewrite Z.add_comm, Z.mod_add, Z.mod_small by lia.
    + eexists. split; [done|]. split; [done|]. done.
  - exfalso.
    assert (w = Z.ones 32) as Hones; [|change (Z.ones 32) with 0xffffffff in Hones; lia].
    apply Z.bits_inj'. intros k Hk. destruct (decide (k < 32)).
    + rewrite Hfc, Z.ones_spec_low by lia. done.
    + rewrite u32_testbit_high, Z.ones_spec_high by (done || lia). done.
Qed.

Lemma freepageref_ok F h p (Q : () → kheap → Prop) E :
  inuse_ok (pagerefs_inuse h) → 0 ≤ p < NPAGEREFS →
  ref_used (pagerefs_inuse h) p = true →
  (∀ l', inuse_ok l' →
     (∀ k, 0 ≤ k → ref_used l' k =
        if decide (k = p) then false else ref_used (pagerefs_inuse h) k) →
     Q tt (set_inuse l' h)) →
  wp F (freepageref p) h Q E.
Proof.
  unfold NPAGEREFS. intros Hl Hp Hused HQ. pose proof (inuse_len _ Hl) as Hlen.
  pose proof (Z.div_mod p 32). pose proof (Z.mod_pos_bound p 32).
  destruct (zlookup_lt_is_Some (pagerefs_inuse h) (p / 32)) as [w Hw]; [lia|].
  pose proof (inuse_word _ _ _ Hl Hw) as Hu.
  unfold ref_used in Hused. rewrite Hw in Hused.
  destruct (ref_used_store (pagerefs_inuse h) (p / 32) (p `mod` 32) w
    (Z.land w (u32 (Z.lnot (u32 (Z.shiftl 1 (p `mod` 32)))))) false) as [Hl' Hbits'];
    [done|done|lia| |intros; apply clear_bit32; (done || lia)|].
  { apply Z.land_nonneg. left. apply Hu. }
  unfold freepageref, NPAGEREFS. wp_assert by lia. wp_the w by done.
  wp_assert by (rewrite land_bit32 by lia; by rewrite Hused).
  wp_the _ by (apply zstore_Some; lia). wp_steps.
  apply HQ; [done|]. intros k Hk. rewrite Hbits' by done.
  by replace (p / 32 * 32 + p `mod` 32) with p by lia.
Qed.
End inuse.

(** ** Linked lists of pages *)

(** What a link holds; [None] when it is not a link of the heap *)
Definition rd (h : kheap) (w : which_list) (guy : link) : option (option Z) :=
  match guy with
  | BaseLink =>
    match w with
    | SamesizeList t => zlookup (sizebases h) t
    | AllList => Some (allbase h)
    end
  | NextLink i => next_of w <$> zlookup (pagerefs h) i
  end.

(** The heap with the link set *)
Definition wr (w : which_list) (guy : link) (p : option Z) (h : kheap) : kheap :=
  match guy with
  | BaseLink =>
    match w with
    | SamesizeList t => set_sizebases (<[Z.to_nat t := p]> (sizebases h)) h
    | AllList => set_allbase p h
    end
  | NextLink i =>
    match zlookup (pagerefs h) i with
    | Some pr => set_pagerefs (<[Z.to_nat i := with_next w p pr]> (pagerefs h)) h
    | None => h
    end
  end.

(** Two names of the same field *)
Definition same_kind (w w' : which_list) : bool :=
  match w, w' with
  | SamesizeList _, SamesizeList _ | AllList, AllList => true
  | _, _ => false
  end.
Definition same_field (w : which_list) (guy : link) (w' : which_list) (guy' : link) : Prop :=
  match guy, guy' with
  | BaseLink, BaseLink => w = w'
  | NextLink i, NextLink j => i = j ∧ same_kind w w' = true
  | _, _ => False
  end.

(** Following the links from [guy] on visits [ps]. *)
Fixpoint linked (h : kheap) (w : which_list) (guy : link) (ps : list Z) : Prop :=
  match ps with
  | [] => rd h w guy = Some None
  | p :: ps => rd h w guy = Some (Some p) ∧ linked h w (NextLink p) ps
  end.

(** The last link before the element that follows [l1] *)
Fixpoint end_link (guy : link) (l1 : list Z) : link :=
  match l1 with [] => guy | p :: l1 => end_link (NextLink p) l1 end.

Section links.
Implicit Types h : kheap.

Lemma read_link_ok F h w guy p (Q : option Z → kheap → Prop) E :
  rd h w guy = Some p → Q p h → wp F (read_link w guy) h Q E.
Proof.
  intros Hrd HQ. unfold read_link. wp_steps. destruct guy as [|i]; simpl in Hrd.
  - destruct w; [by wp_the p by done|]. simplify_eq. by wp_steps.
  - destruct (zlookup (pagerefs h) i) as [pr|] eqn:Hpr; [|done]. simplify_eq/=.
    unfold get_pr. wp_the pr by done. by wp_steps.
Qed.

Lemma get_pr_ok F h i pr (Q : pageref → kheap → Prop) E :
  zlookup (pagerefs h) i = Some pr → Q pr h → wp F (get_pr i) h Q E.
Proof. intros Hpr HQ. unfold get_pr. by wp_the pr by done. Qed.

Lemma set_pr_ok F h i pr pr' (Q : () → kheap → Prop) E :
  zlookup (pagerefs h) i = Some pr →
  Q tt (set_pagerefs (<[Z.to_nat i := pr']> (pagerefs h)) h) →
  wp F (set_pr i pr') h Q E.
Proof.
  intros Hpr%zlookup_lt_Some HQ. unfold set_pr.
  wp_the _ by (by apply zstore_Some). by wp_steps.
Qed.

Lemma write_link_ok F h w guy p p' (Q : () → kheap → Prop) E :
  rd h w guy = Some p → Q tt (wr w guy p' h) → wp F (write_link w guy p') h Q E.
Proof.
  intros Hrd HQ. unfold write_link. wp_steps. destruct guy as [|i]; simpl in *.
  - destruct w as [t|]; [|by wp_steps]. pose proof (zlookup_lt_Some _ _ _ Hrd).
    wp_the _ by (by apply zstore_Some). by wp_steps.
  - destruct (zlookup (pagerefs h) i) as [pr|] eqn:Hpr; [|done].
    wp_steps. eapply get_pr_ok; [done|]. by eapply set_pr_ok.
Qed.

Lemma rd_wr_same h w guy p p0 : rd h w guy = Some p0 → rd (wr w guy p h) w guy = Some p.
Proof.
  destruct guy as [|i]; simpl.
  - destruct w; simpl; [|done]. intros ?%zlookup_lt_Some. by apply zlookup_insert_eq.
  - destruct (zlookup (pagerefs h) i) as [pr|] eqn:Hpr; [|done]. intros _. simpl.
    rewrite zlookup_insert_eq by (by eapply zlookup_lt_Some). by destruct w.
Qed.

Lemma rd_wr_other h w guy p p0 w' guy' :
  rd h w guy = Some p0 → ¬ same_field w guy w' guy' →
  rd (wr w guy p h) w' guy' = rd h w' guy'.
Proof.
  intros Hrd Hne. destruct guy as [|i]; simpl in *.
  - destruct w as [t|], guy' as [|j]; try done; destruct w' as [t'|]; try done; simpl.
    apply zlookup_lt_Some in Hrd. apply zlookup_insert_ne; [|lia].
    intros ->. by apply Hne.
  - destruct (zlookup (pagerefs h) i) as [pr|] eqn:Hpr; [|done].
    pose proof (zlookup_lt_Some _ _ _ Hpr).
    destruct guy' as [|j]; [done|]. simpl. destruct (decide (i = j)) as [<-|].
    + rewrite zlookup_insert_eq, Hpr by done. destruct w, w'; simpl in *; try done; by destruct Hne.
    + by rewrite zlookup_insert_ne by lia.
Qed.

(** A list is not affected by a write to a field it does not use. *)
Lemma linked_wr_other h w guy p p0 w' guy' ps :
  rd h w guy = Some p0 → ¬ same_field w guy w' guy' →
  (∀ i, i ∈ ps → ¬ same_field w guy w' (NextLink i)) →
  linked h w' guy' ps → linked (wr w guy p h) w' guy' ps.
Proof.
  intros Hrd. revert guy'. induction ps as [|i ps IH]; intros guy' Hg Hps; simpl.
  - intros Hl. by erewrite rd_wr_other.
  - intros [Hi Hl]. erewrite rd_wr_other by done. split; [done|].
    apply IH; [|by set_solver|done]. apply Hps. by left.
Qed.

Lemma linked_rd_end h w guy l1 p l2 :
  linked h w guy (l1 ++ p :: l2) →
  rd h w (end_link guy l1) = Some (Some p) ∧ linked h w (NextLink p) l2.
Proof.
  revert guy. induction l1 as [|i l1 IH]; intros guy; simpl; [done|].
  intros [_ Hl]. by apply IH.
Qed.

Lemma linked_next h w guy p l2 :
  linked h w (NextLink p) l2 →
  rd h w guy = Some (head l2) → linked h w guy l2.
Proof. destruct l2 as [|q l2]; simpl; [done|]. by intros [_ ?]. Qed.

Lemma rd_next_head h w p l2 : linked h w (NextLink p) l2 → rd h w (NextLink p) = Some (head l2).
Proof. destruct l2 as [|q l2]; simpl; [done|]. by intros [? _]. Qed.

(** [unlink] makes the link before [pr] skip it. *)
Lemma unlink_ok F h w pr l2 (Q : () → kheap → Prop) E : ∀ fuel guy l1,
  (length l1 < fuel)%nat → pr ∉ l1 →
  linked h w guy (l1 ++ pr :: l2) →
  Q tt (wr w (end_link guy l1) (head l2) h) →
  wp F (unlink fuel w guy pr) h Q E.
Proof.
  induction fuel as [|fuel IH]; intros guy l1 Hf Hpr Hl HQ; [lia|]. cbn [unlink].
  destruct l1 as [|x l1]; simpl in *.
  - destruct Hl as [Hg Hl]. wp_steps. eapply read_link_ok; [done|]. cbv beta iota. rewrite Z.eqb_refl.
    pose proof (rd_next_head _ _ _ _ Hl) as Hhd. simpl in Hhd.
    destruct (zlookup (pagerefs h) pr) as [p|] eqn:Hp; [|done]. simplify_eq/=.
    wp_steps. eapply get_pr_ok; [done|]. eapply write_link_ok; [done|]. congruence.
  - destruct Hl as [Hg Hl]. wp_steps. eapply read_link_ok; [done|]. cbv beta iota.
    destruct (Z.eqb_spec x pr); [set_solver|].
    eapply (IH (NextLink x) l1); [lia|set_solver|done|done].
Qed.

(** Afterwards the list is [l1 ++ l2]. *)
Lemma linked_unlinked h w guy l1 pr l2 :
  linked h w guy (l1 ++ pr :: l2) → NoDup (l1 ++ pr :: l2) →
  (∀ i, i ∈ l1 ++ pr :: l2 → guy ≠ NextLink i) →
  linked (wr w (end_link guy l1) (head l2) h) w guy (l1 ++ l2).
Proof.
  revert guy. induction l1 as [|x l1 IH]; intros guy; simpl.
  - intros [Hg Hl] [Hnd1 Hnd2]%list.NoDup_cons Hguy.
    assert (linked (wr w guy (head l2) h) w (NextLink pr) l2) as Hl'.
    { eapply linked_wr_other; [done| | |done].
      - destruct guy as [|j]; [by intros []|]. intros [-> _]. by apply (Hguy pr); [left|].
      - intros i Hi. destruct guy as [|j]; [by intros []|]. intros [-> _].
        by apply (Hguy i); [right|]. }
    eapply linked_next; [done|]. by eapply rd_wr_same.
  - intros [Hg Hl] [Hnd1 Hnd2]%list.NoDup_cons Hguy. split.
    + destruct (linked_rd_end _ _ _ _ _ _ Hl) as [Hend _].
      erewrite rd_wr_other; [done|done|].
      assert (∀ l g, (∀ i, g = NextLink i → i ∈ x :: l1 ++ pr :: l2) →
        (∀ i, i ∈ l → i ∈ l1) →
        ∀ i, end_link g l = NextLink i → i ∈ x :: l1 ++ pr :: l2) as Hin.
      { induction l as [|y l IHl]; intros g Hg' Hsub i; simpl; [apply Hg'|].
        apply IHl; [|set_solver]. intros i' [= <-]. set_solver. }
      destruct (end_link (NextLink x) l1) as [|j] eqn:Hj.
      * exfalso. clear -Hj. revert x Hj. induction l1; simpl; [done|]. intros x. apply IHl1.
      * destruct guy as [|k]; [by intros []|]. intros [-> _].
        apply (Hguy k); [|done]. apply (Hin l1 (NextLink x)); [|done|done].
        intros i [= <-]. by left.
    + apply IH; [done|done|]. intros i Hi [= ->]. done.
Qed.
End links.

(** ** The free list of a page *)

(** Offsets of blocks of type [t] *)
Definition off_ok (t o : Z) : Prop := 0 ≤ o < PAGE_SIZE ∧ o `mod` bsize t = 0.

#[global] Instance off_ok_dec t o : Decision (off_ok t o).
Proof. unfold off_ok. apply _. Defined.

(** The free blocks at offsets [fs] of the page [pa] are linked in that order. *)
Fixpoint free_chain (mm : gmap Z Z) (pa : Z) (fs : list Z) : Prop :=
  match fs with
  | [] => True
  | o :: fs =>
    mm !! (pa + o) = Some (match fs with [] => 0 | o' :: _ => pa + o' end) ∧
    free_chain mm pa fs
  end.

Section free_lists.

Lemma free_chain_agree mm mm' pa fs :
  (∀ o, o ∈ fs → mm' !! (pa + o) = mm !! (pa + o)) →
  free_chain mm pa fs → free_chain mm' pa fs.
Proof.
  induction fs as [|o fs IH]; intros Hag; simpl; [done|]. intros [Ho Hfs].
  rewrite Hag by set_solver. split; [done|]. apply IH; [set_solver|done].
Qed.

Lemma free_chain_cons mm pa o fs :
  mm !! (pa + o) = Some (match fs with [] => 0 | o' :: _ => pa + o' end) →
  free_chain mm pa fs → free_chain mm pa (o :: fs).
Proof. done. Qed.

Lemma off_ok_index t o : type_ok t → off_ok t o →
  o = o / bsize t * bsize t ∧ 0 ≤ o / bsize t < nblocks t.
Proof.
  intros Ht [Ho Hm]. pose proof (bsize_bounds _ Ht). pose proof (nblocks_bsize _ Ht) as Hn.
  pose proof (Z.div_mod o (bsize t) ltac:(lia)) as Hdm. split; [lia|].
  split; [apply Z.div_pos; lia|]. apply Z.div_lt_upper_bound; lia.
Qed.

(** Blocks of a page do not overlap. *)
Lemma off_ok_apart t o o' : type_ok t → off_ok t o → off_ok t o' → o ≠ o' →
  o + bsize t ≤ o' ∨ o' + bsize t ≤ o.
Proof.
  intros Ht Ho Ho' Hne. pose proof (bsize_bounds _ Ht).
  destruct (off_ok_index _ _ Ht Ho) as [Heq _], (off_ok_index _ _ Ht Ho') as [Heq' _].
  set (i := o / bsize t) in *. set (j := o' / bsize t) in *.
  assert (i ≠ j) by congruence. clearbody i j. destruct (decide (i < j)).
  - left. pose proof (Z.mul_le_mono_nonneg_r (i + 1) j (bsize t)). lia.
  - right. pose proof (Z.mul_le_mono_nonneg_r (j + 1) i (bsize t)). lia.
Qed.

Lemma off_ok_end t o : type_ok t → off_ok t o → o + bsize t ≤ PAGE_SIZE.
Proof.
  intros Ht Ho. pose proof (bsize_bounds _ Ht). pose proof (nblocks_bsize _ Ht).
  destruct (off_ok_index _ _ Ht Ho) as [Heq Hi]. nia.
Qed.

(** A page has [nblocks] blocks. *)
Lemma off_ok_count t fs :
  type_ok t → NoDup fs → Forall (off_ok t) fs → Z.of_nat (length fs) ≤ nblocks t.
Proof.
  intros Ht Hnd Hall. pose proof (nblocks_bounds _ Ht).
  assert (NoDup ((λ o, o / bsize t) <$> fs)) as Hnd'.
  { apply NoDup_fmap_2_strong; [|done]. intros x y Hx Hy Heq.
    rewrite list.Forall_forall in Hall.
    destruct (off_ok_index t x Ht (Hall x Hx)) as [-> _].
    destruct (off_ok_index t y Ht (Hall y Hy)) as [-> _]. by rewrite Heq. }
  assert ((λ o, o / bsize t) <$> fs ⊆+ seqZ 0 (nblocks t)) as Hsub.
  { apply NoDup_submseteq; [done|]. intros i (o & -> & Ho)%list_elem_of_fmap.
    rewrite list.Forall_forall in Hall.
    destruct (off_ok_index t o Ht (Hall o Ho)) as [_ Hi]. apply elem_of_seqZ. lia. }
  apply submseteq_length in Hsub. rewrite length_fmap, length_seqZ in Hsub. lia.
Qed.

(** When the list has that many, it has them all. *)
Lemma off_ok_full t fs o :
  type_ok t → NoDup fs → Forall (off_ok t) fs → Z.of_nat (length fs) = nblocks t →
  off_ok t o → o ∈ fs.
Proof.
  intros Ht Hnd Hall Hlen Ho. destruct (decide (o ∈ fs)) as [|Hout]; [done|]. exfalso.
  assert (Z.of_nat (length (o :: fs)) ≤ nblocks t) as Hle.
  { apply off_ok_count; [done|by constructor|by constructor]. }
  simpl in Hle. lia.
Qed.

(** The list of a fresh page, as the loop builds it: highest block first *)
Fixpoint fresh_list (sz : Z) (n : nat) : list Z :=
  match n with O => [] | S n => Z.of_nat n * sz :: fresh_list sz n end.

Lemma elem_of_fresh_list sz n o :
  o ∈ fresh_list sz n ↔ ∃ i, 0 ≤ i < Z.of_nat n ∧ o = i * sz.
Proof.
  induction n as [|n IH]; simpl.
  - split; [by intros ?%elem_of_nil|]. intros (i & ? & _). lia.
  - rewrite elem_of_cons, IH. split.
    + intros [->|(i & Hi & ->)]; [exists (Z.of_nat n)|exists i]; (split; [lia|done]).
    + intros (i & Hi & ->). destruct (decide (i = Z.of_nat n)) as [->|]; [by left|].
      right. exists i. split; [lia|done].
Qed.

Lemma fresh_list_ok t n :
  type_ok t → Z.of_nat n ≤ nblocks t →
  NoDup (fresh_list (bsize t) n) ∧ Forall (off_ok t) (fresh_list (bsize t) n) ∧
  length (fresh_list (bsize t) n) = n.
Proof.
  intros Ht Hn. pose proof (bsize_bounds _ Ht). pose proof (nblocks_bsize _ Ht) as Hp.
  split_and!.
  - clear Hn. induction n as [|n IH]; simpl; constructor; [|done].
    intros (i & Hi & Heq)%elem_of_fresh_list. nia.
  - apply list.Forall_forall. intros o (i & Hi & ->)%elem_of_fresh_list.
    split; [|apply Z.mod_mul; lia]. split; [nia|]. nia.
  - clear Hn. induction n; simpl; [done|]. by f_equal.
Qed.

Lemma store_word_ok F h a w (Q : () → kheap → Prop) E :
  Q tt (set_mem (<[a := w]> (mem h)) h) → wp F (store_word a w) h Q E.
Proof. intros HQ. unfold store_word. by wp_steps. Qed.

(** The loop that links the blocks of a fresh page *)
Lemma build_freelist_ok F t pa (Q : Z → kheap → Prop) E : type_ok t → page_addr pa →
  ∀ fuel n h,
  Z.of_nat (S n) + Z.of_nat fuel ≤ nblocks t →
  free_chain (mem h) pa (fresh_list (bsize t) (S n)) →
  (∀ mm, free_chain mm pa (fresh_list (bsize t) (S n + fuel)) →
     (∀ a, ¬ pa ≤ a < pa + PAGE_SIZE → mm !! a = mem h !! a) →
     Q (pa + (Z.of_nat n + Z.of_nat fuel) * bsize t) (set_mem mm h)) →
  wp F (build_freelist fuel (Z.of_nat (S n)) pa (bsize t) (pa + Z.of_nat n * bsize t)) h Q E.
Proof.
  intros Ht Hpa. pose proof (bsize_bounds _ Ht). pose proof (nblocks_bsize _ Ht) as Hnb.
  destruct Hpa as (_ & Hlo & Hhi). unfold MIPS_KSEG0, MIPS_KSEG1, PAGE_SIZE in *.
  induction fuel as [|fuel IH]; intros n h Hn Hch HQ; cbn [build_freelist].
  - wp_steps. specialize (HQ (mem h)). rewrite Nat.add_0_r in HQ.
    replace (Z.of_nat n + Z.of_nat 0) with (Z.of_nat n) in HQ by lia.
    destruct h. apply HQ; done.
  - assert (0 ≤ (Z.of_nat (S n)) * bsize t < 4096) by nia.
    assert (0 ≤ (Z.of_nat (S n) - 1) * bsize t < 4096) by nia.
    wp_steps. rewrite !u32_small by lia. apply store_word_ok. wp_steps.
    apply wp_assert; [apply negb_true_iff, Z.eqb_neq; nia|].
    replace (Z.of_nat (S n) + 1) with (Z.of_nat (S (S n))) by lia.
    apply (IH (S n)); [lia| |].
    + change (fresh_list (bsize t) (S (S n)))
        with (Z.of_nat (S n) * bsize t :: fresh_list (bsize t) (S n)).
      apply free_chain_cons; cbn [mem set_mem].
      * rewrite lookup_insert_eq. f_equal. cbn [fresh_list]. lia.
      * eapply free_chain_agree; [|exact Hch].
        intros o (i & Hi & ->)%(elem_of_fresh_list (bsize t) (S n)).
        apply lookup_insert_ne. nia.
    + intros mm Hmm Hout. replace (S n + S fuel)%nat with (S (S n) + fuel)%nat in HQ by lia.
      replace (Z.of_nat n + Z.of_nat (S fuel)) with (Z.of_nat (S n) + Z.of_nat fuel) in HQ by lia.
      apply HQ; [done|]. intros a Ha. rewrite Hout by done. cbn [mem set_mem].
      apply lookup_insert_ne. nia.
Qed.

(** [fill_deadbeef] writes inside the block. *)
Lemma fill_deadbeef_ok F h p sz (Q : () → kheap → Prop) E :
  0 ≤ p → 0 ≤ sz → p + sz < 2 ^ 32 →
  (∀ mm, (∀ a, ¬ p ≤ a < p + sz → mm !! a = mem h !! a) → Q tt (set_mem mm h)) →
  wp F (fill_deadbeef p sz) h Q E.
Proof.
  intros Hp Hsz Hend HQ. unfold fill_deadbeef.
  assert (4 * (sz / 4) ≤ sz) by (apply Z.mul_div_le; lia).
  apply (wp_for_range _ _ (λ _ h', ∃ mm, h' = set_mem mm h ∧
    ∀ a, ¬ p ≤ a < p + sz → mm !! a = mem h !! a)).
  - apply Z.div_pos; lia.
  - intros i h' Hi (mm & -> & Hmm). apply store_word_ok. eexists. split; [done|].
    intros a Ha. cbn [mem set_mem]. rewrite u32_small by lia.
    rewrite lookup_insert_ne by lia. by apply Hmm.
  - exists (mem h). by destruct h.
  - intros h' (mm & -> & Hmm). by apply HQ.
Qed.
End free_lists.
