(* ===== verification/KheapProof.v ===== *)
(** * The kernel heap meets its contract

    The invariant of the heap of Kheap.v, the proof that [kmalloc] and [kfree]
    preserve it, and the instance of the heap contract of KMem.v: with it every
    theorem about a client of the heap (arrays, queues, bitmaps) holds on the
    code of kheap.c over the code of the coremap. *)

From Stdlib Require Import ZArith Lia.
From stdpp Require Import base list gmap numbers.
From S2P Require Import Prelude Cpu KPages KMem Kheap KheapLists.

Local Open Scope Z_scope.

(** ** The invariant *)

(** A page of small blocks: its reference, its address, the type of its blocks,
    and the offsets of the free ones in the order of the free list *)
Record gpage := MkG {
  g_pr : Z;
  g_pa : Z;
  g_type : Z;
  g_free : list Z;
}.

#[global] Instance gpage_eq_dec : EqDecision gpage.
Proof. solve_decision. Defined.

Definition with_free (fs : list Z) (g : gpage) : gpage :=
  MkG (g_pr g) (g_pa g) (g_type g) fs.

Definition first_off (fs : list Z) : Z :=
  match fs with [] => INVALID_OFFSET | o :: _ => o end.

(** What the reference of the page says *)
Record ref_ok (p : pageref) (g : gpage) : Prop := {
  ro_pab : pageaddr_and_blocktype p = g_pa g + g_type g;
  ro_nfree : nfree p = Z.of_nat (length (g_free g));
  ro_off : freelist_offset p = first_off (g_free g);
}.

Record page_ok (h : kheap) (g : gpage) : Prop := {
  po_type : type_ok (g_type g);
  po_pa : page_addr (g_pa g);
  po_ref : ∃ p, zlookup (pagerefs h) (g_pr g) = Some p ∧ ref_ok p g;
  po_nodup : NoDup (g_free g);
  po_offs : Forall (off_ok (g_type g)) (g_free g);
  po_chain : free_chain (mem h) (g_pa g) (g_free g);
}.

(** The pages [gs], in the order of the list of all pages; [extra] are
    references in use whose page is not in the lists. *)
Record kh_inv (h : kheap) (gs : list gpage) (extra : list Z) : Prop := {
  ki_refs : length (pagerefs h) = 256%nat;
  ki_inuse : inuse_ok (pagerefs_inuse h);
  ki_used i : 0 ≤ i < NPAGEREFS →
    ref_used (pagerefs_inuse h) i = true ↔ i ∈ extra ++ (g_pr <$> gs);
  ki_bases : length (sizebases h) = 8%nat;
  ki_prs : NoDup (g_pr <$> gs);
  ki_pas : NoDup (g_pa <$> gs);
  ki_all : linked h AllList BaseLink (g_pr <$> gs);
  ki_same t : type_ok t →
    linked h (SamesizeList t) BaseLink (g_pr <$> filter (λ g, g_type g = t) gs);
  ki_pages g : g ∈ gs → page_ok h g;
}.

(** Membership in lists put together *)
Ltac in_app := rewrite ?elem_of_app, ?elem_of_cons in *; tauto.

Section pages.
Implicit Types h : kheap.

Lemma ref_ok_page p g : type_ok (g_type g) → page_addr (g_pa g) → ref_ok p g →
  PR_PAGEADDR p = g_pa g ∧ PR_BLOCKTYPE p = g_type g.
Proof.
  intros Ht Hpa [Hpab _ _]. unfold PR_PAGEADDR, PR_BLOCKTYPE. rewrite Hpab.
  by apply pab_split.
Qed.

(** Different pages do not overlap. *)
Lemma pages_apart pa pa' : page_addr pa → page_addr pa' → pa ≠ pa' →
  pa + PAGE_SIZE ≤ pa' ∨ pa' + PAGE_SIZE ≤ pa.
Proof.
  intros Hpa Hpa' Hne. destruct (page_addr_eq _ Hpa) as [q ->].
  destruct (page_addr_eq _ Hpa') as [q' ->]. unfold PAGE_SIZE in *. lia.
Qed.

Lemma kh_inv_pr_range h gs extra g : kh_inv h gs extra → g ∈ gs → 0 ≤ g_pr g < NPAGEREFS.
Proof.
  intros Hinv Hg. destruct (po_ref _ _ (ki_pages _ _ _ Hinv g Hg)) as (p & Hp & _).
  apply zlookup_lt_Some in Hp. rewrite (ki_refs _ _ _ Hinv) in Hp. done.
Qed.

(** There are at most 256 pages. *)
Lemma kh_inv_length h gs extra : kh_inv h gs extra → (length gs ≤ 256)%nat.
Proof.
  intros Hinv. assert (g_pr <$> gs ⊆+ seqZ 0 NPAGEREFS) as Hsub.
  { apply NoDup_submseteq; [apply Hinv|]. intros i (g & -> & Hg)%list_elem_of_fmap.
    apply elem_of_seqZ. pose proof (kh_inv_pr_range _ _ _ _ Hinv Hg). lia. }
  apply submseteq_length in Hsub. by rewrite length_fmap, length_seqZ in Hsub.
Qed.

(** Links depend on the bases and on the link fields only. *)
Lemma linked_agree h h' w guy guy' ps :
  rd h' w guy' = rd h w guy →
  (∀ i, i ∈ ps → rd h' w (NextLink i) = rd h w (NextLink i)) →
  linked h w guy ps → linked h' w guy' ps.
Proof.
  revert guy guy'. induction ps as [|p ps IH]; intros guy guy' Hg Hps; simpl; [congruence|].
  intros [Hp Hl]. split; [congruence|].
  apply (IH (NextLink p)); [apply Hps; by left| |done]. intros i Hi. apply Hps. by right.
Qed.

Lemma NoDup_middle_ne {A B} (f : A → B) l1 x l2 y :
  NoDup (f <$> l1 ++ x :: l2) → y ∈ l1 ∨ y ∈ l2 → f y ≠ f x.
Proof.
  rewrite fmap_app, fmap_cons. intros (_ & H1 & [H2 _]%list.NoDup_cons)%list.NoDup_app Hin Heq.
  destruct Hin as [Hin|Hin].
  - apply (H1 (f y)); [by apply list_elem_of_fmap_2|rewrite Heq; by left].
  - apply H2. rewrite <- Heq. by apply list_elem_of_fmap_2.
Qed.

Lemma NoDup_fmap_inj_on {A B} (f : A → B) (l : list A) x y :
  NoDup (f <$> l) → x ∈ l → y ∈ l → f x = f y → x = y.
Proof.
  induction l as [|z l IH]; intros Hnd Hx Hy Heq; [by apply elem_of_nil in Hx|].
  rewrite fmap_cons in Hnd. apply list.NoDup_cons in Hnd as [Hz Hnd].
  apply elem_of_cons in Hx as [->|Hx], Hy as [->|Hy]; auto.
  - destruct Hz. rewrite Heq. by apply list_elem_of_fmap_2.
  - destruct Hz. rewrite <- Heq. by apply list_elem_of_fmap_2.
Qed.

(** Replacing the free list of one page: its reference keeps its links, and
    memory changes inside the page only. *)
Lemma kh_inv_update h l1 g l2 extra p p' fs mm :
  kh_inv h (l1 ++ g :: l2) extra →
  zlookup (pagerefs h) (g_pr g) = Some p →
  next_samesize p' = next_samesize p → next_all p' = next_all p →
  ref_ok p' (with_free fs g) →
  NoDup fs → Forall (off_ok (g_type g)) fs → free_chain mm (g_pa g) fs →
  (∀ a, ¬ g_pa g ≤ a < g_pa g + PAGE_SIZE → mm !! a = mem h !! a) →
  kh_inv (set_mem mm (set_pagerefs (<[Z.to_nat (g_pr g) := p']> (pagerefs h)) h))
    (l1 ++ with_free fs g :: l2) extra.
Proof.
  intros Hinv Hp Hsame Hall Hp' Hnd Hoff Hch Hmm.
  pose proof (zlookup_lt_Some _ _ _ Hp) as Hlt.
  set (h' := set_mem _ _).
  assert (∀ w guy, rd h' w guy = rd h w guy) as Hrd.
  { intros w [|i]; simpl; [done|]. destruct (decide (i = g_pr g)) as [->|].
    - rewrite zlookup_insert_eq, Hp by done. simpl. destruct w; simpl; congruence.
    - by rewrite zlookup_insert_ne by lia. }
  assert (g_pr <$> l1 ++ with_free fs g :: l2 = g_pr <$> l1 ++ g :: l2) as Hprs
    by (by rewrite !fmap_app).
  assert (g_pa <$> l1 ++ with_free fs g :: l2 = g_pa <$> l1 ++ g :: l2) as Hpas
    by (by rewrite !fmap_app).
  pose proof (ki_prs _ _ _ Hinv) as Hndpr. pose proof (ki_pas _ _ _ Hinv) as Hndpa.
  split; simpl; rewrite ?Hprs, ?Hpas; try apply Hinv.
  - rewrite length_insert. apply Hinv.
  - apply (linked_agree h _ _ BaseLink); [done|done|apply Hinv].
  - intros t Ht. assert (g_pr <$> filter (λ g, g_type g = t) (l1 ++ with_free fs g :: l2)
      = g_pr <$> filter (λ g, g_type g = t) (l1 ++ g :: l2)) as ->.
    { rewrite !list.filter_app, !filter_cons, !fmap_app. f_equal.
      simpl. by case_decide. }
    apply (linked_agree h _ _ BaseLink); [done|done|by apply Hinv].
  - intros g' Hg'. apply elem_of_app in Hg'. rewrite elem_of_cons in Hg'.
    destruct (decide (g' = with_free fs g)) as [->|Hne].
    { destruct (ki_pages _ _ _ Hinv g) as [Ht Hpa _ _ _ _];
        [apply elem_of_app; right; by left|].
      split; simpl; try done. exists p'. by rewrite zlookup_insert_eq. }
    assert (g' ∈ l1 ∨ g' ∈ l2) as Hin by (destruct Hg' as [?|[?|?]]; by auto).
    assert (g' ∈ l1 ++ g :: l2) as Hin'
      by (rewrite elem_of_app, elem_of_cons; destruct Hin; auto).
    assert (g_pr g' ≠ g_pr g ∧ g_pa g' ≠ g_pa g) as [Hprne Hpane].
    { split; by eapply NoDup_middle_ne. }
    destruct (ki_pages _ _ _ Hinv g' Hin') as [Ht Hpa Href Hnd' Hoff' Hch'].
    destruct (ki_pages _ _ _ Hinv g) as [_ Hpag _ _ _ _];
      [apply elem_of_app; right; by left|].
    split; try done.
    + simpl. by rewrite zlookup_insert_ne by lia.
    + eapply free_chain_agree; [|done]. intros o Ho. simpl. apply Hmm.
      rewrite list.Forall_forall in Hoff'. destruct (Hoff' o Ho) as [Hor _].
      destruct (pages_apart _ _ Hpa Hpag Hpane); lia.
Qed.
End pages.

(** ** The operations on pages *)

Section page_operations.
Context (F : fault → Prop).
Implicit Types h : kheap.

(** Taking the first block of a page's free list *)
Lemma doalloc_ok h l1 g l2 extra o fs (Q : Z → kheap → Prop) E :
  kh_inv h (l1 ++ g :: l2) extra → g_free g = o :: fs →
  (∀ h', kh_inv h' (l1 ++ with_free fs g :: l2) extra → Q (g_pa g + o) h') →
  wp F (doalloc (g_pr g)) h Q E.
Proof.
  intros Hinv Hfree HQ.
  destruct (ki_pages _ _ _ Hinv g) as [Ht Hpa (p & Hp & Href) Hnd Hoff Hch];
    [apply elem_of_app; right; by left|].
  destruct (ref_ok_page _ _ Ht Hpa Href) as [Hpage _].
  pose proof (off_ok_count _ _ Ht Hnd Hoff) as Hcount. pose proof (nblocks_bounds _ Ht).
  destruct Href as [Hpab Hnf Hfo]. rewrite Hfree in *. cbn [length first_off] in Hnf, Hfo, Hcount.
  apply list.NoDup_cons in Hnd as [Hno Hnd]. apply list.Forall_cons in Hoff as [Ho Hoff].
  destruct Hch as [Hhead Hch]. pose proof Ho as [Hor _].
  pose proof Hpa as (_ & Hlo & Hhi). unfold MIPS_KSEG0, MIPS_KSEG1, PAGE_SIZE in Hlo, Hhi, Hor.
  unfold doalloc. wp_steps. eapply get_pr_ok; [done|]. wp_steps.
  apply wp_assert; [unfold PAGE_SIZE; lia|]. wp_steps. rewrite Hpage, Hfo.
  rewrite u32_small by lia. unfold load_word. wp_steps.
  eapply wp_the; [exact Hhead|]. cbv beta.
  rewrite Hnf, (u16_small (Z.of_nat (S (length fs)) - 1)) by lia.
  assert (∀ p', next_samesize p' = next_samesize p → next_all p' = next_all p →
    ref_ok p' (with_free fs g) →
    kh_inv (set_pagerefs (<[Z.to_nat (g_pr g) := p']> (pagerefs h)) h)
      (l1 ++ with_free fs g :: l2) extra) as Hup.
  { intros p' H1 H2 H3.
    pose proof (kh_inv_update h l1 g l2 extra p p' fs (mem h) Hinv Hp H1 H2 H3 Hnd Hoff Hch
      (λ _ _, eq_refl)) as Hres. by destruct h. }
  destruct fs as [|o' fs].
  - simpl (negb _). cbv iota. wp_steps. apply wp_assert; [done|]. wp_steps.
    eapply set_pr_ok; [done|]. wp_steps. by apply HQ, Hup.
  - apply list.Forall_cons in Hoff as [[Hor' _] _]. unfold PAGE_SIZE in Hor'.
    destruct (Z.eqb_spec (g_pa g + o') 0); [lia|]. simpl (negb _). cbv iota.
    replace (g_pa g + o' - g_pa g) with o' by lia.
    rewrite (u32_small o'), (u16_small o') by lia. cbn [length] in *.
    wp_steps. apply wp_assert; [apply Z.ltb_lt; clear; lia|]. wp_steps. apply wp_assert; [unfold PAGE_SIZE; lia|].
    eapply set_pr_ok; [done|]. wp_steps. apply HQ, Hup; [done..|]. split; simpl; [done|lia|done].
Qed.

Lemma find_free_ok h gs extra t (Q : option Z → kheap → Prop) E :
  kh_inv h gs extra → type_ok t →
  (∀ g, g ∈ gs → g_type g = t → g_free g ≠ [] → Q (Some (g_pr g)) h) →
  Q None h →
  ∀ fuel guy qs, (length qs ≤ fuel)%nat →
  (∀ g, g ∈ qs → g ∈ gs ∧ g_type g = t) →
  linked h (SamesizeList t) guy (g_pr <$> qs) →
  wp F (find_free fuel t (head (g_pr <$> qs))) h Q E.
Proof.
  intros Hinv Ht HSome HNone fuel guy qs Hf Hqs Hl. revert fuel guy Hf Hqs Hl.
  induction qs as [|g qs IH]; intros fuel guy Hf Hqs Hl.
  { by destruct fuel. }
  destruct fuel as [|fuel]; simpl in Hf; [lia|]. destruct Hl as [_ Hl].
  destruct (Hqs g) as [Hg Hgt]; [by left|].
  destruct (ki_pages _ _ _ Hinv g Hg) as [Htg Hpa (p & Hp & Href) _ _ _].
  destruct (ref_ok_page _ _ Htg Hpa Href) as [_ Hty]. destruct Href as [_ Hnf _].
  cbn [fmap list_fmap head find_free]. wp_steps. eapply get_pr_ok; [done|]. wp_steps.
  apply wp_assert; [lia|]. wp_if; wp_steps.
  - apply HSome; [done|done|]. intros Hnil. rewrite Hnil in Hnf. simpl in Hnf. lia.
  - pose proof (rd_next_head _ _ _ _ Hl) as Hhd. simpl in Hhd. rewrite Hp in Hhd.
    simplify_eq/=. rewrite Hhd. eapply (IH fuel (NextLink (g_pr g))); [lia| |done].
    intros g' Hg'. apply Hqs. by right.
Qed.

Lemma find_page_ok h gs extra a (Q : option Z → kheap → Prop) E :
  kh_inv h gs extra → 0 ≤ a →
  (∀ g, g ∈ gs → g_pa g ≤ a < g_pa g + PAGE_SIZE → Q (Some (g_pr g)) h) →
  ∀ fuel guy qs, (length qs ≤ fuel)%nat →
  (∀ g, g ∈ qs → g ∈ gs) →
  linked h AllList guy (g_pr <$> qs) →
  ((∀ g, g ∈ qs → ¬ g_pa g ≤ a < g_pa g + PAGE_SIZE) → Q None h) →
  wp F (find_page fuel a (head (g_pr <$> qs))) h Q E.
Proof.
  intros Hinv Ha HSome fuel guy qs Hf Hqs Hl. revert fuel guy Hf Hqs Hl.
  induction qs as [|g qs IH]; intros fuel guy Hf Hqs Hl HNone.
  { destruct fuel; apply wp_ret, HNone; set_solver. }
  destruct fuel as [|fuel]; simpl in Hf; [lia|]. destruct Hl as [_ Hl].
  assert (g ∈ gs) as Hg by (apply Hqs; by left).
  destruct (ki_pages _ _ _ Hinv g Hg) as [Htg Hpa (p & Hp & Href) _ _ _].
  destruct (ref_ok_page _ _ Htg Hpa Href) as [Hpage Hty].
  pose proof Hpa as (_ & Hlo & Hhi).
  cbn [fmap list_fmap head find_page]. wp_steps. eapply get_pr_ok; [done|]. wp_steps.
  apply wp_assert; [rewrite Hty; unfold type_ok, NSIZES in *; lia|].
  rewrite Hpage. unfold PAGE_SIZE, MIPS_KSEG0, MIPS_KSEG1 in *. rewrite u32_small by lia.
  wp_if; wp_steps; [apply HSome; [done|lia]|].
  pose proof (rd_next_head _ _ _ _ Hl) as Hhd. simpl in Hhd. rewrite Hp in Hhd.
  simplify_eq/=. rewrite Hhd. eapply (IH fuel (NextLink (g_pr g))); [lia| |done|].
  - intros g' Hg'. apply Hqs. by right.
  - intros Hnone. apply HNone. intros g' [->|Hg']%elem_of_cons; [lia|by apply Hnone].
Qed.
End page_operations.

Section list_operations.
Context (F : fault → Prop).
Implicit Types h : kheap.

(** The page of a fresh reference, with all its blocks free *)
Definition fresh_page (pr pa t : Z) : gpage :=
  MkG pr pa t (fresh_list (bsize t) (Z.to_nat (nblocks t))).

Lemma setup_links h gs pr pa t p mm :
  kh_inv h gs [pr] → 0 ≤ pr < NPAGEREFS → pr ∉ g_pr <$> gs →
  type_ok t → page_addr pa → pa ∉ g_pa <$> gs →
  zlookup (sizebases h) t = Some (next_samesize p) → next_all p = allbase h →
  ref_ok p (fresh_page pr pa t) →
  free_chain mm pa (g_free (fresh_page pr pa t)) →
  (∀ a, ¬ pa ≤ a < pa + PAGE_SIZE → mm !! a = mem h !! a) →
  kh_inv (MkKheap (<[Z.to_nat pr := p]> (pagerefs h)) (pagerefs_inuse h)
            (<[Z.to_nat t := Some pr]> (sizebases h)) (Some pr) mm)
    (fresh_page pr pa t :: gs) [].
Proof.
  intros Hinv Hpr Hprn Ht Hpa Hpan Hbase Hall Href Hch Hmm.
  pose proof (ki_refs _ _ _ Hinv) as Hlr. pose proof (zlookup_lt_Some _ _ _ Hbase) as Hlt.
  unfold NPAGEREFS in Hpr. set (h' := MkKheap _ _ _ _ _).
  assert (∀ w i, i ∈ g_pr <$> gs → rd h' w (NextLink i) = rd h w (NextLink i)) as Hnext.
  { intros w i Hi. simpl. rewrite zlookup_insert_ne; [done|by intros ->|lia]. }
  assert (zlookup (pagerefs h') pr = Some p) as Hp by (apply zlookup_insert_eq; lia).
  assert (∀ P `{!∀ g, Decision (P g)} i,
    i ∈ g_pr <$> filter P gs → i ∈ g_pr <$> gs) as Hsub.
  { intros P HP i (g & -> & [_ Hg]%list_elem_of_filter)%list_elem_of_fmap.
    by apply list_elem_of_fmap_2. }
  destruct (fresh_list_ok t (Z.to_nat (nblocks t)) Ht) as (Hnd & Hoff & Hlen);
    [pose proof (nblocks_bounds _ Ht); lia|].
  split; simpl; try apply Hinv.
  - by rewrite length_insert.
  - rewrite length_insert. apply Hinv.
  - apply list.NoDup_cons. split; [done|apply Hinv].
  - apply list.NoDup_cons. split; [done|apply Hinv].
  - split; [done|]. apply (linked_agree h _ _ BaseLink);
      [simpl; rewrite zlookup_insert_eq by lia; simpl; congruence|by apply Hnext|apply Hinv].
  - intros t' Ht'. rewrite filter_cons. simpl. case_decide as Htt; simpl.
    + subst t'. split; [by apply zlookup_insert_eq|].
      apply (linked_agree h _ _ BaseLink);
        [simpl; rewrite zlookup_insert_eq by lia; simpl; congruence| |by apply Hinv].
      intros i Hi. apply Hnext. by eapply Hsub.
    + apply (linked_agree h _ _ BaseLink);
        [simpl; by rewrite zlookup_insert_ne by lia| |by apply Hinv].
      intros i Hi. apply Hnext. by eapply Hsub.
  - intros g' [->|Hg']%elem_of_cons.
    + split; simpl; try done. by exists p.
    + destruct (ki_pages _ _ _ Hinv g' Hg') as [Ht' Hpa' Href' Hnd' Hoff' Hch'].
      split; try done.
      * simpl. rewrite zlookup_insert_ne; [done| |lia].
        intros ->. apply Hprn. by apply list_elem_of_fmap_2.
      * eapply free_chain_agree; [|done]. intros o Ho. simpl. apply Hmm.
        rewrite list.Forall_forall in Hoff'. destruct (Hoff' o Ho) as [Hor _].
        assert (g_pa g' ≠ pa) by (intros <-; apply Hpan; by apply list_elem_of_fmap_2).
        destruct (pages_apart (g_pa g') pa); [done..|lia|lia].
Qed.

Lemma setup_page_ok h gs pr pa t (Q : () → kheap → Prop) E :
  kh_inv h gs [pr] → 0 ≤ pr < NPAGEREFS → pr ∉ g_pr <$> gs →
  type_ok t → page_addr pa → pa ∉ g_pa <$> gs →
  (∀ h', kh_inv h' (fresh_page pr pa t :: gs) [] → Q tt h') →
  wp F (setup_page pr pa t) h Q E.
Proof.
  intros Hinv Hpr Hprn Ht Hpa Hpan HQ.
  pose proof (bsize_bounds _ Ht) as Hb. pose proof (nblocks_bounds _ Ht) as Hn.
  pose proof (nblocks_bsize _ Ht) as Hnb.
  pose proof Hpa as (_ & Hlo & Hhi). unfold MIPS_KSEG0, MIPS_KSEG1, PAGE_SIZE in Hlo, Hhi, Hnb.
  destruct (zlookup_lt_is_Some (sizebases h) t) as [base Hbase];
    [rewrite (ki_bases _ _ _ Hinv); unfold type_ok in Ht; lia|].
  destruct (zlookup_lt_is_Some (pagerefs h) pr) as [p0 Hp0];
    [rewrite (ki_refs _ _ _ Hinv); unfold NPAGEREFS in Hpr; lia|].
  unfold setup_page, size_of. wp_the (bsize t) by (by apply sizes_lookup).
  rewrite page_div_bsize by done. rewrite (u16_small (nblocks t)) by lia.
  wp_steps. apply store_word_ok. wp_steps.
  replace pa with (pa + Z.of_nat 0 * bsize t) at 2 by lia.
  apply (build_freelist_ok F t pa _ _ Ht Hpa (Z.to_nat (nblocks t - 1)) 0); [lia| |].
  { cbn [fresh_list]. apply free_chain_cons; [|done]. cbn [mem set_mem].
    replace (pa + Z.of_nat 0 * bsize t) with pa by lia. apply lookup_insert_eq. }
  intros mm Hch Hmm. cbn [mem set_mem] in Hmm.
  replace (Z.of_nat 0 + Z.of_nat (Z.to_nat (nblocks t - 1))) with (nblocks t - 1) by lia.
  replace (1 + Z.to_nat (nblocks t - 1))%nat with (Z.to_nat (nblocks t)) in Hch by lia.
  assert (0 ≤ (nblocks t - 1) * bsize t < 4096) by nia.
  replace (pa + (nblocks t - 1) * bsize t - pa) with ((nblocks t - 1) * bsize t) by lia.
  rewrite (u32_small ((nblocks t - 1) * bsize t)),
    (u16_small ((nblocks t - 1) * bsize t)) by lia.
  wp_steps. apply wp_assert; [by apply Z.eqb_eq|]. wp_steps.
  eapply wp_the; [exact Hbase|]. cbv beta. wp_steps.
  eapply set_pr_ok; [exact Hp0|]. wp_steps. cbn [sizebases set_mem set_pagerefs].
  wp_the _ by (apply zstore_Some; by eapply zlookup_lt_Some). wp_steps.
  rewrite mkpab by done. apply HQ.
  apply (setup_links h gs pr pa t (MkPageref base (allbase h) (pa + t)
    ((nblocks t - 1) * bsize t) (nblocks t)) mm); try done.
  - split; simpl; [done| |].
    + rewrite (proj2 (proj2 (fresh_list_ok t (Z.to_nat (nblocks t)) Ht ltac:(lia)))). lia.
    + replace (Z.to_nat (nblocks t)) with (S (Z.to_nat (nblocks t - 1))) by lia.
      simpl. lia.
  - intros a Ha. rewrite Hmm by done. apply lookup_insert_ne.
    unfold PAGE_SIZE in Ha. lia.
Qed.
(** The fields a write to a link leaves alone *)
Definition same_data (h h' : kheap) : Prop :=
  pagerefs_inuse h' = pagerefs_inuse h ∧ mem h' = mem h ∧
  length (pagerefs h') = length (pagerefs h) ∧
  length (sizebases h') = length (sizebases h) ∧
  ∀ i p, zlookup (pagerefs h) i = Some p →
    ∃ p', zlookup (pagerefs h') i = Some p' ∧ ∀ g, ref_ok p g → ref_ok p' g.

Lemma same_data_refl h h' :
  pagerefs_inuse h' = pagerefs_inuse h → mem h' = mem h →
  pagerefs h' = pagerefs h → length (sizebases h') = length (sizebases h) →
  same_data h h'.
Proof.
  intros H1 H2 H3 H4. unfold same_data. rewrite H3.
  split; [done|]. split; [done|]. split; [done|]. split; [done|].
  intros i p Hp. by exists p.
Qed.

Lemma wr_same_data w guy q h : same_data h (wr w guy q h).
Proof.
  destruct guy as [|i]; simpl.
  { destruct w; apply same_data_refl; try done. apply length_insert. }
  destruct (zlookup (pagerefs h) i) as [p|] eqn:Hp; [|by apply same_data_refl].
  pose proof (zlookup_lt_Some _ _ _ Hp). unfold same_data; simpl.
  split; [done|]. split; [done|]. split; [apply length_insert|]. split; [done|].
  intros j pj Hj. pose proof (zlookup_lt_Some _ _ _ Hj).
  rewrite zlookup_insert by lia. case_decide; [|by exists pj].
  subst. simplify_eq. eexists. split; [done|]. intros g [H1 H2 H3]. by destruct w.
Qed.

Lemma same_data_trans h1 h2 h3 : same_data h1 h2 → same_data h2 h3 → same_data h1 h3.
Proof.
  intros (A1 & A2 & A3 & A4 & A5) (B1 & B2 & B3 & B4 & B5).
  split; [congruence|]. split; [congruence|]. split; [congruence|]. split; [congruence|].
  intros i p Hp. destruct (A5 i p Hp) as (p' & Hp' & Hr). destruct (B5 i p' Hp') as (p'' & Hp'' & Hr').
  exists p''. eauto.
Qed.

Lemma page_ok_same_data h h' g : same_data h h' → page_ok h g → page_ok h' g.
Proof.
  intros (_ & Hmem & _ & _ & Hrefs) [Ht Hpa (p & Hp & Href) Hnd Hoff Hch].
  split; try done; [|by rewrite Hmem].
  destruct (Hrefs _ _ Hp) as (p' & Hp' & Hr). eauto.
Qed.

Lemma end_link_cases guy l :
  end_link guy l = guy ∨ ∃ i, i ∈ l ∧ end_link guy l = NextLink i.
Proof.
  revert guy. induction l as [|x l IH]; intros guy; simpl; [by left|]. right.
  destruct (IH (NextLink x)) as [->|(i & Hi & ->)]; [exists x|exists i]; split; try done;
    [by left|by right].
Qed.

Lemma same_field_kind w guy w' guy' :
  same_kind w w' = false → ¬ same_field w guy w' guy'.
Proof.
  intros Hk. destruct guy, guy'; simpl; [|by intros []..|].
  - intros ->. by destruct w'.
  - intros [_ Hk']. congruence.
Qed.

Lemma remove_lists_ok h l1 g l2 (Q : () → kheap → Prop) E :
  kh_inv h (l1 ++ g :: l2) [] →
  (∀ h', kh_inv h' (l1 ++ l2) [g_pr g] → Q tt h') →
  wp F (remove_lists (g_pr g) (g_type g)) h Q E.
Proof.
  intros Hinv HQ.
  assert (g ∈ l1 ++ g :: l2) as Hg by (apply elem_of_app; right; by left).
  pose proof (po_type _ _ (ki_pages _ _ _ Hinv g Hg)) as Ht. set (t := g_type g) in *.
  pose proof (kh_inv_length _ _ _ Hinv) as Hlen. rewrite length_app in Hlen. simpl in Hlen.
  set (P := λ g : gpage, g_type g = t).
  assert (filter P (l1 ++ g :: l2) = filter P l1 ++ g :: filter P l2) as Hfilter
    by (rewrite list.filter_app, filter_cons_True; done).
  pose proof (ki_same _ _ _ Hinv t Ht) as Hsame. fold P in Hsame.
  rewrite Hfilter, fmap_app, fmap_cons in Hsame.
  pose proof (ki_all _ _ _ Hinv) as Hall. rewrite fmap_app, fmap_cons in Hall.
  pose proof (ki_prs _ _ _ Hinv) as Hnd.
  assert (∀ y, y ∈ l1 ∨ y ∈ l2 → g_pr y ≠ g_pr g) as Hne
    by (intros y; by apply NoDup_middle_ne).
  assert (∀ l : list gpage, (∀ y, y ∈ l → y ∈ l1 ∨ y ∈ l2) → g_pr g ∉ g_pr <$> l)
    as Hnotin.
  { intros l Hl (y & Heq & Hy)%list_elem_of_fmap. by apply (Hne y); [apply Hl|]. }
  assert (NoDup (g_pr <$> filter P (l1 ++ g :: l2))) as Hnds.
  { eapply sublist_NoDup; [exact Hnd|]. apply fmap_sublist, sublist_filter. }
  rewrite Hfilter, fmap_app, fmap_cons in Hnds. pose proof Hnd as Hnd'.
  rewrite fmap_app, fmap_cons in Hnd'.
  unfold remove_lists. wp_assert by (unfold type_ok, NSIZES in *; lia). wp_steps.
  eapply (unlink_ok _ _ _ _ (g_pr <$> filter P l2) _ _ _ _ (g_pr <$> filter P l1));
    [rewrite length_fmap; pose proof (length_filter P l1); unfold list_fuel; lia| |done|].
  { apply Hnotin. intros y [_ Hy]%list_elem_of_filter. by left. }
  set (lk := end_link BaseLink (g_pr <$> filter P l1)). set (h1 := wr _ _ _ h).
  destruct (linked_rd_end _ _ _ _ _ _ Hsame) as [Hlk _]. fold lk in Hlk.
  assert (linked h1 AllList BaseLink ((g_pr <$> l1) ++ g_pr g :: (g_pr <$> l2))) as Hall1.
  { eapply linked_wr_other; [exact Hlk| | |done]; intros; by apply same_field_kind. }
  eapply (unlink_ok _ _ _ _ (g_pr <$> l2) _ _ _ _ (g_pr <$> l1));
    [rewrite length_fmap; unfold list_fuel; lia|apply Hnotin; auto|done|].
  set (lk2 := end_link BaseLink (g_pr <$> l1)). set (h2 := wr _ _ _ h1).
  destruct (linked_rd_end _ _ _ _ _ _ Hall1) as [Hlk2 _]. fold lk2 in Hlk2.
  assert (same_data h h2) as Hdata by (eapply same_data_trans; apply wr_same_data).
  apply HQ. pose proof Hdata as (Hiu & Hmem & Hlr & Hls & Hrefs).
  assert (∀ w guy ps, (∀ i, i ∈ ps → ¬ same_field (SamesizeList t) lk w (NextLink i)) →
    ¬ same_field (SamesizeList t) lk w guy → w ≠ AllList →
    linked h w guy ps → linked h2 w guy ps) as Hother.
  { intros w guy ps Hps Hguy Hw Hl. eapply linked_wr_other; [exact Hlk2| | |].
    - apply same_field_kind. by destruct w.
    - intros i Hi. apply same_field_kind. by destruct w.
    - by eapply linked_wr_other. }
  split; rewrite ?Hiu, ?Hlr, ?Hls; try apply Hinv.
  - intros i Hi. rewrite (ki_used _ _ _ Hinv) by done. rewrite !fmap_app, fmap_cons.
    rewrite !elem_of_app, !elem_of_cons, !elem_of_nil. tauto.
  - rewrite fmap_app. eapply sublist_NoDup; [exact Hnd'|].
    apply sublist_app; [done|]. by apply sublist_cons.
  - pose proof (ki_pas _ _ _ Hinv) as Hpas. rewrite fmap_app, fmap_cons in Hpas.
    rewrite fmap_app. eapply sublist_NoDup; [exact Hpas|].
    apply sublist_app; [done|]. by apply sublist_cons.
  - rewrite fmap_app. by apply (linked_unlinked h1 _ _ _ (g_pr g)).
  - intros t' Ht'. rewrite list.filter_app, fmap_app. destruct (decide (t' = t)) as [->|Htt].
    + fold P. eapply linked_wr_other; [exact Hlk2| | |].
      * by apply same_field_kind.
      * intros i _. by apply same_field_kind.
      * by apply (linked_unlinked h _ _ _ (g_pr g)).
    + pose proof (ki_same _ _ _ Hinv t' Ht') as Hl.
      rewrite list.filter_app, filter_cons_False, fmap_app in Hl by done.
      apply Hother; [| |done|done].
      * intros i Hi. destruct (end_link_cases BaseLink (g_pr <$> filter P l1))
          as [Heq|(j & Hj & Heq)]; fold lk in Heq; rewrite Heq; [by intros []|].
        intros [-> _]. apply list_elem_of_fmap in Hj as (y & -> & [Hy1 Hy2]%list_elem_of_filter).
        rewrite <- fmap_app, <- list.filter_app in Hi.
        apply list_elem_of_fmap in Hi as (z & Heqz & [Hz1 Hz2]%list_elem_of_filter).
        assert (y = z) as ->; [|unfold P in *; congruence].
        eapply (NoDup_fmap_inj_on g_pr (l1 ++ g :: l2)); [done|in_app..|done].
      * destruct (end_link_cases BaseLink (g_pr <$> filter P l1))
          as [Heq|(j & Hj & Heq)]; fold lk in Heq; rewrite Heq; simpl; [congruence|by intros []].
  - intros g' Hg'. apply (page_ok_same_data h); [done|]. apply (ki_pages _ _ _ Hinv).
    in_app.
Qed.
End list_operations.
