(* ===== verification/KheapLaws.v ===== *)
(** * kmalloc and kfree as a heap

    What the heap of Kheap.v owns, the proof that [kmalloc] and [kfree] satisfy
    the contract of KMem.v on top of any page allocator that satisfies the
    contract of KPages.v, and the theorems for the heap over the coremap. *)

From Stdlib Require Import ZArith Lia.
From stdpp Require Import base list gmap numbers.
From S2P Require Import Prelude Cpu Coremap KPages KMem Kheap KheapLists KheapProof.

Local Open Scope Z_scope.

(** ** Ownership *)

(** The pages a large block of [sz] bytes occupies *)
Definition npages_of (sz : Z) : Z := (sz + PAGE_SIZE - 1) / PAGE_SIZE.

(** The runs of pages the heap holds: one page per page of small blocks, and the
    large blocks [big], by address, with the size asked for *)
Definition pages_map (gs : list gpage) (big : gmap Z Z) : gmap Z Z :=
  foldr (λ g m, <[g_pa g := 1]> m) (npages_of <$> big) gs.

(** Block [a] of [sz] bytes is a small block in use of one of the pages. *)
Definition small_block (gs : list gpage) (a sz : Z) : Prop :=
  ∃ g o, g ∈ gs ∧ a = g_pa g + o ∧ off_ok (g_type g) o ∧ (o ∉ g_free g) ∧
         0 ≤ sz ≤ bsize (g_type g).

(** [m] maps the blocks in use to the sizes asked for. *)
Record live_rel (m : gmap Z Z) (gs : list gpage) (big : gmap Z Z) : Prop := {
  lr_from a sz : m !! a = Some sz → small_block gs a sz ∨ big !! a = Some sz;
  lr_small g o : g ∈ gs → off_ok (g_type g) o → (o ∉ g_free g) → is_Some (m !! (g_pa g + o));
  lr_big a sz : big !! a = Some sz → m !! a = Some sz;
}.

(** Some block of the page is in use: a page without is given back. *)
Definition partly (g : gpage) : Prop := Z.of_nat (length (g_free g)) < nblocks (g_type g).

Record owns_with {P} `{!HasCpu P} `{!KPages P} `{!KPagesLaws P}
    (s : KH P) (m : gmap Z Z) (gs : list gpage) (big : gmap Z Z) : Prop := {
  ow_pages : pages_own s.1 (pages_map gs big);
  ow_inv : kh_inv s.2 gs [];
  ow_apart g : g ∈ gs → big !! g_pa g = None;
  ow_big a sz : big !! a = Some sz → 0 < sz;
  ow_live : live_rel m gs big;
}.

Definition kheap_owns {P} `{!HasCpu P} `{!KPages P} `{!KPagesLaws P}
    (s : KH P) (m : gmap Z Z) : Prop :=
  ∃ gs big, owns_with s m gs big ∧ ∀ g, g ∈ gs → partly g.

Section ownership.

Lemma pages_map_lookup gs big a :
  pages_map gs big !! a =
    if decide (a ∈ g_pa <$> gs) then Some 1 else npages_of <$> big !! a.
Proof.
  induction gs as [|g gs IH]; cbn [pages_map foldr].
  - rewrite decide_False by (by intros ?%elem_of_nil). apply lookup_fmap.
  - fold (pages_map gs big). destruct (decide (a = g_pa g)) as [->|Hne].
    + rewrite lookup_insert_eq, decide_True by (by left). done.
    + rewrite lookup_insert_ne, IH by done. rewrite fmap_cons.
      repeat case_decide; try done; rewrite elem_of_cons in *; tauto.
Qed.

Lemma pages_map_update l1 g l2 fs big :
  pages_map (l1 ++ with_free fs g :: l2) big = pages_map (l1 ++ g :: l2) big.
Proof. apply map_eq. intros a. by rewrite !pages_map_lookup, !fmap_app. Qed.

Lemma pages_map_remove l1 g l2 big :
  NoDup (g_pa <$> l1 ++ g :: l2) → big !! g_pa g = None →
  delete (g_pa g) (pages_map (l1 ++ g :: l2) big) = pages_map (l1 ++ l2) big.
Proof.
  intros Hnd Hbig. apply map_eq. intros a. destruct (decide (a = g_pa g)) as [->|Hne].
  - rewrite lookup_delete_eq, pages_map_lookup, Hbig, decide_False; [done|].
    intros (y & Heq & Hy)%list_elem_of_fmap. apply elem_of_app in Hy.
    by apply (NoDup_middle_ne g_pa l1 g l2 y).
  - rewrite lookup_delete_ne, !pages_map_lookup, !fmap_app, fmap_cons by done.
    repeat case_decide; try done; rewrite ?elem_of_app, ?elem_of_cons in *; tauto.
Qed.

Lemma pages_map_big gs big a sz :
  (a ∉ g_pa <$> gs) →
  <[a := npages_of sz]> (pages_map gs big) = pages_map gs (<[a := sz]> big).
Proof.
  intros Ha. apply map_eq. intros b. rewrite pages_map_lookup.
  destruct (decide (b = a)) as [->|].
  - by rewrite lookup_insert_eq, decide_False, lookup_insert_eq.
  - by rewrite !lookup_insert_ne, pages_map_lookup.
Qed.

Lemma pages_map_unbig gs big a :
  (a ∉ g_pa <$> gs) → delete a (pages_map gs big) = pages_map gs (delete a big).
Proof.
  intros Ha. apply map_eq. intros b. rewrite pages_map_lookup.
  destruct (decide (b = a)) as [->|].
  - by rewrite lookup_delete_eq, decide_False, lookup_delete_eq.
  - by rewrite !lookup_delete_ne, pages_map_lookup.
Qed.

Lemma npages_of_bounds sz : 0 < sz → 0 < npages_of sz ∧ sz ≤ npages_of sz * PAGE_SIZE.
Proof.
  intros Hsz. unfold npages_of, PAGE_SIZE. split; Z.div_mod_to_equations; lia.
Qed.

(** Small blocks of different places are different addresses. *)
Lemma small_place_inj g g' o o' :
  page_addr (g_pa g) → page_addr (g_pa g') → 0 ≤ o < PAGE_SIZE → 0 ≤ o' < PAGE_SIZE →
  g_pa g + o = g_pa g' + o' → g_pa g = g_pa g' ∧ o = o'.
Proof.
  intros Hpa Hpa' Ho Ho' Heq. destruct (decide (g_pa g = g_pa g')) as [|Hne]; [lia|].
  destruct (pages_apart _ _ Hpa Hpa' Hne); lia.
Qed.
End ownership.

Section laws.
Context {P : Type} `{!HasCpu P} `{!KPages P} `{!KPagesLaws P}.
Implicit Types s : KH P.

Lemma ow_page s m gs big g :
  owns_with s m gs big → g ∈ gs → pages_map gs big !! g_pa g = Some 1.
Proof.
  intros Hown Hg. by rewrite pages_map_lookup, decide_True by (by apply list_elem_of_fmap_2).
Qed.

Lemma ow_big_page s m gs big a sz :
  owns_with s m gs big → big !! a = Some sz →
  (a ∉ g_pa <$> gs) ∧ pages_map gs big !! a = Some (npages_of sz).
Proof.
  intros Hown Ha. assert ((a ∉ g_pa <$> gs)) as Hout.
  { intros (g & -> & Hg)%list_elem_of_fmap. by rewrite (ow_apart _ _ _ _ Hown g Hg) in Ha. }
  split; [done|]. by rewrite pages_map_lookup, decide_False, Ha.
Qed.

(** A large block does not meet a page of small blocks. *)
Lemma ow_big_apart s m gs big a sz g :
  owns_with s m gs big → big !! a = Some sz → g ∈ gs →
  a + npages_of sz * PAGE_SIZE ≤ g_pa g ∨ g_pa g + PAGE_SIZE ≤ a.
Proof.
  intros Hown Ha Hg. destruct (ow_big_page _ _ _ _ _ _ Hown Ha) as [Hout Hpa].
  pose proof (ow_page _ _ _ _ _ Hown Hg) as Hpg.
  destruct (pages_disjoint _ _ _ _ _ _ (ow_pages _ _ _ _ Hown) Hpa Hpg); [|lia|lia].
  intros ->. apply Hout. by apply list_elem_of_fmap_2.
Qed.

Lemma ow_live_cases s m gs big a sz :
  owns_with s m gs big → m !! a = Some sz →
  (∃ g o, g ∈ gs ∧ page_ok s.2 g ∧ a = g_pa g + o ∧ off_ok (g_type g) o ∧
          (o ∉ g_free g) ∧ 0 ≤ sz ≤ bsize (g_type g)) ∨
  (big !! a = Some sz ∧ 0 < sz).
Proof.
  intros Hown Ha. destruct (lr_from _ _ _ (ow_live _ _ _ _ Hown) a sz Ha) as [Hs|Hb].
  - left. destruct Hs as (g & o & Hg & Hrest). exists g, o.
    split; [done|]. split; [by apply (ki_pages _ _ _ (ow_inv _ _ _ _ Hown))|done].
  - right. split; [done|]. by eapply ow_big.
Qed.

(** ** Blocks in use do not overlap *)
Lemma kheap_disjoint s m a n b k :
  kheap_owns s m → m !! a = Some n → m !! b = Some k → a ≠ b → a + n ≤ b ∨ b + k ≤ a.
Proof.
  intros (gs & big & Hown & _) Ha Hb Hab.
  destruct (ow_live_cases _ _ _ _ _ _ Hown Ha)
    as [(g & o & Hg & Hgok & -> & Ho & _ & Hn)|[Hba Hn]];
    destruct (ow_live_cases _ _ _ _ _ _ Hown Hb)
    as [(g' & o' & Hg' & Hgok' & -> & Ho' & _ & Hk)|[Hbb Hk]].
  - destruct Hgok as [Ht Hpa _ _ _ _], Hgok' as [Ht' Hpa' _ _ _ _].
    pose proof (off_ok_end _ _ Ht Ho). pose proof (off_ok_end _ _ Ht' Ho').
    pose proof Ho as [Hor _]. pose proof Ho' as [Hor' _].
    destruct (decide (g_pa g = g_pa g')) as [Heq|Hne].
    + assert (g = g') as <-.
      { eapply (NoDup_fmap_inj_on g_pa gs); [|done..].
        apply (ki_pas _ _ _ (ow_inv _ _ _ _ Hown)). }
      destruct (off_ok_apart _ _ _ Ht Ho Ho'); [intros ->; done|lia|lia].
    + destruct (pages_apart _ _ Hpa Hpa' Hne); lia.
  - destruct Hgok as [Ht Hpa _ _ _ _]. pose proof (off_ok_end _ _ Ht Ho).
    pose proof Ho as [Hor _]. destruct (npages_of_bounds k Hk).
    destruct (ow_big_apart _ _ _ _ _ _ _ Hown Hbb Hg); lia.
  - destruct Hgok' as [Ht' Hpa' _ _ _ _]. pose proof (off_ok_end _ _ Ht' Ho').
    pose proof Ho' as [Hor' _]. destruct (npages_of_bounds n Hn).
    destruct (ow_big_apart _ _ _ _ _ _ _ Hown Hba Hg'); lia.
  - destruct (ow_big_page _ _ _ _ _ _ Hown Hba) as [_ Hpa].
    destruct (ow_big_page _ _ _ _ _ _ Hown Hbb) as [_ Hpb].
    destruct (npages_of_bounds n Hn), (npages_of_bounds k Hk).
    destruct (pages_disjoint _ _ _ _ _ _ (ow_pages _ _ _ _ Hown) Hpa Hpb Hab); lia.
Qed.

Lemma kheap_null s m : kheap_owns s m → m !! 0 = None.
Proof.
  intros (gs & big & Hown & _). apply eq_None_not_Some. intros [sz H0].
  destruct (ow_live_cases _ _ _ _ _ _ Hown H0)
    as [(g & o & Hg & [_ (_ & Hlo & _) _ _ _ _] & Heq & [[Ho _] _] & _)|[Hb _]].
  - unfold MIPS_KSEG0 in Hlo. lia.
  - destruct (ow_big_page _ _ _ _ _ _ Hown Hb) as [_ Hp].
    destruct (pages_range _ _ _ _ (ow_pages _ _ _ _ Hown) Hp) as (_ & _ & Hlo & _).
    by apply Hlo.
Qed.

Lemma owns_with_spl s m gs big k :
  owns_with s m gs big → 0 ≤ k →
  owns_with (set_cpu (spl_set k (cpu_of s)) s) m gs big.
Proof. intros [] Hk. split; simpl; try done. by apply pages_spl. Qed.

(** ** Handing out a small block *)

(** The first free block of a page is not in use. *)
Lemma free_block_fresh s m l1 g l2 big o fs :
  owns_with s m (l1 ++ g :: l2) big → g_free g = o :: fs → m !! (g_pa g + o) = None.
Proof.
  intros Hown Hfree. apply eq_None_not_Some. intros [sz Ha].
  assert (g ∈ l1 ++ g :: l2) as Hg by in_app.
  destruct (ki_pages _ _ _ (ow_inv _ _ _ _ Hown) g Hg) as [Ht Hpa _ Hnd Hoff _].
  rewrite Hfree in *. apply list.Forall_cons in Hoff as [[Hor _] _].
  destruct (ow_live_cases _ _ _ _ _ _ Hown Ha)
    as [(g' & o' & Hg' & [_ Hpa' _ _ _ _] & Heq & [Hor' _] & Hnf & _)|[Hb Hsz]].
  - destruct (small_place_inj g g' o o') as [Hpp ->]; [done..|].
    assert (g = g') as <-.
    { eapply (NoDup_fmap_inj_on g_pa); [|done..].
      apply (ki_pas _ _ _ (ow_inv _ _ _ _ Hown)). }
    apply Hnf. rewrite Hfree. by left.
  - destruct (npages_of_bounds sz Hsz).
    destruct (ow_big_apart _ _ _ _ _ _ _ Hown Hb Hg); unfold PAGE_SIZE in *; lia.
Qed.

Lemma owns_take s m l1 g l2 big o fs sz h' :
  owns_with s m (l1 ++ g :: l2) big → g_free g = o :: fs → 0 ≤ sz ≤ bsize (g_type g) →
  kh_inv h' (l1 ++ with_free fs g :: l2) [] →
  owns_with (s.1, h') (<[g_pa g + o := sz]> m) (l1 ++ with_free fs g :: l2) big.
Proof.
  intros Hown Hfree Hsz Hinv'.
  assert (g ∈ l1 ++ g :: l2) as Hg by in_app.
  pose proof Hown as [Hpages Hinv Hapart Hbig [Hfrom Hsmall Hbigm]].
  destruct (ki_pages _ _ _ Hinv g Hg) as [Ht Hpa _ Hnd Hoff _].
  rewrite Hfree in Hnd, Hoff. apply list.NoDup_cons in Hnd as [Hofs _].
  apply list.Forall_cons in Hoff as [Ho _].
  assert (∀ g', g' ∈ l1 ++ with_free fs g :: l2 → g' = with_free fs g ∨ g' ∈ l1 ++ g :: l2)
    as Hcases by (intros g'; in_app).
  split; try done.
  - by rewrite pages_map_update.
  - intros g' [->|Hg']%Hcases; [by apply (Hapart g)|by apply Hapart].
  - split.
    + intros a sz' [[<- <-]|[Hne Ha]]%lookup_insert_Some.
      { left. exists (with_free fs g), o. split; [in_app|]. split_done. }
      destruct (Hfrom a sz' Ha) as [(g' & o' & Hg' & -> & Ho' & Hn & Hs)|Hb]; [left|by right].
      destruct (decide (g' = g)) as [->|Hgg].
      * exists (with_free fs g), o'. split; [in_app|]. split; [done|]. split; [done|].
        split; [|done]. rewrite Hfree in Hn. simpl. in_app.
      * exists g', o'. split; [in_app|]. split_done.
    + intros g' o' Hg' Ho' Hn'. destruct (Hcases g' Hg') as [->|Hg''].
      * simpl in *. destruct (decide (o' = o)) as [->|].
        { rewrite lookup_insert_eq. by eexists. }
        rewrite lookup_insert_ne by lia. apply Hsmall; [done|done|].
        rewrite Hfree. in_app.
      * destruct (decide (g_pa g' + o' = g_pa g + o)) as [->|];
          [rewrite lookup_insert_eq; by eexists|].
        rewrite lookup_insert_ne by done. by apply Hsmall.
    + intros a sz' Ha. rewrite lookup_insert_ne; [by apply Hbigm|]. intros <-.
      destruct (ow_big_page _ _ _ _ _ _ Hown Ha) as [Hout Hpm].
      destruct (npages_of_bounds sz') as [Hn1 Hn2]; [by eapply Hbig|]. destruct Ho as [Hor _].
      destruct (ow_big_apart _ _ _ _ _ _ _ Hown Ha Hg); unfold PAGE_SIZE in *; lia.
Qed.

(** A fresh page has no block in use. *)
Lemma owns_fresh_page s m gs big pr pa t (s' : P) h' :
  owns_with s m gs big → type_ok t →
  pages_own s' (<[pa := 1]> (pages_map gs big)) → pages_map gs big !! pa = None →
  kh_inv h' (fresh_page pr pa t :: gs) [] →
  owns_with (s', h') m (fresh_page pr pa t :: gs) big.
Proof.
  intros [Hpages Hinv Hapart Hbig [Hfrom Hsmall Hbigm]] Ht Hp' Hpa Hinv'.
  pose proof (nblocks_bounds _ Ht).
  destruct (fresh_list_ok t (Z.to_nat (nblocks t)) Ht) as (Hnd & Hoff & Hlen); [lia|].
  split; try done.
  - intros g [->|Hg]%elem_of_cons; [|by apply Hapart].
    rewrite pages_map_lookup in Hpa. case_decide; [done|].
    simpl. by destruct (big !! pa).
  - split; [| |done].
    + intros a sz Ha. destruct (Hfrom a sz Ha) as [(g & o & Hg & Hrest)|Hb]; [left|by right].
      exists g, o. split; [by right|done].
    + intros g o [->|Hg]%elem_of_cons Ho Hn; [|by apply Hsmall]. exfalso. apply Hn.
      eapply (off_ok_full t); [done..| |done]. simpl. lia.
Qed.

Lemma wp_on_kheap {A} F (x : M kheap A) (sp : P) h (Q : A → KH P → Prop) E :
  wp F x h (λ a h', Q a (sp, h')) (λ e h', E e (sp, h')) → wp F (on_kheap x) (sp, h) Q E.
Proof. intros Hx. by apply wp_zoom. Qed.

Lemma wp_on_pages {A} F (x : M P A) (sp : P) h (Q : A → KH P → Prop) E :
  wp F x sp (λ a sp', Q a (sp', h)) (λ e sp', E e (sp', h)) → wp F (on_pages x) (sp, h) Q E.
Proof. intros Hx. by apply wp_zoom. Qed.

(** The part of [subpage_kmalloc] that runs at the high level *)
Definition malloc_post (s : KH P) (m : gmap Z Z) (sz p : Z) (s' : KH P) : Prop :=
  cpu_of s'.1 = cpu_of s.1 ∧
  ((p = 0 ∧ kheap_owns s' m) ∨
   (p ≠ 0 ∧ m !! p = None ∧ kheap_owns s' (<[p := sz]> m))).

(** Taking a block of page [g]: what [doalloc] achieves *)
Lemma take_ok s m l1 g l2 big o fs sz (s0 : KH P) E :
  owns_with s m (l1 ++ g :: l2) big → g_free g = o :: fs → 0 ≤ sz ≤ bsize (g_type g) →
  (∀ g', g' ∈ l1 ++ l2 → partly g') → cpu_of s.1 = cpu_of s0.1 →
  wp safe_oom (on_kheap (doalloc (g_pr g))) s (malloc_post s0 m sz) E.
Proof.
  intros Hown Hfree Hsz Hpart Hcpu. destruct s as [sp h].
  assert (g ∈ l1 ++ g :: l2) as Hg by in_app.
  destruct (ki_pages _ _ _ (ow_inv _ _ _ _ Hown) g Hg) as [Ht Hpa _ Hnd Hoff _].
  pose proof (off_ok_count _ _ Ht Hnd Hoff) as Hcount.
  rewrite Hfree in Hoff, Hcount. apply list.Forall_cons in Hoff as [[Hor _] _].
  apply wp_on_kheap. eapply doalloc_ok; [apply (ow_inv _ _ _ _ Hown)|done|].
  intros h' Hinv'. split; [done|]. right. split.
  { destruct Hpa as (_ & Hlo & _). unfold MIPS_KSEG0 in Hlo. lia. }
  split; [by eapply free_block_fresh|].
  exists (l1 ++ with_free fs g :: l2), big. split; [by eapply (owns_take (sp, h))|].
  intros g' Hg'. assert (g' = with_free fs g ∨ g' ∈ l1 ++ l2) as [->|] by in_app; [|by apply Hpart].
  unfold partly. cbn [g_free g_type with_free]. cbn [length] in Hcount. lia.
Qed.

(** Changing the bitmap of references only *)
Lemma kh_inv_set_inuse h gs extra l' extra' :
  kh_inv h gs extra → inuse_ok l' →
  (∀ i, 0 ≤ i < NPAGEREFS → ref_used l' i = true ↔ i ∈ extra' ++ (g_pr <$> gs)) →
  kh_inv (set_inuse l' h) gs extra'.
Proof.
  intros Hinv Hl' Hused. split; try done; try apply Hinv.
  - apply (linked_agree h _ _ BaseLink); [done| |apply Hinv]. done.
  - intros t Ht. apply (linked_agree h _ _ BaseLink); [done| |by apply Hinv]. done.
  - intros g Hg. by destruct (ki_pages _ _ _ Hinv g Hg).
Qed.

Lemma kh_inv_alloc_ref h gs l' pr :
  kh_inv h gs [] → inuse_ok l' →
  (∀ k, 0 ≤ k → ref_used l' k =
     if decide (k = pr) then true else ref_used (pagerefs_inuse h) k) →
  kh_inv (set_inuse l' h) gs [pr].
Proof.
  intros Hinv Hl' Hbits. eapply kh_inv_set_inuse; [done..|].
  intros i Hi. rewrite Hbits by lia. cbn [app]. rewrite elem_of_cons. case_decide; [tauto|].
  rewrite (ki_used _ _ _ Hinv) by done. cbn [app]. tauto.
Qed.

Lemma kh_inv_free_ref h gs l' pr :
  kh_inv h gs [pr] → pr ∉ g_pr <$> gs → inuse_ok l' →
  (∀ k, 0 ≤ k → ref_used l' k =
     if decide (k = pr) then false else ref_used (pagerefs_inuse h) k) →
  kh_inv (set_inuse l' h) gs [].
Proof.
  intros Hinv Hpr Hl' Hbits. eapply kh_inv_set_inuse; [done..|].
  intros i Hi. rewrite Hbits by lia. cbn [app]. case_decide as Heq.
  - subst. split; [done|]. intros. done.
  - rewrite (ki_used _ _ _ Hinv) by done. cbn [app]. rewrite elem_of_cons. tauto.
Qed.

Lemma owns_set_inuse (sp sp' : P) h l' m gs big :
  owns_with (sp, h) m gs big → pages_own sp' (pages_map gs big) →
  kh_inv (set_inuse l' h) gs [] → owns_with (sp', set_inuse l' h) m gs big.
Proof. intros []. by split. Qed.

Lemma sizebase_head h gs extra t :
  kh_inv h gs extra → type_ok t →
  zlookup (sizebases h) t = Some (head (g_pr <$> filter (λ g, g_type g = t) gs)).
Proof.
  intros Hinv Ht. pose proof (ki_same _ _ _ Hinv t Ht) as Hl.
  destruct (filter _ gs); simpl in *; [done|]. by destruct Hl.
Qed.

(** No page with a free block: a fresh page *)
Lemma new_page_ok s m gs big sz t :
  owns_with s m gs big → (∀ g, g ∈ gs → partly g) → type_ok t → 0 ≤ sz ≤ bsize t →
  wp safe_oom
    (pr ← on_kheap allocpageref;
     match pr with
     | None => mret 0
     | Some pr =>
       prpage ← on_pages (alloc_kpages 1);
       if prpage =? 0 then on_kheap (freepageref pr);; mret 0 else
       on_kheap (setup_page pr prpage t);;
       on_kheap (doalloc pr)
     end) s (malloc_post s m sz) noerr.
Proof.
  intros Hown Hpart Ht Hsz. destruct s as [sp h].
  pose proof (ow_inv _ _ _ _ Hown) as Hinv. simpl in Hinv.
  wp_steps. apply wp_on_kheap. eapply wp_mono;
    [apply allocpageref_from_ok; [apply Hinv|done|done]| |done].
  intros [pr|] h1; [|intros ->; wp_steps; split; [done|]; left; split; [done|]; by exists gs, big].
  intros (Hpr & Hunused & l1 & -> & Hl1 & Hbits).
  assert (pr ∉ g_pr <$> gs) as Hprn.
  { intros Hin. assert (ref_used (pagerefs_inuse h) pr = true) as Ht';
      [apply (ki_used _ _ _ Hinv); [done|by simpl]|congruence]. }
  assert (kh_inv (set_inuse l1 h) gs [pr]) as Hinv1 by (by apply kh_inv_alloc_ref).
  wp_steps. apply wp_on_pages. eapply wp_mono;
    [apply alloc_kpages_law; [apply (ow_pages _ _ _ _ Hown)|done]| |done].
  intros pa sp' [Hcpu [[-> Hown']|(Hpa0 & Hfresh & Hown')]].
  - simpl (_ =? _). cbv iota. wp_steps. apply wp_on_kheap. eapply freepageref_ok; [done|done| |].
    { simpl. rewrite Hbits, decide_True by lia. done. }
    intros l2 Hl2 Hbits2. wp_steps. split; [done|]. left. split; [done|].
    exists gs, big. split; [|done].
    apply (owns_set_inuse sp sp' h l2); [done|done|].
    by apply (kh_inv_free_ref (set_inuse l1 h) gs l2 pr).
  - destruct (Z.eqb_spec pa 0); [done|].
    destruct (pages_range _ _ pa 1 Hown' (lookup_insert_eq _ _ _)) as (_ & Hal & Hlo & Hhi).
    assert (pa ∉ g_pa <$> gs) as Hpan.
    { intros Hin. by rewrite pages_map_lookup, decide_True in Hfresh. }
    wp_steps. apply wp_on_kheap. eapply setup_page_ok; [done..| |done|].
    { split; [done|]. split; [done|]. unfold PAGE_SIZE in *. lia. }
    intros h2 Hinv2. pose proof (nblocks_bounds _ Ht).
    eapply (take_ok _ m [] (fresh_page pr pa t) gs big); simpl; [|..|done|done].
    + by eapply (owns_fresh_page (sp, h)).
    + replace (Z.to_nat (nblocks t)) with (S (Z.to_nat (nblocks t - 1))) by lia. done.
    + done.
Qed.

(** Back from the high level *)
Lemma malloc_post_spl s m sz p s' :
  cpu_wf (cpu_of s) →
  malloc_post (set_cpu (spl_set SPL_HIGH (cpu_of s)) s) m sz p s' →
  malloc_post s m sz p (set_cpu (spl_set (curspl (cpu_of s)) (cpu_of s')) s').
Proof.
  intros Hwf [Hcpu Hpost].
  assert (cpu_of s' = spl_set SPL_HIGH (cpu_of s)) as Hs'.
  { change (cpu_of s') with (cpu_of s'.1). rewrite Hcpu. apply cpu_of_set. }
  split.
  - rewrite Hs', spl_set_back by done. apply cpu_of_set.
  - destruct Hpost as [[-> (gs & big & Hown & Hp)]|(? & ? & gs & big & Hown & Hp)];
      [left; split; [done|]|right; split; [done|]; split; [done|]];
      exists gs, big; (split; [|done]); apply owns_with_spl; (done || apply Hwf).
Qed.

Lemma owns_cpu_wf s m gs big : owns_with s m gs big → cpu_wf (cpu_of s).
Proof. intros Hown. apply (pages_running _ _ (ow_pages _ _ _ _ Hown)). Qed.

Lemma subpage_kmalloc_ok s m sz :
  kheap_owns s m → 0 ≤ sz < LARGEST_SUBPAGE_SIZE →
  wp safe_oom (subpage_kmalloc sz) s (malloc_post s m sz) noerr.
Proof.
  intros (gs & big & Hown & Hpart) Hsz. pose proof (owns_cpu_wf _ _ _ _ Hown) as Hwf.
  unfold subpage_kmalloc. wp_steps. destruct s as [sp h]. apply wp_on_kheap.
  apply blocktype_ok; [done|]. intros t Ht Htsz. apply wp_with_splhigh.
  eapply wp_mono; [|intros p s'; by apply malloc_post_spl|done].
  apply (owns_with_spl _ _ _ _ SPL_HIGH) in Hown; [|done]. set (s := set_cpu _ _) in *.
  assert (s.2 = h) as Hs2 by done. destruct s as [sp' h']. simpl in Hs2. subst h'.
  pose proof (ow_inv _ _ _ _ Hown) as Hinv. simpl in Hinv.
  wp_steps. cbn [fst snd]. eapply wp_the; [by eapply sizebase_head|]. cbv beta. wp_steps.
  apply wp_on_kheap. eapply (find_free_ok _ _ gs); [done|done| | | | |by apply Hinv].
  - intros g Hg Hgt Hfree. destruct (g_free g) as [|o fs] eqn:Hfs; [done|].
    apply list_elem_of_split in Hg as (l1 & l2 & ->).
    eapply take_ok; [done|done|rewrite Hgt; lia| |done].
    intros g' Hg'. apply Hpart. in_app.
  - eapply new_page_ok; [done..|lia].
  - pose proof (kh_inv_length _ _ _ Hinv). pose proof (length_filter (λ g, g_type g = t) gs).
    unfold list_fuel. lia.
  - intros g [? ?]%list_elem_of_filter. done.
Qed.

Lemma kmalloc_ok s m sz :
  kheap_owns s m → 0 ≤ sz < 2 ^ 31 →
  wp safe_oom (kmalloc sz) s (malloc_post s m sz) noerr.
Proof.
  intros Hs Hsz. unfold kmalloc. wp_if; [|apply subpage_kmalloc_ok; [done|lia]].
  unfold LARGEST_SUBPAGE_SIZE in *. destruct Hs as (gs & big & Hown & Hpart), s as [sp h].
  rewrite u32_small by (unfold PAGE_SIZE; lia). fold (npages_of sz).
  destruct (npages_of_bounds sz) as [Hn1 Hn2]; [lia|].
  assert (npages_of sz < 2 ^ 31) as Hn3.
  { unfold npages_of, PAGE_SIZE. Z.div_mod_to_equations; lia. }
  wp_steps. apply wp_on_pages. eapply wp_mono;
    [apply alloc_kpages_law; [apply (ow_pages _ _ _ _ Hown)|done]| |done].
  pose proof Hown as [Hpages Hinv Hapart Hbig [Hfrom Hsmall Hbigm]].
  intros a sp' [Hcpu [[-> Hown']|(Ha0 & Hfresh & Hown')]].
  - simpl (_ =? _). cbv iota. wp_steps. split; [done|]. left. split; [done|].
    exists gs, big. by split.
  - destruct (Z.eqb_spec a 0); [done|]. wp_steps. split; [done|]. right. split; [done|].
    rewrite pages_map_lookup in Hfresh. case_decide as Hout; [done|].
    assert (big !! a = None) as Hba by (by destruct (big !! a)).
    rewrite pages_map_big in Hown' by done.
    assert (m !! a = None) as Hma.
    { apply eq_None_not_Some. intros [sz' Hsz'].
      destruct (Hfrom _ _ Hsz') as [(g & o & Hg & -> & [Hor _] & _)|Hb]; [|congruence].
      assert (pages_map gs (<[g_pa g + o := sz]> big) !! g_pa g = Some 1) as H1
        by (by rewrite pages_map_lookup, decide_True by (by apply list_elem_of_fmap_2)).
      assert (pages_map gs (<[g_pa g + o := sz]> big) !! (g_pa g + o)
        = Some (npages_of sz)) as H2
        by (by rewrite pages_map_lookup, decide_False, lookup_insert_eq).
      destruct (pages_disjoint _ _ _ _ _ _ Hown' H1 H2); [|lia|nia].
      intros Heq. apply Hout. rewrite <- Heq. by apply list_elem_of_fmap_2. }
    split; [done|]. exists gs, (<[a := sz]> big). split; [|done]. split; try done.
    + intros g Hg. rewrite lookup_insert_ne; [by apply Hapart|].
      intros ->. apply Hout. by apply list_elem_of_fmap_2.
    + intros b k [[<- <-]|[_ ?]]%lookup_insert_Some; [lia|by eapply Hbig].
    + split.
      * intros b k [[<- <-]|[Hne Hb]]%lookup_insert_Some;
          [right; by rewrite lookup_insert_eq|].
        rewrite lookup_insert_ne by done. by apply Hfrom.
      * intros g o Hg Ho Hn. destruct (decide (g_pa g + o = a)) as [<-|];
          [rewrite lookup_insert_eq; by eexists|].
        rewrite lookup_insert_ne by done. by apply Hsmall.
      * intros b k [[<- <-]|[Hne Hb]]%lookup_insert_Some; [by rewrite lookup_insert_eq|].
        rewrite lookup_insert_ne by done. by apply Hbigm.
Qed.

(** ** Taking a block back *)

Lemma owns_give s m l1 g l2 big o h' :
  owns_with s m (l1 ++ g :: l2) big → off_ok (g_type g) o → (o ∉ g_free g) →
  kh_inv h' (l1 ++ with_free (o :: g_free g) g :: l2) [] →
  owns_with (s.1, h') (delete (g_pa g + o) m) (l1 ++ with_free (o :: g_free g) g :: l2) big.
Proof.
  intros Hown Ho Hon Hinv'. set (g1 := with_free _ g).
  assert (g ∈ l1 ++ g :: l2) as Hg by in_app.
  pose proof Hown as [Hpages Hinv Hapart Hbig [Hfrom Hsmall Hbigm]].
  pose proof (ki_pas _ _ _ Hinv) as Hpas.
  destruct (ki_pages _ _ _ Hinv g Hg) as [Ht Hpa _ _ _ _].
  assert (∀ g', g' ∈ l1 ++ g1 :: l2 → g' = g1 ∨ g' ∈ l1 ∨ g' ∈ l2)
    as Hcases by (intros g'; in_app).
  split; try done.
  - unfold g1. by rewrite pages_map_update.
  - intros g' [->|Hg']%Hcases; [by apply (Hapart g)|apply Hapart; in_app].
  - split.
    + intros a sz [Hne Ha]%lookup_delete_Some.
      destruct (Hfrom a sz Ha) as [(g' & o' & Hg' & -> & Ho' & Hn & Hs)|Hb]; [left|by right].
      destruct (decide (g' = g)) as [->|Hgg].
      * exists g1, o'. split; [in_app|]. split; [done|]. split; [done|].
        split; [|done]. cbn [g_free g1 with_free]. rewrite elem_of_cons.
        intros [->|?]; [by apply Hne|done].
      * exists g', o'. split; [in_app|]. split_done.
    + intros g' o' Hg' Ho' Hn'. destruct (Hcases g' Hg') as [->|Hg''].
      * cbn [g_pa g_free g_type g1 with_free] in *. rewrite elem_of_cons in Hn'.
        rewrite lookup_delete_ne; [|intros Heq; apply Hn'; left; lia].
        apply Hsmall; [done|done|]. tauto.
      * assert (g' ∈ l1 ++ g :: l2) as Hin by in_app.
        destruct (ki_pages _ _ _ Hinv g' Hin) as [_ Hpa' _ _ _ _].
        rewrite lookup_delete_ne; [by apply Hsmall|]. intros Heq.
        destruct Ho as [Hor _], Ho' as [Hor' _].
        destruct (small_place_inj g g' o o') as [Hpp _]; [done..|].
        by apply (NoDup_middle_ne g_pa l1 g l2 g').
    + intros a sz Ha. rewrite lookup_delete_ne; [by apply Hbigm|]. intros <-.
      destruct (npages_of_bounds sz) as [Hn1 Hn2]; [by eapply Hbig|]. destruct Ho as [Hor _].
      destruct (ow_big_apart _ _ _ _ _ _ _ Hown Ha Hg); unfold PAGE_SIZE in *; lia.
Qed.

(** A page without a block in use can go. *)
Lemma owns_drop s m l1 g l2 big (sp' : P) h' :
  owns_with s m (l1 ++ g :: l2) big →
  Z.of_nat (length (g_free g)) = nblocks (g_type g) →
  pages_own sp' (delete (g_pa g) (pages_map (l1 ++ g :: l2) big)) →
  kh_inv h' (l1 ++ l2) [] →
  owns_with (sp', h') m (l1 ++ l2) big.
Proof.
  intros Hown Hfull Hp' Hinv'.
  assert (g ∈ l1 ++ g :: l2) as Hg by in_app.
  pose proof Hown as [Hpages Hinv Hapart Hbig [Hfrom Hsmall Hbigm]].
  destruct (ki_pages _ _ _ Hinv g Hg) as [Ht Hpa _ Hnd Hoff _].
  rewrite pages_map_remove in Hp' by (apply Hinv || by apply Hapart).
  split; try done.
  - intros g' Hg'. apply Hapart. in_app.
  - split; [| |done].
    + intros a sz Ha.
      destruct (Hfrom a sz Ha) as [(g' & o' & Hg' & -> & Ho' & Hn & Hs)|Hb]; [left|by right].
      destruct (decide (g' = g)) as [->|Hgg].
      * exfalso. apply Hn. by eapply off_ok_full.
      * exists g', o'. split; [in_app|]. split_done.
    + intros g' o' Hg' Ho' Hn'. apply Hsmall; [in_app|done|done].
Qed.

Lemma put_back_ok s m l1 g l2 big o p :
  owns_with s m (l1 ++ g :: l2) big → (∀ g', g' ∈ l1 ++ g :: l2 → partly g') →
  off_ok (g_type g) o → (o ∉ g_free g) →
  zlookup (pagerefs s.2) (g_pr g) = Some p → ref_ok p g →
  wp safe
    (on_kheap (fill_deadbeef (g_pa g + o) (bsize (g_type g)));;
     on_kheap (store_word (u32 (g_pa g + o))
       (if freelist_offset p =? INVALID_OFFSET then 0
        else u32 (g_pa g + freelist_offset p)));;
     on_kheap (set_pr (g_pr g) (MkPageref (next_samesize p) (next_all p)
       (pageaddr_and_blocktype p) (u16 o) (u16 (nfree p + 1))));;
     assert (u16 (nfree p + 1) <=? nblocks (g_type g));;
     when (u16 (nfree p + 1) =? nblocks (g_type g)) (
       on_kheap (remove_lists (g_pr g) (g_type g));;
       on_pages (free_kpages (g_pa g));;
       on_kheap (freepageref (g_pr g)));;
     mret 0) s
    (λ r s', r = 0 ∧ cpu_of s'.1 = cpu_of s.1 ∧ kheap_owns s' (delete (g_pa g + o) m)) noerr.
Proof.
  intros Hown Hpart Ho Hon Hp Href. destruct s as [sp h]. cbn [fst snd] in *.
  assert (g ∈ l1 ++ g :: l2) as Hg by in_app.
  pose proof (ow_inv _ _ _ _ Hown) as Hinv. cbn [snd] in Hinv.
  destruct (ki_pages _ _ _ Hinv g Hg) as [Ht Hpa _ Hnd Hoff Hch].
  pose proof (bsize_bounds _ Ht). pose proof (nblocks_bounds _ Ht).
  pose proof (off_ok_end _ _ Ht Ho) as Hend. pose proof Ho as [Hor _].
  pose proof Hpa as (_ & Hlo & Hhi). unfold MIPS_KSEG0, MIPS_KSEG1, PAGE_SIZE in *.
  pose proof (Hpart g Hg) as Hless. unfold partly in Hless.
  destruct Href as [Hpab Hnf Hfo]. rewrite Hnf, (u16_small (_ + 1)), (u16_small o) by lia.
  assert (NoDup (o :: g_free g)) as Hnd' by (by apply list.NoDup_cons).
  assert (Forall (off_ok (g_type g)) (o :: g_free g)) as Hoff' by (by apply list.Forall_cons).
  wp_steps. apply wp_on_kheap, fill_deadbeef_ok; [lia..|]. intros mm Hmm.
  wp_steps. apply wp_on_kheap, store_word_ok. wp_steps. rewrite (u32_small (_ + o)) by lia.
  apply wp_on_kheap. eapply set_pr_ok; [exact Hp|]. wp_steps.
  cbn [pagerefs set_mem mem].
  assert ((if freelist_offset p =? INVALID_OFFSET then 0 else u32 (g_pa g + freelist_offset p))
    = match g_free g with [] => 0 | o' :: _ => g_pa g + o' end) as ->.
  { rewrite Hfo. destruct (g_free g) as [|o' fs]; simpl; [done|].
    apply list.Forall_cons in Hoff as [[Hor' _] _]. unfold INVALID_OFFSET, PAGE_SIZE in *.
    destruct (Z.eqb_spec o' 0xffff); [lia|]. apply u32_small. lia. }
  set (w := match g_free g with [] => 0 | o' :: _ => g_pa g + o' end).
  set (p' := MkPageref _ _ _ _ _).
  assert (kh_inv (set_mem (<[g_pa g + o := w]> mm)
      (set_pagerefs (<[Z.to_nat (g_pr g) := p']> (pagerefs h)) h))
      (l1 ++ with_free (o :: g_free g) g :: l2) []) as Hinv1.
  { apply (kh_inv_update h l1 g l2 [] p p' (o :: g_free g)); try done.
    - split; simpl; [done|lia|done].
    - apply free_chain_cons; [apply lookup_insert_eq|].
      eapply free_chain_agree; [|done]. intros o' Ho'.
      assert (off_ok (g_type g) o') as Hoo by (rewrite list.Forall_forall in Hoff; by apply Hoff).
      assert (o ≠ o') by (intros ->; done).
      destruct (off_ok_apart _ _ _ Ht Ho Hoo); [done|..];
        rewrite lookup_insert_ne by lia; apply Hmm; lia.
    - unfold PAGE_SIZE. intros a Ha. rewrite lookup_insert_ne by lia. apply Hmm. lia. }
  apply (owns_give (sp, h) m l1 g l2 big o) in Hinv1; [|done..]. cbn [fst] in Hinv1.
  change (owns_with (sp, set_pagerefs (<[Z.to_nat (g_pr g) := p']> (pagerefs h))
    (set_mem (<[g_pa g + o := w]> mm) (set_mem mm h)))
    (delete (g_pa g + o) m) (l1 ++ with_free (o :: g_free g) g :: l2) big) in Hinv1.
  set (h1 := set_pagerefs _ _) in *. apply wp_assert; [lia|]. wp_steps.
  apply wp_when; intros Hfull; wp_steps.
  - apply wp_on_kheap.
    eapply (remove_lists_ok _ h1 l1 (with_free (o :: g_free g) g) l2);
      [apply (ow_inv _ _ _ _ Hinv1)|].
    intros h2 Hinv2. wp_steps. apply wp_on_pages.
    eapply wp_mono; [apply free_kpages_law; [apply (ow_pages _ _ _ _ Hinv1)|]| |done].
    { cbn [fst]. rewrite pages_map_lookup, decide_True; [by eexists|].
      rewrite fmap_app, fmap_cons. in_app. }
    intros [] sp2 [Hcpu2 Hown2]. cbn [fst] in Hcpu2, Hown2. apply wp_on_kheap.
    cbn [g_pr with_free] in Hinv2. pose proof (kh_inv_pr_range _ _ _ _ Hinv Hg) as Hprr.
    assert (g_pr g ∉ g_pr <$> l1 ++ l2) as Hprn.
    { intros (y & Heq & Hy)%list_elem_of_fmap.
      apply (NoDup_middle_ne g_pr l1 g l2 y); [apply Hinv|in_app|done]. }
    eapply freepageref_ok; [apply Hinv2|done| |].
    { apply (ki_used _ _ _ Hinv2); [done|]. by left. }
    intros l' Hl' Hbits. wp_steps. split; [done|]. split; [done|].
    exists (l1 ++ l2), big. split.
    + eapply (owns_drop _ _ l1 (with_free (o :: g_free g) g)); [exact Hinv1| |done|].
      * cbn [g_free g_type with_free length]. lia.
      * by eapply kh_inv_free_ref.
    + intros g' Hg'. apply Hpart. in_app.
  - split; [done|]. split; [done|]. eexists _, _. split; [exact Hinv1|].
    intros g' Hg'. assert (g' = with_free (o :: g_free g) g ∨ g' ∈ l1 ++ g :: l2) as [->|]
      by in_app; [|by apply Hpart].
    unfold partly. cbn [g_free g_type with_free length]. lia.
Qed.

Lemma allbase_head h gs extra : kh_inv h gs extra → allbase h = head (g_pr <$> gs).
Proof.
  intros Hinv. pose proof (ki_all _ _ _ Hinv) as Hl.
  destruct gs; simpl in *; [congruence|]. destruct Hl. congruence.
Qed.

(** What [subpage_kfree] finds: the page of a small block, nothing for a large
    one *)
Lemma subpage_kfree_small s m gs big g o :
  owns_with s m gs big → (∀ g', g' ∈ gs → partly g') →
  g ∈ gs → off_ok (g_type g) o → (o ∉ g_free g) →
  wp safe (subpage_kfree (g_pa g + o)) s
    (λ r s', r = 0 ∧ cpu_of s'.1 = cpu_of s.1 ∧ kheap_owns s' (delete (g_pa g + o) m)) noerr.
Proof.
  intros Hown Hpart Hg Ho Hon. pose proof (owns_cpu_wf _ _ _ _ Hown) as Hwf.
  unfold subpage_kfree. apply wp_with_splhigh. set (cpu0 := cpu_of s) in *.
  assert (cpu_of s.1 = cpu0) as Hcpu0 by done. rewrite Hcpu0.
  apply (owns_with_spl _ _ _ _ SPL_HIGH) in Hown; [|done].
  assert (cpu_of (set_cpu (spl_set SPL_HIGH (cpu_of s)) s).1 = spl_set SPL_HIGH cpu0)
    as Hcpu1 by apply cpu_of_set.
  fold cpu0 in Hown |- *. set (s1 := set_cpu _ _) in *. clearbody s1. clear Hcpu0.
  eapply wp_mono with (Q := λ r s', r = 0 ∧ cpu_of s'.1 = cpu_of s1.1 ∧
    kheap_owns s' (delete (g_pa g + o) m)); [| |done].
  2:{ intros r s' (-> & Hc & gs' & big' & Hown' & Hpart'). split; [done|].
      change (cpu_of s') with (cpu_of s'.1). rewrite Hc, Hcpu1, spl_set_back by done.
      split; [apply cpu_of_set|]. exists gs', big'. split; [|done].
      pose proof (owns_with_spl _ _ _ _ (curspl cpu0) Hown' (wf_spl _ Hwf)) as Hres.
      change (cpu_of s') with (cpu_of s'.1) in Hres.
      by rewrite Hc, Hcpu1, spl_set_back in Hres by done. }
  destruct s1 as [sp h]. pose proof (ow_inv _ _ _ _ Hown) as Hinv. cbn [snd] in Hinv.
  wp_steps. cbn [snd]. rewrite (allbase_head _ _ _ Hinv). apply wp_on_kheap.
  destruct (ki_pages _ _ _ Hinv g Hg) as [Ht Hpa (p & Hp & Href) _ _ _].
  pose proof Hpa as (_ & Hlo & Hhi). pose proof Ho as [Hor _].
  unfold MIPS_KSEG0, MIPS_KSEG1, PAGE_SIZE in *.
  eapply (find_page_ok _ _ gs); [done|lia| | |by intros|apply Hinv|].
  - intros g' Hg' Hin. assert (g' = g) as ->.
    { eapply (NoDup_fmap_inj_on g_pa); [apply Hinv|done..|].
      destruct (ki_pages _ _ _ Hinv g' Hg') as [_ Hpa' _ _ _ _].
      destruct (decide (g_pa g' = g_pa g)) as [|Hne]; [done|].
      destruct (pages_apart _ _ Hpa' Hpa Hne); unfold PAGE_SIZE in *; lia. }
    destruct (ref_ok_page _ _ Ht Hpa Href) as [Hpage Htype].
    wp_steps. apply wp_on_kheap. eapply get_pr_ok; [done|]. rewrite Hpage, Htype.
    wp_steps. apply wp_on_kheap. unfold size_of.
    eapply wp_the; [by apply sizes_lookup|]. cbv beta zeta.
    replace (g_pa g + o - g_pa g) with o by lia. rewrite (u32_small o) by lia.
    destruct Ho as [_ Hmod]. unfold PAGE_SIZE. rewrite Hmod.
    destruct (Z.leb_spec 4096 o); [lia|]. simpl (_ || _). cbv iota.
    apply wp_bind, wp_ret. cbv beta.
    change 4096 with PAGE_SIZE. rewrite page_div_bsize by done.
    apply list_elem_of_split in Hg as (l1 & l2 & ->).
    by eapply (put_back_ok (sp, h) m l1 g l2 big o p).
  - pose proof (kh_inv_length _ _ _ Hinv). unfold list_fuel. lia.
  - intros Hnone. exfalso. apply (Hnone g Hg). unfold PAGE_SIZE. lia.
Qed.

Lemma subpage_kfree_big s m gs big a sz :
  owns_with s m gs big → big !! a = Some sz →
  wp safe (subpage_kfree a) s (λ r s', r = -1 ∧ s' = s) noerr.
Proof.
  intros Hown Ha. pose proof (owns_cpu_wf _ _ _ _ Hown) as Hwf.
  unfold subpage_kfree. apply wp_with_splhigh. destruct s as [sp h].
  pose proof (ow_inv _ _ _ _ Hown) as Hinv. cbn [snd] in Hinv.
  destruct (ow_big_page _ _ _ _ _ _ Hown Ha) as [_ Hpm].
  destruct (pages_range _ _ _ _ (ow_pages _ _ _ _ Hown) Hpm) as (Hn & _ & Hlo & _).
  destruct (npages_of_bounds sz) as [Hn1 Hn2]; [by eapply ow_big|].
  wp_steps. cbn [snd set_cpu pair_has_cpu pair_set_cpu].
  rewrite (allbase_head _ _ _ Hinv). apply wp_on_kheap.
  unfold MIPS_KSEG0 in Hlo. eapply (find_page_ok _ _ gs); [done|lia| | |by intros|apply Hinv|].
  - intros g Hg Hin. exfalso.
    destruct (ow_big_apart _ _ _ _ _ _ _ Hown Ha Hg); unfold PAGE_SIZE in *; lia.
  - pose proof (kh_inv_length _ _ _ Hinv). unfold list_fuel. lia.
  - intros _. wp_steps. split; [done|]. cpu_simpl.
    unfold pair_set_cpu, pair_cpu_of. cbn [fst snd].
    rewrite cpu_of_set, spl_set_back, set_cpu_set, set_cpu_of by done. done.
Qed.

Lemma kfree_ok s m p :
  kheap_owns s m → is_Some (m !! p) →
  wp safe (kfree p) s
    (λ _ s', cpu_of s'.1 = cpu_of s.1 ∧ kheap_owns s' (delete p m)) noerr.
Proof.
  intros Hs [sz Hp]. unfold kfree.
  destruct (Z.eqb_spec p 0) as [->|]; [by rewrite (kheap_null s m Hs) in Hp|].
  destruct Hs as (gs & big & Hown & Hpart). wp_steps.
  destruct (ow_live_cases _ _ _ _ _ _ Hown Hp)
    as [(g & o & Hg & _ & -> & Ho & Hon & _)|[Hb Hsz]].
  - eapply wp_mono; [by eapply subpage_kfree_small| |done].
    intros r s' (-> & Hc & Hown'). simpl (negb _). cbv iota. by wp_steps.
  - eapply wp_mono; [by eapply subpage_kfree_big| |done].
    intros r s' [-> ->]. simpl (negb _). cbv iota.
    destruct (ow_big_page _ _ _ _ _ _ Hown Hb) as [Hout Hpm].
    destruct (pages_range _ _ _ _ (ow_pages _ _ _ _ Hown) Hpm) as (_ & Hal & _).
    wp_assert by (rewrite Hal; done). destruct s as [sp h]. apply wp_on_pages.
    eapply wp_mono; [apply free_kpages_law; [apply (ow_pages _ _ _ _ Hown)|by eexists]| |done].
    intros [] sp' [Hc Hown']. split; [done|]. exists gs, (delete p big). split; [|done].
    rewrite pages_map_unbig in Hown' by done.
    destruct Hown as [Hpages Hinv Hapart Hbig [Hfrom Hsmall Hbigm]]. split; try done.
    + intros g Hg. apply lookup_delete_None. right. by apply Hapart.
    + intros a k [_ Hk]%lookup_delete_Some. by eapply Hbig.
    + split.
      * intros a k [Hne Ha]%lookup_delete_Some. destruct (Hfrom a k Ha); [by left|right].
        by rewrite lookup_delete_ne.
      * intros g o Hg Ho Hon. rewrite lookup_delete_ne; [by apply Hsmall|].
        intros Heq. destruct Ho as [Hor _].
        assert (owns_with (sp, h) m gs big) as Hown by (by split).
        destruct (npages_of_bounds sz Hsz).
        destruct (ow_big_apart _ _ _ _ _ _ _ Hown Hb Hg); unfold PAGE_SIZE in *; lia.
      * intros a k [Hne Ha]%lookup_delete_Some. rewrite lookup_delete_ne by done.
        by apply Hbigm.
Qed.
End laws.

(** ** The instance *)

#[global] Instance kheap_heap {P} `{!HasCpu P} `{!KPages P} : KHeap (KH P) :=
  {| KMem.kmalloc := Kheap.kmalloc; KMem.kfree := Kheap.kfree |}.

#[global, refine] Instance kheap_laws {P} `{!HasCpu P} `{!KPages P} `{!KPagesLaws P} :
    KHeapLaws (KH P) :=
  {| heap_owns := kheap_owns;
     heap_owns_null := kheap_null;
     heap_owns_disjoint := kheap_disjoint |}.
Proof.
  - intros s m sz Hs Hsz. eapply wp_mono; [by apply kmalloc_ok| |done]. by intros p s' [_ ?].
  - intros s m p Hs Hp. eapply wp_mono; [by apply kfree_ok| |done]. by intros [] s' [_ ?].
  - done.
Defined.

(** ** Correctness *)

(** The globals of kheap.c describe an empty heap. *)
Lemma kheap_init_inv : kh_inv kheap_init [] [].
Proof.
  split; try done.
  - split; [done|]. by apply (Forall_replicate is_u32 8 0).
  - intros i Hi. change (pagerefs_inuse kheap_init) with (replicate 8 0).
    assert (ref_used (replicate 8 0) i = false) as ->.
    { unfold ref_used. destruct (zlookup (replicate 8 0) (i / 32)) as [w|] eqn:Hw; [|done].
      unfold zlookup in Hw. destruct (0 <=? i / 32); [|done].
      apply lookup_replicate in Hw as [-> _]. apply Z.testbit_0_l. }
    split; [done|]. by intros ?%elem_of_nil.
  - constructor.
  - constructor.
  - intros t Ht. by_type Ht; done.
  - by intros g ?%elem_of_nil.
Qed.

Lemma kheap_init_owns {P} `{!HasCpu P} `{!KPages P} `{!KPagesLaws P} (sp : P) :
  pages_own sp ∅ → kheap_owns (sp, kheap_init) ∅.
Proof.
  intros Hsp. exists [], ∅. split; [|by intros g ?%elem_of_nil].
  split; [done|apply kheap_init_inv|by intros g ?%elem_of_nil|done|].
  split; [done|by intros g o ?%elem_of_nil|done].
Qed.

Section correctness.
Context {P : Type} `{!HasCpu P} `{!KPages P} `{!KPagesLaws P}.

(** C1: [kmalloc] either returns NULL and leaves the blocks in use as they were, or
    returns a fresh block of at least [sz] bytes that overlaps no block in use.
    It leaves the interrupt level and the current thread as they were, and the
    only way it can stop the machine is for lack of physical pages. *)
Theorem kmalloc_spec (s : KH P) m sz :
  kheap_owns s m → 0 ≤ sz < 2 ^ 31 →
  wp safe_oom (Kheap.kmalloc sz) s
    (λ p s', cpu_of s'.1 = cpu_of s.1 ∧
       ((p = 0 ∧ kheap_owns s' m) ∨
        (p ≠ 0 ∧ m !! p = None ∧ kheap_owns s' (<[p := sz]> m) ∧
         ∀ b k, m !! b = Some k → p + sz ≤ b ∨ b + k ≤ p))) noerr.
Proof.
  intros Hs Hsz. eapply wp_mono; [by apply kmalloc_ok| |done].
  intros p s' [Hc [Hnull|(Hp & Hm & Hown)]]; (split; [done|]); [by left|right].
  split; [done|]. split; [done|]. split; [done|]. intros b k Hb.
  assert (p ≠ b) as Hne by (intros ->; congruence).
  eapply (kheap_disjoint s' _ p sz b k); [done|apply lookup_insert_eq| |done].
  by rewrite lookup_insert_ne.
Qed.

(** C2: [kfree] of a block in use never fails an assertion, whatever size class or
    page the block is in: it takes that block out of use and no other, and gives
    the page back when it was the page's last block. *)
Theorem kfree_spec (s : KH P) m p :
  kheap_owns s m → is_Some (m !! p) →
  wp safe (Kheap.kfree p) s
    (λ _ s', cpu_of s'.1 = cpu_of s.1 ∧ kheap_owns s' (delete p m)) noerr.
Proof. apply kfree_ok. Qed.
End correctness.

(** ** The heap of the booted kernel *)

Definition ex_kernel : KH CM := ((ex_cpu, ex_cmap), kheap_init).

Lemma ex_kernel_owns : kheap_owns ex_kernel ∅.
Proof. apply kheap_init_owns, ex_pages_own. Qed.

(** The first block of 20 bytes is the last block of 32 bytes of page 48. *)
Lemma kmalloc_spec_witness :
  wp safe_oom (Kheap.kmalloc 20) ex_kernel
    (λ p s', cpu_of s'.1 = cpu_of ex_kernel.1 ∧
       ((p = 0 ∧ kheap_owns s' ∅) ∨
        (p ≠ 0 ∧ (∅ : gmap Z Z) !! p = None ∧ kheap_owns s' (<[p := 20]> ∅) ∧
         ∀ b k, (∅ : gmap Z Z) !! b = Some k → p + 20 ≤ b ∨ b + k ≤ p))) noerr ∧
  ∃ s', Kheap.kmalloc 20 ex_kernel = Ret 0x80030fe0 s'.
Proof.
  split; [apply (kmalloc_spec ex_kernel ∅ 20); [apply ex_kernel_owns|lia]|].
  eexists. vm_compute. reflexivity.
Defined.

Definition ex_kernel1 : KH CM :=
  match Kheap.kmalloc 20 ex_kernel with Ret _ s => s | _ => ex_kernel end.

Lemma ex_kernel1_owns : kheap_owns ex_kernel1 {[0x80030fe0 := 20]}.
Proof.
  assert (∃ s', Kheap.kmalloc 20 ex_kernel = Ret 0x80030fe0 s') as [s' Hrun]
    by (eexists; vm_compute; reflexivity).
  pose proof (wp_returns _ _ _ _ _ _ _
    (kmalloc_ok ex_kernel ∅ 20 ex_kernel_owns ltac:(lia)) Hrun) as Hpost.
  unfold ex_kernel1. rewrite Hrun. by destruct Hpost as [_ [[? _]|(_ & _ & ?)]].
Qed.

Lemma kfree_spec_witness :
  wp safe (Kheap.kfree 0x80030fe0) ex_kernel1
    (λ _ s', cpu_of s'.1 = cpu_of ex_kernel1.1 ∧
       kheap_owns s' (delete 0x80030fe0 {[0x80030fe0 := 20]})) noerr.
Proof.
  apply (kfree_spec ex_kernel1 {[0x80030fe0 := 20]});
    [apply ex_kernel1_owns|by rewrite lookup_singleton_eq].
Defined.
