(* ===== verification/Frames.v ===== *)
(** * Page frames: the interface between the page tables and the coremap

    The operations of the coremap that pt.c uses, as an interface with its
    contract, and the proof that the coremap meets it. Ownership is that of
    KPages.v: [pages_own s m] says that the runs of pages in [m], by their kernel
    address, have been handed out. A frame at physical address [p] is the page at
    kernel address [p + MIPS_KSEG0]. After boot an allocation that finds no room
    stops the kernel, so it never returns 0. *)

From Stdlib Require Import ZArith Lia.
From stdpp Require Import base list gmap numbers.
From S2P Require Import Prelude Cpu Coremap KPages.

Local Open Scope Z_scope.

Class Frames (P : Type) `{!HasCpu P} `{!KPages P} := {
  getpages : Z → M P Z;
  freepages : Z → M P ();
  setpagevaddr : Z → Z → Z → M P ();
  setpagefixed : Z → Z → M P ();
}.

Definition kaddr (paddr : Z) : Z := paddr + MIPS_KSEG0.

Class FramesLaws (P : Type) `{!HasCpu P} `{!KPages P} `{!KPagesLaws P} `{!Frames P} := {
  alloc_page_law s m :
    pages_own s m →
    wp safe_oom (alloc_kpages 1) s
      (λ a s', cpu_of s' = cpu_of s ∧ m !! a = None ∧ pages_own s' (<[a := 1]> m)) noerr;
  getpages_law s m :
    pages_own s m →
    wp safe_oom (getpages 1) s
      (λ p s', cpu_of s' = cpu_of s ∧ p ≠ 0 ∧ m !! kaddr p = None ∧
         pages_own s' (<[kaddr p := 1]> m)) noerr;
  freepages_law s m p :
    pages_own s m → is_Some (m !! kaddr p) →
    wp safe (freepages p) s
      (λ _ s', cpu_of s' = cpu_of s ∧ pages_own s' (delete (kaddr p) m)) noerr;
  (* these take an address anywhere in the page *)
  setpagevaddr_law s m p off as_ vaddr :
    pages_own s m → is_Some (m !! kaddr p) → 0 ≤ off < PAGE_SIZE →
    wp safe (setpagevaddr (p + off) as_ vaddr) s
      (λ _ s', cpu_of s' = cpu_of s ∧ pages_own s' m) noerr;
  setpagefixed_law s m p off fixed :
    pages_own s m → is_Some (m !! kaddr p) → 0 ≤ off < PAGE_SIZE →
    wp safe (setpagefixed (p + off) fixed) s
      (λ _ s', cpu_of s' = cpu_of s ∧ pages_own s' m) noerr;
}.

#[global] Instance coremap_frames : Frames CM :=
  {| getpages := coremap_getpages;
     freepages := coremap_freepages;
     setpagevaddr := coremap_setpagevaddr;
     setpagefixed := coremap_setpagefixed |}.

Section coremap_frames.
Implicit Types s : CM.

Lemma coremap_getpages_own s m n :
  coremap_pages_own s m → 0 < n < 2 ^ 31 →
  wp safe_oom (coremap_getpages n) s
    (λ p s', s'.1 = s.1 ∧ p ≠ 0 ∧ m !! kaddr p = None ∧
       coremap_pages_own s' (<[kaddr p := n]> m)) noerr.
Proof.
  destruct s as [p c]. intros (Hp & Hwf & Hres & Hm) Hn. simpl in *.
  pose proof (cm_table _ (proj1 Hwf)) as Htab.
  apply wp_faults with (no_room c n); [|by intros f [-> _]].
  eapply wp_mono; [by apply coremap_getpages_ok| |done].
  intros paddr [p' c'] (a & l' & -> & -> & [Hrun _] & Hfill & -> & Hwf').
  assert (reserved l' 1) as Hres' by (apply (reserved_alloc (coremap c) l' a n); auto; lia).
  assert (block_at l' a n) as Ha by (apply (block_at_filled (coremap c) l' a n); auto; lia).
  pose proof (proj2 Hres' _ _ Ha). split; [done|]. unfold kaddr.
  split; [unfold PAGE_SIZE; lia|]. split; [|split; [done|]; split; [done|]; split; [done|]].
  - apply eq_None_not_Some. intros [k Hk]. destruct (Hm _ _ Hk) as (b & Heq & Hb).
    assert (b = a) as -> by (unfold PAGE_SIZE in *; lia).
    pose proof (block_positive _ _ _ Htab Hb).
    apply (run_block_disjoint _ _ _ _ _ Htab Hrun Hb 0); lia.
  - intros b k [[<- <-]|[Hne Hk]]%lookup_insert_Some; simpl; [by exists a|].
    destruct (Hm _ _ Hk) as (b' & -> & Hb'). exists b'. split; [done|].
    apply (block_at_filled (coremap c) l' a n); auto; lia.
Qed.

Lemma coremap_freepages_own s m p :
  coremap_pages_own s m → is_Some (m !! kaddr p) →
  wp safe (coremap_freepages p) s
    (λ _ s', s'.1 = s.1 ∧ coremap_pages_own s' (delete (kaddr p) m)) noerr.
Proof.
  destruct s as [cp c]. intros (Hp & Hwf & Hres & Hm) [n Ha]. simpl in *.
  destruct (Hm _ _ Ha) as (b & Hkb & Hb). pose proof Hb as (q & Hq & Hqn & Hn).
  assert (p = b * PAGE_SIZE) as -> by (unfold kaddr in Hkb; lia).
  pose proof (cm_table _ (proj1 Hwf)) as Htab.
  eapply wp_mono; [apply (coremap_freepages_ok safe _ _ _ q);
    [done|done|by rewrite Z.div_mul]| |done].
  intros [] [p' c'] (-> & Hwf' & Hrest). rewrite Z.div_mul in Hrest by done.
  destruct (Z.eqb_spec (page_count q) 0); [lia|].
  destruct Hrest as (l' & Hfill & ->). rewrite Hqn in Hfill.
  split; [done|]. split; [done|]. split; [done|].
  split; [by eapply reserved_release|].
  intros a' k [Hne Hk]%lookup_delete_Some. simpl.
  destruct (Hm _ _ Hk) as (b' & -> & Hb'). exists b'. split; [done|].
  apply (block_at_released (coremap c) l' b n); auto. split; [|done]. by intros ->.
Qed.

(** Changing the attributes of a page keeps what is owned. *)
Lemma with_page_own p c i q q' m :
  coremap_pages_own (p, c) m → zlookup (coremap c) i = Some q →
  state q' ≠ FREE → page_count q' = page_count q → cm_wf (with_page i q' c) →
  coremap_pages_own (p, with_page i q' c) m.
Proof.
  intros (Hp & Hwf & Hres & Hm) Hq Hs Hc Hwf'. split; [done|]. split; [done|]. simpl in *.
  split; [by eapply reserved_page|]. intros a n Ha. destruct (Hm a n Ha) as (b & -> & Hb).
  exists b. split; [done|]. by eapply block_at_page.
Qed.

(** The entry of an owned page *)
Lemma owned_entry p c m a off :
  coremap_pages_own (p, c) m → is_Some (m !! kaddr a) → 0 ≤ off < PAGE_SIZE →
  ∃ q, zlookup (coremap c) ((a + off) / PAGE_SIZE) = Some q.
Proof.
  intros (_ & _ & _ & Hm) [n Ha] Hoff. destruct (Hm _ _ Ha) as (b & Hkb & q & Hq & _).
  exists q. assert (a = b * PAGE_SIZE) as -> by (unfold kaddr in Hkb; lia).
  rewrite Z.div_add_l, (Z.div_small off) by (done || lia). by rewrite Z.add_0_r.
Qed.
End coremap_frames.

#[global] Instance coremap_frames_laws : FramesLaws CM.
Proof.
  split.
  - intros s m Hs. eapply wp_mono; [by apply coremap_alloc_kpages_ok| |done].
    intros a s' (? & _ & ? & ?). done.
  - intros s m Hs. by apply coremap_getpages_own.
  - intros s m p Hs Hp. by apply coremap_freepages_own.
  - intros [p c] m a off as_ vaddr Hs Ha Hoff.
    destruct (owned_entry p c m a off Hs Ha Hoff) as [q Hq].
    pose proof Hs as (Hp & Hwf & _). eapply wp_mono; [by apply coremap_setpagevaddr_ok| |done].
    intros [] [p' c'] (-> & Hwf' & ->). split; [done|].
    case_bool_decide; [done|]. by eapply with_page_own.
  - intros [p c] m a off fixed Hs Ha Hoff.
    destruct (owned_entry p c m a off Hs Ha Hoff) as [q Hq].
    pose proof Hs as (Hp & Hwf & _). eapply wp_mono; [by apply coremap_setpagefixed_ok| |done].
    intros [] [p' c'] (-> & Hwf' & ->). split; [done|].
    case_bool_decide; [done|]. eapply with_page_own; try done. by destruct (fixed =? 0).
Defined.
