(* ===== verification/VmStats.v ===== *)
(** * Counters of the virtual memory system

    Model of kern/vm/uw-vmstats.c. The counters are unsigned ints; [stats_lock]
    is the address of the lock, 0 before [vmstats_init]. Printing yields the
    lines it prints. *)

From Stdlib Require Import ZArith Lia.
From stdpp Require Import base list gmap numbers.
From S2P Require Import Prelude Cpu.

Local Open Scope Z_scope.

Definition VMSTAT_TLB_FAULT : Z := 0.
Definition VMSTAT_TLB_FAULT_FREE : Z := 1.
Definition VMSTAT_TLB_FAULT_REPLACE : Z := 2.
Definition VMSTAT_TLB_INVALIDATE : Z := 3.
Definition VMSTAT_TLB_RELOAD : Z := 4.
Definition VMSTAT_PAGE_FAULT_ZERO : Z := 5.
Definition VMSTAT_PAGE_FAULT_DISK : Z := 6.
Definition VMSTAT_ELF_FILE_READ : Z := 7.
Definition VMSTAT_SWAP_FILE_READ : Z := 8.
Definition VMSTAT_SWAP_FILE_WRITE : Z := 9.
Definition VMSTAT_COUNT : Z := 10.

Record vmstats := MkStats {
  stats_counts : list Z;
  stats_lock : Z;
  stats_owner : Z;
}.

Definition ST : Type := cpu * vmstats.

Definition set_counts (l : list Z) (v : vmstats) : vmstats :=
  MkStats l (stats_lock v) (stats_owner v).
Definition get_stats_owner (s : ST) : Z := stats_owner s.2.
Definition set_stats_owner (o : Z) (s : ST) : ST :=
  (s.1, MkStats (stats_counts s.2) (stats_lock s.2) o).

#[global] Instance stats_lock_lens : LockLens get_stats_owner set_stats_owner.
Proof. split; intros; try done; by destruct s as [? []]. Qed.

(** [stats_counts[i]] *)
Definition count (v : vmstats) (i : Z) : Z := default 0 (zlookup (stats_counts v) i).

Definition _vmstats_inc (index : Z) : M ST () :=
  assert (index <? VMSTAT_COUNT);;
  s ← get;
  n ← the (zlookup (stats_counts s.2) index);
  l ← the (zstore (stats_counts s.2) index (u32 (n + 1)));
  put (s.1, set_counts l s.2).

Definition vmstats_inc (index : Z) : M ST () :=
  spl ← get_curspl;
  if spl =? SPL_HIGH then _vmstats_inc index
  else
    s ← get;
    assert (negb (stats_lock s.2 =? 0));;
    lock_acquire_free get_stats_owner set_stats_owner;;
    _vmstats_inc index;;
    lock_release_free get_stats_owner set_stats_owner.

(** [stats_names] has ten entries, so its length check passes. *)
Definition _vmstats_init : M ST () :=
  for_range 0 VMSTAT_COUNT (λ i,
    s ← get;
    l ← the (zstore (stats_counts s.2) i 0);
    put (s.1, set_counts l s.2)).

(** [lock] is the result of [lock_create]. *)
Definition vmstats_init (lock : Z) : M ST () :=
  s ← get;
  assert (stats_lock s.2 =? 0);;
  put (s.1, MkStats (stats_counts s.2) lock 0);;
  assert (negb (lock =? 0));;
  lock_acquire_free get_stats_owner set_stats_owner;;
  _vmstats_init;;
  lock_release_free get_stats_owner set_stats_owner.

(** A line of the report: a counter, one of the three sums, or the warning that
    a sum differs from the counter it should equal. The locals are ints. *)
Inductive line :=
  | Counter (i n : Z)
  | FreePlusReplace (n : Z) | DiskZeroedReload (n : Z) | ElfPlusSwap (n : Z)
  | Warning (n m : Z).

Definition check_sum (l : line) (a b : Z) : list line :=
  l :: (if negb (a =? b) then [Warning a b] else []).

Definition vmstats_report (v : vmstats) : list line :=
  let tlb_faults := s32 (count v VMSTAT_TLB_FAULT) in
  let free_plus_replace :=
    s32 (count v VMSTAT_TLB_FAULT_FREE + count v VMSTAT_TLB_FAULT_REPLACE) in
  let disk_plus_zeroed_plus_reload :=
    s32 (count v VMSTAT_PAGE_FAULT_DISK + count v VMSTAT_PAGE_FAULT_ZERO
         + count v VMSTAT_TLB_RELOAD) in
  let elf_plus_swap_reads :=
    s32 (count v VMSTAT_ELF_FILE_READ + count v VMSTAT_SWAP_FILE_READ) in
  let disk_reads := s32 (count v VMSTAT_PAGE_FAULT_DISK) in
  ((λ i, Counter i (count v i)) <$> seqZ 0 VMSTAT_COUNT) ++
  check_sum (FreePlusReplace free_plus_replace) tlb_faults free_plus_replace ++
  check_sum (DiskZeroedReload disk_plus_zeroed_plus_reload)
    tlb_faults disk_plus_zeroed_plus_reload ++
  check_sum (ElfPlusSwap elf_plus_swap_reads) disk_reads elf_plus_swap_reads.

Definition _vmstats_print : M ST (list line) := gets (λ s, vmstats_report s.2).

Definition vmstats_print : M ST (list line) :=
  s ← get;
  assert (negb (stats_lock s.2 =? 0));;
  lock_acquire_free get_stats_owner set_stats_owner;;
  out ← _vmstats_print;
  lock_release_free get_stats_owner set_stats_owner;;
  mret out.

(** ** Lemmas *)

Record stats_wf (v : vmstats) : Prop := {
  sw_len : Z.of_nat (length (stats_counts v)) = VMSTAT_COUNT;
  sw_lock : stats_lock v ≠ 0;
  sw_owner : stats_owner v = 0;
}.

(** The counters after counting one event *)
Definition bump (i : Z) (v : vmstats) : vmstats :=
  set_counts (<[Z.to_nat i := u32 (count v i + 1)]> (stats_counts v)) v.

Lemma stats_wf_bump i v : stats_wf v → stats_wf (bump i v).
Proof. intros [? ? ?]. split; [by simpl; rewrite length_insert|done..]. Qed.

Lemma count_bump i j v :
  stats_wf v → 0 ≤ i < VMSTAT_COUNT →
  count (bump i v) j = if decide (i = j) then u32 (count v i + 1) else count v j.
Proof.
  intros [Hl _ _] Hi. unfold count at 1, bump, set_counts. cbn [stats_counts].
  destruct (decide (0 ≤ j)); [rewrite zlookup_insert by lia; by case_decide|].
  rewrite decide_False, zlookup_insert_ne by lia. done.
Qed.

Section lemmas.
Context (F : fault → Prop).

Lemma vmstats_inc_raw p v i (Q : () → ST → Prop) E :
  Z.of_nat (length (stats_counts v)) = VMSTAT_COUNT → 0 ≤ i < VMSTAT_COUNT →
  Q tt (p, bump i v) → wp F (_vmstats_inc i) (p, v) Q E.
Proof.
  intros Hlen Hi HQ. unfold _vmstats_inc. wp_assert by lia. wp_steps. cbn [fst snd].
  destruct (zlookup_lt_is_Some (stats_counts v) i) as [n Hn]; [lia|].
  wp_the n by done. wp_the (<[Z.to_nat i := u32 (n + 1)]> (stats_counts v)) by
    (by rewrite zstore_Some by lia).
  wp_steps. simpl. unfold bump, count in HQ. by rewrite Hn in HQ.
Qed.

Lemma vmstats_inc_ok p v i (Q : () → ST → Prop) E :
  running p → stats_wf v → 0 ≤ i < VMSTAT_COUNT →
  Q tt (p, bump i v) → wp F (vmstats_inc i) (p, v) Q E.
Proof.
  intros Hp Hwf Hi HQ. pose proof Hwf as [Hlen Hlock Hown].
  unfold vmstats_inc, get_curspl. wp_steps. cpu_simpl.
  destruct (curspl p =? SPL_HIGH); [by apply vmstats_inc_raw|].
  wp_assert by (simpl; lia). wp_steps.
  apply (wp_lock_acquire_free _ _ _); [apply Hp|apply Hp|done|]. cpu_simpl. wp_steps.
  apply vmstats_inc_raw; [done|done|]. wp_steps.
  apply (wp_lock_release_free get_stats_owner set_stats_owner _); [apply Hp|done|].
  destruct v as [l lk ow]. unfold get_stats_owner, set_stats_owner in *. simpl in *.
  by subst ow.
Qed.
End lemmas.

(** ** Properties *)

(** [vmstats_inc] counts one event of the given kind, modulo 2^32, whatever
    the interrupt level: the other counters, the processor and the lock are as
    before. *)
Theorem vmstats_inc_spec p v i :
  running p → stats_wf v → 0 ≤ i < VMSTAT_COUNT →
  wp safe (vmstats_inc i) (p, v)
    (λ _ s', s'.1 = p ∧ stats_wf s'.2 ∧
       ∀ j, count s'.2 j = if decide (i = j) then u32 (count v i + 1) else count v j)
    noerr.
Proof.
  intros Hp Hwf Hi. apply vmstats_inc_ok; [done..|]. split; [done|].
  split; [by apply stats_wf_bump|]. intros j. by apply count_bump.
Qed.

Definition ex_stats : vmstats := MkStats (replicate 10 0) 0x80002000 0.

Lemma ex_stats_wf : stats_wf ex_stats.
Proof. by split. Qed.
Lemma ex_stats_cpu : running (MkCpu 0 0xff01 0 0x80001000).
Proof. split; [split|]; vm_compute; (done || split; congruence). Qed.

Lemma vmstats_inc_spec_witness :
  wp safe (vmstats_inc VMSTAT_TLB_RELOAD) (MkCpu 0 0xff01 0 0x80001000, ex_stats)
    (λ _ s', s'.1 = MkCpu 0 0xff01 0 0x80001000 ∧ stats_wf s'.2 ∧
       ∀ j, count s'.2 j = if decide (VMSTAT_TLB_RELOAD = j)
                           then u32 (count ex_stats VMSTAT_TLB_RELOAD + 1)
                           else count ex_stats j)
    noerr.
Proof.
  apply vmstats_inc_spec; [apply ex_stats_cpu|apply ex_stats_wf|].
  unfold VMSTAT_TLB_RELOAD, VMSTAT_COUNT. lia.
Defined.
