(* ===== verification/Swapfile.v ===== *)
(** * The swap file

    Model of kern/vm/swapfile.c. The swap file is a vnode: [VOP_READ] and
    [VOP_WRITE] are an interface, with a contract that follows vnode.h for
    transfers between the file and kernel memory: they may fail or stop short.
    The state holds the vnode and the memory it transfers from and to.

    Nothing in the kernel stores a page, since the branch of
    [coremap_getpages] that would is compiled out; what is proved here is what
    the module offers to that branch. *)

From Stdlib Require Import ZArith Lia.
From stdpp Require Import base list gmap numbers.
From S2P Require Import Prelude Cpu CopyInOut Uio VmStats.

Local Open Scope Z_scope.

Definition SWAPFILE_MAX_SIZE : Z := 9 * 1024 * 1024.
Definition SWAPFILE_MAX_PAGES : Z := SWAPFILE_MAX_SIZE / PAGE_SIZE.

(** ** The vnode of the swap file *)

(** An operation returns its error and the uio it has updated. *)
Class SwapVnode (V : Type) := {
  VOP_READ : uio → M (V * copystate) (Z * uio);
  VOP_WRITE : uio → M (V * copystate) (Z * uio);
}.

(** A uio for kernel memory *)
Definition kernel_uio (base off n rw : Z) : uio :=
  MkUio (MkIovec base n) off n UIO_SYSSPACE rw 0.

(** [vn_byte v x] is the byte of the file at offset [x], if it has been
    written. A transfer of [n] bytes moves the offset on by [m] of them, and may
    fail or stop short; what it has not reported as done may be anything. *)
Class SwapVnodeLaws (V : Type) `{!SwapVnode V} := {
  vn_byte : V → Z → option Z;
  vop_write_law v c base off n :
    0 ≤ off → 0 ≤ n → off + n < 2 ^ 31 →
    wp safe (VOP_WRITE (kernel_uio base off n UIO_WRITE)) (v, c)
      (λ r s', ∃ m, 0 ≤ m ≤ n ∧ uio_offset r.2 = off + m ∧ s'.2 = c ∧
         (r.1 = 0 → ∀ k, 0 ≤ k < m → vn_byte s'.1 (off + k) = Some (bytes c (base + k))) ∧
         ∀ x b, ¬ off ≤ x < off + n → vn_byte v x = Some b → vn_byte s'.1 x = Some b)
      noerr;
  vop_read_law v c base off n :
    0 ≤ off → 0 ≤ n → off + n < 2 ^ 31 →
    (∀ k, 0 ≤ k < n → is_Some (vn_byte v (off + k))) →
    wp safe (VOP_READ (kernel_uio base off n UIO_READ)) (v, c)
      (λ r s', ∃ m, 0 ≤ m ≤ n ∧ uio_offset r.2 = off + m ∧ s'.1 = v ∧
         same_outside base n (bytes c) (bytes s'.2) ∧
         (r.1 = 0 → ∀ k, 0 ≤ k < m → vn_byte v (off + k) = Some (bytes s'.2 (base + k))))
      noerr;
}.


(** ** The module's state *)

Record swap (V : Type) := MkSwap {
  swapfile_entries : list Z;
  swapfile_lock_owner : Z;
  swapfile_pages_in_use : Z;
  last_page_stored : Z;
  swapfile : V;
  mem : copystate;
}.
Arguments MkSwap {V}.
Arguments swapfile_entries {V}.
Arguments swapfile_lock_owner {V}.
Arguments swapfile_pages_in_use {V}.
Arguments last_page_stored {V}.
Arguments swapfile {V}.
Arguments mem {V}.

Section operations.
Context {V : Type} `{!SwapVnode V}.
Implicit Types w : swap V.

Definition SW : Type := ST * swap V.

Definition set_entries l w : swap V :=
  MkSwap l (swapfile_lock_owner w) (swapfile_pages_in_use w) (last_page_stored w)
    (swapfile w) (mem w).
Definition set_pages_in_use n w : swap V :=
  MkSwap (swapfile_entries w) (swapfile_lock_owner w) n (last_page_stored w)
    (swapfile w) (mem w).
Definition set_last_page i w : swap V :=
  MkSwap (swapfile_entries w) (swapfile_lock_owner w) (swapfile_pages_in_use w) i
    (swapfile w) (mem w).
Definition set_file (p : V * copystate) w : swap V :=
  MkSwap (swapfile_entries w) (swapfile_lock_owner w) (swapfile_pages_in_use w)
    (last_page_stored w) p.1 p.2.

Definition get_swap_owner (s : SW) : Z := swapfile_lock_owner s.2.
Definition set_swap_owner (o : Z) (s : SW) : SW :=
  (s.1, MkSwap (swapfile_entries s.2) o (swapfile_pages_in_use s.2) (last_page_stored s.2)
          (swapfile s.2) (mem s.2)).

#[global] Instance swap_lock_lens : LockLens get_swap_owner set_swap_owner.
Proof. split; intros; try done; by destruct s as [? []]. Qed.

Definition on_swap {A} (m : M (swap V) A) : M SW A := zoom snd (λ w s, (s.1, w)) m.
Definition on_stats {A} (m : M ST A) : M SW A := zoom fst (λ t s, (t, s.2)) m.
Definition on_file {A} (m : M (V * copystate) A) : M SW A :=
  zoom (λ s, (swapfile s.2, mem s.2)) (λ p s, (s.1, set_file p s.2)) m.

(** [swapfile_entries[i] = e;] *)
Definition set_entry (i e : Z) : M (swap V) () :=
  w ← get;
  l ← the (zstore (swapfile_entries w) i e);
  put (set_entries l w).

(** [vfs_open] hands back the vnode or an error, [lock_create] the address of
    the lock or 0. *)
Definition swapfile_bootstrap (opened : V + Z) (lock : Z) : M SW () :=
  on_swap (for_range 0 SWAPFILE_MAX_PAGES (λ i, set_entry i 0));;
  (match opened with
   | inl v => on_swap (modify (λ w, set_file (v, mem w) w))
   | inr _ => panic
   end);;
  if lock =? 0 then panic else modify (set_swap_owner 0).

(** [lock_destroy] *)
Definition swapfile_shutdown : M SW () :=
  s ← get;
  assert (get_swap_owner s =? 0).

(** The loop from [i] on. With [last_page_stored] 0 the test [i != -1] never
    stops it. *)
Fixpoint getfree_from (fuel : nat) (i : Z) : M (swap V) Z :=
  w ← get;
  if negb (i =? last_page_stored w - 1) then
    match fuel with
    | O => noreturn
    | S fuel =>
      e ← the (zlookup (swapfile_entries w) i);
      if e =? 0 then
        modify (set_last_page i);;
        mret i
      else getfree_from fuel ((i + 1) `mod` SWAPFILE_MAX_PAGES)
    end
  else mret (-1).

Definition swapfile_getfreepage : M (swap V) Z :=
  w ← get;
  getfree_from (Z.to_nat SWAPFILE_MAX_PAGES) (last_page_stored w).

(** The idiom [lock_acquire(swapfile_lock); ...; lock_release(swapfile_lock);] *)
Definition with_swap_lock {A} (m : M SW A) : M SW A :=
  lock_acquire_free get_swap_owner set_swap_owner;;
  a ← m;
  lock_release_free get_swap_owner set_swap_owner;;
  mret a.

Definition swapfile_prepareswap : M SW Z :=
  with_swap_lock (
    index ← on_swap swapfile_getfreepage;
    if index =? -1 then panic else
    on_swap (set_entry index 1);;
    on_swap (modify (λ w, set_pages_in_use (u32 (swapfile_pages_in_use w + 1)) w));;
    mret index).

(** The part [swapfile_performkswap] and [swapfile_performswap] share: a write of
    one page, all of which must succeed. *)
Definition write_page (index : Z) (operation : uio) : M SW () :=
  with_swap_lock (
    on_stats (vmstats_inc VMSTAT_SWAP_FILE_WRITE);;
    r ← on_file (VOP_WRITE operation);
    let length := s32 (uio_offset r.2 - index * PAGE_SIZE) in
    assert (r.1 =? 0);;
    assert (length =? PAGE_SIZE)).


Definition swapfile_performswap (index addrspace vaddr : Z) : M SW () :=
  write_page index (MkUio (MkIovec vaddr PAGE_SIZE) (s32 (index * PAGE_SIZE)) PAGE_SIZE
                      UIO_USERSPACE UIO_WRITE addrspace).


End operations.

(** ** Lemmas *)

Section lemmas.
Context {V : Type} `{!SwapVnode V} `{!SwapVnodeLaws V}.
Implicit Types (w : swap V) (F : fault → Prop).

Definition slot_free w (i : Z) : Prop := zlookup (swapfile_entries w) i = Some 0.

Record swap_inv w : Prop := {
  sf_len : Z.of_nat (length (swapfile_entries w)) = SWAPFILE_MAX_PAGES;
  sf_last : 0 ≤ last_page_stored w < SWAPFILE_MAX_PAGES;
}.

(** Nobody holds the lock. *)
Definition swap_wf w : Prop := swap_inv w ∧ swapfile_lock_owner w = 0.

(** The search has something to find, or stops. *)
Definition search_stops w : Prop :=
  1 ≤ last_page_stored w ∨ ∃ i, slot_free w i.

(** No slot is free, except perhaps the one before [last_page_stored], which the
    search does not look at. *)
Definition search_fails w : Prop :=
  ∀ i, slot_free w i → i = last_page_stored w - 1.

(** The [k]-th slot the search looks at *)
Definition nth_slot w (k : Z) : Z := (last_page_stored w + k) `mod` SWAPFILE_MAX_PAGES.

Lemma nth_slot_last w k :
  swap_inv w → 0 ≤ k < SWAPFILE_MAX_PAGES →
  nth_slot w k = last_page_stored w - 1 ↔
    1 ≤ last_page_stored w ∧ k = SWAPFILE_MAX_PAGES - 1.
Proof.
  intros Hwf Hk. pose proof (sf_last _ Hwf). unfold nth_slot.
  change SWAPFILE_MAX_PAGES with 2304 in *. Z.div_mod_to_equations. lia.
Qed.

Lemma nth_slot_reaches w i :
  swap_inv w → slot_free w i → ∃ k, 0 ≤ k < SWAPFILE_MAX_PAGES ∧ i = nth_slot w k.
Proof.
  intros Hwf Hi%zlookup_lt_Some. rewrite (sf_len _ Hwf) in Hi. unfold nth_slot.
  exists ((i - last_page_stored w) `mod` SWAPFILE_MAX_PAGES).
  split; [by apply Z.mod_pos_bound|]. rewrite Zplus_mod_idemp_r.
  replace (last_page_stored w + _) with i by lia. symmetry. by apply Z.mod_small.
Qed.

Lemma getfree_from_ok F w (Q : Z → swap V → Prop) E :
  swap_inv w → search_stops w →
  (∀ i, slot_free w i → Q i (set_last_page i w)) →
  (search_fails w → Q (-1) w) →
  ∀ fuel k, 0 ≤ k → k + Z.of_nat fuel = SWAPFILE_MAX_PAGES →
  (1 ≤ last_page_stored w → k < SWAPFILE_MAX_PAGES) →
  (∀ j, 0 ≤ j < k → ¬ slot_free w (nth_slot w j)) →
  wp F (getfree_from fuel (nth_slot w k)) w Q E.
Proof.
  intros Hwf Hstop HQ HQf. induction fuel as [|fuel IH]; intros k Hk Hf Hkl Hused.
  { exfalso. destruct Hstop as [?|[i Hi]]; [lia|].
    destruct (nth_slot_reaches w i Hwf Hi) as (j & Hj & ->). apply (Hused j); [lia|done]. }
  cbn [getfree_from]. wp_steps. pose proof (nth_slot_last w k Hwf) as Hlast.
  destruct (Z.eqb_spec (nth_slot w k) (last_page_stored w - 1)) as [Heq|Hne];
    cbn [negb]; wp_steps.
  { apply HQf. intros i Hi. destruct (nth_slot_reaches w i Hwf Hi) as (j & Hj & ->).
    destruct (decide (j < k)); [exfalso; apply (Hused j); [lia|done]|].
    apply Hlast in Heq; [|lia]. assert (j = k) as -> by lia. apply Hlast; lia. }
  assert (0 ≤ nth_slot w k < SWAPFILE_MAX_PAGES) as Hr by (by apply Z.mod_pos_bound).
  destruct (zlookup_lt_is_Some (swapfile_entries w) (nth_slot w k)) as [e He];
    [rewrite (sf_len _ Hwf); lia|].
  wp_the e by done. destruct (Z.eqb_spec e 0) as [->|Hused'].
  { wp_steps. by apply HQ. }
  replace ((nth_slot w k + 1) `mod` SWAPFILE_MAX_PAGES) with (nth_slot w (k + 1)).
  - apply IH; [lia|lia| |].
    + intros HL. destruct (decide (k = SWAPFILE_MAX_PAGES - 1)); [|lia].
      exfalso. apply Hne, Hlast; lia.
    + intros j Hj. destruct (decide (j = k)) as [->|]; [|apply Hused; lia].
      unfold slot_free. rewrite He. congruence.
  - unfold nth_slot. rewrite Zplus_mod_idemp_l. f_equal. lia.
Qed.

Lemma getfree_ok F w (Q : Z → swap V → Prop) E :
  swap_inv w → search_stops w →
  (∀ i, slot_free w i → Q i (set_last_page i w)) →
  (search_fails w → Q (-1) w) →
  wp F swapfile_getfreepage w Q E.
Proof.
  intros Hwf Hstop HQ HQf. unfold swapfile_getfreepage. wp_steps.
  replace (last_page_stored w) with (nth_slot w 0) at 1.
  - apply getfree_from_ok; (done || lia).
  - unfold nth_slot. rewrite Z.add_0_r. apply Z.mod_small, Hwf.
Qed.

(** A full swap file with [last_page_stored] 0 keeps the search running for
    ever: no number of iterations is enough. *)
Lemma getfree_diverges w :
  swap_inv w → last_page_stored w = 0 → (∀ i, ¬ slot_free w i) →
  ∀ fuel k, getfree_from fuel (nth_slot w k) w = NoReturn.
Proof.
  intros Hwf HL Hfull. induction fuel as [|fuel IH]; intros k.
  all: assert (0 ≤ nth_slot w k < SWAPFILE_MAX_PAGES) as Hr by (by apply Z.mod_pos_bound).
  all: unfold getfree_from; fold (getfree_from (V := V)).
  all: unfold mbind, M_bind, get; cbn beta iota.
  all: destruct (Z.eqb_spec (nth_slot w k) (last_page_stored w - 1)); [lia|]; cbn [negb].
  - done.
  - destruct (zlookup_lt_is_Some (swapfile_entries w) (nth_slot w k)) as [e He];
      [rewrite (sf_len _ Hwf); lia|].
    rewrite He. cbn [the]. unfold mret, M_ret. destruct (Z.eqb_spec e 0) as [->|].
    + by destruct (Hfull (nth_slot w k)).
    + rewrite <- (IH (k + 1)). f_equal. unfold nth_slot.
      rewrite Zplus_mod_idemp_l. f_equal. lia.
Qed.

(** The state after slot [i] has been reserved *)
Definition reserve (i : Z) w : swap V :=
  set_pages_in_use (u32 (swapfile_pages_in_use w + 1))
    (set_entries (<[Z.to_nat i := 1]> (swapfile_entries w)) (set_last_page i w)).

Definition out_of_swap w (f : fault) : Prop := f = Panic_called ∧ search_fails w.

Lemma slot_range w i : swap_inv w → slot_free w i → 0 ≤ i < SWAPFILE_MAX_PAGES.
Proof. intros Hwf Hi%zlookup_lt_Some. by rewrite (sf_len _ Hwf) in Hi. Qed.

Lemma reserve_wf i w : swap_wf w → slot_free w i → swap_wf (reserve i w).
Proof.
  intros [Hwf Ho] Hi. pose proof (slot_range _ _ Hwf Hi). destruct Hwf as [Hl _].
  split; [|done]. split; [|done]. simpl. by rewrite length_insert.
Qed.

(** Running with the lock held: [m] may change the module's state, but not the
    owner. *)
Lemma locked_ok {A} F (m : M SW A) t w (Q : A → SW → Prop) E :
  running t.1 → swapfile_lock_owner w = 0 →
  wp F m (set_swap_owner (curthread t.1) (t, w))
    (λ a s', s'.1.1 = t.1 ∧ get_swap_owner s' = curthread t.1 ∧ Q a (set_swap_owner 0 s')) E →
  wp F (with_swap_lock m) (t, w) Q E.
Proof.
  intros Hp Ho Hm. unfold with_swap_lock. wp_steps.
  apply (wp_lock_acquire_free _ _ _); [apply Hp|apply Hp|done|]. wp_steps.
  eapply wp_mono; [exact Hm| |done]. intros a s' (Hp' & Ho' & HQ). wp_steps.
  apply (wp_lock_release_free get_swap_owner set_swap_owner _); cpu_simpl.
  - unfold pair_cpu_of. cpu_simpl. rewrite Hp'. apply Hp.
  - rewrite Ho'. unfold pair_cpu_of. cpu_simpl. by rewrite Hp'.
  - by wp_steps.
Qed.

Lemma set_entry_ok F i e w (Q : () → swap V → Prop) E :
  0 ≤ i < Z.of_nat (length (swapfile_entries w)) →
  Q tt (set_entries (<[Z.to_nat i := e]> (swapfile_entries w)) w) →
  wp F (set_entry i e) w Q E.
Proof.
  intros Hi HQ. unfold set_entry.
  wp_the (<[Z.to_nat i := e]> (swapfile_entries w)) by (by rewrite zstore_Some by lia).
  by wp_steps.
Qed.

Lemma prepareswap_ok t w (Q : Z → SW → Prop) E :
  running t.1 → swap_wf w → search_stops w →
  (∀ i, slot_free w i → Q i (t, reserve i w)) →
  wp (out_of_swap w) swapfile_prepareswap (t, w) Q E.
Proof.
  intros Hp [Hinv Ho] Hstop HQ. unfold swapfile_prepareswap. apply locked_ok; [done..|].
  unfold on_swap. wp_steps. cbn [snd set_swap_owner].
  apply getfree_ok; [by destruct Hinv|done| |].
  - intros i Hi. pose proof (slot_range _ _ Hinv Hi) as Hr.
    destruct (Z.eqb_spec i (-1)); [lia|]. wp_steps. cbn [snd fst].
    apply set_entry_ok; [simpl; by rewrite (sf_len _ Hinv)|]. wp_steps.
    split; [done|]. split; [done|].
    destruct w. unfold reserve, set_swap_owner in *. simpl in *. subst. by apply HQ.
  - intros Hfail. destruct (Z.eqb_spec (-1) (-1)); [|done]. by split.
Qed.








End lemmas.

(** ** Properties *)

Section properties.
Context {V : Type} `{!SwapVnode V} `{!SwapVnodeLaws V}.
Implicit Types w : swap V.

(** [swapfile_prepareswap] reserves a slot that was free and leaves the other
    slots alone. The module panics only if every slot that the search looks at
    is in use: all of them, except the one before [last_page_stored]. *)
Theorem swapfile_prepareswap_spec t w :
  running t.1 → swap_wf w → search_stops w →
  wp (out_of_swap w) swapfile_prepareswap (t, w)
    (λ i s', s'.1 = t ∧ slot_free w i ∧ swap_wf s'.2 ∧
       zlookup (swapfile_entries s'.2) i = Some 1 ∧
       ∀ j, j ≠ i → zlookup (swapfile_entries s'.2) j = zlookup (swapfile_entries w) j)
    noerr.
Proof.
  intros Hp Hwf Hstop. apply prepareswap_ok; [done..|]. intros i Hi.
  pose proof (slot_range _ _ (proj1 Hwf) Hi).
  split; [done|]. split; [done|]. split; [by apply reserve_wf|]. simpl. split.
  - apply zlookup_insert_eq. by rewrite (sf_len _ (proj1 Hwf)).
  - intros j Hj. apply zlookup_insert_ne; [done|lia].
Qed.


(** C39: with [last_page_stored] 0 and every slot in use the search for a slot
    never ends: no bound on the number of iterations makes it return, so the
    caller neither panics nor fails. *)
Theorem swapfile_full_hangs w fuel :
  swap_inv w → last_page_stored w = 0 → (∀ i, ¬ slot_free w i) →
  getfree_from fuel (last_page_stored w) w = NoReturn.
Proof.
  intros Hinv HL Hfull. rewrite <- (getfree_diverges w Hinv HL Hfull fuel 0). f_equal.
  unfold nth_slot. by rewrite HL.
Qed.
End properties.

(** ** A file in memory, to instantiate the interface *)

Definition ram_write (u : uio) : M (gmap Z Z * copystate) (Z * uio) :=
  for_range 0 (uio_resid u) (λ k,
    modify (λ s, (<[uio_offset u + k := bytes s.2 (iov_base (uio_iovec u) + k)]> s.1, s.2)));;
  mret (0, advance (uio_resid u) u).

Definition ram_read (u : uio) : M (gmap Z Z * copystate) (Z * uio) :=
  for_range 0 (uio_resid u) (λ k,
    modify (λ s, (s.1, MkCopy (poke (bytes s.2) (iov_base (uio_iovec u) + k)
                                (default 0 (s.1 !! (uio_offset u + k))))
                              (badfaultfunc s.2))));;
  mret (0, advance (uio_resid u) u).

#[global] Instance ram_vnode : SwapVnode (gmap Z Z) :=
  {| VOP_READ := ram_read; VOP_WRITE := ram_write |}.

Lemma ram_write_law (v : gmap Z Z) c base off n :
  0 ≤ off → 0 ≤ n → off + n < 2 ^ 31 →
  wp safe (ram_write (kernel_uio base off n UIO_WRITE)) (v, c)
    (λ r s', r.1 = 0 ∧ uio_offset r.2 = off + n ∧ s'.2 = c ∧
       (∀ k, 0 ≤ k < n → s'.1 !! (off + k) = Some (bytes c (base + k))) ∧
       ∀ x b, ¬ off ≤ x < off + n → v !! x = Some b → s'.1 !! x = Some b)
    noerr.
Proof.
  intros Hoff Hn Hlt. unfold ram_write. wp_steps.
  apply (wp_for_range _ _ (λ i s, s.2 = c ∧
    (∀ k, 0 ≤ k < i → s.1 !! (off + k) = Some (bytes c (base + k))) ∧
    ∀ x b, ¬ off ≤ x < off + n → v !! x = Some b → s.1 !! x = Some b)); cbn [fst snd].
  - done.
  - intros i [v' c'] Hi HI. cbn [fst snd kernel_uio uio_resid] in *. destruct HI as (-> & Hin & Hout). wp_steps. cbn [fst snd]. split_and!; [done| |].
    + intros k Hk. destruct (decide (k = i)) as [->|]; [apply lookup_insert_eq|].
      rewrite lookup_insert_ne by (simpl; lia). apply Hin. lia.
    + intros x b Hx Hb. rewrite lookup_insert_ne by (simpl; lia). by apply Hout.
  - split_and!; [done|lia|done].
  - intros [v' c'] HI. cbn [fst snd kernel_uio uio_resid] in *. destruct HI as (-> & Hin & Hout). wp_steps. cbn [fst snd]. split_and!; [done| |done|done|done].
    apply s32_small. simpl. lia.
Qed.

Lemma ram_read_law (v : gmap Z Z) c base off n :
  0 ≤ off → 0 ≤ n → off + n < 2 ^ 31 →
  (∀ k, 0 ≤ k < n → is_Some (v !! (off + k))) →
  wp safe (ram_read (kernel_uio base off n UIO_READ)) (v, c)
    (λ r s', r.1 = 0 ∧ uio_offset r.2 = off + n ∧ s'.1 = v ∧
       same_outside base n (bytes c) (bytes s'.2) ∧
       ∀ k, 0 ≤ k < n → v !! (off + k) = Some (bytes s'.2 (base + k)))
    noerr.
Proof.
  intros Hoff Hn Hlt Hsome. unfold ram_read. wp_steps.
  apply (wp_for_range _ _ (λ i s, s.1 = v ∧
    same_outside base n (bytes c) (bytes s.2) ∧
    ∀ k, 0 ≤ k < i → v !! (off + k) = Some (bytes s.2 (base + k)))); cbn [fst snd].
  - done.
  - intros i [v' c'] Hi HI. cbn [fst snd kernel_uio uio_resid] in *. destruct HI as (-> & Hsame & Hin). wp_steps. cbn [fst snd bytes].
    unfold poke. cbn [kernel_uio uio_iovec iov_base uio_offset]. split_and!; [done| |].
    + intros x Hx. destruct (Z.eqb_spec x (base + i)); [|by apply Hsame].
      simpl in Hi. lia.
    + intros k Hk. destruct (Z.eqb_spec (base + k) (base + i)) as [Heq|].
      * assert (k = i) as -> by lia. destruct (Hsome i) as [b Hb]; [simpl in Hi; lia|].
        by rewrite Hb.
      * apply Hin. lia.
  - split_and!; [done|done|lia].
  - intros [v' c'] HI. cbn [fst snd kernel_uio uio_resid] in *. destruct HI as (-> & Hsame & Hin). wp_steps. cbn [fst snd]. split_and!; [done| |done|done|done].
    apply s32_small. simpl. lia.
Qed.

#[refine, global] Instance ram_laws : SwapVnodeLaws (gmap Z Z) := {| vn_byte := λ v x, v !! x |}.
Proof.
  - intros. eapply wp_mono; [by apply ram_write_law| |done]. intros r s' (Hr & Ho & Hm & Hin & Hout).
    exists n. by split_and!.
  - intros. eapply wp_mono; [by apply ram_read_law| |done]. intros r s' (Hr & Ho & Hv & Hs & Hin).
    exists n. by split_and!.
Defined.


(** Witnesses: an empty swap file, and one with slot 0 the last one taken and
    every slot in use *)
Definition ex_page : copystate := MkCopy (λ a, a `mod` 251) false.
Definition ex_swap (e last : Z) : swap (gmap Z Z) :=
  MkSwap (replicate 2304 e) 0 0 last ∅ ex_page.
Definition ex_stat : ST := (MkCpu 0 0xff01 0 0x80001000, ex_stats).

Lemma ex_swap_wf e : swap_wf (ex_swap e 0).
Proof. split; [|done]. split; [|split; done]. unfold ex_swap. by vm_compute. Qed.

Lemma ex_swap_stops : search_stops (ex_swap 0 0).
Proof. right. by exists 0. Qed.

Lemma swapfile_prepareswap_spec_witness :
  wp (out_of_swap (ex_swap 0 0)) swapfile_prepareswap (ex_stat, ex_swap 0 0)
    (λ i s', s'.1 = ex_stat ∧ slot_free (ex_swap 0 0) i ∧ swap_wf s'.2 ∧
       zlookup (swapfile_entries s'.2) i = Some 1 ∧
       ∀ j, j ≠ i → zlookup (swapfile_entries s'.2) j
                    = zlookup (swapfile_entries (ex_swap 0 0)) j)
    noerr.
Proof.
  apply swapfile_prepareswap_spec; [apply ex_stats_cpu|apply ex_swap_wf|apply ex_swap_stops].
Defined.


Lemma ex_swap_full i : ¬ slot_free (ex_swap 1 0) i.
Proof.
  unfold slot_free, zlookup. destruct (0 <=? i); [|done].
  intros [H _]%lookup_replicate. done.
Qed.

Lemma swapfile_full_hangs_witness :
  getfree_from 5000 (last_page_stored (ex_swap 1 0)) (ex_swap 1 0) = NoReturn.
Proof.
  apply swapfile_full_hangs; [apply ex_swap_wf|done|apply ex_swap_full].
Defined.
