(* ===== verification/Pt.v ===== *)
(** * Page tables

    Model of kern/vm/pt.c. A table is a page of 1024 words; [tables] maps the
    kernel address of every table to its words, which the code treats as ints and
    the model as their 32-bit patterns. [phys] is the contents of the frames that
    are not tables, by physical address. The page allocator is the interface of
    Frames.v, the counters are those of VmStats.v, and the address space of the
    current thread is a parameter.

    The code for pages in the swap file reads a page to the address of a local
    variable of four bytes; the model ends there, in [Undefined]. No page is ever
    put in the swap file (see Coremap.v). *)

From Stdlib Require Import ZArith Lia.
From stdpp Require Import base list gmap numbers.
From S2P Require Import Prelude Cpu KPages Frames VmStats.

Local Open Scope Z_scope.

(** ** pt.h and addrspace.h *)

Definition ADDR_UP_MASK : Z := 0xFFC00000.
Definition ADDR_UP_SHIFT : Z := 22.
Definition ADDR_LOW_MASK : Z := 0x003FF000.
Definition ADDR_LOW_SHIFT : Z := 12.
Definition PAGE_FREE : Z := 0x1.
Definition PAGE_IN_MEM : Z := 0x2.
Definition PAGE_IN_SWP : Z := 0x20.
Definition PAGE_FREE_MASK : Z := 0x1.
Definition PAGE_IN_MEM_MASK : Z := 0x2.
Definition PAGE_W_MASK : Z := 0x4.
Definition PAGE_R_MASK : Z := 0x8.
Definition PAGE_X_MASK : Z := 0x10.
Definition PAGE_RWX : Z := Z.lor (Z.lor PAGE_R_MASK PAGE_W_MASK) PAGE_X_MASK.
Definition SWP_PAGE : Z := 0x1.
Definition SWP_TABLE : Z := 0x2.
Definition MAX_REGIONS : Z := 3.

(** [offset] is in the file, [vaddr] in memory. *)
Record region := MkRegion {
  r_offset : Z;
  r_memsize : Z;
  r_filesize : Z;
  r_vaddr : Z;
  r_permissions : Z;
}.

(** [as_regions] are the entries of the array below [as_region_count]. *)
Record addrspace := MkAs {
  as_pt : Z;
  as_v : Z;
  as_regions : list region;
}.

(** ** State *)

Record vmem := MkVm {
  tables : gmap Z (list Z);
  stats : vmstats;
  phys : Z → Z;
}.

(** The number of words of a table *)
Definition NWORDS : Z := PAGE_SIZE / 4.

Section operations.
Context {P : Type} `{!HasCpu P} `{!KPages P} `{!Frames P} (t_vmspace : Z).

Definition PT : Type := P * vmem.

Definition on_pages {A} (m : M P A) : M PT A := zoom fst (λ p s, (p, s.2)) m.
Definition on_stats {A} (m : M ST A) : M PT A :=
  zoom (λ s, (cpu_of s.1, stats s.2))
       (λ t s, (set_cpu t.1 s.1, MkVm (tables s.2) t.2 (phys s.2))) m.
Definition upd_tables (f : gmap Z (list Z) → gmap Z (list Z)) : M PT () :=
  modify (λ s, (s.1, MkVm (f (tables s.2)) (stats s.2) (phys s.2))).

(** ** Words *)

Definition get_offset (vaddr mask shift : Z) : Z := Z.shiftr (Z.land vaddr mask) shift.

Definition get_value (pt offset : Z) : M PT Z :=
  s ← get;
  t ← the (tables s.2 !! pt);
  the (zlookup t offset).

Definition set_value (pt offset value : Z) : M PT () :=
  s ← get;
  t ← the (tables s.2 !! pt);
  t' ← the (zstore t offset value);
  upd_tables (λ ts, <[pt := t']> ts).

Definition get_page_state_by_value (value : Z) : Z :=
  if negb (Z.land value PAGE_FREE_MASK =? 0) then PAGE_FREE
  else if negb (Z.land value PAGE_IN_MEM_MASK =? 0) then PAGE_IN_MEM
  else PAGE_IN_SWP.

Definition get_page_state (pt offset : Z) : M PT Z :=
  value ← get_value pt offset;
  mret (get_page_state_by_value value).

(** ** Creating tables and pages *)

Definition _pt_create (permissions vaddr : Z) : M PT Z :=
  pt ← on_pages (alloc_kpages 1);
  if pt =? 0 then mret 0 else
  let vaddr := Z.lor (Z.land vaddr PAGE_FRAME) SWP_TABLE in
  on_pages (setpagevaddr (u32 (pt - 0x80000000)) t_vmspace vaddr);;
  upd_tables (λ ts, <[pt := replicate (Z.to_nat NWORDS) (Z.lor PAGE_FREE_MASK permissions)]> ts);;
  mret pt.

Definition _pt_create_page (vaddr : Z) : M PT Z :=
  paddr ← on_pages (getpages 1);
  if paddr =? 0 then mret 0 else
  let vaddr := Z.lor (Z.land vaddr PAGE_FRAME) SWP_PAGE in
  on_pages (setpagevaddr paddr t_vmspace vaddr);;
  mret paddr.

(** The results of [get_pagetable] and [get_page] are their return value and
    [*dst]. *)
Definition get_pagetable (pt vaddr create permissions : Z) : M PT (Z * Z) :=
  let offset := get_offset vaddr ADDR_UP_MASK ADDR_UP_SHIFT in
  value ← get_value pt offset;
  let state := get_page_state_by_value value in
  if state =? PAGE_FREE then
    if negb (create =? 0) then
      dst ← _pt_create permissions vaddr;
      set_value pt offset (Z.lor dst PAGE_IN_MEM_MASK);;
      mret (0, dst)
    else mret (state, 0)
  else if state =? PAGE_IN_SWP then
    if negb (create =? 0) then
      _ ← _pt_create 0 vaddr;
      undefined
    else mret (state, 0)
  else mret (0, Z.land value PAGE_FRAME).

Definition get_page (pt offset create vaddr : Z) : M PT (Z * Z) :=
  value ← get_value pt offset;
  let state := get_page_state_by_value value in
  let permissions := Z.land value PAGE_RWX in
  if state =? PAGE_FREE then
    if negb (create =? 0) then
      on_stats (vmstats_inc VMSTAT_PAGE_FAULT_ZERO);;
      paddr ← _pt_create_page vaddr;
      let dst := Z.lor paddr (Z.lor PAGE_IN_MEM_MASK permissions) in
      set_value pt offset dst;;
      mret (0, dst)
    else mret (state, PAGE_FREE)
  else if state =? PAGE_IN_SWP then
    if negb (create =? 0) then
      on_stats (vmstats_inc VMSTAT_PAGE_FAULT_DISK);;
      _ ← _pt_create_page vaddr;
      undefined
    else mret (state, PAGE_IN_SWP)
  else mret (0, Z.land value 0xFFFFFFFC).

(** ** Destroying *)

(** A nested table in the swap file leaves [pt] without a value. *)
Definition destroy_nested_pagetable (value : Z) : M PT () :=
  let state := get_page_state_by_value value in
  if state =? PAGE_FREE then mret tt else
  if state =? PAGE_IN_SWP then undefined else
  let pt := Z.land value PAGE_FRAME in
  for_range 0 NWORDS (λ i,
    value ← get_value pt i;
    let state := get_page_state_by_value value in
    if state =? PAGE_FREE then mret tt else
    if state =? PAGE_IN_SWP then mret tt else
    on_pages (freepages (Z.land value PAGE_FRAME)));;
  on_pages (free_kpages pt);;
  upd_tables (delete pt).

Definition pt_create : M PT Z :=
  pt ← _pt_create 0 0;
  on_pages (setpagefixed (u32 (pt - 0x80000000)) 1);;
  mret pt.

Definition pt_destroy (pt : Z) : M PT () :=
  for_range 0 NWORDS (λ i,
    value ← get_value pt i;
    destroy_nested_pagetable value);;
  on_pages (free_kpages pt);;
  upd_tables (delete pt).

(** ** Translation *)

Definition pt_get_paddr (pt vaddr create permissions : Z) : M PT Z :=
  r ← get_pagetable pt vaddr create permissions;
  let spt := r.2 in
  if spt =? 0 then mret PAGE_FREE else
  let offset := get_offset vaddr ADDR_LOW_MASK ADDR_LOW_SHIFT in
  r ← get_page spt offset create vaddr;
  mret r.2.

Definition pt_set_permissions (pt vaddr create permissions : Z) : M PT Z :=
  r ← get_pagetable pt vaddr create permissions;
  let spt := r.2 in
  if negb (spt =? 0) then
    let offset := get_offset vaddr ADDR_LOW_MASK ADDR_LOW_SHIFT in
    r ← get_page spt offset create vaddr;
    if r.1 =? 0 then
      value ← get_value spt offset;
      let value := Z.land value (u32 (Z.lnot PAGE_RWX)) in
      set_value spt offset (Z.lor value permissions);;
      mret 1
    else mret 0
  else mret 0.

Definition vaddr_overlap (l1 r1 l2 r2 : Z) : bool :=
  ((r2 <=? r1) && (l1 <=? r2)) || ((l1 <=? l2) && (l2 <? r1)).

(** The search of [pt_copy] for a region that a page which is not writable
    overlaps *)
Definition in_region (rs : list region) (permissions vaddr : Z) : bool :=
  (Z.land permissions PAGE_W_MASK =? 0) &&
  existsb (λ r, vaddr_overlap vaddr (u32 (vaddr + PAGE_SIZE))
                  (r_vaddr r) (u32 (r_vaddr r + r_memsize r))) rs.

(** [memmove] of a page of physical memory *)
Definition copy_frame (dst src : Z) : M PT () :=
  modify (λ s, (s.1, MkVm (tables s.2) (stats s.2)
    (λ x, if (dst <=? x) && (x <? dst + PAGE_SIZE) then phys s.2 (src + (x - dst))
          else phys s.2 x))).

(** The kernel address of a frame, as a physical address *)
Definition frame_of (paddr : Z) : Z :=
  KVADDR_TO_PADDR (Z.land (PADDR_TO_KVADDR paddr) PAGE_FRAME).

(** The body of the inner loop of [pt_copy] *)
Definition copy_page (dst : Z) (rs : list region) (pt2 pt_idx1 pt_idx2 : Z) : M PT () :=
  value ← get_value pt2 pt_idx2;
  if get_page_state_by_value value =? PAGE_FREE then mret tt else
  let vaddr := u32 (Z.shiftl pt_idx1 ADDR_UP_SHIFT + Z.shiftl pt_idx2 ADDR_LOW_SHIFT) in
  let permissions := Z.land value PAGE_RWX in
  if in_region rs permissions vaddr then mret tt else
  r ← get_page pt2 pt_idx2 1 vaddr;
  let paddr1 := r.2 in
  on_pages (setpagefixed paddr1 1);;
  paddr2 ← pt_get_paddr dst vaddr 1 permissions;
  on_pages (setpagefixed paddr2 1);;
  copy_frame (frame_of paddr2) (frame_of paddr1);;
  on_pages (setpagefixed paddr1 0);;
  on_pages (setpagefixed paddr2 0).

Definition pt_copy (dst : Z) (as_ : addrspace) : M PT Z :=
  let pt1 := as_pt as_ in
  for_range 0 NWORDS (λ pt_idx1,
    value ← get_value pt1 pt_idx1;
    if get_page_state_by_value value =? PAGE_FREE then mret tt else
    let vaddr := u32 (Z.shiftl pt_idx1 ADDR_UP_SHIFT) in
    r ← get_pagetable pt1 vaddr 1 (Z.land value PAGE_RWX);
    for_range 0 NWORDS (copy_page dst (as_regions as_) r.2 pt_idx1));;
  mret 0.

(** [index] goes into the frame bits of the word. *)
Definition swapped_word (value index : Z) : Z :=
  Z.lor (Z.lor (Z.land (Z.land value 0xFFF) (u32 (Z.lnot (Z.lor PAGE_FREE PAGE_IN_MEM))))
               PAGE_IN_SWP)
        (u32 (Z.shiftl index ADDR_LOW_SHIFT)).

Definition pt_notify_of_swap (pt vaddr index : Z) : M PT () :=
  if negb (Z.land vaddr SWP_PAGE =? 0) then
    r ← get_pagetable pt vaddr 1 0;
    let spt := r.2 in
    if negb (spt =? 0) then
      let offset := get_offset vaddr ADDR_LOW_MASK ADDR_LOW_SHIFT in
      r ← get_page spt offset 1 vaddr;
      if r.1 =? 0 then
        value ← get_value spt offset;
        set_value spt offset (swapped_word value index)
      else mret tt
    else mret tt
  else if negb (Z.land vaddr SWP_TABLE =? 0) then
    r ← get_pagetable pt vaddr 1 0;
    if negb (r.2 =? 0) then
      let offset := get_offset vaddr ADDR_UP_MASK ADDR_UP_SHIFT in
      value ← get_value pt offset;
      set_value pt offset (swapped_word value index)
    else mret tt
  else panic.
End operations.
