(* ===== verification/PtProof.v ===== *)
(** * Page tables: words, the walk, and the invariant

    The abstraction of a page table is the walk that the translation makes: a
    virtual address yields the frame and the permissions of its page, or nothing.
    The theorems state what the operations of Pt.v do to that walk. *)

From Stdlib Require Import ZArith Lia.
From stdpp Require Import base list gmap numbers.
From S2P Require Import Prelude Cpu KPages Frames VmStats Pt.

Local Open Scope Z_scope.

(** ** Words *)

(** Permissions are bits 2 to 4. *)
Definition is_perm (p : Z) : Prop := ∃ k, 0 ≤ k < 8 ∧ p = 4 * k.

(** A word for a page that does not exist yet, and one for a frame *)
Definition free_word (perm : Z) : Z := 1 + perm.
Definition mem_word (frame perm : Z) : Z := frame + 2 + perm.

(** An address of a page below 2^32 *)
Definition page_aligned (a : Z) : Prop := 0 ≤ a < 2 ^ 32 ∧ a `mod` PAGE_SIZE = 0.

Lemma page_aligned_eq a : page_aligned a ↔ ∃ f, 0 ≤ f < 2 ^ 20 ∧ a = f * 4096.
Proof.
  unfold page_aligned, PAGE_SIZE. split.
  - intros [Ha Hm]. exists (a / 4096). Z.div_mod_to_equations. lia.
  - intros (f & Hf & ->). rewrite Z.mod_mul by done. lia.
Qed.

Lemma land_low f r c : 0 ≤ r < 4096 → 0 ≤ c < 4096 → Z.land (f * 4096 + r) c = Z.land r c.
Proof.
  intros Hr Hc.
  assert (Z.land c (Z.ones 12) = c) as Hcc
    by (rewrite Z.land_ones by lia; apply Z.mod_small; lia).
  rewrite <- Hcc at 1. rewrite (Z.land_comm c), Z.land_assoc, Z.land_ones by lia.
  change (2 ^ 12) with 4096. rewrite Z.add_comm, Z.mod_add, Z.mod_small by lia. done.
Qed.

Lemma lor_low f r : 0 ≤ f → 0 ≤ r < 4096 → Z.lor (f * 4096) r = f * 4096 + r.
Proof.
  intros Hf Hr. assert (Z.land (f * 4096) r = 0) as H0.
  { apply Z.bits_inj'. intros k Hk. rewrite Z.land_spec, Z.bits_0. change 4096 with (2 ^ 12).
    destruct (decide (k < 12)); [by rewrite Z.mul_pow2_bits_low by lia|].
    rewrite <- (Z.mod_small r (2 ^ 12)) by lia.
    rewrite Z.mod_pow2_bits_high by lia. apply andb_false_r. }
  rewrite Z.add_nocarry_lxor, Z.lxor_lor by done. done.
Qed.

Lemma land_frame f r : 0 ≤ f < 2 ^ 20 → 0 ≤ r < 4096 → Z.land (f * 4096 + r) PAGE_FRAME = f * 4096.
Proof.
  intros Hf Hr. rewrite land_PAGE_FRAME by (unfold is_u32; lia). unfold PAGE_SIZE.
  rewrite Z.div_add_l, (Z.div_small r) by lia. lia.
Qed.

(** A mask that keeps the frame *)
Lemma land_mask f r c :
  0 ≤ f < 2 ^ 20 → 0 ≤ r < 4096 → 0 ≤ c < 4096 →
  Z.land (f * 4096 + r) (Z.lor PAGE_FRAME c) = f * 4096 + Z.land r c.
Proof.
  intros Hf Hr Hc. rewrite Z.land_lor_distr_r, land_frame, land_low by done.
  apply lor_low; [lia|].
  replace c with (Z.land c (Z.ones 12))
    by (rewrite Z.land_ones by lia; apply Z.mod_small; lia).
  rewrite Z.land_assoc, Z.land_ones by lia. apply Z.mod_pos_bound. lia.
Qed.

Ltac perm_cases k := 
  assert (k = 0 ∨ k = 1 ∨ k = 2 ∨ k = 3 ∨ k = 4 ∨ k = 5 ∨ k = 6 ∨ k = 7)
    as [->|[->|[->|[->|[->|[->|[->| ->]]]]]]] by lia.

Section words.
Context (perm : Z) (Hperm : is_perm perm).

Lemma state_free : get_page_state_by_value (free_word perm) = PAGE_FREE.
Proof. destruct Hperm as (k & Hk & ->). by perm_cases k. Qed.

Lemma state_mem a : page_aligned a → get_page_state_by_value (mem_word a perm) = PAGE_IN_MEM.
Proof.
  intros (f & Hf & ->)%page_aligned_eq. destruct Hperm as (k & Hk & ->).
  unfold get_page_state_by_value, mem_word, PAGE_FREE_MASK, PAGE_IN_MEM_MASK.
  rewrite <- Z.add_assoc, !land_low by lia. by perm_cases k.
Qed.

Lemma perm_of_free : Z.land (free_word perm) PAGE_RWX = perm.
Proof. destruct Hperm as (k & Hk & ->). by perm_cases k. Qed.

Lemma perm_of_mem a : page_aligned a → Z.land (mem_word a perm) PAGE_RWX = perm.
Proof.
  intros (f & Hf & ->)%page_aligned_eq. destruct Hperm as (k & Hk & ->).
  unfold mem_word. rewrite <- Z.add_assoc, land_low by (done || lia). by perm_cases k.
Qed.

Lemma frame_of_mem a : page_aligned a → Z.land (mem_word a perm) PAGE_FRAME = a.
Proof.
  intros (f & Hf & ->)%page_aligned_eq. destruct Hperm as (k & Hk & ->).
  unfold mem_word. rewrite <- Z.add_assoc, land_frame by lia. done.
Qed.

Lemma entry_of_mem a : page_aligned a → Z.land (mem_word a perm) 0xFFFFFFFC = a + perm.
Proof.
  intros (f & Hf & ->)%page_aligned_eq. destruct Hperm as (k & Hk & ->).
  unfold mem_word. change 0xFFFFFFFC with (Z.lor PAGE_FRAME 0xFFC).
  rewrite <- Z.add_assoc, land_mask by lia. by perm_cases k.
Qed.

Lemma make_mem a : page_aligned a → Z.lor a (Z.lor PAGE_IN_MEM_MASK perm) = mem_word a perm.
Proof.
  intros (f & Hf & ->)%page_aligned_eq. destruct Hperm as (k & Hk & ->).
  unfold mem_word. rewrite <- Z.add_assoc, <- lor_low by lia. f_equal. by perm_cases k.
Qed.

Lemma make_free : Z.lor PAGE_FREE_MASK perm = free_word perm.
Proof. destruct Hperm as (k & Hk & ->). by perm_cases k. Qed.

Lemma change_perm perm' a :
  is_perm perm' → page_aligned a →
  Z.lor (Z.land (mem_word a perm') (u32 (Z.lnot PAGE_RWX))) perm = mem_word a perm.
Proof.
  intros (k' & Hk' & ->) (f & Hf & ->)%page_aligned_eq. destruct Hperm as (k & Hk & ->).
  unfold mem_word. change (u32 (Z.lnot PAGE_RWX)) with (Z.lor PAGE_FRAME 0xFE3).
  rewrite <- Z.add_assoc, land_mask by lia.
  replace (Z.land (2 + 4 * k') 0xFE3) with 2 by (by perm_cases k').
  replace (f * 4096 + 2 + 4 * k) with (Z.lor (f * 4096) (2 + 4 * k))
    by (rewrite lor_low; lia).
  rewrite <- lor_low, <- Z.lor_assoc by lia. f_equal. by perm_cases k.
Qed.
End words.

(** ** Addresses *)

Definition up (vaddr : Z) : Z := vaddr / 2 ^ 22.
Definition low (vaddr : Z) : Z := (vaddr / 4096) `mod` 1024.

Lemma get_offset_up v : is_u32 v → get_offset v ADDR_UP_MASK ADDR_UP_SHIFT = up v.
Proof.
  intros Hv. unfold get_offset, up, ADDR_UP_MASK, ADDR_UP_SHIFT.
  rewrite <- Z.shiftr_div_pow2 by lia. apply Z.bits_inj'. intros k Hk.
  rewrite !Z.shiftr_spec, Z.land_spec by lia.
  change 0xFFC00000 with (Z.shiftl (Z.ones 10) 22). rewrite Z.shiftl_spec by lia.
  replace (k + 22 - 22) with k by lia.
  destruct (decide (k < 10)); [rewrite Z.ones_spec_low by lia; apply andb_true_r|].
  by rewrite (u32_testbit_high v) by (done || lia).
Qed.

Lemma get_offset_low v : get_offset v ADDR_LOW_MASK ADDR_LOW_SHIFT = low v.
Proof.
  unfold get_offset, low, ADDR_LOW_MASK, ADDR_LOW_SHIFT. rewrite Z.shiftr_land.
  change (Z.shiftr 0x3FF000 12) with (Z.ones 10). rewrite Z.land_ones by lia.
  by rewrite Z.shiftr_div_pow2 by lia.
Qed.

Lemma up_range v : is_u32 v → 0 ≤ up v < NWORDS.
Proof. unfold is_u32, up. change NWORDS with 1024. intros. Z.div_mod_to_equations. lia. Qed.
Lemma low_range v : 0 ≤ low v < NWORDS.
Proof. apply Z.mod_pos_bound. done. Qed.

(** The two indices determine the page. *)
Lemma up_low_page v v' :
  up v = up v' → low v = low v' → v / PAGE_SIZE = v' / PAGE_SIZE.
Proof. unfold up, low, PAGE_SIZE. intros. Z.div_mod_to_equations. lia. Qed.
Lemma page_up_low v v' : v / PAGE_SIZE = v' / PAGE_SIZE → up v = up v' ∧ low v = low v'.
Proof.
  unfold PAGE_SIZE, up, low. intros Heq. rewrite Heq. split; [|done].
  change (2 ^ 22) with (4096 * 1024). rewrite <- !Z.div_div by lia. by rewrite Heq.
Qed.

(** ** The walk *)


(** The word at an index, if it stands for something in memory *)
Definition present (ts : gmap Z (list Z)) (t i : Z) : option Z :=
  l ← ts !! t;
  w ← zlookup l i;
  if get_page_state_by_value w =? PAGE_IN_MEM then Some w else None.

(** The nested table for index [i] *)
Definition sub (ts : gmap Z (list Z)) (pt i : Z) : option Z :=
  (λ w, Z.land w PAGE_FRAME) <$> present ts pt i.

(** The translation of a virtual address: the frame plus the permissions *)
Definition walk (ts : gmap Z (list Z)) (pt vaddr : Z) : option Z :=
  a ← sub ts pt (up vaddr);
  (λ w, Z.land w 0xFFFFFFFC) <$> present ts a (low vaddr).

(** [l] is a table whose words are free or for memory; [ok] holds of the addresses
    of these. *)
Definition table_of (ok : Z → Prop) (l : list Z) : Prop :=
  Z.of_nat (length l) = NWORDS ∧
  ∀ i w, zlookup l i = Some w →
    ∃ perm, is_perm perm ∧
      (w = free_word perm ∨ ∃ a, page_aligned a ∧ ok a ∧ w = mem_word a perm).

(** The invariant of the page table at [pt]; [m] are the pages handed out. *)
Record pt_inv (pt : Z) (ts : gmap Z (list Z)) (m : gmap Z Z) : Prop := {
  (* tables lie in pages of their own *)
  pi_tables a l : ts !! a = Some l → page_aligned a ∧ a ≠ 0 ∧ m !! a = Some 1;
  pi_top : ∃ top, ts !! pt = Some top ∧ table_of (λ a, is_Some (ts !! a)) top;
  pi_sub i a : sub ts pt i = Some a →
    a ≠ pt ∧ ∃ l, ts !! a = Some l ∧
      table_of (λ f, m !! kaddr f = Some 1 ∧ ts !! kaddr f = None) l;
  (* nothing is shared *)
  pi_sub_inj i j a : sub ts pt i = Some a → sub ts pt j = Some a → i = j;
  pi_frame_inj i j i' j' a a' w w' :
    sub ts pt i = Some a → present ts a j = Some w →
    sub ts pt i' = Some a' → present ts a' j' = Some w' →
    Z.land w PAGE_FRAME = Z.land w' PAGE_FRAME → i = i' ∧ j = j';
}.

Section walk.
Implicit Types ts : gmap Z (list Z).

Lemma present_insert_ne ts a l t i : t ≠ a → present (<[a := l]> ts) t i = present ts t i.
Proof. intros Hne. unfold present. by rewrite lookup_insert_ne. Qed.

Lemma present_insert_eq ts a l i :
  present (<[a := l]> ts) a i =
    (w ← zlookup l i; if get_page_state_by_value w =? PAGE_IN_MEM then Some w else None).
Proof. unfold present. by rewrite lookup_insert_eq. Qed.

Lemma sub_insert_ne ts a l t i : t ≠ a → sub (<[a := l]> ts) t i = sub ts t i.
Proof. intros Hne. unfold sub. by rewrite present_insert_ne. Qed.

(** Storing one word *)
Lemma present_store ts t l i j w :
  ts !! t = Some l → 0 ≤ i < Z.of_nat (length l) →
  present (<[t := <[Z.to_nat i := w]> l]> ts) t j =
    if decide (i = j)
    then (if get_page_state_by_value w =? PAGE_IN_MEM then Some w else None)
    else present ts t j.
Proof.
  intros Ht Hi. rewrite present_insert_eq. unfold present. rewrite Ht. simpl.
  destruct (decide (0 ≤ j)).
  - rewrite zlookup_insert by lia. by case_decide.
  - rewrite decide_False by lia. unfold zlookup. destruct (Z.leb_spec 0 j); [lia|done].
Qed.

(** A table with no page in it *)
Lemma present_empty ts a perm i :
  is_perm perm → present (<[a := replicate (Z.to_nat NWORDS) (free_word perm)]> ts) a i = None.
Proof.
  intros Hp. rewrite present_insert_eq. destruct (zlookup _ i) as [w|] eqn:Hw; [|done]. simpl.
  unfold zlookup in Hw. destruct (0 <=? i); [|done]. apply lookup_replicate in Hw as [-> _].
  by rewrite state_free.
Qed.

(** What a word of a table that is present looks like *)
Lemma present_inv ts t l ok i w :
  ts !! t = Some l → table_of ok l → present ts t i = Some w →
  ∃ a perm, page_aligned a ∧ ok a ∧ is_perm perm ∧ w = mem_word a perm.
Proof.
  intros Hl [_ Ht]. unfold present. rewrite Hl. simpl.
  destruct (zlookup l i) as [w'|] eqn:Hw; [|done]. simpl.
  destruct (Ht i w' Hw) as (perm & Hp & [->|(a & Ha & Hok & ->)]).
  - by rewrite state_free.
  - rewrite state_mem by done. simpl. intros [= <-]. by exists a, perm.
Qed.

(** A word of a table is free or present. *)
Lemma word_cases ts t l ok i :
  ts !! t = Some l → table_of ok l → 0 ≤ i < NWORDS →
  ∃ w, zlookup l i = Some w ∧
    ((∃ perm, is_perm perm ∧ w = free_word perm ∧ present ts t i = None) ∨
     (∃ a perm, page_aligned a ∧ ok a ∧ is_perm perm ∧ w = mem_word a perm ∧
        present ts t i = Some w)).
Proof.
  intros Hl [Hlen Ht] Hi. destruct (zlookup_lt_is_Some l i) as [w Hw]; [lia|].
  exists w. split; [done|]. unfold present. rewrite Hl. simpl. rewrite Hw. simpl.
  destruct (Ht i w Hw) as (perm & Hp & [->|(a & Ha & Hok & ->)]).
  - left. exists perm. by rewrite state_free.
  - right. exists a, perm. by rewrite state_mem.
Qed.

(** Storing a word for memory keeps a table a table. *)
Lemma table_of_store (ok : Z → Prop) l i a perm :
  table_of ok l → 0 ≤ i < NWORDS → page_aligned a → ok a → is_perm perm →
  table_of ok (<[Z.to_nat i := mem_word a perm]> l).
Proof.
  intros [Hlen Ht] Hi Ha Hok Hp. split; [by rewrite length_insert|].
  intros j w Hw. pose proof (zlookup_lt_Some _ _ _ Hw). rewrite zlookup_insert in Hw by lia.
  case_decide; [|by eapply Ht]. simplify_eq. exists perm. split; [done|]. right. by exists a.
Qed.

Lemma table_of_mono (ok ok' : Z → Prop) l :
  (∀ a, ok a → ok' a) → table_of ok l → table_of ok' l.
Proof.
  intros Hok [Hlen Ht]. split; [done|]. intros i w Hw.
  destruct (Ht i w Hw) as (perm & Hp & [->|(a & Ha & Ho & ->)]); exists perm;
    (split; [done|]); [by left|right]. exists a. auto.
Qed.

Lemma table_of_empty ok perm :
  is_perm perm → table_of ok (replicate (Z.to_nat NWORDS) (free_word perm)).
Proof.
  intros Hp. split; [by rewrite length_replicate|]. intros i w Hw. exists perm. split; [done|].
  left. unfold zlookup in Hw. destruct (0 <=? i); [|done]. by apply lookup_replicate in Hw as [-> _].
Qed.
End walk.

(** ** Changes of a page table *)

Section changes.
Implicit Types (ts : gmap Z (list Z)) (m : gmap Z Z).

Lemma sub_table pt ts m i a :
  pt_inv pt ts m → sub ts pt i = Some a →
  a ≠ pt ∧ ∃ l, ts !! a = Some l ∧
    table_of (λ f, m !! kaddr f = Some 1 ∧ ts !! kaddr f = None) l.
Proof. intros Hinv. apply (pi_sub _ _ _ Hinv). Qed.

(** The frame of a word that is present *)
Lemma frame_word a perm : page_aligned a → is_perm perm → Z.land (mem_word a perm) PAGE_FRAME = a.
Proof. intros Ha Hp. by apply frame_of_mem. Qed.

(** The walk after index [j] of the nested table of [i] has been given frame [f] *)
Definition store_walk ts pt (i j f perm v : Z) : option Z :=
  if decide (up v = i ∧ low v = j) then Some (f + perm) else walk ts pt v.

(** The tables after a word of the nested table at [a] has been stored *)
Definition stored ts a l (j f perm : Z) : gmap Z (list Z) :=
  <[a := <[Z.to_nat j := mem_word f perm]> l]> ts.

Section stored.
Context (pt : Z) (ts : gmap Z (list Z)) (m m' : gmap Z Z) (i j a : Z) (l : list Z) (f perm : Z).
Context (Hinv : pt_inv pt ts m) (Hsub : sub ts pt i = Some a) (Hl : ts !! a = Some l).
Context (Hj : 0 ≤ j < NWORDS) (Hf : page_aligned f) (Hp : is_perm perm).
Local Abbreviation ts' := (stored ts a l j f perm).

Lemma stored_table : a ≠ pt ∧ table_of (λ f, m !! kaddr f = Some 1 ∧ ts !! kaddr f = None) l.
Proof.
  destruct (sub_table _ _ _ _ _ Hinv Hsub) as (Hne & l' & Hl' & Ht). by simplify_eq.
Qed.

Lemma stored_sub k : sub ts' pt k = sub ts pt k.
Proof. destruct stored_table. by apply sub_insert_ne. Qed.

Lemma stored_present b k :
  present ts' b k =
    if decide (b = a ∧ j = k) then Some (mem_word f perm) else present ts b k.
Proof.
  destruct stored_table as [_ [Hlen _]]. unfold stored. destruct (decide (b = a)) as [->|].
  - rewrite present_store by (done || lia). rewrite state_mem by done.
    destruct (decide (j = k)) as [->|]; [by rewrite decide_True by done|].
    rewrite decide_False by (by intros [_ ?]). done.
  - rewrite present_insert_ne, decide_False by (done || by intros [? _]). done.
Qed.

Lemma stored_dom b : ts' !! b = None ↔ ts !! b = None.
Proof.
  unfold stored. destruct (decide (b = a)) as [->|].
  - by rewrite lookup_insert_eq, Hl.
  - by rewrite lookup_insert_ne.
Qed.

Lemma stored_walk v : walk ts' pt v = store_walk ts pt i j f perm v.
Proof.
  unfold store_walk, walk. rewrite stored_sub.
  destruct (sub ts pt (up v)) as [b|] eqn:Hb; simpl.
  - rewrite stored_present. destruct (decide (b = a ∧ j = low v)) as [[-> ->]|Hn].
    + assert (up v = i) as <- by (by eapply (pi_sub_inj _ _ _ Hinv)).
      rewrite decide_True by done. simpl. by rewrite entry_of_mem.
    + rewrite decide_False; [done|]. intros [<- <-]. apply Hn. split; [congruence|done].
  - rewrite decide_False; [done|]. intros [<- _]. congruence.
Qed.

Context (Hm : m ⊆ m') (Hmf : m' !! kaddr f = Some 1) (Htf : ts !! kaddr f = None).

Lemma stored_tables b lb :
  ts' !! b = Some lb →
  (page_aligned b ∧ b ≠ 0 ∧ m' !! b = Some 1) ∧
  ∀ i', sub ts pt i' = Some b →
    table_of (λ f, m' !! kaddr f = Some 1 ∧ ts' !! kaddr f = None) lb.
Proof.
  intros Hb. assert (∃ lb', ts !! b = Some lb') as [lb' Hb'].
  { destruct (ts !! b) eqn:Hn; [by eexists|]. apply stored_dom in Hn. congruence. }
  split.
  { destruct (pi_tables _ _ _ Hinv b lb' Hb') as (? & ? & ?). split_and!; try done.
    by eapply lookup_weaken. }
  intros i' Hs. destruct (sub_table _ _ _ _ _ Hinv Hs) as (_ & lc & Hlc & Htc).
  simplify_eq. apply (table_of_mono _
    (λ f, m' !! kaddr f = Some 1 ∧ ts' !! kaddr f = None)) in Htc.
  2:{ intros g [Hg1 Hg2]. split; [by eapply lookup_weaken|by apply stored_dom]. }
  unfold stored in Hb at 1. destruct (decide (b = a)) as [->|].
  - rewrite lookup_insert_eq in Hb. simplify_eq. apply table_of_store; try done.
    split; [done|]. by apply stored_dom.
  - rewrite lookup_insert_ne in Hb by done. by simplify_eq.
Qed.

(** A word that is present in a nested table is old, or it is the new one. *)
Lemma stored_cases i' j' a' w' :
  sub ts' pt i' = Some a' → present ts' a' j' = Some w' →
  (i' = i ∧ j' = j ∧ w' = mem_word f perm) ∨
  (¬ (i' = i ∧ j' = j) ∧ sub ts pt i' = Some a' ∧ present ts a' j' = Some w').
Proof.
  rewrite stored_sub, stored_present. intros Hs Hw.
  destruct (decide (a' = a ∧ j = j')) as [[-> ->]|Hn].
  - left. simplify_eq. split; [|done]. by eapply (pi_sub_inj _ _ _ Hinv).
  - right. split_and!; try done. intros [-> ->]. apply Hn. split; [congruence|done].
Qed.

(** Pointing a word at a frame that no other word points at *)
Lemma inv_store_page :
  (∀ i' j' a' w', sub ts pt i' = Some a' → present ts a' j' = Some w' →
     Z.land w' PAGE_FRAME = f → i' = i ∧ j' = j) →
  pt_inv pt ts' m'.
Proof.
  intros Hother. split.
  - intros b lb Hb. by apply (stored_tables b lb).
  - destruct (pi_top _ _ _ Hinv) as (top & Htop & Htab). destruct stored_table as [Hne _].
    exists top. unfold stored at 1. rewrite lookup_insert_ne by done. split; [done|].
    eapply table_of_mono; [|done]. intros b [lb Hb]. apply not_eq_None_Some.
    rewrite stored_dom. congruence.
  - intros i' a'. rewrite stored_sub. intros Hs.
    destruct (sub_table _ _ _ _ _ Hinv Hs) as (Hne & lb & Hlb & _). split; [done|].
    destruct (ts' !! a') as [lb'|] eqn:Hb; [|apply stored_dom in Hb; congruence].
    exists lb'. split; [done|]. by apply (proj2 (stored_tables a' lb' Hb) i').
  - intros i1 i2 b. rewrite !stored_sub. apply (pi_sub_inj _ _ _ Hinv).
  - intros i1 j1 i2 j2 a1 a2 w1 w2 Hs1 Hw1 Hs2 Hw2 Heq.
    destruct (stored_cases _ _ _ _ Hs1 Hw1) as [(-> & -> & ->)|(Hn1 & Hs1' & Hw1')],
      (stored_cases _ _ _ _ Hs2 Hw2) as [(-> & -> & ->)|(Hn2 & Hs2' & Hw2')].
    + done.
    + rewrite frame_word in Heq by done. destruct Hn2. by eapply Hother.
    + rewrite frame_word in Heq by done. destruct Hn1. by eapply Hother.
    + by eapply (pi_frame_inj _ _ _ Hinv i1 j1 i2 j2).
Qed.
End stored.

(** The tables after an empty table at [a] has been linked at index [i] *)
Definition linked_table ts pt top (i a perm : Z) : gmap Z (list Z) :=
  <[pt := <[Z.to_nat i := mem_word a 0]> top]>
    (<[a := replicate (Z.to_nat NWORDS) (free_word perm)]> ts).

Lemma is_perm_0 : is_perm 0.
Proof. by exists 0. Qed.

Section link.
Context (pt : Z) (ts : gmap Z (list Z)) (m : gmap Z Z) (i a : Z) (top : list Z) (perm : Z).
Context (Hinv : pt_inv pt ts m) (Htop : ts !! pt = Some top) (Hi : 0 ≤ i < NWORDS).
Context (Hfree : sub ts pt i = None) (Ha : page_aligned a) (Ha0 : a ≠ 0) (Hma : m !! a = None).
Context (Hp : is_perm perm).
Local Abbreviation ts' := (linked_table ts pt top i a perm).

Lemma link_new : ts !! a = None ∧ a ≠ pt.
Proof.
  assert (ts !! a = None) as Hn.
  { apply eq_None_not_Some. intros [l Hl]. destruct (pi_tables _ _ _ Hinv a l Hl) as (_ & _ & ?).
    congruence. }
  split; [done|]. congruence.
Qed.

Lemma link_top_table : table_of (λ a, is_Some (ts !! a)) top.
Proof. destruct (pi_top _ _ _ Hinv) as (top' & Htop' & Ht). by simplify_eq. Qed.

Lemma linked_sub k : sub ts' pt k = if decide (i = k) then Some a else sub ts pt k.
Proof.
  destruct link_new as [_ Hne]. destruct link_top_table as [Hlen _].
  unfold sub, linked_table. rewrite present_store.
  - rewrite state_mem by (done || apply is_perm_0).
    case_decide; [|by rewrite present_insert_ne]. simpl. f_equal.
    apply frame_of_mem; [apply is_perm_0|done].
  - by rewrite lookup_insert_ne.
  - lia.
Qed.

Lemma linked_present b k : b ≠ pt → b ≠ a → present ts' b k = present ts b k.
Proof. intros H1 H2. unfold linked_table. by rewrite !present_insert_ne. Qed.

Lemma linked_present_new k : present ts' a k = None.
Proof.
  destruct link_new as [_ Hne]. unfold linked_table. rewrite present_insert_ne by done.
  by apply present_empty.
Qed.

Lemma linked_lookup b : b ≠ pt → b ≠ a → ts' !! b = ts !! b.
Proof. intros H1 H2. unfold linked_table. by rewrite !lookup_insert_ne. Qed.

(** The nested tables there were are not the new one. *)
Lemma linked_old k b : sub ts pt k = Some b → k ≠ i ∧ b ≠ pt ∧ b ≠ a.
Proof.
  intros Hs. destruct link_new as [Hn _].
  destruct (sub_table _ _ _ _ _ Hinv Hs) as (? & l & Hl & _). split_and!; [|done|]; congruence.
Qed.

Lemma linked_walk v : walk ts' pt v = walk ts pt v.
Proof.
  unfold walk. rewrite linked_sub. case_decide as Hk; simpl.
  - rewrite linked_present_new, <- Hk, Hfree. done.
  - destruct (sub ts pt (up v)) as [b|] eqn:Hb; [|done]. simpl.
    destruct (linked_old _ _ Hb) as (_ & ? & ?). by rewrite linked_present.
Qed.

Lemma linked_cases i' j' a' w' :
  sub ts' pt i' = Some a' → present ts' a' j' = Some w' →
  sub ts pt i' = Some a' ∧ present ts a' j' = Some w'.
Proof.
  rewrite linked_sub. case_decide as Hk; intros Hs Hw.
  - injection Hs as <-. by rewrite linked_present_new in Hw.
  - destruct (linked_old _ _ Hs) as (_ & ? & ?). by rewrite linked_present in Hw.
Qed.

Lemma linked_dom b : is_Some (ts' !! b) ↔ b = a ∨ is_Some (ts !! b).
Proof.
  unfold linked_table. rewrite lookup_insert_is_Some, lookup_insert_is_Some.
  destruct link_new as [_ Hne]. split.
  - intros [<-|[? [<-|[? ?]]]]; [|by left|by right]. right. by eexists.
  - intros [->|Hb]; [right; split; [done|by left]|].
    destruct (decide (pt = b)), (decide (a = b)); tauto.
Qed.

(** Adding an empty table where there is none *)
Lemma inv_link_table : pt_inv pt ts' (<[a := 1]> m).
Proof.
  destruct link_new as [Hna Hne]. split.
  - intros b lb Hb. assert (is_Some (ts' !! b)) as Hsome by (by eexists).
    apply linked_dom in Hsome as [->|[lb' Hb']]; [by rewrite lookup_insert_eq|].
    destruct (pi_tables _ _ _ Hinv b lb' Hb') as (? & ? & ?). split_and!; try done.
    rewrite lookup_insert_ne; congruence.
  - unfold linked_table at 1. rewrite lookup_insert_eq. eexists. split; [done|].
    apply table_of_store; [|done|done|apply linked_dom; by left|apply is_perm_0].
    eapply table_of_mono; [|apply link_top_table]. intros b Hb. apply linked_dom. by right.
  - intros k b. rewrite linked_sub. case_decide as Hk; intros Hs.
    + injection Hs as <-. split; [done|]. unfold linked_table at 1.
      rewrite lookup_insert_ne, lookup_insert_eq by done. eexists. split; [done|].
      by apply table_of_empty.
    + destruct (linked_old _ _ Hs) as (_ & ? & ?). split; [done|]. rewrite linked_lookup by done.
      destruct (sub_table _ _ _ _ _ Hinv Hs) as (_ & lb & Hlb & Htb). exists lb. split; [done|].
      eapply table_of_mono; [|done]. intros f [Hf1 Hf2].
      assert (kaddr f ≠ a) by congruence. rewrite lookup_insert_ne by done. split; [done|].
      apply eq_None_not_Some. rewrite linked_dom, Hf2. intros [?|[? ?]]; [done|done].
  - intros i1 i2 b. rewrite !linked_sub. repeat case_decide; intros H1 H2.
    + congruence.
    + destruct (linked_old _ _ H2) as (_ & _ & ?). congruence.
    + destruct (linked_old _ _ H1) as (_ & _ & ?). congruence.
    + by eapply (pi_sub_inj _ _ _ Hinv).
  - intros i1 j1 i2 j2 a1 a2 w1 w2 Hs1 Hw1 Hs2 Hw2 Heq.
    destruct (linked_cases _ _ _ _ Hs1 Hw1), (linked_cases _ _ _ _ Hs2 Hw2).
    by eapply (pi_frame_inj _ _ _ Hinv i1 j1 i2 j2).
Qed.
End link.
End changes.
