(* ===== verification/PtOps.v ===== *)
(** * Page tables: the operations

    What each operation of Pt.v does to the walk of its page table, and that it
    leaves the other page tables alone. *)

From Stdlib Require Import ZArith Lia.
From stdpp Require Import base list gmap numbers.
From S2P Require Import Prelude Cpu KPages Frames VmStats Pt PtProof.

Local Open Scope Z_scope.

(** ** What an operation on the table at [pt] may change *)

Record extends (pt : Z) (ts : gmap Z (list Z)) (m : gmap Z Z)
    (ts' : gmap Z (list Z)) (m' : gmap Z Z) : Prop := {
  ex_pages : m ⊆ m';
  ex_others b l : ts !! b = Some l → b ≠ pt → (∀ i, sub ts pt i ≠ Some b) → ts' !! b = Some l;
  ex_new b l : ts' !! b = Some l → is_Some (ts !! b) ∨ m !! b = None;
  ex_sub i a : sub ts pt i = Some a → sub ts' pt i = Some a;
  ex_sub_new i a : sub ts' pt i = Some a → sub ts pt i = Some a ∨ m !! a = None;
}.

Section extends.
Implicit Types (ts : gmap Z (list Z)) (m : gmap Z Z).

Lemma extends_refl pt ts m : extends pt ts m ts m.
Proof. split; try done; eauto. Qed.

Lemma extends_trans pt ts1 m1 ts2 m2 ts3 m3 :
  pt_inv pt ts1 m1 →
  extends pt ts1 m1 ts2 m2 → extends pt ts2 m2 ts3 m3 → extends pt ts1 m1 ts3 m3.
Proof.
  intros Hinv H12 H23.
  assert (∀ b, m2 !! b = None → m1 !! b = None) as Hm.
  { intros b Hb. eapply lookup_weaken_None; [done|apply H12]. }
  split.
  - etrans; [apply H12|apply H23].
  - intros b l Hb Hne Hs. apply (ex_others _ _ _ _ _ H23); [|done|].
    + by apply (ex_others _ _ _ _ _ H12).
    + intros i Hi. destruct (ex_sub_new _ _ _ _ _ H12 i b Hi) as [Hi'|Hn].
      * by apply (Hs i).
      * destruct (pi_tables _ _ _ Hinv b l Hb) as (_ & _ & ?). congruence.
  - intros b l Hb. destruct (ex_new _ _ _ _ _ H23 b l Hb) as [[l' Hl']|Hn]; [|auto].
    by eapply (ex_new _ _ _ _ _ H12).
  - intros i a Hs. by apply (ex_sub _ _ _ _ _ H23), (ex_sub _ _ _ _ _ H12).
  - intros i a Hs. destruct (ex_sub_new _ _ _ _ _ H23 i a Hs) as [Hs'|Hn]; [|auto].
    by apply (ex_sub_new _ _ _ _ _ H12).
Qed.

Lemma extends_link pt ts m i a top perm :
  pt_inv pt ts m → ts !! pt = Some top → 0 ≤ i < NWORDS → sub ts pt i = None →
  page_aligned a → a ≠ 0 → m !! a = None → is_perm perm →
  extends pt ts m (linked_table ts pt top i a perm) (<[a := 1]> m).
Proof.
  intros Hinv Htop Hi Hfree Ha Ha0 Hma Hp.
  destruct (link_new pt ts m a top Hinv Htop Hma) as [Hna Hne]. split.
  - by apply insert_subseteq.
  - intros b l Hb Hbp _. rewrite linked_lookup; congruence.
  - intros b l Hb. assert (is_Some (linked_table ts pt top i a perm !! b)) as Hs by (by eexists).
    rewrite (linked_dom pt ts m) in Hs by done. destruct Hs as [->|?]; [by right|by left].
  - intros k b Hs. rewrite (linked_sub pt ts m i a top perm) by done.
    case_decide; [congruence|done].
  - intros k b. rewrite (linked_sub pt ts m i a top perm) by done.
    case_decide; [intros [= <-]; by right|by left].
Qed.

Lemma extends_store pt ts m m' i j a l f perm :
  pt_inv pt ts m → sub ts pt i = Some a → ts !! a = Some l → m ⊆ m' →
  extends pt ts m (stored ts a l j f perm) m'.
Proof.
  intros Hinv Hs Hl Hm. split.
  - done.
  - intros b lb Hb Hbp Hbs. unfold stored. rewrite lookup_insert_ne; [done|].
    intros <-. by apply (Hbs i).
  - intros b lb Hb. left. apply not_eq_None_Some. intros Hn.
    rewrite <- (stored_dom ts j a l f perm) in Hn by done. congruence.
  - intros k b. by rewrite (stored_sub pt ts m i j a l f perm).
  - intros k b. rewrite (stored_sub pt ts m i j a l f perm) by done. by left.
Qed.
End extends.

(** The tables of [pt] and of [q] are different ones. *)
Definition apart (ts : gmap Z (list Z)) (pt q : Z) : Prop :=
  q ≠ pt ∧ (∀ i, sub ts pt i ≠ Some q) ∧
  ∀ j a, sub ts q j = Some a → a ≠ pt ∧ ∀ i, sub ts pt i ≠ Some a.

(** Another page table translates as before. *)
Lemma apart_walk ts m ts' m' pt q v :
  pt_inv q ts m → extends pt ts m ts' m' → apart ts pt q → walk ts' q v = walk ts q v.
Proof.
  intros Hinv Hex (Hne & Hns & Hsubs). unfold walk.
  destruct (pi_top _ _ _ Hinv) as (top & Htop & _).
  assert (∀ i, sub ts' q i = sub ts q i) as Hsub.
  { intros i. unfold sub, present.
    rewrite (ex_others _ _ _ _ _ Hex q top), Htop by done. done. }
  rewrite Hsub. destruct (sub ts q (up v)) as [a|] eqn:Ha; [|done]. simpl.
  destruct (sub_table _ _ _ _ _ Hinv Ha) as (_ & l & Hl & _).
  destruct (Hsubs _ _ Ha) as [Hap Has]. unfold present.
  by rewrite (ex_others _ _ _ _ _ Hex a l), Hl by done.
Qed.

(** ** The operations *)

(** The permissions a page for [v] gets when it is created: those in the free word
    of its nested table, or [perm] if that table is created with it *)
Definition slot_perm (ts : gmap Z (list Z)) (pt v perm : Z) : Z :=
  match sub ts pt (up v) with
  | None => perm
  | Some a =>
    default perm ((λ w, Z.land w PAGE_RWX) <$> (l ← ts !! a; zlookup l (low v)))
  end.

Lemma slot_perm_link pt ts m a top perm i v d :
  pt_inv pt ts m → ts !! pt = Some top → 0 ≤ i < NWORDS → sub ts pt i = None →
  page_aligned a → a ≠ 0 → m !! a = None → is_perm perm →
  slot_perm (linked_table ts pt top i a perm) pt v d =
    if decide (up v = i) then slot_perm ts pt v perm else slot_perm ts pt v d.
Proof.
  intros Hinv Htop Hi Hfree Ha Ha0 Hma Hp. unfold slot_perm.
  rewrite (linked_sub pt ts m) by done. case_decide as Hk.
  2:{ rewrite decide_False by congruence. destruct (sub ts pt (up v)) as [b|] eqn:Hb; [|done].
      destruct (linked_old pt ts m i a top Hinv Htop Hfree Hma _ _ Hb) as (_ & ? & ?).
      by rewrite linked_lookup. }
  rewrite <- Hk, Hfree, decide_True by done. destruct (link_new pt ts m a top Hinv Htop Hma) as [_ Hne].
  unfold linked_table. rewrite lookup_insert_ne, lookup_insert_eq by done.
  remember (replicate _ _) as l eqn:Hl. simpl.
  destruct (zlookup_lt_is_Some l (low v)) as [w Hw].
  { rewrite Hl, length_replicate. pose proof (low_range v). unfold NWORDS in *. lia. }
  rewrite Hw. simpl. unfold zlookup in Hw.
  destruct (0 <=? low v); [|done]. rewrite Hl in Hw. apply lookup_replicate in Hw as [-> _].
  by apply perm_of_free.
Qed.


Lemma slot_perm_store pt ts m i j a l f perm v d :
  pt_inv pt ts m → sub ts pt i = Some a → ts !! a = Some l → 0 ≤ j < NWORDS →
  ¬ (up v = i ∧ low v = j) →
  slot_perm (stored ts a l j f perm) pt v d = slot_perm ts pt v d.
Proof.
  intros Hinv Hs Hl Hj Hv. destruct (sub_table _ _ _ _ _ Hinv Hs) as (Hne & l' & Hl' & [Hlen _]).
  simplify_eq. unfold slot_perm, stored.
  assert (sub (<[a := <[Z.to_nat j := mem_word f perm]> l]> ts) pt (up v) = sub ts pt (up v))
    as -> by (by rewrite sub_insert_ne).
  destruct (sub ts pt (up v)) as [b|] eqn:Hb; [|done].
  destruct (decide (b = a)) as [->|]; [|by rewrite lookup_insert_ne].
  rewrite lookup_insert_eq, Hl. simpl. pose proof (low_range v).
  rewrite zlookup_insert by lia. rewrite decide_False; [done|]. intros ->. apply Hv.
  split; [|done]. by eapply (pi_sub_inj _ _ _ Hinv).
Qed.

(** Decide the tests on the state of a word and on [create]. *)
Ltac word_tests :=
  repeat match goal with
  | |- context [?a =? ?b] =>
    let r := eval vm_compute in (a =? b) in
    match r with
    | true => change (a =? b) with true
    | false => change (a =? b) with false
    end
  end; cbn [negb]; cbv iota; wp_steps.

Section ops.
Context {P : Type} `{!HasCpu P} `{!KPages P} `{!KPagesLaws P} `{!Frames P} `{!FramesLaws P}.
Context (t_vmspace : Z).
Implicit Types (p : P) (ts : gmap Z (list Z)) (m : gmap Z Z) (ph : Z → Z).

Lemma get_value_ok F p ts st ph pt l i w (Q : Z → PT → Prop) E :
  ts !! pt = Some l → zlookup l i = Some w → Q w (p, MkVm ts st ph) →
  wp F (get_value pt i) (p, MkVm ts st ph) Q E.
Proof.
  intros Hl Hw HQ. unfold get_value. wp_the l by done. wp_the w by done. done.
Qed.

Lemma set_value_ok F p ts st ph pt l i w (Q : () → PT → Prop) E :
  ts !! pt = Some l → 0 ≤ i < Z.of_nat (length l) →
  Q tt (p, MkVm (<[pt := <[Z.to_nat i := w]> l]> ts) st ph) →
  wp F (set_value pt i w) (p, MkVm ts st ph) Q E.
Proof.
  intros Hl Hi HQ. unfold set_value, upd_tables. wp_the l by done.
  wp_the (<[Z.to_nat i := w]> l) by (by rewrite zstore_Some). by wp_steps.
Qed.

Lemma owned_page p m a : pages_own p m → m !! a = Some 1 → page_aligned a ∧ a ≠ 0 ∧ MIPS_KSEG0 ≤ a < MIPS_KSEG1.
Proof.
  intros Hown Ha. destruct (pages_range _ _ _ _ Hown Ha) as (_ & ? & ? & ?).
  unfold page_aligned, MIPS_KSEG0, MIPS_KSEG1, PAGE_SIZE in *. lia.
Qed.

Lemma owned_frame p m f : pages_own p m → m !! kaddr f = Some 1 → page_aligned f ∧ f < 2 ^ 29.
Proof.
  intros Hown Hf. destruct (owned_page _ _ _ Hown Hf) as ([_ Hm] & _ & Hr).
  unfold kaddr, page_aligned, MIPS_KSEG0, MIPS_KSEG1, PAGE_SIZE in *.
  split; [|lia]. split; [lia|]. Z.div_mod_to_equations. lia.
Qed.

Lemma pt_create_raw_ok p ts st ph m perm v (Q : Z → PT → Prop) E :
  pages_own p m → is_perm perm →
  (∀ a p', m !! a = None → page_aligned a → a ≠ 0 → pages_own p' (<[a := 1]> m) →
     cpu_of p' = cpu_of p →
     Q a (p', MkVm (<[a := replicate (Z.to_nat NWORDS) (free_word perm)]> ts) st ph)) →
  wp safe_oom (_pt_create t_vmspace perm v) (p, MkVm ts st ph) Q E.
Proof.
  intros Hown Hp HQ. unfold _pt_create, on_pages, upd_tables. wp_steps. cbn [fst snd].
  eapply wp_mono; [by apply alloc_page_law| |done]. intros a p1 (Hcpu1 & Hma & Hown1).
  destruct (owned_page p1 _ a Hown1 ltac:(by rewrite lookup_insert_eq)) as (Ha & Ha0 & Hr).
  destruct (Z.eqb_spec a 0); [done|]. wp_steps. cbn [fst snd].
  unfold MIPS_KSEG0, MIPS_KSEG1 in Hr. rewrite u32_small by lia.
  apply (wp_faults _ safe); [|done].
  rewrite <- (Z.add_0_r (a - 0x80000000)).
  eapply wp_mono; [apply (setpagevaddr_law _ (<[a := 1]> m)); [done| |done]| |done].
  { unfold kaddr, MIPS_KSEG0. replace (a - 0x80000000 + 0x80000000) with a by lia.
    by rewrite lookup_insert_eq. }
  intros [] p2 [Hcpu2 Hown2]. wp_steps. cbn [fst snd tables stats phys]. rewrite make_free by done.
  apply HQ; try done. congruence.
Qed.

Lemma pt_create_page_ok p ts st ph m v (Q : Z → PT → Prop) E :
  pages_own p m →
  (∀ f p', m !! kaddr f = None → page_aligned f → pages_own p' (<[kaddr f := 1]> m) →
     cpu_of p' = cpu_of p → Q f (p', MkVm ts st ph)) →
  wp safe_oom (_pt_create_page t_vmspace v) (p, MkVm ts st ph) Q E.
Proof.
  intros Hown HQ. unfold _pt_create_page, on_pages. wp_steps. cbn [fst snd].
  eapply wp_mono; [by apply getpages_law| |done]. intros f p1 (Hcpu1 & Hf0 & Hmf & Hown1).
  destruct (owned_frame p1 _ f Hown1 ltac:(by rewrite lookup_insert_eq)) as [Hf _].
  destruct (Z.eqb_spec f 0); [done|]. wp_steps. cbn [fst snd].
  apply (wp_faults _ safe); [|done]. rewrite <- (Z.add_0_r f) at 1.
  eapply wp_mono; [apply (setpagevaddr_law _ (<[kaddr f := 1]> m)); [done| |done]| |done].
  { by rewrite lookup_insert_eq. }
  intros [] p2 [Hcpu2 Hown2]. wp_steps. apply HQ; try done. congruence.
Qed.

Lemma on_stats_inc_ok F p m ts st ph i (Q : () → PT → Prop) E :
  pages_own p m → stats_wf st → 0 ≤ i < VMSTAT_COUNT →
  Q tt (p, MkVm ts (bump i st) ph) →
  wp F (on_stats (vmstats_inc i)) (p, MkVm ts st ph) Q E.
Proof.
  intros Hown Hst Hi HQ. unfold on_stats. wp_steps. cbn [fst snd stats].
  apply vmstats_inc_ok; [by eapply pages_running|done..|]. cbn [fst snd tables phys].
  by rewrite set_cpu_of.
Qed.

(** The top word for index [i], and the nested table it stands for *)
Lemma top_word_cases pt ts m i top :
  pt_inv pt ts m → ts !! pt = Some top → 0 ≤ i < NWORDS →
  ∃ w, zlookup top i = Some w ∧
    ((∃ perm, is_perm perm ∧ w = free_word perm ∧ sub ts pt i = None) ∨
     (∃ a perm, page_aligned a ∧ a ≠ 0 ∧ is_perm perm ∧ w = mem_word a perm ∧
        sub ts pt i = Some a)).
Proof.
  intros Hinv Htop Hi. destruct (pi_top _ _ _ Hinv) as (top' & Htop' & Ht). simplify_eq.
  destruct (word_cases ts pt top _ i Htop Ht Hi)
    as (w & Hw & [(perm & Hp & -> & Hn)|(a & perm & Ha & [l Hl] & Hp & -> & Hs)]);
    eexists; (split; [done|]); [left|right].
  - exists perm. unfold sub. by rewrite Hn.
  - exists a, perm. destruct (pi_tables _ _ _ Hinv a l Hl) as (_ & ? & _).
    unfold sub. rewrite Hs. simpl. rewrite frame_of_mem by done. done.
Qed.

(** Looking for a nested table without creating it *)
Lemma get_pagetable_find F p ts st ph m pt v perm (Q : Z * Z → PT → Prop) E :
  pt_inv pt ts m → is_u32 v →
  Q (match sub ts pt (up v) with Some a => (0, a) | None => (PAGE_FREE, 0) end)
    (p, MkVm ts st ph) →
  wp F (get_pagetable t_vmspace pt v 0 perm) (p, MkVm ts st ph) Q E.
Proof.
  intros Hinv Hv HQ. destruct (pi_top _ _ _ Hinv) as (top & Htop & _).
  unfold get_pagetable. rewrite get_offset_up by done. wp_steps.
  destruct (top_word_cases pt ts m (up v) top Hinv Htop (up_range v Hv))
    as (w & Hw & [(k & Hk & -> & Hn)|(a & k & Ha & Ha0 & Hk & -> & Hs)]);
    (eapply get_value_ok; [done..|]); wp_steps.
  - rewrite Hn in HQ. rewrite state_free by done. by word_tests.
  - rewrite Hs in HQ. rewrite state_mem, frame_of_mem by done. by word_tests.
Qed.

(** In a nested table that exists the slot has its permissions. *)
Lemma slot_perm_table pt ts m v a d d' :
  pt_inv pt ts m → sub ts pt (up v) = Some a → slot_perm ts pt v d = slot_perm ts pt v d'.
Proof.
  intros Hinv Hs. destruct (sub_table _ _ _ _ _ Hinv Hs) as (_ & l & Hl & Ht). unfold slot_perm. rewrite Hs, Hl. simpl.
  destruct (zlookup_lt_is_Some l (low v)) as [w ->]; [|done]. destruct Ht as [Hlen _]. rewrite Hlen. apply low_range.
Qed.

(** Finding or creating the nested table *)
Lemma get_pagetable_create p ts st ph m pt v perm (Q : Z * Z → PT → Prop) E :
  pages_own p m → pt_inv pt ts m → is_u32 v → is_perm perm →
  (∀ a p' ts' m', sub ts' pt (up v) = Some a → a ≠ 0 → pt_inv pt ts' m' →
     (∀ v', walk ts' pt v' = walk ts pt v') → extends pt ts m ts' m' →
     (∀ v' d, slot_perm ts' pt v' d =
        if decide (up v' = up v) then slot_perm ts pt v' perm else slot_perm ts pt v' d) →
     (sub ts pt (up v) = None ∨ ts' = ts) →
     pages_own p' m' → cpu_of p' = cpu_of p → Q (0, a) (p', MkVm ts' st ph)) →
  wp safe_oom (get_pagetable t_vmspace pt v 1 perm) (p, MkVm ts st ph) Q E.
Proof.
  intros Hown Hinv Hv Hp HQ. destruct (pi_top _ _ _ Hinv) as (top & Htop & Htab).
  unfold get_pagetable. rewrite get_offset_up by done. wp_steps.
  pose proof (up_range v Hv) as Hi.
  destruct (top_word_cases pt ts m (up v) top Hinv Htop Hi)
    as (w & Hw & [(k & Hk & -> & Hn)|(a & k & Ha & Ha0 & Hk & -> & Hs)]);
    (eapply get_value_ok; [done..|]); wp_steps.
  - rewrite state_free by done. word_tests.
    apply (pt_create_raw_ok _ _ _ _ m); [done..|]. intros a p' Hma Ha Ha0 Hown' Hcpu.
    destruct (link_new pt ts m a top Hinv Htop Hma) as [Hna Hne].
    wp_steps. eapply set_value_ok; [by rewrite lookup_insert_ne|destruct Htab; lia|]. wp_steps.
    replace (Z.lor a PAGE_IN_MEM_MASK) with (mem_word a 0)
      by (by rewrite <- make_mem by (done || apply is_perm_0)).
    apply (HQ a p' (linked_table ts pt top (up v) a perm) (<[a := 1]> m)); try done.
    + rewrite (linked_sub pt ts m) by done. by rewrite decide_True.
    + by apply inv_link_table.
    + intros v'. by apply (linked_walk pt ts m).
    + by apply extends_link.
    + intros v' d. by apply (slot_perm_link pt ts m).
    + by left.
  - rewrite state_mem, frame_of_mem by done. word_tests.
    apply (HQ a p ts m); try done; [apply extends_refl| |by right].
    intros v' d. case_decide as Hu; [|done]. by apply (slot_perm_table pt ts m _ a); [|rewrite Hu].
Qed.

(** A word of a nested table *)
Lemma leaf_cases pt ts m i a j :
  pt_inv pt ts m → sub ts pt i = Some a → 0 ≤ j < NWORDS →
  ∃ l w, ts !! a = Some l ∧ Z.of_nat (length l) = NWORDS ∧ zlookup l j = Some w ∧
    ((∃ perm, is_perm perm ∧ w = free_word perm ∧ present ts a j = None) ∨
     (∃ f perm, page_aligned f ∧ m !! kaddr f = Some 1 ∧ ts !! kaddr f = None ∧
        is_perm perm ∧ w = mem_word f perm ∧ present ts a j = Some w)).
Proof.
  intros Hinv Hs Hj. destruct (sub_table _ _ _ _ _ Hinv Hs) as (_ & l & Hl & Ht).
  destruct (word_cases ts a l _ j Hl Ht Hj)
    as (w & Hw & [(perm & Hp & -> & Hn)|(f & perm & Hf & [Hm Hts] & Hp & -> & Hpr)]);
    exists l; eexists; (split_and!; [done|apply Ht|done|]); [left|right].
  - by exists perm.
  - by exists f, perm.
Qed.

(** What the walk says of a page is what is in its word. *)
Lemma walk_leaf ts pt v a :
  sub ts pt (up v) = Some a →
  walk ts pt v = (λ w, Z.land w 0xFFFFFFFC) <$> present ts a (low v).
Proof. intros Hs. unfold walk. by rewrite Hs. Qed.

Lemma store_walk_same ts pt v f perm :
  walk ts pt v = Some (f + perm) →
  ∀ v', walk ts pt v' = store_walk ts pt (up v) (low v) f perm v'.
Proof.
  intros Hw v'. unfold store_walk. case_decide as Hv; [|done]. destruct Hv as [Hu Hl].
  rewrite <- Hw. unfold walk. by rewrite Hu, Hl.
Qed.

(** Looking for a page without creating it *)
Lemma get_page_find F p ts st ph m pt v a vv (Q : Z * Z → PT → Prop) E :
  pt_inv pt ts m → sub ts pt (up v) = Some a →
  Q (match walk ts pt v with Some w => (0, w) | None => (PAGE_FREE, PAGE_FREE) end)
    (p, MkVm ts st ph) →
  wp F (get_page t_vmspace a (low v) 0 vv) (p, MkVm ts st ph) Q E.
Proof.
  intros Hinv Hs HQ. rewrite (walk_leaf _ _ _ _ Hs) in HQ. unfold get_page. wp_steps.
  destruct (leaf_cases pt ts m (up v) a (low v) Hinv Hs (low_range v))
    as (l & w & Hl & _ & Hw & [(k & Hk & -> & Hn)|(f & k & Hf & _ & _ & Hk & -> & Hpr)]);
    (eapply get_value_ok; [done..|]); wp_steps.
  - rewrite Hn in HQ. rewrite state_free by done. by word_tests.
  - rewrite Hpr in HQ. rewrite state_mem by done. by word_tests.
Qed.

(** Finding or creating the page *)
Lemma get_page_create p ts st ph m pt v a vv (Q : Z * Z → PT → Prop) E :
  pages_own p m → stats_wf st → pt_inv pt ts m → sub ts pt (up v) = Some a →
  (∀ f perm, page_aligned f → is_perm perm → m !! kaddr f = Some 1 →
     walk ts pt v = Some (f + perm) → Q (0, f + perm) (p, MkVm ts st ph)) →
  (∀ f perm p' ts' m', page_aligned f → is_perm perm → m !! kaddr f = None →
     walk ts pt v = None → (∀ d, slot_perm ts pt v d = perm) →
     pt_inv pt ts' m' → extends pt ts m ts' m' → m' = <[kaddr f := 1]> m →
     (∀ v', walk ts' pt v' = store_walk ts pt (up v) (low v) f perm v') →
     (∀ v' d, ¬ (up v' = up v ∧ low v' = low v) → slot_perm ts' pt v' d = slot_perm ts pt v' d) →
     pages_own p' m' → cpu_of p' = cpu_of p →
     Q (0, mem_word f perm) (p', MkVm ts' (bump VMSTAT_PAGE_FAULT_ZERO st) ph)) →
  wp safe_oom (get_page t_vmspace a (low v) 1 vv) (p, MkVm ts st ph) Q E.
Proof.
  intros Hown Hst Hinv Hs HQold HQnew. unfold get_page. wp_steps.
  destruct (leaf_cases pt ts m (up v) a (low v) Hinv Hs (low_range v))
    as (l & w & Hl & Hlen & Hw & [(k & Hk & -> & Hn)|(f & k & Hf & Hm & _ & Hk & -> & Hpr)]);
    (eapply get_value_ok; [done..|]); wp_steps.
  2:{ rewrite state_mem by done. word_tests. rewrite entry_of_mem by done.
      apply HQold; try done. rewrite (walk_leaf _ _ _ _ Hs), Hpr. simpl.
      by rewrite entry_of_mem. }
  rewrite state_free by done. word_tests. eapply on_stats_inc_ok; [done..|]. wp_steps.
  apply (pt_create_page_ok _ _ _ _ m); [done|]. intros f p' Hmf Hf Hown' Hcpu. wp_steps.
  eapply set_value_ok; [done|pose proof (low_range v); lia|]. wp_steps.
  rewrite perm_of_free, make_mem by done.
  assert (ts !! kaddr f = None) as Htf.
  { apply eq_None_not_Some. intros [lf Hlf].
    destruct (pi_tables _ _ _ Hinv _ _ Hlf) as (_ & _ & ?). congruence. }
  assert (m ⊆ <[kaddr f := 1]> m) as Hsub by (by apply insert_subseteq).
  apply (HQnew f k p' (stored ts a l (low v) f k) (<[kaddr f := 1]> m)); try done.
  - by rewrite (walk_leaf _ _ _ _ Hs), Hn.
  - intros d. unfold slot_perm. rewrite Hs, Hl. simpl. rewrite Hw. simpl. by apply perm_of_free.
  - eapply inv_store_page; try done; [apply low_range|by rewrite lookup_insert_eq|].
    intros i' j' a' w' Hs' Hw' Hfr. exfalso.
    destruct (sub_table _ _ _ _ _ Hinv Hs') as (_ & l' & Hl' & Ht').
    destruct (present_inv _ _ _ _ _ _ Hl' Ht' Hw') as (g & k' & Hg & [Hmg _] & Hk' & ->).
    rewrite frame_of_mem in Hfr by done. congruence.
  - by eapply extends_store.
  - intros v'. eapply stored_walk; try done. apply low_range.
  - intros v' d. apply (slot_perm_store pt ts m); (done || apply low_range).
Qed.

Lemma sub_nonzero pt ts m i a : pt_inv pt ts m → sub ts pt i = Some a → a ≠ 0.
Proof.
  intros Hinv Hs. destruct (sub_table _ _ _ _ _ Hinv Hs) as (_ & l & Hl & _).
  by destruct (pi_tables _ _ _ Hinv a l Hl) as (_ & ? & _).
Qed.

Lemma pt_get_paddr_find F p ts st ph m pt v perm (Q : Z → PT → Prop) E :
  pt_inv pt ts m → is_u32 v →
  Q (default PAGE_FREE (walk ts pt v)) (p, MkVm ts st ph) →
  wp F (pt_get_paddr t_vmspace pt v 0 perm) (p, MkVm ts st ph) Q E.
Proof.
  intros Hinv Hv HQ. unfold pt_get_paddr. wp_steps. eapply get_pagetable_find; [done..|].
  destruct (sub ts pt (up v)) as [a|] eqn:Hs; wp_steps; cbn [snd].
  - pose proof (sub_nonzero _ _ _ _ _ Hinv Hs). destruct (Z.eqb_spec a 0); [done|].
    rewrite get_offset_low. wp_steps. eapply get_page_find; [done..|]. wp_steps.
    by destruct (walk ts pt v).
  - unfold walk in HQ. rewrite Hs in HQ. simpl in HQ. by word_tests.
Qed.

(** After [pt_get_paddr] with [create]: the page of [v] has the frame [f] it had,
    or one that was free and the permissions of its slot; no other translation
    has changed. *)
Record translated (pt : Z) (ts : gmap Z (list Z)) (m : gmap Z Z) (st : vmstats) (v perm0 : Z)
    (r f perm : Z) (ts' : gmap Z (list Z)) (m' : gmap Z Z) (st' : vmstats) : Prop := {
  tr_frame : page_aligned f ∧ m' !! kaddr f = Some 1;
  tr_perm : is_perm perm;
  tr_inv : pt_inv pt ts' m';
  tr_extends : extends pt ts m ts' m';
  tr_walk v' : walk ts' pt v' = store_walk ts pt (up v) (low v) f perm v';
  tr_slots v' d : walk ts' pt v' = None → slot_perm ts' pt v' d =
    if decide (up v' = up v) then slot_perm ts pt v' perm0 else slot_perm ts pt v' d;
  tr_case :
    (walk ts pt v = Some (f + perm) ∧ r = f + perm ∧ st' = st) ∨
    (walk ts pt v = None ∧ m !! kaddr f = None ∧ perm = slot_perm ts pt v perm0 ∧
     r = mem_word f perm ∧ st' = bump VMSTAT_PAGE_FAULT_ZERO st);
}.

Lemma pt_get_paddr_ok p ts st ph m pt v perm0 (Q : Z → PT → Prop) E :
  pages_own p m → stats_wf st → pt_inv pt ts m → is_u32 v → is_perm perm0 →
  (∀ r f perm p' ts' m' st', translated pt ts m st v perm0 r f perm ts' m' st' →
     pages_own p' m' → cpu_of p' = cpu_of p → Q r (p', MkVm ts' st' ph)) →
  wp safe_oom (pt_get_paddr t_vmspace pt v 1 perm0) (p, MkVm ts st ph) Q E.
Proof.
  intros Hown Hst Hinv Hv Hp HQ. unfold pt_get_paddr. wp_steps.
  apply (get_pagetable_create _ _ _ _ m); [done..|].
  intros a p1 ts1 m1 Hs Ha0 Hinv1 Hw1 Hex1 Hsp1 _ Hown1 Hcpu1. wp_steps. cbn [snd].
  destruct (Z.eqb_spec a 0); [done|]. rewrite get_offset_low. wp_steps.
  apply (get_page_create _ _ _ _ m1 pt); [done..| |].
  - intros f perm Hf Hpm Hm Hw. wp_steps. apply (HQ _ f perm _ _ m1); [|done..].
    rewrite Hw1 in Hw. split; try done; [|by left].
    intros v'. rewrite Hw1. by apply store_walk_same.
  - intros f perm p2 ts2 m2 Hf Hpm Hmf Hnone Hslot Hinv2 Hex2 -> Hw2 Hsp2 Hown2 Hcpu2. wp_steps.
    apply (HQ _ f perm _ _ (<[kaddr f := 1]> m1)); [|done|congruence]. split.
    + by rewrite lookup_insert_eq.
    + done.
    + done.
    + by eapply extends_trans.
    + intros v'. rewrite Hw2. unfold store_walk. by rewrite Hw1.
    + intros v' d Hn. rewrite Hw2 in Hn. unfold store_walk in Hn. destruct (decide (up v' = up v ∧ low v' = low v)); [done|].
      by rewrite Hsp2.
    + right. specialize (Hsp1 v perm0). rewrite decide_True in Hsp1 by done. rewrite <- Hsp1, Hslot, <- Hw1. split_and!; try done.
      eapply lookup_weaken_None; [done|apply Hex1].
Qed.

Lemma entry_inj f perm f' perm' :
  page_aligned f → is_perm perm → page_aligned f' → is_perm perm' →
  f + perm = f' + perm' → f = f' ∧ perm = perm'.
Proof.
  intros (a & Ha & ->)%page_aligned_eq (k & Hk & ->) (b & Hb & ->)%page_aligned_eq (k' & Hk' & ->).
  lia.
Qed.

(** The word of a page that exists *)
Lemma walk_word pt ts m v a f perm :
  pt_inv pt ts m → sub ts pt (up v) = Some a → page_aligned f → is_perm perm →
  walk ts pt v = Some (f + perm) →
  m !! kaddr f = Some 1 ∧ ts !! kaddr f = None ∧
  present ts a (low v) = Some (mem_word f perm) ∧
  ∃ l, ts !! a = Some l ∧ Z.of_nat (length l) = NWORDS ∧ zlookup l (low v) = Some (mem_word f perm).
Proof.
  intros Hinv Hs Hf Hp Hw. rewrite (walk_leaf _ _ _ _ Hs) in Hw.
  destruct (leaf_cases pt ts m (up v) a (low v) Hinv Hs (low_range v))
    as (l & w & Hl & Hlen & Hlw & [(k & Hk & -> & Hn)|(g & k & Hg & Hm & Ht & Hk & -> & Hpr)]).
  - by rewrite Hn in Hw.
  - rewrite Hpr in Hw. simpl in Hw. rewrite entry_of_mem in Hw by done. injection Hw as Hw.
    destruct (entry_inj g k f perm) as [-> ->]; try done. split_and!; try done. by exists l.
Qed.

(** [pt_set_permissions] on a page that exists *)
Lemma pt_set_permissions_ok p ts st ph m pt v f perm perm' (Q : Z → PT → Prop) E :
  pages_own p m → stats_wf st → pt_inv pt ts m → is_u32 v → is_perm perm' →
  page_aligned f → is_perm perm → walk ts pt v = Some (f + perm) →
  (∀ p' ts' m', pt_inv pt ts' m' → extends pt ts m ts' m' →
     (∀ v', walk ts' pt v' = store_walk ts pt (up v) (low v) f perm' v') →
     (∀ v' d, walk ts' pt v' = None → slot_perm ts' pt v' d = slot_perm ts pt v' d) →
     pages_own p' m' → cpu_of p' = cpu_of p → Q 1 (p', MkVm ts' st ph)) →
  wp safe_oom (pt_set_permissions t_vmspace pt v 1 perm') (p, MkVm ts st ph) Q E.
Proof.
  intros Hown Hst Hinv Hv Hp' Hf Hp Hw HQ. unfold pt_set_permissions. wp_steps.
  apply (get_pagetable_create _ _ _ _ m); [done..|].
  intros a p1 ts1 m1 Hs Ha0 Hinv1 Hw1 Hex1 _ Hsame Hown1 Hcpu1. wp_steps. cbn [snd].
  destruct (Z.eqb_spec a 0); [done|]. rewrite get_offset_low. cbn [negb]. wp_steps.
  destruct Hsame as [Hn| ->]; [unfold walk in Hw; by rewrite Hn in Hw|].
  destruct (walk_word pt ts m1 v a f perm Hinv1 Hs Hf Hp Hw)
    as (Hm & Ht & Hpr & l & Hl & Hlen & Hlw).
  apply (get_page_create _ _ _ _ m1 pt); [done..| |]; [|congruence].
  intros f0 k0 _ _ _ _. wp_steps. cbn [fst]. word_tests.
  eapply get_value_ok; [done..|]. wp_steps. rewrite change_perm by done.
  pose proof (low_range v) as Hj. eapply set_value_ok; [done|lia|]. wp_steps.
  apply (HQ p1 (stored ts a l (low v) f perm') m1); try done.
  - eapply inv_store_page; try done. intros i' j' a' w' Hs' Hw' Hfr.
    eapply (pi_frame_inj _ _ _ Hinv1); [done..|]. by rewrite frame_of_mem by done.
  - eapply extends_trans; [done..|]. by eapply extends_store.
  - intros v'. by rewrite (stored_walk pt ts m1 (up v)).
  - intros v' d Hn. rewrite (stored_walk pt ts m1 (up v)) in Hn by done. unfold store_walk in Hn.
    case_decide; [done|]. by eapply (slot_perm_store pt ts m1).
Qed.
End ops.

(** ** Page tables: creation and destruction

    [pt_create] makes an empty page table; [pt_destroy] gives back exactly the
    pages of the table, of its nested tables and of the frames they map. *)


(** Page [b] is a frame mapped by one of the words below [j] of the table [a]. *)
Definition frame_below (ts : gmap Z (list Z)) (a j b : Z) : Prop :=
  ∃ k w, 0 ≤ k < j ∧ present ts a k = Some w ∧ b = kaddr (Z.land w PAGE_FRAME).

(** Page [b] belongs to one of the first [i] nested tables: the table itself or a
    frame. *)
Definition nested_below (ts : gmap Z (list Z)) (pt i b : Z) : Prop :=
  ∃ k a, 0 ≤ k < i ∧ sub ts pt k = Some a ∧ (b = a ∨ frame_below ts a NWORDS b).

(** All pages of a page table *)
Definition pages_of (ts : gmap Z (list Z)) (pt b : Z) : Prop :=
  b = pt ∨ nested_below ts pt NWORDS b.

(** [m'] is [m] without the pages of [gone]. *)
Definition without {A} (m m' : gmap Z A) (gone : Z → Prop) : Prop :=
  (∀ b, gone b → m' !! b = None) ∧ (∀ b, ¬ gone b → m' !! b = m !! b).

Lemma without_refl {A} (m : gmap Z A) gone : (∀ b, ¬ gone b) → without m m gone.
Proof. intros Hn. split; [|done]. intros b Hb. by destruct (Hn b). Qed.

Lemma without_delete {A} (m m' : gmap Z A) (gone gone' : Z → Prop) a :
  without m m' gone → (∀ b, gone' b ↔ gone b ∨ b = a) → without m (delete a m') gone'.
Proof.
  intros [H1 H2] Hiff. split; intros b Hb; rewrite Hiff in Hb.
  - destruct (decide (b = a)) as [->|]; [apply lookup_delete_eq|].
    rewrite lookup_delete_ne by done. apply H1. tauto.
  - rewrite lookup_delete_ne by (intros ->; tauto). apply H2. tauto.
Qed.

Lemma without_iff {A} (m m' : gmap Z A) (gone gone' : Z → Prop) :
  without m m' gone → (∀ b, gone' b ↔ gone b) → without m m' gone'.
Proof. intros [H1 H2] Hiff. split; intros b Hb; rewrite Hiff in Hb; auto. Qed.

Section sets.
Context (pt : Z) (ts : gmap Z (list Z)) (m : gmap Z Z) (Hinv : pt_inv pt ts m).

(** A frame that a nested table maps *)
Lemma nested_frame i a k w :
  sub ts pt i = Some a → present ts a k = Some w →
  m !! kaddr (Z.land w PAGE_FRAME) = Some 1 ∧ ts !! kaddr (Z.land w PAGE_FRAME) = None ∧
  get_page_state_by_value w = PAGE_IN_MEM.
Proof.
  intros Hs Hw. destruct (sub_table _ _ _ _ _ Hinv Hs) as (_ & l & Hl & Ht).
  destruct (present_inv _ _ _ _ _ _ Hl Ht Hw) as (f & perm & Hf & [Hm Hn] & Hp & ->).
  by rewrite frame_of_mem, state_mem by done.
Qed.

(** What the first tables hold has nothing to do with a later one. *)
Lemma below_not_table i k a : k ≤ i → sub ts pt i = Some a → ¬ nested_below ts pt k a.
Proof.
  intros Hk Hs (k' & a' & Hk' & Hs' & [->|(j & w & _ & Hw & ->)]).
  - assert (i = k') by (by eapply (pi_sub_inj _ _ _ Hinv)). lia.
  - destruct (sub_table _ _ _ _ _ Hinv Hs) as (_ & l & Hl & _).
    destruct (nested_frame _ _ _ _ Hs' Hw) as (_ & Hn & _). congruence.
Qed.

Lemma below_not_frame i k a j w :
  k ≤ i → sub ts pt i = Some a → present ts a j = Some w →
  ¬ nested_below ts pt k (kaddr (Z.land w PAGE_FRAME)).
Proof.
  intros Hk Hs Hw (k' & a' & Hk' & Hs' & [Heq|(j' & w' & _ & Hw' & Heq)]).
  - destruct (sub_table _ _ _ _ _ Hinv Hs') as (_ & l & Hl & _).
    destruct (nested_frame _ _ _ _ Hs Hw) as (_ & Hn & _). congruence.
  - assert (i = k') by (eapply (pi_frame_inj _ _ _ Hinv i j k' j'); [done..|];
      unfold kaddr in Heq; lia). lia.
Qed.

Lemma below_not_top k : ¬ nested_below ts pt k pt.
Proof.
  intros (k' & a & _ & Hs & [->|(j & w & _ & Hw & Heq)]).
  - by destruct (sub_table _ _ _ _ _ Hinv Hs).
  - destruct (pi_top _ _ _ Hinv) as (top & Htop & _).
    destruct (nested_frame _ _ _ _ Hs Hw) as (_ & Hn & _). congruence.
Qed.

(** Inside one table: the frames of the words already seen *)
Lemma frame_not_below i a j w :
  sub ts pt i = Some a → present ts a j = Some w →
  ¬ frame_below ts a j (kaddr (Z.land w PAGE_FRAME)).
Proof.
  intros Hs Hw (k & w' & Hk & Hw' & Heq).
  assert (j = k) by (eapply (pi_frame_inj _ _ _ Hinv i j i k); [done..|]; unfold kaddr in Heq; lia).
  lia.
Qed.

Lemma table_not_frame i a j : sub ts pt i = Some a → ¬ frame_below ts a j a.
Proof.
  intros Hs (k & w & _ & Hw & Heq). destruct (sub_table _ _ _ _ _ Hinv Hs) as (_ & l & Hl & _).
  destruct (nested_frame _ _ _ _ Hs Hw) as (_ & Hn & _). congruence.
Qed.

Lemma frame_below_step a j b :
  0 ≤ j →
  frame_below ts a (j + 1) b ↔
  frame_below ts a j b ∨ ∃ w, present ts a j = Some w ∧ b = kaddr (Z.land w PAGE_FRAME).
Proof.
  intros Hj. split.
  - intros (k & w & Hk & Hw & ->). destruct (decide (k = j)) as [->|].
    + right. eauto.
    + left. exists k, w. split; [lia|done].
  - intros [(k & w & Hk & Hw & ->)|(w & Hw & ->)].
    + exists k, w. split; [lia|done].
    + exists j, w. split; [lia|done].
Qed.

Lemma nested_below_step i b :
  0 ≤ i →
  nested_below ts pt (i + 1) b ↔
  nested_below ts pt i b ∨
  ∃ a, sub ts pt i = Some a ∧ (b = a ∨ frame_below ts a NWORDS b).
Proof.
  intros Hi. split.
  - intros (k & a & Hk & Hs & Hb). destruct (decide (k = i)) as [->|].
    + right. eauto.
    + left. exists k, a. split; [lia|done].
  - intros [(k & a & Hk & Hs & Hb)|(a & Hs & Hb)].
    + exists k, a. split; [lia|done].
    + exists i, a. split; [lia|done].
Qed.
End sets.

Section ops.
Context {P : Type} `{!HasCpu P} `{!KPages P} `{!KPagesLaws P} `{!Frames P} `{!FramesLaws P}.
Context (t_vmspace : Z).
Implicit Types (p : P) (ts : gmap Z (list Z)) (m : gmap Z Z) (ph : Z → Z).

(** ** Destruction *)

Section destroy.
Context (pt : Z) (ts : gmap Z (list Z)) (m : gmap Z Z) (Hinv : pt_inv pt ts m).
Context (st : vmstats) (ph : Z → Z) (p0 : P).

(** The state once the pages of [gone] and the tables of [gone_t] have been given
    back *)
Definition freed (gone gone_t : Z → Prop) (s : PT) : Prop :=
  ∃ p m' ts', s = (p, MkVm ts' st ph) ∧ pages_own p m' ∧ cpu_of p = cpu_of p0 ∧
    without m m' gone ∧ without ts ts' gone_t.

(** A nested table of the first [i] indices *)
Definition table_below (i b : Z) : Prop := ∃ k, 0 ≤ k < i ∧ sub ts pt k = Some b.

(** The loop over the words of one nested table *)
Lemma free_frames_ok i a l s (Q : () → PT → Prop) E :
  sub ts pt i = Some a → ts !! a = Some l →
  freed (nested_below ts pt i) (table_below i) s →
  (∀ s', freed (λ b, nested_below ts pt i b ∨ frame_below ts a NWORDS b) (table_below i) s' →
     Q tt s') →
  wp safe (for_range 0 NWORDS (λ j,
    value ← get_value a j;
    let state := get_page_state_by_value value in
    if state =? PAGE_FREE then mret tt else
    if state =? PAGE_IN_SWP then mret tt else
    on_pages (freepages (Z.land value PAGE_FRAME)))) s Q E.
Proof.
  intros Hs Hl Hfreed HQ.
  apply (wp_for_range _ _ (λ j, freed
    (λ b, nested_below ts pt i b ∨ frame_below ts a j b) (table_below i))).
  - done.
  - intros j s1 Hj (p1 & m1 & ts1 & -> & Hown & Hcpu & Hwm & Hwt). wp_steps.
    destruct (leaf_cases pt ts m i a j Hinv Hs) as (l' & w & Hl' & _ & Hw & Hcase); [lia|].
    simplify_eq. assert (ts1 !! a = Some l) as Hl1.
    { destruct Hwt as [_ ->]; [done|]. intros (k & Hk & Hs').
      assert (i = k) by (by eapply (pi_sub_inj _ _ _ Hinv)). lia. }
    eapply get_value_ok; [done..|]. wp_steps.
    destruct Hcase as [(k & Hk & -> & Hn)|(f & k & Hf & Hm & Htf & Hk & -> & Hpr)].
    + rewrite state_free by done. word_tests. exists p1, m1, ts1. split_and!; try done.
      eapply without_iff; [done|]. intros b. rewrite frame_below_step by lia.
      rewrite Hn. split; [|tauto]. intros [?|[?|(w & ? & _)]]; [tauto|tauto|done].
    + rewrite state_mem, frame_of_mem by done. word_tests. unfold on_pages. wp_steps. cbn [fst snd].
      pose proof (below_not_frame pt ts m Hinv i i a j _ ltac:(lia) Hs Hpr) as Hn1.
      pose proof (frame_not_below pt ts m Hinv i a j _ Hs Hpr) as Hn2.
      rewrite frame_of_mem in Hn1, Hn2 by done.
      assert (m1 !! kaddr f = Some 1) as Hm1 by (destruct Hwm as [_ ->]; [done|tauto]).
      eapply wp_mono; [by apply (freepages_law _ m1)| |done]. intros [] p2 [Hcpu2 Hown2].
      exists p2, (delete (kaddr f) m1), ts1. split_and!; try done; [congruence|].
      eapply without_delete; [done|]. intros b. rewrite frame_below_step by lia.
      rewrite Hpr. split.
      * intros [?|[?|(w & [= <-] & ->)]]; [tauto|tauto|]. rewrite frame_of_mem by done. tauto.
      * intros [[?|?]| ->]; [tauto|tauto|]. right; right. eexists. split; [done|].
        by rewrite frame_of_mem.
  - destruct Hfreed as (p1 & m1 & ts1 & -> & ? & ? & Hwm & ?). exists p1, m1, ts1.
    split_and!; try done. eapply without_iff; [done|]. intros b. split; [|tauto].
    intros [?|(k & w & Hk & _)]; [done|lia].
  - intros s' Hs'. by apply HQ.
Qed.

(** One nested table *)
Lemma destroy_nested_ok i top w s (Q : () → PT → Prop) E :
  ts !! pt = Some top → 0 ≤ i < NWORDS → zlookup top i = Some w →
  freed (nested_below ts pt i) (table_below i) s →
  (∀ s', freed (nested_below ts pt (i + 1)) (table_below (i + 1)) s' → Q tt s') →
  wp safe (destroy_nested_pagetable w) s Q E.
Proof.
  intros Htop Hi Hw Hfreed HQ. unfold destroy_nested_pagetable. wp_steps.
  destruct (top_word_cases pt ts m i top Hinv Htop Hi) as (w' & Hw' & Hcase). simplify_eq.
  destruct Hcase as [(k & Hk & -> & Hn)|(a & k & Ha & Ha0 & Hk & -> & Hs)].
  { rewrite state_free by done. word_tests. apply HQ.
    destruct Hfreed as (p1 & m1 & ts1 & -> & ? & ? & Hwm & Hwt). exists p1, m1, ts1.
    split_and!; try done; (eapply without_iff; [done|]); intros b.
    - rewrite nested_below_step by lia. rewrite Hn. split; [|tauto]. intros [?|(? & ? & _)]; done.
    - split; intros (k' & Hk' & Hs'); exists k'; (split; [|done]); [|lia].
      destruct (decide (k' = i)) as [->|]; [congruence|lia]. }
  rewrite state_mem, frame_of_mem by done. word_tests.
  destruct (sub_table _ _ _ _ _ Hinv Hs) as (_ & l & Hl & _).
  eapply free_frames_ok; [done..|]. intros s1 (p1 & m1 & ts1 & -> & Hown & Hcpu & Hwm & Hwt).
  wp_steps. unfold on_pages, upd_tables. wp_steps. cbn [fst snd].
  assert (m1 !! a = Some 1) as Hm1.
  { destruct (pi_tables _ _ _ Hinv a l Hl) as (_ & _ & <-). destruct Hwm as [_ ->]; [done|].
    intros [Hb|Hb]; [by eapply (below_not_table pt ts m Hinv i i)|].
    by eapply (table_not_frame pt ts m Hinv). }
  eapply wp_mono; [by apply (free_kpages_law _ m1)| |done]. intros [] p2 [Hcpu2 Hown2].
  wp_steps. cbn [fst snd tables stats phys]. apply HQ.
  exists p2, (delete a m1), (delete a ts1). split_and!; try done; [congruence| |].
  - eapply without_delete; [done|]. intros b. rewrite nested_below_step by lia. rewrite Hs.
    split; [|intros [[?|?]| ->]; [tauto|right; eauto|right; eauto]].
    intros [?|(a' & [= <-] & [?|?])]; tauto.
  - eapply without_delete; [done|]. intros b. split.
    + intros (k' & Hk' & Hs'). destruct (decide (k' = i)) as [->|]; [right; congruence|].
      left. exists k'. split; [lia|done].
    + intros [(k' & Hk' & Hs')| ->]; [exists k'; split; [lia|done]|].
      exists i. split; [lia|done].
Qed.

Lemma pt_destroy_ok (Q : () → PT → Prop) E :
  pages_own p0 m →
  (∀ s', freed (pages_of ts pt) (λ b, b = pt ∨ table_below NWORDS b) s' → Q tt s') →
  wp safe (pt_destroy pt) (p0, MkVm ts st ph) Q E.
Proof.
  intros Hown HQ. unfold pt_destroy. wp_steps.
  destruct (pi_top _ _ _ Hinv) as (top & Htop & [Hlen _]).
  assert (∀ i b, table_below i b → b ≠ pt) as Hnt.
  { intros i b (k & _ & Hs). by destruct (sub_table _ _ _ _ _ Hinv Hs). }
  apply (wp_for_range _ _ (λ i, freed (nested_below ts pt i) (table_below i))).
  - done.
  - intros i s1 Hi Hfreed. pose proof Hfreed as (p1 & m1 & ts1 & -> & _ & _ & _ & Hwt). wp_steps.
    destruct (zlookup_lt_is_Some top i) as [w Hw]; [lia|].
    eapply get_value_ok; [|done|].
    + destruct Hwt as [_ ->]; [done|]. intros Hb. by apply (Hnt i pt Hb).
    + by eapply destroy_nested_ok.
  - exists p0, m, ts. split_and!; try done; apply without_refl; intros b.
    + intros (k & a & Hk & _). lia.
    + intros (k & Hk & _). lia.
  - intros s' (p1 & m1 & ts1 & -> & Hown1 & Hcpu1 & Hwm & Hwt). wp_steps.
    unfold on_pages, upd_tables. wp_steps. cbn [fst snd].
    assert (m1 !! pt = Some 1) as Hm1.
    { destruct (pi_tables _ _ _ Hinv pt top Htop) as (_ & _ & <-). destruct Hwm as [_ ->]; [done|].
      apply (below_not_top pt ts m Hinv). }
    eapply wp_mono; [by apply (free_kpages_law _ m1)| |done]. intros [] p2 [Hcpu2 Hown2].
    wp_steps. cbn [fst snd tables stats phys]. apply HQ.
    exists p2, (delete pt m1), (delete pt ts1). split_and!; try done; [congruence| |];
      (eapply without_delete; [done|]); intros b; unfold pages_of; simpl; tauto.
Qed.
End destroy.

(** ** Creation *)

(** Every table lies in a page of its own. *)
Definition tables_owned ts m : Prop :=
  ∀ a l, ts !! a = Some l → page_aligned a ∧ a ≠ 0 ∧ m !! a = Some 1.

Lemma inv_empty ts m a :
  tables_owned ts m → page_aligned a → a ≠ 0 → m !! a = None →
  let ts' := <[a := replicate (Z.to_nat NWORDS) (free_word 0)]> ts in
  pt_inv a ts' (<[a := 1]> m) ∧ ∀ i, sub ts' a i = None.
Proof.
  intros Hts Ha Ha0 Hma ts'.
  assert (∀ i, sub ts' a i = None) as Hsub.
  { intros i. unfold sub, ts'. rewrite present_empty; [done|apply is_perm_0]. }
  split; [|done]. split.
  - intros b l Hb. unfold ts' in Hb. destruct (decide (b = a)) as [->|].
    + by rewrite lookup_insert_eq.
    + rewrite lookup_insert_ne in Hb by done. rewrite lookup_insert_ne by done. by apply (Hts b l).
  - unfold ts'. rewrite lookup_insert_eq. eexists. split; [done|].
    apply table_of_empty, is_perm_0.
  - intros i b. by rewrite Hsub.
  - intros i j b. by rewrite Hsub.
  - intros i j i' j' b b' w w'. by rewrite Hsub.
Qed.

Lemma pt_create_ok p ts st ph m (Q : Z → PT → Prop) E :
  pages_own p m → tables_owned ts m →
  (∀ a p' ts', m !! a = None → pt_inv a ts' (<[a := 1]> m) → (∀ v, walk ts' a v = None) →
     (∀ b, b ≠ a → ts' !! b = ts !! b) → (∀ i, sub ts' a i = None) →
     pages_own p' (<[a := 1]> m) → cpu_of p' = cpu_of p → Q a (p', MkVm ts' st ph)) →
  wp safe_oom (pt_create t_vmspace) (p, MkVm ts st ph) Q E.
Proof.
  intros Hown Hts HQ. unfold pt_create. wp_steps.
  apply (pt_create_raw_ok _ _ _ _ _ m); [done|apply is_perm_0|].
  intros a p1 Hma Ha Ha0 Hown1 Hcpu1. unfold on_pages. wp_steps. cbn [fst snd].
  destruct (owned_page p1 _ a Hown1 ltac:(by rewrite lookup_insert_eq)) as (_ & _ & Hr).
  unfold MIPS_KSEG0, MIPS_KSEG1 in Hr. rewrite u32_small by lia.
  apply (wp_faults _ safe); [|done]. rewrite <- (Z.add_0_r (a - 0x80000000)).
  eapply wp_mono; [apply (setpagefixed_law _ (<[a := 1]> m)); [done| |done]| |done].
  { unfold kaddr, MIPS_KSEG0. replace (a - 0x80000000 + 0x80000000) with a by lia.
    by rewrite lookup_insert_eq. }
  intros [] p2 [Hcpu2 Hown2]. wp_steps. cbn [fst snd].
  destruct (inv_empty ts m a Hts Ha Ha0 Hma) as [Hinv Hsub].
  apply HQ; try done; [|intros b Hb; by rewrite lookup_insert_ne|congruence].
  intros v. unfold walk. by rewrite Hsub.
Qed.
End ops.
