(* ===== verification/PtCopy.v ===== *)
(** * Page tables: copying an address space

    [pt_copy] gives every page of the old address space, except pages that are
    not writable and in which the code finds a region of the executable, a frame of
    its own in the new one, with the same contents; its permissions are those of the
    first page copied into the nested table. *)

From Stdlib Require Import ZArith Lia.
From stdpp Require Import base list gmap numbers.
From S2P Require Import Prelude Cpu KPages Frames VmStats Pt PtProof PtOps.

Local Open Scope Z_scope.

(** ** Two page tables side by side *)

Section apart.
Implicit Types (ts : gmap Z (list Z)) (m : gmap Z Z).

Lemma extends_dom pt ts m ts' m' b :
  pt_inv pt ts' m' → extends pt ts m ts' m' → is_Some (ts !! b) → is_Some (ts' !! b).
Proof.
  intros Hinv Hex [l Hl]. destruct (ts' !! b) eqn:Hb; [by eexists|]. exfalso.
  destruct (pi_top _ _ _ Hinv) as (top & Htop & _).
  assert (b ≠ pt) as Hne by congruence.
  rewrite (ex_others _ _ _ _ _ Hex b l) in Hb; [done|done|done|].
  intros i Hs. apply (ex_sub _ _ _ _ _ Hex) in Hs.
  destruct (sub_table _ _ _ _ _ Hinv Hs) as (_ & l' & Hl' & _). congruence.
Qed.

Lemma apart_sub pt q ts m ts' m' i :
  pt_inv q ts m → extends pt ts m ts' m' → apart ts pt q → sub ts' q i = sub ts q i.
Proof.
  intros Hinv Hex (Hne & Hns & _). destruct (pi_top _ _ _ Hinv) as (top & Htop & _).
  unfold sub, present. by rewrite (ex_others _ _ _ _ _ Hex q top), Htop by done.
Qed.

Lemma apart_table pt q ts m ts' m' i a :
  pt_inv q ts m → extends pt ts m ts' m' → apart ts pt q → sub ts q i = Some a →
  ts' !! a = ts !! a.
Proof.
  intros Hinv Hex (_ & _ & Hsubs) Hs. destruct (sub_table _ _ _ _ _ Hinv Hs) as (_ & l & Hl & _).
  destruct (Hsubs _ _ Hs). by rewrite (ex_others _ _ _ _ _ Hex a l), Hl by done.
Qed.

(** An operation on one page table keeps the invariant of another. *)
Lemma apart_inv pt q ts m ts' m' :
  pt_inv q ts m → pt_inv pt ts' m' → extends pt ts m ts' m' → apart ts pt q →
  pt_inv q ts' m' ∧ apart ts' pt q.
Proof.
  intros Hq Hpt Hex Hap. pose proof Hap as (Hne & Hns & Hsubs).
  assert (∀ i, sub ts' q i = sub ts q i) as Hsub by (intros i; by eapply apart_sub).
  assert (∀ i a j, sub ts q i = Some a → present ts' a j = present ts a j) as Hpres.
  { intros i a j Hs. unfold present. by rewrite (apart_table pt q ts m ts' m' i a). }
  assert (∀ b, is_Some (m !! b) → m !! b ≠ None) as Hsm by (intros b [? ->]; done).
  destruct (pi_top _ _ _ Hq) as (top & Htop & Htab).
  split; [split|].
  - apply (pi_tables _ _ _ Hpt).
  - exists top. rewrite (ex_others _ _ _ _ _ Hex q top) by done. split; [done|].
    eapply table_of_mono; [|done]. intros a Ha. by eapply extends_dom.
  - intros i a. rewrite Hsub. intros Hs.
    destruct (sub_table _ _ _ _ _ Hq Hs) as (Haq & l & Hl & Ht). split; [done|].
    rewrite (apart_table pt q ts m ts' m' i a) by done. exists l. split; [done|].
    eapply table_of_mono; [|done]. intros f [Hmf Htf].
    split; [eapply lookup_weaken; [done|apply Hex]|].
    apply eq_None_not_Some. intros [lf Hlf].
    destruct (ex_new _ _ _ _ _ Hex _ _ Hlf) as [[? ?]|?]; congruence.
  - intros i j a. rewrite !Hsub. apply (pi_sub_inj _ _ _ Hq).
  - intros i j i' j' a a' w w'. rewrite !Hsub. intros Hs Hw Hs' Hw'.
    rewrite (Hpres i) in Hw by done. rewrite (Hpres i') in Hw' by done.
    by apply (pi_frame_inj _ _ _ Hq i j i' j' a a').
  - assert (∀ b l, ts !! b = Some l → (∀ i, sub ts pt i ≠ Some b) → ∀ i, sub ts' pt i ≠ Some b)
      as Hns'.
    { intros b l Hl Hb i Hs. destruct (ex_sub_new _ _ _ _ _ Hex i b Hs) as [?|Hn]; [by eapply Hb|].
      destruct (pi_tables _ _ _ Hq b l Hl) as (_ & _ & ?). congruence. }
    split; [done|]. split; [by eapply Hns'|]. intros j a. rewrite Hsub. intros Hs.
    destruct (sub_table _ _ _ _ _ Hq Hs) as (_ & l & Hl & _). destruct (Hsubs j a Hs).
    split; [done|]. by eapply Hns'.
Qed.

(** The frame of a translation *)
Lemma walk_frame pt ts m v e :
  pt_inv pt ts m → walk ts pt v = Some e →
  ∃ f perm, page_aligned f ∧ is_perm perm ∧ e = f + perm ∧ m !! kaddr f = Some 1 ∧
    ts !! kaddr f = None.
Proof.
  intros Hinv Hw. unfold walk in Hw. destruct (sub ts pt (up v)) as [a|] eqn:Hs; [|done].
  simpl in Hw. destruct (present ts a (low v)) as [w|] eqn:Hpr; [|done]. simpl in Hw.
  destruct (sub_table _ _ _ _ _ Hinv Hs) as (_ & l & Hl & Ht).
  destruct (present_inv _ _ _ _ _ _ Hl Ht Hpr) as (f & perm & Hf & [Hm Hn] & Hp & ->).
  rewrite entry_of_mem in Hw by done. injection Hw as <-. by exists f, perm.
Qed.
End apart.

(** ** Entries *)

Section entries.
Context (f perm : Z) (Hf : page_aligned f) (Hp : is_perm perm).

Lemma entry_frame : Z.land (f + perm) PAGE_FRAME = f.
Proof.
  apply page_aligned_eq in Hf as (g & Hg & ->). destruct Hp as (k & Hk & ->).
  apply land_frame; lia.
Qed.

Lemma entry_perm : Z.land (f + perm) PAGE_RWX = perm.
Proof.
  apply page_aligned_eq in Hf as (g & Hg & ->). destruct Hp as (k & Hk & ->).
  rewrite land_low by (done || lia). by perm_cases k.
Qed.

Lemma frame_of_entry off : f < 2 ^ 29 → 0 ≤ off < 4096 → frame_of (f + off) = f.
Proof.
  intros Hlt Hoff. apply page_aligned_eq in Hf as (g & Hg & Hfg). rewrite Hfg in Hlt |- *.
  unfold frame_of, PADDR_TO_KVADDR, KVADDR_TO_PADDR, MIPS_KSEG0. rewrite (u32_small (_ + _ + _)) by lia.
  replace (g * 4096 + off + 0x80000000) with ((g + 0x80000) * 4096 + off) by lia.
  rewrite land_frame by lia. rewrite u32_small by lia. lia.
Qed.
End entries.

(** Different frames have different bytes. *)
Lemma frames_disjoint f g k x :
  page_aligned f → page_aligned g → f ≠ g → 0 ≤ k < 4096 → x = g + k → ¬ f ≤ x < f + 4096.
Proof.
  intros (a & ? & ->)%page_aligned_eq (b & ? & ->)%page_aligned_eq Hne Hk ->. lia.
Qed.

(** Two pages, one after the other or in different tables *)
Lemma page_number v i j :
  is_u32 v → 0 ≤ j < 1024 → v / 4096 = i * 1024 + j ↔ up v = i ∧ low v = j.
Proof.
  unfold up, low, is_u32. intros Hv Hj. change (2 ^ 22) with (4096 * 1024).
  rewrite <- Z.div_div by lia. generalize (v / 4096). intros q.
  split; intros; Z.div_mod_to_equations; lia.
Qed.

(** ** The copy *)

Section copy.
Context {P : Type} `{!HasCpu P} `{!KPages P} `{!KPagesLaws P} `{!Frames P} `{!FramesLaws P}.
Context (t_vmspace dst src : Z) (rs : list region).
Context (p0 : P) (ts0 : gmap Z (list Z)) (m0 : gmap Z Z) (ph0 : Z → Z).
Context (Hsrc0 : pt_inv src ts0 m0).

(** The entry of the old page table that is copied for [v]. A page that is not writable is
    left out when [vaddr_overlap] finds a region: one that begins in the page, or ends in it or at
    one of its two edges. That is the test of the code, not whether they overlap, see
    [vaddr_overlap_wrong]. *)
Definition wanted (v : Z) : option Z :=
  e ← walk ts0 src v;
  if in_region rs (Z.land e PAGE_RWX) (v / PAGE_SIZE * PAGE_SIZE) then None else Some e.

(** The permissions of the copies. All the pages of one nested table, which is 4 MB, get
    those of the first of them that is copied, with which the table is created: [first_perm n v]
    is the one among the pages below number [n], in the table of [v]. *)
Definition wanted_perm (q : Z) : option Z := (λ e, Z.land e PAGE_RWX) <$> wanted (q * PAGE_SIZE).
Definition first_perm (n v : Z) : option Z :=
  head (omap wanted_perm (seqZ (up v * 1024) (Z.min 1024 (n - up v * 1024)))).
Definition copy_perm (v : Z) : Z := default 0 (first_perm (2 ^ 20) v).

(** The new page table has a page of its own for [v], with the bytes of [e]. *)
Definition page_copied (ts : gmap Z (list Z)) (ph : Z → Z) (v e : Z) : Prop :=
  ∃ f, page_aligned f ∧ is_perm (copy_perm v) ∧ walk ts dst v = Some (f + copy_perm v) ∧
    m0 !! kaddr f = None ∧
    ∀ k, 0 ≤ k < PAGE_SIZE → ph (f + k) = ph0 (Z.land e PAGE_FRAME + k).

Lemma wanted_page v v' : v / PAGE_SIZE = v' / PAGE_SIZE → wanted v = wanted v'.
Proof.
  intros Heq. unfold wanted, walk. rewrite Heq. by destruct (page_up_low v v' Heq) as [-> ->].
Qed.

Lemma wanted_perm_page v e : wanted v = Some e → wanted_perm (v / PAGE_SIZE) = Some (Z.land e PAGE_RWX).
Proof.
  intros Hw. unfold wanted_perm. rewrite (wanted_page _ v), Hw; [done|]. by apply Z.div_mul.
Qed.

Lemma up_page v : is_u32 v → up v * 1024 ≤ v / PAGE_SIZE < up v * 1024 + 1024 ∧ up v = v / PAGE_SIZE / 1024.
Proof.
  unfold is_u32, up, PAGE_SIZE. intros Hv. change (2 ^ 22) with (4096 * 1024). rewrite <- Z.div_div by lia. Z.div_mod_to_equations. lia.
Qed.

Lemma head_app {A} (l k : list A) : head (l ++ k) = match head l with Some x => Some x | None => head k end.
Proof. by destruct l. Qed.

Lemma first_perm_0 v : is_u32 v → first_perm 0 v = None.
Proof. intros Hv. unfold first_perm. rewrite seqZ_nil; [done|]. unfold is_u32, up in *. Z.div_mod_to_equations. lia. Qed.

(** Page [n] has been dealt with. *)
Lemma first_perm_step n v :
  0 ≤ n → first_perm (n + 1) v =
    if decide (up v = n / 1024) then match first_perm n v with Some k => Some k | None => wanted_perm n end
    else first_perm n v.
Proof.
  intros Hn. unfold first_perm. case_decide as Hd.
  - assert (0 ≤ n - up v * 1024 < 1024) as Hr by (rewrite Hd; Z.div_mod_to_equations; lia).
    rewrite !Z.min_r by lia. replace (n + 1 - up v * 1024) with (n - up v * 1024 + 1) by lia.
    rewrite (seqZ_app _ _ 1), omap_app, head_app by lia. replace (up v * 1024 + (n - up v * 1024)) with n by lia.
    destruct (head _); [done|]. rewrite (seqZ_cons n 1), seqZ_nil by lia. cbn. by destruct (wanted_perm n).
  - destruct (decide (n < up v * 1024)).
    + by rewrite !Z.min_r, !seqZ_nil by lia.
    + rewrite !Z.min_l; [done|..]; Z.div_mod_to_equations; lia.
Qed.

Lemma first_perm_skip n n' v :
  0 ≤ n ≤ n' → (∀ q, n ≤ q < n' → wanted_perm q = None) → first_perm n' v = first_perm n v.
Proof.
  intros [H0 Hn]. revert n' Hn. apply (Zlt_lower_bound_ind (λ n', _ → first_perm n' v = first_perm n v) n).
  intros n' IH Hn Hq. destruct (decide (n' = n)) as [->|]; [done|]. replace n' with (n' - 1 + 1) by lia.
  rewrite first_perm_step by lia. rewrite (Hq (n' - 1)) by lia. rewrite (IH (n' - 1)) by (lia || intros; apply Hq; lia).
  case_decide; [|done]. by destruct (first_perm n v).
Qed.

(** What the page gets that is copied now *)
Lemma copy_perm_now v e :
  is_u32 v → wanted v = Some e → copy_perm v = default (Z.land e PAGE_RWX) (first_perm (v / PAGE_SIZE) v).
Proof.
  intros Hv Hw. destruct (up_page v Hv) as [Hu _]. unfold copy_perm, first_perm.
  assert (v / PAGE_SIZE < 2 ^ 20) as Hlt by (unfold is_u32, PAGE_SIZE in *; Z.div_mod_to_equations; lia).
  assert (up v * 1024 + 1024 ≤ 2 ^ 20) as Hup by (unfold is_u32, up in *; Z.div_mod_to_equations; lia).
  rewrite Z.min_l, Z.min_r by lia. set (k := v / PAGE_SIZE - up v * 1024).
  replace 1024 with (k + (1024 - k)) at 2 by lia. rewrite (seqZ_app _ k), omap_app, head_app by lia.
  destruct (head _); [done|]. rewrite (seqZ_cons _ (1024 - k)) by lia. replace (up v * 1024 + k) with (v / PAGE_SIZE) by lia.
  cbn. by rewrite (wanted_perm_page v e Hw).
Qed.

(** The pages below number [n] have been dealt with. *)
Record copied_upto (n : Z) (s : PT) (m : gmap Z Z) : Prop := {
  cu_own : pages_own s.1 m;
  cu_cpu : cpu_of s.1 = cpu_of p0;
  cu_stats : stats_wf (stats s.2);
  cu_src : pt_inv src (tables s.2) m;
  cu_dst : pt_inv dst (tables s.2) m;
  cu_apart : apart (tables s.2) dst src;
  cu_grow : m0 ⊆ m;
  cu_sub k : sub (tables s.2) src k = sub ts0 src k;
  cu_walk v : walk (tables s.2) src v = walk ts0 src v;
  cu_old f k : page_aligned f → m0 !! kaddr f = Some 1 → 0 ≤ k < PAGE_SIZE →
    phys s.2 (f + k) = ph0 (f + k);
  cu_done v : is_u32 v → v / PAGE_SIZE < n →
    match wanted v with
    | Some e => page_copied (tables s.2) (phys s.2) v e
    | None => walk (tables s.2) dst v = None
    end;
  cu_rest v : is_u32 v → n ≤ v / PAGE_SIZE → walk (tables s.2) dst v = None;
  cu_slots v d : is_u32 v → walk (tables s.2) dst v = None →
    slot_perm (tables s.2) dst v d = default d (first_perm n v);
}.

(** Pages for which there is nothing to do *)
Lemma copied_skip n n' s m :
  copied_upto n s m → 0 ≤ n ≤ n' → n' ≤ 2 ^ 20 →
  (∀ v, is_u32 v → n ≤ v / PAGE_SIZE < n' → wanted v = None) → copied_upto n' s m.
Proof.
  intros Hc Hn Hn' Hw. destruct Hc as [? ? ? ? ? ? ? ? ? ? Hdone Hrest Hslots]. split; try done.
  - intros v Hv Hvn. destruct (decide (v / PAGE_SIZE < n)); [by apply Hdone|].
    rewrite Hw by (done || lia). apply Hrest; [done|lia].
  - intros v Hv Hvn. apply Hrest; [done|lia].
  - intros v d Hv Hwn. rewrite Hslots by done. f_equal. symmetry. apply first_perm_skip; [done|].
    intros q Hq. unfold wanted_perm. rewrite Hw; [done|unfold is_u32, PAGE_SIZE; lia|by rewrite Z.div_mul].
Qed.

(** A page that has just been copied *)
Lemma copied_step n p ts st ph m v e r f perm perm0 p' ts' m' st' :
  copied_upto n (p, MkVm ts st ph) m → is_u32 v → v / PAGE_SIZE = n → wanted v = Some e → perm0 = Z.land e PAGE_RWX →
  translated dst ts m st v perm0 r f perm ts' m' st' → m !! kaddr f = None → perm = slot_perm ts dst v perm0 →
  pages_own p' m' → cpu_of p' = cpu_of p → stats_wf st' →
  copied_upto (n + 1) (p', MkVm ts' st'
    (λ x, if (f <=? x) && (x <? f + PAGE_SIZE) then ph (Z.land e PAGE_FRAME + (x - f)) else ph x)) m'.
Proof.
  intros Hc Hv Hpage Hw Hp0 Htr Hmf Hslot Hown' Hcpu' Hst'.
  destruct Hc as [_ Hcpu _ Hsrc Hdst Hap Hgrow Hsubs Hwalk Hold Hdone Hrest Hslots]. cbn [fst snd tables stats phys] in *.
  destruct Htr as [[Hf Hm'f] Hp Hinv' Hex Hwalk' Hsl _].
  assert (perm = copy_perm v) as Hperm.
  { rewrite (copy_perm_now v e), Hslot, Hpage, <- Hp0 by done. apply Hslots; [done|]. apply Hrest; [done|lia]. }
  destruct (apart_inv dst src ts m ts' m' Hsrc Hinv' Hex Hap) as [Hsrc' Hap'].
  assert (m0 !! kaddr f = None) as Hm0f by (by eapply lookup_weaken_None).
  assert (wanted v = Some e → ∃ g k, page_aligned g ∧ is_perm k ∧ e = g + k ∧
    m0 !! kaddr g = Some 1) as Hwant.
  { intros Hw'. unfold wanted in Hw'. destruct (walk ts0 src v) as [e'|] eqn:He; [|done].
    simpl in Hw'. destruct (in_region _ _ _); [done|]. injection Hw' as <-.
    destruct (walk_frame _ _ _ _ _ Hsrc0 He) as (g & k & ? & ? & ? & ? & _). by exists g, k. }
  (* bytes of the other frames stay *)
  assert (∀ g k, page_aligned g → g ≠ f → 0 ≤ k < PAGE_SIZE →
    (if (f <=? g + k) && (g + k <? f + PAGE_SIZE)
     then ph (Z.land e PAGE_FRAME + (g + k - f)) else ph (g + k)) = ph (g + k)) as Hkeep.
  { intros g k Hg Hne Hk. pose proof (frames_disjoint f g k (g + k) Hf Hg (not_eq_sym Hne) Hk eq_refl).
    unfold PAGE_SIZE in *. destruct (_ && _) eqn:?; [lia|done]. }
  split; cbn [fst snd tables stats phys]; try done.
  - congruence.
  - etrans; [done|apply Hex].
  - intros k. rewrite <- Hsubs. by eapply apart_sub.
  - intros v'. rewrite <- Hwalk. by eapply apart_walk.
  - intros g k Hg Hmg Hk. rewrite Hkeep by (done || congruence). by apply Hold.
  - intros v' Hv' Hn. destruct (decide (v' / PAGE_SIZE = n)) as [Heq|Hne].
    + assert (v' / PAGE_SIZE = v / PAGE_SIZE) as Hpv by lia.
      destruct (page_up_low v' v Hpv) as [Hu Hl].
      assert (wanted v' = Some e) as ->.
      { rewrite <- Hw. unfold wanted, walk. by rewrite Hpv, Hu, Hl. }
      assert (copy_perm v' = copy_perm v) as Hcp by (unfold copy_perm, first_perm; by rewrite Hu).
      exists f. rewrite Hcp, <- Hperm. split_and!; try done.
      * rewrite Hwalk'. unfold store_walk. by rewrite decide_True by done.
      * intros k Hk. unfold PAGE_SIZE in *. destruct (_ && _) eqn:?; [|lia].
        replace (f + k - f) with k by lia.
        destruct (Hwant Hw) as (g & k' & Hg & Hk' & -> & Hmg). rewrite entry_frame by done.
        by apply Hold.
    + assert (¬ (up v' = up v ∧ low v' = low v)) as Hother.
      { intros [Hu Hl]. pose proof (up_low_page v' v Hu Hl). lia. }
      specialize (Hdone v' Hv' ltac:(lia)). rewrite Hwalk'. unfold store_walk, page_copied in *.
      rewrite decide_False by done. destruct (wanted v') as [e'|]; [|done].
      destruct Hdone as (g & Hg & Hk & Hwg & Hmg & Hbytes). exists g.
      split_and!; try done; [by rewrite Hwalk'; unfold store_walk; rewrite decide_False|].
      intros k' Hk'. rewrite Hkeep; [by apply Hbytes|done| |done].
      intros ->. destruct (walk_frame _ _ _ _ _ Hdst Hwg) as (g' & k'' & ? & ? & Heq & ? & _).
      destruct (entry_inj f (copy_perm v') g' k'') as [<- _]; try done. congruence.
  - intros v' Hv' Hn. rewrite Hwalk'. unfold store_walk. rewrite decide_False; [apply Hrest; [done|lia]|].
    intros [Hu Hl]. pose proof (up_low_page v' v Hu Hl). lia.
  - intros v' d Hv' Hn. rewrite Hsl by done. destruct (up_page v Hv) as [Hu0 Hu].
    assert (walk ts dst v' = None) as Hn0 by (rewrite Hwalk' in Hn; unfold store_walk in Hn; by case_decide).
    rewrite !Hslots by done. rewrite first_perm_step by (rewrite <- Hpage; unfold up, is_u32 in *; Z.div_mod_to_equations; lia).
    rewrite <- Hpage, <- Hu, (wanted_perm_page v e Hw), <- Hp0. case_decide; [|done]. by destruct (first_perm _ v').
Qed.

Lemma setpagefixed_ok m f off fixed p v (Q : () → PT → Prop) E :
  pages_own p m → m !! kaddr f = Some 1 → 0 ≤ off < PAGE_SIZE →
  (∀ p', pages_own p' m → cpu_of p' = cpu_of p → Q tt (p', v)) →
  wp safe_oom (on_pages (setpagefixed (f + off) fixed)) (p, v) Q E.
Proof.
  intros Hown Hm Hoff HQ. unfold on_pages. wp_steps. cbn [fst snd].
  apply (wp_faults _ safe); [|done].
  eapply wp_mono; [by apply (setpagefixed_law _ m)| |done]. intros [] p' [? ?]. by apply HQ.
Qed.

(** The address of the page at the indices [i] and [j] *)
Definition index_addr (i j : Z) : Z := u32 (Z.shiftl i ADDR_UP_SHIFT + Z.shiftl j ADDR_LOW_SHIFT).

Lemma index_addr_ok i j :
  0 ≤ i < NWORDS → 0 ≤ j < NWORDS →
  let v := index_addr i j in
  is_u32 v ∧ up v = i ∧ low v = j ∧ v / PAGE_SIZE = i * 1024 + j ∧ v / PAGE_SIZE * PAGE_SIZE = v.
Proof.
  change NWORDS with 1024. intros Hi Hj. unfold index_addr, ADDR_UP_SHIFT, ADDR_LOW_SHIFT, PAGE_SIZE.
  rewrite !Z.shiftl_mul_pow2 by lia. rewrite u32_small by lia.
  assert (i * 2 ^ 22 + j * 2 ^ 12 = (i * 1024 + j) * 4096) as -> by lia.
  assert (is_u32 ((i * 1024 + j) * 4096)) by (unfold is_u32; lia).
  rewrite Z.div_mul by lia. split_and!; try done; apply (page_number _ i j); try done;
    by rewrite Z.div_mul by lia.
Qed.

Lemma perm_offset perm : is_perm perm → 0 ≤ perm < PAGE_SIZE ∧ 0 ≤ 2 + perm < PAGE_SIZE.
Proof. intros (k & Hk & ->). unfold PAGE_SIZE. lia. Qed.

(** One iteration of the inner loop *)
Lemma copy_page_ok i j a s m (Q : () → PT → Prop) E :
  0 ≤ i < NWORDS → 0 ≤ j < NWORDS → sub ts0 src i = Some a →
  copied_upto (i * 1024 + j) s m →
  (∀ s' m', copied_upto (i * 1024 + j + 1) s' m' → Q tt s') →
  wp safe_oom (copy_page t_vmspace dst rs a i j) s Q E.
Proof.
  intros Hi Hj Hs0 Hc HQ. destruct (index_addr_ok i j Hi Hj) as (Hv & Hup & Hlow & Hpage & Hbase).
  set (v := index_addr i j) in *. unfold copy_page. fold (index_addr i j). fold v. wp_steps.
  destruct s as [p [ts st ph]]. cbn [fst snd tables stats phys] in *.
  pose proof (cu_src _ _ _ Hc) as Hsrc. cbn [snd tables] in Hsrc.
  assert (walk ts src v = walk ts0 src v) as Hwalk by apply (cu_walk _ _ _ Hc).
  assert (sub ts src i = Some a) as Hs by (rewrite <- Hs0; apply (cu_sub _ _ _ Hc)).
  assert (sub ts src (up v) = Some a) as Hsv by (by rewrite Hup).
  destruct (leaf_cases src ts m i a j Hsrc Hs Hj)
    as (l & w & Hl & _ & Hlw & [(k & Hk & -> & Hn)|(f & k & Hf & Hm & _ & Hk & -> & Hpr)]);
    (eapply get_value_ok; [done..|]); wp_steps.
  { rewrite state_free by done. word_tests. apply (HQ _ m).
    assert (wanted v = None) as Hwn
      by (unfold wanted; by rewrite <- Hwalk, (walk_leaf _ _ _ _ Hsv), Hlow, Hn).
    eapply copied_skip; [done|change NWORDS with 1024 in *; lia|change NWORDS with 1024 in *; lia|]. intros v' _ Hv'. rewrite (wanted_page v' v); [done|lia]. }
  rewrite state_mem, perm_of_mem by done. word_tests.
  assert (walk ts0 src v = Some (f + k)) as Hw0.
  { rewrite <- Hwalk, (walk_leaf _ _ _ _ Hsv), Hlow, Hpr. simpl. by rewrite entry_of_mem. }
  assert (wanted v = if in_region rs k v then None else Some (f + k)) as Hwant.
  { unfold wanted. rewrite Hw0. simpl. by rewrite entry_perm, Hbase by done. }
  destruct (in_region rs k v) eqn:Hreg; wp_steps.
  { apply (HQ _ m). eapply copied_skip; [done|change NWORDS with 1024 in *; lia|change NWORDS with 1024 in *; lia|]. intros v' _ Hv'.
    rewrite (wanted_page v' v); [done|lia]. }
  destruct (perm_offset k Hk) as [Hoff _].
  pose proof (owned_frame p m f (cu_own _ _ _ Hc) Hm) as [_ Hf29].
  rewrite <- Hlow. apply (get_page_create _ _ _ _ _ m src); [apply Hc|apply Hc|done|done| |].
  2:{ intros. rewrite Hwalk, Hw0 in *. done. }
  intros f' k' Hf' Hk' _ Hw'. rewrite Hwalk, Hw0 in Hw'. injection Hw' as Heq.
  destruct (entry_inj f k f' k') as [<- <-]; try done. wp_steps. cbn [snd].
  eapply setpagefixed_ok; [apply Hc|done|done|]. intros p1 Hown1 Hcpu1. wp_steps.
  apply (pt_get_paddr_ok _ _ _ _ _ m); [done|apply Hc|apply Hc|done|done|].
  intros r f2 k2 p2 ts2 m2 st2 Htr Hown2 Hcpu2. wp_steps.
  pose proof (tr_frame _ _ _ _ _ _ _ _ _ _ _ _ Htr) as [Hf2 Hm2].
  pose proof (tr_perm _ _ _ _ _ _ _ _ _ _ _ _ Htr) as Hk2.
  assert (walk ts dst v = None) as Hdn by (apply (cu_rest _ _ _ Hc); [done|lia]).
  destruct (tr_case _ _ _ _ _ _ _ _ _ _ _ _ Htr)
    as [(Hbad & _)|(_ & Hmf2 & Hslot2 & -> & Hst2)]; [congruence|].
  assert (m2 !! kaddr f = Some 1) as Hm2f
    by (eapply lookup_weaken; [done|apply (tr_extends _ _ _ _ _ _ _ _ _ _ _ _ Htr)]).
  destruct (perm_offset k2 Hk2) as [_ Hoff2].
  unfold mem_word. rewrite <- Z.add_assoc.
  eapply (setpagefixed_ok m2); [done..|]. intros p3 Hown3 Hcpu3. wp_steps.
  unfold copy_frame. wp_steps.
  eapply (setpagefixed_ok m2); [done..|]. intros p4 Hown4 Hcpu4. wp_steps.
  eapply (setpagefixed_ok m2); [done..|]. intros p5 Hown5 Hcpu5.
  cbn [fst] in Hcpu4. pose proof (owned_frame p2 m2 f2 Hown2 Hm2) as [_ Hf229].
  rewrite !frame_of_entry by (done || unfold PAGE_SIZE in *; lia).
  cbn [fst snd tables stats phys]. apply (HQ _ m2).
  assert (stats_wf st2) as Hst by (rewrite Hst2; apply stats_wf_bump, Hc).
  pose proof (copied_step _ p ts st ph m v (f + k) _ f2 k2 k p5 ts2 m2 st2
    Hc Hv Hpage Hwant ltac:(by rewrite entry_perm) Htr Hmf2 Hslot2 Hown5 ltac:(congruence) Hst) as Hstep.
  by rewrite entry_frame in Hstep by done.
Qed.

(** A nested table that exists is found. *)
Lemma get_pagetable_hit p ts st ph m pt v a create perm (Q : Z * Z → PT → Prop) E :
  pt_inv pt ts m → is_u32 v → sub ts pt (up v) = Some a → Q (0, a) (p, MkVm ts st ph) →
  wp safe_oom (get_pagetable t_vmspace pt v create perm) (p, MkVm ts st ph) Q E.
Proof.
  intros Hinv Hv Hs HQ. destruct (pi_top _ _ _ Hinv) as (top & Htop & _).
  unfold get_pagetable. rewrite get_offset_up by done. wp_steps.
  destruct (top_word_cases pt ts m (up v) top Hinv Htop (up_range v Hv))
    as (w & Hw & [(k & Hk & -> & Hn)|(b & k & Hb & Hb0 & Hk & -> & Hs')]); [congruence|].
  eapply get_value_ok; [done..|]. wp_steps. rewrite state_mem, frame_of_mem by done. word_tests.
  by simplify_eq.
Qed.

Lemma copy_table_ok i a s m (Q : () → PT → Prop) E :
  0 ≤ i < NWORDS → sub ts0 src i = Some a → copied_upto (i * 1024) s m →
  (∀ s' m', copied_upto ((i + 1) * 1024) s' m' → Q tt s') →
  wp safe_oom (for_range 0 NWORDS (copy_page t_vmspace dst rs a i)) s Q E.
Proof.
  intros Hi Hs0 Hc HQ.
  apply (wp_for_range _ _ (λ j s, ∃ m, copied_upto (i * 1024 + j) s m)).
  - done.
  - intros j s1 Hj (m1 & Hc1). eapply copy_page_ok; [done..|].
    intros s' m' Hc'. exists m'. by replace (i * 1024 + (j + 1)) with (i * 1024 + j + 1) by lia.
  - exists m. by rewrite Z.add_0_r.
  - intros s' (m' & Hc'). apply (HQ s' m').
    by replace ((i + 1) * 1024) with (i * 1024 + (0 + NWORDS)) by (change NWORDS with 1024; lia).
Qed.

(** The whole copy *)
Lemma pt_copy_ok as_ s (Q : Z → PT → Prop) E :
  as_pt as_ = src → as_regions as_ = rs → copied_upto 0 s m0 →
  (∀ s' m', copied_upto (2 ^ 20) s' m' → Q 0 s') →
  wp safe_oom (pt_copy t_vmspace dst as_) s Q E.
Proof.
  intros Hpt Hrs Hc0 HQ. unfold pt_copy. rewrite Hpt, Hrs. wp_steps.
  apply (wp_for_range _ _ (λ i s, ∃ m, copied_upto (i * 1024) s m)).
  - done.
  - intros i s1 Hi (m & Hc). wp_steps. destruct s1 as [p [ts st ph]].
    pose proof (cu_src _ _ _ Hc) as Hsrc. pose proof (cu_sub _ _ _ Hc i) as Hsub.
    cbn [fst snd tables] in *. destruct (pi_top _ _ _ Hsrc) as (top & Htop & _).
    destruct (top_word_cases src ts m i top Hsrc Htop Hi)
      as (w & Hw & [(k & Hk & -> & Hn)|(a & k & Ha & Ha0 & Hk & -> & Hs)]);
      (eapply get_value_ok; [done..|]); wp_steps.
    + rewrite state_free by done. word_tests. exists m. eapply copied_skip; [done|change NWORDS with 1024 in *; lia|change NWORDS with 1024 in *; lia|].
      intros v Hv Hr. assert (up v = i) as Hup.
      { apply (page_number v i (v / PAGE_SIZE - i * 1024)); [done|lia|unfold PAGE_SIZE; lia]. }
      unfold wanted, walk. by rewrite Hup, <- Hsub, Hn.
    + rewrite state_mem, perm_of_mem by done. word_tests.
      destruct (index_addr_ok i 0 Hi ltac:(done)) as (Hv & Hup & _).
      replace (u32 (Z.shiftl i ADDR_UP_SHIFT)) with (index_addr i 0)
        by (unfold index_addr; by rewrite Z.shiftl_0_l, Z.add_0_r).
      eapply get_pagetable_hit; [done|done|by rewrite Hup|]. wp_steps. cbn [snd].
      eapply copy_table_ok; [done|congruence|done|]. intros s' m' Hc'. by exists m'.
  - by exists m0.
  - intros s' (m' & Hc'). wp_steps. by apply (HQ s' m').
Qed.
End copy.

(** The copies depend on what the old page table translates only. *)
Lemma page_copied_ext dst src rs ts0 ts1 m ph0 ts ph v e :
  (∀ v, walk ts1 src v = walk ts0 src v) →
  page_copied dst src rs ts1 m ph0 ts ph v e → page_copied dst src rs ts0 m ph0 ts ph v e.
Proof.
  intros Hw. assert (∀ v, wanted src rs ts1 v = wanted src rs ts0 v) as Hwant by (intros v'; unfold wanted; by rewrite Hw).
  assert (copy_perm src rs ts1 v = copy_perm src rs ts0 v) as Hp.
  { unfold copy_perm, first_perm. do 2 f_equal. generalize (seqZ (up v * 1024) (Z.min 1024 (2 ^ 20 - up v * 1024))). intros l.
    assert (∀ q, wanted_perm src rs ts1 q = wanted_perm src rs ts0 q) as Hq by (intros q; unfold wanted_perm; by rewrite Hwant).
    apply list_omap_ext. induction l; by constructor. }
  unfold page_copied. by rewrite Hp.
Qed.
