(* ===== verification/PtSpec.v ===== *)
(** * Page tables: properties

    What pt.c guarantees to the rest of the virtual memory system, in terms of
    the walk of a page table. *)

From Stdlib Require Import ZArith Lia.
From stdpp Require Import base list gmap numbers.
From S2P Require Import Prelude Cpu Coremap KPages Frames VmStats Pt PtProof PtOps PtCopy.

Local Open Scope Z_scope.

Section properties.
Context {P : Type} `{!HasCpu P} `{!KPages P} `{!KPagesLaws P} `{!Frames P} `{!FramesLaws P}.
Context (t_vmspace : Z).
Implicit Types (p : P) (ts : gmap Z (list Z)) (m : gmap Z Z) (st : vmstats) (ph : Z → Z).

(** [pt_get_paddr] without [create] is the walk of the page table: the frame
    and the permissions of the page, or PAGE_FREE, and it changes nothing. *)
Theorem pt_get_paddr_lookup p ts st ph m pt v perm :
  pt_inv pt ts m → is_u32 v →
  wp safe (pt_get_paddr t_vmspace pt v 0 perm) (p, MkVm ts st ph)
    (λ r s', s' = (p, MkVm ts st ph) ∧ r = default PAGE_FREE (walk ts pt v)) noerr.
Proof. intros Hinv Hv. by eapply pt_get_paddr_find. Qed.

(** [pt_get_paddr] with [create] maps the page of [v]: to the frame it had, or
    to a frame that was not in use, with the permissions of its slot. Every other
    translation of this page table, and every translation and the invariant of
    any other page table, is as before, so that no frame is ever mapped twice.
    It only stops when memory runs out. *)
Theorem pt_get_paddr_creates p ts st ph m pt v perm0 :
  pages_own p m → stats_wf st → pt_inv pt ts m → is_u32 v → is_perm perm0 →
  wp safe_oom (pt_get_paddr t_vmspace pt v 1 perm0) (p, MkVm ts st ph)
    (λ r s', ∃ f perm p' ts' m' st', s' = (p', MkVm ts' st' ph) ∧
       pages_own p' m' ∧ cpu_of p' = cpu_of p ∧
       translated pt ts m st v perm0 r f perm ts' m' st' ∧
       ∀ q, pt_inv q ts m → apart ts pt q →
         pt_inv q ts' m' ∧ apart ts' pt q ∧ ∀ v', walk ts' q v' = walk ts q v') noerr.
Proof.
  intros Hown Hst Hinv Hv Hp. apply (pt_get_paddr_ok _ _ _ _ _ m); [done..|].
  intros r f perm p' ts' m' st' Htr Hown' Hcpu. exists f, perm, p', ts', m', st'.
  split_and!; try done. intros q Hq Hap.
  destruct (apart_inv pt q ts m ts' m' Hq) as [? ?]; [apply Htr|apply Htr|done|].
  split_and!; try done. intros v'. eapply apart_walk; [done|apply Htr|done].
Qed.

(** [pt_set_permissions] on a page that exists keeps its frame and sets its
    permissions, and changes no other translation. *)
Theorem pt_set_permissions_spec p ts st ph m pt v f perm perm' :
  pages_own p m → stats_wf st → pt_inv pt ts m → is_u32 v → is_perm perm' →
  page_aligned f → is_perm perm → walk ts pt v = Some (f + perm) →
  wp safe_oom (pt_set_permissions t_vmspace pt v 1 perm') (p, MkVm ts st ph)
    (λ r s', r = 1 ∧ ∃ p' ts' m', s' = (p', MkVm ts' st ph) ∧
       pages_own p' m' ∧ pt_inv pt ts' m' ∧ m ⊆ m' ∧
       ∀ v', walk ts' pt v' =
         if decide (v' / PAGE_SIZE = v / PAGE_SIZE) then Some (f + perm') else walk ts pt v')
    noerr.
Proof.
  intros Hown Hst Hinv Hv Hp' Hf Hp Hw. eapply pt_set_permissions_ok; [done..|].
  intros p' ts' m' Hinv' Hex Hwalk _ Hown' Hcpu. split; [done|]. exists p', ts', m'.
  split_and!; try done; [apply Hex|]. intros v'. rewrite Hwalk. unfold store_walk.
  destruct (decide (v' / PAGE_SIZE = v / PAGE_SIZE)) as [Heq|Hne].
  - rewrite decide_True by (by apply page_up_low). done.
  - rewrite decide_False; [done|]. intros [Hu Hl]. by apply Hne, up_low_page.
Qed.

(** [pt_destroy] gives back exactly the pages of the page table: the table, its
    nested tables and every frame they map. All other pages stay handed out and
    all other tables stay as they are. *)
Theorem pt_destroy_spec p ts st ph m pt :
  pages_own p m → pt_inv pt ts m →
  wp safe (pt_destroy pt) (p, MkVm ts st ph)
    (λ _ s', ∃ p' m' ts', s' = (p', MkVm ts' st ph) ∧ pages_own p' m' ∧
       cpu_of p' = cpu_of p ∧
       without m m' (pages_of ts pt) ∧
       without ts ts' (λ b, b = pt ∨ ∃ i, 0 ≤ i < NWORDS ∧ sub ts pt i = Some b)) noerr.
Proof.
  intros Hown Hinv. eapply pt_destroy_ok; [done..|].
  intros s' (p' & m' & ts' & -> & ? & ? & ? & ?). by exists p', m', ts'.
Qed.

(** [pt_copy] into an empty page table gives every page of the old address
    space a fresh frame with the same bytes in the new one, except the pages that
    are not writable and in which the code finds a region, see [wanted], which stay
    unmapped. The copies within 4 MB have the permissions of the first of them, see
    [copy_perm]. The old address space, and the contents of all frames that were in
    use, are unchanged. *)
Theorem pt_copy_spec p ts st ph m dst as_ :
  let src := as_pt as_ in
  pages_own p m → stats_wf st → pt_inv src ts m → pt_inv dst ts m → apart ts dst src →
  (∀ i, sub ts dst i = None) →
  wp safe_oom (pt_copy t_vmspace dst as_) (p, MkVm ts st ph)
    (λ r s', r = 0 ∧ ∃ m', pages_own s'.1 m' ∧
       pt_inv src (tables s'.2) m' ∧ pt_inv dst (tables s'.2) m' ∧
       (∀ v, walk (tables s'.2) src v = walk ts src v) ∧
       (∀ f k, page_aligned f → m !! kaddr f = Some 1 → 0 ≤ k < PAGE_SIZE →
          phys s'.2 (f + k) = ph (f + k)) ∧
       ∀ v, is_u32 v →
         match wanted src (as_regions as_) ts v with
         | Some e => page_copied dst src (as_regions as_) ts m ph (tables s'.2) (phys s'.2) v e
         | None => walk (tables s'.2) dst v = None
         end) noerr.
Proof.
  intros src Hown Hst Hsrc Hdst Hap Hempty.
  eapply (pt_copy_ok _ _ src (as_regions as_) p ts m ph); [done|done|done| |].
  - split; try done.
    + intros v Hv Hn. exfalso. assert (0 ≤ v / PAGE_SIZE) by (apply Z.div_pos; [apply Hv|done]). lia.
    + intros v _ _. unfold walk. by rewrite Hempty.
    + intros v d Hv _. rewrite first_perm_0 by done. unfold slot_perm. by rewrite Hempty.
  - intros s' m' Hc. split; [done|]. exists m'. destruct Hc as [? _ _ ? ? _ _ _ ? ? Hdone _ _].
    split_and!; try done. intros v Hv. apply Hdone; [done|].
    unfold is_u32, PAGE_SIZE in *. Z.div_mod_to_equations. lia.
Qed.
End properties.

(** ** Witnesses *)

(** The booted kernel, with no page table yet *)
Definition ex_vm : PT := ((ex_cpu, ex_cmap), MkVm ∅ ex_stats (λ x, x `mod` 251)).

(** Two page tables; the first one maps a page. *)
Definition ex_setup : M PT (Z * Z) :=
  src ← pt_create 0;
  dst ← pt_create 0;
  pt_get_paddr 0 src 0x400000 1 (Z.lor PAGE_R_MASK PAGE_W_MASK);;
  mret (src, dst).

Definition ex_two (src dst : Z) (s : PT) : Prop :=
  ∃ m f perm, pages_own s.1 m ∧ stats_wf (stats s.2) ∧
    pt_inv src (tables s.2) m ∧ pt_inv dst (tables s.2) m ∧ apart (tables s.2) dst src ∧
    (∀ i, sub (tables s.2) dst i = None) ∧
    page_aligned f ∧ is_perm perm ∧ walk (tables s.2) src 0x400000 = Some (f + perm).

Lemma ex_setup_ok : wp safe_oom ex_setup ex_vm (λ r s', ex_two r.1 r.2 s') noerr.
Proof.
  unfold ex_setup, ex_vm. wp_steps.
  apply (pt_create_ok _ _ _ _ _ ∅); [apply ex_pages_own|intros a l; by rewrite lookup_empty|].
  intros src p1 ts1 _ Hinv1 Hw1 Hts1 Hsub1 Hown1 _. wp_steps.
  apply (pt_create_ok _ _ _ _ _ (<[src := 1]> ∅)); [done|exact (pi_tables _ _ _ Hinv1)|].
  intros dst p2 ts2 Hnew Hinv2 Hw2 Hts2 Hsub2 Hown2 _. wp_steps.
  assert (dst ≠ src) as Hne by (intros ->; by rewrite lookup_insert_eq in Hnew).
  destruct (pi_top _ _ _ Hinv1) as (top & Htop & Htab).
  assert (∀ i, sub ts2 src i = None) as Hsrc2.
  { intros i. rewrite <- (Hsub1 i). unfold sub, present. by rewrite Hts2 by done. }
  assert (pt_inv src ts2 (<[dst := 1]> (<[src := 1]> ∅))) as Hinv1'.
  { split; [apply (pi_tables _ _ _ Hinv2)| |by intros i a; rewrite Hsrc2..|].
    - exists top. rewrite Hts2 by done. split; [done|]. eapply table_of_mono; [|done].
      intros a Ha. destruct (decide (a = dst)) as [->|]; [|by rewrite Hts2].
      destruct (pi_top _ _ _ Hinv2) as (top2 & -> & _). by eexists.
    - intros i j i' j' a a' w w'. by rewrite Hsrc2. }
  assert (apart ts2 src dst) as Hap.
  { split; [done|]. split; [intros i; by rewrite Hsrc2|]. intros j a. by rewrite Hsub2. }
  apply (pt_get_paddr_ok _ _ _ _ _ (<[dst := 1]> (<[src := 1]> ∅))); try done;
    [by exists 3|].
  intros r f perm p3 ts3 m3 st3 Htr Hown3 _. wp_steps.
  destruct (apart_inv src dst ts2 _ ts3 m3 Hinv2) as [Hd3 (Hne3 & Hs3 & Hss3)];
    [apply Htr|apply Htr|done|].
  exists m3, f, perm. cbn [fst snd tables stats]. split_and!; try done.
  - destruct (tr_case _ _ _ _ _ _ _ _ _ _ _ _ Htr) as [(_ & _ & ->)|(_ & _ & _ & _ & ->)];
      [apply ex_stats_wf|apply stats_wf_bump, ex_stats_wf].
  - apply Htr.
  - split; [done|]. split.
    + intros i Hi. by destruct (Hss3 i src Hi).
    + intros j a Hj. split; [intros ->; by apply (Hs3 j)|].
      intros i Hi. destruct (Hss3 i a Hi) as [_ Hn]. by apply (Hn j).
  - intros i. rewrite <- (Hsub2 i). eapply apart_sub; [done|apply Htr|done].
  - apply Htr.
  - apply Htr.
  - rewrite (tr_walk _ _ _ _ _ _ _ _ _ _ _ _ Htr). unfold store_walk. by rewrite decide_True.
Qed.

Definition ex_vm2 : PT := match ex_setup ex_vm with Ret _ s => s | _ => ex_vm end.
Definition ex_src : Z := 0x80030000.
Definition ex_dst : Z := 0x80031000.

Lemma ex_vm2_ok : ex_two ex_src ex_dst ex_vm2.
Proof.
  assert (∃ s', ex_setup ex_vm = Ret (ex_src, ex_dst) s') as [s' Hrun]
    by (eexists; vm_compute; reflexivity).
  pose proof (wp_returns _ _ _ _ _ _ _ ex_setup_ok Hrun) as Hpost.
  unfold ex_vm2. by rewrite Hrun.
Qed.

#[local] Opaque ex_vm2.

Lemma pt_get_paddr_lookup_witness :
  wp safe (pt_get_paddr 0 ex_src 0x400000 0 0)
    (ex_vm2.1, MkVm (tables ex_vm2.2) (stats ex_vm2.2) (phys ex_vm2.2))
    (λ r s', s' = (ex_vm2.1, MkVm (tables ex_vm2.2) (stats ex_vm2.2) (phys ex_vm2.2)) ∧
       r = default PAGE_FREE (walk (tables ex_vm2.2) ex_src 0x400000)) noerr.
Proof.
  destruct ex_vm2_ok as (m & f & perm & _ & _ & Hsrc & _).
  apply (pt_get_paddr_lookup 0 _ _ _ _ m); [exact Hsrc|by unfold is_u32].
Defined.

Lemma pt_get_paddr_creates_witness :
  ∃ m, wp safe_oom (pt_get_paddr 0 ex_src 0x401000 1 PAGE_R_MASK)
    (ex_vm2.1, MkVm (tables ex_vm2.2) (stats ex_vm2.2) (phys ex_vm2.2))
    (λ r s', ∃ f perm p' ts' m' st', s' = (p', MkVm ts' st' (phys ex_vm2.2)) ∧
       pages_own p' m' ∧ cpu_of p' = cpu_of ex_vm2.1 ∧
       translated ex_src (tables ex_vm2.2) m (stats ex_vm2.2) 0x401000 PAGE_R_MASK
         r f perm ts' m' st' ∧
       ∀ q, pt_inv q (tables ex_vm2.2) m → apart (tables ex_vm2.2) ex_src q →
         pt_inv q ts' m' ∧ apart ts' ex_src q ∧
         ∀ v', walk ts' q v' = walk (tables ex_vm2.2) q v') noerr.
Proof.
  destruct ex_vm2_ok as (m & f & perm & Hown & Hst & Hsrc & _). exists m.
  apply (pt_get_paddr_creates 0); [exact Hown|exact Hst|exact Hsrc|by unfold is_u32|by exists 2].
Defined.

Lemma pt_set_permissions_spec_witness :
  ∃ m f, wp safe_oom (pt_set_permissions 0 ex_src 0x400000 1 PAGE_R_MASK)
    (ex_vm2.1, MkVm (tables ex_vm2.2) (stats ex_vm2.2) (phys ex_vm2.2))
    (λ r s', r = 1 ∧ ∃ p' ts' m', s' = (p', MkVm ts' (stats ex_vm2.2) (phys ex_vm2.2)) ∧
       pages_own p' m' ∧ pt_inv ex_src ts' m' ∧ m ⊆ m' ∧
       ∀ v', walk ts' ex_src v' =
         if decide (v' / PAGE_SIZE = 0x400000 / PAGE_SIZE) then Some (f + PAGE_R_MASK)
         else walk (tables ex_vm2.2) ex_src v') noerr.
Proof.
  assert (is_u32 0x400000) as Hv by (by unfold is_u32).
  assert (is_perm PAGE_R_MASK) as HpR by (by exists 2).
  destruct ex_vm2_ok as (m & f & perm & Hown & Hst & Hsrc & _ & _ & _ & Hf & Hp & Hw).
  exists m, f. apply (pt_set_permissions_spec 0 _ _ _ _ _ _ _ f perm);
    [exact Hown|exact Hst|exact Hsrc|exact Hv|exact HpR|exact Hf|exact Hp|exact Hw].
Defined.

Lemma pt_destroy_spec_witness :
  ∃ m, wp safe (pt_destroy ex_src)
    (ex_vm2.1, MkVm (tables ex_vm2.2) (stats ex_vm2.2) (phys ex_vm2.2))
    (λ _ s', ∃ p' m' ts', s' = (p', MkVm ts' (stats ex_vm2.2) (phys ex_vm2.2)) ∧
       pages_own p' m' ∧ cpu_of p' = cpu_of ex_vm2.1 ∧
       without m m' (pages_of (tables ex_vm2.2) ex_src) ∧
       without (tables ex_vm2.2) ts'
         (λ b, b = ex_src ∨ ∃ i, 0 ≤ i < NWORDS ∧ sub (tables ex_vm2.2) ex_src i = Some b)) noerr.
Proof.
  destruct ex_vm2_ok as (m & f & perm & Hown & Hst & Hsrc & _). exists m.
  apply pt_destroy_spec; [exact Hown|exact Hsrc].
Defined.

Lemma pt_copy_spec_witness :
  ∃ m, wp safe_oom (pt_copy 0 ex_dst (MkAs ex_src 0 []))
    (ex_vm2.1, MkVm (tables ex_vm2.2) (stats ex_vm2.2) (phys ex_vm2.2))
    (λ r s', r = 0 ∧ ∃ m', pages_own s'.1 m' ∧
       pt_inv ex_src (tables s'.2) m' ∧ pt_inv ex_dst (tables s'.2) m' ∧
       (∀ v, walk (tables s'.2) ex_src v = walk (tables ex_vm2.2) ex_src v) ∧
       (∀ f k, page_aligned f → m !! kaddr f = Some 1 → 0 ≤ k < PAGE_SIZE →
          phys s'.2 (f + k) = phys ex_vm2.2 (f + k)) ∧
       ∀ v, is_u32 v →
         match wanted ex_src [] (tables ex_vm2.2) v with
         | Some e => page_copied ex_dst ex_src [] (tables ex_vm2.2) m (phys ex_vm2.2) (tables s'.2) (phys s'.2) v e
         | None => walk (tables s'.2) ex_dst v = None
         end) noerr.
Proof.
  destruct ex_vm2_ok as (m & f & perm & Hown & Hst & Hsrc & Hdst & Hap & Hempty & _). exists m.
  apply (pt_copy_spec 0 _ _ _ _ m ex_dst (MkAs ex_src 0 []));
    [exact Hown|exact Hst|exact Hsrc|exact Hdst|exact Hap|exact Hempty].
Defined.

(** ** What modelling showed *)

(** In one nested table, a page created later gets the permissions with which the
    table was created, not the ones asked for: a copy of two neighbouring pages,
    the second one executable, comes out with the second one not executable. *)
Definition ex_copy_perms : M PT (option Z * option Z) :=
  r ← ex_setup;
  pt_get_paddr 0 r.1 0x401000 1 PAGE_RWX;;
  pt_set_permissions 0 r.1 0x401000 1 PAGE_RWX;;
  pt_copy 0 r.2 (MkAs r.1 0 []);;
  s ← get;
  let perm v pt := (λ e, Z.land e PAGE_RWX) <$> walk (tables s.2) pt v in
  mret (perm 0x401000 r.1, perm 0x401000 r.2).

Lemma pt_copy_loses_permissions :
  returned (ex_copy_perms ex_vm) =
    Some (Some PAGE_RWX, Some (Z.lor PAGE_R_MASK PAGE_W_MASK)).
Proof. vm_compute. reflexivity. Qed.

(** [vaddr_overlap] misses a region that contains the page on both sides, and
    reports one that ends where the page begins. *)
Lemma vaddr_overlap_wrong :
  vaddr_overlap 0x402000 0x403000 0x400000 0x410000 = false ∧
  vaddr_overlap 0x402000 0x403000 0x400000 0x402000 = true.
Proof. done. Qed.
