(* ===== verification/Vnode.v ===== *)
(** * Vnodes: reference and open counts

    Model of kern/fs/vfs/vnode.c. The operations of the file system behind a
    vnode are function pointers in the code; [vop_reclaim] and [vop_close], which
    this file calls, are parameters. Addresses of objects that are only compared
    ([vn_ops], [vn_fs]) are integers, [vop_magic] is the field of the operations
    table. *)

From Stdlib Require Import ZArith Lia.
From stdpp Require Import base list gmap numbers strings.
From S2P Require Import Prelude Cpu.

Local Open Scope Z_scope.

Definition VOP_MAGIC : Z := 0xa2b3c4d5.
Definition DEADBEEF : Z := 0xdeadbeef.

(** [vn_countlock] is the address of the lock, [vn_lock_owner] its owner. *)
Record vnode := MkVnode {
  vn_refcount : Z;
  vn_opencount : Z;
  vn_countlock : Z;
  vn_lock_owner : Z;
  vn_fs : Z;
  vn_data : Z;
  vn_ops : Z;
  vop_magic : Z;
}.

Definition VN : Type := cpu * vnode.

Definition set_refcount (n : Z) (v : vnode) : vnode :=
  MkVnode n (vn_opencount v) (vn_countlock v) (vn_lock_owner v) (vn_fs v) (vn_data v)
    (vn_ops v) (vop_magic v).
Definition set_opencount (n : Z) (v : vnode) : vnode :=
  MkVnode (vn_refcount v) n (vn_countlock v) (vn_lock_owner v) (vn_fs v) (vn_data v)
    (vn_ops v) (vop_magic v).
Definition get_vn_owner (s : VN) : Z := vn_lock_owner s.2.
Definition set_vn_owner (o : Z) (s : VN) : VN :=
  (s.1, MkVnode (vn_refcount s.2) (vn_opencount s.2) (vn_countlock s.2) o (vn_fs s.2)
          (vn_data s.2) (vn_ops s.2) (vop_magic s.2)).

#[global] Instance vn_lock_lens : LockLens get_vn_owner set_vn_owner.
Proof. split; intros; try done; by destruct s as [? []]. Qed.

Definition upd_vnode (f : vnode → vnode) : M VN () := modify (λ s, (s.1, f s.2)).
Definition get_vnode : M VN vnode := gets snd.

(** The idiom [lock_acquire(vn->vn_countlock); ...; lock_release(...);] *)
Definition with_countlock {A} (m : M VN A) : M VN A :=
  lock_acquire_free get_vn_owner set_vn_owner;;
  a ← m;
  lock_release_free get_vn_owner set_vn_owner;;
  mret a.

(** [vn] is the address of the vnode, [lock] the result of [lock_create]. *)
Definition vnode_init (vn ops magic fs fsdata lock : Z) : M VN () :=
  assert (negb (vn =? 0));;
  assert (negb (ops =? 0));;
  upd_vnode (λ v, MkVnode 1 0 lock 0 (vn_fs v) (vn_data v) ops magic);;
  if lock =? 0 then fail ENOMEM else
  upd_vnode (λ v, MkVnode (vn_refcount v) (vn_opencount v) (vn_countlock v) (vn_lock_owner v)
                    fs fsdata (vn_ops v) (vop_magic v)).

(** [lock_destroy] asserts that nobody holds the lock. *)
Definition vnode_kill : M VN () :=
  v ← get_vnode;
  assert (vn_refcount v =? 1);;
  assert (vn_opencount v =? 0);;
  assert (negb (vn_countlock v =? 0));;
  assert (vn_lock_owner v =? 0);;
  upd_vnode (λ v, MkVnode 0 0 0 0 0 0 0 0).

Definition vnode_incref (vn : Z) : M VN () :=
  assert (negb (vn =? 0));;
  with_countlock (upd_vnode (λ v, set_refcount (s32 (vn_refcount v + 1)) v)).

(** The warnings it prints have no effect on the state. *)
Definition vnode_check (vn : Z) (opstr : string) : M VN () :=
  if vn =? 0 then panic else
  if vn =? DEADBEEF then panic else
  v ← get_vnode;
  if vn_ops v =? 0 then panic else
  if vn_ops v =? DEADBEEF then panic else
  if negb (vop_magic v =? VOP_MAGIC) then panic else
  if vn_fs v =? DEADBEEF then panic else
  with_countlock (
    v ← get_vnode;
    (if vn_refcount v <? 0 then panic
     else if (vn_refcount v =? 0) && negb (bool_decide (opstr = "reclaim"%string)) then panic
     else mret tt);;
    if vn_opencount v <? 0 then panic else mret tt).

Section calls.
Context (vop_reclaim vop_close : M VN Z).

Definition vnode_decref (vn : Z) : M VN () :=
  assert (negb (vn =? 0));;
  actually_do_it ← with_countlock (
    v ← get_vnode;
    assert (0 <? vn_refcount v);;
    if 1 <? vn_refcount v then
      upd_vnode (λ v, set_refcount (s32 (vn_refcount v - 1)) v);;
      mret false
    else mret true);
  if actually_do_it : bool then
    vnode_check vn "reclaim";;
    _ ← vop_reclaim;
    mret tt
  else mret tt.

Definition vnode_incopen (vn : Z) : M VN () :=
  assert (negb (vn =? 0));;
  with_countlock (upd_vnode (λ v, set_opencount (s32 (vn_opencount v + 1)) v)).

Definition vnode_decopen (vn : Z) : M VN () :=
  assert (negb (vn =? 0));;
  opencount ← with_countlock (
    v ← get_vnode;
    assert (0 <? vn_opencount v);;
    upd_vnode (λ v, set_opencount (s32 (vn_opencount v - 1)) v);;
    v ← get_vnode;
    mret (vn_opencount v));
  if 0 <? opencount then mret tt else
  vnode_check vn "close";;
  _ ← vop_close;
  mret tt.
End calls.

(** ** Lemmas *)

(** A vnode in use: [vnode_check] accepts it. *)
Record vnode_wf (v : vnode) : Prop := {
  vw_ref : 0 < vn_refcount v < 2 ^ 31 - 1;
  vw_open : 0 ≤ vn_opencount v < 2 ^ 31 - 1;
  vw_lock : vn_countlock v ≠ 0;
  vw_owner : vn_lock_owner v = 0;
  vw_ops : vn_ops v ≠ 0 ∧ vn_ops v ≠ DEADBEEF;
  vw_magic : vop_magic v = VOP_MAGIC;
  vw_fs : vn_fs v ≠ DEADBEEF;
}.

Definition vnode_addr (vn : Z) : Prop := vn ≠ 0 ∧ vn ≠ DEADBEEF.

Section lemmas.
Context (F : fault → Prop).

(** With the lock held, [m] must keep the processor and the owner. *)
Lemma countlock_ok {A} (m : M VN A) p v (Q : A → VN → Prop) E :
  running p → vn_lock_owner v = 0 →
  wp F m (set_vn_owner (curthread p) (p, v))
    (λ a s', s'.1 = p ∧ get_vn_owner s' = curthread p ∧ Q a (set_vn_owner 0 s')) E →
  wp F (with_countlock m) (p, v) Q E.
Proof.
  intros Hp Ho Hm. unfold with_countlock. wp_steps.
  apply (wp_lock_acquire_free _ _ _); [apply Hp|apply Hp|done|]. cpu_simpl. wp_steps.
  eapply wp_mono; [exact Hm| |done]. intros a [p' v'] (Hp' & Ho' & HQ). simpl in Hp'. subst p'.
  wp_steps. apply (wp_lock_release_free get_vn_owner set_vn_owner _); [apply Hp|done|].
  by wp_steps.
Qed.

Lemma vnode_check_ok p v vn op (Q : () → VN → Prop) E :
  running p → vnode_wf v → vnode_addr vn → Q tt (p, v) →
  wp F (vnode_check vn op) (p, v) Q E.
Proof.
  intros Hp Hv [Hn Hd] HQ. destruct Hv as [Href Hopen Hlock Hown [Hops1 Hops2] Hmag Hfs].
  unfold vnode_check, get_vnode.
  destruct (Z.eqb_spec vn 0); [done|]. destruct (Z.eqb_spec vn DEADBEEF); [done|].
  wp_steps. simpl. destruct (Z.eqb_spec (vn_ops v) 0); [done|].
  destruct (Z.eqb_spec (vn_ops v) DEADBEEF); [done|].
  rewrite Hmag, Z.eqb_refl. cbn [negb]. destruct (Z.eqb_spec (vn_fs v) DEADBEEF); [done|].
  apply countlock_ok; [done..|]. wp_steps. simpl.
  destruct (Z.ltb_spec (vn_refcount v) 0); [lia|].
  destruct (Z.eqb_spec (vn_refcount v) 0); [lia|]. cbn [andb]. wp_steps.
  destruct (Z.ltb_spec (vn_opencount v) 0); [lia|]. wp_steps.
  split; [done|]. split; [done|]. destruct v. unfold set_vn_owner. simpl in *. by subst.
Qed.

Lemma vnode_incref_ok p v vn (Q : () → VN → Prop) E :
  running p → vnode_wf v → vn ≠ 0 → Q tt (p, set_refcount (vn_refcount v + 1) v) →
  wp F (vnode_incref vn) (p, v) Q E.
Proof.
  intros Hp Hv Hn HQ. pose proof (vw_ref _ Hv). unfold vnode_incref, upd_vnode.
  wp_assert by lia. apply countlock_ok; [done|apply Hv|]. wp_steps. cbn [fst snd].
  split; [done|]. split; [done|]. rewrite s32_small by (simpl; lia).
  pose proof (vw_owner _ Hv) as Ho. destruct v. unfold set_vn_owner. simpl in *. by subst.
Qed.

Lemma vnode_incopen_ok p v vn (Q : () → VN → Prop) E :
  running p → vnode_wf v → vn ≠ 0 → Q tt (p, set_opencount (vn_opencount v + 1) v) →
  wp F (vnode_incopen vn) (p, v) Q E.
Proof.
  intros Hp Hv Hn HQ. pose proof (vw_open _ Hv). unfold vnode_incopen, upd_vnode.
  wp_assert by lia. apply countlock_ok; [done|apply Hv|]. wp_steps. cbn [fst snd].
  split; [done|]. split; [done|]. rewrite s32_small by (simpl; lia).
  pose proof (vw_owner _ Hv) as Ho. destruct v. unfold set_vn_owner. simpl in *. by subst.
Qed.

Lemma vnode_decref_ok reclaim p v vn (Q : () → VN → Prop) E :
  running p → vnode_wf v → vnode_addr vn →
  (1 < vn_refcount v → Q tt (p, set_refcount (vn_refcount v - 1) v)) →
  (vn_refcount v = 1 → wp F reclaim (p, v) (λ _ s', Q tt s') E) →
  wp F (vnode_decref reclaim vn) (p, v) Q E.
Proof.
  intros Hp Hv Hn HQ HQ1. pose proof (vw_ref _ Hv). pose proof (vw_owner _ Hv) as Ho.
  unfold vnode_decref, upd_vnode, get_vnode. wp_assert by (destruct Hn; lia). wp_steps.
  apply countlock_ok; [done..|]. wp_assert by (simpl; lia). simpl.
  destruct (Z.ltb_spec 1 (vn_refcount v)); wp_steps; cbn [fst snd].
  - split; [done|]. split; [done|]. wp_steps. rewrite s32_small by (simpl; lia).
    destruct v. unfold set_vn_owner. simpl in *. subst. auto.
  - split; [done|]. split; [done|]. wp_steps.
    replace (set_vn_owner 0 _) with (p, v)
      by (destruct v; unfold set_vn_owner; simpl in *; by subst).
    apply vnode_check_ok; [done..|]. wp_steps.
    eapply wp_mono; [apply HQ1; lia| |done]. intros r s' HQ'. by wp_steps.
Qed.

Lemma vnode_decopen_ok close p v vn (Q : () → VN → Prop) E :
  running p → vnode_wf v → vnode_addr vn → 0 < vn_opencount v →
  (1 < vn_opencount v → Q tt (p, set_opencount (vn_opencount v - 1) v)) →
  (vn_opencount v = 1 → wp F close (p, set_opencount 0 v) (λ _ s', Q tt s') E) →
  wp F (vnode_decopen close vn) (p, v) Q E.
Proof.
  intros Hp Hv Hn Hpos HQ HQ1. pose proof (vw_open _ Hv). pose proof (vw_owner _ Hv) as Ho.
  unfold vnode_decopen, upd_vnode, get_vnode. wp_assert by (destruct Hn; lia). wp_steps.
  apply countlock_ok; [done..|]. wp_assert by (simpl; lia). wp_steps. cbn [fst snd].
  split; [done|]. split; [done|]. wp_steps. cbn [set_vn_owner set_opencount vn_opencount snd].
  rewrite s32_small by lia. destruct (Z.ltb_spec 0 (vn_opencount v - 1)); wp_steps.
  - destruct v. unfold set_vn_owner. simpl in *. subst. apply HQ. lia.
  - replace (set_vn_owner 0 _) with (p, set_opencount 0 v).
    + apply vnode_check_ok; [done| |done|].
      * destruct Hv. by split.
      * wp_steps. eapply wp_mono; [apply HQ1; lia| |done]. intros r s' HQ'. by wp_steps.
    + assert (vn_opencount v - 1 = 0) as Heq by lia.
      destruct v. unfold set_vn_owner, set_opencount. simpl in *. subst. rewrite Heq. done.
Qed.
End lemmas.

(** ** References as a transition system

    A vnode with [r] references: whoever holds one may take another or drop its
    own. The file system behind it kills the vnode when asked to reclaim it. *)
Definition reclaim_kill : M VN Z := vnode_kill;; mret 0.

Inductive vn_step (p : cpu) (vn : Z) : vnode * Z → vnode * Z → Prop :=
| step_incref v r v' :
    0 < r < 2 ^ 31 - 2 → vnode_incref vn (p, v) = Ret tt (p, v') →
    vn_step p vn (v, r) (v', r + 1)
| step_decref v r v' :
    0 < r → vnode_decref reclaim_kill vn (p, v) = Ret tt (p, v') →
    vn_step p vn (v, r) (v', r - 1).

(** The count is the number of references; without references the vnode has been
    reclaimed. *)
Definition counted (st : vnode * Z) : Prop :=
  (0 < st.2 ∧ vnode_wf st.1 ∧ vn_refcount st.1 = st.2 ∧ vn_opencount st.1 = 0) ∨
  (st.2 = 0 ∧ vn_ops st.1 = 0 ∧ vn_refcount st.1 = 0).

Lemma decref_counted p v vn r :
  running p → vnode_addr vn → 0 < r → vnode_wf v → vn_refcount v = r → vn_opencount v = 0 →
  wp safe (vnode_decref reclaim_kill vn) (p, v)
    (λ _ s', s'.1 = p ∧ counted (s'.2, r - 1)) noerr.
Proof.
  intros Hp Hn Hr Hv Hc Ho. apply vnode_decref_ok; [done..| |].
  - intros Hgt. split; [done|]. left. cbn [fst snd set_refcount vn_refcount vn_opencount].
    split; [lia|]. split; [|split; [lia|done]]. destruct Hv. split; try done. simpl. lia.
  - intros H1. unfold reclaim_kill, vnode_kill, get_vnode, upd_vnode.
    wp_assert by (simpl; lia). wp_assert by (simpl; lia).
    wp_assert by (simpl; pose proof (vw_lock _ Hv); lia).
    wp_assert by (simpl; rewrite (vw_owner _ Hv); done).
    wp_steps. split; [done|]. right. simpl. split; [lia|done].
Qed.

Lemma vn_step_counted p vn st st' :
  running p → vnode_addr vn → vn_step p vn st st' → counted st → counted st'.
Proof.
  intros Hp Hn Hstep Hc.
  destruct Hstep as [v r v' Hr Hrun|v r v' Hr Hrun];
    destruct Hc as [(_ & Hv & Href & Hop)|(Hz & _)]; simpl in *; try lia.
  - assert (wp safe (vnode_incref vn) (p, v)
      (λ _ s', counted (s'.2, r + 1)) noerr) as Hwp.
    { apply vnode_incref_ok; [done|done|by destruct Hn|]. left. simpl. split; [lia|].
      split; [|split; [lia|done]]. destruct Hv. split; try done. simpl. lia. }
    by apply (wp_returns _ _ _ _ _ _ _ Hwp Hrun).
  - by destruct (wp_returns _ _ _ _ _ _ _
      (decref_counted p v vn r Hp Hn Hr Hv Href Hop) Hrun).
Qed.

(** However references to a vnode are taken and dropped, the reference count is
    the number of references, every further [vnode_decref] succeeds while there is
    one, and the file system reclaims the vnode exactly when the last reference is
    dropped. *)
Theorem vnode_reclaimed_last p vn v0 st :
  running p → vnode_addr vn → vnode_wf v0 → vn_refcount v0 = 1 → vn_opencount v0 = 0 →
  rtc (vn_step p vn) (v0, 1) st →
  (0 < st.2 → vn_refcount st.1 = st.2 ∧ vn_ops st.1 ≠ 0 ∧
     wp safe (vnode_decref reclaim_kill vn) (p, st.1)
       (λ _ s', s'.1 = p ∧ (vn_ops s'.2 = 0 ↔ st.2 = 1)) noerr) ∧
  (st.2 = 0 → vn_ops st.1 = 0).
Proof.
  intros Hp Hn Hv0 Hr0 Ho0 Hrtc.
  assert (counted st) as Hc.
  { remember (v0, 1) as st0 eqn:Heq.
    assert (counted st0) as Hc0 by (subst; left; by simpl).
    clear Heq Hv0 Hr0 Ho0. induction Hrtc; [done|]. apply IHHrtc. by eapply vn_step_counted. }
  destruct st as [v r]. destruct Hc as [(Hr & Hv & Href & Hop)|(Hz & Hops & _)]; simpl in *.
  - split; [|lia]. intros _. split; [done|]. split; [apply Hv|].
    eapply wp_mono; [by apply (decref_counted p v vn r)| |done].
    intros [] [p' v'] [Hp' Hc']. split; [done|]. simpl in *.
    destruct Hc' as [(? & Hv' & _)|(? & Hops & _)]; simpl in *.
    + pose proof (proj1 (vw_ops _ Hv')). split; [done|lia].
    + split; [lia|done].
  - split; [lia|done].
Qed.

Definition ex_vnode : vnode := MkVnode 1 0 0x80004000 0 0 0 0x80005000 VOP_MAGIC.
Definition ex_vcpu : cpu := MkCpu 0 0xff01 0 0x80001000.

Lemma ex_vnode_wf : vnode_wf ex_vnode.
Proof. by split. Qed.
Lemma ex_vcpu_running : running ex_vcpu.
Proof. split; [split; done|done]. Qed.

Lemma ex_vnode_steps :
  rtc (vn_step ex_vcpu 0x80003000) (ex_vnode, 1) (set_refcount 2 ex_vnode, 2).
Proof. apply rtc_once. by apply (step_incref _ _ ex_vnode 1). Qed.

Lemma vnode_reclaimed_last_witness :
  (0 < 2 → vn_refcount (set_refcount 2 ex_vnode) = 2 ∧ vn_ops (set_refcount 2 ex_vnode) ≠ 0 ∧
     wp safe (vnode_decref reclaim_kill 0x80003000) (ex_vcpu, set_refcount 2 ex_vnode)
       (λ _ s', s'.1 = ex_vcpu ∧ (vn_ops s'.2 = 0 ↔ 2 = 1)) noerr) ∧
  (2 = 0 → vn_ops (set_refcount 2 ex_vnode) = 0).
Proof.
  apply (vnode_reclaimed_last ex_vcpu 0x80003000 ex_vnode (set_refcount 2 ex_vnode, 2));
    [apply ex_vcpu_running|done|apply ex_vnode_wf|done|done|apply ex_vnode_steps].
Defined.
