(* ===== verification/HeapPages.v ===== *)
(** * One coremap under the heap and the page tables

    The kernel heap and the page tables take their pages from the same coremap.
    The heap is verified (KheapLaws.v) against the contract of KPages.v, as the
    only owner of pages, and the page tables (PtOps.v) against the same contract.
    This file composes them: [heap_and_pages s hm ext] says that the heap in
    [s] has the blocks [hm] in use while the runs of pages [ext] have been handed
    out to others. Operations on one side keep the other. *)

From Stdlib Require Import ZArith Lia.
From stdpp Require Import base list gmap numbers.
From S2P Require Import Prelude Cpu Coremap KPages KMem Kheap KheapLists KheapProof KheapLaws Frames.

Local Open Scope Z_scope.

Section framed.
Context {P : Type} `{!HasCpu P} `{!KPages P} `{!KPagesLaws P}.
Implicit Types (m ext : gmap Z Z) (s : P).

(** The pages [m], with [ext] handed out to others *)
Definition framed_own (ext : gmap Z Z) (s : P) (m : gmap Z Z) : Prop :=
  pages_own s (m ∪ ext) ∧ m ##ₘ ext.

Lemma union_lookup_l m ext (a n : Z) : m !! a = Some n → (m ∪ ext) !! a = Some n.
Proof. apply lookup_union_Some_l. Qed.

(** A client that sees only [m] has a page allocator. *)
#[refine] Definition framed_laws (ext : gmap Z Z) : KPagesLaws P :=
  {| pages_own := framed_own ext |}.
Proof.
  - intros s m [Hs _]. by eapply pages_running.
  - intros s m c [Hs Hd] Hc. split; [|done]. by apply pages_cpu.
  - intros s m a n [Hs _] Ha. eapply pages_range; [done|by apply union_lookup_l].
  - intros s m a n b k [Hs _] Ha Hb. eapply pages_disjoint; [done|by apply union_lookup_l..].
  - intros s m n [Hs Hd] Hn. eapply wp_mono; [by apply alloc_kpages_law| |done].
    intros a s' [Hcpu [[-> Ho]|(Ha & Hfresh & Ho)]]; (split; [done|]); [by left|right].
    apply lookup_union_None in Hfresh as [Hm He]. split; [done|]. split; [done|]. split.
    + by rewrite <- insert_union_l.
    + apply map_disjoint_insert_l. done.
  - intros s m a [Hs Hd] [n Ha].
    eapply wp_mono; [apply free_kpages_law; [done|eexists; by apply union_lookup_l]| |done].
    intros [] s' [Hcpu Ho]. split; [done|]. split.
    + rewrite delete_union in Ho. rewrite (delete_id ext) in Ho; [done|].
      by eapply map_disjoint_Some_l.
    + by apply map_disjoint_delete_l.
Defined.

Definition heap_and_pages (s : KH P) (hm ext : gmap Z Z) : Prop :=
  kheap_owns (KPagesLaws0 := framed_laws ext) s hm.

(** The other pages change while the heap does not. *)
Lemma heap_and_pages_ext (sp sp' : P) h hm ext ext' :
  heap_and_pages (sp, h) hm ext →
  (∀ m, framed_own ext sp m → framed_own ext' sp' m) →
  heap_and_pages (sp', h) hm ext'.
Proof.
  intros (gs & big & [Hpages Hinv Hap Hbig Hlive] & Hpart) Hsp. exists gs, big.
  split; [|done]. split; try done. apply Hsp, Hpages.
Qed.

(** All the pages in use *)
Lemma heap_and_pages_own (s : KH P) hm ext :
  heap_and_pages s hm ext → ∃ m, pages_own s.1 (m ∪ ext) ∧ m ##ₘ ext.
Proof. intros (gs & big & [Hpages _ _ _ _] & _). exists (pages_map gs big); exact Hpages. Qed.
End framed.

(** ** The page allocator of a kernel with a heap *)

Section shared.
Context {P : Type} `{!HasCpu P} `{!KPages P} `{!Frames P}.

#[global] Instance shared_kpages : KPages (KH P) :=
  {| alloc_kpages n := on_pages (alloc_kpages n);
     free_kpages a := on_pages (free_kpages a) |}.

#[global] Instance shared_frames : Frames (KH P) :=
  {| getpages n := on_pages (getpages n);
     freepages p := on_pages (freepages p);
     setpagevaddr p as_ v := on_pages (setpagevaddr p as_ v);
     setpagefixed p f := on_pages (setpagefixed p f) |}.

Context `{!KPagesLaws P} `{!FramesLaws P}.
Implicit Types (hm ext : gmap Z Z) (s : KH P).

(** An operation of the page allocator, seen from the kernel with a heap *)
Lemma on_pages_ok {A} F (x : M P A) s hm ext (Q : A → KH P → Prop) (R : A → gmap Z Z → Prop) :
  heap_and_pages s hm ext →
  (∀ m, framed_own ext s.1 m →
     wp F x s.1 (λ a sp', cpu_of sp' = cpu_of s.1 ∧
       ∃ ext', framed_own ext' sp' m ∧ R a ext') noerr) →
  (∀ a s' ext', cpu_of s' = cpu_of s → heap_and_pages s' hm ext' → R a ext' → Q a s') →
  wp F (on_pages x) s Q noerr.
Proof.
  destruct s as [sp h]. intros (gs & big & [Hpages Hinv Hap Hbig Hlive] & Hpart) Hx HQ.
  apply wp_on_pages. eapply wp_mono; [exact (Hx _ Hpages)| |done].
  intros a sp' [Hcpu (ext' & Hown & HR)]. apply (HQ a (sp', h) ext'); [done| |done].
  exists gs, big. split; [|done]. by split.
Qed.

Lemma framed_insert ext m (s : P) a n :
  m ##ₘ ext → (m ∪ ext) !! a = None → pages_own s (<[a := n]> (m ∪ ext)) →
  framed_own (<[a := n]> ext) s m ∧ ext !! a = None.
Proof.
  intros Hd [Hm He]%lookup_union_None Hs. split; [|done]. split.
  - by rewrite <- insert_union_r.
  - by apply map_disjoint_insert_r.
Qed.

Lemma framed_delete ext m (s : P) a :
  m ##ₘ ext → is_Some (ext !! a) → pages_own s (delete a (m ∪ ext)) →
  framed_own (delete a ext) s m.
Proof.
  intros Hd [n Ha] Hs. split; [|by apply map_disjoint_delete_r].
  rewrite delete_union, (delete_id m) in Hs; [done|]. by eapply map_disjoint_Some_r.
Qed.

Lemma framed_lookup ext m a :
  m ##ₘ ext → is_Some (ext !! a) → is_Some ((m ∪ ext) !! a).
Proof. intros Hd [n Ha]. exists n. by apply lookup_union_Some_r. Qed.

(** While the heap keeps the blocks [hm] *)
#[refine] Definition shared_laws (hm : gmap Z Z) : KPagesLaws (KH P) :=
  {| pages_own s ext := heap_and_pages s hm ext |}.
Proof.
  - intros s ext (m & Hs & _)%heap_and_pages_own. by eapply (pages_running s.1).
  - intros [sp h] ext c Hs Hc.
    apply (heap_and_pages_ext sp (set_cpu c sp) h hm ext ext Hs).
    intros m [Hsp Hd]. split; [|done]. by apply pages_cpu.
  - intros s ext a n (m & Hs & Hd)%heap_and_pages_own Ha.
    eapply pages_range; [done|by apply lookup_union_Some_r].
  - intros s ext a n b k (m & Hs & Hd)%heap_and_pages_own Ha Hb.
    eapply pages_disjoint; [done|by apply lookup_union_Some_r..].
  - intros s ext n Hs Hn.
    apply (on_pages_ok _ _ _ hm ext _ (λ a ext', a = 0 ∧ ext' = ext ∨
      a ≠ 0 ∧ ext !! a = None ∧ ext' = <[a := n]> ext)); [done| |].
    + intros m [Hsp Hd]. eapply wp_mono; [by apply alloc_kpages_law| |done].
      intros a sp' [Hcpu [[-> Ho]|(Ha & Hfresh & Ho)]]; (split; [done|]).
      * exists ext. split; [done|by left].
      * exists (<[a := n]> ext). destruct (framed_insert ext m sp' a n); [done..|].
        split; [done|by right].
    + intros a s' ext' Hcpu Hs' [[-> ->]|(? & ? & ->)]; (split; [done|]); [by left|by right].
  - intros s ext a Hs Ha.
    apply (on_pages_ok _ _ _ hm ext _ (λ _ ext', ext' = delete a ext)); [done| |].
    + intros m [Hsp Hd].
      eapply wp_mono; [apply free_kpages_law; [done|by apply framed_lookup]| |done].
      intros [] sp' [Hcpu Ho]. split; [done|]. exists (delete a ext).
      split; [by apply framed_delete|done].
    + intros [] s' ext' Hcpu Hs' ->. done.
Defined.

Lemma shared_frames_laws hm : FramesLaws (KPagesLaws0 := shared_laws hm) (KH P).
Proof.
  split; cbn [pages_own shared_laws].
  - intros s ext Hs.
    apply (on_pages_ok _ _ _ hm ext _
      (λ a ext', ext !! a = None ∧ ext' = <[a := 1]> ext)); [done| |].
    + intros m [Hsp Hd]. eapply wp_mono; [by apply alloc_page_law| |done].
      intros a sp' (Hcpu & Hfresh & Ho). split; [done|]. exists (<[a := 1]> ext).
      destruct (framed_insert ext m sp' a 1); done.
    + intros a s' ext' Hcpu Hs' [? ->]. done.
  - intros s ext Hs.
    apply (on_pages_ok _ _ _ hm ext _
      (λ p ext', p ≠ 0 ∧ ext !! kaddr p = None ∧ ext' = <[kaddr p := 1]> ext)); [done| |].
    + intros m [Hsp Hd]. eapply wp_mono; [by apply getpages_law| |done].
      intros p sp' (Hcpu & Hp & Hfresh & Ho). split; [done|]. exists (<[kaddr p := 1]> ext).
      destruct (framed_insert ext m sp' (kaddr p) 1); done.
    + intros a s' ext' Hcpu Hs' (? & ? & ->). done.
  - intros s ext p Hs Hp.
    apply (on_pages_ok _ _ _ hm ext _ (λ _ ext', ext' = delete (kaddr p) ext)); [done| |].
    + intros m [Hsp Hd].
      eapply wp_mono; [apply freepages_law; [done|by apply framed_lookup]| |done].
      intros [] sp' [Hcpu Ho]. split; [done|]. exists (delete (kaddr p) ext).
      split; [by apply framed_delete|done].
    + intros [] s' ext' Hcpu Hs' ->. done.
  - intros s ext p off as_ v Hs Hp Hoff.
    apply (on_pages_ok _ _ _ hm ext _ (λ _ ext', ext' = ext)); [done| |].
    + intros m [Hsp Hd].
      eapply wp_mono; [apply setpagevaddr_law; [done|by apply framed_lookup|done]| |done].
      intros [] sp' [Hcpu Ho]. split; [done|]. by exists ext.
    + intros [] s' ext' Hcpu Hs' ->. done.
  - intros s ext p off f Hs Hp Hoff.
    apply (on_pages_ok _ _ _ hm ext _ (λ _ ext', ext' = ext)); [done| |].
    + intros m [Hsp Hd].
      eapply wp_mono; [apply setpagefixed_law; [done|by apply framed_lookup|done]| |done].
      intros [] sp' [Hcpu Ho]. split; [done|]. by exists ext.
    + intros [] s' ext' Hcpu Hs' ->. done.
Qed.

(** ** The heap, while others hold the pages [ext] *)

Lemma shared_kmalloc_ok s hm ext sz :
  heap_and_pages s hm ext → 0 ≤ sz < 2 ^ 31 →
  wp safe_oom (Kheap.kmalloc sz) s
    (λ p s', cpu_of s' = cpu_of s ∧
       ((p = 0 ∧ heap_and_pages s' hm ext) ∨
        (p ≠ 0 ∧ hm !! p = None ∧ heap_and_pages s' (<[p := sz]> hm) ext))) noerr.
Proof. intros Hs Hsz. by apply (kmalloc_ok (KPagesLaws0 := framed_laws ext)). Qed.

Lemma shared_kfree_ok s hm ext p :
  heap_and_pages s hm ext → is_Some (hm !! p) →
  wp safe (Kheap.kfree p) s
    (λ _ s', cpu_of s' = cpu_of s ∧ heap_and_pages s' (delete p hm) ext) noerr.
Proof. intros Hs Hp. by apply (kfree_ok (KPagesLaws0 := framed_laws ext)). Qed.
End shared.

(** The booted kernel: neither has anything yet. *)
Lemma ex_heap_and_pages : heap_and_pages ex_kernel ∅ ∅.
Proof.
  apply kheap_init_owns. split; [|apply map_disjoint_empty_l].
  rewrite (left_id_L ∅ (∪)). apply ex_pages_own.
Qed.
