(* ===== verification/Loadelf.v ===== *)
(** * Loading executables

    Model of kern/userprog/loadelf.c. [VOP_READ] goes through the operations
    table of the file system, so it is an argument, as is [uiomovezeros], whose
    code (Uio.v) ends in stores to user memory: both run on the state [S] of the
    caller, update a [uio] and return an error number. *)

From Stdlib Require Import ZArith Lia.
From stdpp Require Import base list gmap numbers.
From S2P Require Import Prelude Uio.

Local Open Scope Z_scope.

Definition set_resid (n : Z) (u : uio) : uio :=
  MkUio (uio_iovec u) (uio_offset u) n (uio_segflg u) (uio_rw u) (uio_space u).

Section load_segment.
Context {S : Type} (vop_read uiomovezeros : Z → uio → M S (Z * uio)) (t_vmspace : Z).

(** The uio [load_segment] sets up *)
Definition segment_uio (offset vaddr memsize filesize is_executable : Z) : uio :=
  MkUio (MkIovec vaddr memsize) offset filesize
    (if negb (is_executable =? 0) then UIO_USERISPACE else UIO_USERSPACE)
    UIO_READ t_vmspace.

Definition load_segment (v offset vaddr memsize filesize is_executable : Z) : M S Z :=
  let filesize := if memsize <? filesize then memsize else filesize in
  r ← vop_read v (segment_uio offset vaddr memsize filesize is_executable);
  let '(result, u) := r in
  if negb (result =? 0) then mret result else
  if negb (uio_resid u =? 0) then mret ENOEXEC else
  let fillamt := u32 (memsize - filesize) in
  if 0 <? fillamt then
    r ← uiomovezeros fillamt (set_resid (u32 (uio_resid u + fillamt)) u);
    mret r.1
  else mret result.
End load_segment.
