(* ===== verification/Vm.v ===== *)
(** * The TLB and page faults

    Model of kern/vm/vm.c ([alloc_kpages] and [free_kpages] are in KPages.v). The
    TLB is the 64 pairs of words of the processor; [TLB_Write], [TLB_Read] and
    [TLB_Probe] do what machine/tlb.h says. The current thread's address space is
    an argument: its address [t_vmspace], and its contents.

    [load_segment] ends in stores to user memory, and reading the file can put
    the thread to sleep while other threads run, so what [VOP_READ] and
    [uiomovezeros] do to the state is an interface ([UserIO]): they keep what the
    virtual memory system relies on, and the bytes they store are found where the
    page table maps them. *)

From Stdlib Require Import ZArith Lia.
From stdpp Require Import base list gmap numbers.
From S2P Require Import Prelude Cpu Uio KPages Frames VmStats Pt Loadelf.

Local Open Scope Z_scope.

(** vm.h and machine/tlb.h *)
Definition VM_FAULT_READ : Z := 0.
Definition VM_FAULT_WRITE : Z := 1.
Definition VM_FAULT_READONLY : Z := 2.
Definition TLBHI_VPAGE : Z := 0xfffff000.
Definition TLBLO_DIRTY : Z := 0x400.
Definition TLBLO_VALID : Z := 0x200.
Definition TLBHI_INVALID (entryno : Z) : Z := Z.shiftl (0x80000 + entryno) 12.
Definition TLBLO_INVALID : Z := 0.
Definition NUM_TLB : Z := 64.

(** The entries of the TLB, as (high word, low word), and [next_tlb_idx] *)
Record mmu := MkMmu {
  tlb : list (Z * Z);
  next_tlb_idx : Z;
}.

Section tlb.
Context {P : Type} `{!HasCpu P}.

(** The state: page tables, counters and frames (Pt.v), and the TLB *)
Definition VM : Type := (P * vmem) * mmu.

Definition on_pt {A} (m : M (P * vmem) A) : M VM A := zoom fst (λ t s, (t, s.2)) m.

Definition TLB_Write (ehi elo index : Z) : M VM () :=
  s ← get;
  l ← the (zstore (tlb s.2) index (ehi, elo));
  put (s.1, MkMmu l (next_tlb_idx s.2)).

Definition TLB_Read (index : Z) : M VM (Z * Z) :=
  s ← get;
  the (zlookup (tlb s.2) index).

(** The index of the entry for the page of [ehi], or a negative number *)
Definition TLB_Probe (ehi : Z) : M VM Z :=
  gets (λ s,
    match list_find (λ e, Z.land e.1 TLBHI_VPAGE = Z.land ehi TLBHI_VPAGE) (tlb s.2) with
    | Some (i, _) => Z.of_nat i
    | None => -1
    end).

Definition get_tlb_replace_idx : M VM Z :=
  s ← get;
  let idx := next_tlb_idx s.2 in
  put (s.1, MkMmu (tlb s.2) ((next_tlb_idx s.2 + 1) `mod` NUM_TLB));;
  mret idx.

Definition tlb_update (faultaddress paddr tlb_idx : Z) : M VM () :=
  let writeable := Z.land paddr PAGE_W_MASK in
  let paddr := Z.land paddr PAGE_FRAME in
  let elo := Z.lor paddr TLBLO_VALID in
  let elo := if negb (writeable =? 0) then Z.lor elo TLBLO_DIRTY else elo in
  TLB_Write faultaddress elo tlb_idx.

Definition tlb_fault (faultaddress paddr : Z) : M VM Z :=
  tlb_idx ← get_tlb_replace_idx;
  on_pt (on_stats (vmstats_inc VMSTAT_TLB_FAULT));;
  e ← TLB_Read tlb_idx;
  (if negb (Z.land e.2 TLBLO_VALID =? 0) then
     on_pt (on_stats (vmstats_inc VMSTAT_TLB_FAULT_REPLACE))
   else on_pt (on_stats (vmstats_inc VMSTAT_TLB_FAULT_FREE)));;
  tlb_update faultaddress paddr tlb_idx;;
  mret tlb_idx.
End tlb.
Arguments VM : clear implicits.

(** The first region that contains [vaddr] *)
Definition find_region (vaddr : Z) (rs : list region) : option region :=
  find (λ r, (vaddr <? u32 (r_vaddr r + r_memsize r)) && (r_vaddr r <=? vaddr)) rs.

(** What [vm_fault] asks [load_segment] for: the offset in the file, the address,
    and the number of bytes in memory and in the file *)
Record load := MkLoad { ld_offset : Z; ld_vaddr : Z; ld_memsize : Z; ld_filesize : Z }.

(** The part of a region of [size] bytes that lies in [rbot..rtop) *)
Definition clip (vaddr size rbot rtop : Z) : Z :=
  if u32 (vaddr + size) <? rtop then
    let n := u32 (vaddr + size) in
    if rbot <=? n then u32 (n - rbot) else 0
  else u32 (rtop - rbot).

Definition page_load (r : region) (faultaddress : Z) : load :=
  let offset :=
    s32 (r_offset r + s32 (u32 (faultaddress - Z.land (r_vaddr r) PAGE_FRAME))) in
  let rbot := if r_vaddr r <? faultaddress then faultaddress else r_vaddr r in
  let rtop := u32 (faultaddress + PAGE_SIZE) in
  MkLoad offset rbot (clip (r_vaddr r) (r_memsize r) rbot rtop)
    (clip (r_vaddr r) (r_filesize r) rbot rtop).

(** The operations [load_segment] uses *)
Class UserIO (P : Type) := {
  vop_read : Z → uio → M (VM P) (Z * uio);
  uiomovezeros : Z → uio → M (VM P) (Z * uio);
}.

Section vm_fault.
Context {P : Type} `{!HasCpu P} `{!KPages P} `{!Frames P} `{!UserIO P}.
Context (t_vmspace : Z) (as_ : addrspace).

Definition is_free (paddr : Z) : bool := negb (Z.land paddr PAGE_FREE =? 0).
Definition in_swap (paddr : Z) : bool := negb (Z.land paddr PAGE_IN_SWP =? 0).
Definition PAGE_RW : Z := Z.lor PAGE_R_MASK PAGE_W_MASK.

(** What follows [load_segment]: the region's permissions *)
Definition load_done (r : region) (faultaddress paddr : Z) : M (VM P) () :=
  on_pt (pt_set_permissions t_vmspace (as_pt as_) faultaddress 1 (r_permissions r));;
  i ← TLB_Probe faultaddress;
  (if 0 <=? i then
     tlb_update faultaddress
       (Z.lor (Z.land paddr (u32 (Z.lnot PAGE_RWX))) (r_permissions r)) i
   else _ ← tlb_fault faultaddress paddr; mret tt);;
  on_pt (on_stats (vmstats_inc VMSTAT_ELF_FILE_READ));;
  on_pt (on_stats (vmstats_inc VMSTAT_PAGE_FAULT_DISK)).

(** The body of the loop for the region [r] that contains the address *)
Definition fault_load (r : region) (faultaddress : Z) : M (VM P) () :=
  paddr ← on_pt (pt_get_paddr t_vmspace (as_pt as_) faultaddress 1 PAGE_RW);
  tlb_fault faultaddress paddr;;
  let ld := page_load r faultaddress in
  load_segment vop_read uiomovezeros t_vmspace (as_v as_) (ld_offset ld) (ld_vaddr ld)
    (ld_memsize ld) (ld_filesize ld) (Z.land (r_permissions r) PAGE_X_MASK);;
  load_done r faultaddress paddr.

(** The second switch: may the access go ahead? *)
Definition fault_allowed (faulttype paddr : Z) : bool :=
  let readable := negb (Z.land paddr PAGE_R_MASK =? 0) in
  let writable := negb (Z.land paddr PAGE_W_MASK =? 0) in
  if faulttype =? VM_FAULT_READONLY then writable && readable
  else if faulttype =? VM_FAULT_READ then readable
  else if faulttype =? VM_FAULT_WRITE then writable
  else true.

Definition vm_fault (faulttype faultaddress : Z) : M (VM P) Z :=
  let vaddr := faultaddress in
  spl ← splhigh;
  let faultaddress := Z.land faultaddress PAGE_FRAME in
  if negb ((faulttype =? VM_FAULT_READONLY) || (faulttype =? VM_FAULT_READ)
           || (faulttype =? VM_FAULT_WRITE)) then
    splx spl;;
    mret EINVAL
  else if t_vmspace =? 0 then mret EFAULT
  else
    let pt := as_pt as_ in
    paddr ← on_pt (pt_get_paddr t_vmspace pt faultaddress 0 0);
    match (if is_free paddr then find_region vaddr (as_regions as_) else None) with
    | Some r =>
      fault_load r faultaddress;;
      splx spl;;
      mret 0
    | None =>
      paddr ←
        (if is_free paddr || in_swap paddr then
           on_pt (pt_get_paddr t_vmspace pt faultaddress 1 PAGE_RW)
         else
           on_pt (on_stats (vmstats_inc VMSTAT_TLB_RELOAD));;
           mret paddr);
      if negb (fault_allowed faulttype paddr) then
        splx spl;;
        mret EFAULT
      else
        tlb_fault faultaddress paddr;;
        splx spl;;
        mret 0
    end.
End vm_fault.
