(* ===== verification/VmProof.v ===== *)
(** * The TLB and page faults: invariant and operations

    The invariant of the virtual memory system for one address space: its page
    table is well formed, no page is twice in the TLB, and a valid entry of the
    TLB leads to the frame the page table gives. *)

From Stdlib Require Import ZArith Lia.
From stdpp Require Import base list gmap numbers.
From S2P Require Import Prelude Cpu Uio KPages Frames VmStats Pt PtProof PtOps Loadelf Vm.

Local Open Scope Z_scope.

(** ** Words *)

Definition writable (perm : Z) : bool := Z.testbit perm 2.
Definition readable (perm : Z) : bool := Z.testbit perm 3.

(** The low word of an entry for frame [f] *)
Definition tlb_lo (f : Z) (w : bool) : Z := f + TLBLO_VALID + (if w then TLBLO_DIRTY else 0).

(** The results of [pt_get_paddr] for a page that exists *)
Definition page_word (r f perm : Z) : Prop := r = f + perm ∨ r = mem_word f perm.

Section words.
Context (f perm : Z) (Hf : page_aligned f) (Hperm : is_perm perm).

Lemma page_word_low r c :
  page_word r f perm → 0 ≤ c < 4096 → Z.land 2 c = 0 → Z.land r c = Z.land perm c.
Proof.
  apply page_aligned_eq in Hf as (k & Hk & ->).
  destruct Hperm as (q & Hq & ->). intros [-> | ->] Hc H2; [by rewrite land_low by lia|].
  unfold mem_word. rewrite <- Z.add_assoc, land_low by lia.
  replace (2 + 4 * q) with (Z.lor 2 (4 * q)) by (by perm_cases q).
  by rewrite Z.land_lor_distr_l, H2.
Qed.

Lemma page_word_frame r : page_word r f perm → Z.land r PAGE_FRAME = f.
Proof.
  intros [-> | ->]; [|by apply frame_of_mem].
  apply page_aligned_eq in Hf as (k & Hk & ->). destruct Hperm as (q & Hq & ->).
  rewrite land_frame by lia. done.
Qed.

Lemma land_writable : negb (Z.land perm PAGE_W_MASK =? 0) = writable perm.
Proof. destruct Hperm as (k & Hk & ->). by perm_cases k. Qed.
Lemma land_readable : negb (Z.land perm PAGE_R_MASK =? 0) = readable perm.
Proof. destruct Hperm as (k & Hk & ->). by perm_cases k. Qed.

Lemma page_word_free r : page_word r f perm → is_free r = false.
Proof.
  intros Hr. unfold is_free. rewrite (page_word_low r PAGE_FREE) by done.
  destruct Hperm as (k & Hk & ->). by perm_cases k.
Qed.
Lemma page_word_swap r : page_word r f perm → in_swap r = false.
Proof.
  intros Hr. unfold in_swap. rewrite (page_word_low r PAGE_IN_SWP) by done.
  destruct Hperm as (k & Hk & ->). by perm_cases k.
Qed.

(** The low word [tlb_update] makes *)
Lemma elo_of_word r :
  page_word r f perm →
  (if negb (Z.land r PAGE_W_MASK =? 0)
   then Z.lor (Z.lor (Z.land r PAGE_FRAME) TLBLO_VALID) TLBLO_DIRTY
   else Z.lor (Z.land r PAGE_FRAME) TLBLO_VALID) = tlb_lo f (writable perm).
Proof.
  intros Hr. rewrite (page_word_frame r Hr), (page_word_low r PAGE_W_MASK), land_writable by done.
  apply page_aligned_eq in Hf as (k & Hk & ->). unfold tlb_lo.
  destruct (writable perm); rewrite <- ?Z.lor_assoc; unfold TLBLO_VALID, TLBLO_DIRTY.
  - change (Z.lor 0x200 0x400) with 0x600. rewrite lor_low by lia. lia.
  - rewrite lor_low by lia. lia.
Qed.

(** The word [vm_fault] makes from a result and the region's permissions *)
Lemma page_word_change r perm' :
  page_word r f perm → is_perm perm' →
  page_word (Z.lor (Z.land r (u32 (Z.lnot PAGE_RWX))) perm') f perm'.
Proof.
  intros [-> | ->] Hp'; [left|right; by apply change_perm].
  apply page_aligned_eq in Hf as (k & Hk & ->). destruct Hperm as (q & Hq & ->).
  destruct Hp' as (q' & Hq' & ->).
  change (u32 (Z.lnot PAGE_RWX)) with (Z.lor PAGE_FRAME 0xFE3).
  rewrite land_mask by lia. replace (Z.land (4 * q) 0xFE3) with 0 by (by perm_cases q).
  rewrite Z.add_0_r, lor_low by lia. done.
Qed.

Lemma tlb_lo_valid w : Z.land (tlb_lo f w) TLBLO_VALID ≠ 0.
Proof.
  apply page_aligned_eq in Hf as (k & Hk & ->). unfold tlb_lo, TLBLO_VALID, TLBLO_DIRTY.
  rewrite <- Z.add_assoc, land_low by (destruct w; lia). by destruct w.
Qed.
End words.

(** ** The TLB *)

Definition tlb_entry_ok (strict : Z → Prop) (ts : gmap Z (list Z)) (pt : Z) (e : Z * Z) : Prop :=
  page_aligned e.1 ∧
  (Z.land e.2 TLBLO_VALID ≠ 0 →
   ∃ f perm w, page_aligned f ∧ is_perm perm ∧ walk ts pt e.1 = Some (f + perm) ∧
     e.2 = tlb_lo f w ∧ (strict e.1 → w = writable perm)).

(** The entries for the pages in [strict] allow writes exactly when the page table
    does. *)
Record tlb_wf (strict : Z → Prop) (ts : gmap Z (list Z)) (pt : Z) (t : mmu) : Prop := {
  tw_len : Z.of_nat (length (tlb t)) = NUM_TLB;
  tw_next : 0 ≤ next_tlb_idx t < NUM_TLB;
  tw_entries i e : zlookup (tlb t) i = Some e → tlb_entry_ok strict ts pt e;
  tw_nodup i j e e' :
    zlookup (tlb t) i = Some e → zlookup (tlb t) j = Some e' → e.1 = e'.1 → i = j;
}.

(** The TLB has an entry for the page. *)
Definition in_tlb (t : mmu) (page : Z) : Prop := ∃ i lo, zlookup (tlb t) i = Some (page, lo).

Definition install (i : Z) (e : Z * Z) (nx : Z) (t : mmu) : mmu :=
  MkMmu (<[Z.to_nat i := e]> (tlb t)) nx.

(** Replacing entry [i] by one for a page that is in no other entry *)
Lemma tlb_wf_install (strict strict' : Z → Prop) ts pt t i e nx :
  tlb_wf strict' ts pt t → (∀ x, strict x → x ≠ e.1 → strict' x) → 0 ≤ i < NUM_TLB → 0 ≤ nx < NUM_TLB →
  tlb_entry_ok strict ts pt e →
  (∀ j e', zlookup (tlb t) j = Some e' → e'.1 = e.1 → j = i) →
  tlb_wf strict ts pt (install i e nx t).
Proof.
  intros [Hlen Hnext Hent Hnd] Hst Hi Hnx He Huniq.
  assert (∀ j e', zlookup (<[Z.to_nat i := e]> (tlb t)) j = Some e' →
    j = i ∧ e' = e ∨ j ≠ i ∧ zlookup (tlb t) j = Some e') as Hcases.
  { intros j e' Hj. pose proof (zlookup_lt_Some _ _ _ Hj).
    rewrite zlookup_insert in Hj by lia. case_decide as Hd; [left|right].
    - by injection Hj as <-.
    - split; [by intros ->|done]. }
  split; simpl; [by rewrite length_insert|done| |].
  - intros j e' [[-> ->]|[Hne Hj]]%Hcases; [done|].
    destruct (Hent j e' Hj) as [Ha He']. split; [done|]. intros Hv.
    destruct (He' Hv) as (f & perm & w & ? & ? & ? & ? & Hw). exists f, perm, w.
    split_and!; try done. intros Hs. apply Hw, Hst; [done|]. intros Heq. by apply Hne, (Huniq j e').
  - intros j k e1 e2 [[-> ->]|[Hj Hj']]%Hcases [[-> ->]|[Hk Hk']]%Hcases Heq; [done| | |].
    + symmetry. by eapply Huniq.
    + by eapply Huniq.
    + by eapply Hnd.
Qed.

(** A page table that still maps what it mapped, as it did *)
Lemma tlb_wf_walk strict ts ts' pt t :
  (∀ i e, zlookup (tlb t) i = Some e → Z.land e.2 TLBLO_VALID ≠ 0 →
     walk ts' pt e.1 = walk ts pt e.1) →
  tlb_wf strict ts pt t → tlb_wf strict ts' pt t.
Proof.
  intros Hw [Hlen Hnext Hent Hnd]. split; try done. intros i e Hi.
  destruct (Hent i e Hi) as [Ha He]. split; [done|]. intros Hv. by rewrite (Hw i e Hi Hv); apply He.
Qed.

Lemma probe_found (t : mmu) F i e :
  page_aligned F → (∀ j e, zlookup (tlb t) j = Some e → page_aligned e.1) →
  list_find (λ e, Z.land e.1 TLBHI_VPAGE = Z.land F TLBHI_VPAGE) (tlb t) = Some (i, e) →
  zlookup (tlb t) (Z.of_nat i) = Some e ∧ e.1 = F.
Proof.
  intros HF Hal (Hl & Heq & _)%list_find_Some. rewrite zlookup_nat. split; [done|].
  assert (page_aligned e.1) as He by (apply (Hal (Z.of_nat i)); by rewrite zlookup_nat).
  apply page_aligned_eq in HF as (k & Hk & ->), He as (q & Hq & Heq'). rewrite Heq' in *.
  change TLBHI_VPAGE with PAGE_FRAME in Heq.
  pose proof (land_frame k 0 Hk) as H1. pose proof (land_frame q 0 Hq) as H2.
  rewrite Z.add_0_r in H1, H2. rewrite H1, H2 in Heq by lia. done.
Qed.

Lemma probe_missing (t : mmu) F :
  list_find (λ e, Z.land e.1 TLBHI_VPAGE = Z.land F TLBHI_VPAGE) (tlb t) = None →
  ¬ in_tlb t F.
Proof.
  intros Hn%list_find_None (i & lo & Hi). unfold zlookup in Hi.
  destruct (0 <=? i); [|done]. apply list_elem_of_lookup_2 in Hi.
  rewrite list.Forall_forall in Hn. by apply (Hn _ Hi).
Qed.

(** ** The invariant *)

(** Every TLB miss counted has been counted as one of the two kinds. *)
Definition balanced (st : vmstats) : Prop :=
  count st VMSTAT_TLB_FAULT =
    u32 (count st VMSTAT_TLB_FAULT_FREE + count st VMSTAT_TLB_FAULT_REPLACE).

Lemma balanced_bump st i :
  stats_wf st → 0 ≤ i < VMSTAT_COUNT → 2 < i → balanced st → balanced (bump i st).
Proof.
  intros Hst Hi H2 Hb. unfold balanced in *.
  rewrite !count_bump by done. rewrite !decide_False; [done|..];
    unfold VMSTAT_TLB_FAULT, VMSTAT_TLB_FAULT_FREE, VMSTAT_TLB_FAULT_REPLACE; lia.
Qed.

Lemma u32_u32_add a b : u32 (u32 a + b) = u32 (a + b).
Proof. unfold u32. by rewrite Zplus_mod_idemp_l. Qed.

Lemma balanced_fault st i :
  stats_wf st → i = VMSTAT_TLB_FAULT_FREE ∨ i = VMSTAT_TLB_FAULT_REPLACE → balanced st →
  balanced (bump i (bump VMSTAT_TLB_FAULT st)).
Proof.
  intros Hst Hi Hb. pose proof (stats_wf_bump VMSTAT_TLB_FAULT st Hst) as Hst'.
  unfold balanced in *. destruct Hi as [-> | ->]; rewrite !count_bump by done; simpl;
    rewrite Hb, u32_u32_add.
  - rewrite u32_u32_add. f_equal. lia.
  - rewrite (Z.add_comm (count st VMSTAT_TLB_FAULT_FREE) (u32 _)), u32_u32_add. f_equal. lia.
Qed.

Section invariant.
Context {P : Type} `{!HasCpu P} `{!KPages P} `{!KPagesLaws P} `{!Frames P} `{!FramesLaws P}.
Implicit Types s : VM P.

(** [m] are the pages handed out, [pt] the page table of the current thread.
    Slots of its page table that map nothing have the permissions R and W, which
    new pages inherit. *)
Record vm_wf (strict : Z → Prop) (pt : Z) (m : gmap Z Z) (s : VM P) : Prop := {
  vw_own : pages_own s.1.1 m;
  vw_stats : stats_wf (stats s.1.2);
  vw_balanced : balanced (stats s.1.2);
  vw_pt : pt_inv pt (tables s.1.2) m;
  vw_slots v : is_u32 v → walk (tables s.1.2) pt v = None →
    slot_perm (tables s.1.2) pt v PAGE_RW = PAGE_RW;
  vw_tlb : tlb_wf strict (tables s.1.2) pt s.2;
}.

(** The processor, the pages and the page tables are as before. *)
Definition same_mem (s s' : VM P) : Prop :=
  s'.1.1 = s.1.1 ∧ tables s'.1.2 = tables s.1.2 ∧ phys s'.1.2 = phys s.1.2.

Lemma vm_stats_ok F strict pt m s i (Q : () → VM P → Prop) E :
  vm_wf strict pt m s → 0 ≤ i < VMSTAT_COUNT →
  Q tt ((s.1.1, MkVm (tables s.1.2) (bump i (stats s.1.2)) (phys s.1.2)), s.2) →
  wp F (on_pt (on_stats (vmstats_inc i))) s Q E.
Proof.
  intros [Hown Hst _ _ _ _] Hi HQ. destruct s as [[p [ts st ph]] t]. simpl in *.
  apply wp_zoom. by eapply on_stats_inc_ok.
Qed.

(** Counting an event of another kind *)
Lemma vm_stats_other_ok F strict pt m s i (Q : () → VM P → Prop) E :
  vm_wf strict pt m s → 2 < i < VMSTAT_COUNT →
  (∀ s', vm_wf strict pt m s' → same_mem s s' → s'.2 = s.2 → Q tt s') →
  wp F (on_pt (on_stats (vmstats_inc i))) s Q E.
Proof.
  intros Hs Hi HQ. apply (vm_stats_ok _ strict pt m); [done|lia|]. apply HQ; [|done|done].
  destruct Hs as [? ? ? ? ? ?]. split; simpl; try done; [by apply stats_wf_bump|].
  apply balanced_bump; (done || lia).
Qed.

Lemma tlb_write_ok F s ehi elo i (Q : () → VM P → Prop) E :
  Z.of_nat (length (tlb s.2)) = NUM_TLB → 0 ≤ i < NUM_TLB →
  Q tt (s.1, install i (ehi, elo) (next_tlb_idx s.2) s.2) →
  wp F (TLB_Write ehi elo i) s Q E.
Proof.
  intros Hlen Hi HQ. unfold TLB_Write.
  wp_the (<[Z.to_nat i := (ehi, elo)]> (tlb s.2)) by (by rewrite zstore_Some by lia).
  by wp_steps.
Qed.

(** [tlb_update] on a slot that is for the page, or whose page is no longer
    needed *)
Lemma tlb_update_ok F (strict strict' : Z → Prop) pt m s f perm r perm_r page i
    (Q : () → VM P → Prop) E :
  vm_wf strict' pt m s → (∀ x, strict x → x ≠ page → strict' x) →
  0 ≤ i < NUM_TLB → page_aligned page →
  page_aligned f → is_perm perm → is_perm perm_r →
  walk (tables s.1.2) pt page = Some (f + perm) → page_word r f perm_r →
  (strict page → writable perm_r = writable perm) →
  (∀ j e, zlookup (tlb s.2) j = Some e → e.1 = page → j = i) →
  (∀ s', vm_wf strict pt m s' → s'.1 = s.1 →
     s'.2 = install i (page, tlb_lo f (writable perm_r)) (next_tlb_idx s.2) s.2 → Q tt s') →
  wp F (tlb_update page r i) s Q E.
Proof.
  intros Hs Hst Hi Hpage Hf Hp Hpr Hwalk Hr Hstrict Huniq HQ. unfold tlb_update. wp_steps.
  rewrite (elo_of_word f perm_r) by done. pose proof (vw_tlb _ _ _ _ Hs) as Ht.
  apply tlb_write_ok; [apply Ht|done|]. apply HQ; [|done|done].
  destruct Hs as [? ? ? ? ? _]. split; try done. simpl.
  apply (tlb_wf_install strict strict'); [done|done|done|apply Ht| |done].
  split; [done|]. intros _. exists f, perm, (writable perm_r). by split_and!.
Qed.

Definition next_idx (t : mmu) : Z := (next_tlb_idx t + 1) `mod` NUM_TLB.

(** [tlb_fault] for a page that is not in the TLB *)
Lemma tlb_fault_ok F (strict strict' : Z → Prop) pt m s f perm r perm_r page
    (Q : Z → VM P → Prop) E :
  vm_wf strict' pt m s → (∀ x, strict x → x ≠ page → strict' x) → page_aligned page →
  page_aligned f → is_perm perm → is_perm perm_r →
  walk (tables s.1.2) pt page = Some (f + perm) → page_word r f perm_r →
  (strict page → writable perm_r = writable perm) → ¬ in_tlb s.2 page →
  (∀ s', vm_wf strict pt m s' → same_mem s s' →
     s'.2 = install (next_tlb_idx s.2) (page, tlb_lo f (writable perm_r)) (next_idx s.2) s.2 →
     Q (next_tlb_idx s.2) s') →
  wp F (tlb_fault page r) s Q E.
Proof.
  intros Hs Hst Hpage Hf Hp Hpr Hwalk Hr Hstrict Hnot HQ.
  unfold tlb_fault, get_tlb_replace_idx, TLB_Read. wp_steps.
  pose proof (vw_tlb _ _ _ _ Hs) as Ht. set (idx := next_tlb_idx s.2).
  assert (0 ≤ next_idx s.2 < NUM_TLB) as Hnx by (by apply Z.mod_pos_bound).
  fold (next_idx s.2). set (s1 := (s.1, MkMmu (tlb s.2) (next_idx s.2)) : VM P).
  assert (vm_wf strict' pt m s1) as Hs1.
  { destruct Hs as [? ? ? ? ? [? ? ? ?]]. by split. }
  apply (vm_stats_ok _ strict' pt m); [done|done|]. wp_steps.
  destruct (zlookup_lt_is_Some (tlb s.2) idx) as [e He];
    [rewrite (tw_len _ _ _ _ Ht); apply Ht|].
  wp_the e by done. wp_steps.
  lazymatch goal with |- wp _ _ ?x _ _ => set (s2 := x) end.
  (* both branches *)
  assert (∀ k, k = VMSTAT_TLB_FAULT_FREE ∨ k = VMSTAT_TLB_FAULT_REPLACE →
    wp F (on_pt (on_stats (vmstats_inc k))) s2
      (λ _ s', wp F (tlb_update page r idx;; mret idx) s' Q E) E) as Hk.
  { intros k Hk. unfold s2, s1. cbn [fst snd tables stats phys].
    apply wp_zoom. cbn [fst snd]. eapply on_stats_inc_ok;
      [apply Hs|apply stats_wf_bump, Hs|destruct Hk as [-> | ->]; done|].
    wp_steps.
    eapply (tlb_update_ok _ strict strict' pt m _ f perm r perm_r page idx); try done;
      cbn [fst snd tables stats phys next_tlb_idx tlb].
    - destruct Hs as [? Hwf ? ? ? [? ? ? ?]]. split; simpl; try done.
      + by apply stats_wf_bump, stats_wf_bump.
      + by apply balanced_fault.
    - apply Ht.
    - intros j [hi lo] Hj Heq. simpl in *. subst. exfalso. apply Hnot. by eexists _, _.
    - intros s' Hs' Heq Hmmu. wp_steps. apply HQ; [done| |done].
      unfold same_mem. by rewrite Heq. }
  destruct (negb _); apply Hk; [by right|by left].
Qed.
End invariant.

(** ** An empty TLB *)

(** The TLB [as_activate] leaves: no entry matches a user address. *)
Definition tlb_flushed : list (Z * Z) :=
  (λ i, (TLBHI_INVALID i, TLBLO_INVALID)) <$> seqZ 0 NUM_TLB.

Lemma tlb_flushed_lookup i e :
  zlookup tlb_flushed i = Some e → 0 ≤ i < NUM_TLB ∧ e = ((0x80000 + i) * 4096, 0).
Proof.
  intros Hi. unfold zlookup in Hi. destruct (Z.leb_spec 0 i); [|done].
  unfold tlb_flushed in Hi. rewrite list_lookup_fmap in Hi.
  destruct (seqZ 0 NUM_TLB !! Z.to_nat i) as [j|] eqn:Hj; [|done]. injection Hi as <-.
  apply lookup_seqZ in Hj as [-> Hj]. split; [lia|]. unfold TLBHI_INVALID.
  rewrite Z.shiftl_mul_pow2 by lia. f_equal. lia.
Qed.

Lemma tlb_wf_flushed strict ts pt nx :
  0 ≤ nx < NUM_TLB → tlb_wf strict ts pt (MkMmu tlb_flushed nx).
Proof.
  intros Hnx. split; simpl; [done|done| |].
  - intros i e [Hi ->]%tlb_flushed_lookup. split; [|done]. simpl. apply page_aligned_eq.
    exists (0x80000 + i). unfold NUM_TLB in *. lia.
  - intros i j e e' [Hi ->]%tlb_flushed_lookup [Hj ->]%tlb_flushed_lookup. simpl. lia.
Qed.

Lemma not_in_flushed nx page : page < MIPS_KSEG0 → ¬ in_tlb (MkMmu tlb_flushed nx) page.
Proof.
  intros Hp (i & lo & [Hi Heq]%tlb_flushed_lookup). injection Heq as -> _.
  unfold MIPS_KSEG0 in Hp. lia.
Qed.

(** Frames of different pages differ. *)
Lemma walk_frame_inj pt ts m v v' f perm perm' :
  pt_inv pt ts m → page_aligned f → is_perm perm → is_perm perm' →
  walk ts pt v = Some (f + perm) → walk ts pt v' = Some (f + perm') →
  v / PAGE_SIZE = v' / PAGE_SIZE.
Proof.
  intros Hinv Hf Hp Hp' Hw Hw'.
  assert (∃ a, sub ts pt (up v) = Some a) as [a Hs]
    by (unfold walk in Hw; destruct (sub ts pt (up v)); [by eexists|done]).
  assert (∃ a, sub ts pt (up v') = Some a) as [a' Hs']
    by (unfold walk in Hw'; destruct (sub ts pt (up v')); [by eexists|done]).
  destruct (walk_word pt ts m v a f perm Hinv Hs Hf Hp Hw) as (_ & _ & Hpr & _).
  destruct (walk_word pt ts m v' a' f perm' Hinv Hs' Hf Hp' Hw') as (_ & _ & Hpr' & _).
  destruct (pi_frame_inj _ _ _ Hinv (up v) (low v) (up v') (low v') a a' _ _ Hs Hpr Hs' Hpr')
    as [Hu Hl]; [by rewrite !frame_of_mem|]. by apply up_low_page.
Qed.

(** ** Page faults: what vm_fault does

    The properties of the page-fault handler: on every branch the processor is as
    before, the invariant of VmProof.v is kept, and the TLB and the page table
    show what the branch is for. *)


(** The page of an address *)
Definition page_of (v : Z) : Z := Z.land v PAGE_FRAME.

Lemma page_of_eq v : is_u32 v → page_of v = v - v `mod` PAGE_SIZE.
Proof.
  intros Hv. unfold page_of. rewrite land_PAGE_FRAME by done.
  rewrite (Z.div_mod v PAGE_SIZE) at 2 by done. lia.
Qed.

Lemma page_of_aligned v : is_u32 v → page_aligned (page_of v).
Proof.
  intros Hv. unfold page_of. rewrite land_PAGE_FRAME by done. apply page_aligned_eq.
  exists (v / PAGE_SIZE). unfold is_u32, PAGE_SIZE in *. split; [|done].
  Z.div_mod_to_equations; lia.
Qed.

Lemma page_of_id v : page_aligned v → page_of v = v.
Proof. intros [Hv Hm]. rewrite page_of_eq by done. lia. Qed.

(** ** What the loader relies on *)

Section user_io.
Context {P : Type} `{!HasCpu P} `{!KPages P} `{!KPagesLaws P} `{!Frames P} `{!FramesLaws P}.
Implicit Types (s : VM P) (strict : Z → Prop).

(** [n] bytes at [base] lie in one page. *)
Definition in_page (base n : Z) : Prop :=
  0 ≤ base ∧ 0 ≤ n ∧ base `mod` PAGE_SIZE + n ≤ PAGE_SIZE.

(** Between [s] and [s'] other threads may have run; of this address space only
    the bytes from [base] to [base + n] have changed. *)
Record user_kept (stays : bool) strict (pt : Z) (base n : Z) (s s' : VM P) : Prop := {
  uk_wf : ∃ m', vm_wf strict pt m' s';
  uk_cpu : cpu_of s' = cpu_of s;
  uk_walk v : walk (tables s'.1.2) pt v = walk (tables s.1.2) pt v;
  uk_tlb : stays = true → s'.2 = s.2;
  uk_bytes v g perm :
    is_u32 v → page_aligned g → is_perm perm → walk (tables s.1.2) pt v = Some (g + perm) →
    ¬ base ≤ v < base + n →
    phys s'.1.2 (g + v `mod` PAGE_SIZE) = phys s.1.2 (g + v `mod` PAGE_SIZE);
}.

(** The bytes of user memory at [base], in frame [f] *)
Definition user_bytes (s : VM P) (f base n : Z) (byte : Z → Z) : Prop :=
  ∀ k, 0 ≤ k < n → phys s.1.2 (f + base `mod` PAGE_SIZE + k) = byte k.
End user_io.

(** What the code relies on: a read stores the bytes of the file from the offset
    on, as many as there are, and advances the uio; [uiomovezeros] stores zeros
    in memory that is mapped for writing. [file_byte v] and [file_size v] are the
    contents of the file, [read_ok v] says that reading it does not fail, and
    [tlb_stays] that no other thread gets to run. [pt] is the page table of the
    current thread. *)
Class UserIOLaws (P : Type) `{!HasCpu P} `{!KPages P} `{!KPagesLaws P} `{!UserIO P}
    (pt : Z) := {
  file_size : Z → Z;
  file_byte : Z → Z → Z;
  read_ok : Z → Prop;
  tlb_stays : bool;
  vop_read_law strict m (s : VM P) v u f perm :
    let base := iov_base (uio_iovec u) in
    let n := Z.min (uio_resid u) (Z.max 0 (file_size v - uio_offset u)) in
    vm_wf strict pt m s → uio_rw u = UIO_READ → uio_segflg u ≠ UIO_SYSSPACE →
    uio_resid u ≤ iov_len (uio_iovec u) → in_page base (uio_resid u) →
    page_aligned f → is_perm perm → writable perm = true →
    walk (tables s.1.2) pt base = Some (f + perm) →
    wp safe_oom (vop_read v u) s
      (λ r s', user_kept tlb_stays strict pt base (uio_resid u) s s' ∧
         (read_ok v → r.1 = 0) ∧
         (r.1 = 0 → r.2 = advance n u ∧
            user_bytes s' f base n (λ k, file_byte v (uio_offset u + k)))) noerr;
  uiomovezeros_law strict m (s : VM P) n u f perm :
    let base := iov_base (uio_iovec u) in
    vm_wf strict pt m s → uio_rw u = UIO_READ → uio_segflg u ≠ UIO_SYSSPACE →
    n ≤ uio_resid u ≤ iov_len (uio_iovec u) → in_page base n →
    page_aligned f → is_perm perm → writable perm = true →
    walk (tables s.1.2) pt base = Some (f + perm) →
    wp safe_oom (uiomovezeros n u) s
      (λ r s', user_kept tlb_stays strict pt base n s s' ∧
         r.1 = 0 ∧ user_bytes s' f base n (λ _, 0)) noerr;
}.

Section load.
Context {P : Type} `{!HasCpu P} `{!KPages P} `{!KPagesLaws P} `{!Frames P} `{!FramesLaws P}.
Context `{!UserIO P} (pt : Z) `{!UserIOLaws P pt} (t_vmspace : Z).
Implicit Types (s : VM P) (strict : Z → Prop).

Lemma user_kept_mono stays strict base n n' s s' :
  n ≤ n' → user_kept stays strict pt base n s s' → user_kept stays strict pt base n' s s'.
Proof.
  intros Hn [? ? ? ? Hb]. split; try done. intros v g perm ? ? ? ? Hv. eapply Hb; try done. lia.
Qed.

Lemma user_kept_trans stays strict base n base' n' s s1 s2 :
  base' = base + n → 0 ≤ n → 0 ≤ n' →
  user_kept stays strict pt base n s s1 → user_kept stays strict pt base' n' s1 s2 →
  user_kept stays strict pt base (n + n') s s2.
Proof.
  intros -> Hn Hn' [_ Hc1 Hw1 Ht1 Hb1] [Hwf Hc2 Hw2 Ht2 Hb2]. split.
  - done.
  - congruence.
  - intros v. by rewrite Hw2.
  - intros Hst. rewrite Ht2, Ht1; done.
  - intros v g perm Hv Hg Hp Hw Hout. rewrite (Hb2 v g perm), (Hb1 v g perm); try done; [lia| |lia].
    by rewrite Hw1.
Qed.

Lemma walk_page ts v v' : v / PAGE_SIZE = v' / PAGE_SIZE → walk ts pt v = walk ts pt v'.
Proof. intros Hv. unfold walk. by destruct (page_up_low v v' Hv) as [-> ->]. Qed.

Lemma in_page_div base n k :
  in_page base n → 0 ≤ k < n →
  (base + k) / PAGE_SIZE = base / PAGE_SIZE ∧ (base + k) `mod` PAGE_SIZE = base `mod` PAGE_SIZE + k.
Proof. unfold in_page, PAGE_SIZE. intros. split; Z.div_mod_to_equations; lia. Qed.

Lemma load_segment_ok strict m s f perm v off va memsz filesz ex :
  vm_wf strict pt m s → page_aligned f → is_perm perm → writable perm = true →
  walk (tables s.1.2) pt va = Some (f + perm) →
  in_page va memsz → 0 ≤ filesz ≤ memsz → va < 2 ^ 31 →
  wp safe_oom (load_segment vop_read uiomovezeros t_vmspace v off va memsz filesz ex) s
    (λ _ s', user_kept tlb_stays strict pt va memsz s s' ∧
       (read_ok v → (0 < filesz → off + filesz ≤ file_size v) →
        user_bytes s' f va memsz (λ k, if k <? filesz then file_byte v (off + k) else 0))) noerr.
Proof.
  intros Hs Hf Hp Hw Hwalk Hin Hsz Hva. unfold load_segment.
  destruct (Z.ltb_spec memsz filesz); [lia|]. set (u := segment_uio _ _ _ _ _ _). wp_steps.
  pose proof Hin as (Hva0 & Hms & Hpg). assert (memsz ≤ 4096) by
    (pose proof (Z.mod_pos_bound va PAGE_SIZE); unfold PAGE_SIZE in *; lia).
  eapply wp_mono; [apply (vop_read_law strict m s v u f perm)| |done]; try done;
    [by unfold u; simpl; destruct (ex =? 0)|unfold u, in_page; simpl; lia|].
  intros [result u'] s1 (Hk1 & Hok & Hbytes). cbn [fst snd] in *.
  change (iov_base (uio_iovec u)) with va in *. change (uio_resid u) with filesz in *.
  change (uio_offset u) with off in *.
  destruct (Z.eqb_spec result 0) as [->|Hne]; cbn [negb]; cbv iota.
  2:{ wp_steps. split; [by apply (user_kept_mono _ _ _ filesz)|]. intros Hr. by destruct Hne, Hok. }
  destruct (Hbytes eq_refl) as [-> Hb]. set (n := Z.min filesz _) in *. simpl (uio_resid _).
  destruct (Z.eqb_spec (filesz - n) 0) as [Hn|Hn]; cbn [negb]; cbv iota.
  2:{ wp_steps. split; [by apply (user_kept_mono _ _ _ filesz)|]. intros _ Hlen. lia. }
  assert (n = filesz) as Hnf by lia. rewrite Hnf in *. rewrite u32_small by lia.
  destruct (Z.ltb_spec 0 (memsz - filesz)) as [Hfill|Hfill].
  2:{ wp_steps. assert (filesz = memsz) as -> by lia. split; [done|]. intros _ _ k Hk.
      destruct (Z.ltb_spec k memsz); [|lia]. by apply Hb. }
  destruct (uk_wf _ _ _ _ _ _ _ Hk1) as [m1 Hs1]. wp_steps.
  assert ((va + filesz) / PAGE_SIZE = va / PAGE_SIZE ∧
    (va + filesz) `mod` PAGE_SIZE = va `mod` PAGE_SIZE + filesz) as [Hd Hmod]
    by (apply (in_page_div va memsz); [done|lia]).
  eapply wp_mono; [apply (uiomovezeros_law strict m1 s1 _ _ f perm)| |done]; try done.
  - by simpl; destruct (ex =? 0).
  - simpl. rewrite u32_small by lia. lia.
  - unfold in_page. simpl. lia.
  - simpl. rewrite (walk_page _ _ va) by done. by rewrite (uk_walk _ _ _ _ _ _ _ Hk1).
  - intros r s2 (Hk2 & _ & Hb2). wp_steps. simpl in Hk2, Hb2.
    assert (user_kept tlb_stays strict pt va (filesz + (memsz - filesz)) s s2) as Hk
      by (by eapply user_kept_trans; [reflexivity|lia|lia|..]).
    replace (filesz + (memsz - filesz)) with memsz in Hk by lia. split; [done|].
    intros Hr Hlen k Hk0. destruct (Z.ltb_spec k filesz).
    + rewrite <- (Hb k) by lia.
      assert ((va + k) `mod` PAGE_SIZE = va `mod` PAGE_SIZE + k ∧
        (va + k) / PAGE_SIZE = va / PAGE_SIZE) as [Hmk Hdk]
        by (destruct (in_page_div va memsz k); [done|lia|done]).
      rewrite <- !Z.add_assoc, <- Hmk. eapply (uk_bytes _ _ _ _ _ _ _ Hk2 (va + k) f perm);
        [unfold is_u32; lia|done|done| |lia].
      rewrite (walk_page _ _ va) by done. by rewrite (uk_walk _ _ _ _ _ _ _ Hk1).
    + rewrite <- (Hb2 (k - filesz)) by lia. f_equal. lia.
Qed.
End load.

(** ** The page to load *)

(** A region in user space, its file part not longer than its memory *)
Record region_ok (r : region) : Prop := {
  ro_vaddr : 0 ≤ r_vaddr r;
  ro_filesize : 0 ≤ r_filesize r ≤ r_memsize r;
  ro_end : r_vaddr r + r_memsize r ≤ USERTOP;
  ro_offset : 0 ≤ r_offset r;
  ro_offset_end : r_offset r + r_memsize r + PAGE_SIZE ≤ 2 ^ 31;
  ro_perm : is_perm (r_permissions r);
}.

Section page_load.
Context (r : region) (v : Z) (Hr : region_ok r).
Context (Hin : r_vaddr r ≤ v < r_vaddr r + r_memsize r).
Local Abbreviation F := (page_of v).

Lemma fault_page_range : is_u32 v ∧ 0 ≤ F ∧ F ≤ v < F + PAGE_SIZE ∧ F + PAGE_SIZE ≤ USERTOP ∧
  F `mod` PAGE_SIZE = 0.
Proof.
  destruct Hr as [? ? ? ? ? ?]. assert (is_u32 v) as Hv by (unfold is_u32, USERTOP, MIPS_KSEG0 in *; lia).
  split; [done|]. rewrite page_of_eq by done. unfold USERTOP, MIPS_KSEG0, PAGE_SIZE in *.
  Z.div_mod_to_equations. lia.
Qed.

Lemma clip_eq size rbot rtop :
  0 ≤ size → r_vaddr r + size ≤ USERTOP → 0 ≤ rbot ≤ rtop → rtop ≤ USERTOP →
  clip (r_vaddr r) size rbot rtop = Z.max 0 (Z.min rtop (r_vaddr r + size) - rbot).
Proof.
  intros Hsize Hend Hb Ht. pose proof (ro_vaddr r Hr). unfold clip, USERTOP, MIPS_KSEG0 in *.
  rewrite (u32_small (r_vaddr r + size)) by lia. destruct (Z.ltb_spec (r_vaddr r + size) rtop).
  - destruct (Z.leb_spec rbot (r_vaddr r + size)); [rewrite u32_small by lia|]; lia.
  - rewrite u32_small by lia. lia.
Qed.

(** Where the loaded bytes go *)
Definition load_from : Z := Z.max F (r_vaddr r).

Lemma page_load_eq :
  page_load r F =
    MkLoad (r_offset r + (F - page_of (r_vaddr r))) load_from
      (Z.min (F + PAGE_SIZE) (r_vaddr r + r_memsize r) - load_from)
      (Z.max 0 (Z.min (F + PAGE_SIZE) (r_vaddr r + r_filesize r) - load_from)).
Proof.
  destruct fault_page_range as (Hv & HF0 & HFv & HFt & HFm). destruct Hr as [? ? ? ? ? ?].
  assert (is_u32 (r_vaddr r)) as Hrv by (unfold is_u32, USERTOP, MIPS_KSEG0 in *; lia).
  assert (0 ≤ F - page_of (r_vaddr r) < r_memsize r + PAGE_SIZE) as Hoff.
  { rewrite !page_of_eq by done. unfold PAGE_SIZE in *. Z.div_mod_to_equations. lia. }
  unfold page_load, load_from. fold (page_of (r_vaddr r)).
  rewrite (u32_small (F + PAGE_SIZE)) by (unfold USERTOP, MIPS_KSEG0 in *; lia).
  replace (if r_vaddr r <? F then F else r_vaddr r) with (Z.max F (r_vaddr r))
    by (destruct (Z.ltb_spec (r_vaddr r) F); lia).
  rewrite !clip_eq by lia. unfold USERTOP, MIPS_KSEG0, PAGE_SIZE in *. f_equal; [|lia].
  rewrite u32_small, (s32_small (_ - _)), s32_small; lia.
Qed.

Lemma load_in_page :
  in_page load_from (Z.min (F + PAGE_SIZE) (r_vaddr r + r_memsize r) - load_from) ∧
  load_from / PAGE_SIZE = F / PAGE_SIZE ∧ load_from < 2 ^ 31.
Proof.
  destruct fault_page_range as (Hv & HF0 & HFv & HFt & HFm). destruct Hr as [? ? ? ? ? ?].
  unfold in_page, load_from, USERTOP, MIPS_KSEG0, PAGE_SIZE in *.
  split_and!; try lia; Z.div_mod_to_equations; lia.
Qed.
End page_load.

(** The byte the program file gives for an address of a region *)
Definition segment_byte (r : region) (file : Z → Z) (v : Z) : Z :=
  if v <? r_vaddr r + r_filesize r then file (r_offset r + (v - r_vaddr r)) else 0.
