(* ===== verification/VmFault.v ===== *)
(** * Page faults: properties

    The branches of [vm_fault] (kern/vm/vm.c), against the invariant of VmProof.v
    and the interface of VmProof.v. *)

From Stdlib Require Import ZArith Lia.
From stdpp Require Import base list gmap numbers.
From S2P Require Import Prelude Cpu Uio KPages Frames VmStats Pt PtProof PtOps Loadelf Vm.
From S2P Require Import VmProof.

Local Open Scope Z_scope.

Section operations.
Context {P : Type} `{!HasCpu P} `{!KPages P} `{!KPagesLaws P} `{!Frames P} `{!FramesLaws P}.
Context (pt t_vmspace : Z).
Implicit Types (s : VM P) (strict : Z → Prop).

Lemma is_perm_RW : is_perm PAGE_RW.
Proof. by exists 3. Qed.

Lemma store_walk_eq ts v f perm : store_walk ts pt (up v) (low v) f perm v = Some (f + perm).
Proof. unfold store_walk. by rewrite decide_True. Qed.

Lemma store_walk_other ts v f perm v' :
  v' / PAGE_SIZE ≠ v / PAGE_SIZE → store_walk ts pt (up v) (low v) f perm v' = walk ts pt v'.
Proof.
  intros Hne. unfold store_walk. rewrite decide_False; [done|]. intros [Hu Hl].
  by apply Hne, up_low_page.
Qed.

Lemma store_walk_unmapped ts v f perm v' w :
  walk ts pt v = None → walk ts pt v' = Some w →
  store_walk ts pt (up v) (low v) f perm v' = walk ts pt v'.
Proof.
  intros Hn Hs. apply store_walk_other. intros Heq.
  rewrite (walk_page pt ts v' v Heq) in Hs. congruence.
Qed.

(** Looking a page up *)
Lemma vm_lookup_ok F strict m s v (Q : Z → VM P → Prop) E :
  vm_wf strict pt m s → is_u32 v →
  Q (default PAGE_FREE (walk (tables s.1.2) pt v)) s →
  wp F (on_pt (pt_get_paddr t_vmspace pt v 0 0)) s Q E.
Proof.
  intros Hs Hv HQ. destruct s as [[p [ts st ph]] t]. apply wp_zoom.
  eapply (pt_get_paddr_find _ _ _ _ _ _ m); [apply Hs|done|done].
Qed.

(** Creating a page that is not mapped *)
Lemma vm_create_ok strict m s page (Q : Z → VM P → Prop) E :
  vm_wf strict pt m s → is_u32 page → walk (tables s.1.2) pt page = None →
  (∀ f s' m', page_aligned f → m !! kaddr f = None → vm_wf strict pt m' s' → s'.2 = s.2 →
     cpu_of s' = cpu_of s → phys s'.1.2 = phys s.1.2 →
     (∀ v, walk (tables s'.1.2) pt v =
        store_walk (tables s.1.2) pt (up page) (low page) f PAGE_RW v) →
     Q (mem_word f PAGE_RW) s') →
  wp safe_oom (on_pt (pt_get_paddr t_vmspace pt page 1 PAGE_RW)) s Q E.
Proof.
  intros Hs Hpage Hnone HQ. destruct s as [[p [ts st ph]] t]. apply wp_zoom.
  pose proof Hs as [Hown Hst Hbal Hpt Hslots Htlb]. simpl in *.
  apply (pt_get_paddr_ok _ _ _ _ _ m); [done..|apply is_perm_RW|].
  intros r f perm p' ts' m' st' Htr Hown' Hcpu.
  destruct Htr as [[Hf Hmf] Hp Hinv' Hex Hwalk Hsl [(Hw & _)|(_ & Hfresh & -> & -> & ->)]];
    [congruence|].
  rewrite (Hslots page Hpage Hnone) in *.
  apply (HQ f ((p', MkVm ts' (bump VMSTAT_PAGE_FAULT_ZERO st) ph), t) m'); try done.
  split; simpl; try done.
  - by apply stats_wf_bump.
  - by apply balanced_bump.
  - intros v Hv Hn. rewrite Hsl by done. assert (walk ts pt v = None) as Hn0.
    { rewrite Hwalk in Hn. unfold store_walk in Hn. by case_decide. }
    case_decide; by apply Hslots.
  - eapply tlb_wf_walk; [|done]. intros i e Hi Hval. rewrite Hwalk.
    destruct (tw_entries _ _ _ _ Htlb i e Hi) as [_ He].
    destruct (He Hval) as (g & k & w & _ & _ & Hg & _). by eapply store_walk_unmapped.
Qed.

(** Changing the permissions of a page: its entry in the TLB may be out of date. *)
Lemma vm_set_permissions_ok strict m s page f perm perm' (Q : Z → VM P → Prop) E :
  vm_wf strict pt m s → page_aligned page → is_perm perm' → page_aligned f → is_perm perm →
  walk (tables s.1.2) pt page = Some (f + perm) →
  (∀ s' m', vm_wf (λ x, strict x ∧ x ≠ page) pt m' s' → s'.2 = s.2 →
     cpu_of s' = cpu_of s → phys s'.1.2 = phys s.1.2 →
     (∀ v, walk (tables s'.1.2) pt v =
        store_walk (tables s.1.2) pt (up page) (low page) f perm' v) →
     Q 1 s') →
  wp safe_oom (on_pt (pt_set_permissions t_vmspace pt page 1 perm')) s Q E.
Proof.
  intros Hs Hpage Hp' Hf Hp Hw HQ. destruct s as [[p [ts st ph]] t]. apply wp_zoom.
  pose proof Hs as [Hown Hst Hbal Hpt Hslots Htlb]. simpl in *.
  eapply (pt_set_permissions_ok _ _ _ _ _ m); [done|done|done|apply Hpage|done..|].
  intros p' ts' m' Hinv' Hex Hwalk Hsl Hown' Hcpu.
  apply (HQ ((p', MkVm ts' st ph), t) m'); try done. split; simpl; try done.
  - intros v Hv Hn. rewrite Hsl by done. apply Hslots; [done|]. rewrite Hwalk in Hn.
    unfold store_walk in Hn. by case_decide.
  - destruct Htlb as [Hlen Hnext Hent Hnd]. split; try done. intros i e Hi.
    destruct (Hent i e Hi) as [Ha He]. split; [done|]. intros Hval.
    destruct (He Hval) as (g & k & w & Hg & Hk & Hgw & Hlo & Hstr).
    destruct (decide (e.1 / PAGE_SIZE = page / PAGE_SIZE)) as [Heq|Hne].
    + rewrite (walk_page pt ts _ _ Heq) in Hgw.
      destruct (entry_inj g k f perm) as [-> ->]; [done..|congruence|].
      exists f, perm', w. rewrite Hwalk. destruct (page_up_low _ _ Heq) as [Hu Hl].
      unfold store_walk. rewrite decide_True by done. split_and!; try done.
      intros [_ Hcon]. exfalso. apply Hcon. apply page_aligned_eq in Ha as (a & _ & Ha),
        Hpage as (b & _ & ->). rewrite Ha in *. unfold PAGE_SIZE in Heq.
      rewrite !Z.div_mul in Heq by done. by subst.
    + exists g, k, w. rewrite Hwalk, store_walk_other by done. split_and!; try done.
      intros [? _]. auto.
Qed.
End operations.

(** ** Loading a page of a region *)

Section faults.
Context {P : Type} `{!HasCpu P} `{!KPages P} `{!KPagesLaws P} `{!Frames P} `{!FramesLaws P}.
Context `{!UserIO P} (t_vmspace : Z) (as_ : addrspace) `{!UserIOLaws P (as_pt as_)}.
Implicit Types (s : VM P) (strict : Z → Prop).
Local Abbreviation pt := (as_pt as_).

(** The entry of the TLB that leads to frame [f] *)
Definition tlb_maps (t : mmu) (page f : Z) (w : bool) : Prop :=
  ∃ i, zlookup (tlb t) i = Some (page, tlb_lo f w).

(** The pages whose TLB entry is exact after [page] has been loaded: when the
    entry was lost meanwhile, the new one allows writes in any case. *)
Definition strict_after strict (r : region) (page x : Z) : Prop :=
  strict x ∧ (x ≠ page ∨ tlb_stays = true ∨ writable (r_permissions r) = true).

(** Page [page] of region [r] is now in frame [f]: the frame was free, the page has the
    permissions of the region, the other pages are as they were. *)
Record page_loaded strict (r : region) (page : Z) (m : gmap Z Z) (s : VM P) (f : Z)
    (s' : VM P) : Prop := {
  pl_wf : ∃ m', vm_wf (strict_after strict r page) pt m' s';
  pl_cpu : cpu_of s' = cpu_of s;
  pl_frame : page_aligned f ∧ m !! kaddr f = None;
  pl_walk v : walk (tables s'.1.2) pt v =
    if decide (v / PAGE_SIZE = page / PAGE_SIZE) then Some (f + r_permissions r)
    else walk (tables s.1.2) pt v;
  (* the pages there were *)
  pl_others v g perm :
    is_u32 v → page_aligned g → is_perm perm → walk (tables s.1.2) pt v = Some (g + perm) →
    phys s'.1.2 (g + v `mod` PAGE_SIZE) = phys s.1.2 (g + v `mod` PAGE_SIZE);
}.

(** The TLB leads to the frame, and allows writes as the region does. When another thread ran
    while the file was read the entry may be gone, and the new one allows writes always. *)
Definition entry_loaded (r : region) (page f : Z) (s' : VM P) : Prop :=
  ∃ w, tlb_maps s'.2 page f w ∧ (w = writable (r_permissions r) ∨ tlb_stays = false ∧ w = true).

(** The frame has the bytes of the part of the region in [page]: those of the file, and zeros
    behind the file's part of the region. The code finds the place in the file as if the
    region started on a page boundary: when it does not, the bytes of all its pages but the first
    are taken [page_shift] bytes too far on. *)
Definition page_shift (r : region) (page : Z) : Z :=
  if page =? page_of (r_vaddr r) then 0 else r_vaddr r `mod` PAGE_SIZE.
Definition bytes_loaded (r : region) (page f : Z) (s' : VM P) : Prop :=
  ∀ v, r_vaddr r ≤ v < r_vaddr r + r_memsize r → v / PAGE_SIZE = page / PAGE_SIZE →
    phys s'.1.2 (f + v `mod` PAGE_SIZE) = segment_byte r (λ o, file_byte (as_v as_) (o + page_shift r page)) v.

Lemma installed_maps t i page f w nx :
  Z.of_nat (length (tlb t)) = NUM_TLB → 0 ≤ i < NUM_TLB →
  tlb_maps (install i (page, tlb_lo f w) nx t) page f w.
Proof. intros Hl Hi. exists i. simpl. by rewrite zlookup_insert_eq by lia. Qed.

(** The bytes [load_segment] has stored are those of the region. *)
Lemma loaded_bytes s' r v v0 f :
  region_ok r → r_vaddr r ≤ v0 < r_vaddr r + r_memsize r →
  let page := page_of v0 in
  let ld := page_load r page in
  user_bytes s' f (ld_vaddr ld) (ld_memsize ld)
    (λ k, if k <? ld_filesize ld then file_byte (as_v as_) (ld_offset ld + k) else 0) →
  r_vaddr r ≤ v < r_vaddr r + r_memsize r →
  v / PAGE_SIZE = page / PAGE_SIZE →
  phys s'.1.2 (f + v `mod` PAGE_SIZE) = segment_byte r (λ o, file_byte (as_v as_) (o + page_shift r page)) v.
Proof.
  intros Hr Hv0 page ld Hb Hv Hpv. unfold ld, page in *. clear ld page.
  destruct (fault_page_range r v0 Hr Hv0) as (Hu & HF0 & HFv & HFt & HFm).
  destruct (load_in_page r v0 Hr Hv0) as ((Hl0 & _ & Hl) & Hld & _).
  rewrite (page_load_eq r v0 Hr Hv0) in Hb. cbn [ld_vaddr ld_memsize ld_filesize ld_offset] in Hb.
  assert (is_u32 (r_vaddr r)) as Hru
    by (destruct Hr; unfold is_u32, USERTOP, MIPS_KSEG0 in *; lia).
  set (F := page_of v0) in *. set (b := load_from r v0) in *.
  assert (b = Z.max F (r_vaddr r)) as Hbeq by done.
  assert (F ≤ v < F + PAGE_SIZE) as HvF.
  { unfold PAGE_SIZE in *. Z.div_mod_to_equations. lia. }
  assert (b ≤ v) as Hbv by lia.
  assert (v `mod` PAGE_SIZE = b `mod` PAGE_SIZE + (v - b)) as Hmod.
  { unfold PAGE_SIZE in *. Z.div_mod_to_equations. lia. }
  specialize (Hb (v - b) ltac:(lia)). rewrite Hmod, Z.add_assoc, Hb. unfold segment_byte.
  assert ((v - b <? Z.max 0 (Z.min (F + PAGE_SIZE) (r_vaddr r + r_filesize r) - b))
    = (v <? r_vaddr r + r_filesize r)) as ->.
  { destruct (Z.ltb_spec v (r_vaddr r + r_filesize r)); lia. }
  destruct (v <? _); [|done]. f_equal. pose proof (page_of_eq _ Hru) as Hpr. unfold page_shift.
  pose proof (page_of_eq v0 Hu) as HF. fold F in HF. unfold PAGE_SIZE in *. destruct (Z.eqb_spec F (page_of (r_vaddr r))) as [He|He]; Z.div_mod_to_equations; lia.
Qed.

(** The part of the file it asks for exists when the region's does. *)
Lemma load_in_file r v size :
  region_ok r → r_vaddr r ≤ v < r_vaddr r + r_memsize r →
  r_offset r + r_filesize r + page_shift r (page_of v) ≤ size →
  let ld := page_load r (page_of v) in
  0 < ld_filesize ld → ld_offset ld + ld_filesize ld ≤ size.
Proof.
  intros Hr Hv Hsize. cbv zeta. rewrite (page_load_eq r v Hr Hv).
  cbn [ld_offset ld_filesize]. unfold load_from.
  assert (is_u32 (r_vaddr r)) as Hru
    by (destruct Hr; unfold is_u32, USERTOP, MIPS_KSEG0 in *; lia).
  destruct (fault_page_range r v Hr Hv) as (Hu & _).
  pose proof (page_of_eq _ Hru) as Hpr. pose proof (page_of_eq _ Hu) as HF. unfold page_shift, PAGE_SIZE in *.
  destruct (Z.eqb_spec (page_of v) (page_of (r_vaddr r))) as [He|He]; Z.div_mod_to_equations; lia.
Qed.

(** From the end of [load_segment] on *)
Lemma load_done_ok strict m s r page f paddr (Q : () → VM P → Prop) E :
  vm_wf strict pt m s → page_aligned page → is_perm (r_permissions r) →
  page_aligned f → page_word paddr f PAGE_RW →
  walk (tables s.1.2) pt page = Some (f + PAGE_RW) → (tlb_stays = true → in_tlb s.2 page) →
  (∀ s' m' w, vm_wf (strict_after strict r page) pt m' s' → cpu_of s' = cpu_of s →
     phys s'.1.2 = phys s.1.2 →
     (∀ v, walk (tables s'.1.2) pt v =
        store_walk (tables s.1.2) pt (up page) (low page) f (r_permissions r) v) →
     tlb_maps s'.2 page f w →
     w = writable (r_permissions r) ∨ tlb_stays = false ∧ w = true → Q tt s') →
  wp safe_oom (load_done t_vmspace as_ r page paddr) s Q E.
Proof.
  intros Hs Hpage Hperm Hf Hword Hw Hin HQ. unfold load_done, TLB_Probe. wp_steps.
  apply (vm_set_permissions_ok pt t_vmspace strict m _ page f PAGE_RW);
    try (done || apply is_perm_RW).
  intros s1 m1 Hs1 Hmmu1 Hcpu1 Hph1 Hw1. wp_steps.
  pose proof (store_walk_eq pt (tables s.1.2) page f (r_permissions r)) as HwF.
  rewrite <- Hw1 in HwF.
  assert (∀ s2 w, vm_wf (strict_after strict r page) pt m1 s2 → s2.1.1 = s1.1.1 →
    tables s2.1.2 = tables s1.1.2 → phys s2.1.2 = phys s1.1.2 → tlb_maps s2.2 page f w →
    w = writable (r_permissions r) ∨ tlb_stays = false ∧ w = true →
    wp safe_oom (on_pt (on_stats (vmstats_inc VMSTAT_ELF_FILE_READ));;
       on_pt (on_stats (vmstats_inc VMSTAT_PAGE_FAULT_DISK))) s2 Q E) as Hrest.
  { intros s2 w Hs2 Hp2 Ht2 Hph2 Hmaps Hst. wp_steps.
    apply (vm_stats_other_ok _ (strict_after strict r page) pt m1); [done|done|].
    intros s3 Hs3 (Hp3 & Ht3 & Hph3) Hmmu3. wp_steps.
    apply (vm_stats_other_ok _ (strict_after strict r page) pt m1); [done|done|].
    intros s4 Hs4 (Hp4 & Ht4 & Hph4) Hmmu4.
    apply (HQ s4 m1 w); try done; [|congruence| |by rewrite Hmmu4, Hmmu3].
    - rewrite <- Hcpu1. cpu_simpl. unfold pair_cpu_of. congruence.
    - intros v. by rewrite Ht4, Ht3, Ht2. }
  pose proof (vw_tlb _ _ _ _ Hs1) as Htlb. destruct (list_find _ _) as [[i e]|] eqn:Hfind.
  - apply probe_found in Hfind as [Hi He];
      [|done|intros j e' Hj; by destruct (tw_entries _ _ _ _ Htlb j e' Hj)].
    destruct (Z.leb_spec 0 (Z.of_nat i)); [|lia].
    pose proof (zlookup_lt_Some _ _ _ Hi) as Hir. rewrite (tw_len _ _ _ _ Htlb) in Hir.
    apply (tlb_update_ok _ (strict_after strict r page) (λ x, strict x ∧ x ≠ page) pt m1 _
      f (r_permissions r) _ (r_permissions r)); try done.
    + intros x [? _] ?. done.
    + apply (page_word_change f PAGE_RW); (done || apply is_perm_RW).
    + intros j e' Hj He'. eapply (tw_nodup _ _ _ _ Htlb); [done..|]. congruence.
    + intros s2 Hs2 Heq2 Hmmu2. apply (Hrest _ (writable (r_permissions r)));
        [done|by rewrite Heq2..| |by left].
      rewrite Hmmu2. apply installed_maps; [apply Htlb|done].
  - pose proof (probe_missing _ _ Hfind) as Hmiss.
    change (0 <=? -1) with false. cbv iota beta. wp_steps.
    assert (strict_after strict r page page →
      writable PAGE_RW = writable (r_permissions r)) as Hlost.
    { intros [_ [?|[Hst|Hwr]]]; [done| |by rewrite Hwr].
      destruct Hmiss. rewrite Hmmu1. by apply Hin. }
    apply (tlb_fault_ok _ (strict_after strict r page) (λ x, strict x ∧ x ≠ page) pt m1 _
      f (r_permissions r) _ PAGE_RW); try (done || apply is_perm_RW).
    + intros x [? _] ?. done.
    + intros s2 Hs2 (Hp2 & Ht2 & Hph2) Hmmu2. apply wp_ret.
      apply (Hrest _ (writable PAGE_RW)); [done..| |].
      2: { right. split; [|done]. apply not_true_is_false. intros Hst. destruct Hmiss. rewrite Hmmu1. by apply Hin. }
      rewrite Hmmu2. apply installed_maps; apply Htlb.
Qed.

Lemma fault_load_ok strict m s r v (Q : () → VM P → Prop) E :
  let page := page_of v in
  vm_wf strict pt m s → region_ok r → r_vaddr r ≤ v < r_vaddr r + r_memsize r →
  walk (tables s.1.2) pt page = None → ¬ in_tlb s.2 page →
  (∀ f s', page_loaded strict r page m s f s' → entry_loaded r page f s' →
     (read_ok (as_v as_) → r_offset r + r_filesize r + page_shift r page ≤ file_size (as_v as_) → bytes_loaded r page f s') → Q tt s') →
  wp safe_oom (fault_load t_vmspace as_ r page) s Q E.
Proof.
  intros page Hs Hr Hv Hnone Hnot HQ.
  destruct (fault_page_range r v Hr Hv) as (Hu & ? & ? & _).
  pose proof (page_of_aligned v Hu) as HFa. fold page in HFa.
  pose proof (page_load_eq r v Hr Hv) as Hld. fold page in Hld.
  destruct (load_in_page r v Hr Hv) as (Hinp & Hdiv & Hlt). fold page in Hdiv, Hinp.
  set (b := load_from r v) in *. set (n := Z.min _ _ - b) in *.
  unfold fault_load. wp_steps.
  apply (vm_create_ok pt t_vmspace strict m); [done|apply HFa|done|].
  intros f s1 m1 Hf Hfresh Hs1 Hmmu1 Hcpu1 Hph1 Hw1. wp_steps.
  pose proof (store_walk_eq pt (tables s.1.2) page f PAGE_RW) as HwF. rewrite <- Hw1 in HwF.
  apply (tlb_fault_ok _ strict strict pt m1 _ f PAGE_RW _ PAGE_RW);
    try (done || apply is_perm_RW); [by right|by rewrite Hmmu1|].
  intros s2 Hs2 (Heq2 & Ht2 & Hph2) Hmmu2. wp_steps.
  eapply wp_mono; [apply (load_segment_ok pt t_vmspace strict m1 s2 f PAGE_RW)| |done];
    try (done || apply is_perm_RW);
    [rewrite Hld, Ht2; cbn [ld_vaddr]; by rewrite (walk_page pt _ _ page)|by rewrite Hld|
     rewrite Hld; cbn [ld_filesize ld_memsize]; destruct Hr; unfold n, b, load_from; lia|
     by rewrite Hld|].
  intros _ s3 [Hk Hbytes]. destruct (uk_wf _ _ _ _ _ _ _ Hk) as [m3 Hs3]. wp_steps.
  apply (load_done_ok strict m3 s3 r page f); try (done || apply Hr).
  { by right. }
  { by rewrite (uk_walk _ _ _ _ _ _ _ Hk), Ht2. }
  { intros Hst. rewrite (uk_tlb _ _ _ _ _ _ _ Hk Hst), Hmmu2. pose proof (vw_tlb _ _ _ _ Hs1).
    destruct (installed_maps s1.2 (next_tlb_idx s1.2) page f (writable PAGE_RW) (next_idx s1.2))
      as [k Hk']; [by eapply tw_len|by eapply tw_next|]. by eexists _, _. }
  intros s4 m4 w Hs4 Hcpu4 Hph4 Hw4 Hmaps Hstr. apply (HQ f); [split|by exists w|].
  - by exists m4.
  - rewrite Hcpu4, (uk_cpu _ _ _ _ _ _ _ Hk), <- Hcpu1. cpu_simpl. unfold pair_cpu_of. congruence.
  - done.
  - intros v'. rewrite Hw4. case_decide as Hd.
    + unfold store_walk. by rewrite decide_True by (by apply page_up_low).
    + rewrite store_walk_other by done.
      rewrite (uk_walk _ _ _ _ _ _ _ Hk), Ht2, Hw1. by apply store_walk_other.
  - intros v' g perm Hv' Hg Hp Hw. rewrite Hph4.
    assert (v' / PAGE_SIZE ≠ page / PAGE_SIZE) as Hne.
    { intros Heq. rewrite (walk_page pt _ _ page Heq) in Hw. congruence. }
    rewrite (uk_bytes _ _ _ _ _ _ _ Hk v' g perm), Hph2, Hph1; try done.
    + by rewrite Ht2, Hw1, store_walk_other.
    + rewrite Hld. cbn [ld_vaddr ld_memsize]. intros Hin. apply Hne. rewrite <- Hdiv.
      destruct (in_page_div b n (v' - b) Hinp) as [Hd _]; [lia|].
      by replace (b + (v' - b)) with v' in Hd by lia.
  - intros Hro Hlen v' Hv' Hpv. rewrite Hph4. apply (loaded_bytes s3 r v' v f); try done.
    apply Hbytes; [done|]. by apply load_in_file.
Qed.

(** ** Properties *)

Lemma vm_wf_spl strict m s k :
  vm_wf strict pt m s → 0 ≤ k → vm_wf strict pt m (set_cpu (spl_set k (cpu_of s)) s).
Proof.
  intros [Hown ? ? ? ? ?] Hk. split; try done. by apply (pages_spl s.1.1 m k).
Qed.

Lemma vm_wf_running strict m s : vm_wf strict pt m s → running (cpu_of s).
Proof. intros [Hown _ _ _ _ _]. by eapply (pages_running s.1.1). Qed.

(** Leaving [vm_fault]: the level is as it was. *)
Lemma restore_level s s' :
  cpu_wf (cpu_of s) → cpu_of s' = spl_set SPL_HIGH (cpu_of s) →
  cpu_of (set_cpu (spl_set (curspl (cpu_of s)) (cpu_of s')) s') = cpu_of s.
Proof. intros Hc Hs'. rewrite cpu_of_set, Hs'. by apply spl_set_back. Qed.

(** The first region that contains the address *)
Lemma find_region_Some v rs r :
  Forall region_ok rs → find_region v rs = Some r →
  region_ok r ∧ r_vaddr r ≤ v < r_vaddr r + r_memsize r.
Proof.
  intros Hrs Hfind. apply find_some in Hfind as [Hin Hb]. apply list_elem_of_In in Hin.
  rewrite list.Forall_forall in Hrs. pose proof (Hrs r Hin) as Hr. split; [done|].
  destruct Hr. rewrite u32_small in Hb by (unfold USERTOP, MIPS_KSEG0 in *; lia). lia.
Qed.

Definition valid_type (faulttype : Z) : Prop :=
  faulttype = VM_FAULT_READ ∨ faulttype = VM_FAULT_WRITE ∨ faulttype = VM_FAULT_READONLY.

Lemma valid_type_test faulttype :
  valid_type faulttype →
  negb ((faulttype =? VM_FAULT_READONLY) || (faulttype =? VM_FAULT_READ)
        || (faulttype =? VM_FAULT_WRITE)) = false.
Proof. by intros [-> |[-> | ->]]. Qed.

(** Entering [vm_fault] with a valid type and an address space *)
Lemma vm_fault_enter strict m s faulttype v Fl (Q : Z → VM P → Prop) E :
  vm_wf strict pt m s → valid_type faulttype → t_vmspace ≠ 0 → is_u32 v →
  (∀ s1, vm_wf strict pt m s1 → cpu_of s1 = spl_set SPL_HIGH (cpu_of s) →
     s1.1.2 = s.1.2 → s1.2 = s.2 →
     let paddr := default PAGE_FREE (walk (tables s.1.2) pt (page_of v)) in
     wp Fl
       (match (if is_free paddr then find_region v (as_regions as_) else None) with
        | Some r => fault_load t_vmspace as_ r (page_of v);; splx (curspl (cpu_of s));; mret 0
        | None =>
          paddr ←
            (if is_free paddr || in_swap paddr then
               on_pt (pt_get_paddr t_vmspace pt (page_of v) 1 PAGE_RW)
             else
               on_pt (on_stats (vmstats_inc VMSTAT_TLB_RELOAD));;
               mret paddr);
          if negb (fault_allowed faulttype paddr) then
            splx (curspl (cpu_of s));; mret EFAULT
          else tlb_fault (page_of v) paddr;; splx (curspl (cpu_of s));; mret 0
        end) s1 Q E) →
  wp Fl (vm_fault t_vmspace as_ faulttype v) s Q E.
Proof.
  intros Hs Hft Ht Hv HQ. unfold vm_fault, splhigh. wp_steps. apply wp_splx.
  rewrite valid_type_test by done. destruct (Z.eqb_spec t_vmspace 0); [done|]. wp_steps.
  assert (vm_wf strict pt m (set_cpu (spl_set SPL_HIGH (cpu_of s)) s)) as Hs1
    by (by apply vm_wf_spl).
  eapply (vm_lookup_ok pt t_vmspace _ strict m); [done|by apply page_of_aligned|].
  apply HQ; [done| |done|done]. apply cpu_of_set.
Qed.

(** C25: a fault on a page of the program that is not in memory yet. [vm_fault] returns 0. It
    gives the page a frame that was free, with the permissions of the region, and enters it in the
    TLB; it changes no other page and leaves the interrupt level as it was. The frame has the
    bytes of the program file for that part of the region, and zeros behind the file's part of
    the region, on three conditions. The reads of the file do not fail: the code ignores the
    error of [load_segment] and returns 0 all the same. The file has the bytes that are asked for.
    And the page is the first of its region, or the region starts on a page boundary:
    otherwise the bytes are those that are [page_shift] bytes further on in the file. The entry in
    the TLB allows writes as the region does, unless another thread may run while the file is
    read: then it may allow writes to a page that is read-only. Memory may run out. *)
Theorem vm_fault_loads strict m s faulttype v r :
  let page := page_of v in
  vm_wf strict pt m s → valid_type faulttype → t_vmspace ≠ 0 → is_u32 v →
  Forall region_ok (as_regions as_) → find_region v (as_regions as_) = Some r →
  walk (tables s.1.2) pt page = None → ¬ in_tlb s.2 page →
  wp safe_oom (vm_fault t_vmspace as_ faulttype v) s
    (λ res s', res = 0 ∧ ∃ f, page_loaded strict r page m s f s' ∧
       (∃ w, tlb_maps s'.2 page f w ∧ (w = writable (r_permissions r) ∨ tlb_stays = false ∧ w = true)) ∧
       (read_ok (as_v as_) → r_offset r + r_filesize r + page_shift r page ≤ file_size (as_v as_) →
        ∀ v', r_vaddr r ≤ v' < r_vaddr r + r_memsize r → v' / PAGE_SIZE = page / PAGE_SIZE →
          phys s'.1.2 (f + v' `mod` PAGE_SIZE) =
            segment_byte r (λ o, file_byte (as_v as_) (o + page_shift r page)) v')) noerr.
Proof.
  intros page Hs Hft Ht Hv Hrs Hfind Hnone Hnot. unfold page in *.
  destruct (find_region_Some v _ r Hrs Hfind) as [Hr Hvr].
  apply (vm_fault_enter strict m); [done..|]. intros s1 Hs1 Hcpu1 Hm1 Hmmu1.
  rewrite Hnone. cbn [default]. change (is_free PAGE_FREE) with true. cbv zeta iota. rewrite Hfind.
  wp_steps. apply (fault_load_ok strict m); [done..|by rewrite Hm1|by rewrite Hmmu1|].
  intros f s2 Hpl Htlb Hb. wp_steps. apply wp_splx. wp_steps. split; [done|]. exists f. split; [|by split].
  destruct Hpl as [[m' Hwf] Hcpu Hf Hw Ho]. rewrite Hm1 in *. split; try done.
  - exists m'. apply vm_wf_spl; [done|]. apply (wf_spl _ (proj1 (vm_wf_running _ _ _ Hs))).
  - apply restore_level; [apply (vm_wf_running _ _ _ Hs)|congruence].
Qed.

(** The processor raises a TLB-modify fault for a page in the TLB, the others for
    a page that is not there. *)
Definition raised strict (faulttype page : Z) (t : mmu) : Prop :=
  ¬ in_tlb t page ∨
  faulttype = VM_FAULT_READONLY ∧ strict page ∧ ∃ f, page_aligned f ∧ tlb_maps t page f false.

(** Which accesses the permissions of a page allow *)
Definition allows (faulttype perm : Z) : bool :=
  if faulttype =? VM_FAULT_READ then readable perm
  else if faulttype =? VM_FAULT_WRITE then writable perm
  else writable perm && readable perm.

Lemma fault_allowed_word faulttype r f perm :
  valid_type faulttype → page_aligned f → is_perm perm → page_word r f perm →
  fault_allowed faulttype r = allows faulttype perm.
Proof.
  intros Hft Hf Hp Hr. unfold fault_allowed, allows.
  rewrite (page_word_low f perm Hf Hp r PAGE_R_MASK), (page_word_low f perm Hf Hp r PAGE_W_MASK)
    by done.
  rewrite land_readable, land_writable by done. by destruct Hft as [-> |[-> | ->]].
Qed.

(** A fault on a page that is mapped. If the permissions allow the access the
    page is entered in the TLB, in place of the entry whose turn it is; if not the
    result is EFAULT and the TLB is as before. Page tables, memory and the
    interrupt level are as before in both cases, and no page is ever twice in the
    TLB. *)
Theorem vm_fault_mapped strict m s faulttype v f perm :
  vm_wf strict pt m s → valid_type faulttype → t_vmspace ≠ 0 → is_u32 v →
  page_aligned f → is_perm perm →
  walk (tables s.1.2) pt (page_of v) = Some (f + perm) →
  raised strict faulttype (page_of v) s.2 →
  wp safe (vm_fault t_vmspace as_ faulttype v) s
    (λ res s', vm_wf strict pt m s' ∧ cpu_of s' = cpu_of s ∧
       tables s'.1.2 = tables s.1.2 ∧ phys s'.1.2 = phys s.1.2 ∧
       if allows faulttype perm then
         res = 0 ∧ s'.2 = install (next_tlb_idx s.2)
           (page_of v, tlb_lo f (writable perm)) (next_idx s.2) s.2
       else res = EFAULT ∧ s'.2 = s.2) noerr.
Proof.
  intros Hs Hft Ht Hv Hf Hp Hw Hraised.
  apply (vm_fault_enter strict m); [done..|]. intros s1 Hs1 Hcpu1 Hm1 Hmmu1.
  rewrite Hw. cbn [default]. assert (page_word (f + perm) f perm) as Hword by (by left).
  rewrite (page_word_free f perm), (page_word_swap f perm) by done. cbv zeta iota.
  cbn [orb]. wp_steps. apply (vm_stats_other_ok _ strict pt m); [done|done|].
  intros s2 Hs2 (Hp2 & Ht2 & Hph2) Hmmu2. wp_steps.
  pose proof (vm_wf_running _ _ _ Hs) as [Hcwf _]. pose proof (wf_spl _ Hcwf) as Hspl.
  assert (cpu_of s2 = spl_set SPL_HIGH (cpu_of s)) as Hcpu2.
  { rewrite <- Hcpu1. cpu_simpl. unfold pair_cpu_of. by rewrite Hp2. }
  rewrite (fault_allowed_word _ _ f perm) by done. destruct (allows faulttype perm) eqn:Hal;
    cbn [negb]; cbv iota; wp_steps.
  - apply (tlb_fault_ok _ strict strict pt m _ f perm _ perm); try done.
    + by apply page_of_aligned.
    + by rewrite Ht2, Hm1.
    + rewrite Hmmu2, Hmmu1. destruct Hraised as [|(-> & Hst & g & Hg & i & Hi)]; [done|exfalso].
      pose proof (tw_entries _ _ _ _ (vw_tlb _ _ _ _ Hs) i _ Hi) as [_ He].
      destruct He as (g' & k & w & Hg' & Hk & Hwk & Hlo & Hw'); [by apply tlb_lo_valid|].
      simpl in *. rewrite Hw in Hwk. injection Hwk as Hwk.
      destruct (entry_inj f perm g' k) as [<- <-]; [done..|].
      unfold allows in Hal. simpl in Hal. rewrite <- (Hw' Hst) in Hal.
      apply page_aligned_eq in Hg as (a & ? & ->), Hf as (b & ? & ->).
      unfold tlb_lo, TLBLO_VALID, TLBLO_DIRTY in Hlo. destruct w; [lia|done].
    + intros s3 Hs3 (Hp3 & Ht3 & Hph3) Hmmu3. wp_steps. apply wp_splx. wp_steps.
      split; [by apply vm_wf_spl|]. split; [apply restore_level; [done|]|].
      { rewrite <- Hcpu2. cpu_simpl. unfold pair_cpu_of. by rewrite Hp3. }
      split; [simpl; congruence|]. split; [simpl; congruence|]. split; [done|].
      simpl. by rewrite Hmmu3, Hmmu2, Hmmu1.
  - apply wp_splx. wp_steps. split; [by apply vm_wf_spl|].
    split; [by apply restore_level|]. split; [simpl; congruence|]. split; [simpl; congruence|].
    split; [done|]. simpl. congruence.
Qed.

Lemma vm_fault_grows_ok strict m s faulttype v :
  vm_wf strict pt m s → valid_type faulttype → t_vmspace ≠ 0 → is_u32 v →
  find_region v (as_regions as_) = None →
  walk (tables s.1.2) pt (page_of v) = None → ¬ in_tlb s.2 (page_of v) →
  wp safe_oom (vm_fault t_vmspace as_ faulttype v) s
    (λ res s', res = 0 ∧ ∃ f m', vm_wf strict pt m' s' ∧ cpu_of s' = cpu_of s ∧
       page_aligned f ∧ m !! kaddr f = None ∧ phys s'.1.2 = phys s.1.2 ∧
       tlb_maps s'.2 (page_of v) f true ∧
       ∀ v', walk (tables s'.1.2) pt v' =
         if decide (v' / PAGE_SIZE = page_of v / PAGE_SIZE) then Some (f + PAGE_RW)
         else walk (tables s.1.2) pt v') noerr.
Proof.
  intros Hs Hft Ht Hv Hfind Hnone Hnot.
  apply (vm_fault_enter strict m); [done..|]. intros s1 Hs1 Hcpu1 Hm1 Hmmu1.
  rewrite Hnone. cbn [default]. change (is_free PAGE_FREE) with true. cbv zeta iota.
  rewrite Hfind. cbn [orb]. wp_steps. pose proof (page_of_aligned v Hv) as HFa.
  apply (vm_create_ok pt t_vmspace strict m); [done|apply HFa|by rewrite Hm1|].
  intros f s2 m2 Hf Hfresh Hs2 Hmmu2 Hcpu2 Hph2 Hw2. wp_steps.
  rewrite (fault_allowed_word _ _ f PAGE_RW) by (done || apply is_perm_RW || by right).
  replace (allows faulttype PAGE_RW) with true by (by destruct Hft as [-> |[-> | ->]]).
  cbn [negb]. cbv iota. wp_steps. rewrite Hm1 in Hw2.
  apply (tlb_fault_ok _ strict strict pt m2 _ f PAGE_RW _ PAGE_RW);
    try (done || apply is_perm_RW); [by rewrite Hw2, store_walk_eq|by right|by rewrite Hmmu2, Hmmu1|].
  intros s3 Hs3 (Hp3 & Ht3 & Hph3) Hmmu3. wp_steps. apply wp_splx. wp_steps.
  pose proof (vm_wf_running _ _ _ Hs) as [Hcwf _]. pose proof (wf_spl _ Hcwf) as Hspl.
  split; [done|]. exists f, m2. split; [by apply vm_wf_spl|].
  split; [apply restore_level; [done|]; rewrite <- Hcpu1, <- Hcpu2; cpu_simpl;
    unfold pair_cpu_of; by rewrite Hp3|].
  split; [done|]. split; [done|]. split; [simpl; by rewrite Hph3, Hph2, Hm1|]. split.
  - simpl. rewrite Hmmu3. apply installed_maps; apply (vw_tlb _ _ _ _ Hs2).
  - intros v'. simpl. rewrite Ht3, Hw2. case_decide as Hd.
    + unfold store_walk. by rewrite decide_True by (by apply page_up_low).
    + by apply store_walk_other.
Qed.

(** A fault on an address in no region, on a page that is not mapped: whatever
    the address, the page gets a frame that was free, readable and writable, and
    enters the TLB; nothing tells the process that it has no such memory. *)
Theorem vm_fault_grows strict m s faulttype v :
  vm_wf strict pt m s → valid_type faulttype → t_vmspace ≠ 0 → is_u32 v →
  find_region v (as_regions as_) = None →
  walk (tables s.1.2) pt (page_of v) = None → ¬ in_tlb s.2 (page_of v) →
  wp safe_oom (vm_fault t_vmspace as_ faulttype v) s
    (λ res s', res = 0 ∧ ∃ f m', vm_wf strict pt m' s' ∧ cpu_of s' = cpu_of s ∧
       page_aligned f ∧ m !! kaddr f = None ∧ phys s'.1.2 = phys s.1.2 ∧
       tlb_maps s'.2 (page_of v) f true ∧
       ∀ v', walk (tables s'.1.2) pt v' =
         if decide (v' / PAGE_SIZE = page_of v / PAGE_SIZE) then Some (f + PAGE_RW)
         else walk (tables s.1.2) pt v') noerr.
Proof. apply vm_fault_grows_ok. Qed.

(** The two early returns of [vm_fault]. A fault of an unknown type yields EINVAL
    and changes nothing. Without an address space the result is EFAULT, but
    interrupts stay off: the level is not restored. *)
Theorem vm_fault_rejects s faulttype v :
  cpu_wf (cpu_of s) →
  (¬ valid_type faulttype → vm_fault t_vmspace as_ faulttype v s = Ret EINVAL s) ∧
  (valid_type faulttype → t_vmspace = 0 →
   vm_fault t_vmspace as_ faulttype v s
     = Ret EFAULT (set_cpu (spl_set SPL_HIGH (cpu_of s)) s)).
Proof.
  intros Hc. split.
  - intros Hft. unfold vm_fault, splhigh, splx, get, put, mbind, M_bind, mret, M_ret.
    cbv beta zeta. cbn [mbind M_bind].
    assert (negb ((faulttype =? VM_FAULT_READONLY) || (faulttype =? VM_FAULT_READ)
      || (faulttype =? VM_FAULT_WRITE)) = true) as ->.
    { unfold valid_type in Hft. destruct (Z.eqb_spec faulttype VM_FAULT_READONLY); [tauto|].
      destruct (Z.eqb_spec faulttype VM_FAULT_READ); [tauto|].
      destruct (Z.eqb_spec faulttype VM_FAULT_WRITE); [tauto|done]. }
    f_equal. rewrite cpu_of_set, set_cpu_set, spl_set_back, set_cpu_of by done. done.
  - intros Hft ->. unfold vm_fault, splhigh, splx, get, put, mbind, M_bind, mret, M_ret.
    cbv beta zeta. by rewrite valid_type_test.
Qed.
End faults.
