(* ===== verification/VmExample.v ===== *)
(** * A program in memory

    An implementation of the interface [UserIO] of Vm.v: files are functions from
    offsets to bytes, and stores to user memory go where the page table of the
    current thread leads. With [flush] the TLB is emptied meanwhile, as it is when
    another process runs. It shows that the interface can be met and runs
    [vm_fault] in the examples. *)

From Stdlib Require Import ZArith Lia.
From stdpp Require Import base list gmap numbers.
From S2P Require Import Prelude Cpu Coremap Uio KPages Frames VmStats Pt PtProof PtOps.
From S2P Require Import PtSpec Loadelf Vm VmProof VmFault.

Local Open Scope Z_scope.

Section memory_files.
Context {P : Type} `{!HasCpu P} `{!KPages P} `{!KPagesLaws P} `{!Frames P} `{!FramesLaws P}.
Context (pt : Z) (size : Z) (contents : Z → Z) (flush : bool).
Implicit Types s : VM P.

(** [n] bytes to the user address [base] *)
Definition store_user (base n : Z) (byte : Z → Z) : M (VM P) () :=
  modify (λ s,
    let f := Z.land (default 0 (walk (tables s.1.2) pt base)) PAGE_FRAME in
    let x0 := f + base `mod` PAGE_SIZE in
    ((s.1.1, MkVm (tables s.1.2) (stats s.1.2)
       (λ x, if (x0 <=? x) && (x <? x0 + n) then byte (x - x0) else phys s.1.2 x)),
     if flush then MkMmu tlb_flushed (next_tlb_idx s.2) else s.2)).

Definition memory_io : UserIO P :=
  {| vop_read v u :=
       let n := Z.min (uio_resid u) (Z.max 0 (size - uio_offset u)) in
       store_user (iov_base (uio_iovec u)) n (λ k, contents (uio_offset u + k));;
       mret (0, advance n u);
     uiomovezeros n u :=
       store_user (iov_base (uio_iovec u)) n (λ _, 0);;
       mret (0, advance n u) |}.

Lemma store_user_ok strict m s base n n' byte f perm (Q : () → VM P → Prop) E :
  vm_wf strict pt m s → in_page base n' → 0 ≤ n ≤ n' →
  page_aligned f → is_perm perm → walk (tables s.1.2) pt base = Some (f + perm) →
  (∀ s', user_kept (negb flush) strict pt base n' s s' → user_bytes s' f base n byte → Q tt s') →
  wp safe_oom (store_user base n byte) s Q E.
Proof.
  intros Hs Hin Hn Hf Hp Hw HQ. unfold store_user. wp_steps. rewrite Hw. cbn [default].
  rewrite (page_word_frame f perm) by (done || by left). apply HQ.
  - split; cbn [fst snd tables phys].
    + exists m. destruct Hs as [? ? ? ? ? Htlb]. split; try done. cbn [fst snd tables].
      destruct flush; [|done]. apply tlb_wf_flushed, Htlb.
    + done.
    + done.
    + by destruct flush.
    + intros v g k Hv Hg Hk Hwv Hout. destruct (_ && _) eqn:Hb; [exfalso|done].
      apply andb_true_iff in Hb as [Hb1%Z.leb_le Hb2%Z.ltb_lt].
      pose proof (Z.mod_pos_bound v PAGE_SIZE eq_refl). destruct Hin as (? & _ & ?).
      pose proof (Z.mod_pos_bound base PAGE_SIZE eq_refl).
      assert (g = f) as ->.
      { apply page_aligned_eq in Hg as (a & ? & ->), Hf as (b & ? & ->).
        unfold PAGE_SIZE in *. lia. }
      pose proof (walk_frame_inj pt _ m v base f k perm (vw_pt _ _ _ _ Hs) Hf Hk Hp Hwv Hw).
      unfold PAGE_SIZE in *. Z.div_mod_to_equations. lia.
  - intros k Hk. cbn [fst snd phys]. destruct (_ && _) eqn:Hb; [f_equal; lia|exfalso].
    apply andb_false_iff in Hb as [?%Z.leb_gt|?%Z.ltb_ge]; lia.
Qed.

#[refine] Definition memory_io_laws : UserIOLaws (UserIO0 := memory_io) P pt :=
  {| file_size _ := size; file_byte _ := contents; read_ok _ := True; tlb_stays := negb flush |}.
Proof.
  - intros strict m s v u f perm base n Hs _ _ Hlen Hin Hf Hp Hwr Hw. cbn [vop_read memory_io].
    wp_steps. apply (store_user_ok strict m s _ _ (uio_resid u) _ f perm); try done.
    destruct Hin as (_ & ? & _). unfold n. lia.
  - intros strict m s n u f perm base Hs _ _ Hlen Hin Hf Hp Hwr Hw. cbn [uiomovezeros memory_io].
    wp_steps. apply (store_user_ok strict m s _ _ n _ f perm); try done.
    destruct Hin as (_ & ? & _). lia.
Defined.
End memory_files.

(** ** Examples *)

Definition everywhere (x : Z) : Prop := True.

(** A new, empty page table in the booted kernel *)
Definition ex_space : VM CM :=
  (match pt_create 0 ex_vm with Ret _ s => s | _ => ex_vm end, MkMmu tlb_flushed 0).

Definition ex_pages : gmap Z Z := <[ex_src := 1]> ∅.

Lemma ex_space_wf : vm_wf everywhere ex_src ex_pages ex_space.
Proof.
  assert (wp safe_oom (pt_create 0) ex_vm
    (λ a s', vm_wf everywhere a (<[a := 1]> ∅) (s', MkMmu tlb_flushed 0)) noerr) as Hwp.
  { unfold ex_vm.
    apply (pt_create_ok _ _ _ _ _ ∅); [apply ex_pages_own|intros a l; by rewrite lookup_empty|].
    intros a p ts _ Hinv Hw _ Hsub Hown _. split; simpl.
    - done.
    - apply ex_stats_wf.
    - done.
    - done.
    - intros v _ _. unfold slot_perm. by rewrite Hsub.
    - by apply tlb_wf_flushed. }
  assert (∃ s', pt_create 0 ex_vm = Ret ex_src s') as [s' Hrun]
    by (eexists; vm_compute; reflexivity).
  pose proof (wp_returns _ _ _ _ _ _ _ Hwp Hrun) as Hpost.
  unfold ex_space. by rewrite Hrun.
Qed.

(** The text of a program: 0x1400 bytes at offset 0x1000 of a file, in a region of
    0x1800 bytes that may not be written *)
Definition ex_text : region := MkRegion 0x1000 0x1800 0x1400 0x400000 (Z.lor PAGE_R_MASK PAGE_X_MASK).
Definition ex_program : addrspace := MkAs ex_src 0x80005000 [ex_text].
Definition ex_file (x : Z) : Z := x `mod` 251.

Lemma ex_text_ok : region_ok ex_text.
Proof. split; try done. by exists 6. Qed.

Lemma ex_space_unmapped v : walk (tables ex_space.1.2) ex_src v = None.
Proof.
  assert (∃ s', pt_create 0 ex_vm = Ret ex_src s' ∧ ∀ v, walk (tables s'.2) ex_src v = None)
    as (s' & Hrun & Hw).
  { assert (wp safe_oom (pt_create 0) ex_vm (λ a s', ∀ v, walk (tables s'.2) a v = None) noerr)
      as Hwp.
    { unfold ex_vm. apply (pt_create_ok _ _ _ _ _ ∅);
        [apply ex_pages_own|intros a l; by rewrite lookup_empty|]. intros; done. }
    assert (∃ s', pt_create 0 ex_vm = Ret ex_src s') as [s' Hrun]
      by (eexists; vm_compute; reflexivity).
    exists s'. split; [done|]. exact (wp_returns _ _ _ _ _ _ _ Hwp Hrun). }
  unfold ex_space. rewrite Hrun. apply Hw.
Qed.

(** The second page of the text is not a whole page. *)
Lemma vm_fault_loads_witness :
  wp safe_oom (vm_fault (UserIO0 := memory_io ex_src 0x3000 ex_file false) 1 ex_program
      VM_FAULT_READ 0x401234) ex_space
    (λ res s', res = 0 ∧ ∃ f,
       page_loaded (UserIO0 := memory_io ex_src 0x3000 ex_file false)
         (UserIOLaws0 := memory_io_laws ex_src 0x3000 ex_file false) ex_program
         everywhere ex_text (page_of 0x401234) ex_pages ex_space f s' ∧
       (∃ w, tlb_maps s'.2 (page_of 0x401234) f w ∧ (w = writable (r_permissions ex_text) ∨ true = false ∧ w = true)) ∧
       (True → r_offset ex_text + r_filesize ex_text + page_shift ex_text (page_of 0x401234) ≤ 0x3000 →
        ∀ v', r_vaddr ex_text ≤ v' < r_vaddr ex_text + r_memsize ex_text → v' / PAGE_SIZE = page_of 0x401234 / PAGE_SIZE →
          phys s'.1.2 (f + v' `mod` PAGE_SIZE) =
            segment_byte ex_text (λ o, ex_file (o + page_shift ex_text (page_of 0x401234))) v')) noerr.
Proof.
  apply (vm_fault_loads (UserIO0 := memory_io ex_src 0x3000 ex_file false) 1 ex_program
    (UserIOLaws0 := memory_io_laws ex_src 0x3000 ex_file false)).
  - exact ex_space_wf.
  - by left.
  - done.
  - done.
  - constructor; [exact ex_text_ok|constructor].
  - reflexivity.
  - exact (ex_space_unmapped _).
  - by apply not_in_flushed.
Defined.

Lemma vm_fault_grows_witness :
  wp safe_oom (vm_fault (UserIO0 := memory_io ex_src 0x3000 ex_file false) 1 ex_program
      VM_FAULT_WRITE 0x7ffffff0) ex_space
    (λ res s', res = 0 ∧ ∃ f m', vm_wf everywhere ex_src m' s' ∧ cpu_of s' = cpu_of ex_space ∧
       page_aligned f ∧ ex_pages !! kaddr f = None ∧ phys s'.1.2 = phys ex_space.1.2 ∧
       tlb_maps s'.2 (page_of 0x7ffffff0) f true ∧
       ∀ v', walk (tables s'.1.2) ex_src v' =
         if decide (v' / PAGE_SIZE = page_of 0x7ffffff0 / PAGE_SIZE) then Some (f + PAGE_RW)
         else walk (tables ex_space.1.2) ex_src v') noerr.
Proof.
  apply (vm_fault_grows (UserIO0 := memory_io ex_src 0x3000 ex_file false) 1 ex_program).
  - exact ex_space_wf.
  - right. by left.
  - done.
  - done.
  - reflexivity.
  - exact (ex_space_unmapped _).
  - by apply not_in_flushed.
Defined.

(** The program has run into its text and its stack; then another one ran. *)
Definition ex_run : M (VM CM) () :=
  vm_fault (UserIO0 := memory_io ex_src 0x3000 ex_file false) 1 ex_program
    VM_FAULT_WRITE 0x7ffffff0;;
  modify (λ s, (s.1, MkMmu tlb_flushed (next_tlb_idx s.2))).

Definition ex_ran : VM CM := match ex_run ex_space with Ret _ s => s | _ => ex_space end.

Lemma ex_ran_wf :
  ∃ m f, vm_wf everywhere ex_src m ex_ran ∧ page_aligned f ∧
    walk (tables ex_ran.1.2) ex_src 0x7ffff000 = Some (f + PAGE_RW) ∧
    ¬ in_tlb ex_ran.2 0x7ffff000.
Proof.
  assert (wp safe_oom ex_run ex_space (λ _ s', ∃ m f, vm_wf everywhere ex_src m s' ∧
    page_aligned f ∧ walk (tables s'.1.2) ex_src 0x7ffff000 = Some (f + PAGE_RW) ∧
    ¬ in_tlb s'.2 0x7ffff000) noerr) as Hwp.
  { unfold ex_run. wp_steps.
    eapply wp_mono; [apply (vm_fault_grows_ok (UserIO0 := memory_io ex_src 0x3000 ex_file false)
      1 ex_program everywhere ex_pages)| |done];
      [apply ex_space_wf|right; by left|done|done|done|apply ex_space_unmapped|
       by apply not_in_flushed|].
    intros res s' (_ & f & m' & Hwf & _ & Hf & _ & _ & _ & Hw). wp_steps. exists m', f.
    destruct Hwf as [? ? ? ? ? Htlb]. split; [split; try done|].
    - apply tlb_wf_flushed. apply Htlb.
    - split; [done|]. cbn [fst snd]. rewrite Hw. split; [done|]. by apply not_in_flushed. }
  assert (∃ s', ex_run ex_space = Ret tt s') as [s' Hrun] by (eexists; vm_compute; reflexivity).
  pose proof (wp_returns _ _ _ _ _ _ _ Hwp Hrun) as Hpost.
  unfold ex_ran. by rewrite Hrun.
Qed.

#[local] Opaque ex_ran.

Lemma vm_fault_mapped_witness :
  ∃ m f, wp safe (vm_fault (UserIO0 := memory_io ex_src 0x3000 ex_file false) 1 ex_program
      VM_FAULT_READ 0x7ffffff0) ex_ran
    (λ res s', vm_wf everywhere ex_src m s' ∧ cpu_of s' = cpu_of ex_ran ∧
       tables s'.1.2 = tables ex_ran.1.2 ∧ phys s'.1.2 = phys ex_ran.1.2 ∧
       if allows VM_FAULT_READ PAGE_RW then
         res = 0 ∧ s'.2 = install (next_tlb_idx ex_ran.2)
           (page_of 0x7ffffff0, tlb_lo f (writable PAGE_RW)) (next_idx ex_ran.2) ex_ran.2
       else res = EFAULT ∧ s'.2 = ex_ran.2) noerr.
Proof.
  assert (is_u32 0x7ffffff0) as Hv by done.
  destruct ex_ran_wf as (m & f & Hwf & Hf & Hw & Hnot). exists m, f.
  apply (vm_fault_mapped (UserIO0 := memory_io ex_src 0x3000 ex_file false) 1 ex_program).
  - exact Hwf.
  - by left.
  - done.
  - exact Hv.
  - exact Hf.
  - exact is_perm_RW.
  - exact Hw.
  - left. exact Hnot.
Defined.

Lemma vm_fault_rejects_witness :
  (¬ valid_type 7 →
   vm_fault (UserIO0 := memory_io ex_src 0x3000 ex_file false) 0 ex_program 7 0x400000 ex_space
     = Ret EINVAL ex_space) ∧
  (valid_type 7 → 0 = 0 →
   vm_fault (UserIO0 := memory_io ex_src 0x3000 ex_file false) 0 ex_program 7 0x400000 ex_space
     = Ret EFAULT (set_cpu (spl_set SPL_HIGH (cpu_of ex_space)) ex_space)).
Proof.
  apply (vm_fault_rejects (UserIO0 := memory_io ex_src 0x3000 ex_file false) 0 ex_program).
  apply (vm_wf_running ex_program _ _ _ ex_space_wf).
Defined.

(** ** What modelling showed *)

(** When the TLB is emptied while the page is read, the handler enters the page
    again with the permissions it had during the load: the text can be written. *)
Definition ex_text_entry : M (VM CM) (option Z * option Z) :=
  vm_fault (UserIO0 := memory_io ex_src 0x3000 ex_file true) 1 ex_program
    VM_FAULT_READ 0x401234;;
  s ← get;
  let perm := (λ e, Z.land e PAGE_RWX) <$> walk (tables s.1.2) ex_src 0x401000 in
  let entry := snd <$> list_find (λ e, e.1 = 0x401000) (tlb s.2) in
  mret (perm, (λ e, Z.land e.2 TLBLO_DIRTY) <$> entry).

Lemma vm_fault_text_writable :
  returned (ex_text_entry ex_space) =
    Some (Some (Z.lor PAGE_R_MASK PAGE_X_MASK), Some TLBLO_DIRTY).
Proof. vm_compute. reflexivity. Qed.

(** The second page of a region that does not start on a page boundary is read
    from the wrong place in the file: byte 0x401000 of this region is at offset
    0x1f00, but the handler asks for the bytes from 0x2000 on. *)
Definition ex_unaligned : region := MkRegion 0x1000 0x1800 0x1800 0x400100 PAGE_R_MASK.

Lemma unaligned_offset_wrong :
  ld_offset (page_load ex_unaligned 0x401000) = 0x2000 ∧
  r_offset ex_unaligned + (0x401000 - r_vaddr ex_unaligned) = 0x1f00.
Proof. done. Qed.

(** A page of the program counts as zero-filled and as read from disk: one fault,
    and the statistics report two sums that do not agree. *)
Definition ex_warnings : M (VM CM) (list line) :=
  vm_fault (UserIO0 := memory_io ex_src 0x3000 ex_file false) 1 ex_program
    VM_FAULT_READ 0x401234;;
  s ← get;
  mret (List.filter (λ l, if l is Warning _ _ then true else false)
    (vmstats_report (stats s.1.2))).

Lemma vm_fault_counts_twice : returned (ex_warnings ex_space) = Some [Warning 1 2].
Proof. vm_compute. reflexivity. Qed.
