(* ===== verification/AddrSpace.v ===== *)
(** * Address spaces

    Model of kern/vm/addrspace.c, on the kernel heap and the page tables that
    share one coremap (HeapPages.v), the TLB (Vm.v) and the vnodes (Vnode.v).
    [spaces] maps the address of every [struct addrspace] to its contents,
    [vnodes] that of every vnode. *)

From Stdlib Require Import ZArith Lia.
From stdpp Require Import base list gmap numbers.
From S2P Require Import Prelude Cpu KPages Kheap Frames HeapPages VmStats Pt Vm Vnode.

Local Open Scope Z_scope.

(** [sizeof(struct addrspace)]: two pointers, three regions of 20 bytes, and the
    number of regions *)
Definition sizeof_addrspace : Z := 72.

Record objects := MkObjects {
  spaces : gmap Z addrspace;
  vnodes : gmap Z vnode;
}.

Section operations.
Context {P : Type} `{!HasCpu P} `{!KPages P} `{!Frames P} (t_vmspace : Z).

Definition AS : Type := VM (KH P) * objects.

Definition on_vm {A} (m : M (VM (KH P)) A) : M AS A := zoom fst (λ t s, (t, s.2)) m.
Definition on_tables {A} (m : M (KH P * vmem) A) : M AS A := on_vm (on_pt m).
Definition on_kmem {A} (m : M (KH P) A) : M AS A :=
  on_vm (zoom (λ s, s.1.1) (λ h s, ((h, s.1.2), s.2)) m).

(** A call with the vnode at [vn] *)
Definition on_vnode {A} (vn : Z) (m : M VN A) : M AS A :=
  s ← get;
  v ← the (vnodes s.2 !! vn);
  zoom (λ s, (cpu_of s, v))
       (λ t s, set_cpu t.1 (s.1, MkObjects (spaces s.2) (<[vn := t.2]> (vnodes s.2)))) m.

Definition get_space (as_ : Z) : M AS addrspace :=
  s ← get;
  the (spaces s.2 !! as_).
Definition set_space (as_ : Z) (a : addrspace) : M AS () :=
  modify (λ s, (s.1, MkObjects (<[as_ := a]> (spaces s.2)) (vnodes s.2))).

(** Freeing the structure *)
Definition free_space (as_ : Z) : M AS () :=
  on_kmem (kfree as_);;
  modify (λ s, (s.1, MkObjects (delete as_ (spaces s.2)) (vnodes s.2))).

(** [junk] is what the memory of [as_v] holds: the field is not initialised. *)
Definition as_create (junk : Z) : M AS Z :=
  as_ ← on_kmem (kmalloc sizeof_addrspace);
  if as_ =? 0 then mret 0 else
  pt ← on_tables (pt_create t_vmspace);
  set_space as_ (MkAs pt junk []);;
  if pt =? 0 then
    free_space as_;;
    mret 0
  else mret as_.

Definition as_destroy (as_ : Z) : M AS () :=
  assert (negb (as_ =? 0));;
  a ← get_space as_;
  assert (negb (as_pt a =? 0));;
  on_tables (pt_destroy (as_pt a));;
  free_space as_.

(** The results are the error and [*ret]. *)
Definition as_copy (junk old : Z) : M AS (Z * Z) :=
  new ← as_create junk;
  if new =? 0 then mret (ENOMEM, 0) else
  n ← get_space new;
  o ← get_space old;
  r ← on_tables (pt_copy t_vmspace (as_pt n) o);
  if negb (r =? 0) then
    as_destroy new;;
    mret (ENOMEM, 0)
  else
    on_vnode (as_v o) (vnode_incopen (as_v o));;
    on_vnode (as_v o) (vnode_incref (as_v o));;
    set_space new (MkAs (as_pt n) (as_v o) (as_regions o));;
    mret (0, new).

Definition as_activate : M AS () :=
  spl ← splhigh;
  on_vm (for_range 0 NUM_TLB (λ i, TLB_Write (TLBHI_INVALID i) TLBLO_INVALID i));;
  on_tables (on_stats (vmstats_inc VMSTAT_TLB_INVALIDATE));;
  _ ← splx spl;
  mret tt.

Definition region_permissions (readable writeable executable : Z) : Z :=
  let p := 0 in
  let p := if negb (readable =? 0) then Z.lor p PAGE_R_MASK else p in
  let p := if negb (writeable =? 0) then Z.lor p PAGE_W_MASK else p in
  if negb (executable =? 0) then Z.lor p PAGE_X_MASK else p.

Definition as_define_region (as_ offset memsize filesize vaddr
    readable writeable executable : Z) : M AS Z :=
  a ← get_space as_;
  let permissions := region_permissions readable writeable executable in
  if Z.of_nat (length (as_regions a)) =? MAX_REGIONS then panic else
  set_space as_ (MkAs (as_pt a) (as_v a)
    (as_regions a ++ [MkRegion offset memsize filesize vaddr permissions]));;
  mret 0.

(** The [break] at the end of the body leaves the loop after the first region; the
    function has no [return]. *)
Definition as_get_paddr (as_ vaddr : Z) : M AS () :=
  a ← get_space as_;
  let pt := as_pt a in
  paddr ← on_tables (pt_get_paddr t_vmspace pt vaddr 0 0);
  paddr ←
    (if is_free paddr then
       match as_regions a with
       | [] => mret paddr
       | r :: _ =>
         if (vaddr <? u32 (r_vaddr r + r_memsize r)) && (r_vaddr r <=? vaddr) then
           paddr ← on_tables (pt_get_paddr t_vmspace pt vaddr 1 PAGE_RW);
           on_tables (pt_set_permissions t_vmspace pt vaddr 1 (r_permissions r));;
           mret paddr
         else mret paddr
       end
     else mret paddr);
  if is_free paddr || in_swap paddr then
    on_tables (pt_get_paddr t_vmspace pt vaddr 1 PAGE_RW);;
    mret tt
  else mret tt.

Definition getppages (npages : Z) : M AS Z := on_kmem (getpages npages).

Definition as_prepare_load (as_ : Z) : M AS Z := mret 0.
Definition as_complete_load (as_ : Z) : M AS Z := mret 0.

(** The results are the return value and [*stackptr]. *)
Definition as_define_stack (as_ : Z) : M AS (Z * Z) := mret (0, USERSTACK).

(** [t_vmspace] is the address space of the current thread. *)
Definition as_valid_ptr (ptr : Z) : M AS Z :=
  spl ← splhigh;
  if t_vmspace =? 0 then
    splx spl;;
    mret EFAULT
  else
    a ← get_space t_vmspace;
    match find_region ptr (as_regions a) with
    | Some _ =>
      splx spl;;
      mret 0
    | None =>
      paddr ← on_tables (pt_get_paddr t_vmspace (as_pt a) (Z.land ptr PAGE_FRAME) 0 0);
      if is_free paddr then
        splx spl;;
        mret EFAULT
      else
        splx spl;;
        mret 0
    end.
End operations.
Arguments AS : clear implicits.
