(* ===== verification/AddrSpaceProof.v ===== *)
(** * Address spaces: properties

    Creating, copying, destroying and activating address spaces, with the heap,
    the page tables, the TLB and the vnodes they use. *)

From Stdlib Require Import ZArith Lia.
From stdpp Require Import base list gmap numbers.
From S2P Require Import Prelude Cpu Coremap KPages Kheap KheapLaws Frames HeapPages VmStats Pt PtProof PtOps PtCopy Vm VmProof VmFault Vnode AddrSpace VmExample.

Local Open Scope Z_scope.

(** ** Another page table *)

Section created.
Implicit Types (ts : gmap Z (list Z)) (m : gmap Z Z).

(** A page table keeps its invariant and its translations when an empty one is
    created beside it. *)
Lemma created_apart q a ts ts' m :
  pt_inv q ts m → m !! a = None → pt_inv a ts' (<[a := 1]> m) →
  (∀ b, b ≠ a → ts' !! b = ts !! b) → (∀ i, sub ts' a i = None) →
  pt_inv q ts' (<[a := 1]> m) ∧ apart ts' a q ∧ ∀ v, walk ts' q v = walk ts q v.
Proof.
  intros Hq Hma Ha Hts Hsub.
  assert (ts !! a = None) as Hta.
  { apply eq_None_not_Some. intros [l Hl]. destruct (pi_tables _ _ _ Hq a l Hl) as (_ & _ & ?).
    congruence. }
  assert (∀ i, sub ts a i = None) as Hsub0 by (intros i; unfold sub, present; by rewrite Hta).
  assert (extends a ts m ts' (<[a := 1]> m)) as Hex.
  { split.
    - by apply insert_subseteq.
    - intros b l Hb Hne _. by rewrite Hts.
    - intros b l Hb. destruct (decide (b = a)) as [->|]; [by right|left]. rewrite <- Hts by done.
      by eexists.
    - intros i b. by rewrite Hsub0.
    - intros i b. by rewrite Hsub. }
  assert (apart ts a q) as Hap.
  { split; [|split].
    - destruct (pi_top _ _ _ Hq) as (top & Htop & _). congruence.
    - intros i. by rewrite Hsub0.
    - intros j b Hb. destruct (sub_table _ _ _ _ _ Hq Hb) as (_ & l & Hl & _).
      split; [congruence|]. intros i. by rewrite Hsub0. }
  destruct (apart_inv a q ts m ts' (<[a := 1]> m) Hq Ha Hex Hap) as [? ?].
  split; [done|]. split; [done|]. intros v. by eapply apart_walk.
Qed.

(** Without nested tables there is only the page of the table itself. *)
Lemma pages_of_empty ts pt b : (∀ i, sub ts pt i = None) → pages_of ts pt b ↔ b = pt.
Proof.
  intros Hsub. unfold pages_of, nested_below. split; [|by left].
  intros [->|(i & a & _ & Hs & _)]; [done|]. by rewrite Hsub in Hs.
Qed.
End created.

Section operations.
Context {P : Type} `{!HasCpu P} `{!KPages P} `{!KPagesLaws P} `{!Frames P} `{!FramesLaws P}.
Context (t_vmspace : Z).
Implicit Types (k : KH P) (hm ext : gmap Z Z) (ts : gmap Z (list Z)) (t : mmu) (o : objects).

(** ** Creating *)

Lemma as_create_ok k ts st ph t o hm ext junk (Q : Z → AS P → Prop) E :
  heap_and_pages k hm ext → tables_owned ts ext →
  (∀ k', heap_and_pages k' hm ext → cpu_of k' = cpu_of k → Q 0 (((k', MkVm ts st ph), t), o)) →
  (∀ as_ pt k' ts', as_ ≠ 0 → hm !! as_ = None → ext !! pt = None → pt ≠ 0 →
     heap_and_pages k' (<[as_ := sizeof_addrspace]> hm) (<[pt := 1]> ext) →
     cpu_of k' = cpu_of k → pt_inv pt ts' (<[pt := 1]> ext) → (∀ v, walk ts' pt v = None) →
     (∀ b, b ≠ pt → ts' !! b = ts !! b) → (∀ i, sub ts' pt i = None) →
     Q as_ (((k', MkVm ts' st ph), t),
            MkObjects (<[as_ := MkAs pt junk []]> (spaces o)) (vnodes o))) →
  wp safe_oom (as_create t_vmspace junk) (((k, MkVm ts st ph), t), o) Q E.
Proof.
  intros Hk Hts HQ0 HQ. unfold as_create, on_kmem, on_vm, on_tables, on_pt. wp_steps.
  cbn [fst snd]. eapply wp_mono; [by apply shared_kmalloc_ok| |done].
  intros as_ k1 [Hcpu1 [[-> Hk1]|(Has & Hfresh & Hk1)]]; cbn [fst snd].
  { simpl (_ =? _). cbv iota. wp_steps. by apply HQ0. }
  destruct (Z.eqb_spec as_ 0); [done|]. wp_steps. unfold on_vm, on_pt. wp_steps. cbn [fst snd].
  apply (pt_create_ok (KPagesLaws0 := shared_laws (<[as_ := sizeof_addrspace]> hm))
    (FramesLaws0 := shared_frames_laws _) _ _ _ _ _ ext); [done|done|].
  intros pt k2 ts' Hpt Hinv Hw Hsame Hsub Hk2 Hcpu2. wp_steps. unfold set_space. wp_steps.
  cbn [fst snd]. destruct (pi_top _ _ _ Hinv) as (top & Htop & _).
  destruct (pi_tables _ _ _ Hinv pt top Htop) as (_ & Hpt0 & _).
  destruct (Z.eqb_spec pt 0); [done|]. wp_steps. apply HQ; try done. congruence.
Qed.

(** ** Destroying *)

(** The page table and the structure are gone, and nothing else. *)
Record as_destroyed k ts hm ext (as_ pt : Z) k' ts' ext' : Prop := {
  ad_heap : heap_and_pages k' (delete as_ hm) ext';
  ad_cpu : cpu_of k' = cpu_of k;
  ad_pages : without ext ext' (pages_of ts pt);
  ad_tables : without ts ts' (λ b, b = pt ∨ ∃ i, 0 ≤ i < NWORDS ∧ sub ts pt i = Some b);
}.

Lemma as_destroy_ok k ts st ph t o hm ext as_ a (Q : () → AS P → Prop) E :
  heap_and_pages k hm ext → is_Some (hm !! as_) → as_ ≠ 0 → spaces o !! as_ = Some a →
  pt_inv (as_pt a) ts ext →
  (∀ k' ts' ext', as_destroyed k ts hm ext as_ (as_pt a) k' ts' ext' →
     Q tt (((k', MkVm ts' st ph), t), MkObjects (delete as_ (spaces o)) (vnodes o))) →
  wp safe (as_destroy as_) (((k, MkVm ts st ph), t), o) Q E.
Proof.
  intros Hk Hhm Has Ha Hinv HQ. unfold as_destroy, get_space, on_tables, on_vm, on_pt.
  wp_assert by lia. wp_the a by done. destruct (pi_top _ _ _ Hinv) as (top & Htop & _).
  destruct (pi_tables _ _ _ Hinv _ _ Htop) as (_ & Hpt0 & _).
  wp_assert by lia. wp_steps. cbn [fst snd].
  apply (pt_destroy_ok (KPagesLaws0 := shared_laws hm) (FramesLaws0 := shared_frames_laws hm)
    t_vmspace (as_pt a) ts ext Hinv); [done|].
  intros s' (k1 & ext' & ts' & -> & Hk1 & Hcpu1 & Hw1 & Hw2).
  unfold free_space, on_kmem, on_vm. wp_steps. cbn [fst snd].
  eapply wp_mono; [by apply (shared_kfree_ok _ hm ext')| |done].
  intros [] k2 [Hcpu2 Hk2]. cbn [fst snd]. wp_steps. apply (HQ k2 ts' ext'). split; try done. congruence.
Qed.

(** ** Copying *)

(** A call with a vnode *)
Lemma on_vnode_ok {A} F vn (x : M VN A) (s : AS P) v (Q : A → AS P → Prop) E :
  vnodes s.2 !! vn = Some v →
  wp F x (cpu_of s, v) (λ a w, w.1 = cpu_of s ∧
    Q a (s.1, MkObjects (spaces s.2) (<[vn := w.2]> (vnodes s.2)))) noerr →
  wp F (on_vnode vn x) s Q E.
Proof.
  intros Hv Hx. unfold on_vnode. wp_the v by done. wp_steps.
  eapply wp_mono; [exact Hx| |done]. intros a [p' v'] [-> HQ]. cbn [fst snd] in *.
  change (Q a (set_cpu (cpu_of s.1) s.1,
    MkObjects (spaces s.2) (<[vn := v']> (vnodes s.2)))). by rewrite set_cpu_of.
Qed.

(** The new address space at [new], with page table [pt]: what it maps, and what it
    shares with the old one *)
Record as_copied ts ph o hm ext (a : addrspace) (v : vnode) (new pt : Z) ext' (s' : AS P) : Prop := {
  ac_new : new ≠ 0 ∧ hm !! new = None;
  ac_space : spaces s'.2 = <[new := MkAs pt (as_v a) (as_regions a)]> (spaces o);
  ac_vnodes : vnodes s'.2 =
    <[as_v a := set_refcount (vn_refcount v + 1) (set_opencount (vn_opencount v + 1) v)]>
      (vnodes o);
  ac_heap : heap_and_pages s'.1.1.1 (<[new := sizeof_addrspace]> hm) ext';
  ac_grow : ext ⊆ ext';
  ac_pt : pt_inv pt (tables s'.1.1.2) ext';
  ac_apart : apart (tables s'.1.1.2) pt (as_pt a);
  ac_pages va : is_u32 va →
    match wanted (as_pt a) (as_regions a) ts va with
    | Some e => page_copied pt (as_pt a) (as_regions a) ts (<[pt := 1]> ext) ph (tables s'.1.1.2) (phys s'.1.1.2) va e
    | None => walk (tables s'.1.1.2) pt va = None
    end;
  (* the old address space *)
  ac_old : pt_inv (as_pt a) (tables s'.1.1.2) ext';
  ac_walk va : walk (tables s'.1.1.2) (as_pt a) va = walk ts (as_pt a) va;
  ac_bytes f x : page_aligned f → ext !! kaddr f = Some 1 → 0 ≤ x < PAGE_SIZE →
    phys s'.1.1.2 (f + x) = ph (f + x);
}.

Lemma heap_and_pages_running k hm ext : heap_and_pages k hm ext → running (cpu_of k).
Proof. intros (m & Hm & _)%heap_and_pages_own. by eapply (pages_running k.1). Qed.

Lemma as_copy_ok k ts st ph t o hm ext junk old a v (Q : Z * Z → AS P → Prop) E :
  heap_and_pages k hm ext → stats_wf st → tables_owned ts ext → pt_inv (as_pt a) ts ext →
  spaces o !! old = Some a → is_Some (hm !! old) →
  vnodes o !! as_v a = Some v → vnode_wf v → as_v a ≠ 0 → vn_opencount v < 2 ^ 31 - 2 →
  (∀ k', heap_and_pages k' hm ext → cpu_of k' = cpu_of k →
     Q (ENOMEM, 0) (((k', MkVm ts st ph), t), o)) →
  (∀ new pt ext' s', as_copied ts ph o hm ext a v new pt ext' s' → cpu_of s' = cpu_of k → s'.1.2 = t →
     Q (0, new) s') →
  wp safe_oom (as_copy t_vmspace junk old) (((k, MkVm ts st ph), t), o) Q E.
Proof.
  intros Hk Hst Hts Hinv Hold Hhm Hv Hvwf Hvn Hvo HQ0 HQ.
  unfold as_copy, get_space. wp_steps. apply (as_create_ok _ _ _ _ _ _ hm ext); [done|done| |].
  { intros k' Hk' Hcpu. simpl (_ =? _). cbv iota. wp_steps. by apply HQ0. }
  intros new pt k1 ts1 Hnew Hfresh Hpt Hpt0 Hk1 Hcpu1 Hinv1 Hw1 Hts1 Hsub1.
  destruct (Z.eqb_spec new 0); [done|].
  destruct (created_apart (as_pt a) pt ts ts1 ext Hinv Hpt Hinv1 Hts1 Hsub1) as (Hq & Hap & Hwq).
  assert (new ≠ old) as Hne by (intros ->; by destruct Hhm; congruence).
  wp_the (MkAs pt junk []) by (simpl; by rewrite lookup_insert_eq).
  wp_the a by (simpl; by rewrite lookup_insert_ne).
  unfold on_tables, on_vm, on_pt. wp_steps. cbn [fst snd as_pt].
  set (hm' := <[new := sizeof_addrspace]> hm) in *.
  eapply (pt_copy_ok (KPagesLaws0 := shared_laws hm') (FramesLaws0 := shared_frames_laws hm')
    _ pt (as_pt a) (as_regions a) k1 ts1 (<[pt := 1]> ext) ph Hq); [done|done| |].
  { split; try done.
    - intros va Hva Hn. exfalso. assert (0 ≤ va / PAGE_SIZE) by (apply Z.div_pos; [apply Hva|done]). lia.
    - intros va d Hva _. rewrite first_perm_0 by done. unfold slot_perm. by rewrite Hsub1. }
  intros [k2 vm2] ext2 Hc. simpl (0 =? 0). cbn [negb]. cbv iota. wp_steps.
  pose proof (cu_cpu _ _ _ _ _ _ _ _ _ _ Hc) as Hcpu2. cbn [fst snd] in *.
  pose proof (cu_own _ _ _ _ _ _ _ _ _ _ Hc) as Hk2. change (heap_and_pages k2 hm' ext2) in Hk2.
  assert (running (cpu_of k2)) as Hrun by (by eapply heap_and_pages_running).
  apply (on_vnode_ok _ _ _ _ v); [done|]. apply vnode_incopen_ok; [done|done|done|].
  split; [done|]. cbn [fst snd vnodes spaces]. wp_steps.
  apply (on_vnode_ok _ _ _ _ (set_opencount (vn_opencount v + 1) v));
    [by simpl; rewrite lookup_insert_eq|].
  apply vnode_incref_ok; [done| |done|].
  { destruct Hvwf. split; try done. simpl. lia. }
  split; [done|]. cbn [fst snd vnodes spaces]. unfold set_space. wp_steps. cbn [fst snd].
  apply (HQ new pt ext2); [|exact (eq_trans Hcpu2 Hcpu1)|done].
  destruct Hc as [_ _ _ Hsrc2 Hdst2 Hap2 Hgrow _ Hwalk2 Hold2 Hdone2 _ _]. cbn [fst snd] in *.
  split; cbn [fst snd spaces vnodes tables phys]; try done.
  - by rewrite insert_insert_eq.
  - by rewrite insert_insert_eq.
  - by etrans; [apply insert_subseteq|].
  - intros va Hva. specialize (Hdone2 va Hva).
    assert (wanted (as_pt a) (as_regions a) ts va = wanted (as_pt a) (as_regions a) ts1 va) as ->.
    { unfold wanted. by rewrite Hwq. }
    assert (va / PAGE_SIZE < 2 ^ 20) as Hlt by (unfold is_u32, PAGE_SIZE in *; Z.div_mod_to_equations; lia).
    specialize (Hdone2 Hlt). destruct (wanted (as_pt a) (as_regions a) ts1 va); [|done].
    by eapply page_copied_ext; [|exact Hdone2].
  - intros va. by rewrite Hwalk2, Hwq.
  - intros f x Hf He Hx. apply Hold2; [done| |done]. rewrite lookup_insert_ne; [done|congruence].
Qed.

(** ** Activating *)

Lemma flush_tlb_ok F (s : VM (KH P)) (Q : () → VM (KH P) → Prop) E :
  Z.of_nat (length (tlb s.2)) = NUM_TLB →
  Q tt (s.1, MkMmu tlb_flushed (next_tlb_idx s.2)) →
  wp F (for_range 0 NUM_TLB (λ i, TLB_Write (TLBHI_INVALID i) TLBLO_INVALID i)) s Q E.
Proof.
  intros Hlen HQ.
  apply (wp_for_range _ _ (λ i s', s'.1 = s.1 ∧ next_tlb_idx s'.2 = next_tlb_idx s.2 ∧
    Z.of_nat (length (tlb s'.2)) = NUM_TLB ∧
    ∀ j, 0 ≤ j < i → zlookup (tlb s'.2) j = zlookup tlb_flushed j)); [done| |by split_and!; try done; lia|].
  - intros i s1 Hi (Hp & Hnx & Hl & Hj). apply tlb_write_ok; [done|done|].
    split; [done|]. split; [done|]. simpl. split; [by rewrite length_insert|].
    intros j Hj'. rewrite zlookup_insert by lia. case_decide as Hd; [|apply Hj; lia].
    subst j. destruct (zlookup_lt_is_Some tlb_flushed i) as [e He]; [done|].
    rewrite He. apply tlb_flushed_lookup in He as [_ ->]. unfold TLBHI_INVALID.
    by rewrite Z.shiftl_mul_pow2 by lia.
  - intros s' (Hp & Hnx & Hl & Hj). destruct s' as [s1 [l nx]]. simpl in *. subst.
    replace l with tlb_flushed; [done|]. symmetry. apply zlist_eq; [unfold NUM_TLB in *; simpl; lia|].
    intros j Hjr. apply Hj. lia.
Qed.

Lemma as_activate_ok F k ts st ph t o hm ext (Q : () → AS P → Prop) E :
  heap_and_pages k hm ext → stats_wf st → Z.of_nat (length (tlb t)) = NUM_TLB →
  Q tt (((k, MkVm ts (bump VMSTAT_TLB_INVALIDATE st) ph),
         MkMmu tlb_flushed (next_tlb_idx t)), o) →
  wp F as_activate (((k, MkVm ts st ph), t), o) Q E.
Proof.
  intros Hk Hst Hlen HQ. unfold as_activate, splhigh, on_tables, on_vm, on_pt. wp_steps.
  apply wp_splx. wp_steps. cbn [fst snd]. apply flush_tlb_ok; [done|]. wp_steps. cbn [fst snd].
  assert (heap_and_pages (set_cpu (spl_set SPL_HIGH (cpu_of k)) k) hm ext) as Hk1
    by (by apply (pages_spl (H := shared_laws hm) k ext)).
  apply (on_stats_inc_ok (KPagesLaws0 := shared_laws hm)
    _ _ ext); [done|done|done|]. wp_steps. apply wp_splx. wp_steps. cpu_simpl.
  pose proof (heap_and_pages_running k hm ext Hk) as [Hc _].
  unfold pair_set_cpu, pair_cpu_of in *. cbn [fst snd] in *. cpu_simpl.
  change (Q tt (((set_cpu (spl_set (curspl (cpu_of k)) (cpu_of (set_cpu (spl_set SPL_HIGH (cpu_of k)) k)))
    (set_cpu (spl_set SPL_HIGH (cpu_of k)) k), MkVm ts (bump VMSTAT_TLB_INVALIDATE st) ph),
         MkMmu tlb_flushed (next_tlb_idx t)), o)).
  by rewrite cpu_of_set, spl_set_back, set_cpu_set, set_cpu_of.
Qed.
End operations.

(** ** Address spaces: theorems and examples *)


Section properties.
Context {P : Type} `{!HasCpu P} `{!KPages P} `{!KPagesLaws P} `{!Frames P} `{!FramesLaws P}.
Context (t_vmspace : Z).
Implicit Types (k : KH P) (hm ext : gmap Z Z) (ts : gmap Z (list Z)) (t : mmu) (o : objects).

(** C26: [as_copy] makes a new address space whose page table is apart from the old one.
    Every page of the old one that is writable, and every other page in which no region begins
    and at or in which none ends, has a frame of its own with the same bytes in the new one;
    the other pages are not mapped there, and a later fault loads them from the file if a
    region has them. The test is that of [vaddr_overlap], which is not whether the
    page and the region overlap ([vaddr_overlap_wrong]). The copies do not keep their
    permissions: within 4 MB they all have those of the first of them
    ([pt_copy_loses_permissions]). The regions and the program file are the same, and the
    file's vnode has one more reference and one more open. The old address space is
    unchanged. If [kmalloc] finds no memory the result is ENOMEM and nothing has
    changed; when physical memory runs out the kernel panics. *)
Theorem as_copy_spec k ts st ph t o hm ext junk old a v :
  heap_and_pages k hm ext → stats_wf st → tables_owned ts ext → pt_inv (as_pt a) ts ext →
  spaces o !! old = Some a → is_Some (hm !! old) →
  vnodes o !! as_v a = Some v → vnode_wf v → as_v a ≠ 0 → vn_opencount v < 2 ^ 31 - 2 →
  wp safe_oom (as_copy t_vmspace junk old) (((k, MkVm ts st ph), t), o)
    (λ r s', cpu_of s' = cpu_of k ∧
       (r = (ENOMEM, 0) ∧ heap_and_pages s'.1.1.1 hm ext ∧ s'.1.1.2 = MkVm ts st ph ∧ s'.2 = o ∨
        r.1 = 0 ∧ ∃ pt ext', as_copied ts ph o hm ext a v r.2 pt ext' s')) noerr.
Proof.
  intros Hk Hst Hts Hinv Hold Hhm Hv Hvwf Hvn Hvo.
  apply (as_copy_ok t_vmspace _ _ _ _ _ _ hm ext _ _ a v); [done..| |].
  - intros k' Hk' Hcpu. split; [done|]. by left.
  - intros new pt ext' s' Hc Hcpu _. split; [done|]. right. split; [done|]. by exists pt, ext'.
Qed.

(** Creating an address space and destroying it again *)
Definition create_destroy (junk : Z) : M (AS P) () :=
  as_ ← as_create t_vmspace junk;
  if as_ =? 0 then mret tt else as_destroy as_.

(** [as_create] followed by [as_destroy] leaks nothing: the blocks of the heap,
    the pages handed out, the page tables and the other address spaces are what
    they were. *)
Theorem as_create_destroy k ts st ph t o hm ext junk :
  heap_and_pages k hm ext → tables_owned ts ext →
  (∀ a, is_Some (spaces o !! a) → is_Some (hm !! a)) →
  wp safe_oom (create_destroy junk) (((k, MkVm ts st ph), t), o)
    (λ _ s', cpu_of s' = cpu_of k ∧ heap_and_pages s'.1.1.1 hm ext ∧
       s'.1.1.2 = MkVm ts st ph ∧ s'.1.2 = t ∧ s'.2 = o) noerr.
Proof.
  intros Hk Hts Hsp. unfold create_destroy. wp_steps.
  apply (as_create_ok t_vmspace _ _ _ _ _ _ hm ext); [done|done|by intros k' Hk' Hcpu|].
  intros as_ pt k1 ts1 Has Hfresh Hpt Hpt0 Hk1 Hcpu1 Hinv Hw Hts1 Hsub.
  destruct (Z.eqb_spec as_ 0); [done|]. apply (wp_faults _ safe); [|done].
  eapply (as_destroy_ok t_vmspace _ _ _ _ _ _ _ (<[pt := 1]> ext) as_ (MkAs pt junk [])); [done|
    by rewrite lookup_insert_eq|done|by simpl; rewrite lookup_insert_eq|done|].
  intros k2 ts2 ext2 [Hk2 Hcpu2 [Hgone Hkeep] [Hgone' Hkeep']]. cbn [fst snd as_pt] in *.
  assert (ts !! pt = None) as Htpt.
  { apply eq_None_not_Some. intros [l Hl]. destruct (Hts pt l Hl) as (_ & _ & ?). congruence. }
  assert (∀ b, pages_of ts1 pt b ↔ b = pt) as Hpages by (intros b; by apply pages_of_empty).
  assert (ext2 = ext) as ->.
  { apply map_eq. intros b. destruct (decide (b = pt)) as [->|Hb].
    - rewrite Hpt. apply Hgone. by apply Hpages.
    - rewrite Hkeep by (by rewrite Hpages). by rewrite lookup_insert_ne. }
  assert (ts2 = ts) as ->.
  { apply map_eq. intros b. destruct (decide (b = pt)) as [->|Hb].
    - rewrite Htpt. apply Hgone'. by left.
    - rewrite Hkeep'; [by apply Hts1|]. intros [?|(i & _ & Hs)]; [done|]. by rewrite Hsub in Hs. }
  assert (spaces o !! as_ = None) as Hnone.
  { apply eq_None_not_Some. intros Hs. destruct (Hsp as_ Hs). congruence. }
  rewrite delete_insert_id in Hk2 by done. cbn [spaces vnodes].
  rewrite delete_insert_id by done. split; [exact (eq_trans Hcpu2 Hcpu1)|].
  split; [done|]. split; [done|]. split; [done|]. by destruct o.
Qed.

(** After [as_activate] the TLB translates no user address, so that it is in
    accord with any page table: the one the thread is about to run on too. Nothing
    else has changed except the counter of invalidations. *)
Theorem as_activate_spec k ts st ph t o hm ext pt :
  heap_and_pages k hm ext → stats_wf st → balanced st → Z.of_nat (length (tlb t)) = NUM_TLB →
  0 ≤ next_tlb_idx t < NUM_TLB → pt_inv pt ts ext →
  (∀ v, is_u32 v → walk ts pt v = None → slot_perm ts pt v PAGE_RW = PAGE_RW) →
  wp safe (as_activate (P := P)) (((k, MkVm ts st ph), t), o)
    (λ _ s', vm_wf (KPagesLaws0 := shared_laws hm) everywhere pt ext s'.1 ∧
       (∀ page, page < MIPS_KSEG0 → ¬ in_tlb s'.1.2 page) ∧
       s'.1.1 = (k, MkVm ts (bump VMSTAT_TLB_INVALIDATE st) ph) ∧ s'.2 = o) noerr.
Proof.
  intros Hk Hst Hb Hlen Hnx Hpt Hslots. apply (as_activate_ok _ _ _ _ _ _ _ hm ext); [done..|].
  split.
  - split; simpl; try done.
    + by apply stats_wf_bump.
    + by apply balanced_bump.
    + by apply tlb_wf_flushed.
  - split; [|done]. intros page Hp. by apply not_in_flushed.
Qed.

(** [as_valid_ptr] accepts exactly the addresses that lie in a region or in a
    page that is mapped, and changes nothing. *)
Theorem as_valid_ptr_spec k ts st ph t o hm ext ptr a :
  heap_and_pages k hm ext → pt_inv (as_pt a) ts ext → t_vmspace ≠ 0 →
  spaces o !! t_vmspace = Some a → is_u32 ptr →
  wp safe (as_valid_ptr t_vmspace ptr) (((k, MkVm ts st ph), t), o)
    (λ r s', s' = (((k, MkVm ts st ph), t), o) ∧
       r = if decide (is_Some (find_region ptr (as_regions a)) ∨
                      is_Some (walk ts (as_pt a) (page_of ptr)))
           then 0 else EFAULT) noerr.
Proof.
  intros Hk Hpt Ht Ha Hptr. pose proof (heap_and_pages_running k hm ext Hk) as [Hc _].
  unfold as_valid_ptr, splhigh, get_space. wp_steps. apply wp_splx.
  destruct (Z.eqb_spec t_vmspace 0); [done|]. wp_the a by done.
  assert (∀ r, r = (if decide (is_Some (find_region ptr (as_regions a)) ∨
      is_Some (walk ts (as_pt a) (page_of ptr))) then 0 else EFAULT) →
    wp safe (splx (curspl (cpu_of (((k, MkVm ts st ph), t), o)));; mret r)
      (set_cpu (spl_set SPL_HIGH (cpu_of (((k, MkVm ts st ph), t), o)))
         (((k, MkVm ts st ph), t), o))
      (λ r s', s' = (((k, MkVm ts st ph), t), o) ∧
       r = if decide (is_Some (find_region ptr (as_regions a)) ∨
                      is_Some (walk ts (as_pt a) (page_of ptr)))
           then 0 else EFAULT) noerr) as Hend.
  { intros r Hr. wp_steps. apply wp_splx. wp_steps. split; [|done].
    by rewrite cpu_of_set, set_cpu_set, spl_set_back, set_cpu_of. }
  destruct (find_region ptr (as_regions a)) as [r|].
  { apply Hend. rewrite decide_True; [done|]. left. by eexists. }
  unfold on_tables, on_vm, on_pt. wp_steps. cbn [fst snd].
  eapply (pt_get_paddr_find _ _ _ _ _ _ ext);
    [done|by apply page_of_aligned|]. change (Z.land ptr PAGE_FRAME) with (page_of ptr).
  destruct (walk ts (as_pt a) (page_of ptr)) as [e|] eqn:Hw; cbn [default].
  - destruct (walk_frame _ _ _ _ _ Hpt Hw) as (f & perm & Hf & Hp & -> & _).
    rewrite (page_word_free f perm) by (done || by left). apply Hend.
    rewrite decide_True; [done|]. right. by eexists.
  - change (is_free PAGE_FREE) with true. cbv iota. apply Hend.
    rewrite decide_False; [done|]. by intros [[? ?]|[? ?]].
Qed.

(** [as_define_region] records a region with its permissions as long as there
    are fewer than MAX_REGIONS; a fourth region stops the kernel. *)
Theorem as_define_region_spec (s : AS P) as_ a off memsz filesz va rd wr ex :
  spaces s.2 !! as_ = Some a →
  as_define_region as_ off memsz filesz va rd wr ex s =
    if decide (Z.of_nat (length (as_regions a)) = MAX_REGIONS) then Panic Panic_called
    else Ret 0 (s.1, MkObjects
      (<[as_ := MkAs (as_pt a) (as_v a) (as_regions a ++
         [MkRegion off memsz filesz va (region_permissions rd wr ex)])]> (spaces s.2))
      (vnodes s.2)).
Proof.
  intros Ha. unfold as_define_region, get_space, get, mbind, M_bind. rewrite Ha. simpl.
  destruct (Z.eqb_spec (Z.of_nat (length (as_regions a))) MAX_REGIONS);
    [by rewrite decide_True|by rewrite decide_False].
Qed.
End properties.

(** ** Witnesses *)

(** The booted kernel, with the vnode of a program file *)
Definition ex_as_boot : AS CM :=
  (((ex_kernel, MkVm ∅ ex_stats ex_file), MkMmu tlb_flushed 0),
   MkObjects ∅ {[0x80005000 := ex_vnode]}).

Lemma as_create_destroy_witness :
  wp safe_oom (create_destroy 1 0) ex_as_boot
    (λ _ s', cpu_of s' = cpu_of ex_kernel ∧ heap_and_pages s'.1.1.1 ∅ ∅ ∧
       s'.1.1.2 = MkVm ∅ ex_stats ex_file ∧ s'.1.2 = MkMmu tlb_flushed 0 ∧
       s'.2 = MkObjects ∅ {[0x80005000 := ex_vnode]}) noerr.
Proof.
  apply (as_create_destroy 1 ex_kernel ∅ ex_stats ex_file (MkMmu tlb_flushed 0)
    (MkObjects ∅ {[0x80005000 := ex_vnode]}) ∅ ∅ 0).
  - exact ex_heap_and_pages.
  - intros a l. by rewrite lookup_empty.
  - intros a [? Ha]. cbn [spaces] in Ha. by rewrite lookup_empty in Ha.
Defined.

(** A kernel with one address space, at [as_], for the program *)
Record ex_one (as_ : Z) (s : AS CM) (hm ext : gmap Z Z) (a : addrspace) : Prop := {
  eo_heap : heap_and_pages s.1.1.1 hm ext;
  eo_stats : stats s.1.1.2 = ex_stats;
  eo_tables : tables_owned (tables s.1.1.2) ext;
  eo_pt : pt_inv (as_pt a) (tables s.1.1.2) ext;
  eo_slots v : walk (tables s.1.1.2) (as_pt a) v = None →
    slot_perm (tables s.1.1.2) (as_pt a) v PAGE_RW = PAGE_RW;
  eo_space : spaces s.2 !! as_ = Some a;
  eo_live : is_Some (hm !! as_);
  eo_file : as_v a = 0x80005000;
  eo_vnode : vnodes s.2 !! 0x80005000 = Some ex_vnode;
  eo_tlb : s.1.2 = MkMmu tlb_flushed 0;
}.

Definition ex_as_one : AS CM :=
  match as_create 1 0x80005000 ex_as_boot with Ret _ s => s | _ => ex_as_boot end.
Definition ex_as : Z := 0x80030f80.

Lemma ex_as_run : ∃ s', as_create 1 0x80005000 ex_as_boot = Ret ex_as s'.
Proof. eexists. vm_compute. reflexivity. Qed.

Lemma ex_as_one_ok : ∃ hm ext a, ex_one ex_as ex_as_one hm ext a.
Proof.
  assert (wp safe_oom (as_create 1 0x80005000) ex_as_boot
    (λ r s', r ≠ 0 → ∃ hm ext a, ex_one r s' hm ext a) noerr) as Hwp.
  { apply (as_create_ok 1 _ _ _ _ _ _ ∅ ∅);
      [apply ex_heap_and_pages|intros a l; by rewrite lookup_empty|done|].
    intros as_ pt k' ts' Has _ _ _ Hk' _ Hinv Hw _ Hsub _.
    exists (<[as_ := sizeof_addrspace]> ∅), (<[pt := 1]> ∅), (MkAs pt 0x80005000 []).
    split; cbn [fst snd tables stats spaces vnodes as_pt as_v]; try done.
    - intros a l Ha. by apply (pi_tables _ _ _ Hinv a l).
    - intros v _. unfold slot_perm. by rewrite Hsub.
    - by rewrite lookup_insert_eq.
    - by rewrite lookup_insert_eq. }
  destruct ex_as_run as [s' Hrun]. assert (ex_as ≠ 0) as Hne by discriminate.
  pose proof (wp_returns _ _ _ _ _ _ _ Hwp Hrun) as Hpost.
  unfold ex_as_one. rewrite Hrun. exact (Hpost Hne).
Qed.

#[local] Opaque ex_as_one.

Local Abbreviation ex_vm1 := (ex_as_one.1.1.2).
Local Abbreviation ex_start :=
  (((ex_as_one.1.1.1, MkVm (tables ex_vm1) (stats ex_vm1) (phys ex_vm1)), ex_as_one.1.2),
   ex_as_one.2).

(** An address space with a page at 0x400000 *)
Definition ex_make : M (AS CM) Z :=
  as_ ← as_create 1 0x80005000;
  if as_ =? 0 then mret 0 else
  a ← get_space as_;
  on_tables (pt_get_paddr 1 (as_pt a) 0x400000 1 PAGE_RW);;
  mret as_.

Record ex_paged (as_ : Z) (s : AS CM) (hm ext : gmap Z Z) (a : addrspace) : Prop := {
  ep_heap : heap_and_pages s.1.1.1 hm ext;
  ep_stats : stats_wf (stats s.1.1.2);
  ep_tables : tables_owned (tables s.1.1.2) ext;
  ep_pt : pt_inv (as_pt a) (tables s.1.1.2) ext;
  ep_space : spaces s.2 !! as_ = Some a;
  ep_live : is_Some (hm !! as_);
  ep_file : as_v a = 0x80005000;
  ep_vnode : vnodes s.2 !! 0x80005000 = Some ex_vnode;
  ep_page : is_Some (wanted (as_pt a) (as_regions a) (tables s.1.1.2) 0x400000);
}.

Definition ex_as_two : AS CM := match ex_make ex_as_boot with Ret _ s => s | _ => ex_as_boot end.

Lemma ex_as_two_ok : ∃ hm ext a, ex_paged ex_as ex_as_two hm ext a.
Proof.
  assert (wp safe_oom ex_make ex_as_boot (λ r s', r ≠ 0 → ∃ hm ext a, ex_paged r s' hm ext a) noerr) as Hwp.
  { unfold ex_make. wp_steps. apply (as_create_ok 1 _ _ _ _ _ _ ∅ ∅);
      [apply ex_heap_and_pages|intros a l; by rewrite lookup_empty|intros k' _ _; change (0 =? 0) with true; cbv iota; by wp_steps|].
    intros as_ pt k' ts' Has _ _ _ Hk' _ Hinv Hw _ Hsub. destruct (Z.eqb_spec as_ 0); [done|].
    unfold get_space. wp_steps. wp_the (MkAs pt 0x80005000 []) by (cbn; by rewrite lookup_insert_eq).
    unfold on_tables, on_vm, on_pt. wp_steps. cbn [fst snd as_pt].
    apply (pt_get_paddr_ok (KPagesLaws0 := shared_laws (<[as_ := sizeof_addrspace]> ∅))
      (FramesLaws0 := shared_frames_laws (<[as_ := sizeof_addrspace]> ∅)) _ _ _ _ _ (<[pt := 1]> ∅));
      [exact Hk'|exact ex_stats_wf|done|done|by exists 3|].
    intros r f perm p' ts2 m' st' Htr Hown _. wp_steps. intros _.
    exists (<[as_ := sizeof_addrspace]> ∅), m', (MkAs pt 0x80005000 []).
    split; cbn [fst snd tables stats spaces vnodes as_pt as_v as_regions]; try done.
    - destruct (tr_case _ _ _ _ _ _ _ _ _ _ _ _ Htr) as [(_ & _ & ->)|(_ & _ & _ & _ & ->)];
        [apply ex_stats_wf|apply stats_wf_bump, ex_stats_wf].
    - intros a l Ha. by apply (pi_tables _ _ _ (tr_inv _ _ _ _ _ _ _ _ _ _ _ _ Htr) a l).
    - apply Htr.
    - by rewrite lookup_insert_eq.
    - by rewrite lookup_insert_eq.
    - unfold wanted. rewrite (tr_walk _ _ _ _ _ _ _ _ _ _ _ _ Htr). unfold store_walk. rewrite decide_True by done. cbn.
      unfold in_region. cbn [existsb]. rewrite andb_false_r. by eexists. }
  assert (∃ s', ex_make ex_as_boot = Ret ex_as s') as [s' Hrun] by (eexists; vm_compute; reflexivity).
  assert (ex_as ≠ 0) as Hne by discriminate.
  pose proof (wp_returns _ _ _ _ _ _ _ Hwp Hrun) as Hpost. unfold ex_as_two. rewrite Hrun. exact (Hpost Hne).
Qed.

#[local] Opaque ex_as_two.

Local Abbreviation ex_vm2 := (ex_as_two.1.1.2).

(** The page at 0x400000 is copied. *)
Lemma as_copy_spec_witness :
  ∃ hm ext a, is_Some (wanted (as_pt a) (as_regions a) (tables ex_vm2) 0x400000) ∧
    wp safe_oom (as_copy 1 0 ex_as)
      (((ex_as_two.1.1.1, MkVm (tables ex_vm2) (stats ex_vm2) (phys ex_vm2)), ex_as_two.1.2), ex_as_two.2)
      (λ r s', cpu_of s' = cpu_of ex_as_two.1.1.1 ∧
         (r = (ENOMEM, 0) ∧ heap_and_pages s'.1.1.1 hm ext ∧
            s'.1.1.2 = MkVm (tables ex_vm2) (stats ex_vm2) (phys ex_vm2) ∧ s'.2 = ex_as_two.2 ∨
          r.1 = 0 ∧ ∃ pt ext', as_copied (tables ex_vm2) (phys ex_vm2) ex_as_two.2 hm ext a
            ex_vnode r.2 pt ext' s')) noerr.
Proof.
  destruct ex_as_two_ok as (hm & ext & a & [Hk Hst Hts Hpt Hsp Hlive Hf Hv Hpg]).
  exists hm, ext, a. split; [exact Hpg|]. apply (as_copy_spec 1).
  - exact Hk.
  - exact Hst.
  - exact Hts.
  - exact Hpt.
  - exact Hsp.
  - exact Hlive.
  - rewrite Hf. exact Hv.
  - exact ex_vnode_wf.
  - rewrite Hf. discriminate.
  - reflexivity.
Defined.

Lemma as_activate_spec_witness :
  ∃ hm ext a, wp safe (as_activate (P := CM)) ex_start
    (λ _ s', vm_wf (KPagesLaws0 := shared_laws hm) everywhere (as_pt a) ext s'.1 ∧
       (∀ page, page < MIPS_KSEG0 → ¬ in_tlb s'.1.2 page) ∧
       s'.1.1 = (ex_as_one.1.1.1, MkVm (tables ex_vm1)
         (bump VMSTAT_TLB_INVALIDATE (stats ex_vm1)) (phys ex_vm1)) ∧ s'.2 = ex_as_one.2) noerr.
Proof.
  destruct ex_as_one_ok as (hm & ext & a & [Hk Hst Hts Hpt Hsl Hsp Hlive Hf Hv Ht]).
  exists hm, ext, a. apply as_activate_spec.
  - exact Hk.
  - rewrite Hst. exact ex_stats_wf.
  - rewrite Hst. reflexivity.
  - rewrite Ht. reflexivity.
  - rewrite Ht. unfold NUM_TLB. simpl. lia.
  - exact Hpt.
  - intros v _. exact (Hsl v).
Defined.

Lemma as_valid_ptr_spec_witness :
  ∃ a, wp safe (as_valid_ptr ex_as 0x400000) ex_start
    (λ r s', s' = ex_start ∧
       r = if decide (is_Some (find_region 0x400000 (as_regions a)) ∨
                      is_Some (walk (tables ex_vm1) (as_pt a) (page_of 0x400000)))
           then 0 else EFAULT) noerr.
Proof.
  destruct ex_as_one_ok as (hm & ext & a & [Hk Hst Hts Hpt Hsl Hsp Hlive Hf Hv Ht]).
  exists a. apply (as_valid_ptr_spec ex_as _ _ _ _ _ _ hm ext).
  - exact Hk.
  - exact Hpt.
  - discriminate.
  - exact Hsp.
  - unfold is_u32. lia.
Defined.

Lemma as_define_region_spec_witness :
  ∃ a, as_define_region ex_as 0x1000 0x1800 0x1400 0x400000 4 0 1 ex_as_one =
    if decide (Z.of_nat (length (as_regions a)) = MAX_REGIONS) then Panic Panic_called
    else Ret 0 (ex_as_one.1, MkObjects
      (<[ex_as := MkAs (as_pt a) (as_v a) (as_regions a ++
         [MkRegion 0x1000 0x1800 0x1400 0x400000 (region_permissions 4 0 1)])]>
         (spaces ex_as_one.2)) (vnodes ex_as_one.2)).
Proof.
  destruct ex_as_one_ok as (hm & ext & a & [Hk Hst Hts Hpt Hsl Hsp Hlive Hf Hv Ht]).
  exists a. apply as_define_region_spec. exact Hsp.
Defined.
