(* ===== verification/Elf.v ===== *)
(** * The ELF loader

    Model of [load_elf] (kern/userprog/loadelf.c) and of the headers of
    kern/include/elf.h. The headers are read into kernel memory, [kmem], at the
    addresses of the locals [eh] and [ph], and their fields are read from there in
    the byte order of the machine. [VOP_READ] is an argument. *)

From Stdlib Require Import ZArith Lia.
From stdpp Require Import base list gmap numbers.
From S2P Require Import Prelude Cpu CopyInOut Uio Coremap KPages Kheap KheapLaws Frames HeapPages.
From S2P Require Import VmStats Pt Vm VmProof Vnode AddrSpace AddrSpaceProof.

Local Open Scope Z_scope.

(** ** elf.h *)

Definition ELFCLASS32 : Z := 1.
Definition ELFDATA2MSB : Z := 2.
Definition EV_CURRENT : Z := 1.
Definition ET_EXEC : Z := 2.
Definition EM_MIPS : Z := 8.
Definition PT_NULL : Z := 0.
Definition PT_LOAD : Z := 1.
Definition PT_PHDR : Z := 6.
Definition PT_MIPS_REGINFO : Z := 0x70000000.
Definition PF_R : Z := 4.
Definition PF_W : Z := 2.
Definition PF_X : Z := 1.

(** Big-endian words *)
Definition be16 (b : Z → Z) (a : Z) : Z := b a * 2 ^ 8 + b (a + 1).
Definition be32 (b : Z → Z) (a : Z) : Z := be16 b a * 2 ^ 16 + be16 b (a + 2).

(** The fields of [Elf32_Ehdr] at address [a] *)
Definition sizeof_ehdr : Z := 52.
Definition e_ident (b : Z → Z) (a i : Z) : Z := b (a + i).
Definition e_type (b : Z → Z) (a : Z) : Z := be16 b (a + 16).
Definition e_machine (b : Z → Z) (a : Z) : Z := be16 b (a + 18).
Definition e_version (b : Z → Z) (a : Z) : Z := be32 b (a + 20).
Definition e_entry (b : Z → Z) (a : Z) : Z := be32 b (a + 24).
Definition e_phoff (b : Z → Z) (a : Z) : Z := be32 b (a + 28).
Definition e_phentsize (b : Z → Z) (a : Z) : Z := be16 b (a + 42).
Definition e_phnum (b : Z → Z) (a : Z) : Z := be16 b (a + 44).

(** The fields of [Elf32_Phdr] *)
Definition sizeof_phdr : Z := 32.
Definition p_type (b : Z → Z) (a : Z) : Z := be32 b a.
Definition p_offset (b : Z → Z) (a : Z) : Z := be32 b (a + 4).
Definition p_vaddr (b : Z → Z) (a : Z) : Z := be32 b (a + 8).
Definition p_filesz (b : Z → Z) (a : Z) : Z := be32 b (a + 16).
Definition p_memsz (b : Z → Z) (a : Z) : Z := be32 b (a + 20).
Definition p_flags (b : Z → Z) (a : Z) : Z := be32 b (a + 24).

(** The checks on the header *)
Definition bad_header (b : Z → Z) (a : Z) : bool :=
  negb (e_ident b a 0 =? 0x7f) || negb (e_ident b a 1 =? 69) ||
  negb (e_ident b a 2 =? 76) || negb (e_ident b a 3 =? 70) ||
  negb (e_ident b a 4 =? ELFCLASS32) || negb (e_ident b a 5 =? ELFDATA2MSB) ||
  negb (e_ident b a 6 =? EV_CURRENT) || negb (e_version b a =? EV_CURRENT) ||
  negb (e_type b a =? ET_EXEC) || negb (e_machine b a =? EM_MIPS).

Section load_elf.
Context {P : Type} `{!HasCpu P} `{!KPages P} `{!Frames P}.

(** The kernel with the bytes of its memory *)
Definition LS : Type := AS P * (Z → Z).
Definition on_as {A} (m : M (AS P) A) : M LS A := zoom fst (λ t s, (t, s.2)) m.

Context (vop_read : Z → uio → M LS (Z * uio)) (t_vmspace : Z).

(** [mk_kuio(&ku, addr, len, offset, UIO_READ)], the read, and the two checks *)
Definition read_header (v addr len offset : Z) : M LS () :=
  r ← vop_read v (MkUio (MkIovec addr len) offset len UIO_SYSSPACE UIO_READ 0);
  let '(result, ku) := r in
  if negb (result =? 0) then fail result else
  if negb (uio_resid ku =? 0) then fail ENOEXEC else mret tt.

(** The body of the loop over the program headers. *)
Definition load_phdr (v eh ph i : Z) : M LS () :=
  s ← get;
  let offset := s32 (u32 (e_phoff s.2 eh + i * e_phentsize s.2 eh)) in
  read_header v ph sizeof_phdr offset;;
  s ← get;
  let b := s.2 in
  if p_type b ph =? PT_NULL then mret tt else
  if p_type b ph =? PT_PHDR then mret tt else
  if p_type b ph =? PT_MIPS_REGINFO then mret tt else
  if negb (p_type b ph =? PT_LOAD) then fail ENOEXEC else
  result ← on_as (as_define_region t_vmspace (s32 (p_offset b ph)) (p_memsz b ph)
    (p_filesz b ph) (p_vaddr b ph) (Z.land (p_flags b ph) PF_R) (Z.land (p_flags b ph) PF_W)
    (Z.land (p_flags b ph) PF_X));
  if negb (result =? 0) then fail result else mret tt.

(** The result is the entry point. [eh] and [ph] are the addresses of the two
    locals. *)
Definition load_elf (v eh ph : Z) : M LS Z :=
  read_header v eh sizeof_ehdr 0;;
  s ← get;
  if bad_header s.2 eh then fail ENOEXEC else
  for_range 0 (e_phnum s.2 eh) (load_phdr v eh ph);;
  s ← get;
  mret (e_entry s.2 eh).
End load_elf.
Arguments LS : clear implicits.

(** ** What the file says *)

(** The region of the program header at offset [o] *)
Definition phdr_region (file : Z → Z) (o : Z) : region :=
  MkRegion (s32 (p_offset file o)) (p_memsz file o) (p_filesz file o) (p_vaddr file o)
    (region_permissions (Z.land (p_flags file o) PF_R) (Z.land (p_flags file o) PF_W)
       (Z.land (p_flags file o) PF_X)).

Definition phdr_at (file : Z → Z) (i : Z) : Z := e_phoff file 0 + i * e_phentsize file 0.

(** The regions of the first [n] program headers *)
Definition elf_regions (file : Z → Z) (n : Z) : list region :=
  omap (λ i, if p_type file (phdr_at file i) =? PT_LOAD
             then Some (phdr_region file (phdr_at file i)) else None) (seqZ 0 n).

Definition known_type (t : Z) : Prop :=
  t = PT_NULL ∨ t = PT_PHDR ∨ t = PT_MIPS_REGINFO ∨ t = PT_LOAD.

(** A well-formed executable: the header passes the checks, and every program
    header is inside the file and of a known type. *)
Record elf_ok (file : Z → Z) (size : Z) : Prop := {
  eo_bytes x : 0 ≤ file x < 2 ^ 8;
  eo_size : sizeof_ehdr ≤ size < 2 ^ 31;
  eo_header : bad_header file 0 = false;
  eo_phdrs i : 0 ≤ i < e_phnum file 0 →
    phdr_at file i + sizeof_phdr ≤ size ∧ known_type (p_type file (phdr_at file i));
}.

Lemma be16_ext b b' a a' :
  b a = b' a' → b (a + 1) = b' (a' + 1) → be16 b a = be16 b' a'.
Proof. unfold be16. congruence. Qed.

Lemma be32_ext b b' a a' n :
  (∀ k, n ≤ k < n + 4 → b (a + k) = b' (a' + k)) → be32 b (a + n) = be32 b' (a' + n).
Proof.
  intros H. unfold be32. f_equal; [f_equal|]; apply be16_ext; rewrite <- ?Z.add_assoc; apply H; lia.
Qed.

Lemma be16_ext_at b b' a a' n :
  (∀ k, n ≤ k < n + 2 → b (a + k) = b' (a' + k)) → be16 b (a + n) = be16 b' (a' + n).
Proof. intros H. apply be16_ext; rewrite <- ?Z.add_assoc; apply H; lia. Qed.

(** [b] has the [n] bytes of the file from [o] on at [a]. *)
Definition holds (b file : Z → Z) (a o n : Z) : Prop :=
  ∀ k, 0 ≤ k < n → b (a + k) = file (o + k).

Section fields.
Context (b file : Z → Z) (a o : Z).

Lemma holds_phdr :
  holds b file a o sizeof_phdr →
  p_type b a = p_type file o ∧ phdr_region b a = phdr_region file o.
Proof.
  intros H. unfold sizeof_phdr, holds in H.
  assert (∀ n, 0 ≤ n → n + 4 ≤ 32 → be32 b (a + n) = be32 file (o + n)) as Hf.
  { intros n Hn Hn'. apply be32_ext. intros k Hk. apply H. lia. }
  split.
  - specialize (Hf 0). rewrite !Z.add_0_r in Hf. apply Hf; lia.
  - unfold phdr_region, p_offset, p_memsz, p_filesz, p_vaddr, p_flags.
    rewrite !Hf by lia. done.
Qed.

Lemma holds_ehdr :
  holds b file a 0 sizeof_ehdr →
  bad_header b a = bad_header file 0 ∧ e_entry b a = e_entry file 0 ∧
  e_phoff b a = e_phoff file 0 ∧ e_phentsize b a = e_phentsize file 0 ∧
  e_phnum b a = e_phnum file 0.
Proof.
  intros H. unfold sizeof_ehdr, holds in H.
  assert (∀ n, 0 ≤ n → n + 4 ≤ 52 → be32 b (a + n) = be32 file (0 + n)) as H4.
  { intros n Hn Hn'. apply be32_ext. intros k Hk. apply H. lia. }
  assert (∀ n, 0 ≤ n → n + 2 ≤ 52 → be16 b (a + n) = be16 file (0 + n)) as H2.
  { intros n Hn Hn'. apply be16_ext_at. intros k Hk. apply H. lia. }
  unfold bad_header, e_ident, e_entry, e_phoff, e_phentsize, e_phnum, e_type, e_machine, e_version.
  rewrite !H4, !H2 by lia. rewrite !H by lia. done.
Qed.
End fields.

(** ** What [VOP_READ] does for the loader

    A read into kernel memory stores the bytes of the file, as many as there are
    up to the size asked for, and leaves the address space of the current thread
    alone; it may fail. *)
Class ElfRead (P : Type) (vop_read : Z → uio → M (LS P) (Z * uio)) (t_vmspace v : Z) := {
  elf_size : Z;
  elf_file : Z → Z;
  elf_reads : Prop;
  elf_read_law (s : LS P) addr len off :
    let u := MkUio (MkIovec addr len) off len UIO_SYSSPACE UIO_READ 0 in
    0 ≤ off → 0 ≤ len →
    wp safe (vop_read v u) s
      (λ r s', spaces s'.1.2 !! t_vmspace = spaces s.1.2 !! t_vmspace ∧
         same_outside addr len s.2 s'.2 ∧ (elf_reads → r.1 = 0) ∧
         (r.1 = 0 → let n := Z.min len (Z.max 0 (elf_size - off)) in
            r.2 = advance n u ∧ holds s'.2 elf_file addr off n)) noerr;
}.

Section loading.
Context {P : Type} `{!HasCpu P} `{!KPages P} `{!Frames P}.
Context (vop_read : Z → uio → M (LS P) (Z * uio)) (t_vmspace v : Z).
Context `{!ElfRead P vop_read t_vmspace v}.
Implicit Types s : LS P.
Local Abbreviation file := (elf_file (t_vmspace := t_vmspace) (v := v) (vop_read := vop_read)).
Local Abbreviation size := (elf_size (t_vmspace := t_vmspace) (v := v) (vop_read := vop_read)).
Local Abbreviation reads := (elf_reads (t_vmspace := t_vmspace) (v := v) (vop_read := vop_read)).

(** The address space of the current thread *)
Definition space_of s : option addrspace := spaces s.1.2 !! t_vmspace.

Lemma read_header_ok s addr len off (Q : () → LS P → Prop) E :
  0 ≤ off → 0 < len →
  (∀ s', space_of s' = space_of s → same_outside addr len s.2 s'.2 → off + len ≤ size →
     holds s'.2 file addr off len → Q tt s') →
  (∀ e s', space_of s' = space_of s → same_outside addr len s.2 s'.2 →
     (reads → size < off + len ∧ e = ENOEXEC) → e ≠ 0 → E e s') →
  wp safe (read_header vop_read v addr len off) s Q E.
Proof.
  intros Hoff Hlen HQ HE. unfold read_header. wp_steps.
  eapply wp_mono; [apply elf_read_law; [done|lia]| |done].
  intros [result ku] s' (Hsp & Hsame & Hok & Hbytes). cbn [fst snd] in *.
  destruct (Z.eqb_spec result 0) as [->|Hne]; cbn [negb]; cbv iota.
  2:{ wp_steps. apply HE; try done. intros Hr. by destruct Hne, Hok. }
  destruct (Hbytes eq_refl) as [-> Hh]. simpl (uio_resid _).
  destruct (Z.eqb_spec (len - Z.min len (Z.max 0 (size - off))) 0) as [Hz|Hz]; cbn [negb]; cbv iota.
  - wp_steps. apply HQ; try done; [lia|].
    by replace len with (Z.min len (Z.max 0 (size - off))) by lia.
  - wp_steps. apply HE; try done. intros _. split; [lia|done].
Qed.

(** The address space with the regions of the first [i] program headers *)
Definition with_regions (a : addrspace) (i : Z) : addrspace :=
  MkAs (as_pt a) (as_v a) (as_regions a ++ elf_regions file i).

Lemma elf_regions_next i :
  0 ≤ i →
  elf_regions file (i + 1) = elf_regions file i ++
    (if p_type file (phdr_at file i) =? PT_LOAD then [phdr_region file (phdr_at file i)] else []).
Proof.
  intros Hi. unfold elf_regions. rewrite seqZ_app, omap_app by lia. f_equal.
  change (seqZ (0 + i) 1) with [0 + i]. rewrite Z.add_0_l. simpl. by destruct (_ =? _).
Qed.

Lemma be_range b a : (∀ x, 0 ≤ b x < 2 ^ 8) → 0 ≤ be32 b a < 2 ^ 32 ∧ 0 ≤ be16 b a < 2 ^ 16.
Proof.
  intros Hb. unfold be32, be16.
  pose proof (Hb a). pose proof (Hb (a + 1)). pose proof (Hb (a + 2)). pose proof (Hb (a + 2 + 1)). lia.
Qed.

(** The regions of the first headers are among all of them. *)
Lemma elf_regions_le i n : 0 ≤ i ≤ n → (length (elf_regions file i) ≤ length (elf_regions file n))%nat.
Proof.
  intros Hi. assert (n = i + (n - i)) as -> by lia.
  unfold elf_regions. rewrite (seqZ_app 0 i), omap_app, length_app by lia. lia.
Qed.

(** How many regions the address space has with those of the first [i] program headers *)
Definition region_count (a : addrspace) (i : Z) : Z := Z.of_nat (length (as_regions a) + length (elf_regions file i)).

Lemma load_phdr_ok F s a eh ph i (Q : () → LS P → Prop) E :
  elf_ok file size → reads → eh + sizeof_ehdr ≤ ph ∨ ph + sizeof_phdr ≤ eh →
  0 ≤ i < e_phnum file 0 → space_of s = Some (with_regions a i) →
  holds s.2 file eh 0 sizeof_ehdr →
  region_count a i ≤ MAX_REGIONS → (MAX_REGIONS < region_count a (i + 1) → F Panic_called) →
  (∀ s', space_of s' = Some (with_regions a (i + 1)) → holds s'.2 file eh 0 sizeof_ehdr →
     region_count a (i + 1) ≤ MAX_REGIONS → Q tt s') →
  wp F (load_phdr vop_read t_vmspace v eh ph i) s Q E.
Proof.
  intros Hok Hreads Hdis Hi Hsp Heh Hmax HF HQ. unfold region_count in *.
  destruct (holds_ehdr _ _ _ Heh) as (_ & _ & Hphoff & Hphent & _).
  destruct (eo_phdrs _ _ Hok i Hi) as [Hin Htype].
  assert (0 ≤ phdr_at file i) as Hpos.
  { unfold phdr_at. pose proof (proj1 (be_range file (0 + 28) (eo_bytes _ _ Hok))).
    pose proof (proj2 (be_range file (0 + 42) (eo_bytes _ _ Hok))).
    unfold e_phoff, e_phentsize. nia. }
  pose proof (eo_size _ _ Hok) as Hsize. unfold sizeof_phdr, sizeof_ehdr in *.
  unfold load_phdr. wp_steps. rewrite Hphoff, Hphent. fold (phdr_at file i).
  rewrite u32_small, s32_small by lia. apply wp_faults with safe; [|done].
  apply read_header_ok; [done|done| |intros e s' _ _ Hr _; destruct (Hr Hreads); unfold sizeof_phdr in *; lia].
  intros s1 Hsp1 Hsame _ Hph. wp_steps.
  destruct (holds_phdr _ _ _ _ Hph) as [-> Hreg].
  assert (holds s1.2 file eh 0 52) as Heh1.
  { intros k Hk. rewrite <- (Heh k Hk). apply Hsame. unfold sizeof_phdr in *; lia. }
  assert (p_type file (phdr_at file i) ≠ PT_LOAD → Q tt s1) as Hskip.
  { intros Hn. assert (elf_regions file (i + 1) = elf_regions file i) as He.
    { rewrite elf_regions_next by lia. destruct (Z.eqb_spec (p_type file (phdr_at file i)) PT_LOAD); [done|]. by rewrite app_nil_r. }
    apply HQ; [|done|by rewrite He]. rewrite Hsp1, Hsp. unfold with_regions. by rewrite He. }
  destruct (Z.eqb_spec (p_type file (phdr_at file i)) PT_NULL) as [Hn|]; [apply Hskip; by rewrite Hn|].
  destruct (Z.eqb_spec (p_type file (phdr_at file i)) PT_PHDR) as [Hn|]; [apply Hskip; by rewrite Hn|].
  destruct (Z.eqb_spec (p_type file (phdr_at file i)) PT_MIPS_REGINFO) as [Hn|];
    [apply Hskip; by rewrite Hn|].
  destruct (Z.eqb_spec (p_type file (phdr_at file i)) PT_LOAD) as [Hl|Hn];
    [|by destruct Htype as [?|[?|[?|?]]]].
  cbn [negb]. cbv iota. unfold on_as, as_define_region, get_space. wp_steps.
  wp_the (with_regions a i) by (rewrite <- Hsp, <- Hsp1; done).
  change (Z.of_nat (length (as_regions (with_regions a i)))) with
    (Z.of_nat (length (as_regions a ++ elf_regions file i))).
  rewrite length_app.
  destruct (Z.eqb_spec (Z.of_nat (length (as_regions a) + length (elf_regions file i))) MAX_REGIONS).
  { wp_steps. apply HF. rewrite elf_regions_next, Hl, Z.eqb_refl, length_app by lia. simpl (length [_]). lia. }
  unfold set_space. wp_steps. simpl (negb _). cbv iota.
  apply HQ; [|done|rewrite elf_regions_next, Hl, Z.eqb_refl, length_app by lia; simpl (length [_]); lia].
  unfold space_of. cbn [fst snd spaces]. rewrite lookup_insert_eq. f_equal.
  unfold with_regions. cbn [as_pt as_v as_regions]. rewrite elf_regions_next by lia.
  rewrite Hl, Z.eqb_refl, <- (assoc_L (++)). f_equal. f_equal. f_equal.
  rewrite <- Hreg. done.
Qed.

(** The executable has more loadable segments than the address space has room for. *)
Definition too_many_regions (a : addrspace) (f : fault) : Prop :=
  f = Panic_called ∧ MAX_REGIONS < region_count a (e_phnum file 0).

(** C40: [load_elf] of a well-formed executable, whose file can be read, returns its entry
    point and has added one region per loadable segment, in order, with the place in the
    file, the place in memory, the sizes and the permissions of the program header, when
    the address space has at most three regions then; when it would have more, the kernel
    panics. *)
Theorem load_elf_spec s a eh ph :
  elf_ok file size → reads → eh + sizeof_ehdr ≤ ph ∨ ph + sizeof_phdr ≤ eh →
  space_of s = Some a → Z.of_nat (length (as_regions a)) ≤ MAX_REGIONS →
  wp (too_many_regions a) (load_elf vop_read t_vmspace v eh ph) s
    (λ entry s', region_count a (e_phnum file 0) ≤ MAX_REGIONS ∧ entry = e_entry file 0 ∧
       space_of s' = Some (MkAs (as_pt a) (as_v a)
         (as_regions a ++ elf_regions file (e_phnum file 0)))) noerr.
Proof.
  intros Hok Hreads Hdis Hsp Hmax. pose proof (eo_size _ _ Hok) as Hsize.
  unfold load_elf. wp_steps. apply wp_faults with safe; [|done].
  apply read_header_ok; [done|done| |intros e s' _ _ Hr _; destruct (Hr Hreads); lia].
  intros s1 Hsp1 _ _ Heh. wp_steps. destruct (holds_ehdr _ _ _ Heh) as (-> & _ & _ & _ & ->).
  rewrite (eo_header _ _ Hok). wp_steps.
  pose proof (proj2 (be_range file (0 + 44) (eo_bytes _ _ Hok))) as Hnum.
  fold (e_phnum file 0) in Hnum.
  apply (wp_for_range _ _ (λ i s', space_of s' = Some (with_regions a i) ∧
    holds s'.2 file eh 0 sizeof_ehdr ∧ region_count a i ≤ MAX_REGIONS)).
  - lia.
  - intros i s2 Hi (Hsp2 & Heh2 & Hn). apply (load_phdr_ok _ s2 a); try done. intros Hlt. split; [done|].
    pose proof (elf_regions_le (i + 1) (e_phnum file 0)). unfold region_count in *. lia.
  - split; [|split; [done|unfold region_count; simpl; lia]]. rewrite Hsp1, Hsp. unfold with_regions. simpl.
    rewrite app_nil_r. by destruct a.
  - intros s2 (Hsp2 & Heh2 & Hn). wp_steps. destruct (holds_ehdr _ _ _ Heh2) as (_ & -> & _).
    split; [done|]. split; [done|]. by rewrite Hsp2.
Qed.

(** A file that is shorter than a header, or whose header fails one of the checks,
    is refused with ENOEXEC, and the address space is as it was. *)
Theorem load_elf_refuses s eh ph :
  reads → size < sizeof_ehdr ∨ bad_header file 0 = true →
  wp safe (load_elf vop_read t_vmspace v eh ph) s (λ _ _, False)
    (λ e s', e = ENOEXEC ∧ space_of s' = space_of s).
Proof.
  intros Hreads Hbad. unfold load_elf. wp_steps. apply read_header_ok; [done|done| |].
  - intros s1 Hsp1 _ Hlen Heh. wp_steps. destruct (holds_ehdr _ _ _ Heh) as (-> & _).
    destruct Hbad as [?| ->]; [lia|]. by wp_steps.
  - intros e s1 Hsp1 _ Hr _. by destruct (Hr Hreads).
Qed.
End loading.

(** ** Examples *)

(** A file in memory *)
Section memory_file.
Context {P : Type} (t_vmspace v : Z) (bytes : list Z).

Definition byte_at (x : Z) : Z := default 0 (zlookup bytes x).

Definition memory_read (v : Z) (u : uio) : M (LS P) (Z * uio) :=
  let n := Z.min (uio_resid u) (Z.max 0 (Z.of_nat (length bytes) - uio_offset u)) in
  let base := iov_base (uio_iovec u) in
  modify (λ s, (s.1, λ x, if (base <=? x) && (x <? base + n)
                          then byte_at (uio_offset u + (x - base)) else s.2 x));;
  mret (0, advance n u).

#[global, refine] Instance memory_elf_read : ElfRead P memory_read t_vmspace v :=
  {| elf_size := Z.of_nat (length bytes); elf_file := byte_at; elf_reads := True |}.
Proof.
  intros s addr len off u Hoff Hlen. unfold memory_read. wp_steps. cbn [fst snd u uio_resid
    uio_offset uio_iovec iov_base]. split; [done|]. split; [|split; [done|]].
  - intros x Hx. destruct (_ && _) eqn:Hb; [|done]. exfalso.
    apply andb_true_iff in Hb as [?%Z.leb_le ?%Z.ltb_lt]. lia.
  - intros _. split; [done|]. intros k Hk. destruct (_ && _) eqn:Hb.
    + f_equal. lia.
    + apply andb_false_iff in Hb as [?%Z.leb_gt|?%Z.ltb_ge]; lia.
Defined.

Lemma byte_at_range x : Forall (λ b, 0 ≤ b < 2 ^ 8) bytes → 0 ≤ byte_at x < 2 ^ 8.
Proof.
  intros Hall. unfold byte_at. destruct (zlookup bytes x) as [b|] eqn:Hb; [|done].
  unfold zlookup in Hb. destruct (0 <=? x); [|done]. exact (list.Forall_lookup_1 _ _ _ _ Hall Hb).
Qed.
End memory_file.

(** An executable with [phnum] program headers [phentsize] bytes apart, the first
    one for a segment at 0x400000 *)
Definition ex_elf (phentsize phnum : Z) : list Z :=
  [0x7f; 69; 76; 70; 1; 2; 1; 0; 0; 0; 0; 0; 0; 0; 0; 0;
   0; 2; 0; 8; 0; 0; 0; 1; 0; 0x40; 0; 0x10; 0; 0; 0; 52; 0; 0; 0; 0; 0; 0; 0; 0;
   0; 52; 0; phentsize; 0; phnum; 0; 0; 0; 0; 0; 0;
   0; 0; 0; 1; 0; 0; 0x10; 0; 0; 0x40; 0; 0; 0; 0; 0; 0;
   0; 0; 0x14; 0; 0; 0; 0x18; 0; 0; 0; 0; 5; 0; 0; 0x10; 0].

Lemma ex_elf_ok : elf_ok (byte_at (ex_elf 32 1)) (Z.of_nat (length (ex_elf 32 1))).
Proof.
  split.
  - intros x. apply byte_at_range. by repeat constructor.
  - by vm_compute.
  - reflexivity.
  - intros i Hi. change (e_phnum _ 0) with 1 in Hi. assert (i = 0) as -> by lia.
    split; [by vm_compute|]. by right; right; right.
Qed.

(** A kernel with an empty address space at 1 *)
Definition ex_loader : LS CM :=
  ((((ex_kernel, MkVm ∅ ex_stats (λ _, 0)), MkMmu tlb_flushed 0),
    MkObjects {[1 := MkAs 0x80030000 0x80005000 []]} ∅), λ _, 0).

Lemma load_elf_spec_witness :
  wp (too_many_regions (memory_read (P := CM) (ex_elf 32 1)) 1 2 (MkAs 0x80030000 0x80005000 []))
    (load_elf (memory_read (ex_elf 32 1)) 1 2 0x80040000 0x80040100) ex_loader
    (λ entry s', entry = 0x400010 ∧
       space_of 1 s' = Some (MkAs 0x80030000 0x80005000
         [MkRegion 0x1000 0x1800 0x1400 0x400000 (Z.lor PAGE_R_MASK PAGE_X_MASK)])) noerr.
Proof.
  eapply wp_mono; [apply (load_elf_spec (memory_read (ex_elf 32 1)) 1 2 ex_loader
    (MkAs 0x80030000 0x80005000 []) 0x80040000 0x80040100)| |].
  - exact ex_elf_ok.
  - exact I.
  - left. unfold sizeof_ehdr. lia.
  - reflexivity.
  - by vm_compute.
  - intros entry s' (_ & -> & ->). split; vm_compute; reflexivity.
  - intros e s' [].
Defined.

Lemma load_elf_refuses_witness :
  wp safe (load_elf (memory_read [0x7f; 69]) 1 2 0x80040000 0x80040100) ex_loader
    (λ _ _, False) (λ e s', e = ENOEXEC ∧ space_of 1 s' = space_of 1 ex_loader).
Proof.
  apply (load_elf_refuses (memory_read [0x7f; 69]) 1 2 ex_loader).
  - exact I.
  - left. reflexivity.
Defined.

(** Four loadable segments (here the same one four times) are a well-formed
    executable; loading it stops the kernel. *)
Lemma elf_four_segments_panic :
  load_elf (memory_read (ex_elf 0 4)) 1 2 0x80040000 0x80040100 ex_loader = Panic Panic_called.
Proof. vm_compute. reflexivity. Qed.
