(* ===== verification/HeapCpu.v ===== *)
(** * The kernel heap of a running processor

    What thread.c and synch.c need beside the contract of KMem.v: [kmalloc] and
    [kfree] need a running thread (the coremap's lock asserts it), keep the
    processor, and do not mind which thread runs. [owned m bs rest] accounts for
    the live blocks: those of the structures at hand, [bs], and everybody else's,
    [rest]. A function that leaks nothing keeps [rest]. *)

From Stdlib Require Import ZArith Lia.
From stdpp Require Import base list gmap numbers strings.
From S2P Require Import Prelude Cpu Coremap KPages Kheap KheapLists KheapProof KheapLaws HeapPages KMem.

Local Open Scope Z_scope.

Class KHeapCpu (H : Type) `{!HasCpu H} `{!KHeap H} `{!KHeapLaws H} := {
  heap_running (h : H) m : heap_owns h m → running (cpu_of h);
  heap_cpu (h : H) m c : heap_owns h m → running c → heap_owns (set_cpu c h) m;
  kmalloc_cpu h m sz :
    heap_owns h m → 0 ≤ sz < 2 ^ 31 →
    wp safe_oom (kmalloc sz) h
      (λ p h', cpu_of h' = cpu_of h ∧
         ((p = 0 ∧ heap_owns h' m) ∨
          (p ≠ 0 ∧ m !! p = None ∧ heap_owns h' (<[p := sz]> m)))) noerr;
  kfree_cpu h m p :
    heap_owns h m → is_Some (m !! p) →
    wp safe (kfree p) h
      (λ _ h', cpu_of h' = cpu_of h ∧ heap_owns h' (delete p m)) noerr;
}.

(** The heap of kheap.c, alone and beside other owners of pages *)
#[global, refine] Instance kheap_heap_cpu {P} `{!HasCpu P} `{!KPages P} `{!KPagesLaws P} :
  KHeapCpu (KH P) := {}.
Proof.
  - intros h m (gs & big & [Hp _ _ _ _] & _). by eapply (pages_running h.1).
  - intros [sp h] m c (gs & big & [Hp Hi Ha Hb Hl] & Hpart) Hc. exists gs, big.
    split; [|done]. split; try done. by apply pages_cpu.
  - intros h m sz Hh Hsz. by apply kmalloc_ok.
  - intros h m p Hh Hp. by apply kfree_ok.
Defined.

Section at_cpu.
Context {H : Type} `{!HasCpu H} `{!KHeap H} `{!KHeapLaws H} `{!KHeapCpu H}.

(** The contract of KMem.v, on the processor [c]: clients proved against the
    contract, such as arrays and queues, keep the processor. *)
#[refine] Definition at_cpu (c : cpu) : KHeapLaws H :=
  {| heap_owns h m := heap_owns h m ∧ cpu_of h = c |}.
Proof.
  - intros h m [Hh _]. by apply (heap_owns_null h).
  - intros h m a n b k [Hh _]. by apply (heap_owns_disjoint h m).
  - intros h m sz [Hh Hc] Hsz. eapply wp_mono; [by apply kmalloc_cpu| |done].
    intros p h' [Hc' [[-> Ho]|(Hp & Hm & Ho)]]; [left|right];
      (split; [done|]); rewrite Hc'; done.
  - intros h m p [Hh Hc] Hp. eapply wp_mono; [by apply kfree_cpu| |done].
    intros [] h' [Hc' Ho]. by rewrite Hc'.
  - apply kfree_null.
Defined.
End at_cpu.

(** [kstrdup(s)] (kern/lib/misc.c): the address of the copy, and its contents *)
Definition kstrdup `{!KHeap H} (s : string) : M H (Z * string) :=
  z ← kmalloc (Z.of_nat (String.length s) + 1);
  mret (z, s).

(** ** Accounting for heap blocks *)

(** The block of a pointer that may be [NULL] *)
Definition blk (p : Z) : list Z := if p =? 0 then [] else [p].

Record owned (m : gmap Z Z) (bs : list Z) (rest : gmap Z Z) : Prop := {
  ow_nodup : NoDup bs;
  ow_apart b : b ∈ bs → rest !! b = None;
  ow_mine b : b ∈ bs → is_Some (m !! b);
  ow_rest b : b ∉ bs → m !! b = rest !! b;
}.

Section owned.
Implicit Types (m rest : gmap Z Z) (bs : list Z).

Lemma owned_nil m : owned m [] m.
Proof. split; [constructor|by intros ? ?%elem_of_nil..|done]. Qed.

Lemma owned_perm m bs bs' rest : bs ≡ₚ bs' → owned m bs rest → owned m bs' rest.
Proof.
  intros Hp [Hn Ha Hm Hr]. split; [by rewrite <- Hp| | |]; intros b Hb;
    rewrite <- Hp in Hb; eauto.
Qed.

#[global] Instance owned_proper m : Proper ((≡ₚ) ==> (=) ==> (↔)) (owned m).
Proof. intros bs bs' Hp rest rest' <-. split; by apply owned_perm. Qed.

Lemma owned_alloc m bs rest p sz :
  owned m bs rest → m !! p = None → owned (<[p := sz]> m) (p :: bs) rest.
Proof.
  intros [Hn Ha Hm Hr] Hp.
  assert (p ∉ bs) as Hpb by (intros [? Hb]%Hm; congruence). split.
  - by constructor.
  - intros b [->|Hb]%elem_of_cons; [by rewrite <- Hr|by apply Ha].
  - intros b [->|Hb]%elem_of_cons; [rewrite lookup_insert_eq; eauto|].
    rewrite lookup_insert_ne; [by apply Hm|congruence].
  - intros b [Hne Hb]%not_elem_of_cons. rewrite lookup_insert_ne by done. by apply Hr.
Qed.

Lemma owned_free m bs rest p :
  owned m (p :: bs) rest → is_Some (m !! p) ∧ owned (delete p m) bs rest.
Proof.
  intros [[Hp Hn]%NoDup_cons Ha Hm Hr]. split; [apply Hm; left|]. split.
  - done.
  - intros b Hb. apply Ha. by right.
  - intros b Hb. rewrite lookup_delete_ne by congruence. apply Hm. by right.
  - intros b Hb. destruct (decide (b = p)) as [->|].
    + rewrite lookup_delete_eq. symmetry. apply Ha. left.
    + rewrite lookup_delete_ne by done. apply Hr. by apply not_elem_of_cons.
Qed.

(** Replacing a buffer *)
Lemma owned_swap m m' bs rest old new :
  owned m (blk old ++ bs) rest → m !! 0 = None → m' !! 0 = None →
  delete new m' = delete old m → (new ≠ 0 → is_Some (m' !! new)) →
  owned m' (blk new ++ bs) rest.
Proof.
  intros Hown H0 H0' Hd Hnew.
  assert (owned (delete old m) bs rest) as Hdel.
  { unfold blk in Hown. destruct (Z.eqb_spec old 0) as [->|].
    - by rewrite delete_id.
    - by apply owned_free in Hown as [_ ?]. }
  rewrite <- Hd in Hdel. unfold blk. destruct (Z.eqb_spec new 0) as [->|Hn].
  - by rewrite delete_id in Hdel.
  - destruct (Hnew Hn) as [sz Hsz]. rewrite <- (insert_delete_id m' new sz) by done.
    apply owned_alloc; [done|]. apply lookup_delete_eq.
Qed.

(** Somebody else frees a block. *)
Lemma owned_rest_free m bs rest a :
  owned m bs rest → is_Some (rest !! a) → is_Some (m !! a) ∧ owned (delete a m) bs (delete a rest).
Proof.
  intros [Hn Ha Hm Hr] [sz Hsz]. assert (a ∉ bs) as Hab by (intros Hin; by rewrite Ha in Hsz).
  split; [rewrite Hr by done; by eexists|]. split.
  - done.
  - intros b Hb. apply lookup_delete_None. right. by apply Ha.
  - intros b Hb. rewrite lookup_delete_ne by congruence. by apply Hm.
  - intros b Hb. destruct (decide (b = a)) as [->|]; [by rewrite !lookup_delete_eq|].
    rewrite !lookup_delete_ne by done. by apply Hr.
Qed.

Lemma owned_elem m bs rest b : owned m bs rest → b ∈ bs → is_Some (m !! b).
Proof. intros []; eauto. Qed.
End owned.

(** ** A heap on a processor

    The simple heap of KMem.v beside a processor, for examples. *)
Module CpuHeap.
Definition t : Type := cpu * SimpleHeap.t.

#[global] Instance heap : KHeap t :=
  {| kmalloc sz := zoom snd (λ h s, (s.1, h)) (SimpleHeap.malloc sz);
     kfree p := zoom snd (λ h s, (s.1, h)) (SimpleHeap.free p) |}.

Lemma malloc_ok (s : t) m sz :
  running s.1 ∧ SimpleHeap.owns s.2 m → 0 ≤ sz →
  wp safe_oom (kmalloc sz) s
    (λ p s', s'.1 = s.1 ∧
       ((p = 0 ∧ running s'.1 ∧ SimpleHeap.owns s'.2 m) ∨
        (p ≠ 0 ∧ m !! p = None ∧ running s'.1 ∧ SimpleHeap.owns s'.2 (<[p := sz]> m)))) noerr.
Proof.
  intros [Hr Ho] Hsz. apply wp_zoom. eapply wp_mono; [by apply SimpleHeap.owns_malloc| |done].
  intros p h [[-> ?]|(? & ? & ?)]; (split; [done|]); [left|right]; by split_and!.
Qed.

Lemma free_ok (s : t) m p :
  running s.1 ∧ SimpleHeap.owns s.2 m → is_Some (m !! p) →
  wp safe (kfree p) s
    (λ _ s', s'.1 = s.1 ∧ running s'.1 ∧ SimpleHeap.owns s'.2 (delete p m)) noerr.
Proof.
  intros [Hr Ho] Hp. apply wp_zoom. eapply wp_mono; [by apply SimpleHeap.owns_free| |done].
  intros [] h ?. by split_and!.
Qed.

#[global, refine] Instance laws : KHeapLaws t :=
  {| heap_owns s m := running s.1 ∧ SimpleHeap.owns s.2 m |}.
Proof.
  - intros s m [_ Ho]. by apply (heap_owns_null s.2).
  - intros s m a n b k [_ Ho]. by apply (heap_owns_disjoint s.2 m).
  - intros s m sz Hs [Hsz _]. eapply wp_mono; [by apply malloc_ok| |done]. by intros p s' [_ ?].
  - intros s m p Hs Hp. eapply wp_mono; [by apply free_ok| |done]. by intros p' s' [_ ?].
  - intros [c h]. done.
Defined.

#[global, refine] Instance heap_cpu : KHeapCpu t := {}.
Proof.
  - by intros h m [? _].
  - by intros h m c [_ ?] ?.
  - intros h m sz Hh [Hsz _]. by apply malloc_ok.
  - intros h m p Hh Hp. by apply free_ok.
Defined.

(** The heap whose blocks, of one byte, are [bs] *)
Definition blocks (bs : list Z) : gmap Z Z := list_to_map ((λ b, (b, 1)) <$> bs).
Definition of_blocks (c : cpu) (bs : list Z) (budget : nat) : t :=
  (c, {| SimpleHeap.next := 2 ^ 20; SimpleHeap.live := blocks bs; SimpleHeap.budget := budget |}).

Lemma blocks_lookup bs b : blocks bs !! b = if decide (b ∈ bs) then Some 1 else None.
Proof.
  unfold blocks. induction bs as [|a bs IH]; cbn.
  - rewrite decide_False by (by intros ?%elem_of_nil). apply lookup_empty.
  - destruct (decide (b = a)) as [->|]; [rewrite lookup_insert_eq, decide_True by left; done|].
    rewrite lookup_insert_ne by done. rewrite IH.
    destruct (decide (b ∈ bs)); [by rewrite decide_True by (by right)|].
    by rewrite decide_False by (by rewrite not_elem_of_cons).
Qed.

Lemma of_blocks_owns c bs budget :
  running c → Forall (λ b, 0 < b < 2 ^ 20) bs → heap_owns (of_blocks c bs budget) (blocks bs).
Proof.
  intros Hc Hbs. split; [done|].
  assert (∀ p sz, blocks bs !! p = Some sz → sz = 1 ∧ 0 < p < 2 ^ 20) as Hb.
  { intros p sz. rewrite blocks_lookup. case_decide as Hin; [|done]. intros [= <-].
    split; [done|]. by eapply list.Forall_forall in Hbs. }
  split; cbn; [done|lia| |].
  - intros p sz Hp. destruct (Hb p sz Hp). lia.
  - intros p sz q sz' Hp Hq Hne. destruct (Hb p sz Hp), (Hb q sz' Hq). lia.
Qed.

Lemma blocks_owned bs : NoDup bs → owned (blocks bs) bs ∅.
Proof.
  intros Hn. split; [done|done|..]; intros b Hb; rewrite blocks_lookup.
  - by rewrite decide_True.
  - by rewrite decide_False.
Qed.
End CpuHeap.
