(* ===== verification/LinkedList.v ===== *)
(** * Doubly linked lists (kern/lib/linkedlist.c)

    Lists and their elements are reached by their address. The theorems refine the
    pointers to a sequence of values. *)

From Stdlib Require Import ZArith Lia.
From stdpp Require Import base list gmap numbers.
From S2P Require Import Prelude KMem HeapCpu.

Local Open Scope Z_scope.

(** [struct linkedlist] and [struct listelement] *)
Record linkedlist := MkLl { first : Z; last : Z }.
Record listelement := MkEl { el_list : Z; el_next : Z; previous : Z; el_value : Z }.

Definition sizeof_linkedlist : Z := 8.
Definition sizeof_listelement : Z := 16.

(** The lists and elements there are *)
Record lls := MkLls { lists : gmap Z linkedlist; els : gmap Z listelement }.

Section operations.
Context `{!KHeap H}.

Definition LS : Type := H * lls.

Definition get_list p : M LS linkedlist := s ← get; the (lists s.2 !! p).
Definition put_list p l : M LS () := on_data (modify (λ d, MkLls (<[p := l]> (lists d)) (els d))).
Definition get_el p : M LS listelement := s ← get; the (els s.2 !! p).
Definition put_el p e : M LS () := on_data (modify (λ d, MkLls (lists d) (<[p := e]> (els d)))).

Definition set_next n e : listelement := MkEl (el_list e) n (previous e) (el_value e).
Definition set_previous n e : listelement := MkEl (el_list e) (el_next e) n (el_value e).

Definition ll_create : M LS Z :=
  list ← on_heap (kmalloc sizeof_linkedlist);
  if list =? 0 then mret 0 else
  put_list list (MkLl 0 0);;
  mret list.

Definition ll_add_to_end list value : M LS Z :=
  el ← on_heap (kmalloc sizeof_listelement);
  if el =? 0 then mret 0 else
  l ← get_list list;
  put_el el (MkEl list 0 (last l) value);;
  (if negb (last l =? 0) then
     e ← get_el (last l);
     put_el (last l) (set_next el e);;
     put_list list (MkLl (first l) el)
   else put_list list (MkLl el el));;
  mret el.

Definition ll_add_to_front list value : M LS Z :=
  el ← on_heap (kmalloc sizeof_listelement);
  if el =? 0 then mret 0 else
  l ← get_list list;
  put_el el (MkEl list (first l) 0 value);;
  (if negb (first l =? 0) then
     e ← get_el (first l);
     put_el (first l) (set_previous el e);;
     put_list list (MkLl el (last l))
   else put_list list (MkLl el el));;
  mret el.

Definition ll_remove el : M LS Z :=
  e ← get_el el;
  let list := el_list e in
  let next := el_next e in
  l ← get_list list;
  when (first l =? el) (put_list list (MkLl (el_next e) (last l)));;
  l ← get_list list;
  when (last l =? el) (put_list list (MkLl (first l) (previous e)));;
  when (negb (previous e =? 0)) (p ← get_el (previous e); put_el (previous e) (set_next (el_next e) p));;
  when (negb (el_next e =? 0)) (n ← get_el (el_next e); put_el (el_next e) (set_previous (previous e) n));;
  on_heap (kfree el);;
  on_data (modify (λ d, MkLls (lists d) (delete el (els d))));;
  mret next.

(** The loop of [ll_destroy] *)
Fixpoint destroy_els (fuel : nat) next : M LS () :=
  if next =? 0 then mret tt else
  match fuel with
  | O => noreturn
  | Datatypes.S fuel =>
    e ← get_el next;
    on_heap (kfree next);;
    on_data (modify (λ d, MkLls (lists d) (delete next (els d))));;
    destroy_els fuel (el_next e)
  end.

(** [fuel] bounds the length of the list. *)
Definition ll_destroy (fuel : nat) list : M LS () :=
  l ← get_list list;
  destroy_els fuel (first l);;
  on_heap (kfree list);;
  on_data (modify (λ d, MkLls (delete list (lists d)) (els d))).
End operations.
Arguments LS H : clear implicits.

(** ** The sequence behind the pointers *)

(** The address of the element at [i], or 0 *)
Definition addr (l : list (Z * Z)) (i : nat) : Z := from_option fst 0 (l !! i).
Definition addr_before (l : list (Z * Z)) (i : nat) : Z := if i is Datatypes.S i then addr l i else 0.

(** The list at [p] consists of the elements [l], addresses with values. *)
Record ll_rep (d : lls) (p : Z) (l : list (Z * Z)) : Prop := {
  lr_list : lists d !! p = Some (MkLl (addr l 0) (addr_before l (length l)));
  lr_els i a v : l !! i = Some (a, v) → els d !! a = Some (MkEl p (addr l (S i)) (addr_before l i) v);
  lr_nonnull i a v : l !! i = Some (a, v) → a ≠ 0;
  lr_nodup : NoDup l.*1;
}.

(** Lists other than [p] and their elements are as before. *)
Definition others_kept (p : Z) (d d' : lls) : Prop :=
  (∀ q, q ≠ p → lists d' !! q = lists d !! q) ∧
  (∀ a e, els d !! a = Some e → el_list e ≠ p → els d' !! a = Some e).

Lemma others_kept_rep p d d' q k : others_kept p d d' → q ≠ p → ll_rep d q k → ll_rep d' q k.
Proof.
  intros [Hl He] Hq [H1 H2 H3 H4]. split; [by rewrite Hl| |done|done].
  intros i a v Hi. apply He; [by apply H2|done].
Qed.

Section lemmas.
Implicit Types (l : list (Z * Z)) (d : lls).

Lemma addr_lookup l i a v : l !! i = Some (a, v) → addr l i = a.
Proof. intros Hi. unfold addr. by rewrite Hi. Qed.
Lemma addr_app_l l k i : (i < length l)%nat → addr (l ++ k) i = addr l i.
Proof. intros Hi. unfold addr. by rewrite lookup_app_l. Qed.
Lemma addr_app_r l k i : (length l ≤ i)%nat → addr (l ++ k) i = addr k (i - length l).
Proof. intros Hi. unfold addr. by rewrite lookup_app_r. Qed.
Lemma addr_end l i : (length l ≤ i)%nat → addr l i = 0.
Proof. intros Hi. unfold addr. by rewrite lookup_ge_None_2. Qed.
Lemma addr_before_app_l l k i : (i ≤ length l)%nat → addr_before (l ++ k) i = addr_before l i.
Proof. destruct i; [done|]. cbn. intros. apply addr_app_l. lia. Qed.
Lemma addr_before_pos l i : (0 < i)%nat → addr_before l i = addr l (i - 1).
Proof. destruct i; [lia|]. cbn. by rewrite Nat.sub_0_r. Qed.

Lemma rep_inj d p l i j a v w : ll_rep d p l → l !! i = Some (a, v) → l !! j = Some (a, w) → i = j.
Proof.
  intros Hr Hi Hj. eapply NoDup_lookup; [apply Hr|..]; rewrite list_lookup_fmap.
  - by rewrite Hi.
  - by rewrite Hj.
Qed.

(** An address in the list is that of one of its elements. *)
Lemma addr_elem l i : addr l i ≠ 0 → ∃ v, l !! i = Some (addr l i, v).
Proof. unfold addr. destruct (l !! i) as [[a v]|]; [|done]. eauto. Qed.

Lemma rep_addr d p l i : ll_rep d p l → (i < length l)%nat → ∃ a v, l !! i = Some (a, v) ∧ addr l i = a ∧ a ≠ 0.
Proof.
  intros Hr Hi. destruct (lookup_lt_is_Some_2 l i Hi) as [[a v] Ha]. exists a, v. split; [done|].
  split; [by eapply addr_lookup|]. by eapply lr_nonnull.
Qed.

Lemma addr_inj d p l i j : ll_rep d p l → addr l i = addr l j → addr l i ≠ 0 → i = j.
Proof.
  intros Hr Heq H0. destruct (addr_elem _ _ H0) as [v Hi]. rewrite Heq in H0. destruct (addr_elem _ _ H0) as [w Hj].
  rewrite <- Heq in Hj. by eapply rep_inj.
Qed.

(** A fresh element is in no list. *)
Lemma fresh_not_in d p l a i v : ll_rep d p l → els d !! a = None → l !! i = Some (a, v) → False.
Proof. intros Hr Ha Hi. apply (lr_els _ _ _ Hr) in Hi. congruence. Qed.

Lemma snoc_lookup (l : list (Z * Z)) x i y :
  (l ++ [x]) !! i = Some y ↔ l !! i = Some y ∧ (i < length l)%nat ∨ i = length l ∧ y = x.
Proof.
  destruct (Nat.lt_ge_cases i (length l)) as [Hi|Hi].
  - rewrite lookup_app_l by done. split; [by left|]. intros [[? _]|[-> _]]; [done|lia].
  - rewrite lookup_app_r by done. destruct (i - length l)%nat eqn:Hd.
    + assert (i = length l) as -> by lia. cbn. split; [intros [= ->]; by right|]. intros [[_ ?]|[_ ->]]; [lia|done].
    + cbn. split; [done|]. intros [[_ ?]|[-> _]]; lia.
Qed.

(** ** Appending *)

Definition after_append d p l (a v : Z) : lls :=
  let e' := MkEl p 0 (addr_before l (length l)) v in
  if l is [] then MkLls (<[p := MkLl a a]> (lists d)) (<[a := e']> (els d))
  else
    let la := addr_before l (length l) in
    MkLls (<[p := MkLl (addr l 0) a]> (lists d)) (alter (set_next a) la (<[a := e']> (els d))).

Lemma append_rep d p l a v :
  ll_rep d p l → a ≠ 0 → els d !! a = None →
  ll_rep (after_append d p l a v) p (l ++ [(a, v)]) ∧ others_kept p d (after_append d p l a v).
Proof.
  intros Hr Ha Hna. pose proof Hr as [Hl He Hn Hd].
  assert (∀ i b w, l !! i = Some (b, w) → b ≠ a) as Hba by (intros i b w Hi ->; by eapply fresh_not_in).
  assert (NoDup (l ++ [(a, v)]).*1) as Hnd.
  { rewrite fmap_app. apply list.NoDup_app. split; [done|]. split; [|apply NoDup_singleton].
    intros b Hb. apply list_elem_of_fmap in Hb as ([c w] & -> & Hb). apply list_elem_of_lookup in Hb as [i Hi]. apply Hba in Hi. set_solver. }
  assert (∀ i b w, (l ++ [(a, v)]) !! i = Some (b, w) → b ≠ 0) as Hnn.
  { intros i b w [[Hi _]|[_ [= -> ->]]]%snoc_lookup; [by eapply Hn|done]. }
  unfold after_append. destruct l as [|x l'] eqn:Hll.
  - split.
    + split; [cbn; by rewrite lookup_insert_eq| |done|done]. intros i b w [[? _]|[-> [= -> ->]]]%snoc_lookup; [done|].
      cbn. by rewrite lookup_insert_eq.
    + split; cbn; [intros q Hq; by rewrite lookup_insert_ne|]. intros b e Hb _. rewrite lookup_insert_ne by congruence. done.
  - rewrite <- Hll in *. assert (0 < length l)%nat as Hlen by (subst l; cbn; lia). clear x l' Hll.
    rewrite (addr_before_pos _ (length l)) by done.
    destruct (rep_addr d p l (length l - 1) Hr) as (z & vz & Hz & Hza & Hz0); [lia|]. rewrite Hza.
    split.
    + split; cbn [lists els]; [| |done|done].
      * rewrite lookup_insert_eq, length_app. f_equal. f_equal; [symmetry; apply addr_app_l; lia|].
        cbn. rewrite Nat.add_1_r. cbn. rewrite addr_app_r, Nat.sub_diag by lia. done.
      * intros i b w [[Hi Hil]|[-> [= -> ->]]]%snoc_lookup.
        -- pose proof (Hba _ _ _ Hi) as Hb. destruct (decide (z = b)) as [->|Hzb].
           ++ rewrite lookup_alter_eq, lookup_insert_ne by done. pose proof (rep_inj _ _ _ _ _ _ _ _ Hr Hi Hz) as ->.
              rewrite (He _ _ _ Hi). cbn. rewrite addr_before_app_l by lia. f_equal.
              replace (S (length l - 1)) with (length l) by lia.
              rewrite addr_app_r, Nat.sub_diag by lia. done.
           ++ rewrite lookup_alter_ne, lookup_insert_ne by done. rewrite (He _ _ _ Hi). rewrite addr_before_app_l by lia.
              rewrite addr_app_l; [done|]. assert (i ≠ length l - 1)%nat by congruence. lia.
        -- rewrite lookup_alter_ne by (by eapply Hba). rewrite lookup_insert_eq.
           rewrite addr_before_app_l by lia. rewrite addr_before_pos, Hza by lia. f_equal. f_equal.
           symmetry. apply addr_end. rewrite length_app. cbn. lia.
    + split; cbn [lists els]; [intros q Hq; by rewrite lookup_insert_ne|]. intros b e Hb Hbe.
      rewrite lookup_alter_ne, lookup_insert_ne; [done|congruence|]. intros <-. rewrite (He _ _ _ Hz) in Hb.
      by simplify_eq.
Qed.

(** ** Adding in front *)

Definition after_prepend d p l (a v : Z) : lls :=
  let e' := MkEl p (addr l 0) 0 v in
  if l is [] then MkLls (<[p := MkLl a a]> (lists d)) (<[a := e']> (els d))
  else
    MkLls (<[p := MkLl a (addr_before l (length l))]> (lists d))
      (alter (set_previous a) (addr l 0) (<[a := e']> (els d))).

Lemma prepend_rep d p l a v :
  ll_rep d p l → a ≠ 0 → els d !! a = None →
  ll_rep (after_prepend d p l a v) p ((a, v) :: l) ∧ others_kept p d (after_prepend d p l a v).
Proof.
  intros Hr Ha Hna. pose proof Hr as [Hl He Hn Hd].
  assert (∀ i b w, l !! i = Some (b, w) → b ≠ a) as Hba by (intros i b w Hi ->; by eapply fresh_not_in).
  assert (NoDup ((a, v) :: l).*1) as Hnd.
  { cbn. apply list.NoDup_cons. split; [|done]. intros Hb.
    apply list_elem_of_fmap in Hb as ([c w] & -> & Hb). apply list_elem_of_lookup in Hb as [i Hi]. by apply Hba in Hi. }
  assert (∀ i b w, ((a, v) :: l) !! i = Some (b, w) → b ≠ 0) as Hnn.
  { intros [|i] b w Hi; [by injection Hi as <- <-|by eapply Hn]. }
  unfold after_prepend. destruct l as [|x l'] eqn:Hll.
  - destruct (append_rep d p [] a v Hr Ha Hna) as [H1 H2]. done.
  - rewrite <- Hll in *. assert (0 < length l)%nat as Hlen by (subst l; cbn; lia). clear x l' Hll.
    destruct (rep_addr d p l 0 Hr) as (z & vz & Hz & Hza & Hz0); [done|]. rewrite Hza.
    split.
    + split; cbn [lists els]; [| |done|done].
      * rewrite lookup_insert_eq. f_equal. f_equal. cbn [length addr_before].
        rewrite addr_before_pos by done. destruct (length l) as [|n]; [lia|]. cbn. by rewrite Nat.sub_0_r.
      * intros [|i] b w Hi.
        -- injection Hi as <- <-. rewrite lookup_alter_ne by (by eapply Hba). rewrite lookup_insert_eq. cbn.
           by rewrite <- Hza.
        -- change (l !! i = Some (b, w)) in Hi. pose proof (Hba _ _ _ Hi) as Hb. change (addr ((a, v) :: l) (S (S i))) with (addr l (S i)).
           destruct (decide (z = b)) as [->|Hzb].
           ++ rewrite lookup_alter_eq, lookup_insert_ne by done. pose proof (rep_inj _ _ _ _ _ _ _ _ Hr Hi Hz) as ->.
              by rewrite (He _ _ _ Hi).
           ++ rewrite lookup_alter_ne, lookup_insert_ne by done. rewrite (He _ _ _ Hi). f_equal. f_equal.
              destruct i; [congruence|]. done.
    + split; cbn [lists els]; [intros q Hq; by rewrite lookup_insert_ne|]. intros b e Hb Hbe.
      rewrite lookup_alter_ne, lookup_insert_ne; [done|congruence|]. intros <-. rewrite (He _ _ _ Hz) in Hb.
      by simplify_eq.
Qed.

(** ** Removing *)

(** An update through a pointer that may be [NULL] *)
Definition alter_nonnull (f : listelement → listelement) (a : Z) (m : gmap Z listelement) : gmap Z listelement :=
  if a =? 0 then m else alter f a m.

Definition after_remove d p (l1 : list (Z * Z)) (a : Z) (l2 : list (Z * Z)) : lls :=
  let prev := addr_before l1 (length l1) in
  let next := addr l2 0 in
  MkLls (<[p := MkLl (addr (l1 ++ l2) 0) (addr_before (l1 ++ l2) (length (l1 ++ l2)))]> (lists d))
    (delete a (alter_nonnull (set_previous prev) next (alter_nonnull (set_next next) prev (els d)))).

Lemma lookup_alter_nonnull f a m b :
  b ≠ 0 → alter_nonnull f a m !! b = if decide (a = b) then f <$> m !! b else m !! b.
Proof.
  intros Hb. unfold alter_nonnull. destruct (Z.eqb_spec a 0) as [->|Ha]; case_decide as Hd; subst; try done.
  - by rewrite lookup_alter_eq.
  - by rewrite lookup_alter_ne.
Qed.

(** Where an element of the shorter list was before *)
Lemma remove_index l1 x l2 i : (l1 ++ l2) !! i = (l1 ++ x :: l2) !! (if decide (i < length l1)%nat then i else S i).
Proof.
  case_decide; [by rewrite !lookup_app_l|]. rewrite !lookup_app_r by lia.
  by replace (S i - length l1)%nat with (S (i - length l1)) by lia.
Qed.

Lemma remove_rep d p l1 a v l2 :
  ll_rep d p (l1 ++ (a, v) :: l2) →
  ll_rep (after_remove d p l1 a l2) p (l1 ++ l2) ∧ others_kept p d (after_remove d p l1 a l2).
Proof.
  intros Hr. pose proof Hr as [Hl He Hn Hd]. set (l := l1 ++ (a, v) :: l2) in *.
  assert (l !! length l1 = Some (a, v)) as Hla by (unfold l; by rewrite lookup_app_r, Nat.sub_diag).
  assert (∀ i, addr (l1 ++ l2) i = addr l (if decide (i < length l1)%nat then i else S i)) as Haddr.
  { intros i. unfold addr. by rewrite (remove_index l1 (a, v) l2 i). }
  assert (addr_before l (length l1) = addr_before l1 (length l1)) as Hprev by (by apply addr_before_app_l).
  assert (addr l (S (length l1)) = addr l2 0) as Hnext.
  { unfold l. rewrite addr_app_r by lia. by replace (S (length l1) - length l1)%nat with 1%nat by lia. }
  assert (∀ b i w, l !! i = Some (b, w) → i ≠ length l1 →
    els (after_remove d p l1 a l2) !! b = Some (MkEl p
      (if decide (S i = length l1) then addr l2 0 else addr l (S i))
      (if decide (i = S (length l1)) then addr_before l1 (length l1) else addr_before l i) w)) as Hels.
  { intros b i w Hi Hne. pose proof (Hn _ _ _ Hi) as Hb0. cbn [after_remove els].
    rewrite lookup_delete_ne by (intros ->; apply Hne; by eapply rep_inj).
    rewrite !lookup_alter_nonnull by done. rewrite (He _ _ _ Hi), <- Hprev, <- Hnext.
    assert (addr_before l (length l1) = b ↔ S i = length l1) as Hp.
    { split; [|intros <-; by eapply addr_lookup]. destruct (length l1) as [|n]; [by intros <-|]. cbn. intros Hb.
      f_equal. apply (addr_inj d p l); [done| |]; rewrite (addr_lookup l i b w) by done; done. }
    assert (addr l (S (length l1)) = b ↔ i = S (length l1)) as Hx.
    { split; [|intros ->; by eapply addr_lookup]. intros Hb.
      apply (addr_inj d p l); [done| |]; rewrite (addr_lookup l i b w) by done; done. }
    repeat case_decide; cbn; try done; tauto || lia. }
  split.
  - split; [cbn; by rewrite lookup_insert_eq| | |].
    + intros i b w Hi. rewrite (remove_index l1 (a, v)) in Hi. rewrite Haddr.
      assert (addr_before (l1 ++ l2) i = if decide (i = length l1) then addr_before l1 (length l1)
        else addr_before l (if decide (i < length l1)%nat then i else S i)) as ->.
      { destruct (decide (i = length l1)) as [->|Hne1]; [by apply addr_before_app_l|].
        destruct (decide (i < length l1)%nat); [unfold l; by rewrite !addr_before_app_l by lia|].
        rewrite addr_before_pos, Haddr by lia. rewrite decide_False by lia. cbn.
        by replace (S (i - 1)) with i by lia. }
      rewrite (Hels b _ w Hi) by (case_decide; lia). f_equal. f_equal; repeat case_decide; try done; lia || congruence.
    + intros i b w Hi. rewrite (remove_index l1 (a, v)) in Hi. by eapply Hn.
    + eapply sublist_NoDup; [exact Hd|]. unfold l. rewrite !fmap_app. apply sublist_app; [done|]. by apply sublist_cons.
  - split; cbn [after_remove lists els]; [intros q Hq; by rewrite lookup_insert_ne|]. intros b e Hb Hbe.
    assert (∀ i, addr l i = 0 ∨ addr l i ≠ b) as Hout.
    { intros i. destruct (decide (addr l i = 0)) as [|H0]; [by left|right]. intros <-.
      destruct (addr_elem _ _ H0) as [w Hi]. rewrite (He _ _ _ Hi) in Hb. by simplify_eq. }
    assert (∀ f x m, x = 0 ∨ x ≠ b → alter_nonnull f x m !! b = m !! b) as Hkeep.
    { intros f x m Hx. unfold alter_nonnull. destruct (Z.eqb_spec x 0); [done|]. destruct Hx; [done|]. by rewrite lookup_alter_ne. }
    rewrite lookup_delete_ne.
    + rewrite !Hkeep; [done| |rewrite <- Hnext; apply Hout]. rewrite <- Hprev. destruct (length l1); [by left|apply Hout].
    + intros <-. destruct (Hout (length l1)) as [H0|H0]; rewrite (addr_lookup _ _ _ _ Hla) in H0; [|done]. by eapply Hn.
Qed.
End lemmas.

(** ** The operations *)

Definition keys {A} (m : gmap Z A) : list Z := (map_to_list m).*1.

Lemma elem_of_keys {A} (m : gmap Z A) a : a ∈ keys m ↔ is_Some (m !! a).
Proof.
  unfold keys. rewrite list_elem_of_fmap. split.
  - intros ([b x] & -> & Hb%elem_of_map_to_list). by eexists.
  - intros [x Hx]. exists (a, x). split; [done|]. by apply elem_of_map_to_list.
Qed.

(** The blocks do not depend on what is in them. *)
Lemma keys_same {A B} (m : gmap Z A) (m' : gmap Z B) :
  (∀ a, is_Some (m !! a) ↔ is_Some (m' !! a)) → keys m ≡ₚ keys m'.
Proof.
  intros Hd. apply NoDup_Permutation; [apply NoDup_fst_map_to_list..|]. intros a. by rewrite !elem_of_keys.
Qed.

Lemma keys_insert {A} (m : gmap Z A) a x : m !! a = None → keys (<[a := x]> m) ≡ₚ a :: keys m.
Proof. intros Ha. unfold keys. by rewrite map_to_list_insert. Qed.

Lemma keys_delete {A} (m : gmap Z A) a : is_Some (m !! a) → keys m ≡ₚ a :: keys (delete a m).
Proof. intros [x Hx]. unfold keys. by rewrite <- (map_to_list_delete m a x Hx). Qed.

Lemma alter_dom (f : listelement → listelement) a b (m : gmap Z listelement) :
  is_Some (alter f a m !! b) ↔ is_Some (m !! b).
Proof. destruct (decide (a = b)) as [->|]; [rewrite lookup_alter_eq, fmap_is_Some|rewrite lookup_alter_ne]; done. Qed.

(** The live blocks of the heap are those of the lists and [rest]. *)
Definition ll_ok `{!KHeap H} `{!KHeapLaws H} (s : LS H) (rest : gmap Z Z) : Prop :=
  ∃ m, heap_owns s.1 m ∧ owned m (keys (lists s.2) ++ keys (els s.2)) rest.

Section operations_ok.
Context `{!KHeap H} `{!KHeapLaws H}.
Implicit Types (s : LS H) (d : lls) (l : list (Z * Z)) (h : H).

Lemma fresh_el h m d a rest :
  owned m (keys (lists d) ++ keys (els d)) rest → m !! a = None → els d !! a = None ∧ lists d !! a = None.
Proof.
  intros Ho Ha. split; [destruct (els d !! a) eqn:He|destruct (lists d !! a) eqn:He]; try done; exfalso;
    destruct (owned_elem _ _ _ a Ho) as [n Hn]; [|congruence| |congruence];
    apply elem_of_app; [right|left]; apply elem_of_keys; by eexists.
Qed.

(** A new element: the keys are those of before and the new one. *)
Lemma new_el_owned m d a sz rest L E :
  owned m (keys (lists d) ++ keys (els d)) rest → m !! a = None → els d !! a = None →
  (∀ b, is_Some (L !! b) ↔ is_Some (lists d !! b)) →
  (∀ b, is_Some (E !! b) ↔ b = a ∨ is_Some (els d !! b)) →
  owned (<[a := sz]> m) (keys (A := linkedlist) L ++ keys (A := listelement) E) rest.
Proof.
  intros Ho Ha Hna HL HE. eapply owned_perm; [|by apply owned_alloc].
  rewrite (keys_same L (lists d)) by done.
  assert (keys E ≡ₚ keys (<[a := MkEl 0 0 0 0]> (els d))) as ->.
  { apply keys_same. intros b. rewrite HE, lookup_insert_is_Some'. naive_solver. }
  rewrite keys_insert by done. solve_Permutation.
Qed.

Lemma wp_get_list F s p x (Q : linkedlist → LS H → Prop) E :
  lists s.2 !! p = Some x → Q x s → wp F (get_list p) s Q E.
Proof. intros Hx HQ. unfold get_list. wp_steps. by apply (wp_the _ _ x). Qed.
Lemma wp_get_el F s a e (Q : listelement → LS H → Prop) E :
  els s.2 !! a = Some e → Q e s → wp F (get_el a) s Q E.
Proof. intros Hx HQ. unfold get_el. wp_steps. by apply (wp_the _ _ e). Qed.

Lemma last_elem d p l :
  ll_rep d p l → (addr_before l (length l) = 0 ∧ l = []) ∨
  ∃ x l' e, l = x :: l' ∧ addr_before l (length l) ≠ 0 ∧ els d !! addr_before l (length l) = Some e.
Proof.
  intros Hr. destruct l as [|x l'] eqn:Hl; [by left|right]. rewrite <- Hl in *.
  rewrite addr_before_pos by (subst l; cbn; lia).
  destruct (rep_addr d p l (length l - 1) Hr) as (z & vz & Hz & Hza & Hz0); [subst l; cbn; lia|].
  rewrite Hza. apply (lr_els _ _ _ Hr) in Hz. eauto 10.
Qed.

Lemma first_elem d p l :
  ll_rep d p l → (addr l 0 = 0 ∧ l = []) ∨ ∃ x l' e, l = x :: l' ∧ addr l 0 ≠ 0 ∧ els d !! addr l 0 = Some e.
Proof.
  intros Hr. destruct l as [|x l'] eqn:Hl; [by left|right]. rewrite <- Hl in *.
  destruct (rep_addr d p l 0 Hr) as (z & vz & Hz & Hza & Hz0); [subst l; cbn; lia|].
  rewrite Hza. apply (lr_els _ _ _ Hr) in Hz. eauto 10.
Qed.

Lemma alter_Some (f : listelement → listelement) a e (m : gmap Z listelement) :
  m !! a = Some e → alter f a m = <[a := f e]> m.
Proof.
  intros He. apply map_eq. intros b. destruct (decide (a = b)) as [->|].
  - by rewrite lookup_alter_eq, lookup_insert_eq, He.
  - by rewrite lookup_alter_ne, lookup_insert_ne.
Qed.

Lemma ll_add_to_end_ok s p l v rest :
  ll_ok s rest → ll_rep s.2 p l →
  wp safe_oom (ll_add_to_end p v) s
    (λ a s', ll_ok s' rest ∧ (a = 0 ∧ s'.2 = s.2 ∨
       a ≠ 0 ∧ els s.2 !! a = None ∧ s'.2 = after_append s.2 p l a v)) noerr.
Proof.
  destruct s as [h d]. intros (m & Hm & Ho) Hr. cbn [fst snd] in *. unfold ll_add_to_end, put_list, put_el. mem_steps.
  eapply (wp_kmalloc h m d); [done|done|intros h' Hh'; cbn [Z.eqb]; mem_steps; split; [by exists m|by left]|].
  intros a h' Ha Hma Hh'. destruct (Z.eqb_spec a 0); [done|]. destruct (fresh_el h m d a rest Ho Hma) as [Hna _]. wp_steps.
  eapply wp_get_list; [apply Hr|]. mem_steps. cbn [first last].
  destruct (last_elem d p l Hr) as [[H0 ->]|(x & l' & e & Hl & H0 & He)].
  - cbn. mem_steps. split; [|by right]. exists (<[a := sizeof_listelement]> m). split; [done|]. eapply new_el_owned; [done..| |].
    + intros b. cbn. rewrite lookup_insert_is_Some'. pose proof (lr_list _ _ _ Hr). naive_solver.
    + intros b. cbn. rewrite lookup_insert_is_Some'. naive_solver.
  - destruct (Z.eqb_spec (addr_before l (length l)) 0); [done|]. cbn [negb]. mem_steps.
    set (e' := MkEl p 0 (addr_before l (length l)) v).
    assert (<[a := e']> (els d) !! addr_before l (length l) = Some e) as He'.
    { rewrite lookup_insert_ne; [done|]. congruence. }
    eapply wp_get_el; [exact He'|]. mem_steps. cbn [fst snd lists els].
    assert (MkLls (<[p := MkLl (addr l 0) a]> (lists d)) (<[addr_before l (length l) := set_next a e]> (<[a := e']> (els d)))
      = after_append d p l a v) as Heq.
    { unfold after_append. rewrite Hl. rewrite <- Hl. by rewrite (alter_Some _ _ _ _ He'). }
    rewrite Heq. split; [|by right]. exists (<[a := sizeof_listelement]> m). split; [done|]. cbn [snd]. rewrite <- Heq.
    eapply new_el_owned; [done..| |].
    + intros b. cbn. rewrite lookup_insert_is_Some'. pose proof (lr_list _ _ _ Hr). naive_solver.
    + intros b. cbn. rewrite !lookup_insert_is_Some'. naive_solver.
Qed.

Lemma ll_add_to_front_ok s p l v rest :
  ll_ok s rest → ll_rep s.2 p l →
  wp safe_oom (ll_add_to_front p v) s
    (λ a s', ll_ok s' rest ∧ (a = 0 ∧ s'.2 = s.2 ∨
       a ≠ 0 ∧ els s.2 !! a = None ∧ s'.2 = after_prepend s.2 p l a v)) noerr.
Proof.
  destruct s as [h d]. intros (m & Hm & Ho) Hr. cbn [fst snd] in *. unfold ll_add_to_front, put_list, put_el. mem_steps.
  eapply (wp_kmalloc h m d); [done|done|intros h' Hh'; cbn [Z.eqb]; mem_steps; split; [by exists m|by left]|].
  intros a h' Ha Hma Hh'. destruct (Z.eqb_spec a 0); [done|]. destruct (fresh_el h m d a rest Ho Hma) as [Hna _]. wp_steps.
  eapply wp_get_list; [apply Hr|]. mem_steps. cbn [first last].
  destruct (first_elem d p l Hr) as [[H0 ->]|(x & l' & e & Hl & H0 & He)].
  - cbn. mem_steps. split; [|by right]. exists (<[a := sizeof_listelement]> m). split; [done|]. eapply new_el_owned; [done..| |].
    + intros b. cbn. rewrite lookup_insert_is_Some'. pose proof (lr_list _ _ _ Hr). naive_solver.
    + intros b. cbn. rewrite lookup_insert_is_Some'. naive_solver.
  - destruct (Z.eqb_spec (addr l 0) 0); [done|]. cbn [negb]. mem_steps.
    set (e' := MkEl p (addr l 0) 0 v).
    assert (<[a := e']> (els d) !! addr l 0 = Some e) as He'.
    { rewrite lookup_insert_ne; [done|]. congruence. }
    eapply wp_get_el; [exact He'|]. mem_steps. cbn [fst snd lists els].
    assert (MkLls (<[p := MkLl a (addr_before l (length l))]> (lists d)) (<[addr l 0 := set_previous a e]> (<[a := e']> (els d)))
      = after_prepend d p l a v) as Heq.
    { unfold after_prepend. rewrite Hl. rewrite <- Hl. by rewrite (alter_Some _ _ _ _ He'). }
    rewrite Heq. split; [|by right]. exists (<[a := sizeof_listelement]> m). split; [done|]. cbn [snd]. rewrite <- Heq.
    eapply new_el_owned; [done..| |].
    + intros b. cbn. rewrite lookup_insert_is_Some'. pose proof (lr_list _ _ _ Hr). naive_solver.
    + intros b. cbn. rewrite !lookup_insert_is_Some'. naive_solver.
Qed.

(** The updates of the neighbours *)
Lemma alter_nonnull_ok F h d (f : listelement → listelement) a (Q : () → LS H → Prop) E :
  (a ≠ 0 → is_Some (els d !! a)) → Q tt (h, MkLls (lists d) (alter_nonnull f a (els d))) →
  wp F (when (negb (a =? 0)) (e ← get_el a; put_el a (f e))) (h, d) Q E.
Proof.
  intros Ha HQ. unfold alter_nonnull in HQ. apply wp_when; intros H0; destruct (Z.eqb_spec a 0) as [|Hne]; try done.
  - destruct (Ha Hne) as [e He]. wp_steps. eapply wp_get_el; [exact He|]. unfold put_el. mem_steps.
    by rewrite (alter_Some _ _ _ _ He) in HQ.
  - by destruct d.
Qed.

Lemma alter_nonnull_dom f a b (m : gmap Z listelement) : is_Some (alter_nonnull f a m !! b) ↔ is_Some (m !! b).
Proof. unfold alter_nonnull. destruct (a =? 0); [done|]. apply alter_dom. Qed.

Lemma addr_live d p l i : ll_rep d p l → addr l i ≠ 0 → is_Some (els d !! addr l i).
Proof. intros Hr H0. destruct (addr_elem _ _ H0) as [v Hi]. rewrite (lr_els _ _ _ Hr _ _ _ Hi). by eexists. Qed.

Lemma remove_ends d p l1 a v l2 :
  let l := l1 ++ (a, v) :: l2 in ll_rep d p l →
  addr (l1 ++ l2) 0 = (if addr l 0 =? a then addr l2 0 else addr l 0) ∧
  addr_before (l1 ++ l2) (length (l1 ++ l2)) =
    (if addr_before l (length l) =? a then addr_before l1 (length l1) else addr_before l (length l)).
Proof.
  intros l Hr. assert (l !! length l1 = Some (a, v)) as Hla by (unfold l; by rewrite lookup_app_r, Nat.sub_diag).
  pose proof (lr_nonnull _ _ _ Hr _ _ _ Hla) as Ha0. split.
  - destruct l1 as [|y l1']; [cbn; by rewrite Z.eqb_refl|]. destruct (Z.eqb_spec (addr l 0) a) as [Hf|]; [|done].
    assert (0 = length (y :: l1'))%nat; [|done]. apply (addr_inj d p l); [done| |congruence].
    by rewrite Hf, (addr_lookup _ _ _ _ Hla).
  - rewrite (addr_before_pos l) by (unfold l; rewrite length_app; cbn; lia). destruct l2 as [|y l2'].
    + rewrite app_nil_r. replace (length l - 1)%nat with (length l1) by (unfold l; rewrite length_app; cbn; lia).
      rewrite (addr_lookup _ _ _ _ Hla), Z.eqb_refl. done.
    + rewrite addr_before_pos by (rewrite length_app; cbn; lia).
      assert (length l - 1 = length l1 + length (y :: l2'))%nat as Hlen by (unfold l; rewrite length_app; cbn; lia).
      rewrite Hlen. destruct (Z.eqb_spec (addr l (length l1 + length (y :: l2'))) a) as [Hf|].
      * assert (length l1 + length (y :: l2') = length l1)%nat; [|cbn in *; lia]. apply (addr_inj d p l); [done| |congruence].
        by rewrite Hf, (addr_lookup _ _ _ _ Hla).
      * unfold l. rewrite length_app, !addr_app_r by (cbn; lia). unfold addr.
        replace (length l1 + length (y :: l2') - length l1)%nat with (S (length l2')) by (cbn; lia).
        by replace (length l1 + length (y :: l2') - 1 - length l1)%nat with (length l2') by (cbn; lia).
Qed.

(** A field of the list is set when the test is true; else it has that value already. *)
Lemma set_list_ok F h d x x' p (b : bool) y (Q : () → LS H → Prop) E :
  lists d !! p = Some x → x' = (if b then y else x) → Q tt (h, MkLls (<[p := x']> (lists d)) (els d)) →
  wp F (when b (put_list p y)) (h, d) Q E.
Proof.
  intros Hx -> HQ. unfold put_list. destruct b; cbn [when]; mem_steps; [done|].
  rewrite insert_id in HQ by done. by destruct d.
Qed.

Lemma ll_remove_ok s p l1 a v l2 rest :
  ll_ok s rest → ll_rep s.2 p (l1 ++ (a, v) :: l2) →
  wp safe (ll_remove a) s (λ r s', r = addr l2 0 ∧ ll_ok s' rest ∧ s'.2 = after_remove s.2 p l1 a l2) noerr.
Proof.
  destruct s as [h d]. intros (m & Hm & Ho) Hr. cbn [fst snd] in *. set (l := l1 ++ (a, v) :: l2) in *.
  assert (l !! length l1 = Some (a, v)) as Hla by (unfold l; by rewrite lookup_app_r, Nat.sub_diag).
  assert (addr_before l (length l1) = addr_before l1 (length l1)) as Hprev by (by apply addr_before_app_l).
  assert (addr l (S (length l1)) = addr l2 0) as Hnext.
  { unfold l. rewrite addr_app_r by lia. by replace (S (length l1) - length l1)%nat with 1%nat by lia. }
  pose proof (lr_els _ _ _ Hr _ _ _ Hla) as He. rewrite Hprev, Hnext in He.
  pose proof (lr_nonnull _ _ _ Hr _ _ _ Hla) as Ha0.
  unfold ll_remove. wp_steps. eapply wp_get_el; [exact He|]. cbn [el_list el_next previous]. wp_steps.
  eapply wp_get_list; [apply Hr|]. cbn [first last].
  destruct (remove_ends d p l1 a v l2 Hr) as [Hf1 Hl1]. fold l in Hf1, Hl1. wp_steps.
  eapply set_list_ok with (x' := MkLl (addr (l1 ++ l2) 0) (addr_before l (length l))); [apply Hr|by rewrite Hf1; destruct (addr l 0 =? a)|].
  wp_steps. eapply wp_get_list; [cbn; by rewrite lookup_insert_eq|]. cbn [first last]. wp_steps.
  eapply set_list_ok with (x' := MkLl (addr (l1 ++ l2) 0) (addr_before (l1 ++ l2) (length (l1 ++ l2)))); [cbn; by rewrite lookup_insert_eq|by rewrite Hl1; destruct (addr_before l (length l) =? a)|].
  cbn [lists els]. rewrite insert_insert_eq. wp_steps.
  apply alter_nonnull_ok; [rewrite <- Hprev; destruct (length l1) as [|n]; [done|exact (addr_live d p l n Hr)]|]. wp_steps.
  apply alter_nonnull_ok; cbn [lists els].
  { intros H0. apply alter_nonnull_dom. rewrite <- Hnext in *. by apply (addr_live d p l _ Hr). }
  set (E := alter_nonnull _ _ (alter_nonnull _ _ (els d))).
  set (L := <[p := _]> (lists d)).
  assert (owned m (a :: keys L ++ keys (delete a E)) rest) as Ho'.
  { eapply owned_perm; [|exact Ho]. rewrite (keys_same L (lists d)), (keys_same (els d) E).
    - rewrite (keys_delete E a); [solve_Permutation|]. unfold E. rewrite !alter_nonnull_dom, He. by eexists.
    - intros b. unfold E. by rewrite !alter_nonnull_dom.
    - intros b. unfold L. rewrite lookup_insert_is_Some'. pose proof (lr_list _ _ _ Hr). naive_solver. }
  apply owned_free in Ho' as [Hma Ho']. wp_steps. eapply wp_kfree; [exact Hm|exact Hma|]. intros h' Hh'. mem_steps.
  split; [done|]. split; [by exists (delete a m)|]. done.
Qed.

(** The elements that are left when those of [l] are gone *)
Fixpoint without (m : gmap Z listelement) (l : list (Z * Z)) : gmap Z listelement :=
  match l with [] => m | x :: l => without (delete x.1 m) l end.

Lemma without_lookup m l a : without m l !! a = if decide (a ∈ l.*1) then None else m !! a.
Proof.
  revert m. induction l as [|x l IH]; intros m; cbn; [done|]. rewrite IH.
  destruct (decide (a = x.1)) as [->|Hne]; [rewrite lookup_delete_eq|rewrite lookup_delete_ne by done];
    repeat case_decide; try done; set_solver.
Qed.

Lemma destroy_els_ok fuel : ∀ l h d rest m,
  (∀ i a v, l !! i = Some (a, v) → a ≠ 0 ∧ ∃ e, els d !! a = Some e ∧ el_next e = addr l (S i)) →
  NoDup l.*1 → (length l ≤ fuel)%nat →
  heap_owns h m → owned m (keys (lists d) ++ keys (els d)) rest →
  wp safe (destroy_els fuel (addr l 0)) (h, d)
    (λ _ s', ll_ok s' rest ∧ s'.2 = MkLls (lists d) (without (els d) l)) noerr.
Proof.
  induction fuel as [|fuel IH]; intros l h d rest m Hl Hnd Hf Hm Ho.
  - destruct l; [|cbn in Hf; lia]. cbn. wp_steps. split; [by exists m|by destruct d].
  - destruct l as [|[a v] l]; [cbn; wp_steps; split; [by exists m|by destruct d]|].
    destruct (Hl 0%nat a v eq_refl) as (Ha & e & He & Hnext). cbn [destroy_els]. change (addr ((a, v) :: l) 0) with a.
    destruct (Z.eqb_spec a 0); [done|]. wp_steps. eapply wp_get_el; [exact He|]. wp_steps.
    assert (owned m (a :: keys (lists d) ++ keys (delete a (els d))) rest) as Ho'.
    { eapply owned_perm; [|exact Ho]. rewrite (keys_delete (els d) a) by (rewrite He; by eexists). solve_Permutation. }
    apply owned_free in Ho' as [Hma Ho']. eapply wp_kfree; [exact Hm|exact Hma|]. intros h' Hh'. mem_steps.
    rewrite Hnext. change (addr ((a, v) :: l) 1) with (addr l 0). cbn in Hnd. apply list.NoDup_cons in Hnd as [Hal Hnd].
    eapply wp_mono; [apply (IH l h' (MkLls (lists d) (delete a (els d))) rest (delete a m)); [|done|cbn in Hf; lia|done|done]|done|done].
    intros i b w Hi. destruct (Hl (S i) b w Hi) as (Hb & e2 & He2 & Hn2). split; [done|]. exists e2. split; [|done].
    cbn. rewrite lookup_delete_ne; [done|]. intros <-. apply Hal. apply list_elem_of_fmap. exists (a, w). split; [done|].
    by eapply list_elem_of_lookup_2.
Qed.

Lemma ll_destroy_ok s p l rest fuel :
  ll_ok s rest → ll_rep s.2 p l → (length l ≤ fuel)%nat →
  wp safe (ll_destroy fuel p) s
    (λ _ s', ll_ok s' rest ∧ s'.2 = MkLls (delete p (lists s.2)) (without (els s.2) l)) noerr.
Proof.
  destruct s as [h d]. intros (m & Hm & Ho) Hr Hf. cbn [fst snd] in *. unfold ll_destroy. wp_steps.
  eapply wp_get_list; [apply Hr|]. cbn [first]. wp_steps.
  eapply wp_mono; [apply (destroy_els_ok fuel l h d rest m); [|apply Hr|done|done|done]| |done].
  - intros i a v Hi. split; [by eapply lr_nonnull|]. eexists. split; [by eapply lr_els|done].
  - intros _ [h' d'] [(m' & Hm' & Ho') Hd']. cbn [fst snd] in *. wp_steps.
    assert (owned m' (p :: keys (delete p (lists d')) ++ keys (els d')) rest) as Ho2.
    { eapply owned_perm; [|exact Ho']. rewrite (keys_delete (lists d') p); [done|]. rewrite Hd'. cbn.
      rewrite (lr_list _ _ _ Hr). by eexists. }
    apply owned_free in Ho2 as [Hp Ho2]. eapply wp_kfree; [exact Hm'|exact Hp|]. intros h2 Hh2. mem_steps.
    split; [by exists (delete p m')|]. cbn. by rewrite Hd'.
Qed.

Lemma ll_create_ok s rest :
  ll_ok s rest →
  wp safe_oom ll_create s (λ p s', ll_ok s' rest ∧ (p = 0 ∧ s'.2 = s.2 ∨
    p ≠ 0 ∧ lists s.2 !! p = None ∧ s'.2 = MkLls (<[p := MkLl 0 0]> (lists s.2)) (els s.2))) noerr.
Proof.
  destruct s as [h d]. intros (m & Hm & Ho). cbn [fst snd] in *. unfold ll_create, put_list. mem_steps.
  eapply (wp_kmalloc h m d); [done|done|intros h' Hh'; cbn [Z.eqb]; mem_steps; split; [by exists m|by left]|].
  intros a h' Ha Hma Hh'. destruct (Z.eqb_spec a 0); [done|]. destruct (fresh_el h m d a rest Ho Hma) as [_ Hna]. mem_steps.
  split; [|by right]. exists (<[a := sizeof_linkedlist]> m). split; [done|]. cbn.
  eapply owned_perm; [|by apply owned_alloc]. rewrite keys_insert by done. solve_Permutation.
Qed.
End operations_ok.

(** ** The refinement *)
Section theorems.
Context `{!KHeap H} `{!KHeapLaws H}.
Implicit Types (s : LS H) (l : list (Z * Z)).

(** Lists other than [p] keep their contents. *)
Definition keeps p (s s' : LS H) : Prop := ∀ q k, q ≠ p → ll_rep s.2 q k → ll_rep s'.2 q k.

(** The pointers of linkedlist.c are sequences: [ll_add_to_end] appends and
    [ll_add_to_front] prepends the value, in a new element whose address they return, or
    return [NULL] and change nothing; [ll_remove] takes its element out of the middle of
    whatever list it is in and returns the one behind it; [ll_destroy] ends and frees
    every element. Other lists keep their contents, and no heap block is lost. *)
Theorem ll_refines s p l rest :
  ll_ok s rest → ll_rep s.2 p l →
  (∀ v, wp safe_oom (ll_add_to_end p v) s (λ a s', ll_ok s' rest ∧ keeps p s s' ∧
     (a = 0 ∧ ll_rep s'.2 p l ∨ a ≠ 0 ∧ ll_rep s'.2 p (l ++ [(a, v)]))) noerr) ∧
  (∀ v, wp safe_oom (ll_add_to_front p v) s (λ a s', ll_ok s' rest ∧ keeps p s s' ∧
     (a = 0 ∧ ll_rep s'.2 p l ∨ a ≠ 0 ∧ ll_rep s'.2 p ((a, v) :: l))) noerr) ∧
  (∀ l1 a v l2, l = l1 ++ (a, v) :: l2 →
     wp safe (ll_remove a) s (λ r s', r = addr l2 0 ∧ ll_ok s' rest ∧ keeps p s s' ∧ ll_rep s'.2 p (l1 ++ l2)) noerr) ∧
  wp safe (ll_destroy (length l) p) s (λ _ s', ll_ok s' rest ∧ keeps p s s' ∧
     lists s'.2 !! p = None ∧ ∀ i a v, l !! i = Some (a, v) → els s'.2 !! a = None) noerr.
Proof.
  intros Hok Hr. split_and!.
  - intros v. eapply wp_mono; [by apply (ll_add_to_end_ok s p l v rest)| |done].
    intros a s' [Hok' [[-> Heq]|(Ha & Hn & Heq)]]; unfold keeps; rewrite Heq; (split; [done|]).
    + split; [done|by left].
    + destruct (append_rep s.2 p l a v Hr Ha Hn) as [H1 H2]. split; [|by right].
      intros q k Hq. by apply (others_kept_rep p).
  - intros v. eapply wp_mono; [by apply (ll_add_to_front_ok s p l v rest)| |done].
    intros a s' [Hok' [[-> Heq]|(Ha & Hn & Heq)]]; unfold keeps; rewrite Heq; (split; [done|]).
    + split; [done|by left].
    + destruct (prepend_rep s.2 p l a v Hr Ha Hn) as [H1 H2]. split; [|by right].
      intros q k Hq. by apply (others_kept_rep p).
  - intros l1 a v l2 ->. eapply wp_mono; [by apply (ll_remove_ok s p l1 a v l2 rest)| |done].
    intros r s' (-> & Hok' & Heq). destruct (remove_rep s.2 p l1 a v l2 Hr) as [H1 H2].
    unfold keeps. rewrite Heq. split; [done|]. split; [done|]. split; [|done]. intros q k Hq. by apply (others_kept_rep p).
  - eapply wp_mono; [by apply (ll_destroy_ok s p l rest (length l))| |done]. intros _ s' [Hok' Heq]. unfold keeps. rewrite Heq. cbn.
    split; [done|]. split; [|split; [by rewrite lookup_delete_eq|]].
    + intros q k Hq Hk. eapply (others_kept_rep p s.2); [|done|done]. split; cbn.
      * intros q' Hq'. by rewrite lookup_delete_ne.
      * intros a e He Hne. rewrite without_lookup. rewrite decide_False; [done|]. intros Hin.
        apply list_elem_of_fmap in Hin as ([b w] & -> & Hb). apply list_elem_of_lookup in Hb as [i Hi].
        apply (lr_els _ _ _ Hr) in Hi. cbn in He. rewrite Hi in He. by simplify_eq.
    + intros i a v Hi. rewrite without_lookup, decide_True; [done|]. apply list_elem_of_fmap. exists (a, v). split; [done|].
      by eapply list_elem_of_lookup_2.
Qed.
End theorems.

(** A list of two elements *)
Definition ex_ll : lls := MkLls {[20 := MkLl 30 50]} {[30 := MkEl 20 50 0 7; 50 := MkEl 20 0 30 8]}.
Definition ex_ll_heap : SimpleHeap.t :=
  {| SimpleHeap.next := 100; SimpleHeap.live := <[20 := 8]> (<[30 := 16]> (<[50 := 16]> ∅)); SimpleHeap.budget := 5 |}.

Lemma ex_ll_rep : ll_rep ex_ll 20 [(30, 7); (50, 8)].
Proof.
  split; [done| | |].
  - intros [|[|i]] a v; [intros [= <- <-]; done|intros [= <- <-]; done|done].
  - intros [|[|i]] a v; [intros [= <- <-]; done|intros [= <- <-]; done|done].
  - by apply (bool_decide_unpack (NoDup [30; 50])).
Qed.

Lemma ex_ll_ok : ll_ok (ex_ll_heap, ex_ll) ∅.
Proof.
  exists (<[20 := 8]> (<[30 := 16]> (<[50 := 16]> ∅))). split.
  - split; cbn; [done|done| |].
    + intros p sz Hp. repeat (apply lookup_insert_Some in Hp as [[<- <-]|[_ Hp]]; [lia|]). done.
    + intros p sz q sz' Hp Hq Hne.
      repeat (apply lookup_insert_Some in Hp as [[<- <-]|[_ Hp]];
        [repeat (apply lookup_insert_Some in Hq as [[<- <-]|[_ Hq]]; [lia|]); done|]). done.
  - change (keys (lists ex_ll) ++ keys (els ex_ll)) with [20; 30; 50].
    apply owned_alloc; [|done]. apply owned_alloc; [|done]. apply owned_alloc; [|done]. apply owned_nil.
Qed.

Lemma ll_refines_witness :
  wp safe (ll_remove 30) (ex_ll_heap, ex_ll) (λ r s', r = 50 ∧ ll_rep s'.2 20 [(50, 8)]) noerr.
Proof.
  destruct (ll_refines (ex_ll_heap, ex_ll) 20 [(30, 7); (50, 8)] ∅ ex_ll_ok ex_ll_rep) as (_ & _ & Hrem & _).
  eapply wp_mono; [apply (Hrem [] 30 7 [(50, 8)] eq_refl)| |done]. intros r s' (-> & _ & _ & Hr). split; [reflexivity|exact Hr].
Defined.
