(* ===== verification/Thread.v ===== *)
(** * Threads and the scheduler

    Model of kern/thread/thread.c, kern/thread/scheduler.c, and of the machine
    dependent pcb.c they use.

    A context switch leaves the code of one thread in the middle of [mi_switch]
    and continues in the middle of another thread's. The model follows the
    processor: what is left to do in a thread that gives up the processor is
    saved with its pcb as a [frame], as the code saves its registers and stack;
    [mi_switch] returns the frame of the thread it switched to, and [resume] runs
    the rest of the function that frame belongs to. A frame of [thread_sleep]
    carries what the caller of [thread_sleep] does next, of a type [K] that the
    callers choose. *)

From Stdlib Require Import ZArith Lia.
From stdpp Require Import base list gmap numbers strings.
From S2P Require Import Prelude Cpu KMem HeapCpu Array Queue Vnode.

Local Open Scope Z_scope.

Inductive threadstate_t := S_RUN | S_READY | S_SLEEP | S_ZOMB.

(** What a thread that is not running does when it runs again: start in
    [mi_threadstart], or return from [mi_switch] into [thread_yield] (which then
    restores the level [spl]), [thread_sleep] or [thread_exit]. *)
Inductive frame (K : Type) :=
  | F_new (data1 data2 func : Z)
  | F_yield (spl : Z)
  | F_sleep (k : K)
  | F_exit.
Arguments F_new {K}.
Arguments F_yield {K}.
Arguments F_sleep {K}.
Arguments F_exit {K}.

(** Where the processor is once a switch is over: in a thread that called
    [thread_yield], at the start of [func], or after [thread_sleep] in [k]. *)
Inductive control (K : Type) :=
  | Yielded
  | Entering (data1 data2 func : Z)
  | Woken (k : K).
Arguments Yielded {K}.
Arguments Entering {K}.
Arguments Woken {K}.

(** [t_guard] is the four bytes at the bottom end of the stack [t_stack];
    [pcb_frame] stands for the switchframe at [pcb_switchstack]. *)
Record thread (K : Type) := MkThread {
  pcb_frame : option (frame K);
  pcb_kstack : Z;
  pcb_ininterrupt : Z;
  pcb_badfaultfunc : Z;
  t_name : Z * string;
  t_sleepaddr : Z;
  t_stack : Z;
  t_guard : list Z;
  t_vmspace : Z;
  t_cwd : Z;
  t_pid : Z;
}.
Arguments MkThread {K}.
Arguments pcb_frame {K}.
Arguments pcb_kstack {K}.
Arguments pcb_ininterrupt {K}.
Arguments pcb_badfaultfunc {K}.
Arguments t_name {K}.
Arguments t_sleepaddr {K}.
Arguments t_stack {K}.
Arguments t_guard {K}.
Arguments t_vmspace {K}.
Arguments t_cwd {K}.
Arguments t_pid {K}.

(** [sizeof(struct thread)]: a pcb of 15 words and six more *)
Definition sizeof_thread : Z := 84.
Definition STACK_SIZE : Z := 4096.

(** The globals of thread.c, scheduler.c and pcb.c; an array or queue is its
    address and its contents, [None] the null pointer. [threads] maps the address
    of every thread structure to its contents, [vnodes] that of every vnode. *)
Record tsys (K : Type) := MkTsys {
  sleepers : option (Z * array Z);
  zombies : option (Z * array Z);
  numthreads : Z;
  runqueue : option (Z * queue Z);
  curkstack : Z;
  threads : gmap Z (thread K);
  vnodes : gmap Z vnode;
}.
Arguments MkTsys {K}.
Arguments sleepers {K}.
Arguments zombies {K}.
Arguments numthreads {K}.
Arguments runqueue {K}.
Arguments curkstack {K}.
Arguments threads {K}.
Arguments vnodes {K}.

Section setters.
Context {K : Type}.
Implicit Types (s : tsys K) (t : thread K).

Definition set_sleepers x s : tsys K :=
  MkTsys x (zombies s) (numthreads s) (runqueue s) (curkstack s) (threads s) (vnodes s).
Definition set_zombies x s : tsys K :=
  MkTsys (sleepers s) x (numthreads s) (runqueue s) (curkstack s) (threads s) (vnodes s).
Definition set_numthreads n s : tsys K :=
  MkTsys (sleepers s) (zombies s) n (runqueue s) (curkstack s) (threads s) (vnodes s).
Definition set_runqueue x s : tsys K :=
  MkTsys (sleepers s) (zombies s) (numthreads s) x (curkstack s) (threads s) (vnodes s).
Definition set_curkstack x s : tsys K :=
  MkTsys (sleepers s) (zombies s) (numthreads s) (runqueue s) x (threads s) (vnodes s).
Definition set_threads x s : tsys K :=
  MkTsys (sleepers s) (zombies s) (numthreads s) (runqueue s) (curkstack s) x (vnodes s).
Definition set_vnodes x s : tsys K :=
  MkTsys (sleepers s) (zombies s) (numthreads s) (runqueue s) (curkstack s) (threads s) x.

Definition set_pcb fr kstack inint t : thread K :=
  MkThread fr kstack inint (pcb_badfaultfunc t) (t_name t) (t_sleepaddr t) (t_stack t)
    (t_guard t) (t_vmspace t) (t_cwd t) (t_pid t).
Definition set_sleepaddr a t : thread K :=
  MkThread (pcb_frame t) (pcb_kstack t) (pcb_ininterrupt t) (pcb_badfaultfunc t) (t_name t) a
    (t_stack t) (t_guard t) (t_vmspace t) (t_cwd t) (t_pid t).
Definition set_stack p guard t : thread K :=
  MkThread (pcb_frame t) (pcb_kstack t) (pcb_ininterrupt t) (pcb_badfaultfunc t) (t_name t)
    (t_sleepaddr t) p guard (t_vmspace t) (t_cwd t) (t_pid t).
Definition set_vmspace a t : thread K :=
  MkThread (pcb_frame t) (pcb_kstack t) (pcb_ininterrupt t) (pcb_badfaultfunc t) (t_name t)
    (t_sleepaddr t) (t_stack t) (t_guard t) a (t_cwd t) (t_pid t).
Definition set_cwd a t : thread K :=
  MkThread (pcb_frame t) (pcb_kstack t) (pcb_ininterrupt t) (pcb_badfaultfunc t) (t_name t)
    (t_sleepaddr t) (t_stack t) (t_guard t) (t_vmspace t) a (t_pid t).
Definition set_pid p t : thread K :=
  MkThread (pcb_frame t) (pcb_kstack t) (pcb_ininterrupt t) (pcb_badfaultfunc t) (t_name t)
    (t_sleepaddr t) (t_stack t) (t_guard t) (t_vmspace t) (t_cwd t) p.
End setters.

(** The magic number at the bottom end of a stack *)
Definition stack_magic : list Z := [0xae; 0x11; 0xda; 0x33].

Section operations.
Context {H : Type} `{!HasCpu H} `{!KHeap H} {K : Type}.

Definition TH : Type := H * tsys K.
Implicit Types (t p addr : Z).

(** The address spaces belong to AddrSpace.v; [VOP_DECREF] may call the file
    system's [vop_reclaim]; [cpu_idle] waits for an interrupt and handles it. The
    scheduler calls it until a thread is ready, here at most [idle_fuel] times. *)
Context (as_activate as_destroy : Z → M TH ()) (vop_reclaim : M VN Z).
Context (cpu_idle : M TH ()) (idle_fuel : nat).

Definition set_curthread (c : cpu) t : cpu :=
  MkCpu (curspl c) (cp0_status c) (in_interrupt c) t.
Definition set_in_interrupt (c : cpu) x : cpu :=
  MkCpu (curspl c) (cp0_status c) x (curthread c).

Definition upd_sys (f : tsys K → tsys K) : M TH () := modify (λ s, (s.1, f s.2)).
Definition upd_cpu (f : cpu → cpu) : M TH () := modify (λ s, set_cpu (f (cpu_of s)) s).

(** A thread structure; the null pointer has none. *)
Definition get_thread t : M TH (thread K) :=
  s ← get;
  the (threads s.2 !! t).
Definition put_thread t (x : thread K) : M TH () :=
  upd_sys (λ s, set_threads (<[t := x]> (threads s)) s).
Definition upd_thread t (f : thread K → thread K) : M TH () :=
  x ← get_thread t;
  put_thread t (f x).

(** Operations on the two arrays, the run queue, and a vnode *)
Definition on_sleepers {A} (m : M (H * array Z) A) : M TH A :=
  s ← get;
  x ← the (sleepers s.2);
  zoom (λ s, (s.1, x.2)) (λ w s, (w.1, set_sleepers (Some (x.1, w.2)) s.2)) m.
Definition on_zombies {A} (m : M (H * array Z) A) : M TH A :=
  s ← get;
  x ← the (zombies s.2);
  zoom (λ s, (s.1, x.2)) (λ w s, (w.1, set_zombies (Some (x.1, w.2)) s.2)) m.
Definition on_runqueue {A} (m : M (H * queue Z) A) : M TH A :=
  s ← get;
  x ← the (runqueue s.2);
  zoom (λ s, (s.1, x.2)) (λ w s, (w.1, set_runqueue (Some (x.1, w.2)) s.2)) m.
Definition on_vnode {A} (vn : Z) (m : M VN A) : M TH A :=
  s ← get;
  v ← the (vnodes s.2 !! vn);
  zoom (λ s, (cpu_of s, v))
       (λ w s, set_cpu w.1 (s.1, set_vnodes (<[vn := w.2]> (vnodes s.2)) s.2)) m.

Definition runqueue_empty : M TH bool :=
  s ← get;
  x ← the (runqueue s.2);
  mret (q_empty x.2).

(** [assert(curspl>0)] *)
Definition assert_spl : M TH () :=
  spl ← get_curspl;
  assert (0 <? spl).

(** ** scheduler.c *)

Definition scheduler_bootstrap : M TH () :=
  q ← on_heap (q_create 32);
  match q with
  | None => panic
  | Some x => upd_sys (set_runqueue (Some x))
  end.

Definition scheduler_preallocate (nthreads : Z) : M TH () :=
  assert_spl;;
  on_runqueue (q_preallocate nthreads).

(** [while (!q_empty(runqueue)) q_remhead(runqueue);]: a turn removes a thread;
    the names it prints are not modelled. *)
Fixpoint drop_ready (fuel : nat) : M TH () :=
  e ← runqueue_empty;
  if e : bool then mret tt else
  match fuel with
  | O => noreturn
  | S fuel =>
    t ← on_runqueue q_remhead;
    _ ← get_thread t;
    drop_ready fuel
  end.

Definition scheduler_killall : M TH () :=
  assert_spl;;
  s ← get;
  x ← the (runqueue s.2);
  drop_ready (Z.to_nat (size x.2)).

Definition scheduler_shutdown : M TH () :=
  scheduler_killall;;
  assert_spl;;
  s ← get;
  x ← the (runqueue s.2);
  on_runqueue (q_destroy x.1);;
  upd_sys (set_runqueue None).

(** [while (q_empty(runqueue)) cpu_idle();] *)
Fixpoint wait_ready (fuel : nat) : M TH () :=
  e ← runqueue_empty;
  if e : bool then
    match fuel with
    | O => noreturn
    | S fuel => cpu_idle;; wait_ready fuel
    end
  else mret tt.

Definition scheduler : M TH Z :=
  assert_spl;;
  wait_ready idle_fuel;;
  on_runqueue q_remhead.

Definition make_runnable t : M TH () :=
  assert_spl;;
  on_runqueue (q_addtail t).

(** The lines it prints: number and thread *)
Fixpoint print_from (fuel : nat) (i k : Z) : M TH (list (Z * Z)) :=
  s ← get;
  x ← the (runqueue s.2);
  if i =? q_getend x.2 then mret [] else
  match fuel with
  | O => noreturn
  | S fuel =>
    t ← on_runqueue (q_getguy i);
    _ ← get_thread t;
    l ← print_from fuel ((i + 1) `mod` q_getsize x.2) (k + 1);
    mret ((k, t) :: l)
  end.

Definition print_run_queue : M TH (list (Z * Z)) :=
  with_splhigh (
    s ← get;
    x ← the (runqueue s.2);
    print_from (Z.to_nat (q_getsize x.2)) (q_getstart x.2) 0).

(** ** pcb.c *)

Definition md_initpcb0 t : M TH () :=
  s ← get;
  upd_thread t (λ x, MkThread None (curkstack s.2) 0 0 (t_name x) (t_sleepaddr x) (t_stack x)
                       (t_guard x) (t_vmspace x) (t_cwd x) (t_pid x)).

Definition md_initpcb t (stack data1 data2 func : Z) : M TH () :=
  upd_thread t (λ x, MkThread (Some (F_new data1 data2 func)) (u32 (stack + STACK_SIZE)) 0 0
                       (t_name x) (t_sleepaddr x) (t_stack x) (t_guard x) (t_vmspace x)
                       (t_cwd x) (t_pid x)).

(** [mips_switch] saves the registers of [old], in [fr], and loads those of [nu]. *)
Definition md_switch (old nu : Z) (fr : frame K) : M TH (frame K) :=
  if old =? nu then mret fr else
  s ← get;
  upd_thread old (set_pcb (Some fr) (curkstack s.2) (in_interrupt (cpu_of s)));;
  n ← get_thread nu;
  upd_sys (set_curkstack (pcb_kstack n));;
  upd_cpu (λ c, set_in_interrupt c (pcb_ininterrupt n));;
  fr' ← the (pcb_frame n);
  put_thread nu (set_pcb None (pcb_kstack n) (pcb_ininterrupt n) n);;
  mret fr'.

(** ** thread.c *)

(** [junk] is what the uninitialised fields hold. *)
Definition thread_create (name : string) (junk : Z) : M TH Z :=
  t ← on_heap (kmalloc sizeof_thread);
  if t =? 0 then mret 0 else
  nm ← on_heap (kstrdup name);
  if nm.1 =? 0 then
    on_heap (kfree t);;
    mret 0
  else
    put_thread t (MkThread None junk junk junk nm 0 0 [] 0 0 junk);;
    mret t.

(** Freeing the structure *)
Definition free_thread t : M TH () :=
  on_heap (kfree t);;
  upd_sys (λ s, set_threads (delete t (threads s)) s).

Definition thread_destroy t : M TH () :=
  cur ← get_curthread;
  assert (negb (t =? cur));;
  x ← get_thread t;
  assert (t_vmspace x =? 0);;
  assert (t_cwd x =? 0);;
  when (negb (t_stack x =? 0)) (on_heap (kfree (t_stack x)));;
  on_heap (kfree (t_name x).1);;
  free_thread t.

Definition exorcise : M TH () :=
  assert_spl;;
  n ← on_zombies array_getnum;
  for_range 0 n (λ i,
    z ← on_zombies (array_getguy i);
    cur ← get_curthread;
    assert (negb (z =? cur));;
    thread_destroy z);;
  r ← try (on_zombies (array_setsize 0));
  assert (if r is inl _ then true else false).

Definition thread_killall : M TH () :=
  assert_spl;;
  n ← on_sleepers array_getnum;
  for_range 0 n (λ i,
    t ← on_sleepers (array_getguy i);
    _ ← get_thread t;
    mret tt);;
  r ← try (on_sleepers (array_setsize 0));
  assert (if r is inl _ then true else false).

Definition thread_panic : M TH () :=
  assert_spl;;
  thread_killall;;
  scheduler_killall.

Definition one_thread_only : M TH bool :=
  n ← with_splhigh (gets (λ s, numthreads s.2));
  mret (n =? 1).

Definition thread_bootstrap (junk : Z) : M TH Z :=
  a ← on_heap array_create;
  upd_sys (set_sleepers a);;
  match a with None => panic | Some _ =>
  a ← on_heap array_create;
  upd_sys (set_zombies a);;
  match a with None => panic | Some _ =>
  me ← thread_create "<boot/menu>" junk;
  if me =? 0 then panic else
  (md_initpcb0 me;;
   upd_cpu (λ c, set_curthread c me);;
   upd_sys (set_numthreads 1);;
   mret me)
  end end.

Definition thread_shutdown : M TH () :=
  s ← get;
  x ← the (sleepers s.2);
  on_sleepers (array_destroy x.1);;
  upd_sys (set_sleepers None);;
  s ← get;
  x ← the (zombies s.2);
  on_zombies (array_destroy x.1);;
  upd_sys (set_zombies None).

(** The part of [thread_fork] with interrupts off, up to [splx(s)] or [fail:] *)
Definition thread_fork_atomic t : M TH () :=
  s ← get;
  on_sleepers (array_preallocate (numthreads s.2 + 1));;
  on_zombies (array_preallocate (numthreads s.2 + 1));;
  scheduler_preallocate (numthreads s.2 + 1);;
  make_runnable t;;
  upd_sys (λ s, set_numthreads (numthreads s + 1) s).

(** From [s = splhigh()] to the end of [thread_fork] *)
Definition thread_fork_commit t : M TH Z :=
  s ← splhigh;
  r ← try (thread_fork_atomic t);
  _ ← splx s;
  match r with
  | inl _ => mret t
  | inr result =>
    x ← get_thread t;
    when (negb (t_cwd x =? 0)) (on_vnode (t_cwd x) (vnode_decref vop_reclaim (t_cwd x)));;
    on_heap (kfree (t_stack x));;
    on_heap (kfree (t_name x).1);;
    free_thread t;;
    fail result
  end.

(** The new thread is the result, which the code stores in [*ret] if asked to. *)
Definition thread_fork (name : string) (data1 data2 func junk : Z) : M TH Z :=
  t ← thread_create name junk;
  if t =? 0 then fail ENOMEM else
  stack ← on_heap (kmalloc STACK_SIZE);
  upd_thread t (set_stack stack []);;
  if stack =? 0 then
    x ← get_thread t;
    on_heap (kfree (t_name x).1);;
    free_thread t;;
    fail ENOMEM
  else
  upd_thread t (set_stack stack stack_magic);;
  cur ← get_curthread;
  c ← get_thread cur;
  upd_thread t (set_pid (t_pid c));;
  when (negb (t_cwd c =? 0))
    (on_vnode (t_cwd c) (vnode_incref (t_cwd c));;
     upd_thread t (set_cwd (t_cwd c)));;
  md_initpcb t stack data1 data2 func;;
  thread_fork_commit t.

(** [assert(t->t_stack[0] == (char)0xae); ...] when there is a stack *)
Definition check_stack (x : thread K) : M TH () :=
  when (negb (t_stack x =? 0)) (assert (bool_decide (t_guard x = stack_magic))).

(** [mi_switch] up to and including [md_switch]. [None]: it returned at once,
    because the scheduler is already running. *)
Definition mi_switch (nextstate : threadstate_t) (fr : frame K) : M TH (option (frame K)) :=
  assert_spl;;
  cur ← get_curthread;
  if cur =? 0 then mret None else
  x ← get_thread cur;
  check_stack x;;
  upd_cpu (λ c, set_curthread c 0);;
  r ← try (match nextstate with
           | S_READY => make_runnable cur
           | S_SLEEP => on_sleepers (array_add cur)
           | S_ZOMB => on_zombies (array_add cur)
           | S_RUN => assert false
           end);
  assert (if r is inl _ then true else false);;
  next ← scheduler;
  upd_cpu (λ c, set_curthread c next);;
  fr' ← md_switch cur next fr;
  mret (Some fr').

Definition activate_current : M TH () :=
  cur ← get_curthread;
  x ← get_thread cur;
  when (negb (t_vmspace x =? 0)) (as_activate (t_vmspace x)).

(** [mi_switch] after [md_switch] *)
Definition switched : M TH () :=
  exorcise;;
  activate_current.

(** [mi_threadstart] up to the call of [func] *)
Definition mi_threadstart : M TH () :=
  activate_current;;
  _ ← spl0;
  mret tt.

Definition resume (fr : frame K) : M TH (control K) :=
  match fr with
  | F_new data1 data2 func =>
    mi_threadstart;;
    mret (Entering data1 data2 func)
  | F_yield spl =>
    switched;;
    _ ← splx spl;
    mret Yielded
  | F_sleep k =>
    switched;;
    cur ← get_curthread;
    upd_thread cur (set_sleepaddr 0);;
    mret (Woken k)
  | F_exit =>
    switched;;
    panic
  end.

Definition thread_exit : M TH (control K) :=
  cur ← get_curthread;
  x ← get_thread cur;
  check_stack x;;
  _ ← splhigh;
  when (negb (t_vmspace x =? 0))
    (upd_thread cur (set_vmspace 0);;
     as_destroy (t_vmspace x));;
  x ← get_thread cur;
  when (negb (t_cwd x =? 0))
    (on_vnode (t_cwd x) (vnode_decref vop_reclaim (t_cwd x));;
     upd_thread cur (set_cwd 0));;
  s ← get;
  assert (0 <? numthreads s.2);;
  upd_sys (set_numthreads (numthreads s.2 - 1));;
  r ← mi_switch S_ZOMB F_exit;
  match r with
  | None => panic
  | Some fr => resume fr
  end.

Definition thread_yield : M TH (control K) :=
  spl ← splhigh;
  s ← get;
  assert (if sleepers s.2 is Some _ then true else false);;
  r ← mi_switch S_READY (F_yield spl);
  match r with
  | None =>
    _ ← splx spl;
    mret Yielded
  | Some fr => resume fr
  end.

Definition thread_sleep addr (k : K) : M TH (control K) :=
  s ← get;
  assert (in_interrupt (cpu_of s) =? 0);;
  cur ← get_curthread;
  upd_thread cur (set_sleepaddr addr);;
  r ← mi_switch S_SLEEP (F_sleep k);
  match r with
  | None =>
    upd_thread cur (set_sleepaddr 0);;
    mret (Woken k)
  | Some fr => resume fr
  end.

(** The loop of [thread_wakeup]: a turn removes [sleepers[i]] or goes on to the
    next, so that the number of sleepers bounds the turns. *)
Fixpoint wake_from (fuel : nat) addr (i : Z) : M TH () :=
  n ← on_sleepers array_getnum;
  if i <? n then
    match fuel with
    | O => noreturn
    | S fuel =>
      t ← on_sleepers (array_getguy i);
      x ← get_thread t;
      if t_sleepaddr x =? addr then
        on_sleepers (array_remove i);;
        r ← try (make_runnable t);
        assert (if r is inl _ then true else false);;
        wake_from fuel addr i
      else wake_from fuel addr (i + 1)
    end
  else mret tt.

Definition thread_wakeup addr : M TH () :=
  assert_spl;;
  n ← on_sleepers array_getnum;
  wake_from (Z.to_nat n) addr 0.

Fixpoint hassleepers_from (fuel : nat) addr (i : Z) : M TH bool :=
  n ← on_sleepers array_getnum;
  if i <? n then
    match fuel with
    | O => noreturn
    | S fuel =>
      t ← on_sleepers (array_getguy i);
      x ← get_thread t;
      if t_sleepaddr x =? addr then mret true else hassleepers_from fuel addr (i + 1)
    end
  else mret false.

Definition thread_hassleepers addr : M TH bool :=
  assert_spl;;
  n ← on_sleepers array_getnum;
  hassleepers_from (Z.to_nat n) addr 0.
End operations.
Arguments TH H K : clear implicits.
