(* ===== verification/ThreadProof.v ===== *)
(** * Threads: the invariant and the operations

    [thr_inv s rest cs sl zb rq]: the thread system of [s] has the threads [cs]
    on the processor (one, or none while the scheduler runs), [sl] asleep, [zb]
    dead and [rq] ready, in the order of the code's arrays and queue; its heap
    blocks are those of the arrays, of the run queue and of these threads, each
    exactly once, and beside them the heap has the blocks [rest] of others. *)

From Stdlib Require Import ZArith Lia.
From stdpp Require Import base list gmap numbers strings.
From S2P Require Import Prelude Cpu KMem HeapCpu Array Queue Vnode Thread.

Local Open Scope Z_scope.

(** The blocks of one thread, and of all of them *)
Definition tblk {K} (t : Z) (x : thread K) : list Z := t :: (t_name x).1 :: blk (t_stack x).
Definition thread_blocks {K} (ts : gmap Z (thread K)) : list Z :=
  map_to_list ts ≫= λ '(t, x), tblk t x.

Definition sys_blocks {K} (A B : Z * array Z) (R : Z * queue Z) (ts : gmap Z (thread K)) :
    list Z :=
  blk (v A.2) ++ blk (v B.2) ++ data R.2 :: A.1 :: B.1 :: R.1 :: thread_blocks ts.

(** The heap, whichever thread runs *)
Definition heap_any `{!HasCpu H} `{!KHeap H} `{!KHeapLaws H} (h : H) (m : gmap Z Z) : Prop :=
  ∀ c, running c → heap_owns (set_cpu c h) m.

Section inv.
Context {H : Type} `{!HasCpu H} `{!KHeap H} `{!KHeapLaws H} `{!KHeapCpu H} {K : Type}.
Implicit Types (s : TH H K) (ts : gmap Z (thread K)) (m rest : gmap Z Z) (x : thread K).
Implicit Types (cs sl zb rq : list Z) (t : Z).

Record mem_inv (m : gmap Z Z) (A B : Z * array Z) (R : Z * queue Z) (s : TH H K)
    (rest : gmap Z Z) (sl zb rq : list Z) : Prop := {
  mi_heap : heap_any s.1 m;
  mi_sleepers : sleepers s.2 = Some A;
  mi_zombies : zombies s.2 = Some B;
  mi_runqueue : runqueue s.2 = Some R;
  mi_sl : array_rep m A.2 sl;
  mi_zb : array_rep m B.2 zb;
  mi_rq : queue_rep m R.2 rq;
  mi_owned : owned m (sys_blocks A B R (threads s.2)) rest;
}.

(** The code at the bottom end of the stack is intact. *)
Definition stack_ok x : Prop := t_stack x ≠ 0 → t_guard x = stack_magic.

(** A thread that waits for the processor can go on: it never waits in
    [thread_exit]. *)
Definition frame_ok (fr : frame K) : Prop :=
  match fr with F_exit => False | F_yield spl => 0 ≤ spl | _ => True end.
Definition waits ts t : Prop :=
  ∃ x fr, ts !! t = Some x ∧ pcb_frame x = Some fr ∧ frame_ok fr.
Definition dead ts t : Prop :=
  ∃ x, ts !! t = Some x ∧ t_vmspace x = 0 ∧ t_cwd x = 0.

Record who_inv (ts : gmap Z (thread K)) (cs sl zb rq : list Z) : Prop := {
  wi_nodup : NoDup (cs ++ sl ++ zb ++ rq);
  wi_dom t : is_Some (ts !! t) ↔ t ∈ cs ++ sl ++ zb ++ rq;
  wi_stack t x : ts !! t = Some x → stack_ok x;
  wi_waits t : t ∈ sl ++ rq → waits ts t;
  wi_dead t : t ∈ zb → dead ts t;
}.

Definition thr_inv s rest cs sl zb rq : Prop :=
  ∃ m A B R, mem_inv m A B R s rest sl zb rq ∧ who_inv (threads s.2) cs sl zb rq.

(** ** The heap and the processor *)

Lemma heap_any_cpu (h : H) m c : heap_any h m → heap_any (set_cpu c h) m.
Proof. intros Hh c' Hc'. rewrite set_cpu_set. by apply Hh. Qed.

Lemma heap_any_owns (h : H) m : heap_any h m → running (cpu_of h) → heap_owns h m.
Proof. intros Hh Hr. rewrite <- (set_cpu_of h). by apply Hh. Qed.

Lemma heap_owns_any (h : H) m : heap_owns h m → heap_any h m.
Proof. intros Hh c Hc. by apply heap_cpu. Qed.

Lemma heap_any_null (h : H) m : heap_any h m → m !! 0 = None.
Proof.
  intros Hh. eapply (heap_owns_null _ m), (Hh (MkCpu 0 1 0 1)).
  split; [|done]. split; simpl; [lia|split; lia|done].
Qed.

(** ** Heap calls *)

Lemma th_kmalloc_ok s m sz (Q : Z → TH H K → Prop) E :
  heap_any s.1 m → running (cpu_of s.1) → 0 ≤ sz < 2 ^ 31 →
  (∀ h', cpu_of h' = cpu_of s.1 → heap_any h' m → Q 0 (h', s.2)) →
  (∀ p h', cpu_of h' = cpu_of s.1 → p ≠ 0 → m !! p = None →
     heap_any h' (<[p := sz]> m) → Q p (h', s.2)) →
  wp safe_oom (on_heap (kmalloc sz)) s Q E.
Proof.
  intros Hh Hr Hsz H0 Hp. apply wp_zoom.
  eapply wp_mono; [apply (kmalloc_cpu s.1 m); [by apply heap_any_owns|done]| |done].
  intros p h' [Hc [[-> Ho]|(? & ? & Ho)]]; [apply H0|apply Hp]; try done;
    by apply heap_owns_any.
Qed.

Lemma kstrdup_ok s m name (Q : Z * string → TH H K → Prop) E :
  heap_any s.1 m → running (cpu_of s.1) → Z.of_nat (String.length name) < 2 ^ 31 - 1 →
  (∀ h', cpu_of h' = cpu_of s.1 → heap_any h' m → Q (0, name) (h', s.2)) →
  (∀ p h', cpu_of h' = cpu_of s.1 → p ≠ 0 → m !! p = None →
     heap_any h' (<[p := Z.of_nat (String.length name) + 1]> m) → Q (p, name) (h', s.2)) →
  wp safe_oom (on_heap (kstrdup name)) s Q E.
Proof.
  intros Hh Hr Hsz H0 Hp. apply wp_zoom. unfold kstrdup. wp_steps.
  eapply wp_mono; [apply (kmalloc_cpu s.1 m); [by apply heap_any_owns|lia]| |done].
  intros p h' [Hc [[-> Ho]|(? & ? & Ho)]]; wp_steps; [apply H0|apply Hp]; try done;
    by apply heap_owns_any.
Qed.

Lemma th_kfree_ok F s m p (Q : () → TH H K → Prop) E :
  heap_any s.1 m → running (cpu_of s.1) → is_Some (m !! p) →
  (∀ h', cpu_of h' = cpu_of s.1 → heap_any h' (delete p m) → Q tt (h', s.2)) →
  wp F (on_heap (kfree p)) s Q E.
Proof.
  intros Hh Hr Hp HQ. apply wp_zoom. apply wp_faults with safe; [|done].
  eapply wp_mono; [apply (kfree_cpu s.1 m); [by apply heap_any_owns|done]| |done].
  intros [] h' [Hc Ho]. apply HQ; [done|by apply heap_owns_any].
Qed.

(** ** The blocks of the threads *)

Lemma thread_blocks_delete ts t x :
  ts !! t = Some x → thread_blocks ts ≡ₚ tblk t x ++ thread_blocks (delete t ts).
Proof.
  intros Ht. unfold thread_blocks.
  rewrite <- (map_to_list_delete _ _ _ Ht). done.
Qed.

Lemma thread_blocks_insert ts t x :
  thread_blocks (<[t := x]> ts) ≡ₚ tblk t x ++ thread_blocks (delete t ts).
Proof.
  rewrite (thread_blocks_delete _ t x) by (by rewrite lookup_insert_eq).
  by rewrite delete_insert_eq.
Qed.

(** Changing a thread but not its blocks *)
Lemma thread_blocks_update ts t x x' :
  ts !! t = Some x → tblk t x' = tblk t x →
  thread_blocks (<[t := x']> ts) ≡ₚ thread_blocks ts.
Proof.
  intros Ht Hb. by rewrite thread_blocks_insert, Hb, <- thread_blocks_delete.
Qed.

Lemma thread_blocks_elem ts t x : ts !! t = Some x → t ∈ thread_blocks ts.
Proof. intros Ht. rewrite (thread_blocks_delete ts t x Ht). left. Qed.

Lemma sys_blocks_perm A B R ts ts' :
  thread_blocks ts ≡ₚ thread_blocks ts' → sys_blocks A B R ts ≡ₚ sys_blocks A B R ts'.
Proof. intros Hp. unfold sys_blocks. by rewrite Hp. Qed.

(** The blocks of a thread come first. *)
Lemma sys_blocks_front A B R ts ts' bs :
  thread_blocks ts' ≡ₚ bs ++ thread_blocks ts →
  sys_blocks A B R ts' ≡ₚ bs ++ sys_blocks A B R ts.
Proof. intros Hp. unfold sys_blocks. rewrite Hp. solve_Permutation. Qed.

(** ** The arrays and the run queue *)

Lemma on_sleepers_ok {C} F (m : M (H * array Z) C) s p a (Q : C → TH H K → Prop)
    (E : Z → TH H K → Prop) :
  sleepers s.2 = Some (p, a) →
  wp F m (s.1, a) (λ c w, Q c (w.1, set_sleepers (Some (p, w.2)) s.2))
    (λ e w, E e (w.1, set_sleepers (Some (p, w.2)) s.2)) →
  wp F (on_sleepers m) s Q E.
Proof. intros Hs Hm. unfold on_sleepers. wp_the (p, a) by done. by wp_steps. Qed.

Lemma on_zombies_ok {C} F (m : M (H * array Z) C) s p a (Q : C → TH H K → Prop)
    (E : Z → TH H K → Prop) :
  zombies s.2 = Some (p, a) →
  wp F m (s.1, a) (λ c w, Q c (w.1, set_zombies (Some (p, w.2)) s.2))
    (λ e w, E e (w.1, set_zombies (Some (p, w.2)) s.2)) →
  wp F (on_zombies m) s Q E.
Proof. intros Hs Hm. unfold on_zombies. wp_the (p, a) by done. by wp_steps. Qed.

Lemma on_runqueue_ok {C} F (m : M (H * queue Z) C) s p q (Q : C → TH H K → Prop)
    (E : Z → TH H K → Prop) :
  runqueue s.2 = Some (p, q) →
  wp F m (s.1, q) (λ c w, Q c (w.1, set_runqueue (Some (p, w.2)) s.2))
    (λ e w, E e (w.1, set_runqueue (Some (p, w.2)) s.2)) →
  wp F (on_runqueue m) s Q E.
Proof. intros Hs Hm. unfold on_runqueue. wp_the (p, q) by done. by wp_steps. Qed.

(** Operations that leave the heap alone *)
Lemma mem_inv_sleepers m A B R s rest sl zb rq a' sl' :
  mem_inv m A B R s rest sl zb rq → array_rep m a' sl' → v a' = v A.2 →
  mem_inv m (A.1, a') B R (s.1, set_sleepers (Some (A.1, a')) s.2) rest sl' zb rq.
Proof.
  intros [] Hr Hv. split; try done. unfold sys_blocks in *. cbn [fst snd]. by rewrite Hv.
Qed.

Lemma mem_inv_zombies m A B R s rest sl zb rq a' zb' :
  mem_inv m A B R s rest sl zb rq → array_rep m a' zb' → v a' = v B.2 →
  mem_inv m A (B.1, a') R (s.1, set_zombies (Some (B.1, a')) s.2) rest sl zb' rq.
Proof.
  intros [] Hr Hv. split; try done. unfold sys_blocks in *. cbn [fst snd]. by rewrite Hv.
Qed.

Lemma mem_inv_runqueue m A B R s rest sl zb rq q' rq' :
  mem_inv m A B R s rest sl zb rq → queue_rep m q' rq' → data q' = data R.2 →
  mem_inv m A B (R.1, q') (s.1, set_runqueue (Some (R.1, q')) s.2) rest sl zb rq'.
Proof.
  intros [] Hr Hv. split; try done. unfold sys_blocks in *. cbn [fst snd]. by rewrite Hv.
Qed.

(** A change of the processor *)
Lemma mem_inv_cpu m A B R s rest sl zb rq c :
  mem_inv m A B R s rest sl zb rq → mem_inv m A B R (set_cpu c s) rest sl zb rq.
Proof. intros []. split; try done. by apply heap_any_cpu. Qed.

(** A change of the threads that keeps their blocks *)
Lemma mem_inv_threads m A B R s rest sl zb rq ts :
  mem_inv m A B R s rest sl zb rq → thread_blocks ts ≡ₚ thread_blocks (threads s.2) →
  mem_inv m A B R (s.1, set_threads ts s.2) rest sl zb rq.
Proof.
  intros [] Hp. split; try done. cbn [fst snd threads set_threads].
  eapply owned_perm; [|done]. by apply sys_blocks_perm.
Qed.

(** Other fields *)
Lemma mem_inv_fields m A B R s rest sl zb rq n k vs :
  mem_inv m A B R s rest sl zb rq →
  mem_inv m A B R (s.1, MkTsys (sleepers s.2) (zombies s.2) n (runqueue s.2) k (threads s.2) vs)
    rest sl zb rq.
Proof. intros []. by split. Qed.

(** The arrays and the queue survive what happens to other blocks. *)
Lemma array_rep_other m m' (a : array Z) l :
  array_rep m a l → (v a ≠ 0 → is_Some (m' !! v a)) → array_rep m' a l.
Proof.
  intros [Hn Hm Hw Hb] Hv. split; try done. destruct (Z.eqb_spec (v a) 0); [done|auto].
Qed.

Lemma blk_elem p : p ≠ 0 → p ∈ blk p.
Proof. intros Hp. unfold blk. destruct (Z.eqb_spec p 0); [done|left]. Qed.

Lemma sys_owned_reps m A B R ts rest :
  owned m (sys_blocks A B R ts) rest →
  (v A.2 ≠ 0 → is_Some (m !! v A.2)) ∧ (v B.2 ≠ 0 → is_Some (m !! v B.2)) ∧
  is_Some (m !! data R.2).
Proof.
  intros Ho. unfold sys_blocks in Ho. split_and!; intros;
    apply (owned_elem _ _ _ _ Ho); rewrite !elem_of_app.
  - left. by apply blk_elem.
  - right; left. by apply blk_elem.
  - right; right. left.
Qed.

(** Rebuild the invariant from an accounting of a new heap. *)
Lemma mem_inv_heap m m' A B R s rest rest' h' ts sl zb rq :
  mem_inv m A B R s rest sl zb rq → heap_any h' m' →
  owned m' (sys_blocks A B R ts) rest' →
  mem_inv m' A B R (h', set_threads ts s.2) rest' sl zb rq.
Proof.
  intros [] Hh Ho. pose proof (sys_owned_reps _ _ _ _ _ _ Ho) as (HA & HB & HR).
  split; try done; [by eapply array_rep_other..|by eapply queue_rep_owner].
Qed.

(** ** Growing the arrays and the run queue *)

Lemma set_sleepers_same (y : tsys K) A : sleepers y = Some A → set_sleepers (Some A) y = y.
Proof. destruct y. cbn. by intros ->. Qed.
Lemma set_zombies_same (y : tsys K) A : zombies y = Some A → set_zombies (Some A) y = y.
Proof. destruct y. cbn. by intros ->. Qed.
Lemma set_runqueue_same (y : tsys K) A : runqueue y = Some A → set_runqueue (Some A) y = y.
Proof. destruct y. cbn. by intros ->. Qed.

(** The same structures on a heap that differs in nothing we see *)
Lemma mem_inv_same m A B R s rest sl zb rq h' :
  mem_inv m A B R s rest sl zb rq → heap_any h' m → mem_inv m A B R (h', s.2) rest sl zb rq.
Proof. intros [] Hh. by split. Qed.

Lemma array_buf m (a : array Z) l : array_rep m a l → v a ≠ 0 → is_Some (m !! v a).
Proof. intros [_ _ _ Hb] Hv. by destruct (Z.eqb_spec (v a) 0). Qed.

Lemma mem_inv_swap_sleepers m m' A B R s rest sl zb rq h' a' :
  mem_inv m A B R s rest sl zb rq → heap_any h' m' → array_rep m' a' sl →
  array_frame m A.2 m' a' →
  mem_inv m' (A.1, a') B R (h', set_sleepers (Some (A.1, a')) s.2) rest sl zb rq.
Proof.
  intros [] Hh Hr Hf.
  assert (owned m' (sys_blocks (A.1, a') B R (threads s.2)) rest) as Ho.
  { apply (owned_swap m m' _ _ (v A.2)); [done|by eapply heap_any_null..|done|].
    by eapply array_buf. }
  pose proof (sys_owned_reps _ _ _ _ _ _ Ho) as (HA & HB & HR).
  split; try done; [by eapply array_rep_other|by eapply queue_rep_owner].
Qed.

Lemma mem_inv_swap_zombies m m' A B R s rest sl zb zb' rq h' b' :
  mem_inv m A B R s rest sl zb rq → heap_any h' m' → array_rep m' b' zb' →
  array_frame m B.2 m' b' →
  mem_inv m' A (B.1, b') R (h', set_zombies (Some (B.1, b')) s.2) rest sl zb' rq.
Proof.
  intros [] Hh Hr Hf.
  assert (owned m' (sys_blocks A (B.1, b') R (threads s.2)) rest) as Ho.
  { unfold sys_blocks. rewrite (assoc_L (++)), (comm (++) (blk (v A.2))), <- (assoc_L (++)).
    apply (owned_swap m m' _ _ (v B.2)); [|by eapply heap_any_null..|done|by eapply array_buf].
    eapply owned_perm; [|done]. unfold sys_blocks. solve_Permutation. }
  pose proof (sys_owned_reps _ _ _ _ _ _ Ho) as (HA & HB & HR).
  split; try done; [by eapply array_rep_other|by eapply queue_rep_owner].
Qed.

Lemma blk_nonzero p : p ≠ 0 → blk p = [p].
Proof. intros Hp. unfold blk. by destruct (Z.eqb_spec p 0). Qed.

Lemma queue_data_nonzero m (q : queue Z) l : queue_rep m q l → m !! 0 = None → data q ≠ 0.
Proof. intros [_ _ _ _ _ [sz Hd]] H0 Hz. rewrite Hz in Hd. congruence. Qed.

Lemma mem_inv_swap_runqueue m m' A B R s rest sl zb rq rq' h' q' :
  mem_inv m A B R s rest sl zb rq → heap_any h' m' → queue_rep m' q' rq' →
  queue_frame m R.2 m' q' →
  mem_inv m' A B (R.1, q') (h', set_runqueue (Some (R.1, q')) s.2) rest sl zb rq'.
Proof.
  intros [Hh0 ? ? ? ? ? Hq Hown] Hh Hr Hf.
  pose proof (heap_any_null _ _ Hh0) as H0. pose proof (heap_any_null _ _ Hh) as H0'.
  assert (owned m' (sys_blocks A B (R.1, q') (threads s.2)) rest) as Ho.
  { unfold sys_blocks. eapply (owned_perm _ (blk (data q') ++ blk (v A.2) ++ blk (v B.2) ++
      A.1 :: B.1 :: R.1 :: thread_blocks (threads s.2))).
    { rewrite (blk_nonzero (data q')) by (by eapply queue_data_nonzero). cbn [fst snd].
      solve_Permutation. }
    apply (owned_swap m m' _ _ (data R.2)); [|done..|].
    - eapply owned_perm; [|exact Hown]. unfold sys_blocks.
      rewrite (blk_nonzero (data R.2)) by (by eapply queue_data_nonzero). solve_Permutation.
    - intros _. apply Hr. }
  pose proof (sys_owned_reps _ _ _ _ _ _ Ho) as (HA & HB & HR).
  split; try done; by eapply array_rep_other.
Qed.

Lemma sleepers_grow m A B R s rest sl zb rq n (Q : () → TH H K → Prop) (E : Z → TH H K → Prop) :
  mem_inv m A B R s rest sl zb rq → running (cpu_of s.1) → max A.2 < 2 ^ 28 → n < 2 ^ 28 →
  (∀ m' h' a', cpu_of h' = cpu_of s.1 →
     mem_inv m' (A.1, a') B R (h', set_sleepers (Some (A.1, a')) s.2) rest sl zb rq →
     Z.max (max A.2) n ≤ max a' ≤ Z.max (max A.2) (2 * n) → Q tt (h', set_sleepers (Some (A.1, a')) s.2)) →
  (∀ h', cpu_of h' = cpu_of s.1 → mem_inv m A B R (h', s.2) rest sl zb rq → E ENOMEM (h', s.2)) →
  wp safe_oom (on_sleepers (array_preallocate n)) s Q E.
Proof.
  intros Hm Hrun Hmax Hn HQ HE. pose proof Hm as [Hh HA _ _ Hr _ _ _]. destruct A as [p a].
  apply (on_sleepers_ok _ _ _ p a); [done|].
  eapply wp_mono; [apply (array_preallocate_spec (HL := at_cpu (cpu_of s.1)) s.1 m a sl);
    [split; [by apply heap_any_owns|done]|done..]| |].
  - intros [] [h' a'] (m' & [Ho Hc] & Hr' & Hf & ? & ? & ?). cbn [fst snd] in *. apply (HQ m'); [done| |lia].
    apply (mem_inv_swap_sleepers m m' (p, a)); [done|by apply heap_owns_any|done|done].
  - intros e [h' a'] (-> & -> & [Ho Hc]). cbn [fst snd].
    rewrite (set_sleepers_same s.2 (p, a)) by done. apply HE; [done|].
    eapply mem_inv_same; [done|by apply heap_owns_any].
Qed.

Lemma zombies_grow m A B R s rest sl zb rq n (Q : () → TH H K → Prop) (E : Z → TH H K → Prop) :
  mem_inv m A B R s rest sl zb rq → running (cpu_of s.1) → max B.2 < 2 ^ 28 → n < 2 ^ 28 →
  (∀ m' h' b', cpu_of h' = cpu_of s.1 →
     mem_inv m' A (B.1, b') R (h', set_zombies (Some (B.1, b')) s.2) rest sl zb rq →
     Z.max (max B.2) n ≤ max b' ≤ Z.max (max B.2) (2 * n) → Q tt (h', set_zombies (Some (B.1, b')) s.2)) →
  (∀ h', cpu_of h' = cpu_of s.1 → mem_inv m A B R (h', s.2) rest sl zb rq → E ENOMEM (h', s.2)) →
  wp safe_oom (on_zombies (array_preallocate n)) s Q E.
Proof.
  intros Hm Hrun Hmax Hn HQ HE. pose proof Hm as [Hh _ HB _ _ Hr _ _]. destruct B as [p a].
  apply (on_zombies_ok _ _ _ p a); [done|].
  eapply wp_mono; [apply (array_preallocate_spec (HL := at_cpu (cpu_of s.1)) s.1 m a zb);
    [split; [by apply heap_any_owns|done]|done..]| |].
  - intros [] [h' a'] (m' & [Ho Hc] & Hr' & Hf & ? & ? & ?). cbn [fst snd] in *. apply (HQ m'); [done| |lia].
    apply (mem_inv_swap_zombies m m' A (p, a) R s rest sl zb); [done|by apply heap_owns_any|done|done].
  - intros e [h' a'] (-> & -> & [Ho Hc]). cbn [fst snd].
    rewrite (set_zombies_same s.2 (p, a)) by done. apply HE; [done|].
    eapply mem_inv_same; [done|by apply heap_owns_any].
Qed.

Lemma runqueue_grow m A B R s rest sl zb rq n (Q : () → TH H K → Prop) (E : Z → TH H K → Prop) :
  mem_inv m A B R s rest sl zb rq → running (cpu_of s.1) → size R.2 < 2 ^ 28 → n < 2 ^ 28 →
  (∀ m' h' q', cpu_of h' = cpu_of s.1 →
     mem_inv m' A B (R.1, q') (h', set_runqueue (Some (R.1, q')) s.2) rest sl zb rq →
     Z.max (size R.2) n ≤ size q' ≤ Z.max (size R.2) (2 * n) →
     Q tt (h', set_runqueue (Some (R.1, q')) s.2)) →
  (∀ h', cpu_of h' = cpu_of s.1 → mem_inv m A B R (h', s.2) rest sl zb rq → E ENOMEM (h', s.2)) →
  wp safe_oom (on_runqueue (q_preallocate n)) s Q E.
Proof.
  intros Hm Hrun Hmax Hn HQ HE. pose proof Hm as [Hh _ _ HR _ _ Hr _]. destruct R as [p a].
  apply (on_runqueue_ok _ _ _ p a); [done|].
  eapply wp_mono; [apply (q_preallocate_spec (HL := at_cpu (cpu_of s.1)) s.1 m a rq);
    [split; [by apply heap_any_owns|done]|done..]| |].
  - intros [] [h' a'] (m' & [Ho Hc] & Hr' & Hf & ? & ? & ?). cbn [fst snd] in *.
    apply (HQ m'); [done| |lia..].
    apply (mem_inv_swap_runqueue m m' A B (p, a) s rest sl zb rq rq); [done|by apply heap_owns_any|done|done].
  - intros e [h' a'] (-> & -> & [Ho Hc]). cbn [fst snd].
    rewrite (set_runqueue_same s.2 (p, a)) by done. apply HE; [done|].
    eapply mem_inv_same; [done|by apply heap_owns_any].
Qed.

(** ** Thread structures *)

Lemma get_thread_ok F s t x (Q : thread K → TH H K → Prop) E :
  threads s.2 !! t = Some x → Q x s → wp F (get_thread t) s Q E.
Proof. intros Ht HQ. unfold get_thread. by wp_the x by done. Qed.

Lemma upd_thread_ok F s t x f (Q : () → TH H K → Prop) E :
  threads s.2 !! t = Some x →
  Q tt (s.1, set_threads (<[t := f x]> (threads s.2)) s.2) →
  wp F (upd_thread t f) s Q E.
Proof.
  intros Ht HQ. unfold upd_thread. wp_steps. apply (get_thread_ok _ _ _ x); [done|].
  unfold put_thread, upd_sys. by wp_steps.
Qed.

Lemma assert_spl_ok F s (Q : () → TH H K → Prop) E :
  0 < curspl (cpu_of s.1) → Q tt s → wp F assert_spl s Q E.
Proof. intros Hs HQ. unfold assert_spl, get_curspl. by wp_assert by (apply Z.ltb_lt; exact Hs). Qed.

Lemma get_curthread_ok F s (Q : Z → TH H K → Prop) E :
  Q (curthread (cpu_of s.1)) s → wp F get_curthread s Q E.
Proof. intros HQ. unfold get_curthread. by wp_steps. Qed.

(** The structures are live blocks. *)
Lemma thread_live m A B R s rest sl zb rq t x :
  mem_inv m A B R s rest sl zb rq → threads s.2 !! t = Some x → is_Some (m !! t) ∧ t ≠ 0.
Proof.
  intros [Hh _ _ _ _ _ _ Ho] Ht.
  assert (is_Some (m !! t)) as [sz Hsz].
  { apply (owned_elem _ _ _ _ Ho). unfold sys_blocks. rewrite !elem_of_app, !elem_of_cons.
    do 2 right. do 4 right. by eapply thread_blocks_elem. }
  split; [by eexists|]. intros ->. pose proof (heap_any_null _ _ Hh). congruence.
Qed.

Lemma blk_0 : blk 0 = [].
Proof. done. Qed.

Lemma thread_create_ok m A B R s rest sl zb rq name junk (Q : Z → TH H K → Prop) E :
  mem_inv m A B R s rest sl zb rq → running (cpu_of s.1) →
  Z.of_nat (String.length name) < 2 ^ 31 - 1 →
  (∀ h', cpu_of h' = cpu_of s.1 → mem_inv m A B R (h', s.2) rest sl zb rq → Q 0 (h', s.2)) →
  (∀ t nm m' h', t ≠ 0 → threads s.2 !! t = None → cpu_of h' = cpu_of s.1 →
     let s' := (h', set_threads (<[t := MkThread None junk junk junk (nm, name) 0 0 [] 0 0 junk]>
                                   (threads s.2)) s.2) in
     mem_inv m' A B R s' rest sl zb rq → Q t s') →
  wp safe_oom (thread_create name junk) s Q E.
Proof.
  intros Hm Hrun Hlen HQ0 HQ. pose proof Hm as [Hh _ _ _ _ _ _ Ho]. unfold thread_create. wp_steps.
  apply (th_kmalloc_ok _ m); [done..| |].
  { intros h' Hc Hh'. simpl (0 =? 0). cbv iota. wp_steps. apply HQ0; [done|]. by eapply mem_inv_same. }
  intros t h1 Hc1 Ht0 Hmt Hh1. destruct (Z.eqb_spec t 0); [done|]. cbn [fst snd].
  assert (threads s.2 !! t = None) as Hnew.
  { destruct (threads s.2 !! t) eqn:Hx; [|done].
    destruct (thread_live _ _ _ _ _ _ _ _ _ _ _ Hm Hx) as [[? ?] _]. congruence. }
  assert (running (cpu_of h1)) as Hrun1 by (by rewrite Hc1).
  wp_steps. apply (kstrdup_ok _ (<[t := sizeof_thread]> m)); [done..| |]; cbn [fst snd].
  - intros h2 Hc2 Hh2. simpl (0 =? 0). cbv iota. wp_steps.
    apply (th_kfree_ok _ _ (<[t := sizeof_thread]> m)); [done|cbn [fst]; by rewrite Hc2| |].
    { rewrite lookup_insert_eq. by eexists. }
    intros h3 Hc3 Hh3. wp_steps. cbn [fst snd] in *. rewrite delete_insert_id in Hh3 by done.
    apply HQ0; [congruence|]. by eapply mem_inv_same.
  - intros nm h2 Hc2 Hn0 Hmn Hh2. destruct (Z.eqb_spec nm 0); [done|].
    unfold put_thread, upd_sys. wp_steps. cbn [fst snd].
    eapply HQ; [done|done|congruence|]. eapply mem_inv_heap; [done|done|].
    rewrite (sys_blocks_front _ _ _ (threads s.2) _ [nm; t]).
    + apply owned_alloc; [|done]. by apply owned_alloc.
    + rewrite thread_blocks_insert, (delete_id (threads s.2)) by done.
      unfold tblk. cbn [t_name t_stack fst]. rewrite blk_0. solve_Permutation.
Qed.

(** Freeing the name and the structure *)
Lemma free_thread_ok F m A B R s rest sl zb rq t nm h1 m1 (Q : () → TH H K → Prop) E :
  mem_inv m A B R s rest sl zb rq → running (cpu_of s.1) → cpu_of h1 = cpu_of s.1 →
  heap_any h1 m1 → owned m1 (nm :: t :: sys_blocks A B R (delete t (threads s.2))) rest →
  (∀ m2 h2, cpu_of h2 = cpu_of s.1 →
     let s' := (h2, set_threads (delete t (threads s.2)) s.2) in
     mem_inv m2 A B R s' rest sl zb rq → Q tt s') →
  wp F (on_heap (kfree nm);; free_thread t) (h1, s.2) Q E.
Proof.
  intros Hm Hrun Hc1 Hh1 Ho1 HQ. unfold free_thread, upd_sys. wp_steps.
  apply owned_free in Ho1 as [Hs1 Ho2].
  apply (th_kfree_ok _ _ m1); [done|cbn [fst]; by rewrite Hc1|done|].
  intros h2 Hc2 Hh2. cbn [fst snd] in *. wp_steps. apply owned_free in Ho2 as [Hs2 Ho3].
  apply (th_kfree_ok _ _ (delete nm m1)); [done|cbn [fst]; by rewrite Hc2, Hc1|done|].
  intros h3 Hc3 Hh3. cbn [fst snd] in *. wp_steps. cbn [fst snd]. eapply HQ; [congruence|].
  by eapply mem_inv_heap.
Qed.

(** A thread's blocks in front of the others *)
Lemma sys_blocks_thread A B R ts t x :
  ts !! t = Some x →
  sys_blocks A B R ts
    ≡ₚ blk (t_stack x) ++ (t_name x).1 :: t :: sys_blocks A B R (delete t ts).
Proof.
  intros Ht. rewrite (sys_blocks_front _ _ _ (delete t ts) _ (tblk t x))
    by (by apply thread_blocks_delete). unfold tblk. solve_Permutation.
Qed.

(** Freeing all of a thread; the caller does [k] next. *)
Lemma free_stackless_ok F {C} (k : () → M (TH H K) C) m A B R s rest sl zb rq t x
    (Q : C → TH H K → Prop) E :
  mem_inv m A B R s rest sl zb rq → running (cpu_of s.1) → threads s.2 !! t = Some x →
  t_stack x = 0 →
  (∀ m2 h2, cpu_of h2 = cpu_of s.1 →
     let s' := (h2, set_threads (delete t (threads s.2)) s.2) in
     mem_inv m2 A B R s' rest sl zb rq → wp F (k tt) s' Q E) →
  wp F (on_heap (kfree (t_name x).1);; mbind k (free_thread t)) s Q E.
Proof.
  intros Hm Hrun Ht H0 HQ. pose proof Hm as [Hh _ _ _ _ _ _ Ho].
  rewrite (sys_blocks_thread _ _ _ _ _ _ Ht), H0 in Ho. destruct s as [h y]. apply wp_bind.
  apply (wp_mono _ _ _ (λ _ s1, wp F (free_thread t) s1 (λ u s', wp F (k u) s' Q E) E) _ E);
    [|intros [] s1; apply wp_bind|done].
  eapply (wp_unbind F (on_heap (kfree (t_name x).1)) (λ _, free_thread t)).
  by apply (free_thread_ok _ m A B R (h, y) rest sl zb rq t _ h m).
Qed.

Lemma free_whole_ok F {C} (k : () → M (TH H K) C) m A B R s rest sl zb rq t x
    (Q : C → TH H K → Prop) E :
  mem_inv m A B R s rest sl zb rq → running (cpu_of s.1) → threads s.2 !! t = Some x →
  t_stack x ≠ 0 →
  (∀ m2 h2, cpu_of h2 = cpu_of s.1 →
     let s' := (h2, set_threads (delete t (threads s.2)) s.2) in
     mem_inv m2 A B R s' rest sl zb rq → wp F (k tt) s' Q E) →
  wp F (on_heap (kfree (t_stack x));; on_heap (kfree (t_name x).1);;
        mbind k (free_thread t)) s Q E.
Proof.
  intros Hm Hrun Ht H0 HQ. pose proof Hm as [Hh _ _ _ _ _ _ Ho].
  rewrite (sys_blocks_thread _ _ _ _ _ _ Ht), blk_nonzero in Ho by done.
  apply owned_free in Ho as [Hs Ho]. wp_step. apply (th_kfree_ok _ _ m); [done..|]. intros h1 Hc1 Hh1. apply wp_bind.
  apply (wp_mono _ _ _ (λ _ s1, wp F (free_thread t) s1 (λ u s', wp F (k u) s' Q E) E) _ E);
    [|intros [] s1; apply wp_bind|done].
  eapply (wp_unbind F (on_heap (kfree (t_name x).1)) (λ _, free_thread t)).
  by apply (free_thread_ok _ m A B R s rest sl zb rq t _ h1 (delete (t_stack x) m)).
Qed.

Lemma thread_destroy_ok F m A B R s rest sl zb rq t (Q : () → TH H K → Prop) E :
  mem_inv m A B R s rest sl zb rq → running (cpu_of s.1) → t ≠ curthread (cpu_of s.1) →
  dead (threads s.2) t →
  (∀ m2 h2, cpu_of h2 = cpu_of s.1 →
     let s' := (h2, set_threads (delete t (threads s.2)) s.2) in
     mem_inv m2 A B R s' rest sl zb rq → Q tt s') →
  wp F (thread_destroy t) s Q E.
Proof.
  intros Hm Hrun Hne (x & Ht & Hv & Hcwd) HQ. pose proof Hm as [Hh _ _ _ _ _ _ Ho].
  rewrite (sys_blocks_thread _ _ _ _ _ _ Ht) in Ho.
  unfold thread_destroy. wp_steps. apply get_curthread_ok. wp_assert by lia. wp_steps.
  apply (get_thread_ok _ _ _ x); [done|]. wp_assert by lia. wp_assert by lia. wp_steps.
  wp_if.
  - rewrite blk_nonzero in Ho by lia. apply owned_free in Ho as [Hs Ho].
    apply (th_kfree_ok _ _ m); [done..|]. intros h1 Hc1 Hh1.
    by apply (free_thread_ok _ m A B R s rest sl zb rq t _ h1 (delete (t_stack x) m)).
  - replace (t_stack x) with 0 in Ho by lia. destruct s as [h y].
    by apply (free_thread_ok _ m A B R (h, y) rest sl zb rq t _ h m).
Qed.

(** ** Removing the zombies *)

Definition forget (zb : list Z) ts : gmap Z (thread K) := foldl (λ ts t, delete t ts) ts zb.

Lemma forget_lookup zb ts t :
  forget zb ts !! t = if decide (t ∈ zb) then None else ts !! t.
Proof.
  unfold forget. revert ts. induction zb as [|z zb IH]; intros ts; cbn [foldl].
  - by destruct (decide (t ∈ [])) as [?%elem_of_nil|].
  - rewrite IH. destruct (decide (t ∈ zb)) as [|Hn], (decide (t ∈ z :: zb)) as [Hc|Hc];
      rewrite ?elem_of_cons in Hc; [done|tauto| |].
    + destruct Hc as [->|]; [by rewrite lookup_delete_eq|done].
    + rewrite lookup_delete_ne; [done|]. intros ->. tauto.
Qed.

Lemma forget_snoc zb t ts : forget (zb ++ [t]) ts = delete t (forget zb ts).
Proof. unfold forget. by rewrite foldl_app. Qed.

Lemma waits_lookup ts ts' t : ts' !! t = ts !! t → waits ts t → waits ts' t.
Proof. unfold waits. by intros ->. Qed.
Lemma dead_lookup ts ts' t : ts' !! t = ts !! t → dead ts t → dead ts' t.
Proof. unfold dead. by intros ->. Qed.

(** Moving threads from the sleepers to the ready ones *)
Lemma who_wake (P : Z → Prop) `{!∀ t, Decision (P t)} ts cs sl zb rq :
  who_inv ts cs sl zb rq →
  who_inv ts cs (filter (λ t, ¬ P t) sl) zb (rq ++ filter P sl).
Proof.
  intros [Hn Hd Hst Hw Hde].
  assert (sl ≡ₚ filter (λ t, ¬ P t) sl ++ filter P sl) as Hsl.
  { clear. induction sl as [|t sl IH]; [done|]. rewrite !filter_cons.
    destruct (decide (P t)); [rewrite decide_False by tauto|rewrite decide_True by done]; simpl;
      rewrite IH at 1; solve_Permutation. }
  assert (cs ++ sl ++ zb ++ rq ≡ₚ
    cs ++ filter (λ t, ¬ P t) sl ++ zb ++ rq ++ filter P sl) as Hp
    by (rewrite Hsl at 1; solve_Permutation).
  split; [by rewrite <- Hp|intros t; by rewrite <- Hp|done| |done].
  intros t Ht. apply Hw. rewrite !elem_of_app, !list_elem_of_filter in Ht. rewrite elem_of_app. tauto.
Qed.

(** The running thread changes. *)
Lemma who_update ts cur sl zb rq x' :
  who_inv ts [cur] sl zb rq → stack_ok x' → who_inv (<[cur := x']> ts) [cur] sl zb rq.
Proof.
  intros [Hn Hd Hst Hw Hde] Hx'.
  assert (cur ∉ sl ++ zb ++ rq) as Hcur by (simpl in Hn; by apply NoDup_cons in Hn as [? _]).
  split; [done| | | |].
  - intros t. rewrite <- Hd. destruct (decide (t = cur)) as [->|]; [|by rewrite lookup_insert_ne].
    rewrite lookup_insert_eq. split; [|by eexists]. intros _. apply Hd. left.
  - intros t y [[<- <-]|[_ Hy]]%lookup_insert_Some; [done|by eapply Hst].
  - intros t Ht. eapply waits_lookup; [|by apply Hw]. apply lookup_insert_ne. intros <-. set_solver.
  - intros t Ht. eapply dead_lookup; [|by apply Hde]. apply lookup_insert_ne. intros <-. set_solver.
Qed.

(** A new thread that is ready *)
Lemma who_fork ts cur sl zb rq t x fr :
  who_inv ts [cur] sl zb rq → ts !! t = None → pcb_frame x = Some fr → frame_ok fr → stack_ok x →
  who_inv (<[t := x]> ts) [cur] sl zb (rq ++ [t]).
Proof.
  intros [Hn Hd Hst Hw Hde] Ht Hf Hfr Hx.
  assert (t ∉ [cur] ++ sl ++ zb ++ rq) as Hout.
  { intros Hin. apply Hd in Hin as [? ?]. congruence. }
  assert ([cur] ++ sl ++ zb ++ rq ++ [t] ≡ₚ t :: [cur] ++ sl ++ zb ++ rq) as Hp by solve_Permutation.
  split.
  - rewrite Hp. by constructor.
  - intros u. rewrite Hp, elem_of_cons, <- Hd. destruct (decide (u = t)) as [->|].
    + rewrite lookup_insert_eq. split; [by left|by eexists].
    + rewrite lookup_insert_ne by done. tauto.
  - intros u y [[<- <-]|[_ Hy]]%lookup_insert_Some; [done|by eapply Hst].
  - intros u Hu. destruct (decide (u = t)) as [->|].
    + exists x, fr. by rewrite lookup_insert_eq.
    + eapply waits_lookup; [by rewrite lookup_insert_ne|]. apply Hw.
      rewrite !elem_of_app, list_elem_of_singleton in Hu. rewrite elem_of_app. tauto.
  - intros u Hu. eapply dead_lookup; [|by apply Hde]. rewrite lookup_insert_ne; [done|].
    intros <-. apply Hout. rewrite !elem_of_app. tauto.
Qed.

(** Membership in the four lists excludes membership in the others. *)
Lemma forget_who ts cs sl zb rq :
  who_inv ts cs sl zb rq → who_inv (forget zb ts) cs sl [] rq.
Proof.
  intros [Hn Hd Hst Hw Hde].
  assert (∀ t, t ∈ cs ++ sl ++ rq → t ∉ zb) as Hout.
  { intros t Ht Hz. rewrite !NoDup_app in Hn. rewrite !elem_of_app in Ht. set_solver. }
  split.
  - simpl. rewrite !NoDup_app in *. set_solver.
  - intros t. rewrite forget_lookup. simpl. case_decide as Hz.
    + split; [by intros [? ?]|]. intros Ht. by destruct (Hout t Ht).
    + rewrite Hd, !elem_of_app. tauto.
  - intros t x. rewrite forget_lookup. case_decide; [done|apply Hst].
  - intros t Ht. eapply waits_lookup; [|by apply Hw].
    rewrite forget_lookup, decide_False; [done|]. apply Hout. rewrite !elem_of_app in *. tauto.
  - by intros t ?%elem_of_nil.
Qed.

Lemma array_setsize_0_cpu F (h : H) m c (a : array Z) l :
  heap_owns h m → cpu_of h = c → array_rep m a l →
  wp F (array_setsize 0) (h, a)
    (λ _ '(h', a'), ∃ m', (heap_owns h' m' ∧ cpu_of h' = c) ∧ array_rep m' a' [] ∧
       array_frame m a m' a') noerr.
Proof. intros Hh Hc Hr. by apply (array_setsize_0 (HL := at_cpu c) F h m a l). Qed.

Lemma exorcise_ok F m A B R s rest cs sl zb rq (Q : () → TH H K → Prop) E :
  mem_inv m A B R s rest sl zb rq → running (cpu_of s.1) → 0 < curspl (cpu_of s.1) →
  who_inv (threads s.2) cs sl zb rq → curthread (cpu_of s.1) ∉ zb →
  (∀ m' b' h', cpu_of h' = cpu_of s.1 →
     let s' := (h', set_zombies (Some (B.1, b')) (set_threads (forget zb (threads s.2)) s.2)) in
     mem_inv m' A (B.1, b') R s' rest sl [] rq → Q tt s') →
  wp F exorcise s Q E.
Proof.
  intros Hm Hrun Hspl Hwho Hcur HQ. unfold exorcise. wp_steps. apply assert_spl_ok; [done|].
  destruct B as [p a]. pose proof Hm as [_ _ HB _ _ Hzb _ _]. wp_steps.
  apply (on_zombies_ok _ _ _ p a); [done|]. unfold array_getnum. mem_steps. cbn [fst snd].
  rewrite (set_zombies_same s.2 (p, a)) by done. destruct s as [h y]. cbn [fst snd] in *.
  rewrite (array_rep_num _ _ _ Hzb).
  apply (wp_for_range _ _ (λ i s', ∃ h' m', let ts' := forget (take (Z.to_nat i) zb) (threads y) in
    s' = (h', set_threads ts' y) ∧ cpu_of h' = cpu_of h ∧ mem_inv m' A (p, a) R s' rest sl zb rq)).
  - lia.
  - intros i s' Hi (h' & m' & -> & Hc & Hm'). cbv zeta in Hm'.
    destruct (lookup_lt_is_Some_2 zb (Z.to_nat i)) as [z Hz]; [lia|].
    pose proof Hm' as [_ _ _ _ _ Hzb' _ _]. wp_steps. apply (on_zombies_ok _ _ _ p a); [done|].
    eapply wp_mono; [apply (array_getguy_spec _ _ _ _ _ _ z Hzb')| |done].
    { unfold zlookup. destruct (Z.leb_spec 0 i); [done|lia]. }
    intros ? ? [-> ->]. cbn [fst snd]. rewrite (set_zombies_same _ (p, a)) by done. wp_steps.
    apply get_curthread_ok. cbn [fst snd]. rewrite Hc.
    assert (z ∈ zb) as Hin by (by eapply list_elem_of_lookup_2).
    assert (z ≠ curthread (cpu_of h)) by congruence. wp_assert by lia.
    assert (NoDup zb) as Hnd.
    { destruct Hwho as [Hn _ _ _ _]. rewrite !NoDup_app in Hn. tauto. }
    apply (thread_destroy_ok _ m' A (p, a) R _ rest sl zb rq); [done|cbn [fst]; by rewrite Hc|cbn [fst]; by rewrite Hc| |].
    { apply (dead_lookup (threads y)); [|by apply (wi_dead _ _ _ _ _ Hwho)].
      cbn [snd threads set_threads]. rewrite forget_lookup, decide_False; [done|].
      intros (j & Hj & Hlt)%elem_of_take. pose proof (NoDup_lookup _ _ _ _ Hnd Hj Hz). lia. }
    intros m2 h2 Hc2. cbn [fst snd threads set_threads]. intros Hm2. exists h2, m2. cbv zeta.
    replace (Z.to_nat (i + 1)) with (S (Z.to_nat i)) by lia.
    rewrite (take_S_r _ _ _ Hz), forget_snoc. split; [done|]. split; [|done]. by rewrite Hc2, <- Hc.
  - exists h, m. cbv zeta. simpl. split; [by destruct y|]. split; [done|]. by destruct y.
  - intros s' (h' & m' & -> & Hc & Hm'). cbv zeta in Hm'.
    rewrite firstn_all2 in Hm' |- * by lia. pose proof Hm' as [Hh' _ _ _ _ Hzb' _ _].
    wp_steps. apply (on_zombies_ok _ _ _ p a); [done|].
    eapply wp_mono; [apply (array_setsize_0_cpu F h' m' (cpu_of h) a zb); [|done|done]| |done].
    { apply heap_any_owns; [done|]. cbn [fst]. by rewrite Hc. }
    intros [] [h2 b'] (m2 & [Hh2 Hc2] & Hr2 & Hf2). wp_assert by done. cbn [fst snd].
    eapply HQ; [done|].
    apply (mem_inv_swap_zombies m' m2 A (p, a) R (h', set_threads _ y) rest sl zb);
      [done|by apply heap_owns_any|done|done].
Qed.
End inv.
