(* ===== verification/ThreadSwitch.v ===== *)
(** * Threads: the context switch

    [mi_switch] puts the running thread at the end of the list its next state
    asks for and hands the processor to the head of the run queue. *)

From Stdlib Require Import ZArith Lia.
From stdpp Require Import base list gmap numbers strings.
From S2P Require Import Prelude Cpu KMem HeapCpu Array Queue Vnode Thread ThreadProof.

Local Open Scope Z_scope.

Section switch.
Context {H : Type} `{!HasCpu H} `{!KHeap H} `{!KHeapLaws H} `{!KHeapCpu H} {K : Type}.
Context (cpu_idle : M (TH H K) ()) (idle_fuel : nat).
Implicit Types (s : TH H K) (ts : gmap Z (thread K)) (m rest : gmap Z Z) (x : thread K).
Implicit Types (cs sl zb rq : list Z) (t cur next : Z) (fr : frame K).

Lemma upd_cpu_ok F s f (Q : () → TH H K → Prop) E :
  Q tt (set_cpu (f (cpu_of s.1)) s.1, s.2) → wp F (upd_cpu f) s Q E.
Proof. intros HQ. unfold upd_cpu. by wp_steps. Qed.

(** ** The lists *)

Lemma make_runnable_ok F m A B R s rest sl zb rq t (Q : () → TH H K → Prop) E :
  mem_inv m A B R s rest sl zb rq → 0 < curspl (cpu_of s.1) →
  Z.of_nat (length rq) < size R.2 - 1 →
  (∀ q', let s' := (s.1, set_runqueue (Some (R.1, q')) s.2) in
     size q' = size R.2 → mem_inv m A B (R.1, q') s' rest sl zb (rq ++ [t]) → Q tt s') →
  wp F (make_runnable t) s Q E.
Proof.
  intros Hm Hspl Hroom HQ. unfold make_runnable. wp_steps. apply assert_spl_ok; [done|].
  destruct R as [p q]. pose proof Hm as [_ _ _ HR _ _ Hq _].
  apply (on_runqueue_ok _ _ _ p q); [done|].
  eapply wp_mono; [by apply (q_addtail_room _ _ _ m q rq)| |done].
  intros [] [h' q'] (-> & Hq' & Hs & Hd). cbn [fst snd]. apply HQ; [done|].
  by apply (mem_inv_runqueue m A B (p, q) s rest sl zb rq).
Qed.

Lemma add_sleeper_ok F m A B R s rest sl zb rq t (Q : () → TH H K → Prop) E :
  mem_inv m A B R s rest sl zb rq → Z.of_nat (length sl) < max A.2 →
  (∀ a', let s' := (s.1, set_sleepers (Some (A.1, a')) s.2) in
     max a' = max A.2 → mem_inv m (A.1, a') B R s' rest (sl ++ [t]) zb rq → Q tt s') →
  wp F (on_sleepers (array_add t)) s Q E.
Proof.
  intros Hm Hroom HQ. destruct A as [p a]. pose proof Hm as [_ HA _ _ Ha _ _ _].
  apply (on_sleepers_ok _ _ _ p a); [done|].
  eapply wp_mono; [apply (array_add_room _ _ m a sl); [done|]| |done].
  { cbn [snd] in *. by rewrite (array_rep_num _ _ _ Ha). }
  intros [] [h' a'] (-> & Ha' & Hs & Hd). cbn [fst snd]. apply HQ; [done|].
  by apply (mem_inv_sleepers m (p, a) B R s rest sl).
Qed.

Lemma add_zombie_ok F m A B R s rest sl zb rq t (Q : () → TH H K → Prop) E :
  mem_inv m A B R s rest sl zb rq → Z.of_nat (length zb) < max B.2 →
  (∀ b', let s' := (s.1, set_zombies (Some (B.1, b')) s.2) in
     max b' = max B.2 → mem_inv m A (B.1, b') R s' rest sl (zb ++ [t]) rq → Q tt s') →
  wp F (on_zombies (array_add t)) s Q E.
Proof.
  intros Hm Hroom HQ. destruct B as [p a]. pose proof Hm as [_ _ HA _ _ Ha _ _].
  apply (on_zombies_ok _ _ _ p a); [done|].
  eapply wp_mono; [apply (array_add_room _ _ m a zb); [done|]| |done].
  { cbn [snd] in *. by rewrite (array_rep_num _ _ _ Ha). }
  intros [] [h' a'] (-> & Ha' & Hs & Hd). cbn [fst snd]. apply HQ; [done|].
  by apply (mem_inv_zombies m A (p, a) R s rest sl zb).
Qed.

(** A ready thread is returned without waiting. *)
Lemma scheduler_ok F m A B R s rest sl zb t rq (Q : Z → TH H K → Prop) E :
  mem_inv m A B R s rest sl zb (t :: rq) → 0 < curspl (cpu_of s.1) →
  (∀ q', let s' := (s.1, set_runqueue (Some (R.1, q')) s.2) in
     size q' = size R.2 → mem_inv m A B (R.1, q') s' rest sl zb rq → Q t s') →
  wp F (scheduler cpu_idle idle_fuel) s Q E.
Proof.
  intros Hm Hspl HQ. unfold scheduler. wp_steps. apply assert_spl_ok; [done|].
  destruct R as [p q]. pose proof Hm as [_ _ _ HR _ _ Hq _].
  assert (q_empty q = false) as Hne.
  { destruct (q_empty q) eqn:He; [|done]. by apply (q_empty_iff _ _ _ Hq) in He. }
  wp_steps. assert (∀ (Q' : () → TH H K → Prop), Q' tt s → wp F (wait_ready cpu_idle idle_fuel) s Q' E)
    as Hwait.
  { intros Q' HQ'. destruct idle_fuel; cbn [wait_ready]; unfold runqueue_empty;
      (wp_the (p, q) by done); wp_steps; cbn [snd]; rewrite Hne; by wp_steps. }
  apply Hwait. apply (on_runqueue_ok _ _ _ p q); [done|].
  eapply wp_mono; [by apply (q_remhead_spec _ _ m q t rq)| |done].
  intros ? [h' q'] (-> & -> & Hq' & Hs & Hd). cbn [fst snd]. apply HQ; [done|].
  by apply (mem_inv_runqueue m A B (p, q) s rest sl zb (t :: rq)).
Qed.

(** Where the running thread goes, and that there is room for it *)
Definition placed (st : threadstate_t) (cur : Z) (A B : Z * array Z) (R : Z * queue Z)
    (sl zb rq sl' zb' rq' : list Z) : Prop :=
  match st with
  | S_RUN => False
  | S_READY => Z.of_nat (length rq) < size R.2 - 1 ∧ sl' = sl ∧ zb' = zb ∧ rq' = rq ++ [cur]
  | S_SLEEP => Z.of_nat (length sl) < max A.2 ∧ sl' = sl ++ [cur] ∧ zb' = zb ∧ rq' = rq
  | S_ZOMB => Z.of_nat (length zb) < max B.2 ∧ sl' = sl ∧ zb' = zb ++ [cur] ∧ rq' = rq
  end.

(** The capacities *)
Definition same_room (A B : Z * array Z) (R : Z * queue Z) (A' B' : Z * array Z)
    (R' : Z * queue Z) : Prop :=
  max A'.2 = max A.2 ∧ max B'.2 = max B.2 ∧ size R'.2 = size R.2.

(** ** The registers *)

(** The processor went from [cur], which will go on in [fr], to [next], which
    goes on in [fr']: all that changes in the two threads is what the pcb saves,
    and nothing changes in the others. *)
Record switched_to s cur fr s' next fr' : Prop := {
  sw_thread : curthread (cpu_of s'.1) = next;
  sw_spl : curspl (cpu_of s'.1) = curspl (cpu_of s.1);
  sw_status : cp0_status (cpu_of s'.1) = cp0_status (cpu_of s.1);
  sw_cur : cur ≠ next → ∃ x, threads s.2 !! cur = Some x ∧
    threads s'.2 !! cur
      = Some (set_pcb (Some fr) (curkstack s.2) (in_interrupt (cpu_of s.1)) x);
  sw_next : cur ≠ next → ∃ x, threads s.2 !! next = Some x ∧ pcb_frame x = Some fr' ∧
    threads s'.2 !! next = Some (set_pcb None (pcb_kstack x) (pcb_ininterrupt x) x) ∧
    curkstack s'.2 = pcb_kstack x ∧ in_interrupt (cpu_of s'.1) = pcb_ininterrupt x;
  sw_self : cur = next → fr' = fr ∧ threads s'.2 = threads s.2 ∧
    curkstack s'.2 = curkstack s.2 ∧ in_interrupt (cpu_of s'.1) = in_interrupt (cpu_of s.1);
  sw_others t : t ≠ cur → t ≠ next → threads s'.2 !! t = threads s.2 !! t;
  sw_numthreads : numthreads s'.2 = numthreads s.2;
  sw_vnodes : vnodes s'.2 = vnodes s.2;
}.

Lemma switched_to_blocks s cur fr s' next fr' :
  switched_to s cur fr s' next fr' →
  thread_blocks (threads s'.2) ≡ₚ thread_blocks (threads s.2).
Proof.
  intros []. destruct (decide (cur = next)) as [He|Hne]; [by destruct sw_self0 as (_ & -> & _)|].
  destruct sw_cur0 as (x & Hx & Hx'); [done|].
  destruct sw_next0 as (y & Hy & _ & Hy' & _); [done|].
  assert (threads s'.2 = <[cur := set_pcb (Some fr) (curkstack s.2) (in_interrupt (cpu_of s.1)) x]>
    (<[next := set_pcb None (pcb_kstack y) (pcb_ininterrupt y) y]> (threads s.2))) as ->.
  { apply map_eq. intros t. destruct (decide (t = cur)) as [->|]; [by rewrite lookup_insert_eq|].
    rewrite lookup_insert_ne by done.
    destruct (decide (t = next)) as [->|]; [by rewrite lookup_insert_eq|].
    rewrite lookup_insert_ne by done. by apply sw_others0. }
  rewrite (thread_blocks_update _ cur x), (thread_blocks_update _ next y); try done.
  by rewrite lookup_insert_ne.
Qed.

(** [md_switch], once [curthread] is [next] *)
Lemma md_switch_ok F s cur next fr x y fr' (Q : frame K → TH H K → Prop) E :
  threads s.2 !! cur = Some x → threads s.2 !! next = Some y →
  (cur ≠ next → pcb_frame y = Some fr') → (cur = next → fr' = fr) →
  curthread (cpu_of s.1) = next →
  (∀ c ts k, let s' := (set_cpu c s.1, set_curkstack k (set_threads ts s.2)) in
     switched_to s cur fr s' next fr' → Q fr' s') →
  wp F (md_switch cur next fr) s Q E.
Proof.
  intros Hx Hy Hf Hself Hcur HQ. destruct s as [h z]. cbn [fst snd] in *. unfold md_switch.
  destruct (Z.eqb_spec cur next) as [->|Hne].
  - rewrite <- Hself by done. wp_steps.
    replace (h, z) with (set_cpu (cpu_of h) h, set_curkstack (curkstack z) (set_threads (threads z) z))
      by (rewrite set_cpu_of; by destruct z).
    apply HQ. split; cbn [fst snd threads curkstack numthreads vnodes set_curkstack set_threads];
      rewrite ?set_cpu_of; auto; done.
  - wp_steps. apply (upd_thread_ok _ _ _ x); [done|]. wp_steps.
    apply (get_thread_ok _ _ _ y); [cbn [fst snd threads set_threads]; by rewrite lookup_insert_ne|].
    unfold upd_sys, put_thread, upd_sys. wp_steps. cbn [fst snd]. apply upd_cpu_ok. wp_steps.
    wp_the fr' by auto. wp_steps. cbn [fst snd threads set_threads set_curkstack].
    match goal with |- Q fr' (set_cpu ?c h, ?w) => change w with
      (set_curkstack (pcb_kstack y) (set_threads (<[next:=set_pcb None (pcb_kstack y) (pcb_ininterrupt y) y]>
        (<[cur:=set_pcb (Some fr) (curkstack z) (in_interrupt (cpu_of h)) x]> (threads z))) z)) end.
    apply HQ. split; cbn [fst snd threads curkstack numthreads vnodes set_curkstack set_threads];
      rewrite ?cpu_of_set; try done.
    + intros _. exists x. split; [done|]. rewrite lookup_insert_ne by done. by rewrite lookup_insert_eq.
    + intros _. exists y. rewrite lookup_insert_eq. auto.
    + intros t ??. by rewrite !lookup_insert_ne.
Qed.

Lemma switched_to_lookup s cur fr s' next fr' t :
  switched_to s cur fr s' next fr' →
  match threads s'.2 !! t with
  | Some x' => ∃ x f k i, threads s.2 !! t = Some x ∧ x' = set_pcb f k i x
  | None => threads s.2 !! t = None
  end.
Proof.
  assert (∀ x : thread K, ∃ f k i, x = set_pcb f k i x) as Hid.
  { intros [f k i]. by exists f, k, i. }
  assert (∀ t, threads s'.2 !! t = threads s.2 !! t → match threads s'.2 !! t with
    | Some x' => ∃ x f k i, threads s.2 !! t = Some x ∧ x' = set_pcb f k i x
    | None => threads s.2 !! t = None end) as Hsame.
  { intros u ->. destruct (threads s.2 !! u) as [x|]; [|done]. destruct (Hid x) as (f & k & i & He).
    by exists x, f, k, i. }
  intros []. destruct (decide (cur = next)) as [He|Hne].
  { apply Hsame. by destruct sw_self0 as (_ & -> & _). }
  destruct (decide (t = cur)) as [->|]; [|destruct (decide (t = next)) as [->|]].
  - destruct sw_cur0 as (x & Hx & ->); [done|]. by eexists x, _, _, _.
  - destruct sw_next0 as (x & Hx & _ & -> & _); [done|]. by eexists x, _, _, _.
  - by apply Hsame, sw_others0.
Qed.

Lemma placed_perm st cur A B R sl zb rq sl' zb' next rq' :
  placed st cur A B R sl zb rq sl' zb' (next :: rq') →
  [next] ++ sl' ++ zb' ++ rq' ≡ₚ [cur] ++ sl ++ zb ++ rq.
Proof.
  destruct st; simpl; [done|..]; intros (_ & -> & -> & Hrq).
  - assert (next :: rq' ≡ₚ cur :: rq) as Hp by (rewrite Hrq; solve_Permutation).
    rewrite !app_assoc, (Permutation_middle (sl ++ zb) rq' next), Hp. solve_Permutation.
  - subst rq. solve_Permutation.
  - subst rq. solve_Permutation.
Qed.

Lemma switched_to_who st s cur fr s' next fr' A B R sl zb rq sl' zb' rq' :
  who_inv (threads s.2) [cur] sl zb rq →
  placed st cur A B R sl zb rq sl' zb' (next :: rq') →
  (st = S_ZOMB → dead (threads s.2) cur) → (st ≠ S_ZOMB → frame_ok fr) →
  switched_to s cur fr s' next fr' →
  who_inv (threads s'.2) [next] sl' zb' rq' ∧ frame_ok fr'.
Proof.
  intros Hwho Hpl Hdead Hfr Hsw. pose proof (placed_perm _ _ _ _ _ _ _ _ _ _ _ _ Hpl) as Hp.
  pose proof Hwho as [Hnd Hdom Hst Hw Hd].
  assert (NoDup ([next] ++ sl' ++ zb' ++ rq')) as Hnd' by (by rewrite Hp).
  assert (∀ t, t ∈ sl' ++ rq' → (t = cur ∧ st ≠ S_ZOMB) ∨ t ∈ sl ++ rq) as Hin.
  { destruct st; simpl in Hpl; [done|..]; destruct Hpl as (_ & -> & -> & Hrq).
    - intros t Ht. assert (t ∈ sl ++ rq ++ [cur]) by (rewrite <- Hrq; set_solver). set_solver.
    - intros t Ht. subst rq. set_solver.
    - intros t Ht. subst rq. set_solver. }
  assert (∀ t, t ∈ zb' → t ∈ zb ∨ (t = cur ∧ st = S_ZOMB)) as Hzb.
  { destruct st; simpl in Hpl; [done|..]; destruct Hpl as (_ & -> & -> & _); [tauto..|].
    intros t. rewrite elem_of_app, list_elem_of_singleton. tauto. }
  assert (next = cur ∧ st ≠ S_ZOMB ∨ next ∈ sl ++ rq) as Hnext.
  { destruct st; simpl in Hpl; [done|..]; destruct Hpl as (_ & -> & -> & Hrq).
    - assert (next ∈ rq ++ [cur]) by (rewrite <- Hrq; left). set_solver.
    - subst rq. right. set_solver.
    - subst rq. right. set_solver. }
  assert (cur ∉ sl ++ zb ++ rq) as Hcur.
  { simpl in Hnd. by apply NoDup_cons in Hnd as [? _]. }
  assert (next ∉ sl' ++ zb' ++ rq') as Hnext'.
  { simpl in Hnd'. by apply NoDup_cons in Hnd' as [? _]. }
  split; [split|].
  - done.
  - intros t. rewrite Hp, <- Hdom. pose proof (switched_to_lookup _ _ _ _ _ _ t Hsw) as Hl.
    destruct (threads s'.2 !! t); [|by rewrite Hl]. destruct Hl as (? & ? & ? & ? & -> & _).
    split; by eexists.
  - intros t x' Hx'. pose proof (switched_to_lookup _ _ _ _ _ _ t Hsw) as Hl. rewrite Hx' in Hl.
    destruct Hl as (x & f & k & i & Hx & ->). exact (Hst t x Hx).
  - intros t Ht. assert (t ≠ next) by set_solver.
    destruct (Hin t Ht) as [[-> Hz]|Hold].
    + destruct (sw_cur _ _ _ _ _ _ Hsw) as (x & _ & Hx'); [done|]. eexists _, fr. split; [done|].
      split; [done|auto].
    + eapply waits_lookup; [|by apply Hw]. apply (sw_others _ _ _ _ _ _ Hsw); [set_solver|done].
  - intros t Ht. assert (t ≠ next) by set_solver.
    assert (dead (threads s.2) t) as (x & Hx & Hv & Hc).
    { destruct (Hzb t Ht) as [?|[-> ?]]; auto. }
    pose proof (switched_to_lookup _ _ _ _ _ _ t Hsw) as Hl.
    destruct (threads s'.2 !! t) as [x'|] eqn:Hx'; [|congruence].
    destruct Hl as (x0 & f & k & i & Hx0 & ->). simplify_eq. eexists. split; [done|done].
  - destruct (decide (cur = next)) as [He|Hne].
    + destruct (sw_self _ _ _ _ _ _ Hsw He) as (-> & _). apply Hfr. destruct Hnext as [[_ ?]|Hn]; [done|].
      subst next. set_solver.
    + destruct Hnext as [[? _]|Hn]; [by subst|]. destruct (Hw next Hn) as (x & f & Hx & Hf & Hok).
      destruct (sw_next _ _ _ _ _ _ Hsw Hne) as (x' & Hx' & Hf' & _). congruence.
Qed.

(** ** [mi_switch] *)

(** Only the lists differ. *)
Definition same_threads (y y' : tsys K) : Prop :=
  threads y' = threads y ∧ curkstack y' = curkstack y ∧ numthreads y' = numthreads y ∧
  vnodes y' = vnodes y.

Lemma stash_ok F st m A B R s rest cur sl zb rq sl' zb' rq' (Q : () → TH H K → Prop) E :
  mem_inv m A B R s rest sl zb rq → 0 < curspl (cpu_of s.1) →
  placed st cur A B R sl zb rq sl' zb' rq' →
  (∀ A' B' R' y', same_room A B R A' B' R' → same_threads s.2 y' →
     mem_inv m A' B' R' (s.1, y') rest sl' zb' rq' → Q tt (s.1, y')) →
  wp F (match st with
        | S_READY => make_runnable cur
        | S_SLEEP => on_sleepers (array_add cur)
        | S_ZOMB => on_zombies (array_add cur)
        | S_RUN => assert false
        end) s Q E.
Proof.
  intros Hm Hspl Hpl HQ. destruct st; simpl in Hpl; [done|..];
    destruct Hpl as (Hroom & -> & -> & ->).
  - apply (make_runnable_ok _ m A B R s rest sl zb rq); [done..|]. cbv zeta. intros q' Hs Hm'.
    by apply (HQ A B (R.1, q')).
  - apply (add_sleeper_ok _ m A B R s rest sl zb rq); [done..|]. cbv zeta. intros a' Hs Hm'.
    by apply (HQ (A.1, a') B R).
  - apply (add_zombie_ok _ m A B R s rest sl zb rq); [done..|]. cbv zeta. intros b' Hs Hm'.
    by apply (HQ A (B.1, b') R).
Qed.

Lemma switched_to_from s s2 cur fr s' next fr' :
  same_threads s.2 s2.2 → curspl (cpu_of s2.1) = curspl (cpu_of s.1) →
  cp0_status (cpu_of s2.1) = cp0_status (cpu_of s.1) →
  in_interrupt (cpu_of s2.1) = in_interrupt (cpu_of s.1) →
  switched_to s2 cur fr s' next fr' → switched_to s cur fr s' next fr'.
Proof.
  intros (Ht & Hk & Hn & Hv) Hs Hst Hi []. rewrite Ht, ?Hk, ?Hi, ?Hs, ?Hst, ?Hn, ?Hv in *. by split.
Qed.

Lemma check_stack_ok F s x (Q : () → TH H K → Prop) E :
  stack_ok x → Q tt s → wp F (check_stack x) s Q E.
Proof.
  intros Hx HQ. unfold check_stack. wp_if; [|done]. apply wp_assert; [|done].
  apply bool_decide_eq_true, Hx. lia.
Qed.

Lemma who_lookup ts cs sl zb rq t :
  who_inv ts cs sl zb rq → t ∈ cs ++ sl ++ zb ++ rq → ∃ x, ts !! t = Some x ∧ stack_ok x.
Proof.
  intros Hw Ht. apply (wi_dom _ _ _ _ _ Hw) in Ht as [x Hx]. exists x. split; [done|].
  by eapply wi_stack.
Qed.

Lemma mi_switch_ok F st fr m A B R s rest cur sl zb rq sl' zb' next rq'
    (Q : option (frame K) → TH H K → Prop) E :
  mem_inv m A B R s rest sl zb rq → who_inv (threads s.2) [cur] sl zb rq →
  curthread (cpu_of s.1) = cur → 0 < curspl (cpu_of s.1) →
  placed st cur A B R sl zb rq sl' zb' (next :: rq') →
  (st = S_ZOMB → dead (threads s.2) cur) → (st ≠ S_ZOMB → frame_ok fr) →
  (∀ A' B' R' s' c fr', same_room A B R A' B' R' → s'.1 = set_cpu c s.1 →
     mem_inv m A' B' R' s' rest sl' zb' rq' → who_inv (threads s'.2) [next] sl' zb' rq' →
     frame_ok fr' → switched_to s cur fr s' next fr' → Q (Some fr') s') →
  wp F (mi_switch cpu_idle idle_fuel st fr) s Q E.
Proof.
  intros Hm Hwho Hcur Hspl Hpl Hdead Hfr HQ. destruct s as [h y]. cbn [fst snd] in *.
  destruct (who_lookup _ _ _ _ _ cur Hwho) as (x & Hx & Hxs); [left|].
  destruct (thread_live _ _ _ _ _ _ _ _ _ _ _ Hm Hx) as [_ Hc0].
  unfold mi_switch. wp_steps. apply assert_spl_ok; [done|]. wp_steps. apply get_curthread_ok.
  cbn [fst]. rewrite Hcur. destruct (Z.eqb_spec cur 0); [done|]. wp_steps.
  apply (get_thread_ok _ _ _ x); [done|]. wp_steps. apply check_stack_ok; [done|]. wp_steps.
  apply upd_cpu_ok. cbn [fst snd]. wp_steps.
  set (c0 := set_curthread (cpu_of h) 0).
  apply (stash_ok _ st m A B R _ rest cur sl zb rq sl' zb' (next :: rq'));
    [by apply (mem_inv_cpu m A B R (h, y))|cbn [fst]; by rewrite cpu_of_set|done|].
  cbn [fst snd]. intros A1 B1 R1 y1 Hroom Hy1 Hm1. wp_assert by done. wp_steps.
  apply (scheduler_ok _ m A1 B1 R1 _ rest sl' zb' next rq');
    [done|cbn [fst]; by rewrite cpu_of_set|].
  cbn [fst snd]. cbv zeta. intros q' Hq' Hm2. wp_steps. apply upd_cpu_ok. wp_steps. cbn [fst snd].
  rewrite cpu_of_set, set_cpu_set. set (c1 := set_curthread c0 next).
  set (y2 := set_runqueue (Some (R1.1, q')) y1) in *.
  assert (same_threads y y2) as Hsame by exact Hy1.
  assert (∃ z fr', threads y !! next = Some z ∧ (cur ≠ next → pcb_frame z = Some fr') ∧
    (cur = next → fr' = fr)) as (z & fr' & Hz & Hfz & Hself).
  { destruct (decide (cur = next)) as [<-|Hne]; [by exists x, fr|].
    assert (next ∈ sl ++ rq) as Hn.
    { destruct st; simpl in Hpl; [done|..]; destruct Hpl as (_ & _ & _ & Hrq).
      - assert (next ∈ rq ++ [cur]) by (rewrite <- Hrq; left). set_solver.
      - subst rq. set_solver.
      - subst rq. set_solver. }
    destruct (wi_waits _ _ _ _ _ Hwho next Hn) as (z & fr' & Hz & Hf & _). by exists z, fr'. }
  pose proof Hsame as (Hts & _).
  apply (md_switch_ok _ _ cur next fr x z fr'); cbn [fst snd]; rewrite ?Hts, ?cpu_of_set; try done.
  intros c2 ts k. cbv zeta. intros Hsw. wp_steps. cbn [fst snd] in *. rewrite set_cpu_set in Hsw |- *.
  set (s' := (set_cpu c2 h, set_curkstack k (set_threads ts y2))) in *.
  assert (switched_to (h, y) cur fr s' next fr') as Hsw'.
  { eapply switched_to_from; [..|exact Hsw]; cbn [fst snd]; rewrite ?cpu_of_set; done. }
  destruct (switched_to_who st (h, y) _ _ _ _ _ A B R _ _ _ _ _ _ Hwho Hpl Hdead Hfr Hsw') as [Hwho' Hok].
  apply (HQ A1 B1 (R1.1, q') s' c2); try done.
  { destruct Hroom as (? & ? & ?). by split_and!; [..|etrans]. }
  pose proof (switched_to_blocks _ _ _ _ _ _ Hsw) as Hb. cbn [fst snd] in Hb.
  pose proof (mem_inv_threads _ _ _ _ _ _ _ _ _ ts Hm2) as Hm3. cbn [fst snd] in Hm3.
  specialize (Hm3 Hb). apply (mem_inv_fields _ _ _ _ _ _ _ _ _ (numthreads y2) k (vnodes y2)) in Hm3.
  cbn [fst snd] in Hm3. apply (mem_inv_cpu _ _ _ _ _ _ _ _ _ c2) in Hm3.
  unfold set_cpu in Hm3 at 1. cbn [pair_has_cpu] in Hm3. unfold pair_set_cpu in Hm3. cbn [fst snd] in Hm3.
  rewrite set_cpu_set in Hm3. exact Hm3.
Qed.
End switch.
