(* ===== verification/ThreadSpec.v ===== *)
(** * Threads: yielding, sleeping, waking, exiting, forking *)

From Stdlib Require Import ZArith Lia.
From stdpp Require Import base list gmap numbers strings.
From S2P Require Import Prelude Cpu KMem HeapCpu Array Queue Vnode Thread ThreadProof ThreadSwitch.

Local Open Scope Z_scope.

(** What is left to do in a frame, for the code outside the thread system *)
Definition ctl_of {K} (fr : frame K) : option (control K) :=
  match fr with
  | F_new data1 data2 func => Some (Entering data1 data2 func)
  | F_yield _ => Some Yielded
  | F_sleep k => Some (Woken k)
  | F_exit => None
  end.

(** The interrupt level a thread goes on at; [spl] is the level of the switch. *)
Definition spl_of {K} (fr : frame K) (spl : Z) : Z :=
  match fr with F_new _ _ _ => 0 | F_yield spl => spl | _ => spl end.

(** A new thread does not look for zombies. *)
Definition zombies_after {K} (fr : frame K) (zb : list Z) : list Z :=
  match fr with F_new _ _ _ => zb | _ => [] end.

(** The fields no context switch touches *)
Definition ident {K} (x : thread K) := (t_name x, t_stack x, t_guard x, t_vmspace x, t_cwd x, t_pid x).

(** How many threads the run queue and the array of sleepers hold *)
Definition ready_room {K} (y : tsys K) : Z :=
  match runqueue y with Some (_, q) => size q - 1 | None => 0 end.
Definition sleep_room {K} (y : tsys K) : Z :=
  match sleepers y with Some (_, a) => max a | None => 0 end.
Definition zombie_room {K} (y : tsys K) : Z :=
  match zombies y with Some (_, a) => max a | None => 0 end.

Section spec.
Context {H : Type} `{!HasCpu H} `{!KHeap H} `{!KHeapLaws H} `{!KHeapCpu H} {K : Type}.
Context (as_activate : Z → M (TH H K) ()) (vop_reclaim : M VN Z).
Context (cpu_idle : M (TH H K) ()) (idle_fuel : nat).
Implicit Types (s : TH H K) (ts : gmap Z (thread K)) (m rest : gmap Z Z) (x : thread K).
Implicit Types (cs sl zb rq : list Z) (t cur next : Z) (fr : frame K).

(** [as_activate] reloads the TLB: it keeps the threads, the processor and the
    heap (AddrSpaceProof.v). *)
Definition keeps_threads (f : Z → M (TH H K) ()) : Prop :=
  ∀ a s m, heap_any s.1 m → running (cpu_of s.1) →
    wp safe (f a) s
      (λ _ s', s'.2 = s.2 ∧ cpu_of s'.1 = cpu_of s.1 ∧ heap_any s'.1 m) noerr.

Definition next_frame ts cur next fr : option (frame K) :=
  if decide (cur = next) then Some fr else ts !! next ≫= pcb_frame.

(** The processor has gone from [cur] to [next], whose frame [fr'] says where it
    goes on and at which interrupt level; the lists are [sl'], [zb'] and [rq'],
    and what [cur] does next is saved as [fr]. *)
Record handed s rest cur fr next (sl' zb' rq' : list Z) (ctl : control K) s' : Prop := {
  hd_frame : ∃ fr', next_frame (threads s.2) cur next fr = Some fr' ∧
    ctl_of fr' = Some ctl ∧ curspl (cpu_of s'.1) = spl_of fr' (curspl (cpu_of s.1)) ∧
    thr_inv s' rest [next] sl' (zombies_after fr' zb') rq';
  hd_cur : running (cpu_of s'.1) ∧ curthread (cpu_of s'.1) = next;
  hd_saved : cur ≠ next → cur ∉ zb' →
    ∃ x, threads s'.2 !! cur = Some x ∧ pcb_frame x = Some fr;
  hd_same t x' : threads s'.2 !! t = Some x' → ∃ x, threads s.2 !! t = Some x ∧
    ident x' = ident x ∧ (t ≠ next → t_sleepaddr x' = t_sleepaddr x) ∧
    (t ≠ cur → t ≠ next → pcb_frame x' = pcb_frame x);
  hd_kept t : t ∉ zb' → is_Some (threads s.2 !! t) → is_Some (threads s'.2 !! t);
  hd_room : sleep_room s'.2 = sleep_room s.2 ∧ ready_room s'.2 = ready_room s.2;
  hd_numthreads : numthreads s'.2 = numthreads s.2;
  hd_vnodes : vnodes s'.2 = vnodes s.2;
}.

Lemma activate_current_ok s m x (Q : () → TH H K → Prop) E :
  keeps_threads as_activate → heap_any s.1 m → running (cpu_of s.1) →
  threads s.2 !! curthread (cpu_of s.1) = Some x →
  (∀ h', cpu_of h' = cpu_of s.1 → heap_any h' m → Q tt (h', s.2)) →
  wp safe (activate_current as_activate) s Q E.
Proof.
  intros Hact Hh Hrun Hx HQ. unfold activate_current. wp_steps. apply get_curthread_ok. wp_steps.
  apply (get_thread_ok _ _ _ x); [done|]. wp_if.
  - eapply wp_mono; [by apply Hact| |done]. intros [] [h' y'] (Hy & Hc & Hh'). cbn [fst snd] in *.
    subst y'. by apply HQ.
  - destruct s as [h y]. by apply HQ.
Qed.

Lemma who_not_zombie ts next sl zb rq : who_inv ts [next] sl zb rq → next ∉ zb.
Proof. intros [Hn _ _ _ _] Hz. simpl in Hn. apply NoDup_cons in Hn as [Hn _]. set_solver. Qed.

Lemma switched_ok m A B R s rest next sl zb rq (Q : () → TH H K → Prop) E :
  keeps_threads as_activate → mem_inv m A B R s rest sl zb rq →
  who_inv (threads s.2) [next] sl zb rq → running (cpu_of s.1) →
  curthread (cpu_of s.1) = next → 0 < curspl (cpu_of s.1) →
  (∀ m' b' h', cpu_of h' = cpu_of s.1 →
     let s' := (h', set_zombies (Some (B.1, b')) (set_threads (forget zb (threads s.2)) s.2)) in
     mem_inv m' A (B.1, b') R s' rest sl [] rq → Q tt s') →
  wp safe (switched as_activate) s Q E.
Proof.
  intros Hact Hm Hwho Hrun Hcur Hspl HQ. pose proof (who_not_zombie _ _ _ _ _ Hwho) as Hnz.
  destruct (who_lookup _ _ _ _ _ next Hwho) as (x & Hx & _); [left|].
  unfold switched. wp_steps.
  apply (exorcise_ok _ m A B R s rest [next] sl zb rq); [done..|by rewrite Hcur|].
  intros m1 b1 h1 Hc1. cbv zeta. intros Hm1.
  apply (activate_current_ok _ m1 x); [done|apply Hm1|cbn [fst]; by rewrite Hc1| |].
  { cbn [fst snd threads set_zombies set_threads]. rewrite forget_lookup, Hc1, Hcur.
    by rewrite decide_False. }
  cbn [fst snd]. intros h2 Hc2 Hh2. apply (HQ m1); [congruence|]. exact (mem_inv_same _ _ _ _ _ _ _ _ _ h2 Hm1 Hh2).
Qed.

(** Clearing [t_sleepaddr] changes no block and no list. *)
Lemma set_sleepaddr_inv m A B R s rest cs sl zb rq t x a :
  threads s.2 !! t = Some x → mem_inv m A B R s rest sl zb rq →
  who_inv (threads s.2) cs sl zb rq →
  let s' := (s.1, set_threads (<[t := set_sleepaddr a x]> (threads s.2)) s.2) in
  mem_inv m A B R s' rest sl zb rq ∧ who_inv (threads s'.2) cs sl zb rq.
Proof.
  intros Hx Hm [Hn Hd Hst Hw Hde]. cbv zeta. split.
  { apply mem_inv_threads; [done|]. by eapply thread_blocks_update. }
  cbn [snd threads set_threads]. split.
  - done.
  - intros u. rewrite <- Hd. destruct (decide (u = t)) as [->|]; [|by rewrite lookup_insert_ne].
    rewrite lookup_insert_eq, Hx. split; by eexists.
  - intros u y [[<- <-]|[_ Hy]]%lookup_insert_Some; [exact (Hst _ _ Hx)|by eapply Hst].
  - intros u Hu. destruct (Hw u Hu) as (y & f & Hy & Hf & Ho).
    destruct (decide (u = t)) as [->|]; [|exists y, f; by rewrite lookup_insert_ne].
    exists (set_sleepaddr a x), f. rewrite lookup_insert_eq. by simplify_eq.
  - intros u Hu. destruct (Hde u Hu) as (y & Hy & Hv & Hc).
    destruct (decide (u = t)) as [->|]; [|exists y; by rewrite lookup_insert_ne].
    exists (set_sleepaddr a x). rewrite lookup_insert_eq. by simplify_eq.
Qed.

(** The processor once the frame [fr] has been resumed on [c] *)
Definition cpu_after fr (c : cpu) : cpu :=
  match fr with F_new _ _ _ => spl_set 0 c | F_yield n => spl_set n c | _ => c end.

Lemma resume_ok m A B R s rest next sl zb rq fr (Q : control K → TH H K → Prop) E :
  keeps_threads as_activate → mem_inv m A B R s rest sl zb rq →
  who_inv (threads s.2) [next] sl zb rq → running (cpu_of s.1) →
  curthread (cpu_of s.1) = next → 0 < curspl (cpu_of s.1) → frame_ok fr →
  (∀ m' A' B' R' s' ctl, ctl_of fr = Some ctl → cpu_of s'.1 = cpu_after fr (cpu_of s.1) →
     mem_inv m' A' B' R' s' rest sl (zombies_after fr zb) rq →
     who_inv (threads s'.2) [next] sl (zombies_after fr zb) rq →
     max A'.2 = max A.2 → size R'.2 = size R.2 →
     (∀ t x', threads s'.2 !! t = Some x' → ∃ x, threads s.2 !! t = Some x ∧
        pcb_frame x' = pcb_frame x ∧ ident x' = ident x ∧
        (t ≠ next → t_sleepaddr x' = t_sleepaddr x)) →
     (∀ t, t ∉ zb → is_Some (threads s.2 !! t) → is_Some (threads s'.2 !! t)) →
     numthreads s'.2 = numthreads s.2 → vnodes s'.2 = vnodes s.2 → Q ctl s') →
  wp safe (resume as_activate fr) s Q E.
Proof.
  intros Hact Hm Hwho Hrun Hcur Hspl Hok HQ. destruct fr as [d1 d2 fn|spl|k|]; [| | |done];
    unfold resume; wp_steps.
  - destruct (who_lookup _ _ _ _ _ next Hwho) as (x & Hx & _); [left|].
    unfold mi_threadstart, spl0. wp_steps.
    apply (activate_current_ok _ m x); [done|apply Hm|done|by rewrite Hcur|].
    intros h' Hc' Hh'. wp_steps. apply wp_splx. wp_steps.
    apply (HQ m A B R); try done.
    + change (cpu_of (set_cpu (spl_set 0 (cpu_of h')) h') = spl_set 0 (cpu_of s.1)).
      by rewrite cpu_of_set, Hc'.
    + apply (mem_inv_cpu m A B R (h', s.2)). by eapply mem_inv_same.
    + intros t y Hy. by exists y.
  - apply (switched_ok m A B R s rest next sl zb rq); [done..|]. intros m1 b1 h1 Hc1. cbv zeta. intros Hm1.
    wp_steps. apply wp_splx. wp_steps. apply (HQ m1 A (B.1, b1) R); try done.
    + change (cpu_of (set_cpu (spl_set spl (cpu_of h1)) h1) = spl_set spl (cpu_of s.1)).
      by rewrite cpu_of_set, Hc1.
    + by apply (mem_inv_cpu m1 A (B.1, b1) R (h1, _)).
    + by apply forget_who.
    + intros t y. simpl. rewrite forget_lookup. case_decide; [done|]. intros Hy. by exists y.
    + intros t Ht Hy. simpl. by rewrite forget_lookup, decide_False.
  - apply (switched_ok m A B R s rest next sl zb rq); [done..|]. intros m1 b1 h1 Hc1. cbv zeta. intros Hm1.
    wp_steps. apply get_curthread_ok. cbn [fst]. rewrite Hc1, Hcur. wp_steps.
    destruct (who_lookup _ _ _ _ _ next Hwho) as (x & Hx & _); [left|].
    assert (forget zb (threads s.2) !! next = Some x) as Hx'.
    { rewrite forget_lookup, decide_False; [done|]. by eapply who_not_zombie. }
    apply (upd_thread_ok _ _ _ x); [done|]. wp_steps.
    destruct (set_sleepaddr_inv m1 A (B.1, b1) R
      (h1, set_zombies (Some (B.1, b1)) (set_threads (forget zb (threads s.2)) s.2))
      rest [next] sl [] rq next x 0 Hx' Hm1) as [Hm2 Hw2]; [by apply forget_who|].
    apply (HQ m1 A (B.1, b1) R); try done.
    + intros t y. cbn [snd threads set_threads set_zombies].
      intros [[<- <-]|[Hne Hy]]%lookup_insert_Some; [by exists x|].
      rewrite forget_lookup in Hy. case_decide; [done|]. by exists y.
    + intros t Ht [y Hy]. cbn [snd threads set_threads set_zombies].
      destruct (decide (t = next)) as [->|]; [rewrite lookup_insert_eq; by eexists|].
      rewrite lookup_insert_ne by done. rewrite forget_lookup, decide_False by done. by eexists.
Qed.

(** ** Handing over the processor *)

Lemma curspl_spl_set n c : curspl (spl_set n c) = n.
Proof. unfold spl_set. by destruct (0 <? n), (n =? 0). Qed.

Lemma cpu_after_running fr c : frame_ok fr → running c → running (cpu_after fr c).
Proof.
  intros Hok Hc. destruct fr as [| |k|]; cbn [cpu_after]; try done; by apply running_spl.
Qed.

Lemma cpu_after_thread fr c : curthread (cpu_after fr c) = curthread c.
Proof. destruct fr; cbn [cpu_after]; by rewrite ?curthread_spl_set. Qed.

Lemma mem_rooms m A B R s rest sl zb rq :
  mem_inv m A B R s rest sl zb rq →
  sleep_room s.2 = max A.2 ∧ zombie_room s.2 = max B.2 ∧ ready_room s.2 = size R.2 - 1.
Proof.
  intros [_ HA HB HR _ _ _ _]. unfold sleep_room, zombie_room, ready_room. rewrite HA, HB, HR.
  by destruct A, B, R.
Qed.

Lemma switch_ok st none m A B R s rest cur sl zb rq sl' zb' next rq' fr
    (Q : control K → TH H K → Prop) E :
  keeps_threads as_activate → mem_inv m A B R s rest sl zb rq →
  who_inv (threads s.2) [cur] sl zb rq → running (cpu_of s.1) →
  curthread (cpu_of s.1) = cur → 0 < curspl (cpu_of s.1) →
  placed st cur A B R sl zb rq sl' zb' (next :: rq') →
  (st = S_ZOMB → dead (threads s.2) cur) → (st ≠ S_ZOMB → frame_ok fr) →
  (∀ ctl s', handed s rest cur fr next sl' zb' rq' ctl s' → Q ctl s') →
  wp safe (r ← mi_switch cpu_idle idle_fuel st fr;
           match r with None => none | Some fr' => resume as_activate fr' end) s Q E.
Proof.
  intros Hact Hm Hwho Hrun Hcur Hspl Hpl Hdead Hfr HQ. wp_steps.
  apply (mi_switch_ok cpu_idle idle_fuel _ st fr m A B R s rest cur sl zb rq sl' zb' next rq'); [done..|].
  intros A1 B1 R1 s1 c1 fr1 (HrA & _ & HrR) Hh1 Hm1 Hwho1 Hok1 Hsw.
  pose proof Hsw as [Hcur1 Hspl1 Hst1 Hswc Hswn Hself Hoth Hnum Hvn].
  destruct (who_lookup _ _ _ _ _ next Hwho1) as (xn & Hxn & _); [left|].
  destruct (thread_live _ _ _ _ _ _ _ _ _ _ _ Hm1 Hxn) as [_ Hn0].
  assert (running (cpu_of s1.1)) as Hrun1.
  { split; [|by rewrite Hcur1]. destruct Hrun as [[H1 H2 H3] _]. by split; rewrite ?Hspl1, ?Hst1. }
  apply (resume_ok m A1 B1 R1 s1 rest next sl' zb' rq'); [done..|by rewrite Hspl1|done|].
  intros m2 A2 B2 R2 s2 ctl Hctl Hcpu Hm2 Hwho2 HmA HsR Hsame Hkept Hnum2 Hvn2. apply HQ.
  destruct (mem_rooms _ _ _ _ _ _ _ _ _ Hm) as (Hr1 & _ & Hr2).
  destruct (mem_rooms _ _ _ _ _ _ _ _ _ Hm2) as (Hr1' & _ & Hr2'). split.
  - exists fr1. split; [|split; [done|split]].
    + unfold next_frame. case_decide as He; [by destruct (Hself He) as (-> & _)|].
      destruct (Hswn He) as (x & Hx & Hf & _). by rewrite Hx.
    + rewrite Hcpu. destruct fr1; cbn [cpu_after spl_of]; rewrite ?curspl_spl_set, ?Hspl1; done.
    + by exists m2, A2, B2, R2.
  - rewrite Hcpu. split; [by apply cpu_after_running|]. by rewrite cpu_after_thread.
  - intros Hne Hz. destruct (Hswc Hne) as (x & _ & Hx1).
    destruct (Hkept cur Hz) as [x2 Hx2]; [by eexists|].
    destruct (Hsame cur x2 Hx2) as (x1 & Hx1' & Hf & _). exists x2. split; [done|].
    rewrite Hf. by simplify_eq.
  - intros t x2 Hx2. destruct (Hsame t x2 Hx2) as (x1 & Hx1 & Hfr1 & Hid & Hsl).
    pose proof (switched_to_lookup _ _ _ _ _ _ t Hsw) as Hl. rewrite Hx1 in Hl.
    destruct Hl as (x0 & f & k & i & Hx0 & ->). exists x0. split; [done|].
    split; [done|]. split; [intros Hne; by rewrite Hsl|]. intros Hnc Hnn. rewrite Hfr1.
    rewrite Hoth in Hx1 by done. congruence.
  - intros t Hz [x Hx]. apply Hkept; [done|].
    pose proof (switched_to_lookup _ _ _ _ _ _ t Hsw) as Hl.
    destruct (threads s1.2 !! t); [by eexists|congruence].
  - rewrite Hr1, Hr1', Hr2, Hr2'. split; congruence.
  - congruence.
  - congruence.
Qed.

(** The run queue after the running thread went to its end is not empty. *)
Lemma rotate cur rq : ∃ next rq', rq ++ [cur] = next :: rq'.
Proof. destruct rq as [|x rq]; simpl; eauto. Qed.

(** ** Waking the sleepers *)

Definition sleeps_on ts (addr t : Z) : bool :=
  match ts !! t with Some x => t_sleepaddr x =? addr | None => false end.

Lemma getnum_sleepers_ok F m A B R s rest sl zb rq (Q : Z → TH H K → Prop) E :
  mem_inv m A B R s rest sl zb rq → Q (Z.of_nat (length sl)) s →
  wp F (on_sleepers array_getnum) s Q E.
Proof.
  intros [_ HA _ _ Hr _ _ _] HQ. destruct A as [p a], s as [h y]. cbn [fst snd] in *.
  apply (on_sleepers_ok _ _ _ p a); [done|]. unfold array_getnum. mem_steps. cbn [fst snd].
  rewrite (set_sleepers_same y (p, a)) by done. by rewrite (array_rep_num _ _ _ Hr).
Qed.

Lemma getguy_sleepers_ok F m A B R s rest sl zb rq i t (Q : Z → TH H K → Prop) E :
  mem_inv m A B R s rest sl zb rq → sl !! i = Some t → Q t s →
  wp F (on_sleepers (array_getguy (Z.of_nat i))) s Q E.
Proof.
  intros [_ HA _ _ Hr _ _ _] Hi HQ. destruct A as [p a], s as [h y]. cbn [fst snd] in *.
  apply (on_sleepers_ok _ _ _ p a); [done|].
  eapply wp_mono; [apply (array_getguy_spec _ _ _ _ _ _ t Hr); by rewrite zlookup_nat| |done].
  intros ? ? [-> ->]. cbn [fst snd]. by rewrite (set_sleepers_same y (p, a)) by done.
Qed.

Lemma wake_from_ok F addr m B rest zb (Q : () → TH H K → Prop) E : ∀ l fuel kept rq A R s,
  (length l ≤ fuel)%nat → (∀ t, t ∈ l → is_Some (threads s.2 !! t)) →
  0 < curspl (cpu_of s.1) → Z.of_nat (length l + length rq) ≤ size R.2 - 1 →
  mem_inv m A B R s rest (kept ++ l) zb rq →
  (∀ A' R' y', same_threads s.2 y' → max A'.2 = max A.2 → size R'.2 = size R.2 →
     mem_inv m A' B R' (s.1, y') rest (kept ++ filter (λ t, ¬ sleeps_on (threads s.2) addr t) l) zb
       (rq ++ filter (λ t, sleeps_on (threads s.2) addr t) l) → Q tt (s.1, y')) →
  wp F (wake_from fuel addr (Z.of_nat (length kept))) s Q E.
Proof.
  induction l as [|t l IH]; intros fuel kept rq A R s Hfuel Hin Hspl Hroom Hm HQ.
  - rewrite app_nil_r in Hm. destruct fuel; cbn [wake_from]; wp_steps;
      (apply (getnum_sleepers_ok _ m A B R _ rest kept zb rq); [done|]);
      rewrite Z.ltb_irrefl; wp_steps; destruct s as [h y];
      (eapply (HQ A R y); [done..|]); by rewrite !app_nil_r.
  - destruct fuel as [|fuel]; [simpl in Hfuel; lia|]. cbn [wake_from]. wp_steps.
    apply (getnum_sleepers_ok _ m A B R _ rest (kept ++ t :: l) zb rq); [done|].
    destruct (Z.ltb_spec (Z.of_nat (length kept)) (Z.of_nat (length (kept ++ t :: l)))) as [_|Hge];
      [|rewrite length_app in Hge; simpl in Hge; lia].
    assert ((kept ++ t :: l) !! length kept = Some t) as Ht by (by apply list_lookup_middle).
    wp_steps. apply (getguy_sleepers_ok _ m A B R s rest (kept ++ t :: l) zb rq _ t); [done|done|].
    destruct (Hin t) as [x Hx]; [left|]. wp_steps. apply (get_thread_ok _ _ _ x); [done|].
    assert (sleeps_on (threads s.2) addr t = (t_sleepaddr x =? addr)) as Hon
      by (unfold sleeps_on; by rewrite Hx).
    destruct (t_sleepaddr x =? addr) eqn:Heq.
    + wp_steps. destruct A as [p a]. pose proof Hm as [_ HA _ _ Hr _ _ _].
      apply (on_sleepers_ok _ _ _ p a); [done|].
      eapply wp_mono; [apply (array_remove_spec _ _ _ _ _ _ Hr)| |done].
      { rewrite (array_rep_num _ _ _ Hr), length_app. simpl. lia. }
      intros [] [h' a'] (-> & Hr' & Hmax & Hv). cbn [fst snd].
      rewrite Nat2Z.id, delete_middle in Hr'.
      pose proof (mem_inv_sleepers _ _ _ _ _ _ _ _ _ a' _ Hm Hr' Hv) as Hm1. cbn [fst snd] in Hm1.
      wp_steps. apply (make_runnable_ok _ m (p, a') B R _ rest (kept ++ l) zb rq);
        [done|done|simpl in Hroom; lia|].
      cbv zeta. cbn [fst snd]. intros q' Hq' Hm2. wp_assert by done.
      apply (IH fuel kept (rq ++ [t]) (p, a') (R.1, q')); cbn [fst snd]; [simpl in Hfuel; lia| |done| |done|].
      { intros u Hu. apply Hin. by right. }
      { rewrite length_app. simpl in *. lia. }
      intros A' R' y' Hy' HA' HR' Hm'. apply (HQ A' R' y'); [done|congruence|congruence|].
      rewrite !filter_cons. rewrite decide_False, decide_True by (rewrite Hon; auto).
      by rewrite <- (assoc_L (++)) in Hm'.
    + assert (Z.of_nat (length kept) + 1 = Z.of_nat (length (kept ++ [t]))) as ->
        by (rewrite length_app; simpl; lia).
      apply (IH fuel (kept ++ [t]) rq A R); [simpl in Hfuel; lia| |done|simpl in Hroom; lia| |].
      { intros u Hu. apply Hin. by right. }
      { by rewrite <- (assoc_L (++)). }
      intros A' R' y' Hy' HA' HR' Hm'. apply (HQ A' R' y'); [done..|].
      rewrite !filter_cons. rewrite decide_True, decide_False by (rewrite Hon; auto).
      by rewrite <- (assoc_L (++)) in Hm'.
Qed.

(** ** Forking *)

(** Room for the threads there are, and for one that comes *)
Record roomy (n : Z) (A B : Z * array Z) (R : Z * queue Z) : Prop := {
  ro_sleepers : n ≤ max A.2;
  ro_zombies : n ≤ max B.2;
  ro_ready : n ≤ size R.2;
}.
(** At least the room there was *)
Definition more_room (A : Z * array Z) (R : Z * queue Z) (A' : Z * array Z) (R' : Z * queue Z) :
    Prop :=
  max A.2 ≤ max A'.2 ∧ size R.2 ≤ size R'.2.
Record small (A B : Z * array Z) (R : Z * queue Z) : Prop := {
  sm_sleepers : max A.2 < 2 ^ 28;
  sm_zombies : max B.2 < 2 ^ 28;
  sm_ready : size R.2 < 2 ^ 28;
}.

Lemma thread_fork_atomic_ok m A B R s rest sl zb rq t (Q : () → TH H K → Prop)
    (E : Z → TH H K → Prop) :
  mem_inv m A B R s rest sl zb rq → running (cpu_of s.1) → 0 < curspl (cpu_of s.1) →
  small A B R → Z.of_nat (length rq) < numthreads s.2 < 2 ^ 27 - 1 →
  (∀ m' A' B' R' h' y', cpu_of h' = cpu_of s.1 → threads y' = threads s.2 → vnodes y' = vnodes s.2 →
     numthreads y' = numthreads s.2 + 1 → roomy (numthreads y') A' B' R' → small A' B' R' →
     mem_inv m' A' B' R' (h', y') rest sl zb (rq ++ [t]) → Q tt (h', y')) →
  (∀ m' A' B' R' h' y', cpu_of h' = cpu_of s.1 → same_threads s.2 y' → small A' B' R' → more_room A R A' R' →
     mem_inv m' A' B' R' (h', y') rest sl zb rq → E ENOMEM (h', y')) →
  wp safe_oom (thread_fork_atomic t) s Q E.
Proof.
  intros Hm Hrun Hspl [HA HB HR] Hn HQ HE. unfold thread_fork_atomic, scheduler_preallocate. wp_steps.
  apply (sleepers_grow m A B R s rest sl zb rq); [done..|lia| |].
  2: { intros h1 Hc1 Hm1. by apply (HE m A B R). }
  intros m1 h1 a1 Hc1 Hm1 Ha1. wp_steps.
  apply (zombies_grow m1 (A.1, a1) B R _ rest sl zb rq); cbn [fst snd]; [done|by rewrite Hc1|done|lia| |].
  2: { intros h2 Hc2 Hm2. apply (HE m1 (A.1, a1) B R); try done; [congruence|..]; split; cbn [snd]; lia. }
  intros m2 h2 b2 Hc2 Hm2 Hb2. cbn [fst snd] in Hc2. wp_steps. apply assert_spl_ok; [cbn [fst]; by rewrite Hc2, Hc1|].
  wp_steps. apply (runqueue_grow m2 (A.1, a1) (B.1, b2) R _ rest sl zb rq); cbn [fst snd];
    [done|by rewrite Hc2, Hc1|done|lia| |].
  2: { intros h3 Hc3 Hm3. apply (HE m2 (A.1, a1) (B.1, b2) R); try done; [congruence|..];
         split; cbn [snd]; lia. }
  intros m3 h3 q3 Hc3 Hm3 Hq3. cbn [fst snd] in Hc3. wp_steps.
  apply (make_runnable_ok _ m3 (A.1, a1) (B.1, b2) (R.1, q3) _ rest sl zb rq);
    cbn [fst snd]; [done|by rewrite Hc3, Hc2, Hc1|lia|].
  cbv zeta. cbn [fst snd]. intros q4 Hq4 Hm4. unfold upd_sys. wp_steps. cbn [fst snd].
  eapply (HQ m3 (A.1, a1) (B.1, b2) (R.1, q4)); cbn [threads vnodes numthreads set_numthreads]; try done.
  - congruence.
  - split; cbn [snd numthreads set_runqueue set_zombies set_sleepers]; lia.
  - split; cbn [snd]; lia.
  - apply (mem_inv_fields _ _ _ _ _ _ _ _ _ (numthreads s.2 + 1) (curkstack s.2) (vnodes s.2)) in Hm4. exact Hm4.
Qed.

Lemma th_vnode_ok {C} F vn (f : M VN C) s w (Q : C → TH H K → Prop) E :
  vnodes s.2 !! vn = Some w →
  wp F f (cpu_of s.1, w) (λ c u, u.1 = cpu_of s.1 ∧
    Q c (s.1, set_vnodes (<[vn := u.2]> (vnodes s.2)) s.2)) noerr →
  wp F (on_vnode vn f) s Q E.
Proof.
  intros Hv Hf. unfold on_vnode. wp_the w by done. wp_steps.
  eapply wp_mono; [exact Hf| |done]. intros c [p' v'] [-> HQ]. cbn [fst snd] in *.
  change (Q c (set_cpu (cpu_of s.1) s.1, set_vnodes (<[vn := v']> (vnodes s.2)) s.2)).
  by rewrite set_cpu_of.
Qed.

(** The current directory of a thread is a live vnode. *)
Definition cwd_ok (vs : gmap Z vnode) (cwd : Z) : Prop :=
  cwd ≠ 0 → ∃ w, vs !! cwd = Some w ∧ vnode_wf w ∧ vn_refcount w < 2 ^ 31 - 2 ∧ vnode_addr cwd.

(** The vnodes with one more reference to [cwd] *)
Definition inherit_cwd (vs : gmap Z vnode) (cwd : Z) : gmap Z vnode :=
  if cwd =? 0 then vs else
  match vs !! cwd with
  | Some w => <[cwd := set_refcount (vn_refcount w + 1) w]> vs
  | None => vs
  end.

Lemma incref_cwd_ok F s t x cwd (Q : () → TH H K → Prop) E :
  cwd_ok (vnodes s.2) cwd → running (cpu_of s.1) → threads s.2 !! t = Some x → t_cwd x = 0 →
  (let s' := (s.1, set_threads (<[t := set_cwd cwd x]> (threads s.2))
                     (set_vnodes (inherit_cwd (vnodes s.2) cwd) s.2)) in Q tt s') →
  wp F (when (negb (cwd =? 0))
          (on_vnode cwd (vnode_incref cwd);; upd_thread t (set_cwd cwd))) s Q E.
Proof.
  intros Hcwd Hrun Hx Hx0 HQ. cbv zeta in HQ. destruct s as [h y]. cbn [fst snd] in *.
  unfold inherit_cwd in HQ. apply wp_when; intros Hb;
    (destruct (Z.eqb_spec cwd 0) as [->|Hne]; [try done|try done]).
  - destruct (Hcwd Hne) as (w & Hw & Hwf & Href & _). rewrite Hw in HQ. wp_steps.
    apply (th_vnode_ok _ _ _ _ w); [done|]. cbn [fst snd]. apply vnode_incref_ok; [done..|].
    split; [done|]. apply (upd_thread_ok _ _ _ x); [done|]. exact HQ.
  - rewrite insert_id in HQ; [by destruct y|]. rewrite Hx. destruct x; simpl in *. by subst.
Qed.

Lemma decref_cwd_ok F s vs cwd (Q : () → TH H K → Prop) E :
  cwd_ok vs cwd → running (cpu_of s.1) → vnodes s.2 = inherit_cwd vs cwd →
  Q tt (s.1, set_vnodes vs s.2) →
  wp F (when (negb (cwd =? 0)) (on_vnode cwd (vnode_decref vop_reclaim cwd))) s Q E.
Proof.
  intros Hcwd Hrun Hvs HQ. destruct s as [h y]. cbn [fst snd] in *. unfold inherit_cwd in Hvs.
  apply wp_when; intros Hb; (destruct (Z.eqb_spec cwd 0) as [->|Hne]; [try done|try done]).
  - destruct (Hcwd Hne) as (w & Hw & Hwf & Href & Hadr). rewrite Hw in Hvs.
    apply (th_vnode_ok _ _ _ _ (set_refcount (vn_refcount w + 1) w));
      [cbn [snd]; by rewrite Hvs, lookup_insert_eq|]. cbn [fst snd].
    pose proof (vw_ref _ Hwf) as Hr.
    apply vnode_decref_ok; [done| |done| |].
    + destruct Hwf. split; try done. cbn [vn_refcount set_refcount]. lia.
    + intros _. split; [done|]. cbn [snd]. rewrite Hvs, insert_insert_eq.
      replace (set_refcount _ _) with w; [by rewrite insert_id|].
      destruct w. unfold set_refcount. cbn. f_equal. lia.
    + intros H1. cbn [vn_refcount set_refcount] in H1. lia.
  - destruct y. cbn in *. by subst.
Qed.

(** The thread [thread_fork] makes for the parent [c] *)
Definition new_thread (nm stack : Z) (name : string) (d1 d2 fn : Z) (c : thread K) : thread K :=
  MkThread (Some (F_new d1 d2 fn)) (u32 (stack + STACK_SIZE)) 0 0 (nm, name) 0 stack stack_magic
    0 (t_cwd c) (t_pid c).

Lemma sys_blocks_update A B R ts t x x' bs :
  tblk t x' ≡ₚ bs ++ tblk t x →
  sys_blocks A B R (<[t := x']> ts) ≡ₚ bs ++ sys_blocks A B R (<[t := x]> ts).
Proof.
  intros Hp. apply sys_blocks_front. rewrite !thread_blocks_insert, Hp. solve_Permutation.
Qed.

Lemma thread_fork_commit_ok m A B R s rest sl zb rq t x vs (Q : Z → TH H K → Prop)
    (E : Z → TH H K → Prop) :
  mem_inv m A B R s rest sl zb rq → running (cpu_of s.1) → threads s.2 !! t = Some x →
  t_stack x ≠ 0 → cwd_ok vs (t_cwd x) → vnodes s.2 = inherit_cwd vs (t_cwd x) →
  small A B R → Z.of_nat (length rq) < numthreads s.2 < 2 ^ 27 - 1 →
  (∀ m' A' B' R' h' y', cpu_of h' = cpu_of s.1 → threads y' = threads s.2 → vnodes y' = vnodes s.2 →
     numthreads y' = numthreads s.2 + 1 → roomy (numthreads y') A' B' R' → small A' B' R' →
     mem_inv m' A' B' R' (h', y') rest sl zb (rq ++ [t]) → Q t (h', y')) →
  (∀ m' A' B' R' h' y', cpu_of h' = cpu_of s.1 → threads y' = delete t (threads s.2) →
     vnodes y' = vs → numthreads y' = numthreads s.2 → small A' B' R' → more_room A R A' R' →
     mem_inv m' A' B' R' (h', y') rest sl zb rq → E ENOMEM (h', y')) →
  wp safe_oom (thread_fork_commit vop_reclaim t) s Q E.
Proof.
  intros Hm Hrun Hx Hst Hcwd Hvs Hsm Hn HQ HE. destruct s as [h y]. cbn [fst snd] in *.
  pose proof Hrun as [Hwf _]. unfold thread_fork_commit, splhigh. wp_steps. apply wp_splx. wp_steps.
  set (c1 := spl_set SPL_HIGH (cpu_of h)).
  change (set_cpu (spl_set SPL_HIGH (cpu_of (h, y))) (h, y)) with (set_cpu c1 h, y).
  change (curspl (cpu_of (h, y))) with (curspl (cpu_of h)).
  assert (∀ h', cpu_of h' = c1 → cpu_of (set_cpu (spl_set (curspl (cpu_of h)) (cpu_of h')) h') = cpu_of h)
    as Hback by (intros h' ->; rewrite cpu_of_set; by apply spl_set_back).
  apply (thread_fork_atomic_ok m A B R _ rest sl zb rq); cbn [fst snd]; rewrite ?cpu_of_set; try done.
  { by apply (mem_inv_cpu m A B R (h, y)). }
  { by apply running_spl. }
  - intros m' A' B' R' h' y' Hc' Ht' Hv' Hn' Hro Hsm' Hm'. wp_steps. apply wp_splx. wp_steps.
    eapply (HQ m' A' B' R'); try done; [by apply Hback|].
    by apply (mem_inv_cpu m' A' B' R' (h', y')).
  - intros m' A' B' R' h' y' Hc' (Ht' & _ & Hn' & Hv') Hsm' Hmore Hm'. cbn [fst snd] in *.
    wp_steps. apply wp_splx. wp_steps.
    change (set_cpu (spl_set (curspl (cpu_of h)) (cpu_of (h', y'))) (h', y'))
      with (set_cpu (spl_set (curspl (cpu_of h)) (cpu_of h')) h', y').
    set (h1 := set_cpu (spl_set (curspl (cpu_of h)) (cpu_of h')) h').
    assert (cpu_of h1 = cpu_of h) as Hc1 by (by apply Hback).
    assert (mem_inv m' A' B' R' (h1, y') rest sl zb rq) as Hm1
      by (by apply (mem_inv_cpu m' A' B' R' (h', y'))).
    apply (get_thread_ok _ _ _ x); [cbn [snd]; by rewrite Ht'|]. wp_steps.
    apply (decref_cwd_ok _ _ vs); [done|cbn [fst]; by rewrite Hc1|cbn [snd]; by rewrite Hv'|].
    cbn [fst snd].
    apply (free_whole_ok _ _ m' A' B' R' (h1, set_vnodes vs y') rest sl zb rq t x);
      cbn [fst snd threads set_vnodes]; [|by rewrite Hc1|by rewrite Ht'|done|].
    { apply (mem_inv_fields m' A' B' R' (h1, y') _ _ _ _ (numthreads y') (curkstack y') vs Hm1). }
    intros m2 h2 Hc2. cbv zeta. intros Hm2. wp_steps.
    eapply (HE m2 A' B' R'); cbn [threads vnodes numthreads set_threads set_vnodes]; try done.
    + congruence.
    + by rewrite Ht'.
Qed.

(** [thread_fork] up to the point where interrupts go off *)
Lemma thread_fork_steps m A B R s rest cur c sl zb rq name d1 d2 fn junk
    (Q : Z → TH H K → Prop) (E : Z → TH H K → Prop) :
  mem_inv m A B R s rest sl zb rq → running (cpu_of s.1) → curthread (cpu_of s.1) = cur →
  threads s.2 !! cur = Some c → cwd_ok (vnodes s.2) (t_cwd c) →
  small A B R → Z.of_nat (length rq) < numthreads s.2 < 2 ^ 27 - 1 →
  Z.of_nat (String.length name) < 2 ^ 31 - 1 →
  (∀ m' A' B' R' h' y' t nm stack, cpu_of h' = cpu_of s.1 → threads s.2 !! t = None → t ≠ 0 →
     stack ≠ 0 → threads y' = <[t := new_thread nm stack name d1 d2 fn c]> (threads s.2) →
     vnodes y' = inherit_cwd (vnodes s.2) (t_cwd c) →
     numthreads y' = numthreads s.2 + 1 → roomy (numthreads y') A' B' R' → small A' B' R' →
     mem_inv m' A' B' R' (h', y') rest sl zb (rq ++ [t]) → Q t (h', y')) →
  (∀ m' A' B' R' h' y', cpu_of h' = cpu_of s.1 → threads y' = threads s.2 →
     vnodes y' = vnodes s.2 → numthreads y' = numthreads s.2 → small A' B' R' → more_room A R A' R' →
     mem_inv m' A' B' R' (h', y') rest sl zb rq → E ENOMEM (h', y')) →
  wp safe_oom (thread_fork vop_reclaim name d1 d2 fn junk) s Q E.
Proof.
  intros Hm Hrun Hcur Hc Hcwd Hsm Hn Hlen HQ HE. destruct s as [h y]. cbn [fst snd] in *.
  unfold thread_fork. wp_steps.
  apply (thread_create_ok m A B R _ rest sl zb rq); [done..| |].
  { cbn [fst snd]. intros h1 Hc1 Hm1. simpl (0 =? 0). cbv iota. wp_steps. by apply (HE m A B R). }
  cbn [fst snd]. intros t nm m1 h1 Ht0 Htn Hc1. cbv zeta. intros Hm1.
  destruct (Z.eqb_spec t 0); [done|]. wp_steps.
  set (x0 := MkThread None junk junk junk (nm, name) 0 0 [] 0 0 junk) in *.
  set (y1 := set_threads (<[t := x0]> (threads y)) y) in *.
  assert (running (cpu_of h1)) as Hrun1 by (by rewrite Hc1).
  assert (t ≠ cur) as Htc by congruence.
  pose proof Hm1 as [Hh1 _ _ _ _ _ _ Hown1]. cbn [fst snd threads y1 set_threads] in Hown1.
  apply (th_kmalloc_ok _ m1); [exact Hh1|done|done| |]; cbn [fst snd].
  { (* no memory for the stack *)
    intros h2 Hc2 Hh2. wp_steps. apply (upd_thread_ok _ _ _ x0); [by apply lookup_insert_eq|].
    simpl (0 =? 0). cbv iota. cbn [fst snd threads y1 set_threads]. rewrite insert_insert_eq. wp_steps.
    apply (get_thread_ok _ _ _ (set_stack 0 [] x0)); [by apply lookup_insert_eq|].
    set (y2 := set_threads (<[t := set_stack 0 [] x0]> (threads y)) y1).
    assert (mem_inv m1 A B R (h2, y2) rest sl zb rq) as Hm2.
    { apply (mem_inv_heap m1 m1 A B R (h1, y1) rest); [done..|].
      by rewrite (sys_blocks_update _ _ _ _ _ x0 _ []). }
    apply (free_stackless_ok _ _ m1 A B R (h2, y2) rest sl zb rq t (set_stack 0 [] x0));
      [done|cbn [fst]; by rewrite Hc2|by apply lookup_insert_eq|done|].
    intros m3 h3 Hc3. cbv zeta. cbn [fst snd] in *. intros Hm3. wp_steps.
    apply (HE m3 A B R); cbn [threads vnodes numthreads set_threads y2 y1]; try done.
    - congruence.
    - by rewrite delete_insert_id. }
  intros stack h2 Hc2 Hs0 Hms Hh2. wp_steps.
  apply (upd_thread_ok _ _ _ x0); [by apply lookup_insert_eq|]. wp_steps.
  destruct (Z.eqb_spec stack 0); [done|]. wp_steps. cbn [fst snd threads set_threads y1].
  rewrite insert_insert_eq.
  apply (upd_thread_ok _ _ _ (set_stack stack [] x0)); [by apply lookup_insert_eq|].
  cbn [fst snd threads set_threads]. rewrite insert_insert_eq. wp_steps.
  apply get_curthread_ok. cbn [fst]. rewrite Hc2, Hc1, Hcur. wp_steps.
  apply (get_thread_ok _ _ _ c); [cbn [snd threads set_threads]; by rewrite lookup_insert_ne|]. wp_steps.
  apply (upd_thread_ok _ _ _ (set_stack stack stack_magic (set_stack stack [] x0)));
    [by apply lookup_insert_eq|].
  cbn [fst snd threads set_threads]. rewrite insert_insert_eq. wp_steps.
  eapply (incref_cwd_ok _ _ t);
    [done|cbn [fst]; by rewrite Hc2|by apply lookup_insert_eq|done|].
  cbv zeta. cbn [fst snd threads set_threads]. rewrite insert_insert_eq. wp_steps.
  unfold md_initpcb. eapply upd_thread_ok; [by apply lookup_insert_eq|].
  cbn [fst snd threads set_threads]. rewrite insert_insert_eq. wp_steps.
  set (x := new_thread nm stack name d1 d2 fn c).
  match goal with |- wp _ _ (h2, ?w) _ _ =>
    change w with (set_threads (<[t := x]> (threads y)) (set_vnodes (inherit_cwd (vnodes y) (t_cwd c)) y)) end.
  set (y3 := set_threads (<[t := x]> (threads y)) (set_vnodes (inherit_cwd (vnodes y) (t_cwd c)) y)).
  apply (thread_fork_commit_ok (<[stack := STACK_SIZE]> m1) A B R (h2, y3) rest sl zb rq t x (vnodes y));
    cbn [fst snd]; [|by rewrite Hc2|by apply lookup_insert_eq|done..| |].
  - apply (mem_inv_heap m1 _ A B R (h1, set_vnodes (inherit_cwd (vnodes y) (t_cwd c)) y1) rest).
    + exact (mem_inv_fields m1 A B R (h1, y1) rest sl zb rq (numthreads y) (curkstack y) _ Hm1).
    + done.
    + rewrite (sys_blocks_update _ _ _ _ _ x0 x [stack]); [by apply owned_alloc|].
      unfold tblk. cbn [t_name t_stack x new_thread x0 fst]. rewrite blk_0, blk_nonzero by done.
      solve_Permutation.
  - intros m' A' B' R' h' y' Hc' Ht' Hv' Hn' Hro Hsm' Hm'.
    eapply (HQ m' A' B' R' h' y' t nm stack); try done. congruence.
  - intros m' A' B' R' h' y' Hc' Ht' Hv' Hn' Hsm' Hmore Hm'.
    eapply (HE m' A' B' R'); try done; [congruence|]. rewrite Ht'. cbn [threads y3 set_threads].
    by rewrite delete_insert_id.
Qed.
End spec.
