(* ===== verification/ThreadTheorems.v ===== *)
(** * Threads: correctness

    What each operation of thread.c does to the four lists of threads, and that
    every sequence of operations keeps every thread on exactly one of them. *)

From Stdlib Require Import ZArith Lia.
From stdpp Require Import base list gmap numbers strings.
From S2P Require Import Prelude Cpu KMem HeapCpu Array Queue Vnode Thread ThreadProof ThreadSwitch ThreadSpec.

Local Open Scope Z_scope.

(** The state once interrupts are off *)
Definition at_splhigh `{!HasCpu H} {K} (s : TH H K) : TH H K :=
  (set_cpu (spl_set SPL_HIGH (cpu_of s.1)) s.1, s.2).

(** The structures are far from the limits of their types. *)
Definition small_rooms {K} (y : tsys K) : Prop :=
  sleep_room y < 2 ^ 28 ∧ zombie_room y < 2 ^ 28 ∧ ready_room y < 2 ^ 28 - 1.

Lemma filter_lengths (P : Z → bool) l :
  (length (filter (λ t, ¬ P t) l) + length (filter (λ t, P t) l))%nat = length l.
Proof.
  induction l as [|t l IH]; [done|]. rewrite !filter_cons.
  destruct (decide (P t)) as [Hd|Hd];
    [rewrite decide_False by (intros Hc; exact (Hc Hd))|rewrite decide_True by done]; simpl; lia.
Qed.

Section theorems.
Context {H : Type} `{!HasCpu H} `{!KHeap H} `{!KHeapLaws H} `{!KHeapCpu H} {K : Type}.
Context (as_activate as_destroy : Z → M (TH H K) ()) (vop_reclaim : M VN Z).
Context (cpu_idle : M (TH H K) ()) (idle_fuel : nat).
Implicit Types (s : TH H K) (ts : gmap Z (thread K)) (m rest : gmap Z Z) (x : thread K).
Implicit Types (cs sl zb rq : list Z) (t cur next : Z) (fr : frame K).

Lemma small_rooms_small m A B R s rest sl zb rq :
  mem_inv m A B R s rest sl zb rq → small_rooms s.2 ↔ small A B R.
Proof.
  intros Hm. destruct (mem_rooms _ _ _ _ _ _ _ _ _ Hm) as (HA & HB & HR).
  unfold small_rooms. rewrite HA, HB, HR. split; [intros ?; split; lia|intros []; lia].
Qed.

(** ** The operations *)

Lemma thread_fork_ok s rest cur c sl zb rq name d1 d2 fn junk :
  thr_inv s rest [cur] sl zb rq → running (cpu_of s.1) → curthread (cpu_of s.1) = cur →
  threads s.2 !! cur = Some c → cwd_ok (vnodes s.2) (t_cwd c) →
  small_rooms s.2 → Z.of_nat (length rq) < numthreads s.2 < 2 ^ 27 - 1 →
  Z.of_nat (String.length name) < 2 ^ 31 - 1 →
  wp safe_oom (thread_fork vop_reclaim name d1 d2 fn junk) s
    (λ t s', thr_inv s' rest [cur] sl zb (rq ++ [t]) ∧ cpu_of s'.1 = cpu_of s.1 ∧
       threads s.2 !! t = None ∧
       (∃ nm stack, stack ≠ 0 ∧
          threads s'.2 = <[t := new_thread nm stack name d1 d2 fn c]> (threads s.2)) ∧
       vnodes s'.2 = inherit_cwd (vnodes s.2) (t_cwd c) ∧
       numthreads s'.2 = numthreads s.2 + 1 ∧ numthreads s'.2 ≤ sleep_room s'.2 ∧
       numthreads s'.2 ≤ zombie_room s'.2 ∧ numthreads s'.2 ≤ ready_room s'.2 + 1)
    (λ e s', e = ENOMEM ∧ thr_inv s' rest [cur] sl zb rq ∧ cpu_of s'.1 = cpu_of s.1 ∧
       threads s'.2 = threads s.2 ∧ vnodes s'.2 = vnodes s.2 ∧
       numthreads s'.2 = numthreads s.2 ∧ sleep_room s.2 ≤ sleep_room s'.2 ∧
       ready_room s.2 ≤ ready_room s'.2).
Proof.
  intros (m & A & B & R & Hm & Hwho) Hrun Hcur Hc Hcwd Hsm Hn Hlen.
  destruct (mem_rooms _ _ _ _ _ _ _ _ _ Hm) as (HA & _ & HR).
  eapply thread_fork_steps; [done..|by eapply small_rooms_small|done|done| |].
  - intros m' A' B' R' h' y' t nm stack Hc' Hnew Ht0 Hs0 Ht Hv Hn' [H1 H2 H3] Hsm' Hm'.
    destruct (mem_rooms _ _ _ _ _ _ _ _ _ Hm') as (HA' & HB' & HR'). cbn [fst snd] in *.
    rewrite HA', HB', HR'. split_and!; try done; try lia; [|by eauto].
    exists m', A', B', R'. split; [done|]. cbn [snd]. rewrite Ht. by eapply who_fork.
  - intros m' A' B' R' h' y' Hc' Ht Hv Hn' Hsm' [H1 H2] Hm'.
    destruct (mem_rooms _ _ _ _ _ _ _ _ _ Hm') as (HA' & HB' & HR'). cbn [fst snd] in *.
    rewrite HA', HR', HA, HR. split_and!; try done; try lia.
    exists m', A', B', R'. split; [done|]. cbn [snd]. by rewrite Ht.
Qed.

Lemma thread_yield_ok s rest cur sl zb rq next rq' :
  keeps_threads as_activate → thr_inv s rest [cur] sl zb rq → running (cpu_of s.1) →
  curthread (cpu_of s.1) = cur → Z.of_nat (length rq) < ready_room s.2 →
  rq ++ [cur] = next :: rq' →
  wp safe (thread_yield as_activate cpu_idle idle_fuel) s
    (λ ctl s', handed (at_splhigh s) rest cur (F_yield (curspl (cpu_of s.1))) next sl zb rq' ctl s')
    noerr.
Proof.
  intros Hact (m & A & B & R & Hm & Hwho) Hrun Hcur Hroom Hrq.
  destruct (mem_rooms _ _ _ _ _ _ _ _ _ Hm) as (_ & _ & HR).
  unfold thread_yield, splhigh. wp_steps. apply wp_splx. wp_steps.
  change (set_cpu (spl_set SPL_HIGH (cpu_of s)) s) with (at_splhigh s).
  change (curspl (cpu_of s)) with (curspl (cpu_of s.1)).
  pose proof Hm as [_ HA _ _ _ _ _ _].
  wp_assert by (change (sleepers (at_splhigh s).2) with (sleepers s.2); by rewrite HA).
  apply (switch_ok as_activate cpu_idle idle_fuel S_READY _ m A B R _ rest cur sl zb rq sl zb next rq'); try done.
  - by apply (mem_inv_cpu m A B R s).
  - unfold at_splhigh. cbn [fst]. rewrite cpu_of_set. by apply running_spl.
  - unfold at_splhigh. cbn [fst]. by rewrite cpu_of_set, curthread_spl_set.
  - unfold at_splhigh. cbn [fst]. by rewrite cpu_of_set, curspl_spl_set.
  - simpl. split_and!; try done. lia.
  - intros _. simpl. apply Hrun.
Qed.

(** [thread_sleep] puts the running thread on the sleep address [addr] at the end
    of the sleepers and hands the processor to the head of the run queue. *)
Lemma thread_sleep_ok s rest cur x sl zb next rq addr k :
  keeps_threads as_activate → thr_inv s rest [cur] sl zb (next :: rq) → running (cpu_of s.1) →
  curthread (cpu_of s.1) = cur → threads s.2 !! cur = Some x → 0 < curspl (cpu_of s.1) →
  in_interrupt (cpu_of s.1) = 0 → Z.of_nat (length sl) < sleep_room s.2 →
  wp safe (thread_sleep as_activate cpu_idle idle_fuel addr k) s
    (λ ctl s', let s1 := (s.1, set_threads (<[cur := set_sleepaddr addr x]> (threads s.2)) s.2) in
       handed s1 rest cur (F_sleep k) next (sl ++ [cur]) zb rq ctl s')
    noerr.
Proof.
  intros Hact (m & A & B & R & Hm & Hwho) Hrun Hcur Hx Hspl Hint Hroom.
  destruct (mem_rooms _ _ _ _ _ _ _ _ _ Hm) as (HA & _ & _).
  unfold thread_sleep. wp_steps. apply wp_assert; [by apply Z.eqb_eq|]. wp_steps.
  apply get_curthread_ok. rewrite Hcur. wp_steps. apply (upd_thread_ok _ _ _ x); [done|].
  destruct (set_sleepaddr_inv m A B R s rest [cur] sl zb (next :: rq) cur x addr Hx Hm Hwho) as [Hm1 Hw1].
  apply (switch_ok as_activate cpu_idle idle_fuel S_SLEEP _ m A B R _ rest cur sl zb (next :: rq) (sl ++ [cur]) zb next rq); try done.
  simpl. split_and!; try done. lia.
Qed.

Lemma thread_wakeup_ok s rest cs sl zb rq addr :
  thr_inv s rest cs sl zb rq → 0 < curspl (cpu_of s.1) →
  Z.of_nat (length sl + length rq) ≤ ready_room s.2 →
  wp safe (thread_wakeup addr) s
    (λ _ s', thr_inv s' rest cs (filter (λ t, ¬ sleeps_on (threads s.2) addr t) sl) zb
         (rq ++ filter (λ t, sleeps_on (threads s.2) addr t) sl) ∧
       s'.1 = s.1 ∧ same_threads s.2 s'.2 ∧ sleep_room s'.2 = sleep_room s.2 ∧
       ready_room s'.2 = ready_room s.2) noerr.
Proof.
  intros (m & A & B & R & Hm & Hwho) Hspl Hroom.
  destruct (mem_rooms _ _ _ _ _ _ _ _ _ Hm) as (HA & _ & HR). rewrite HA, HR in *.
  unfold thread_wakeup. wp_steps. apply assert_spl_ok; [done|]. wp_steps.
  apply (getnum_sleepers_ok _ m A B R _ rest sl zb rq); [done|]. rewrite Nat2Z.id.
  apply (wake_from_ok safe addr m B rest zb _ noerr sl (length sl) [] rq A R); try done.
  { intros t Ht. apply (wi_dom _ _ _ _ _ Hwho), elem_of_app. right. apply elem_of_app. by left. }
  intros A' R' y' Hy' HA' HR' Hm'. cbn [fst snd].
  destruct (mem_rooms _ _ _ _ _ _ _ _ _ Hm') as (HA2 & _ & HR2). cbn [fst snd] in *.
  rewrite HA2, HR2, HA', HR'. split_and!; try done.
  exists m, A', B, R'. split; [done|]. cbn [snd]. destruct Hy' as (-> & _). by apply who_wake.
Qed.

(** ** Exiting *)

(** [as_destroy] frees the address space [a] and keeps the threads and the
    processor (AddrSpaceProof.v). *)
Definition destroys_space (f : Z → M (TH H K) ()) : Prop :=
  ∀ a s m, heap_any s.1 m → running (cpu_of s.1) → is_Some (m !! a) →
    wp safe (f a) s
      (λ _ s', s'.2 = s.2 ∧ cpu_of s'.1 = cpu_of s.1 ∧ heap_any s'.1 (delete a m)) noerr.

(** The vnodes with one reference to [cwd] less, which was not the last *)
Definition release_cwd (vs : gmap Z vnode) (cwd : Z) : gmap Z vnode :=
  if cwd =? 0 then vs else
  match vs !! cwd with
  | Some w => <[cwd := set_refcount (vn_refcount w - 1) w]> vs
  | None => vs
  end.
Definition cwd_shared (vs : gmap Z vnode) (cwd : Z) : Prop :=
  cwd ≠ 0 → ∃ w, vs !! cwd = Some w ∧ vnode_wf w ∧ 1 < vn_refcount w ∧ vnode_addr cwd.

(** The heap blocks of others once the address space is gone *)
Definition without (a : Z) rest : gmap Z Z := if a =? 0 then rest else delete a rest.

Lemma set_vmspace_0 x : t_vmspace x = 0 → set_vmspace 0 x = x.
Proof. destruct x. simpl. by intros ->. Qed.
Lemma set_cwd_0 x : t_cwd x = 0 → set_cwd 0 x = x.
Proof. destruct x. simpl. by intros ->. Qed.

Lemma exit_space_ok m A B R s rest sl zb rq t x (Q : () → TH H K → Prop) E :
  destroys_space as_destroy → mem_inv m A B R s rest sl zb rq → running (cpu_of s.1) →
  threads s.2 !! t = Some x → (t_vmspace x ≠ 0 → is_Some (rest !! t_vmspace x)) →
  (∀ m' h', cpu_of h' = cpu_of s.1 →
     let s' := (h', set_threads (<[t := set_vmspace 0 x]> (threads s.2)) s.2) in
     mem_inv m' A B R s' (without (t_vmspace x) rest) sl zb rq → Q tt s') →
  wp safe (when (negb (t_vmspace x =? 0))
             (upd_thread t (set_vmspace 0);; as_destroy (t_vmspace x))) s Q E.
Proof.
  intros Hdes Hm Hrun Hx Hin HQ. destruct s as [h y]. cbn [fst snd] in *. unfold without in HQ.
  assert (∀ x', tblk t x' = tblk t x →
    thread_blocks (<[t := x']> (threads y)) ≡ₚ thread_blocks (threads y)) as Hb
    by (intros x' Hx'; by eapply thread_blocks_update).
  apply wp_when; intros Hv; destruct (Z.eqb_spec (t_vmspace x) 0) as [H0|H0]; try done.
  - wp_steps. apply (upd_thread_ok _ _ _ x); [done|]. cbn [fst snd].
    pose proof (mem_inv_threads _ _ _ _ (h, y) _ _ _ _ _ Hm (Hb (set_vmspace 0 x) eq_refl)) as Hm1.
    pose proof Hm1 as [Hh1 _ _ _ _ _ _ Ho1].
    destruct (owned_rest_free _ _ _ (t_vmspace x) Ho1 (Hin H0)) as [Hs Ho2].
    eapply wp_mono; [by apply (Hdes _ _ m)| |done]. intros [] [h' y'] (Hy & Hc & Hh').
    cbn [fst snd] in *. subst y'. apply (HQ (delete (t_vmspace x) m)); [done|].
    by eapply (mem_inv_heap m _ A B R (h, y)).
  - rewrite set_vmspace_0, insert_id in HQ by done. specialize (HQ m h eq_refl).
    destruct y. by apply HQ.
Qed.

Lemma exit_cwd_ok F s t x (Q : () → TH H K → Prop) E :
  cwd_shared (vnodes s.2) (t_cwd x) → running (cpu_of s.1) → threads s.2 !! t = Some x →
  (let s' := (s.1, set_threads (<[t := set_cwd 0 x]> (threads s.2))
                     (set_vnodes (release_cwd (vnodes s.2) (t_cwd x)) s.2)) in Q tt s') →
  wp F (when (negb (t_cwd x =? 0))
          (on_vnode (t_cwd x) (vnode_decref vop_reclaim (t_cwd x));; upd_thread t (set_cwd 0))) s Q E.
Proof.
  intros Hcwd Hrun Hx HQ. cbv zeta in HQ. destruct s as [h y]. cbn [fst snd] in *.
  unfold release_cwd in HQ.
  apply wp_when; intros Hb; destruct (Z.eqb_spec (t_cwd x) 0) as [H0|H0]; try done.
  - destruct (Hcwd H0) as (w & Hw & Hwf & Href & Hadr). rewrite Hw in HQ. wp_steps.
    apply (th_vnode_ok _ _ _ _ w); [done|]. cbn [fst snd]. apply vnode_decref_ok; [done..| |lia].
    intros _. split; [done|]. by apply (upd_thread_ok _ _ _ x).
  - rewrite set_cwd_0, insert_id in HQ by done. by destruct y.
Qed.

Lemma thread_exit_ok s rest cur x sl zb next rq :
  keeps_threads as_activate → destroys_space as_destroy →
  thr_inv s rest [cur] sl zb (next :: rq) → running (cpu_of s.1) →
  curthread (cpu_of s.1) = cur → threads s.2 !! cur = Some x →
  (t_vmspace x ≠ 0 → is_Some (rest !! t_vmspace x)) → cwd_shared (vnodes s.2) (t_cwd x) →
  0 < numthreads s.2 → Z.of_nat (length zb) < zombie_room s.2 →
  wp safe (thread_exit as_activate as_destroy vop_reclaim cpu_idle idle_fuel) s
    (λ ctl s', ∃ s1, threads s1.2 = <[cur := set_cwd 0 (set_vmspace 0 x)]> (threads s.2) ∧
       vnodes s1.2 = release_cwd (vnodes s.2) (t_cwd x) ∧ numthreads s1.2 = numthreads s.2 - 1 ∧
       curspl (cpu_of s1.1) = SPL_HIGH ∧ sleep_room s1.2 = sleep_room s.2 ∧
       ready_room s1.2 = ready_room s.2 ∧
       handed s1 (without (t_vmspace x) rest) cur F_exit next sl (zb ++ [cur]) rq ctl s')
    noerr.
Proof.
  intros Hact Hdes (m & A & B & R & Hm & Hwho) Hrun Hcur Hx Hvm Hcwd Hn Hroom.
  destruct (mem_rooms _ _ _ _ _ _ _ _ _ Hm) as (HA & HB & HR). unfold thread_exit.
  wp_steps. apply get_curthread_ok. rewrite Hcur. wp_steps. apply (get_thread_ok _ _ _ x); [done|].
  wp_steps. apply check_stack_ok; [by eapply wi_stack|]. unfold splhigh. wp_steps. apply wp_splx. wp_steps.
  change (set_cpu (spl_set SPL_HIGH (cpu_of s)) s) with (at_splhigh s).
  assert (cpu_of (at_splhigh s).1 = spl_set SPL_HIGH (cpu_of s.1)) as Hcpu by apply cpu_of_set.
  assert (running (cpu_of (at_splhigh s).1)) as Hrun1 by (rewrite Hcpu; by apply running_spl).
  apply (exit_space_ok m A B R _ rest sl zb (next :: rq)); [done|by apply (mem_inv_cpu m A B R s)|done..|].
  intros m1 h1 Hc1. cbv zeta. intros Hm1. wp_steps. set (x1 := set_vmspace 0 x).
  apply (get_thread_ok _ _ _ x1); [by apply lookup_insert_eq|]. wp_steps.
  apply (exit_cwd_ok _ _ cur x1); [done|cbn [fst]; by rewrite Hc1|by apply lookup_insert_eq|].
  cbv zeta. cbn [fst snd threads vnodes set_threads at_splhigh]. rewrite insert_insert_eq. wp_steps.
  wp_assert by (cbn [snd numthreads set_threads set_vnodes]; lia). apply wp_bind, wp_modify. cbn [fst snd].
  set (x2 := set_cwd 0 x1). set (vs := release_cwd (vnodes s.2) (t_cwd x1)).
  set (y2 := MkTsys (sleepers s.2) (zombies s.2) (numthreads s.2 - 1) (runqueue s.2) (curkstack s.2)
               (<[cur := x2]> (threads s.2)) vs).
  match goal with |- wp _ _ (h1, ?w) _ _ => change w with y2 end.
  assert (mem_inv m1 A B R (h1, y2) (without (t_vmspace x) rest) sl zb (next :: rq)) as Hm2.
  { pose proof (mem_inv_threads _ _ _ _ _ _ _ _ _ (<[cur := x2]> (threads s.2)) Hm1) as Hm2.
    cbn [fst snd threads set_threads at_splhigh] in Hm2.
    rewrite !thread_blocks_insert in Hm2. specialize (Hm2 ltac:(done)).
    exact (mem_inv_fields _ _ _ _ _ _ _ _ _ (numthreads s.2 - 1) (curkstack s.2) vs Hm2). }
  assert (cpu_of h1 = spl_set SPL_HIGH (cpu_of s.1)) as Hcpu1 by congruence.
  eapply (switch_ok as_activate cpu_idle idle_fuel S_ZOMB _ m1 A B R (h1, y2) _ cur sl zb (next :: rq)
    sl (zb ++ [cur]) next rq F_exit); cbn [fst snd]; rewrite ?Hcpu1; try done.
  - apply who_update; [done|]. exact (wi_stack _ _ _ _ _ Hwho cur x Hx).
  - by apply running_spl.
  - simpl. split_and!; try done. lia.
  - intros _. exists x2. split; [by apply lookup_insert_eq|done].
  - intros ctl s' Hd. exists (h1, y2). cbn [fst snd]. rewrite Hcpu1, curspl_spl_set. by split_and!.
Qed.

(** ** Sequences of operations *)

(** How many threads are ready, and how many are dead *)
Definition ready_count (y : tsys K) : Z :=
  match runqueue y with Some (_, q) => (nextwrite q - nextread q) `mod` size q | None => 0 end.
Definition zombie_count (y : tsys K) : Z :=
  match zombies y with Some (_, a) => num a | None => 0 end.

Lemma mem_counts m A B R s rest sl zb rq :
  mem_inv m A B R s rest sl zb rq →
  ready_count s.2 = Z.of_nat (length rq) ∧ zombie_count s.2 = Z.of_nat (length zb).
Proof.
  intros [_ _ HB HR _ Hzb Hrq _]. unfold ready_count, zombie_count. rewrite HB, HR.
  destruct B as [p b], R as [r q]. cbn [snd] in *.
  split; [|apply (array_rep_num _ _ _ Hzb)]. destruct Hrq as [_ Hroom _ Hw _ _]. rewrite Hw.
  rewrite Zminus_mod_idemp_l. replace (nextread q + Z.of_nat (length rq) - nextread q)
    with (Z.of_nat (length rq)) by lia. apply Z.mod_small. lia.
Qed.

(** Address spaces are heap blocks of their own, one per thread. *)
Definition spaces_ok ts rest : Prop :=
  (∀ t x, ts !! t = Some x → t_vmspace x ≠ 0 → is_Some (rest !! t_vmspace x)) ∧
  (∀ t t' x x', ts !! t = Some x → ts !! t' = Some x' → t_vmspace x ≠ 0 →
     t_vmspace x = t_vmspace x' → t = t').

(** Every thread is running, asleep, ready or dead, on one list, once; the counter
    counts the first three; there is room for all sleepers and all woken ones. *)
Definition sched_inv s : Prop :=
  ∃ rest cur sl zb rq, thr_inv s rest [cur] sl zb rq ∧ running (cpu_of s.1) ∧
    curthread (cpu_of s.1) = cur ∧ spaces_ok (threads s.2) rest ∧
    numthreads s.2 = 1 + Z.of_nat (length sl + length rq) ∧
    numthreads s.2 ≤ sleep_room s.2 ∧ numthreads s.2 ≤ ready_room s.2 + 1.

(** A call of the running thread that returns, if only in another thread. The guards leave
    out what the code does not handle: a thread that yields when the ring of the run queue is
    full, one slot short of the threads (thread.c:416), or exits when the array of the dead
    is full, which [exorcise] has shrunk or a chain of new threads has filled (thread.c:113
    and 451), makes [mi_switch] allocate memory while there is no current thread; and an
    exit with no ready thread idles until an interrupt. A thread that sleeps needs a ready
    one, too, and is no interrupt handler. The working directory of a thread that exits has
    another reference, since its last one would be reclaimed by the file system; that of
    one that forks is a vnode whose count does not overflow. There are fewer than 2 ^ 27
    threads and the names are short of 2 GB. *)
Inductive tstep : TH H K → TH H K → Prop :=
  | step_fork s s' name d1 d2 fn junk t :
      small_rooms s.2 → numthreads s.2 < 2 ^ 27 - 1 → Z.of_nat (String.length name) < 2 ^ 31 - 1 →
      (∀ c, threads s.2 !! curthread (cpu_of s.1) = Some c → cwd_ok (vnodes s.2) (t_cwd c)) →
      thread_fork vop_reclaim name d1 d2 fn junk s = Ret t s' → tstep s s'
  | step_fork_fails s s' name d1 d2 fn junk e :
      small_rooms s.2 → numthreads s.2 < 2 ^ 27 - 1 → Z.of_nat (String.length name) < 2 ^ 31 - 1 →
      (∀ c, threads s.2 !! curthread (cpu_of s.1) = Some c → cwd_ok (vnodes s.2) (t_cwd c)) →
      thread_fork vop_reclaim name d1 d2 fn junk s = Err e s' → tstep s s'
  | step_yield s s' ctl :
      ready_count s.2 < ready_room s.2 →
      thread_yield as_activate cpu_idle idle_fuel s = Ret ctl s' → tstep s s'
  | step_sleep s s' addr k ctl :
      0 < curspl (cpu_of s.1) → in_interrupt (cpu_of s.1) = 0 → 0 < ready_count s.2 →
      thread_sleep as_activate cpu_idle idle_fuel addr k s = Ret ctl s' → tstep s s'
  | step_wakeup s s' addr :
      0 < curspl (cpu_of s.1) → thread_wakeup addr s = Ret tt s' → tstep s s'
  | step_exit s s' ctl :
      0 < ready_count s.2 → zombie_count s.2 < zombie_room s.2 →
      (∀ x, threads s.2 !! curthread (cpu_of s.1) = Some x → cwd_shared (vnodes s.2) (t_cwd x)) →
      thread_exit as_activate as_destroy vop_reclaim cpu_idle idle_fuel s = Ret ctl s' → tstep s s'
  | step_spl s s' n old : 0 ≤ n → splx n s = Ret old s' → tstep s s'.

Lemma spaces_handed s rest cur fr next sl' zb' rq' ctl s' :
  handed s rest cur fr next sl' zb' rq' ctl s' →
  spaces_ok (threads s.2) rest → spaces_ok (threads s'.2) rest.
Proof.
  intros [_ _ _ Hsame _ _ _ _] [H1 H2].
  assert (∀ t x', threads s'.2 !! t = Some x' → ∃ x, threads s.2 !! t = Some x ∧
    t_vmspace x' = t_vmspace x) as Hv.
  { intros t x' Hx'. destruct (Hsame t x' Hx') as (x & Hx & Hid & _). exists x. split; [done|].
    unfold ident in Hid. by simplify_eq. }
  split.
  - intros t x' Hx' H0. destruct (Hv t x' Hx') as (x & Hx & He). rewrite He in *. by eapply H1.
  - intros t t' x1 x2 Hx1 Hx2 H0 He. destruct (Hv t x1 Hx1) as (y1 & Hy1 & E1).
    destruct (Hv t' x2 Hx2) as (y2 & Hy2 & E2). apply (H2 t t' y1 y2); congruence.
Qed.

Lemma sched_handed s rest cur fr next sl zb rq ctl s' :
  handed s rest cur fr next sl zb rq ctl s' → spaces_ok (threads s.2) rest →
  numthreads s.2 = 1 + Z.of_nat (length sl + length rq) →
  numthreads s.2 ≤ sleep_room s.2 → numthreads s.2 ≤ ready_room s.2 + 1 → sched_inv s'.
Proof.
  intros Hd Hsp Hn Hs Hr. pose proof (spaces_handed _ _ _ _ _ _ _ _ _ _ Hd Hsp) as Hsp'.
  destruct Hd as [(fr' & _ & _ & _ & Hinv) [Hrun Hcur] _ _ _ [Hrs Hrr] Hnum _].
  exists rest, next, sl, (zombies_after fr' zb), rq. rewrite Hnum, Hrs, Hrr. by split_and!.
Qed.

Lemma spaces_insert ts rest t x :
  spaces_ok ts rest → t_vmspace x = 0 → spaces_ok (<[t := x]> ts) rest.
Proof.
  intros [H1 H2] H0. split.
  - intros u y [[<- <-]|[_ Hy]]%lookup_insert_Some; [done|by eapply H1].
  - intros u u' y y' [[<- <-]|[_ Hy]]%lookup_insert_Some [[<- <-]|[_ Hy']]%lookup_insert_Some Hn He;
      [done|done|congruence|by eapply (H2 u u' y y')].
Qed.

(** The address space of the thread that exits is nobody else's. *)
Lemma spaces_exit ts rest t x x' :
  spaces_ok ts rest → ts !! t = Some x → t_vmspace x' = 0 →
  spaces_ok (<[t := x']> ts) (without (t_vmspace x) rest).
Proof.
  intros [H1 H2] Hx H0. destruct (spaces_insert ts rest t x' (conj H1 H2) H0) as [H1' H2'].
  split; [|done]. intros u y Hy Hn. unfold without.
  destruct (Z.eqb_spec (t_vmspace x) 0); [by eapply H1'|].
  rewrite lookup_delete_ne; [by eapply H1'|]. intros He.
  apply lookup_insert_Some in Hy as [[<- <-]|[Hne Hy]]; [congruence|].
  by apply Hne, (H2 t u x y).
Qed.

Lemma spaces_sleepaddr ts rest t x a :
  spaces_ok ts rest → ts !! t = Some x → spaces_ok (<[t := set_sleepaddr a x]> ts) rest.
Proof.
  intros [H1 H2] Hx.
  assert (∀ u y, <[t := set_sleepaddr a x]> ts !! u = Some y →
    ∃ z, ts !! u = Some z ∧ t_vmspace z = t_vmspace y) as Hv.
  { intros u y [[<- <-]|[_ Hy]]%lookup_insert_Some; eauto. }
  split.
  - intros u y Hy. destruct (Hv u y Hy) as (z & Hz & <-). by eapply H1.
  - intros u u' y y' Hy Hy'. destruct (Hv u y Hy) as (z & Hz & <-).
    destruct (Hv u' y' Hy') as (z' & Hz' & <-). by eapply H2.
Qed.

Lemma current_thread m A B R s rest cur sl zb rq :
  mem_inv m A B R s rest sl zb rq → who_inv (threads s.2) [cur] sl zb rq →
  ∃ x, threads s.2 !! cur = Some x.
Proof. intros _ Hw. destruct (who_lookup _ _ _ _ _ cur Hw) as (x & Hx & _); [left|eauto]. Qed.

Lemma fork_step s name d1 d2 fn junk :
  small_rooms s.2 → numthreads s.2 < 2 ^ 27 - 1 → Z.of_nat (String.length name) < 2 ^ 31 - 1 →
  (∀ c, threads s.2 !! curthread (cpu_of s.1) = Some c → cwd_ok (vnodes s.2) (t_cwd c)) →
  sched_inv s →
  wp safe_oom (thread_fork vop_reclaim name d1 d2 fn junk) s (λ _, sched_inv) (λ _, sched_inv).
Proof.
  intros Hsm Hmax Hlen Hcwd (rest & cur & sl & zb & rq & Hinv & Hrun & Hcur & Hsp & Hn & Hs & Hr).
  pose proof Hinv as (m & A & B & R & Hm & Hwho).
  destruct (current_thread _ _ _ _ _ _ _ _ _ _ Hm Hwho) as [c Hc].
  eapply wp_mono; [apply (thread_fork_ok s rest cur c sl zb rq); try done; [|lia]|..].
  { apply Hcwd. by rewrite Hcur. }
  - intros t s' (Hinv' & Hcpu & Hnew & (nm & stack & _ & Hts) & _ & Hn' & Hs' & _ & Hr').
    exists rest, cur, sl, zb, (rq ++ [t]). rewrite Hcpu. split_and!; try done; [|].
    + rewrite Hts. by apply spaces_insert.
    + rewrite Hn', Hn, length_app. simpl. lia.
  - intros e s' (_ & Hinv' & Hcpu & Hts & _ & Hn' & Hs' & Hr').
    exists rest, cur, sl, zb, rq. rewrite Hcpu, Hts, Hn'. split_and!; try done; lia.
Qed.

Lemma yield_step s :
  keeps_threads as_activate → ready_count s.2 < ready_room s.2 → sched_inv s →
  wp safe (thread_yield as_activate cpu_idle idle_fuel) s (λ _, sched_inv) noerr.
Proof.
  intros Hact Hroom (rest & cur & sl & zb & rq & Hinv & Hrun & Hcur & Hsp & Hn & Hs & Hr).
  pose proof Hinv as (m & A & B & R & Hm & Hwho).
  destruct (mem_counts _ _ _ _ _ _ _ _ _ Hm) as [Hrc _]. rewrite Hrc in Hroom.
  destruct (rotate cur rq) as (next & rq' & Hrq).
  eapply wp_mono; [by apply (thread_yield_ok s rest cur sl zb rq next rq')| |done].
  intros ctl s' Hd. apply (sched_handed _ _ _ _ _ _ _ _ _ _ Hd); try done.
  change (numthreads s.2 = 1 + Z.of_nat (length sl + length rq')). rewrite Hn.
  apply (f_equal length) in Hrq. rewrite length_app in Hrq. simpl in Hrq. lia.
Qed.

Lemma sleep_step s addr k :
  keeps_threads as_activate → 0 < curspl (cpu_of s.1) → in_interrupt (cpu_of s.1) = 0 →
  0 < ready_count s.2 → sched_inv s →
  wp safe (thread_sleep as_activate cpu_idle idle_fuel addr k) s (λ _, sched_inv) noerr.
Proof.
  intros Hact Hspl Hint Hrc (rest & cur & sl & zb & rq & Hinv & Hrun & Hcur & Hsp & Hn & Hs & Hr).
  pose proof Hinv as (m & A & B & R & Hm & Hwho).
  destruct (current_thread _ _ _ _ _ _ _ _ _ _ Hm Hwho) as [x Hx].
  destruct (mem_counts _ _ _ _ _ _ _ _ _ Hm) as [He _]. rewrite He in Hrc.
  destruct rq as [|next rq]; [simpl in Hrc; lia|]. simpl in Hn.
  eapply wp_mono; [apply (thread_sleep_ok s rest cur x sl zb next rq); try done; lia| |done].
  cbv zeta. intros ctl s' Hd. apply (sched_handed _ _ _ _ _ _ _ _ _ _ Hd); try done.
  - by apply spaces_sleepaddr.
  - rewrite length_app. simpl. lia.
Qed.

Lemma wakeup_step s addr :
  0 < curspl (cpu_of s.1) → sched_inv s → wp safe (thread_wakeup addr) s (λ _, sched_inv) noerr.
Proof.
  intros Hspl (rest & cur & sl & zb & rq & Hinv & Hrun & Hcur & Hsp & Hn & Hs & Hr).
  eapply wp_mono; [apply (thread_wakeup_ok s rest [cur] sl zb rq); [done..|lia]| |done].
  intros _ s' (Hinv' & Hh & (Hts & _ & Hn' & _) & Hs' & Hr').
  eexists rest, cur, _, zb, _. split; [done|]. rewrite Hh, Hts, Hn', Hs', Hr'. split_and!; try done.
  rewrite length_app, Hn. do 2 f_equal. pose proof (filter_lengths (sleeps_on (threads s.2) addr) sl). lia.
Qed.

Lemma exit_step s :
  keeps_threads as_activate → destroys_space as_destroy → 0 < ready_count s.2 →
  zombie_count s.2 < zombie_room s.2 →
  (∀ x, threads s.2 !! curthread (cpu_of s.1) = Some x → cwd_shared (vnodes s.2) (t_cwd x)) →
  sched_inv s →
  wp safe (thread_exit as_activate as_destroy vop_reclaim cpu_idle idle_fuel) s (λ _, sched_inv) noerr.
Proof.
  intros Hact Hdes Hrc Hzc Hcwd (rest & cur & sl & zb & rq & Hinv & Hrun & Hcur & Hsp & Hn & Hs & Hr).
  pose proof Hinv as (m & A & B & R & Hm & Hwho).
  destruct (current_thread _ _ _ _ _ _ _ _ _ _ Hm Hwho) as [x Hx].
  destruct (mem_counts _ _ _ _ _ _ _ _ _ Hm) as [He Hz]. rewrite He in Hrc. rewrite Hz in Hzc.
  destruct rq as [|next rq]; [simpl in Hrc; lia|]. simpl in Hn.
  eapply wp_mono; [apply (thread_exit_ok s rest cur x sl zb next rq); try done|..].
  - intros H0. by apply (proj1 Hsp cur x).
  - apply Hcwd. by rewrite Hcur.
  - lia.
  - intros ctl s' (s1 & Hts & _ & Hn1 & _ & Hs1 & Hr1 & Hd).
    apply (sched_handed _ _ _ _ _ _ _ _ _ _ Hd); [|rewrite ?Hs1, ?Hr1; lia..].
    rewrite Hts. by apply spaces_exit.
  - done.
Qed.

Lemma spl_step s n : 0 ≤ n → sched_inv s → wp safe (splx n) s (λ _, sched_inv) noerr.
Proof.
  intros Hn0 (rest & cur & sl & zb & rq & (m & A & B & R & Hm & Hwho) & Hrun & Hcur & Hrest).
  apply wp_splx. exists rest, cur, sl, zb, rq. split_and!.
  - exists m, A, B, R. split; [|done]. by apply mem_inv_cpu.
  - change (running (cpu_of (set_cpu (spl_set n (cpu_of s.1)) s.1))). rewrite cpu_of_set.
    by apply running_spl.
  - change (curthread (cpu_of (set_cpu (spl_set n (cpu_of s.1)) s.1)) = cur).
    by rewrite cpu_of_set, curthread_spl_set.
  - apply Hrest.
  - apply Hrest.
  - apply Hrest.
  - apply Hrest.
Qed.

(** ** Properties *)

(** C30: [thread_fork] appends a new thread to the run queue: it will start in
    [func] with the given arguments, with the parent's process and current
    directory (whose vnode gets a reference), a stack with an intact magic number
    and no address space; every other thread is untouched, and the arrays and the
    queue have room for all threads. When memory runs out it returns [ENOMEM] and
    leaves threads, vnodes and counter as they were and no block allocated: the
    heap holds the blocks of the thread system and [rest], as before. The
    interrupt level is restored on both paths. *)
Theorem thread_fork_spec s rest cur c sl zb rq name d1 d2 fn junk :
  thr_inv s rest [cur] sl zb rq → running (cpu_of s.1) → curthread (cpu_of s.1) = cur →
  threads s.2 !! cur = Some c → cwd_ok (vnodes s.2) (t_cwd c) →
  small_rooms s.2 → Z.of_nat (length rq) < numthreads s.2 < 2 ^ 27 - 1 →
  Z.of_nat (String.length name) < 2 ^ 31 - 1 →
  wp safe_oom (thread_fork vop_reclaim name d1 d2 fn junk) s
    (λ t s', thr_inv s' rest [cur] sl zb (rq ++ [t]) ∧ cpu_of s'.1 = cpu_of s.1 ∧
       threads s.2 !! t = None ∧
       (∃ nm stack, stack ≠ 0 ∧
          threads s'.2 = <[t := new_thread nm stack name d1 d2 fn c]> (threads s.2)) ∧
       vnodes s'.2 = inherit_cwd (vnodes s.2) (t_cwd c) ∧
       numthreads s'.2 = numthreads s.2 + 1 ∧ numthreads s'.2 ≤ sleep_room s'.2 ∧
       numthreads s'.2 ≤ zombie_room s'.2 ∧ numthreads s'.2 ≤ ready_room s'.2 + 1)
    (λ e s', e = ENOMEM ∧ thr_inv s' rest [cur] sl zb rq ∧ cpu_of s'.1 = cpu_of s.1 ∧
       threads s'.2 = threads s.2 ∧ vnodes s'.2 = vnodes s.2 ∧
       numthreads s'.2 = numthreads s.2 ∧ sleep_room s.2 ≤ sleep_room s'.2 ∧
       ready_room s.2 ≤ ready_room s'.2).
Proof. apply thread_fork_ok. Qed.

(** [thread_yield] is round robin: the running thread goes to the end of the
    run queue and the thread at its head gets the processor, where it left it and
    at its own interrupt level; no thread is lost, duplicated or changed. *)
Theorem thread_yield_spec s rest cur sl zb rq next rq' :
  keeps_threads as_activate → thr_inv s rest [cur] sl zb rq → running (cpu_of s.1) →
  curthread (cpu_of s.1) = cur → Z.of_nat (length rq) < ready_room s.2 →
  rq ++ [cur] = next :: rq' →
  wp safe (thread_yield as_activate cpu_idle idle_fuel) s
    (λ ctl s', handed (at_splhigh s) rest cur (F_yield (curspl (cpu_of s.1))) next sl zb rq' ctl s')
    noerr.
Proof. apply thread_yield_ok. Qed.

(** C36: [thread_wakeup] makes exactly the threads that sleep on [addr] ready, in
    the order in which they went to sleep; the loop returns, and nothing else
    changes. *)
Theorem thread_wakeup_spec s rest cs sl zb rq addr :
  thr_inv s rest cs sl zb rq → 0 < curspl (cpu_of s.1) →
  Z.of_nat (length sl + length rq) ≤ ready_room s.2 →
  wp safe (thread_wakeup addr) s
    (λ _ s', thr_inv s' rest cs (filter (λ t, ¬ sleeps_on (threads s.2) addr t) sl) zb
         (rq ++ filter (λ t, sleeps_on (threads s.2) addr t) sl) ∧
       s'.1 = s.1 ∧ same_threads s.2 s'.2 ∧ sleep_room s'.2 = sleep_room s.2 ∧
       ready_room s'.2 = ready_room s.2) noerr.
Proof. apply thread_wakeup_ok. Qed.

(** [thread_exit] gives back the running thread's address space and its
    reference to the current directory, counts it out, makes it a zombie and hands
    the processor to the head of the run queue; if that thread has run before, it
    removes the zombies, this one included: [thr_inv] accounts for every block. *)
Theorem thread_exit_spec s rest cur x sl zb next rq :
  keeps_threads as_activate → destroys_space as_destroy →
  thr_inv s rest [cur] sl zb (next :: rq) → running (cpu_of s.1) →
  curthread (cpu_of s.1) = cur → threads s.2 !! cur = Some x →
  (t_vmspace x ≠ 0 → is_Some (rest !! t_vmspace x)) → cwd_shared (vnodes s.2) (t_cwd x) →
  0 < numthreads s.2 → Z.of_nat (length zb) < zombie_room s.2 →
  wp safe (thread_exit as_activate as_destroy vop_reclaim cpu_idle idle_fuel) s
    (λ ctl s', ∃ s1, threads s1.2 = <[cur := set_cwd 0 (set_vmspace 0 x)]> (threads s.2) ∧
       vnodes s1.2 = release_cwd (vnodes s.2) (t_cwd x) ∧ numthreads s1.2 = numthreads s.2 - 1 ∧
       curspl (cpu_of s1.1) = SPL_HIGH ∧ sleep_room s1.2 = sleep_room s.2 ∧
       ready_room s1.2 = ready_room s.2 ∧
       handed s1 (without (t_vmspace x) rest) cur F_exit next sl (zb ++ [cur]) rq ctl s')
    noerr.
Proof. apply thread_exit_ok. Qed.

(** C35: In every state reached by calls of [thread_fork], [thread_yield],
    [thread_sleep], [thread_wakeup], [thread_exit] and [splx] that return, whichever
    threads make them, the thread system is well formed. The calls are those of [tstep]:
    a thread that yields finds a free slot in the run queue, a thread that exits finds a
    free slot among the dead, another thread ready and its working directory in use
    elsewhere, a thread that sleeps finds another thread ready. Well formed means: every
    thread is on the processor or on exactly one of the lists, [numthreads] counts those that live, the lists
    have room for the sleepers and for whoever is woken, the waiting threads can go
    on, stacks are intact, no two threads share an address space, and no heap block
    is leaked or used twice. *)
Theorem threads_well_formed s s' :
  keeps_threads as_activate → destroys_space as_destroy →
  sched_inv s → rtc tstep s s' → sched_inv s'.
Proof.
  intros Hact Hdes Hs Hsteps. induction Hsteps as [|s s1 s' Hstep _ IH]; [done|]. apply IH.
  destruct Hstep.
  - eapply (wp_returns _ _ _ _ _ (λ _, sched_inv)); [by apply fork_step|done].
  - eapply (wp_fails _ _ _ _ _ _ (λ _, sched_inv)); [by apply fork_step|done].
  - eapply (wp_returns _ _ _ _ _ (λ _, sched_inv)); [by apply yield_step|done].
  - eapply (wp_returns _ _ _ _ _ (λ _, sched_inv)); [by apply sleep_step|done].
  - eapply (wp_returns _ _ _ _ _ (λ _, sched_inv)); [by apply wakeup_step|done].
  - eapply (wp_returns _ _ _ _ _ (λ _, sched_inv)); [by apply exit_step|done].
  - eapply (wp_returns _ _ _ _ _ (λ _, sched_inv)); [by apply spl_step|done].
Qed.
End theorems.

(** ** Threads: an example

    Three threads, one running, one ready to start and one asleep on address 77,
    on the simple heap of HeapCpu.v: the hypotheses of ThreadTheorems.v hold. *)


(** [t_vmspace] of the running thread is the block 240. *)
Definition boot_thread : thread Z :=
  MkThread None 0 0 0 (32, "boot"%string) 0 0 [] 240 0x1000 1.
Definition new_boy : thread Z :=
  MkThread (Some (F_new 1 2 3)) 4176 0 0 (64, "new"%string) 0 80 stack_magic 0 0 1.
Definition sleeper : thread Z :=
  MkThread (Some (F_sleep 7)) 4224 0 0 (112, "asleep"%string) 77 128 stack_magic 0 0 1.

Definition ex_threads : gmap Z (thread Z) :=
  <[16 := boot_thread]> (<[48 := new_boy]> {[96 := sleeper]}).
Definition ex_sleepers : Z * array Z := (144, MkArray 1 4 160 [Some 96; None; None; None]).
Definition ex_zombies : Z * array Z := (176, MkArray 0 4 192 [None; None; None; None]).
Definition ex_runqueue : Z * queue Z :=
  (208, MkQueue 8 1 0 224 [Some 48; None; None; None; None; None; None; None]).
Definition ex_tsys : tsys Z :=
  MkTsys (Some ex_sleepers) (Some ex_zombies) 3 (Some ex_runqueue) 0 ex_threads
    {[0x1000 := set_refcount 2 ex_vnode]}.

(** Interrupts are off, and the thread 16 is running. *)
Definition ex_tcpu : cpu := MkCpu SPL_HIGH 0 0 16.
Definition ex_blocks : list Z :=
  240 :: sys_blocks ex_sleepers ex_zombies ex_runqueue ex_threads.
Definition ex_threads_state (budget : nat) : TH CpuHeap.t Z :=
  (CpuHeap.of_blocks ex_tcpu ex_blocks budget, ex_tsys).

Lemma ex_tcpu_running : running ex_tcpu.
Proof. split; [|done]. split; simpl; [done|split; done|done]. Qed.

Lemma ex_blocks_ok : NoDup ex_blocks ∧ Forall (λ b, 0 < b < 2 ^ 20) ex_blocks.
Proof. split; apply (bool_decide_eq_true_1 _); vm_compute; reflexivity. Qed.

Lemma ex_owned :
  owned (CpuHeap.blocks ex_blocks) (sys_blocks ex_sleepers ex_zombies ex_runqueue ex_threads)
    {[240 := 1]}.
Proof.
  destruct ex_blocks_ok as [Hn _]. pose proof Hn as Hn'. unfold ex_blocks in Hn'.
  apply NoDup_cons in Hn' as [Hout Hn'].
  split; [done|..]; intros b Hb; rewrite ?CpuHeap.blocks_lookup.
  - apply lookup_singleton_ne. by intros <-.
  - rewrite decide_True by (by right). by eexists.
  - unfold ex_blocks. destruct (decide (b = 240)) as [->|].
    + rewrite decide_True by left. by rewrite lookup_singleton_eq.
    + rewrite decide_False by (by rewrite not_elem_of_cons).
      symmetry. by apply lookup_singleton_ne.
Qed.

Lemma ex_who : who_inv ex_threads [16] [96] [] [48].
Proof.
  split.
  - apply (bool_decide_eq_true_1 _). vm_compute. reflexivity.
  - intros t. unfold ex_threads. rewrite !lookup_insert_is_Some, lookup_singleton_is_Some.
    simpl. rewrite !elem_of_cons, elem_of_nil.
    destruct (decide (t = 16)), (decide (t = 48)), (decide (t = 96)); naive_solver.
  - intros t x. unfold ex_threads. intros [[<- <-]|[_ [[<- <-]|[_ [<- <-]%lookup_singleton_Some]]%lookup_insert_Some]]%lookup_insert_Some;
      intros Hs; [by destruct Hs|done..].
  - intros t. simpl. rewrite !elem_of_cons, elem_of_nil. intros [->|[->|[]]].
    + by exists sleeper, (F_sleep 7).
    + by exists new_boy, (F_new 1 2 3).
  - by intros t ?%elem_of_nil.
Qed.

Lemma ex_mem budget :
  mem_inv (CpuHeap.blocks ex_blocks) ex_sleepers ex_zombies ex_runqueue
    (ex_threads_state budget) {[240 := 1]} [96] [] [48].
Proof.
  split; try done.
  - apply heap_owns_any, CpuHeap.of_blocks_owns; [apply ex_tcpu_running|apply ex_blocks_ok].
  - split; try done. apply (owned_elem _ _ _ _ ex_owned). left.
  - split; try done. apply (owned_elem _ _ _ _ ex_owned). right. left.
  - split; try done.
    intros k x Hk. pose proof (zlookup_lt_Some _ _ _ Hk) as Hlt. simpl in Hlt.
    assert (k = 0) as -> by lia. injection Hk as <-. reflexivity.
  - apply ex_owned.
Qed.

Lemma ex_thr budget : thr_inv (ex_threads_state budget) {[240 := 1]} [16] [96] [] [48].
Proof. eexists _, _, _, _. split; [apply ex_mem|apply ex_who]. Qed.

(** An address space that activates for free and is a heap block *)
Definition ex_activate (a : Z) : M (TH CpuHeap.t Z) () := mret tt.
Definition ex_destroy (a : Z) : M (TH CpuHeap.t Z) () := on_heap (kfree a).
Definition ex_reclaim : M VN Z := mret 0.
Definition ex_idle : M (TH CpuHeap.t Z) () := mret tt.

Lemma ex_activate_keeps : keeps_threads ex_activate.
Proof. intros a s m Hh Hr. unfold ex_activate. apply wp_ret. done. Qed.

Lemma ex_destroy_destroys : destroys_space ex_destroy.
Proof.
  intros a s m Hh Hr Ha. unfold ex_destroy. apply (th_kfree_ok _ _ m); [done..|].
  intros h' Hc Hh'. done.
Qed.

Lemma ex_cwd_wf : vnode_wf (set_refcount 2 ex_vnode).
Proof. destruct ex_vnode_wf. by split. Qed.

Lemma thread_fork_spec_witness :
  wp safe_oom (thread_fork ex_reclaim "child" 5 6 7 0) (ex_threads_state 9)
    (λ t s', thr_inv s' {[240 := 1]} [16] [96] [] [48; t] ∧ numthreads s'.2 = 4)
    (λ e s', e = ENOMEM ∧ thr_inv s' {[240 := 1]} [16] [96] [] [48]).
Proof.
  eapply wp_mono; [apply (thread_fork_spec ex_reclaim (ex_threads_state 9) {[240 := 1]} 16
    boot_thread [96] [] [48] "child" 5 6 7 0)|..].
  - apply ex_thr.
  - apply ex_tcpu_running.
  - reflexivity.
  - reflexivity.
  - intros _. exists (set_refcount 2 ex_vnode). split; [reflexivity|]. split; [apply ex_cwd_wf|].
    split; [reflexivity|split; discriminate].
  - split; [reflexivity|split; reflexivity].
  - split; reflexivity.
  - reflexivity.
  - intros t s' (Hi & _ & _ & _ & _ & Hn & _). split; [exact Hi|exact Hn].
  - intros e s' (He & Hi & _). split; [exact He|exact Hi].
Defined.

Lemma thread_yield_spec_witness :
  wp safe (thread_yield ex_activate ex_idle 0) (ex_threads_state 0)
    (λ ctl s', handed (at_splhigh (ex_threads_state 0)) {[240 := 1]} 16 (F_yield SPL_HIGH) 48 [96] []
       [16] ctl s') noerr.
Proof.
  eapply wp_mono; [apply (thread_yield_spec ex_activate ex_idle 0 (ex_threads_state 0) {[240 := 1]}
    16 [96] [] [48] 48 [16])|..].
  - apply ex_activate_keeps.
  - apply ex_thr.
  - apply ex_tcpu_running.
  - reflexivity.
  - reflexivity.
  - reflexivity.
  - intros ctl s' Hd. exact Hd.
  - done.
Defined.

Lemma thread_wakeup_spec_witness :
  wp safe (thread_wakeup 77) (ex_threads_state 0)
    (λ _ s', thr_inv s' {[240 := 1]} [16] [] [] [48; 96]) noerr.
Proof.
  eapply wp_mono; [apply (thread_wakeup_spec (ex_threads_state 0) {[240 := 1]} [16] [96] [] [48] 77)|..].
  - apply ex_thr.
  - reflexivity.
  - discriminate.
  - intros [] s' [Hi _]. exact Hi.
  - done.
Defined.

Lemma thread_exit_spec_witness :
  wp safe (thread_exit ex_activate ex_destroy ex_reclaim ex_idle 0) (ex_threads_state 0)
    (λ ctl s', ∃ s1, numthreads s1.2 = 2 ∧
       handed s1 (without 240 {[240 := 1]}) 16 F_exit 48 [96] [16] [] ctl s') noerr.
Proof.
  eapply wp_mono; [apply (thread_exit_spec ex_activate ex_destroy ex_reclaim ex_idle 0
    (ex_threads_state 0) {[240 := 1]} 16 boot_thread [96] [] 48 [])|..].
  - apply ex_activate_keeps.
  - apply ex_destroy_destroys.
  - apply ex_thr.
  - apply ex_tcpu_running.
  - reflexivity.
  - reflexivity.
  - intros _. exists 1. reflexivity.
  - intros _. exists (set_refcount 2 ex_vnode). split; [reflexivity|]. split; [apply ex_cwd_wf|].
    split; [reflexivity|split; discriminate].
  - reflexivity.
  - reflexivity.
  - intros ctl s' (s1 & _ & _ & Hn & _ & _ & _ & Hd). exists s1. split; [exact Hn|exact Hd].
  - done.
Defined.

Lemma ex_sched budget : sched_inv (ex_threads_state budget).
Proof.
  exists {[240 := 1]}, 16, [96], [], [48]. split; [apply ex_thr|]. split; [apply ex_tcpu_running|].
  split; [reflexivity|]. split; [|split; [reflexivity|split; discriminate]]. split.
  - intros t x. change (threads (ex_threads_state budget).2) with ex_threads. unfold ex_threads.
    intros [[<- <-]|[_ [[<- <-]|[_ [<- <-]%lookup_singleton_Some]]%lookup_insert_Some]]%lookup_insert_Some
      Hv; [by exists 1|done..].
  - intros t t' x x'. change (threads (ex_threads_state budget).2) with ex_threads. unfold ex_threads.
    intros [[<- <-]|[_ [[<- <-]|[_ [<- <-]%lookup_singleton_Some]]%lookup_insert_Some]]%lookup_insert_Some
      [[<- <-]|[_ [[<- <-]|[_ [<- <-]%lookup_singleton_Some]]%lookup_insert_Some]]%lookup_insert_Some; done.
Qed.

(** Waking the sleeper is a step. *)
Lemma threads_well_formed_witness :
  ∃ s', rtc (tstep ex_activate ex_destroy ex_reclaim ex_idle 0) (ex_threads_state 0) s' ∧ sched_inv s'.
Proof.
  destruct (thread_wakeup 77 (ex_threads_state 0)) as [[] s'|e s'|f|] eqn:Hrun.
  - assert (rtc (tstep ex_activate ex_destroy ex_reclaim ex_idle 0) (ex_threads_state 0) s') as Hs.
    { apply rtc_once. by apply (step_wakeup _ _ _ _ _ _ _ 77). }
    exists s'. split; [exact Hs|].
    exact (threads_well_formed ex_activate ex_destroy ex_reclaim ex_idle 0 (ex_threads_state 0) s'
      ex_activate_keeps ex_destroy_destroys (ex_sched 0) Hs).
  - vm_compute in Hrun. discriminate.
  - vm_compute in Hrun. discriminate.
  - vm_compute in Hrun. discriminate.
Defined.
