(* ===== verification/Synch.v ===== *)
(** * Semaphores, locks and condition variables

    Model of kern/thread/synch.c, and of kern/thread/hardclock.c, on the threads
    of Thread.v. A call that may sleep returns [None] when it completes in the
    calling thread, and [Some ctl] when the processor went to another thread,
    which goes on at [ctl]; what the sleeping thread still has to do is its [kont],
    and [continue] runs it once the thread is woken. *)

From Stdlib Require Import ZArith Lia.
From stdpp Require Import base list gmap numbers strings.
From S2P Require Import Prelude Cpu KMem HeapCpu Queue Array Vnode Thread.

Local Open Scope Z_scope.

(** What a thread does after [thread_sleep]: it goes round the loop of [P] or of
    [lock_acquire] (and then restores the interrupt levels [outer] of the callers),
    acquires the lock again in [cv_wait], or counts a second in [clocksleep]. *)
Inductive kont :=
  | In_P (sem spl : Z)
  | In_lock (lock spl : Z) (outer : list Z)
  | In_cv (cv lock spl : Z)
  | In_clock (num_secs spl : Z).

Record semaphore := MkSem { sem_name : Z * string; count : Z }.
Record lock := MkLock { lock_name : Z * string; owner : Z; lock_queue : Z * queue Z }.
Record cv := MkCv { cv_name : Z * string; cv_queue : Z * queue Z }.

(** The structures of synch.c, by address *)
Record synch := MkSynch {
  sems : gmap Z semaphore;
  locks : gmap Z lock;
  cvs : gmap Z cv;
  lbolt_counter : Z;
}.

Definition sizeof_semaphore : Z := 8.
Definition sizeof_lock : Z := 12.
Definition sizeof_cv : Z := 8.
Definition LOCK_QUEUE_INITIAL_SIZE : Z := 10.
Definition CV_QUEUE_INITIAL_SIZE : Z := 10.
Definition HZ : Z := 100.

Section operations.
Context {H : Type} `{!HasCpu H} `{!KHeap H}.
Context (as_activate : Z → M (TH H kont) ()) (cpu_idle : M (TH H kont) ()) (idle_fuel : nat).

Definition SY : Type := TH H kont * synch.

Definition on_threads {A} (m : M (TH H kont) A) : M SY A := zoom fst (λ t s, (t, s.2)) m.
Definition on_kmem {A} (m : M H A) : M SY A := on_threads (on_heap m).
Definition upd_synch (f : synch → synch) : M SY () := modify (λ s, (s.1, f s.2)).

Definition get_sem (p : Z) : M SY semaphore := s ← get; the (sems s.2 !! p).
Definition put_sem (p : Z) (x : semaphore) : M SY () :=
  upd_synch (λ y, MkSynch (<[p := x]> (sems y)) (locks y) (cvs y) (lbolt_counter y)).
Definition get_lock (p : Z) : M SY lock := s ← get; the (locks s.2 !! p).
Definition put_lock (p : Z) (x : lock) : M SY () :=
  upd_synch (λ y, MkSynch (sems y) (<[p := x]> (locks y)) (cvs y) (lbolt_counter y)).
Definition get_cv (p : Z) : M SY cv := s ← get; the (cvs s.2 !! p).
Definition put_cv (p : Z) (x : cv) : M SY () :=
  upd_synch (λ y, MkSynch (sems y) (locks y) (<[p := x]> (cvs y)) (lbolt_counter y)).

Definition set_owner (o : Z) (x : lock) : lock := MkLock (lock_name x) o (lock_queue x).
Definition set_lock_queue (q : queue Z) (x : lock) : lock :=
  MkLock (lock_name x) (owner x) ((lock_queue x).1, q).
Definition set_cv_queue (q : queue Z) (x : cv) : cv := MkCv (cv_name x) ((cv_queue x).1, q).

(** Operations on the queue of a lock or of a condition variable *)
Definition on_lock_queue {A} (p : Z) (m : M (H * queue Z) A) : M SY A :=
  x ← get_lock p;
  zoom (λ s, (s.1.1, (lock_queue x).2))
       (λ w s, ((w.1, s.1.2), MkSynch (sems s.2) (<[p := set_lock_queue w.2 x]> (locks s.2))
                                (cvs s.2) (lbolt_counter s.2))) m.
Definition on_cv_queue {A} (p : Z) (m : M (H * queue Z) A) : M SY A :=
  x ← get_cv p;
  zoom (λ s, (s.1.1, (cv_queue x).2))
       (λ w s, ((w.1, s.1.2), MkSynch (sems s.2) (locks s.2) (<[p := set_cv_queue w.2 x]> (cvs s.2))
                                (lbolt_counter s.2))) m.

Definition sleep (addr : Z) (k : kont) : M SY (option (control kont)) :=
  ctl ← on_threads (thread_sleep as_activate cpu_idle idle_fuel addr k);
  mret (Some ctl).

(** ** Semaphores *)

Definition sem_create (namearg : string) (initial_count : Z) : M SY Z :=
  assert (0 <=? initial_count);;
  sem ← on_kmem (kmalloc sizeof_semaphore);
  if sem =? 0 then mret 0 else
  nm ← on_kmem (kstrdup namearg);
  if nm.1 =? 0 then
    on_kmem (kfree sem);;
    mret 0
  else
    put_sem sem (MkSem nm initial_count);;
    mret sem.

Definition sem_destroy (sem : Z) : M SY () :=
  assert (negb (sem =? 0));;
  with_splhigh (
    b ← on_threads (thread_hassleepers sem);
    assert (negb b));;
  x ← get_sem sem;
  on_kmem (kfree (sem_name x).1);;
  on_kmem (kfree sem);;
  upd_synch (λ y, MkSynch (delete sem (sems y)) (locks y) (cvs y) (lbolt_counter y)).

(** One turn of the loop of [P], and what follows it *)
Definition P_loop (sem spl : Z) : M SY (option (control kont)) :=
  x ← get_sem sem;
  if count x =? 0 then sleep sem (In_P sem spl) else
  assert (0 <? count x);;
  put_sem sem (MkSem (sem_name x) (count x - 1));;
  _ ← splx spl;
  mret None.

Definition P (sem : Z) : M SY (option (control kont)) :=
  assert (negb (sem =? 0));;
  s ← get;
  assert (in_interrupt (cpu_of s) =? 0);;
  spl ← splhigh;
  P_loop sem spl.

(** [sem->count++] on an [int] *)
Definition V (sem : Z) : M SY () :=
  assert (negb (sem =? 0));;
  with_splhigh (
    x ← get_sem sem;
    put_sem sem (MkSem (sem_name x) (s32 (count x + 1)));;
    assert (0 <? s32 (count x + 1));;
    on_threads (thread_wakeup sem)).

(** ** Locks *)

Definition lock_create (name : string) : M SY Z :=
  lock ← on_kmem (kmalloc sizeof_lock);
  if lock =? 0 then mret 0 else
  nm ← on_kmem (kstrdup name);
  if nm.1 =? 0 then
    on_kmem (kfree lock);;
    mret 0
  else
    q ← on_kmem (q_create LOCK_QUEUE_INITIAL_SIZE);
    match q with
    | None => assert false;; mret 0
    | Some q =>
      put_lock lock (MkLock nm 0 q);;
      mret lock
    end.

Definition lock_destroy (lock : Z) : M SY () :=
  assert (negb (lock =? 0));;
  with_splhigh (
    x ← get_lock lock;
    assert (owner x =? 0);;
    assert (q_empty (lock_queue x).2));;
  x ← get_lock lock;
  on_kmem (kfree (lock_name x).1);;
  on_kmem (kfree lock);;
  upd_synch (λ y, MkSynch (sems y) (delete lock (locks y)) (cvs y) (lbolt_counter y)).

(** One turn of the loop of [lock_acquire], and what follows it; the result of
    [q_addtail] is ignored. *)
Definition acquire_loop (lock spl : Z) (outer : list Z) : M SY (option (control kont)) :=
  x ← get_lock lock;
  cur ← get_curthread;
  if negb (owner x =? 0) then
    _ ← try (on_lock_queue lock (q_addtail cur));
    sleep cur (In_lock lock spl outer)
  else
    put_lock lock (set_owner cur x);;
    _ ← splx spl;
    for_each outer (λ l, _ ← splx l; mret tt);;
    mret None.

(** [outer]: the levels its callers restore when it returns *)
Definition lock_acquire_in (lock : Z) (outer : list Z) : M SY (option (control kont)) :=
  x ← get_lock lock;
  cur ← get_curthread;
  assert (negb (owner x =? cur));;
  spl ← splhigh;
  acquire_loop lock spl outer.

Definition lock_acquire (lock : Z) : M SY (option (control kont)) := lock_acquire_in lock [].

Definition lock_do_i_hold (lock : Z) : M SY bool :=
  x ← get_lock lock;
  cur ← get_curthread;
  mret (owner x =? cur).

Definition lock_release (lock : Z) : M SY () :=
  b ← lock_do_i_hold lock;
  assert b;;
  with_splhigh (
    x ← get_lock lock;
    put_lock lock (set_owner 0 x);;
    when (negb (q_empty (lock_queue x).2))
      (t ← on_lock_queue lock q_remhead;
       on_threads (thread_wakeup t))).

(** ** Condition variables *)

Definition cv_create (name : string) : M SY Z :=
  cv ← on_kmem (kmalloc sizeof_cv);
  if cv =? 0 then mret 0 else
  nm ← on_kmem (kstrdup name);
  if nm.1 =? 0 then
    on_kmem (kfree cv);;
    mret 0
  else
    q ← on_kmem (q_create CV_QUEUE_INITIAL_SIZE);
    match q with
    | None => assert false;; mret 0
    | Some q =>
      put_cv cv (MkCv nm q);;
      mret cv
    end.

Definition cv_destroy (cv : Z) : M SY () :=
  assert (negb (cv =? 0));;
  with_splhigh (
    x ← get_cv cv;
    assert (q_empty (cv_queue x).2);;
    on_cv_queue cv (q_destroy (cv_queue x).1));;
  x ← get_cv cv;
  on_kmem (kfree (cv_name x).1);;
  on_kmem (kfree cv);;
  upd_synch (λ y, MkSynch (sems y) (locks y) (delete cv (cvs y)) (lbolt_counter y)).

Definition cv_wait (cv lock : Z) : M SY (option (control kont)) :=
  b ← lock_do_i_hold lock;
  assert b;;
  spl ← splhigh;
  lock_release lock;;
  cur ← get_curthread;
  _ ← try (on_cv_queue cv (q_addtail cur));
  sleep cur (In_cv cv lock spl).

Definition cv_signal (cv lock : Z) : M SY (option (control kont)) :=
  b ← lock_do_i_hold lock;
  assert b;;
  spl ← splhigh;
  lock_release lock;;
  x ← get_cv cv;
  when (negb (q_empty (cv_queue x).2))
    (t ← on_cv_queue cv q_remhead;
     on_threads (thread_wakeup t));;
  lock_acquire_in lock [spl].

(** A turn removes a thread from the queue. *)
Fixpoint wake_all (fuel : nat) (cv : Z) : M SY () :=
  x ← get_cv cv;
  if q_empty (cv_queue x).2 then mret tt else
  match fuel with
  | O => noreturn
  | S fuel =>
    t ← on_cv_queue cv q_remhead;
    on_threads (thread_wakeup t);;
    wake_all fuel cv
  end.

Definition cv_broadcast (cv lock : Z) : M SY (option (control kont)) :=
  b ← lock_do_i_hold lock;
  assert b;;
  spl ← splhigh;
  lock_release lock;;
  x ← get_cv cv;
  wake_all (Z.to_nat (size (cv_queue x).2)) cv;;
  lock_acquire_in lock [spl].

(** ** hardclock.c *)

(** [lbolt] is the address of the variable of that name. *)
Definition hardclock (lbolt : Z) : M SY (control kont) :=
  s ← get;
  upd_synch (λ y, MkSynch (sems y) (locks y) (cvs y) (lbolt_counter y + 1));;
  when (HZ <=? lbolt_counter s.2 + 1)
    (upd_synch (λ y, MkSynch (sems y) (locks y) (cvs y) 0);;
     on_threads (thread_wakeup lbolt));;
  on_threads (thread_yield as_activate cpu_idle idle_fuel).

(** One turn of the loop of [clocksleep], and what follows it *)
Definition clock_loop (lbolt num_secs spl : Z) : M SY (option (control kont)) :=
  if 0 <? num_secs then sleep lbolt (In_clock num_secs spl) else
  _ ← splx spl;
  mret None.

Definition clocksleep (lbolt num_secs : Z) : M SY (option (control kont)) :=
  s ← splhigh;
  clock_loop lbolt num_secs s.

(** What a woken thread does *)
Definition continue (lbolt : Z) (k : kont) : M SY (option (control kont)) :=
  match k with
  | In_P sem spl => P_loop sem spl
  | In_lock lock spl outer => acquire_loop lock spl outer
  | In_cv _ lock spl => lock_acquire_in lock [spl]
  | In_clock num_secs spl => clock_loop lbolt (num_secs - 1) spl
  end.
End operations.
Arguments SY H : clear implicits.
