(* ===== verification/SynchSched.v ===== *)
(** * The threads as synch.c sees them

    For synchronisation only this matters of the thread system: which threads
    sleep, and in which call of synch.c ([slp]); which are ready, and where they go
    on ([rdy]); and which one runs. [sched t rest cur slp rdy] relates that view to
    the state of thread.c, and the lemmas say what [thread_sleep], [thread_wakeup]
    and [thread_yield] do to it. *)

From Stdlib Require Import ZArith Lia.
From stdpp Require Import base list gmap numbers strings.
From S2P Require Import Prelude Cpu KMem HeapCpu Array Queue Vnode.
From S2P Require Import Thread ThreadProof ThreadSwitch ThreadSpec ThreadTheorems Synch.

Local Open Scope Z_scope.

(** The address thread [t] sleeps on: the semaphore, or its own structure. The
    threads in [clocksleep] are not considered here. *)
Definition sleep_addr (t : Z) (k : kont) : option Z :=
  match k with
  | In_P sem _ => Some sem
  | In_lock _ _ _ | In_cv _ _ _ => Some t
  | In_clock _ _ => None
  end.

(** The thread that runs has [k] to do before anything else. *)
Definition pending (fr : frame kont) : option kont :=
  match fr with F_sleep k => Some k | _ => None end.
Definition pending_of (r : option (control kont)) : option kont :=
  match r with Some (Woken k) => Some k | _ => None end.

Definition wakes (addr : Z) (tk : Z * kont) : Prop := sleep_addr tk.1 tk.2 = Some addr.
#[global] Instance wakes_dec addr tk : Decision (wakes addr tk).
Proof. unfold wakes. apply _. Defined.

(** [slp] and [rdy] after [thread_wakeup(addr)] *)
Definition still_asleep (addr : Z) (slp : gmap Z kont) : gmap Z kont :=
  filter (λ tk, ¬ wakes addr tk) slp.
Definition woken_up (addr : Z) (slp : gmap Z kont) (rdy : gmap Z (frame kont)) : gmap Z (frame kont) :=
  (F_sleep <$> filter (wakes addr) slp) ∪ rdy.

Record sview (sl rq : list Z) (ts : gmap Z (thread kont)) (slp : gmap Z kont)
    (rdy : gmap Z (frame kont)) : Prop := {
  sv_slp t k : slp !! t = Some k ↔ t ∈ sl ∧ ∃ x, ts !! t = Some x ∧
    pcb_frame x = Some (F_sleep k) ∧ sleep_addr t k = Some (t_sleepaddr x);
  sv_all t : t ∈ sl → is_Some (slp !! t);
  sv_rdy t f : rdy !! t = Some f ↔ t ∈ rq ∧ ∃ x, ts !! t = Some x ∧ pcb_frame x = Some f;
}.

Section view.
Context {H : Type} `{!HasCpu H} `{!KHeap H} `{!KHeapLaws H} `{!KHeapCpu H}.
Implicit Types (s : TH H kont) (ts : gmap Z (thread kont)) (rest : gmap Z Z).
Implicit Types (slp : gmap Z kont) (rdy : gmap Z (frame kont)).

Record sys s rest cur (sl zb rq : list Z) slp rdy : Prop := {
  sy_thr : thr_inv s rest [cur] sl zb rq;
  sy_run : running (cpu_of s.1);
  sy_cur : curthread (cpu_of s.1) = cur;
  sy_num : numthreads s.2 = 1 + Z.of_nat (length sl + length rq);
  sy_sroom : numthreads s.2 ≤ sleep_room s.2;
  sy_rroom : numthreads s.2 ≤ ready_room s.2 + 1;
  sy_view : sview sl rq (threads s.2) slp rdy;
}.

Definition sched s rest cur slp rdy : Prop := ∃ sl zb rq, sys s rest cur sl zb rq slp rdy.

(** ** What the view says *)

Lemma sys_lists s rest cur sl zb rq slp rdy :
  sys s rest cur sl zb rq slp rdy →
  (∀ t, is_Some (slp !! t) ↔ t ∈ sl) ∧ (∀ t, is_Some (rdy !! t) ↔ t ∈ rq) ∧
  cur ∉ sl ∧ cur ∉ rq ∧ (∀ t, t ∈ sl → t ∉ rq) ∧ NoDup sl ∧ NoDup rq.
Proof.
  intros [(m & A & B & R & _ & [Hn _ _ Hw _]) _ _ _ _ _ [Hs Ha Hr]].
  split; [|split; [|set_unfold; simpl in Hn]].
  - intros t. split; [intros [k [? _]%Hs]; done|apply Ha].
  - intros t. split; [intros [f [? _]%Hr]; done|]. intros Ht.
    destruct (Hw t) as (x & fr & Hx & Hf & _); [apply elem_of_app; by right|].
    exists fr. apply Hr. eauto.
  - apply NoDup_cons in Hn as [Hc Hn]. rewrite !NoDup_app in Hn. set_solver.
Qed.

(** Sleeping, ready and running threads are blocks of the thread system. *)
Lemma sys_apart s rest cur sl zb rq slp rdy t :
  sys s rest cur sl zb rq slp rdy → t = cur ∨ t ∈ sl ∨ t ∈ rq → rest !! t = None ∧ t ≠ 0.
Proof.
  intros [(m & A & B & R & Hm & Hwho) _ _ _ _ _ _] Ht.
  assert (is_Some (threads s.2 !! t)) as [x Hx].
  { apply (wi_dom _ _ _ _ _ Hwho). rewrite !elem_of_app, list_elem_of_singleton. tauto. }
  destruct (thread_live _ _ _ _ _ _ _ _ _ _ _ Hm Hx) as [_ H0]. split; [|done].
  destruct Hm as [_ _ _ _ _ _ _ Ho]. apply (ow_apart _ _ _ Ho). unfold sys_blocks.
  rewrite !elem_of_app, !elem_of_cons. do 6 right. by eapply thread_blocks_elem.
Qed.

(** ** Handing over the processor *)

(** A thread that is not part of the switch waits where it did. *)
Lemma handed_others s rest cur fr next sl' zb' rq' ctl s' t (Q : option (frame kont) → Z → Prop) :
  handed s rest cur fr next sl' zb' rq' ctl s' → t ≠ cur → t ≠ next → t ∉ zb' →
  (∃ x, threads s.2 !! t = Some x ∧ Q (pcb_frame x) (t_sleepaddr x)) ↔
  (∃ x, threads s'.2 !! t = Some x ∧ Q (pcb_frame x) (t_sleepaddr x)).
Proof.
  intros [_ _ _ Hsame Hkept _ _ _] Hc Hn Hz. split.
  - intros (x & Hx & HQ). destruct (Hkept t Hz) as [x' Hx']; [by eexists|].
    destruct (Hsame t x' Hx') as (y & Hy & _ & Hsl & Hf). simplify_eq.
    exists x'. split; [done|]. by rewrite Hf, Hsl.
  - intros (x' & Hx' & HQ). destruct (Hsame t x' Hx') as (y & Hy & _ & Hsl & Hf).
    exists y. split; [done|]. by rewrite <- Hf, <- Hsl.
Qed.

Lemma sview_slp_iff sl rq ts slp rdy t k :
  sview sl rq ts slp rdy → slp !! t = Some k ↔ t ∈ sl ∧ ∃ x, ts !! t = Some x ∧
    (λ f a, f = Some (F_sleep k) ∧ sleep_addr t k = Some a) (pcb_frame x) (t_sleepaddr x).
Proof. intros Hv. apply (sv_slp _ _ _ _ _ Hv). Qed.

Lemma sview_rdy_iff sl rq ts slp rdy t f :
  sview sl rq ts slp rdy → rdy !! t = Some f ↔ t ∈ rq ∧ ∃ x, ts !! t = Some x ∧
    (λ g (_ : Z), g = Some f) (pcb_frame x) (t_sleepaddr x).
Proof. intros Hv. apply (sv_rdy _ _ _ _ _ Hv). Qed.

(** The zombies are none of the others. *)
Lemma who_zombie_apart ts (cs sl zb rq : list Z) t :
  who_inv ts cs sl zb rq → t ∈ cs ++ sl ++ rq → t ∉ zb.
Proof.
  intros [Hn _ _ _ _] Ht Hz. rewrite !NoDup_app in Hn. rewrite !elem_of_app in Ht. set_solver.
Qed.

(** The view after the thread [cur] went to sleep in [k] *)
Lemma sview_sleep s s' rest cur x addr k next sl zb rq slp rdy ctl :
  sys s rest cur sl zb (next :: rq) slp rdy → threads s.2 !! cur = Some x →
  sleep_addr cur k = Some addr →
  handed (s.1, set_threads (<[cur := set_sleepaddr addr x]> (threads s.2)) s.2) rest cur
    (F_sleep k) next (sl ++ [cur]) zb rq ctl s' →
  sview (sl ++ [cur]) rq (threads s'.2) (<[cur := k]> slp) (delete next rdy).
Proof.
  intros Hsys Hx Ha Hd. pose proof (sys_lists _ _ _ _ _ _ _ _ Hsys) as (_ & _ & Hcs & Hcr & Hdis & _ & Hnr).
  pose proof Hsys as [(m & A & B & R & _ & Hwho) _ _ _ _ _ Hv].
  apply not_elem_of_cons in Hcr as [Hcn Hcr]. apply NoDup_cons in Hnr as [Hnr _].
  assert (∀ t, t ∈ sl → t ∉ zb) as Hzs by (intros t Ht; eapply who_zombie_apart; [done|set_solver]).
  assert (∀ t, t ∈ rq → t ∉ zb) as Hzr by (intros t Ht; eapply who_zombie_apart; [done|set_solver]).
  assert (cur ∉ zb) as Hzc by (eapply who_zombie_apart; [done|set_solver]).
  assert (∀ t (Q : option (frame kont) → Z → Prop), t ≠ cur → t ≠ next → t ∉ zb →
    (∃ x, threads s.2 !! t = Some x ∧ Q (pcb_frame x) (t_sleepaddr x)) ↔
    (∃ x, threads s'.2 !! t = Some x ∧ Q (pcb_frame x) (t_sleepaddr x))) as Hoth.
  { intros t Q Hc Hn Hz. rewrite <- (handed_others _ _ _ _ _ _ _ _ _ _ t Q Hd Hc Hn Hz).
    cbn [snd threads set_threads]. by rewrite lookup_insert_ne. }
  pose proof (λ t k, Hoth t (λ f a, f = Some (F_sleep k) ∧ sleep_addr t k = Some a)) as HothS.
  pose proof (λ t f, Hoth t (λ g _, g = Some f)) as HothR. cbv beta in HothS, HothR.
  assert (∃ x', threads s'.2 !! cur = Some x' ∧ pcb_frame x' = Some (F_sleep k) ∧ t_sleepaddr x' = addr)
    as (xc & Hxc & Hfc & Hac).
  { destruct (hd_saved _ _ _ _ _ _ _ _ _ _ Hd) as (x' & Hx' & Hf); [done|done|].
    destruct (hd_same _ _ _ _ _ _ _ _ _ _ Hd cur x' Hx') as (y & Hy & _ & Hsl & _).
    cbn [snd threads set_threads] in Hy. rewrite lookup_insert_eq in Hy. simplify_eq.
    exists x'. split; [done|]. split; [done|]. by rewrite Hsl. }
  split.
  - intros t k'. destruct (decide (t = cur)) as [->|Htc].
    + rewrite lookup_insert_eq. split.
      * intros [= <-]. split; [set_solver|]. exists xc. by rewrite Hac.
      * intros [_ (y & Hy & Hf & _)]. congruence.
    + rewrite lookup_insert_ne by done. rewrite (sview_slp_iff _ _ _ _ _ _ _ Hv).
      rewrite elem_of_app, list_elem_of_singleton. split.
      * intros [Hin He]. split; [by left|]. by apply (HothS t k'); [|set_solver|auto|].
      * intros [[Hin|?] He]; [|done]. split; [done|]. by apply (HothS t k'); [|set_solver|auto|].
  - intros t [Hin| ->%list_elem_of_singleton]%elem_of_app.
    + destruct (decide (t = cur)) as [->|]; [rewrite lookup_insert_eq; by eexists|].
      rewrite lookup_insert_ne by done. by apply (sv_all _ _ _ _ _ Hv).
    + rewrite lookup_insert_eq. by eexists.
  - intros t f. destruct (decide (t = next)) as [->|Htn].
    + rewrite lookup_delete_eq. split; [done|]. intros [? _]. done.
    + rewrite lookup_delete_ne by done. rewrite (sview_rdy_iff _ _ _ _ _ _ _ Hv), elem_of_cons. split.
      * intros [[?|Hin] He]; [done|]. split; [done|]. by apply (HothR t f); [set_solver| |auto|].
      * intros [Hin He]. split; [by right|]. by apply (HothR t f); [set_solver| |auto|].
Qed.

(** The view after [thread_yield] *)
Lemma sview_yield s s' rest cur spl next sl zb rq rq' slp rdy ctl :
  sys s rest cur sl zb rq slp rdy → rq ++ [cur] = next :: rq' →
  handed (at_splhigh s) rest cur (F_yield spl) next sl zb rq' ctl s' →
  sview sl rq' (threads s'.2) slp (delete next (<[cur := F_yield spl]> rdy)).
Proof.
  intros Hsys Hrq Hd. pose proof (sys_lists _ _ _ _ _ _ _ _ Hsys) as (_ & _ & Hcs & Hcr & Hdis & _ & Hnr).
  pose proof Hsys as [(m & A & B & R & _ & Hwho) _ _ _ _ _ Hv].
  assert (NoDup (next :: rq')) as [Hnr' _]%NoDup_cons.
  { rewrite <- Hrq. apply NoDup_app. split; [done|]. split; [set_solver|]. apply NoDup_singleton. }
  assert (∀ t, t ∈ next :: rq' ↔ t ∈ rq ∨ t = cur) as Hin.
  { intros t. rewrite <- Hrq, elem_of_app, list_elem_of_singleton. done. }
  setoid_rewrite elem_of_cons in Hin.
  assert (next ∉ sl) as Hns.
  { intros Hn. destruct (proj1 (Hin next)) as [?| ->]; [by left|set_solver|done]. }
  assert (∀ t, t ∈ sl → t ∉ zb) as Hzs by (intros t Ht; eapply who_zombie_apart; [done|set_solver]).
  assert (∀ t, t ∈ rq → t ∉ zb) as Hzr by (intros t Ht; eapply who_zombie_apart; [done|set_solver]).
  assert (cur ∉ zb) as Hzc by (eapply who_zombie_apart; [done|set_solver]).
  assert (∀ t (Q : option (frame kont) → Z → Prop), t ≠ cur → t ≠ next → t ∉ zb →
    (∃ x, threads s.2 !! t = Some x ∧ Q (pcb_frame x) (t_sleepaddr x)) ↔
    (∃ x, threads s'.2 !! t = Some x ∧ Q (pcb_frame x) (t_sleepaddr x))) as Hoth.
  { intros t Q Hc Hn Hz. exact (handed_others _ _ _ _ _ _ _ _ _ _ t Q Hd Hc Hn Hz). }
  pose proof (λ t k, Hoth t (λ f a, f = Some (F_sleep k) ∧ sleep_addr t k = Some a)) as HothS.
  pose proof (λ t f, Hoth t (λ g _, g = Some f)) as HothR. cbv beta in HothS, HothR.
  split.
  - intros t k. rewrite (sview_slp_iff _ _ _ _ _ _ _ Hv). cbv beta. split.
    + intros [Ht He]. split; [done|]. apply (HothS t k); try done; [set_solver..|auto].
    + intros [Ht He]. split; [done|]. apply (HothS t k); try done; [set_solver..|auto].
  - apply (sv_all _ _ _ _ _ Hv).
  - intros t f. destruct (decide (t = next)) as [->|Htn].
    { rewrite lookup_delete_eq. split; [done|]. intros [? _]. done. }
    rewrite lookup_delete_ne by done. destruct (decide (t = cur)) as [->|Htc].
    + rewrite lookup_insert_eq. destruct (hd_saved _ _ _ _ _ _ _ _ _ _ Hd) as (x' & Hx' & Hf); [done|done|].
      split.
      * intros [= <-]. split; [|by exists x']. destruct (proj2 (Hin cur)) as [?|?]; [by right|done|done].
      * intros [_ (y & Hy & Hfy)]. congruence.
    + rewrite lookup_insert_ne by done. rewrite (sview_rdy_iff _ _ _ _ _ _ _ Hv). cbv beta.
      destruct (Hin t) as [Hin1 Hin2]. split.
      * intros [Ht He]. split; [destruct Hin2; [by left|done|done]|]. by apply (HothR t f); [| |auto|].
      * intros [Ht He]. assert (t ∈ rq) by (destruct Hin1; [by right|done|done]).
        split; [done|]. by apply (HothR t f); [| |auto|].
Qed.

(** The view after [thread_wakeup] *)
Lemma sview_wake sl rq ts slp rdy addr :
  sview sl rq ts slp rdy → (∀ t, t ∈ sl → t ∉ rq) →
  sview (filter (λ t, ¬ sleeps_on ts addr t) sl) (rq ++ filter (λ t, sleeps_on ts addr t) sl) ts
    (still_asleep addr slp) (woken_up addr slp rdy).
Proof.
  intros Hv Hdis. pose proof Hv as [Hs Ha Hr].
  assert (∀ t k, slp !! t = Some k → sleeps_on ts addr t ↔ wakes addr (t, k)) as Hon.
  { intros t k (_ & x & Hx & _ & Hadr)%Hs. unfold sleeps_on, wakes. rewrite Hx. cbn [fst snd].
    rewrite Hadr. rewrite Is_true_true, Z.eqb_eq. split; [by intros ->|by intros [=]]. }
  split.
  - intros t k. unfold still_asleep. rewrite map_lookup_filter_Some, list_elem_of_filter. split.
    + intros [Hk Hw]. pose proof Hk as [Ht He]%Hs. split; [split; [by rewrite (Hon t k)|done]|done].
    + intros [[Hn Ht] He]. assert (slp !! t = Some k) as Hk by (by apply Hs).
      split; [done|]. by rewrite <- (Hon t k).
  - intros t [Hn Ht]%list_elem_of_filter. destruct (Ha t Ht) as [k Hk]. exists k.
    unfold still_asleep. apply map_lookup_filter_Some. split; [done|]. by rewrite <- (Hon t k).
  - intros t f. unfold woken_up. rewrite lookup_union_Some_raw, elem_of_app, list_elem_of_filter.
    rewrite lookup_fmap. split.
    + intros [He|[_ Hf]].
      * destruct (filter (wakes addr) slp !! t) as [k|] eqn:Hk; [|done]. simplify_eq/=.
        apply map_lookup_filter_Some in Hk as [Hk Hw]. pose proof Hk as (Ht & x & Hx & Hfx & _)%Hs.
        split; [right; split; [by apply (Hon t k)|done]|by exists x].
      * apply Hr in Hf as [Ht He]. split; [by left|done].
    + intros [[Ht|[Hw Ht]] (x & Hx & Hf)].
      * right. split; [|apply Hr; eauto]. apply fmap_None, map_lookup_filter_None. left.
        destruct (slp !! t) as [k|] eqn:Hk; [|done]. apply Hs in Hk as [Ht' _]. by destruct (Hdis t).
      * left. destruct (Ha t Ht) as [k Hk]. pose proof Hk as (_ & y & Hy & Hfy & _)%Hs. simplify_eq.
        assert (filter (wakes addr) slp !! t = Some k) as ->; [|done].
        apply map_lookup_filter_Some. split; [done|]. by apply (Hon t k).
Qed.
End view.

(** ** The operations of thread.c *)
Section ops.
Context {H : Type} `{!HasCpu H} `{!KHeap H} `{!KHeapLaws H} `{!KHeapCpu H}.
Context (as_activate : Z → M (TH H kont) ()) (cpu_idle : M (TH H kont) ()) (idle_fuel : nat).
Implicit Types (s : TH H kont) (rest : gmap Z Z).
Implicit Types (slp : gmap Z kont) (rdy : gmap Z (frame kont)).

Lemma sys_current s rest cur sl zb rq slp rdy :
  sys s rest cur sl zb rq slp rdy → ∃ x, threads s.2 !! cur = Some x.
Proof.
  intros [(m & A & B & R & Hm & Hwho) _ _ _ _ _ _]. by eapply current_thread.
Qed.

Lemma handed_sys s rest cur fr next sl zb rq ctl s' slp rdy :
  handed s rest cur fr next sl zb rq ctl s' → sview sl rq (threads s'.2) slp rdy →
  numthreads s.2 = 1 + Z.of_nat (length sl + length rq) → numthreads s.2 ≤ sleep_room s.2 →
  numthreads s.2 ≤ ready_room s.2 + 1 → sched s' rest next slp rdy.
Proof.
  intros [(fr' & _ & _ & _ & Hinv) [Hrun Hcur] _ _ _ [Hrs Hrr] Hnum _] Hv Hn Hs Hr.
  exists sl, (zombies_after fr' zb), rq. split; rewrite ?Hnum, ?Hrs, ?Hrr; done.
Qed.

Lemma thread_sleep_sched s rest cur slp rdy addr k :
  keeps_threads as_activate → sched s rest cur slp rdy → 0 < curspl (cpu_of s.1) →
  in_interrupt (cpu_of s.1) = 0 → rdy ≠ ∅ → sleep_addr cur k = Some addr →
  wp safe (thread_sleep as_activate cpu_idle idle_fuel addr k) s
    (λ ctl s', ∃ next f, rdy !! next = Some f ∧ ctl_of f = Some ctl ∧
       sched s' rest next (<[cur := k]> slp) (delete next rdy) ∧
       curspl (cpu_of s'.1) = spl_of f (curspl (cpu_of s.1))) noerr.
Proof.
  intros Hact (sl & zb & rq & Hsys) Hspl Hint Hne Ha.
  destruct (sys_current _ _ _ _ _ _ _ _ Hsys) as [x Hx].
  pose proof (sys_lists _ _ _ _ _ _ _ _ Hsys) as (_ & Hrq & Hcs & Hcr & _).
  pose proof Hsys as [Hthr Hrun Hcur Hn Hsr Hrr Hv].
  destruct rq as [|next rq].
  { destruct Hne. apply map_empty. intros t. apply eq_None_not_Some. rewrite Hrq. by intros ?%elem_of_nil. }
  simpl in Hn. apply not_elem_of_cons in Hcr as [Hcn Hcr].
  eapply wp_mono; [apply (thread_sleep_ok as_activate cpu_idle idle_fuel s rest cur x sl zb next rq);
    try done; lia| |done]. cbv zeta.
  intros ctl s' Hd. pose proof (hd_frame _ _ _ _ _ _ _ _ _ _ Hd) as (f & Hf & Hctl & Hl & _).
  exists next, f. split; [|split; [done|split; [|done]]].
  - apply (sv_rdy _ _ _ _ _ Hv). split; [left|]. unfold next_frame in Hf. rewrite decide_False in Hf by done.
    cbn [snd threads set_threads] in Hf. rewrite lookup_insert_ne in Hf by done.
    destruct (threads s.2 !! next) as [y|]; [by exists y|done].
  - eapply handed_sys; [exact Hd|by eapply sview_sleep|..]; cbn [snd numthreads set_threads]; try done.
    rewrite length_app. simpl. lia.
Qed.

Lemma thread_wakeup_sched s rest cur slp rdy addr :
  sched s rest cur slp rdy → 0 < curspl (cpu_of s.1) →
  wp safe (thread_wakeup addr) s
    (λ _ s', s'.1 = s.1 ∧ sched s' rest cur (still_asleep addr slp) (woken_up addr slp rdy)) noerr.
Proof.
  intros (sl & zb & rq & Hsys) Hspl. pose proof Hsys as [Hthr Hrun Hcur Hn Hsr Hrr Hv].
  pose proof (sys_lists _ _ _ _ _ _ _ _ Hsys) as (_ & _ & _ & _ & Hdis & _).
  eapply wp_mono; [apply (thread_wakeup_ok s rest [cur] sl zb rq); [done..|lia]| |done].
  intros _ s' (Hinv & Hh & (Hts & _ & Hn' & _) & Hs' & Hr'). split; [done|].
  eexists _, zb, _. split; rewrite ?Hh, ?Hn', ?Hs', ?Hr'; try done.
  - rewrite length_app, Hn. do 2 f_equal. pose proof (filter_lengths (sleeps_on (threads s.2) addr) sl). lia.
  - rewrite Hts. by apply sview_wake.
Qed.

Lemma thread_yield_sched s rest cur slp rdy :
  keeps_threads as_activate → sched s rest cur slp rdy → ready_count s.2 < ready_room s.2 →
  wp safe (thread_yield as_activate cpu_idle idle_fuel) s
    (λ ctl s', ∃ next f, <[cur := F_yield (curspl (cpu_of s.1))]> rdy !! next = Some f ∧
       ctl_of f = Some ctl ∧
       sched s' rest next slp (delete next (<[cur := F_yield (curspl (cpu_of s.1))]> rdy)) ∧
       curspl (cpu_of s'.1) = spl_of f SPL_HIGH) noerr.
Proof.
  intros Hact (sl & zb & rq & Hsys) Hroom. pose proof Hsys as [Hthr Hrun Hcur Hn Hsr Hrr Hv].
  pose proof (sys_lists _ _ _ _ _ _ _ _ Hsys) as (_ & Hrq & Hcs & Hcr & _).
  pose proof Hthr as (m & A & B & R & Hm & Hwho).
  destruct (mem_counts _ _ _ _ _ _ _ _ _ Hm) as [Hrc _]. rewrite Hrc in Hroom.
  destruct (rotate cur rq) as (next & rq' & Hrot).
  eapply wp_mono; [by apply (thread_yield_ok as_activate cpu_idle idle_fuel s rest cur sl zb rq next rq')| |done].
  intros ctl s' Hd. pose proof (hd_frame _ _ _ _ _ _ _ _ _ _ Hd) as (f & Hf & Hctl & Hl & _).
  exists next, f. split; [|split; [done|split]].
  - unfold next_frame in Hf. case_decide as He; [subst next; by rewrite lookup_insert_eq|].
    rewrite lookup_insert_ne by done. apply (sv_rdy _ _ _ _ _ Hv).
    change (threads (at_splhigh s).2) with (threads s.2) in Hf.
    destruct (threads s.2 !! next) as [y|] eqn:Hy; [|done]. split; [|by exists y].
    assert (next ∈ rq ++ [cur]) as [?| ->%list_elem_of_singleton]%elem_of_app by (rewrite Hrot; left); done.
  - eapply handed_sys; [exact Hd|by eapply sview_yield|..]; try done.
    change (numthreads s.2 = 1 + Z.of_nat (length sl + length rq')). rewrite Hn.
    apply (f_equal length) in Hrot. rewrite length_app in Hrot. simpl in Hrot. lia.
  - rewrite Hl. unfold at_splhigh. cbn [fst]. by rewrite cpu_of_set, curspl_spl_set.
Qed.

(** Raising and restoring the interrupt level *)
Lemma sched_cpu s rest cur slp rdy n :
  sched s rest cur slp rdy → 0 ≤ n →
  sched (set_cpu (spl_set n (cpu_of s.1)) s.1, s.2) rest cur slp rdy.
Proof.
  intros (sl & zb & rq & [(m & A & B & R & Hm & Hwho) Hrun Hcur Hn Hsr Hrr Hv]) H0.
  exists sl, zb, rq. split; cbn [fst snd]; rewrite ?cpu_of_set, ?curthread_spl_set; try done.
  - exists m, A, B, R. split; [|done]. by apply (mem_inv_cpu m A B R s).
  - by apply running_spl.
Qed.
End ops.
