(* ===== verification/SynchInv.v ===== *)
(** * The invariant of synch.c

    On the view [slp], [rdy], [cur] of SynchSched.v, what ties the semaphores, locks
    and condition variables to the threads that wait for them, and how the elementary
    changes of synch.c preserve it. *)

From Stdlib Require Import ZArith Lia.
From stdpp Require Import base list gmap numbers strings.
From S2P Require Import Prelude Cpu KMem Queue Thread Synch SynchSched.

Local Open Scope Z_scope.

Implicit Types (y : synch) (slp : gmap Z kont) (rdy : gmap Z (frame kont)) (rest : gmap Z Z).
Implicit Types (cur p t : Z) (pend : option kont) (ql : list Z).

(** The lock exists, and thread [t] does not hold it. *)
Definition can_take y t p : Prop := t ≠ 0 ∧ ∃ x, locks y !! p = Some x ∧ owner x ≠ t.

(** What thread [t] has yet to do is about structures that exist, about a lock it
    does not hold, and restores levels that exist. *)
Definition kont_ok y t (k : kont) : Prop :=
  match k with
  | In_P sem spl => is_Some (sems y !! sem) ∧ 0 ≤ spl
  | In_lock lock spl outer => can_take y t lock ∧ 0 ≤ spl ∧ Forall (λ n, 0 ≤ n) outer
  | In_cv _ lock spl => can_take y t lock ∧ 0 ≤ spl
  | In_clock _ _ => False
  end.

(** A thread that is about to test the lock [p] again is ready, or runs. *)
Definition coming rdy pend p : Prop :=
  (∃ t spl outer, rdy !! t = Some (F_sleep (In_lock p spl outer))) ∨
  (∃ spl outer, pend = Some (In_lock p spl outer)).

Definition alive slp rdy cur t : Prop := t = cur ∨ is_Some (slp !! t) ∨ is_Some (rdy !! t).

(** The queue holds exactly the threads asleep in [lock_acquire]; if there are any,
    a living thread holds the lock or one of those it woke is coming. *)
Record lock_ok slp rdy rest cur pend p (x : lock) ql : Prop := {
  lo_queue : queue_rep rest (lock_queue x).2 ql;
  lo_nodup : NoDup ql;
  lo_waiters t : t ∈ ql ↔ ∃ spl outer, slp !! t = Some (In_lock p spl outer);
  lo_coming : owner x = 0 → ql ≠ [] → coming rdy pend p;
  lo_alive : owner x ≠ 0 → alive slp rdy cur (owner x);
}.

Record cv_ok slp rest p (x : cv) ql : Prop := {
  co_queue : queue_rep rest (cv_queue x).2 ql;
  co_nodup : NoDup ql;
  co_waiters t : t ∈ ql ↔ ∃ lock spl, slp !! t = Some (In_cv p lock spl);
}.

(** No thread sleeps in [P] on a semaphore whose count is positive. *)
Record sem_ok slp rest p (x : semaphore) : Prop := {
  se_block : is_Some (rest !! p);
  se_count : 0 ≤ count x < 2 ^ 31;
  se_idle : 0 < count x → ∀ t spl, slp !! t ≠ Some (In_P p spl);
}.

Record sync_ok y slp rdy rest cur pend : Prop := {
  so_sem p x : sems y !! p = Some x → sem_ok slp rest p x;
  so_lock p x : locks y !! p = Some x → ∃ ql, lock_ok slp rdy rest cur pend p x ql;
  so_cv p x : cvs y !! p = Some x → ∃ ql, cv_ok slp rest p x ql;
  so_slp t k : slp !! t = Some k → kont_ok y t k;
  so_rdy t k : rdy !! t = Some (F_sleep k) → kont_ok y t k;
  so_pend k : pend = Some k → kont_ok y cur k;
}.

(** [pend] can only be about the lock [p]. *)
Definition only_lock p pend : Prop := ∀ p' spl outer, pend = Some (In_lock p' spl outer) → p' = p.

(** The structures of [y] are still there in [y'], and no lock was taken. *)
Definition grows y y' : Prop :=
  (∀ p, is_Some (sems y !! p) → is_Some (sems y' !! p)) ∧
  (∀ p x, locks y !! p = Some x →
     ∃ x', locks y' !! p = Some x' ∧ (owner x' = owner x ∨ owner x' = 0)).

Lemma can_take_grows y y' t p : grows y y' → can_take y t p → can_take y' t p.
Proof.
  intros [_ Hl] (H0 & x & Hx & Ho). split; [done|]. destruct (Hl p x Hx) as (x' & Hx' & Hor).
  exists x'. split; [done|]. destruct Hor; congruence.
Qed.

Lemma kont_ok_grows y y' t k : grows y y' → kont_ok y t k → kont_ok y' t k.
Proof.
  intros Hg. pose proof (can_take_grows y y' t) as Hc. pose proof (proj1 Hg). destruct k; simpl; naive_solver.
Qed.

Definition with_sem p (x : semaphore) y : synch :=
  MkSynch (<[p := x]> (sems y)) (locks y) (cvs y) (lbolt_counter y).
Definition with_lock p (x : lock) y : synch :=
  MkSynch (sems y) (<[p := x]> (locks y)) (cvs y) (lbolt_counter y).
Definition with_cv p (x : cv) y : synch :=
  MkSynch (sems y) (locks y) (<[p := x]> (cvs y)) (lbolt_counter y).

Lemma grows_refl y : grows y y.
Proof. split; [done|]. intros p x Hx. eauto. Qed.
Lemma grows_sem p x y : grows y (with_sem p x y).
Proof.
  split; [|intros q z Hz; eauto]. intros q Hq. cbn. rewrite lookup_insert_is_Some'. by right.
Qed.
Lemma grows_lock p x x' y :
  locks y !! p = Some x → owner x' = owner x ∨ owner x' = 0 → grows y (with_lock p x' y).
Proof.
  intros Hx Ho. split; [done|]. intros q z Hz. cbn [locks with_lock].
  destruct (decide (q = p)) as [->|].
  - exists x'. rewrite lookup_insert_eq. by simplify_eq.
  - exists z. rewrite lookup_insert_ne by done. auto.
Qed.
Lemma grows_cv p x y : grows y (with_cv p x y).
Proof. split; [done|]. intros q z Hz. eauto. Qed.
#[export] Hint Resolve grows_refl grows_sem grows_cv : synch.

(** Another thread than [t] takes the lock. *)
Lemma kont_ok_taken y t k p x cur :
  t ≠ cur → kont_ok y t k → kont_ok (with_lock p (set_owner cur x) y) t k.
Proof.
  intros Hne. assert (∀ q, can_take y t q → can_take (with_lock p (set_owner cur x) y) t q) as Hc.
  { intros q (H0 & z & Hz & Ho). split; [done|]. cbn [locks with_lock]. destruct (decide (q = p)) as [->|].
    - exists (set_owner cur x). rewrite lookup_insert_eq. split; [done|]. simpl. congruence.
    - exists z. by rewrite lookup_insert_ne. }
  destruct k; simpl; naive_solver.
Qed.

(** ** The parts a change does not touch *)

Lemma lock_ok_mono slp rdy cur pend slp' rdy' cur' pend' rest p x ql :
  lock_ok slp rdy rest cur pend p x ql →
  (∀ t, (∃ spl outer, slp' !! t = Some (In_lock p spl outer)) ↔
        (∃ spl outer, slp !! t = Some (In_lock p spl outer))) →
  (coming rdy pend p → coming rdy' pend' p) →
  (∀ t, alive slp rdy cur t → alive slp' rdy' cur' t) →
  lock_ok slp' rdy' rest cur' pend' p x ql.
Proof.
  intros [Hq Hn Hw Hc Ha] Hs Hco Hal. split; [done..| | |]; [|naive_solver..].
  intros t. by rewrite Hs.
Qed.

Lemma cv_ok_mono slp slp' rest p x ql :
  cv_ok slp rest p x ql →
  (∀ t, (∃ lock spl, slp' !! t = Some (In_cv p lock spl)) ↔
        (∃ lock spl, slp !! t = Some (In_cv p lock spl))) →
  cv_ok slp' rest p x ql.
Proof. intros [Hq Hn Hw] Hs. split; [done..|]. intros t. by rewrite Hs. Qed.

Lemma sem_ok_mono slp slp' rest p x :
  sem_ok slp rest p x →
  (0 < count x → ∀ t spl, slp' !! t = Some (In_P p spl) → slp !! t = Some (In_P p spl)) →
  sem_ok slp' rest p x.
Proof. intros [Hb Hc Hi] Hs. split; [done..|]. intros H0 t spl Ht. by apply (Hi H0 t spl), Hs. Qed.

Lemma coming_pend rdy pend p p' :
  coming rdy pend p' → only_lock p pend → p' ≠ p → coming rdy None p'.
Proof. intros [Hr|(spl & outer & Hp)] Ho Hne; [by left|]. by apply Ho in Hp. Qed.

Lemma coming_ready rdy rdy' pend p :
  (∀ t k, rdy !! t = Some (F_sleep k) → rdy' !! t = Some (F_sleep k)) →
  coming rdy pend p → coming rdy' pend p.
Proof. intros Hr [(t & spl & outer & Ht)|?]; [left|by right]. eauto. Qed.

(** ** The running thread goes to sleep, or gives the processor away *)

Lemma alive_sleep slp rdy cur k t : alive slp rdy cur t → alive (<[cur := k]> slp) rdy cur t.
Proof.
  intros [->|[Hs|Hr]]; [by left| |by right; right].
  right. left. rewrite lookup_insert_is_Some'. by right.
Qed.

Lemma konts_sleep y slp cur k :
  (∀ t k', slp !! t = Some k' → kont_ok y t k') → kont_ok y cur k →
  ∀ t k', <[cur := k]> slp !! t = Some k' → kont_ok y t k'.
Proof. intros Hs Hk t k' [[<- <-]|[_ ?]]%lookup_insert_Some; eauto. Qed.

(** Once it waits somewhere, another ready thread can be given the processor. *)
Lemma sync_next y slp rdy rest cur next f :
  sync_ok y slp rdy rest cur None → is_Some (slp !! cur) ∨ is_Some (rdy !! cur) →
  rdy !! next = Some f → sync_ok y slp (delete next rdy) rest next (pending f).
Proof.
  intros [Hse Hlo Hcv Hs Hr _] Hw Hf. split; [done| |done..| |].
  - intros p x Hx. destruct (Hlo p x Hx) as [ql Hok]. exists ql.
    eapply lock_ok_mono; [exact Hok|done| |].
    + intros [(t & spl & outer & Ht)|(? & ? & ?)]; [|done]. destruct (decide (t = next)) as [->|].
      * right. exists spl, outer. by simplify_eq.
      * left. exists t, spl, outer. by rewrite lookup_delete_ne.
    + intros t Ht. destruct (decide (t = next)) as [->|]; [by left|]. right.
      rewrite lookup_delete_ne by done. destruct Ht as [->|?]; done.
  - intros t k [_ Ht]%lookup_delete_Some. eauto.
  - intros k Hk. destruct f; simplify_eq/=. eauto.
Qed.

Lemma sync_sleep_P y slp rdy rest cur pend p x spl :
  sync_ok y slp rdy rest cur pend → slp !! cur = None → (∀ q, only_lock q pend) →
  sems y !! p = Some x → count x = 0 → 0 ≤ spl →
  sync_ok y (<[cur := In_P p spl]> slp) rdy rest cur None.
Proof.
  intros [Hse Hlo Hcv Hs Hr _] Hc Hp Hx H0 Hspl. split; [| | | |done..].
  - intros q z Hz. eapply sem_ok_mono; [by apply Hse|].
    intros Hpos t spl' [[_ [= <- _]]|[_ ?]]%lookup_insert_Some; [simplify_eq; lia|done].
  - intros q z Hz. destruct (Hlo q z Hz) as [ql Hok]. exists ql.
    eapply lock_ok_mono; [exact Hok| | |apply alive_sleep].
    + intros t. setoid_rewrite lookup_insert_Some. naive_solver.
    + intros Hco. apply (coming_pend _ pend (q + 1)); [done|apply Hp|lia].
  - intros q z Hz. destruct (Hcv q z Hz) as [ql Hok]. exists ql.
    eapply cv_ok_mono; [exact Hok|]. intros t. setoid_rewrite lookup_insert_Some. naive_solver.
  - apply konts_sleep; [done|]. split; [by eexists|done].
Qed.

Lemma sync_sleep_lock y slp rdy rest cur pend p x ql q' spl outer :
  sync_ok y slp rdy rest cur pend → slp !! cur = None → only_lock p pend →
  locks y !! p = Some x → lock_ok slp rdy rest cur pend p x ql → owner x ≠ 0 → can_take y cur p →
  queue_rep rest q' (ql ++ [cur]) → 0 ≤ spl → Forall (λ n, 0 ≤ n) outer →
  sync_ok (with_lock p (set_lock_queue q' x) y) (<[cur := In_lock p spl outer]> slp) rdy rest cur None.
Proof.
  intros [Hse Hlo Hcv Hs Hr _] Hc Hp Hx [Hq Hn Hw _ Ha] H0 Hct Hq' Hspl Hout.
  assert (grows y (with_lock p (set_lock_queue q' x) y)) as Hg by (apply (grows_lock _ x); auto).
  split; cbn [sems locks cvs with_lock].
  - intros q z Hz. eapply sem_ok_mono; [by apply Hse|].
    intros _ t spl'. rewrite lookup_insert_Some. naive_solver.
  - intros q z [[<- <-]|[Hne Hz]]%lookup_insert_Some.
    + exists (ql ++ [cur]). split; cbn [set_lock_queue lock_queue owner fst snd]; [done| | |done|].
      * apply NoDup_app. split; [done|]. split; [|apply NoDup_singleton].
        intros t Ht ->%list_elem_of_singleton. apply Hw in Ht as (? & ? & ?). congruence.
      * intros t. rewrite elem_of_app, list_elem_of_singleton, Hw. setoid_rewrite lookup_insert_Some.
        destruct (decide (t = cur)); naive_solver.
      * intros _. by apply alive_sleep, Ha.
    + destruct (Hlo q z Hz) as [ql' Hok]. exists ql'. eapply lock_ok_mono; [exact Hok| | |apply alive_sleep].
      * intros t. setoid_rewrite lookup_insert_Some. naive_solver.
      * intros Hco. by apply (coming_pend _ pend p).
  - intros q z Hz. destruct (Hcv q z Hz) as [ql' Hok]. exists ql'.
    eapply cv_ok_mono; [exact Hok|]. intros t. setoid_rewrite lookup_insert_Some. naive_solver.
  - apply konts_sleep; [intros t k Hk; eapply kont_ok_grows; eauto|].
    split; [by eapply can_take_grows|done].
  - intros t k Hk. eapply kont_ok_grows; eauto.
  - done.
Qed.

Lemma sync_sleep_cv y slp rdy rest cur p x ql q' lock spl :
  sync_ok y slp rdy rest cur None → slp !! cur = None → can_take y cur lock →
  cvs y !! p = Some x → cv_ok slp rest p x ql →
  queue_rep rest q' (ql ++ [cur]) → 0 ≤ spl →
  sync_ok (with_cv p (set_cv_queue q' x) y) (<[cur := In_cv p lock spl]> slp) rdy rest cur None.
Proof.
  intros [Hse Hlo Hcv Hs Hr _] Hc Hl Hx [Hq Hn Hw] Hq' Hspl. split; cbn [sems locks cvs with_cv]; [..|done|done].
  - intros q z Hz. eapply sem_ok_mono; [by apply Hse|].
    intros _ t spl'. rewrite lookup_insert_Some. naive_solver.
  - intros q z Hz. destruct (Hlo q z Hz) as [ql' Hok]. exists ql'.
    eapply lock_ok_mono; [exact Hok| |done|apply alive_sleep].
    intros t. setoid_rewrite lookup_insert_Some. naive_solver.
  - intros q z [[<- <-]|[Hne Hz]]%lookup_insert_Some.
    + exists (ql ++ [cur]). split; cbn [set_cv_queue cv_queue snd]; [done| |].
      * apply NoDup_app. split; [done|]. split; [|apply NoDup_singleton].
        intros t Ht ->%list_elem_of_singleton. apply Hw in Ht as (? & ? & ?). congruence.
      * intros t. rewrite elem_of_app, list_elem_of_singleton, Hw. setoid_rewrite lookup_insert_Some.
        destruct (decide (t = cur)); naive_solver.
    + destruct (Hcv q z Hz) as [ql' Hok]. exists ql'. eapply cv_ok_mono; [exact Hok|].
      intros t. setoid_rewrite lookup_insert_Some. naive_solver.
  - by apply konts_sleep.
Qed.

(** [thread_yield]: the running thread becomes ready. *)
Lemma sync_ready y slp rdy rest cur t f :
  sync_ok y slp rdy rest cur None → rdy !! t = None → pending f = None →
  sync_ok y slp (<[t := f]> rdy) rest cur None.
Proof.
  intros [Hse Hlo Hcv Hs Hr _] Ht Hf. split; [done| |done..| |done].
  - intros q z Hz. destruct (Hlo q z Hz) as [ql' Hok]. exists ql'.
    eapply lock_ok_mono; [exact Hok|done|..].
    + apply coming_ready. intros u k Hk. rewrite lookup_insert_ne; [done|]. congruence.
    + intros u [?|[?|?]]; [by left|by right; left|]. right. right. rewrite lookup_insert_is_Some'. by right.
  - intros u k [[_ ->]|[_ ?]]%lookup_insert_Some; [done|eauto].
Qed.

(** ** Waking threads up *)

(** Waking the thread [t], asleep on its own address, wakes nobody else. *)
Lemma wake_one y slp rdy rest cur pend t k :
  sync_ok y slp rdy rest cur pend → slp !! t = Some k → sleep_addr t k = Some t → rest !! t = None →
  still_asleep t slp = delete t slp ∧ woken_up t slp rdy = <[t := F_sleep k]> rdy.
Proof.
  intros [Hse _ _ Hs _ _] Ht Ha Hrest.
  assert (∀ u k', slp !! u = Some k' → wakes t (u, k') ↔ u = t) as Hw.
  { intros u k' Hu. unfold wakes. cbn [fst snd]. split; [|by intros ->; simplify_eq].
    destruct k' as [sem spl| | |]; simpl; intros [= ->]; [|done..].
    destruct (Hs _ _ Hu) as [[x Hx] _]. destruct (Hse _ _ Hx) as [[? ?] _ _]. congruence. }
  split; apply map_eq; intros u; unfold still_asleep, woken_up; apply option_eq; intros v.
  - rewrite map_lookup_filter_Some, lookup_delete_Some. split.
    + intros [Hu Hn]. split; [|done]. intros <-. by apply Hn, Hw.
    + intros [Hne Hu]. split; [done|]. rewrite (Hw u v Hu). by intros ->.
  - rewrite lookup_union_Some_raw, lookup_fmap, lookup_insert_Some. destruct (decide (u = t)) as [->|Hne].
    + assert (filter (wakes t) slp !! t = Some k) as ->; [|naive_solver].
      apply map_lookup_filter_Some. split; [done|by apply Hw].
    + assert (filter (wakes t) slp !! u = None) as ->; [|naive_solver].
      apply map_lookup_filter_None. right. intros v' Hv'. by rewrite (Hw u v' Hv').
Qed.

Lemma alive_wake slp rdy cur t f u : alive slp rdy cur u → alive (delete t slp) (<[t := f]> rdy) cur u.
Proof.
  intros [->|Hu]; [by left|]. right. rewrite lookup_insert_is_Some'.
  destruct (decide (u = t)) as [->|]; [by right; left|]. rewrite lookup_delete_ne by done. naive_solver.
Qed.

(** What waking [t] from the queue of a lock or condition variable leaves as it was *)
Lemma sync_wake_frame y y' slp rdy rest cur pend t k :
  sync_ok y slp rdy rest cur pend → rdy !! t = None → slp !! t = Some k → grows y y' →
  (∀ p x, sems y !! p = Some x → sem_ok (delete t slp) rest p x) ∧
  (∀ p x, locks y !! p = Some x → (∀ spl outer, k ≠ In_lock p spl outer) →
     ∃ ql, lock_ok (delete t slp) (<[t := F_sleep k]> rdy) rest cur pend p x ql) ∧
  (∀ p x, cvs y !! p = Some x → (∀ lock spl, k ≠ In_cv p lock spl) →
     ∃ ql, cv_ok (delete t slp) rest p x ql) ∧
  (∀ u k', delete t slp !! u = Some k' → kont_ok y' u k') ∧
  (∀ u k', <[t := F_sleep k]> rdy !! u = Some (F_sleep k') → kont_ok y' u k') ∧
  (∀ k', pend = Some k' → kont_ok y' cur k').
Proof.
  intros [Hse Hlo Hcv Hs Hr Hp] Hrt Ht Hg. split_and!.
  - intros p x Hx. eapply sem_ok_mono; [by apply Hse|]. intros _ u spl. rewrite lookup_delete_Some. naive_solver.
  - intros p x Hx Hk. destruct (Hlo p x Hx) as [ql Hok]. exists ql.
    eapply lock_ok_mono; [exact Hok| | |intros u; apply alive_wake].
    + intros u. setoid_rewrite lookup_delete_Some. naive_solver.
    + apply coming_ready. intros u k' Hu. rewrite lookup_insert_ne; [done|congruence].
  - intros p x Hx Hk. destruct (Hcv p x Hx) as [ql Hok]. exists ql.
    eapply cv_ok_mono; [exact Hok|]. intros u. setoid_rewrite lookup_delete_Some. naive_solver.
  - intros u k' [_ Hu]%lookup_delete_Some. eapply kont_ok_grows; eauto.
  - intros u k' [[<- [= <-]]|[_ Hu]]%lookup_insert_Some; eapply kont_ok_grows; eauto.
  - intros k' Hk'. eapply kont_ok_grows; eauto.
Qed.

(** [lock_release] gives the lock up and wakes the first waiter. *)
Lemma sync_release_wake y slp rdy rest cur pend p x t ql q' k :
  sync_ok y slp rdy rest cur pend → locks y !! p = Some x →
  lock_ok slp rdy rest cur pend p x (t :: ql) → queue_rep rest q' ql →
  slp !! t = Some k → rdy !! t = None →
  sync_ok (with_lock p (set_lock_queue q' (set_owner 0 x)) y) (delete t slp) (<[t := F_sleep k]> rdy)
    rest cur pend.
Proof.
  intros Hok Hx [Hq Hn Hw _ _] Hq' Ht Hrt.
  assert (∃ spl outer, slp !! t = Some (In_lock p spl outer)) as (spl & outer & Hk) by (apply Hw; left).
  assert (k = In_lock p spl outer) as -> by congruence. apply NoDup_cons in Hn as [Hnt Hn].
  destruct (sync_wake_frame y (with_lock p (set_lock_queue q' (set_owner 0 x)) y) _ _ _ _ _ _ _ Hok Hrt Ht)
    as (Hse & Hlo & Hcv & Hs & Hr & Hp); [apply (grows_lock _ x); auto|].
  split; cbn [sems locks cvs with_sem with_lock with_cv]; [done| | |done..].
  - intros q z [[<- <-]|[Hne Hz]]%lookup_insert_Some; [|apply (Hlo q z Hz); by intros ?? [= ->]].
    exists ql. split; cbn [set_lock_queue set_owner lock_queue owner snd]; [done|done| | |done].
    + intros u. setoid_rewrite lookup_delete_Some. specialize (Hw u). set_solver.
    + intros _ _. left. exists t, spl, outer. by rewrite lookup_insert_eq.
  - intros q z Hz. by apply (Hcv q z Hz).
Qed.

Lemma cv_ok_pop slp rest p x t ql q' :
  cv_ok slp rest p x (t :: ql) → queue_rep rest q' ql →
  cv_ok (delete t slp) rest p (set_cv_queue q' x) ql.
Proof.
  intros [Hq Hn Hw] Hq'. apply NoDup_cons in Hn as [Hnt Hn].
  split; cbn [set_cv_queue cv_queue snd]; [done|done|].
  intros u. setoid_rewrite lookup_delete_Some. specialize (Hw u). set_solver.
Qed.

Lemma sync_signal_wake y slp rdy rest cur pend p x t ql q' k :
  sync_ok y slp rdy rest cur pend → cvs y !! p = Some x →
  cv_ok slp rest p x (t :: ql) → queue_rep rest q' ql →
  slp !! t = Some k → rdy !! t = None →
  sync_ok (with_cv p (set_cv_queue q' x) y) (delete t slp) (<[t := F_sleep k]> rdy) rest cur pend.
Proof.
  intros Hok Hx Hcok Hq' Ht Hrt.
  destruct (proj1 (co_waiters _ _ _ _ _ Hcok t)) as (lock & spl & Hk); [left|].
  assert (k = In_cv p lock spl) as -> by congruence.
  destruct (sync_wake_frame y (with_cv p (set_cv_queue q' x) y) _ _ _ _ _ _ _ Hok Hrt Ht)
    as (Hse & Hlo & Hcv & Hs & Hr & Hp); [apply grows_cv|].
  split; cbn [sems locks cvs with_sem with_lock with_cv]; [done| | |done..].
  - intros q z Hz. by apply (Hlo q z Hz).
  - intros q z [[<- <-]|[Hne Hz]]%lookup_insert_Some; [|apply (Hcv q z Hz); by intros ?? [= ->]].
    exists ql. by eapply cv_ok_pop.
Qed.

Lemma sync_release_free y slp rdy rest cur pend p x :
  sync_ok y slp rdy rest cur pend → locks y !! p = Some x →
  lock_ok slp rdy rest cur pend p x [] →
  sync_ok (with_lock p (set_owner 0 x) y) slp rdy rest cur pend.
Proof.
  intros [Hse Hlo Hcv Hs Hr Hp] Hx [Hq Hn Hw _ _].
  assert (grows y (with_lock p (set_owner 0 x) y)) as Hg by (apply (grows_lock _ x); auto). split; cbn [sems locks cvs with_sem with_lock with_cv]; [done| |done|..].
  - intros q z [[<- <-]|[Hne Hz]]%lookup_insert_Some; [|eauto]. exists []. by split.
  - intros t k Hk. eapply kont_ok_grows; eauto.
  - intros t k Hk. eapply kont_ok_grows; eauto.
  - intros k Hk. eapply kont_ok_grows; eauto.
Qed.

(** The running thread takes a free lock. *)
Lemma sync_acquire y slp rdy rest cur pend p x :
  sync_ok y slp rdy rest cur pend → locks y !! p = Some x → only_lock p pend → cur ≠ 0 →
  slp !! cur = None → rdy !! cur = None →
  sync_ok (with_lock p (set_owner cur x) y) slp rdy rest cur None.
Proof.
  intros [Hse Hlo Hcv Hs Hr Hp] Hx Ho Hc Hcs Hcr.
  split; cbn [sems locks cvs with_sem with_lock with_cv]; [done| |done|..|done].
  - intros q z [[<- <-]|[Hne Hz]]%lookup_insert_Some.
    + destruct (Hlo p x Hx) as [ql [Hq Hn Hw _ _]]. exists ql. split; try done. intros _. by left.
    + destruct (Hlo q z Hz) as [ql Hok]. exists ql. eapply lock_ok_mono; [exact Hok|done| |done].
      intros Hco. by apply (coming_pend _ pend p).
  - intros t k Hk. apply kont_ok_taken; [congruence|eauto].
  - intros t k Hk. apply kont_ok_taken; [congruence|eauto].
Qed.

(** ** Counts *)

Lemma sync_P y slp rdy rest cur pend p x :
  sync_ok y slp rdy rest cur pend → sems y !! p = Some x → (∀ q, only_lock q pend) → 0 < count x →
  sync_ok (with_sem p (MkSem (sem_name x) (count x - 1)) y) slp rdy rest cur None.
Proof.
  intros [Hse Hlo Hcv Hs Hr Hp] Hx Ho Hc. split; cbn [sems locks cvs with_sem with_lock with_cv]; [| |done|..|done].
  - intros q z [[<- <-]|[Hne Hz]]%lookup_insert_Some; [|eauto].
    destruct (Hse p x Hx) as [Hb Hct Hi]. split; simpl; [done|lia|auto].
  - intros q z Hz. destruct (Hlo q z Hz) as [ql Hok]. exists ql.
    eapply lock_ok_mono; [exact Hok|done| |done].
    intros Hco. apply (coming_pend _ pend (q + 1)); [done|apply Ho|lia].
  - intros t k Hk. eapply kont_ok_grows; eauto with synch.
  - intros t k Hk. eapply kont_ok_grows; eauto with synch.
Qed.

Lemma sync_V y slp rdy rest cur pend p x :
  sync_ok y slp rdy rest cur pend → sems y !! p = Some x → count x < 2 ^ 31 - 1 →
  (∀ t, is_Some (slp !! t) → rest !! t = None ∧ rdy !! t = None) →
  sync_ok (with_sem p (MkSem (sem_name x) (count x + 1)) y) (still_asleep p slp) (woken_up p slp rdy)
    rest cur pend.
Proof.
  intros [Hse Hlo Hcv Hs Hr Hp] Hx Hc Hap. destruct (Hse p x Hx) as [Hb Hct Hi].
  assert (∀ t k, slp !! t = Some k → wakes p (t, k) → ∃ spl, k = In_P p spl) as Hw.
  { intros t k Hk Hwk. assert (rest !! t = None) as Ht by (apply Hap; by eexists). destruct Hb as [? Hb].
    unfold wakes in Hwk. destruct k; simplify_eq/=; [by eexists|congruence..]. }
  assert (∀ t k, still_asleep p slp !! t = Some k ↔ slp !! t = Some k ∧ ¬ wakes p (t, k)) as Hsa.
  { intros. apply map_lookup_filter_Some. }
  assert (∀ t f, woken_up p slp rdy !! t = Some f ↔
    (∃ k, slp !! t = Some k ∧ wakes p (t, k) ∧ f = F_sleep k) ∨ rdy !! t = Some f) as Hwu.
  { intros t f. unfold woken_up. rewrite lookup_union_Some_raw, lookup_fmap, fmap_None, fmap_Some.
    setoid_rewrite map_lookup_filter_Some. split; [naive_solver|]. intros [?|Hf]; [naive_solver|].
    right. split; [|done]. apply map_lookup_filter_None. left. apply eq_None_not_Some.
    intros Hsm. destruct (Hap t Hsm). congruence. }
  assert (grows y (with_sem p (MkSem (sem_name x) (count x + 1)) y)) as Hg by apply grows_sem.
  split; cbn [sems locks cvs with_sem with_lock with_cv].
  - intros q z [[<- <-]|[Hne Hz]]%lookup_insert_Some.
    + split; simpl; [done|lia|]. intros _ t spl [_ Hn]%Hsa. by apply Hn.
    + eapply sem_ok_mono; [by apply Hse|]. intros _ t spl [? _]%Hsa. done.
  - intros q z Hz. destruct (Hlo q z Hz) as [ql Hok]. exists ql. eapply lock_ok_mono; [exact Hok|..].
    + intros t. setoid_rewrite Hsa. split; [naive_solver|]. intros (spl & outer & Ht). exists spl, outer.
      split; [done|]. intros [? ?]%(Hw _ _ Ht). done.
    + apply coming_ready. intros t k Hk. apply Hwu. by right.
    + intros t [?|[[k Hk]|[f Hf]]]; [by left|right..].
      * destruct (decide (wakes p (t, k))); [right|left].
        -- exists (F_sleep k). apply Hwu. left. by exists k.
        -- exists k. by apply Hsa.
      * right. exists f. apply Hwu. by right.
  - intros q z Hz. destruct (Hcv q z Hz) as [ql Hok]. exists ql. eapply cv_ok_mono; [exact Hok|].
    intros t. setoid_rewrite Hsa. split; [naive_solver|]. intros (lock & spl & Ht). exists lock, spl.
    split; [done|]. intros [? ?]%(Hw _ _ Ht). done.
  - intros t k [Hk _]%Hsa. eapply kont_ok_grows; eauto.
  - intros t k [(k' & Hk & _ & [= ->])|Hk]%Hwu; eapply kont_ok_grows; eauto.
  - intros k Hk. eapply kont_ok_grows; eauto.
Qed.
