(* ===== verification/SynchProof.v ===== *)
(** * The operations of synch.c preserve its invariant

    Triples for [P], [V], the lock and the condition variable operations, and for
    what a woken thread does. The queues are assumed not to be full: the results of
    [q_addtail] are ignored by the code, see [lock_room] and [cv_room]. *)

From Stdlib Require Import ZArith Lia.
From stdpp Require Import base list gmap numbers strings.
From S2P Require Import Prelude Cpu KMem HeapCpu Array Queue Vnode.
From S2P Require Import Thread ThreadSpec ThreadTheorems Synch SynchSched SynchInv.

Local Open Scope Z_scope.

Lemma in_interrupt_spl_set n c : in_interrupt (spl_set n c) = in_interrupt c.
Proof. unfold spl_set. by destruct (0 <? n), (n =? 0). Qed.

Lemma pending_of_ctl (f : frame kont) ctl : ctl_of f = Some ctl → pending_of (Some ctl) = pending f.
Proof. destruct f; intros; by simplify_eq/=. Qed.

(** Only the running thread [cur] takes a lock, or gives one up. *)
Definition owners_by (cur : Z) (y y' : synch) : Prop :=
  ∀ p x, locks y !! p = Some x → ∃ x', locks y' !! p = Some x' ∧
    (owner x' = owner x ∨ owner x = 0 ∧ owner x' = cur ∨ owner x = cur ∧ owner x' = 0).

Lemma owners_by_same cur y y' : locks y' = locks y → owners_by cur y y'.
Proof. intros He p x Hx. exists x. rewrite He. auto. Qed.

Lemma owners_by_trans cur y y' y'' : owners_by cur y y' → owners_by cur y' y'' → owners_by cur y y''.
Proof.
  intros H1 H2 p x Hx. destruct (H1 p x Hx) as (x1 & Hx1 & Ho1).
  destruct (H2 p x1 Hx1) as (x2 & Hx2 & Ho2). exists x2. split; [done|]. intuition congruence.
Qed.

Lemma owners_by_with_lock cur p x x' y :
  locks y !! p = Some x →
  owner x' = owner x ∨ owner x = 0 ∧ owner x' = cur ∨ owner x = cur ∧ owner x' = 0 →
  owners_by cur y (with_lock p x' y).
Proof.
  intros Hx Ho q z Hz. cbn [locks with_lock]. destruct (decide (q = p)) as [->|].
  - exists x'. rewrite lookup_insert_eq. by simplify_eq.
  - exists z. rewrite lookup_insert_ne by done. auto.
Qed.

(** Who holds the lock [p]: 0 when it is free *)
Definition holder (y : synch) (p : Z) : option Z := owner <$> locks y !! p.

Lemma holder_Some (y : synch) p o : holder y p = Some o → ∃ x, locks y !! p = Some x ∧ owner x = o.
Proof. unfold holder. intros (x & Hx & ->)%fmap_Some. eauto. Qed.

(** The ring of the queue has a free slot. *)
Definition room {A} (q : queue A) : Prop := (nextwrite q + 1) `mod` size q ≠ nextread q.
Definition lock_room (y : synch) (p : Z) : Prop := ∀ x, locks y !! p = Some x → room (lock_queue x).2.
Definition cv_room (y : synch) (p : Z) : Prop := ∀ x, cvs y !! p = Some x → room (cv_queue x).2.

Lemma room_length {A} m (q : queue A) l :
  queue_rep m q l → room q → Z.of_nat (length l) < size q - 1.
Proof.
  intros Hq Hr. pose proof (queue_full_iff _ _ _ Hq) as Hf. pose proof (queue_rep_room _ _ _ Hq).
  unfold room in Hr. assert (Z.of_nat (length l) ≠ size q - 1) by (intros He; by apply Hr, Hf). lia.
Qed.

Section view.
Context {H : Type} `{!HasCpu H} `{!KHeap H} `{!KHeapLaws H} `{!KHeapCpu H}.
Implicit Types (s : SY H) (rest : gmap Z Z) (slp : gmap Z kont) (rdy : gmap Z (frame kont)).

Definition snv s rest cur slp rdy pend : Prop :=
  sched s.1 rest cur slp rdy ∧ sync_ok s.2 slp rdy rest cur pend.

(** The invariant: a thread with [pend] to do runs with interrupts off. *)
Definition sinv s (pend : option kont) : Prop :=
  ∃ rest cur slp rdy, snv s rest cur slp rdy pend ∧ (is_Some pend → 0 < curspl (cpu_of s.1.1)).

Lemma sched_facts (t : TH H kont) rest cur slp rdy :
  sched t rest cur slp rdy →
  curthread (cpu_of t.1) = cur ∧ cur ≠ 0 ∧ running (cpu_of t.1) ∧ slp !! cur = None ∧ rdy !! cur = None ∧
  (∀ u, is_Some (slp !! u) → rest !! u = None ∧ rdy !! u = None) ∧
  (0 < ready_count t.2 → rdy ≠ ∅).
Proof.
  intros (sl & zb & rq & Hsys). pose proof (sys_lists _ _ _ _ _ _ _ _ Hsys) as (Hs & Hr & Hcs & Hcr & Hd & _).
  pose proof Hsys as [(m & A & B & R & Hm & _) Hrun Hcur _ _ _ _].
  split_and!; [done| |done| | | |].
  - destruct Hrun. congruence.
  - apply eq_None_not_Some. by rewrite Hs.
  - apply eq_None_not_Some. by rewrite Hr.
  - intros u Hu%Hs. split; [eapply sys_apart; eauto|]. apply eq_None_not_Some. rewrite Hr. by apply Hd.
  - destruct (mem_counts _ _ _ _ _ _ _ _ _ Hm) as [-> _]. destruct rq as [|t' rq]; simpl; [lia|].
    intros _ He. assert (is_Some (rdy !! t')) as [? Hx] by (apply Hr; left). rewrite He in Hx. done.
Qed.

Lemma snv_spl s rest cur slp rdy pend n :
  snv s rest cur slp rdy pend → 0 ≤ n → snv (set_cpu (spl_set n (cpu_of s)) s) rest cur slp rdy pend.
Proof. intros [Hs Hy] Hn. split; [|done]. by apply (sched_cpu s.1). Qed.

Lemma wp_get_lock F (s : SY H) p x (Q : lock → SY H → Prop) E :
  locks s.2 !! p = Some x → Q x s → wp F (get_lock p) s Q E.
Proof. intros Hx HQ. unfold get_lock. wp_steps. by apply (wp_the _ _ x). Qed.
Lemma wp_get_sem F (s : SY H) p x (Q : semaphore → SY H → Prop) E :
  sems s.2 !! p = Some x → Q x s → wp F (get_sem p) s Q E.
Proof. intros Hx HQ. unfold get_sem. wp_steps. by apply (wp_the _ _ x). Qed.
Lemma wp_get_cv F (s : SY H) p x (Q : cv → SY H → Prop) E :
  cvs s.2 !! p = Some x → Q x s → wp F (get_cv p) s Q E.
Proof. intros Hx HQ. unfold get_cv. wp_steps. by apply (wp_the _ _ x). Qed.

(** ** The queues *)

Lemma lock_enqueue_ok F s rest p x ql t :
  locks s.2 !! p = Some x → queue_rep rest (lock_queue x).2 ql → room (lock_queue x).2 →
  wp F (on_lock_queue p (q_addtail t)) s
    (λ _ s', ∃ q', queue_rep rest q' (ql ++ [t]) ∧ s' = (s.1, with_lock p (set_lock_queue q' x) s.2)) noerr.
Proof.
  intros Hx Hq Hr. unfold on_lock_queue. wp_steps. apply (wp_get_lock _ _ _ x); [done|]. wp_steps.
  eapply wp_mono; [apply (q_addtail_room F 1 _ rest _ ql); [done|by eapply room_length]| |done].
  intros _ [h' q'] (-> & Hq' & _). exists q'. split; [done|]. by destruct s as [[h ts] y].
Qed.

Lemma lock_dequeue_ok F s rest p x ql t :
  locks s.2 !! p = Some x → queue_rep rest (lock_queue x).2 (t :: ql) →
  wp F (on_lock_queue p q_remhead) s
    (λ u s', ∃ q', u = t ∧ queue_rep rest q' ql ∧ s' = (s.1, with_lock p (set_lock_queue q' x) s.2)) noerr.
Proof.
  intros Hx Hq. unfold on_lock_queue. wp_steps. apply (wp_get_lock _ _ _ x); [done|]. wp_steps.
  eapply wp_mono; [by apply (q_remhead_spec F _ rest _ t ql)| |done].
  intros u [h' q'] (-> & -> & Hq' & _). exists q'. split; [done|]. split; [done|]. by destruct s as [[h ts] y].
Qed.

Lemma cv_enqueue_ok F s rest p x ql t :
  cvs s.2 !! p = Some x → queue_rep rest (cv_queue x).2 ql → room (cv_queue x).2 →
  wp F (on_cv_queue p (q_addtail t)) s
    (λ _ s', ∃ q', queue_rep rest q' (ql ++ [t]) ∧ s' = (s.1, with_cv p (set_cv_queue q' x) s.2)) noerr.
Proof.
  intros Hx Hq Hr. unfold on_cv_queue. wp_steps. apply (wp_get_cv _ _ _ x); [done|]. wp_steps.
  eapply wp_mono; [apply (q_addtail_room F 1 _ rest _ ql); [done|by eapply room_length]| |done].
  intros _ [h' q'] (-> & Hq' & _). exists q'. split; [done|]. by destruct s as [[h ts] y].
Qed.

Lemma cv_dequeue_ok F s rest p x ql t :
  cvs s.2 !! p = Some x → queue_rep rest (cv_queue x).2 (t :: ql) →
  wp F (on_cv_queue p q_remhead) s
    (λ u s', ∃ q', u = t ∧ queue_rep rest q' ql ∧ size q' = size (cv_queue x).2 ∧
       s' = (s.1, with_cv p (set_cv_queue q' x) s.2)) noerr.
Proof.
  intros Hx Hq. unfold on_cv_queue. wp_steps. apply (wp_get_cv _ _ _ x); [done|]. wp_steps.
  eapply wp_mono; [by apply (q_remhead_spec F _ rest _ t ql)| |done].
  intros u [h' q'] (-> & -> & Hq' & Hsz & _). exists q'. split_and!; [done..|]. by destruct s as [[h ts] y].
Qed.
End view.

Section operations.
Context {H : Type} `{!HasCpu H} `{!KHeap H} `{!KHeapLaws H} `{!KHeapCpu H}.
Context (as_activate : Z → M (TH H kont) ()) (cpu_idle : M (TH H kont) ()) (idle_fuel : nat).
Context (Hact : keeps_threads as_activate).
Implicit Types (s : SY H) (rest : gmap Z Z) (slp : gmap Z kont) (rdy : gmap Z (frame kont)).

(** ** Sleeping and waking *)

Lemma sleep_ok s rest cur slp rdy addr k :
  sched s.1 rest cur slp rdy → sync_ok s.2 (<[cur := k]> slp) rdy rest cur None →
  0 < curspl (cpu_of s.1.1) → in_interrupt (cpu_of s.1.1) = 0 → rdy ≠ ∅ → sleep_addr cur k = Some addr →
  wp safe (sleep as_activate cpu_idle idle_fuel addr k) s
    (λ r s', s'.2 = s.2 ∧ is_Some r ∧ sinv s' (pending_of r)) noerr.
Proof.
  intros Hs Hy Hspl Hint Hne Ha. unfold sleep, on_threads. wp_steps.
  eapply wp_mono; [by apply (thread_sleep_sched as_activate cpu_idle idle_fuel s.1 rest cur slp rdy)| |done].
  intros ctl t' (next & f & Hf & Hctl & Hs' & Hl). wp_steps. split; [done|]. split; [by eexists|].
  rewrite (pending_of_ctl f) by done. exists rest, next, (<[cur := k]> slp), (delete next rdy).
  split; [split; [done|]|].
  - apply (sync_next _ _ _ _ cur); [done|left|done]. rewrite lookup_insert_eq. by eexists.
  - intros [k' Hk']. cbn [fst]. rewrite Hl. destruct f; done.
Qed.

(** [thread_wakeup] of a thread taken from a queue *)
Lemma wake_ok s rest cur slp rdy pend y t k :
  sched s.1 rest cur slp rdy → sync_ok y slp rdy rest cur pend → 0 < curspl (cpu_of s.1.1) →
  slp !! t = Some k → sleep_addr t k = Some t →
  wp safe (on_threads (thread_wakeup t)) s
    (λ _ s', s'.1.1 = s.1.1 ∧ s'.2 = s.2 ∧ sched s'.1 rest cur (delete t slp) (<[t := F_sleep k]> rdy)) noerr.
Proof.
  intros Hs Hy Hspl Ht Ha. unfold on_threads. wp_steps.
  eapply wp_mono; [by apply (thread_wakeup_sched s.1 rest cur slp rdy)| |done].
  intros _ t' [Hh Hs']. destruct (sched_facts _ _ _ _ _ Hs) as (_ & _ & _ & _ & _ & Hap & _).
  destruct (Hap t) as [Hrt _]; [by eexists|].
  destruct (wake_one _ _ _ _ _ _ _ _ Hy Ht Ha Hrt) as [He1 He2]. rewrite He1, He2 in Hs'. done.
Qed.

(** ** Semaphores *)

Lemma P_loop_ok s rest cur slp rdy pend p spl :
  snv s rest cur slp rdy pend → (∀ q, only_lock q pend) → is_Some (sems s.2 !! p) →
  0 < curspl (cpu_of s.1.1) → in_interrupt (cpu_of s.1.1) = 0 → rdy ≠ ∅ → 0 ≤ spl →
  wp safe (P_loop as_activate cpu_idle idle_fuel p spl) s
    (λ r s', sinv s' (pending_of r) ∧ locks s'.2 = locks s.2) noerr.
Proof.
  intros [Hs Hy] Ho [x Hx] Hspl Hint Hne Hn. unfold P_loop. wp_steps.
  apply (wp_get_sem _ _ _ x); [done|].
  destruct (sched_facts _ _ _ _ _ Hs) as (_ & _ & _ & Hc & _).
  destruct (Z.eqb_spec (count x) 0) as [H0|H0].
  - eapply wp_mono; [apply (sleep_ok s rest cur slp rdy); try done; by eapply sync_sleep_P| |done].
    intros r s' (He & _ & Hi). by rewrite He.
  - destruct (so_sem _ _ _ _ _ _ Hy p x Hx) as [_ Hct _].
    wp_assert by lia. unfold put_sem, upd_synch. wp_steps. apply wp_splx. wp_steps. split; [|done].
    exists rest, cur, slp, rdy. split; [|by intros [? ?]]. apply snv_spl; [|done]. split; [done|].
    apply (sync_P _ _ _ _ _ pend); [done..|lia].
Qed.

Lemma P_ok s rest cur slp rdy p :
  snv s rest cur slp rdy None → p ≠ 0 → is_Some (sems s.2 !! p) →
  in_interrupt (cpu_of s.1.1) = 0 → rdy ≠ ∅ →
  wp safe (P as_activate cpu_idle idle_fuel p) s
    (λ r s', sinv s' (pending_of r) ∧ locks s'.2 = locks s.2) noerr.
Proof.
  intros Hs Hp Hx Hint Hne. unfold P. wp_assert by lia. wp_assert by (apply Z.eqb_eq, Hint).
  unfold splhigh. wp_steps. apply wp_splx.
  destruct (sched_facts _ _ _ _ _ (proj1 Hs)) as (_ & _ & [[Hl _ _] _] & _).
  eapply wp_mono; [apply (P_loop_ok _ rest cur slp rdy None); try done| |done].
  - by apply snv_spl.
  - cpu_simpl. by rewrite cpu_of_set, curspl_spl_set.
  - cpu_simpl. by rewrite cpu_of_set, in_interrupt_spl_set.
  - intros r s' [? ?]. done.
Qed.

Lemma V_ok s rest cur slp rdy pend p x :
  snv s rest cur slp rdy pend → p ≠ 0 → sems s.2 !! p = Some x → count x < 2 ^ 31 - 1 →
  wp safe (V p) s
    (λ _ s', snv s' rest cur (still_asleep p slp) (woken_up p slp rdy) pend ∧
       curspl (cpu_of s'.1.1) = curspl (cpu_of s.1.1) ∧ s'.2 = with_sem p (MkSem (sem_name x) (count x + 1)) s.2)
    noerr.
Proof.
  intros [Hs Hy] Hp Hx Hct. unfold V. wp_assert by lia. apply wp_with_splhigh. wp_steps.
  apply (wp_get_sem _ _ _ x); [done|]. unfold put_sem, upd_synch. wp_steps.
  destruct (so_sem _ _ _ _ _ _ Hy p x Hx) as [_ Hct0 _].
  assert (s32 (count x + 1) = count x + 1) as He by (unfold s32; rewrite Z.mod_small; lia).
  rewrite He. wp_assert by lia. unfold on_threads. wp_steps.
  destruct (sched_facts _ _ _ _ _ Hs) as (_ & _ & [[Hl _ _] _] & _ & _ & Hap & _).
  eapply wp_mono; [apply (thread_wakeup_sched _ rest cur slp rdy)| |done].
  - by apply (sched_cpu s.1).
  - cpu_simpl. by rewrite cpu_of_set, curspl_spl_set.
  - intros _ t' [Hh Hs']. split; [|split; [|done]].
    + apply snv_spl; [|done]. split; [done|]. by apply sync_V.
    + cpu_simpl. by rewrite cpu_of_set, curspl_spl_set.
Qed.

(** ** Locks *)

Lemma do_i_hold_ok s rest cur slp rdy p x (Q : bool → SY H → Prop) E :
  sched s.1 rest cur slp rdy → locks s.2 !! p = Some x → Q (owner x =? cur) s →
  wp safe (lock_do_i_hold p) s Q E.
Proof.
  intros Hs Hx HQ. destruct (sched_facts _ _ _ _ _ Hs) as (Hcur & _).
  unfold lock_do_i_hold, get_curthread. wp_steps. apply (wp_get_lock _ _ _ x); [done|]. wp_steps.
  change (cpu_of s) with (cpu_of s.1.1). by rewrite Hcur.
Qed.

Lemma with_lock_twice p x x' y : with_lock p x' (with_lock p x y) = with_lock p x' y.
Proof. unfold with_lock. cbn. by rewrite insert_insert_eq. Qed.

Lemma lock_release_ok s rest cur slp rdy pend p x :
  snv s rest cur slp rdy pend → locks s.2 !! p = Some x → owner x = cur →
  wp safe (lock_release p) s
    (λ _ s', (∃ slp' rdy', snv s' rest cur slp' rdy' pend ∧ (rdy ≠ ∅ → rdy' ≠ ∅)) ∧
       cpu_of s'.1.1 = cpu_of s.1.1 ∧ holder s'.2 p = Some 0 ∧ cvs s'.2 = cvs s.2 ∧
       owners_by cur s.2 s'.2) noerr.
Proof.
  intros [Hs Hy] Hx Ho. destruct (sched_facts _ _ _ _ _ Hs) as (_ & Hc0 & Hrun & _ & _ & Hap & _).
  pose proof (proj1 Hrun) as Hwf. pose proof (wf_spl _ Hwf) as Hl.
  destruct (so_lock _ _ _ _ _ _ Hy p x Hx) as [ql Hok].
  unfold lock_release. wp_steps. eapply do_i_hold_ok; [done..|]. wp_assert by lia.
  apply wp_with_splhigh. wp_steps. apply (wp_get_lock _ _ _ x); [done|].
  unfold put_lock, upd_synch. wp_steps.
  assert (∀ h : H, cpu_of h = spl_set SPL_HIGH (cpu_of s.1.1) →
    cpu_of (set_cpu (spl_set (curspl (cpu_of s.1.1)) (cpu_of h)) h) = cpu_of s.1.1) as Hback.
  { intros h Hh. by rewrite cpu_of_set, Hh, spl_set_back. }
  assert (0 ≤ SPL_HIGH) as Hhi by done. pose proof (sched_cpu s.1 rest cur slp rdy SPL_HIGH Hs Hhi) as Hs1.
  apply wp_when; intros He.
  - destruct ql as [|t ql].
    { rewrite (proj2 (q_empty_iff _ _ _ (lo_queue _ _ _ _ _ _ _ _ Hok))) in He; done. }
    pose proof Hok as [Hq Hn Hw _ _].
    destruct (proj1 (Hw t)) as (spl & outer & Ht); [left|].
    wp_steps. eapply wp_mono; [apply (lock_dequeue_ok _ _ rest p (set_owner 0 x) ql t)| |done].
    { cbn. by rewrite lookup_insert_eq. } { done. }
    intros u s1 (q' & -> & Hq' & ->). cbn [fst snd].
    eapply wp_mono; [apply (wake_ok _ rest cur slp rdy pend s.2 t (In_lock p spl outer)); try done| |done].
    { cpu_simpl. by rewrite cpu_of_set, curspl_spl_set. }
    intros _ s2 (Hh & He2 & Hs2). rewrite (with_lock_twice p (set_owner 0 x) _ s.2 : _ = _) in He2.
    cbn [fst snd] in Hh. cpu_simpl. split_and!.
    + exists (delete t slp), (<[t := F_sleep (In_lock p spl outer)]> rdy). split.
      * apply snv_spl; [|done]. split; [done|]. rewrite He2.
        apply (sync_release_wake _ _ _ _ _ _ _ _ _ ql); try done. apply Hap. by eexists.
      * intros _. apply insert_non_empty.
    + apply Hback. rewrite Hh. cpu_simpl. by rewrite cpu_of_set.
    + unfold holder. rewrite He2. cbn. by rewrite lookup_insert_eq.
    + by rewrite He2.
    + rewrite He2. eapply owners_by_with_lock; [done|]. right. right. done.
  - assert (ql = []) as -> by (eapply q_empty_iff; [apply Hok|]; by apply negb_false_iff in He).
    cpu_simpl. split_and!.
    + exists slp, rdy. split; [|done].
      apply (snv_spl (set_cpu (spl_set SPL_HIGH (cpu_of s.1.1)) s.1.1, s.1.2, with_lock p (set_owner 0 x) s.2)); [|done].
      split; [done|]. by apply sync_release_free.
    + apply Hback. by rewrite cpu_of_set.
    + unfold holder. cbn. by rewrite lookup_insert_eq.
    + done.
    + eapply owners_by_with_lock; [done|]. right. right. done.
Qed.

Lemma restore_levels_ok s rest cur slp rdy pend levels :
  snv s rest cur slp rdy pend → Forall (λ n, 0 ≤ n) levels →
  wp safe (for_each levels (λ l, _ ← splx l; mret tt)) s
    (λ _ s', snv s' rest cur slp rdy pend ∧ s'.2 = s.2) noerr.
Proof.
  intros Hs Hl. apply (wp_for_each _ _ (λ _ s', snv s' rest cur slp rdy pend ∧ s'.2 = s.2)) with [];
    [|done|by intros ?].
  intros pre l post s1 Heq [Hs1 He1]. wp_steps. apply wp_splx. wp_steps. split; [|done].
  apply snv_spl; [done|]. simpl in Heq. rewrite Heq in Hl. apply Forall_app in Hl as [_ [? _]%Forall_cons]. done.
Qed.

(** Whether a thread that must sleep can: another one is ready, and it is no
    interrupt handler. *)
Definition can_sleep s : Prop := 0 < ready_count s.1.2 ∧ in_interrupt (cpu_of s.1.1) = 0.

Lemma acquire_loop_ok s rest cur slp rdy pend p x spl outer :
  snv s rest cur slp rdy pend → only_lock p pend → locks s.2 !! p = Some x → owner x ≠ cur →
  0 < curspl (cpu_of s.1.1) → 0 ≤ spl → Forall (λ n, 0 ≤ n) outer →
  (owner x ≠ 0 → rdy ≠ ∅ ∧ in_interrupt (cpu_of s.1.1) = 0 ∧ room (lock_queue x).2) →
  wp safe (acquire_loop as_activate cpu_idle idle_fuel p spl outer) s
    (λ r s', sinv s' (pending_of r) ∧ owners_by cur s.2 s'.2 ∧
       (r = None → holder s'.2 p = Some cur) ∧ (owner x = 0 → r = None)) noerr.
Proof.
  intros [Hs Hy] Hp Hx Hcx Hspl Hn Hout Hwait.
  destruct (sched_facts _ _ _ _ _ Hs) as (Hcur & Hc0 & _ & Hc & Hcr & _).
  destruct (so_lock _ _ _ _ _ _ Hy p x Hx) as [ql Hok].
  unfold acquire_loop, get_curthread. wp_steps. apply (wp_get_lock _ _ _ x); [done|]. wp_steps.
  change (cpu_of s) with (cpu_of s.1.1). rewrite Hcur.
  destruct (Z.eqb_spec (owner x) 0) as [H0|H0]; cbn [negb].
  - unfold put_lock, upd_synch. wp_steps. apply wp_splx. wp_steps.
    eapply wp_mono; [apply (restore_levels_ok _ rest cur slp rdy None); [|done]| |done].
    + apply (snv_spl (s.1, with_lock p (set_owner cur x) s.2)); [|done]. split; [done|].
      by eapply sync_acquire.
    + intros _ s' [Hs' He]. wp_steps. rewrite He. split_and!; [|..|done].
      * exists rest, cur, slp, rdy. split; [done|]. by intros [? ?].
      * eapply owners_by_with_lock; [done|]. right. left. done.
      * intros _. unfold holder. cbn. by rewrite lookup_insert_eq.
  - destruct (Hwait H0) as (Hne & Hint & Hroom). wp_steps.
    eapply wp_mono; [by apply (lock_enqueue_ok _ _ rest p x ql); [|apply Hok|]| |done].
    intros _ s1 (q' & Hq' & ->). cbv beta.
    eapply wp_mono; [apply (sleep_ok _ rest cur slp rdy cur); try done;
      eapply sync_sleep_lock; try done; split; eauto| |done].
    intros r s' (He & [ctl ->] & Hi). cbn [snd] in He. rewrite He. split_and!; [done| |done..].
    eapply owners_by_with_lock; [done|]. by left.
Qed.

Lemma lock_acquire_in_ok s rest cur slp rdy pend p x outer :
  snv s rest cur slp rdy pend → only_lock p pend → locks s.2 !! p = Some x → owner x ≠ cur →
  Forall (λ n, 0 ≤ n) outer →
  (owner x ≠ 0 → rdy ≠ ∅ ∧ in_interrupt (cpu_of s.1.1) = 0 ∧ room (lock_queue x).2) →
  wp safe (lock_acquire_in as_activate cpu_idle idle_fuel p outer) s
    (λ r s', sinv s' (pending_of r) ∧ owners_by cur s.2 s'.2 ∧
       (r = None → holder s'.2 p = Some cur) ∧ (owner x = 0 → r = None)) noerr.
Proof.
  intros Hs Hp Hx Ho Hout Hwait. destruct (sched_facts _ _ _ _ _ (proj1 Hs)) as (Hcur & _ & [[Hl _ _] _] & _).
  unfold lock_acquire_in, get_curthread. wp_steps. apply (wp_get_lock _ _ _ x); [done|]. wp_steps.
  change (cpu_of s) with (cpu_of s.1.1). rewrite Hcur. wp_assert by lia. unfold splhigh. wp_steps. apply wp_splx.
  eapply wp_mono; [apply (acquire_loop_ok _ rest cur slp rdy pend p x); try done| |done].
  - by apply snv_spl.
  - cpu_simpl. by rewrite cpu_of_set, curspl_spl_set.
  - cpu_simpl. by rewrite cpu_of_set, in_interrupt_spl_set.
  - intros r s' Hr. exact Hr.
Qed.

(** ** Condition variables *)

Lemma cv_wait_ok s rest cur slp rdy c z p x :
  snv s rest cur slp rdy None → locks s.2 !! p = Some x → owner x = cur →
  cvs s.2 !! c = Some z → room (cv_queue z).2 → rdy ≠ ∅ → in_interrupt (cpu_of s.1.1) = 0 →
  wp safe (cv_wait as_activate cpu_idle idle_fuel c p) s
    (λ r s', sinv s' (pending_of r) ∧ owners_by cur s.2 s'.2 ∧ is_Some r ∧ holder s'.2 p = Some 0) noerr.
Proof.
  intros Hs Hx Ho Hz Hroom Hne Hint. destruct (sched_facts _ _ _ _ _ (proj1 Hs)) as (_ & _ & [[Hl _ _] _] & _).
  unfold cv_wait. wp_steps. eapply do_i_hold_ok; [apply Hs|done|]. wp_assert by lia.
  unfold splhigh. wp_steps. apply wp_splx. wp_steps.
  eapply wp_mono; [apply (lock_release_ok _ rest cur slp rdy None p x); [by apply snv_spl|done..]| |done].
  intros _ s1 ((slp1 & rdy1 & [Hs1 Hy1] & Hne1) & Hcpu1 & Hh1 & Hcv1 & Hby1). cbv beta.
  destruct (sched_facts _ _ _ _ _ Hs1) as (Hcur1 & Hc0 & _ & Hc1 & _).
  assert (cvs s1.2 !! c = Some z) as Hz1 by (by rewrite Hcv1).
  destruct (so_cv _ _ _ _ _ _ Hy1 c z Hz1) as [ql Hok]. unfold get_curthread. wp_steps.
  change (cpu_of s1) with (cpu_of s1.1.1). rewrite Hcur1.
  eapply wp_mono; [by apply (cv_enqueue_ok _ _ rest c z ql); [|apply Hok|]| |done].
  intros _ s2 (q' & Hq' & ->). cbv beta.
  cpu_simpl. cbn [fst] in Hcpu1. 
  eapply wp_mono; [apply (sleep_ok _ rest cur slp1 rdy1 cur); cbn [fst snd]| |done].
  - done.
  - apply (sync_sleep_cv _ _ _ _ _ _ _ ql); try done. apply holder_Some in Hh1 as (x1 & ? & ?).
    split; [done|]. exists x1. split; [done|congruence].
  - rewrite Hcpu1. cpu_simpl. by rewrite cpu_of_set, curspl_spl_set.
  - rewrite Hcpu1. cpu_simpl. by rewrite cpu_of_set, in_interrupt_spl_set.
  - auto.
  - done.
  - intros r s' (He & Hr & Hi). cbn [snd] in He. rewrite He. done.
Qed.

(** One thread is taken from the queue of a condition variable and woken. *)
Lemma signal_one_ok s rest cur slp rdy pend c z t ql :
  snv s rest cur slp rdy pend → 0 < curspl (cpu_of s.1.1) →
  cvs s.2 !! c = Some z → cv_ok slp rest c z (t :: ql) →
  wp safe (u ← on_cv_queue c q_remhead; on_threads (thread_wakeup u)) s
    (λ _ s', ∃ slp' rdy' z', snv s' rest cur slp' rdy' pend ∧ cpu_of s'.1.1 = cpu_of s.1.1 ∧
       locks s'.2 = locks s.2 ∧ cvs s'.2 !! c = Some z' ∧ cv_ok slp' rest c z' ql) noerr.
Proof.
  intros [Hs Hy] Hspl Hz Hok. destruct (sched_facts _ _ _ _ _ Hs) as (_ & _ & _ & _ & _ & Hap & _).
  pose proof Hok as [Hq Hn Hw]. destruct (proj1 (Hw t)) as (lock & spl & Ht); [left|].
  wp_steps. eapply wp_mono; [by apply (cv_dequeue_ok _ _ rest c z ql t)| |done].
  intros u s1 (q' & -> & Hq' & _ & ->). cbv beta.
  eapply wp_mono; [by apply (wake_ok _ rest cur slp rdy pend s.2 t (In_cv c lock spl))| |done].
  intros _ s2 (Hh & He2 & Hs2). cbn [fst snd] in Hh, He2.
  exists (delete t slp), (<[t := F_sleep (In_cv c lock spl)]> rdy), (set_cv_queue q' z). rewrite He2, Hh.
  split; [split; [done|]|].
  - rewrite He2. apply (sync_signal_wake _ _ _ _ _ _ _ _ _ ql); try done. apply Hap. by eexists.
  - split_and!; [done|done|cbn; by rewrite lookup_insert_eq|by eapply cv_ok_pop].
Qed.

Lemma wake_all_ok fuel : ∀ s rest cur slp rdy pend c z ql,
  snv s rest cur slp rdy pend → 0 < curspl (cpu_of s.1.1) →
  cvs s.2 !! c = Some z → cv_ok slp rest c z ql → (length ql ≤ fuel)%nat →
  wp safe (wake_all fuel c) s
    (λ _ s', (∃ slp' rdy', snv s' rest cur slp' rdy' pend) ∧ cpu_of s'.1.1 = cpu_of s.1.1 ∧
       locks s'.2 = locks s.2) noerr.
Proof.
  induction fuel as [|fuel IH]; intros s rest cur slp rdy pend c z ql Hs Hspl Hz Hok Hf; cbn [wake_all];
    wp_steps; (apply (wp_get_cv _ _ _ z); [done|]);
    pose proof (q_empty_iff _ _ _ (co_queue _ _ _ _ _ Hok)) as He; destruct ql as [|t ql]; simpl in Hf;
    [rewrite (proj2 He) by done; wp_steps; eauto|lia|rewrite (proj2 He) by done; wp_steps; eauto|].
  destruct (q_empty (cv_queue z).2); [discriminate (proj1 He eq_refl)|].
  apply wp_bind. eapply wp_mono; [by eapply wp_unbind, (signal_one_ok s rest cur slp rdy pend c z t ql)| |done].
  intros u s1 Hwp. cbv beta in Hwp. apply wp_bind. eapply wp_mono; [exact Hwp| |done].
  intros _ s2 (slp2 & rdy2 & z2 & Hs2 & Hc2 & Hl2 & Hz2 & Hok2). cbv beta.
  eapply wp_mono; [apply (IH s2 rest cur slp2 rdy2 pend c z2 ql); [done|by rewrite Hc2|done|done|lia]| |done].
  intros _ s3 (Hs3 & Hc3 & Hl3). rewrite Hc3, Hl3. done.
Qed.

(** What [cv_signal] and [cv_broadcast] have in common: the lock is given up,
    [m] wakes threads, and then the lock, still free, is taken again. *)
Lemma cv_notify_ok s rest cur slp rdy c z p x (m : Z → M (SY H) (option (control kont))) :
  snv s rest cur slp rdy None → locks s.2 !! p = Some x → owner x = cur → cvs s.2 !! c = Some z →
  (∀ spl s1 slp1 rdy1 ql Q, snv s1 rest cur slp1 rdy1 None → 0 < curspl (cpu_of s1.1.1) →
     cvs s1.2 !! c = Some z → cv_ok slp1 rest c z ql →
     (∀ s2 slp2 rdy2, snv s2 rest cur slp2 rdy2 None → locks s2.2 = locks s1.2 →
        wp safe (lock_acquire_in as_activate cpu_idle idle_fuel p [spl]) s2 Q noerr) →
     wp safe (m spl) s1 Q noerr) →
  wp safe (spl ← splhigh; lock_release p;; m spl) s
    (λ r s', sinv s' (pending_of r) ∧ owners_by cur s.2 s'.2 ∧ r = None ∧ holder s'.2 p = Some cur) noerr.
Proof.
  intros Hs Hx Ho Hz Hm. destruct (sched_facts _ _ _ _ _ (proj1 Hs)) as (_ & Hc0 & [[Hl _ _] _] & _).
  unfold splhigh. wp_steps. apply wp_splx. wp_steps.
  eapply wp_mono; [apply (lock_release_ok _ rest cur slp rdy None p x); [by apply snv_spl|done..]| |done].
  intros _ s1 ((slp1 & rdy1 & Hs1 & _) & Hcpu1 & Hh1 & Hcv1 & Hby1). cbv beta.
  assert (cvs s1.2 !! c = Some z) as Hz1 by (by rewrite Hcv1).
  destruct (so_cv _ _ _ _ _ _ (proj2 Hs1) c z Hz1) as [ql Hok].
  apply (Hm _ s1 slp1 rdy1 ql); try done.
  { rewrite Hcpu1. cpu_simpl. by rewrite cpu_of_set, curspl_spl_set. }
  intros s2 slp2 rdy2 Hs2 Hl2. apply holder_Some in Hh1 as (x1 & Hx1 & Ho1). rewrite <- Hl2 in Hx1.
  eapply wp_mono; [apply (lock_acquire_in_ok s2 rest cur slp2 rdy2 None p x1); try done; [congruence|eauto]| |done].
  intros r s3 (Hi & Hby3 & Hh3 & Hr). specialize (Hr Ho1). split_and!; [done| |done|auto].
  eapply owners_by_trans; [exact Hby1|]. eapply owners_by_trans; [|exact Hby3]. by apply owners_by_same.
Qed.

Lemma cv_signal_ok s rest cur slp rdy c z p x :
  snv s rest cur slp rdy None → locks s.2 !! p = Some x → owner x = cur → cvs s.2 !! c = Some z →
  wp safe (cv_signal as_activate cpu_idle idle_fuel c p) s
    (λ r s', sinv s' (pending_of r) ∧ owners_by cur s.2 s'.2 ∧ r = None ∧ holder s'.2 p = Some cur) noerr.
Proof.
  intros Hs Hx Ho Hz. unfold cv_signal. wp_steps. eapply do_i_hold_ok; [apply Hs|done|].
  apply wp_bind, wp_assert; [lia|]. apply (cv_notify_ok s rest cur slp rdy c z p x); [done..|].
  intros spl s1 slp1 rdy1 ql Q Hs1 Hspl1 Hz1 Hok1 HQ. cbv beta. apply wp_bind, (wp_get_cv _ _ _ z); [done|].
  apply wp_bind, wp_when; intros He; [|eauto].
  destruct ql as [|t ql].
  { rewrite (proj2 (q_empty_iff _ _ _ (co_queue _ _ _ _ _ Hok1))) in He; done. }
  eapply wp_mono; [by apply (signal_one_ok s1 rest cur slp1 rdy1 None c z t ql)| |done].
  intros _ s2 (slp2 & rdy2 & _ & Hs2 & _ & Hl2 & _). eauto.
Qed.

Lemma cv_broadcast_ok s rest cur slp rdy c z p x :
  snv s rest cur slp rdy None → locks s.2 !! p = Some x → owner x = cur → cvs s.2 !! c = Some z →
  wp safe (cv_broadcast as_activate cpu_idle idle_fuel c p) s
    (λ r s', sinv s' (pending_of r) ∧ owners_by cur s.2 s'.2 ∧ r = None ∧ holder s'.2 p = Some cur) noerr.
Proof.
  intros Hs Hx Ho Hz. unfold cv_broadcast. wp_steps. eapply do_i_hold_ok; [apply Hs|done|].
  apply wp_bind, wp_assert; [lia|]. apply (cv_notify_ok s rest cur slp rdy c z p x); [done..|].
  intros spl s1 slp1 rdy1 ql Q Hs1 Hspl1 Hz1 Hok1 HQ. cbv beta. apply wp_bind, (wp_get_cv _ _ _ z); [done|].
  apply wp_bind. eapply wp_mono; [apply (wake_all_ok _ s1 rest cur slp1 rdy1 None c z ql); try done| |done].
  - destruct (co_queue _ _ _ _ _ Hok1). lia.
  - intros _ s2 ((slp2 & rdy2 & Hs2) & _ & Hl2). eauto.
Qed.

(** [thread_yield], as a call of the running thread *)
Lemma yield_ok s rest cur slp rdy :
  snv s rest cur slp rdy None → ready_count s.1.2 < ready_room s.1.2 →
  wp safe (on_threads (thread_yield as_activate cpu_idle idle_fuel)) s
    (λ ctl s', sinv s' (pending_of (Some ctl)) ∧ s'.2 = s.2) noerr.
Proof.
  intros [Hs Hy] Hroom. destruct (sched_facts _ _ _ _ _ Hs) as (_ & _ & _ & _ & Hc & _).
  unfold on_threads. wp_steps.
  eapply wp_mono; [by apply (thread_yield_sched as_activate cpu_idle idle_fuel s.1 rest cur slp rdy)| |done].
  intros ctl t' (next & f & Hf & Hctl & Hs' & Hl). split; [|done].
  rewrite (pending_of_ctl f) by done. eexists rest, next, slp, _. split; [split; [done|]|].
  - apply (sync_next _ _ _ _ cur); [by apply sync_ready| |done]. right. rewrite lookup_insert_eq. by eexists.
  - intros [k' Hk']. cbn [fst]. rewrite Hl. by destruct f.
Qed.
End operations.
