(* ===== verification/SynchTheorems.v ===== *)
(** * Threads that synchronise: what always holds

    Any interleaving of the calls of synch.c, each by the thread that runs, keeps
    the invariant of SynchInv.v: no wake-up is lost and locks exclude. *)

From Stdlib Require Import ZArith Lia.
From stdpp Require Import base list gmap numbers strings relations.
From S2P Require Import Prelude Cpu KMem HeapCpu Array Queue Vnode Thread ThreadSpec ThreadTheorems Synch SynchSched SynchInv SynchProof ThreadProof.

Local Open Scope Z_scope.

(** What the running thread can do next *)
Inductive call :=
  | Call_P (sem : Z)
  | Call_V (sem : Z)
  | Call_acquire (lock : Z)
  | Call_release (lock : Z)
  | Call_wait (cv lock : Z)
  | Call_signal (cv lock : Z)
  | Call_broadcast (cv lock : Z)
  | Call_yield
  | Call_continue (k : kont).

(** The lock the caller holds once the call has returned *)
Definition takes (c : call) : option Z :=
  match c with
  | Call_acquire p | Call_signal _ p | Call_broadcast _ p
  | Call_continue (In_lock p _ _) | Call_continue (In_cv _ p _) => Some p
  | _ => None
  end.

Section system.
Context {H : Type} `{!HasCpu H} `{!KHeap H} `{!KHeapLaws H} `{!KHeapCpu H}.
Context (as_activate : Z → M (TH H kont) ()) (cpu_idle : M (TH H kont) ()) (idle_fuel : nat).
Implicit Types (s : SY H) (pend : option kont).

Definition completes (m : M (SY H) ()) : M (SY H) (option (control kont)) := m;; mret None.

Definition run (lbolt : Z) (c : call) : M (SY H) (option (control kont)) :=
  match c with
  | Call_P sem => P as_activate cpu_idle idle_fuel sem
  | Call_V sem => completes (V sem)
  | Call_acquire lock => lock_acquire as_activate cpu_idle idle_fuel lock
  | Call_release lock => completes (lock_release lock)
  | Call_wait cv lock => cv_wait as_activate cpu_idle idle_fuel cv lock
  | Call_signal cv lock => cv_signal as_activate cpu_idle idle_fuel cv lock
  | Call_broadcast cv lock => cv_broadcast as_activate cpu_idle idle_fuel cv lock
  | Call_yield => ctl ← on_threads (thread_yield as_activate cpu_idle idle_fuel); mret (Some ctl)
  | Call_continue k => continue as_activate cpu_idle idle_fuel lbolt k
  end.

Definition current s : Z := curthread (cpu_of s.1.1).
Definition sem_count (y : synch) (p : Z) : option Z := count <$> sems y !! p.

(** When the call may be made: the structures exist; locks are used as their
    assertions demand; a semaphore does not overflow; a thread that may sleep is no
    interrupt handler, has another one to run, and finds a free slot in the queue of the
    lock or condition variable, which has nine at first. That is a restriction: a full queue
    has to grow, and [lock_acquire] and [cv_wait] ignore that it may fail to
    ([lock_acquire_unregistered] shows what happens then). A woken thread goes on with what
    it was doing before it does anything else. *)
Definition allowed s pend (c : call) : Prop :=
  match c with
  | Call_P p => pend = None ∧ p ≠ 0 ∧ is_Some (sems s.2 !! p) ∧ can_sleep s
  | Call_V p => pend = None ∧ p ≠ 0 ∧ ∃ n, sem_count s.2 p = Some n ∧ n < 2 ^ 31 - 1
  | Call_acquire p => pend = None ∧ (∃ o, holder s.2 p = Some o ∧ o ≠ current s) ∧
      can_sleep s ∧ lock_room s.2 p
  | Call_release p => pend = None ∧ holder s.2 p = Some (current s)
  | Call_wait cv p => pend = None ∧ holder s.2 p = Some (current s) ∧ is_Some (cvs s.2 !! cv) ∧
      can_sleep s ∧ cv_room s.2 cv
  | Call_signal cv p | Call_broadcast cv p =>
      pend = None ∧ holder s.2 p = Some (current s) ∧ is_Some (cvs s.2 !! cv)
  | Call_yield => pend = None ∧ ready_count s.1.2 < ready_room s.1.2
  | Call_continue k => pend = Some k ∧ can_sleep s ∧
      match k with In_lock p _ _ | In_cv _ p _ => lock_room s.2 p | _ => True end
  end.

Lemma snv_current s rest cur slp rdy pend : snv s rest cur slp rdy pend → current s = cur.
Proof. intros [Hs _]. apply (sched_facts _ _ _ _ _ Hs). Qed.

Lemma can_sleep_ready s rest cur slp rdy pend :
  snv s rest cur slp rdy pend → can_sleep s → rdy ≠ ∅ ∧ in_interrupt (cpu_of s.1.1) = 0.
Proof. intros [Hs _] [Hr Hi]. split; [|done]. by apply (sched_facts _ _ _ _ _ Hs). Qed.

(** What a call guarantees: the invariant, who holds what, and the lock it is for *)
Definition done_ok s (c : call) (r : option (control kont)) (s' : SY H) : Prop :=
  sinv s' (pending_of r) ∧ owners_by (current s) s.2 s'.2 ∧
  (∀ p, takes c = Some p → r = None → holder s'.2 p = Some (current s)).

Lemma continue_ok lbolt s k :
  keeps_threads as_activate → sinv s (Some k) → allowed s (Some k) (Call_continue k) →
  wp safe (continue as_activate cpu_idle idle_fuel lbolt k) s (done_ok s (Call_continue k)) noerr.
Proof.
  intros Hact (rest & cur & slp & rdy & Hs & Hspl) (_ & Hcs & Hroom).
  pose proof (snv_current _ _ _ _ _ _ Hs) as Hcur. destruct (can_sleep_ready _ _ _ _ _ _ Hs Hcs) as [Hne Hint].
  pose proof (so_pend _ _ _ _ _ _ (proj2 Hs) k eq_refl) as Hk. specialize (Hspl ltac:(by eexists)).
  unfold done_ok. rewrite Hcur. destruct k as [p spl|p spl outer|c p spl|]; cbn [continue takes]; [..|done].
  - destruct Hk as [Hp Hl].
    eapply wp_mono; [by eapply (P_loop_ok as_activate cpu_idle idle_fuel Hact s rest cur slp rdy)| |done].
    intros r s' [Hi He]. split_and!; [done|by apply owners_by_same|done].
  - destruct Hk as [(_ & x & Hx & Ho) [Hl Hout]].
    eapply wp_mono; [eapply (acquire_loop_ok as_activate cpu_idle idle_fuel Hact s rest cur slp rdy); eauto| |done].
    { by intros ??? [= ->]. }
    intros r s' (Hi & Hby & Hh & _). split_and!; [done|done|]. intros q [= <-]. done.
  - destruct Hk as [(_ & x & Hx & Ho) Hl].
    eapply wp_mono; [eapply (lock_acquire_in_ok as_activate cpu_idle idle_fuel Hact s rest cur slp rdy); eauto| |done].
    { done. }
    intros r s' (Hi & Hby & Hh & _). split_and!; [done|done|]. intros q [= <-]. done.
Qed.

(** Every call that may be made returns, and guarantees [done_ok]. *)
Lemma run_ok lbolt s pend c :
  keeps_threads as_activate → sinv s pend → allowed s pend c →
  wp safe (run lbolt c) s (done_ok s c) noerr.
Proof.
  intros Hact Hi Ha. pose proof Hi as (rest & cur & slp & rdy & Hs & _).
  pose proof (snv_current _ _ _ _ _ _ Hs) as Hcur. pose proof (can_sleep_ready _ _ _ _ _ _ Hs) as Hcs.
  destruct c as [p|p|p|p|c p|c p|c p| |k]; [..|destruct Ha as [-> Ha]; by apply continue_ok];
    cbn [run allowed] in *; unfold done_ok, completes; rewrite ?Hcur in *; cbn [takes].
  - destruct Ha as (-> & H0 & Hp & [Hne Hint]%Hcs).
    eapply wp_mono; [by apply (P_ok as_activate cpu_idle idle_fuel Hact s rest cur slp rdy)| |done].
    intros r s' [Hi' He]. split_and!; [done|by apply owners_by_same|done].
  - destruct Ha as (-> & H0 & n & (x & Hx & ->)%fmap_Some & Hn). apply wp_bind.
    eapply wp_mono; [by apply (V_ok s rest cur slp rdy None p x)| |done].
    intros _ s' (Hs' & _ & He). wp_steps. split_and!; [|by apply owners_by_same; rewrite He|done].
    eexists _, _, _, _. split; [done|]. by intros [? ?].
  - destruct Ha as (-> & (o & (x & Hx & <-)%holder_Some & Ho) & [Hne Hint]%Hcs & Hroom).
    eapply wp_mono; [apply (lock_acquire_in_ok as_activate cpu_idle idle_fuel Hact s rest cur slp rdy None p x);
      try done; eauto| |done].
    intros r s' (Hi' & Hby & Hh & _). split_and!; [done|done|]. intros q [= <-]. done.
  - destruct Ha as (-> & (x & Hx & Ho)%holder_Some). apply wp_bind.
    eapply wp_mono; [by apply (lock_release_ok s rest cur slp rdy None p x)| |done].
    intros _ s' ((slp' & rdy' & Hs' & _) & _ & _ & _ & Hby). wp_steps. split_and!; [|done|done].
    exists rest, cur, slp', rdy'. split; [done|]. by intros [? ?].
  - destruct Ha as (-> & (x & Hx & Ho)%holder_Some & [z Hz] & [Hne Hint]%Hcs & Hroom).
    eapply wp_mono; [apply (cv_wait_ok as_activate cpu_idle idle_fuel Hact s rest cur slp rdy c z p x);
      try done; eauto| |done].
    intros r s' (Hi' & Hby & _). done.
  - destruct Ha as (-> & (x & Hx & Ho)%holder_Some & [z Hz]).
    eapply wp_mono; [by apply (cv_signal_ok as_activate cpu_idle idle_fuel Hact s rest cur slp rdy c z p x)| |done].
    intros r s' (Hi' & Hby & _ & Hh). split_and!; [done|done|]. by intros q [= <-].
  - destruct Ha as (-> & (x & Hx & Ho)%holder_Some & [z Hz]).
    eapply wp_mono; [by apply (cv_broadcast_ok as_activate cpu_idle idle_fuel Hact s rest cur slp rdy c z p x)| |done].
    intros r s' (Hi' & Hby & _ & Hh). split_and!; [done|done|]. by intros q [= <-].
  - destruct Ha as (-> & Hroom). apply wp_bind.
    eapply wp_mono; [by apply (yield_ok as_activate cpu_idle idle_fuel Hact s rest cur slp rdy)| |done].
    intros ctl s' [Hi' He]. wp_steps. split_and!; [done|by apply owners_by_same; rewrite He|done].
Qed.

(** A step: the running thread makes a call. *)
Inductive sstep (lbolt : Z) : SY H * option kont → SY H * option kont → Prop :=
  | sstep_call s pend c r s' : allowed s pend c → run lbolt c s = Ret r s' →
      sstep lbolt (s, pend) (s', pending_of r).

Lemma sstep_inv lbolt s pend s' pend' :
  keeps_threads as_activate → rtc (sstep lbolt) (s, pend) (s', pend') → sinv s pend → sinv s' pend'.
Proof.
  intros Hact Hrun. remember (s, pend) as a eqn:Ea. remember (s', pend') as b eqn:Eb.
  revert s pend Ea. induction Hrun as [a|a b c Hstep Hrun IH]; intros s0 p0 -> Hi; [by simplify_eq|].
  inversion Hstep as [s1 p1 c1 r s2 Ha Hr]; simplify_eq.
  eapply IH; [done..|]. apply (wp_returns _ _ _ _ _ _ _ (run_ok lbolt s0 p0 c1 Hact Hi Ha) Hr).
Qed.

(** [t] is in the queue [q]. *)
Definition in_ring (q : queue Z) (t : Z) : Prop :=
  ∃ k, 0 ≤ k < (nextwrite q - nextread q) `mod` size q ∧
    zlookup (slots q) ((nextread q + k) `mod` size q) = Some (Some t).
(** [t] is in the sleepers array, or in the run queue, of thread.c, *)
Definition is_sleeping s (t : Z) : Prop :=
  ∃ A, sleepers s.1.2 = Some A ∧ Some t ∈ take (Z.to_nat (num A.2)) (words A.2).
Definition is_ready s (t : Z) : Prop := ∃ R, runqueue s.1.2 = Some R ∧ in_ring R.2 t.
(** and goes on with [k]. *)
Definition waits_in s (t : Z) (k : kont) : Prop :=
  ∃ x, threads s.1.2 !! t = Some x ∧ pcb_frame x = Some (F_sleep k).

Lemma in_ring_rep m (q : queue Z) l t : queue_rep m q l → in_ring q t ↔ t ∈ l.
Proof.
  intros [Hs Hr Hrd Hw Hsl _]. assert ((nextwrite q - nextread q) `mod` size q = Z.of_nat (length l)) as He.
  { rewrite Hw, Zminus_mod_idemp_l. replace (nextread q + _ - nextread q) with (Z.of_nat (length l)) by lia.
    apply Z.mod_small. lia. }
  unfold in_ring. rewrite He. split.
  - intros (k & Hk & Hl). destruct (zlookup_lt_is_Some l k Hk) as [u Hu].
    pose proof (Hsl _ _ Hu). assert (u = t) as -> by congruence.
    unfold zlookup in Hu. case_match; [|done]. by eapply list_elem_of_lookup_2.
  - intros [i Hi]%list_elem_of_lookup. exists (Z.of_nat i). pose proof (lookup_lt_Some _ _ _ Hi).
    split; [lia|]. apply Hsl. by rewrite zlookup_nat.
Qed.

Lemma snv_waiting s rest cur slp rdy pend t :
  snv s rest cur slp rdy pend →
  (is_sleeping s t ↔ is_Some (slp !! t)) ∧ (is_ready s t ↔ is_Some (rdy !! t)) ∧
  (∀ k, waits_in s t k → is_Some (slp !! t) → slp !! t = Some k) ∧
  (∀ k, rdy !! t = Some (F_sleep k) → waits_in s t k).
Proof.
  intros [(sl & zb & rq & Hsys) _]. pose proof (sys_lists _ _ _ _ _ _ _ _ Hsys) as (Hs & Hr & _).
  pose proof Hsys as [(m & A & B & R & [_ HA _ HR Hsl _ Hrq _] & _) _ _ _ _ _ [Hvs _ Hvr]].
  split_and!.
  - rewrite Hs. unfold is_sleeping. rewrite HA. destruct Hsl as [Hn _ Hw _].
    assert (take (Z.to_nat (num A.2)) (words A.2) = Some <$> sl) as He by (by rewrite Hw, Hn, Nat2Z.id).
    split; [intros (A' & [= <-] & Hin)|intros Hin; exists A; split; [done|]]; revert Hin; rewrite He.
    + by intros (u & [= ->] & ?)%list_elem_of_fmap.
    + by apply list_elem_of_fmap_2.
  - rewrite Hr. unfold is_ready. rewrite HR, <- (in_ring_rep _ _ _ _ Hrq). naive_solver.
  - intros k (x & Hx & Hf) [k' Hk']. pose proof Hk' as (_ & y & Hy & Hfy & _)%Hvs. congruence.
  - intros k (_ & x & Hx & Hf)%Hvr. by exists x.
Qed.

(** C17: Semaphores lose no wake-up. However threads call [P], [V], the lock and
    condition variable operations and [thread_yield], a thread that sleeps in [P] waits
    for a semaphore whose count is zero. *)
Theorem sem_no_lost_wakeup lbolt s0 s pend :
  keeps_threads as_activate → sinv s0 None → rtc (sstep lbolt) (s0, None) (s, pend) →
  ∀ t p spl n, is_sleeping s t → waits_in s t (In_P p spl) → sem_count s.2 p = Some n → n = 0.
Proof.
  intros Hact H0 Hrun t p spl n Ht Hw (x & Hx & ->)%fmap_Some.
  destruct (sstep_inv _ _ _ _ _ Hact Hrun H0) as (rest & cur & slp & rdy & Hs & _).
  destruct (snv_waiting _ _ _ _ _ _ t Hs) as (Hsl & _ & Hk & _). apply Hsl in Ht.
  destruct (so_sem _ _ _ _ _ _ (proj2 Hs) p x Hx) as [_ Hc Hi].
  destruct (decide (0 < count x)) as [Hpos|]; [|lia]. destruct (Hi Hpos t spl). by apply Hk.
Qed.

(** C16: Locks lose no wake-up, as long as their queues have room. In any interleaving of
    calls that are [allowed], where a thread that may have to wait finds a free slot in the
    queue it would wait in, a thread that sleeps in [lock_acquire] is in the lock's queue, and the lock
    is held by a thread that runs, sleeps or is ready, or else a thread woken in
    [lock_acquire] on this lock is ready or running and tests it next. Without the free
    slot a thread may sleep outside of the queue ([lock_acquire_unregistered]). *)
Theorem lock_no_lost_wakeup lbolt s0 s pend :
  keeps_threads as_activate → sinv s0 None → rtc (sstep lbolt) (s0, None) (s, pend) →
  ∀ t p x spl outer, is_sleeping s t → waits_in s t (In_lock p spl outer) → locks s.2 !! p = Some x →
  in_ring (lock_queue x).2 t ∧
  (owner x ≠ 0 ∧ (owner x = current s ∨ is_sleeping s (owner x) ∨ is_ready s (owner x)) ∨
   owner x = 0 ∧ ((∃ u l o, is_ready s u ∧ waits_in s u (In_lock p l o)) ∨
                  (∃ l o, pend = Some (In_lock p l o)))).
Proof.
  intros Hact H0 Hrun t p x spl outer Ht Hw Hx.
  destruct (sstep_inv _ _ _ _ _ Hact Hrun H0) as (rest & cur & slp & rdy & Hs & _).
  destruct (snv_waiting _ _ _ _ _ _ t Hs) as (Hsl & _ & Hk & _). apply Hsl in Ht. specialize (Hk _ Hw Ht).
  destruct (so_lock _ _ _ _ _ _ (proj2 Hs) p x Hx) as [ql [Hq _ Hwt Hco Hal]].
  assert (t ∈ ql) as Hin by (apply Hwt; eauto). split; [by apply (in_ring_rep _ _ _ _ Hq)|].
  destruct (decide (owner x = 0)) as [Ho|Ho]; [right|left]; (split; [done|]).
  - destruct (Hco Ho) as [(u & l & o & Hu)|?]; [by intros ->; apply elem_of_nil in Hin|left|by right].
    exists u, l, o. destruct (snv_waiting _ _ _ _ _ _ u Hs) as (_ & Hr & _ & Hwu). split; [|by apply Hwu].
    apply Hr. by eexists.
  - destruct (snv_waiting _ _ _ _ _ _ (owner x) Hs) as (Hso & Hro & _). rewrite Hso, Hro.
    rewrite (snv_current _ _ _ _ _ _ Hs). by apply Hal.
Qed.

(** C15: Locks exclude. Every call a thread may make returns; it takes only locks that
    were free, gives up only locks its caller held, and when it returns in the caller,
    [lock_acquire], [cv_signal] and [cv_broadcast], and [lock_acquire] and [cv_wait]
    once resumed, the caller holds the lock. *)
Theorem locks_exclude lbolt s0 s pend c :
  keeps_threads as_activate → sinv s0 None → rtc (sstep lbolt) (s0, None) (s, pend) →
  allowed s pend c →
  ∃ r s', run lbolt c s = Ret r s' ∧
    (∀ p x, locks s.2 !! p = Some x → ∃ x', locks s'.2 !! p = Some x' ∧
       (owner x' = owner x ∨ owner x = 0 ∧ owner x' = current s ∨ owner x = current s ∧ owner x' = 0)) ∧
    (∀ p, takes c = Some p → r = None → holder s'.2 p = Some (current s)).
Proof.
  intros Hact H0 Hrun Ha. pose proof (sstep_inv _ _ _ _ _ Hact Hrun H0) as Hi.
  pose proof (run_ok lbolt s pend c Hact Hi Ha) as Hwp. unfold wp in Hwp.
  destruct (run lbolt c s) as [r s'|e s'|f|]; [|done..]. exists r, s'. split; [done|]. apply Hwp.
Qed.
End system.

(** ** Synchronisation: an example

    Four threads: one runs and holds a lock, one is ready to start, one sleeps in
    [lock_acquire] on that lock and one in [P] on a semaphore. *)


Definition holder_thread : thread kont :=
  MkThread None 0 0 0 (32, "holder"%string) 0 0 [] 0 0 1.
Definition ready_thread : thread kont :=
  MkThread (Some (F_new 1 2 3)) 4176 0 0 (64, "ready"%string) 0 80 stack_magic 0 0 1.
Definition lock_waiter : thread kont :=
  MkThread (Some (F_sleep (In_lock 320 0 []))) 4224 0 0 (112, "locking"%string) 96 128 stack_magic 0 0 1.
Definition sem_waiter : thread kont :=
  MkThread (Some (F_sleep (In_P 240 0))) 4400 0 0 (288, "waiting"%string) 240 304 stack_magic 0 0 1.

Definition sy_threads : gmap Z (thread kont) :=
  <[16 := holder_thread]> (<[48 := ready_thread]> (<[96 := lock_waiter]> {[272 := sem_waiter]})).
Definition sy_sleepers : Z * array Z := (144, MkArray 2 4 160 [Some 96; Some 272; None; None]).
Definition sy_tsys : tsys kont :=
  MkTsys (Some sy_sleepers) (Some ex_zombies) 4 (Some ex_runqueue) 0 sy_threads ∅.
Definition sy_synch : synch :=
  MkSynch {[240 := MkSem (336, "sem"%string) 0]}
    {[320 := MkLock (352, "lock"%string) 16 (368, MkQueue 4 1 0 256 [Some 96; None; None; None])]} ∅ 0.
Definition sy_rest : gmap Z Z := CpuHeap.blocks [240; 256].
Definition sy_blocks : list Z := [240; 256] ++ sys_blocks sy_sleepers ex_zombies ex_runqueue sy_threads.
Definition sy_state : SY CpuHeap.t :=
  ((CpuHeap.of_blocks ex_tcpu sy_blocks 0, sy_tsys), sy_synch).

Definition sy_slp : gmap Z kont := <[96 := In_lock 320 0 []]> {[272 := In_P 240 0]}.
Definition sy_rdy : gmap Z (frame kont) := {[48 := F_new 1 2 3]}.

Lemma sy_blocks_ok : NoDup sy_blocks ∧ Forall (λ b, 0 < b < 2 ^ 20) sy_blocks.
Proof. split; apply (bool_decide_eq_true_1 _); vm_compute; reflexivity. Qed.

Lemma sy_owned :
  owned (CpuHeap.blocks sy_blocks) (sys_blocks sy_sleepers ex_zombies ex_runqueue sy_threads) sy_rest.
Proof.
  destruct sy_blocks_ok as [(_ & Hout & Hn)%NoDup_app _].
  split; [done|..]; intros b Hb; unfold sy_rest; rewrite ?CpuHeap.blocks_lookup.
  - rewrite decide_False; [done|]. intros Hin. by apply (Hout b).
  - rewrite decide_True; [by eexists|]. apply elem_of_app. by right.
  - unfold sy_blocks. destruct (decide (b ∈ [240; 256])) as [Hin|Hin].
    + rewrite decide_True; [done|]. apply elem_of_app. by left.
    + rewrite decide_False; [done|]. rewrite elem_of_app. tauto.
Qed.

(** Going through the threads one by one *)
Lemma sy_threads_cases (Q : Z → thread kont → Prop) :
  Q 16 holder_thread → Q 48 ready_thread → Q 96 lock_waiter → Q 272 sem_waiter →
  ∀ t x, sy_threads !! t = Some x → Q t x.
Proof.
  intros H1 H2 H3 H4 t x. unfold sy_threads.
  intros [[<- <-]|[_ [[<- <-]|[_ [[<- <-]|[_ [<- <-]%lookup_singleton_Some]]%lookup_insert_Some]]%lookup_insert_Some]]%lookup_insert_Some; done.
Qed.

Lemma sy_who : who_inv sy_threads [16] [96; 272] [] [48].
Proof.
  split.
  - apply (bool_decide_eq_true_1 _). vm_compute. reflexivity.
  - intros t. split.
    + intros [x Hx]. revert t x Hx. apply sy_threads_cases; set_solver.
    + simpl. rewrite !elem_of_cons, elem_of_nil. intros [->|[->|[->|[->|[]]]]]; by eexists.
  - apply sy_threads_cases; [by intros []|done..].
  - intros t. simpl. rewrite !elem_of_cons, elem_of_nil. intros [->|[->|[->|[]]]]; by eexists _, _.
  - by intros t ?%elem_of_nil.
Qed.

Lemma sy_mem :
  mem_inv (CpuHeap.blocks sy_blocks) sy_sleepers ex_zombies ex_runqueue sy_state.1 sy_rest [96; 272] [] [48].
Proof.
  split; try done.
  - apply heap_owns_any, CpuHeap.of_blocks_owns; [apply ex_tcpu_running|apply sy_blocks_ok].
  - split; try done. apply (owned_elem _ _ _ _ sy_owned). left.
  - split; try done. apply (owned_elem _ _ _ _ sy_owned). right. left.
  - split; try done.
    intros k x Hk. pose proof (zlookup_lt_Some _ _ _ Hk) as Hlt. simpl in Hlt.
    assert (k = 0) as -> by lia. injection Hk as <-. reflexivity.
  - apply sy_owned.
Qed.

Lemma sy_view_ok : sview [96; 272] [48] sy_threads sy_slp sy_rdy.
Proof.
  split.
  - intros t k. unfold sy_slp. rewrite lookup_insert_Some, lookup_singleton_Some. split.
    + intros [[<- <-]|[_ [<- <-]]]; (split; [set_solver|]); eexists; split_and!; reflexivity.
    + rewrite !elem_of_cons, elem_of_nil. intros [[->|[->|[]]] (x & [= <-] & [= <-] & _)]; [by left|by right].
  - intros t. rewrite !elem_of_cons, elem_of_nil. intros [->|[->|[]]]; by eexists.
  - intros t f. unfold sy_rdy. rewrite lookup_singleton_Some. split.
    + intros [<- <-]. split; [set_solver|]. eexists. split; reflexivity.
    + rewrite !elem_of_cons, elem_of_nil. by intros [[->|[]] (x & [= <-] & [= <-])].
Qed.

Lemma sy_lock_ok x :
  locks sy_synch !! 320 = Some x → lock_ok sy_slp sy_rdy sy_rest 16 None 320 x [96].
Proof.
  intros [= <-]. split; [|apply NoDup_singleton| |done|by left].
  - split; try done.
    intros k y Hk. pose proof (zlookup_lt_Some _ _ _ Hk) as Hlt. simpl in Hlt.
    assert (k = 0) as -> by lia. injection Hk as <-. reflexivity.
  - intros t. unfold sy_slp. rewrite list_elem_of_singleton.
    setoid_rewrite lookup_insert_Some. setoid_rewrite lookup_singleton_Some. naive_solver.
Qed.

Lemma sy_sync_ok : sync_ok sy_synch sy_slp sy_rdy sy_rest 16 None.
Proof.
  split; [| |done|..|done].
  - intros p x. cbn [sems sy_synch]. intros [<- <-]%lookup_singleton_Some. split; [by eexists|done|done].
  - intros p x Hx. pose proof Hx as Hp. cbn [locks sy_synch] in Hp. apply lookup_singleton_Some in Hp as [<- _].
    exists [96]. by apply sy_lock_ok.
  - intros t k. unfold sy_slp. rewrite lookup_insert_Some, lookup_singleton_Some.
    intros [[<- <-]|[_ [<- <-]]].
    + split; [|done]. split; [done|]. by eexists.
    + split; [by eexists|done].
  - intros t k. unfold sy_rdy. by intros [_ ?]%lookup_singleton_Some.
Qed.

Lemma sy_inv : sinv sy_state None.
Proof.
  exists sy_rest, 16, sy_slp, sy_rdy. split; [|by intros [? ?]]. split; [|apply sy_sync_ok].
  exists [96; 272], [], [48]. split.
  - eexists _, _, _, _. split; [apply sy_mem|apply sy_who].
  - apply ex_tcpu_running.
  - reflexivity.
  - reflexivity.
  - discriminate.
  - discriminate.
  - apply sy_view_ok.
Qed.

Definition sy_activate (a : Z) : M (TH CpuHeap.t kont) () := mret tt.
Definition sy_idle : M (TH CpuHeap.t kont) () := mret tt.
Lemma sy_activate_keeps : keeps_threads sy_activate.
Proof. intros a s m Hh Hr. unfold sy_activate. apply wp_ret. done. Qed.

Lemma sem_no_lost_wakeup_witness : sem_count sy_state.2 240 = Some 0 ∧ 0 = 0.
Proof.
  split; [reflexivity|].
  apply (sem_no_lost_wakeup sy_activate sy_idle 0 400 sy_state sy_state None sy_activate_keeps sy_inv
    (rtc_refl _ _) 272 240 0 0).
  - exists sy_sleepers. split; [reflexivity|]. apply list_elem_of_lookup. exists 1%nat. reflexivity.
  - exists sem_waiter. split; reflexivity.
  - reflexivity.
Defined.

Lemma lock_no_lost_wakeup_witness :
  ∃ x, locks sy_state.2 !! 320 = Some x ∧ owner x = 16 ∧ in_ring (lock_queue x).2 96.
Proof.
  eexists. split; [reflexivity|]. split; [reflexivity|].
  eapply (lock_no_lost_wakeup sy_activate sy_idle 0 400 sy_state sy_state None sy_activate_keeps sy_inv
    (rtc_refl _ _) 96 320 _ 0 []).
  - exists sy_sleepers. split; [reflexivity|]. apply list_elem_of_lookup. exists 0%nat. reflexivity.
  - exists lock_waiter. split; reflexivity.
  - reflexivity.
Defined.

(** The running thread may release the lock, in the state after a [V]. *)
Lemma locks_exclude_witness :
  ∃ s r s', rtc (sstep sy_activate sy_idle 0 400) (sy_state, None) (s, None) ∧ s ≠ sy_state ∧
    run sy_activate sy_idle 0 400 (Call_release 320) s = Ret r s'.
Proof.
  destruct (run sy_activate sy_idle 0 400 (Call_V 240) sy_state) as [r s|e s|f|] eqn:Hrun.
  - assert (allowed sy_state None (Call_V 240)) as Ha.
    { split; [reflexivity|]. split; [discriminate|]. exists 0. split; reflexivity. }
    pose proof Hrun as Hval. vm_compute in Hval. injection Hval as Hr Hs.
    assert (rtc (sstep sy_activate sy_idle 0 400) (sy_state, None) (s, None)) as Hstep.
    { apply rtc_once. pose proof (sstep_call sy_activate sy_idle 0 400 _ _ _ _ _ Ha Hrun) as Hst.
      rewrite <- Hr in Hst. exact Hst. }
    destruct (locks_exclude sy_activate sy_idle 0 400 sy_state s None (Call_release 320)
      sy_activate_keeps sy_inv Hstep) as (r' & s' & He & _).
    + split; [reflexivity|]. rewrite <- Hs. reflexivity.
    + exists s, r', s'. split; [exact Hstep|]. split; [|exact He]. rewrite <- Hs. discriminate.
  - vm_compute in Hrun. discriminate.
  - vm_compute in Hrun. discriminate.
  - vm_compute in Hrun. discriminate.
Defined.

(** Another thread holds the lock, whose queue is full. *)
Definition sy_full : SY CpuHeap.t :=
  (sy_state.1, with_lock 320 (MkLock (352, "lock"%string) 48 (368, MkQueue 2 1 0 256 [Some 96; None])) sy_synch).

(** The exception to that: when the lock's queue is full and the heap is exhausted,
    [lock_acquire] ignores that [q_addtail] failed. The caller goes to sleep without
    being in the queue, and no [lock_release] will find it. *)
Theorem lock_acquire_unregistered :
  ∃ ctl s' x, lock_acquire sy_activate sy_idle 0 320 sy_full = Ret (Some ctl) s' ∧
    is_sleeping s' 16 ∧ waits_in s' 16 (In_lock 320 SPL_HIGH []) ∧
    locks s'.2 !! 320 = Some x ∧ ¬ in_ring (lock_queue x).2 16.
Proof.
  destruct (lock_acquire sy_activate sy_idle 0 320 sy_full) as [[ctl|] s'|e s'|f|] eqn:Hrun;
    vm_compute in Hrun; try discriminate.
  injection Hrun as <- <-. eexists _, _, _. split; [reflexivity|]. split_and!.
  - eexists. split; [reflexivity|]. apply list_elem_of_lookup. exists 2%nat. reflexivity.
  - eexists. split; reflexivity.
  - reflexivity.
  - intros (k & Hk & Hl). change (0 ≤ k < 1) in Hk. assert (k = 0) as -> by lia. vm_compute in Hl. discriminate.
Qed.
