(* ===== verification/Kernel.v ===== *)
(** * The kernel as the system calls see it

    Processes and system calls (kern/arch/mips/mips/syscall/) use the heap, locks and
    condition variables, threads, address spaces and the VFS layer. This file is the
    interface between them: the operations, and their contract in terms of a view of
    the kernel. The view has only what the system calls depend on.

    A system call may have to wait, for a lock or in [cv_wait]; another thread runs
    then. A run of an operation that waits is [NoReturn] here: the contract is about
    calls that find their locks free. Synch.v has the scheduling. *)

From Stdlib Require Import ZArith Lia.
From stdpp Require Import base list gmap gmultiset numbers strings.
From S2P Require Import Prelude Cpu KMem Uio.

Local Open Scope Z_scope.

Class KernelOps (S : Type) := {
  k_cpu :: HasCpu S;
  k_heap :: KHeap S;
  lock_create : string → M S Z;
  lock_destroy : Z → M S ();
  lock_acquire : Z → M S ();
  lock_release : Z → M S ();
  lock_do_i_hold : Z → M S bool;
  cv_create : string → M S Z;
  cv_destroy : Z → M S ();
  cv_wait : Z → Z → M S ();
  cv_broadcast : Z → Z → M S ();
  (** [t->t_pid] and [t->t_vmspace] *)
  t_pid : Z → M S Z;
  set_t_pid : Z → Z → M S ();
  t_vmspace : Z → M S Z;
  set_t_vmspace : Z → Z → M S ();
  (** the arguments are those of the new thread's function *)
  thread_fork : string → Z → Z → Z → M S Z;
  (** another thread runs when it returns *)
  thread_exit : M S ();
  (** an error number, and the new address space *)
  as_copy : Z → M S (Z * Z);
  as_activate : Z → M S ();
  as_valid_ptr : Z → M S Z;
  as_v : Z → M S Z;
  (** an error number, and the vnode *)
  vfs_open : string → Z → M S (Z * Z);
  vfs_close : Z → M S ();
  vop_read : Z → uio → M S (Z * uio);
  vop_write : Z → uio → M S (Z * uio);
  (** the kernel reads and writes user memory directly: the string at an address,
      and a word *)
  user_string : Z → M S string;
  store_word : Z → Z → M S ();
}.

(** The view: the running thread, its address space and the vnode of its executable;
    the live heap blocks that are not part of another
    component's structures; the locks, each with its owner; the condition variables;
    those of the two that nobody waits for; the pids of the threads; the new threads
    and how they start; the open vnodes, each as often as it is open; the words of user memory the
    kernel can store to; what [as_valid_ptr] says of an address; the words the kernel has
    stored in user memory, the last one first. *)
Record kview := MkView {
  kv_cur : Z;
  kv_space : Z;
  kv_exec : Z;
  kv_mem : gmap Z Z;
  kv_locks : gmap Z Z;
  kv_cvs : gset Z;
  kv_idle : gset Z;
  kv_pids : gmap Z Z;
  kv_starts : gmap Z (Z * Z * Z);
  kv_opens : gmultiset Z;
  kv_user : Z → bool;
  kv_valid : Z → Z;
  kv_stores : list (Z * Z);
}.

Definition with_space a v (k : kview) : kview :=
  MkView (kv_cur k) a v (kv_mem k) (kv_locks k) (kv_cvs k) (kv_idle k) (kv_pids k) (kv_starts k)
    (kv_opens k) (kv_user k) (kv_valid k) (kv_stores k).
Definition with_mem m (k : kview) : kview :=
  MkView (kv_cur k) (kv_space k) (kv_exec k) m (kv_locks k) (kv_cvs k) (kv_idle k) (kv_pids k) (kv_starts k) (kv_opens k) (kv_user k) (kv_valid k) (kv_stores k).
Definition with_locks l i (k : kview) : kview :=
  MkView (kv_cur k) (kv_space k) (kv_exec k) (kv_mem k) l (kv_cvs k) i (kv_pids k) (kv_starts k) (kv_opens k) (kv_user k) (kv_valid k) (kv_stores k).
Definition with_cvs c i (k : kview) : kview :=
  MkView (kv_cur k) (kv_space k) (kv_exec k) (kv_mem k) (kv_locks k) c i (kv_pids k) (kv_starts k) (kv_opens k) (kv_user k) (kv_valid k) (kv_stores k).
Definition with_pids p t (k : kview) : kview :=
  MkView (kv_cur k) (kv_space k) (kv_exec k) (kv_mem k) (kv_locks k) (kv_cvs k) (kv_idle k) p t (kv_opens k) (kv_user k) (kv_valid k) (kv_stores k).
Definition with_opens o (k : kview) : kview :=
  MkView (kv_cur k) (kv_space k) (kv_exec k) (kv_mem k) (kv_locks k) (kv_cvs k) (kv_idle k) (kv_pids k) (kv_starts k) o (kv_user k) (kv_valid k) (kv_stores k).

Definition add_store a w (k : kview) : kview :=
  MkView (kv_cur k) (kv_space k) (kv_exec k) (kv_mem k) (kv_locks k) (kv_cvs k) (kv_idle k) (kv_pids k) (kv_starts k)
    (kv_opens k) (kv_user k) (kv_valid k) ((a, w) :: kv_stores k).

Definition set_lock (p o : Z) (k : kview) : kview := with_locks (<[p := o]> (kv_locks k)) (kv_idle k) k.
Definition add_open (v : Z) (k : kview) : kview := with_opens (kv_opens k ⊎ {[+ v +]}) k.
Definition del_open (v : Z) (k : kview) : kview := with_opens (kv_opens k ∖ {[+ v +]}) k.

(** What [VOP_READ] and [VOP_WRITE] do to the [uio]: when they succeed, [uio_offset]
    has moved on by the number of bytes transferred. *)
Definition moved (u : uio) (r : Z * uio) : Prop :=
  r.1 = 0 → 0 ≤ uio_resid u → ∃ n, 0 ≤ n ≤ uio_resid u ∧ uio_offset r.2 = uio_offset u + n.

(** The contract. [kmalloc], [lock_create] and [cv_create] may return NULL. *)
Class Kernel (S : Type) `{!KernelOps S} := {
  kst : S → kview → Prop;
  kst_cur s k : kst s k → running (cpu_of s) ∧ curthread (cpu_of s) = kv_cur k;
  kst_null s k : kst s k → kv_mem k !! 0 = None;
  kmalloc_k s k sz : kst s k → 0 ≤ sz < 2 ^ 31 →
    wp safe_oom (kmalloc sz) s (λ p s', cpu_of s' = cpu_of s ∧
      (p = 0 ∧ kst s' k ∨
       p ≠ 0 ∧ kv_mem k !! p = None ∧ kst s' (with_mem (<[p := sz]> (kv_mem k)) k))) noerr;
  kfree_k s k p : kst s k → is_Some (kv_mem k !! p) →
    wp safe (kfree p) s (λ _ s', cpu_of s' = cpu_of s ∧ kst s' (with_mem (delete p (kv_mem k)) k)) noerr;
  lock_create_k s k name : kst s k →
    wp safe_oom (lock_create name) s (λ p s', cpu_of s' = cpu_of s ∧
      (p = 0 ∧ kst s' k ∨
       p ≠ 0 ∧ kv_locks k !! p = None ∧
         kst s' (with_locks (<[p := 0]> (kv_locks k)) (kv_idle k ∪ {[p]}) k))) noerr;
  lock_destroy_k s k p : kst s k → kv_locks k !! p = Some 0 → p ∈ kv_idle k →
    wp safe (lock_destroy p) s (λ _ s', cpu_of s' = cpu_of s ∧
      kst s' (with_locks (delete p (kv_locks k)) (kv_idle k) k)) noerr;
  lock_acquire_k s k p : kst s k → kv_locks k !! p = Some 0 →
    wp safe (lock_acquire p) s (λ _ s', cpu_of s' = cpu_of s ∧ kst s' (set_lock p (kv_cur k) k)) noerr;
  lock_release_k s k p : kst s k → kv_locks k !! p = Some (kv_cur k) →
    wp safe (lock_release p) s (λ _ s', cpu_of s' = cpu_of s ∧ kst s' (set_lock p 0 k)) noerr;
  lock_do_i_hold_k s k p o : kst s k → kv_locks k !! p = Some o →
    wp safe (lock_do_i_hold p) s (λ b s', b = (o =? kv_cur k) ∧ s' = s) noerr;
  cv_create_k s k name : kst s k →
    wp safe_oom (cv_create name) s (λ p s', cpu_of s' = cpu_of s ∧
      (p = 0 ∧ kst s' k ∨
       p ≠ 0 ∧ p ∉ kv_cvs k ∧ kst s' (with_cvs (kv_cvs k ∪ {[p]}) (kv_idle k ∪ {[p]}) k))) noerr;
  cv_destroy_k s k p : kst s k → p ∈ kv_cvs k → p ∈ kv_idle k →
    wp safe (cv_destroy p) s (λ _ s', cpu_of s' = cpu_of s ∧
      kst s' (with_cvs (kv_cvs k ∖ {[p]}) (kv_idle k) k)) noerr;
  cv_broadcast_k s k c l : kst s k → c ∈ kv_cvs k → kv_locks k !! l = Some (kv_cur k) →
    wp safe (cv_broadcast c l) s (λ _ s', cpu_of s' = cpu_of s ∧
      kst s' (with_cvs (kv_cvs k) (kv_idle k ∪ {[c]}) k)) noerr;
  t_pid_k s k t pid : kst s k → kv_pids k !! t = Some pid →
    wp safe (t_pid t) s (λ r s', r = pid ∧ s' = s) noerr;
  set_t_pid_k s k t pid : kst s k → is_Some (kv_pids k !! t) →
    wp safe (set_t_pid t pid) s (λ _ s', cpu_of s' = cpu_of s ∧
      kst s' (with_pids (<[t := pid]> (kv_pids k)) (kv_starts k) k)) noerr;
  t_vmspace_k s k t : kst s k → is_Some (kv_pids k !! t) →
    wp safe (t_vmspace t) s (λ a s', s' = s ∧ (t = kv_cur k → a = kv_space k)) noerr;
  set_t_vmspace_k s k a : kst s k →
    wp safe (set_t_vmspace (kv_cur k) a) s (λ _ s', cpu_of s' = cpu_of s ∧
      ∃ v, kst s' (with_space a v k)) noerr;
  thread_fork_k s k pid name a b f : kst s k → kv_pids k !! kv_cur k = Some pid →
    wp safe_oom (thread_fork name a b f) s
      (λ t s', t ≠ 0 ∧ kv_pids k !! t = None ∧ cpu_of s' = cpu_of s ∧
         kst s' (with_pids (<[t := pid]> (kv_pids k)) (<[t := (a, b, f)]> (kv_starts k)) k))
      (λ e s', e ≠ 0 ∧ cpu_of s' = cpu_of s ∧ kst s' k);
  as_copy_k s k a : kst s k →
    wp safe_oom (as_copy a) s (λ r s', cpu_of s' = cpu_of s ∧
      (r.1 ≠ 0 ∧ kst s' k ∨
       r.1 = 0 ∧ r.2 ≠ 0 ∧ kv_mem k !! r.2 = None ∧ ∃ sz, kst s' (with_mem (<[r.2 := sz]> (kv_mem k)) k))) noerr;
  as_activate_k s k a : kst s k →
    wp safe (as_activate a) s (λ _ s', cpu_of s' = cpu_of s ∧ kst s' k) noerr;
  as_valid_ptr_k s k a : kst s k →
    wp safe (as_valid_ptr a) s (λ r s', r = kv_valid k a ∧ cpu_of s' = cpu_of s ∧ kst s' k) noerr;
  as_v_k s k : kst s k → wp safe (as_v (kv_space k)) s (λ v s', s' = s ∧ v = kv_exec k) noerr;
  vfs_open_k s k path flags : kst s k →
    wp safe_oom (vfs_open path flags) s (λ r s', cpu_of s' = cpu_of s ∧
      (r.1 ≠ 0 ∧ kst s' k ∨ r.1 = 0 ∧ kst s' (add_open r.2 k))) noerr;
  vfs_close_k s k v : kst s k → v ∈ kv_opens k →
    wp safe (vfs_close v) s (λ _ s', cpu_of s' = cpu_of s ∧ kst s' (del_open v k)) noerr;
  store_word_k s k a w : kst s k → kv_user k a = true →
    wp safe (store_word a w) s (λ _ s', cpu_of s' = cpu_of s ∧ kst s' (add_store a w k)) noerr;
  vop_read_k s k v u : kst s k → v ∈ kv_opens k →
    wp safe_oom (vop_read v u) s (λ r s', cpu_of s' = cpu_of s ∧ kst s' k ∧ moved u r) noerr;
  vop_write_k s k v u : kst s k → v ∈ kv_opens k →
    wp safe_oom (vop_write v u) s (λ r s', cpu_of s' = cpu_of s ∧ kst s' k ∧ moved u r) noerr;
}.

(** Memory does not run out: a kernel in which [kmalloc], [lock_create] and [cv_create] do
    not return NULL. It is a hypothesis of what is shown of the system calls that allocate,
    since they do not check: [_open] and [constructUio] write through the pointer that
    [kmalloc] returns, [process_create_for_id] tests the wrong one, and takes the process
    back only in part when its last lock cannot be made. *)
Class MemoryLasts (S : Type) `{!KernelOps S} `{!Kernel S} : Prop := {
  kmalloc_lasts s k sz : kst s k → 0 ≤ sz < 2 ^ 31 → wp safe_oom (kmalloc sz) s (λ p _, p ≠ 0) noerr;
  lock_create_lasts s k name : kst s k → wp safe_oom (lock_create name) s (λ p _, p ≠ 0) noerr;
  cv_create_lasts s k name : kst s k → wp safe_oom (cv_create name) s (λ p _, p ≠ 0) noerr;
}.
