(* ===== verification/Process.v ===== *)
(** * Processes and files

    Model of kern/arch/mips/mips/syscall/ (fork.c, exit.c, waitpid.c, getpid.c, open.c,
    close.c, readwrite.c) on the kernel of Kernel.v. Processes and open files are
    reached by their address; a file table is the array inside its process. The
    process table, the lock that guards it and the saved trap frames are the globals of
    fork.c. [DEBUG] prints nothing. *)

From Stdlib Require Import ZArith Lia.
From stdpp Require Import base list gmap numbers strings.
From S2P Require Import Prelude Cpu KMem HeapCpu Uio Kernel.

Local Open Scope Z_scope.

Definition MAX_PROCESSES : Z := 128.
Definition MAX_FILE_HANDLES : Z := 32.
Definition FIRST_FILE_HANDLE : Z := 3.
Definition O_RDONLY : Z := 0.
Definition O_WRONLY : Z := 1.
Definition sizeof_process : Z := 160.
Definition sizeof_fd : Z := 16.
Definition sizeof_uio : Z := 28.
Definition sizeof_trapframe : Z := 148.

(** [struct fd] *)
Record fd := MkFd { fd_name : Z * string; flags : Z; position : Z; node : Z }.

(** [struct process]; an entry of the file table is the address of a [struct fd], or
    0. *)
Record process := MkProcess {
  p_pid : Z;
  p_parentpid : Z;
  p_thread : Z;
  p_finished : Z;
  p_exitcode : Z;
  p_exitcv : Z;
  p_exitlock : Z;
  p_file_table_lock : Z;
  p_file_table : list Z;
}.

(** [struct trapframe]: the registers the kernel uses, and the 27 others *)
Record trapframe := MkTf {
  tf_vaddr : Z;
  tf_status : Z;
  tf_cause : Z;
  tf_v0 : Z;
  tf_a0 : Z;
  tf_a1 : Z;
  tf_a2 : Z;
  tf_a3 : Z;
  tf_sp : Z;
  tf_epc : Z;
  tf_others : list Z;
}.

Record procs := MkProcs {
  runningprocesses : list Z;
  process_lock : Z;
  processes : gmap Z process;
  fds : gmap Z fd;
  frames : gmap Z trapframe;
}.

Definition set_running l (y : procs) : procs :=
  MkProcs l (process_lock y) (processes y) (fds y) (frames y).
Definition set_processes m (y : procs) : procs :=
  MkProcs (runningprocesses y) (process_lock y) m (fds y) (frames y).
Definition set_fds m (y : procs) : procs :=
  MkProcs (runningprocesses y) (process_lock y) (processes y) m (frames y).
Definition set_frames m (y : procs) : procs :=
  MkProcs (runningprocesses y) (process_lock y) (processes y) (fds y) m.

Definition set_exitcv c x : process :=
  MkProcess (p_pid x) (p_parentpid x) (p_thread x) (p_finished x) (p_exitcode x) c (p_exitlock x)
    (p_file_table_lock x) (p_file_table x).
Definition set_exitlock l x : process :=
  MkProcess (p_pid x) (p_parentpid x) (p_thread x) (p_finished x) (p_exitcode x) (p_exitcv x) l
    (p_file_table_lock x) (p_file_table x).
Definition set_ids pid parent x : process :=
  MkProcess pid parent (p_thread x) 0 0 (p_exitcv x) (p_exitlock x) (p_file_table_lock x) (p_file_table x).
Definition set_thread t x : process :=
  MkProcess (p_pid x) (p_parentpid x) t (p_finished x) (p_exitcode x) (p_exitcv x) (p_exitlock x)
    (p_file_table_lock x) (p_file_table x).
Definition set_finished code x : process :=
  MkProcess (p_pid x) (p_parentpid x) (p_thread x) 1 code (p_exitcv x) (p_exitlock x)
    (p_file_table_lock x) (p_file_table x).
Definition set_table_lock l x : process :=
  MkProcess (p_pid x) (p_parentpid x) (p_thread x) (p_finished x) (p_exitcode x) (p_exitcv x) (p_exitlock x)
    l (p_file_table x).
Definition set_table l x : process :=
  MkProcess (p_pid x) (p_parentpid x) (p_thread x) (p_finished x) (p_exitcode x) (p_exitcv x) (p_exitlock x)
    (p_file_table_lock x) l.

Section operations.
Context {S : Type} `{!KernelOps S}.

Definition PS : Type := S * procs.

Definition on_k {A} (m : M S A) : M PS A := zoom fst (λ s w, (s, w.2)) m.
Definition upd_procs (f : procs → procs) : M PS () := modify (λ s, (s.1, f s.2)).

(** Access through a pointer *)
Definition get_process p : M PS process := s ← get; the (processes s.2 !! p).
Definition upd_process p (f : process → process) : M PS () :=
  x ← get_process p;
  upd_procs (λ y, set_processes (<[p := f x]> (processes y)) y).
Definition get_fd f : M PS fd := s ← get; the (fds s.2 !! f).
Definition put_fd f x : M PS () := upd_procs (λ y, set_fds (<[f := x]> (fds y)) y).

(** [file_table[i]] of the process at [p] *)
Definition get_entry p i : M PS Z := x ← get_process p; the (zlookup (p_file_table x) i).
Definition set_entry p i e : M PS () :=
  x ← get_process p;
  l ← the (zstore (p_file_table x) i e);
  upd_process p (set_table l).

(** [runningprocesses[pid]] *)
Definition get_running pid : M PS Z := s ← get; the (zlookup (runningprocesses s.2) pid).
Definition set_running_at pid p : M PS () :=
  s ← get;
  l ← the (zstore (runningprocesses s.2) pid p);
  upd_procs (set_running l).

Definition get_process_lock : M PS Z := s ← get; mret (process_lock s.2).
Definition curpid : M PS Z := cur ← get_curthread; on_k (t_pid cur).

(** ** open.c and close.c *)

(** The results of [kmalloc] and [kstrdup] are used unchecked. The fields of the new
    [struct fd] are stored together, once its vnode is known. *)
Definition _open p i (filename : string) flgs : M PS Z :=
  assert ((0 <=? i) && (i <? MAX_FILE_HANDLES));;
  e ← get_entry p i;
  assert (e =? 0);;
  f ← on_k (kmalloc sizeof_fd);
  set_entry p i f;;
  if f =? 0 then undefined else
  nm ← on_k (kstrdup filename);
  kfilename ← on_k (kstrdup filename);
  if kfilename.1 =? 0 then undefined else
  r ← on_k (vfs_open kfilename.2 flgs);
  put_fd f (MkFd nm (Z.land 0x3 flgs) 0 r.2);;
  on_k (kfree kfilename.1);;
  when (negb (r.1 =? 0))
    (on_k (kfree nm.1);;
     on_k (kfree f);;
     upd_procs (λ y, set_fds (delete f (fds y)) y);;
     set_entry p i 0);;
  mret r.1.

Definition _close p i : M PS () :=
  f ← get_entry p i;
  x ← get_fd f;
  on_k (kfree (fd_name x).1);;
  on_k (vfs_close (node x));;
  on_k (kfree f);;
  upd_procs (λ y, set_fds (delete f (fds y)) y);;
  set_entry p i 0.

(** [for (i = FIRST_FILE_HANDLE; i < MAX_FILE_HANDLES; i++)]: close what is open. *)
Definition close_all p : M PS () :=
  for_range FIRST_FILE_HANDLE (MAX_FILE_HANDLES - FIRST_FILE_HANDLE) (λ i,
    e ← get_entry p i;
    when (negb (e =? 0)) (_close p i)).

(** The first free handle from [i] on *)
Fixpoint free_handle (fuel : nat) p i : M PS (option Z) :=
  match fuel with
  | O => mret None
  | Datatypes.S fuel =>
    e ← get_entry p i;
    if e =? 0 then mret (Some i) else free_handle fuel p (i + 1)
  end.

(** The result, and the error number *)
Definition sys_open (filename : string) flgs : M PS (Z * Z) :=
  pl ← get_process_lock;
  on_k (lock_acquire pl);;
  pid ← curpid;
  p ← get_running pid;
  x ← get_process p;
  on_k (lock_acquire (p_file_table_lock x));;
  h ← free_handle (Z.to_nat (MAX_FILE_HANDLES - FIRST_FILE_HANDLE)) p FIRST_FILE_HANDLE;
  r ← match h with
      | Some i => err ← _open p i filename flgs; mret (i, err)
      | None => mret (-1, EMFILE)
      end;
  on_k (lock_release (p_file_table_lock x));;
  on_k (lock_release pl);;
  mret r.

Definition sys_close i : M PS Z :=
  pl ← get_process_lock;
  on_k (lock_acquire pl);;
  pid ← curpid;
  p ← get_running pid;
  x ← get_process p;
  on_k (lock_acquire (p_file_table_lock x));;
  retval ←
    (if (0 <=? i) && (i <=? 2) then mret EBADF
     else if (i <? 0) || (MAX_FILE_HANDLES <=? i) then mret EBADF
     else
       e ← get_entry p i;
       if negb (e =? 0) then _close p i;; mret 0 else mret EBADF);
  on_k (lock_release (p_file_table_lock x));;
  on_k (lock_release pl);;
  mret retval.

(** ** readwrite.c *)

(** The address of the [struct uio], and its contents *)
Definition constructUio rw buffer length file_offset : M PS (Z * uio) :=
  cur ← get_curthread;
  space ← on_k (t_vmspace cur);
  ret ← on_k (kmalloc sizeof_uio);
  if ret =? 0 then undefined else
  mret (ret, MkUio (MkIovec buffer length) (s32 file_offset) length UIO_USERSPACE rw space).

(** The code at [error:] *)
Definition rw_error pl tl err : M PS (Z * Z) :=
  b ← on_k (lock_do_i_hold tl);
  when b (on_k (lock_release tl));;
  on_k (lock_release pl);;
  mret (-1, err).

(** From [lock_acquire(file_table_lock)] on, the two functions do the same: [mode] is
    the mode of the files they refuse. *)
Definition transfer pl p tl i buf nbytes mode rw (vop : Z → uio → M S (Z * uio)) : M PS (Z * Z) :=
  on_k (lock_acquire tl);;
  f ← get_entry p i;
  if f =? 0 then rw_error pl tl EBADF else
  x ← get_fd f;
  if flags x =? mode then rw_error pl tl EBADF else
  u ← constructUio rw buf nbytes (u32 (position x));
  r ← on_k (vop (node x) u.2);
  let length := s32 (uio_offset r.2 - position x) in
  on_k (kfree u.1);;
  if r.1 =? 0 then
    put_fd f (MkFd (fd_name x) (flags x) (s32 (position x + length)) (node x));;
    on_k (lock_release tl);;
    on_k (lock_release pl);;
    mret (length, 0)
  else rw_error pl tl r.1.

Definition sys_read i buf buflen : M PS (Z * Z) :=
  pl ← get_process_lock;
  on_k (lock_acquire pl);;
  pid ← curpid;
  p ← get_running pid;
  x ← get_process p;
  let tl := p_file_table_lock x in
  bad ← on_k (as_valid_ptr buf);
  if negb (bad =? 0) then rw_error pl tl EFAULT
  else if (i <? 0) || (MAX_FILE_HANDLES - 1 <? i) then rw_error pl tl EBADF
  else if (i =? 1) || (i =? 2) then rw_error pl tl EBADF
  else
  e ← get_entry p i;
  err ← (if (i =? 0) && (e =? 0) then _open p i "con:" O_RDONLY else mret 0);
  if negb (err =? 0) then rw_error pl tl err else
  transfer pl p tl i buf buflen O_WRONLY UIO_READ vop_read.

Definition sys_write i buf nbytes : M PS (Z * Z) :=
  pl ← get_process_lock;
  on_k (lock_acquire pl);;
  pid ← curpid;
  p ← get_running pid;
  x ← get_process p;
  let tl := p_file_table_lock x in
  bad ← on_k (as_valid_ptr buf);
  if negb (bad =? 0) then rw_error pl tl EFAULT
  else if (i <? 0) || (MAX_FILE_HANDLES - 1 <? i) then rw_error pl tl EBADF
  else if i =? 0 then rw_error pl tl EBADF
  else
  e ← get_entry p i;
  err ← (if ((i =? 1) || (i =? 2)) && (e =? 0) then _open p i "con:" O_WRONLY else mret 0);
  if negb (err =? 0) then rw_error pl tl err else
  transfer pl p tl i buf nbytes O_RDONLY UIO_WRITE vop_write.

(** ** fork.c *)

Definition release_if pl : M PS () := when (negb (pl =? 0)) (on_k (lock_release pl)).

(** [junk] is what the fresh memory holds. The test [dst == NULL] is never true: it is
    the pointer the caller passed, not the one [kmalloc] returned. *)
Definition process_create_for_id (junk : process) pid pl : M PS (Z * Z) :=
  dst ← on_k (kmalloc sizeof_process);
  if dst =? 0 then undefined else
  upd_procs (λ y, set_processes (<[dst := junk]> (processes y)) y);;
  c ← on_k (cv_create "");
  upd_process dst (set_exitcv c);;
  if c =? 0 then
    on_k (kfree dst);;
    upd_procs (λ y, set_processes (delete dst (processes y)) y);;
    release_if pl;;
    mret (ENOMEM, dst)
  else
  l ← on_k (lock_create "");
  upd_process dst (set_exitlock l);;
  if l =? 0 then
    on_k (kfree c);;
    on_k (kfree dst);;
    upd_procs (λ y, set_processes (delete dst (processes y)) y);;
    release_if pl;;
    mret (ENOMEM, dst)
  else
  set_running_at pid dst;;
  parent ← curpid;
  upd_process dst (set_ids pid parent);;
  release_if pl;;
  t ← on_k (lock_create "file_table_lock");
  upd_process dst (set_table_lock t);;
  if t =? 0 then
    on_k (lock_destroy l);;
    on_k (cv_destroy c);;
    on_k (kfree dst);;
    upd_procs (λ y, set_processes (delete dst (processes y)) y);;
    mret (ENOMEM, dst)
  else
  upd_process dst (set_table (replicate (Z.to_nat MAX_FILE_HANDLES) 0));;
  mret (0, dst).

(** The first free process id from [pid] on *)
Fixpoint free_pid (fuel : nat) pid : M PS (option Z) :=
  match fuel with
  | O => mret None
  | Datatypes.S fuel =>
    p ← get_running pid;
    if p =? 0 then mret (Some pid) else free_pid fuel (pid + 1)
  end.

(** The error number, and the new process *)
Definition process_create (junk : process) : M PS (Z * Z) :=
  pl ← get_process_lock;
  on_k (lock_acquire pl);;
  r ← free_pid (Z.to_nat (MAX_PROCESSES - 1)) 1;
  match r with
  | None =>
    on_k (lock_release pl);;
    mret (EAGAIN, 0)
  | Some pid => process_create_for_id junk pid pl
  end.

Definition process_remove pid : M PS () :=
  p ← get_running pid;
  assert (negb (p =? 0));;
  pl ← get_process_lock;
  on_k (lock_acquire pl);;
  x ← get_process p;
  on_k (lock_destroy (p_exitlock x));;
  on_k (cv_destroy (p_exitcv x));;
  on_k (lock_destroy (p_file_table_lock x));;
  close_all p;;
  on_k (kfree p);;
  upd_procs (λ y, set_processes (delete p (processes y)) y);;
  set_running_at pid 0;;
  on_k (lock_release pl).

(** The loop of [sys_fork] over the parent's file table, from handle [i] on: the error
    number it stops with *)
Fixpoint copy_files (fuel : nat) parent child i : M PS Z :=
  match fuel with
  | O => mret 0
  | Datatypes.S fuel =>
    f ← get_entry parent i;
    if f =? 0 then copy_files fuel parent child (i + 1) else
    x ← get_fd f;
    err ← _open child i (fd_name x).2 (flags x);
    if negb (err =? 0) then mret err else copy_files fuel parent child (i + 1)
  end.

(** [kfree(newTrapFrame)] *)
Definition free_frame tf : M PS () :=
  on_k (kfree tf);;
  upd_procs (λ y, set_frames (delete tf (frames y)) y).

(** How [sys_fork] gives up once there is a new process *)
Definition fork_fail newTrapFrame newAddrspace pid err : M PS (Z * Z) :=
  free_frame newTrapFrame;;
  on_k (kfree newAddrspace);;
  process_remove pid;;
  mret (-1, err).

(** [sys_fork] from [pid = newProcess->p_pid] on; [child_fork] is the address of the
    function of that name. *)
Definition fork_process newTrapFrame newAddrspace child_fork newProcess : M PS (Z * Z) :=
  x ← get_process newProcess;
  let pid := p_pid x in
  pl ← get_process_lock;
  on_k (lock_acquire pl);;
  mypid ← curpid;
  parent ← get_running mypid;
  err ← copy_files (Z.to_nat MAX_FILE_HANDLES) parent newProcess 0;
  if negb (err =? 0) then
    close_all newProcess;;
    on_k (lock_release pl);;
    fork_fail newTrapFrame newAddrspace pid err
  else
  on_k (lock_release pl);;
  t ← try (on_k (thread_fork "TODO - Thread Name" newAddrspace newTrapFrame child_fork));
  match t with
  | inr err => fork_fail newTrapFrame newAddrspace pid err
  | inl newThread =>
    on_k (set_t_pid newThread pid);;
    upd_process newProcess (set_thread newThread);;
    mret (pid, 0)
  end.

(** The result is the pid or -1, and the error number. *)
Definition sys_fork (junk : process) (child_fork : Z) (tf : trapframe) : M PS (Z * Z) :=
  newTrapFrame ← on_k (kmalloc sizeof_trapframe);
  if newTrapFrame =? 0 then mret (-1, ENOMEM) else
  cur ← get_curthread;
  space ← on_k (t_vmspace cur);
  r ← on_k (as_copy space);
  if negb (r.1 =? 0) then
    on_k (kfree newTrapFrame);;
    mret (-1, r.1)
  else
  let newAddrspace := r.2 in
  upd_procs (λ y, set_frames (<[newTrapFrame := tf]> (frames y)) y);;
  c ← process_create junk;
  if negb (c.1 =? 0) then
    free_frame newTrapFrame;;
    on_k (kfree newAddrspace);;
    mret (-1, c.1)
  else fork_process newTrapFrame newAddrspace child_fork c.2.

(** What the new thread does first: the trap frame it enters user mode with *)
Definition child_fork asPtr tfPtr : M PS trapframe :=
  s ← get;
  tf ← the (frames s.2 !! tfPtr);
  cur ← get_curthread;
  on_k (set_t_vmspace cur asPtr);;
  on_k (as_activate asPtr);;
  free_frame tfPtr;;
  mret (MkTf (tf_vaddr tf) (tf_status tf) (tf_cause tf) 0 (tf_a0 tf) (tf_a1 tf) (tf_a2 tf) 0 (tf_sp tf)
    (u32 (tf_epc tf + 4)) (tf_others tf)).

(** ** exit.c, waitpid.c, getpid.c *)

(** What [sys__exit] does before [thread_exit] *)
Definition exit_process exitcode : M PS () :=
  pl ← get_process_lock;
  on_k (lock_acquire pl);;
  pid ← curpid;
  p ← get_running pid;
  (if negb (p =? 0) then
     x ← get_process p;
     on_k (lock_acquire (p_file_table_lock x));;
     close_all p;;
     on_k (lock_release (p_file_table_lock x));;
     on_k (lock_acquire (p_exitlock x));;
     upd_process p (set_finished exitcode);;
     on_k (cv_broadcast (p_exitcv x) (p_exitlock x));;
     on_k (lock_release (p_exitlock x))
   else mret tt);;
  on_k (lock_release pl);;
  cur ← get_curthread;
  space ← on_k (t_vmspace cur);
  v ← on_k (as_v space);
  on_k (vfs_close v).

Definition sys__exit exitcode : M PS () :=
  exit_process exitcode;;
  on_k thread_exit.

(** The loop of [sys_waitpid]: as long as the process runs, the caller waits. *)
Fixpoint wait_finished (fuel : nat) p : M PS () :=
  x ← get_process p;
  if negb (p_finished x =? 0) then mret tt else
  match fuel with
  | O => noreturn
  | Datatypes.S fuel =>
    on_k (cv_wait (p_exitcv x) (p_exitlock x));;
    wait_finished fuel p
  end.

(** The result, and the error number; [fuel] bounds the wake-ups while the process still
    runs. *)
Definition sys_waitpid (fuel : nat) pid status options : M PS (Z * Z) :=
  if negb (options =? 0) then mret (-1, EINVAL) else
  if (pid <? 1) || (MAX_PROCESSES <=? pid) then mret (-1, EFAULT) else
  p ← get_running pid;
  if p =? 0 then mret (-1, EFAULT) else
  x ← get_process p;
  me ← curpid;
  if negb (p_parentpid x =? me) then mret (-1, EFAULT) else
  on_k (lock_acquire (p_exitlock x));;
  wait_finished fuel p;;
  x ← get_process p;
  on_k (store_word status (p_exitcode x));;
  on_k (lock_release (p_exitlock x));;
  process_remove pid;;
  mret (pid, 0).

Definition sys_getpid : M PS Z := curpid.
End operations.
Arguments PS S : clear implicits.
