(* ===== verification/ProcessProof.v ===== *)
(** * Processes and files: the operations

    What the operations of Process.v do to the process table, the file tables and the
    view of the kernel. *)

From Stdlib Require Import ZArith Lia.
From stdpp Require Import base list gmap gmultiset numbers strings.
From S2P Require Import Prelude Cpu KMem HeapCpu Uio Kernel Process.

Local Open Scope Z_scope.

(** ** Views *)

Lemma with_mem_same k : with_mem (kv_mem k) k = k.
Proof. by destruct k. Qed.
Lemma with_mem_twice m m' k : with_mem m (with_mem m' k) = with_mem m k.
Proof. done. Qed.
Lemma set_lock_twice p a b k : set_lock p a (set_lock p b k) = set_lock p a k.
Proof. unfold set_lock, with_locks. cbn. by rewrite insert_insert_eq. Qed.
Lemma set_lock_same p a k : kv_locks k !! p = Some a → set_lock p a k = k.
Proof. intros Hp. unfold set_lock, with_locks. rewrite insert_id by done. by destruct k. Qed.
Lemma add_del_open v k : del_open v (add_open v k) = k.
Proof.
  unfold del_open, add_open, with_opens. destruct k. cbn. f_equal. multiset_solver.
Qed.

(** Releasing a lock that was taken while [f] happened *)
Lemma set_lock_back p a b k : kv_locks k !! p = Some a → set_lock p a (set_lock p b k) = k.
Proof. intros Hp. by rewrite set_lock_twice, set_lock_same. Qed.
Lemma set_lock_comm p q a b k : p ≠ q → set_lock p a (set_lock q b k) = set_lock q b (set_lock p a k).
Proof. intros Hne. unfold set_lock, with_locks. cbn. by rewrite insert_insert_ne. Qed.

(** ** The tables *)

(** The process [p] with entry [i] of its file table set to [e] *)
Definition set_handle (p i e : Z) (x : process) (y : procs) : procs :=
  set_processes (<[p := set_table (<[Z.to_nat i := e]> (p_file_table x)) x]> (processes y)) y.

(** The heap blocks of the open files, of the processes and of the saved trap frames *)
Definition fd_blocks (m : gmap Z fd) : list Z := map_to_list m ≫= λ '(f, d), [f; (fd_name d).1].
Definition proc_blocks (y : procs) : list Z :=
  fd_blocks (fds y) ++ (map_to_list (processes y)).*1 ++ (map_to_list (frames y)).*1.
(** The vnodes of the open files *)
Definition fd_nodes (m : gmap Z fd) : gmultiset Z := list_to_set_disj (node <$> (map_to_list m).*2).

(** Every file table has its 32 entries; an entry in use leads to an open file that no
    other entry leads to. *)
Record tables_ok (y : procs) : Prop := {
  to_length p x : processes y !! p = Some x → Z.of_nat (length (p_file_table x)) = MAX_FILE_HANDLES;
  to_fd p x i e : processes y !! p = Some x → zlookup (p_file_table x) i = Some e → e ≠ 0 →
    is_Some (fds y !! e);
  to_inj p x i p' x' i' e : processes y !! p = Some x → processes y !! p' = Some x' →
    zlookup (p_file_table x) i = Some e → zlookup (p_file_table x') i' = Some e → e ≠ 0 →
    p = p' ∧ i = i';
}.

(** The live blocks of the view are those of the processes and the blocks [rest] of
    others; the open vnodes are those of the open files and [others]. *)
Record files_ok (k : kview) (y : procs) (rest : gmap Z Z) (others : gmultiset Z) : Prop := {
  fo_blocks : owned (kv_mem k) (proc_blocks y) rest;
  fo_nodes : kv_opens k = fd_nodes (fds y) ⊎ others;
  fo_tables : tables_ok y;
}.

Definition same_but_files (k k' : kview) : Prop := k' = with_opens (kv_opens k') (with_mem (kv_mem k') k).

Lemma fd_blocks_delete m f d :
  m !! f = Some d → fd_blocks m ≡ₚ f :: (fd_name d).1 :: fd_blocks (delete f m).
Proof. intros Hf. unfold fd_blocks. by rewrite <- (map_to_list_delete _ _ _ Hf). Qed.

Lemma fd_blocks_insert m f d :
  m !! f = None → fd_blocks (<[f := d]> m) ≡ₚ f :: (fd_name d).1 :: fd_blocks m.
Proof.
  intros Hf. rewrite (fd_blocks_delete _ f d) by (by rewrite lookup_insert_eq). by rewrite delete_insert_id.
Qed.

Lemma fd_nodes_delete m f d :
  m !! f = Some d → fd_nodes m = {[+ node d +]} ⊎ fd_nodes (delete f m).
Proof.
  intros Hf. unfold fd_nodes. rewrite <- (map_to_list_delete _ _ _ Hf). done.
Qed.

Lemma fd_nodes_insert m f d :
  m !! f = None → fd_nodes (<[f := d]> m) = {[+ node d +]} ⊎ fd_nodes m.
Proof.
  intros Hf. rewrite (fd_nodes_delete _ f d) by (by rewrite lookup_insert_eq). by rewrite delete_insert_id.
Qed.

(** The blocks of the processes do not depend on what is in them. *)
Lemma proc_keys_update {A} (m : gmap Z A) p x x' :
  m !! p = Some x → (map_to_list (<[p := x']> m)).*1 ≡ₚ (map_to_list m).*1.
Proof.
  intros Hp. rewrite <- (map_to_list_delete m p x Hp), <- (map_to_list_delete (<[p := x']> m) p x')
    by (by rewrite lookup_insert_eq). by rewrite delete_insert_eq.
Qed.

Lemma tables_set_handle y p x i e :
  tables_ok y → processes y !! p = Some x → 0 ≤ i < MAX_FILE_HANDLES →
  (e ≠ 0 → is_Some (fds y !! e)) →
  (e ≠ 0 → ∀ p' x' i', processes y !! p' = Some x' → zlookup (p_file_table x') i' ≠ Some e) →
  tables_ok (set_handle p i e x y).
Proof.
  intros [Hl Hf Hinj] Hx Hi Hfe Hne. pose proof (Hl _ _ Hx) as Hlen.
  assert (∀ p' x' j e', <[p := set_table (<[Z.to_nat i := e]> (p_file_table x)) x]> (processes y) !! p' = Some x' →
    zlookup (p_file_table x') j = Some e' →
    p' = p ∧ j = i ∧ e' = e ∨
    ¬ (p' = p ∧ j = i) ∧ ∃ x0, processes y !! p' = Some x0 ∧ zlookup (p_file_table x0) j = Some e') as Hcase.
  { intros p' x' j e' [[<- <-]|[Hnp Hx']]%lookup_insert_Some Hj; [|right; split; [naive_solver|eauto]].
    cbn [p_file_table set_table] in Hj. pose proof (zlookup_lt_Some _ _ _ Hj) as Hjl. rewrite length_insert in Hjl.
    rewrite zlookup_insert in Hj by lia. case_decide as Hd; [left; naive_solver|].
    right. split; [naive_solver|eauto]. }
  split; cbn [set_handle set_processes processes fds].
  - intros p' x' [[<- <-]|[_ Hx']]%lookup_insert_Some; [|eauto]. cbn. by rewrite length_insert.
  - intros p' x' j e' Hx' Hj He. destruct (Hcase _ _ _ _ Hx' Hj) as [(-> & -> & ->)|(_ & x0 & ? & ?)]; eauto.
  - intros p1 x1 j1 p2 x2 j2 e' H1 H2 Hj1 Hj2 He.
    destruct (Hcase _ _ _ _ H1 Hj1) as [(-> & -> & ->)|(_ & y1 & Hy1 & Hz1)],
      (Hcase _ _ _ _ H2 Hj2) as [(-> & -> & Heq)|(_ & y2 & Hy2 & Hz2)]; [done| | |eauto].
    + by destruct (Hne He p2 y2 j2 Hy2).
    + subst e'. by destruct (Hne He p1 y1 j1 Hy1).
Qed.

Section operations.
Context {S : Type} `{!KernelOps S} `{!Kernel S}.
Implicit Types (s : PS S) (k : kview) (x : process) (y : procs).

Lemma wp_get_process F s p x (Q : process → PS S → Prop) E :
  processes s.2 !! p = Some x → Q x s → wp F (get_process p) s Q E.
Proof. intros Hx HQ. unfold get_process. wp_steps. by apply (wp_the _ _ x). Qed.

Lemma wp_get_fd F s f d (Q : fd → PS S → Prop) E :
  fds s.2 !! f = Some d → Q d s → wp F (get_fd f) s Q E.
Proof. intros Hx HQ. unfold get_fd. wp_steps. by apply (wp_the _ _ d). Qed.

Lemma wp_get_entry F s p x i e (Q : Z → PS S → Prop) E :
  processes s.2 !! p = Some x → zlookup (p_file_table x) i = Some e → Q e s →
  wp F (get_entry p i) s Q E.
Proof.
  intros Hx He HQ. unfold get_entry. wp_steps. apply (wp_get_process _ _ _ x); [done|]. by apply (wp_the _ _ e).
Qed.

Lemma wp_set_entry F s p x i e (Q : () → PS S → Prop) E :
  processes s.2 !! p = Some x → 0 ≤ i < Z.of_nat (length (p_file_table x)) →
  Q tt (s.1, set_handle p i e x s.2) →
  wp F (set_entry p i e) s Q E.
Proof.
  intros Hx Hi HQ. unfold set_entry. wp_steps. apply (wp_get_process _ _ _ x); [done|].
  wp_the _ by (by apply zstore_Some). unfold upd_process, upd_procs. wp_steps.
  apply (wp_get_process _ _ _ x); [done|]. by wp_steps.
Qed.

Lemma wp_on_k {A} F (m : M S A) s (Q : A → PS S → Prop) (E : Z → PS S → Prop) :
  wp F m s.1 (λ a t, Q a (t, s.2)) (λ e t, E e (t, s.2)) → wp F (on_k m) s Q E.
Proof. intros Hm. unfold on_k. by apply wp_zoom. Qed.

(** ** The kernel's operations, on the state of the processes *)

Lemma p_kmalloc_ok `{HM : !MemoryLasts S} s k sz (Q : Z → PS S → Prop) E :
  kst s.1 k → 0 ≤ sz < 2 ^ 31 →
  (∀ p t, p ≠ 0 → kv_mem k !! p = None → cpu_of t = cpu_of s.1 →
     kst t (with_mem (<[p := sz]> (kv_mem k)) k) → Q p (t, s.2)) →
  wp safe_oom (on_k (kmalloc sz)) s Q E.
Proof.
  intros Hk Hsz HQ. apply wp_on_k. eapply wp_mono; [apply wp_and; [by apply (kmalloc_k s.1 k)|by apply (kmalloc_lasts s.1 k)]| |by intros ?? []].
  intros p t [(? & [[? _]|(? & ? & ?)]) ?]; [done|]. by apply HQ.
Qed.

Lemma p_kfree_ok F s k p (Q : () → PS S → Prop) E :
  kst s.1 k → is_Some (kv_mem k !! p) →
  (∀ t, cpu_of t = cpu_of s.1 → kst t (with_mem (delete p (kv_mem k)) k) → Q tt (t, s.2)) →
  wp F (on_k (kfree p)) s Q E.
Proof.
  intros Hk Hp HQ. apply wp_on_k, wp_faults with safe; [|done].
  eapply wp_mono; [by apply (kfree_k s.1 k)| |done]. intros [] t [? ?]. by apply HQ.
Qed.

Lemma p_kstrdup_ok `{HM : !MemoryLasts S} s k str (Q : Z * string → PS S → Prop) E :
  kst s.1 k → Z.of_nat (String.length str) < 2 ^ 31 - 1 →
  (∀ p t, p ≠ 0 → kv_mem k !! p = None → cpu_of t = cpu_of s.1 →
     kst t (with_mem (<[p := Z.of_nat (String.length str) + 1]> (kv_mem k)) k) → Q (p, str) (t, s.2)) →
  wp safe_oom (on_k (kstrdup str)) s Q E.
Proof.
  intros Hk Hl HQ. apply wp_on_k. unfold kstrdup. wp_steps.
  eapply wp_mono; [apply wp_and; [apply (kmalloc_k s.1 k)|apply (kmalloc_lasts s.1 k)]; [done|lia|done|lia]| |by intros ?? []].
  intros p t [(? & [[? _]|(? & ? & ?)]) ?]; [done|]. wp_steps. by apply HQ.
Qed.

Lemma p_acquire_ok F s k p (Q : () → PS S → Prop) E :
  kst s.1 k → kv_locks k !! p = Some 0 →
  (∀ t, cpu_of t = cpu_of s.1 → kst t (set_lock p (kv_cur k) k) → Q tt (t, s.2)) →
  wp F (on_k (lock_acquire p)) s Q E.
Proof.
  intros Hk Hp HQ. apply wp_on_k, wp_faults with safe; [|done].
  eapply wp_mono; [by apply (lock_acquire_k s.1 k)| |done]. intros [] t [? ?]. by apply HQ.
Qed.

Lemma p_release_ok F s k p (Q : () → PS S → Prop) E :
  kst s.1 k → kv_locks k !! p = Some (kv_cur k) →
  (∀ t, cpu_of t = cpu_of s.1 → kst t (set_lock p 0 k) → Q tt (t, s.2)) →
  wp F (on_k (lock_release p)) s Q E.
Proof.
  intros Hk Hp HQ. apply wp_on_k, wp_faults with safe; [|done].
  eapply wp_mono; [by apply (lock_release_k s.1 k)| |done]. intros [] t [? ?]. by apply HQ.
Qed.

Lemma p_curpid_ok F s k pid (Q : Z → PS S → Prop) E :
  kst s.1 k → kv_pids k !! kv_cur k = Some pid → Q pid s → wp F curpid s Q E.
Proof.
  intros Hk Hp HQ. unfold curpid, get_curthread. wp_steps.
  destruct (kst_cur s.1 k Hk) as [_ Hc]. change (cpu_of s) with (cpu_of s.1). rewrite Hc.
  apply wp_on_k, wp_faults with safe; [|done].
  eapply wp_mono; [by apply (t_pid_k s.1 k)| |done]. intros r t [-> ->]. by destruct s.
Qed.

Lemma p_vfs_close_ok F s k v (Q : () → PS S → Prop) E :
  kst s.1 k → v ∈ kv_opens k →
  (∀ t, cpu_of t = cpu_of s.1 → kst t (del_open v k) → Q tt (t, s.2)) →
  wp F (on_k (vfs_close v)) s Q E.
Proof.
  intros Hk Hv HQ. apply wp_on_k, wp_faults with safe; [|done].
  eapply wp_mono; [by apply (vfs_close_k s.1 k)| |done]. intros [] t [? ?]. by apply HQ.
Qed.

(** ** Opening and closing *)

(** The file tables after a successful [_open], and after [_close] *)
Definition opened (p i f : Z) (d : fd) x y : procs := set_fds (<[f := d]> (fds y)) (set_handle p i f x y).
Definition closed (p i f : Z) x y : procs := set_fds (delete f (fds y)) (set_handle p i 0 x y).

Lemma set_handle_twice p i e e' x y :
  set_handle p i e (set_table (<[Z.to_nat i := e']> (p_file_table x)) x) (set_handle p i e' x y) = set_handle p i e x y.
Proof.
  unfold set_handle, set_processes, set_table. cbn. by rewrite insert_insert_eq, list_insert_insert_eq.
Qed.

Lemma set_handle_same p i e x y :
  processes y !! p = Some x → 0 ≤ i → zlookup (p_file_table x) i = Some e → set_handle p i e x y = y.
Proof.
  intros Hx Hi He. unfold set_handle, set_processes, set_table.
  rewrite list_insert_id by (unfold zlookup in He; by destruct (Z.leb_spec 0 i)).
  replace (MkProcess _ _ _ _ _ _ _ _ _) with x by (by destruct x).
  rewrite insert_id by done. by destruct y.
Qed.

Lemma open_undo p i f d x y :
  processes y !! p = Some x → 0 ≤ i → zlookup (p_file_table x) i = Some 0 → fds y !! f = None →
  set_handle p i 0 (set_table (<[Z.to_nat i := f]> (p_file_table x)) x)
    (set_fds (delete f (<[f := d]> (fds y))) (opened p i f d x y)) = y.
Proof.
  intros Hx Hi He Hf. rewrite delete_insert_id by done.
  transitivity (set_handle p i 0 x y); [|by apply set_handle_same].
  exact (set_handle_twice p i 0 f x y).
Qed.

(** An open file beside those there were *)
Lemma files_ok_opened k k' y rest O p x i f nm name n flgs v :
  files_ok k y rest O → processes y !! p = Some x → 0 ≤ i < MAX_FILE_HANDLES → f ≠ 0 →
  fds y !! f = None → kv_mem k !! f = None → <[f := sizeof_fd]> (kv_mem k) !! nm = None →
  kv_mem k' = <[nm := n]> (<[f := sizeof_fd]> (kv_mem k)) → kv_opens k' = kv_opens k ⊎ {[+ v +]} →
  files_ok k' (opened p i f (MkFd (nm, name) flgs 0 v) x y) rest O.
Proof.
  intros [Ho Hn Ht] Hx Hi Hf0 Hf Hfm Hnm Hm Hop. split.
  - unfold proc_blocks. cbn [opened fds set_fds processes set_handle set_processes frames].
    rewrite fd_blocks_insert by done. cbn [fd_name fst].
    rewrite (proc_keys_update _ p x) by done. rewrite Hm.
    apply (owned_perm _ (nm :: f :: proc_blocks y)); [unfold proc_blocks; solve_Permutation|].
    apply owned_alloc; [|done]. by apply owned_alloc.
  - cbn [opened fds set_fds set_handle set_processes]. rewrite fd_nodes_insert by done. rewrite Hop, Hn. cbn [node].
    multiset_solver.
  - assert (∀ p' x' i', processes y !! p' = Some x' → zlookup (p_file_table x') i' ≠ Some f) as Hno.
    { intros p' x' i' Hp' Hi'. destruct (to_fd _ Ht _ _ _ _ Hp' Hi' Hf0). congruence. }
    assert (tables_ok (set_fds (<[f := MkFd (nm, name) flgs 0 v]> (fds y)) y)) as Ht'.
    { destruct Ht as [Hl Hfd Hinj]. split; cbn [set_fds processes fds]; [done| |done].
      intros p' x' j e Hp' Hj He. rewrite lookup_insert_is_Some'. right. eauto. }
    apply (tables_set_handle _ p x i f Ht'); [done|done| |done].
    intros _. cbn. rewrite lookup_insert_eq. by eexists.
Qed.

Lemma fds_live k y rest O f d :
  files_ok k y rest O → fds y !! f = Some d → is_Some (kv_mem k !! f).
Proof.
  intros [Ho _ _] Hf. apply (owned_elem _ _ _ _ Ho). unfold proc_blocks.
  rewrite (fd_blocks_delete _ _ _ Hf). left.
Qed.

Lemma _open_ok `{HM : !MemoryLasts S} s k rest O p x i name flgs :
  kst s.1 k → files_ok k s.2 rest O → processes s.2 !! p = Some x →
  0 ≤ i < MAX_FILE_HANDLES → zlookup (p_file_table x) i = Some 0 →
  Z.of_nat (String.length name) < 2 ^ 31 - 1 →
  wp safe_oom (_open p i name flgs) s
    (λ err s', cpu_of s'.1 = cpu_of s.1 ∧
       (err ≠ 0 ∧ s'.2 = s.2 ∧ kst s'.1 k ∨
        err = 0 ∧ ∃ f nm v k', s'.2 = opened p i f (MkFd (nm, name) (Z.land 3 flgs) 0 v) x s.2 ∧
          f ≠ 0 ∧ fds s.2 !! f = None ∧ kst s'.1 k' ∧ same_but_files k k' ∧ files_ok k' s'.2 rest O)) noerr.
Proof.
  intros Hk Hfo Hx Hi He Hname. pose proof Hfo as [Ho Hn Ht].
  pose proof (to_length _ Ht _ _ Hx) as Hlen.
  unfold _open. wp_assert by lia. wp_steps. apply (wp_get_entry _ _ _ x i 0); [done..|].
  wp_assert by done. wp_steps. apply (p_kmalloc_ok s k); [done..|].
  intros f t1 Hf0 Hfm Hc1 Hk1.
  assert (fds s.2 !! f = None) as Hff.
  { destruct (fds s.2 !! f) eqn:Hd; [|done]. destruct (fds_live _ _ _ _ _ _ Hfo Hd). congruence. }
  wp_steps. apply (wp_set_entry _ _ _ x); [done|lia|]. cbn [fst snd].
  destruct (Z.eqb_spec f 0); [done|]. wp_steps.
  eapply p_kstrdup_ok; [exact Hk1|lia|]. intros nm t2 Hnm0 Hnmm Hc2 Hk2. cbn [fst snd] in *. wp_steps.
  eapply p_kstrdup_ok; [exact Hk2|lia|]. intros kf t3 Hkf0 Hkfm Hc3 Hk3. cbn [fst snd] in *. wp_steps.
  destruct (Z.eqb_spec kf 0); [done|]. wp_steps. apply wp_on_k. cbn [fst].
  eapply wp_mono; [apply (vfs_open_k t3 _ name flgs Hk3)| |done].
  intros [err v] t4 [Hc4 Hr]. cbn [fst snd] in *. unfold put_fd, upd_procs. wp_steps.
  rewrite !with_mem_twice in *. cbn [kv_mem with_mem] in *.
  destruct Hr as [[Herr Hk4]|[-> Hk4]].
  - eapply p_kfree_ok; [exact Hk4|cbn; rewrite lookup_insert_eq; by eexists|]. intros t5 Hc5 Hk5.
    rewrite with_mem_twice in Hk5. cbn [kv_mem with_mem] in Hk5. rewrite delete_insert_id in Hk5 by done.
    wp_steps. apply wp_when; [intros _|lia]. wp_steps.
    eapply p_kfree_ok; [exact Hk5|cbn; rewrite lookup_insert_eq; by eexists|]. intros t6 Hc6 Hk6.
    rewrite with_mem_twice in Hk6. cbn [kv_mem with_mem] in Hk6. rewrite delete_insert_id in Hk6 by done.
    wp_steps. eapply p_kfree_ok; [exact Hk6|cbn; rewrite lookup_insert_eq; by eexists|]. intros t7 Hc7 Hk7.
    rewrite with_mem_twice in Hk7. cbn [kv_mem with_mem] in Hk7. rewrite delete_insert_id, with_mem_same in Hk7 by done.
    wp_steps. eapply wp_set_entry; [cbn; by rewrite lookup_insert_eq|cbn; rewrite length_insert; lia|].
    wp_steps. split; [cbn [fst snd] in *; congruence|]. left. split; [done|]. split; [|done].
    exact (open_undo p i f _ x s.2 Hx (proj1 Hi) He Hff).
  - eapply p_kfree_ok; [exact Hk4|cbn; rewrite lookup_insert_eq; by eexists|]. intros t5 Hc5 Hk5.
    cbn [kv_mem with_mem add_open with_opens] in Hk5. rewrite delete_insert_id in Hk5 by done.
    wp_steps. split; [cbn [fst snd] in *; congruence|]. right. split; [done|].
    eexists f, nm, v, _. split; [done|]. split; [done|]. split; [done|]. split; [exact Hk5|]. split; [done|].
    eapply (files_ok_opened k _ s.2 rest O p x i f nm name _ _ v); done.
Qed.

(** ** Closing *)

Lemma files_ok_closed k k' y rest O p x i f d :
  files_ok k y rest O → processes y !! p = Some x → zlookup (p_file_table x) i = Some f → f ≠ 0 →
  fds y !! f = Some d → kv_mem k' = delete f (delete (fd_name d).1 (kv_mem k)) →
  kv_opens k' = kv_opens k ∖ {[+ node d +]} →
  files_ok k' (closed p i f x y) rest O.
Proof.
  intros [Ho Hn Ht] Hx Hi Hf0 Hf Hm Hop.
  assert (0 ≤ i < MAX_FILE_HANDLES) as Hir.
  { rewrite <- (to_length _ Ht _ _ Hx). by eapply zlookup_lt_Some. }
  split.
  - unfold proc_blocks. cbn [closed fds set_fds processes set_handle set_processes frames].
    rewrite (proc_keys_update _ p x) by done. rewrite Hm.
    assert (owned (kv_mem k) ((fd_name d).1 :: f :: fd_blocks (delete f (fds y)) ++
      (map_to_list (processes y)).*1 ++ (map_to_list (frames y)).*1) rest) as Ho'.
    { eapply owned_perm; [|exact Ho]. unfold proc_blocks. rewrite (fd_blocks_delete _ _ _ Hf). solve_Permutation. }
    apply owned_free in Ho' as [_ Ho']. by apply owned_free in Ho' as [_ Ho'].
  - cbn [closed fds set_fds set_handle set_processes]. rewrite Hop, Hn, (fd_nodes_delete _ _ _ Hf). multiset_solver.
  - assert (tables_ok (set_handle p i 0 x y)) as Ht' by (by apply tables_set_handle).
    destruct Ht' as [Hl Hfd Hinj]. split; cbn [closed set_fds processes fds] in *; [done| |done].
    intros p' x' j e Hp' Hj He. rewrite lookup_delete_is_Some. split; [|eauto].
    intros <-. cbn [set_handle set_processes processes] in Hp'.
    apply lookup_insert_Some in Hp' as [[<- <-]|[Hne Hp']].
    + cbn [p_file_table set_table] in Hj. pose proof (zlookup_lt_Some _ _ _ Hj) as Hjl. rewrite length_insert in Hjl.
      rewrite zlookup_insert in Hj by (rewrite ?(to_length _ Ht _ _ Hx); lia). case_decide as Hd; [by simplify_eq|].
      by destruct (to_inj _ Ht _ _ _ _ _ _ _ Hx Hx Hi Hj He).
    + by destruct (to_inj _ Ht _ _ _ _ _ _ _ Hx Hp' Hi Hj He).
Qed.

Lemma _close_ok F s k rest O p x i f :
  kst s.1 k → files_ok k s.2 rest O → processes s.2 !! p = Some x →
  zlookup (p_file_table x) i = Some f → f ≠ 0 →
  wp F (_close p i) s
    (λ _ s', cpu_of s'.1 = cpu_of s.1 ∧ s'.2 = closed p i f x s.2 ∧
       ∃ k', kst s'.1 k' ∧ same_but_files k k' ∧ files_ok k' s'.2 rest O) noerr.
Proof.
  intros Hk Hfo Hx Hi Hf0. pose proof Hfo as [Ho Hn Ht]. destruct (to_fd _ Ht _ _ _ _ Hx Hi Hf0) as [d Hd].
  pose proof (to_length _ Ht _ _ Hx) as Hlen. pose proof (zlookup_lt_Some _ _ _ Hi) as Hil.
  assert (owned (kv_mem k) ((fd_name d).1 :: f :: fd_blocks (delete f (fds s.2)) ++
    (map_to_list (processes s.2)).*1 ++ (map_to_list (frames s.2)).*1) rest) as Ho'.
  { eapply owned_perm; [|exact Ho]. unfold proc_blocks. rewrite (fd_blocks_delete _ _ _ Hd). solve_Permutation. }
  apply owned_free in Ho' as [Hnm Ho']. apply owned_free in Ho' as [Hfm _].
  unfold _close. wp_steps. eapply wp_get_entry; [done..|]. wp_steps. apply (wp_get_fd _ _ _ d); [done|]. wp_steps.
  apply (p_kfree_ok _ s k); [done..|]. intros t1 Hc1 Hk1. wp_steps.
  eapply p_vfs_close_ok; [exact Hk1| |].
  { cbn [kv_opens with_mem]. rewrite Hn, (fd_nodes_delete _ _ _ Hd). multiset_solver. }
  intros t2 Hc2 Hk2. wp_steps. eapply p_kfree_ok; [exact Hk2|done|]. intros t3 Hc3 Hk3. unfold upd_procs. wp_steps.
  eapply wp_set_entry; [done|lia|]. cbn [fst snd] in *. split; [congruence|]. split; [done|].
  eexists. split; [exact Hk3|]. split; [done|]. eapply (files_ok_closed k _ s.2 rest O p x i f d); done.
Qed.

(** ** System calls on files *)

(** The running thread belongs to process [p], whose id is [pid]; the locks its system
    calls on files need are free. *)
Record here s k pid p x : Prop := {
  h_kst : kst s.1 k;
  h_pid : kv_pids k !! kv_cur k = Some pid;
  h_run : zlookup (runningprocesses s.2) pid = Some p;
  h_proc : processes s.2 !! p = Some x;
  h_pl : kv_locks k !! process_lock s.2 = Some 0;
  h_tl : kv_locks k !! p_file_table_lock x = Some 0;
  h_ne : process_lock s.2 ≠ p_file_table_lock x;
}.

Lemma files_ok_view k k' y rest O :
  files_ok k y rest O → kv_mem k' = kv_mem k → kv_opens k' = kv_opens k → files_ok k' y rest O.
Proof. intros [Ho Hn Ht] Hm Hop. split; [by rewrite Hm|by rewrite Hop|done]. Qed.

(** With both locks *)
Definition locked (pl tl : Z) k : kview := set_lock tl (kv_cur k) (set_lock pl (kv_cur k) k).

(** Giving back both locks *)
Lemma unlock_ok {A} F (s : PS S) k k' pl tl (r : A) (Q : A → PS S → Prop) E :
  kst s.1 k' → same_but_files (locked pl tl k) k' →
  kv_locks k !! pl = Some 0 → kv_locks k !! tl = Some 0 → pl ≠ tl →
  (∀ t k'', cpu_of t = cpu_of s.1 → kst t k'' → same_but_files k k'' → kv_mem k'' = kv_mem k' →
     kv_opens k'' = kv_opens k' → Q r (t, s.2)) →
  wp F (on_k (lock_release tl);; on_k (lock_release pl);; mret r) s Q E.
Proof.
  intros Hk Hsame Hpl Htl Hne HQ. wp_steps.
  assert (kv_locks k' = kv_locks (locked pl tl k) ∧ kv_cur k' = kv_cur k) as [Hl Hc] by (by rewrite Hsame).
  eapply p_release_ok; [exact Hk| |].
  { rewrite Hl, Hc. cbn. by rewrite lookup_insert_eq. }
  intros t1 Hc1 Hk1. wp_steps. eapply p_release_ok; [exact Hk1| |].
  { cbn. rewrite lookup_insert_ne, Hl, Hc by done. cbn. by rewrite lookup_insert_ne, lookup_insert_eq. }
  intros t2 Hc2 Hk2. wp_steps. eapply HQ; [cbn [fst] in *; congruence|exact Hk2| |done|done].
  unfold same_but_files. cbn. rewrite Hsame. unfold locked, set_lock, with_locks, with_mem, with_opens. cbn.
  destruct k as [cur sp ex m l c id pi st o u w a]. cbn in *. f_equal.
  rewrite insert_insert_eq, (insert_insert_ne _ pl tl), insert_insert_eq by done.
  by rewrite (insert_id l pl), (insert_id l tl).
Qed.

Lemma locked_files k pl tl rest O y :
  files_ok k y rest O → files_ok (locked pl tl k) y rest O.
Proof. intros Hf. by apply (files_ok_view k). Qed.

(** The handle the search finds *)
Definition lowest_free (l : list Z) from h : Prop :=
  from ≤ h ∧ zlookup l h = Some 0 ∧ ∀ j, from ≤ j < h → ∃ e, zlookup l j = Some e ∧ e ≠ 0.
Definition none_free (l : list Z) from to : Prop :=
  ∀ j, from ≤ j < to → ∃ e, zlookup l j = Some e ∧ e ≠ 0.

Lemma free_handle_ok F fuel : ∀ s p x i,
  processes s.2 !! p = Some x → 0 ≤ i → i + Z.of_nat fuel = Z.of_nat (length (p_file_table x)) →
  wp F (free_handle fuel p i) s
    (λ r s', s' = s ∧ match r with
       | Some h => lowest_free (p_file_table x) i h
       | None => none_free (p_file_table x) i (Z.of_nat (length (p_file_table x)))
       end) noerr.
Proof.
  induction fuel as [|fuel IH]; intros s p x i Hx Hi Hf; cbn [free_handle].
  { wp_steps. split; [done|]. intros j Hj. lia. }
  destruct (zlookup_lt_is_Some (p_file_table x) i) as [e He]; [lia|].
  wp_steps. eapply wp_get_entry; [done..|]. destruct (Z.eqb_spec e 0) as [->|He0].
  { wp_steps. split; [done|]. split; [lia|]. split; [done|]. intros j Hj. lia. }
  eapply wp_mono; [apply (IH s p x (i + 1)); [done|lia|lia]| |done].
  intros r s' [-> Hr]. split; [done|].
  assert (∀ j, i ≤ j → j = i ∨ i + 1 ≤ j) as Hj by lia.
  destruct r as [h|].
  - destruct Hr as (Hh & H0 & Hlow). split; [lia|]. split; [done|]. intros j Hjr.
    destruct (Hj j) as [->|]; [lia|eauto|]. apply Hlow. lia.
  - intros j Hjr. destruct (Hj j) as [->|]; [lia|eauto|]. apply Hr. lia.
Qed.

Lemma sys_open_ok `{HM : !MemoryLasts S} s k rest O pid p x name flgs :
  here s k pid p x → files_ok k s.2 rest O → Z.of_nat (String.length name) < 2 ^ 31 - 1 →
  wp safe_oom (sys_open name flgs) s
    (λ r s', cpu_of s'.1 = cpu_of s.1 ∧
       (∃ k', kst s'.1 k' ∧ same_but_files k k' ∧ files_ok k' s'.2 rest O) ∧
       (none_free (p_file_table x) FIRST_FILE_HANDLE MAX_FILE_HANDLES ∧ r = (-1, EMFILE) ∧ s'.2 = s.2 ∨
        lowest_free (p_file_table x) FIRST_FILE_HANDLE r.1 ∧ r.1 < MAX_FILE_HANDLES ∧
          (r.2 ≠ 0 ∧ s'.2 = s.2 ∨
           r.2 = 0 ∧ ∃ f nm v, s'.2 = opened p r.1 f (MkFd (nm, name) (Z.land 3 flgs) 0 v) x s.2 ∧
             f ≠ 0 ∧ fds s.2 !! f = None))) noerr.
Proof.
  intros [Hk Hpid Hrun Hx Hpl Htl Hne] Hfo Hname. pose proof (to_length _ (fo_tables _ _ _ _ Hfo) _ _ Hx) as Hlen.
  unfold sys_open, get_process_lock. wp_steps. eapply p_acquire_ok; [done..|]. intros t1 Hc1 Hk1. wp_steps.
  eapply p_curpid_ok; [exact Hk1|done|]. unfold get_running. wp_the p by done.
  wp_steps. apply (wp_get_process _ _ _ x); [done|]. wp_steps. eapply p_acquire_ok; [exact Hk1| |].
  { cbn. by rewrite lookup_insert_ne. }
  intros t2 Hc2 Hk2. change (kst t2 (locked (process_lock s.2) (p_file_table_lock x) k)) in Hk2. wp_steps.
  eapply wp_mono; [apply (free_handle_ok _ _ (t2, s.2) p x FIRST_FILE_HANDLE); [done|done|rewrite Hlen; done]| |done].
  intros h s1 [-> Hh]. cbv beta. apply wp_bind. destruct h as [i|].
  - destruct Hh as (Hi & He & Hlow). pose proof (zlookup_lt_Some _ _ _ He) as Hil. wp_steps.
    eapply wp_mono; [apply (_open_ok (t2, s.2) _ rest O p x i name flgs Hk2); try done; [by apply locked_files|lia]| |done].
    intros err s2 [Hc3 Hr]. cbv beta. apply wp_ret.
    assert (lowest_free (p_file_table x) FIRST_FILE_HANDLE i) as Hlf by done.
    destruct Hr as [(Herr & Hy & Hk3)|(-> & f & nm & v & k3 & Hy & Hf0 & Hff & Hk3 & Hs3 & Hfo3)].
    + eapply unlock_ok; [exact Hk3|done..|]. intros t4 k4 Hc4 Hk4 Hs4 Hm4 Ho4. cbn [fst snd] in *.
      split; [congruence|]. split; [|right; split; [done|]; split; [lia|]; left; done].
      exists k4. split; [done|]. split; [done|]. rewrite Hy. by apply (files_ok_view k).
    + eapply unlock_ok; [exact Hk3|exact Hs3|done..|]. intros t4 k4 Hc4 Hk4 Hs4 Hm4 Ho4. cbn [fst snd] in *.
      split; [congruence|]. split; [|right; split; [done|]; split; [lia|]; right; split; [done|]; by exists f, nm, v].
      exists k4. split; [done|]. split; [done|]. by apply (files_ok_view k3).
  - apply wp_ret. eapply unlock_ok; [exact Hk2|done..|]. intros t4 k4 Hc4 Hk4 Hs4 Hm4 Ho4. cbn [fst snd] in *.
    split; [congruence|]. split; [|left; split; [by rewrite Hlen in Hh|done]].
    exists k4. split; [done|]. split; [done|]. by apply (files_ok_view k).
Qed.

Lemma sys_close_ok s k rest O pid p x i :
  here s k pid p x → files_ok k s.2 rest O →
  wp safe (sys_close i) s
    (λ r s', cpu_of s'.1 = cpu_of s.1 ∧
       (∃ k', kst s'.1 k' ∧ same_but_files k k' ∧ files_ok k' s'.2 rest O) ∧
       ((∃ f, FIRST_FILE_HANDLE ≤ i ∧ zlookup (p_file_table x) i = Some f ∧ f ≠ 0 ∧
           r = 0 ∧ s'.2 = closed p i f x s.2) ∨
        (∀ f, FIRST_FILE_HANDLE ≤ i → zlookup (p_file_table x) i = Some f → f = 0) ∧
          r = EBADF ∧ s'.2 = s.2)) noerr.
Proof.
  intros [Hk Hpid Hrun Hx Hpl Htl Hne] Hfo. pose proof (to_length _ (fo_tables _ _ _ _ Hfo) _ _ Hx) as Hlen.
  unfold sys_close, get_process_lock. wp_steps. eapply p_acquire_ok; [done..|]. intros t1 Hc1 Hk1. wp_steps.
  eapply p_curpid_ok; [exact Hk1|done|]. unfold get_running. wp_the p by done.
  wp_steps. apply (wp_get_process _ _ _ x); [done|]. wp_steps. eapply p_acquire_ok; [exact Hk1| |].
  { cbn. by rewrite lookup_insert_ne. }
  intros t2 Hc2 Hk2. change (kst t2 (locked (process_lock s.2) (p_file_table_lock x) k)) in Hk2. cbv beta. apply wp_bind.
  assert (∀ k3 (t3 : S) y3 r, cpu_of t3 = cpu_of t2 → kst t3 k3 →
    same_but_files (locked (process_lock s.2) (p_file_table_lock x) k) k3 → files_ok k3 y3 rest O →
    ((∃ f, FIRST_FILE_HANDLE ≤ i ∧ zlookup (p_file_table x) i = Some f ∧ f ≠ 0 ∧ r = 0 ∧ y3 = closed p i f x s.2) ∨
     (∀ f, FIRST_FILE_HANDLE ≤ i → zlookup (p_file_table x) i = Some f → f = 0) ∧ r = EBADF ∧ y3 = s.2) →
    wp safe (on_k (lock_release (p_file_table_lock x));; on_k (lock_release (process_lock s.2));; mret r) (t3, y3)
      (λ r s', cpu_of s'.1 = cpu_of s.1 ∧
        (∃ k', kst s'.1 k' ∧ same_but_files k k' ∧ files_ok k' s'.2 rest O) ∧
        ((∃ f, FIRST_FILE_HANDLE ≤ i ∧ zlookup (p_file_table x) i = Some f ∧ f ≠ 0 ∧
            r = 0 ∧ s'.2 = closed p i f x s.2) ∨
         (∀ f, FIRST_FILE_HANDLE ≤ i → zlookup (p_file_table x) i = Some f → f = 0) ∧
           r = EBADF ∧ s'.2 = s.2)) noerr) as Hout.
  { intros k3 t3 y3 r Hc3 Hk3 Hs3 Hfo3 Hr. eapply unlock_ok; [exact Hk3|exact Hs3|done..|].
    intros t4 k4 Hc4 Hk4 Hs4 Hm4 Ho4. cbn [fst snd] in *. split; [congruence|]. split; [|done].
    exists k4. split; [done|]. split; [done|]. by apply (files_ok_view k3). }
  assert (same_but_files (locked (process_lock s.2) (p_file_table_lock x) k)
    (locked (process_lock s.2) (p_file_table_lock x) k)) as Hrefl by done.
  unfold FIRST_FILE_HANDLE, MAX_FILE_HANDLES in *.
  destruct ((0 <=? i) && (i <=? 2)) eqn:Hstd.
  { apply wp_ret. eapply Hout; [done|exact Hk2|done|by apply locked_files|]. right. split; [|done]. lia. }
  destruct ((i <? 0) || (32 <=? i)) eqn:Hrange.
  { apply wp_ret. eapply Hout; [done|exact Hk2|done|by apply locked_files|]. right. split; [|done].
    intros f Hi Hf. apply zlookup_lt_Some in Hf. lia. }
  destruct (zlookup_lt_is_Some (p_file_table x) i) as [f Hf]; [lia|].
  wp_steps. eapply wp_get_entry; [done..|]. destruct (Z.eqb_spec f 0) as [->|Hf0]; cbn [negb].
  { apply wp_ret. eapply Hout; [done|exact Hk2|done|by apply locked_files|]. right. split; [|done]. naive_solver. }
  wp_steps. eapply wp_mono; [apply (_close_ok _ (t2, s.2) _ rest O p x i f Hk2); try done; by apply locked_files| |done].
  intros _ [t3 y3] (Hc3 & Hy3 & k3 & Hk3 & Hs3 & Hfo3). apply wp_ret.
  eapply Hout; [exact Hc3|exact Hk3|done|done|]. left. exists f. split_and!; try done. lia.
Qed.
End operations.
