(* ===== verification/ProcessRw.v ===== *)
(** * Reading and writing files

    What [sys_read] and [sys_write] (readwrite.c) do: the position of the file moves on
    by the number of bytes transferred, errors change nothing, and the locks are free
    again in every case. *)

From Stdlib Require Import ZArith Lia.
From stdpp Require Import base list gmap gmultiset numbers strings.
From S2P Require Import Prelude Cpu KMem HeapCpu Uio Kernel Process ProcessProof.

Local Open Scope Z_scope.

(** The open file after a transfer of [n] bytes *)
Definition advance (n : Z) (d : fd) : fd := MkFd (fd_name d) (flags d) (s32 (position d + n)) (node d).

Lemma fd_blocks_update m f d d' :
  m !! f = Some d → fd_name d' = fd_name d → fd_blocks (<[f := d']> m) ≡ₚ fd_blocks m.
Proof.
  intros Hf Hn. rewrite (fd_blocks_delete m f d) by done.
  rewrite (fd_blocks_delete _ f d') by (by rewrite lookup_insert_eq). by rewrite delete_insert_eq, Hn.
Qed.

Lemma fd_nodes_update m f d d' :
  m !! f = Some d → node d' = node d → fd_nodes (<[f := d']> m) = fd_nodes m.
Proof.
  intros Hf Hn. rewrite (fd_nodes_delete m f d) by done.
  rewrite (fd_nodes_delete _ f d') by (by rewrite lookup_insert_eq). by rewrite delete_insert_eq, Hn.
Qed.

Lemma files_ok_update k y rest O f d d' :
  files_ok k y rest O → fds y !! f = Some d → fd_name d' = fd_name d → node d' = node d →
  files_ok k (set_fds (<[f := d']> (fds y)) y) rest O.
Proof.
  intros [Ho Hn [Hl Hfd Hinj]] Hf Hnm Hnd. split; cbn [fds set_fds processes frames].
  - eapply owned_perm; [|exact Ho]. unfold proc_blocks. cbn [fds set_fds processes frames].
    by rewrite (fd_blocks_update _ _ d d') by done.
  - by rewrite (fd_nodes_update _ _ d d').
  - split; cbn [fds set_fds processes]; [done| |done].
    intros p x i e Hx Hi He. rewrite lookup_insert_is_Some'. right. eauto.
Qed.

Section rw.
Context {S : Type} `{!KernelOps S} `{!Kernel S}.
Implicit Types (s : PS S) (k : kview) (x : process) (y : procs).

Lemma kst_cur_nonzero (t : S) k : kst t k → kv_cur k ≠ 0.
Proof. intros Hk. destruct (kst_cur t k Hk) as [[_ H0] Hc]. congruence. Qed.

Lemma hold_ok F s k p o (Q : bool → PS S → Prop) E :
  kst s.1 k → kv_locks k !! p = Some o → Q (o =? kv_cur k) s → wp F (on_k (lock_do_i_hold p)) s Q E.
Proof.
  intros Hk Hp HQ. apply wp_on_k, wp_faults with safe; [|done].
  eapply wp_mono; [by apply (lock_do_i_hold_k s.1 k p o)| |done]. intros b t [-> ->]. by destruct s.
Qed.

(** [error:] with the process lock alone, or with both locks *)
Lemma rw_error_ok F s k k' pl tl err (Q : Z * Z → PS S → Prop) E :
  kst s.1 k' → same_but_files (set_lock pl (kv_cur k) k) k' ∨ same_but_files (locked pl tl k) k' →
  kv_locks k !! pl = Some 0 → kv_locks k !! tl = Some 0 → pl ≠ tl →
  (∀ t k'', cpu_of t = cpu_of s.1 → kst t k'' → same_but_files k k'' → kv_mem k'' = kv_mem k' →
     kv_opens k'' = kv_opens k' → Q (-1, err) (t, s.2)) →
  wp F (rw_error pl tl err) s Q E.
Proof.
  intros Hk Hsame Hpl Htl Hne HQ. unfold rw_error. apply wp_bind.
  pose proof (kst_cur_nonzero _ _ Hk) as H0.
  destruct Hsame as [Hsame|Hsame]; cycle 1.
  - eapply (hold_ok _ s k' tl (kv_cur k)); [done|rewrite Hsame; cbn; by rewrite lookup_insert_eq|].
    assert (kv_cur k' = kv_cur k) as -> by (by rewrite Hsame). rewrite Z.eqb_refl. cbn [when].
    by eapply unlock_ok.
  - assert (kv_cur k' = kv_cur k) as Hc by (by rewrite Hsame).
    eapply (hold_ok _ s k' tl 0); [done|rewrite Hsame; cbn; by rewrite lookup_insert_ne|].
    destruct (Z.eqb_spec 0 (kv_cur k')); [done|]. cbn [when]. wp_steps.
    eapply p_release_ok; [exact Hk|rewrite Hsame; cbn; by rewrite lookup_insert_eq|].
    intros t Ht Hk2. wp_steps. eapply HQ; [done|exact Hk2| |done|done].
    unfold same_but_files. cbn. rewrite Hsame. unfold set_lock, with_locks, with_mem, with_opens. cbn.
    rewrite insert_insert_eq, insert_id by done. by destruct k.
Qed.

(** What [VOP_READ] and [VOP_WRITE] promise *)
Definition vop_ok (vop : Z → uio → M S (Z * uio)) : Prop :=
  ∀ (t : S) k v u, kst t k → v ∈ kv_opens k →
  wp safe_oom (vop v u) t (λ r t', cpu_of t' = cpu_of t ∧ kst t' k ∧ moved u r) noerr.

Lemma constructUio_ok `{HM : !MemoryLasts S} s k rw buf n off (Q : Z * uio → PS S → Prop) E :
  kst s.1 k → is_Some (kv_pids k !! kv_cur k) →
  (∀ p t u, p ≠ 0 → kv_mem k !! p = None → cpu_of t = cpu_of s.1 →
     kst t (with_mem (<[p := sizeof_uio]> (kv_mem k)) k) → uio_offset u = s32 off → uio_resid u = n →
     Q (p, u) (t, s.2)) →
  wp safe_oom (constructUio rw buf n off) s Q E.
Proof.
  intros Hk Hpid HQ. unfold constructUio, get_curthread. wp_steps.
  change (cpu_of s) with (cpu_of s.1). destruct (kst_cur s.1 k Hk) as [_ ->].
  apply wp_on_k, wp_faults with safe; [|done].
  eapply wp_mono; [by apply (t_vmspace_k s.1 k)| |done]. intros a t [-> _]. wp_steps.
  apply (p_kmalloc_ok _ k); [done..|]. intros p t Hp Hm Hc Hk2. destruct (Z.eqb_spec p 0); [done|]. wp_steps.
  by apply HQ.
Qed.

(** The outcome of a transfer of at most [n] bytes through entry [f] of a file table, for
    a function that refuses files opened with [mode] *)
Definition rw_outcome y (f n mode : Z) (r : Z * Z) y' : Prop :=
  match fds y !! f with
  | None => r = (-1, EBADF) ∧ y' = y
  | Some d =>
    if flags d =? mode then r = (-1, EBADF) ∧ y' = y
    else r.1 = -1 ∧ r.2 ≠ 0 ∧ y' = y ∨
         r.2 = 0 ∧ 0 ≤ r.1 ≤ n ∧ position d + r.1 < 2 ^ 31 ∧ y' = set_fds (<[f := advance r.1 d]> (fds y)) y
  end.

Lemma fds_nonnull (t : S) k y rest O : kst t k → files_ok k y rest O → fds y !! 0 = None.
Proof.
  intros Hk Hfo. destruct (fds y !! 0) eqn:Hd; [|done]. destruct (fds_live _ _ _ _ _ _ Hfo Hd).
  pose proof (kst_null _ _ Hk). congruence.
Qed.

Lemma transfer_ok `{HM : !MemoryLasts S} s k k' rest O pl p x i f n buf mode rw vop :
  vop_ok vop → kst s.1 k' → same_but_files (set_lock pl (kv_cur k) k) k' → files_ok k' s.2 rest O →
  is_Some (kv_pids k !! kv_cur k) →
  processes s.2 !! p = Some x → zlookup (p_file_table x) i = Some f →
  kv_locks k !! pl = Some 0 → kv_locks k !! p_file_table_lock x = Some 0 → pl ≠ p_file_table_lock x →
  0 ≤ n → (∀ d, fds s.2 !! f = Some d → 0 ≤ position d ∧ position d + n < 2 ^ 31) →
  wp safe_oom (transfer pl p (p_file_table_lock x) i buf n mode rw vop) s
    (λ r s', cpu_of s'.1 = cpu_of s.1 ∧
       (∃ k'', kst s'.1 k'' ∧ same_but_files k k'' ∧ files_ok k'' s'.2 rest O) ∧
       rw_outcome s.2 f n mode r s'.2) noerr.
Proof.
  intros Hvop Hk Hsame Hfo Hpid Hx Hi Hpl Htl Hne Hn Hpos.
  pose proof (fds_nonnull _ _ _ _ _ Hk Hfo) as Hf0. set (tl := p_file_table_lock x) in *.
  unfold transfer. wp_steps. eapply p_acquire_ok; [exact Hk| |].
  { rewrite Hsame. cbn. by rewrite lookup_insert_ne. }
  intros t1 Hc1 Hk1. assert (same_but_files (locked pl tl k) (set_lock tl (kv_cur k') k')) as Hs1.
  { unfold same_but_files. rewrite Hsame. done. }
  assert (∀ (t : S) k2 y2 err, cpu_of t = cpu_of s.1 → kst t k2 → same_but_files (locked pl tl k) k2 →
    files_ok k2 y2 rest O → rw_outcome s.2 f n mode (-1, err) y2 →
    wp safe_oom (rw_error pl tl err) (t, y2) (λ r s', cpu_of s'.1 = cpu_of s.1 ∧
       (∃ k'', kst s'.1 k'' ∧ same_but_files k k'' ∧ files_ok k'' s'.2 rest O) ∧
       rw_outcome s.2 f n mode r s'.2) noerr) as Herr.
  { intros t k2 y2 err Hc Hk2 Hs2 Hfo2 Hr. eapply rw_error_ok; [exact Hk2|by right|done..|].
    intros t3 k3 Hc3 Hk3 Hs3 Hm Ho. cbn [fst snd] in *. split; [congruence|]. split; [|done].
    exists k3. split; [done|]. split; [done|]. by apply (files_ok_view k2). }
  assert (files_ok (set_lock tl (kv_cur k') k') s.2 rest O) as Hfo1 by (by apply (files_ok_view k')).
  wp_steps. eapply wp_get_entry; [done..|]. destruct (Z.eqb_spec f 0) as [->|Hfz].
  { apply (Herr t1 _ s.2 EBADF Hc1 Hk1); [done..|]. unfold rw_outcome. by rewrite Hf0. }
  destruct (to_fd _ (fo_tables _ _ _ _ Hfo) _ _ _ _ Hx Hi Hfz) as [d Hd].
  wp_steps. apply (wp_get_fd _ _ _ d); [done|]. destruct (Z.eqb_spec (flags d) mode) as [Hm|Hm].
  { apply (Herr t1 _ s.2 EBADF Hc1 Hk1); [done..|]. unfold rw_outcome. rewrite Hd.
    by destruct (Z.eqb_spec (flags d) mode). }
  destruct (Hpos d Hd) as [Hp0 Hpn]. wp_steps.
  eapply constructUio_ok; [exact Hk1|by rewrite Hsame|].
  intros u t2 io Hu0 Hum Hc2 Hk2 Hoff Hres. rewrite u32_small, s32_small in Hoff by lia. wp_steps.
  apply wp_on_k. eapply wp_mono; [apply (Hvop _ _ (node d) io Hk2)| |done].
  { cbn. rewrite (fo_nodes _ _ _ _ Hfo), (fd_nodes_delete _ _ _ Hd). multiset_solver. }
  intros [e io'] t3 (Hc3 & Hk3 & Hmv). cbn [fst snd] in *. wp_steps.
  eapply p_kfree_ok; [exact Hk3|cbn; rewrite lookup_insert_eq; by eexists|]. intros t4 Hc4 Hk4. cbn [fst snd] in *.
  rewrite with_mem_twice in Hk4. cbn [kv_mem with_mem] in Hk4. rewrite delete_insert_id in Hk4 by done.
  change (kv_mem k') with (kv_mem (set_lock tl (kv_cur k') k')) in Hk4. rewrite with_mem_same in Hk4.
  destruct (Z.eqb_spec e 0) as [->|He].
  - destruct (Hmv eq_refl) as (m & Hm1 & Hm2); [lia|]. cbn [snd] in Hm2. rewrite Hm2, Hoff, s32_small by lia.
    replace (position d + m - position d) with m by lia. unfold put_fd, upd_procs. apply wp_bind, wp_modify.
    eapply unlock_ok; [exact Hk4|done..|]. intros t5 k5 Hc5 Hk5 Hs5 Hmm Hoo. cbn [fst snd] in *.
    split; [congruence|]. split.
    + exists k5. split; [done|]. split; [done|]. eapply (files_ok_update _ _ _ _ _ d); [|done..].
      by eapply files_ok_view.
    + unfold rw_outcome. rewrite Hd. destruct (Z.eqb_spec (flags d) mode); [done|]. right.
      split_and!; try done; cbn; lia.
  - eapply (Herr t4 _ s.2 e); [congruence|exact Hk4|done|done|]. unfold rw_outcome. rewrite Hd.
    destruct (Z.eqb_spec (flags d) mode); [done|]. left. done.
Qed.

(** As [rw_outcome], for handle [i] of process [p]; handles of the console are opened when
    they are first used. *)
Definition handle_outcome y p x (i n : Z) (std : bool) mode (r : Z * Z) y' : Prop :=
  ∃ f, zlookup (p_file_table x) i = Some f ∧
  if std && (f =? 0) then
    r.1 = -1 ∧ r.2 ≠ 0 ∧ y' = y ∨
    ∃ f' d, fd_name d = ((fd_name d).1, "con:"%string) ∧ position d = 0 ∧
      fds y !! f' = None ∧ rw_outcome (opened p i f' d x y) f' n mode r y'
  else rw_outcome y f n mode r y'.

Lemma rw_tail_ok `{HM : !MemoryLasts S} s k rest O p x i n buf (std : bool) oflags mode rw vop :
  vop_ok vop → is_Some (kv_pids k !! kv_cur k) → processes s.2 !! p = Some x →
  kv_locks k !! process_lock s.2 = Some 0 → kv_locks k !! p_file_table_lock x = Some 0 →
  process_lock s.2 ≠ p_file_table_lock x → kst s.1 (set_lock (process_lock s.2) (kv_cur k) k) →
  files_ok k s.2 rest O → 0 ≤ i < MAX_FILE_HANDLES → 0 ≤ n < 2 ^ 31 →
  (∀ f d, zlookup (p_file_table x) i = Some f → fds s.2 !! f = Some d →
     0 ≤ position d ∧ position d + n < 2 ^ 31) →
  wp safe_oom (
    e ← get_entry p i;
    err ← (if std && (e =? 0) then _open p i "con:" oflags else mret 0);
    if negb (err =? 0) then rw_error (process_lock s.2) (p_file_table_lock x) err else
    transfer (process_lock s.2) p (p_file_table_lock x) i buf n mode rw vop) s
    (λ r s', cpu_of s'.1 = cpu_of s.1 ∧
       (∃ k'', kst s'.1 k'' ∧ same_but_files k k'' ∧ files_ok k'' s'.2 rest O) ∧
       handle_outcome s.2 p x i n std mode r s'.2) noerr.
Proof.
  intros Hvop Hpid Hx Hpl Htl Hne Hk Hfo Hi Hn Hpos.
  pose proof (to_length _ (fo_tables _ _ _ _ Hfo) _ _ Hx) as Hlen.
  destruct (zlookup_lt_is_Some (p_file_table x) i) as [f Hf]; [lia|].
  assert (files_ok (set_lock (process_lock s.2) (kv_cur k) k) s.2 rest O) as Hfo1 by (by apply (files_ok_view k)).
  wp_steps. eapply wp_get_entry; [done..|]. apply wp_bind. unfold handle_outcome.
  destruct (std && (f =? 0)) eqn:Hstd; cycle 1.
  { apply wp_ret. cbn [negb Z.eqb]. eapply wp_mono;
      [eapply (transfer_ok s k _ rest O _ p x i f n buf mode rw vop Hvop Hk); try done; eauto; lia| |done].
    intros r s' (Hc & Hk' & Ho). split; [done|]. split; [done|]. exists f. split; [done|]. by rewrite Hstd. }
  apply andb_true_iff in Hstd as [Hst Hfz]. assert (f = 0) as -> by lia.
  eapply wp_mono; [apply (_open_ok s _ rest O p x i "con:" oflags Hk Hfo1); done| |done].
  intros err s1 [Hc1 Hr]. cbv beta. destruct Hr as [(Herr & Hy & Hk1)|(-> & f1 & nm & v & k1 & Hy & Hf1 & Hff & Hk1 & Hs1 & Hfo2)].
  - destruct (Z.eqb_spec err 0); [done|]. cbn [negb]. eapply rw_error_ok; [exact Hk1|by left|done..|].
    intros t2 k2 Hc2 Hk2 Hs2 Hm2 Ho2. cbn [fst snd]. split; [congruence|]. split.
    + exists k2. split; [done|]. split; [done|]. rewrite Hy. by eapply files_ok_view.
    + exists 0. split; [done|]. rewrite Hst. left. done.
  - cbn [negb Z.eqb]. set (d := MkFd (nm, "con:"%string) (Z.land 3 oflags) 0 v) in *.
    set (x1 := set_table (<[Z.to_nat i := f1]> (p_file_table x)) x).
    assert (processes s1.2 !! p = Some x1) as Hx1 by (rewrite Hy; cbn; by rewrite lookup_insert_eq).
    assert (fds s1.2 !! f1 = Some d) as Hd1 by (rewrite Hy; cbn; by rewrite lookup_insert_eq).
    change (p_file_table_lock x) with (p_file_table_lock x1) in *.
    eapply wp_mono; [apply (transfer_ok s1 k k1 rest O _ p x1 i f1 n buf mode rw vop Hvop Hk1); try done|..|done].
    + cbn. rewrite zlookup_insert by lia. by rewrite decide_True.
    + lia.
    + intros d' Hd'. simplify_eq. cbn. lia.
    + intros r s2 (Hc2 & Hk2 & Ho). split; [congruence|]. split; [done|]. exists 0. split; [done|]. rewrite Hst.
      right. exists f1, d. rewrite Hy in Ho. done.
Qed.

Lemma vop_read_ok : vop_ok vop_read.
Proof. intros t k v u. apply vop_read_k. Qed.
Lemma vop_write_ok : vop_ok vop_write.
Proof. intros t k v u. apply vop_write_k. Qed.

(** What a read or write may find wrong before it looks at the file *)
Definition rw_refused k (i buf : Z) (bad_handle : bool) : option Z :=
  if negb (kv_valid k buf =? 0) then Some EFAULT
  else if (i <? 0) || (MAX_FILE_HANDLES - 1 <? i) || bad_handle then Some EBADF
  else None.

(** The result of [sys_read] ([std]: standard input; [bad]: standard output and error) and
    of [sys_write] (the other way round) *)
Definition rw_result k y p x (i buf n : Z) (bad std : bool) mode (r : Z * Z) y' : Prop :=
  match rw_refused k i buf bad with
  | Some err => r = (-1, err) ∧ y' = y
  | None => handle_outcome y p x i n std mode r y'
  end.

Lemma rw_prefix_ok `{HM : !MemoryLasts S} s k rest O pid p x i n buf (bad std : bool) oflags mode rw vop :
  vop_ok vop → here s k pid p x → files_ok k s.2 rest O → 0 ≤ n < 2 ^ 31 →
  (∀ f d, zlookup (p_file_table x) i = Some f → fds s.2 !! f = Some d →
     0 ≤ position d ∧ position d + n < 2 ^ 31) →
  wp safe_oom (
    pl ← get_process_lock;
    on_k (lock_acquire pl);;
    pid ← curpid;
    p ← get_running pid;
    x ← get_process p;
    let tl := p_file_table_lock x in
    b ← on_k (as_valid_ptr buf);
    if negb (b =? 0) then rw_error pl tl EFAULT
    else if (i <? 0) || (MAX_FILE_HANDLES - 1 <? i) then rw_error pl tl EBADF
    else if bad then rw_error pl tl EBADF
    else
    e ← get_entry p i;
    err ← (if std && (e =? 0) then _open p i "con:" oflags else mret 0);
    if negb (err =? 0) then rw_error pl tl err else
    transfer pl p tl i buf n mode rw vop) s
    (λ r s', cpu_of s'.1 = cpu_of s.1 ∧
       (∃ k'', kst s'.1 k'' ∧ same_but_files k k'' ∧ files_ok k'' s'.2 rest O) ∧
       rw_result k s.2 p x i buf n bad std mode r s'.2) noerr.
Proof.
  intros Hvop Hh Hfo Hn Hpos. pose proof Hh as [Hk Hpid Hrun Hx Hpl Htl Hne].
  unfold get_process_lock. wp_steps. eapply p_acquire_ok; [done..|]. intros t1 Hc1 Hk1. wp_steps.
  eapply p_curpid_ok; [exact Hk1|done|]. unfold get_running. wp_the p by done. wp_steps.
  apply (wp_get_process _ _ _ x); [done|]. wp_steps. apply wp_on_k, wp_faults with safe; [|done].
  eapply wp_mono; [apply (as_valid_ptr_k t1 _ buf Hk1)| |done].
  intros b t2 (-> & Hc2 & Hk2). cbn [fst snd] in *. change (kv_valid (set_lock _ _ k) buf) with (kv_valid k buf).
  unfold rw_result, rw_refused. set (pl := process_lock s.2) in *. set (tl := p_file_table_lock x) in *.
  assert (∀ err, wp safe_oom (rw_error pl tl err) (t2, s.2) (λ r s', cpu_of s'.1 = cpu_of s.1 ∧
    (∃ k'', kst s'.1 k'' ∧ same_but_files k k'' ∧ files_ok k'' s'.2 rest O) ∧ r = (-1, err) ∧ s'.2 = s.2) noerr) as Herr.
  { intros err. eapply rw_error_ok; [exact Hk2|by left|done..|]. intros t3 k3 Hc3 Hk3 Hs3 Hm3 Ho3. cbn [fst snd] in *.
    split; [congruence|]. split; [|done]. exists k3. split; [done|]. split; [done|]. by apply (files_ok_view k). }
  destruct (negb (kv_valid k buf =? 0)); [apply Herr|].
  destruct ((i <? 0) || (MAX_FILE_HANDLES - 1 <? i)) eqn:Hir; cbn [orb]; [apply Herr|].
  destruct bad; [apply Herr|].
  eapply wp_mono; [apply (rw_tail_ok (t2, s.2) k rest O p x i n buf std oflags mode rw vop); try done| |done].
  - unfold MAX_FILE_HANDLES in *. lia.
  - intros r s' (Hc & Hk' & Ho). cbn [fst] in *. split; [congruence|]. done.
Qed.

Lemma sys_read_ok `{HM : !MemoryLasts S} s k rest O pid p x i buf n :
  here s k pid p x → files_ok k s.2 rest O → 0 ≤ n < 2 ^ 31 →
  (∀ f d, zlookup (p_file_table x) i = Some f → fds s.2 !! f = Some d →
     0 ≤ position d ∧ position d + n < 2 ^ 31) →
  wp safe_oom (sys_read i buf n) s
    (λ r s', cpu_of s'.1 = cpu_of s.1 ∧
       (∃ k', kst s'.1 k' ∧ same_but_files k k' ∧ files_ok k' s'.2 rest O) ∧
       rw_result k s.2 p x i buf n ((i =? 1) || (i =? 2)) (i =? 0) O_WRONLY r s'.2) noerr.
Proof. intros Hh Hfo Hn Hpos. eapply rw_prefix_ok; eauto using vop_read_ok. Qed.

Lemma sys_write_ok `{HM : !MemoryLasts S} s k rest O pid p x i buf n :
  here s k pid p x → files_ok k s.2 rest O → 0 ≤ n < 2 ^ 31 →
  (∀ f d, zlookup (p_file_table x) i = Some f → fds s.2 !! f = Some d →
     0 ≤ position d ∧ position d + n < 2 ^ 31) →
  wp safe_oom (sys_write i buf n) s
    (λ r s', cpu_of s'.1 = cpu_of s.1 ∧
       (∃ k', kst s'.1 k' ∧ same_but_files k k' ∧ files_ok k' s'.2 rest O) ∧
       rw_result k s.2 p x i buf n (i =? 0) ((i =? 1) || (i =? 2)) O_RDONLY r s'.2) noerr.
Proof. intros Hh Hfo Hn Hpos. eapply rw_prefix_ok; eauto using vop_write_ok. Qed.
End rw.
