(* ===== verification/ProcessLife.v ===== *)
(** * The life of a process

    Creating and removing processes, [sys_fork], [sys__exit] and [sys_waitpid] (fork.c,
    exit.c, waitpid.c): what they do to the process table, the file tables and the view
    of the kernel. *)

From Stdlib Require Import ZArith Lia.
From stdpp Require Import base list gmap gmultiset numbers strings.
From S2P Require Import Prelude Cpu KMem HeapCpu Uio Kernel Process ProcessProof ProcessRw.

Local Open Scope Z_scope.

(** ** Closing all files *)

(** The handles 3 to [n + 2] closed; the three of the console stay as they are. *)
Definition std : nat := Z.to_nat FIRST_FILE_HANDLE.
Definition closed_table (n : nat) (l : list Z) : list Z := take std l ++ replicate n 0 ++ drop (std + n) l.
Definition closed_fds (n : nat) (l : list Z) (m : gmap Z fd) : gmap Z fd :=
  filter (λ '(f, _), f ∉ take n (drop std l)) m.
Definition closed_upto (n : nat) (p : Z) (x : process) (y : procs) : procs :=
  set_fds (closed_fds n (p_file_table x) (fds y))
    (set_processes (<[p := set_table (closed_table n (p_file_table x)) x]> (processes y)) y).

(** What [close_all] does *)
Definition all_closed (p : Z) (x : process) (y : procs) : procs :=
  closed_upto (Z.to_nat (MAX_FILE_HANDLES - FIRST_FILE_HANDLE)) p x y.

Lemma closed_table_lookup n l i : (std + n ≤ i)%nat → (std ≤ length l)%nat → closed_table n l !! i = l !! i.
Proof.
  intros Hi Hl. unfold closed_table. rewrite lookup_app_r; rewrite length_take_le by done; [|lia].
  rewrite lookup_app_r; rewrite length_replicate; [|lia]. rewrite lookup_drop. f_equal. lia.
Qed.

Lemma closed_table_step n l e :
  l !! (std + n)%nat = Some e → <[(std + n)%nat := 0]> (closed_table n l) = closed_table (S n) l.
Proof.
  intros He. pose proof (lookup_lt_Some _ _ _ He). unfold closed_table.
  rewrite insert_app_r_alt; rewrite length_take_le by lia; [|lia]. f_equal.
  rewrite insert_app_r_alt; rewrite length_replicate; [|lia].
  rewrite replicate_S_end, <- app_assoc. f_equal. replace (std + n - std - n)%nat with 0%nat by lia.
  rewrite (drop_S l e) by done. cbn. done.
Qed.

Lemma closed_table_step_0 n l :
  l !! (std + n)%nat = Some 0 → closed_table (S n) l = closed_table n l.
Proof.
  intros He. rewrite <- (closed_table_step n l 0 He). apply list_insert_id.
  pose proof (lookup_lt_Some _ _ _ He). by rewrite closed_table_lookup by lia.
Qed.

Lemma closed_fds_step n l e m :
  l !! (std + n)%nat = Some e → closed_fds (S n) l m = delete e (closed_fds n l m).
Proof.
  intros He. unfold closed_fds. apply map_eq. intros f.
  rewrite (take_S_r _ n e) by (by rewrite lookup_drop). apply option_eq. intros d.
  rewrite lookup_delete_Some, !map_lookup_filter_Some. set_solver.
Qed.

Lemma closed_upto_0 p x y : processes y !! p = Some x → closed_upto 0 p x y = y.
Proof.
  intros Hx. unfold closed_upto, closed_table, closed_fds. cbn [replicate app]. rewrite Nat.add_0_r, take_drop.
  replace (set_table (p_file_table x) x) with x by (by destruct x). rewrite insert_id by done.
  rewrite map_filter_id by (intros f d _; rewrite take_0; set_solver). by destruct y.
Qed.

Lemma closed_upto_step n p x y e :
  p_file_table x !! (std + n)%nat = Some e →
  closed p (Z.of_nat (std + n)) e (set_table (closed_table n (p_file_table x)) x) (closed_upto n p x y) =
  closed_upto (S n) p x y.
Proof.
  intros He. unfold closed, closed_upto, set_handle, set_fds, set_processes. cbn. f_equal.
  - rewrite insert_insert_eq. f_equal. unfold set_table. cbn. f_equal.
    rewrite <- (closed_table_step n _ e He). f_equal. lia.
  - by rewrite (closed_fds_step n _ e).
Qed.

Lemma closed_upto_step_0 n p x y :
  p_file_table x !! (std + n)%nat = Some 0 → fds y !! 0 = None → closed_upto (S n) p x y = closed_upto n p x y.
Proof.
  intros He H0. unfold closed_upto. rewrite closed_table_step_0, (closed_fds_step n _ 0) by done.
  rewrite delete_id; [done|]. apply map_lookup_filter_None. by left.
Qed.

Lemma kview_ext k k' :
  kv_cur k = kv_cur k' → kv_space k = kv_space k' → kv_exec k = kv_exec k' → kv_mem k = kv_mem k' →
  kv_locks k = kv_locks k' → kv_cvs k = kv_cvs k' → kv_idle k = kv_idle k' → kv_pids k = kv_pids k' →
  kv_starts k = kv_starts k' → kv_opens k = kv_opens k' → kv_user k = kv_user k' → kv_valid k = kv_valid k' →
  kv_stores k = kv_stores k' → k = k'.
Proof. destruct k, k'. cbn. intros. by subst. Qed.

Lemma same_but_files_ex k k' : same_but_files k k' ↔ ∃ m o, k' = with_opens o (with_mem m k).
Proof.
  split; [intros Hs; exists (kv_mem k'), (kv_opens k'); exact Hs|]. by intros (m & o & ->).
Qed.

Lemma same_but_files_trans k1 k2 k3 : same_but_files k1 k2 → same_but_files k2 k3 → same_but_files k1 k3.
Proof. unfold same_but_files. intros -> ->. done. Qed.

(** ** New processes *)

(** What [process_create_for_id] makes of the process; [p_thread] is set later. *)
Definition fresh_process (junk : process) (pid parent c l t : Z) : process :=
  MkProcess pid parent (p_thread junk) 0 0 c l t (replicate (Z.to_nat MAX_FILE_HANDLES) 0).
(** The process at [dst] in slot [pid] of the process table *)
Definition add_process (pid dst : Z) (x : process) (y : procs) : procs :=
  set_running (<[Z.to_nat pid := dst]> (runningprocesses y)) (set_processes (<[dst := x]> (processes y)) y).
(** The view with the new block, condition variable and locks *)
Definition created_view (dst c l t : Z) (k : kview) : kview :=
  with_locks (<[t := 0]> (<[l := 0]> (kv_locks k))) (kv_idle k ∪ {[c]} ∪ {[l]} ∪ {[t]})
    (with_cvs (kv_cvs k ∪ {[c]}) (kv_idle k) (with_mem (<[dst := sizeof_process]> (kv_mem k)) k)).

Lemma files_ok_running k y rest O l : files_ok k y rest O → files_ok k (set_running l y) rest O.
Proof. intros [Ho Hn [Hl Hf Hi]]. by split. Qed.

Lemma process_live k y rest O p x :
  files_ok k y rest O → processes y !! p = Some x → is_Some (kv_mem k !! p).
Proof.
  intros [Ho _ _] Hx. apply (owned_elem _ _ _ _ Ho). unfold proc_blocks.
  rewrite !elem_of_app. right. left. apply list_elem_of_fmap. exists (p, x). split; [done|].
  by apply elem_of_map_to_list.
Qed.

Lemma replicate_zlookup n (a b : Z) i : zlookup (replicate n a) i = Some b → b = a.
Proof.
  unfold zlookup. destruct (0 <=? i); [|done]. intros Hb. by apply lookup_replicate in Hb as [-> _].
Qed.

Lemma files_ok_created k k' y rest O dst x sz :
  files_ok k y rest O → kv_mem k !! dst = None → kv_mem k' = <[dst := sz]> (kv_mem k) →
  kv_opens k' = kv_opens k → p_file_table x = replicate (Z.to_nat MAX_FILE_HANDLES) 0 →
  files_ok k' (set_processes (<[dst := x]> (processes y)) y) rest O.
Proof.
  intros Hfo Hdst Hm Hop Hx.
  assert (processes y !! dst = None) as Hnew.
  { destruct (processes y !! dst) eqn:Hd; [|done]. destruct (process_live _ _ _ _ _ _ Hfo Hd). congruence. }
  assert (∀ i e, zlookup (p_file_table x) i = Some e → e ≠ 0 → False) as Hno.
  { intros i e Hi He. rewrite Hx in Hi. by apply replicate_zlookup in Hi. }
  destruct Hfo as [Ho Hn [Hl Hf Hi]]. split.
  - unfold proc_blocks. cbn [set_processes fds processes frames]. rewrite map_to_list_insert by done. rewrite Hm.
    cbn [fmap list_fmap]. eapply owned_perm; [|apply owned_alloc; [exact Ho|done]].
    unfold proc_blocks. cbn [fst]. solve_Permutation.
  - cbn. congruence.
  - split; cbn [set_processes processes fds].
    + intros p z [[<- <-]|[_ Hz]]%lookup_insert_Some; [|eauto]. rewrite Hx, length_replicate. done.
    + intros p z i e [[<- <-]|[_ Hz]]%lookup_insert_Some Hi' He; [|eauto]. by destruct (Hno i e).
    + intros p1 x1 i1 p2 x2 i2 e [[<- <-]|[_ H1]]%lookup_insert_Some [[<- <-]|[_ H2]]%lookup_insert_Some Hi1 Hi2 He;
        [..|eauto]; exfalso; eauto.
Qed.

(** ** Removing processes *)

(** Nobody uses the process any more: its locks and its condition variable can be
    destroyed. *)
Record retired (k : kview) (y : procs) (x : process) : Prop := {
  re_pl : kv_locks k !! process_lock y = Some 0;
  re_el : kv_locks k !! p_exitlock x = Some 0;
  re_tl : kv_locks k !! p_file_table_lock x = Some 0;
  re_cv : p_exitcv x ∈ kv_cvs k;
  re_idle : {[p_exitlock x; p_file_table_lock x; p_exitcv x]} ⊆ kv_idle k;
  re_dup : NoDup [process_lock y; p_exitlock x; p_file_table_lock x];
}.

Definition remove_process (pid p : Z) (x : process) (y : procs) : procs :=
  set_running (<[Z.to_nat pid := 0]> (runningprocesses y))
    (set_processes (delete p (processes y)) (all_closed p x y)).
Definition removed_view (x : process) (k : kview) : kview :=
  with_locks (delete (p_file_table_lock x) (delete (p_exitlock x) (kv_locks k))) (kv_idle k)
    (with_cvs (kv_cvs k ∖ {[p_exitcv x]}) (kv_idle k) k).

Lemma files_ok_deleted k k' y rest O p x :
  files_ok k y rest O → processes y !! p = Some x → kv_mem k' = delete p (kv_mem k) → kv_opens k' = kv_opens k →
  files_ok k' (set_processes (delete p (processes y)) y) rest O.
Proof.
  intros [Ho Hn [Hl Hf Hi]] Hx Hm Hop. split.
  - unfold proc_blocks in *. cbn [set_processes fds processes frames]. rewrite Hm.
    refine (proj2 (owned_free _ _ _ p _)). eapply owned_perm; [|exact Ho].
    rewrite <- (map_to_list_delete _ _ _ Hx). cbn [fmap list_fmap fst]. solve_Permutation.
  - cbn. congruence.
  - split; cbn [set_processes processes fds].
    + intros q z [_ Hz]%lookup_delete_Some. eauto.
    + intros q z i e [_ Hz]%lookup_delete_Some. eauto.
    + intros p1 x1 i1 p2 x2 i2 e [_ H1]%lookup_delete_Some [_ H2]%lookup_delete_Some. eauto.
Qed.

Section life.
Context {S : Type} `{!KernelOps S} `{!Kernel S}.
Implicit Types (s : PS S) (k : kview) (x : process) (y : procs).

Lemma close_all_ok F s k rest O p x :
  kst s.1 k → files_ok k s.2 rest O → processes s.2 !! p = Some x →
  wp F (close_all p) s
    (λ _ s', cpu_of s'.1 = cpu_of s.1 ∧ s'.2 = all_closed p x s.2 ∧
       ∃ k', kst s'.1 k' ∧ same_but_files k k' ∧ files_ok k' s'.2 rest O) noerr.
Proof.
  intros Hk Hfo Hx. pose proof (to_length _ (fo_tables _ _ _ _ Hfo) _ _ Hx) as Hlen.
  pose proof (fds_nonnull _ _ _ _ _ Hk Hfo) as H0. unfold close_all.
  eapply (wp_for_range _ _ (λ i s', cpu_of s'.1 = cpu_of s.1 ∧ s'.2 = closed_upto (Z.to_nat (i - FIRST_FILE_HANDLE)) p x s.2 ∧
    ∃ k', kst s'.1 k' ∧ same_but_files k k' ∧ files_ok k' s'.2 rest O)); [done| | |].
  - intros i s1 Hi (Hc & Hy & k1 & Hk1 & Hs1 & Hfo1).
    set (n := Z.to_nat (i - FIRST_FILE_HANDLE)) in *.
    assert (i = Z.of_nat (std + n)) as Hin by (unfold std, n, FIRST_FILE_HANDLE, MAX_FILE_HANDLES in *; lia).
    replace (Z.to_nat (i + 1 - FIRST_FILE_HANDLE)) with (Datatypes.S n) by (unfold n, FIRST_FILE_HANDLE in *; lia).
    destruct (lookup_lt_is_Some_2 (p_file_table x) (std + n)) as [e He].
    { unfold FIRST_FILE_HANDLE, MAX_FILE_HANDLES in *. lia. }
    assert (processes s1.2 !! p = Some (set_table (closed_table n (p_file_table x)) x)) as Hx1.
    { rewrite Hy. cbn. by rewrite lookup_insert_eq. }
    assert (zlookup (closed_table n (p_file_table x)) i = Some e) as He1.
    { pose proof (lookup_lt_Some _ _ _ He). rewrite Hin, zlookup_nat, closed_table_lookup by lia. done. }
    apply wp_bind. eapply wp_get_entry; [exact Hx1|exact He1|]. apply wp_when; intros Hez.
    + assert (e ≠ 0) as He0 by lia. eapply wp_mono; [eapply _close_ok; [exact Hk1|exact Hfo1|exact Hx1|exact He1|done]| |done].
      intros _ s2 (Hc2 & Hy2 & k2 & Hk2 & Hs2 & Hfo2). split; [congruence|].
      split; [rewrite Hy2, Hy, Hin; by apply closed_upto_step|]. eauto using same_but_files_trans.
    + assert (e = 0) as -> by lia. split; [done|]. rewrite closed_upto_step_0 by done. eauto.
  - rewrite Z.sub_diag. split; [done|]. split; [by rewrite closed_upto_0|]. exists k. split_and!; [done| |done].
    by destruct k.
  - intros s1. replace (Z.to_nat _) with (Z.to_nat (MAX_FILE_HANDLES - FIRST_FILE_HANDLE)) by lia. done.
Qed.

(** ** The kernel's other operations, on the state of the processes *)

Lemma p_lock_create_ok `{HM : !MemoryLasts S} s k name (Q : Z → PS S → Prop) E :
  kst s.1 k →
  (∀ p t, p ≠ 0 → kv_locks k !! p = None → cpu_of t = cpu_of s.1 →
     kst t (with_locks (<[p := 0]> (kv_locks k)) (kv_idle k ∪ {[p]}) k) → Q p (t, s.2)) →
  wp safe_oom (on_k (lock_create name)) s Q E.
Proof.
  intros Hk HQ. apply wp_on_k. eapply wp_mono; [apply wp_and; [by apply (lock_create_k s.1 k)|by apply (lock_create_lasts s.1 k)]| |by intros ?? []].
  intros p t [(? & [[? _]|(? & ? & ?)]) ?]; [done|]. by apply HQ.
Qed.

Lemma p_cv_create_ok `{HM : !MemoryLasts S} s k name (Q : Z → PS S → Prop) E :
  kst s.1 k →
  (∀ p t, p ≠ 0 → p ∉ kv_cvs k → cpu_of t = cpu_of s.1 →
     kst t (with_cvs (kv_cvs k ∪ {[p]}) (kv_idle k ∪ {[p]}) k) → Q p (t, s.2)) →
  wp safe_oom (on_k (cv_create name)) s Q E.
Proof.
  intros Hk HQ. apply wp_on_k. eapply wp_mono; [apply wp_and; [by apply (cv_create_k s.1 k)|by apply (cv_create_lasts s.1 k)]| |by intros ?? []].
  intros p t [(? & [[? _]|(? & ? & ?)]) ?]; [done|]. by apply HQ.
Qed.

Lemma p_lock_destroy_ok F s k p (Q : () → PS S → Prop) E :
  kst s.1 k → kv_locks k !! p = Some 0 → p ∈ kv_idle k →
  (∀ t, cpu_of t = cpu_of s.1 → kst t (with_locks (delete p (kv_locks k)) (kv_idle k) k) → Q tt (t, s.2)) →
  wp F (on_k (lock_destroy p)) s Q E.
Proof.
  intros Hk Hp Hi HQ. apply wp_on_k, wp_faults with safe; [|done].
  eapply wp_mono; [by apply (lock_destroy_k s.1 k)| |done]. intros [] t [? ?]. by apply HQ.
Qed.

Lemma p_cv_destroy_ok F s k p (Q : () → PS S → Prop) E :
  kst s.1 k → p ∈ kv_cvs k → p ∈ kv_idle k →
  (∀ t, cpu_of t = cpu_of s.1 → kst t (with_cvs (kv_cvs k ∖ {[p]}) (kv_idle k) k) → Q tt (t, s.2)) →
  wp F (on_k (cv_destroy p)) s Q E.
Proof.
  intros Hk Hp Hi HQ. apply wp_on_k, wp_faults with safe; [|done].
  eapply wp_mono; [by apply (cv_destroy_k s.1 k)| |done]. intros [] t [? ?]. by apply HQ.
Qed.

Lemma wp_upd_process F s p x f (Q : () → PS S → Prop) E :
  processes s.2 !! p = Some x → Q tt (s.1, set_processes (<[p := f x]> (processes s.2)) s.2) →
  wp F (upd_process p f) s Q E.
Proof.
  intros Hx HQ. unfold upd_process, upd_procs. wp_steps. apply (wp_get_process _ _ _ x); [done|]. by wp_steps.
Qed.

Lemma wp_set_running_at F s pid p (Q : () → PS S → Prop) E :
  0 ≤ pid < Z.of_nat (length (runningprocesses s.2)) →
  Q tt (s.1, set_running (<[Z.to_nat pid := p]> (runningprocesses s.2)) s.2) →
  wp F (set_running_at pid p) s Q E.
Proof.
  intros Hp HQ. unfold set_running_at, upd_procs. wp_the _ by (by apply zstore_Some). by wp_steps.
Qed.

(** The view when the lock the caller may have passed is given back *)
Definition given_back (pl : Z) k : kview := if pl =? 0 then k else set_lock pl 0 k.

Lemma release_if_ok F s k pl (Q : () → PS S → Prop) E :
  kst s.1 k → (pl ≠ 0 → kv_locks k !! pl = Some (kv_cur k)) →
  (∀ t, cpu_of t = cpu_of s.1 → kst t (given_back pl k) → Q tt (t, s.2)) →
  wp F (release_if pl) s Q E.
Proof.
  intros Hk Hpl HQ. unfold release_if, given_back in *. apply wp_when; destruct (Z.eqb_spec pl 0) as [->|Hne]; try done; intros _.
  - eapply p_release_ok; eauto.
  - destruct s. by apply HQ.
Qed.

(** The view once the condition variable and the first lock are made *)
Definition created_half (dst c l : Z) k : kview :=
  with_locks (<[l := 0]> (kv_locks k)) (kv_idle k ∪ {[c]} ∪ {[l]})
    (with_cvs (kv_cvs k ∪ {[c]}) (kv_idle k ∪ {[c]}) (with_mem (<[dst := sizeof_process]> (kv_mem k)) k)).

Lemma created_view_eq k pl dst c l t :
  kv_locks k !! l = None → (pl ≠ 0 → is_Some (kv_locks k !! pl)) →
  let k' := given_back pl (created_half dst c l k) in
  with_locks (<[t := 0]> (kv_locks k')) (kv_idle k' ∪ {[t]}) k' = created_view dst c l t (given_back pl k).
Proof.
  intros Hl Hpl. unfold given_back. destruct (Z.eqb_spec pl 0) as [->|Hne]; [done|].
  unfold created_view, created_half, set_lock, with_locks, with_cvs, with_mem. cbn. f_equal. f_equal.
  apply insert_insert_ne. intros <-. destruct (Hpl Hne). congruence.
Qed.

Lemma given_back_locks k pl q : kv_locks (given_back pl k) !! q = None → kv_locks k !! q = None.
Proof. unfold given_back. destruct (pl =? 0); [done|]. cbn. intros Hq. by apply lookup_insert_None in Hq as [Hq _]. Qed.

Lemma process_create_for_id_ok `{HM : !MemoryLasts S} s k rest O junk pid me pl :
  kst s.1 k → files_ok k s.2 rest O → kv_pids k !! kv_cur k = Some me →
  (pl ≠ 0 → kv_locks k !! pl = Some (kv_cur k)) →
  0 ≤ pid < Z.of_nat (length (runningprocesses s.2)) →
  wp safe_oom (process_create_for_id junk pid pl) s
    (λ r s', cpu_of s'.1 = cpu_of s.1 ∧ r.1 = 0 ∧ r.2 ≠ 0 ∧ processes s.2 !! r.2 = None ∧
       ∃ c l t, s'.2 = add_process pid r.2 (fresh_process junk pid me c l t) s.2 ∧
         c ∉ kv_cvs k ∧ kv_locks k !! l = None ∧ kv_locks k !! t = None ∧ l ≠ t ∧
         kst s'.1 (created_view r.2 c l t (given_back pl k)) ∧
         files_ok (created_view r.2 c l t (given_back pl k)) s'.2 rest O) noerr.
Proof.
  intros Hk Hfo Hme Hpl Hpid. unfold process_create_for_id, upd_procs. wp_steps.
  apply (p_kmalloc_ok s k); [done..|]. intros dst t1 Hd0 Hdm Hc1 Hk1. destruct (Z.eqb_spec dst 0); [done|]. wp_steps.
  eapply p_cv_create_ok; [exact Hk1|]. intros c t2 Hcz Hcn Hc2 Hk2. wp_steps.
  eapply wp_upd_process; [cbn; by rewrite lookup_insert_eq|]. destruct (Z.eqb_spec c 0); [done|]. wp_steps.
  eapply p_lock_create_ok; [exact Hk2|]. intros l t3 Hl0 Hln Hc3 Hk3. wp_steps.
  eapply wp_upd_process; [cbn; by rewrite lookup_insert_eq|]. destruct (Z.eqb_spec l 0); [done|]. wp_steps.
  apply wp_set_running_at; [done|]. wp_steps. eapply p_curpid_ok; [exact Hk3|done|]. wp_steps.
  eapply wp_upd_process; [cbn; by rewrite lookup_insert_eq|]. wp_steps.
  eapply release_if_ok; [exact Hk3| |].
  { intros Hp. cbn. rewrite lookup_insert_ne; [by apply Hpl|]. intros <-. specialize (Hpl Hp). cbn in Hln. congruence. }
  intros t4 Hc4 Hk4. wp_steps. eapply p_lock_create_ok; [exact Hk4|]. intros t t5 Ht0 Htn Hc5 Hk5. wp_steps.
  eapply wp_upd_process; [cbn; by rewrite lookup_insert_eq|]. destruct (Z.eqb_spec t 0); [done|]. wp_steps.
  eapply wp_upd_process; [cbn; by rewrite lookup_insert_eq|]. wp_steps. cbn [fst snd] in *.
  change (kst t5 (let k' := given_back pl (created_half dst c l k) in
    with_locks (<[t := 0]> (kv_locks k')) (kv_idle k' ∪ {[t]}) k')) in Hk5.
  change (kv_locks (given_back pl (created_half dst c l k)) !! t = None) in Htn.
  rewrite created_view_eq in Hk5; [|done|intros Hp; rewrite (Hpl Hp); by eexists].
  apply given_back_locks in Htn. cbn in Htn. apply lookup_insert_None in Htn as [Htn Hlt].
  assert (processes s.2 !! dst = None) as Hnew.
  { destruct (processes s.2 !! dst) eqn:Hd; [|done]. destruct (process_live _ _ _ _ _ _ Hfo Hd). congruence. }
  split; [congruence|]. split; [done|]. split; [done|]. split; [done|]. exists c, l, t.
  assert (∀ y', y' = add_process pid dst (fresh_process junk pid me c l t) s.2 →
    files_ok (created_view dst c l t (given_back pl k)) y' rest O) as Hfo'.
  { intros y' ->. unfold add_process. apply files_ok_running.
    apply (files_ok_created k _ s.2 _ _ dst _ sizeof_process Hfo); [done| | |done];
      unfold given_back; by destruct (pl =? 0). }
  match goal with |- ?y' = ?z ∧ _ => assert (y' = z) as Hy end.
  { unfold add_process, set_running, set_processes. cbn. by rewrite !insert_insert_eq. }
  split; [done|]. split_and!; try done. by apply Hfo'.
Qed.

Lemma free_pid_ok F fuel : ∀ s pid,
  0 ≤ pid → pid + Z.of_nat fuel = Z.of_nat (length (runningprocesses s.2)) →
  wp F (free_pid fuel pid) s
    (λ r s', s' = s ∧ match r with
       | Some h => lowest_free (runningprocesses s.2) pid h
       | None => none_free (runningprocesses s.2) pid (Z.of_nat (length (runningprocesses s.2)))
       end) noerr.
Proof.
  induction fuel as [|fuel IH]; intros s pid Hi Hf; cbn [free_pid].
  { wp_steps. split; [done|]. intros j Hj. lia. }
  destruct (zlookup_lt_is_Some (runningprocesses s.2) pid) as [e He]; [lia|].
  unfold get_running at 1. wp_the e by done. destruct (Z.eqb_spec e 0) as [->|He0].
  { wp_steps. split; [done|]. split; [lia|]. split; [done|]. intros j Hj. lia. }
  eapply wp_mono; [apply (IH s (pid + 1)); lia| |done]. intros r s' [-> Hr]. split; [done|].
  assert (∀ j, pid ≤ j → j = pid ∨ pid + 1 ≤ j) as Hj by lia. destruct r as [h|].
  - destruct Hr as (Hh & H0 & Hlow). split; [lia|]. split; [done|]. intros j Hjr.
    destruct (Hj j) as [->|]; [lia|eauto|]. apply Hlow. lia.
  - intros j Hjr. destruct (Hj j) as [->|]; [lia|eauto|]. apply Hr. lia.
Qed.

Lemma process_create_ok `{HM : !MemoryLasts S} s k rest O junk me :
  kst s.1 k → files_ok k s.2 rest O → kv_pids k !! kv_cur k = Some me →
  kv_locks k !! process_lock s.2 = Some 0 → process_lock s.2 ≠ 0 →
  Z.of_nat (length (runningprocesses s.2)) = MAX_PROCESSES →
  wp safe_oom (process_create junk) s
    (λ r s', cpu_of s'.1 = cpu_of s.1 ∧
       (none_free (runningprocesses s.2) 1 MAX_PROCESSES ∧ r.1 = EAGAIN ∧ s'.2 = s.2 ∧ kst s'.1 k ∨
        r.1 = 0 ∧ r.2 ≠ 0 ∧ processes s.2 !! r.2 = None ∧
        ∃ pid c l t, lowest_free (runningprocesses s.2) 1 pid ∧ pid < MAX_PROCESSES ∧
          s'.2 = add_process pid r.2 (fresh_process junk pid me c l t) s.2 ∧
          c ∉ kv_cvs k ∧ kv_locks k !! l = None ∧ kv_locks k !! t = None ∧ l ≠ t ∧
          kst s'.1 (created_view r.2 c l t k) ∧ files_ok (created_view r.2 c l t k) s'.2 rest O)) noerr.
Proof.
  intros Hk Hfo Hme Hpl Hpl0 Hlen. unfold process_create, get_process_lock. wp_steps.
  eapply p_acquire_ok; [done..|]. intros t1 Hc1 Hk1. wp_steps.
  eapply wp_mono; [apply (free_pid_ok _ _ (t1, s.2) 1); [done|cbn [snd]; rewrite Hlen; done]| |done].
  intros r s1 [-> Hr]. cbn [snd] in Hr. destruct r as [pid|].
  - destruct Hr as (Hp1 & Hpz & Hlow). pose proof (zlookup_lt_Some _ _ _ Hpz) as Hpl'.
    eapply wp_mono; [eapply (process_create_for_id_ok (t1, s.2) _ rest O junk pid me); [exact Hk1|by apply (files_ok_view k)|done| |done]| |done].
    { intros _. cbn. by rewrite lookup_insert_eq. }
    intros [e dst] s2 (Hc2 & He & Hd0 & Hnew & c & l & t & Hy & Hcn & Hln & Htn & Hlt & Hk2 & Hfo2). cbn [fst snd] in *.
    assert (given_back (process_lock s.2) (set_lock (process_lock s.2) (kv_cur k) k) = k) as Hgb.
    { unfold given_back. destruct (Z.eqb_spec (process_lock s.2) 0); [done|]. by apply set_lock_back. }
    rewrite Hgb in Hk2, Hfo2. cbn in Hln, Htn.
    apply lookup_insert_None in Hln as [Hln _]. apply lookup_insert_None in Htn as [Htn _].
    split; [congruence|]. right. split_and!; [done..|]. exists pid, c, l, t. split_and!; try done; lia.
  - wp_steps. eapply p_release_ok; [exact Hk1|cbn; by rewrite lookup_insert_eq|]. intros t2 Hc2 Hk2.
    rewrite set_lock_back in Hk2 by done. wp_steps. cbn [fst snd] in *. split; [congruence|]. left.
    rewrite Hlen in Hr. done.
Qed.

Lemma process_remove_ok F s k rest O pid p x :
  kst s.1 k → files_ok k s.2 rest O → zlookup (runningprocesses s.2) pid = Some p → p ≠ 0 →
  processes s.2 !! p = Some x → retired k s.2 x →
  wp F (process_remove pid) s
    (λ _ s', cpu_of s'.1 = cpu_of s.1 ∧ s'.2 = remove_process pid p x s.2 ∧
       ∃ k', kst s'.1 k' ∧ same_but_files (removed_view x k) k' ∧ files_ok k' s'.2 rest O) noerr.
Proof.
  intros Hk Hfo Hrun Hp0 Hx [Hpl Hel Htl Hcv Hidle Hdup].
  apply NoDup_cons in Hdup as [Hd1 [Hd2 _]%NoDup_cons]. rewrite !not_elem_of_cons in Hd1. rewrite not_elem_of_cons in Hd2.
  destruct Hd1 as (Hd1 & Hd3 & _), Hd2 as [Hd2 _].
  unfold process_remove, get_running, get_process_lock. wp_the p by done. wp_assert by (destruct (Z.eqb_spec p 0); done).
  wp_steps. eapply p_acquire_ok; [done..|]. intros t1 Hc1 Hk1. wp_steps. apply (wp_get_process _ _ _ x); [done|]. wp_steps.
  eapply p_lock_destroy_ok; [exact Hk1|cbn; by rewrite lookup_insert_ne|set_solver|]. intros t2 Hc2 Hk2. wp_steps.
  eapply p_cv_destroy_ok; [exact Hk2|done|set_solver|]. intros t3 Hc3 Hk3. wp_steps.
  eapply p_lock_destroy_ok; [exact Hk3|cbn; by rewrite lookup_delete_ne, lookup_insert_ne|set_solver|]. intros t4 Hc4 Hk4. wp_steps.
  eapply wp_mono; [eapply close_all_ok; [exact Hk4|by apply (files_ok_view k)|exact Hx]| |done].
  intros _ s5 (Hc5 & Hy5 & k5 & Hk5 & Hs5 & Hfo5). wp_steps.
  assert (processes s5.2 !! p = Some (set_table (closed_table 29 (p_file_table x)) x)) as Hx5.
  { rewrite Hy5. cbn. by rewrite lookup_insert_eq. }
  assert (kv_locks k5 = delete (p_file_table_lock x) (delete (p_exitlock x)
    (<[process_lock s.2 := kv_cur k]> (kv_locks k)))) as Hl5 by (rewrite Hs5; reflexivity).
  assert (kv_cur k5 = kv_cur k) as Hcur5 by (rewrite Hs5; reflexivity).
  eapply p_kfree_ok; [exact Hk5|by eapply process_live|]. intros t6 Hc6 Hk6. unfold upd_procs. wp_steps.
  apply wp_set_running_at; [rewrite Hy5; by eapply zlookup_lt_Some|]. wp_steps.
  eapply p_release_ok; [exact Hk6| |].
  { cbn [kv_locks kv_cur with_mem]. rewrite Hl5, Hcur5. by rewrite !lookup_delete_ne, lookup_insert_eq by done. }
  intros t7 Hc7 Hk7. cbn [fst snd] in *. split; [congruence|]. split.
  { rewrite Hy5. unfold remove_process, all_closed, closed_upto, set_running, set_processes, set_fds. cbn.
    by rewrite delete_insert_eq. }
  eexists. split; [exact Hk7|]. split.
  - apply same_but_files_ex in Hs5 as (m & o & ->). apply same_but_files_ex.
    exists (delete p m), o. apply kview_ext; try reflexivity. cbn.
    by rewrite <- !delete_insert_ne, insert_insert_eq, insert_id.
  - apply files_ok_running. by eapply (files_ok_deleted k5).
Qed.
End life.

(** ** The end of a process

    [sys__exit] and [sys_waitpid] (exit.c, waitpid.c): the process records its exit code
    and closes its files; its parent gets the code and the process disappears. *)


(** The process when it has finished, and the tables then *)
Definition finished_process (code : Z) (x : process) : process :=
  set_finished code (set_table (closed_table (Z.to_nat (MAX_FILE_HANDLES - FIRST_FILE_HANDLE)) (p_file_table x)) x).
Definition exited (code p : Z) (x : process) (y : procs) : procs :=
  set_processes (<[p := finished_process code x]> (processes y)) (all_closed p x y).

(** What [sys_waitpid], called by process [me], finds wrong with its arguments *)
Definition wait_error (me pid options : Z) (y : procs) : option Z :=
  if negb (options =? 0) then Some EINVAL
  else if (pid <? 1) || (MAX_PROCESSES <=? pid) then Some EFAULT
  else p ← zlookup (runningprocesses y) pid;
       if p =? 0 then Some EFAULT
       else x ← processes y !! p; if p_parentpid x =? me then None else Some EFAULT.

Lemma files_ok_same_table k y rest O p x x' :
  files_ok k y rest O → processes y !! p = Some x → p_file_table x' = p_file_table x →
  files_ok k (set_processes (<[p := x']> (processes y)) y) rest O.
Proof.
  intros [Ho Hn [Hl Hf Hi]] Hx Ht.
  assert (∀ q z, <[p := x']> (processes y) !! q = Some z →
    ∃ z0, processes y !! q = Some z0 ∧ p_file_table z = p_file_table z0) as Hz.
  { intros q z [[<- <-]|[_ Hz]]%lookup_insert_Some; eauto. }
  split; [|done|split; cbn [set_processes processes fds]].
  - eapply owned_perm; [|exact Ho]. unfold proc_blocks. cbn [set_processes fds processes frames].
    by rewrite (proc_keys_update _ p x).
  - intros q z (z0 & Hz0 & ->)%Hz. eauto.
  - intros q z i e (z0 & Hz0 & ->)%Hz. eauto.
  - intros p1 x1 i1 p2 x2 i2 e (z1 & Hz1 & ->)%Hz (z2 & Hz2 & ->)%Hz. eauto.
Qed.

(** Closing a vnode that no file table leads to *)
Lemma files_ok_close_other k y rest v O :
  files_ok k y rest ({[+ v +]} ⊎ O) → v ∈ kv_opens k ∧ files_ok (del_open v k) y rest O.
Proof.
  intros [Ho Hn Ht]. split; [rewrite Hn; multiset_solver|]. split; [done| |done].
  cbn. rewrite Hn. multiset_solver.
Qed.

Lemma exited_eq code p x y :
  set_processes (<[p := finished_process code x]> (processes (all_closed p x y))) (all_closed p x y) =
  exited code p x y.
Proof. unfold exited, all_closed, closed_upto, set_processes, set_fds. cbn. by rewrite insert_insert_eq. Qed.

(** Every lock that [sys__exit] takes is free again. *)
Lemma exit_locks (m : gmap Z Z) pl tl el cur :
  m !! pl = Some 0 → m !! tl = Some 0 → m !! el = Some 0 →
  <[pl := 0]> (<[el := 0]> (<[el := cur]> (<[tl := 0]> (<[tl := cur]> (<[pl := cur]> m))))) = m.
Proof.
  intros Hpl Htl Hel. apply map_eq. intros q. rewrite !lookup_insert. repeat case_decide; by subst.
Qed.

Section exit.
Context {S : Type} `{!KernelOps S} `{!Kernel S}.
Implicit Types (s : PS S) (k : kview) (x : process) (y : procs).

Lemma wp_unbind_2 {A B C} F (m : M (PS S) A) (f : A → M (PS S) B) (g : B → M (PS S) C) s Q E :
  wp F (a ← (a ← m; f a); g a) s Q E → wp F (a ← m; b ← f a; g b) s Q E.
Proof.
  intros Hw. apply wp_unbind in Hw. apply wp_unbind in Hw. apply wp_bind. eapply wp_mono; [exact Hw| |done].
  intros a s' Ha. by apply wp_bind.
Qed.

Lemma p_vmspace_ok F s k (Q : Z → PS S → Prop) E :
  kst s.1 k → is_Some (kv_pids k !! kv_cur k) → Q (kv_space k) s →
  wp F (cur ← get_curthread; on_k (t_vmspace cur)) s Q E.
Proof.
  intros Hk Hp HQ. unfold get_curthread. wp_steps. change (cpu_of s) with (cpu_of s.1).
  destruct (kst_cur s.1 k Hk) as [_ ->]. apply wp_on_k, wp_faults with safe; [|done].
  eapply wp_mono; [by apply (t_vmspace_k s.1 k)| |done]. intros a t [-> Ha]. rewrite Ha by done. by destruct s.
Qed.

Lemma exit_process_ok F s k rest O pid p x code :
  here s k pid p x → files_ok k s.2 rest ({[+ kv_exec k +]} ⊎ O) → p ≠ 0 →
  kv_locks k !! p_exitlock x = Some 0 → p_exitcv x ∈ kv_cvs k → p_exitlock x ≠ process_lock s.2 →
  wp F (exit_process code) s
    (λ _ s', cpu_of s'.1 = cpu_of s.1 ∧ s'.2 = exited code p x s.2 ∧
       ∃ k', kst s'.1 k' ∧ files_ok k' s'.2 rest O ∧
         same_but_files (with_cvs (kv_cvs k) (kv_idle k ∪ {[p_exitcv x]}) k) k') noerr.
Proof.
  intros [Hk Hpid Hrun Hx Hpl Htl Hne] Hfo Hp0 Hel Hcv Hne2.
  unfold exit_process, get_process_lock. wp_steps. eapply p_acquire_ok; [done..|]. intros t1 Hc1 Hk1. wp_steps.
  eapply p_curpid_ok; [exact Hk1|done|]. unfold get_running. wp_the p by done. apply wp_bind.
  destruct (Z.eqb_spec p 0); [done|]. cbn [negb]. wp_steps. apply (wp_get_process _ _ _ x); [done|]. wp_steps.
  eapply p_acquire_ok; [exact Hk1|cbn; by rewrite lookup_insert_ne|]. intros t2 Hc2 Hk2. wp_steps.
  eapply wp_mono; [eapply close_all_ok; [exact Hk2|by apply (files_ok_view k)|exact Hx]| |done].
  intros _ [t3 y3] (Hc3 & Hy3 & k3 & Hk3 & Hs3 & Hfo3). apply same_but_files_ex in Hs3 as (m & o & ->).
  cbn [fst snd] in *. wp_steps.
  eapply p_release_ok; [exact Hk3|cbn; by rewrite lookup_insert_eq|]. intros t4 Hc4 Hk4. wp_steps.
  eapply p_acquire_ok; [exact Hk4| |].
  { cbn. destruct (decide (p_exitlock x = p_file_table_lock x)) as [->|]; [by rewrite lookup_insert_eq|].
    by rewrite !lookup_insert_ne. }
  intros t5 Hc5 Hk5. wp_steps.
  assert (processes y3 !! p = Some (set_table (closed_table (Z.to_nat (MAX_FILE_HANDLES - FIRST_FILE_HANDLE)) (p_file_table x)) x)) as Hx3.
  { rewrite Hy3. cbn. by rewrite lookup_insert_eq. }
  eapply wp_upd_process; [exact Hx3|]. wp_steps. apply wp_on_k, wp_faults with safe; [|done].
  eapply wp_mono; [apply (cv_broadcast_k _ _ (p_exitcv x) (p_exitlock x) Hk5); [done|cbn; by rewrite lookup_insert_eq]| |done].
  intros [] t6 [Hc6 Hk6]. wp_steps. eapply p_release_ok; [exact Hk6|cbn; by rewrite lookup_insert_eq|].
  intros t7 Hc7 Hk7. cbn [fst snd] in *. wp_steps. eapply p_release_ok; [exact Hk7| |].
  { cbn. rewrite !lookup_insert_ne by done. by rewrite lookup_insert_eq. }
  intros t8 Hc8 Hk8. cbn [fst snd] in *.
  set (k8 := with_opens o (with_mem m (with_cvs (kv_cvs k) (kv_idle k ∪ {[p_exitcv x]}) k))).
  match type of Hk8 with kst _ ?v => assert (v = k8) as Heq; [|rewrite Heq in Hk8; clear Heq] end.
  { apply kview_ext; try reflexivity. cbn. by apply exit_locks. }
  subst y3. change (set_finished code (set_table _ x)) with (finished_process code x). rewrite exited_eq.
  assert (files_ok k8 (exited code p x s.2) rest ({[+ kv_exec k +]} ⊎ O)) as Hfo8.
  { rewrite <- exited_eq. eapply (files_ok_same_table k8); [|exact Hx3|done]. by eapply files_ok_view. }
  apply (wp_unbind_2 F get_curthread). apply wp_bind. eapply p_vmspace_ok; [exact Hk8|by eexists|]. wp_steps.
  apply wp_on_k, wp_faults with safe; [|done].
  eapply wp_mono; [exact (as_v_k t8 k8 Hk8)| |done]. intros v t9 [-> ->]. cbn [fst snd].
  eapply p_vfs_close_ok; [exact Hk8|exact (proj1 (files_ok_close_other _ _ _ _ _ Hfo8))|].
  intros t10 Hc10 Hk10. cbn [fst snd] in *. split; [congruence|]. split; [done|]. eexists. split; [exact Hk10|].
  split; [exact (proj2 (files_ok_close_other _ _ _ _ _ Hfo8))|done].
Qed.

Lemma wait_finished_ok F fuel s p x (Q : () → PS S → Prop) E :
  processes s.2 !! p = Some x → p_finished x ≠ 0 → Q tt s → wp F (wait_finished fuel p) s Q E.
Proof.
  intros Hx Hf HQ. destruct fuel; cbn [wait_finished]; wp_steps; apply (wp_get_process _ _ _ x); try done;
    destruct (Z.eqb_spec (p_finished x) 0); try done; by wp_steps.
Qed.

Lemma sys_waitpid_refused_ok F fuel s k me pid status options err :
  kst s.1 k → kv_pids k !! kv_cur k = Some me → wait_error me pid options s.2 = Some err →
  wp F (sys_waitpid fuel pid status options) s (λ r s', r = (-1, err) ∧ s' = s) noerr.
Proof.
  intros Hk Hme. unfold wait_error, sys_waitpid. destruct (negb (options =? 0)); [intros [= <-]; by wp_steps|].
  destruct ((pid <? 1) || (MAX_PROCESSES <=? pid)); [intros [= <-]; by wp_steps|].
  intros (p & Hp & Herr)%bind_Some. unfold get_running. wp_the p by done.
  destruct (p =? 0); [injection Herr as <-; by wp_steps|]. apply bind_Some in Herr as (x & Hx & Herr).
  wp_steps. apply (wp_get_process _ _ _ x); [done|]. wp_steps. eapply p_curpid_ok; [done..|].
  destruct (p_parentpid x =? me); [done|]. injection Herr as <-. by wp_steps.
Qed.

Lemma sys_waitpid_ok F fuel s k rest O me pid p x status :
  kst s.1 k → files_ok k s.2 rest O → kv_pids k !! kv_cur k = Some me →
  wait_error me pid 0 s.2 = None → zlookup (runningprocesses s.2) pid = Some p → processes s.2 !! p = Some x →
  p_finished x ≠ 0 → retired k s.2 x → kv_user k status = true →
  wp F (sys_waitpid fuel pid status 0) s
    (λ r s', r = (pid, 0) ∧ cpu_of s'.1 = cpu_of s.1 ∧ s'.2 = remove_process pid p x s.2 ∧
       ∃ k', kst s'.1 k' ∧ files_ok k' s'.2 rest O ∧
         same_but_files (removed_view x (add_store status (p_exitcode x) k)) k') noerr.
Proof.
  intros Hk Hfo Hme Hok Hrun Hx Hfin Hre Huser. unfold wait_error in Hok. unfold sys_waitpid, get_running.
  cbn [negb Z.eqb] in *. destruct ((pid <? 1) || (MAX_PROCESSES <=? pid)); [done|].
  rewrite Hrun in Hok. cbn in Hok. wp_the p by done. destruct (Z.eqb_spec p 0) as [|Hp0]; [done|].
  rewrite Hx in Hok. cbn in Hok. wp_steps. apply (wp_get_process _ _ _ x); [done|]. wp_steps. eapply p_curpid_ok; [done..|].
  destruct (p_parentpid x =? me); [|done]. cbn [negb]. wp_steps.
  eapply p_acquire_ok; [exact Hk|apply Hre|]. intros t1 Hc1 Hk1. wp_steps.
  eapply wait_finished_ok; [exact Hx|done|]. wp_steps. apply (wp_get_process _ _ _ x); [done|]. wp_steps.
  apply wp_on_k, wp_faults with safe; [|done].
  eapply wp_mono; [apply (store_word_k t1 _ status (p_exitcode x) Hk1); done| |done]. intros [] t2 [Hc2 Hk2]. wp_steps.
  eapply p_release_ok; [exact Hk2|cbn; by rewrite lookup_insert_eq|]. intros t3 Hc3 Hk3. wp_steps.
  set (k3 := add_store status (p_exitcode x) k).
  match type of Hk3 with kst _ ?v => assert (v = k3) as Heq; [|rewrite Heq in Hk3; clear Heq] end.
  { apply kview_ext; try reflexivity. cbn. rewrite insert_insert_eq, insert_id; [done|apply Hre]. }
  eapply wp_mono; [eapply (process_remove_ok _ (t3, s.2) k3 rest O pid p x Hk3); try done| |done].
  - by apply (files_ok_view k).
  - by destruct Hre.
  - intros _ s4 (Hc4 & Hy4 & k4 & Hk4 & Hs4 & Hfo4). wp_steps. cbn [fst snd] in *. split; [done|].
    split; [congruence|]. split; [done|]. eauto.
Qed.
End exit.
