(* ===== verification/ProcessFork.v ===== *)
(** * Fork

    [sys_fork] and [child_fork] (fork.c): the new process, its file table and the thread
    that runs it; and that a failed fork leaves the process table as it was. *)

From Stdlib Require Import ZArith Lia.
From stdpp Require Import base list gmap gmultiset numbers strings.
From S2P Require Import Prelude Cpu KMem HeapCpu Uio Kernel Process ProcessProof ProcessRw ProcessLife.

Local Open Scope Z_scope.

(** ** Blocks of trap frames and of others *)

Lemma files_ok_frame k k' y rest O nf tf sz :
  files_ok k y rest O → kv_mem k !! nf = None → kv_mem k' = <[nf := sz]> (kv_mem k) → kv_opens k' = kv_opens k →
  frames y !! nf = None → files_ok k' (set_frames (<[nf := tf]> (frames y)) y) rest O.
Proof.
  intros [Ho Hn [Hl Hf Hi]] Hnf Hm Hop Hfr. split; [|cbn; congruence|by split].
  unfold proc_blocks in *. cbn [set_frames fds processes frames]. rewrite map_to_list_insert, Hm by done.
  cbn [fmap list_fmap fst]. eapply owned_perm; [|apply owned_alloc; [exact Ho|done]]. solve_Permutation.
Qed.

Lemma files_ok_unframe k k' y rest O nf tf :
  files_ok k y rest O → frames y !! nf = Some tf → kv_mem k' = delete nf (kv_mem k) → kv_opens k' = kv_opens k →
  files_ok k' (set_frames (delete nf (frames y)) y) rest O.
Proof.
  intros [Ho Hn [Hl Hf Hi]] Hnf Hm Hop. split; [|cbn; congruence|by split].
  unfold proc_blocks in *. cbn [set_frames fds processes frames]. rewrite Hm.
  refine (proj2 (owned_free _ _ _ nf _)). eapply owned_perm; [|exact Ho].
  rewrite <- (map_to_list_delete _ _ _ Hnf). cbn [fmap list_fmap fst]. solve_Permutation.
Qed.

Lemma frame_live k y rest O nf tf :
  files_ok k y rest O → frames y !! nf = Some tf → is_Some (kv_mem k !! nf).
Proof.
  intros [Ho _ _] Hx. apply (owned_elem _ _ _ _ Ho). unfold proc_blocks.
  rewrite !elem_of_app. right. right. apply list_elem_of_fmap. exists (nf, tf). split; [done|].
  by apply elem_of_map_to_list.
Qed.

Lemma owned_rest_alloc m bs rest a sz :
  owned m bs rest → m !! a = None → owned (<[a := sz]> m) bs (<[a := sz]> rest).
Proof.
  intros [Hn Ha Hm Hr] Hma. assert (a ∉ bs) as Hab by (intros [? Hb]%Hm; congruence). split.
  - done.
  - intros b Hb. rewrite lookup_insert_ne by congruence. by apply Ha.
  - intros b Hb. rewrite lookup_insert_ne by congruence. by apply Hm.
  - intros b Hb. destruct (decide (b = a)) as [->|]; [by rewrite !lookup_insert_eq|].
    rewrite !lookup_insert_ne by done. by apply Hr.
Qed.

Lemma files_ok_rest k k' y rest O a sz :
  files_ok k y rest O → kv_mem k !! a = None → kv_mem k' = <[a := sz]> (kv_mem k) → kv_opens k' = kv_opens k →
  files_ok k' y (<[a := sz]> rest) O ∧ rest !! a = None.
Proof.
  intros [Ho Hn Ht] Ha Hm Hop. split; [split; [|congruence|done]|].
  - rewrite Hm. by apply owned_rest_alloc.
  - destruct Ho as [_ Hap Hmi Hr]. destruct (decide (a ∈ proc_blocks y)) as [Hb|Hb]; [by apply Hap|].
    by rewrite <- Hr.
Qed.

Lemma files_ok_unrest k k' y rest O a sz :
  files_ok k y (<[a := sz]> rest) O → rest !! a = None → kv_mem k' = delete a (kv_mem k) → kv_opens k' = kv_opens k →
  is_Some (kv_mem k !! a) ∧ files_ok k' y rest O.
Proof.
  intros [Ho Hn Ht] Ha Hm Hop.
  destruct (owned_rest_free _ _ _ a Ho) as [Hl Ho']; [rewrite lookup_insert_eq; by eexists|].
  rewrite delete_insert_id in Ho' by done. split; [done|]. split; [by rewrite Hm|congruence|done].
Qed.

(** ** The child's file table *)

(** The first [i] entries of the child's table [ctab] are copies of those of the parent's,
    [ptab]: a file of its own, of the same name and mode, at position 0. The others are
    free. *)
Record child_files (m : gmap Z fd) (ptab : list Z) (m' : gmap Z fd) (ctab : list Z) (i : Z) : Prop := {
  cf_none j : 0 ≤ j < i → zlookup ptab j = Some 0 → zlookup ctab j = Some 0;
  cf_copy j f d : 0 ≤ j < i → zlookup ptab j = Some f → f ≠ 0 → m !! f = Some d →
    ∃ f' d', zlookup ctab j = Some f' ∧ f' ≠ 0 ∧ m !! f' = None ∧ m' !! f' = Some d' ∧
      (fd_name d').2 = (fd_name d).2 ∧ flags d' = Z.land 3 (flags d) ∧ position d' = 0;
  cf_free j : i ≤ j < MAX_FILE_HANDLES → zlookup ctab j = Some 0;
}.

(** The state while the first [i] handles of the process [xp] have been copied to the
    process [xc] at [cp] *)
Record copying (y : procs) (xp : process) (cp : Z) (xc : process) (i : Z) (tbl : list Z) (y' : procs) : Prop := {
  co_state : y' = set_fds (fds y') (set_processes (<[cp := set_table tbl xc]> (processes y)) y);
  co_fds : fds y ⊆ fds y';
  co_child : child_files (fds y) (p_file_table xp) (fds y') tbl i;
  co_length : Z.of_nat (length tbl) = MAX_FILE_HANDLES;
}.

Lemma copying_skip y xp cp xc i tbl y' :
  copying y xp cp xc i tbl y' → 0 ≤ i < MAX_FILE_HANDLES → zlookup (p_file_table xp) i = Some 0 →
  copying y xp cp xc (i + 1) tbl y'.
Proof.
  intros [Hs Hf [Hn Hc Hfr] Hl] Hi H0. split; [done|done| |done]. split.
  - intros j Hj Hz. destruct (decide (j = i)) as [->|]; [apply Hfr; lia|apply Hn; [lia|done]].
  - intros j f d Hj Hz Hf0 Hd. destruct (decide (j = i)) as [->|]; [congruence|].
    apply (Hc j f d); [lia|done..].
  - intros j Hj. apply Hfr. lia.
Qed.

Lemma copying_step y xp cp xc i tbl y' f d f' nm v :
  copying y xp cp xc i tbl y' → 0 ≤ i < MAX_FILE_HANDLES →
  zlookup (p_file_table xp) i = Some f → f ≠ 0 → fds y !! f = Some d → fds y' !! f' = None → f' ≠ 0 →
  copying y xp cp xc (i + 1) (<[Z.to_nat i := f']> tbl)
    (opened cp i f' (MkFd (nm, (fd_name d).2) (Z.land 3 (flags d)) 0 v) (set_table tbl xc) y').
Proof.
  intros [Hs Hsub [Hn Hc Hfr] Hl] Hi Hf Hf0 Hd Hf' Hf'0.
  assert (∀ j, 0 ≤ j → j ≠ i → zlookup (<[Z.to_nat i := f']> tbl) j = zlookup tbl j) as Hne.
  { intros j Hj Hji. apply zlookup_insert_ne; lia. }
  assert (fds y !! f' = None) as Hnew by (by eapply lookup_weaken_None).
  split; [rewrite Hs; unfold opened, set_handle, set_fds, set_processes; cbn; by rewrite insert_insert_eq| | |
    by rewrite length_insert].
  - cbn. by apply insert_subseteq_r.
  - split; cbn [opened fds set_fds].
    + intros j Hj Hz. rewrite Hne by (try lia; congruence). apply Hn; [|done].
      assert (j ≠ i) by congruence. lia.
    + intros j g e Hj Hz Hg He. destruct (decide (j = i)) as [->|Hji].
      * exists f', (MkFd (nm, (fd_name d).2) (Z.land 3 (flags d)) 0 v). simplify_eq.
        rewrite zlookup_insert_eq by lia. by rewrite lookup_insert_eq.
      * destruct (Hc j g e) as (g' & e' & Hg1 & Hg2 & Hg3 & Hg4 & Hg5); [lia|done..|]. exists g', e'.
        rewrite Hne by lia. rewrite lookup_insert_ne by congruence. done.
    + intros j Hj. rewrite Hne by lia. apply Hfr. lia.
Qed.

(** The names of the open files are shorter than a block of the heap can be. *)
Definition names_ok (y : procs) : Prop :=
  ∀ f d, fds y !! f = Some d → Z.of_nat (String.length (fd_name d).2) < 2 ^ 31 - 1.

(** ** Giving up *)

(** The new process is gone; files it had open for standard input and output stay open. *)
Definition undone (y y' : procs) : Prop := ∃ m, fds y ⊆ m ∧ y' = set_fds m y.
(** Nothing but the heap, the open files and the idle locks is different. *)
Definition same_but_idle (k k' : kview) : Prop := ∃ m o i, k' = with_opens o (with_mem m (with_locks (kv_locks k) i k)).

(** The state with the new process [x] at [np] and the saved trap frame *)
Record forking (y : procs) (pid np : Z) (x : process) (nf : Z) (tf : trapframe) (y' : procs) : Prop := {
  fk_state : y' = set_fds (fds y') (set_frames (<[nf := tf]> (frames y)) (add_process pid np x y));
  fk_fds : fds y ⊆ fds y';
  fk_own f : f ∈ p_file_table x → f = 0 ∨ fds y !! f = None;
}.

Lemma child_own y pp xp cp xc i tbl y' f :
  tables_ok y → processes y !! pp = Some xp → copying y xp cp xc i tbl y' →
  f ∈ tbl → f = 0 ∨ fds y !! f = None.
Proof.
  intros Ht Hxp [_ _ [Hn Hc Hfr] Hl] [j Hf]%list_elem_of_lookup. rewrite <- zlookup_nat in Hf.
  pose proof (zlookup_lt_Some _ _ _ Hf) as Hj. pose proof (to_length _ Ht _ _ Hxp) as Hlp.
  destruct (Z.le_gt_cases i (Z.of_nat j)) as [Hij|Hij]; [left; rewrite Hfr in Hf by lia; congruence|].
  destruct (zlookup_lt_is_Some (p_file_table xp) (Z.of_nat j)) as [g Hg]; [lia|].
  destruct (decide (g = 0)) as [->|Hg0]; [left; rewrite Hn in Hf by (done || lia); congruence|].
  destruct (to_fd _ Ht _ _ _ _ Hxp Hg Hg0) as [d Hd].
  destruct (Hc (Z.of_nat j) g d) as (f' & d' & Hf' & _ & Hnew & _); [lia|done..|]. right. congruence.
Qed.

Lemma closed_table_elem n l f : f ∈ closed_table n l → f = 0 ∨ f ∈ l.
Proof.
  unfold closed_table. rewrite !elem_of_app. intros [Hf|[Hf|Hf]].
  - right. apply list_elem_of_lookup in Hf as [j Hj]. apply lookup_take_Some in Hj as [Hj _]. by eapply list_elem_of_lookup_2.
  - left. by apply elem_of_replicate in Hf as [? _].
  - right. apply list_elem_of_lookup in Hf as [j Hj]. rewrite lookup_drop in Hj. by eapply list_elem_of_lookup_2.
Qed.

Lemma closed_fds_keep n l (m m' : gmap Z fd) :
  m ⊆ m' → m !! 0 = None → (∀ f, f ∈ l → f = 0 ∨ m !! f = None) → m ⊆ closed_fds n l m'.
Proof.
  intros Hsub H0 Hown. apply map_subseteq_spec. intros f d Hf. apply map_lookup_filter_Some.
  split; [by eapply lookup_weaken|]. intros Hin.
  apply list_elem_of_lookup in Hin as [j Hj]. apply lookup_take_Some in Hj as [Hj _]. rewrite lookup_drop in Hj.
  destruct (Hown f) as [->|]; [by eapply list_elem_of_lookup_2|congruence..].
Qed.

Lemma forking_closed y pid np x nf tf y' :
  forking y pid np x nf tf y' → fds y !! 0 = None →
  forking y pid np (set_table (closed_table (Z.to_nat (MAX_FILE_HANDLES - FIRST_FILE_HANDLE)) (p_file_table x)) x)
    nf tf (all_closed np x y').
Proof.
  intros [Hs Hf Ho] H0. split.
  - rewrite Hs. unfold all_closed, closed_upto, set_fds, set_frames, add_process, set_running, set_processes. cbn.
    by rewrite insert_insert_eq.
  - cbn. by apply closed_fds_keep.
  - cbn [p_file_table set_table]. intros f [->|Hin]%closed_table_elem; [by left|by apply Ho].
Qed.

Lemma forking_removed y pid np x nf tf y' :
  forking y pid np x nf tf y' → fds y !! 0 = None → 0 ≤ pid → zlookup (runningprocesses y) pid = Some 0 →
  processes y !! np = None → frames y !! nf = None →
  undone y (remove_process pid np x (set_frames (delete nf (frames y')) y')).
Proof.
  intros [Hs Hf Ho] H0 Hpid Hrun Hnp Hnf. exists (closed_fds (Z.to_nat (MAX_FILE_HANDLES - FIRST_FILE_HANDLE)) (p_file_table x) (fds y')).
  split; [by apply closed_fds_keep|]. set (m := fds y') in *. clearbody m. subst y'.
  unfold remove_process, all_closed, closed_upto, set_fds, set_frames, add_process, set_running, set_processes. cbn.
  rewrite list_insert_insert_eq, list_insert_id by (unfold zlookup in Hrun; by destruct (Z.leb_spec 0 pid)).
  by rewrite !delete_insert_id by done.
Qed.

(** The view from the creation of the process on *)
Definition fork_view (np c l t : Z) (k k' : kview) : Prop := same_but_files (created_view np c l t k) k'.

Lemma fork_view_removed np c l t k k1 k2 x :
  fork_view np c l t k k1 → same_but_files (removed_view x k1) k2 →
  p_exitcv x = c → p_exitlock x = l → p_file_table_lock x = t →
  c ∉ kv_cvs k → kv_locks k !! l = None → kv_locks k !! t = None → l ≠ t → same_but_idle k k2.
Proof.
  intros (m1 & o1 & ->)%same_but_files_ex (m2 & o2 & ->)%same_but_files_ex Hc Hl Ht Hcn Hln Htn Hlt.
  exists m2, o2. eexists. apply kview_ext; try reflexivity; cbn; rewrite ?Hc, ?Hl, ?Ht.
  - rewrite delete_insert_ne, delete_insert_eq, delete_insert_eq by done.
    rewrite (delete_id (kv_locks k) l) by done. by rewrite delete_id.
  - set_solver.
Qed.

Lemma fork_view_retired np c l t k k1 y x :
  fork_view np c l t k k1 → p_exitcv x = c → p_exitlock x = l → p_file_table_lock x = t →
  kv_locks k !! process_lock y = Some 0 → kv_locks k !! l = None → kv_locks k !! t = None → l ≠ t →
  retired k1 y x.
Proof.
  intros (m1 & o1 & ->)%same_but_files_ex Hc Hl Ht Hpl Hln Htn Hlt.
  assert (process_lock y ≠ l ∧ process_lock y ≠ t) as [Hpl1 Hpl2] by (split; congruence).
  split; cbn; rewrite ?Hc, ?Hl, ?Ht.
  - by rewrite !lookup_insert_ne.
  - by rewrite lookup_insert_ne, lookup_insert_eq.
  - by rewrite lookup_insert_eq.
  - set_solver.
  - set_solver.
  - apply NoDup_cons. split; [set_solver|]. apply NoDup_cons. split; [set_solver|]. apply NoDup_singleton.
Qed.

(** What a successful fork leaves behind: the process in the table, with the copies of
    the parent's files, and a thread for it that starts in [child_fork] with the new
    address space and the saved trap frame. *)
Definition forked (k : kview) (y : procs) (me : Z) (xp junk : process) (child_fork : Z) (tf : trapframe)
    (pid : Z) (rest : gmap Z Z) (O : gmultiset Z) (k' : kview) (y' : procs) : Prop :=
  ∃ np nf na sz thr ctab c l t,
    y' = set_fds (fds y') (set_frames (<[nf := tf]> (frames y))
           (add_process pid np (set_thread thr (set_table ctab (fresh_process junk pid me c l t))) y)) ∧
    processes y !! np = None ∧ frames y !! nf = None ∧ rest !! na = None ∧
    fds y ⊆ fds y' ∧ child_files (fds y) (p_file_table xp) (fds y') ctab MAX_FILE_HANDLES ∧
    kv_cur k' = kv_cur k ∧ kv_locks k' = <[t := 0]> (<[l := 0]> (kv_locks k)) ∧
    kv_pids k !! thr = None ∧ kv_pids k' = <[thr := pid]> (kv_pids k) ∧
    kv_starts k' = <[thr := (na, nf, child_fork)]> (kv_starts k) ∧
    files_ok k' y' (<[na := sz]> rest) O.

Lemma fork_view_release np c l t k kc k2 pl :
  fork_view np c l t k kc → same_but_files (set_lock pl (kv_cur kc) kc) k2 → kv_locks kc !! pl = Some 0 →
  fork_view np c l t k (set_lock pl 0 k2).
Proof.
  intros (m & o & ->)%same_but_files_ex (m2 & o2 & ->)%same_but_files_ex Hpl. apply same_but_files_ex.
  exists m2, o2. apply kview_ext; try reflexivity. cbn in *. by rewrite insert_insert_eq, insert_id.
Qed.

Lemma copying_start y xp np x :
  processes y !! np = Some x → p_file_table x = replicate (Z.to_nat MAX_FILE_HANDLES) 0 →
  copying y xp np x 0 (replicate (Z.to_nat MAX_FILE_HANDLES) 0) y.
Proof.
  intros Hx Ht. split; [|done| |by rewrite length_replicate].
  - rewrite <- Ht. replace (set_table (p_file_table x) x) with x by (by destruct x). rewrite insert_id by done.
    by destruct y.
  - split; [lia|lia|]. intros j Hj. unfold zlookup. destruct (Z.leb_spec 0 j); [|lia]. apply lookup_replicate_2.
    unfold MAX_FILE_HANDLES in *. lia.
Qed.

Lemma copying_forking y1 y pid np x nf tf xp pp j tbl y2 :
  y1 = set_frames (<[nf := tf]> (frames y)) (add_process pid np x y) →
  tables_ok y1 → processes y1 !! pp = Some xp → copying y1 xp np x j tbl y2 →
  forking y pid np (set_table tbl x) nf tf y2.
Proof.
  intros Hy1 Ht Hxp Hco. split.
  - rewrite (co_state _ _ _ _ _ _ _ Hco) at 1. rewrite Hy1.
    unfold set_fds, set_frames, add_process, set_running, set_processes. cbn. by rewrite insert_insert_eq.
  - pose proof (co_fds _ _ _ _ _ _ _ Hco) as Hsub. by rewrite Hy1 in Hsub.
  - intros f Hf. destruct (child_own _ _ _ _ _ _ _ _ _ Ht Hxp Hco Hf) as [?|Hn]; [by left|right].
    by rewrite Hy1 in Hn.
Qed.

Section fork.
Context {S : Type} `{!KernelOps S} `{!Kernel S}.
Implicit Types (s : PS S) (k : kview) (x : process) (y : procs).

Lemma copy_files_ok `{HM : !MemoryLasts S} y pp xp cp xc fuel rest O :
  tables_ok y → names_ok y → processes y !! pp = Some xp → pp ≠ cp → ∀ s k i tbl,
  kst s.1 k → files_ok k s.2 rest O → copying y xp cp xc i tbl s.2 →
  0 ≤ i → i + Z.of_nat fuel = MAX_FILE_HANDLES →
  wp safe_oom (copy_files fuel pp cp i) s
    (λ err s', cpu_of s'.1 = cpu_of s.1 ∧
       (∃ k', kst s'.1 k' ∧ same_but_files k k' ∧ files_ok k' s'.2 rest O) ∧
       ∃ j tbl', copying y xp cp xc j tbl' s'.2 ∧ (err = 0 → j = MAX_FILE_HANDLES)) noerr.
Proof.
  intros Ht Hnames Hxp Hne. pose proof (to_length _ Ht _ _ Hxp) as Hlen.
  induction fuel as [|fuel IH]; intros s k i tbl Hk Hfo Hco Hi Hfuel; cbn [copy_files].
  { wp_steps. split; [done|]. split; [exists k; split_and!; [done|by destruct k|done]|].
    exists i, tbl. split; [done|]. lia. }
  assert (0 ≤ i < MAX_FILE_HANDLES) as Hir by lia.
  assert (processes s.2 !! pp = Some xp) as Hxp' by (rewrite (co_state _ _ _ _ _ _ _ Hco); cbn; by rewrite lookup_insert_ne).
  destruct (zlookup_lt_is_Some (p_file_table xp) i) as [f Hf]; [lia|].
  wp_steps. eapply wp_get_entry; [done..|]. destruct (Z.eqb_spec f 0) as [->|Hf0].
  { apply (IH s k (i + 1) tbl); [done|done|by apply copying_skip|lia|lia]. }
  destruct (to_fd _ Ht _ _ _ _ Hxp Hf Hf0) as [d Hd].
  wp_steps. apply (wp_get_fd _ _ _ d); [by eapply lookup_weaken, (co_fds _ _ _ _ _ _ _ Hco)|]. wp_steps.
  assert (processes s.2 !! cp = Some (set_table tbl xc)) as Hxc by (rewrite (co_state _ _ _ _ _ _ _ Hco); cbn; by rewrite lookup_insert_eq).
  eapply wp_mono; [apply (_open_ok s k rest O cp (set_table tbl xc) i (fd_name d).2 (flags d) Hk Hfo Hxc Hir)| |done].
  { apply (cf_free _ _ _ _ _ (co_child _ _ _ _ _ _ _ Hco)). lia. }
  { by eapply Hnames. }
  intros err s1 [Hc1 [(Herr & Hy1 & Hk1)|(-> & f' & nm & v & k1 & Hy1 & Hf'0 & Hff & Hk1 & Hs1 & Hfo1)]].
  - destruct (Z.eqb_spec err 0); [done|]. cbn [negb]. wp_steps. split; [done|].
    split; [exists k; rewrite Hy1; split_and!; [done|by destruct k|done]|]. exists i, tbl. rewrite Hy1. done.
  - cbn [negb Z.eqb]. eapply wp_mono; [eapply (IH s1 k1 (i + 1) (<[Z.to_nat i := f']> tbl) Hk1 Hfo1)| |done].
    + rewrite Hy1. by eapply copying_step.
    + lia.
    + lia.
    + intros err s2 (Hc2 & (k2 & Hk2 & Hs2 & Hfo2) & Hrest). split; [congruence|]. split; [|done].
      eauto using same_but_files_trans.
Qed.

Lemma free_frame_ok F s k rest O nf tf (Q : () → PS S → Prop) E :
  kst s.1 k → files_ok k s.2 rest O → frames s.2 !! nf = Some tf →
  (∀ t, let k' := with_mem (delete nf (kv_mem k)) k in let y' := set_frames (delete nf (frames s.2)) s.2 in
     cpu_of t = cpu_of s.1 → kst t k' → files_ok k' y' rest O → Q tt (t, y')) →
  wp F (free_frame nf) s Q E.
Proof.
  intros Hk Hfo Hf HQ. unfold free_frame, upd_procs. wp_steps.
  eapply p_kfree_ok; [exact Hk|by eapply frame_live|]. intros t Hc Hk'. wp_steps. apply HQ; [done|done|].
  by eapply files_ok_unframe.
Qed.

Lemma fork_fail_ok F s k y rest O pid np x nf tf na sz err :
  kst s.1 k → files_ok k s.2 (<[na := sz]> rest) O → rest !! na = None →
  forking y pid np x nf tf s.2 → retired k s.2 x → fds y !! 0 = None → np ≠ 0 →
  zlookup (runningprocesses y) pid = Some 0 → processes y !! np = None → frames y !! nf = None →
  wp F (fork_fail nf na pid err) s
    (λ r s', r = (-1, err) ∧ cpu_of s'.1 = cpu_of s.1 ∧ undone y s'.2 ∧
       ∃ k', kst s'.1 k' ∧ files_ok k' s'.2 rest O ∧ same_but_files (removed_view x k) k') noerr.
Proof.
  intros Hk Hfo Hna Hfk Hre H0 Hnp Hrun Hp Hf. pose proof (fk_state _ _ _ _ _ _ _ Hfk) as Hs.
  unfold fork_fail. wp_steps. eapply free_frame_ok; [exact Hk|exact Hfo|rewrite Hs; cbn; by rewrite lookup_insert_eq|].
  intros t1 k1 y1 Hc1 Hk1 Hfo1. subst k1 y1.
  edestruct (files_ok_unrest _ (with_mem (delete na (delete nf (kv_mem k))) k) _ _ _ _ _ Hfo1 Hna) as [Hl Hfo2]; [done..|].
  wp_steps. eapply p_kfree_ok; [exact Hk1|exact Hl|]. intros t2 Hc2 Hk2. cbn [fst snd kv_mem with_mem] in *.
  rewrite with_mem_twice in Hk2. wp_steps. pose proof (zlookup_lt_Some _ _ _ Hrun).
  eapply wp_mono; [eapply (process_remove_ok _ (t2, _) _ rest O pid np x Hk2 Hfo2); [|done| |]| |done].
  - rewrite Hs. cbn. by rewrite zlookup_insert_eq.
  - rewrite Hs. cbn. by rewrite lookup_insert_eq.
  - by destruct Hre.
  - intros _ s3 (Hc3 & Hy3 & k3 & Hk3 & Hs3 & Hfo3). wp_steps. cbn [fst snd] in *. split; [done|].
    split; [congruence|]. split; [rewrite Hy3; eapply forking_removed; try done; lia|]. exists k3. split; [done|]. split; [done|].
    apply same_but_files_ex in Hs3 as (m & o & ->). apply same_but_files_ex. by exists m, o.
Qed.

Lemma fork_process_ok `{HM : !MemoryLasts S} s k kc y rest O junk pid me pp xp np c l t nf tf na sz child :
  kst s.1 kc → fork_view np c l t k kc → files_ok kc s.2 (<[na := sz]> rest) O → rest !! na = None →
  s.2 = set_frames (<[nf := tf]> (frames y)) (add_process pid np (fresh_process junk pid me c l t) y) →
  names_ok y → fds y !! 0 = None →
  kv_pids k !! kv_cur k = Some me → zlookup (runningprocesses y) me = Some pp → processes y !! pp = Some xp → pp ≠ 0 →
  kv_locks k !! process_lock y = Some 0 → c ∉ kv_cvs k → kv_locks k !! l = None → kv_locks k !! t = None → l ≠ t →
  np ≠ 0 → zlookup (runningprocesses y) pid = Some 0 → processes y !! np = None → frames y !! nf = None →
  wp safe_oom (fork_process nf na child np) s
    (λ r s', cpu_of s'.1 = cpu_of s.1 ∧
       (r.1 = -1 ∧ r.2 ≠ 0 ∧ undone y s'.2 ∧ (∃ k', kst s'.1 k' ∧ files_ok k' s'.2 rest O ∧ same_but_idle k k') ∨
        r = (pid, 0) ∧ ∃ k', kst s'.1 k' ∧ forked k y me xp junk child tf pid rest O k' s'.2)) noerr.
Proof.
  intros Hk Hv Hfo Hna Hy Hnames H0 Hme Hrun Hxp Hpp Hpl Hcn Hln Htn Hlt Hnp Hpid Hp Hf.
  set (x := fresh_process junk pid me c l t) in *.
  pose proof (zlookup_lt_Some _ _ _ Hpid) as Hpidr. pose proof (zlookup_lt_Some _ _ _ Hrun) as Hmer.
  assert (process_lock y ≠ l ∧ process_lock y ≠ t) as [Hpl1 Hpl2] by (split; congruence).
  assert (pid ≠ me) as Hpm by congruence. assert (np ≠ pp) as Hnpp by congruence.
  assert (processes s.2 !! np = Some x) as Hx by (rewrite Hy; cbn; by rewrite lookup_insert_eq).
  pose proof Hv as Hv'. apply same_but_files_ex in Hv' as (m & o & Hkc).
  unfold fork_process, get_process_lock, get_running. wp_steps. apply (wp_get_process _ _ _ x); [done|]. wp_steps.
  assert (process_lock s.2 = process_lock y) as -> by (by rewrite Hy).
  assert (kv_locks kc !! process_lock y = Some 0) as Hplc.
  { rewrite Hkc. cbn. by rewrite !lookup_insert_ne. }
  eapply p_acquire_ok; [exact Hk|exact Hplc|]. intros t1 Hc1 Hk1. wp_steps.
  eapply p_curpid_ok; [exact Hk1|rewrite Hkc; done|]. wp_the pp by (rewrite Hy; cbn; by rewrite zlookup_insert_ne by lia).
  wp_steps.
  assert (processes s.2 !! pp = Some xp) as Hxp' by (rewrite Hy; cbn; by rewrite lookup_insert_ne).
  assert (tables_ok s.2) as Ht by apply Hfo.
  assert (∀ s2 k2 x2 err, kst s2.1 k2 → fork_view np c l t k k2 → files_ok k2 s2.2 (<[na := sz]> rest) O →
    forking y pid np x2 nf tf s2.2 → p_exitcv x2 = c → p_exitlock x2 = l → p_file_table_lock x2 = t →
    err ≠ 0 → cpu_of s2.1 = cpu_of s.1 →
    wp safe_oom (fork_fail nf na pid err) s2 (λ r s', cpu_of s'.1 = cpu_of s.1 ∧
       (r.1 = -1 ∧ r.2 ≠ 0 ∧ undone y s'.2 ∧ (∃ k', kst s'.1 k' ∧ files_ok k' s'.2 rest O ∧ same_but_idle k k') ∨
        r = (pid, 0) ∧ ∃ k', kst s'.1 k' ∧ forked k y me xp junk child tf pid rest O k' s'.2)) noerr) as Hfail.
  { intros s2 k2 x2 err Hk2 Hv2 Hfo2 Hfk2 Ec El Et Herr Hc2.
    eapply wp_mono; [eapply (fork_fail_ok _ s2 k2 y rest O pid np x2 nf tf na sz err Hk2 Hfo2 Hna Hfk2)| |done]; try done.
    - eapply fork_view_retired; try done. by rewrite (fk_state _ _ _ _ _ _ _ Hfk2).
    - intros r s3 (-> & Hc3 & Hu & k3 & Hk3 & Hfo3 & Hs3). split; [congruence|]. left. split; [done|]. split; [done|].
      split; [done|]. exists k3. split; [done|]. split; [done|]. by eapply (fork_view_removed np c l t). }
  eapply wp_mono; [eapply (copy_files_ok s.2 pp xp np x _ _ _ Ht) with (s := (t1, s.2)) (i := 0); [|done|done|exact Hk1|by eapply files_ok_view|by apply copying_start|done|done]| |done].
  { rewrite Hy. done. }
  intros err s2 (Hc2 & (k2 & Hk2 & Hs2 & Hfo2) & j & tbl & Hco & Hj). cbn [fst snd] in *.
  assert (kv_locks k2 !! process_lock y = Some (kv_cur k2)) as Hheld.
  { apply same_but_files_ex in Hs2 as (m2 & o2 & ->). cbn. by rewrite lookup_insert_eq. }
  assert (forking y pid np (set_table tbl x) nf tf s2.2) as Hfk by (by eapply copying_forking).
  destruct (Z.eqb_spec err 0) as [->|Herr]; cbn [negb].
  - wp_steps. eapply p_release_ok; [exact Hk2|exact Hheld|]. intros t3 Hc3 Hk3. wp_steps.
    pose proof (fork_view_release _ _ _ _ _ _ _ _ Hv Hs2 Hplc) as Hv3.
    assert (files_ok (set_lock (process_lock y) 0 k2) s2.2 (<[na := sz]> rest) O) as Hfo3 by (by eapply files_ok_view).
    set (k3 := set_lock (process_lock y) 0 k2) in *. clearbody k3.
    apply wp_on_k. apply same_but_files_ex in Hv3 as Hv4. destruct Hv4 as (m3 & o3 & Hk3').
    eapply wp_mono; [apply (thread_fork_k t3 k3 me _ na nf child Hk3); by rewrite Hk3'| |].
    + intros thr t4 (Hth0 & Hthn & Hc4 & Hk4). wp_steps. apply wp_on_k, wp_faults with safe; [|done].
      eapply wp_mono; [apply (set_t_pid_k t4 _ thr pid Hk4); cbn; rewrite lookup_insert_eq; by eexists| |done].
      intros [] t5 [Hc5 Hk5]. wp_steps. eapply wp_upd_process; [rewrite (co_state _ _ _ _ _ _ _ Hco); cbn; by rewrite lookup_insert_eq|].
      wp_steps. cbn [fst snd] in *. split; [congruence|]. right. split; [done|]. eexists. split; [exact Hk5|].
      exists np, nf, na, sz, thr, tbl, c, l, t. pose proof (fk_state _ _ _ _ _ _ _ Hfk) as Hs. rewrite (Hj eq_refl) in Hco.
      assert (kv_pids k3 = kv_pids k ∧ kv_starts k3 = kv_starts k ∧ kv_cur k3 = kv_cur k ∧
        kv_locks k3 = <[t := 0]> (<[l := 0]> (kv_locks k))) as (Hp3 & Hs3 & Hcu3 & Hl3) by (by rewrite Hk3').
      split_and!; try done.
      * clear -Hs. set (mm := fds s2.2) in *. clearbody mm. rewrite Hs.
        unfold set_processes, set_fds, set_frames, add_process, set_running. cbn. by rewrite insert_insert_eq.
      * apply Hfk.
      * pose proof (co_child _ _ _ _ _ _ _ Hco) as Hch. by rewrite Hy in Hch.
      * congruence.
      * cbn. by rewrite Hp3, insert_insert_eq.
      * cbn. by rewrite Hs3.
      * eapply (files_ok_same_table _ s2.2); [by eapply files_ok_view|rewrite Hs; cbn; by rewrite lookup_insert_eq|done].
    + intros err t4 (Herr & Hc4 & Hk4). eapply (Hfail (t4, s2.2) k3 (set_table tbl x)); try done. cbn [fst snd] in *. congruence.
  - assert (processes s2.2 !! np = Some (set_table tbl x)) as Hx2.
    { rewrite (fk_state _ _ _ _ _ _ _ Hfk). cbn. by rewrite lookup_insert_eq. }
    wp_steps. eapply wp_mono; [eapply close_all_ok; [exact Hk2|exact Hfo2|exact Hx2]| |done].
    intros _ s3 (Hc3 & Hy3 & k3 & Hk3 & Hs3 & Hfo3). wp_steps.
    pose proof (same_but_files_trans _ _ _ Hs2 Hs3) as Hs23.
    eapply p_release_ok; [exact Hk3| |].
    { apply same_but_files_ex in Hs23 as (m2 & o2 & ->). cbn. by rewrite lookup_insert_eq. }
    intros t4 Hc4 Hk4. cbn [fst snd] in *.
    eapply (Hfail (t4, s3.2) _ _ err Hk4); try done.
    + by eapply fork_view_release.
    + by eapply files_ok_view.
    + cbn [snd]. rewrite Hy3. by apply forking_closed.
    + done.
    + done.
    + done.
    + cbn [fst]. congruence.
Qed.

Lemma sys_fork_ok `{HM : !MemoryLasts S} s k rest O junk me pp xp tf child :
  kst s.1 k → files_ok k s.2 rest O → names_ok s.2 → Z.of_nat (length (runningprocesses s.2)) = MAX_PROCESSES →
  kv_pids k !! kv_cur k = Some me → zlookup (runningprocesses s.2) me = Some pp → processes s.2 !! pp = Some xp →
  kv_locks k !! process_lock s.2 = Some 0 → process_lock s.2 ≠ 0 →
  wp safe_oom (sys_fork junk child tf) s
    (λ r s', cpu_of s'.1 = cpu_of s.1 ∧
       (r.1 = -1 ∧ r.2 ≠ 0 ∧ undone s.2 s'.2 ∧ (∃ k', kst s'.1 k' ∧ files_ok k' s'.2 rest O ∧ same_but_idle k k') ∨
        r.2 = 0 ∧ lowest_free (runningprocesses s.2) 1 r.1 ∧ r.1 < MAX_PROCESSES ∧
          ∃ k', kst s'.1 k' ∧ forked k s.2 me xp junk child tf r.1 rest O k' s'.2)) noerr.
Proof.
  intros Hk Hfo Hnames Hlen Hme Hrun Hxp Hpl Hpl0.
  pose proof (fds_nonnull _ _ _ _ _ Hk Hfo) as H0.
  assert (pp ≠ 0) as Hpp.
  { intros ->. destruct (process_live _ _ _ _ _ _ Hfo Hxp). pose proof (kst_null _ _ Hk). congruence. }
  assert (∀ i, same_but_idle k (with_mem i k)) as Hidle.
  { intros i. exists i, (kv_opens k), (kv_idle k). by apply kview_ext. }
  assert (undone s.2 s.2) as Hundone by (exists (fds s.2); split; [done|by destruct (s.2)]).
  unfold sys_fork. wp_steps. apply (p_kmalloc_ok s k); [done..|]. intros nf t1 Hnf0 Hnf Hc1 Hk1.
  destruct (Z.eqb_spec nf 0); [done|].
  assert (frames s.2 !! nf = None) as Hfr.
  { destruct (frames s.2 !! nf) eqn:Hd; [|done]. destruct (frame_live _ _ _ _ _ _ Hfo Hd). congruence. }
  apply (wp_unbind_2 _ get_curthread). apply wp_bind. eapply p_vmspace_ok; [exact Hk1|by eexists|]. wp_steps.
  apply wp_on_k. eapply wp_mono; [apply (as_copy_k t1 _ (kv_space k) Hk1)| |done].
  intros [e na] t2 [Hc2 [[He Hk2]|(-> & Hna0 & Hnam & sz & Hk2)]]; cbn [fst snd] in *.
  { destruct (Z.eqb_spec e 0); [done|]. cbn [negb]. wp_steps.
    eapply p_kfree_ok; [exact Hk2|cbn; rewrite lookup_insert_eq; by eexists|]. intros t3 Hc3 Hk3. wp_steps.
    rewrite with_mem_twice in Hk3. cbn [kv_mem with_mem] in Hk3. rewrite delete_insert_id, with_mem_same in Hk3 by done.
    cbn [fst snd] in *. split; [congruence|]. left. split; [done|]. split; [done|]. split; [done|].
    exists k. split; [done|]. split; [done|]. rewrite <- (with_mem_same k) at 2. apply Hidle. }
  cbn [negb Z.eqb kv_mem with_mem] in *. rewrite with_mem_twice in Hk2. unfold upd_procs. wp_steps.
  set (y2 := set_frames (<[nf := tf]> (frames s.2)) s.2).
  set (k2 := with_mem (<[na := sz]> (<[nf := sizeof_trapframe]> (kv_mem k))) k) in *.
  assert (files_ok k2 y2 (<[na := sz]> rest) O ∧ rest !! na = None) as [Hfo2 Hna].
  { eapply (files_ok_rest (with_mem (<[nf := sizeof_trapframe]> (kv_mem k)) k)); [|done..].
    by eapply files_ok_frame. }
  eapply wp_mono; [apply (process_create_ok (t2, y2) k2 (<[na := sz]> rest) O junk me Hk2 Hfo2); done| |done].
  intros [ec np] s3 [Hc3 [(Hnone & He & Hy3 & Hk3)|(He & Hnp0 & Hnp & pid & c & l & t & Hlow & Hpid & Hy3 & Hcn & Hln & Htn & Hlt & Hk3 & Hfo3)]]; cbn [fst snd] in *.
  - subst ec. change (negb (EAGAIN =? 0)) with true. cbv iota. wp_steps. eapply free_frame_ok; [exact Hk3|by rewrite Hy3|rewrite Hy3; cbn; by rewrite lookup_insert_eq|].
    intros t4 k4 y4 Hc4 Hk4 Hfo4. subst k4 y4.
    edestruct (files_ok_unrest _ (with_mem (delete na (delete nf (kv_mem k2))) k2) _ _ _ _ _ Hfo4 Hna) as [Hl Hfo5]; [done..|].
    wp_steps. eapply p_kfree_ok; [exact Hk4|exact Hl|]. intros t5 Hc5 Hk5. wp_steps. cbn [fst snd kv_mem with_mem] in *.
    assert (set_frames (delete nf (frames s3.2)) s3.2 = s.2) as Hback.
    { rewrite Hy3. unfold set_frames. cbn. rewrite delete_insert_id by done. by destruct (s.2). }
    rewrite Hback in *. split; [congruence|]. left. split; [done|]. split; [done|]. split; [done|].
    eexists. split; [exact Hk5|]. split; [done|]. apply Hidle.
  - subst ec. cbn [negb Z.eqb].
    eapply wp_mono; [eapply (fork_process_ok s3 k2 _ s.2 rest O junk pid me pp xp np c l t nf tf na sz child Hk3)| |done]; try done.
    + by destruct Hlow as (_ & ? & _).
    + intros r s4 [Hc4 Hr]. split; [congruence|]. destruct Hr as [(Hr1 & Hr2 & Hu & k4 & Hk4 & Hfo4 & Hi4)|(-> & k4 & Hk4 & Hfk4)].
      * left. split; [done|]. split; [done|]. split; [done|]. exists k4. split; [done|]. split; [done|].
        destruct Hi4 as (m & o & i & ->). exists m, o, i. done.
      * right. split; [done|]. split; [done|]. split; [done|]. exists k4. done.
Qed.

(** ** The child *)

Lemma child_fork_ok F s k rest O asPtr tfPtr tf :
  kst s.1 k → files_ok k s.2 rest O → frames s.2 !! tfPtr = Some tf →
  wp F (child_fork asPtr tfPtr) s
    (λ tf' s', cpu_of s'.1 = cpu_of s.1 ∧
       tf' = MkTf (tf_vaddr tf) (tf_status tf) (tf_cause tf) 0 (tf_a0 tf) (tf_a1 tf) (tf_a2 tf) 0 (tf_sp tf)
               (u32 (tf_epc tf + 4)) (tf_others tf) ∧
       s'.2 = set_frames (delete tfPtr (frames s.2)) s.2 ∧
       ∃ v, let k' := with_mem (delete tfPtr (kv_mem k)) (with_space asPtr v k) in
         kst s'.1 k' ∧ files_ok k' s'.2 rest O) noerr.
Proof.
  intros Hk Hfo Hf. unfold child_fork, get_curthread. wp_the tf by done. wp_steps.
  change (cpu_of s) with (cpu_of s.1). destruct (kst_cur s.1 k Hk) as [_ ->].
  apply wp_on_k, wp_faults with safe; [|done].
  eapply wp_mono; [apply (set_t_vmspace_k s.1 k asPtr Hk)| |done]. intros [] t1 (Hc1 & v & Hk1). wp_steps.
  apply wp_on_k, wp_faults with safe; [|done].
  eapply wp_mono; [apply (as_activate_k t1 _ asPtr Hk1)| |done]. intros [] t2 (Hc2 & Hk2). wp_steps.
  eapply free_frame_ok; [exact Hk2|by eapply files_ok_view|exact Hf|]. intros t3 k3 y3 Hc3 Hk3 Hfo3. subst k3 y3.
  wp_steps. cbn [fst snd] in *. split; [congruence|]. split; [done|]. split; [done|]. exists v. done.
Qed.
End fork.
