(* ===== verification/SimpleKernel.v ===== *)
(** * A simple kernel

    An implementation of the interface of Kernel.v whose state is the view itself, with a
    counter for fresh addresses: it shows that the contract can be met, and examples run
    on it. Every path but the empty one can be opened; reading and writing transfer
    everything. *)

From Stdlib Require Import ZArith Lia.
From stdpp Require Import base list gmap gmultiset numbers strings.
From S2P Require Import Prelude Cpu KMem Uio Kernel.

Local Open Scope Z_scope.

Module SimpleKernel.
Record t := Mk { sk_cpu : cpu; sk_view : kview; sk_next : Z }.

#[global] Instance has_cpu : HasCpu t.
Proof.
  refine {| cpu_of := sk_cpu; set_cpu c s := Mk c (sk_view s) (sk_next s) |}; intros; by try destruct s.
Defined.

Definition upd (f : kview → kview) : M t () := modify (λ s, Mk (sk_cpu s) (f (sk_view s)) (sk_next s)).
(** A fresh address *)
Definition fresh : M t Z :=
  s ← get;
  modify (λ s, Mk (sk_cpu s) (sk_view s) (sk_next s + 1));;
  mret (sk_next s).
Definition view : M t kview := s ← get; mret (sk_view s).

Definition malloc (sz : Z) : M t Z :=
  p ← fresh;
  upd (λ k, with_mem (<[p := sz]> (kv_mem k)) k);;
  mret p.
Definition free (p : Z) : M t () :=
  k ← view;
  if decide (is_Some (kv_mem k !! p)) then upd (λ k, with_mem (delete p (kv_mem k)) k) else undefined.

#[global] Instance heap : KHeap t := {| kmalloc := malloc; kfree := free |}.

Definition new_lock : M t Z :=
  p ← fresh;
  upd (λ k, with_locks (<[p := 0]> (kv_locks k)) (kv_idle k ∪ {[p]}) k);;
  mret p.
(** With owner [o]; [m] needs that. *)
Definition owned_by (p : Z) (o : kview → Z) (m : M t ()) : M t () :=
  k ← view;
  match kv_locks k !! p with
  | Some o' => if o' =? o k then m else noreturn
  | None => undefined
  end.
Definition new_cv : M t Z :=
  p ← fresh;
  upd (λ k, with_cvs (kv_cvs k ∪ {[p]}) (kv_idle k ∪ {[p]}) k);;
  mret p.
Definition new_thread (a b f : Z) : M t Z :=
  k ← view;
  pid ← the (kv_pids k !! kv_cur k);
  p ← fresh;
  upd (λ k, with_pids (<[p := pid]> (kv_pids k)) (<[p := (a, b, f)]> (kv_starts k)) k);;
  mret p.
(** Thread 1 goes on. *)
Definition to_first : M t () :=
  modify (λ s, Mk (MkCpu (curspl (sk_cpu s)) (cp0_status (sk_cpu s)) (in_interrupt (sk_cpu s)) 1)
    (let k := sk_view s in
     MkView 1 (kv_space k) (kv_exec k) (kv_mem k) (kv_locks k) (kv_cvs k) (kv_idle k) (kv_pids k) (kv_starts k)
       (kv_opens k) (kv_user k) (kv_valid k) (kv_stores k)) (sk_next s)).
Definition transfer_all (v : Z) (u : uio) : M t (Z * uio) :=
  mret (0, MkUio (uio_iovec u) (uio_offset u + uio_resid u) 0 (uio_segflg u) (uio_rw u) (uio_space u)).

#[global] Instance ops : KernelOps t := {|
  lock_create _ := new_lock;
  lock_destroy p := upd (λ k, with_locks (delete p (kv_locks k)) (kv_idle k) k);
  lock_acquire p := owned_by p (λ _, 0) (upd (λ k, set_lock p (kv_cur k) k));
  lock_release p := owned_by p kv_cur (upd (set_lock p 0));
  lock_do_i_hold p := k ← view; o ← the (kv_locks k !! p); mret (o =? kv_cur k);
  cv_create _ := new_cv;
  cv_destroy p := upd (λ k, with_cvs (kv_cvs k ∖ {[p]}) (kv_idle k) k);
  cv_wait _ _ := noreturn;
  cv_broadcast c _ := upd (λ k, with_cvs (kv_cvs k) (kv_idle k ∪ {[c]}) k);
  t_pid p := k ← view; the (kv_pids k !! p);
  set_t_pid p pid := upd (λ k, with_pids (<[p := pid]> (kv_pids k)) (kv_starts k) k);
  t_vmspace _ := k ← view; mret (kv_space k);
  set_t_vmspace _ a := upd (with_space a 0);
  thread_fork _ a b f := new_thread a b f;
  thread_exit := to_first;
  as_copy _ := p ← malloc 64; mret (0, p);
  as_activate _ := mret tt;
  as_valid_ptr a := k ← view; mret (kv_valid k a);
  as_v _ := k ← view; mret (kv_exec k);
  vfs_open path _ := if bool_decide (path = "") then mret (EINVAL, 0) else upd (add_open 100);; mret (0, 100);
  vfs_close v := upd (del_open v);
  vop_read := transfer_all;
  vop_write := transfer_all;
  user_string _ := mret "con:";
  store_word a w := upd (add_store a w);
|}.

(** The view is the state; addresses from [sk_next] on are fresh. *)
Record st (s : t) (k : kview) : Prop := {
  st_view : sk_view s = k;
  st_cpu : running (sk_cpu s);
  st_cur : curthread (sk_cpu s) = kv_cur k;
  st_next : 0 < sk_next s;
  st_null : kv_mem k !! 0 = None;
  st_fresh p : sk_next s ≤ p →
    kv_mem k !! p = None ∧ kv_locks k !! p = None ∧ p ∉ kv_cvs k ∧ kv_pids k !! p = None;
}.

Lemma st_step s k k' n :
  st s k → kv_cur k' = kv_cur k → sk_next s ≤ n → kv_mem k' !! 0 = None →
  (∀ p, n ≤ p → kv_mem k !! p = None → kv_locks k !! p = None → p ∉ kv_cvs k → kv_pids k !! p = None →
     kv_mem k' !! p = None ∧ kv_locks k' !! p = None ∧ p ∉ kv_cvs k' ∧ kv_pids k' !! p = None) →
  st (Mk (sk_cpu s) k' n) k'.
Proof.
  intros [Hv Hc Hcu Hn H0 Hf] Ec Hnn Hnull Hfr. split; cbn; [done|done|congruence|lia|done|].
  intros p Hp. destruct (Hf p) as (? & ? & ? & ?); [lia|]. by apply Hfr.
Qed.

(** The view is that of the state; what is left is that of the new state. *)
Ltac st_upd Hs :=
  destruct (st_view _ _ Hs); unfold owned_by, view, upd, fresh; wp_steps.

Lemma k_malloc_ok s k sz : st s k →
  wp safe_oom (malloc sz) s (λ p s', p = sk_next s ∧ sk_cpu s' = sk_cpu s ∧ st s' (with_mem (<[p := sz]> (kv_mem k)) k)) noerr.
Proof.
  intros Hs. unfold malloc, fresh, upd. wp_steps. split; [done|]. split; [done|]. destruct Hs as [<- ? ? ? ? ?] eqn:E.
  apply (st_step _ _ _ _ Hs); cbn; [done|lia| |]. 
  - rewrite lookup_insert_ne by lia. done.
  - intros p Hp ????. rewrite lookup_insert_ne by lia. done.
Qed.

Lemma transfer_all_ok s k v u : st s k →
  wp safe_oom (transfer_all v u) s (λ r s', sk_cpu s' = sk_cpu s ∧ st s' k ∧ moved u r) noerr.
Proof.
  intros Hs. unfold transfer_all. wp_steps. split; [done|]. split; [done|]. intros _ Hr. exists (uio_resid u). cbn. lia.
Qed.

#[global] Instance kernel : Kernel t.
Proof.
  refine {| kst := st |}.
  - intros s k []. done.
  - intros s k []. done.
  - intros s k sz Hs _. eapply wp_mono; [by apply k_malloc_ok| |done]. intros p s' (-> & Hc & Hs'). destruct Hs as [? ? ? ? ? Hf].
    split; [done|]. right. split; [lia|]. split; [apply Hf; lia|]. done.
  - intros s k p Hs Hp. destruct (st_view _ _ Hs). cbn. unfold free, view, upd. wp_steps. rewrite decide_True by done. wp_steps.
    split; [done|]. apply (st_step _ _ _ _ Hs); cbn; [done|lia| |].
    + apply lookup_delete_None. right. apply Hs.
    + intros q Hq ????. split_and!; try done. apply lookup_delete_None. by right.
  - (* lock_create *)
    intros s k name Hs. cbn. unfold new_lock. st_upd Hs. destruct (st_fresh _ _ Hs (sk_next s)) as (? & ? & ? & ?); [lia|].
    pose proof (st_next _ _ Hs). split; [done|]. right. split; [lia|]. split; [done|].
    apply (st_step _ _ _ _ Hs); cbn; [done|lia|apply Hs|]. intros q Hq ????. by rewrite lookup_insert_ne by lia.
  - intros s k p Hs Hp Hi. cbn. st_upd Hs. split; [done|].
    apply (st_step _ _ _ _ Hs); cbn; [done|lia|apply Hs|]. intros q Hq ????. rewrite lookup_delete_None. auto.
  - intros s k p Hs Hp. cbn. st_upd Hs. rewrite Hp. cbn. split; [done|].
    apply (st_step _ _ _ _ Hs); cbn; [done|lia|apply Hs|]. intros q Hq ? Hq' ??. by rewrite lookup_insert_ne by congruence.
  - intros s k p Hs Hp. cbn. st_upd Hs. rewrite Hp, Z.eqb_refl. wp_steps. split; [done|].
    apply (st_step _ _ _ _ Hs); cbn; [done|lia|apply Hs|]. intros q Hq ? Hq' ??. by rewrite lookup_insert_ne by congruence.
  - intros s k p o Hs Hp. cbn. st_upd Hs. wp_the o by done. by wp_steps.
  - (* cv_create *)
    intros s k name Hs. cbn. unfold new_cv. st_upd Hs. destruct (st_fresh _ _ Hs (sk_next s)) as (? & ? & ? & ?); [lia|].
    pose proof (st_next _ _ Hs). split; [done|]. right. split; [lia|]. split; [done|].
    apply (st_step _ _ _ _ Hs); cbn; [done|lia|apply Hs|]. intros q Hq ????. split_and!; try done.
    rewrite elem_of_union, elem_of_singleton. intros [?|?]; [done|lia].
  - intros s k p Hs Hp Hi. cbn. st_upd Hs. split; [done|].
    apply (st_step _ _ _ _ Hs); cbn; [done|lia|apply Hs|]. intros q Hq ????. split_and!; try done. set_solver.
  - intros s k c l Hs Hc Hl. cbn. st_upd Hs. split; [done|]. by apply (st_step _ _ _ _ Hs); cbn; [done|lia|apply Hs|].
  - (* threads *)
    intros s k p pid Hs Hp. cbn. st_upd Hs. by wp_the pid by done.
  - intros s k p pid Hs Hp. cbn. st_upd Hs. split; [done|].
    apply (st_step _ _ _ _ Hs); cbn; [done|lia|apply Hs|]. intros q Hq ????. split_and!; try done.
    rewrite lookup_insert_ne; [done|]. intros <-. destruct Hp. congruence.
  - intros s k p Hs Hp. cbn. st_upd Hs. done.
  - intros s k a Hs. cbn. st_upd Hs. split; [done|]. exists 0. by apply (st_step _ _ _ _ Hs); cbn; [done|lia|apply Hs|].
  - intros s k pid name a b f Hs Hp. cbn. unfold new_thread. st_upd Hs. wp_the pid by done. unfold fresh. wp_steps.
    destruct (st_fresh _ _ Hs (sk_next s)) as (? & ? & ? & ?); [lia|].
    pose proof (st_next _ _ Hs). split; [lia|]. split; [done|]. split; [done|].
    apply (st_step _ _ _ _ Hs); cbn; [done|lia|apply Hs|]. intros q Hq ????. by rewrite lookup_insert_ne by lia.
  - (* address spaces *)
    intros s k a Hs. cbn. wp_steps. eapply wp_mono; [by apply k_malloc_ok| |done]. intros p s' (-> & Hc & Hs'). wp_steps.
    pose proof (st_next _ _ Hs). split; [done|]. right. split; [done|]. split; [cbn; lia|].
    split; [apply Hs; cbn; lia|]. by exists 64.
  - intros s k a Hs. cbn. by wp_steps.
  - intros s k a Hs. cbn. by st_upd Hs.
  - intros s k Hs. cbn. by st_upd Hs.
  - (* files *)
    intros s k path fl Hs. cbn. destruct (bool_decide (path = "")).
    + wp_steps. split; [done|]. left. done.
    + st_upd Hs. split; [done|]. right. split; [done|]. by apply (st_step _ _ _ _ Hs); cbn; [done|lia|apply Hs|].
  - intros s k v Hs Hv. cbn. st_upd Hs. split; [done|]. by apply (st_step _ _ _ _ Hs); cbn; [done|lia|apply Hs|].
  - intros s k a w Hs Hu. cbn. st_upd Hs. split; [done|]. by apply (st_step _ _ _ _ Hs); cbn; [done|lia|apply Hs|].
  - intros s k v u Hs Hv. cbn. by apply transfer_all_ok.
  - intros s k v u Hs Hv. cbn. by apply transfer_all_ok.
Defined.

(** It has as much memory as it needs. *)
#[global] Instance lasts : MemoryLasts t.
Proof.
  split.
  - intros s k sz Hs _. eapply wp_mono; [by apply k_malloc_ok| |done]. intros p s' (-> & _).
    pose proof (st_next _ _ Hs). lia.
  - intros s k name Hs. cbn. unfold new_lock. st_upd Hs. pose proof (st_next _ _ Hs). lia.
  - intros s k name Hs. cbn. unfold new_cv. st_upd Hs. pose proof (st_next _ _ Hs). lia.
Qed.
End SimpleKernel.
