(* ===== verification/ProcessTheorems.v ===== *)
(** * Processes and files: what the system calls promise

    The theorems about kern/arch/mips/mips/syscall/, and concrete states that they apply
    to, on the kernel of SimpleKernel.v. *)

From Stdlib Require Import ZArith Lia.
From stdpp Require Import base list gmap gmultiset numbers strings.
From S2P Require Import Prelude Cpu KMem HeapCpu Uio Kernel Process ProcessProof ProcessRw ProcessLife ProcessFork SimpleKernel.

Local Open Scope Z_scope.

Section theorems.
Context {S : Type} `{!KernelOps S} `{!Kernel S}.
Implicit Types (s : PS S) (k : kview) (x : process) (y : procs).

(** The outcome of [sys_open]: the lowest free handle from 3 on and an open file behind
    it, the error of [vfs_open], or [EMFILE] *)
Definition open_result y p x name flgs (r : Z * Z) y' : Prop :=
  none_free (p_file_table x) FIRST_FILE_HANDLE MAX_FILE_HANDLES ∧ r = (-1, EMFILE) ∧ y' = y ∨
  lowest_free (p_file_table x) FIRST_FILE_HANDLE r.1 ∧ r.1 < MAX_FILE_HANDLES ∧
    (r.2 ≠ 0 ∧ y' = y ∨
     r.2 = 0 ∧ ∃ f nm v, y' = opened p r.1 f (MkFd (nm, name) (Z.land 3 flgs) 0 v) x y ∧ f ≠ 0 ∧ fds y !! f = None).

(** While kernel memory lasts, [sys_open] returns the lowest free handle from 3 on, and behind it is an open
    file at position 0; when no handle is free it returns [EMFILE], and when [vfs_open]
    fails its error. On every error the file tables are as before, and in every case the
    two locks are free again, and every heap block and open vnode is one of a file, a
    process or somebody else. *)
Theorem sys_open_spec `{!MemoryLasts S} s k rest O pid p x name flgs :
  here s k pid p x → files_ok k s.2 rest O → Z.of_nat (String.length name) < 2 ^ 31 - 1 →
  wp safe_oom (sys_open name flgs) s
    (λ r s', cpu_of s'.1 = cpu_of s.1 ∧ open_result s.2 p x name flgs r s'.2 ∧
       ∃ k', kst s'.1 k' ∧ same_but_files k k' ∧ files_ok k' s'.2 rest O) noerr.
Proof.
  intros Hh Hfo Hname. eapply wp_mono; [by apply (sys_open_ok s k rest O pid p x)| |done].
  intros r s' (Hc & Hk & Hr). done.
Qed.

Lemma opened_closed p i f d x y :
  processes y !! p = Some x → 0 ≤ i → zlookup (p_file_table x) i = Some 0 → fds y !! f = None →
  closed p i f (set_table (<[Z.to_nat i := f]> (p_file_table x)) x) (opened p i f d x y) = y.
Proof.
  intros Hx Hi He Hf. unfold closed, opened, set_handle, set_fds, set_processes, set_table. cbn.
  rewrite delete_insert_id, insert_insert_eq, list_insert_insert_eq by done.
  rewrite list_insert_id by (unfold zlookup in He; by destruct (Z.leb_spec 0 i)).
  replace (MkProcess _ _ _ _ _ _ _ _ _) with x by (by destruct x). rewrite insert_id by done. by destruct y.
Qed.

(** C20: While kernel memory lasts, for a caller that finds its locks free: closing what was
    just opened. [sys_close] accepts the handle that [sys_open]
    returned, and then the process and file tables are exactly as before, with the same
    vnodes open and no heap block lost. *)
Theorem open_close `{!MemoryLasts S} s k rest O pid p x name flgs :
  here s k pid p x → files_ok k s.2 rest O → Z.of_nat (String.length name) < 2 ^ 31 - 1 →
  wp safe_oom (r ← sys_open name flgs; if r.2 =? 0 then sys_close r.1 else mret 0) s
    (λ e s', e = 0 ∧ s'.2 = s.2 ∧
       ∃ k', kst s'.1 k' ∧ same_but_files k k' ∧ files_ok k' s.2 rest O ∧ kv_opens k' = kv_opens k) noerr.
Proof.
  intros Hh Hfo Hname. wp_steps. eapply wp_mono; [by apply (sys_open_ok s k rest O pid p x)| |done].
  intros [h e] s1 (Hc & (k1 & Hk1 & Hs1 & Hfo1) & Hr). cbn [fst snd] in *. destruct (Z.eqb_spec e 0) as [->|He].
  - destruct Hr as [(_ & ? & _)|(Hlow & Hh32 & [[? _]|(_ & f & nm & v & Hy1 & Hf0 & Hf)])]; [done..|].
    destruct Hlow as (Hh3 & He0 & _). pose proof (zlookup_lt_Some _ _ _ He0).
    set (x1 := set_table (<[Z.to_nat h := f]> (p_file_table x)) x).
    assert (here s1 k1 pid p x1) as Hh1.
    { destruct Hh as [_ Hpid Hrun Hx Hpl Htl Hne]. apply same_but_files_ex in Hs1 as (m & o & ->).
      split; rewrite ?Hy1; try done. cbn. by rewrite lookup_insert_eq. }
    eapply wp_mono; [eapply wp_faults; [apply (sys_close_ok s1 k1 rest O pid p x1 h Hh1 Hfo1)|done]| |done].
    intros e2 s2 (Hc2 & (k2 & Hk2 & Hs2 & Hfo2) & [(f2 & _ & Hf2 & Hf20 & -> & Hy2)|(Hno & _)]).
    + cbn [p_file_table x1 set_table] in Hf2. rewrite zlookup_insert_eq in Hf2 by lia. injection Hf2 as <-.
      assert (s2.2 = s.2) as Hback.
      { rewrite Hy2, Hy1. apply opened_closed; [apply Hh|unfold FIRST_FILE_HANDLE in *; lia|done|done]. }
      split; [done|]. split; [done|]. exists k2. split; [done|]. split; [by eapply same_but_files_trans|].
      rewrite Hback in Hfo2. split; [done|]. by rewrite (fo_nodes _ _ _ _ Hfo2), (fo_nodes _ _ _ _ Hfo).
    + destruct Hf0. apply Hno; [done|]. cbn. by rewrite zlookup_insert_eq by lia.
  - assert (s1.2 = s.2) as Hy1 by (destruct Hr as [(_ & _ & ?)|(_ & _ & [[_ ?]|[? _]])]; done).
    wp_steps. split; [done|]. split; [done|]. exists k1. split; [done|]. split; [done|]. rewrite Hy1 in Hfo1.
    split; [done|]. by rewrite (fo_nodes _ _ _ _ Hfo1), (fo_nodes _ _ _ _ Hfo).
Qed.

(** Handle [i] can take [n] more bytes without its position leaving an [int]. *)
Definition room y x (i n : Z) : Prop :=
  0 ≤ n < 2 ^ 31 ∧
  ∀ f d, zlookup (p_file_table x) i = Some f → fds y !! f = Some d → 0 ≤ position d ∧ position d + n < 2 ^ 31.

(** C21: [sys_read], while kernel memory lasts and for a caller that finds its locks free,
    with a length below 2^31 and a position that such a read keeps below 2^31 ([room]): a
    bad buffer gives [EFAULT]; a handle that is out of range, is standard output or error,
    is not open or is open for writing only gives [EBADF]; standard input is opened when it
    is first read. Otherwise the position of the file moves on by the number of bytes that
    is returned, at most the number asked for; an error leaves the file as it was. The
    locks are free again in every case. *)
Theorem sys_read_spec `{!MemoryLasts S} s k rest O pid p x i buf n :
  here s k pid p x → files_ok k s.2 rest O → room s.2 x i n →
  wp safe_oom (sys_read i buf n) s
    (λ r s', cpu_of s'.1 = cpu_of s.1 ∧
       rw_result k s.2 p x i buf n ((i =? 1) || (i =? 2)) (i =? 0) O_WRONLY r s'.2 ∧
       ∃ k', kst s'.1 k' ∧ same_but_files k k' ∧ files_ok k' s'.2 rest O) noerr.
Proof.
  intros Hh Hfo [Hn Hpos]. eapply wp_mono; [by apply (sys_read_ok s k rest O pid p x)| |done]. tauto.
Qed.

(** [sys_write]: as [sys_read], and under the same conditions, with standard input refused, files that are open for
    reading only refused, and standard output and error opened when they are first
    written. *)
Theorem sys_write_spec `{!MemoryLasts S} s k rest O pid p x i buf n :
  here s k pid p x → files_ok k s.2 rest O → room s.2 x i n →
  wp safe_oom (sys_write i buf n) s
    (λ r s', cpu_of s'.1 = cpu_of s.1 ∧
       rw_result k s.2 p x i buf n (i =? 0) ((i =? 1) || (i =? 2)) O_RDONLY r s'.2 ∧
       ∃ k', kst s'.1 k' ∧ same_but_files k k' ∧ files_ok k' s'.2 rest O) noerr.
Proof.
  intros Hh Hfo [Hn Hpos]. eapply wp_mono; [by apply (sys_write_ok s k rest O pid p x)| |done]. tauto.
Qed.

(** C18: [sys_fork], while kernel memory lasts and for a caller that finds its locks free,
    either fails with an error, and then the process table, the file tables of the
    processes and the saved trap frames are as before, as are the locks and the threads;
    what it had opened for the child's handles 0, 1 and 2 may stay open, in no table. Or it
    returns the lowest free process id, and that slot holds a new child of the caller; each
    open handle of the caller is opened again for the child by name and mode, as a file of
    its own at position 0 and not as one shared with the caller; and a new thread starts in
    [child_fork] with a copy of the address space and the caller's trap frame and has the
    child's process id. *)
Theorem sys_fork_spec `{!MemoryLasts S} s k rest O junk pid p x tf child :
  here s k pid p x → files_ok k s.2 rest O → names_ok s.2 →
  Z.of_nat (length (runningprocesses s.2)) = MAX_PROCESSES → process_lock s.2 ≠ 0 →
  wp safe_oom (sys_fork junk child tf) s
    (λ r s', cpu_of s'.1 = cpu_of s.1 ∧
       (r.1 = -1 ∧ r.2 ≠ 0 ∧ undone s.2 s'.2 ∧ (∃ k', kst s'.1 k' ∧ files_ok k' s'.2 rest O ∧ same_but_idle k k') ∨
        r.2 = 0 ∧ lowest_free (runningprocesses s.2) 1 r.1 ∧ r.1 < MAX_PROCESSES ∧
          ∃ k', kst s'.1 k' ∧ forked k s.2 pid x junk child tf r.1 rest O k' s'.2)) noerr.
Proof. intros [] Hfo Hnames Hlen Hpl0. by eapply (sys_fork_ok s k rest O junk pid p x). Qed.

(** [sys_waitpid] refuses options ([EINVAL]), process ids out of range, free slots
    and processes that are not children of the caller ([EFAULT]), and changes nothing. *)
Theorem sys_waitpid_refuses fuel s k me pid status options err :
  kst s.1 k → kv_pids k !! kv_cur k = Some me → wait_error me pid options s.2 = Some err →
  wp safe (sys_waitpid fuel pid status options) s (λ r s', r = (-1, err) ∧ s' = s) noerr.
Proof. apply sys_waitpid_refused_ok. Qed.

(** The handles from 3 on are closed, those below 3 are not. *)
Lemma exited_files code p x y i f d :
  tables_ok y → processes y !! p = Some x → f ≠ 0 → zlookup (p_file_table x) i = Some f → fds y !! f = Some d →
  fds (exited code p x y) !! f = if i <? FIRST_FILE_HANDLE then Some d else None.
Proof.
  intros [Hl Hfd Hinj] Hx Hf0 Hi Hd. specialize (Hl p x Hx). pose proof (zlookup_lt_Some _ _ _ Hi) as Hlt.
  unfold exited, all_closed, closed_upto, closed_fds. cbn [set_processes set_fds fds].
  rewrite take_ge by (rewrite length_drop; unfold std, MAX_FILE_HANDLES, FIRST_FILE_HANDLE in *; lia).
  assert (p_file_table x !! Z.to_nat i = Some f) as Hn by (unfold zlookup in Hi; by destruct (0 <=? i)).
  destruct (Z.ltb_spec i FIRST_FILE_HANDLE).
  - apply map_lookup_filter_Some. split; [done|]. intros [j Hj]%list_elem_of_lookup. rewrite lookup_drop in Hj.
    destruct (Hinj p x i p x (Z.of_nat (std + j)) f Hx Hx Hi) as [_ ->]; [by rewrite zlookup_nat|done|].
    unfold std, FIRST_FILE_HANDLE in *. lia.
  - apply map_lookup_filter_None. right. intros d' _ Hno. apply Hno, list_elem_of_lookup.
    exists (Z.to_nat i - std)%nat. rewrite lookup_drop, <- Hn. f_equal. unfold std, FIRST_FILE_HANDLE in *. lia.
Qed.

Lemma removed_files pid p code x y f d :
  Z.of_nat (length (p_file_table x)) = MAX_FILE_HANDLES → f ≠ 0 → fds y !! f = Some d →
  fds (remove_process pid p (finished_process code x) y) !! f = Some d.
Proof.
  intros Hl Hf Hd. apply map_lookup_filter_Some. split; [done|].
  cbn [finished_process set_finished set_table p_file_table]. unfold closed_table.
  intros [j Hj]%list_elem_of_lookup. apply lookup_take_Some in Hj as [Hj Hlt]. rewrite lookup_drop in Hj.
  unfold std, MAX_FILE_HANDLES, FIRST_FILE_HANDLE in *.
  rewrite lookup_app_r in Hj by (rewrite length_take; lia). rewrite length_take, lookup_app_l in Hj by (rewrite length_replicate; lia).
  apply lookup_replicate in Hj as [-> _]. done.
Qed.

(** C19: When process [pid] exits with [code], its handles from 3 on and its executable are
    closed and its parent is woken up; its handles 0, 1 and 2, the console's, are not closed.
    When the parent later calls [sys_waitpid] for it, with a status pointer the kernel can
    store to and nobody else using the process, the call returns the process id, the word it
    stores through [status] is [code], and then the process, its locks and its condition
    variable are gone, its slot in the table is free, and every other slot and process is as
    it was. The files of its handles 0, 1 and 2 are still open, and no process has them. *)
Theorem exit_then_waitpid s k rest O pid p x code :
  here s k pid p x → files_ok k s.2 rest ({[+ kv_exec k +]} ⊎ O) → p ≠ 0 → 1 ≤ pid < MAX_PROCESSES →
  kv_locks k !! p_exitlock x = Some 0 → p_exitcv x ∈ kv_cvs k → p_exitlock x ≠ process_lock s.2 →
  wp safe (exit_process code) s
    (λ _ s1, s1.2 = exited code p x s.2 ∧
      (∃ k1, kst s1.1 k1 ∧ files_ok k1 s1.2 rest O ∧ p_exitcv x ∈ kv_idle k1) ∧
      (∀ i f d, zlookup (p_file_table x) i = Some f → fds s.2 !! f = Some d →
         fds s1.2 !! f = if i <? FIRST_FILE_HANDLE then Some d else None) ∧
      ∀ (t2 : S) k2 rest2 O2 fuel status,
        kst t2 k2 → kv_pids k2 !! kv_cur k2 = Some (p_parentpid x) →
        files_ok k2 s1.2 rest2 O2 → retired k2 s1.2 x → kv_user k2 status = true →
        wp safe (sys_waitpid fuel pid status 0) (t2, s1.2)
          (λ r s', r = (pid, 0) ∧ s'.2 = remove_process pid p (finished_process code x) s1.2 ∧
             processes s'.2 !! p = None ∧ zlookup (runningprocesses s'.2) pid = Some 0 ∧
             (∀ i f d, i < FIRST_FILE_HANDLE → zlookup (p_file_table x) i = Some f → fds s.2 !! f = Some d →
                fds s'.2 !! f = Some d) ∧
             ∃ k', kst s'.1 k' ∧ files_ok k' s'.2 rest2 O2 ∧ kv_stores k' = (status, code) :: kv_stores k2 ∧
               kv_locks k' = delete (p_file_table_lock x) (delete (p_exitlock x) (kv_locks k2))) noerr) noerr.
Proof.
  intros Hh Hfo Hp0 Hpid Hel Hcv Hne. eapply wp_mono; [eapply exit_process_ok; eauto| |done].
  intros _ s1 (Hc1 & Hy1 & k1 & Hk1 & Hfo1 & Hs1). split; [done|].
  assert (∀ i f d, zlookup (p_file_table x) i = Some f → fds s.2 !! f = Some d →
    f ≠ 0 ∧ fds s1.2 !! f = if i <? FIRST_FILE_HANDLE then Some d else None) as Hfiles.
  { intros i f d Hi Hd. assert (f ≠ 0).
    { intros ->. by rewrite (fds_nonnull _ _ _ _ _ (h_kst _ _ _ _ _ Hh) Hfo) in Hd. }
    split; [done|]. rewrite Hy1. apply exited_files; [apply Hfo|apply Hh|done|done|done]. }
  pose proof (to_length _ (fo_tables _ _ _ _ Hfo) p x (h_proc _ _ _ _ _ Hh)) as Hlen.
  split; [|split; [intros i f d Hi Hd; by apply (Hfiles i f d)|]].
  { exists k1. split; [done|]. split; [done|]. apply same_but_files_ex in Hs1 as (m & o & ->). cbn. set_solver. }
  intros t2 k2 rest2 O2 fuel status Hk2 Hpar Hfo2 Hre Huser. destruct Hh as [_ _ Hrun Hx _ _ _].
  pose proof (zlookup_lt_Some _ _ _ Hrun) as Hlt.
  assert (zlookup (runningprocesses s1.2) pid = Some p) as Hrun1 by (by rewrite Hy1).
  assert (processes s1.2 !! p = Some (finished_process code x)) as Hx1 by (rewrite Hy1; cbn; by rewrite lookup_insert_eq).
  eapply wp_mono; [eapply (sys_waitpid_ok _ fuel (t2, s1.2) k2 rest2 O2 (p_parentpid x) pid p _ status Hk2 Hfo2 Hpar _ Hrun1 Hx1)| |done].
  - done.
  - by destruct Hre.
  - done.
  - intros r s' (-> & Hc' & Hy' & k' & Hk' & Hfo' & Hs'). cbn [snd] in *. split; [done|]. split; [done|]. split.
    { rewrite Hy'. cbn. by rewrite lookup_delete_eq. }
    split; [rewrite Hy'; cbn; rewrite zlookup_insert_eq; [done|by rewrite Hy1]|]. split.
    { intros i f d Hi3 Hi Hd. destruct (Hfiles i f d Hi Hd) as [Hf0 Hf1]. rewrite Hy'. apply removed_files; [done|done|].
      rewrite Hf1. by destruct (Z.ltb_spec i FIRST_FILE_HANDLE); [|lia]. }
    exists k'. split; [done|]. split; [done|]. apply same_but_files_ex in Hs' as (m & o & ->). done.
  Unshelve. unfold wait_error. cbn [snd negb Z.eqb].
  destruct ((pid <? 1) || (MAX_PROCESSES <=? pid)) eqn:Hr; [lia|]. rewrite Hrun1. cbn.
  destruct (Z.eqb_spec p 0); [done|]. rewrite Hx1. cbn. by rewrite Z.eqb_refl.
Qed.

(** The child of a fork: it runs in its own address space and enters user mode with
    the registers of its parent, but for the result 0 in v0 and a3 and a program counter
    behind the system call; the saved trap frame is freed. *)
Theorem child_fork_spec s k rest O asPtr tfPtr tf :
  kst s.1 k → files_ok k s.2 rest O → frames s.2 !! tfPtr = Some tf →
  wp safe (child_fork asPtr tfPtr) s
    (λ tf' s', cpu_of s'.1 = cpu_of s.1 ∧
       tf' = MkTf (tf_vaddr tf) (tf_status tf) (tf_cause tf) 0 (tf_a0 tf) (tf_a1 tf) (tf_a2 tf) 0 (tf_sp tf)
               (u32 (tf_epc tf + 4)) (tf_others tf) ∧
       s'.2 = set_frames (delete tfPtr (frames s.2)) s.2 ∧
       ∃ v, let k' := with_mem (delete tfPtr (kv_mem k)) (with_space asPtr v k) in
         kst s'.1 k' ∧ files_ok k' s'.2 rest O) noerr.
Proof. apply child_fork_ok. Qed.
End theorems.

(** ** Processes and files: a concrete state

    Process 1 runs, with one open file behind handle 3; the theorems of
    ProcessTheorems.v apply to it. *)


Definition ex_cpu (t : Z) : cpu := MkCpu 0 1 0 t.
Definition ex_fd : fd := MkFd (41, "foo"%string) 0 5 100.
Definition ex_x : process := MkProcess 1 9 1 0 0 30 31 32 (<[3%nat := 40]> (replicate 32 0)).
Definition ex_tf : trapframe := MkTf 0 0 0 1 2 3 4 5 6 1024 [].
Definition ex_y : procs :=
  MkProcs (<[1%nat := 20]> (replicate 128 0)) 10 {[20 := ex_x]} {[40 := ex_fd]} {[70 := ex_tf]}.
(** The view of thread [t] of process [pid] *)
Definition ex_k (t pid : Z) : kview :=
  MkView t 50 7 (<[40 := 16]> (<[41 := 4]> (<[20 := 160]> (<[70 := 148]> ∅)))) {[10 := 0; 31 := 0; 32 := 0]} {[30]}
    {[10; 30; 31; 32]} {[t := pid]} ∅ ({[+ 100 +]} ⊎ {[+ 7 +]}) (λ _, true) (λ _, 0) [].
Definition ex_s (t pid : Z) : PS SimpleKernel.t := (SimpleKernel.Mk (ex_cpu t) (ex_k t pid) 200, ex_y).

Lemma ex_kst t pid : 0 < t < 200 → kst (ex_s t pid).1 (ex_k t pid).
Proof.
  intros Ht. split; cbn; [done| |done|done|by vm_compute|].
  - split; [|cbn; lia]. split; cbn; [done|by split|done].
  - intros p Hp. rewrite !lookup_insert_ne by lia. rewrite !lookup_singleton_ne by lia. split_and!; try done; set_solver by lia.
Qed.

Lemma ex_tables : tables_ok ex_y.
Proof.
  assert (∀ i e, zlookup (p_file_table ex_x) i = Some e → e ≠ 0 → i = 3 ∧ e = 40) as Htab.
  { intros i e Hi He. pose proof (zlookup_lt_Some _ _ _ Hi). cbn [p_file_table ex_x] in Hi.
    change 3%nat with (Z.to_nat 3) in Hi. rewrite zlookup_insert in Hi by (rewrite ?length_replicate; lia).
    case_decide; [naive_solver|]. unfold zlookup in Hi. destruct (0 <=? i); [|done].
    by apply lookup_replicate in Hi as [-> _]. }
  split; cbn [ex_y processes fds].
  - intros p x [<- <-]%lookup_singleton_Some. done.
  - intros p x i e [<- <-]%lookup_singleton_Some Hi He. destruct (Htab i e) as [-> ->]; [done..|]. by eexists.
  - intros p x i p' x' i' e [<- <-]%lookup_singleton_Some [<- <-]%lookup_singleton_Some Hi Hi' He.
    destruct (Htab i e), (Htab i' e); try done. by subst.
Qed.

Lemma ex_files t pid : files_ok (ex_k t pid) ex_y ∅ {[+ 7 +]}.
Proof.
  split; [|cbn [ex_y ex_k kv_opens fds]|apply ex_tables].
  - unfold proc_blocks, fd_blocks. cbn [ex_y ex_k kv_mem fds processes frames].
    rewrite !map_to_list_singleton. cbn.
    apply owned_alloc; [|done]. apply owned_alloc; [|done]. apply owned_alloc; [|done]. apply owned_alloc; [|done]. apply owned_nil.
  - unfold fd_nodes. rewrite map_to_list_singleton. cbn. multiset_solver.
Qed.

Lemma ex_here t : 0 < t < 200 → here (ex_s t 1) (ex_k t 1) 1 20 ex_x.
Proof.
  intros Ht. split; [by apply ex_kst| |done|done|done|done|done]. cbn. by rewrite lookup_singleton_eq.
Qed.

Lemma ex_room : room ex_y ex_x 3 10.
Proof.
  split; [lia|]. intros f d Hf Hd. change (Some 40 = Some f) in Hf. injection Hf as <-.
  change (Some ex_fd = Some d) in Hd. injection Hd as <-. cbn. lia.
Qed.

(** The value a run returns *)
Definition value {S A} (r : outcome S A) : option A := match r with Ret a _ => Some a | _ => None end.

Lemma sys_open_spec_witness :
  value (sys_open "bar" 1 (ex_s 1 1)) = Some (4, 0) ∧
  wp safe_oom (sys_open "bar" 1) (ex_s 1 1) (λ r s', open_result ex_y 20 ex_x "bar" 1 r s'.2) noerr.
Proof.
  split; [by vm_compute|].
  eapply wp_mono; [apply (sys_open_spec (ex_s 1 1) (ex_k 1 1) ∅ {[+ 7 +]} 1 20 ex_x "bar" 1);
    [by apply ex_here|apply ex_files|done]| |done].
  intros r s' (_ & Hr & _). exact Hr.
Defined.

Lemma open_close_witness :
  wp safe_oom (r ← sys_open "bar" 1; if r.2 =? 0 then sys_close r.1 else mret 0) (ex_s 1 1)
    (λ e s', e = 0 ∧ s'.2 = ex_y) noerr.
Proof.
  eapply wp_mono; [apply (open_close (ex_s 1 1) (ex_k 1 1) ∅ {[+ 7 +]} 1 20 ex_x "bar" 1);
    [by apply ex_here|apply ex_files|done]| |done].
  intros e s' (He & Hs & _). split; [exact He|exact Hs].
Defined.

Lemma sys_read_spec_witness :
  value (sys_read 3 4096 10 (ex_s 1 1)) = Some (10, 0) ∧
  wp safe_oom (sys_read 3 4096 10) (ex_s 1 1)
    (λ r s', rw_result (ex_k 1 1) ex_y 20 ex_x 3 4096 10 false false O_WRONLY r s'.2) noerr.
Proof.
  split; [by vm_compute|].
  eapply wp_mono; [apply (sys_read_spec (ex_s 1 1) (ex_k 1 1) ∅ {[+ 7 +]} 1 20 ex_x 3 4096 10);
    [by apply ex_here|apply ex_files|apply ex_room]| |done].
  intros r s' (_ & Hr & _). exact Hr.
Defined.

Lemma sys_write_spec_witness :
  value (sys_write 3 4096 10 (ex_s 1 1)) = Some (-1, EBADF) ∧
  wp safe_oom (sys_write 3 4096 10) (ex_s 1 1)
    (λ r s', rw_result (ex_k 1 1) ex_y 20 ex_x 3 4096 10 false false O_RDONLY r s'.2) noerr.
Proof.
  split; [by vm_compute|].
  eapply wp_mono; [apply (sys_write_spec (ex_s 1 1) (ex_k 1 1) ∅ {[+ 7 +]} 1 20 ex_x 3 4096 10);
    [by apply ex_here|apply ex_files|apply ex_room]| |done].
  intros r s' (_ & Hr & _). exact Hr.
Defined.

Lemma sys_fork_spec_witness :
  value (sys_fork ex_x 5000 ex_tf (ex_s 1 1)) = Some (2, 0) ∧
  wp safe_oom (sys_fork ex_x 5000 ex_tf) (ex_s 1 1)
    (λ r s', undone ex_y s'.2 ∨ r.2 = 0 ∧ lowest_free (runningprocesses ex_y) 1 r.1) noerr.
Proof.
  split; [by vm_compute|].
  eapply wp_mono; [apply (sys_fork_spec (ex_s 1 1) (ex_k 1 1) ∅ {[+ 7 +]} ex_x 1 20 ex_x ex_tf 5000);
    [by apply ex_here|apply ex_files| |done|done]| |done].
  - intros f d Hd. cbn [ex_s ex_y snd fds] in Hd. apply lookup_singleton_Some in Hd as [_ <-]. by vm_compute.
  - intros r s' (_ & [(_ & _ & Hu & _)|(Hr & Hl & _)]); [left; exact Hu|right; split; [exact Hr|exact Hl]].
Defined.

Lemma sys_waitpid_refuses_witness :
  wp safe (sys_waitpid 1 5 4096 0) (ex_s 1 1) (λ r s', r = (-1, EFAULT) ∧ s' = ex_s 1 1) noerr.
Proof. apply (sys_waitpid_refuses 1 (ex_s 1 1) (ex_k 1 1) 1 5 4096 0 EFAULT); [by apply ex_kst|done|done]. Defined.

Lemma child_fork_spec_witness :
  wp safe (child_fork 300 70) (ex_s 1 1) (λ tf' s', tf_v0 tf' = 0 ∧ tf_a3 tf' = 0 ∧ tf_epc tf' = 1028 ∧ tf_a0 tf' = 2) noerr.
Proof.
  eapply wp_mono; [apply (child_fork_spec (ex_s 1 1) (ex_k 1 1) ∅ {[+ 7 +]} 300 70 ex_tf);
    [by apply ex_kst|apply ex_files|done]| |done].
  intros tf' s' (_ & -> & _). done.
Defined.

(** Process 1 exits; then thread 2 of process 9, its parent, waits for it. *)
Definition ex_k2 : kview :=
  with_mem (<[20 := 160]> (<[70 := 148]> ∅)) (with_opens ({[+ 7 +]}) (ex_k 2 9)).
Definition ex_t2 : SimpleKernel.t := SimpleKernel.Mk (ex_cpu 2) ex_k2 200.

Lemma ex_kst2 : kst ex_t2 ex_k2.
Proof.
  apply (SimpleKernel.st_step (ex_s 2 9).1 (ex_k 2 9) ex_k2 200); [by apply (ex_kst 2 9)|done|done|done|].
  intros p Hp ????. split_and!; try done. cbn. by rewrite !lookup_insert_ne by lia.
Qed.

Lemma ex_files2 : files_ok ex_k2 (exited 3 20 ex_x ex_y) ∅ {[+ 7 +]}.
Proof.
  assert (exited 3 20 ex_x ex_y =
    MkProcs (runningprocesses ex_y) 10 {[20 := finished_process 3 ex_x]} ∅ {[70 := ex_tf]}) as -> by done.
  split.
  - unfold proc_blocks, fd_blocks. cbn [ex_k2 kv_mem with_mem fds processes frames].
    rewrite !map_to_list_singleton, map_to_list_empty. cbn.
    apply owned_alloc; [|done]. apply owned_alloc; [|done]. apply owned_nil.
  - unfold fd_nodes. cbn [fds]. rewrite map_to_list_empty. cbn. multiset_solver.
  - assert (p_file_table (finished_process 3 ex_x) = replicate 32 0) as Ht by done.
    split; cbn [processes fds].
    + intros p x [<- <-]%lookup_singleton_Some. done.
    + intros p x i e [<- <-]%lookup_singleton_Some Hi He. rewrite Ht in Hi. by apply replicate_zlookup in Hi.
    + intros p x i p' x' i' e [<- <-]%lookup_singleton_Some [<- <-]%lookup_singleton_Some Hi Hi' He.
      rewrite Ht in Hi. by apply replicate_zlookup in Hi.
Qed.

Lemma exit_then_waitpid_witness :
  wp safe (exit_process 3) (ex_s 1 1)
    (λ _ s1, wp safe (sys_waitpid 0 1 4096 0) (ex_t2, s1.2)
       (λ r s', r = (1, 0) ∧ ∃ k', kst s'.1 k' ∧ kv_stores k' = [(4096, 3)]) noerr) noerr.
Proof.
  eapply wp_mono; [apply (exit_then_waitpid (ex_s 1 1) (ex_k 1 1) ∅ ∅ 1 20 ex_x 3);
    [by apply ex_here| |done|done|done|set_solver|done]| |done].
  - rewrite gmultiset_disj_union_right_id. apply ex_files.
  - intros _ s1 (Hy & _ & _ & Hw). eapply wp_mono; [apply (Hw ex_t2 ex_k2 ∅ {[+ 7 +]} 0%nat 4096 ex_kst2)| |done].
    + done.
    + rewrite Hy. apply ex_files2.
    + rewrite Hy. split; cbn; [done|done|done|set_solver|set_solver|]. by apply (bool_decide_unpack (NoDup [10; 31; 32])).
    + done.
    + intros r s' (Hr & _ & _ & _ & _ & k' & Hk' & _ & Hst & _). split; [exact Hr|]. exists k'. split; [exact Hk'|exact Hst].
Defined.
