(* ===== verification/Trap.v ===== *)
(** * Traps and system calls

    Model of kern/arch/mips/mips/trap.c, syscall.c and interrupt.c, on the processes of
    Process.v. A trap frame is passed by its address, which the assertions use, and its
    contents; the result is the trap frame the thread goes on with, or [None] when the
    thread has exited and another one runs.

    [vm_fault] is that of vm.c, here an operation of the kernel; so are the interrupt
    handler of the bus, [sys_reboot] and [sys_execv]. [kprintf] and [DEBUG] print
    nothing. *)

From Stdlib Require Import ZArith Lia.
From stdpp Require Import base list gmap gmultiset numbers strings.
From S2P Require Import Prelude Cpu KMem Uio Kernel Process.

Local Open Scope Z_scope.

(** machine/trapframe.h *)
Definition EX_IRQ : Z := 0.
Definition EX_MOD : Z := 1.
Definition EX_TLBL : Z := 2.
Definition EX_TLBS : Z := 3.
Definition EX_IBE : Z := 6.
Definition EX_DBE : Z := 7.
Definition EX_SYS : Z := 8.
Definition NTRAPCODES : Z := 13.
(** machine/specialreg.h *)
Definition CCA_CODE : Z := 0x3c.
Definition CCA_CODESHIFT : Z := 2.
Definition CST_IEp : Z := 0x4.
Definition CST_KUp : Z := 0x8.
Definition CST_IRQMASK : Z := 0xff00.
Definition LAMEBUS_IRQ_BIT : Z := 0x400.
Definition LAMEBUS_NMI_BIT : Z := 0x800.
(** machine/pcb.h *)
Definition STACK_SIZE : Z := 4096.
Definition STACK_MASK : Z := 0xfffff000.
Definition SAME_STACK (p1 p2 : Z) : bool := Z.land p1 STACK_MASK =? Z.land p2 STACK_MASK.
(** vm.h *)
Definition VM_FAULT_READ : Z := 0.
Definition VM_FAULT_WRITE : Z := 1.
Definition VM_FAULT_READONLY : Z := 2.
(** kern/callno.h *)
Definition SYS__exit : Z := 0.
Definition SYS_execv : Z := 1.
Definition SYS_fork : Z := 2.
Definition SYS_waitpid : Z := 3.
Definition SYS_open : Z := 4.
Definition SYS_read : Z := 5.
Definition SYS_write : Z := 6.
Definition SYS_close : Z := 7.
Definition SYS_reboot : Z := 8.
Definition SYS_getpid : Z := 11.

Definition set_epc e (tf : trapframe) : trapframe :=
  MkTf (tf_vaddr tf) (tf_status tf) (tf_cause tf) (tf_v0 tf) (tf_a0 tf) (tf_a1 tf) (tf_a2 tf) (tf_a3 tf) (tf_sp tf) e (tf_others tf).
Definition set_result v0 a3 (tf : trapframe) : trapframe :=
  MkTf (tf_vaddr tf) (tf_status tf) (tf_cause tf) v0 (tf_a0 tf) (tf_a1 tf) (tf_a2 tf) a3 (tf_sp tf) (tf_epc tf) (tf_others tf).

Definition with_in_interrupt n (c : cpu) : cpu := MkCpu (curspl c) (cp0_status c) n (curthread c).

(** What the handlers use beside the operations of Kernel.v: the fault handler, the
    interrupt handler of the bus, [t->t_stack], [t->t_pcb.pcb_badfaultfunc] and the
    global [curkstack] *)
Class TrapOps (S : Type) := {
  vm_fault : Z → Z → M S Z;
  mips_lamebus_interrupt : M S ();
  t_stack : Z → M S Z;
  pcb_badfaultfunc : Z → M S Z;
  curkstack : M S Z;
  sys_reboot : Z → M S Z;
  sys_execv : Z → Z → M S Z;
}.

Section trap.
Context {S : Type} `{!KernelOps S} `{!TrapOps S}.
(** What the memory of a new process holds, the wake-ups of [sys_waitpid] while the
    process runs, and the address of [child_fork] *)
Variable (junk : process) (fuel : nat) (child_fork_addr : Z).

Definition upd_cpu (f : cpu → cpu) : M (PS S) () := modify (λ s, set_cpu (f (cpu_of s)) s).

Definition mips_interrupt cause : M (PS S) () :=
  s ← get;
  let old_in := in_interrupt (cpu_of s) in
  upd_cpu (with_in_interrupt 1);;
  spl ← get_curspl;
  assert (0 <? spl);;
  (if negb (Z.land cause LAMEBUS_IRQ_BIT =? 0) then on_k mips_lamebus_interrupt
   else panic);;
  upd_cpu (with_in_interrupt old_in).

(** The [switch] of [mips_syscall]: the value and the error number *)
Definition dispatch (tf : trapframe) : M (PS S) (option (Z * Z)) :=
  let callno := s32 (tf_v0 tf) in
  if callno =? SYS_reboot then err ← on_k (sys_reboot (s32 (tf_a0 tf))); mret (Some (0, err))
  else if callno =? SYS_open then
    name ← on_k (user_string (tf_a0 tf));
    r ← sys_open name (s32 (tf_a1 tf)); mret (Some r)
  else if callno =? SYS_close then err ← sys_close (s32 (tf_a0 tf)); mret (Some (0, err))
  else if callno =? SYS_read then r ← sys_read (s32 (tf_a0 tf)) (tf_a1 tf) (tf_a2 tf); mret (Some r)
  else if callno =? SYS_write then r ← sys_write (s32 (tf_a0 tf)) (tf_a1 tf) (tf_a2 tf); mret (Some r)
  else if callno =? SYS_fork then r ← sys_fork junk child_fork_addr tf; mret (Some r)
  else if callno =? SYS_getpid then pid ← sys_getpid; mret (Some (pid, 0))
  else if callno =? SYS_waitpid then
    r ← sys_waitpid fuel (s32 (tf_a0 tf)) (tf_a1 tf) (s32 (tf_a2 tf)); mret (Some r)
  else if callno =? SYS__exit then sys__exit (s32 (tf_a0 tf));; mret None
  else if callno =? SYS_execv then err ← on_k (sys_execv (tf_a0 tf) (tf_a1 tf)); mret (Some (0, err))
  else mret (Some (0, ENOSYS)).

(** What the registers are when the call is over *)
Definition syscall_return (tf : trapframe) (retval err : Z) : trapframe :=
  set_epc (u32 (tf_epc tf + 4))
    (if negb (err =? 0) then set_result (u32 err) 1 tf else set_result (u32 retval) 0 tf).

Definition mips_syscall (tf : trapframe) : M (PS S) (option trapframe) :=
  spl ← get_curspl;
  assert (spl =? 0);;
  r ← dispatch tf;
  match r with
  | None => mret None
  | Some (retval, err) =>
    spl ← get_curspl;
    assert (spl =? 0);;
    mret (Some (syscall_return tf retval err))
  end.

(** The process exits with the code of the trap; the [panic] behind that is not
    reached. *)
Definition kill_curthread code : M (PS S) () :=
  assert (code <? NTRAPCODES);;
  sys__exit code.

(** [EX_MOD], [EX_TLBL] and [EX_TLBS]: is the fault repaired? *)
Definition fault_repaired code vaddr : M (PS S) bool :=
  let fault (type : Z) : M (PS S) bool := r ← on_k (vm_fault type vaddr); mret (r =? 0) in
  if code =? EX_MOD then fault VM_FAULT_READONLY
  else if code =? EX_TLBL then fault VM_FAULT_READ
  else if code =? EX_TLBS then fault VM_FAULT_WRITE
  else if (code =? EX_IBE) || (code =? EX_DBE) then panic
  else mret false.

(** What is done with a fault that cannot be repaired *)
Definition fatal_fault (tf : trapframe) code (iskern : bool) : M (PS S) (option trapframe) :=
  if negb iskern then kill_curthread code;; mret None
  else
  cur ← get_curthread;
  f ← (if cur =? 0 then mret 0 else on_k (pcb_badfaultfunc cur));
  if negb (f =? 0) then mret (Some (set_epc f tf)) else panic.

(** From [if (code == EX_IRQ)] to [done:] *)
Definition handle_trap (tf : trapframe) code iskern savespl : M (PS S) (option trapframe) :=
  if code =? EX_IRQ then mips_interrupt (tf_cause tf);; mret (Some tf)
  else
  _ ← splx savespl;
  if code =? EX_SYS then
    spl ← get_curspl;
    assert (spl =? 0);;
    mips_syscall tf
  else
  ok ← fault_repaired code (tf_vaddr tf);
  if (ok : bool) then mret (Some tf) else fatal_fault tf code iskern.

Definition mips_trap (tfp : Z) (tf : trapframe) : M (PS S) (option trapframe) :=
  savespl ← get_curspl;
  upd_cpu (with_curspl SPL_HIGH);;
  let code := Z.shiftr (Z.land (tf_cause tf) CCA_CODE) CCA_CODESHIFT in
  let iskern := Z.land (tf_status tf) CST_KUp =? 0 in
  assert (code <? NTRAPCODES);;
  cur ← get_curthread;
  stack ← (if cur =? 0 then mret 0 else on_k (t_stack cur));
  when (negb (stack =? 0))
    (assert (stack <? tfp);;
     assert (tfp <? stack + STACK_SIZE));;
  r ← handle_trap tf code iskern savespl;
  match r with
  | None => mret None
  | Some tf' =>
    _ ← splhigh;
    upd_cpu (with_curspl savespl);;
    ks ← on_k curkstack;
    assert (SAME_STACK (u32 (ks - 1)) tfp);;
    mret (Some tf')
  end.

(** The registers [asm_usermode] enters user mode with *)
Definition mips_usermode (tfp : Z) (tf : trapframe) : M (PS S) trapframe :=
  _ ← splhigh;
  upd_cpu (with_curspl 0);;
  ks ← on_k curkstack;
  assert (SAME_STACK (u32 (ks - 1)) tfp);;
  mret tf.

(** [tfp] is the address of the local trap frame. *)
Definition md_usermode (tfp argc argv stack entry : Z) : M (PS S) trapframe :=
  mips_usermode tfp
    (MkTf 0 (Z.lor (Z.lor CST_IRQMASK CST_IEp) CST_KUp) 0 0 (u32 argc) argv 0 0 stack entry (replicate 27 0)).
End trap.
