(* ===== verification/TrapProof.v ===== *)
(** * Traps: what the handler promises

    [mips_trap] puts the processor back as it was in the interrupted context, and sets
    the registers of the trap frame as the calling convention of system calls says. *)

From Stdlib Require Import ZArith Lia.
From stdpp Require Import base list gmap gmultiset numbers strings.
From S2P Require Import Prelude Cpu KMem HeapCpu Uio Kernel Process ProcessProof ProcessRw ProcessLife Trap SimpleKernel ProcessTheorems.

Local Open Scope Z_scope.

(** The contract of the operations of Trap.v. The processor of a state can be changed;
    [stk] is the kernel stack of a thread, [bad] the [pcb_badfaultfunc] of the running one;
    [repairs] says which faults [vm_fault] repairs. When it does not repair one, it may
    leave interrupts off, as vm.c does for a thread without an address space. *)
Class TrapLaws (S : Type) `{!KernelOps S} `{!Kernel S} `{!TrapOps S} := {
  stk : Z → Z;
  bad : S → Z;
  repairs : S → Z → Z → bool;
  bad_set_cpu c s : bad (set_cpu c s) = bad s;
  repairs_set_cpu c s t v : repairs (set_cpu c s) t v = repairs s t v;
  kst_set_cpu c s k : kst s k → running c → curthread c = kv_cur k → kst (set_cpu c s) k;
  t_stack_t s k : kst s k → wp safe (t_stack (kv_cur k)) s (λ r s', r = stk (kv_cur k) ∧ s' = s) noerr;
  badfaultfunc_t s k : kst s k → wp safe (pcb_badfaultfunc (kv_cur k)) s (λ r s', r = bad s ∧ s' = s) noerr;
  curkstack_t s : wp safe curkstack s (λ r s', r = stk (curthread (cpu_of s)) + STACK_SIZE ∧ s' = s) noerr;
  vm_fault_t s k t v : kst s k →
    wp safe_oom (vm_fault t v) s (λ r s', (r =? 0) = repairs s t v ∧
      (cpu_of s' = cpu_of s ∨ r ≠ 0 ∧ cpu_of s' = spl_set SPL_HIGH (cpu_of s)) ∧
      bad s' = bad s ∧ kst s' k) noerr;
  interrupt_t s k : kst s k → 0 < curspl (cpu_of s) →
    wp safe mips_lamebus_interrupt s (λ _ s', cpu_of s' = cpu_of s ∧
      ∃ k', kst s' k' ∧ kv_cur k' = kv_cur k) noerr;
  (** another thread runs *)
  thread_exit_t s k : kst s k → wp safe thread_exit s (λ _ s', ∃ k', kst s' k') noerr;
}.

(** The trap frame is on the kernel stack [b], which is a page. *)
Definition on_stack (b tfp : Z) : Prop := 0 < b ∧ b + STACK_SIZE < 2 ^ 32 ∧ b mod STACK_SIZE = 0 ∧ b < tfp < b + STACK_SIZE.

Lemma same_stack b tfp : on_stack b tfp → SAME_STACK (u32 (b + STACK_SIZE - 1)) tfp = true.
Proof.
  unfold on_stack, SAME_STACK, STACK_SIZE, STACK_MASK. intros (H0 & H1 & Hb & Ht).
  change 0xfffff000 with PAGE_FRAME. rewrite u32_small by lia. rewrite !land_PAGE_FRAME by (unfold is_u32; lia).
  unfold PAGE_SIZE. apply Z.eqb_eq. f_equal. Z.div_mod_to_equations. lia.
Qed.

Section trap.
Context {S : Type} `{!KernelOps S} `{!Kernel S} `{!TrapOps S} `{!TrapLaws S}.
Variable (junk : process) (fuel : nat) (child_fork_addr : Z).
Implicit Types (s : PS S) (k : kview) (x : process) (y : procs) (tf : trapframe).

(** The hardware has taken the exception: interrupts are off, the level is that of the
    interrupted context. *)
Definition entered (s : PS S) : PS S := set_cpu (interrupts_off (cpu_of s)) s.

(** ** The processor *)

Lemma entered_high (s : PS S) :
  set_cpu (with_curspl SPL_HIGH (cpu_of (entered s))) (entered s) = set_cpu (spl_set SPL_HIGH (cpu_of s)) s.
Proof. unfold entered. by rewrite set_cpu_set, cpu_of_set. Qed.

Lemma left_again (c : cpu) s :
  set_cpu (with_curspl (curspl c) (cpu_of (set_cpu (spl_set SPL_HIGH c) s))) (set_cpu (spl_set SPL_HIGH c) s)
  = set_cpu (interrupts_off c) s.
Proof. rewrite set_cpu_set, cpu_of_set. by destruct c. Qed.

Lemma kst_high s k : kst s.1 k → kst (set_cpu (spl_set SPL_HIGH (cpu_of s)) s).1 k.
Proof.
  intros Hk. destruct (kst_cur _ _ Hk) as [Hr Hc]. apply kst_set_cpu; [done|by apply running_spl|].
  by rewrite curthread_spl_set.
Qed.

Lemma spl_high_twice (c : cpu) : spl_set SPL_HIGH (spl_set SPL_HIGH c) = spl_set SPL_HIGH c.
Proof.
  unfold spl_set. change (0 <? SPL_HIGH) with true. cbv iota. change (SPL_HIGH =? 0) with false. cbv iota.
  unfold with_curspl, interrupts_off. cbn. f_equal. by rewrite <- Z.land_assoc, Z.land_diag.
Qed.

(** ** The frame of [mips_trap] *)

Definition trap_code tf : Z := Z.shiftr (Z.land (tf_cause tf) CCA_CODE) CCA_CODESHIFT.
Definition in_kernel tf : bool := Z.land (tf_status tf) CST_KUp =? 0.

(** Whatever the handler does, when the interrupted context goes on its processor is as it
    was. *)
Lemma mips_trap_ok F s k tfp tf (Q : option trapframe → PS S → Prop) E :
  kst s.1 k → on_stack (stk (kv_cur k)) tfp → trap_code tf < NTRAPCODES →
  wp F (handle_trap junk fuel child_fork_addr tf (trap_code tf) (in_kernel tf) (curspl (cpu_of s)))
    (set_cpu (spl_set SPL_HIGH (cpu_of s)) s)
    (λ r s', match r with
       | None => Q None s'
       | Some tf' => spl_set SPL_HIGH (cpu_of s') = spl_set SPL_HIGH (cpu_of s) ∧
                     Q (Some tf') (entered (set_cpu (cpu_of s) s'))
       end) E →
  wp F (mips_trap junk fuel child_fork_addr tfp tf) (entered s) Q E.
Proof.
  intros Hk Hst Hcode Hh. destruct (kst_cur _ _ Hk) as [[Hwf Hcur0] Hcur].
  assert (curspl (cpu_of (entered s)) = curspl (cpu_of s)) as Hspl by (unfold entered; by rewrite cpu_of_set).
  change (cpu_of s.1) with (cpu_of s) in *.
  unfold mips_trap, upd_cpu, get_curspl. wp_steps. rewrite entered_high, Hspl.
  wp_assert by (unfold trap_code in Hcode; lia). unfold get_curthread. wp_steps.
  rewrite cpu_of_set, curthread_spl_set, Hcur. destruct (Z.eqb_spec (kv_cur k) 0); [congruence|].
  apply wp_on_k, wp_faults with safe; [|done].
  eapply wp_mono; [apply (t_stack_t _ k (kst_high s k Hk))| |done]. intros r t [-> ->].
  pose proof Hst as (H0 & _ & _ & Hlo & Hhi). apply wp_bind, wp_when; [intros _|lia].
  wp_assert by lia. wp_assert by lia. wp_steps.
  eapply wp_mono; [exact Hh| |done]. intros [tf'|] s' Hr; [|by wp_steps].
  destruct Hr as (Hc' & HQ). wp_steps. apply wp_splx. wp_steps.
  rewrite Hc', left_again. apply wp_on_k, wp_faults with safe; [|done].
  eapply wp_mono; [apply curkstack_t| |done]. intros r t [-> ->].
  change (cpu_of (set_cpu (interrupts_off (cpu_of s)) s').1) with (cpu_of (set_cpu (interrupts_off (cpu_of s)) s')).
  rewrite cpu_of_set. change (curthread (interrupts_off (cpu_of s))) with (curthread (cpu_of s)). rewrite Hcur. wp_assert by (by apply same_stack). wp_steps.
  unfold entered in HQ. by rewrite set_cpu_set, cpu_of_set in HQ.
Qed.

(** Back at the level of the interrupted context *)
Lemma splx_back F s (Q : Z → PS S → Prop) E :
  cpu_wf (cpu_of s) → (∀ n, Q n s) →
  wp F (splx (curspl (cpu_of s))) (set_cpu (spl_set SPL_HIGH (cpu_of s)) s) Q E.
Proof.
  intros Hwf HQ. apply wp_splx. rewrite set_cpu_set, cpu_of_set, spl_set_back by done. by rewrite set_cpu_of.
Qed.

(** ** Interrupts *)

Lemma mips_interrupt_ok F s k cause (Q : () → PS S → Prop) E :
  kst s.1 k → 0 < curspl (cpu_of s) → Z.land cause LAMEBUS_IRQ_BIT ≠ 0 →
  (∀ (t : S) k', cpu_of t = cpu_of s → kst t k' → kv_cur k' = kv_cur k → Q tt (t, s.2)) →
  wp F (mips_interrupt cause) s Q E.
Proof.
  intros Hk Hspl Hc HQ. destruct (kst_cur _ _ Hk) as [Hr Hcur]. change (cpu_of s.1) with (cpu_of s) in *.
  unfold mips_interrupt, upd_cpu, get_curspl. wp_steps. rewrite cpu_of_set. wp_assert by (by apply Z.ltb_lt). wp_steps. destruct (Z.eqb_spec (Z.land cause LAMEBUS_IRQ_BIT) 0); [done|]. cbn [negb].
  apply wp_on_k, wp_faults with safe; [|done].
  eapply wp_mono; [apply (interrupt_t _ k)| |done].
  - apply kst_set_cpu; [done| |done]. destruct Hr as [[H1 H2 H3] H4]. split; [by split|done].
  - change (0 < curspl (cpu_of (set_cpu (with_in_interrupt 1 (cpu_of s)) s.1))). rewrite cpu_of_set. done.
  - intros [] t (Hct & k' & Hk' & Hcur'). wp_steps.
    change (cpu_of t = cpu_of (set_cpu (with_in_interrupt 1 (cpu_of s)) s.1)) in Hct. rewrite cpu_of_set in Hct.
    assert (with_in_interrupt (in_interrupt (cpu_of s)) (cpu_of t) = cpu_of s) as Hback by (rewrite Hct; by destruct (cpu_of s)).
    change (Q tt (set_cpu (with_in_interrupt (in_interrupt (cpu_of s)) (cpu_of t)) t, s.2)). rewrite Hback.
    apply (HQ _ k'); [by rewrite cpu_of_set| |done].
    apply kst_set_cpu; [done|done|congruence].
Qed.

(** ** System calls *)

(** The trap of a system call: [dispatch] runs in the context of the caller. *)
Lemma trap_syscall_ok F s k tfp tf (Q : option trapframe → PS S → Prop) E :
  kst s.1 k → on_stack (stk (kv_cur k)) tfp → trap_code tf = EX_SYS → curspl (cpu_of s) = 0 →
  wp F (dispatch junk fuel child_fork_addr tf) s
    (λ r s', match r with
       | None => Q None s'
       | Some (ret, err) => cpu_of s' = cpu_of s ∧ Q (Some (syscall_return tf ret err)) (entered s')
       end) E →
  wp F (mips_trap junk fuel child_fork_addr tfp tf) (entered s) Q E.
Proof.
  intros Hk Hst Hcode Hspl Hd. destruct (kst_cur _ _ Hk) as [[Hwf _] _]. change (cpu_of s.1) with (cpu_of s) in *.
  eapply mips_trap_ok; [exact Hk|exact Hst|by rewrite Hcode|]. unfold handle_trap. rewrite Hcode. cbn [Z.eqb EX_IRQ EX_SYS Pos.eqb].
  wp_steps. apply splx_back; [done|]. intros _. unfold mips_syscall, get_curspl.
  wp_assert by lia. wp_assert by lia. wp_steps.
  eapply wp_mono; [exact Hd| |done]. intros [[ret err]|] s' Hr; [|by wp_steps]. destruct Hr as [Hc HQ].
  wp_assert by (rewrite Hc; lia). wp_steps. rewrite Hc. split; [done|]. by rewrite <- Hc, set_cpu_of.
Qed.

Lemma dispatch_write tf :
  tf_v0 tf = SYS_write →
  dispatch junk fuel child_fork_addr tf =
    (r ← sys_write (s32 (tf_a0 tf)) (tf_a1 tf) (tf_a2 tf); mret (Some r)).
Proof. intros Hv0. unfold dispatch. rewrite Hv0. reflexivity. Qed.

(** C22: While kernel memory lasts, a [write] system call from the trap to the return: the
    handle, the buffer and the length come from the registers, the length below 2^31 and
    the position of the file with it; the file moves on as [sys_write] says, a successful
    call puts the number of bytes in v0 and 0 in a3, a failed one the error number and 1;
    the program counter moves behind the call, every other register and the processor are
    as the caller left them. The locks are free again, the threads, processes and
    condition variables are as before, and every heap block and open vnode is one of a
    file, a process or somebody else. *)
Theorem trap_write `{!MemoryLasts S} s k rest O pid p x tfp tf :
  here s k pid p x → files_ok k s.2 rest O → room s.2 x (s32 (tf_a0 tf)) (tf_a2 tf) →
  on_stack (stk (kv_cur k)) tfp → trap_code tf = EX_SYS → tf_v0 tf = SYS_write → curspl (cpu_of s) = 0 →
  wp safe_oom (mips_trap junk fuel child_fork_addr tfp tf) (entered s)
    (λ r s', ∃ ret err s1 k1,
       r = Some (set_epc (u32 (tf_epc tf + 4))
             (if err =? 0 then set_result (u32 ret) 0 tf else set_result (u32 err) 1 tf)) ∧
       s' = entered s1 ∧ cpu_of s1 = cpu_of s ∧
       (let i := s32 (tf_a0 tf) in
        rw_result k s.2 p x i (tf_a1 tf) (tf_a2 tf) (i =? 0) ((i =? 1) || (i =? 2)) O_RDONLY (ret, err) s1.2) ∧
       kst s1.1 k1 ∧ same_but_files k k1 ∧ files_ok k1 s1.2 rest O) noerr.
Proof.
  intros Hh Hfo [Hn Hpos] Hst Hcode Hv0 Hspl. eapply trap_syscall_ok; [apply Hh|done|done|done|].
  rewrite dispatch_write by done. wp_steps.
  eapply wp_mono; [by apply (sys_write_ok s k rest O pid p x (s32 (tf_a0 tf)) (tf_a1 tf) (tf_a2 tf))| |done].
  intros [ret err] s' (Hc & (k1 & Hk1 & Hs1 & Hfo1) & Hr). wp_steps. split; [exact Hc|]. exists ret, err, s', k1.
  split; [unfold syscall_return; by destruct (err =? 0)|]. done.
Qed.

(** A system call with an unknown number changes nothing and returns [ENOSYS]. *)
Theorem trap_enosys s k tfp tf :
  kst s.1 k → on_stack (stk (kv_cur k)) tfp → trap_code tf = EX_SYS → curspl (cpu_of s) = 0 →
  s32 (tf_v0 tf) ∉ [SYS__exit; SYS_execv; SYS_fork; SYS_waitpid; SYS_open; SYS_read; SYS_write; SYS_close; SYS_reboot; SYS_getpid] →
  wp safe (mips_trap junk fuel child_fork_addr tfp tf) (entered s)
    (λ r s', r = Some (set_epc (u32 (tf_epc tf + 4)) (set_result ENOSYS 1 tf)) ∧ s' = entered s) noerr.
Proof.
  intros Hk Hst Hcode Hspl Hno. eapply trap_syscall_ok; [done..|]. rewrite !not_elem_of_cons in Hno.
  unfold dispatch. cbv zeta. repeat match goal with |- context [?a =? ?b] => destruct (Z.eqb_spec a b); [naive_solver|] end.
  wp_steps. done.
Qed.

(** ** Faults *)

(** Does [vm_fault] repair a trap of this code? *)
Definition repaired (t : S) code vaddr : bool :=
  if code =? EX_MOD then repairs t VM_FAULT_READONLY vaddr
  else if code =? EX_TLBL then repairs t VM_FAULT_READ vaddr
  else if code =? EX_TLBS then repairs t VM_FAULT_WRITE vaddr
  else false.

(** Neither an interrupt nor a system call nor a bus error *)
Definition is_fault code : Prop := code ∉ [EX_IRQ; EX_IBE; EX_DBE; EX_SYS] ∧ code < NTRAPCODES.

Lemma fault_repaired_ok s k code vaddr :
  kst s.1 k → is_fault code →
  wp safe_oom (fault_repaired code vaddr) s
    (λ b s', b = repaired s.1 code vaddr ∧
       (cpu_of s' = cpu_of s ∨ b = false ∧ cpu_of s' = spl_set SPL_HIGH (cpu_of s)) ∧
       bad s'.1 = bad s.1 ∧ kst s'.1 k ∧ s'.2 = s.2) noerr.
Proof.
  intros Hk [Hno _]. rewrite !not_elem_of_cons in Hno. unfold fault_repaired, repaired.
  assert (∀ t, wp safe_oom (r ← on_k (vm_fault t vaddr); mret (r =? 0)) s
    (λ b s', b = repairs s.1 t vaddr ∧
       (cpu_of s' = cpu_of s ∨ b = false ∧ cpu_of s' = spl_set SPL_HIGH (cpu_of s)) ∧
       bad s'.1 = bad s.1 ∧ kst s'.1 k ∧ s'.2 = s.2) noerr) as Hf.
  { intros t. wp_steps. apply wp_on_k. eapply wp_mono; [apply (vm_fault_t s.1 k t vaddr Hk)| |done].
    intros r t' (Hr & Hc & Hb & Hk'). wp_steps. split; [done|]. split; [|done].
    destruct Hc as [|[Hr0 Hc]]; [by left|right]. split; [by apply Z.eqb_neq|done]. }
  destruct (code =? EX_MOD); [apply Hf|]. destruct (code =? EX_TLBL); [apply Hf|]. destruct (code =? EX_TLBS); [apply Hf|].
  destruct (Z.eqb_spec code EX_IBE); [naive_solver|]. destruct (Z.eqb_spec code EX_DBE); [naive_solver|].
  cbn [orb]. wp_steps. split; [done|]. split; [by left|done].
Qed.

Lemma handle_fault_ok s k tf (Q : option trapframe → PS S → Prop) :
  kst s.1 k → is_fault (trap_code tf) →
  (∀ s', spl_set SPL_HIGH (cpu_of s') = spl_set SPL_HIGH (cpu_of s) → bad s'.1 = bad s.1 → kst s'.1 k → s'.2 = s.2 →
     if repaired s.1 (trap_code tf) (tf_vaddr tf) then Q (Some tf) s'
     else wp safe_oom (fatal_fault tf (trap_code tf) (in_kernel tf)) s' Q noerr) →
  wp safe_oom (handle_trap junk fuel child_fork_addr tf (trap_code tf) (in_kernel tf) (curspl (cpu_of s)))
    (set_cpu (spl_set SPL_HIGH (cpu_of s)) s) Q noerr.
Proof.
  intros Hk Hf HQ. destruct (kst_cur _ _ Hk) as [[Hwf _] _]. change (cpu_of s.1) with (cpu_of s) in *.
  pose proof Hf as [Hno _]. rewrite !not_elem_of_cons in Hno. unfold handle_trap.
  destruct (Z.eqb_spec (trap_code tf) EX_IRQ); [naive_solver|]. wp_steps. apply splx_back; [done|]. intros _.
  destruct (Z.eqb_spec (trap_code tf) EX_SYS); [naive_solver|]. wp_steps.
  eapply wp_mono; [by apply (fault_repaired_ok s k)| |done]. intros b s' (-> & Hc & Hb & Hk' & Hy).
  assert (spl_set SPL_HIGH (cpu_of s') = spl_set SPL_HIGH (cpu_of s)) as Hc' by (destruct Hc as [-> |[_ ->]]; [done|apply spl_high_twice]).
  specialize (HQ s' Hc' Hb Hk' Hy). destruct (repaired _ _ _); [by wp_steps|done].
Qed.

(** C23: A fault of user or kernel code. When [vm_fault] repairs it the trap returns to
    the instruction that faulted with every register as it was; when it does not and the
    kernel was accessing user memory, the trap returns to the address in
    [pcb_badfaultfunc] instead. In both cases the level and the interrupt flag are those
    of the interrupted context, and the process tables are unchanged. *)
Theorem trap_fault s k tfp tf :
  kst s.1 k → on_stack (stk (kv_cur k)) tfp → is_fault (trap_code tf) →
  repaired s.1 (trap_code tf) (tf_vaddr tf) = true ∨ in_kernel tf = true ∧ bad s.1 ≠ 0 →
  wp safe_oom (mips_trap junk fuel child_fork_addr tfp tf) (entered s)
    (λ r s', r = Some (if repaired s.1 (trap_code tf) (tf_vaddr tf) then tf else set_epc (bad s.1) tf) ∧
       cpu_of s' = cpu_of (entered s) ∧ s'.2 = s.2) noerr.
Proof.
  intros Hk Hst Hf Hor. eapply mips_trap_ok; [done|done|apply Hf|]. eapply handle_fault_ok; [done|done|].
  intros s' Hc Hb Hk' Hy. destruct (repaired _ _ _).
  - split; [done|]. split; [done|]. unfold entered. rewrite !cpu_of_set. done.
  - destruct Hor as [?|[Hkern Hbad]]; [done|]. unfold fatal_fault, get_curthread. rewrite Hkern. cbn [negb]. wp_steps.
    destruct (kst_cur _ _ Hk') as [[_ Hc0] Hcur]. change (cpu_of s'.1) with (cpu_of s') in *. rewrite Hcur.
    destruct (Z.eqb_spec (kv_cur k) 0); [congruence|]. apply wp_on_k, wp_faults with safe; [|done].
    eapply wp_mono; [apply (badfaultfunc_t _ _ Hk')| |done]. intros r t [-> ->]. rewrite Hb.
    destruct (Z.eqb_spec (bad s.1) 0); [done|]. cbn [negb]. wp_steps. change (cpu_of (s'.1, s'.2)) with (cpu_of s').
    split; [done|]. split; [done|]. unfold entered. rewrite !cpu_of_set. done.
Qed.

(** C24: A fault of user code that cannot be repaired ends the process, and nothing else:
    its exit code is the code of the trap, its files are closed, and its parent is woken
    up; the trap does not return to the process. *)
Theorem trap_kills s k rest O pid p x tfp tf :
  here s k pid p x → files_ok k s.2 rest ({[+ kv_exec k +]} ⊎ O) → p ≠ 0 →
  kv_locks k !! p_exitlock x = Some 0 → p_exitcv x ∈ kv_cvs k → p_exitlock x ≠ process_lock s.2 →
  on_stack (stk (kv_cur k)) tfp → is_fault (trap_code tf) → in_kernel tf = false →
  repaired s.1 (trap_code tf) (tf_vaddr tf) = false →
  wp safe_oom (mips_trap junk fuel child_fork_addr tfp tf) (entered s)
    (λ r s', r = None ∧ s'.2 = exited (trap_code tf) p x s.2) noerr.
Proof.
  intros Hh Hfo Hp0 Hel Hcv Hne Hst Hf Hu Hr. pose proof (h_kst _ _ _ _ _ Hh) as Hk.
  eapply mips_trap_ok; [exact Hk|done|apply Hf|]. eapply handle_fault_ok; [exact Hk|done|].
  intros s' Hc Hb Hk' Hy. rewrite Hr. unfold fatal_fault, kill_curthread, sys__exit. rewrite Hu. cbn [negb].
  wp_assert by (destruct Hf; lia). wp_steps.
  eapply wp_mono; [eapply (exit_process_ok _ s' k rest O pid p x)| |done]; try (rewrite Hy; done); try done.
  - destruct Hh. split; rewrite ?Hy; done.
  - intros _ s2 (Hc2 & Hy2 & k2 & Hk2 & _). wp_steps. apply wp_on_k, wp_faults with safe; [|done].
    eapply wp_mono; [apply (thread_exit_t _ _ Hk2)| |done]. intros [] t _. wp_steps. split; [done|]. cbn. by rewrite Hy2, Hy.
Qed.
End trap.

(** ** Traps: concrete states

    The operations of Trap.v for the kernel of SimpleKernel.v, and trap frames that the
    theorems of TrapProof.v apply to. *)


(** Faults below 0x80000000 are repaired; every thread has the same kernel stack. *)
#[global] Instance ex_trap_ops : TrapOps SimpleKernel.t := {|
  vm_fault _ v := mret (if v <? 0x80000000 then 0 else EFAULT);
  mips_lamebus_interrupt := mret tt;
  t_stack _ := mret 0x80040000;
  pcb_badfaultfunc _ := mret 0x80001000;
  curkstack := mret 0x80041000;
  sys_reboot _ := mret EINVAL;
  sys_execv _ _ := mret ENOMEM;
|}.

#[global] Instance ex_trap_laws : TrapLaws SimpleKernel.t.
Proof.
  refine {| stk _ := 0x80040000; bad _ := 0x80001000; repairs _ _ v := v <? 0x80000000 |}; try done.
  - intros c s k [Hv Hc Hcu Hn H0 Hf] Hr Hcur. by split.
  - intros s k tp v Hs. cbn. wp_steps. split; [by destruct (v <? 2147483648)|]. split; [by left|done].
  - intros s k Hs Hspl. cbn. wp_steps. split; [done|]. by exists k.
  - intros s k [Hv Hc Hcu Hn H0 Hf]. cbn. unfold SimpleKernel.to_first. wp_steps. eexists. split; cbn; try done.
    + destruct Hc as [[]]. by split.
    + rewrite Hv. done.
    + rewrite Hv. done.
Defined.

(** [write(3, 0x10000000, 10)]; a load from user and from kernel mode *)
Definition ex_write : trapframe := MkTf 0 0x8 (8 * 4) SYS_write 3 0x10000000 10 0 0 0x400100 [].
Definition ex_call : trapframe := MkTf 0 0x8 (8 * 4) 99 3 0x10000000 10 0 0 0x400100 [].
Definition ex_load (vaddr status : Z) : trapframe := MkTf vaddr status (2 * 4) 1 2 3 4 5 0 0x400100 [].

Lemma ex_on_stack : on_stack 0x80040000 0x80040f00.
Proof. unfold on_stack, STACK_SIZE. split_and!; [lia|lia|by vm_compute|lia|lia]. Qed.

Lemma trap_write_witness :
  wp safe_oom (mips_trap ex_x 0 5000 0x80040f00 ex_write) (entered (ex_s 1 1))
    (λ r s', ∃ tf, r = Some tf ∧ tf_epc tf = 0x400104) noerr.
Proof.
  eapply wp_mono; [apply (trap_write ex_x 0 5000 (ex_s 1 1) (ex_k 1 1) ∅ {[+ 7 +]} 1 20 ex_x 0x80040f00 ex_write);
    [by apply ex_here|apply ex_files|apply ex_room|apply ex_on_stack|done|done|done]| |done].
  intros r s' (ret & err & s1 & k1 & Hr & _). eexists. split; [exact Hr|]. by destruct (err =? 0).
Defined.

Lemma trap_enosys_witness :
  wp safe (mips_trap ex_x 0 5000 0x80040f00 ex_call) (entered (ex_s 1 1))
    (λ r s', r = Some (set_epc 0x400104 (set_result ENOSYS 1 ex_call)) ∧ s' = entered (ex_s 1 1)) noerr.
Proof.
  apply (trap_enosys ex_x 0 5000 (ex_s 1 1) (ex_k 1 1) 0x80040f00 ex_call); [by apply ex_kst|apply ex_on_stack|done|done|].
  by apply (bool_decide_unpack (99 ∉ [0; 1; 2; 3; 4; 5; 6; 7; 8; 11])).
Defined.

Lemma ex_is_fault v st : is_fault (trap_code (ex_load v st)).
Proof. split; [|done]. by apply (bool_decide_unpack (2 ∉ [0; 6; 7; 8])). Qed.

Lemma trap_fault_witness :
  wp safe_oom (mips_trap ex_x 0 5000 0x80040f00 (ex_load 0x10000000 0x8)) (entered (ex_s 1 1))
    (λ r s', r = Some (ex_load 0x10000000 0x8) ∧ s'.2 = ex_y) noerr ∧
  wp safe_oom (mips_trap ex_x 0 5000 0x80040f00 (ex_load 0x90000000 0)) (entered (ex_s 1 1))
    (λ r s', r = Some (set_epc 0x80001000 (ex_load 0x90000000 0)) ∧ s'.2 = ex_y) noerr.
Proof.
  split.
  - eapply wp_mono; [apply (trap_fault ex_x 0 5000 (ex_s 1 1) (ex_k 1 1) 0x80040f00 (ex_load 0x10000000 0x8));
      [by apply ex_kst|apply ex_on_stack|apply ex_is_fault|by left]| |done]. intros r s' (Hr & _ & Hy). split; [exact Hr|exact Hy].
  - eapply wp_mono; [apply (trap_fault ex_x 0 5000 (ex_s 1 1) (ex_k 1 1) 0x80040f00 (ex_load 0x90000000 0));
      [by apply ex_kst|apply ex_on_stack|apply ex_is_fault|by right]| |done]. intros r s' (Hr & _ & Hy). split; [exact Hr|exact Hy].
Defined.

Lemma trap_kills_witness :
  wp safe_oom (mips_trap ex_x 0 5000 0x80040f00 (ex_load 0x90000000 0x8)) (entered (ex_s 1 1))
    (λ r s', r = None ∧ s'.2 = exited 2 20 ex_x ex_y) noerr.
Proof.
  apply (trap_kills ex_x 0 5000 (ex_s 1 1) (ex_k 1 1) ∅ ∅ 1 20 ex_x 0x80040f00 (ex_load 0x90000000 0x8));
    [by apply ex_here| |done|done|set_solver|done|apply ex_on_stack|apply ex_is_fault|done|done].
  rewrite gmultiset_disj_union_right_id. apply ex_files.
Defined.
