(* ===== verification/SfsData.v ===== *)
(** * SFS: what is on the disk

    Model of kern/include/kern/sfs.h: the superblock, the inode and the directory entry,
    with their layout in a block. The machine is big-endian. A block is a list of
    [SFS_BLOCKSIZE] bytes. [peek] and [poke] are the accesses of the kernel to a
    structure in its memory. *)

From Stdlib Require Import ZArith Lia.
From stdpp Require Import base list gmap numbers.
From S2P Require Import Prelude CopyInOut.

Local Open Scope Z_scope.

Definition SFS_MAGIC : Z := 0xabadf001.
Definition SFS_BLOCKSIZE : Z := 512.
Definition SFS_VOLNAME_SIZE : Z := 32.
Definition SFS_NDIRECT : Z := 15.
Definition SFS_DBPERIDB : Z := 128.
Definition SFS_NAMELEN : Z := 60.
Definition SFS_SB_LOCATION : Z := 0.
Definition SFS_ROOT_LOCATION : Z := 1.
Definition SFS_MAP_LOCATION : Z := 2.
Definition SFS_NOINO : Z := 0.
Definition SFS_BLOCKBITS : Z := SFS_BLOCKSIZE * 8.
Definition SFS_ROUNDUP (a b : Z) : Z := u32 (u32 (a + b - 1) / b * b).
Definition SFS_BITMAPSIZE (nblocks : Z) : Z := SFS_ROUNDUP nblocks SFS_BLOCKBITS.
Definition SFS_BITBLOCKS (nblocks : Z) : Z := SFS_BITMAPSIZE nblocks / SFS_BLOCKBITS.
Definition SFS_TYPE_INVAL : Z := 0.
Definition SFS_TYPE_FILE : Z := 1.
Definition SFS_TYPE_DIR : Z := 2.

Record sfs_super := MkSuper {
  sp_magic : Z;
  sp_nblocks : Z;
  sp_volname : list Z;
  sp_reserved : list Z;
}.

Record sfs_inode := MkInode {
  sfi_size : Z;
  sfi_type : Z;
  sfi_linkcount : Z;
  sfi_direct : list Z;
  sfi_indirect : Z;
  sfi_waste : list Z;
}.

Record sfs_dir := MkDir {
  sfd_ino : Z;
  sfd_name : list Z;
}.

(** [sizeof(struct sfs_dir)] *)
Definition sizeof_sfs_dir : Z := 4 + SFS_NAMELEN.

(** ** Words and bytes *)

Definition be32 (w : Z) : list Z :=
  [(w / 2 ^ 24) `mod` 2 ^ 8; (w / 2 ^ 16) `mod` 2 ^ 8; (w / 2 ^ 8) `mod` 2 ^ 8; w `mod` 2 ^ 8].

Definition word32 (b0 b1 b2 b3 : Z) : Z := ((b0 * 2 ^ 8 + b1) * 2 ^ 8 + b2) * 2 ^ 8 + b3.

Definition bytes_of (ws : list Z) : list Z := ws ≫= be32.

Fixpoint words_of (bs : list Z) : list Z :=
  match bs with
  | b0 :: b1 :: b2 :: b3 :: bs => word32 b0 b1 b2 b3 :: words_of bs
  | _ => []
  end.

(** ** The structures in a block *)

(** Two 16-bit fields share a word. *)
Definition inode_words (i : sfs_inode) : list Z :=
  sfi_size i :: sfi_type i * 2 ^ 16 + sfi_linkcount i :: sfi_direct i ++ sfi_indirect i :: sfi_waste i.
Definition inode_of_words (ws : list Z) : sfs_inode :=
  let at_ (n : nat) := default 0 (ws !! n) in
  MkInode (at_ 0%nat) (at_ 1%nat / 2 ^ 16) (at_ 1%nat `mod` 2 ^ 16)
    (take 15 (drop 2 ws)) (at_ 17%nat) (drop 18 ws).

Definition inode_bytes (i : sfs_inode) : list Z := bytes_of (inode_words i).
Definition inode_of (bs : list Z) : sfs_inode := inode_of_words (words_of bs).

Definition super_bytes (p : sfs_super) : list Z :=
  be32 (sp_magic p) ++ be32 (sp_nblocks p) ++ sp_volname p ++ bytes_of (sp_reserved p).
Definition super_of (bs : list Z) : sfs_super :=
  let at_ (n : nat) := default 0 (words_of (take 8 bs) !! n) in
  MkSuper (at_ 0%nat) (at_ 1%nat) (take 32 (drop 8 bs)) (words_of (drop 40 bs)).

Definition dir_bytes (d : sfs_dir) : list Z := be32 (sfd_ino d) ++ sfd_name d.
Definition dir_of (bs : list Z) : sfs_dir :=
  MkDir (default 0 (words_of (take 4 bs) !! 0%nat)) (drop 4 bs).

(** The string in an array of characters *)
Fixpoint cstring (l : list Z) : list Z :=
  match l with
  | [] => []
  | c :: l => if c =? 0 then [] else c :: cstring l
  end.

(** [bzero(buf)] and [strcpy(buf, name)], for a buffer of [n] characters *)
Definition padded (n : Z) (name : list Z) : list Z :=
  name ++ replicate (Z.to_nat n - length name) 0.

(** ** Structures in memory *)

Definition peek (a n : Z) (c : copystate) : list Z := (λ k, u8 (bytes c (a + k))) <$> seqZ 0 n.
Definition poke (a : Z) (bs : list Z) (c : copystate) : copystate :=
  MkCopy (λ x, if (a <=? x) && (x <? a + Z.of_nat (length bs))
               then default 0 (zlookup bs (x - a)) else bytes c x)
         (badfaultfunc c).

(** ** Lemmas *)

Definition is_byte (b : Z) : Prop := 0 ≤ b < 2 ^ 8.

Record inode_wf (i : sfs_inode) : Prop := {
  iw_size : is_u32 (sfi_size i);
  iw_type : 0 ≤ sfi_type i < 2 ^ 16;
  iw_links : 0 ≤ sfi_linkcount i < 2 ^ 16;
  iw_direct : length (sfi_direct i) = 15%nat;
  iw_direct_u32 : Forall is_u32 (sfi_direct i);
  iw_indirect : is_u32 (sfi_indirect i);
  iw_waste : length (sfi_waste i) = 110%nat;
  iw_waste_u32 : Forall is_u32 (sfi_waste i);
}.

Lemma length_be32 w : length (be32 w) = 4%nat.
Proof. done. Qed.

Lemma be32_bytes w : Forall is_byte (be32 w).
Proof. unfold be32. rewrite !list.Forall_cons, list.Forall_nil. unfold is_byte.
  split_and!; try done; apply Z.mod_pos_bound; lia. Qed.

Lemma word32_range b0 b1 b2 b3 :
  is_byte b0 → is_byte b1 → is_byte b2 → is_byte b3 → is_u32 (word32 b0 b1 b2 b3).
Proof. unfold is_byte, is_u32, word32. lia. Qed.

Lemma word32_be32 w :
  is_u32 w → word32 ((w / 2 ^ 24) `mod` 2 ^ 8) ((w / 2 ^ 16) `mod` 2 ^ 8) ((w / 2 ^ 8) `mod` 2 ^ 8)
    (w `mod` 2 ^ 8) = w.
Proof. unfold is_u32, word32. intros. Z.div_mod_to_equations. lia. Qed.

Lemma be32_word32 b0 b1 b2 b3 :
  is_byte b0 → is_byte b1 → is_byte b2 → is_byte b3 →
  be32 (word32 b0 b1 b2 b3) = [b0; b1; b2; b3].
Proof.
  unfold is_byte, be32, word32. intros. repeat f_equal; Z.div_mod_to_equations; lia.
Qed.

Lemma length_bytes_of ws : length (bytes_of ws) = (4 * length ws)%nat.
Proof. induction ws as [|w ws IH]; [done|]. unfold bytes_of in *. cbn. lia. Qed.

Lemma bytes_of_bytes ws : Forall is_byte (bytes_of ws).
Proof.
  induction ws as [|w ws IH]; [constructor|]. unfold bytes_of in *. cbn [mbind list_bind].
  apply Forall_app. split; [apply be32_bytes|done].
Qed.

Lemma bytes_of_app ws ws' : bytes_of (ws ++ ws') = bytes_of ws ++ bytes_of ws'.
Proof. apply bind_app. Qed.

Lemma words_of_bytes_of ws bs :
  Forall is_u32 ws → words_of (bytes_of ws ++ bs) = ws ++ words_of bs.
Proof.
  induction 1 as [|w ws Hw _ IH]; [done|]. unfold bytes_of in *. cbn. by rewrite IH, word32_be32.
Qed.

Lemma words_bytes ws : Forall is_u32 ws → words_of (bytes_of ws) = ws.
Proof. intros. rewrite <- (app_nil_r (bytes_of ws)), words_of_bytes_of by done. apply app_nil_r. Qed.

Lemma length_words_of n bs : length bs = (4 * n)%nat → length (words_of bs) = n.
Proof.
  revert bs. induction n as [|n IH]; intros bs Hbs.
  - by destruct bs.
  - destruct bs as [|b0 [|b1 [|b2 [|b3 bs]]]]; cbn in Hbs; try lia. cbn. f_equal. apply IH. lia.
Qed.

Lemma bytes_words n bs :
  length bs = (4 * n)%nat → Forall is_byte bs → bytes_of (words_of bs) = bs.
Proof.
  revert bs. induction n as [|n IH]; intros bs Hl Hbs.
  - by destruct bs.
  - destruct bs as [|b0 [|b1 [|b2 [|b3 bs]]]]; cbn in Hl; try lia.
    rewrite !list.Forall_cons in Hbs. destruct Hbs as (?&?&?&?&Hbs).
    cbn [words_of]. unfold bytes_of. cbn [mbind list_bind]. rewrite be32_word32 by done.
    cbn. do 4 f_equal. apply IH; [lia|done].
Qed.

Lemma words_of_u32 bs : Forall is_byte bs → Forall is_u32 (words_of bs).
Proof.
  revert bs. fix IH 1. intros bs Hbs. destruct bs as [|b0 [|b1 [|b2 [|b3 bs]]]]; try constructor.
  - rewrite !list.Forall_cons in Hbs. apply word32_range; naive_solver.
  - apply IH. rewrite !list.Forall_cons in Hbs. naive_solver.
Qed.

(** A structure read from a block written from it *)
Lemma inode_words_u32 i : inode_wf i → Forall is_u32 (inode_words i).
Proof.
  intros []. unfold inode_words. rewrite !list.Forall_cons, list.Forall_app, list.Forall_cons.
  split_and!; try done; unfold is_u32; lia.
Qed.

Lemma length_inode_words i : inode_wf i → length (inode_words i) = 128%nat.
Proof. intros []. unfold inode_words. cbn. rewrite length_app. cbn. lia. Qed.

Lemma length_inode_bytes i : inode_wf i → length (inode_bytes i) = 512%nat.
Proof. intros. unfold inode_bytes. by rewrite length_bytes_of, length_inode_words. Qed.

Lemma inode_of_words_inv i : inode_wf i → inode_of_words (inode_words i) = i.
Proof.
  intros Hi. destruct i as [sz ty lc dir ind waste]. destruct Hi. cbn in *.
  unfold inode_of_words, inode_words. cbn [sfi_size sfi_type sfi_linkcount sfi_direct sfi_indirect sfi_waste].
  set (l := dir ++ ind :: waste).
  change (drop 2 (sz :: ty * 2 ^ 16 + lc :: l)) with l.
  change (drop 18 (sz :: ty * 2 ^ 16 + lc :: l)) with (drop 16 l).
  change ((sz :: ty * 2 ^ 16 + lc :: l) !! 17%nat) with (l !! 15%nat). cbn [lookup list_lookup default].
  unfold l. rewrite take_app_length', lookup_app_r, drop_app_ge, iw_direct0 by lia. cbn.
  f_equal; Z.div_mod_to_equations; lia.
Qed.

Lemma inode_of_bytes i : inode_wf i → inode_of (inode_bytes i) = i.
Proof.
  intros Hi. unfold inode_of, inode_bytes. rewrite words_bytes by (by apply inode_words_u32).
  by apply inode_of_words_inv.
Qed.

(** Every block of bytes is an inode. *)
Lemma inode_of_wf bs : length bs = 512%nat → Forall is_byte bs → inode_wf (inode_of bs).
Proof.
  intros Hl Hb. unfold inode_of. pose proof (length_words_of 128 bs Hl) as Hw.
  pose proof (words_of_u32 bs Hb) as Hu. generalize dependent (words_of bs). intros ws Hw Hu.
  assert (∀ n, is_u32 (default 0 (ws !! n))) as Hat.
  { intros n. destruct (ws !! n) eqn:Hn; cbn; [by eapply Forall_lookup_1|unfold is_u32; lia]. }
  split; cbn.
  - apply Hat.
  - pose proof (Hat 1%nat). unfold is_u32 in *. Z.div_mod_to_equations; lia.
  - apply Z.mod_pos_bound. lia.
  - rewrite length_take, length_drop. lia.
  - by apply Forall_take, Forall_drop.
  - apply Hat.
  - rewrite length_drop. lia.
  - by apply Forall_drop.
Qed.

Lemma inode_bytes_of bs :
  length bs = 512%nat → Forall is_byte bs → inode_bytes (inode_of bs) = bs.
Proof.
  intros Hl Hb. unfold inode_of, inode_bytes. rewrite <- (bytes_words 128 bs) at 2 by done. f_equal.
  pose proof (length_words_of 128 bs Hl) as Hw. pose proof (words_of_u32 bs Hb) as Hu.
  generalize dependent (words_of bs). intros ws Hw Hu.
  destruct ws as [|w0 [|w1 ws]]; cbn in Hw; try lia. rewrite !list.Forall_cons in Hu.
  destruct Hu as (_ & Hw1 & _). unfold inode_words, inode_of_words.
  change (drop 2 (w0 :: w1 :: ws)) with ws. change (drop 18 (w0 :: w1 :: ws)) with (drop 16 ws).
  change ((w0 :: w1 :: ws) !! 17%nat) with (ws !! 15%nat).
  destruct (ws !! 15%nat) as [x|] eqn:Hx; [|apply lookup_ge_None in Hx; lia].
  cbn [sfi_size sfi_type sfi_linkcount sfi_direct sfi_indirect sfi_waste default from_option].
  rewrite take_drop_middle by done. cbn. do 2 f_equal. unfold is_u32 in Hw1.
  Z.div_mod_to_equations; lia.
Qed.

Lemma dir_of_bytes d : is_u32 (sfd_ino d) → dir_of (dir_bytes d) = d.
Proof.
  destruct d as [ino name]. intros Hi. unfold dir_of, dir_bytes. cbn [sfd_ino sfd_name].
  rewrite take_app_length', drop_app_length' by done.
  change (be32 ino) with (bytes_of [ino]). rewrite words_bytes by (rewrite ?list.Forall_cons, list.Forall_nil; done). done.
Qed.

Record super_wf (p : sfs_super) : Prop := {
  pw_magic : is_u32 (sp_magic p);
  pw_nblocks : is_u32 (sp_nblocks p);
  pw_volname : length (sp_volname p) = 32%nat;
  pw_reserved : Forall is_u32 (sp_reserved p);
}.

Lemma super_of_bytes p : super_wf p → super_of (super_bytes p) = p.
Proof.
  destruct p as [mg nb vol res]. intros [Hmg Hnb Hvol Hres]. cbn in Hmg, Hnb, Hvol, Hres. unfold super_of, super_bytes.
  cbn [sp_magic sp_nblocks sp_volname sp_reserved].
  change (be32 mg ++ be32 nb ++ vol ++ bytes_of res)
    with (bytes_of [mg; nb] ++ vol ++ bytes_of res).
  cbv beta zeta. set (hd := bytes_of [mg; nb]). assert (length hd = 8%nat) as Hhd by done.
  rewrite (take_app_length' hd), (drop_app_length' hd), (take_app_length' vol) by done.
  rewrite (assoc_L (++)), (drop_app_length' (hd ++ vol)) by (rewrite length_app; lia).
  unfold hd. rewrite !words_bytes by (rewrite ?list.Forall_cons, ?list.Forall_nil; done). done.
Qed.

(** Strings *)
Lemma cstring_app_zeros name k :
  Forall (λ c, c ≠ 0) name → cstring (name ++ replicate k 0) = name.
Proof.
  induction 1 as [|c name Hc _ IH]; cbn; [by destruct k|].
  destruct (Z.eqb_spec c 0); [done|]. by rewrite IH.
Qed.

Lemma cstring_padded n name : Forall (λ c, c ≠ 0) name → cstring (padded n name) = name.
Proof. apply cstring_app_zeros. Qed.

Lemma length_padded n name :
  (length name ≤ Z.to_nat n)%nat → length (padded n name) = Z.to_nat n.
Proof. intros. unfold padded. rewrite length_app, length_replicate. lia. Qed.

(** Memory *)
Lemma length_peek a n c : 0 ≤ n → length (peek a n c) = Z.to_nat n.
Proof. intros. unfold peek. by rewrite length_fmap, length_seqZ. Qed.

Lemma peek_bytes a n c : Forall is_byte (peek a n c).
Proof. apply Forall_fmap, Forall_true. intros k. apply Z.mod_pos_bound. lia. Qed.

Lemma zlookup_peek a n c k : 0 ≤ k < n → zlookup (peek a n c) k = Some (u8 (bytes c (a + k))).
Proof.
  intros Hk. unfold zlookup, peek. destruct (Z.leb_spec 0 k); [|lia].
  rewrite list_lookup_fmap, lookup_seqZ_lt by lia. cbn. do 3 f_equal. lia.
Qed.

Lemma poke_same_outside a bs c :
  same_outside a (Z.of_nat (length bs)) (bytes c) (bytes (poke a bs c)).
Proof. intros x Hx. cbn. destruct (_ && _) eqn:?; [lia|done]. Qed.

Lemma bytes_poke a bs c k x : zlookup bs k = Some x → bytes (poke a bs c) (a + k) = x.
Proof.
  intros Hk. pose proof (zlookup_lt_Some _ _ _ Hk). cbn. destruct (_ && _) eqn:?; [|lia].
  replace (a + k - a) with k by lia. by rewrite Hk.
Qed.

Lemma peek_poke a bs c : Forall is_byte bs → peek a (Z.of_nat (length bs)) (poke a bs c) = bs.
Proof.
  intros Hbs. apply zlist_eq.
  - rewrite length_peek by lia. lia.
  - rewrite length_peek by lia. intros k Hk. rewrite zlookup_peek by lia.
    destruct (zlookup_lt_is_Some bs k) as [x Hx]; [lia|]. rewrite (bytes_poke _ _ _ _ x) by done.
    rewrite Hx. f_equal. apply Z.mod_small. unfold zlookup in Hx. destruct (0 <=? k); [|done].
    by eapply (Forall_lookup_1 is_byte).
Qed.

Lemma peek_ext a n c c' :
  (∀ k, 0 ≤ k < n → bytes c' (a + k) = bytes c (a + k)) → peek a n c' = peek a n c.
Proof.
  intros Heq. unfold peek. apply list_fmap_ext. intros i k Hk.
  apply lookup_seqZ in Hk as [-> Hk]. f_equal. apply Heq. lia.
Qed.
