(* ===== verification/SfsDev.v ===== *)
(** * SFS: block I/O

    Model of kern/fs/sfs/sfs_io.c on the interface of a block device
    (kern/include/dev.h). [d_io] works on the device, the memory and the [uio], as
    [uiomove] does. The contract of a device is in terms of its blocks: [dbyte d b k]
    is byte [k] of block [b]. A device may use memory of its own, [dev_area], and may
    fail with the errors of [dev_error].

    A write may end in EIO after the device has taken the bytes: [sfs_rwblock] then tries
    again with a [uio] that has nothing left, and reports success. What the rest of SFS
    shows of writes needs a device that does not do this, [ReliableWrites]; what it shows
    of reads does not. *)

From Stdlib Require Import ZArith Lia.
From stdpp Require Import base list gmap numbers.
From S2P Require Import Prelude CopyInOut Uio SfsData.

Local Open Scope Z_scope.

Class BlockDev (D : Type) := {
  d_io : M (D * US) ();
}.

(** Addresses from [a] on, [n] of them *)
Definition range (a n x : Z) : Prop := a ≤ x < a + n.
(** Memory is the same but at the addresses of [P]. *)
Definition same_but (P : Z → Prop) (c c' : copystate) : Prop :=
  badfaultfunc c' = false ∧ ∀ x, ¬ P x → bytes c' x = bytes c x.

(** The memory of a uio, and the part of it the next [n] bytes go to *)
Definition uio_mem (u : uio) : Z → Prop := range (iov_base (uio_iovec u)) (uio_resid u).
Definition uio_next (u : uio) (n : Z) : Z → Prop := range (iov_base (uio_iovec u)) n.

Section io.
Context {D : Type} `{!BlockDev D}.

(** The loop behind [retry]; [tries] is the number of retries left. *)
Fixpoint rw_try (tries : nat) : M (D * US) () :=
  result ← try d_io;
  match result with
  | inl _ => mret tt
  | inr e =>
    if e =? EINVAL then panic
    else if e =? EIO then
      match tries with
      | S tries => rw_try tries
      | O => fail e
      end
    else fail e
  end.

Definition sfs_rwblock : M (D * US) () := rw_try 10.

(** A function with a [struct uio] of its own *)
Definition no_uio : uio := MkUio (MkIovec 0 0) 0 0 0 0 0.
Definition local_uio {A} (m : M (D * US) A) : M (D * copystate) A :=
  zoom (λ s, (s.1, (s.2, no_uio))) (λ t _, (t.1, t.2.1)) m.

Definition SFSUIO (ptr block rw : Z) : M (D * US) () :=
  zoom snd (λ us s, (s.1, us)) (mk_kuio ptr SFS_BLOCKSIZE (s32 (s32 block * SFS_BLOCKSIZE)) rw).

Definition sfs_rblock (data block : Z) : M (D * copystate) () :=
  local_uio (SFSUIO data block UIO_READ;; sfs_rwblock).
Definition sfs_wblock (data block : Z) : M (D * copystate) () :=
  local_uio (SFSUIO data block UIO_WRITE;; sfs_rwblock).
End io.

(** ** The contract of a device *)

(** A transfer of one block starts: the block is [b], and the memory it uses is not
    the device's own. *)
Record block_io (t_vmspace blocks : Z) (area : Z → Prop) (u : uio) (b rw : Z) : Prop := {
  bi_wf : uio_wf t_vmspace u;
  bi_rw : uio_rw u = rw;
  bi_offset : uio_offset u = SFS_BLOCKSIZE * b;
  bi_block : 0 ≤ b < blocks;
  bi_resid : uio_resid u = SFS_BLOCKSIZE;
  bi_apart x : uio_mem u x → ¬ area x;
}.

(** Errors of the device, and of user memory *)
Definition io_error (dev_error : Z → Prop) (u : uio) (e : Z) : Prop :=
  dev_error e ∨ e = EFAULT ∧ uio_segflg u ≠ UIO_SYSSPACE.

Class BlockDevLaws (D : Type) `{!BlockDev D} (t_vmspace : Z) := {
  dev_blocks : Z;
  dbyte : D → Z → Z → Z;
  dev_area : Z → Prop;
  dev_error : Z → Prop;
  dev_ok : D → Prop;
  dev_blocks_max : 0 ≤ dev_blocks ≤ 2 ^ 22;
  dev_error_not e : dev_error e → e ≠ 0 ∧ e ≠ EINVAL;
  d_io_read d c u b :
    dev_ok d → badfaultfunc c = false →
    block_io t_vmspace dev_blocks dev_area u b UIO_READ →
    wp safe d_io (d, (c, u))
      (λ _ s', dev_ok s'.1 ∧ (∀ b' k, dbyte s'.1 b' k = dbyte d b' k) ∧
         s'.2.2 = advance SFS_BLOCKSIZE u ∧ iov_base (uio_iovec u) + SFS_BLOCKSIZE < 2 ^ 32 ∧
         same_but (λ x, dev_area x ∨ uio_mem u x) c s'.2.1 ∧
         ∀ k, 0 ≤ k < SFS_BLOCKSIZE → bytes s'.2.1 (iov_base (uio_iovec u) + k) = dbyte d b k)
      (λ e s', io_error dev_error u e ∧
         dev_ok s'.1 ∧ (∀ b' k, dbyte s'.1 b' k = dbyte d b' k) ∧
         s'.2.2 = u ∧ same_but (λ x, dev_area x ∨ uio_mem u x) c s'.2.1);
  d_io_write d c u b :
    dev_ok d → badfaultfunc c = false →
    block_io t_vmspace dev_blocks dev_area u b UIO_WRITE →
    wp safe d_io (d, (c, u))
      (λ _ s', dev_ok s'.1 ∧
         (∀ b' k, 0 ≤ k < SFS_BLOCKSIZE →
            dbyte s'.1 b' k = if b' =? b then bytes c (iov_base (uio_iovec u) + k) else dbyte d b' k) ∧
         s'.2.2 = advance SFS_BLOCKSIZE u ∧ iov_base (uio_iovec u) + SFS_BLOCKSIZE < 2 ^ 32 ∧
         same_but dev_area c s'.2.1)
      (λ e s', io_error dev_error u e ∧
         dev_ok s'.1 ∧ (∀ b' k, b' ≠ b ∨ e ≠ EIO → dbyte s'.1 b' k = dbyte d b' k) ∧
         (s'.2.2 = u ∨ s'.2.2 = advance SFS_BLOCKSIZE u ∧
                       iov_base (uio_iovec u) + SFS_BLOCKSIZE < 2 ^ 32) ∧
         same_but dev_area c s'.2.1);
  d_io_nothing d c u b :
    dev_ok d → uio_resid u = 0 → uio_offset u = SFS_BLOCKSIZE * b → 0 ≤ b ≤ dev_blocks →
    wp safe d_io (d, (c, u)) (λ _ s', s' = (d, (c, u))) noerr;
}.

(** A device whose writes do not end in a media error *)
Class ReliableWrites (D : Type) `{!BlockDev D} (t_vmspace : Z) `{!BlockDevLaws D t_vmspace} : Prop :=
  d_io_write_media d c u b :
    dev_ok d → badfaultfunc c = false →
    block_io t_vmspace dev_blocks dev_area u b UIO_WRITE →
    wp safe d_io (d, (c, u)) (λ _ _, True) (λ e _, e ≠ EIO).

(** ** Lemmas *)

Lemma same_but_refl P c : badfaultfunc c = false → same_but P c c.
Proof. done. Qed.

Lemma same_but_trans P c c' c'' : same_but P c c' → same_but P c' c'' → same_but P c c''.
Proof. intros [_ H1] [Hb H2]. split; [done|]. intros x Hx. by rewrite H2, H1. Qed.

Lemma same_but_mono (P P' : Z → Prop) c c' :
  same_but P c c' → (∀ x, P x → P' x) → same_but P' c c'.
Proof. intros [Hb H] HP. split; [done|]. intros x Hx. apply H. eauto. Qed.

Section lemmas.
Context {D : Type} `{!BlockDev D} {t_vmspace : Z} `{HL : !BlockDevLaws D t_vmspace}.
Implicit Types (d : D) (c : copystate) (u : uio).

(** The same disk *)
Definition same_disk d d' : Prop := ∀ b k, 0 ≤ k < SFS_BLOCKSIZE → dbyte d' b k = dbyte d b k.

Lemma same_disk_refl d : same_disk d d.
Proof. done. Qed.

(** A read is tried again after [EIO], with the uio as it was. *)
Lemma rw_try_read tries d c u b (Q : () → D * US → Prop) (E : Z → D * US → Prop) :
  dev_ok d → badfaultfunc c = false → block_io t_vmspace dev_blocks dev_area u b UIO_READ →
  (∀ d' c', dev_ok d' → same_disk d d' →
     iov_base (uio_iovec u) + SFS_BLOCKSIZE < 2 ^ 32 →
     same_but (λ x, dev_area x ∨ uio_mem u x) c c' →
     (∀ k, 0 ≤ k < SFS_BLOCKSIZE → bytes c' (iov_base (uio_iovec u) + k) = dbyte d b k) →
     Q tt (d', (c', advance SFS_BLOCKSIZE u))) →
  (∀ e d' c', io_error dev_error u e → dev_ok d' → same_disk d d' →
     same_but (λ x, dev_area x ∨ uio_mem u x) c c' → E e (d', (c', u))) →
  wp safe (rw_try tries) (d, (c, u)) Q E.
Proof.
  revert d c Q E. induction tries as [|tries IH]; intros d c Q E Hd Hc Hu HQ HE;
    cbn [rw_try]; wp_steps;
    (eapply wp_mono; [by apply (d_io_read d c u b)| |]).
  1,3: intros [] [d' [c' u']] (Hd' & Hs & Hu' & Hb & Hm & Hr); cbn in Hu'; subst u';
       wp_steps; by apply HQ; [|intros ???; apply Hs|..].
  all: intros e [d' [c' u']] (He & Hd' & Hs & Hu' & Hm); cbn in Hu'; subst u'; wp_steps.
  all: assert (e ≠ EINVAL) by (destruct He as [[]%dev_error_not|[-> _]]; done).
  all: destruct (Z.eqb_spec e EINVAL); [done|].
  - destruct (e =? EIO); wp_steps; by apply HE; [..|intros ???; apply Hs|].
  - destruct (Z.eqb_spec e EIO); wp_steps; [|by apply HE; [..|intros ???; apply Hs|]].
    apply IH; [done|apply Hm|done| |].
    + intros d'' c'' Hd'' Hs'' Hb'' Hm'' Hr''. apply HQ; try done.
      * intros ???. rewrite Hs'' by done. apply Hs.
      * by eapply same_but_trans.
      * intros k Hk. rewrite Hr'' by done. apply Hs.
    + intros e' d'' c'' He'' Hd'' Hs'' Hm''. apply HE; try done.
      * intros ???. rewrite Hs'' by done. apply Hs.
      * by eapply same_but_trans.
Qed.

Lemma sfs_rwblock_read d c u b (Q : () → D * US → Prop) (E : Z → D * US → Prop) :
  dev_ok d → badfaultfunc c = false → block_io t_vmspace dev_blocks dev_area u b UIO_READ →
  (∀ d' c', dev_ok d' → same_disk d d' →
     iov_base (uio_iovec u) + SFS_BLOCKSIZE < 2 ^ 32 →
     same_but (λ x, dev_area x ∨ uio_mem u x) c c' →
     (∀ k, 0 ≤ k < SFS_BLOCKSIZE → bytes c' (iov_base (uio_iovec u) + k) = dbyte d b k) →
     Q tt (d', (c', advance SFS_BLOCKSIZE u))) →
  (∀ e d' c', io_error dev_error u e → dev_ok d' → same_disk d d' →
     same_but (λ x, dev_area x ∨ uio_mem u x) c c' → E e (d', (c', u))) →
  wp safe sfs_rwblock (d, (c, u)) Q E.
Proof. apply rw_try_read. Qed.

(** Block [b] of [d'] is the memory of [c] from [a] on; the other blocks are those of
    [d]. *)
Definition block_written (a b : Z) c d d' : Prop :=
  ∀ b' k, 0 ≤ k < SFS_BLOCKSIZE → dbyte d' b' k = if b' =? b then bytes c (a + k) else dbyte d b' k.

Lemma sfs_rwblock_write `{HW : !ReliableWrites D t_vmspace} d c u b (Q : () → D * US → Prop) (E : Z → D * US → Prop) :
  dev_ok d → badfaultfunc c = false → block_io t_vmspace dev_blocks dev_area u b UIO_WRITE →
  (∀ d' c', dev_ok d' → block_written (iov_base (uio_iovec u)) b c d d' →
     iov_base (uio_iovec u) + SFS_BLOCKSIZE < 2 ^ 32 → same_but dev_area c c' →
     Q tt (d', (c', advance SFS_BLOCKSIZE u))) →
  (∀ e d' c' u', io_error dev_error u e → dev_ok d' → same_disk d d' → same_but dev_area c c' →
     (u' = u ∨ u' = advance SFS_BLOCKSIZE u ∧ iov_base (uio_iovec u) + SFS_BLOCKSIZE < 2 ^ 32) →
     E e (d', (c', u'))) →
  wp safe sfs_rwblock (d, (c, u)) Q E.
Proof.
  intros Hd Hc Hu HQ HE. unfold sfs_rwblock. cbn [rw_try]. wp_steps.
  eapply wp_mono; [apply wp_and; [by apply (d_io_write d c u b)|by apply (d_io_write_media d c u b)]| |].
  - intros [] [d' [c' u']] [(Hd' & Hw & Hu' & Hb & Hm) _]. cbn in Hu'. subst u'. wp_steps. by apply HQ.
  - intros e [d' [c' u']] [(He & Hd' & Hs & Hu' & Hm) Heio]. wp_steps.
    assert (e ≠ EINVAL) by (destruct He as [[]%dev_error_not|[-> _]]; done).
    destruct (Z.eqb_spec e EINVAL); [done|]. destruct (Z.eqb_spec e EIO); [done|]. wp_steps.
    by apply HE; [..|intros ???; apply Hs; right| |].
Qed.

(** A buffer of the kernel for one block *)
Definition block_buffer (a : Z) : Prop :=
  USERTOP ≤ a ∧ a + SFS_BLOCKSIZE < 2 ^ 32 ∧ ∀ x, range a SFS_BLOCKSIZE x → ¬ dev_area x.

Lemma sfsuio_block_io data block rw :
  block_buffer data → 0 ≤ block < dev_blocks → rw = UIO_READ ∨ rw = UIO_WRITE →
  block_io t_vmspace dev_blocks dev_area
    (MkUio (MkIovec data SFS_BLOCKSIZE) (s32 (s32 block * SFS_BLOCKSIZE)) SFS_BLOCKSIZE UIO_SYSSPACE rw 0)
    block rw.
Proof.
  intros (Ha & Hb & Hap) Hbl Hrw. pose proof dev_blocks_max. unfold USERTOP, MIPS_KSEG0, SFS_BLOCKSIZE in *.
  split; cbn; try done.
  - unfold uio_wf, is_u32. cbn. split_and!; try (done || lia).
  - unfold SFS_BLOCKSIZE. rewrite (s32_small block) by lia. rewrite s32_small by lia. lia.
Qed.

Lemma sfs_rblock_ok d c data block (Q : () → D * copystate → Prop) (E : Z → D * copystate → Prop) :
  dev_ok d → badfaultfunc c = false → block_buffer data → 0 ≤ block < dev_blocks →
  (∀ d' c', dev_ok d' → same_disk d d' →
     same_but (λ x, dev_area x ∨ range data SFS_BLOCKSIZE x) c c' →
     (∀ k, 0 ≤ k < SFS_BLOCKSIZE → bytes c' (data + k) = dbyte d block k) → Q tt (d', c')) →
  (∀ e d' c', dev_error e → dev_ok d' → same_disk d d' →
     same_but (λ x, dev_area x ∨ range data SFS_BLOCKSIZE x) c c' → E e (d', c')) →
  wp safe (sfs_rblock data block) (d, c) Q E.
Proof.
  intros Hd Hc Hbuf Hbl HQ HE. unfold sfs_rblock, local_uio, SFSUIO, mk_kuio, upd_uio. wp_steps. cbn [fst snd].
  eapply sfs_rwblock_read; [done|done|by apply sfsuio_block_io; [..|left]| |]; cbn.
  - intros d' c' Hd' Hs _ Hm Hr. by apply HQ.
  - intros e d' c' [He|[_ []]] Hd' Hs Hm; [|done]. by apply HE.
Qed.

Lemma sfs_wblock_ok `{HW : !ReliableWrites D t_vmspace} d c data block (Q : () → D * copystate → Prop) (E : Z → D * copystate → Prop) :
  dev_ok d → badfaultfunc c = false → block_buffer data → 0 ≤ block < dev_blocks →
  (∀ d' c', dev_ok d' → block_written data block c d d' → same_but dev_area c c' → Q tt (d', c')) →
  (∀ e d' c', dev_error e → dev_ok d' → same_disk d d' → same_but dev_area c c' → E e (d', c')) →
  wp safe (sfs_wblock data block) (d, c) Q E.
Proof.
  intros Hd Hc Hbuf Hbl HQ HE. unfold sfs_wblock, local_uio, SFSUIO, mk_kuio, upd_uio. wp_steps. cbn [fst snd].
  eapply sfs_rwblock_write; [done|done|by apply sfsuio_block_io; [..|right]| |]; cbn.
  - intros d' c' Hd' Hs _ Hm. by apply HQ.
  - intros e d' c' u' [He|[_ []]] Hd' Hs Hm _; [|done]. by apply HE.
Qed.

(** A uio with nothing left: the retry reports success and touches nothing. *)
Lemma rw_try_nothing tries d c u b (Q : () → D * US → Prop) (E : Z → D * US → Prop) :
  dev_ok d → uio_resid u = 0 → uio_offset u = SFS_BLOCKSIZE * b → 0 ≤ b ≤ dev_blocks →
  Q tt (d, (c, u)) → wp safe (rw_try tries) (d, (c, u)) Q E.
Proof.
  intros Hd Hr Ho Hb HQ.
  destruct tries; cbn [rw_try]; wp_steps;
    (eapply wp_mono; [by apply (d_io_nothing d c u b)| |done]); intros [] ? ->; by wp_steps.
Qed.

(** Blocks other than [b] are the same. *)
Definition same_others b d d' : Prop := ∀ b' k, 0 ≤ k < SFS_BLOCKSIZE → b' ≠ b → dbyte d' b' k = dbyte d b' k.

Lemma rw_try_write_others tries d c u b :
  dev_blocks < 2 ^ 22 → dev_ok d → badfaultfunc c = false → block_io t_vmspace dev_blocks dev_area u b UIO_WRITE →
  wp safe (rw_try tries) (d, (c, u))
    (λ _ s', dev_ok s'.1 ∧ same_others b d s'.1 ∧ same_but dev_area c s'.2.1)
    (λ e s', io_error dev_error u e ∧ dev_ok s'.1 ∧ same_others b d s'.1 ∧ same_but dev_area c s'.2.1).
Proof.
  intros Hmax. revert d c. induction tries as [|tries IH]; intros d c Hd Hc Hu; cbn [rw_try]; wp_steps;
    (eapply wp_mono; [by apply (d_io_write d c u b)| |]).
  1,3: intros [] [d' [c' u']] (Hd' & Hw & _ & _ & Hm); wp_steps; split; [done|]; split; [|done];
       intros b' k Hk Hb'; cbn [fst]; rewrite Hw by done; by destruct (Z.eqb_spec b' b).
  all: intros e [d' [c' u']] (He & Hd' & Hs & Hu' & Hm); cbn [fst snd] in *; wp_steps.
  all: assert (e ≠ EINVAL) by (destruct He as [[]%dev_error_not|[-> _]]; done).
  all: assert (same_others b d d') as Ho by (intros b' k _ Hb'; apply Hs; by left).
  all: destruct (Z.eqb_spec e EINVAL); [done|]; destruct (Z.eqb_spec e EIO); wp_steps; try done.
  destruct Hu' as [-> |[-> _]].
  - eapply wp_mono; [by apply IH; [|apply Hm|]| |].
    + intros [] s' (? & Ho' & ?). split; [done|]. split; [|by eapply same_but_trans].
      intros b' k Hk Hb'. rewrite Ho' by done. by apply Ho.
    + intros e' s' (? & ? & Ho' & ?). split; [done|]. split; [done|]. split; [|by eapply same_but_trans].
      intros b' k Hk Hb'. rewrite Ho' by done. by apply Ho.
  - destruct Hu as [Hwf _ Hoff Hb Hres _].
    apply (rw_try_nothing _ _ _ _ (b + 1)); [done| | |lia|done]; cbn.
    + rewrite Hres. lia.
    + unfold SFS_BLOCKSIZE in *. rewrite s32_small; lia.
Qed.

(** Whatever becomes of the block that [sfs_wblock] writes, no other block changes, also
    when the device ends the write in a media error. *)
Theorem sfs_wblock_others d c data block :
  dev_blocks < 2 ^ 22 → dev_ok d → badfaultfunc c = false → block_buffer data → 0 ≤ block < dev_blocks →
  wp safe (sfs_wblock data block) (d, c)
    (λ _ s', dev_ok s'.1 ∧ same_others block d s'.1 ∧ same_but dev_area c s'.2)
    (λ e s', dev_error e ∧ dev_ok s'.1 ∧ same_others block d s'.1 ∧ same_but dev_area c s'.2).
Proof.
  intros Hmax Hd Hc Hbuf Hbl. unfold sfs_wblock, local_uio, SFSUIO, mk_kuio, upd_uio. wp_steps. cbn [fst snd].
  eapply wp_mono; [apply rw_try_write_others; [done|done|done|by apply sfsuio_block_io; [..|right]]|done|].
  cbn. by intros e s' ([He|[_ []]] & ?).
Qed.
End lemmas.
