(* ===== verification/Sfs.v ===== *)
(** * SFS: files and directories

    Model of the part of kern/fs/sfs/sfs_vnode.c that works on one file: block
    allocation, the block map of an inode, I/O on files, directories, truncation.
    The state [F] is the device, the memory of the kernel, the [struct sfs_fs], and the
    [struct sfs_vnode] the functions get a pointer to, with its address. The functions on
    the table of loaded vnodes are not modelled.

    The static buffers of the code and the directory entries on the stack are at the
    addresses of [buffers]. A structure is put into memory where the code passes its
    address to a block transfer, and read back after one. *)

From Stdlib Require Import ZArith Lia.
From stdpp Require Import base list gmap numbers.
From S2P Require Import Prelude CopyInOut Uio Bitmap Array Vnode SfsData SfsDev.

Local Open Scope Z_scope.

(** kern/unistd.h and kern/stat.h *)
Definition O_RDONLY : Z := 0.
Definition O_APPEND : Z := 32.
Definition O_ACCMODE : Z := 3.
Definition S_IFREG : Z := 0x1000.
Definition S_IFDIR : Z := 0x2000.

Record sfs_vnode := MkSv {
  sv_v : vnode;
  sv_i : sfs_inode;
  sv_ino : Z;
  sv_dirty : Z;
}.

(** [sfs_device] is part of the state; the addresses of the array and of the bitmap
    are what [array_create] and [bitmap_create] returned. *)
Record sfs_fs := MkFs {
  sfs_super_ : sfs_super;
  sfs_superdirty : Z;
  sfs_vnodes : array Z;
  sfs_vnodes_at : Z;
  sfs_freemap : bitmap;
  sfs_freemap_at : Z * Z;
  sfs_freemapdirty : Z;
}.

Record stat := MkStat {
  st_mode : Z;
  st_nlink : Z;
  st_size : Z;
  st_blocks : Z;
}.

(** [&sv->sv_i] *)
Definition sv_i_at (sv : Z) : Z := sv + 24.

Definition set_size n (i : sfs_inode) : sfs_inode :=
  MkInode n (sfi_type i) (sfi_linkcount i) (sfi_direct i) (sfi_indirect i) (sfi_waste i).
Definition set_linkcount n (i : sfs_inode) : sfs_inode :=
  MkInode (sfi_size i) (sfi_type i) n (sfi_direct i) (sfi_indirect i) (sfi_waste i).
Definition set_direct l (i : sfs_inode) : sfs_inode :=
  MkInode (sfi_size i) (sfi_type i) (sfi_linkcount i) l (sfi_indirect i) (sfi_waste i).
Definition set_indirect n (i : sfs_inode) : sfs_inode :=
  MkInode (sfi_size i) (sfi_type i) (sfi_linkcount i) (sfi_direct i) n (sfi_waste i).

Definition with_inode i (v : sfs_vnode) : sfs_vnode := MkSv (sv_v v) i (sv_ino v) (sv_dirty v).
Definition with_dirty n (v : sfs_vnode) : sfs_vnode := MkSv (sv_v v) (sv_i v) (sv_ino v) n.

Definition with_freemap b (f : sfs_fs) : sfs_fs :=
  MkFs (sfs_super_ f) (sfs_superdirty f) (sfs_vnodes f) (sfs_vnodes_at f) b (sfs_freemap_at f)
    (sfs_freemapdirty f).
Definition with_freemapdirty n (f : sfs_fs) : sfs_fs :=
  MkFs (sfs_super_ f) (sfs_superdirty f) (sfs_vnodes f) (sfs_vnodes_at f) (sfs_freemap f)
    (sfs_freemap_at f) n.

(** Static buffers: [zeros] of [sfs_clearblock], [idbuf] of [sfs_bmap], [iobuf] of
    [sfs_partialio], [idbuf] of [sfs_truncate], [zeros] of [uiomovezeros]; the local
    [tsd] of [sfs_dir_findname], and [sd] of [sfs_dir_link] and [sfs_dir_unlink] *)
Record buffers := MkBuffers {
  zeros_at : Z;
  idbuf_at : Z;
  iobuf_at : Z;
  tidbuf_at : Z;
  uzeros_at : Z;
  tsd_at : Z;
  sd_at : Z;
}.

Section operations.
Context {D : Type} `{!BlockDev D} (user_read user_write : Z → bool) (t_vmspace : Z) (st : buffers).

Record F := MkF {
  f_dev : D;
  f_mem : copystate;
  f_fs : sfs_fs;
  f_sv : sfs_vnode;
  f_at : Z;
}.

Definition with_io (p : D * copystate) (s : F) : F := MkF p.1 p.2 (f_fs s) (f_sv s) (f_at s).
Definition with_fs (f : sfs_fs) (s : F) : F := MkF (f_dev s) (f_mem s) f (f_sv s) (f_at s).
Definition with_sv (v : sfs_vnode) (s : F) : F := MkF (f_dev s) (f_mem s) (f_fs s) v (f_at s).
Definition with_i (i : sfs_inode) (s : F) : F := with_sv (with_inode i (f_sv s)) s.
Definition f_i (s : F) : sfs_inode := sv_i (f_sv s).

Definition on_io {A} (m : M (D * copystate) A) : M F A := zoom (λ s, (f_dev s, f_mem s)) with_io m.
Definition on_freemap {A} (m : M bitmap A) : M F A :=
  zoom (λ s, sfs_freemap (f_fs s)) (λ b s, with_fs (with_freemap b (f_fs s)) s) m.
Definition upd_i (g : sfs_inode → sfs_inode) : M F () := modify (λ s, with_i (g (f_i s)) s).
Definition set_dirty (n : Z) : M F () := modify (λ s, with_sv (with_dirty n (f_sv s)) s).
Definition set_freemapdirty (n : Z) : M F () := modify (λ s, with_fs (with_freemapdirty n (f_fs s)) s).
Definition get_i : M F sfs_inode := gets f_i.

(** A structure in memory, before a block is written from it and after one was read
    into it *)
Definition store (a : Z) (bs : list Z) : M F () :=
  modify (λ s, with_io (f_dev s, poke a bs (f_mem s)) s).
Definition load (a n : Z) : M F (list Z) := gets (λ s, peek a n (f_mem s)).

(** ** Simple stuff *)

Definition sfs_clearblock (block : Z) : M F () := on_io (sfs_wblock (zeros_at st) block).

Definition sfs_sync_inode : M F () :=
  s ← get;
  if negb (sv_dirty (f_sv s) =? 0) then
    store (sv_i_at (f_at s)) (inode_bytes (f_i s));;
    on_io (sfs_wblock (sv_i_at (f_at s)) (sv_ino (f_sv s)));;
    set_dirty 0
  else mret tt.

(** ** Space allocation *)

Definition sfs_balloc : M F Z :=
  diskblock ← on_freemap bitmap_alloc;
  set_freemapdirty 1;;
  s ← get;
  if sp_nblocks (sfs_super_ (f_fs s)) <=? diskblock then panic else
  sfs_clearblock diskblock;;
  mret diskblock.

Definition sfs_bfree (diskblock : Z) : M F () :=
  on_freemap (bitmap_unmark diskblock);;
  set_freemapdirty 1.

Definition sfs_bused (diskblock : Z) : M F bool :=
  s ← get;
  if sp_nblocks (sfs_super_ (f_fs s)) <=? diskblock then panic else
  r ← on_freemap (bitmap_isset diskblock);
  mret (negb (r =? 0)).

(** ** Block mapping *)

(** [if (block != 0 && !sfs_bused(sfs, block)) panic(...); *diskblock = block;] *)
Definition hand_back (block : Z) : M F Z :=
  if block =? 0 then mret block else
  used ← sfs_bused block;
  if (used : bool) then mret block else panic.

(** The entry [idoff] of the indirect block [idblock], which is in [idbuf] *)
Definition bmap_entry (idblock : Z) (idbuf : list Z) (idoff : Z) (doalloc : bool) : M F Z :=
  block ← the (zlookup idbuf idoff);
  if (block =? 0) && doalloc then
    block ← sfs_balloc;
    idbuf ← the (zstore idbuf idoff block);
    store (idbuf_at st) (bytes_of idbuf);;
    on_io (sfs_wblock (idbuf_at st) idblock);;
    hand_back block
  else hand_back block.

Definition sfs_bmap (fileblock : Z) (doalloc : bool) : M F Z :=
  if fileblock <? SFS_NDIRECT then
    i ← get_i;
    block ← the (zlookup (sfi_direct i) fileblock);
    if (block =? 0) && doalloc then
      block ← sfs_balloc;
      i ← get_i;
      l ← the (zstore (sfi_direct i) fileblock block);
      upd_i (set_direct l);;
      set_dirty 1;;
      hand_back block
    else hand_back block
  else
  let fileblock := fileblock - SFS_NDIRECT in
  let idnum := fileblock / SFS_DBPERIDB in
  let idoff := fileblock `mod` SFS_DBPERIDB in
  if 0 <? idnum then fail EINVAL else
  i ← get_i;
  if (sfi_indirect i =? 0) && negb doalloc then mret 0 else
  (* the indirect block and its contents *)
  p ← (if sfi_indirect i =? 0 then
         idblock ← sfs_balloc;
         upd_i (set_indirect idblock);;
         set_dirty 1;;
         mret (idblock, replicate (Z.to_nat SFS_DBPERIDB) 0)
       else
         on_io (sfs_rblock (idbuf_at st) (sfi_indirect i));;
         bs ← load (idbuf_at st) SFS_BLOCKSIZE;
         mret (sfi_indirect i, words_of bs));
  bmap_entry p.1 p.2 idoff doalloc.

(** ** File-level I/O *)

Definition FU : Type := F * uio.

Definition on_f {A} (m : M F A) : M FU A := zoom fst (λ f s, (f, s.2)) m.
Definition on_us {A} (m : M US A) : M FU A :=
  zoom (λ s, (f_mem s.1, s.2)) (λ t s, (with_io (f_dev s.1, t.1) s.1, t.2)) m.
(** [sfs_rwblock(sfs, uio)] *)
Definition on_dus {A} (m : M (D * US) A) : M FU A :=
  zoom (λ s, (f_dev s.1, (f_mem s.1, s.2))) (λ t s, (with_io (t.1, t.2.1) s.1, t.2.2)) m.
Definition get_u : M FU uio := gets snd.
Definition upd_u (g : uio → uio) : M FU () := modify (λ s, (s.1, g s.2)).

Definition set_offset n (u : uio) : uio :=
  MkUio (uio_iovec u) n (uio_resid u) (uio_segflg u) (uio_rw u) (uio_space u).
Definition set_resid n (u : uio) : uio :=
  MkUio (uio_iovec u) (uio_offset u) n (uio_segflg u) (uio_rw u) (uio_space u).

Definition sfs_partialio (skipstart len : Z) : M FU () :=
  u ← get_u;
  let doalloc := uio_rw u =? UIO_WRITE in
  assert (u32 (skipstart + len) <=? SFS_BLOCKSIZE);;
  let fileblock := u32 (Z.quot (uio_offset u) SFS_BLOCKSIZE) in
  diskblock ← on_f (sfs_bmap fileblock doalloc);
  (if diskblock =? 0 then
     assert (uio_rw u =? UIO_READ);;
     on_f (store (iobuf_at st) (replicate (Z.to_nat SFS_BLOCKSIZE) 0))
   else on_f (on_io (sfs_rblock (iobuf_at st) diskblock)));;
  on_us (uiomove user_read user_write t_vmspace (iobuf_at st + skipstart) len);;
  u ← get_u;
  when (uio_rw u =? UIO_WRITE) (on_f (on_io (sfs_wblock (iobuf_at st) diskblock))).

Definition sfs_blockio : M FU () :=
  u ← get_u;
  let doalloc := uio_rw u =? UIO_WRITE in
  let fileblock := u32 (Z.quot (uio_offset u) SFS_BLOCKSIZE) in
  diskblock ← on_f (sfs_bmap fileblock doalloc);
  if diskblock =? 0 then
    assert (uio_rw u =? UIO_READ);;
    on_us (uiomovezeros user_read user_write t_vmspace (uzeros_at st) SFS_BLOCKSIZE)
  else
  let saveoff := uio_offset u in
  let diskoff := s32 (u32 (diskblock * SFS_BLOCKSIZE)) in
  upd_u (set_offset diskoff);;
  assert (SFS_BLOCKSIZE <=? uio_resid u);;
  let saveres := s32 (uio_resid u) in
  let diskres := SFS_BLOCKSIZE in
  upd_u (set_resid diskres);;
  result ← try (on_dus sfs_rwblock);
  upd_u (λ u, set_offset (s32 (uio_offset u - diskoff + saveoff)) u);;
  upd_u (λ u, set_resid (u32 (uio_resid u - diskres + saveres)) u);;
  match result with
  | inl _ => mret tt
  | inr e => fail e
  end.

(** [sfs_io] between the test for EOF and [out] *)
Definition io_body : M FU () :=
  u ← get_u;
  let blkoff := u32 (Z.rem (uio_offset u) SFS_BLOCKSIZE) in
  when (negb (blkoff =? 0))
    (let len := SFS_BLOCKSIZE - blkoff in
     let len := if uio_resid u <? len then uio_resid u else len in
     sfs_partialio blkoff len);;
  u ← get_u;
  if uio_resid u =? 0 then mret tt else
  assert (Z.rem (uio_offset u) SFS_BLOCKSIZE =? 0);;
  let nblocks := uio_resid u / SFS_BLOCKSIZE in
  for_range 0 nblocks (λ _, sfs_blockio);;
  u ← get_u;
  assert (uio_resid u <? SFS_BLOCKSIZE);;
  when (0 <? uio_resid u) (sfs_partialio 0 (uio_resid u)).

(** What [sfs_io] does at [out] *)
Definition io_out (extraresid : Z) (result : () + Z) : M FU () :=
  u ← get_u;
  i ← on_f get_i;
  when ((uio_rw u =? UIO_WRITE) && (s32 (sfi_size i) <? uio_offset u))
    (on_f (upd_i (set_size (u32 (uio_offset u))));;
     on_f (set_dirty 1));;
  upd_u (λ u, set_resid (u32 (uio_resid u + extraresid)) u);;
  match result with
  | inl _ => mret tt
  | inr e => fail e
  end.

Definition sfs_io : M FU () :=
  u ← get_u;
  i ← on_f get_i;
  let size := s32 (sfi_size i) in
  let endpos := s32 (u32 (uio_offset u + uio_resid u)) in
  if (uio_rw u =? UIO_READ) && (size <=? uio_offset u) then mret tt else
  extraresid ←
    (if (uio_rw u =? UIO_READ) && (size <? endpos) then
       let extraresid := u32 (endpos - size) in
       assert (extraresid <? uio_resid u);;
       upd_u (λ u, set_resid (uio_resid u - extraresid) u);;
       mret extraresid
     else mret 0);
  result ← try io_body;
  io_out extraresid result.

(** ** Directory I/O *)

(** A function with a [struct uio] of its own *)
Definition local_u {A} (m : M FU A) : M F A := zoom (λ s, (s, no_uio)) (λ t _, t.1) m.

(** The entry is read into [tsd]. *)
Definition sfs_readdir (slot : Z) : M F sfs_dir :=
  let actualpos := s32 (u32 (slot * sizeof_sfs_dir)) in
  local_u (
    on_us (mk_kuio (tsd_at st) sizeof_sfs_dir actualpos UIO_READ);;
    sfs_io;;
    ku ← get_u;
    if 0 <? uio_resid ku then panic else mret tt);;
  bs ← load (tsd_at st) sizeof_sfs_dir;
  mret (dir_of bs).

Definition sfs_writedir (sd : sfs_dir) (slot : Z) : M F () :=
  assert (0 <=? slot);;
  let actualpos := s32 (u32 (slot * sizeof_sfs_dir)) in
  store (sd_at st) (dir_bytes sd);;
  local_u (
    on_us (mk_kuio (sd_at st) sizeof_sfs_dir actualpos UIO_WRITE);;
    sfs_io;;
    ku ← get_u;
    if 0 <? uio_resid ku then panic else mret tt).

Definition sfs_dir_nentries : M F Z :=
  i ← get_i;
  assert (sfi_type i =? SFS_TYPE_DIR);;
  let size := s32 (sfi_size i) in
  if negb (u32 size `mod` sizeof_sfs_dir =? 0) then panic else
  mret (s32 (u32 size / sizeof_sfs_dir)).

(** The results of a search: inode number and slot of the name, and the last free slot
    or -1 *)
Definition found : Type := option (Z * Z) * Z.

Definition findname_step (name : list Z) (i : Z) (r : found) : M F found :=
  tsd ← sfs_readdir i;
  if sfd_ino tsd =? SFS_NOINO then mret (r.1, i)
  else if bool_decide (cstring (take 59 (sfd_name tsd)) = name) then
    assert (negb (bool_decide (is_Some r.1)));;
    mret (Some (sfd_ino tsd, i), r.2)
  else mret r.

Fixpoint findname_from (name : list Z) (slots : list Z) (r : found) : M F found :=
  match slots with
  | [] => mret r
  | i :: slots => r ← findname_step name i r; findname_from name slots r
  end.

(** [None] in the result is [ENOENT]. *)
Definition sfs_dir_findname (name : list Z) : M F found :=
  nentries ← sfs_dir_nentries;
  findname_from name (seqZ 0 nentries) (None, -1).

(** The slot of the new entry *)
Definition sfs_dir_link (name : list Z) (ino : Z) : M F Z :=
  r ← sfs_dir_findname name;
  if bool_decide (is_Some r.1) then fail EEXIST else
  if SFS_NAMELEN <? Z.of_nat (length name) + 1 then fail ENAMETOOLONG else
  emptyslot ← (if r.2 <? 0 then sfs_dir_nentries else mret r.2);
  sfs_writedir (MkDir ino (padded SFS_NAMELEN name)) emptyslot;;
  mret emptyslot.

Definition sfs_dir_unlink (slot : Z) : M F () :=
  sfs_writedir (MkDir SFS_NOINO (padded SFS_NAMELEN [])) slot.

(** ** Vnode operations on one file *)

Definition sfs_open (openflags : Z) : M F () :=
  if negb (Z.land openflags O_APPEND =? 0) then fail EUNIMP else mret tt.

Definition sfs_opendir (openflags : Z) : M F () :=
  if negb (Z.land openflags O_ACCMODE =? O_RDONLY) then fail EISDIR else
  if negb (Z.land openflags O_APPEND =? 0) then fail EISDIR else mret tt.

Definition sfs_fsync : M F () := sfs_sync_inode.
Definition sfs_close : M F () := sfs_fsync.

Definition sfs_read : M FU () := u ← get_u; assert (uio_rw u =? UIO_READ);; sfs_io.
Definition sfs_write : M FU () := u ← get_u; assert (uio_rw u =? UIO_WRITE);; sfs_io.

Definition sfs_ioctl : M F () := fail EINVAL.
Definition sfs_mmap : M F () := fail EUNIMP.
Definition sfs_tryseek (pos : Z) : M F () := if pos <? 0 then fail EINVAL else mret tt.

Definition sfs_gettype : M F Z :=
  i ← get_i;
  if sfi_type i =? SFS_TYPE_FILE then mret S_IFREG
  else if sfi_type i =? SFS_TYPE_DIR then mret S_IFDIR
  else panic.

Definition sfs_stat : M F stat :=
  mode ← sfs_gettype;
  i ← get_i;
  mret (MkStat mode 0 (s32 (sfi_size i)) 0).

(** The empty string: nothing is written to the uio. *)
Definition sfs_namefile : M F () :=
  s ← get;
  assert (sv_ino (f_sv s) =? SFS_ROOT_LOCATION).

(** The loop over the direct blocks *)
Definition truncate_direct (blocklen : Z) : M F () :=
  for_range 0 SFS_NDIRECT (λ i,
    n ← get_i;
    block ← the (zlookup (sfi_direct n) i);
    if (blocklen <=? i) && negb (block =? 0) then
      sfs_bfree block;;
      n ← get_i;
      l ← the (zstore (sfi_direct n) i 0);
      upd_i (set_direct l);;
      set_dirty 1
    else mret tt).

(** The loop over the entries of the indirect block: what is left of them, [iddirty]
    and [hasnonzero] *)
Fixpoint truncate_indirect (blocklen : Z) (j : Z) (idbuf : list Z) : M F (list Z * bool * bool) :=
  match idbuf with
  | [] => mret ([], false, false)
  | b :: rest =>
    let drop := (blocklen <? SFS_NDIRECT + j) && negb (b =? 0) in
    (if drop then sfs_bfree b else mret tt);;
    let b' := if drop then 0 else b in
    r ← truncate_indirect blocklen (j + 1) rest;
    let '(rest', iddirty, hasnonzero) := r in
    mret (b' :: rest', drop || iddirty, negb (b' =? 0) || hasnonzero)
  end.

Definition sfs_truncate (len : Z) : M F () :=
  if INT_MAX <? len + SFS_BLOCKSIZE then undefined else
  let blocklen := u32 (Z.quot (len + SFS_BLOCKSIZE - 1) SFS_BLOCKSIZE) in
  truncate_direct blocklen;;
  i ← get_i;
  let idblock := sfi_indirect i in
  let highblock := SFS_NDIRECT + SFS_DBPERIDB - 1 in
  (if (blocklen <? highblock) && negb (idblock =? 0) then
     on_io (sfs_rblock (tidbuf_at st) idblock);;
     bs ← load (tidbuf_at st) SFS_BLOCKSIZE;
     r ← truncate_indirect blocklen 0 (words_of bs);
     let '(idbuf, iddirty, hasnonzero) := r in
     if negb hasnonzero then
       sfs_bfree idblock;;
       upd_i (set_indirect 0);;
       set_dirty 1
     else if (iddirty : bool) then
       store (tidbuf_at st) (bytes_of idbuf);;
       on_io (sfs_wblock (tidbuf_at st) idblock)
     else mret tt
   else mret tt);;
  upd_i (set_size (u32 len));;
  set_dirty 1.
End operations.
Arguments F : clear implicits.
Arguments FU : clear implicits.
Arguments MkF {D}.
