(* ===== verification/SfsInv.v ===== *)
(** * SFS: the invariant of a file

    The block map of an inode ([fblock]), the bytes of a file ([fbyte]), the blocks it
    owns, and the invariant: every block a file owns is marked in the free map, and no
    block is used for two purposes. [ext] is how the state may change while a file
    grows: blocks in use that are not the file's stay as they are. *)

From Stdlib Require Import ZArith Lia.
From stdpp Require Import base list gmap numbers.
From S2P Require Import Prelude CopyInOut Uio Bitmap Array Vnode SfsData SfsDev Sfs.

Local Open Scope Z_scope.

(** Blocks of the largest file, and its bytes *)
Definition MAXBLOCKS : Z := SFS_NDIRECT + SFS_DBPERIDB.
Definition MAXSIZE : Z := MAXBLOCKS * SFS_BLOCKSIZE.

Definition nblocks (f : sfs_fs) : Z := sp_nblocks (sfs_super_ f).
Definition marked (f : sfs_fs) (b : Z) : bool := bit (sfs_freemap f) b.

Section inv.
Context {D : Type} `{!BlockDev D} {t_vmspace : Z} `{HL : !BlockDevLaws D t_vmspace} (st : buffers).
Implicit Types (d : D) (c : copystate) (i : sfs_inode) (f : sfs_fs) (s : F D).

(** Memory the functions use for themselves, and the arrays of zeros *)
Definition scratch (x : Z) : Prop :=
  dev_area x ∨ range (idbuf_at st) SFS_BLOCKSIZE x ∨ range (iobuf_at st) SFS_BLOCKSIZE x ∨
  range (tidbuf_at st) SFS_BLOCKSIZE x.
Definition zero_area (x : Z) : Prop :=
  range (zeros_at st) SFS_BLOCKSIZE x ∨ range (uzeros_at st) 16 x.

Record buffers_ok : Prop := {
  bo_zeros : block_buffer (zeros_at st);
  bo_idbuf : block_buffer (idbuf_at st);
  bo_iobuf : block_buffer (iobuf_at st);
  bo_tidbuf : block_buffer (tidbuf_at st);
  bo_uzeros : kernel_range (uzeros_at st) 16;
  bo_apart x : zero_area x → ¬ scratch x;
}.

Record mem_ok c : Prop := {
  mo_bad : badfaultfunc c = false;
  mo_zero x : zero_area x → bytes c x = 0;
}.

(** ** Files *)

Definition sector d b : list Z := (λ k, u8 (dbyte d b k)) <$> seqZ 0 SFS_BLOCKSIZE.

(** The block number in the block map, 0 for none *)
Definition fblock d i (n : Z) : Z :=
  if n <? SFS_NDIRECT then default 0 (zlookup (sfi_direct i) n)
  else if sfi_indirect i =? 0 then 0
  else default 0 (zlookup (words_of (sector d (sfi_indirect i))) (n - SFS_NDIRECT)).

(** The bytes of a file; those without a block are 0. *)
Definition fbyte d i (x : Z) : Z :=
  let b := fblock d i (x / SFS_BLOCKSIZE) in
  if b =? 0 then 0 else dbyte d b (x `mod` SFS_BLOCKSIZE).

Definition owns d i (b : Z) : Prop :=
  b ≠ 0 ∧ (b = sfi_indirect i ∨ ∃ n, 0 ≤ n < MAXBLOCKS ∧ fblock d i n = b).

(** ** Invariants *)

Record fs_ok f : Prop := {
  fs_map : bitmap_wf (sfs_freemap f);
  fs_nblocks : 0 < nblocks f ≤ dev_blocks;
  fs_nbits : nblocks f ≤ nbits (sfs_freemap f);
  (** sectors beyond the end of the disk, and the superblock *)
  fs_beyond b : nblocks f ≤ b < nbits (sfs_freemap f) → marked f b = true;
  fs_sb : marked f SFS_SB_LOCATION = true;
}.

(** A block of the file system that is in use *)
Definition in_use f b : Prop := 0 < b < nblocks f ∧ marked f b = true.

Record file_ok f d i : Prop := {
  fo_wf : inode_wf i;
  fo_used b : owns d i b → in_use f b;
  fo_inj n m : 0 ≤ n < MAXBLOCKS → 0 ≤ m < MAXBLOCKS →
    fblock d i n ≠ 0 → fblock d i n = fblock d i m → n = m;
  fo_ind n : 0 ≤ n < MAXBLOCKS → fblock d i n ≠ 0 → fblock d i n ≠ sfi_indirect i;
}.

Record st_ok s : Prop := {
  so_dev : dev_ok (f_dev s);
  so_mem : mem_ok (f_mem s);
  so_fs : fs_ok (f_fs s);
  so_file : file_ok (f_fs s) (f_dev s) (f_i s);
}.

(** ** Changes *)

Record fs_ext f f' : Prop := {
  fx_super : sfs_super_ f' = sfs_super_ f;
  fx_superdirty : sfs_superdirty f' = sfs_superdirty f;
  fx_vnodes : sfs_vnodes f' = sfs_vnodes f ∧ sfs_vnodes_at f' = sfs_vnodes_at f;
  fx_at : sfs_freemap_at f' = sfs_freemap_at f;
  fx_nbits : nbits (sfs_freemap f') = nbits (sfs_freemap f);
  fx_marked b : 0 ≤ b → marked f b = true → marked f' b = true;
  fx_dirty : sfs_freemap f' = sfs_freemap f ∧ sfs_freemapdirty f' = sfs_freemapdirty f ∨
             sfs_freemapdirty f' ≠ 0;
}.

Record ext s s' : Prop := {
  ex_fs : fs_ext (f_fs s) (f_fs s');
  ex_v : sv_v (f_sv s') = sv_v (f_sv s) ∧ sv_ino (f_sv s') = sv_ino (f_sv s) ∧ f_at s' = f_at s;
  ex_dirty : f_sv s' = f_sv s ∨ sv_dirty (f_sv s') ≠ 0;
  ex_disk b k : 0 ≤ k < SFS_BLOCKSIZE → 0 ≤ b → marked (f_fs s) b = true →
    ¬ owns (f_dev s) (f_i s) b → dbyte (f_dev s') b k = dbyte (f_dev s) b k;
  ex_owns b : owns (f_dev s') (f_i s') b → owns (f_dev s) (f_i s) b ∨ marked (f_fs s) b = false;
  ex_keep b : owns (f_dev s) (f_i s) b → owns (f_dev s') (f_i s') b;
  ex_mem : same_but scratch (f_mem s) (f_mem s');
}.

(** What block allocation leaves alone of an inode *)
Definition same_meta i i' : Prop :=
  sfi_size i' = sfi_size i ∧ sfi_type i' = sfi_type i ∧ sfi_linkcount i' = sfi_linkcount i ∧
  sfi_waste i' = sfi_waste i.

Definition same_bytes s s' : Prop :=
  ∀ x, 0 ≤ x < MAXSIZE → fbyte (f_dev s') (f_i s') x = fbyte (f_dev s) (f_i s) x.

(** ** Lemmas *)

Lemma mem_ok_but c c' (P : Z → Prop) :
  mem_ok c → same_but P c c' → (∀ x, P x → ¬ zero_area x) → mem_ok c'.
Proof.
  intros [_ Hz] [Hb Hs] HP. split; [done|]. intros x Hx. rewrite Hs; [by apply Hz|].
  intros H. by apply (HP x).
Qed.

Lemma mem_ok_scratch c c' : buffers_ok → mem_ok c → same_but scratch c c' → mem_ok c'.
Proof. intros Hb Hc Hs. eapply mem_ok_but; [done..|]. intros x H1 H2. by apply (bo_apart Hb x). Qed.

Lemma length_sector d b : length (sector d b) = 512%nat.
Proof. unfold sector. by rewrite length_fmap, length_seqZ. Qed.

Lemma sector_bytes d b : Forall is_byte (sector d b).
Proof. apply Forall_fmap, Forall_true. intros k. apply Z.mod_pos_bound. lia. Qed.

Lemma sector_ext d d' b b' :
  (∀ k, 0 ≤ k < SFS_BLOCKSIZE → dbyte d' b' k = dbyte d b k) → sector d' b' = sector d b.
Proof.
  intros Heq. unfold sector. apply list_fmap_ext. intros n k Hk.
  apply lookup_seqZ in Hk as [-> Hk]. f_equal. apply Heq. lia.
Qed.

Lemma peek_sector a c d b :
  (∀ k, 0 ≤ k < SFS_BLOCKSIZE → bytes c (a + k) = dbyte d b k) →
  peek a SFS_BLOCKSIZE c = sector d b.
Proof.
  intros Heq. unfold peek, sector. apply list_fmap_ext. intros n k Hk.
  apply lookup_seqZ in Hk as [-> Hk]. f_equal. apply Heq. lia.
Qed.

Lemma sector_written a b c d d' : block_written a b c d d' → sector d' b = peek a SFS_BLOCKSIZE c.
Proof.
  intros Hw. symmetry. apply peek_sector. intros k Hk. rewrite Hw by done. by rewrite Z.eqb_refl.
Qed.

Lemma length_idwords d b : length (words_of (sector d b)) = 128%nat.
Proof. by apply length_words_of, length_sector. Qed.

Lemma idwords_u32 d b : Forall is_u32 (words_of (sector d b)).
Proof. apply words_of_u32, sector_bytes. Qed.

Lemma fblock_direct d i n : n < SFS_NDIRECT → fblock d i n = default 0 (zlookup (sfi_direct i) n).
Proof. intros. unfold fblock. by destruct (Z.ltb_spec n SFS_NDIRECT); [|lia]. Qed.

(** The block map depends on the inode and on its indirect block. *)
Lemma fblock_ext d d' i n :
  (sfi_indirect i ≠ 0 → ∀ k, 0 ≤ k < SFS_BLOCKSIZE →
     dbyte d' (sfi_indirect i) k = dbyte d (sfi_indirect i) k) →
  fblock d' i n = fblock d i n.
Proof.
  intros Heq. unfold fblock. destruct (n <? SFS_NDIRECT); [done|].
  destruct (Z.eqb_spec (sfi_indirect i) 0); [done|]. erewrite sector_ext; [done|auto].
Qed.

Lemma owns_ext d d' i b :
  (sfi_indirect i ≠ 0 → ∀ k, 0 ≤ k < SFS_BLOCKSIZE →
     dbyte d' (sfi_indirect i) k = dbyte d (sfi_indirect i) k) →
  owns d' i b ↔ owns d i b.
Proof. intros Heq. unfold owns. by setoid_rewrite (fblock_ext d d' i _ Heq). Qed.

Lemma owns_indirect d i : sfi_indirect i ≠ 0 → owns d i (sfi_indirect i).
Proof. intros. split; [done|by left]. Qed.

Lemma owns_fblock d i n : 0 ≤ n < MAXBLOCKS → fblock d i n ≠ 0 → owns d i (fblock d i n).
Proof. intros. split; [done|]. right. by exists n. Qed.

(** A file whose blocks did not change *)
Lemma file_ok_disk f d d' i :
  file_ok f d i →
  (∀ k, 0 ≤ k < SFS_BLOCKSIZE → sfi_indirect i ≠ 0 →
     dbyte d' (sfi_indirect i) k = dbyte d (sfi_indirect i) k) →
  file_ok f d' i.
Proof.
  intros [Hwf Hu Hi Hn] Heq.
  assert (∀ n, fblock d' i n = fblock d i n) as Hf by (intros n; apply fblock_ext; auto).
  split; [done| | |].
  - intros b Hb. apply Hu. apply (owns_ext d d' i b); auto.
  - intros n m. rewrite !Hf. apply Hi.
  - intros n. rewrite Hf. apply Hn.
Qed.

Lemma file_ok_marked f f' d i :
  file_ok f d i → nblocks f' = nblocks f → (∀ b, 0 ≤ b → marked f b = true → marked f' b = true) →
  file_ok f' d i.
Proof.
  intros [Hwf Hu Hi Hn] Hnb Hm. split; [done| |done|done].
  intros b Hb. destruct (Hu b Hb). split; [by rewrite Hnb|]. apply Hm; [lia|done].
Qed.

(** A new data block [b] for block [n] of the file *)
Lemma file_ok_new_block f f' d d' i i' n b :
  file_ok f d i → 0 ≤ n < MAXBLOCKS → fblock d i n = 0 →
  0 < b < nblocks f → marked f b = false →
  nblocks f' = nblocks f → marked f' b = true →
  (∀ b, 0 ≤ b → marked f b = true → marked f' b = true) →
  inode_wf i' → sfi_indirect i' = sfi_indirect i →
  (∀ m, 0 ≤ m < MAXBLOCKS → fblock d' i' m = if m =? n then b else fblock d i m) →
  file_ok f' d' i' ∧ ∀ x, owns d' i' x ↔ owns d i x ∨ x = b.
Proof.
  intros [Hwf Hu Hi Hn] Hnr H0 Hb Hfree Hnb Hmb Hm Hwf' Hind Hf.
  assert (∀ x, owns d i x → x ≠ b) as Hfresh by (intros x [_ Hx]%Hu ->; congruence).
  assert (∀ x, owns d' i' x ↔ owns d i x ∨ x = b) as Hown.
  { intros x. split.
    - intros [Hx [->|(m & Hmr & <-)]].
      + left. rewrite Hind in *. by apply owns_indirect.
      + rewrite Hf in Hx |- * by done. destruct (m =? n); [by right|]. left. by apply owns_fblock.
    - intros [[Hx [->|(m & Hmr & <-)]]| ->].
      + split; [done|]. left. done.
      + split; [done|]. right. exists m. split; [done|]. rewrite Hf by done.
        destruct (Z.eqb_spec m n) as [->|]; [congruence|done].
      + split; [lia|]. right. exists n. split; [done|]. by rewrite Hf, Z.eqb_refl. }
  split; [|done]. split; [done| | |].
  - intros x [Hx| ->]%Hown; [|split; [by rewrite Hnb|done]].
    destruct (Hu x Hx). split; [by rewrite Hnb|apply Hm; [lia|done]].
  - intros m1 m2 H1 H2. rewrite !Hf by done. destruct (Z.eqb_spec m1 n), (Z.eqb_spec m2 n); subst; try done.
    + intros _ Heq. exfalso. apply (Hfresh (fblock d i m2)); [|done].
      apply owns_fblock; [done|]. rewrite <- Heq. lia.
    + intros Hx Heq. exfalso. apply (Hfresh (fblock d i m1)); [by apply owns_fblock|done].
    + by apply Hi.
  - intros m Hmr. rewrite Hf, Hind by done. destruct (Z.eqb_spec m n); [|by apply Hn].
    intros _ Heq. apply (Hfresh (sfi_indirect i)); [|done]. apply owns_indirect. lia.
Qed.

(** A new indirect block, with no blocks in it *)
Lemma file_ok_new_indirect f f' d d' i i' b :
  file_ok f d i → sfi_indirect i = 0 →
  0 < b < nblocks f → marked f b = false →
  nblocks f' = nblocks f → marked f' b = true →
  (∀ b, 0 ≤ b → marked f b = true → marked f' b = true) →
  inode_wf i' → sfi_indirect i' = b →
  (∀ m, 0 ≤ m < MAXBLOCKS → fblock d' i' m = fblock d i m) →
  file_ok f' d' i' ∧ ∀ x, owns d' i' x ↔ owns d i x ∨ x = b.
Proof.
  intros [Hwf Hu Hi Hn] H0 Hb Hfree Hnb Hmb Hm Hwf' Hind Hf.
  assert (∀ x, owns d i x → x ≠ b) as Hfresh by (intros x [_ Hx]%Hu ->; congruence).
  assert (∀ x, owns d' i' x ↔ owns d i x ∨ x = b) as Hown.
  { intros x. split.
    - intros [Hx [->|(m & Hmr & <-)]]; [by right|]. left. rewrite Hf in * by done. by apply owns_fblock.
    - intros [[Hx [->|(m & Hmr & <-)]]| ->]; [congruence| |].
      + split; [done|]. right. exists m. split; [done|]. by apply Hf.
      + split; [lia|]. by left. }
  split; [|done]. split; [done| | |].
  - intros x [Hx| ->]%Hown; [|split; [by rewrite Hnb|done]].
    destruct (Hu x Hx). split; [by rewrite Hnb|apply Hm; [lia|done]].
  - intros m1 m2 H1 H2. rewrite !Hf by done. by apply Hi.
  - intros m Hmr. rewrite Hf, Hind by done. intros Hx. apply Hfresh. by apply owns_fblock.
Qed.
End inv.
