(* ===== verification/SfsBlock.v ===== *)
(** * SFS: allocation and the block map

    [sfs_balloc], [sfs_bused] and [sfs_bmap] on the invariant of SfsInv.v. *)

From Stdlib Require Import ZArith Lia.
From stdpp Require Import base list gmap numbers.
From S2P Require Import Prelude CopyInOut Uio Bitmap Array Vnode SfsData SfsDev Sfs SfsInv.

Local Open Scope Z_scope.

Section block.
Context {D : Type} `{!BlockDev D} {t_vmspace : Z} `{HL : !BlockDevLaws D t_vmspace} `{HW : !ReliableWrites D t_vmspace} (st : buffers).
Context (Hst : buffers_ok st).
Implicit Types (d : D) (c : copystate) (i : sfs_inode) (f : sfs_fs) (s : F D).

(** ** Changes compose *)

Lemma fs_ext_refl f : fs_ext f f.
Proof. by split; auto. Qed.

Lemma fs_ext_trans f f' f'' : fs_ext f f' → fs_ext f' f'' → fs_ext f f''.
Proof.
  intros [? ? [? ?] ? ? ? Hx] [? ? [? ?] ? ? ? Hy]. split; [congruence..|split; congruence|congruence|congruence|auto|].
  destruct Hy as [[? ?]|]; [|by right]. destruct Hx as [[? ?]|]; [left|right]; [split|]; congruence.
Qed.

Lemma ext_refl s : badfaultfunc (f_mem s) = false → ext st s s.
Proof. intros. split; try done; auto. apply fs_ext_refl. Qed.

Lemma ext_trans s s' s'' : file_ok (f_fs s) (f_dev s) (f_i s) → ext st s s' → ext st s' s'' → ext st s s''.
Proof.
  intros Hok H H'. split.
  - apply (fs_ext_trans _ (f_fs s')); [apply (ex_fs _ _ _ H)|apply (ex_fs _ _ _ H')].
  - destruct (ex_v _ _ _ H) as (? & ? & ?), (ex_v _ _ _ H') as (? & ? & ?). split_and!; congruence.
  - destruct (ex_dirty _ _ _ H') as [Heq|]; [|by right]. rewrite Heq. apply (ex_dirty _ _ _ H).
  - intros b k Hk Hb Hm Ho. rewrite (ex_disk _ _ _ H'); [by apply (ex_disk _ _ _ H)|done|done| |].
    + by apply (fx_marked _ _ (ex_fs _ _ _ H)).
    + intros [|]%(ex_owns _ _ _ H); [done|congruence].
  - intros b [Hb|Hb]%(ex_owns _ _ _ H'); [by apply (ex_owns _ _ _ H)|].
    destruct (marked (f_fs s) b) eqn:Hm; [|by right]. destruct (decide (0 ≤ b)) as [Hb0|Hb0].
    + rewrite (fx_marked _ _ (ex_fs _ _ _ H)) in Hb by done. done.
    + unfold marked, bit, zlookup in Hm. destruct (Z.leb_spec 0 (b / 8)); [|done].
      exfalso. Z.div_mod_to_equations; lia.
  - intros b Hb. by apply (ex_keep _ _ _ H'), (ex_keep _ _ _ H).
  - apply (same_but_trans _ _ (f_mem s')); [apply (ex_mem _ _ _ H)|apply (ex_mem _ _ _ H')].
Qed.

(** ** The free map *)

Lemma fs_ok_marked f fm n b :
  fs_ok f → bitmap_wf fm → bit_updated (sfs_freemap f) fm b true → 0 ≤ b →
  let f' := with_freemapdirty n (with_freemap fm f) in
  fs_ok f' ∧ (n ≠ 0 → fs_ext f f') ∧ marked f' b = true.
Proof.
  intros [Hwf Hnb Hbits Hbey Hsb] Hfm (Hn & Hb & Hother) Hb0 f'.
  assert (∀ x, 0 ≤ x → marked f x = true → marked f' x = true) as Hmk.
  { intros x Hx0 Hx. unfold marked, f'. cbn. destruct (decide (x = b)) as [->|]; [done|].
    by rewrite Hother. }
  split; [|split; [|done]].
  - split; cbn; try done; try (rewrite Hn; done).
    + intros x Hx. change (nblocks f ≤ x < nbits fm) in Hx. rewrite Hn in Hx.
      apply Hmk; [lia|by apply Hbey].
    + by apply Hmk.
  - intros. split; cbn; try done. by right.
Qed.

Lemma marked_false_beyond f b : fs_ok f → 0 ≤ b < nbits (sfs_freemap f) → marked f b = false → 0 < b < nblocks f.
Proof.
  intros Hf Hb Hm. split.
  - destruct (decide (b = 0)) as [->|]; [|lia]. pose proof (fs_sb _ Hf) as Hsb.
    unfold SFS_SB_LOCATION in Hsb. congruence.
  - destruct (decide (b < nblocks f)); [done|]. rewrite (fs_beyond _ Hf) in Hm by lia. done.
Qed.

Lemma sfs_bused_ok F s b (Q : bool → Sfs.F D → Prop) E :
  fs_ok (f_fs s) → 0 ≤ b < nblocks (f_fs s) → Q (marked (f_fs s) b) s → wp F (sfs_bused b) s Q E.
Proof.
  intros Hf Hb HQ. unfold sfs_bused, on_freemap. wp_steps. fold (nblocks (f_fs s)).
  destruct (Z.leb_spec (nblocks (f_fs s)) b); [lia|]. wp_steps.
  eapply wp_mono; [apply (bitmap_isset_ok F (sfs_freemap (f_fs s)) b); [apply Hf|]| |done].
  { pose proof (fs_nbits _ Hf). lia. }
  intros r fm [-> Hr]. wp_steps. rewrite Hr, negb_involutive.
  replace (with_fs _ s) with s; [done|]. by destruct s as [? ? [] ? ?].
Qed.

Lemma hand_back_ok F s b (Q : Z → Sfs.F D → Prop) E :
  fs_ok (f_fs s) → (b ≠ 0 → in_use (f_fs s) b) → Q b s → wp F (hand_back b) s Q E.
Proof.
  intros Hf Hb HQ. unfold hand_back. destruct (Z.eqb_spec b 0) as [->|]; [by wp_steps|].
  destruct Hb as [Hb Hm]; [done|]. wp_steps. apply sfs_bused_ok; [done|lia|]. rewrite Hm. by wp_steps.
Qed.

(** The state after an allocation *)
Definition after_alloc fm d c s : F D :=
  MkF d c (with_freemapdirty 1 (with_freemap fm (f_fs s))) (f_sv s) (f_at s).

Definition full f : Prop := ∀ b, 0 ≤ b < nblocks f → marked f b = true.

Lemma sfs_balloc_ok s (Q : Z → F D → Prop) (E : Z → F D → Prop) :
  dev_ok (f_dev s) → mem_ok st (f_mem s) → fs_ok (f_fs s) →
  (∀ b fm d c, marked (f_fs s) b = false → 0 < b < nblocks (f_fs s) →
     bitmap_wf fm → bit_updated (sfs_freemap (f_fs s)) fm b true → dev_ok d →
     (∀ b' k, 0 ≤ k < SFS_BLOCKSIZE → dbyte d b' k = if b' =? b then 0 else dbyte (f_dev s) b' k) →
     same_but dev_area (f_mem s) c → Q b (after_alloc fm d c s)) →
  (full (f_fs s) → E ENOSPC s) →
  (∀ e b fm d c, dev_error e → 0 < b < nblocks (f_fs s) →
     bitmap_wf fm → bit_updated (sfs_freemap (f_fs s)) fm b true → dev_ok d →
     same_disk (f_dev s) d → same_but dev_area (f_mem s) c → E e (after_alloc fm d c s)) →
  wp safe (sfs_balloc st) s Q E.
Proof.
  intros Hd Hc Hf HQ HE1 HE2. unfold sfs_balloc, on_freemap, set_freemapdirty. wp_steps.
  eapply wp_mono; [apply (bitmap_alloc_ok (sfs_freemap (f_fs s))), Hf| |].
  2: { intros e fm (-> & -> & Hfull). replace (with_fs _ s) with s by (by destruct s as [? ? [] ? ?]).
       apply HE1. intros b Hb. apply Hfull. pose proof (fs_nbits _ Hf). lia. }
  intros b fm (Hb & Hfree & _ & Hwf & Hup). wp_steps. cbn.
  pose proof (marked_false_beyond _ _ Hf Hb Hfree) as Hr. fold (nblocks (f_fs s)).
  destruct (Z.leb_spec (nblocks (f_fs s)) b); [lia|]. unfold sfs_clearblock, on_io. wp_steps. cbn.
  apply sfs_wblock_ok; [done|apply Hc|apply Hst|pose proof (fs_nblocks _ Hf); lia| |].
  - intros d c Hd' Hw Hs. wp_steps. apply (HQ b fm d c); try done.
    intros b' k Hk. rewrite Hw by done. destruct (b' =? b); [|done]. apply (mo_zero _ _ Hc). left.
    unfold range. lia.
  - intros e d c He Hd' Hs Hm. by apply (HE2 e b fm d c).
Qed.

(** ** Steps that keep the contents of the file *)

(** Nothing but memory of [P] has changed. *)
Record quiet (P : Z → Prop) s s' : Prop := {
  q_dev : dev_ok (f_dev s');
  q_disk : same_disk (f_dev s) (f_dev s');
  q_fs : f_fs s' = f_fs s;
  q_sv : f_sv s' = f_sv s;
  q_at : f_at s' = f_at s;
  q_mem : same_but P (f_mem s) (f_mem s');
}.

(** Blocks may have been added, with zeros in them. *)
Record grown s s' : Prop := {
  gr_ok : st_ok st s';
  gr_ext : ext st s s';
  gr_meta : same_meta (f_i s) (f_i s');
  gr_bytes : same_bytes s s';
  gr_blocks n : 0 ≤ n < MAXBLOCKS → fblock (f_dev s) (f_i s) n ≠ 0 →
    fblock (f_dev s') (f_i s') n = fblock (f_dev s) (f_i s) n;
}.

Lemma quiet_refl P s : dev_ok (f_dev s) → badfaultfunc (f_mem s) = false → quiet P s s.
Proof. by split. Qed.

Lemma quiet_trans P s s' s'' : quiet P s s' → quiet P s' s'' → quiet P s s''.
Proof.
  intros [? Hd ? ? ? Hm] [? Hd' ? ? ? Hm']. split; try congruence.
  - intros b k Hk. by rewrite Hd', Hd.
  - by eapply same_but_trans.
Qed.

Lemma quiet_mono (P P' : Z → Prop) s s' : quiet P s s' → (∀ x, P x → P' x) → quiet P' s s'.
Proof. intros [] HP. split; try done. by eapply same_but_mono. Qed.

Lemma quiet_i P s s' : quiet P s s' → f_i s' = f_i s.
Proof. intros H. unfold f_i. by rewrite (q_sv _ _ _ H). Qed.

Lemma quiet_fblock P s s' n : quiet P s s' → fblock (f_dev s') (f_i s') n = fblock (f_dev s) (f_i s) n.
Proof. intros H. rewrite (quiet_i _ _ _ H). apply fblock_ext. intros _ k Hk. by apply (q_disk _ _ _ H). Qed.

Lemma fbyte_mod x : 0 ≤ x `mod` SFS_BLOCKSIZE < SFS_BLOCKSIZE.
Proof. by apply Z.mod_pos_bound. Qed.

Lemma quiet_fbyte P s s' x : quiet P s s' → fbyte (f_dev s') (f_i s') x = fbyte (f_dev s) (f_i s) x.
Proof.
  intros H. unfold fbyte. rewrite (quiet_fblock _ _ _ _ H). destruct (_ =? 0); [done|].
  apply (q_disk _ _ _ H), fbyte_mod.
Qed.

Lemma quiet_owns P s s' b : quiet P s s' → owns (f_dev s') (f_i s') b ↔ owns (f_dev s) (f_i s) b.
Proof. intros H. rewrite (quiet_i _ _ _ H). apply owns_ext. intros _ k Hk. by apply (q_disk _ _ _ H). Qed.

Lemma quiet_ok P s s' :
  st_ok st s → quiet P s s' → (∀ x, P x → ¬ zero_area st x) → st_ok st s'.
Proof.
  intros [Hd Hc Hf Hi] H HP. split.
  - apply H.
  - eapply mem_ok_but; [done|apply H|done].
  - by rewrite (q_fs _ _ _ H).
  - rewrite (q_fs _ _ _ H), (quiet_i _ _ _ H). eapply file_ok_disk; [done|].
    intros k Hk _. by apply (q_disk _ _ _ H).
Qed.

Lemma scratch_not_zero x : scratch st x → ¬ zero_area st x.
Proof. intros H1 H2. by apply (bo_apart _ Hst x). Qed.

Lemma quiet_grown s s' : st_ok st s → quiet (scratch st) s s' → grown s s'.
Proof.
  intros Hok H. split.
  - by eapply quiet_ok; [..|apply scratch_not_zero].
  - split.
    + rewrite (q_fs _ _ _ H). apply fs_ext_refl.
    + by rewrite (q_sv _ _ _ H), (q_at _ _ _ H).
    + left. apply H.
    + intros b k Hk _ _ _. by apply (q_disk _ _ _ H).
    + intros b Hb. left. by apply (quiet_owns _ _ _ _ H).
    + intros b Hb. by apply (quiet_owns _ _ _ _ H).
    + apply H.
  - by rewrite (quiet_i _ _ _ H).
  - intros x _. by eapply quiet_fbyte.
  - intros n _ _. by eapply quiet_fblock.
Qed.

Lemma grown_trans s s' s'' : st_ok st s → grown s s' → grown s' s'' → grown s s''.
Proof.
  intros Hok [Ho He (?&?&?&?) Hb Hk] [Ho' He' (?&?&?&?) Hb' Hk']. split.
  - done.
  - eapply ext_trans; [apply Hok|done..].
  - split_and!; congruence.
  - intros x Hx. by rewrite Hb', Hb.
  - intros n Hn Hnz. rewrite Hk'; [by apply Hk|done|by rewrite Hk].
Qed.

(** A step that adds the block [b] to what the file owns, as its data block [n] when
    [ind] is false and as its indirect block otherwise *)
Record adds s s' (b : Z) : Prop := {
  ad_range : 0 < b < nblocks (f_fs s);
  ad_free : marked (f_fs s) b = false;
  ad_dev : dev_ok (f_dev s');
  ad_mem : same_but (scratch st) (f_mem s) (f_mem s');
  ad_fs : fs_ok (f_fs s') ∧ fs_ext (f_fs s) (f_fs s') ∧ marked (f_fs s') b = true;
  ad_v : sv_v (f_sv s') = sv_v (f_sv s) ∧ sv_ino (f_sv s') = sv_ino (f_sv s) ∧ f_at s' = f_at s;
  ad_dirty : f_sv s' = f_sv s ∨ sv_dirty (f_sv s') ≠ 0;
  ad_meta : same_meta (f_i s) (f_i s');
  ad_wf : inode_wf (f_i s');
  ad_disk b' k : 0 ≤ k < SFS_BLOCKSIZE → marked (f_fs s) b' = true →
    b' = 0 ∨ b' ≠ sfi_indirect (f_i s) → dbyte (f_dev s') b' k = dbyte (f_dev s) b' k;
  ad_zero k : 0 ≤ k < SFS_BLOCKSIZE → dbyte (f_dev s') b k = 0;
}.

Lemma div_block x : 0 ≤ x < MAXSIZE → 0 ≤ x / SFS_BLOCKSIZE < MAXBLOCKS.
Proof. unfold MAXSIZE, MAXBLOCKS, SFS_NDIRECT, SFS_DBPERIDB, SFS_BLOCKSIZE. intros. Z.div_mod_to_equations; lia. Qed.

Lemma adds_grown s s' b :
  st_ok st s → adds s s' b → file_ok (f_fs s') (f_dev s') (f_i s') →
  (∀ x, owns (f_dev s') (f_i s') x ↔ owns (f_dev s) (f_i s) x ∨ x = b) →
  (∀ m, 0 ≤ m < MAXBLOCKS → fblock (f_dev s') (f_i s') m = fblock (f_dev s) (f_i s) m ∨
     fblock (f_dev s) (f_i s) m = 0 ∧ fblock (f_dev s') (f_i s') m = b) →
  grown s s'.
Proof.
  intros Hok Ha Hfile Hown Hf. pose proof Ha as [Hr Hfree Hd Hm (Hfs & Hfx & Hmk) Hv Hdi Hme Hwf Hdisk Hz].
  pose proof (so_file _ _ Hok) as Hfo. split.
  - split; [done| |done|done]. eapply mem_ok_scratch; [done|apply Hok|done].
  - split; try done.
    + intros x k Hk Hx Hmx Ho. apply Hdisk; [done|done|].
      destruct (decide (x = 0)); [by left|right]. intros ->. by apply Ho, owns_indirect.
    + intros x [Hx| ->]%Hown; [by left|by right].
    + intros x Hx. apply Hown. by left.
  - done.
  - intros x Hx. unfold fbyte. pose proof (div_block x Hx) as Hn.
    destruct (Hf _ Hn) as [->|[-> ->]].
    + destruct (Z.eqb_spec (fblock (f_dev s) (f_i s) (x / SFS_BLOCKSIZE)) 0); [done|].
      destruct (fo_used _ _ _ Hfo (fblock (f_dev s) (f_i s) (x / SFS_BLOCKSIZE))) as [? ?]; [by apply owns_fblock|].
      apply Hdisk; [apply fbyte_mod|done|]. right. by apply (fo_ind _ _ _ Hfo).
    + cbn. destruct (b =? 0); [done|]. apply Hz, fbyte_mod.
  - intros n Hn Hnz. by destruct (Hf n Hn) as [|[? _]].
Qed.
(** ** The block map *)

Lemma dev_area_scratch c c' : same_but dev_area c c' → same_but (scratch st) c c'.
Proof. intros H. eapply same_but_mono; [done|]. intros x Hx. by left. Qed.

Lemma idbuf_scratch c c' :
  same_but (λ x, dev_area x ∨ range (idbuf_at st) SFS_BLOCKSIZE x) c c' → same_but (scratch st) c c'.
Proof. intros H. eapply same_but_mono; [done|]. intros x [|]; [by left|right; by left]. Qed.

Lemma direct_lookup i n : inode_wf i → 0 ≤ n < SFS_NDIRECT → ∃ b, zlookup (sfi_direct i) n = Some b.
Proof. intros [] Hn. apply zlookup_lt_is_Some. rewrite iw_direct. unfold SFS_NDIRECT in Hn. lia. Qed.

Lemma fblock_used s n b :
  st_ok st s → 0 ≤ n < MAXBLOCKS → fblock (f_dev s) (f_i s) n = b → b ≠ 0 → in_use (f_fs s) b.
Proof. intros Hok Hn <- Hb. apply (fo_used _ _ _ (so_file _ _ Hok)). by apply owns_fblock. Qed.

Lemma indirect_used s : st_ok st s → sfi_indirect (f_i s) ≠ 0 → in_use (f_fs s) (sfi_indirect (f_i s)).
Proof. intros Hok Hb. apply (fo_used _ _ _ (so_file _ _ Hok)). by apply owns_indirect. Qed.

Lemma in_use_dev s b : st_ok st s → in_use (f_fs s) b → 0 ≤ b < dev_blocks.
Proof. intros Hok [Hb _]. pose proof (fs_nblocks _ (so_fs _ _ Hok)). lia. Qed.

Lemma fblock_indirect d i n :
  SFS_NDIRECT ≤ n → sfi_indirect i ≠ 0 →
  fblock d i n = default 0 (zlookup (words_of (sector d (sfi_indirect i))) (n - SFS_NDIRECT)).
Proof.
  intros Hn Hi. unfold fblock. destruct (Z.ltb_spec n SFS_NDIRECT); [lia|].
  by destruct (Z.eqb_spec (sfi_indirect i) 0).
Qed.

(** The position of a block in the indirect block *)
Lemma indirect_index n : SFS_NDIRECT ≤ n →
  (0 <? (n - SFS_NDIRECT) / SFS_DBPERIDB) = (MAXBLOCKS <=? n) ∧
  (n < MAXBLOCKS → (n - SFS_NDIRECT) `mod` SFS_DBPERIDB = n - SFS_NDIRECT ∧ n - SFS_NDIRECT < 128).
Proof.
  unfold MAXBLOCKS, SFS_NDIRECT, SFS_DBPERIDB. intros Hn. split.
  - destruct (Z.ltb_spec 0 ((n - 15) / 128)), (Z.leb_spec (15 + 128) n); try done; exfalso; Z.div_mod_to_equations; lia.
  - intros Hm. rewrite Z.mod_small; lia.
Qed.

Lemma sfs_bmap_read s n (Q : Z → F D → Prop) (E : Z → F D → Prop) :
  st_ok st s → 0 ≤ n →
  (∀ s', n < MAXBLOCKS → quiet (scratch st) s s' → Q (fblock (f_dev s) (f_i s) n) s') →
  (MAXBLOCKS ≤ n → E EINVAL s) →
  (∀ e s', dev_error e → quiet (scratch st) s s' → E e s') →
  wp safe (sfs_bmap st n false) s Q E.
Proof.
  intros Hok Hn HQ HE1 HE2. pose proof Hok as [Hd Hc Hf Hfo]. unfold sfs_bmap, get_i.
  assert (quiet (scratch st) s s) as Hrefl by (apply quiet_refl; [done|apply Hc]).
  assert (SFS_NDIRECT < MAXBLOCKS) as Hmax by done.
  destruct (Z.ltb_spec n SFS_NDIRECT) as [Hlt|Hge].
  - wp_steps. destruct (direct_lookup (f_i s) n) as [b Hb]; [apply Hfo|done|]. wp_the b by done.
    rewrite andb_false_r. pose proof (fblock_direct (f_dev s) (f_i s) n Hlt) as Hfb. rewrite Hb in Hfb. cbn in Hfb.
    apply hand_back_ok; [done| |].
    + intros Hnz. eapply fblock_used; [done| |done|done]. lia.
    + rewrite <- Hfb. apply HQ; [lia|done].
  - destruct (indirect_index n Hge) as [-> Hidx]. destruct (Z.leb_spec MAXBLOCKS n) as [|Hlt].
    { wp_steps. by apply HE1. }
    destruct (Hidx Hlt) as [-> Hsmall]. wp_steps.
    rewrite andb_true_r. destruct (Z.eqb_spec (sfi_indirect (f_i s)) 0) as [Hz|Hz].
    + wp_steps. replace 0 with (fblock (f_dev s) (f_i s) n); [by apply HQ|].
      unfold fblock. rewrite Hz. destruct (n <? SFS_NDIRECT) eqn:?; [lia|done].
    + unfold on_io, load. wp_steps. pose proof (in_use_dev s _ Hok (indirect_used s Hok Hz)) as Hid.
      apply sfs_rblock_ok; [done|apply Hc|apply Hst|done| |].
      2: { intros e d' c' He Hd' Hs Hm. apply HE2; [done|]. split; try done. by apply idbuf_scratch. }
      intros d' c' Hd' Hs Hm Hr. wp_steps. cbn. rewrite (peek_sector _ _ _ _ Hr). unfold bmap_entry.
      set (s' := with_io (d', c') s).
      assert (quiet (scratch st) s s') as Hq by (split; try done; by apply idbuf_scratch).
      destruct (zlookup_lt_is_Some (words_of (sector (f_dev s) (sfi_indirect (f_i s)))) (n - SFS_NDIRECT)) as [b Hb].
      { rewrite length_idwords. lia. }
      wp_the b by done. rewrite andb_false_r.
      pose proof (fblock_indirect (f_dev s) (f_i s) n Hge Hz) as Hfb. rewrite Hb in Hfb. cbn in Hfb.
      apply hand_back_ok; [done| |].
      * intros Hnz. eapply (fblock_used s n); [done|lia|done|done].
      * rewrite <- Hfb. by apply HQ.
Qed.
(** ** The block map when blocks are added *)

(** Why no block could be added *)
Definition alloc_error (n : Z) s' (e : Z) : Prop :=
  dev_error e ∨ e = ENOSPC ∧ full (f_fs s') ∨ e = EINVAL ∧ MAXBLOCKS ≤ n.

(** A block was marked, but does not belong to the file. *)
Lemma grown_leak s b fm d c :
  st_ok st s → 0 < b < nblocks (f_fs s) → bitmap_wf fm →
  bit_updated (sfs_freemap (f_fs s)) fm b true → dev_ok d →
  (∀ b' k, 0 ≤ k < SFS_BLOCKSIZE → marked (f_fs s) b' = true → dbyte d b' k = dbyte (f_dev s) b' k) →
  same_but (scratch st) (f_mem s) c → grown s (after_alloc fm d c s).
Proof.
  intros Hok Hb Hfm Hup Hd Hs Hm. pose proof Hok as [_ Hc Hf Hfo].
  destruct (fs_ok_marked (f_fs s) fm 1 b Hf Hfm Hup) as (Hf' & Hfx & _); [lia|]. specialize (Hfx ltac:(done)).
  assert (sfi_indirect (f_i s) ≠ 0 → ∀ k, 0 ≤ k < SFS_BLOCKSIZE →
    dbyte d (sfi_indirect (f_i s)) k = dbyte (f_dev s) (sfi_indirect (f_i s)) k) as Hind.
  { intros Hz k Hk. apply Hs; [done|]. by apply (indirect_used s Hok). }
  assert (∀ n, fblock d (f_i s) n = fblock (f_dev s) (f_i s) n) as Hfb.
  { intros n. by apply fblock_ext. }
  assert (∀ x, owns d (f_i s) x ↔ owns (f_dev s) (f_i s) x) as Hown by (intros x; by apply owns_ext).
  split.
  - split; cbn; [done| |done|].
    + by eapply mem_ok_scratch.
    + eapply file_ok_disk; [|auto]. eapply file_ok_marked; [done|done|apply Hfx].
  - split; cbn; try done.
    + by left.
    + intros x k Hk _ Hx _. by apply Hs.
    + intros x Hx. left. by apply Hown.
    + intros x Hx. by apply Hown.
  - done.
  - intros x Hx. unfold fbyte. cbn. change (f_i (after_alloc fm d c s)) with (f_i s). rewrite Hfb.
    destruct (Z.eqb_spec (fblock (f_dev s) (f_i s) (x / SFS_BLOCKSIZE)) 0); [done|].
    apply Hs; [apply fbyte_mod|]. eapply (fblock_used s (x / SFS_BLOCKSIZE)); [done|by apply div_block|done|done].
  - intros n _ _. apply Hfb.
Qed.

Lemma alloc_adds s b fm d c v' :
  st_ok st s → marked (f_fs s) b = false → 0 < b < nblocks (f_fs s) → bitmap_wf fm →
  bit_updated (sfs_freemap (f_fs s)) fm b true → dev_ok d →
  (∀ b' k, 0 ≤ k < SFS_BLOCKSIZE → dbyte d b' k = if b' =? b then 0 else dbyte (f_dev s) b' k) →
  same_but dev_area (f_mem s) c →
  sv_v v' = sv_v (f_sv s) → sv_ino v' = sv_ino (f_sv s) → v' = f_sv s ∨ sv_dirty v' ≠ 0 →
  same_meta (f_i s) (sv_i v') → inode_wf (sv_i v') →
  adds s (with_sv v' (after_alloc fm d c s)) b.
Proof.
  intros Hok Hfree Hb Hfm Hup Hd Hdisk Hm Hv Hino Hdi Hme Hwf. pose proof Hok as [_ Hc Hf Hfo].
  destruct (fs_ok_marked (f_fs s) fm 1 b Hf Hfm Hup) as (Hf' & Hfx & Hmk); [lia|]. specialize (Hfx ltac:(done)).
  split; cbn; try done.
  - by apply dev_area_scratch.
  - intros b' k Hk Hmb _. rewrite Hdisk by done. destruct (Z.eqb_spec b' b); [congruence|done].
  - intros k Hk. rewrite Hdisk by done. by rewrite Z.eqb_refl.
Qed.

(** The old block map on the disk with the new block *)
Lemma fblock_alloc s d b m :
  st_ok st s → marked (f_fs s) b = false →
  (∀ b' k, 0 ≤ k < SFS_BLOCKSIZE → dbyte d b' k = if b' =? b then 0 else dbyte (f_dev s) b' k) →
  fblock d (f_i s) m = fblock (f_dev s) (f_i s) m.
Proof.
  intros Hok Hfree Hdisk. apply fblock_ext. intros Hz k Hk. rewrite Hdisk by done.
  destruct (Z.eqb_spec (sfi_indirect (f_i s)) b) as [Heq|]; [|done].
  destruct (indirect_used s Hok Hz) as [_ Hu]. congruence.
Qed.

Lemma inode_wf_direct i n b : inode_wf i → is_u32 b → inode_wf (set_direct (<[n := b]> (sfi_direct i)) i).
Proof. intros [] Hb. split; cbn; try done; [by rewrite length_insert|by apply Forall_insert]. Qed.

Lemma nblocks_u32 s b : st_ok st s → 0 < b < nblocks (f_fs s) → is_u32 b.
Proof.
  intros Hok Hb. pose proof (fs_nblocks _ (so_fs _ _ Hok)). pose proof dev_blocks_max. unfold is_u32. lia.
Qed.

Lemma grown_direct s n b fm d c :
  st_ok st s → 0 ≤ n < SFS_NDIRECT → fblock (f_dev s) (f_i s) n = 0 →
  marked (f_fs s) b = false → 0 < b < nblocks (f_fs s) → bitmap_wf fm →
  bit_updated (sfs_freemap (f_fs s)) fm b true → dev_ok d →
  (∀ b' k, 0 ≤ k < SFS_BLOCKSIZE → dbyte d b' k = if b' =? b then 0 else dbyte (f_dev s) b' k) →
  same_but dev_area (f_mem s) c →
  let i' := set_direct (<[Z.to_nat n := b]> (sfi_direct (f_i s))) (f_i s) in
  let s' := with_sv (with_dirty 1 (with_inode i' (f_sv s))) (after_alloc fm d c s) in
  grown s s' ∧ fblock d i' n = b.
Proof.
  intros Hok Hn Hz Hfree Hb Hfm Hup Hd Hdisk Hm i' s'. pose proof (so_file _ _ Hok) as Hfo.
  pose proof (fo_wf _ _ _ Hfo) as Hwf. pose proof (iw_direct _ Hwf) as Hlen.
  assert (inode_wf i') as Hwf' by (apply inode_wf_direct; [done|by eapply nblocks_u32]).
  assert (adds s s' b) as Ha by (apply alloc_adds; try done; by right).
  assert (∀ m, 0 ≤ m < MAXBLOCKS → fblock d i' m = if m =? n then b else fblock (f_dev s) (f_i s) m) as Hf.
  { intros m Hmr. rewrite <- (fblock_alloc s d b m Hok Hfree Hdisk). unfold fblock. cbn.
    unfold SFS_NDIRECT in *. destruct (Z.ltb_spec m 15).
    - rewrite zlookup_insert by lia. destruct (decide (n = m)) as [->|]; [by rewrite Z.eqb_refl|].
      by destruct (Z.eqb_spec m n); [lia|].
    - by destruct (Z.eqb_spec m n); [lia|]. }
  assert (n < MAXBLOCKS) as Hn' by (unfold MAXBLOCKS, SFS_NDIRECT, SFS_DBPERIDB in *; lia).
  destruct (ad_fs _ _ _ Ha) as (Hf' & Hfx & Hmk).
  destruct (file_ok_new_block (f_fs s) (f_fs s') (f_dev s) d (f_i s) i' n b) as [Hfo' Hown]; try done.
  { lia. }
  { apply Hfx. }
  split; [|rewrite Hf by lia; by rewrite Z.eqb_refl].
  apply (adds_grown s s' b Hok Ha Hfo' Hown). intros m Hmr. cbn. rewrite Hf by done.
  destruct (Z.eqb_spec m n) as [->|]; [by right|by left].
Qed.
(** A block of zeros as an indirect block *)
Lemma words_of_zeros n : words_of (replicate (4 * n) 0) = replicate n 0.
Proof.
  induction n as [|n IH]; [done|]. replace (4 * S n)%nat with (S (S (S (S (4 * n))))) by lia.
  cbn [replicate words_of]. by rewrite IH.
Qed.

Lemma sector_zeros d b :
  (∀ k, 0 ≤ k < SFS_BLOCKSIZE → dbyte d b k = 0) → words_of (sector d b) = replicate 128 0.
Proof.
  intros Hz. rewrite <- (words_of_zeros 128). f_equal. apply zlist_eq; [by rewrite length_sector|].
  rewrite length_sector. intros k Hk. unfold zlookup, sector. destruct (Z.leb_spec 0 k); [|lia].
  rewrite list_lookup_fmap, lookup_seqZ_lt by (unfold SFS_BLOCKSIZE; lia). cbn [fmap option_fmap option_map].
  rewrite Hz by (unfold SFS_BLOCKSIZE; lia). symmetry. apply lookup_replicate. split; [done|lia].
Qed.

Lemma zlookup_zeros n k : default 0 (zlookup (replicate n 0) k) = 0.
Proof.
  unfold zlookup. destruct (0 <=? k); [|done]. destruct (replicate n 0 !! Z.to_nat k) eqn:Hk; [|done].
  by apply lookup_replicate in Hk as [-> _].
Qed.

Lemma inode_wf_indirect i b : inode_wf i → is_u32 b → inode_wf (set_indirect b i).
Proof. intros [] Hb. by split. Qed.

Lemma grown_indirect s b fm d c :
  st_ok st s → sfi_indirect (f_i s) = 0 →
  marked (f_fs s) b = false → 0 < b < nblocks (f_fs s) → bitmap_wf fm →
  bit_updated (sfs_freemap (f_fs s)) fm b true → dev_ok d →
  (∀ b' k, 0 ≤ k < SFS_BLOCKSIZE → dbyte d b' k = if b' =? b then 0 else dbyte (f_dev s) b' k) →
  same_but dev_area (f_mem s) c →
  let s' := with_sv (with_dirty 1 (with_inode (set_indirect b (f_i s)) (f_sv s))) (after_alloc fm d c s) in
  grown s s' ∧ words_of (sector d b) = replicate 128 0.
Proof.
  intros Hok Hz Hfree Hb Hfm Hup Hd Hdisk Hm s'. pose proof (so_file _ _ Hok) as Hfo.
  set (i' := set_indirect b (f_i s)).
  assert (inode_wf i') as Hwf' by (apply inode_wf_indirect; [apply Hfo|by eapply nblocks_u32]).
  assert (adds s s' b) as Ha by (apply alloc_adds; try done; by right).
  assert (words_of (sector d b) = replicate 128 0) as Hzero.
  { apply sector_zeros. intros k Hk. rewrite Hdisk by done. by rewrite Z.eqb_refl. }
  assert (∀ m, 0 ≤ m < MAXBLOCKS → fblock d i' m = fblock (f_dev s) (f_i s) m) as Hf.
  { intros m Hmr. unfold fblock. cbn. rewrite Hz. destruct (m <? SFS_NDIRECT); [done|].
    destruct (b =? 0); [done|]. rewrite Hzero. apply zlookup_zeros. }
  destruct (ad_fs _ _ _ Ha) as (Hf' & Hfx & Hmk).
  destruct (file_ok_new_indirect (f_fs s) (f_fs s') (f_dev s) d (f_i s) i' b) as [Hfo' Hown]; try done.
  { apply Hfx. }
  split; [|done]. apply (adds_grown s s' b Hok Ha Hfo' Hown). intros m Hmr. left. by apply Hf.
Qed.

(** A new entry of the indirect block, which has been written back *)
Lemma grown_entry s n b fm d c d' c' :
  st_ok st s → SFS_NDIRECT ≤ n < MAXBLOCKS → fblock (f_dev s) (f_i s) n = 0 →
  sfi_indirect (f_i s) ≠ 0 →
  marked (f_fs s) b = false → 0 < b < nblocks (f_fs s) → bitmap_wf fm →
  bit_updated (sfs_freemap (f_fs s)) fm b true → dev_ok d' →
  (∀ b' k, 0 ≤ k < SFS_BLOCKSIZE → dbyte d b' k = if b' =? b then 0 else dbyte (f_dev s) b' k) →
  same_but dev_area (f_mem s) c → same_but (scratch st) c c' →
  let ws := words_of (sector (f_dev s) (sfi_indirect (f_i s))) in
  (∀ b' k, 0 ≤ k < SFS_BLOCKSIZE → b' ≠ sfi_indirect (f_i s) → dbyte d' b' k = dbyte d b' k) →
  words_of (sector d' (sfi_indirect (f_i s))) = <[Z.to_nat (n - SFS_NDIRECT) := b]> ws →
  let s' := after_alloc fm d' c' s in
  grown s s' ∧ fblock d' (f_i s) n = b.
Proof.
  intros Hok Hn Hz Hind Hfree Hb Hfm Hup Hd Hdisk Hm Hm' ws Hw Hws s'. pose proof (so_file _ _ Hok) as Hfo.
  destruct (indirect_used s Hok Hind) as [_ Hu].
  assert (b ≠ sfi_indirect (f_i s)) as Hne by congruence.
  assert (adds s s' b) as Ha.
  { destruct (fs_ok_marked (f_fs s) fm 1 b (so_fs _ _ Hok) Hfm Hup) as (Hf' & Hfx & Hmk); [lia|].
    specialize (Hfx ltac:(done)). split; cbn; try done.
    - eapply same_but_trans; [by apply dev_area_scratch|done].
    - by left.
    - apply Hfo.
    - intros b' k Hk Hmb Hb'. destruct (decide (b' = sfi_indirect (f_i s))) as [->|].
      + destruct Hb' as [|]; congruence.
      + rewrite Hw, Hdisk by done. by destruct (Z.eqb_spec b' b); [congruence|].
    - intros k Hk. rewrite Hw, Hdisk by done. by rewrite Z.eqb_refl. }
  assert (∀ m, 0 ≤ m < MAXBLOCKS → fblock d' (f_i s) m = if m =? n then b else fblock (f_dev s) (f_i s) m) as Hf.
  { intros m Hmr. destruct (Z.ltb_spec m SFS_NDIRECT) as [Hlt|Hge].
    - rewrite !fblock_direct by done. by destruct (Z.eqb_spec m n); [lia|].
    - rewrite !fblock_indirect by done. rewrite Hws, zlookup_insert by (unfold ws; rewrite ?length_idwords; unfold MAXBLOCKS, SFS_NDIRECT, SFS_DBPERIDB in *; lia).
      destruct (Z.eqb_spec m n) as [->|]; [by rewrite decide_True|]. by rewrite decide_False by lia. }
  destruct (ad_fs _ _ _ Ha) as (Hf' & Hfx & Hmk). assert (0 ≤ n < MAXBLOCKS) as Hn' by (unfold SFS_NDIRECT in Hn; lia).
  destruct (file_ok_new_block (f_fs s) (f_fs s') (f_dev s) d' (f_i s) (f_i s) n b) as [Hfo' Hown]; try done.
  { apply Hfx. }
  { apply Hfo. }
  split; [|rewrite Hf by lia; by rewrite Z.eqb_refl].
  apply (adds_grown s s' b Hok Ha Hfo' Hown). intros m Hmr. cbn. rewrite Hf by done.
  destruct (Z.eqb_spec m n) as [->|]; [by right|by left].
Qed.
Lemma zlookup_default l k (b : Z) : zlookup l k = Some b → default 0 (zlookup l k) = b.
Proof. by intros ->. Qed.

Lemma bmap_entry_ok s n (Q : Z → F D → Prop) (E : Z → F D → Prop) :
  st_ok st s → SFS_NDIRECT ≤ n < MAXBLOCKS → sfi_indirect (f_i s) ≠ 0 →
  (∀ b s', b ≠ 0 → fblock (f_dev s') (f_i s') n = b → grown s s' → Q b s') →
  (∀ e s', alloc_error n s' e → grown s s' → E e s') →
  wp safe (bmap_entry st (sfi_indirect (f_i s)) (words_of (sector (f_dev s) (sfi_indirect (f_i s))))
             (n - SFS_NDIRECT) true) s Q E.
Proof.
  intros Hok Hn Hind HQ HE. pose proof Hok as [Hd Hc Hf Hfo]. unfold bmap_entry.
  set (idb := sfi_indirect (f_i s)) in *. set (ws := words_of (sector (f_dev s) idb)).
  assert (0 ≤ n - SFS_NDIRECT < Z.of_nat (length ws)) as Hidx.
  { unfold ws. rewrite length_idwords. unfold MAXBLOCKS, SFS_NDIRECT, SFS_DBPERIDB in *. lia. }
  assert (0 ≤ n < MAXBLOCKS) as Hn' by (unfold SFS_NDIRECT in Hn; lia).
  destruct (zlookup_lt_is_Some ws (n - SFS_NDIRECT) Hidx) as [b Hb]. wp_the b by done.
  assert (fblock (f_dev s) (f_i s) n = b) as Hfb by (rewrite fblock_indirect by (done || lia); by apply zlookup_default).
  rewrite andb_true_r. destruct (Z.eqb_spec b 0) as [Hb0|Hb0].
  2: { apply hand_back_ok; [done|intros; by eapply fblock_used|]. apply HQ; [done|done|].
       apply quiet_grown; [done|]. apply quiet_refl; [done|apply Hc]. }
  rewrite Hb0 in Hfb. clear b Hb Hb0. wp_steps. apply sfs_balloc_ok; [done|done|done| | |].
  2: { intros Hfull. apply HE; [right; by left|]. apply quiet_grown; [done|]. apply quiet_refl; [done|apply Hc]. }
  2: { intros e b fm d c He Hb Hfm Hup Hd' Hs Hm. apply HE; [by left|].
       apply (grown_leak s b); try done; [|by apply dev_area_scratch]. intros b' k Hk _. by apply Hs. }
  intros b fm d c Hfree Hb Hfm Hup Hd' Hdisk Hm. wp_the _ by (by apply zstore_Some).
  set (ws' := <[Z.to_nat (n - SFS_NDIRECT) := b]> ws). unfold store, on_io. wp_steps. cbn.
  destruct (indirect_used s Hok Hind) as [Hir Hu]. fold idb in Hir, Hu. assert (idb ≠ b) as Hne by congruence.
  assert (Forall is_u32 ws') as Hu32.
  { apply Forall_insert; [apply idwords_u32|by eapply nblocks_u32]. }
  assert (length (bytes_of ws') = 512%nat) as Hlen.
  { rewrite length_bytes_of. unfold ws'. rewrite length_insert. unfold ws. by rewrite length_idwords. }
  set (c1 := poke (idbuf_at st) (bytes_of ws') c).
  assert (same_but (scratch st) c c1) as Hm1.
  { split; [apply Hm|]. intros x Hx. apply poke_same_outside. rewrite Hlen. intros Hr. apply Hx. right. by left. }
  apply sfs_wblock_ok; [done|apply Hm|apply Hst|pose proof (fs_nblocks _ Hf); lia| |].
  - intros d' c' Hd'' Hw Hm'. wp_steps. cbn.
    destruct (grown_entry s n b fm d c d' c') as [Hg Hfb']; try done.
    + eapply same_but_trans; [exact Hm1|by apply dev_area_scratch].
    + intros b' k Hk Hb'. rewrite Hw by done. by destruct (Z.eqb_spec b' idb).
    + fold idb ws ws'. rewrite (sector_written _ _ _ _ _ Hw). change SFS_BLOCKSIZE with (Z.of_nat 512). rewrite <- Hlen.
      unfold c1. rewrite peek_poke by apply bytes_of_bytes. by apply words_bytes.
    + apply hand_back_ok; [apply (gr_ok _ _ Hg)| |].
      * intros _. rewrite <- Hfb'. apply (fblock_used _ n _ (gr_ok _ _ Hg)); [done|done|].
        rewrite Hfb'. lia.
      * apply HQ; [lia|done|exact Hg].
  - intros e d' c' He Hd'' Hs Hm'. apply HE; [by left|]. apply (grown_leak s b); try done.
    + intros b' k Hk Hmb. rewrite Hs, Hdisk by done. destruct (Z.eqb_spec b' b); [congruence|done].
    + eapply same_but_trans; [by apply dev_area_scratch|]. eapply same_but_trans; [exact Hm1|by apply dev_area_scratch].
Qed.

Lemma sfs_bmap_write s n (Q : Z → F D → Prop) (E : Z → F D → Prop) :
  st_ok st s → 0 ≤ n →
  (∀ b s', n < MAXBLOCKS → b ≠ 0 → fblock (f_dev s') (f_i s') n = b → grown s s' → Q b s') →
  (∀ e s', alloc_error n s' e → grown s s' → E e s') →
  wp safe (sfs_bmap st n true) s Q E.
Proof.
  intros Hok Hn HQ HE. pose proof Hok as [Hd Hc Hf Hfo]. unfold sfs_bmap, get_i.
  assert (grown s s) as Hrefl by (apply quiet_grown; [done|]; apply quiet_refl; [done|apply Hc]).
  assert (SFS_NDIRECT < MAXBLOCKS) as Hmax by done.
  destruct (Z.ltb_spec n SFS_NDIRECT) as [Hlt|Hge].
  - wp_steps. destruct (direct_lookup (f_i s) n) as [b Hb]; [apply Hfo|done|]. wp_the b by done.
    rewrite andb_true_r. pose proof (fblock_direct (f_dev s) (f_i s) n Hlt) as Hfb. rewrite Hb in Hfb. cbn in Hfb.
    destruct (Z.eqb_spec b 0) as [->|Hb0].
    2: { apply hand_back_ok; [done| |by apply HQ; [lia|..]].
         intros _. eapply fblock_used; [done| |done|done]. lia. }
    wp_steps. apply sfs_balloc_ok; [done|done|done| | |].
    + intros b fm d c Hfree Hbr Hfm Hup Hd' Hdisk Hm. wp_steps.
      destruct (grown_direct s n b fm d c Hok (conj Hn Hlt) Hfb Hfree Hbr Hfm Hup Hd' Hdisk Hm) as [Hg Hfb'].
      pose proof (iw_direct _ (fo_wf _ _ _ Hfo)) as Hlen.
      change (f_i (after_alloc fm d c s)) with (f_i s).
      wp_the _ by (apply zstore_Some; rewrite Hlen; unfold SFS_NDIRECT in *; lia).
      unfold upd_i, set_dirty. wp_steps. apply hand_back_ok; [apply (gr_ok _ _ Hg)| |].
      * intros _. rewrite <- Hfb'. apply (fblock_used _ n _ (gr_ok _ _ Hg)); [lia|done|rewrite Hfb'; lia].
      * apply HQ; [lia|lia|exact Hfb'|exact Hg].
    + intros Hfull. apply HE; [right; by left|done].
    + intros e b fm d c He Hbr Hfm Hup Hd' Hs Hm. apply HE; [by left|].
      apply (grown_leak s b); try done; [|by apply dev_area_scratch]. intros b' k Hk _. by apply Hs.
  - destruct (indirect_index n Hge) as [-> Hidx]. destruct (Z.leb_spec MAXBLOCKS n) as [|Hlt].
    { wp_steps. apply HE; [by right; right|done]. }
    destruct (Hidx Hlt) as [-> Hsmall]. wp_steps. rewrite andb_false_r.
    destruct (Z.eqb_spec (sfi_indirect (f_i s)) 0) as [Hz|Hz]; wp_steps.
    + apply sfs_balloc_ok; [done|done|done| | |].
      * intros b fm d c Hfree Hbr Hfm Hup Hd' Hdisk Hm. unfold upd_i, set_dirty. wp_steps.
        destruct (grown_indirect s b fm d c Hok Hz Hfree Hbr Hfm Hup Hd' Hdisk Hm) as [Hg Hzero].
        set (s' := with_sv (with_dirty 1 (with_inode (set_indirect b (f_i s)) (f_sv s))) (after_alloc fm d c s)) in *.
        change (replicate (Z.to_nat SFS_DBPERIDB) 0) with (replicate 128 (0 : Z)). rewrite <- Hzero.
        apply (bmap_entry_ok s'); [apply Hg|done|cbn; lia| |].
        -- intros b' s'' Hb' Hfb' Hg'. apply HQ; [done|done|done|]. by eapply grown_trans.
        -- intros e s'' He Hg'. apply HE; [done|]. by eapply grown_trans.
      * intros Hfull. apply HE; [right; by left|done].
      * intros e b fm d c He Hbr Hfm Hup Hd' Hs Hm. apply HE; [by left|].
        apply (grown_leak s b); try done; [|by apply dev_area_scratch]. intros b' k Hk _. by apply Hs.
    + unfold on_io, load. wp_steps. pose proof (in_use_dev s _ Hok (indirect_used s Hok Hz)) as Hid.
      apply sfs_rblock_ok; [done|apply Hc|apply Hst|done| |].
      2: { intros e d' c' He Hd' Hs Hm. apply HE; [by left|]. apply quiet_grown; [done|].
           split; try done. by apply idbuf_scratch. }
      intros d' c' Hd' Hs Hm Hr. wp_steps. cbn. rewrite (peek_sector _ _ _ _ Hr).
      set (s' := with_io (d', c') s).
      assert (grown s s') as Hg by (apply quiet_grown; [done|]; split; try done; by apply idbuf_scratch).
      rewrite (sector_ext d' (f_dev s) _ (sfi_indirect (f_i s))) by (intros; symmetry; by apply Hs).
      apply (bmap_entry_ok s'); [apply Hg|done|done| |].
      * intros b' s'' Hb' Hfb' Hg'. apply HQ; [done|done|done|]. by eapply grown_trans.
      * intros e s'' He Hg'. apply HE; [done|]. by eapply grown_trans.
Qed.
End block.
