(* ===== verification/SfsIo.v ===== *)
(** * SFS: reading and writing files

    [sfs_partialio], [sfs_blockio] and [sfs_io] in terms of the bytes of the file. *)

From Stdlib Require Import ZArith Lia.
From stdpp Require Import base list gmap numbers.
From S2P Require Import Prelude CopyInOut Uio Bitmap Array Vnode SfsData SfsDev Sfs SfsInv SfsBlock.

Local Open Scope Z_scope.

Section io.
Context {D : Type} `{!BlockDev D} (user_read user_write : Z → bool) {t_vmspace : Z}.
Context `{HL : !BlockDevLaws D t_vmspace} `{HW : !ReliableWrites D t_vmspace} (st : buffers) (Hst : buffers_ok st).
Implicit Types (d : D) (c : copystate) (i : sfs_inode) (f : sfs_fs) (s : F D) (u : uio).

Notation partialio := (sfs_partialio user_read user_write t_vmspace st).
Notation blockio := (sfs_blockio user_read user_write t_vmspace st).

(** ** Requests *)

Record request u (rw : Z) : Prop := {
  rq_wf : uio_wf t_vmspace u;
  rq_rw : uio_rw u = rw;
  rq_off : 0 ≤ uio_offset u ∧ uio_offset u + uio_resid u < 2 ^ 31;
  rq_apart x : uio_mem u x → ¬ scratch st x ∧ ¬ zero_area st x;
}.

Lemma advance_offset u n rw :
  request u rw → 0 ≤ n ≤ uio_resid u → uio_offset (advance n u) = uio_offset u + n.
Proof. intros [_ _ [] _] Hn. cbn. apply s32_small. lia. Qed.

Lemma request_advance u n rw :
  request u rw → 0 ≤ n ≤ uio_resid u → iov_base (uio_iovec u) + n < 2 ^ 32 → request (advance n u) rw.
Proof.
  intros Hu Hn Hb. pose proof Hu as [Hwf Hrw Ho Hap]. split.
  - by apply uio_wf_advance.
  - done.
  - rewrite (advance_offset _ _ _ Hu) by done. cbn. lia.
  - intros x Hx. apply Hap. unfold uio_mem, range in *. cbn in Hx. lia.
Qed.

(** ** Writing *)

(** The bytes of the file are those of [s], with [n] bytes from memory at the offset of
    the uio; nothing else that is in use has changed. *)
Record written n s u s' : Prop := {
  wr_ok : st_ok st s';
  wr_ext : ext st s s';
  wr_meta : same_meta (f_i s) (f_i s');
  wr_max : 0 < n → uio_offset u + n ≤ MAXSIZE;
  wr_bytes x : 0 ≤ x < MAXSIZE →
    fbyte (f_dev s') (f_i s') x =
      if (uio_offset u <=? x) && (x <? uio_offset u + n)
      then bytes (f_mem s) (iov_base (uio_iovec u) + (x - uio_offset u))
      else fbyte (f_dev s) (f_i s) x;
}.

Lemma written_0 s u : st_ok st s → written 0 s u s.
Proof.
  intros Hok. split; [done|apply ext_refl, Hok|done|lia|]. intros x Hx. by destruct (_ && _) eqn:?; [lia|].
Qed.

Lemma grown_written s u s' : grown st s s' → written 0 s u s'.
Proof.
  intros Hg. split; [apply Hg|apply Hg|apply Hg|lia|]. intros x Hx. destruct (_ && _) eqn:?; [lia|].
  by apply (gr_bytes _ _ _ Hg).
Qed.

Lemma written_trans n m s u s' s'' :
  st_ok st s → request u UIO_WRITE → 0 ≤ n → 0 ≤ m → n + m ≤ uio_resid u →
  written n s u s' → written m s' (advance n u) s'' → written (n + m) s u s''.
Proof.
  intros Hok Hu Hn Hm Hle [Ho He (?&?&?&?) Hx Hb] [Ho' He' (?&?&?&?) Hx' Hb']. split.
  - done.
  - eapply ext_trans; [apply Hok|done..].
  - split_and!; congruence.
  - rewrite (advance_offset _ _ _ Hu) in Hx' by lia. destruct (decide (m = 0)) as [->|]; [rewrite Z.add_0_r; done|lia].
  - clear Hx Hx'. intros x Hx. rewrite Hb' by done. rewrite (advance_offset _ _ _ Hu) by lia. cbn [advance uio_iovec iov_base].
    rewrite Hb by done. destruct (Z.leb_spec (uio_offset u + n) x), (Z.ltb_spec x (uio_offset u + n + m)); cbn [andb];
      destruct (Z.leb_spec (uio_offset u) x), (Z.ltb_spec x (uio_offset u + n)), (Z.ltb_spec x (uio_offset u + (n + m)));
      cbn [andb]; try lia; try done.
    rewrite (proj2 (ex_mem _ _ _ He)); [f_equal; lia|]. apply (rq_apart _ _ Hu). unfold uio_mem, range. lia.
Qed.

(** What goes wrong *)
Definition write_error s' u (e : Z) : Prop :=
  dev_error e ∨ e = EFAULT ∧ uio_segflg u ≠ UIO_SYSSPACE ∨ e = ENOSPC ∧ full (f_fs s') ∨
  e = EINVAL ∧ MAXSIZE < uio_offset u + Z.max 1 (uio_resid u).

(** A part has been written; the uio may have gone further. *)
Definition write_failed (e : Z) s u s' u' : Prop :=
  write_error s' u e ∧ ∃ n k, 0 ≤ n ≤ k ∧ k ≤ uio_resid u ∧ u' = advance k u ∧ written n s u s'.

Lemma alloc_write_error u s' e :
  0 ≤ uio_offset u →
  alloc_error (uio_offset u / SFS_BLOCKSIZE) s' e → write_error s' u e.
Proof.
  intros Ho [He|[He|[-> He]]]; [by left|right; right; by left|]. right; right; right. split; [done|].
  unfold MAXSIZE, SFS_BLOCKSIZE in *. Z.div_mod_to_equations; lia.
Qed.
(** A data block is overwritten. *)
Lemma write_block s s' n b :
  st_ok st s → 0 ≤ n < MAXBLOCKS → fblock (f_dev s) (f_i s) n = b → b ≠ 0 →
  f_fs s' = f_fs s → f_sv s' = f_sv s → f_at s' = f_at s → dev_ok (f_dev s') →
  same_but (scratch st) (f_mem s) (f_mem s') →
  (∀ b' k, 0 ≤ k < SFS_BLOCKSIZE → b' ≠ b → dbyte (f_dev s') b' k = dbyte (f_dev s) b' k) →
  st_ok st s' ∧ ext st s s' ∧
  ∀ x, 0 ≤ x < MAXSIZE → fbyte (f_dev s') (f_i s') x =
    if x / SFS_BLOCKSIZE =? n then dbyte (f_dev s') b (x `mod` SFS_BLOCKSIZE)
    else fbyte (f_dev s) (f_i s) x.
Proof.
  intros Hok Hn Hb Hb0 Hfs Hsv Hat Hd Hm Hdisk. pose proof (so_file _ _ Hok) as Hfo.
  assert (f_i s' = f_i s) as Hi by (unfold f_i; by rewrite Hsv).
  assert (sfi_indirect (f_i s) ≠ b) as Hne.
  { rewrite <- Hb. apply not_eq_sym, (fo_ind _ _ _ Hfo); [done|]. by rewrite Hb. }
  assert (∀ k, 0 ≤ k < SFS_BLOCKSIZE →
    dbyte (f_dev s') (sfi_indirect (f_i s)) k = dbyte (f_dev s) (sfi_indirect (f_i s)) k) as Hind by auto.
  assert (∀ m, fblock (f_dev s') (f_i s) m = fblock (f_dev s) (f_i s) m) as Hf by (intros; by apply fblock_ext).
  assert (∀ x, owns (f_dev s') (f_i s) x ↔ owns (f_dev s) (f_i s) x) as Hown by (intros; by apply owns_ext).
  split_and!.
  - split; [done| |by rewrite Hfs; apply Hok|].
    + eapply mem_ok_scratch; [done|apply Hok|done].
    + rewrite Hfs, Hi. eapply file_ok_disk; [done|auto].
  - split; rewrite ?Hfs, ?Hsv, ?Hi; try done.
    + apply fs_ext_refl.
    + by left.
    + intros x k Hk _ _ Hx. apply Hdisk; [done|]. intros ->. apply Hx. rewrite <- Hb. apply owns_fblock; [done|].
      by rewrite Hb.
    + intros x Hx. left. by apply Hown.
    + intros x Hx. by apply Hown.
  - intros x Hx. rewrite Hi. unfold fbyte. rewrite Hf. pose proof (div_block x Hx) as Hxr.
    destruct (Z.eqb_spec (x / SFS_BLOCKSIZE) n) as [->|Hxn].
    + rewrite Hb. by destruct (Z.eqb_spec b 0).
    + destruct (Z.eqb_spec (fblock (f_dev s) (f_i s) (x / SFS_BLOCKSIZE)) 0); [done|].
      apply Hdisk; [apply fbyte_mod|]. rewrite <- Hb. intros Heq. apply Hxn. by apply (fo_inj _ _ _ Hfo).
Qed.

(** A block overwritten with [n] bytes from memory, from byte [skip] on *)
Lemma write_block_written s s' u n b skip :
  st_ok st s → request u UIO_WRITE → 0 ≤ n ≤ uio_resid u →
  skip = uio_offset u `mod` SFS_BLOCKSIZE → skip + n ≤ SFS_BLOCKSIZE →
  uio_offset u / SFS_BLOCKSIZE < MAXBLOCKS →
  fblock (f_dev s) (f_i s) (uio_offset u / SFS_BLOCKSIZE) = b → b ≠ 0 →
  f_fs s' = f_fs s → f_sv s' = f_sv s → f_at s' = f_at s → dev_ok (f_dev s') →
  same_but (scratch st) (f_mem s) (f_mem s') →
  (∀ b' k, 0 ≤ k < SFS_BLOCKSIZE → dbyte (f_dev s') b' k =
     if (b' =? b) && (skip <=? k) && (k <? skip + n)
     then bytes (f_mem s) (iov_base (uio_iovec u) + (k - skip)) else dbyte (f_dev s) b' k) →
  written n s u s'.
Proof.
  intros Hok Hu Hn Hskip Hle Hnb Hb Hb0 Hfs Hsv Hat Hd Hm Hdisk. destruct (rq_off _ _ Hu) as [Ho _].
  assert (0 ≤ uio_offset u / SFS_BLOCKSIZE) by (by apply Z.div_pos).
  destruct (write_block s s' (uio_offset u / SFS_BLOCKSIZE) b) as (Hok' & He & Hby); try done.
  { intros b' k Hk Hb'. rewrite Hdisk by done. by destruct (Z.eqb_spec b' b). }
  split; [done|done| | |].
  { unfold f_i. by rewrite Hsv. }
  { intros _. unfold MAXSIZE. clear Hby Hdisk. subst skip. unfold SFS_BLOCKSIZE in *. Z.div_mod_to_equations; lia. }
  intros x Hx. rewrite Hby by done. unfold SFS_BLOCKSIZE in *.
  destruct (Z.eqb_spec (x / 512) (uio_offset u / 512)) as [Heq|Hne].
  - rewrite Hdisk by (apply Z.mod_pos_bound; lia). rewrite Z.eqb_refl. cbn [andb].
    assert (x - uio_offset u = x `mod` 512 - skip) as Hxo by (subst skip; Z.div_mod_to_equations; lia).
    replace (skip <=? x `mod` 512) with (uio_offset u <=? x) by
      (destruct (Z.leb_spec (uio_offset u) x), (Z.leb_spec skip (x `mod` 512)); done || lia).
    replace (x `mod` 512 <? skip + n) with (x <? uio_offset u + n) by
      (destruct (Z.ltb_spec x (uio_offset u + n)), (Z.ltb_spec (x `mod` 512) (skip + n)); done || lia).
    destruct (_ && _); [f_equal; lia|]. unfold fbyte, SFS_BLOCKSIZE. rewrite Heq, Hb. by destruct (Z.eqb_spec b 0).
  - destruct (_ && _) eqn:Hc; [|done]. exfalso. apply Hne. subst skip. Z.div_mod_to_equations; lia.
Qed.

(** The file block of an offset *)
Lemma fileblock_eq off : 0 ≤ off < 2 ^ 31 → u32 (Z.quot off SFS_BLOCKSIZE) = off / SFS_BLOCKSIZE.
Proof.
  intros Ho. unfold SFS_BLOCKSIZE. rewrite Z.quot_div_nonneg by lia. apply u32_small.
  split; [apply Z.div_pos; lia|]. apply Z.div_lt_upper_bound; lia.
Qed.

Lemma iobuf_scratch c c' :
  same_but (λ x, dev_area x ∨ range (iobuf_at st) SFS_BLOCKSIZE x) c c' → same_but (scratch st) c c'.
Proof. intros H. eapply same_but_mono; [done|]. intros x [|]; [by left|right; right; by left]. Qed.

(** A transfer into the buffer *)
Lemma moved_scratch u skip n c c' :
  uio_rw u = UIO_WRITE → 0 ≤ skip → 0 ≤ n → skip + n ≤ SFS_BLOCKSIZE →
  moved u (iobuf_at st + skip) n c c' →
  same_but (scratch st) c c' ∧
  ∀ k, 0 ≤ k < SFS_BLOCKSIZE → bytes c' (iobuf_at st + k) =
    if (skip <=? k) && (k <? skip + n) then bytes c (iov_base (uio_iovec u) + (k - skip)) else bytes c (iobuf_at st + k).
Proof.
  intros Hrw Hs Hn Hle (Hb & _ & Hsame & Hcopy). unfold uio_dest, uio_src in *. rewrite Hrw in *. cbn in *.
  split.
  - split; [done|]. intros x Hx. apply Hsame. intros Hr. apply Hx. right; right; left. unfold range. lia.
  - intros k Hk. destruct (Z.leb_spec skip k), (Z.ltb_spec k (skip + n)); cbn [andb]; try (apply Hsame; lia).
    rewrite <- (Hcopy (k - skip)) by lia. f_equal. lia.
Qed.

Lemma not_moved_scratch u skip n e c (s' : US) :
  uio_rw u = UIO_WRITE → 0 ≤ skip → skip + n ≤ SFS_BLOCKSIZE →
  not_moved u (iobuf_at st + skip) n e c s' → same_but (scratch st) c s'.1.
Proof.
  intros Hrw Hs Hle (_ & _ & _ & Hb & Hsame). unfold uio_dest in Hsame. rewrite Hrw in Hsame. cbn in Hsame.
  split; [done|]. intros x Hx. apply Hsame. intros Hr. apply Hx. right; right; left. unfold range. lia.
Qed.
Lemma iobuf_kernel skip n : 0 ≤ skip → 0 ≤ n → skip + n ≤ SFS_BLOCKSIZE → kernel_range (iobuf_at st + skip) n.
Proof. intros. destruct (bo_iobuf _ Hst) as (Ha & Hb & _). unfold kernel_range. lia. Qed.

(** Nothing written yet, and the uio as it was *)
Lemma write_failed_grown e s u s' :
  request u UIO_WRITE → write_error s' u e → grown st s s' → write_failed e s u s' u.
Proof.
  intros [Hwf _ [Ho Hr] _] He Hg. split; [done|]. exists 0, 0. destruct Hwf as (_ & Hlen & _ & _).
  split; [lia|]. split; [lia|]. split; [by rewrite advance_zero by lia|by apply grown_written].
Qed.

Lemma grown_quiet s s' s'' : st_ok st s → grown st s s' → quiet (scratch st) s' s'' → grown st s s''.
Proof. intros Hok Hg Hq. eapply grown_trans; [done|done|]. apply quiet_grown; [done|apply Hg|done]. Qed.

Lemma request_slack u rw : request u rw → 0 ≤ uio_resid u.
Proof. by intros [(_ & [? _] & _) _ _ _]. Qed.

Lemma partialio_write s u skip len (Q : () → FU D → Prop) (E : Z → FU D → Prop) :
  st_ok st s → request u UIO_WRITE → 0 ≤ len ≤ uio_resid u →
  skip = uio_offset u `mod` SFS_BLOCKSIZE → skip + len ≤ SFS_BLOCKSIZE →
  (∀ s', written len s u s' → iov_base (uio_iovec u) + len < 2 ^ 32 → Q tt (s', advance len u)) →
  (∀ e s' u', write_failed e s u s' u' → E e (s', u')) →
  wp safe (partialio skip len) (s, u) Q E.
Proof.
  intros Hok Hu Hlen Hskip Hle HQ HE. pose proof Hu as [Hwf Hrw [Ho Hr] Hap].
  assert (0 ≤ skip < SFS_BLOCKSIZE) as Hsk by (subst skip; by apply Z.mod_pos_bound).
  unfold sfs_partialio, get_u, on_f, on_us. wp_steps. cbn [fst snd].
  wp_assert by (unfold SFS_BLOCKSIZE in *; rewrite u32_small by lia; lia). wp_steps. cbn [fst snd].
  rewrite fileblock_eq, Hrw by lia. change (UIO_WRITE =? UIO_WRITE) with true.
  assert (0 ≤ uio_offset u / SFS_BLOCKSIZE) as Hn0 by (by apply Z.div_pos).
  apply sfs_bmap_write; [done|done|done| |].
  2: { intros e s1 He Hg. apply HE. apply write_failed_grown; [done|by apply alloc_write_error|done]. }
  intros b s1 Hnb Hb0 Hfb Hg. wp_steps. cbn [fst snd]. destruct (Z.eqb_spec b 0); [done|].
  pose proof (gr_ok _ _ _ Hg) as Hok1. pose proof Hok1 as [Hd1 Hc1 Hf1 Hfo1].
  pose proof (fblock_used _ _ _ _ Hok1 (conj Hn0 Hnb) Hfb Hb0) as Hub. pose proof (in_use_dev _ _ _ Hok1 Hub) as Hbd.
  unfold on_io. wp_steps. cbn [fst snd].
  apply sfs_rblock_ok; [done|apply Hc1|apply Hst|done| |].
  2: { intros e d' c' He Hd' Hs' Hm'. apply HE. apply write_failed_grown; [done|by left|].
       eapply grown_quiet; [done|done|]. split; try done. by apply iobuf_scratch. }
  intros d2 c2 Hd2 Hs2 Hm2 Hr2. wp_steps. cbn [fst snd with_io f_mem].
  set (s2 := with_io (d2, c2) s1).
  assert (quiet (scratch st) s1 s2) as Hq by (split; try done; by apply iobuf_scratch).
  assert (st_ok st s2) as Hok2 by (eapply quiet_ok; [done|done|by apply scratch_not_zero]).
  apply uiomove_exact; [done|done|by apply iobuf_kernel; lia|apply Hm2|lia| |].
  2: { intros e [c3 u3] Hnm. pose proof (not_moved_scratch _ _ _ _ _ _ Hrw (proj1 Hsk) Hle Hnm) as Hm3.
       destruct Hnm as (-> & Hu3 & Hseg & _). cbn in Hu3. subst u3. apply HE.
       apply write_failed_grown; [done|right; by left|]. eapply grown_quiet; [done|done|].
       eapply quiet_trans; [exact Hq|]. by split. }
  intros c3 Hmv. destruct (moved_scratch _ _ _ _ _ Hrw (proj1 Hsk) (proj1 Hlen) Hle Hmv) as [Hm3 Hio].
  pose proof Hmv as (_ & Hbase & _). wp_steps. cbn [fst snd advance uio_rw]. rewrite Hrw. change (UIO_WRITE =? UIO_WRITE) with true. cbn [when].
  wp_steps. cbn [fst snd with_io f_dev f_mem].
  pose proof (grown_quiet _ _ _ Hok Hg Hq) as Hg2.
  apply sfs_wblock_ok; [done|apply Hm3|apply Hst|done| |].
  - intros d4 c4 Hd4 Hw4 Hm4. apply HQ; [|done]. cbn.
    eapply (written_trans 0 len _ _ s2); [done|done|lia|lia|lia|by apply grown_written|].
    rewrite advance_zero by lia.
    apply (write_block_written s2 _ u len b skip); try done.
    + by rewrite (quiet_fblock _ _ _ _ Hq).
    + eapply same_but_trans; [exact Hm3|]. by apply dev_area_scratch.
    + intros b' k Hk. cbn. rewrite Hw4 by done. destruct (Z.eqb_spec b' b) as [->|]; cbn [andb]; [|done].
      rewrite Hio by done. destruct (_ && _); [done|]. rewrite Hr2 by done. symmetry. by apply Hs2.
  - intros e d4 c4 He Hd4 Hs4 Hm4. apply HE. cbn. split; [by left|]. exists 0, len. split; [lia|]. split; [lia|]. split; [done|].
    apply grown_written. eapply grown_quiet; [done|done|]. split; try done.
    eapply same_but_trans; [exact Hm3|]. by apply dev_area_scratch.
Qed.
(** ** The uio of a whole block *)

(** What [sfs_blockio] makes of the uio for the device, and of the one that comes back *)
Definition disk_uio (b : Z) u : uio := set_resid SFS_BLOCKSIZE (set_offset (SFS_BLOCKSIZE * b) u).

Lemma disk_block_io u b rw :
  request u rw → rw = UIO_READ ∨ rw = UIO_WRITE → SFS_BLOCKSIZE ≤ uio_resid u → 0 ≤ b < dev_blocks →
  block_io t_vmspace dev_blocks dev_area (disk_uio b u) b rw.
Proof.
  intros [Hwf Hrw Ho Hap] Hrw' Hres Hb. split; try done.
  - destruct Hwf as (H1 & H2 & H3 & H4 & H5). split; [done|]. split; [cbn; unfold SFS_BLOCKSIZE in *; lia|].
    split; [done|]. split; [done|]. destruct H5 as [(?&?&?)|?]; [left|by right].
    split; [done|]. split; [done|]. cbn. lia.
  - intros x Hx Hd. destruct (Hap x) as [Hs _]; [|apply Hs; by left].
    unfold uio_mem, range in *. cbn in *. lia.
Qed.

Lemma s32_s32_sub x y z : s32 (s32 x - y + z) = s32 (x - y + z).
Proof. replace (s32 x - y + z) with (s32 x + (z - y)) by lia. rewrite s32_add. f_equal. lia. Qed.

Lemma restored_advance u b rw :
  request u rw → SFS_BLOCKSIZE ≤ uio_resid u →
  let u1 := advance SFS_BLOCKSIZE (disk_uio b u) in
  set_resid (u32 (uio_resid u1 - SFS_BLOCKSIZE + s32 (uio_resid u)))
    (set_offset (s32 (uio_offset u1 - SFS_BLOCKSIZE * b + uio_offset u)) u1) = advance SFS_BLOCKSIZE u.
Proof.
  intros [Hwf _ [Ho Hr] _] Hres. destruct Hwf as (_ & Hlen & _). unfold SFS_BLOCKSIZE in *.
  unfold advance, disk_uio, set_resid, set_offset, SFS_BLOCKSIZE. cbn. rewrite s32_s32_sub. rewrite (s32_small (uio_resid u)) by lia.
  rewrite u32_small by lia. f_equal; [|lia]. f_equal. lia.
Qed.

Lemma restored_same u b rw :
  request u rw → SFS_BLOCKSIZE ≤ uio_resid u →
  set_resid (u32 (uio_resid (disk_uio b u) - SFS_BLOCKSIZE + s32 (uio_resid u)))
    (set_offset (s32 (uio_offset (disk_uio b u) - SFS_BLOCKSIZE * b + uio_offset u)) (disk_uio b u)) = u.
Proof.
  intros [Hwf _ [Ho Hr] _] Hres. destruct Hwf as (_ & Hlen & _). unfold SFS_BLOCKSIZE in *.
  destruct u as [iov off resid seg rw' sp]. unfold disk_uio, set_resid, set_offset, SFS_BLOCKSIZE. cbn in *.
  rewrite (s32_small resid) by lia. rewrite u32_small by lia. rewrite s32_small by lia. f_equal; lia.
Qed.

Lemma diskoff_eq b : 0 ≤ b < dev_blocks → s32 (u32 (b * SFS_BLOCKSIZE)) = SFS_BLOCKSIZE * b.
Proof.
  intros Hb. pose proof dev_blocks_max. unfold SFS_BLOCKSIZE. rewrite u32_small by lia.
  rewrite s32_small by lia. lia.
Qed.

Lemma blockio_write s u (Q : () → FU D → Prop) (E : Z → FU D → Prop) :
  st_ok st s → request u UIO_WRITE → SFS_BLOCKSIZE ≤ uio_resid u →
  uio_offset u `mod` SFS_BLOCKSIZE = 0 →
  (∀ s', written SFS_BLOCKSIZE s u s' → iov_base (uio_iovec u) + SFS_BLOCKSIZE < 2 ^ 32 →
     Q tt (s', advance SFS_BLOCKSIZE u)) →
  (∀ e s' u', write_failed e s u s' u' → E e (s', u')) →
  wp safe blockio (s, u) Q E.
Proof.
  intros Hok Hu Hres Hal HQ HE. pose proof Hu as [Hwf Hrw [Ho Hr] Hap].
  unfold sfs_blockio, get_u, on_f, on_dus, upd_u. wp_steps. cbn [fst snd].
  rewrite fileblock_eq, Hrw by (unfold SFS_BLOCKSIZE in *; lia). change (UIO_WRITE =? UIO_WRITE) with true.
  assert (0 ≤ uio_offset u / SFS_BLOCKSIZE) as Hn0 by (by apply Z.div_pos).
  apply sfs_bmap_write; [done|done|done| |].
  2: { intros e s1 He Hg. apply HE. apply write_failed_grown; [done|by apply alloc_write_error|done]. }
  intros b s1 Hnb Hb0 Hfb Hg. wp_steps. cbn [fst snd]. destruct (Z.eqb_spec b 0); [done|].
  pose proof (gr_ok _ _ _ Hg) as Hok1. pose proof Hok1 as [Hd1 Hc1 Hf1 Hfo1].
  pose proof (fblock_used _ _ _ _ Hok1 (conj Hn0 Hnb) Hfb Hb0) as Hub. pose proof (in_use_dev _ _ _ Hok1 Hub) as Hbd.
  rewrite diskoff_eq by done. wp_steps. cbn [fst snd]. wp_assert by lia. wp_steps. cbn [fst snd].
  change (set_resid SFS_BLOCKSIZE (set_offset (SFS_BLOCKSIZE * b) u)) with (disk_uio b u).
  apply (sfs_rwblock_write _ _ _ b); [done|apply Hc1|by apply disk_block_io; [..|right| |]| |].
  - intros d2 c2 Hd2 Hw2 Hbase Hm2. wp_steps. cbn [fst snd]. rewrite (restored_advance _ _ _ Hu Hres).
    apply HQ; [|done]. cbn.
    eapply (written_trans 0 SFS_BLOCKSIZE _ _ s1); [done|done|lia|done|lia|by apply grown_written|].
    rewrite advance_zero by (unfold SFS_BLOCKSIZE in *; lia).
    apply (write_block_written s1 _ u SFS_BLOCKSIZE b 0); try done.
    + by apply dev_area_scratch.
    + intros b' k Hk. cbn [f_dev with_io fst]. rewrite Hw2 by done.
      destruct (Z.eqb_spec b' b) as [->|]; cbn [andb]; [|done]. destruct (_ && _) eqn:?; [|lia].
      cbn [disk_uio set_resid set_offset uio_iovec f_mem]. f_equal. lia.
  - intros e d2 c2 u2 He Hd2 Hs2 Hm2 Hu2. wp_steps. cbn [fst snd].
    assert (grown st s (with_io (d2, c2) s1)) as Hg2.
    { eapply grown_quiet; [done|done|]. split; try done. by apply dev_area_scratch. }
    assert (write_error (with_io (d2, c2) s1) u e) as He' by (destruct He as [|]; [by left|right; by left]).
    destruct Hu2 as [->|[-> Hbase]].
    + rewrite (restored_same _ _ _ Hu Hres). apply HE. by apply write_failed_grown.
    + rewrite (restored_advance _ _ _ Hu Hres). apply HE. split; [done|]. exists 0, SFS_BLOCKSIZE.
      split; [done|]. split; [done|]. split; [done|]. by apply grown_written.
Qed.
(** ** Reading *)

(** The next [n] bytes of the file are in memory; nothing else has changed. *)
Record readn n s u s' : Prop := {
  rd_quiet : quiet (λ x, scratch st x ∨ uio_next u n x) s s';
  rd_max : 0 < n → uio_offset u + n ≤ MAXSIZE;
  rd_bytes k : 0 ≤ k < n →
    bytes (f_mem s') (iov_base (uio_iovec u) + k) = fbyte (f_dev s) (f_i s) (uio_offset u + k);
}.

Lemma readn_0 s u : st_ok st s → readn 0 s u s.
Proof. intros [Hd Hc _ _]. split; [apply quiet_refl; [done|apply Hc]|lia|lia]. Qed.

Lemma readn_trans n m s u s' s'' :
  request u UIO_READ → 0 ≤ n → 0 ≤ m → n + m ≤ uio_resid u →
  readn n s u s' → readn m s' (advance n u) s'' → readn (n + m) s u s''.
Proof.
  intros Hu Hn Hm Hle [Hq Hx Hb] [Hq' Hx' Hb']. rewrite (advance_offset _ _ _ Hu) in * by lia.
  cbn [advance uio_iovec iov_base] in Hb'. split.
  - eapply quiet_trans; (eapply quiet_mono; [done|]); intros x [|H]; try (by left); right;
      unfold uio_next, range in *; cbn in H; lia.
  - intros. destruct (decide (0 < m)); lia.
  - intros k Hk. destruct (decide (k < n)).
    + rewrite (proj2 (q_mem _ _ _ Hq')); [apply Hb; lia|]. intros [H|H].
      * revert H. apply (rq_apart _ _ Hu). unfold uio_mem, range. lia.
      * unfold uio_next, range in H. cbn in H. lia.
    + replace (iov_base (uio_iovec u) + k) with (iov_base (uio_iovec u) + n + (k - n)) by lia.
      rewrite Hb' by lia. rewrite (quiet_fbyte _ _ _ _ Hq). f_equal. lia.
Qed.

Definition read_error u (e : Z) : Prop :=
  dev_error e ∨ e = EFAULT ∧ uio_segflg u ≠ UIO_SYSSPACE ∨
  e = EINVAL ∧ MAXSIZE < uio_offset u + Z.max 1 (uio_resid u).

Definition read_failed (e : Z) s u s' u' : Prop :=
  read_error u e ∧
  (∃ k, 0 ≤ k ≤ uio_resid u ∧ u' = advance k u) ∧ quiet (λ x, scratch st x ∨ uio_mem u x) s s'.

Lemma uio_next_mem u n x : n ≤ uio_resid u → uio_next u n x → uio_mem u x.
Proof. unfold uio_next, uio_mem, range. lia. Qed.

(** A failure before anything has moved *)
Lemma read_failed_same e s u s' :
  request u UIO_READ → read_error u e → quiet (λ x, scratch st x ∨ uio_mem u x) s s' → read_failed e s u s' u.
Proof.
  intros Hu He Hq. split; [done|]. split; [|done]. exists 0. pose proof (request_slack _ _ Hu).
  split; [lia|]. rewrite advance_zero; [done|]. destruct (rq_off _ _ Hu). lia.
Qed.

(** The apartness of a request keeps the arrays of zeros. *)
Lemma quiet_read_ok s u s' :
  st_ok st s → request u UIO_READ → quiet (λ x, scratch st x ∨ uio_mem u x) s s' → st_ok st s'.
Proof.
  intros Hok Hu Hq. eapply quiet_ok; [done|done|]. intros x [Hx|Hx].
  - by apply scratch_not_zero.
  - by apply (rq_apart _ _ Hu).
Qed.

Lemma readn_ok n s u s' :
  st_ok st s → request u UIO_READ → n ≤ uio_resid u → readn n s u s' → st_ok st s'.
Proof.
  intros Hok Hu Hn Hr. eapply quiet_read_ok; [done|done|]. eapply quiet_mono; [apply Hr|].
  intros x [|H]; [by left|right; by eapply uio_next_mem].
Qed.

(** A transfer out of the buffer *)
Lemma moved_read u skip n c c' :
  uio_rw u = UIO_READ → moved u (iobuf_at st + skip) n c c' →
  same_but (uio_next u n) c c' ∧
  ∀ k, 0 ≤ k < n → bytes c' (iov_base (uio_iovec u) + k) = bytes c (iobuf_at st + skip + k).
Proof.
  intros Hrw (Hb & _ & Hsame & Hcopy). unfold uio_dest, uio_src in *. rewrite Hrw in *. cbn in *.
  split; [|done]. split; [done|]. intros x Hx. by apply Hsame.
Qed.

(** The contents of the buffer, whether or not there is a block *)
Lemma fbyte_block s u k b skip :
  0 ≤ uio_offset u → skip = uio_offset u `mod` SFS_BLOCKSIZE → 0 ≤ k → skip + k < SFS_BLOCKSIZE →
  fblock (f_dev s) (f_i s) (uio_offset u / SFS_BLOCKSIZE) = b →
  fbyte (f_dev s) (f_i s) (uio_offset u + k) = if b =? 0 then 0 else dbyte (f_dev s) b (skip + k).
Proof.
  intros Ho Hskip Hk Hle Hb. unfold fbyte, SFS_BLOCKSIZE in *.
  replace ((uio_offset u + k) / 512) with (uio_offset u / 512) by (subst skip; Z.div_mod_to_equations; lia).
  rewrite Hb. destruct (b =? 0); [done|]. f_equal. subst skip. Z.div_mod_to_equations; lia.
Qed.

Lemma block_max off skip n :
  skip = off `mod` SFS_BLOCKSIZE → skip + n ≤ SFS_BLOCKSIZE → off / SFS_BLOCKSIZE < MAXBLOCKS → off + n ≤ MAXSIZE.
Proof. unfold MAXSIZE, SFS_BLOCKSIZE. intros -> ??. Z.div_mod_to_equations; lia. Qed.

Lemma einval_read u e : e = EINVAL → MAXBLOCKS ≤ uio_offset u / SFS_BLOCKSIZE → read_error u e.
Proof.
  intros -> Hn. right; right. split; [done|]. unfold MAXSIZE, SFS_BLOCKSIZE in *. Z.div_mod_to_equations; lia.
Qed.

(** After the block is in the buffer *)
Lemma partialio_read_move s u skip len s2 (Q : () → FU D → Prop) (E : Z → FU D → Prop) :
  request u UIO_READ → 0 ≤ len ≤ uio_resid u →
  skip = uio_offset u `mod` SFS_BLOCKSIZE → skip + len ≤ SFS_BLOCKSIZE →
  uio_offset u / SFS_BLOCKSIZE < MAXBLOCKS → quiet (scratch st) s s2 →
  (∀ k, 0 ≤ k < len → bytes (f_mem s2) (iobuf_at st + skip + k) = fbyte (f_dev s) (f_i s) (uio_offset u + k)) →
  (∀ s', readn len s u s' → iov_base (uio_iovec u) + len < 2 ^ 32 → Q tt (s', advance len u)) →
  (∀ e s' u', read_failed e s u s' u' → E e (s', u')) →
  wp safe (on_us (uiomove user_read user_write t_vmspace (iobuf_at st + skip) len)) (s2, u) Q E.
Proof.
  intros Hu Hlen Hskip Hle Hnb Hq Hb HQ HE. pose proof Hu as [Hwf Hrw [Ho Hr] Hap].
  assert (0 ≤ skip < SFS_BLOCKSIZE) as Hsk by (subst skip; by apply Z.mod_pos_bound).
  unfold on_us. wp_steps. cbn [fst snd].
  apply uiomove_exact; [done|done|by apply iobuf_kernel; lia|apply (q_mem _ _ _ Hq)|lia| |].
  - intros c3 Hmv. destruct (moved_read _ _ _ _ _ Hrw Hmv) as [Hm3 Hc3]. pose proof Hmv as (_ & Hbase & _).
    apply HQ; [|done]. split.
    + eapply quiet_trans; [eapply quiet_mono; [exact Hq|by left]|].
      split; cbn; try done; [apply Hq|]. eapply same_but_mono; [done|by right].
    + intros _. by eapply block_max.
    + intros k Hk. cbn. rewrite Hc3 by done. by apply Hb.
  - intros e [c3 u3] (-> & Hu3 & Hseg & Hb3 & Hsame). cbn in Hu3, Hb3, Hsame. subst u3. apply HE.
    apply read_failed_same; [done|right; by left|].
    eapply quiet_trans; [eapply quiet_mono; [exact Hq|by left]|].
    split; cbn; try done; [apply Hq|]. split; [done|]. intros x Hx. apply Hsame. unfold uio_dest. rewrite Hrw. cbn.
    intros Hr'. apply Hx. right. unfold uio_mem, range. lia.
Qed.
Lemma partialio_read s u skip len (Q : () → FU D → Prop) (E : Z → FU D → Prop) :
  st_ok st s → request u UIO_READ → 0 ≤ len ≤ uio_resid u →
  skip = uio_offset u `mod` SFS_BLOCKSIZE → skip + len ≤ SFS_BLOCKSIZE →
  (∀ s', readn len s u s' → iov_base (uio_iovec u) + len < 2 ^ 32 → Q tt (s', advance len u)) →
  (∀ e s' u', read_failed e s u s' u' → E e (s', u')) →
  wp safe (partialio skip len) (s, u) Q E.
Proof.
  intros Hok Hu Hlen Hskip Hle HQ HE. pose proof Hu as [Hwf Hrw [Ho Hr] Hap].
  assert (0 ≤ skip < SFS_BLOCKSIZE) as Hsk by (subst skip; by apply Z.mod_pos_bound).
  unfold sfs_partialio, get_u, on_f. wp_steps. cbn [fst snd].
  wp_assert by (unfold SFS_BLOCKSIZE in *; rewrite u32_small by lia; lia). wp_steps. cbn [fst snd].
  rewrite fileblock_eq, Hrw by lia. change (UIO_READ =? UIO_WRITE) with false. change (UIO_READ =? UIO_READ) with true.
  assert (0 ≤ uio_offset u / SFS_BLOCKSIZE) as Hn0 by (by apply Z.div_pos).
  apply sfs_bmap_read; [done|done|done| | |].
  2: { intros He. apply HE. apply read_failed_same; [done|by apply einval_read|]. apply quiet_refl; apply Hok. }
  2: { intros e s1 He Hq. apply HE. apply read_failed_same; [done|by left|]. eapply quiet_mono; [done|by left]. }
  intros s1 Hnb Hq1. set (b := fblock (f_dev s) (f_i s) (uio_offset u / SFS_BLOCKSIZE)).
  assert (∀ s2, quiet (scratch st) s s2 →
    (∀ k, 0 ≤ k < SFS_BLOCKSIZE → bytes (f_mem s2) (iobuf_at st + k) = if b =? 0 then 0 else dbyte (f_dev s) b k) →
    wp safe (on_us (uiomove user_read user_write t_vmspace (iobuf_at st + skip) len)) (s2, u)
      (λ _ t, wp safe (u' ← gets snd; when (uio_rw u' =? UIO_WRITE)
         (zoom fst (λ (f0 : F D) (t : FU D), (f0, t.2)) (on_io (sfs_wblock (iobuf_at st) b)))) t Q E) E) as Hmove.
  { intros s2 Hq2 Hb2. eapply (partialio_read_move s); try done.
    - intros k Hk. rewrite (fbyte_block s u k b skip) by (done || lia).
      rewrite <- Z.add_assoc. apply Hb2. lia.
    - intros s' Hrd Hbase. wp_steps. cbn [fst snd advance uio_rw]. rewrite Hrw.
      change (UIO_READ =? UIO_WRITE) with false. cbn [when]. wp_steps. by apply HQ. }
  wp_steps. cbn [fst snd]. destruct (Z.eqb_spec b 0) as [Hb|Hb].
  - wp_assert by done. unfold store. wp_steps. cbn [fst snd]. apply Hmove.
    + eapply quiet_trans; [done|]. split; cbn; try done; [apply Hq1|].
      split; [apply Hq1|]. intros x Hx. apply poke_same_outside. intros Hr'. apply Hx. right; right; left. done.
    + intros k Hk. cbn [f_mem with_io snd]. apply bytes_poke. unfold zlookup.
      destruct (Z.leb_spec 0 k); [|lia]. apply lookup_replicate. split; [done|]. unfold SFS_BLOCKSIZE in *. lia.
  - assert (in_use (f_fs s) b) as Hub by (eapply fblock_used; [done|done|done|done]).
    pose proof (in_use_dev _ _ _ Hok Hub) as Hbd. unfold on_io at 1. wp_steps. cbn [fst snd].
    apply sfs_rblock_ok; [apply Hq1|apply Hq1|apply Hst|done| |].
    + intros d2 c2 Hd2 Hs2 Hm2 Hr2. wp_steps. apply Hmove.
      * eapply quiet_trans; [done|]. split; cbn; try done. by apply iobuf_scratch.
      * intros k Hk. cbn. rewrite Hr2 by done. by apply (q_disk _ _ _ Hq1).
    + intros e d2 c2 He Hd2 Hs2 Hm2. apply HE. apply read_failed_same; [done|by left|].
      eapply quiet_mono; [|by left]. eapply quiet_trans; [done|]. split; cbn; try done. by apply iobuf_scratch.
Qed.

Lemma zeros_apart u n :
  request u UIO_READ → n ≤ uio_resid u →
  iov_base (uio_iovec u) + n ≤ uzeros_at st ∨ uzeros_at st + 16 ≤ iov_base (uio_iovec u) ∨ n ≤ 0.
Proof.
  intros Hu Hn. set (base := iov_base (uio_iovec u)). set (z := uzeros_at st).
  destruct (decide (base + n ≤ z)); [by left|]. destruct (decide (z + 16 ≤ base)); [right; by left|].
  right; right. destruct (decide (n ≤ 0)); [done|]. exfalso.
  apply (rq_apart _ _ Hu (Z.max base z)); [|right]; unfold uio_mem, range; fold base z; lia.
Qed.

Lemma blockio_read s u (Q : () → FU D → Prop) (E : Z → FU D → Prop) :
  st_ok st s → request u UIO_READ → SFS_BLOCKSIZE ≤ uio_resid u →
  uio_offset u `mod` SFS_BLOCKSIZE = 0 →
  (∀ s', readn SFS_BLOCKSIZE s u s' → iov_base (uio_iovec u) + SFS_BLOCKSIZE < 2 ^ 32 →
     Q tt (s', advance SFS_BLOCKSIZE u)) →
  (∀ e s' u', read_failed e s u s' u' → E e (s', u')) →
  wp safe blockio (s, u) Q E.
Proof.
  intros Hok Hu Hres Hal HQ HE. pose proof Hu as [Hwf Hrw [Ho Hr] Hap].
  unfold sfs_blockio, get_u, on_f, on_us, on_dus, upd_u. wp_steps. cbn [fst snd].
  rewrite fileblock_eq, Hrw by (unfold SFS_BLOCKSIZE in *; lia).
  change (UIO_READ =? UIO_WRITE) with false. change (UIO_READ =? UIO_READ) with true.
  assert (0 ≤ uio_offset u / SFS_BLOCKSIZE) as Hn0 by (by apply Z.div_pos).
  apply sfs_bmap_read; [done|done|done| | |].
  2: { intros He. apply HE. apply read_failed_same; [done|by apply einval_read|]. apply quiet_refl; apply Hok. }
  2: { intros e s1 He Hq. apply HE. apply read_failed_same; [done|by left|]. eapply quiet_mono; [done|by left]. }
  intros s1 Hnb Hq1. set (b := fblock (f_dev s) (f_i s) (uio_offset u / SFS_BLOCKSIZE)).
  assert (∀ k, 0 ≤ k < SFS_BLOCKSIZE → fbyte (f_dev s) (f_i s) (uio_offset u + k) =
    if b =? 0 then 0 else dbyte (f_dev s) b k) as Hfb.
  { intros k Hk. rewrite (fbyte_block s u k b 0) by (done || lia). done. }
  assert (uio_offset u + SFS_BLOCKSIZE ≤ MAXSIZE) as Hmx by (by eapply block_max).
  assert (st_ok st s1) as Hok1 by (eapply quiet_ok; [done|done|by apply scratch_not_zero]).
  wp_steps. cbn [fst snd]. destruct (Z.eqb_spec b 0) as [Hb|Hb].
  - wp_assert by done. wp_steps. cbn [fst snd].
    eapply wp_mono; [apply (uiomovezeros_exact user_read user_write t_vmspace (uzeros_at st) SFS_BLOCKSIZE (f_mem s1) u)| |].
    + apply Hst.
    + intros k Hk. apply (mo_zero _ _ (so_mem _ _ Hok1)). right. unfold range. lia.
    + apply Hok1.
    + unfold SFS_BLOCKSIZE in *. lia.
    + done.
    + done.
    + unfold SFS_BLOCKSIZE in *. lia.
    + destruct (zeros_apart u _ Hu Hres) as [|[|]]; [by left|by right|done].
    + intros [] [c2 u2] (Hu2 & Hb2 & Hbase & Hsame & Hz). cbn in Hu2, Hb2, Hsame, Hz. subst u2.
      apply HQ; [|done]. split.
      * eapply quiet_trans; [eapply quiet_mono; [exact Hq1|by left]|].
        split; cbn; try done; [apply Hok1|]. split; [done|]. intros x Hx. apply Hsame. intros Hr'. apply Hx. by right.
      * done.
      * intros k Hk. cbn. rewrite Hz, Hfb by done. done.
    + intros e [c2 u2] (-> & Hseg & n & Hn & Hu2 & Hb2 & Hbase & Hsame & Hz). cbn in Hu2, Hb2, Hsame. subst u2.
      apply HE. split; [right; by left|]. split; [exists n; split; [lia|done]|].
      eapply quiet_trans; [eapply quiet_mono; [exact Hq1|by left]|].
      split; cbn; try done; [apply Hok1|]. split; [done|]. intros x Hx. apply Hsame. intros Hr'. apply Hx. right.
      unfold uio_mem, range. lia.
  - assert (in_use (f_fs s) b) as Hub by (by eapply fblock_used).
    pose proof (in_use_dev _ _ _ Hok Hub) as Hbd.
    rewrite diskoff_eq by done. wp_steps. cbn [fst snd]. wp_assert by lia. wp_steps. cbn [fst snd].
    change (set_resid SFS_BLOCKSIZE (set_offset (SFS_BLOCKSIZE * b) u)) with (disk_uio b u).
    apply (sfs_rwblock_read _ _ _ b); [apply Hq1|apply Hq1|by apply disk_block_io; [..|left| |]| |].
    + intros d2 c2 Hd2 Hs2 Hbase Hm2 Hr2. wp_steps. cbn [fst snd]. rewrite (restored_advance _ _ _ Hu Hres).
      apply HQ; [|done]. split.
      * eapply quiet_trans; [eapply quiet_mono; [exact Hq1|by left]|]. split; cbn; try done.
        eapply same_but_mono; [done|]. intros x [|]; [left; by left|by right].
      * done.
      * intros k Hk. cbn. rewrite Hfb by done. etrans; [by apply Hr2|]. by apply (q_disk _ _ _ Hq1).
    + intros e d2 c2 He Hd2 Hs2 Hm2. wp_steps. cbn [fst snd]. rewrite (restored_same _ _ _ Hu Hres).
      apply HE. apply read_failed_same; [done|destruct He; [by left|right; by left]|].
      eapply quiet_trans; [eapply quiet_mono; [exact Hq1|by left]|]. split; cbn; try done.
      eapply same_but_mono; [done|]. intros x [|Hx]; [left; by left|right].
      unfold uio_mem, range in *. cbn in Hx. lia.
Qed.
End io.
