(* ===== verification/SfsRw.v ===== *)
(** * SFS: whole transfers

    [sfs_io] for reading and for writing, from the transfers of single blocks of
    SfsIo.v; and its use by [sfs_read] and [sfs_write]. *)

From Stdlib Require Import ZArith Lia.
From stdpp Require Import base list gmap numbers.
From S2P Require Import Prelude CopyInOut Uio Bitmap Array Vnode SfsData SfsDev Sfs SfsInv SfsBlock SfsIo.

Local Open Scope Z_scope.

Section rw.
Context {D : Type} `{!BlockDev D} (user_read user_write : Z → bool) {t_vmspace : Z}.
Context `{HL : !BlockDevLaws D t_vmspace} `{HW : !ReliableWrites D t_vmspace} (st : buffers) (Hst : buffers_ok st).
Implicit Types (d : D) (c : copystate) (i : sfs_inode) (f : sfs_fs) (s : F D) (u : uio).

Notation request := (request (t_vmspace := t_vmspace) st).

(** ** The body of [sfs_io]

    For any relation [R] that the transfers of single blocks establish and that
    composes; [X] is the relation after an error. *)
Section body.
Context (rw : Z) (R : Z → F D → uio → F D → Prop) (X : Z → F D → uio → F D → uio → Prop).
Hypothesis R_0 : ∀ s u, st_ok st s → R 0 s u s.
Hypothesis R_ok : ∀ n s u s', st_ok st s → request u rw → n ≤ uio_resid u → R n s u s' → st_ok st s'.
Hypothesis R_trans : ∀ n m s u s' s'', st_ok st s → request u rw → 0 ≤ n → 0 ≤ m → n + m ≤ uio_resid u →
  R n s u s' → R m s' (advance n u) s'' → R (n + m) s u s''.
Hypothesis X_trans : ∀ n e s u s' s'' u'', st_ok st s → request u rw → 0 ≤ n ≤ uio_resid u →
  n = 0 ∨ n < uio_resid u →
  R n s u s' → X e s' (advance n u) s'' u'' → X e s u s'' u''.
Hypothesis partial : ∀ s u skip len (Q : () → FU D → Prop) (E : Z → FU D → Prop),
  st_ok st s → request u rw → 0 ≤ len ≤ uio_resid u →
  skip = uio_offset u `mod` SFS_BLOCKSIZE → skip + len ≤ SFS_BLOCKSIZE →
  (∀ s', R len s u s' → iov_base (uio_iovec u) + len < 2 ^ 32 → Q tt (s', advance len u)) →
  (∀ e s' u', X e s u s' u' → E e (s', u')) →
  wp safe (sfs_partialio user_read user_write t_vmspace st skip len) (s, u) Q E.
Hypothesis block : ∀ s u (Q : () → FU D → Prop) (E : Z → FU D → Prop),
  st_ok st s → request u rw → SFS_BLOCKSIZE ≤ uio_resid u →
  uio_offset u `mod` SFS_BLOCKSIZE = 0 →
  (∀ s', R SFS_BLOCKSIZE s u s' → iov_base (uio_iovec u) + SFS_BLOCKSIZE < 2 ^ 32 →
     Q tt (s', advance SFS_BLOCKSIZE u)) →
  (∀ e s' u', X e s u s' u' → E e (s', u')) →
  wp safe (sfs_blockio user_read user_write t_vmspace st) (s, u) Q E.

(** [n] bytes are done. *)
Definition progress s u (n : Z) (t : FU D) : Prop :=
  0 ≤ n ≤ uio_resid u ∧ R n s u t.1 ∧ t.2 = advance n u ∧ iov_base (uio_iovec u) + n < 2 ^ 32.

Lemma progress_0 s u : st_ok st s → request u rw → progress s u 0 (s, u).
Proof.
  intros Hok Hu. pose proof (request_slack _ _ _ Hu). destruct (rq_off _ _ _ Hu).
  split; [lia|]. split; [by apply R_0|]. split; [by rewrite advance_zero by lia|].
  destruct (rq_wf _ _ _ Hu) as (_ & _ & _ & Hb & _). unfold is_u32 in Hb. lia.
Qed.

Lemma progress_step s u n m s' s'' :
  st_ok st s → request u rw → progress s u n (s', advance n u) → 0 ≤ m → n + m ≤ uio_resid u →
  R m s' (advance n u) s'' → iov_base (uio_iovec (advance n u)) + m < 2 ^ 32 →
  progress s u (n + m) (s'', advance m (advance n u)).
Proof.
  intros Hok Hu (Hn & HR & _ & Hb) Hm Hle HR' Hb'. cbn in Hb'. split; [lia|].
  split; [|split; [apply advance_advance|lia]].
  eapply R_trans; [done|done|lia|lia|lia|done|done].
Qed.

Lemma progress_request s u n t :
  st_ok st s → request u rw → progress s u n t →
  st_ok st t.1 ∧ request t.2 rw ∧ uio_resid t.2 = uio_resid u - n ∧ uio_offset t.2 = uio_offset u + n.
Proof.
  intros Hok Hu (Hn & HR & Ht & Hb). rewrite Ht. split; [by eapply R_ok; [| |apply Hn|]|].
  split; [by apply request_advance|]. split; [done|]. by apply (advance_offset st u n rw).
Qed.

Lemma rem_block off : 0 ≤ off → Z.rem off SFS_BLOCKSIZE = off `mod` SFS_BLOCKSIZE.
Proof. intros. by apply Z.rem_mod_nonneg. Qed.

Lemma progress_partial s u n t skip len (Q : () → FU D → Prop) (E : Z → FU D → Prop) :
  st_ok st s → request u rw → progress s u n t → 0 ≤ len ≤ uio_resid u - n →
  n = 0 ∨ n < uio_resid u →
  skip = (uio_offset u + n) `mod` SFS_BLOCKSIZE → skip + len ≤ SFS_BLOCKSIZE →
  (∀ t', progress s u (n + len) t' → Q tt t') → (∀ e t', X e s u t'.1 t'.2 → E e t') →
  wp safe (sfs_partialio user_read user_write t_vmspace st skip len) t Q E.
Proof.
  intros Hok Hu Hp Hlen Hn0 Hskip Hle HQ HE. destruct (progress_request _ _ _ _ Hok Hu Hp) as (Hok' & Hu' & Hr & Ho).
  pose proof Hp as (Hn & HR & Ht & Hb). destruct t as [s1 u1]. cbn [fst snd] in *. subst u1.
  apply partial; [done|done|lia|by rewrite Ho|done| |].
  - intros s' HR' Hb'. apply HQ. eapply progress_step; try done; lia.
  - intros e s' u' HX. apply HE. cbn. by eapply X_trans.
Qed.

Lemma progress_block s u n t (Q : () → FU D → Prop) (E : Z → FU D → Prop) :
  st_ok st s → request u rw → progress s u n t → SFS_BLOCKSIZE ≤ uio_resid u - n →
  (uio_offset u + n) `mod` SFS_BLOCKSIZE = 0 →
  (∀ t', progress s u (n + SFS_BLOCKSIZE) t' → Q tt t') → (∀ e t', X e s u t'.1 t'.2 → E e t') →
  wp safe (sfs_blockio user_read user_write t_vmspace st) t Q E.
Proof.
  intros Hok Hu Hp Hlen Hal HQ HE. destruct (progress_request _ _ _ _ Hok Hu Hp) as (Hok' & Hu' & Hr & Ho).
  pose proof Hp as (Hn & HR & Ht & Hb). destruct t as [s1 u1]. cbn [fst snd] in *. subst u1.
  apply block; [done|done|lia|by rewrite Ho| |].
  - intros s' HR' Hb'. apply HQ. eapply progress_step; try done. lia.
  - intros e s' u' HX. apply HE. cbn. eapply X_trans; [done|done|done| |done|done].
    right. unfold SFS_BLOCKSIZE in Hlen. lia.
Qed.

(** The whole blocks and the last partial one, from an aligned position on *)
Lemma progress_aligned s u n t (Q : () → FU D → Prop) (E : Z → FU D → Prop) :
  st_ok st s → request u rw → progress s u n t → (uio_offset u + n) `mod` SFS_BLOCKSIZE = 0 →
  (∀ t', progress s u (uio_resid u) t' → Q tt t') → (∀ e t', X e s u t'.1 t'.2 → E e t') →
  wp safe (for_range 0 (uio_resid t.2 / SFS_BLOCKSIZE)
             (λ _, sfs_blockio user_read user_write t_vmspace st);;
           u ← get_u;
           assert (uio_resid u <? SFS_BLOCKSIZE);;
           when (0 <? uio_resid u)
             (sfs_partialio user_read user_write t_vmspace st 0 (uio_resid u))) t Q E.
Proof.
  intros Hok Hu Hp Hal HQ HE. destruct (progress_request _ _ _ _ Hok Hu Hp) as (_ & _ & Hr & _).
  pose proof Hp as (Hn & _). set (nb := uio_resid t.2 / SFS_BLOCKSIZE).
  assert (0 ≤ nb ∧ uio_resid u - n = 512 * nb + (uio_resid u - n) `mod` 512 ∧ 0 ≤ (uio_resid u - n) `mod` 512 < 512) as (Hnb & Hdiv & Hmod).
  { unfold nb. rewrite Hr. unfold SFS_BLOCKSIZE. Z.div_mod_to_equations; lia. }
  wp_steps. apply (wp_for_range _ _ (λ k t', progress s u (n + 512 * k) t')); [done| | |].
  - intros k t' Hk Hp'. eapply progress_block; [done|done|exact Hp'|unfold SFS_BLOCKSIZE; lia| | |done].
    + unfold SFS_BLOCKSIZE in *. replace (uio_offset u + (n + 512 * k)) with (uio_offset u + n + k * 512) by lia.
      by rewrite Z.mod_add.
    + intros t'' Hp''. unfold SFS_BLOCKSIZE in Hp''. by replace (n + 512 * (k + 1)) with (n + 512 * k + 512) by lia.
  - by rewrite Z.mul_0_r, Z.add_0_r.
  - intros t' Hp'. rewrite Z.add_0_l in Hp'. destruct (progress_request _ _ _ _ Hok Hu Hp') as (_ & _ & Hr' & Ho').
    unfold get_u. wp_steps. rewrite Hr'. wp_assert by (unfold SFS_BLOCKSIZE; lia).
    apply wp_when; intros Hz.
    + eapply progress_partial; [done|done|exact Hp'|lia|right; lia| |unfold SFS_BLOCKSIZE; lia| |done].
      * unfold SFS_BLOCKSIZE in *. replace (uio_offset u + (n + 512 * nb)) with (uio_offset u + n + nb * 512) by lia.
        by rewrite Z.mod_add.
      * intros t'' Hp''. apply HQ. by replace (uio_resid u) with (n + 512 * nb + (uio_resid u - (n + 512 * nb))) at 1 by lia.
    + apply HQ. by replace (uio_resid u) with (n + 512 * nb) by lia.
Qed.

Lemma io_body_ok s u (Q : () → FU D → Prop) (E : Z → FU D → Prop) :
  st_ok st s → request u rw →
  (∀ t', progress s u (uio_resid u) t' → Q tt t') → (∀ e t', X e s u t'.1 t'.2 → E e t') →
  wp safe (io_body user_read user_write t_vmspace st) (s, u) Q E.
Proof.
  intros Hok Hu HQ HE. pose proof (request_slack _ _ _ Hu) as Hr0. destruct (rq_off _ _ _ Hu) as [Ho Hr].
  unfold io_body, get_u. wp_steps. cbn [fst snd]. rewrite rem_block by done.
  assert (0 ≤ uio_offset u `mod` SFS_BLOCKSIZE < SFS_BLOCKSIZE) as Hm by (by apply Z.mod_pos_bound).
  rewrite u32_small by (unfold SFS_BLOCKSIZE in *; lia).
  set (skip := uio_offset u `mod` SFS_BLOCKSIZE) in *.
  set (len := if uio_resid u <? SFS_BLOCKSIZE - skip then uio_resid u else SFS_BLOCKSIZE - skip).
  assert (0 ≤ len ≤ uio_resid u ∧ skip + len ≤ SFS_BLOCKSIZE ∧ (len = uio_resid u ∨ skip + len = SFS_BLOCKSIZE)) as (Hl1 & Hl2 & Hl3).
  { unfold len. destruct (Z.ltb_spec (uio_resid u) (SFS_BLOCKSIZE - skip)); lia. }
  clearbody len.
  assert (∀ n t, progress s u n t → n = uio_resid u ∨ (uio_offset u + n) `mod` SFS_BLOCKSIZE = 0 →
    wp safe (u ← get_u;
      if uio_resid u =? 0 then mret tt else
      assert (Z.rem (uio_offset u) SFS_BLOCKSIZE =? 0);;
      let nblocks := uio_resid u / SFS_BLOCKSIZE in
      for_range 0 nblocks (λ _, sfs_blockio user_read user_write t_vmspace st);;
      u ← get_u;
      assert (uio_resid u <? SFS_BLOCKSIZE);;
      when (0 <? uio_resid u) (sfs_partialio user_read user_write t_vmspace st 0 (uio_resid u))) t Q E) as Hrest.
  { intros n t Hp Hn. destruct (progress_request _ _ _ _ Hok Hu Hp) as (_ & _ & Hrt & Hot). unfold get_u. wp_steps.
    destruct (Z.eqb_spec (uio_resid t.2) 0) as [Hz|Hz].
    - wp_steps. apply HQ. by replace (uio_resid u) with n by lia.
    - destruct Hn as [Hn|Hn]; [lia|]. wp_assert by (rewrite Hot, rem_block, Hn by (destruct Hp; lia); done).
      by apply (progress_aligned s u n t). }
  apply wp_when; intros Hz.
  - eapply (progress_partial s u 0); [done|done|by apply progress_0|lia|by left| |done| |done].
    + by rewrite Z.add_0_r.
    + intros t' Hp'. apply (Hrest _ _ Hp'). destruct Hl3 as [->|Hl3]; [by left|right].
      rewrite Z.add_0_l. unfold skip, SFS_BLOCKSIZE in *. Z.div_mod_to_equations; lia.
  - apply (Hrest 0); [by apply progress_0|]. right. rewrite Z.add_0_r. fold skip. lia.
Qed.
End body.
(** ** [sfs_io] *)

(** The file after a write: [n] bytes have been written and the offset has reached [k]
    bytes further; the size includes everything up to there. *)
Record file_written n k s u s' : Prop := {
  fw_ok : st_ok st s';
  fw_ext : ext st s s';
  fw_size : sfi_size (f_i s') = Z.max (sfi_size (f_i s)) (uio_offset u + k);
  fw_type : sfi_type (f_i s') = sfi_type (f_i s) ∧ sfi_linkcount (f_i s') = sfi_linkcount (f_i s);
  fw_max : 0 < n → uio_offset u + n ≤ MAXSIZE;
  fw_bytes x : 0 ≤ x < MAXSIZE →
    fbyte (f_dev s') (f_i s') x =
      if (uio_offset u <=? x) && (x <? uio_offset u + n)
      then bytes (f_mem s) (iov_base (uio_iovec u) + (x - uio_offset u))
      else fbyte (f_dev s) (f_i s) x;
}.

Lemma inode_wf_size i n : inode_wf i → is_u32 n → inode_wf (set_size n i).
Proof. intros [] Hn. by split. Qed.

(** The size does not matter for the blocks. *)
Lemma st_ok_size s n m :
  st_ok st s → is_u32 n →
  st_ok st (with_sv (with_dirty m (with_inode (set_size n (f_i s)) (f_sv s))) s).
Proof.
  intros [Hd Hc Hf [Hwf Hu Hi Hn]] Hs. split; try done. split; [by apply inode_wf_size|done..].
Qed.

Lemma ext_inode s s' i :
  ext st s s' → (∀ d n, fblock d i n = fblock d (f_i s') n) → sfi_indirect i = sfi_indirect (f_i s') →
  ext st s (with_sv (with_dirty 1 (with_inode i (f_sv s'))) s').
Proof.
  intros [H1 H2 H3 H4 H5 H6 H7] Hf Hi.
  assert (∀ b, owns (f_dev s') i b ↔ owns (f_dev s') (f_i s') b) as Hown.
  { intros b. unfold owns. rewrite Hi. by setoid_rewrite Hf. }
  split; cbn; try done.
  - by right.
  - intros b Hb. by apply H5, Hown.
  - intros b Hb. by apply Hown, H6.
Qed.

Notation size_ok s := (0 ≤ sfi_size (f_i s) < 2 ^ 31).

Lemma io_out_write s u s1 n k r (Q : () → FU D → Prop) (E : Z → FU D → Prop) :
  st_ok st s → request u UIO_WRITE → size_ok s → 0 ≤ k ≤ uio_resid u → written st n s u s1 →
  (∀ s', f_fs s' = f_fs s1 → file_written n k s u s' → match r with inl _ => Q tt (s', advance k u) | inr e => E e (s', advance k u) end) →
  wp safe (io_out 0 r) (s1, advance k u) Q E.
Proof.
  intros Hok Hu Hsz Hk Hw HQ. pose proof (rq_off _ _ _ Hu) as [Ho Hr]. pose proof (rq_wf _ _ _ Hu) as (_ & Hlen & Hl32 & _).
  unfold io_out, get_u, get_i, on_f, upd_u. wp_steps. cbn [fst snd]. rewrite (advance_offset _ _ _ _ Hu) by done.
  change (uio_rw (advance k u)) with (uio_rw u). rewrite (rq_rw _ _ _ Hu). change (UIO_WRITE =? UIO_WRITE) with true. cbn [andb].
  destruct (wr_meta _ _ _ _ _ Hw) as (Hsize & Hty & Hlc & _). rewrite Hsize, s32_small by lia.
  assert (∀ s', f_fs s' = f_fs s1 → file_written n k s u s' →
    wp safe (upd_u (λ u, set_resid (u32 (uio_resid u + 0)) u);;
      match r with inl _ => mret tt | inr e => fail e end) (s', advance k u) Q E) as Hend.
  { intros s' Hfs Hs'. unfold upd_u. wp_steps. cbn [fst snd]. unfold is_u32 in Hl32.
    replace (set_resid _ (advance k u)) with (advance k u).
    - specialize (HQ s' Hfs Hs'). by destruct r; wp_steps.
    - destruct u. unfold set_resid, advance. cbn in *. rewrite u32_small by lia. f_equal. lia. }
  apply wp_when; intros Hb.
  - wp_steps. unfold upd_i, set_dirty. wp_steps. cbn [fst snd].
    apply Hend; [done|]. rewrite u32_small by lia. split.
    + apply (st_ok_size s1 _ 1); [apply Hw|unfold is_u32; lia].
    + apply (ext_inode s s1 (set_size (uio_offset u + k) (f_i s1))); [apply Hw|done|done].
    + cbn. lia.
    + cbn. done.
    + apply (wr_max _ _ _ _ _ Hw).
    + apply (wr_bytes _ _ _ _ _ Hw).
  - wp_steps. apply Hend; [done|]. split; [apply Hw|apply Hw|lia|done|apply (wr_max _ _ _ _ _ Hw)|apply (wr_bytes _ _ _ _ _ Hw)].
Qed.

Lemma sfs_io_write s u (Q : () → FU D → Prop) (E : Z → FU D → Prop) :
  st_ok st s → request u UIO_WRITE → size_ok s →
  (∀ s', file_written (uio_resid u) (uio_resid u) s u s' → Q tt (s', advance (uio_resid u) u)) →
  (∀ e s' n k, write_error s' u e → 0 ≤ n ≤ k → k ≤ uio_resid u → file_written n k s u s' →
     E e (s', advance k u)) →
  wp safe (sfs_io user_read user_write t_vmspace st) (s, u) Q E.
Proof.
  intros Hok Hu Hsz HQ HE. unfold sfs_io, get_u, get_i, on_f. wp_steps. cbn [fst snd].
  rewrite (rq_rw _ _ _ Hu). change (UIO_WRITE =? UIO_READ) with false. cbn [andb]. wp_steps.
  pose proof (request_slack _ _ _ Hu).
  apply (io_body_ok UIO_WRITE (written st) (write_failed st)); try done.
  - intros. by apply written_0.
  - intros n s1 u1 s1' _ _ _ Hw. apply Hw.
  - intros n m s1 u1 s1' s1'' ???????. by eapply written_trans.
  - intros n e s1 u1 s1' s1'' u'' Hok1 Hu1 Hn Hn0 Hw (He & m & k & Hm & Hk & -> & Hw'). cbn in Hk. split.
    + destruct He as [?|[?|[?|[-> He]]]]; [by left|right; by left|right; right; by left|]. right; right; right.
      split; [done|]. rewrite (advance_offset _ _ _ _ Hu1) in He by done. cbn in He. lia.
    + exists (n + m), (n + k). split; [lia|]. split; [lia|]. split; [apply advance_advance|].
      eapply written_trans; [done|done|lia|lia|lia|done|done].
  - intros. by eapply (partialio_write user_read user_write st Hst).
  - intros. by eapply (blockio_write user_read user_write st Hst).
  - intros [s1 u1] (_ & Hw & Hu1 & _). cbn in Hw, Hu1. subst u1. wp_steps.
    eapply (io_out_write s u s1); [done|done|done|lia|done|]. intros s' _. apply HQ.
  - intros e [s1 u1] (He & n & k & Hn & Hk & Hu1 & Hw). cbn in Hw, Hu1, He. subst u1. wp_steps.
    eapply (io_out_write s u s1); [done|done|done|lia|done|]. intros s' Hfs Hs'. eapply HE; [|done|done|done].
    unfold write_error in *. by rewrite Hfs.
Qed.
(** How many bytes there are to read *)
Definition available s u : Z :=
  Z.max 0 (Z.min (uio_resid u) (sfi_size (f_i s) - uio_offset u)).

(** A request that has been cut at the end of the file *)
Lemma request_cut u n : request u UIO_READ → 0 ≤ n ≤ uio_resid u → request (set_resid n u) UIO_READ.
Proof.
  intros [Hwf Hrw Ho Hap] Hn. split; try done.
  - destruct Hwf as (H1 & H2 & H3 & H4 & H5). split; [done|]. split; [cbn; lia|]. split; [done|]. split; [done|].
    destruct H5 as [(?&?&?)|?]; [left|by right]. split; [done|]. split; [done|]. cbn. lia.
  - cbn. lia.
  - intros x Hx. apply Hap. unfold uio_mem, range in *. cbn in Hx. lia.
Qed.

Lemma restore_resid u n k :
  is_u32 (uio_resid u) → 0 ≤ k ≤ n → n ≤ uio_resid u →
  set_resid (u32 (uio_resid (advance k (set_resid n u)) + (uio_resid u - n))) (advance k (set_resid n u)) = advance k u.
Proof.
  intros Hu Hk Hn. unfold is_u32 in Hu. destruct u. unfold set_resid, advance. cbn in *.
  rewrite u32_small by lia. f_equal. lia.
Qed.

Lemma io_out_read u s1 n k r (Q : () → FU D → Prop) (E : Z → FU D → Prop) :
  request u UIO_READ → 0 ≤ k ≤ n → n ≤ uio_resid u →
  match r with inl _ => Q tt (s1, advance k u) | inr e => E e (s1, advance k u) end →
  wp safe (io_out (uio_resid u - n) r) (s1, advance k (set_resid n u)) Q E.
Proof.
  intros Hu Hk Hn HQ. pose proof (rq_wf _ _ _ Hu) as (_ & Hlen & Hl32 & _).
  unfold io_out, get_u, get_i, on_f, upd_u. wp_steps. cbn [fst snd].
  change (uio_rw (advance k (set_resid n u))) with (uio_rw u). rewrite (rq_rw _ _ _ Hu).
  change (UIO_READ =? UIO_WRITE) with false. cbn [andb when]. wp_steps. cbn [fst snd].
  rewrite restore_resid; [|unfold is_u32 in *; lia|done|done]. by destruct r; wp_steps.
Qed.

Lemma sfs_io_read s u (Q : () → FU D → Prop) (E : Z → FU D → Prop) :
  st_ok st s → request u UIO_READ → size_ok s →
  (∀ s', readn st (available s u) s u s' → Q tt (s', advance (available s u) u)) →
  (∀ e s' k, uio_offset u < sfi_size (f_i s) → read_error (set_resid (available s u) u) e → 0 ≤ k ≤ available s u →
     quiet (λ x, scratch st x ∨ uio_mem u x) s s' → E e (s', advance k u)) →
  wp safe (sfs_io user_read user_write t_vmspace st) (s, u) Q E.
Proof.
  intros Hok Hu Hsz HQ HE. pose proof (rq_off _ _ _ Hu) as [Ho Hr]. pose proof (request_slack _ _ _ Hu) as Hr0.
  unfold sfs_io, get_u, get_i, on_f, upd_u. wp_steps. cbn [fst snd].
  rewrite (rq_rw _ _ _ Hu). change (UIO_READ =? UIO_READ) with true. cbn [andb].
  rewrite (s32_small (sfi_size _)) by lia. rewrite u32_small, s32_small by lia.
  destruct (Z.leb_spec (sfi_size (f_i s)) (uio_offset u)) as [He|He].
  { wp_steps. assert (available s u = 0) as Ha by (unfold available; lia).
    rewrite <- (advance_zero u) at 1 by lia. rewrite <- Ha. apply HQ. rewrite Ha. by apply readn_0. }
  assert (available s u = Z.min (uio_resid u) (sfi_size (f_i s) - uio_offset u)) as Ha by (unfold available; lia).
  set (n := available s u) in *. clearbody n.
  assert (0 ≤ n ≤ uio_resid u) as Hn by lia.
  assert (∀ (Q' : () → FU D → Prop) (E' : Z → FU D → Prop),
    (∀ s', readn st n s u s' → Q' tt (s', advance n (set_resid n u))) →
    (∀ e s' k, read_error (set_resid n u) e → 0 ≤ k ≤ n → quiet (λ x, scratch st x ∨ uio_mem u x) s s' →
       E' e (s', advance k (set_resid n u))) →
    wp safe (io_body user_read user_write t_vmspace st) (s, set_resid n u) Q' E') as Hbody.
  { intros Q' E' HQ' HE'. pose proof (request_cut _ _ Hu Hn) as Hu'.
    apply (io_body_ok UIO_READ (readn st) (read_failed st)); try done.
    - intros. by apply readn_0.
    - intros m s1 u1 s1' ????. by eapply readn_ok.
    - intros m m' s1 u1 s1' s1'' ???????. by eapply readn_trans.
    - intros m e s1 u1 s1' s1'' u'' Hok1 Hu1 Hm Hm0 Hrd (Her & (k & Hk & ->) & Hq). cbn in Hk. split; [|split].
      + destruct Her as [?|[?|[-> Her]]]; [by left|right; by left|]. right; right.
        split; [done|]. rewrite (advance_offset _ _ _ _ Hu1) in Her by done. cbn in Her. lia.
      + exists (m + k). split; [lia|apply advance_advance].
      + eapply quiet_trans; (eapply quiet_mono; [first [apply (rd_quiet _ _ _ _ _ Hrd)|exact Hq]|]); intros x [|Hx]; try (by left); right;
          unfold uio_next, uio_mem, range in *; cbn in Hx; lia.
    - intros. by eapply (partialio_read user_read user_write st Hst).
    - intros. by eapply (blockio_read user_read user_write st Hst).
    - intros [s1 u1] (_ & Hrd & Hu1 & _). cbn in Hrd, Hu1. subst u1. apply HQ'. destruct Hrd as [Hq Hm Hb]. by split.
    - intros e [s1 u1] (Her & (k & Hk & Hu1) & Hq). cbn in Hk, Hu1, Hq. subst u1. apply HE'; [done|done|].
      eapply quiet_mono; [done|]. intros x [|Hx]; [by left|right]. unfold uio_mem, range in *. cbn in Hx. lia. }
  assert (wp safe (io_body user_read user_write t_vmspace st) (s, set_resid n u)
    (λ a t, wp safe (io_out (uio_resid u - n) (inl a)) t Q E)
    (λ e t, wp safe (io_out (uio_resid u - n) (inr e)) t Q E)) as Hrun.
  { apply Hbody.
    - intros s' Hrd. apply (io_out_read u s' n n); [done|lia|lia|]. by apply HQ.
    - intros e s' k Her Hk Hq. apply (io_out_read u s' n k); [done|lia|lia|]. by apply HE. }
  destruct (Z.ltb_spec (sfi_size (f_i s)) (uio_offset u + uio_resid u)) as [Hcut|Hcut].
  - wp_steps. rewrite u32_small by lia. wp_assert by lia. wp_steps. cbn [fst snd].
    replace (uio_resid u - (uio_offset u + uio_resid u - sfi_size (f_i s))) with n by lia.
    replace (uio_offset u + uio_resid u - sfi_size (f_i s)) with (uio_resid u - n) by lia. exact Hrun.
  - wp_steps. assert (n = uio_resid u) as Hnr by lia. rewrite Hnr, Z.sub_diag in Hrun.
    replace (set_resid (uio_resid u) u) with u in Hrun by (by destruct u). exact Hrun.
Qed.
End rw.
