(* ===== verification/SfsDir.v ===== *)
(** * SFS: directories

    A directory is a file of entries of 64 bytes; [dentry d i slot] is entry [slot]. The
    proofs that searching, linking and unlinking do on the entries what they say, from
    the transfers of SfsRw.v. *)

From Stdlib Require Import ZArith Lia.
From stdpp Require Import base list gmap numbers.
From S2P Require Import Prelude CopyInOut Uio Bitmap Array Vnode SfsData SfsDev Sfs SfsInv SfsBlock SfsIo SfsRw.

Local Open Scope Z_scope.

(** The name in an entry; [sfs_dir_findname] ends it at the last byte. *)
Definition dname (e : sfs_dir) : list Z := cstring (take 59 (sfd_name e)).
Definition dfree (e : sfs_dir) : Prop := sfd_ino e = SFS_NOINO.
Definition dnamed (e : sfs_dir) (name : list Z) : Prop := sfd_ino e ≠ SFS_NOINO ∧ dname e = name.

(** What a search over the first [m] entries has found *)
Definition found_ok (ent : Z → sfs_dir) (name : list Z) (m : Z) (r : found) : Prop :=
  match r.1 with
  | Some (ino, slot) => 0 ≤ slot < m ∧ dnamed (ent slot) name ∧ sfd_ino (ent slot) = ino
  | None => ∀ slot, 0 ≤ slot < m → ¬ dnamed (ent slot) name
  end ∧
  (r.2 = -1 ∧ (∀ slot, 0 ≤ slot < m → ¬ dfree (ent slot)) ∨
   0 ≤ r.2 < m ∧ dfree (ent r.2) ∧ ∀ slot, r.2 < slot < m → ¬ dfree (ent slot)).

Lemma found_ok_ext ent ent' name m r :
  (∀ slot, ent' slot = ent slot) → found_ok ent name m r → found_ok ent' name m r.
Proof.
  intros He. destruct r as [[[ino slot]|] e]; unfold found_ok; cbn [fst snd]; intros [H1 H2]; (split;
    [rewrite ?He; try done; intros slot'; rewrite He; apply H1|]);
    rewrite He; (destruct H2 as [[? H2]|(? & ? & H2)]; [left|right; split; [done|]]; (split; [done|]));
    intros slot'; rewrite He; apply H2.
Qed.

Section dir.
Context {D : Type} `{!BlockDev D} (user_read user_write : Z → bool) {t_vmspace : Z}.
Context `{HL : !BlockDevLaws D t_vmspace} `{HW : !ReliableWrites D t_vmspace} (st : buffers) (Hst : buffers_ok st).
Implicit Types (d : D) (c : copystate) (i : sfs_inode) (f : sfs_fs) (s : F D) (u : uio).

Notation request := (request (t_vmspace := t_vmspace) st).

(** The entries on the stack *)
Definition dir_mem (x : Z) : Prop := range (tsd_at st) sizeof_sfs_dir x ∨ range (sd_at st) sizeof_sfs_dir x.
Definition dir_buffer (a : Z) : Prop := USERTOP ≤ a ∧ a + sizeof_sfs_dir < 2 ^ 32.
Record dir_buffers_ok : Prop := {
  db_tsd : dir_buffer (tsd_at st);
  db_sd : dir_buffer (sd_at st);
  db_apart x : dir_mem x → ¬ scratch st x ∧ ¬ zero_area st x;
}.
Context (Hdb : dir_buffers_ok).

(** Memory that directory operations use *)
Definition dscratch (x : Z) : Prop := scratch st x ∨ dir_mem x.

Definition dentry d i (slot : Z) : sfs_dir :=
  dir_of ((λ k, u8 (fbyte d i (sizeof_sfs_dir * slot + k))) <$> seqZ 0 sizeof_sfs_dir).

(** A directory of [n] entries, with no name twice *)
Record is_dir s (n : Z) : Prop := {
  id_ok : st_ok st s;
  id_type : sfi_type (f_i s) = SFS_TYPE_DIR;
  id_size : sfi_size (f_i s) = sizeof_sfs_dir * n;
  id_max : 0 ≤ n ∧ sizeof_sfs_dir * n ≤ MAXSIZE;
  id_uniq a b name : 0 ≤ a < n → 0 ≤ b < n →
    dnamed (dentry (f_dev s) (f_i s) a) name → dnamed (dentry (f_dev s) (f_i s) b) name → a = b;
}.

Lemma dentry_ext d d' i i' slot :
  (∀ k, 0 ≤ k < sizeof_sfs_dir →
     fbyte d' i' (sizeof_sfs_dir * slot + k) = fbyte d i (sizeof_sfs_dir * slot + k)) →
  dentry d' i' slot = dentry d i slot.
Proof.
  intros Heq. unfold dentry. f_equal. apply list_fmap_ext. intros j k Hk.
  apply lookup_seqZ in Hk as [-> Hk]. f_equal. apply Heq. lia.
Qed.

Lemma quiet_dentry P s s' slot : quiet P s s' → dentry (f_dev s') (f_i s') slot = dentry (f_dev s) (f_i s) slot.
Proof. intros Hq. apply dentry_ext. intros k _. by apply (quiet_fbyte P). Qed.

Lemma dscratch_not_zero x : dscratch x → ¬ zero_area st x.
Proof. intros [Hx|Hx]; [by apply scratch_not_zero|by apply (db_apart Hdb)]. Qed.

Lemma is_dir_quiet s s' n : is_dir s n → quiet dscratch s s' → is_dir s' n.
Proof.
  intros [Hok Ht Hs Hm Hu] Hq. split.
  - by eapply quiet_ok; [..|apply dscratch_not_zero].
  - by rewrite (quiet_i _ _ _ Hq).
  - by rewrite (quiet_i _ _ _ Hq).
  - exact Hm.
  - intros a b name Ha Hb. rewrite !(quiet_dentry _ _ _ _ Hq). by apply Hu.
Qed.

Lemma kernel_request a slot rw :
  dir_buffer a → (∀ x, range a sizeof_sfs_dir x → dir_mem x) →
  rw = UIO_READ ∨ rw = UIO_WRITE → 0 ≤ slot < 2 ^ 20 →
  request (MkUio (MkIovec a sizeof_sfs_dir) (sizeof_sfs_dir * slot) sizeof_sfs_dir UIO_SYSSPACE rw 0) rw.
Proof.
  intros Ha Hx Hrw Hs. unfold dir_buffer, sizeof_sfs_dir, SFS_NAMELEN, USERTOP, MIPS_KSEG0 in *. split; cbn; try done.
  - unfold uio_wf, is_u32. cbn. split_and!; try (done || lia).
  - lia.
  - intros x Hr. by apply (db_apart Hdb), Hx.
Qed.

Lemma slot_pos slot : 0 ≤ slot < 2 ^ 20 → s32 (u32 (slot * sizeof_sfs_dir)) = sizeof_sfs_dir * slot.
Proof. intros. unfold sizeof_sfs_dir, SFS_NAMELEN. rewrite u32_small, s32_small by lia. lia. Qed.

Lemma dentry_peek a s s' slot :
  (∀ k, 0 ≤ k < sizeof_sfs_dir →
     bytes (f_mem s') (a + k) = fbyte (f_dev s) (f_i s) (sizeof_sfs_dir * slot + k)) →
  dir_of (peek a sizeof_sfs_dir (f_mem s')) = dentry (f_dev s) (f_i s) slot.
Proof.
  intros Heq. unfold peek, dentry. f_equal. apply list_fmap_ext. intros j k Hk.
  apply lookup_seqZ in Hk as [-> Hk]. f_equal. apply Heq. lia.
Qed.

Lemma slot_small n slot : sizeof_sfs_dir * n ≤ MAXSIZE → 0 ≤ slot < n → 0 ≤ slot < 2 ^ 20.
Proof. unfold MAXSIZE, MAXBLOCKS, SFS_NDIRECT, SFS_DBPERIDB, SFS_BLOCKSIZE, sizeof_sfs_dir, SFS_NAMELEN. lia. Qed.

Notation readdir := (sfs_readdir user_read user_write t_vmspace st).
Notation writedir := (sfs_writedir user_read user_write t_vmspace st).

Lemma sfs_readdir_ok s n slot (Q : sfs_dir → F D → Prop) (E : Z → F D → Prop) :
  is_dir s n → 0 ≤ slot < n →
  (∀ s', quiet dscratch s s' → Q (dentry (f_dev s) (f_i s) slot) s') →
  (∀ e s', dev_error e → quiet dscratch s s' → E e s') →
  wp safe (readdir slot) s Q E.
Proof.
  intros [Hok Ht Hsz Hm _] Hs HQ HE. pose proof (slot_small n slot ltac:(lia) Hs) as Hss.
  unfold sfs_readdir, local_u, on_us, mk_kuio, upd_uio. wp_steps. cbn [fst snd]. rewrite (slot_pos slot Hss).
  replace (with_io (f_dev s, f_mem s) s) with s by (by destruct s).
  set (u := MkUio _ _ _ _ _ _). pose proof (kernel_request (tsd_at st) slot UIO_READ) as Hu.
  assert (request u UIO_READ) as Hr.
  { apply Hu; [apply (db_tsd Hdb)|by left|by left|done]. }
  assert (available s u = sizeof_sfs_dir) as Ha.
  { unfold available. rewrite Hsz. cbn. unfold sizeof_sfs_dir, SFS_NAMELEN in *. lia. }
  apply (sfs_io_read user_read user_write st Hst); [done|done| | |].
  - rewrite Hsz. unfold MAXSIZE, MAXBLOCKS, SFS_NDIRECT, SFS_DBPERIDB, SFS_BLOCKSIZE in Hm.
    unfold sizeof_sfs_dir, SFS_NAMELEN in *. lia.
  - intros s' Hrd. rewrite Ha in *. unfold get_u, load. wp_steps. cbn [fst snd].
    replace (0 <? uio_resid (advance sizeof_sfs_dir u)) with false by done. wp_steps.
    rewrite (dentry_peek _ s s' slot) by apply (rd_bytes _ _ _ _ _ Hrd). apply HQ.
    eapply quiet_mono; [apply (rd_quiet _ _ _ _ _ Hrd)|]. intros x [Hx|Hx]; [by left|right; left; done].
  - intros e s' k _ He Hk Hq. wp_steps. cbn [fst]. rewrite Ha in He. apply HE.
    + destruct He as [He|[[_ []]|[_ He]]]; [done|done|]. cbn in He. unfold sizeof_sfs_dir, SFS_NAMELEN in *. lia.
    + eapply quiet_mono; [done|]. intros x [Hx|Hx]; [by left|right; left; done].
Qed.

Notation entries s := (dentry (f_dev s) (f_i s)).

Lemma findname_step_ok s n name m r (Q : found → F D → Prop) (E : Z → F D → Prop) :
  is_dir s n → 0 ≤ m < n → found_ok (entries s) name m r →
  (∀ r' s', quiet dscratch s s' → found_ok (entries s) name (m + 1) r' → Q r' s') →
  (∀ e s', dev_error e → quiet dscratch s s' → E e s') →
  wp safe (findname_step user_read user_write t_vmspace st name m r) s Q E.
Proof.
  intros Hd Hm [H1 H2] HQ HE. unfold findname_step. wp_steps. eapply sfs_readdir_ok; [done|done| |done].
  intros s' Hq. set (e := dentry _ _ m) in *. destruct (Z.eqb_spec (sfd_ino e) SFS_NOINO) as [Hf|Hf].
  - wp_steps. apply HQ; [done|]. split; cbn [fst snd].
    + destruct r.1 as [[ino slot]|]; [split; [lia|apply H1]|]. intros slot Hs.
      destruct (decide (slot = m)) as [->|]; [intros [Hx _]; exact (Hx Hf)|]. apply H1. lia.
    + right. split; [lia|]. split; [done|lia].
  - assert (∀ slot, m < slot + 1 → slot < m + 1 → ¬ dfree (entries s slot)) as Hm'.
    { intros slot ??. by replace slot with m by lia. }
    assert (∀ r1, found_ok (entries s) name (m + 1) (r1, r.2) ↔ match r1 with
      | Some (ino, slot) => 0 ≤ slot < m + 1 ∧ dnamed (dentry (f_dev s) (f_i s) slot) name ∧
          sfd_ino (dentry (f_dev s) (f_i s) slot) = ino
      | None => ∀ slot, 0 ≤ slot < m + 1 → ¬ dnamed (dentry (f_dev s) (f_i s) slot) name end) as Hr.
    { intros r1. unfold found_ok. cbn [fst snd]. split; [by intros [? _]|]. intros Hr1. split; [done|].
      destruct H2 as [[? Ha]|(? & ? & Ha)]; [left|right; split; [lia|]]; (split; [done|]);
        intros slot Hs; (destruct (decide (slot = m)) as [->|]; [apply Hm'; lia|apply Ha; lia]). }
    destruct (bool_decide_reflect (cstring (take 59 (sfd_name e)) = name)) as [Hn|Hn].
    + assert (r.1 = None) as Hnone.
      { destruct r.1 as [[ino slot]|]; [|done]. destruct H1 as (Hs & Hnm & _).
        assert (slot = m); [|lia]. apply (id_uniq _ _ Hd slot m name); [lia|lia|done|by split]. }
      wp_assert by (rewrite Hnone; done). wp_steps. apply HQ; [done|]. apply Hr. split; [lia|]. by split.
    + wp_steps. apply HQ; [done|]. destruct r as [r1 r2]. apply Hr. cbn [fst] in H1.
      destruct r1 as [[ino slot]|]; [split; [lia|apply H1]|]. intros slot Hs.
      destruct (decide (slot = m)) as [->|]; [by intros [_ ?]|]. apply H1. lia.
Qed.

Lemma findname_from_ok n name k : ∀ s m r (Q : found → F D → Prop) (E : Z → F D → Prop),
  is_dir s n → 0 ≤ m → m + Z.of_nat k = n → found_ok (entries s) name m r →
  (∀ r' s', quiet dscratch s s' → found_ok (entries s) name n r' → Q r' s') →
  (∀ e s', dev_error e → quiet dscratch s s' → E e s') →
  wp safe (findname_from user_read user_write t_vmspace st name (seqZ m (Z.of_nat k)) r) s Q E.
Proof.
  induction k as [|k IH]; intros s m r Q E Hd Hm Hk Hr HQ HE.
  - cbn. wp_steps. apply HQ; [|by replace n with m by lia].
    destruct (id_ok _ _ Hd) as [Hok Hc _ _]. apply quiet_refl; [done|apply Hc].
  - rewrite seqZ_cons by lia. cbn [findname_from]. wp_steps.
    eapply (findname_step_ok s n); [done|lia|done| |done]. intros r' s' Hq Hr'.
    replace (Z.pred (Z.of_nat (S k))) with (Z.of_nat k) by lia. apply IH; [by eapply is_dir_quiet|lia|lia| | |].
    + replace (Z.succ m) with (m + 1) by lia. eapply found_ok_ext; [|done]. intros slot. by apply (quiet_dentry dscratch).
    + intros r'' s'' Hq' Hr''. apply HQ; [by eapply quiet_trans|].
      eapply found_ok_ext; [|done]. intros slot. symmetry. by apply (quiet_dentry dscratch).
    + intros e s'' He Hq'. apply HE; [done|]. by eapply quiet_trans.
Qed.

Lemma sfs_dir_nentries_ok s n (Q : Z → F D → Prop) E :
  is_dir s n → Q n s → wp safe sfs_dir_nentries s Q E.
Proof.
  intros [Hok Ht Hsz Hm _] HQ. unfold sfs_dir_nentries, get_i. wp_steps. wp_assert by (rewrite Ht; done). wp_steps.
  unfold MAXSIZE, MAXBLOCKS, SFS_NDIRECT, SFS_DBPERIDB, SFS_BLOCKSIZE, sizeof_sfs_dir, SFS_NAMELEN in *.
  rewrite Hsz, s32_small, u32_small by lia. rewrite (Z.mul_comm (4 + 60)), Z.mod_mul, Z.div_mul by lia.
  cbn [Z.eqb negb]. wp_steps. by rewrite s32_small by lia.
Qed.

Lemma sfs_dir_findname_ok s n name (Q : found → F D → Prop) (E : Z → F D → Prop) :
  is_dir s n →
  (∀ r s', quiet dscratch s s' → found_ok (entries s) name n r → Q r s') →
  (∀ e s', dev_error e → quiet dscratch s s' → E e s') →
  wp safe (sfs_dir_findname user_read user_write t_vmspace st name) s Q E.
Proof.
  intros Hd HQ HE. unfold sfs_dir_findname. wp_steps. apply (sfs_dir_nentries_ok s n); [done|].
  destruct (id_max _ _ Hd). rewrite <- (Z2Nat.id n) at 1 by lia.
  apply (findname_from_ok n); [done|lia|lia| |done|done]. split; [cbn; lia|]. left. split; [done|lia].
Qed.

(** ** Changing entries *)

Definition dir_wf (sd : sfs_dir) : Prop :=
  is_u32 (sfd_ino sd) ∧ length (sfd_name sd) = 60%nat ∧ Forall is_byte (sfd_name sd).

(** The memory the functions use changes, then the directory grows. *)
Definition dext s s' : Prop := ∃ s0, quiet dscratch s s0 ∧ ext st s0 s'.

(** Entry [slot] is [sd], the others are as before. *)
Record dir_set s slot sd s' : Prop := {
  ds_ok : st_ok st s';
  ds_ext : dext s s';
  ds_size : sfi_size (f_i s') = Z.max (sfi_size (f_i s)) (sizeof_sfs_dir * (slot + 1));
  ds_max : sizeof_sfs_dir * (slot + 1) ≤ MAXSIZE;
  ds_type : sfi_type (f_i s') = sfi_type (f_i s) ∧ sfi_linkcount (f_i s') = sfi_linkcount (f_i s);
  ds_entries slot' : 0 ≤ slot' → sizeof_sfs_dir * (slot' + 1) ≤ MAXSIZE →
    entries s' slot' = if slot' =? slot then sd else entries s slot';
}.

(** A failed update: entry [slot] may be anything. *)
Record dir_unset s slot s' : Prop := {
  du_ok : st_ok st s';
  du_ext : dext s s';
  du_size : sfi_size (f_i s) ≤ sfi_size (f_i s') ≤ Z.max (sfi_size (f_i s)) (sizeof_sfs_dir * (slot + 1));
  du_entries slot' : 0 ≤ slot' → sizeof_sfs_dir * (slot' + 1) ≤ MAXSIZE → slot' ≠ slot →
    entries s' slot' = entries s slot';
}.

Definition dir_error s' slot (e : Z) : Prop :=
  dev_error e ∨ e = ENOSPC ∧ full (f_fs s') ∨ e = EINVAL ∧ MAXSIZE < sizeof_sfs_dir * (slot + 1).

Lemma length_dir_bytes sd : dir_wf sd → length (dir_bytes sd) = Z.to_nat sizeof_sfs_dir.
Proof. intros (_ & Hl & _). unfold dir_bytes. rewrite length_app, Hl. done. Qed.

Lemma dir_bytes_bytes sd : dir_wf sd → Forall is_byte (dir_bytes sd).
Proof. intros (_ & _ & Hb). unfold dir_bytes. apply Forall_app. split; [apply be32_bytes|done]. Qed.

(** Bytes of the entry that was put at [sd_at] *)
Lemma dentry_written sd d i c slot :
  dir_wf sd →
  (∀ k, 0 ≤ k < sizeof_sfs_dir →
     fbyte d i (sizeof_sfs_dir * slot + k) = bytes (poke (sd_at st) (dir_bytes sd) c) (sd_at st + k)) →
  dentry d i slot = sd.
Proof.
  intros Hsd Heq. rewrite <- (dir_of_bytes sd) at 1 by apply Hsd. unfold dentry. f_equal.
  rewrite <- (peek_poke (sd_at st) (dir_bytes sd) c) at 1 by (by apply dir_bytes_bytes).
  rewrite (length_dir_bytes sd Hsd). unfold peek. apply list_fmap_ext. intros j k Hk.
  apply lookup_seqZ in Hk as [-> Hk]. f_equal. apply Heq. unfold sizeof_sfs_dir, SFS_NAMELEN in *. lia.
Qed.

Lemma store_quiet s sd :
  st_ok st s → dir_wf sd → quiet dscratch s (with_io (f_dev s, poke (sd_at st) (dir_bytes sd) (f_mem s)) s).
Proof.
  intros [Hd [Hb _] _ _] Hsd. split; try done. split; [done|]. intros x Hx. apply poke_same_outside.
  rewrite (length_dir_bytes sd Hsd). intros Hr. apply Hx. right. right. unfold range. lia.
Qed.

(** The bytes of the other entries are not those of entry [slot]. *)
Lemma other_entry slot slot' k n :
  slot' ≠ slot → 0 ≤ k < sizeof_sfs_dir → n ≤ sizeof_sfs_dir →
  (sizeof_sfs_dir * slot <=? sizeof_sfs_dir * slot' + k) &&
  (sizeof_sfs_dir * slot' + k <? sizeof_sfs_dir * slot + n) = false.
Proof. unfold sizeof_sfs_dir, SFS_NAMELEN. lia. Qed.

Definition entry_uio (slot : Z) : uio :=
  MkUio (MkIovec (sd_at st) sizeof_sfs_dir) (sizeof_sfs_dir * slot) sizeof_sfs_dir UIO_SYSSPACE UIO_WRITE 0.

Lemma written_dir_set s s' sd slot :
  st_ok st s → dir_wf sd → 0 ≤ slot →
  file_written st sizeof_sfs_dir sizeof_sfs_dir (with_io (f_dev s, poke (sd_at st) (dir_bytes sd) (f_mem s)) s)
    (entry_uio slot) s' →
  dir_set s slot sd s'.
Proof.
  intros Hok Hsd Hs [Ho He Hz Ht Hm Hb]. split; try done.
  - exists (with_io (f_dev s, poke (sd_at st) (dir_bytes sd) (f_mem s)) s). split; [by apply store_quiet|done].
  - rewrite Hz. cbn [uio_offset entry_uio]. change (f_i (with_io _ s)) with (f_i s). lia.
  - specialize (Hm ltac:(done)). cbn in Hm. lia.
  - intros slot' Hs' Hmax. assert (∀ k, 0 ≤ k < sizeof_sfs_dir → 0 ≤ sizeof_sfs_dir * slot' + k < MAXSIZE) as Hk.
    { unfold sizeof_sfs_dir, SFS_NAMELEN in *. lia. }
    destruct (Z.eqb_spec slot' slot) as [->|Hne].
    + apply (dentry_written sd _ _ (f_mem s)); [done|]. intros k Hkr. rewrite Hb by auto. cbn [uio_offset entry_uio].
      destruct (Z.leb_spec (sizeof_sfs_dir * slot) (sizeof_sfs_dir * slot + k)); [|lia].
      destruct (Z.ltb_spec (sizeof_sfs_dir * slot + k) (sizeof_sfs_dir * slot + sizeof_sfs_dir)); [|lia].
      cbn [andb f_mem with_io snd uio_iovec iov_base entry_uio]. f_equal. lia.
    + apply dentry_ext. intros k Hkr. rewrite Hb by auto. cbn [uio_offset entry_uio].
      by rewrite (other_entry slot slot') by done.
Qed.

Lemma written_dir_unset s s' n k sd slot :
  st_ok st s → dir_wf sd → 0 ≤ slot → 0 ≤ n ≤ k → k ≤ sizeof_sfs_dir →
  file_written st n k (with_io (f_dev s, poke (sd_at st) (dir_bytes sd) (f_mem s)) s) (entry_uio slot) s' →
  0 ≤ sfi_size (f_i s) → dir_unset s slot s'.
Proof.
  intros Hok Hsd Hs Hn Hk [Ho He Hz Ht Hm Hb] Hsz. split; try done.
  - exists (with_io (f_dev s, poke (sd_at st) (dir_bytes sd) (f_mem s)) s). split; [by apply store_quiet|done].
  - rewrite Hz. cbn [uio_offset entry_uio]. change (f_i (with_io _ s)) with (f_i s). lia.
  - intros slot' Hs' Hmax Hne. apply dentry_ext. intros j Hj.
    rewrite Hb by (unfold sizeof_sfs_dir, SFS_NAMELEN in *; lia). cbn [uio_offset entry_uio].
    by rewrite (other_entry slot slot') by (done || lia).
Qed.

Lemma sfs_writedir_ok s sd slot (Q : () → F D → Prop) (E : Z → F D → Prop) :
  st_ok st s → dir_wf sd → 0 ≤ slot < 2 ^ 20 → 0 ≤ sfi_size (f_i s) < 2 ^ 31 →
  (∀ s', dir_set s slot sd s' → Q tt s') →
  (∀ e s', dir_error s' slot e → dir_unset s slot s' → E e s') →
  wp safe (writedir sd slot) s Q E.
Proof.
  intros Hok Hsd Hs Hsz HQ HE. unfold sfs_writedir, store. wp_assert by lia. wp_steps.
  unfold local_u, on_us, mk_kuio, upd_uio. wp_steps. cbn [fst snd]. rewrite (slot_pos slot Hs).
  set (s0 := with_io (f_dev s, poke (sd_at st) (dir_bytes sd) (f_mem s)) s).
  replace (with_io (f_dev s0, f_mem s0) s0) with s0 by done. fold (entry_uio slot).
  pose proof (store_quiet s sd Hok Hsd) as Hq. fold s0 in Hq.
  apply (sfs_io_write user_read user_write st Hst).
  - by eapply quiet_ok; [..|apply dscratch_not_zero].
  - apply (kernel_request (sd_at st) slot UIO_WRITE); [apply (db_sd Hdb)|by right|by right|done].
  - done.
  - intros s' Hw. unfold get_u. wp_steps. cbn [fst snd].
    replace (0 <? uio_resid (advance _ (entry_uio slot))) with false by done. wp_steps. apply HQ.
    by apply written_dir_set; [..|lia|].
  - intros e s' n k He Hn Hk Hw. wp_steps. cbn [fst]. apply HE; [|by apply (written_dir_unset s s' n k sd slot); [done|done|lia|done|done|done|lia]].
    destruct He as [He|[[_ []]|[He|[He Hx]]]]; [by left|done|right; by left|right; right].
    split; [done|]. cbn in Hx. unfold sizeof_sfs_dir, SFS_NAMELEN in *. lia.
Qed.

(** ** Linking and unlinking *)

(** A string that a directory entry can hold *)
Definition name_ok (name : list Z) : Prop := Forall (λ c : Z, is_byte c ∧ c ≠ 0) name.

Lemma take_padded name : (length name ≤ 59)%nat → take 59 (padded SFS_NAMELEN name) = padded 59 name.
Proof.
  intros Hl. unfold padded, SFS_NAMELEN. rewrite take_app_ge by lia. f_equal.
  rewrite take_replicate. f_equal. lia.
Qed.

Lemma dname_padded ino name : name_ok name → (length name ≤ 59)%nat → dname (MkDir ino (padded SFS_NAMELEN name)) = name.
Proof.
  intros Hn Hl. unfold dname. cbn [sfd_name]. rewrite take_padded by done. apply cstring_padded.
  eapply list.Forall_impl; [exact Hn|]. by intros c [_ ?].
Qed.

Lemma padded_wf ino name :
  is_u32 ino → name_ok name → (length name ≤ 59)%nat → dir_wf (MkDir ino (padded SFS_NAMELEN name)).
Proof.
  intros Hi Hn Hl. split; [done|]. cbn [sfd_name]. split; [rewrite length_padded; [done|unfold SFS_NAMELEN; lia]|].
  unfold padded. apply Forall_app. split; [eapply list.Forall_impl; [exact Hn|]; by intros c [? _]|].
  by apply Forall_replicate.
Qed.

(** An entry with a new name keeps the directory a directory. *)
Lemma dir_set_is_dir s n slot sd s' :
  is_dir s n → 0 ≤ slot ≤ n → dir_set s slot sd s' →
  (dfree sd ∨ ∀ x, 0 ≤ x < n → x ≠ slot → dname (entries s x) = dname sd → dfree (entries s x)) →
  is_dir s' (Z.max n (slot + 1)).
Proof.
  intros [Hok Ht Hsz Hm Hu] Hs [Ho _ Hz Hmax [Hty _] He] Hnew. split.
  - done.
  - by rewrite Hty.
  - rewrite Hz, Hsz. unfold sizeof_sfs_dir, SFS_NAMELEN in *. lia.
  - unfold sizeof_sfs_dir, SFS_NAMELEN in *. lia.
  - intros a b name Ha Hb.
    rewrite !He by (unfold sizeof_sfs_dir, SFS_NAMELEN in *; lia).
    destruct (Z.eqb_spec a slot) as [->|Ha'], (Z.eqb_spec b slot) as [->|Hb']; [done| | |apply Hu; lia].
    + intros [Hf Hn] [Hf' Hn']. destruct Hnew as [|Hnew]; [done|]. destruct Hf'. apply Hnew; [lia|done|]. by rewrite Hn, Hn'.
    + intros [Hf Hn] [Hf' Hn']. destruct Hnew as [|Hnew]; [done|]. destruct Hf. apply Hnew; [lia|done|]. by rewrite Hn, Hn'.
Qed.

Lemma dir_set_quiet s s1 slot sd s' : quiet dscratch s s1 → dir_set s1 slot sd s' → dir_set s slot sd s'.
Proof.
  intros Hq [Ho (s0 & Hq' & He) Hz Hm Ht Hen]. rewrite (quiet_i _ _ _ Hq) in Hz, Ht. split; try done.
  - exists s0. split; [by eapply quiet_trans|done].
  - intros x Hx Hxm. rewrite Hen by done. by rewrite (quiet_dentry _ _ _ x Hq).
Qed.

Lemma dir_unset_quiet s s1 slot s' : quiet dscratch s s1 → dir_unset s1 slot s' → dir_unset s slot s'.
Proof.
  intros Hq [Ho (s0 & Hq' & He) Hz Hen]. rewrite (quiet_i _ _ _ Hq) in Hz. split; try done.
  - exists s0. split; [by eapply quiet_trans|done].
  - intros x Hx Hxm Hne. rewrite Hen by done. by rewrite (quiet_dentry _ _ _ x Hq).
Qed.

(** Why a name is not entered *)
Definition link_error s s' (n : Z) (name : list Z) (e : Z) : Prop :=
  e = EEXIST ∧ (∃ x, 0 ≤ x < n ∧ dnamed (entries s x) name) ∧ quiet dscratch s s' ∨
  e = ENAMETOOLONG ∧ 60 ≤ Z.of_nat (length name) ∧ quiet dscratch s s' ∨
  dev_error e ∧ quiet dscratch s s' ∨
  ∃ slot, 0 ≤ slot ≤ n ∧ (slot < n → dfree (entries s slot)) ∧ dir_error s' slot e ∧ dir_unset s slot s'.

Lemma sfs_dir_link_ok s n name ino (Q : Z → F D → Prop) (E : Z → F D → Prop) :
  is_dir s n → name_ok name → is_u32 ino →
  (∀ slot s', (∀ x, 0 ≤ x < n → ¬ dnamed (entries s x) name) → (length name ≤ 59)%nat →
     0 ≤ slot ≤ n → (slot < n → dfree (entries s slot)) →
     dir_set s slot (MkDir ino (padded SFS_NAMELEN name)) s' →
     is_dir s' (Z.max n (slot + 1)) → Q slot s') →
  (∀ e s', link_error s s' n name e → E e s') →
  wp safe (sfs_dir_link user_read user_write t_vmspace st name ino) s Q E.
Proof.
  intros Hd Hname Hino HQ HE. unfold sfs_dir_link. wp_steps.
  eapply sfs_dir_findname_ok; [done| |by intros e s' He Hq; apply HE; right; right; left].
  intros r s1 Hq [H1 H2]. case_bool_decide as Hf.
  { wp_steps. apply HE. left. split; [done|]. split; [|done]. destruct Hf as [[i slot] Hf]. rewrite Hf in H1.
    destruct H1 as (? & ? & _). by exists slot. }
  assert (r.1 = None) as Hr by (by destruct r.1 as [?|]; [destruct Hf; eexists|]). rewrite Hr in H1.
  destruct (Z.ltb_spec SFS_NAMELEN (Z.of_nat (length name) + 1)) as [Hl|Hl]; unfold SFS_NAMELEN in Hl.
  { wp_steps. apply HE. right; left. split; [done|]. split; [lia|done]. }
  assert (∃ slot, 0 ≤ slot ≤ n ∧ (slot < n → dfree (entries s slot)) ∧
    slot = if r.2 <? 0 then n else r.2) as (slot & Hs & Hfree & Hslot).
  { destruct H2 as [[-> _]|(? & ? & _)]; eexists; (split; [|split; [|done]]); cbn.
    - destruct (id_max _ _ Hd). lia.
    - lia.
    - destruct (Z.ltb_spec r.2 0); lia.
    - destruct (Z.ltb_spec r.2 0); [lia|done]. }
  assert (wp safe (if r.2 <? 0 then sfs_dir_nentries else mret r.2) s1 (λ x t, x = slot ∧ t = s1) noerr) as Hw.
  { destruct (r.2 <? 0); [|by wp_steps]. apply (sfs_dir_nentries_ok s1 n); [by eapply is_dir_quiet|done]. }
  apply wp_bind. eapply wp_mono; [exact Hw| |done].
  intros ? ? [-> ->]. wp_steps. pose proof (is_dir_quiet _ _ _ Hd Hq) as Hd1.
  pose proof (id_max _ _ Hd1) as Hm1.
  assert (0 ≤ slot < 2 ^ 20 ∧ 0 ≤ sfi_size (f_i s1) < 2 ^ 31) as [Hs20 Hz1].
  { rewrite (id_size _ _ Hd1). clear - Hm1 Hs.
    unfold MAXSIZE, MAXBLOCKS, SFS_NDIRECT, SFS_DBPERIDB, SFS_BLOCKSIZE, sizeof_sfs_dir, SFS_NAMELEN in *. lia. }
  apply sfs_writedir_ok; [apply Hd1|by apply padded_wf; [..|lia]|done|done| |].
  - intros s' Hset%(dir_set_quiet s); [|done]. wp_steps. apply HQ; [done|lia|done|done|done|].
    eapply (dir_set_is_dir s); [done|done|exact Hset|]. right. intros x Hx _ Hn. rewrite dname_padded in Hn by (done || lia).
    destruct (decide (dfree (entries s x))) as [|Hnf]; [done|]. by destruct (H1 x Hx).
  - intros e s' He Hu%(dir_unset_quiet s); [|done]. apply HE. right; right; right. by exists slot.
Qed.

Lemma sfs_dir_unlink_ok s n slot (Q : () → F D → Prop) (E : Z → F D → Prop) :
  is_dir s n → 0 ≤ slot < n →
  (∀ s', dir_set s slot (MkDir SFS_NOINO (padded SFS_NAMELEN [])) s' → is_dir s' n → Q tt s') →
  (∀ e s', dir_error s' slot e → dir_unset s slot s' → E e s') →
  wp safe (sfs_dir_unlink user_read user_write t_vmspace st slot) s Q E.
Proof.
  intros Hd Hs HQ HE. unfold sfs_dir_unlink. pose proof (id_max _ _ Hd) as Hm.
  apply sfs_writedir_ok; [apply Hd|apply padded_wf; [done|by apply list.Forall_nil|cbn; lia]|apply (slot_small n); lia| | |done].
  - rewrite (id_size _ _ Hd). clear - Hm.
    unfold MAXSIZE, MAXBLOCKS, SFS_NDIRECT, SFS_DBPERIDB, SFS_BLOCKSIZE, sizeof_sfs_dir, SFS_NAMELEN in *. lia.
  - intros s' Hset. apply HQ; [done|]. replace n with (Z.max n (slot + 1)) by lia.
    eapply (dir_set_is_dir s); [done|lia|exact Hset|by left].
Qed.
End dir.
