(* ===== verification/SfsTrunc.v ===== *)
(** * SFS: truncation

    [sfs_truncate] drops the blocks beyond the new end from the block map and marks them
    free. A direct block [n] is kept when [n] is below the number of blocks of the new
    length; a block of the indirect block also when it is equal to it. *)

From Stdlib Require Import ZArith Lia.
From stdpp Require Import base list gmap numbers.
From S2P Require Import Prelude CopyInOut Uio Bitmap Array Vnode SfsData SfsDev Sfs SfsInv SfsBlock.

Local Open Scope Z_scope.

(** ** Marking blocks free *)

(** The blocks of [P] are free in [f'], the others are as in [f]. *)
Record unmarked (P : Z → Prop) (f f' : sfs_fs) : Prop := {
  um_super : sfs_super_ f' = sfs_super_ f;
  um_superdirty : sfs_superdirty f' = sfs_superdirty f;
  um_vnodes : sfs_vnodes f' = sfs_vnodes f ∧ sfs_vnodes_at f' = sfs_vnodes_at f;
  um_at : sfs_freemap_at f' = sfs_freemap_at f;
  um_wf : bitmap_wf (sfs_freemap f');
  um_nbits : nbits (sfs_freemap f') = nbits (sfs_freemap f);
  um_in b : P b → marked f' b = false;
  um_out b : 0 ≤ b → ¬ P b → marked f' b = marked f b;
  um_sub b : 0 ≤ b → marked f' b = true → marked f b = true;
  um_dirty : f' = f ∨ sfs_freemapdirty f' ≠ 0;
}.

Lemma unmarked_refl (P : Z → Prop) f : bitmap_wf (sfs_freemap f) → (∀ b, ¬ P b) → unmarked P f f.
Proof. intros Hwf HP. split; try done; [|by left]. intros b Hb. by destruct (HP b). Qed.

Lemma unmarked_trans (P P' : Z → Prop) f f' f'' :
  (∀ b, P b → 0 ≤ b) → unmarked P f f' → unmarked P' f' f'' → unmarked (λ b, P b ∨ P' b) f f''.
Proof.
  intros HP [H1 H2 [H3 H3'] H4 H5 H6 H7 H8 H9 H10] [G1 G2 [G3 G3'] G4 G5 G6 G7 G8 G9 G10].
  split; try congruence.
  - split; congruence.
  - intros b [Hb|Hb]; [|by apply G7]. destruct (marked f'' b) eqn:Hm; [|done].
    apply G9 in Hm; [|by apply HP]. by rewrite H7 in Hm.
  - intros b Hb0 Hb. rewrite G8, H8; auto.
  - intros b Hb0 Hb. auto.
  - destruct G10 as [-> |]; [|by right]. destruct H10 as [-> |]; [by left|by right].
Qed.

Lemma unmarked_iff (P P' : Z → Prop) f f' : (∀ b, P b ↔ P' b) → unmarked P f f' → unmarked P' f f'.
Proof.
  intros HP []. split; try done.
  - intros b Hb. by apply um_in0, HP.
  - intros b Hb0 Hb. apply um_out0; [done|]. by rewrite HP.
Qed.

Section trunc.
Context {D : Type} `{!BlockDev D} {t_vmspace : Z} `{HL : !BlockDevLaws D t_vmspace} `{HW : !ReliableWrites D t_vmspace}.
Context (st : buffers) (Hst : buffers_ok st).
Implicit Types (d : D) (c : copystate) (i : sfs_inode) (f : sfs_fs) (s : F D).

Lemma fs_ok_unmarked (P : Z → Prop) f f' :
  fs_ok f → unmarked P f f' → (∀ b, P b → 0 < b < nblocks f) → fs_ok f'.
Proof.
  intros [Hwf Hnb Hbits Hbey Hsb] [H1 H2 H3 H4 H5 H6 H7 H8 H9 H10] HP.
  assert (nblocks f' = nblocks f) as Hn by (unfold nblocks; by rewrite H1).
  split; rewrite ?Hn, ?H6; try done.
  - intros b Hb. rewrite H8; [by apply Hbey|lia|]. intros Hp%HP. lia.
  - rewrite H8; [done|done|]. intros Hp%HP. unfold SFS_SB_LOCATION in Hp. lia.
Qed.

Lemma sfs_bfree_ok s b (Q : () → F D → Prop) E :
  bitmap_wf (sfs_freemap (f_fs s)) → 0 ≤ b < nbits (sfs_freemap (f_fs s)) → marked (f_fs s) b = true →
  (∀ f', unmarked (eq b) (f_fs s) f' → Q tt (with_fs f' s)) →
  wp safe (sfs_bfree b) s Q E.
Proof.
  intros Hwf Hb Hm HQ. unfold sfs_bfree, on_freemap, set_freemapdirty. wp_steps.
  eapply wp_mono; [by apply bitmap_unmark_ok| |done]. intros [] fm (Hfm & Hn & Hf & Ho). wp_steps. cbn.
  apply (HQ (with_freemapdirty 1 (with_freemap fm (f_fs s)))).
  assert (∀ x, 0 ≤ x → x ≠ b → bit fm x = bit (sfs_freemap (f_fs s)) x) as Hx by (intros; by apply Ho).
  split; cbn; try done.
  - by intros ? <-.
  - intros x Hx0 Hxb. unfold marked. cbn. apply Hx; [done|]. congruence.
  - intros x Hx0. unfold marked. cbn. destruct (decide (x = b)) as [->|]; [by rewrite Hf|by rewrite Hx].
  - by right.
Qed.

(** ** Files that lose blocks *)

(** [keep n]: block [n] of the file stays *)
Record shrunk (keep : Z → bool) s s' : Prop := {
  sh_ok : st_ok st s';
  sh_blocks n : 0 ≤ n < MAXBLOCKS → fblock (f_dev s') (f_i s') n = if keep n then fblock (f_dev s) (f_i s) n else 0;
  sh_indirect : sfi_indirect (f_i s') = sfi_indirect (f_i s) ∨ sfi_indirect (f_i s') = 0;
  sh_owns b : owns (f_dev s') (f_i s') b → owns (f_dev s) (f_i s) b;
  sh_freed b : owns (f_dev s) (f_i s) b → ¬ owns (f_dev s') (f_i s') b → marked (f_fs s') b = false;
  sh_marked b : 0 ≤ b → ¬ owns (f_dev s) (f_i s) b ∨ owns (f_dev s') (f_i s') b →
    marked (f_fs s') b = marked (f_fs s) b;
  sh_disk b k : 0 ≤ k < SFS_BLOCKSIZE → b ≠ sfi_indirect (f_i s) → dbyte (f_dev s') b k = dbyte (f_dev s) b k;
  sh_v : sv_v (f_sv s') = sv_v (f_sv s) ∧ sv_ino (f_sv s') = sv_ino (f_sv s) ∧ f_at s' = f_at s;
  sh_type : sfi_type (f_i s') = sfi_type (f_i s) ∧ sfi_linkcount (f_i s') = sfi_linkcount (f_i s);
  sh_fs : sfs_super_ (f_fs s') = sfs_super_ (f_fs s) ∧ sfs_vnodes (f_fs s') = sfs_vnodes (f_fs s);
  sh_mem : same_but (scratch st) (f_mem s) (f_mem s');
}.

(** The blocks that are given back; [ki]: the indirect block stays *)
Definition dropped (keep : Z → bool) (ki : bool) s (b : Z) : Prop :=
  b ≠ 0 ∧ ((∃ n, 0 ≤ n < MAXBLOCKS ∧ keep n = false ∧ fblock (f_dev s) (f_i s) n = b) ∨
           ki = false ∧ b = sfi_indirect (f_i s)).

Lemma dropped_owns keep ki s b : dropped keep ki s b → owns (f_dev s) (f_i s) b.
Proof. intros [Hb [(n & Hn & _ & <-)|[_ ->]]]; [by apply owns_fblock|by apply owns_indirect]. Qed.

Lemma shrink (keep : Z → bool) (ki : bool) s s' :
  st_ok st s → dev_ok (f_dev s') → inode_wf (f_i s') →
  (∀ n, 0 ≤ n < MAXBLOCKS → fblock (f_dev s') (f_i s') n = if keep n then fblock (f_dev s) (f_i s) n else 0) →
  sfi_indirect (f_i s') = (if ki then sfi_indirect (f_i s) else 0) →
  unmarked (dropped keep ki s) (f_fs s) (f_fs s') →
  (∀ b k, 0 ≤ k < SFS_BLOCKSIZE → b ≠ sfi_indirect (f_i s) → dbyte (f_dev s') b k = dbyte (f_dev s) b k) →
  sv_v (f_sv s') = sv_v (f_sv s) ∧ sv_ino (f_sv s') = sv_ino (f_sv s) ∧ f_at s' = f_at s →
  sfi_type (f_i s') = sfi_type (f_i s) ∧ sfi_linkcount (f_i s') = sfi_linkcount (f_i s) →
  same_but (scratch st) (f_mem s) (f_mem s') →
  shrunk keep s s'.
Proof.
  intros [Hd Hc Hf [Hwf Hu Hi Hn]] Hd' Hwf' Hfb Hind Hum Hdisk Hv Ht Hm.
  assert (∀ b, owns (f_dev s') (f_i s') b → owns (f_dev s) (f_i s) b) as Hown.
  { intros b [Hb [->|(n & Hnr & <-)]].
    - rewrite Hind in *. destruct ki; [by apply owns_indirect|done].
    - rewrite Hfb in * by done. destruct (keep n); [by apply owns_fblock|done]. }
  assert (∀ b, dropped keep ki s b → ¬ owns (f_dev s') (f_i s') b) as Hdrop.
  { intros b [Hb Hdr] [_ Ho]. destruct Hdr as [(n & Hnr & Hk & <-)|[-> ->]].
    - destruct Ho as [Ho|(m & Hmr & Ho)].
      + rewrite Hind in Ho. destruct ki; [|done]. by apply (Hn n).
      + rewrite Hfb in Ho by done. destruct (keep m) eqn:Hkm; [|done].
        assert (n = m) as -> by (apply Hi; try done; congruence). congruence.
    - destruct Ho as [Ho|(m & Hmr & Ho)]; [congruence|]. rewrite Hfb in Ho by done.
      destruct (keep m); [|congruence]. apply (Hn m Hmr); congruence. }
  assert (∀ b, owns (f_dev s) (f_i s) b → ¬ owns (f_dev s') (f_i s') b → dropped keep ki s b) as Hlost.
  { intros b [Hb Ho] Hno. split; [done|]. destruct Ho as [->|(n & Hnr & <-)].
    - right. split; [|done]. destruct ki; [|done]. destruct Hno. split; [done|by left].
    - left. exists n. split_and!; [lia|lia| |done]. destruct (keep n) eqn:Hk; [|done]. destruct Hno. split; [done|].
      right. exists n. split; [done|]. by rewrite Hfb, Hk. }
  assert (∀ b, owns (f_dev s') (f_i s') b → marked (f_fs s') b = true) as Hmk.
  { intros b Hb. destruct (Hu b (Hown b Hb)) as [Hr Hmb]. rewrite (um_out _ _ _ Hum); [done|lia|].
    intros Hx. by apply (Hdrop b). }
  assert (fs_ok (f_fs s')) as Hf'.
  { eapply fs_ok_unmarked; [done|done|]. intros b Hb%dropped_owns. by apply Hu. }
  assert (nblocks (f_fs s') = nblocks (f_fs s)) as Hnb by (unfold nblocks; by rewrite (um_super _ _ _ Hum)).
  split; try done.
  - split; [done|by eapply mem_ok_scratch|done|]. split; [done| | |].
    + intros b Hb. split; [|by apply Hmk]. rewrite Hnb. by apply Hu, Hown.
    + intros n m Hnr Hmr. rewrite !Hfb by done. destruct (keep n), (keep m); try done. by apply Hi.
    + intros n Hnr. rewrite Hfb, Hind by done. destruct (keep n); [|done]. destruct ki; [by apply Hn|done].
  - rewrite Hind. destruct ki; auto.
  - intros b Hb Hno. apply (um_in _ _ _ Hum). by apply Hlost.
  - intros b Hb Ho. apply (um_out _ _ _ Hum); [done|]. intros Hx. destruct Ho as [Ho|Ho].
    + by apply Ho, (dropped_owns keep ki).
    + by apply (Hdrop b).
  - split; [apply Hum|apply Hum].
Qed.

(** ** The direct blocks *)

(** The direct blocks from [bl] up to [k] have been dropped. *)
Definition cut (bl k n : Z) : bool := (bl <=? n) && (n <? k).

Record direct_cut (bl k : Z) s t : Prop := {
  dc_io : f_dev t = f_dev s ∧ f_mem t = f_mem s ∧ f_at t = f_at s;
  dc_v : sv_v (f_sv t) = sv_v (f_sv s) ∧ sv_ino (f_sv t) = sv_ino (f_sv s);
  dc_i : f_i t = set_direct (sfi_direct (f_i t)) (f_i s);
  dc_len : length (sfi_direct (f_i t)) = 15%nat;
  dc_direct n : 0 ≤ n < SFS_NDIRECT →
    zlookup (sfi_direct (f_i t)) n = Some (if cut bl k n then 0 else fblock (f_dev s) (f_i s) n);
  dc_um : unmarked (λ b, b ≠ 0 ∧ ∃ n, 0 ≤ n < SFS_NDIRECT ∧ cut bl k n = true ∧ fblock (f_dev s) (f_i s) n = b)
            (f_fs s) (f_fs t);
}.

Lemma direct_cut_0 bl s : st_ok st s → direct_cut bl 0 s s.
Proof.
  intros [Hd Hc Hf [Hwf _ _ _]]. split; try done.
  - unfold f_i. by destruct (sv_i (f_sv s)).
  - apply Hwf.
  - intros n Hn. destruct (direct_lookup (f_i s) n Hwf Hn) as [b Hb]. rewrite fblock_direct, Hb by lia.
    unfold cut. by destruct (_ && _) eqn:?; [lia|].
  - apply unmarked_refl; [apply Hf|]. intros b (_ & n & Hn & Hk & _). unfold cut in Hk. lia.
Qed.

Lemma cut_S bl k n : cut bl (k + 1) n = (if n =? k then bl <=? n else cut bl k n).
Proof. unfold cut. destruct (Z.eqb_spec n k); lia. Qed.

Lemma direct_block_marked s bl k t :
  st_ok st s → direct_cut bl k s t → 0 ≤ k < SFS_NDIRECT → fblock (f_dev s) (f_i s) k ≠ 0 →
  0 ≤ fblock (f_dev s) (f_i s) k < nbits (sfs_freemap (f_fs t)) ∧
  marked (f_fs t) (fblock (f_dev s) (f_i s) k) = true.
Proof.
  intros [Hd Hc Hf [Hwf Hu Hi Hn]] Hcut Hk Hb.
  assert (0 ≤ k < MAXBLOCKS) as Hk' by (unfold MAXBLOCKS, SFS_NDIRECT, SFS_DBPERIDB in *; lia).
  destruct (Hu (fblock (f_dev s) (f_i s) k)) as [Hr Hm]; [by apply owns_fblock|].
  rewrite (um_nbits _ _ _ (dc_um _ _ _ _ Hcut)). pose proof (fs_nbits _ Hf). split; [lia|].
  rewrite (um_out _ _ _ (dc_um _ _ _ _ Hcut)); [done|lia|]. intros (_ & n & Hnr & Hcn & Heq).
  assert (n = k) as ->; [|unfold cut in Hcn; lia].
  apply Hi; [unfold MAXBLOCKS, SFS_NDIRECT, SFS_DBPERIDB in *; lia|done|congruence|done].
Qed.

(** Block [k] is dropped. *)
Lemma direct_cut_drop s bl k t f' :
  st_ok st s → direct_cut bl k s t → 0 ≤ k < SFS_NDIRECT → bl ≤ k → fblock (f_dev s) (f_i s) k ≠ 0 →
  unmarked (eq (fblock (f_dev s) (f_i s) k)) (f_fs t) f' →
  direct_cut bl (k + 1) s
    (with_sv (with_dirty 1 (with_inode (set_direct (<[Z.to_nat k := 0]> (sfi_direct (f_i t))) (f_i t)) (f_sv t)))
      (with_fs f' t)).
Proof.
  intros Hok [(Hio & Hmem & Hat) Hv Hi Hlen Hdir Hum] Hk Hbl Hb0 Hf'. split; cbn; try done.
  - rewrite Hi. done.
  - by rewrite length_insert.
  - intros n Hn. unfold SFS_NDIRECT in *. rewrite zlookup_insert by lia. rewrite cut_S.
    destruct (decide (k = n)) as [->|]; [by rewrite Z.eqb_refl, (proj2 (Z.leb_le _ _) Hbl)|].
    destruct (Z.eqb_spec n k); [lia|]. by apply Hdir.
  - eapply unmarked_iff; [|eapply unmarked_trans; [|exact Hum|exact Hf']].
    + intros x. cbn. split.
      * intros [(Hx & n & Hn & Hcn & Heq)|<-].
        -- split; [done|]. exists n. split; [done|]. rewrite cut_S. by destruct (Z.eqb_spec n k) as [->|]; [unfold cut in Hcn; lia|].
        -- split; [done|]. exists k. rewrite cut_S, Z.eqb_refl. split; [done|]. split; [lia|done].
      * intros (Hx & n & Hn & Hcn & Heq). rewrite cut_S in Hcn. destruct (Z.eqb_spec n k) as [->|]; [by right|].
        left. split; [done|]. by exists n.
    + intros x (Hx & n & Hn & _ & <-). destruct (fo_used _ _ _ (so_file _ _ Hok) (fblock (f_dev s) (f_i s) n)) as [Hr' _]; [|lia].
      apply owns_fblock; [unfold MAXBLOCKS, SFS_NDIRECT, SFS_DBPERIDB in *; lia|done].
Qed.

(** Block [k] stays, or there is none. *)
Lemma direct_cut_keep s bl k t :
  direct_cut bl k s t → k < bl ∨ fblock (f_dev s) (f_i s) k = 0 → direct_cut bl (k + 1) s t.
Proof.
  intros [Hio Hv Hi Hlen Hdir Hum] Hb. split; try done.
  - intros n Hn. rewrite Hdir, cut_S by done. destruct (Z.eqb_spec n k) as [->|]; [|done].
    replace (cut bl k k) with false by (unfold cut; lia). destruct Hb as [|Hb]; [by destruct (Z.leb_spec bl k); [lia|]|].
    rewrite Hb. by destruct (bl <=? k).
  - eapply unmarked_iff; [|exact Hum]. intros x. cbn. split; intros (Hx & n & Hn & Hcn & Hbx); (split; [done|]); exists n;
      (split; [done|]); (split; [|done]).
    + rewrite cut_S. by destruct (Z.eqb_spec n k) as [->|]; [unfold cut in Hcn; lia|].
    + rewrite cut_S in Hcn. destruct (Z.eqb_spec n k) as [->|]; [|done]. destruct Hb as [|Hb]; [lia|congruence].
Qed.

Lemma truncate_direct_ok s bl (Q : () → F D → Prop) E :
  st_ok st s → (∀ t, direct_cut bl SFS_NDIRECT s t → Q tt t) → wp safe (truncate_direct bl) s Q E.
Proof.
  intros Hok HQ. unfold truncate_direct.
  apply (wp_for_range _ _ (λ k t, direct_cut bl k s t)); [done| |by apply direct_cut_0|done].
  intros k t Hk Hcut. rewrite Z.add_0_l in Hk. unfold get_i. wp_steps. pose proof (dc_direct _ _ _ _ Hcut k Hk) as Hlk.
  replace (cut bl k k) with false in Hlk by (unfold cut; lia). wp_the _ by done. set (b := fblock (f_dev s) (f_i s) k) in *.
  destruct (Z.leb_spec bl k) as [Hbl|Hbl]; [|wp_steps; apply direct_cut_keep; [done|by left]].
  destruct (Z.eqb_spec b 0) as [Hb0|Hb0]; [wp_steps; apply direct_cut_keep; [done|by right]|]. cbn [andb negb]. wp_steps.
  destruct (direct_block_marked s bl k t Hok Hcut Hk Hb0) as [Hr Hm].
  apply sfs_bfree_ok; [apply (dc_um _ _ _ _ Hcut)|done|done|]. intros f' Hf'. wp_steps.
  change (f_i (with_fs f' t)) with (f_i t).
  wp_the _ by (apply zstore_Some; rewrite (dc_len _ _ _ _ Hcut); unfold SFS_NDIRECT in *; lia).
  unfold upd_i, set_dirty. wp_steps. by apply direct_cut_drop.
Qed.

(** ** The indirect block *)

Definition drops (bl j w : Z) : bool := (bl <? SFS_NDIRECT + j) && negb (w =? 0).

Fixpoint cut_words (bl j : Z) (ws : list Z) : list Z :=
  match ws with
  | [] => []
  | w :: ws => (if drops bl j w then 0 else w) :: cut_words bl (j + 1) ws
  end.

Lemma length_cut_words bl j ws : length (cut_words bl j ws) = length ws.
Proof. revert j. induction ws as [|w ws IH]; intros j; cbn; [done|by rewrite IH]. Qed.

Lemma cut_words_lookup bl j ws (k : nat) :
  cut_words bl j ws !! k = (λ w, if bl <? SFS_NDIRECT + j + Z.of_nat k then 0 else w) <$> ws !! k.
Proof.
  revert j k. induction ws as [|w ws IH]; intros j k; cbn [cut_words]; [done|]. destruct k as [|k].
  - cbn. rewrite Z.add_0_r. unfold drops. destruct (_ <? _), (Z.eqb_spec w 0); cbn; congruence.
  - cbn [lookup list_lookup]. fold (@lookup _ Z (list Z) _ k (cut_words bl (j + 1) ws)). rewrite IH.
    by replace (SFS_NDIRECT + (j + 1) + Z.of_nat k) with (SFS_NDIRECT + j + Z.of_nat (S k)) by lia.
Qed.

Lemma truncate_indirect_ok bl ws : ∀ s j (Q : list Z * bool * bool → F D → Prop) E,
  bitmap_wf (sfs_freemap (f_fs s)) →
  (∀ (k : nat) w, ws !! k = Some w → w ≠ 0 → 0 ≤ w < nbits (sfs_freemap (f_fs s)) ∧ marked (f_fs s) w = true) →
  (∀ (k k' : nat) w, ws !! k = Some w → ws !! k' = Some w → w ≠ 0 → k = k') →
  (∀ f' iddirty hasnonzero,
     unmarked (λ b, b ≠ 0 ∧ ∃ k : nat, ws !! k = Some b ∧ bl < SFS_NDIRECT + j + Z.of_nat k) (f_fs s) f' →
     (iddirty = false → cut_words bl j ws = ws) → (hasnonzero = false → Forall (λ w, w = 0) (cut_words bl j ws)) →
     Q (cut_words bl j ws, iddirty, hasnonzero) (with_fs f' s)) →
  wp safe (truncate_indirect bl j ws) s Q E.
Proof.
  induction ws as [|w ws IH]; intros s j Q E Hwf Hmk Hinj HQ; cbn [truncate_indirect cut_words].
  { wp_steps. specialize (HQ (f_fs s) false false). replace (with_fs (f_fs s) s) with s in HQ by (by destruct s).
    apply HQ; [|done|by intros; apply list.Forall_nil]. apply unmarked_refl; [done|]. by intros b (_ & k & Hk & _). }
  fold (drops bl j w). wp_steps.
  assert (∀ f1, unmarked (λ b, b = w ∧ drops bl j w = true) (f_fs s) f1 →
    wp safe (r ← truncate_indirect bl (j + 1) ws;
             let '(rest', iddirty, hasnonzero) := r in
             mret ((if drops bl j w then 0 else w) :: rest', drops bl j w || iddirty,
                   negb ((if drops bl j w then 0 else w) =? 0) || hasnonzero)) (with_fs f1 s) Q E) as Hrest.
  { intros f1 Hf1. wp_steps. apply IH.
    - apply Hf1.
    - intros k x Hx Hx0. destruct (Hmk (S k) x Hx Hx0) as [Hr Hm]. cbn [with_fs f_fs]. rewrite (um_nbits _ _ _ Hf1).
      split; [done|]. rewrite (um_out _ _ _ Hf1); [done|lia|]. intros [-> _].
      specialize (Hinj 0%nat (S k) w eq_refl Hx Hx0). done.
    - intros k k' x Hx Hx' Hx0. specialize (Hinj (S k) (S k') x Hx Hx' Hx0). lia.
    - intros f' id hn Hf' Hid Hhn. wp_steps. apply HQ.
      + eapply unmarked_iff; [|eapply unmarked_trans; [|exact Hf1|exact Hf']].
        * intros b. cbn. unfold drops. split.
          -- intros [[-> Hd]|(Hb & k & Hk & Hl)].
             ++ split; [destruct (Z.eqb_spec w 0); [lia|done]|]. exists 0%nat. split; [done|lia].
             ++ split; [done|]. exists (S k). split; [done|lia].
          -- intros (Hb & [|k] & Hk & Hl); [left|right].
             ++ cbn in Hk. injection Hk as ->. split; [done|]. destruct (Z.eqb_spec b 0); [done|]. cbn. lia.
             ++ split; [done|]. exists k. split; [done|lia].
        * intros b [-> Hd]. unfold drops in Hd. destruct (Hmk 0%nat w eq_refl) as [? _]; [lia|lia].
      + intros [Hd Hi]%orb_false_elim. cbn [cut_words]. by rewrite Hd, Hid.
      + intros [Hd Hi]%orb_false_elim. cbn [cut_words]. apply list.Forall_cons. split; [lia|by apply Hhn]. }
  destruct (drops bl j w) eqn:Hd.
  - unfold drops in Hd. destruct (Hmk 0%nat w eq_refl) as [Hr Hm]; [lia|]. apply sfs_bfree_ok; [done|done|done|].
    intros f1 Hf1. apply Hrest. eapply unmarked_iff; [|exact Hf1]. intros b. cbn. split; [by intros <-|by intros [-> _]].
  - apply wp_ret. specialize (Hrest (f_fs s)).
    replace (with_fs (f_fs s) s) with s in Hrest by (by destruct s). apply Hrest.
    apply unmarked_refl; [done|]. by intros b [_ ?].
Qed.

(** ** The whole function *)

Definition keeps (bl n : Z) : bool := if n <? SFS_NDIRECT then n <? bl else n <=? bl.

(** Blocks of the indirect block that go *)
Definition ind_dropped (bl : Z) (ki : bool) s (b : Z) : Prop :=
  b ≠ 0 ∧ ((∃ n, SFS_NDIRECT ≤ n < MAXBLOCKS ∧ bl < n ∧ fblock (f_dev s) (f_i s) n = b) ∨
           ki = false ∧ b = sfi_indirect (f_i s)).

Lemma dropped_split bl ki s b :
  0 ≤ bl →
  dropped (keeps bl) ki s b ↔
  (b ≠ 0 ∧ ∃ n, 0 ≤ n < SFS_NDIRECT ∧ cut bl SFS_NDIRECT n = true ∧ fblock (f_dev s) (f_i s) n = b) ∨
  ind_dropped bl ki s b.
Proof.
  intros Hbl. unfold dropped, ind_dropped, keeps, cut, MAXBLOCKS, SFS_NDIRECT, SFS_DBPERIDB. split.
  - intros [Hb [(n & Hn & Hk & <-)|Hi]]; [|right; split; [done|by right]].
    destruct (Z.ltb_spec n 15); [left|right]; (split; [done|]); [|left]; exists n; (split; [lia|]); (split; [lia|done]).
  - intros [(Hb & n & Hn & Hc & <-)|[Hb [(n & Hn & Hl & <-)|Hi]]]; (split; [done|]); [left|left|by right];
      exists n; (split; [lia|]); (split; [|done]); destruct (Z.ltb_spec n 15); lia.
Qed.

Lemma shrink_truncated bl (ki : bool) s t s' len :
  st_ok st s → 0 ≤ bl → is_u32 len → direct_cut bl SFS_NDIRECT s t → dev_ok (f_dev s') →
  f_i s' = set_size len (set_indirect (if ki then sfi_indirect (f_i s) else 0) (f_i t)) →
  (∀ n, SFS_NDIRECT ≤ n < MAXBLOCKS → fblock (f_dev s') (f_i s') n = if n <=? bl then fblock (f_dev s) (f_i s) n else 0) →
  unmarked (ind_dropped bl ki s) (f_fs t) (f_fs s') →
  (∀ b k, 0 ≤ k < SFS_BLOCKSIZE → b ≠ sfi_indirect (f_i s) → dbyte (f_dev s') b k = dbyte (f_dev s) b k) →
  sv_v (f_sv s') = sv_v (f_sv t) ∧ sv_ino (f_sv s') = sv_ino (f_sv t) ∧ f_at s' = f_at t →
  same_but (scratch st) (f_mem s) (f_mem s') →
  shrunk (keeps bl) s s'.
Proof.
  intros Hok Hbl Hl [(Hio & Hmem & Hat) [Hv Hino] Hi Hlen Hdir Hum] Hd Hi' Hfb Hum' Hdisk (Hv' & Hino' & Hat') Hm.
  pose proof (fo_wf _ _ _ (so_file _ _ Hok)) as Hwf.
  assert (∀ n, 0 ≤ n < SFS_NDIRECT → default 0 (zlookup (sfi_direct (f_i t)) n) =
    if keeps bl n then fblock (f_dev s) (f_i s) n else 0) as Hd'.
  { intros n Hn. rewrite Hdir by done. cbn. unfold cut, keeps. destruct (Z.ltb_spec n SFS_NDIRECT); [|lia].
    destruct (Z.leb_spec bl n), (Z.ltb_spec n bl); try lia; done. }
  apply (shrink (keeps bl) ki); try done.
  - rewrite Hi', Hi. destruct Hwf. split; cbn; try done.
    + apply Forall_lookup. intros k x Hx. pose proof (lookup_lt_Some _ _ _ Hx) as Hk. rewrite Hlen in Hk.
      rewrite <- zlookup_nat in Hx. rewrite Hdir in Hx by (unfold SFS_NDIRECT; lia). injection Hx as <-.
      destruct (cut _ _ _); [done|]. rewrite fblock_direct by (unfold SFS_NDIRECT; lia). rewrite zlookup_nat.
      destruct (sfi_direct (f_i s) !! k) eqn:Hx; [|done]. eapply Forall_lookup_1; [|exact Hx]; done.
    + destruct ki; done.
  - intros n Hn. destruct (Z.ltb_spec n SFS_NDIRECT) as [Hlt|Hge].
    + rewrite fblock_direct, Hi' by done. cbn. apply Hd'. lia.
    + rewrite Hfb by lia. unfold keeps. by destruct (Z.ltb_spec n SFS_NDIRECT); [lia|].
  - by rewrite Hi'.
  - eapply unmarked_iff; [|eapply unmarked_trans; [|exact Hum|exact Hum']].
    + intros b. symmetry. by apply dropped_split.
    + intros b (Hb & n & Hn & _ & <-). destruct (fo_used _ _ _ (so_file _ _ Hok) (fblock (f_dev s) (f_i s) n)) as [? _]; [|lia].
      apply owns_fblock; [unfold MAXBLOCKS, SFS_NDIRECT, SFS_DBPERIDB in *; lia|done].
  - split_and!; congruence.
  - rewrite Hi', Hi. done.
Qed.

(** The words of the indirect block *)
Definition idwords s : list Z := words_of (sector (f_dev s) (sfi_indirect (f_i s))).

Lemma idwords_lookup s (k : nat) w :
  sfi_indirect (f_i s) ≠ 0 → idwords s !! k = Some w →
  SFS_NDIRECT ≤ SFS_NDIRECT + Z.of_nat k < MAXBLOCKS ∧ fblock (f_dev s) (f_i s) (SFS_NDIRECT + Z.of_nat k) = w.
Proof.
  intros Hi Hk. pose proof (lookup_lt_Some _ _ _ Hk) as Hl. unfold idwords in Hl. rewrite length_idwords in Hl.
  split; [unfold MAXBLOCKS, SFS_DBPERIDB; lia|]. rewrite fblock_indirect by (done || lia).
  replace (SFS_NDIRECT + Z.of_nat k - SFS_NDIRECT) with (Z.of_nat k) by lia. rewrite zlookup_nat. fold (idwords s). by rewrite Hk.
Qed.

Lemma fblock_idword s n :
  sfi_indirect (f_i s) ≠ 0 → SFS_NDIRECT ≤ n < MAXBLOCKS →
  idwords s !! Z.to_nat (n - SFS_NDIRECT) = Some (fblock (f_dev s) (f_i s) n).
Proof.
  intros Hi Hn. destruct (lookup_lt_is_Some_2 (idwords s) (Z.to_nat (n - SFS_NDIRECT))) as [w Hw].
  { unfold idwords. rewrite length_idwords. unfold MAXBLOCKS, SFS_DBPERIDB in Hn. lia. }
  rewrite Hw. destruct (idwords_lookup s _ _ Hi Hw) as [_ <-]. do 2 f_equal. lia.
Qed.

Lemma ind_dropped_words bl ki s b :
  sfi_indirect (f_i s) ≠ 0 →
  ind_dropped bl ki s b ↔
  (b ≠ 0 ∧ ∃ k : nat, idwords s !! k = Some b ∧ bl < SFS_NDIRECT + 0 + Z.of_nat k) ∨ ki = false ∧ b = sfi_indirect (f_i s).
Proof.
  intros Hi. unfold ind_dropped. split.
  - intros [Hb [(n & Hn & Hl & <-)|H]]; [left|by right]. split; [done|]. exists (Z.to_nat (n - SFS_NDIRECT)).
    split; [by apply fblock_idword|lia].
  - intros [(Hb & k & Hk & Hl)|[-> ->]]; [|split; [done|by right]]. split; [done|]. left.
    destruct (idwords_lookup s k b Hi Hk) as [Hr Hf]. exists (SFS_NDIRECT + Z.of_nat k). split; [done|]. split; [lia|done].
Qed.

(** Truncation of the indirect block finds blocks that are in use, each once. *)
Lemma idwords_marked s bl t :
  st_ok st s → direct_cut bl SFS_NDIRECT s t → sfi_indirect (f_i s) ≠ 0 →
  (∀ (k : nat) w, idwords s !! k = Some w → w ≠ 0 → 0 ≤ w < nbits (sfs_freemap (f_fs t)) ∧ marked (f_fs t) w = true) ∧
  (∀ (k k' : nat) w, idwords s !! k = Some w → idwords s !! k' = Some w → w ≠ 0 → k = k') ∧
  0 ≤ sfi_indirect (f_i s) < nbits (sfs_freemap (f_fs t)) ∧ marked (f_fs t) (sfi_indirect (f_i s)) = true.
Proof.
  intros [Hd Hc Hf [Hwf Hu Hinj Hn]] Hcut Hi. pose proof (dc_um _ _ _ _ Hcut) as Hum. pose proof (fs_nbits _ Hf) as Hnb.
  assert (∀ b, owns (f_dev s) (f_i s) b → (∀ n, 0 ≤ n < SFS_NDIRECT → fblock (f_dev s) (f_i s) n ≠ b) →
    0 ≤ b < nbits (sfs_freemap (f_fs t)) ∧ marked (f_fs t) b = true) as Hmk.
  { intros b Hb Hnd. destruct (Hu b Hb) as [Hr Hm]. rewrite (um_nbits _ _ _ Hum). split; [lia|].
    rewrite (um_out _ _ _ Hum); [done|lia|]. intros (_ & n & Hnr & _ & Heq). by apply (Hnd n). }
  assert (∀ n, 0 ≤ n < SFS_NDIRECT → 0 ≤ n < MAXBLOCKS) as Hsm.
  { unfold MAXBLOCKS, SFS_NDIRECT, SFS_DBPERIDB. lia. }
  split; [|split; [|apply Hmk]].
  - intros k w Hk Hw. destruct (idwords_lookup s k w Hi Hk) as [Hr Hfw]. subst w.
    assert (0 ≤ SFS_NDIRECT + Z.of_nat k < MAXBLOCKS) as Hr' by (unfold SFS_NDIRECT in *; lia).
    apply Hmk; [by apply owns_fblock|]. intros n Hnr Heq.
    assert (n = SFS_NDIRECT + Z.of_nat k); [|lia]. apply Hinj; [by apply Hsm|done|congruence|done].
  - intros k k' w Hk Hk' Hw. destruct (idwords_lookup s k w Hi Hk) as [Hr Hfw], (idwords_lookup s k' w Hi Hk') as [Hr' Hfw'].
    assert (SFS_NDIRECT + Z.of_nat k = SFS_NDIRECT + Z.of_nat k'); [|lia].
    apply Hinj; unfold SFS_NDIRECT in *; try lia; congruence.
  - by apply owns_indirect.
  - intros n Hnr Heq. apply (Hn n (Hsm n Hnr)); congruence.
Qed.

(** Number of blocks of [len] bytes *)
Definition blocks_of (len : Z) : Z := (len + SFS_BLOCKSIZE - 1) / SFS_BLOCKSIZE.

Lemma blocklen_eq len : 0 ≤ len → len + SFS_BLOCKSIZE ≤ INT_MAX →
  u32 (Z.quot (len + SFS_BLOCKSIZE - 1) SFS_BLOCKSIZE) = blocks_of len ∧ 0 ≤ blocks_of len.
Proof.
  unfold blocks_of, INT_MAX, SFS_BLOCKSIZE. intros H1 H2. rewrite Z.quot_div_nonneg by lia.
  assert (0 ≤ (len + 512 - 1) / 512 < 2 ^ 32) by (Z.div_mod_to_equations; lia). split; [by apply u32_small|lia].
Qed.

Definition with_len (len : Z) s : F D := with_sv (with_dirty 1 (with_inode (set_size len (f_i s)) (f_sv s))) s.

(** The indirect block is empty after the cut. *)
Lemma cut_words_zero bl s n :
  sfi_indirect (f_i s) ≠ 0 → SFS_NDIRECT ≤ n < MAXBLOCKS →
  Forall (λ w : Z, w = 0) (cut_words bl 0 (idwords s)) → n ≤ bl → fblock (f_dev s) (f_i s) n = 0.
Proof.
  intros Hi Hn Hz Hl. pose proof (fblock_idword s n Hi Hn) as Hk.
  apply (Forall_lookup_1 _ _ (Z.to_nat (n - SFS_NDIRECT)) (fblock (f_dev s) (f_i s) n) Hz). rewrite cut_words_lookup, Hk. cbn.
  destruct (Z.ltb_spec bl (SFS_NDIRECT + 0 + Z.of_nat (Z.to_nat (n - SFS_NDIRECT)))); [lia|done].
Qed.

Lemma cut_words_fblock bl s d i n :
  sfi_indirect (f_i s) ≠ 0 → SFS_NDIRECT ≤ n < MAXBLOCKS → sfi_indirect i = sfi_indirect (f_i s) →
  words_of (sector d (sfi_indirect i)) = cut_words bl 0 (idwords s) →
  fblock d i n = if n <=? bl then fblock (f_dev s) (f_i s) n else 0.
Proof.
  intros Hi Hn Hi' Hw. pose proof (fblock_idword s n Hi Hn) as Hk. rewrite fblock_indirect by (congruence || lia).
  rewrite Hw. unfold zlookup. destruct (Z.leb_spec 0 (n - SFS_NDIRECT)); [|lia]. rewrite cut_words_lookup, Hk. cbn.
  destruct (Z.ltb_spec bl (SFS_NDIRECT + 0 + Z.of_nat (Z.to_nat (n - SFS_NDIRECT)))), (Z.leb_spec n bl); lia || done.
Qed.

Lemma fblock_none d i n : SFS_NDIRECT ≤ n → sfi_indirect i = 0 → fblock d i n = 0.
Proof. intros Hn Hi. unfold fblock. destruct (Z.ltb_spec n SFS_NDIRECT); [lia|]. by rewrite Hi. Qed.

Lemma cut_words_u32 bl j s : Forall is_u32 (cut_words bl j (idwords s)).
Proof.
  apply Forall_lookup_2. intros k x. rewrite cut_words_lookup. destruct (idwords s !! k) as [w|] eqn:Hk; [|done].
  cbn. intros [= <-]. destruct (_ <? _); [done|]. eapply Forall_lookup_1; [apply idwords_u32|exact Hk].
Qed.

Lemma fblock_tail d i i' n : SFS_NDIRECT ≤ n → sfi_indirect i = sfi_indirect i' → fblock d i n = fblock d i' n.
Proof. intros Hn Hi. unfold fblock. destruct (Z.ltb_spec n SFS_NDIRECT); [lia|]. by rewrite Hi. Qed.

(** The three ways the indirect block can end up *)
Lemma truncate_tail s bl t len f1 d1 c1 (id hn : bool) (Q : () → F D → Prop) (E : Z → F D → Prop) :
  st_ok st s → 0 ≤ bl → is_u32 len → direct_cut bl SFS_NDIRECT s t → sfi_indirect (f_i s) ≠ 0 →
  dev_ok d1 → same_disk (f_dev s) d1 → same_but (scratch st) (f_mem s) c1 →
  unmarked (λ b, b ≠ 0 ∧ ∃ k : nat, idwords s !! k = Some b ∧ bl < SFS_NDIRECT + 0 + Z.of_nat k) (f_fs t) f1 →
  (id = false → cut_words bl 0 (idwords s) = idwords s) →
  (hn = false → Forall (λ w : Z, w = 0) (cut_words bl 0 (idwords s))) →
  (∀ s', shrunk (keeps bl) s s' → sfi_size (f_i s') = len → sv_dirty (f_sv s') = 1 → Q tt s') →
  (∀ e s', dev_error e → E e s') →
  wp safe (if negb hn then
      sfs_bfree (sfi_indirect (f_i s));;
      upd_i (set_indirect 0);;
      set_dirty 1
    else if id then
      store (tidbuf_at st) (bytes_of (cut_words bl 0 (idwords s)));;
      on_io (sfs_wblock (tidbuf_at st) (sfi_indirect (f_i s)))
    else mret tt) (MkF d1 c1 f1 (f_sv t) (f_at t))
    (λ _ t, wp safe (upd_i (set_size len);; set_dirty 1) t Q E) E.
Proof.
  intros Hok Hbl Hlen Hcut Hi Hd1 Hs1 Hc1 Hum Hid Hhn HQ HE. unfold upd_i, set_dirty, store, on_io.
  destruct (idwords_marked s bl t Hok Hcut Hi) as (Hmk & Hinj & Hir & Him). pose proof (dc_i _ _ _ _ Hcut) as Hit.
  assert (f_i t = set_indirect (sfi_indirect (f_i s)) (f_i t)) as Hit' by (rewrite Hit; by destruct (f_i s)).
  assert (sfi_indirect (f_i t) = sfi_indirect (f_i s)) as Hti by (by rewrite Hit).
  destruct hn; cbn [negb].
  - destruct id.
    + set (ws := cut_words bl 0 (idwords s)). wp_steps. cbn [with_io f_dev f_mem fst snd].
      assert (Forall is_u32 ws) as Hu32 by apply cut_words_u32.
      assert (length (bytes_of ws) = 512%nat) as Hl.
      { rewrite length_bytes_of. unfold ws. rewrite length_cut_words. unfold idwords. by rewrite length_idwords. }
      assert (same_but (scratch st) c1 (poke (tidbuf_at st) (bytes_of ws) c1)) as Hm1.
      { split; [apply Hc1|]. intros x Hx. apply poke_same_outside. rewrite Hl. intros Hr. apply Hx. right; right; by right. }
      apply sfs_wblock_ok; [done|apply Hc1|apply Hst|by eapply in_use_dev, indirect_used| |by intros; apply HE].
      intros d2 c2 Hd2 Hw2 Hc2. wp_steps. apply HQ; [|done|done]. apply (shrink_truncated bl true s t _ len); try done.
      * by rewrite <- Hit'.
      * intros n Hn. apply cut_words_fblock; try done. change (sfi_indirect (f_i _)) with (sfi_indirect (f_i t)).
        rewrite Hti. change (f_dev _) with d2. rewrite (sector_written _ _ _ _ _ Hw2).
        change SFS_BLOCKSIZE with (Z.of_nat 512). rewrite <- Hl, peek_poke by apply bytes_of_bytes. by apply words_bytes.
      * eapply unmarked_iff; [|exact Hum]. intros b. rewrite ind_dropped_words by done.
        split; [by left|]. by intros [?|[? _]].
      * intros b k Hk Hb. change (dbyte d2 b k = dbyte (f_dev s) b k). rewrite Hw2 by done. destruct (Z.eqb_spec b (sfi_indirect (f_i s))); [done|].
        by apply Hs1.
      * eapply same_but_trans; [exact Hc1|]. eapply same_but_trans; [exact Hm1|by apply dev_area_scratch].
    + wp_steps. apply HQ; [|done|done]. apply (shrink_truncated bl true s t _ len); try done.
      * by rewrite <- Hit'.
      * intros n Hn. apply cut_words_fblock; try done. rewrite Hid by done.
        change (sfi_indirect (f_i _)) with (sfi_indirect (f_i t)). rewrite Hti.
        unfold idwords. erewrite sector_ext; [done|]. intros k Hk. by apply Hs1.
      * eapply unmarked_iff; [|exact Hum]. intros b. rewrite ind_dropped_words by done.
        split; [by left|]. by intros [?|[? _]].
      * intros b k Hk _. by apply Hs1.
  - assert (0 ≤ sfi_indirect (f_i s) < nbits (sfs_freemap f1) ∧ marked f1 (sfi_indirect (f_i s)) = true) as [Hir1 Him1].
    { rewrite (um_nbits _ _ _ Hum). split; [done|]. rewrite (um_out _ _ _ Hum); [done|lia|]. intros (_ & k & Hk & _).
      destruct (idwords_lookup s k _ Hi Hk) as [Hr Hf]. 
      apply (fo_ind _ _ _ (so_file _ _ Hok) (SFS_NDIRECT + Z.of_nat k)); [unfold SFS_NDIRECT in *; lia|congruence|done]. }
    wp_steps. apply sfs_bfree_ok; [apply Hum|done|done|]. intros f2 Hf2. wp_steps.
    apply HQ; [|done|done]. apply (shrink_truncated bl false s t _ len); try done.
    * intros n Hn. rewrite fblock_none by (done || lia). destruct (Z.leb_spec n bl); [|done]. symmetry.
      by apply (cut_words_zero bl); [..|apply Hhn|].
    * eapply unmarked_iff; [|eapply unmarked_trans; [|exact Hum|exact Hf2]].
      -- intros b. rewrite ind_dropped_words by done.
         split; (intros [?|Hb]; [by left|right]); [done|by destruct Hb].
      -- intros b (Hb & k & Hk & _). destruct (Hmk k b Hk Hb). lia.
    * intros b k Hk _. by apply Hs1.
Qed.

Lemma sfs_truncate_ok s len (Q : () → F D → Prop) (E : Z → F D → Prop) :
  st_ok st s → 0 ≤ len → len + SFS_BLOCKSIZE ≤ INT_MAX →
  (∀ s', shrunk (keeps (blocks_of len)) s s' → sfi_size (f_i s') = len → sv_dirty (f_sv s') = 1 → Q tt s') →
  (∀ e s', dev_error e → E e s') →
  wp safe (sfs_truncate st len) s Q E.
Proof.
  intros Hok Hlen Hmax HQ HE. unfold sfs_truncate, get_i. destruct (Z.ltb_spec INT_MAX (len + SFS_BLOCKSIZE)); [lia|].
  destruct (blocklen_eq len Hlen Hmax) as [-> Hbl]. set (bl := blocks_of len) in *.
  assert (u32 len = len) as -> by (apply u32_small; unfold INT_MAX, SFS_BLOCKSIZE in *; lia).
  assert (is_u32 len) as Hl32 by (unfold is_u32, INT_MAX, SFS_BLOCKSIZE in *; lia). wp_steps.
  apply truncate_direct_ok; [done|]. intros t Hcut. pose proof (dc_i _ _ _ _ Hcut) as Hit.
  assert (sfi_indirect (f_i t) = sfi_indirect (f_i s)) as Hti by (by rewrite Hit). wp_steps. rewrite Hti.
  destruct (dc_io _ _ _ _ Hcut) as (Hio & Hmem & Hat). pose proof (dc_um _ _ _ _ Hcut) as Hum.
  destruct (_ && _) eqn:Hc.
  - apply andb_prop in Hc as [_ Hind]. assert (sfi_indirect (f_i s) ≠ 0) as Hi0 by (by destruct (Z.eqb_spec (sfi_indirect (f_i s)) 0)).
    destruct (idwords_marked s bl t Hok Hcut Hi0) as (Hmk & Hinj & _).
    unfold on_io, load. wp_steps. apply sfs_rblock_ok.
    + rewrite Hio. apply Hok.
    + rewrite Hmem. apply Hok.
    + apply Hst.
    + by eapply in_use_dev, indirect_used.
    + intros d1 c1 Hd1 Hs1 Hc1 Hr. wp_steps. cbn [with_io f_mem fst snd]. rewrite (peek_sector _ _ _ _ Hr).
      rewrite Hio in *. rewrite Hmem in Hc1. fold (idwords s). apply truncate_indirect_ok; [apply Hum|exact Hmk|exact Hinj|].
      intros f1 id hn Hf1 Hid Hhn. apply (truncate_tail s bl t len f1 d1 c1); try done.
      eapply same_but_mono; [exact Hc1|]. intros x [Hx|Hx]; [by left|right; right; by right].
    + intros; by apply HE.
  - assert (∀ n, SFS_NDIRECT ≤ n < MAXBLOCKS → bl < n → fblock (f_dev s) (f_i s) n = 0) as Hnone.
    { intros n Hn Hl. apply fblock_none; [lia|]. destruct (Z.eqb_spec (sfi_indirect (f_i s)) 0); [done|].
      unfold MAXBLOCKS in Hn. cbn [negb] in Hc. lia. }
    wp_steps. unfold upd_i, set_dirty. wp_steps. apply HQ; [|done|done].
    apply (shrink_truncated bl true s t _ len); try done.
    + change (f_dev _) with (f_dev t). rewrite Hio. apply Hok.
    + rewrite Hit. by destruct (f_i s).
    + intros n Hn. rewrite (fblock_tail _ _ (f_i s)) by (lia || done). change (f_dev _) with (f_dev t) at 1. rewrite Hio.
      destruct (Z.leb_spec n bl); [done|]. by apply Hnone.
    + apply unmarked_refl; [apply Hum|]. intros b [Hb [(n & Hn & Hl & Hf)|[? _]]]; [|done]. rewrite Hnone in Hf; [congruence|done|done].
    + intros b k Hk _. change (dbyte (f_dev t) b k = dbyte (f_dev s) b k). by rewrite Hio.
    + change (same_but (scratch st) (f_mem s) (f_mem t)). rewrite Hmem. apply same_but_refl, Hok.
Qed.
End trunc.
