(* ===== verification/SfsTheorems.v ===== *)
(** * SFS: theorems

    What the functions of kern/fs/sfs/sfs_vnode.c do to the contents of a file, as a list
    of bytes, and to the entries of a directory, for every device that meets the contract
    of SfsDev.v. *)

From Stdlib Require Import ZArith Lia.
From stdpp Require Import base list gmap numbers.
From S2P Require Import Prelude CopyInOut Uio Bitmap Array Vnode SfsData SfsDev Sfs SfsInv SfsBlock SfsIo SfsRw SfsDir SfsTrunc.

Local Open Scope Z_scope.

(** [n] bytes of memory at the place a uio has reached *)
Definition umem (c : copystate) (u : uio) (n : Z) : list Z :=
  (λ k, bytes c (iov_base (uio_iovec u) + k)) <$> seqZ 0 n.

Lemma blocks_of_lt x len : 0 ≤ x < len → x / SFS_BLOCKSIZE < blocks_of len.
Proof. unfold blocks_of, SFS_BLOCKSIZE. intros. Z.div_mod_to_equations; lia. Qed.

Lemma blocks_of_le len : 0 ≤ len → len ≤ SFS_BLOCKSIZE * blocks_of len.
Proof. unfold blocks_of, SFS_BLOCKSIZE. intros. Z.div_mod_to_equations; lia. Qed.

Section theorems.
Context {D : Type} `{!BlockDev D} (user_read user_write : Z → bool) {t_vmspace : Z}.
Context `{HL : !BlockDevLaws D t_vmspace} (st : buffers) (Hst : buffers_ok st).
Implicit Types (d : D) (c : copystate) (i : sfs_inode) (f : sfs_fs) (s : F D) (u : uio).

Notation request := (request (t_vmspace := t_vmspace) st).

(** The contents of a file *)
Definition contents s : list Z := fbyte (f_dev s) (f_i s) <$> seqZ 0 (sfi_size (f_i s)).

(** A file, and its size as an [off_t] *)
Record file s : Prop := {
  fl_ok : st_ok st s;
  fl_size : 0 ≤ sfi_size (f_i s) ≤ MAXSIZE;
}.

Lemma file_size31 s : file s → 0 ≤ sfi_size (f_i s) < 2 ^ 31.
Proof.
  intros [_ Hz]. unfold MAXSIZE, MAXBLOCKS, SFS_NDIRECT, SFS_DBPERIDB, SFS_BLOCKSIZE in Hz. lia.
Qed.

Lemma length_contents s : 0 ≤ sfi_size (f_i s) → Z.of_nat (length (contents s)) = sfi_size (f_i s).
Proof. intros. unfold contents. rewrite length_fmap, length_seqZ. lia. Qed.

Lemma contents_lookup s x : 0 ≤ x < sfi_size (f_i s) → zlookup (contents s) x = Some (fbyte (f_dev s) (f_i s) x).
Proof.
  intros Hx. unfold zlookup, contents. destruct (Z.leb_spec 0 x); [|lia].
  rewrite list_lookup_fmap, lookup_seqZ_lt by lia. cbn. do 2 f_equal. lia.
Qed.

Lemma length_umem c u n : 0 ≤ n → Z.of_nat (length (umem c u n)) = n.
Proof. intros. unfold umem. rewrite length_fmap, length_seqZ. lia. Qed.

Lemma umem_lookup c u n k : 0 ≤ k < n → zlookup (umem c u n) k = Some (bytes c (iov_base (uio_iovec u) + k)).
Proof.
  intros Hx. unfold zlookup, umem. destruct (Z.leb_spec 0 k); [|lia].
  rewrite list_lookup_fmap, lookup_seqZ_lt by lia. cbn. do 3 f_equal. lia.
Qed.

Lemma quiet_contents P s s' : quiet P s s' → contents s' = contents s.
Proof.
  intros Hq. unfold contents. rewrite (quiet_i _ _ _ Hq). apply list_fmap_ext. intros n x _.
  pose proof (quiet_fbyte _ s s' x Hq) as He. by rewrite (quiet_i _ _ _ Hq) in He.
Qed.

Lemma quiet_file s s' u : request u UIO_READ → file s → quiet (λ x, scratch st x ∨ uio_mem u x) s s' → file s'.
Proof. intros Hu [Hok Hz] Hq. split; [by eapply quiet_read_ok|by rewrite (quiet_i _ _ _ Hq)]. Qed.

Definition ztake (n : Z) (l : list Z) : list Z := take (Z.to_nat n) l.
Definition zdrop (n : Z) (l : list Z) : list Z := drop (Z.to_nat n) l.

Lemma zlookup_ztake n l x : 0 ≤ x → zlookup (ztake n l) x = if x <? n then zlookup l x else None.
Proof.
  intros Hx. unfold zlookup, ztake. destruct (Z.leb_spec 0 x); [|lia]. destruct (Z.ltb_spec x n).
  - apply lookup_take_lt. lia.
  - apply lookup_take_ge. lia.
Qed.

Lemma zlookup_zdrop n l x : 0 ≤ n → 0 ≤ x → zlookup (zdrop n l) x = zlookup l (n + x).
Proof.
  intros Hn Hx. unfold zlookup, zdrop. destruct (Z.leb_spec 0 x), (Z.leb_spec 0 (n + x)); try lia.
  rewrite lookup_drop. f_equal. lia.
Qed.

Lemma zlookup_app (l l' : list Z) x :
  0 ≤ x → zlookup (l ++ l') x = if x <? Z.of_nat (length l) then zlookup l x else zlookup l' (x - Z.of_nat (length l)).
Proof.
  intros Hx. unfold zlookup. destruct (Z.leb_spec 0 x); [|lia]. destruct (Z.ltb_spec x (Z.of_nat (length l))).
  - apply lookup_app_l. lia.
  - destruct (Z.leb_spec 0 (x - Z.of_nat (length l))); [|lia]. rewrite lookup_app_r by lia. f_equal. lia.
Qed.

Lemma sfs_read_ok s u :
  file s → request u UIO_READ →
  wp safe (sfs_read user_read user_write t_vmspace st) (s, u)
    (λ _ t, t.2 = advance (available s u) u ∧
       umem (f_mem t.1) u (available s u) = ztake (uio_resid u) (zdrop (uio_offset u) (contents s)) ∧
       contents t.1 = contents s ∧ file t.1)
    (λ e t, (dev_error e ∨ e = EFAULT ∧ uio_segflg u ≠ UIO_SYSSPACE) ∧ contents t.1 = contents s ∧ file t.1).
Proof.
  intros Hf Hu. pose proof Hf as [Hok Hz]. unfold sfs_read, get_u. wp_steps.
  wp_assert by (cbn; rewrite (rq_rw _ _ _ Hu); done).
  pose proof (rq_off _ _ _ Hu) as [Ho Hr]. pose proof (request_slack _ _ _ Hu) as Hr0.
  apply (sfs_io_read user_read user_write st Hst); [done|done|by apply file_size31| |].
  - intros s' [Hq _ Hb]. split; [done|]. split; [|split].
    + apply zlist_eq.
      * apply Nat2Z.inj. rewrite length_umem by (unfold available; lia). unfold ztake, zdrop. rewrite length_take, length_drop.
        pose proof (length_contents s ltac:(lia)). unfold available. lia.
      * rewrite length_umem by (unfold available; lia). intros k Hk. rewrite umem_lookup by done. cbn [fst].
        rewrite Hb, zlookup_ztake by lia. unfold available in Hk. destruct (Z.ltb_spec k (uio_resid u)); [|lia].
        rewrite zlookup_zdrop by lia. by rewrite contents_lookup by lia.
    + by eapply quiet_contents.
    + eapply (quiet_file s _ u); [done|done|]. eapply quiet_mono; [exact Hq|]. intros x [|Hx]; [by left|right].
      eapply uio_next_mem; [|done]. unfold available. lia.
  - intros e s' k Hlt He Hk Hq. split; [|split; [by eapply quiet_contents|by eapply (quiet_file s _ u)]].
    destruct He as [He|[He|[_ He]]]; [by left|by right|]. exfalso. cbn in He. unfold available in He. lia.
Qed.

(** C7: sfs_read copies to the caller's memory what the file has from the offset on, as far
    as the file and the request go, and moves the uio by that much; the file stays as it
    is. It fails only with an error of the disk or, for user memory, with EFAULT. *)
Theorem sfs_read_spec s u :
  file s → request u UIO_READ →
  wp safe (sfs_read user_read user_write t_vmspace st) (s, u)
    (λ _ t, t.2 = advance (available s u) u ∧
       umem (f_mem t.1) u (available s u) = ztake (uio_resid u) (zdrop (uio_offset u) (contents s)) ∧
       contents t.1 = contents s ∧ file t.1)
    (λ e t, (dev_error e ∨ e = EFAULT ∧ uio_segflg u ≠ UIO_SYSSPACE) ∧ contents t.1 = contents s ∧ file t.1).
Proof. apply sfs_read_ok. Qed.

(** [data] in place of what the list has from [off] on *)
Definition splice (off : Z) (data l : list Z) : list Z :=
  ztake off l ++ data ++ zdrop (off + Z.of_nat (length data)) l.

Lemma length_splice off data l :
  0 ≤ off ≤ Z.of_nat (length l) →
  Z.of_nat (length (splice off data l)) = Z.max (Z.of_nat (length l)) (off + Z.of_nat (length data)).
Proof. intros. unfold splice, ztake, zdrop. rewrite !length_app, length_take, length_drop. lia. Qed.

Lemma zlookup_splice off data l x :
  0 ≤ off ≤ Z.of_nat (length l) → 0 ≤ x →
  zlookup (splice off data l) x =
    if (off <=? x) && (x <? off + Z.of_nat (length data)) then zlookup data (x - off) else zlookup l x.
Proof.
  intros Ho Hx. unfold splice. rewrite !zlookup_app by lia.
  assert (Z.of_nat (length (ztake off l)) = off) as Hl by (unfold ztake; rewrite length_take; lia). rewrite Hl.
  destruct (Z.ltb_spec x off), (Z.leb_spec off x); try lia; cbn [andb].
  - rewrite zlookup_ztake by lia. by destruct (Z.ltb_spec x off); [|lia].
  - rewrite zlookup_app by lia. destruct (Z.ltb_spec (x - off) (Z.of_nat (length data))), (Z.ltb_spec x (off + Z.of_nat (length data))); try lia; [done|].
    rewrite zlookup_zdrop by lia. f_equal. lia.
Qed.

Lemma splice_read off data l :
  0 ≤ off ≤ Z.of_nat (length l) → ztake (Z.of_nat (length data)) (zdrop off (splice off data l)) = data.
Proof.
  intros Ho. unfold splice, ztake, zdrop. rewrite drop_app_length' by (rewrite length_take; lia).
  by rewrite take_app_length' by lia.
Qed.

Lemma written_contents s u s' n :
  file s → request u UIO_WRITE → uio_offset u ≤ sfi_size (f_i s) → 0 ≤ n →
  file_written st n n s u s' →
  contents s' = splice (uio_offset u) (umem (f_mem s) u n) (contents s) ∧ file s'.
Proof.
  intros [Hok Hz] Hu Hoff Hn [Ho He Hs Ht Hm Hb]. pose proof (rq_off _ _ _ Hu) as [Hu0 _].
  pose proof (length_contents s ltac:(lia)) as Hl. pose proof (length_umem (f_mem s) u n Hn) as Hlu.
  assert (0 ≤ sfi_size (f_i s') ≤ MAXSIZE) as Hz'.
  { rewrite Hs. destruct (decide (n = 0)) as [->|]; [lia|]. specialize (Hm ltac:(lia)). lia. }
  split; [|by split]. pose proof (length_contents s' ltac:(lia)) as Hl'. apply zlist_eq.
  - apply Nat2Z.inj. rewrite length_splice, Hlu, Hl, Hl', Hs by lia. lia.
  - rewrite Hl'. intros x Hx. rewrite contents_lookup by done. rewrite zlookup_splice, Hlu by lia. rewrite Hb by lia.
    destruct (_ && _) eqn:Hc.
    + rewrite umem_lookup by lia. done.
    + rewrite contents_lookup; [done|]. rewrite Hs in Hx. lia.
Qed.

Lemma sfs_write_ok `{!ReliableWrites D t_vmspace} s u :
  file s → request u UIO_WRITE → uio_offset u ≤ sfi_size (f_i s) →
  wp safe (sfs_write user_read user_write t_vmspace st) (s, u)
    (λ _ t, t.2 = advance (uio_resid u) u ∧
       contents t.1 = splice (uio_offset u) (umem (f_mem s) u (uio_resid u)) (contents s) ∧ file t.1)
    (λ e t, write_error t.1 u e ∧ st_ok st t.1 ∧
       ∀ x, 0 ≤ x < sfi_size (f_i s) → ¬ (uio_offset u ≤ x < uio_offset u + uio_resid u) →
         zlookup (contents t.1) x = zlookup (contents s) x).
Proof.
  intros Hf Hu Hoff. pose proof Hf as [Hok Hz]. unfold sfs_write, get_u. wp_steps.
  wp_assert by (cbn; rewrite (rq_rw _ _ _ Hu); done). pose proof (request_slack _ _ _ Hu) as Hr0.
  apply (sfs_io_write user_read user_write st Hst); [done|done|by apply file_size31| |].
  - intros s' Hw. split; [done|]. by apply written_contents.
  - intros e s' n k He Hn Hk [Ho Hx Hs Ht Hm Hb]. split; [done|]. split; [done|]. intros x Hxr Hxo.
    rewrite !contents_lookup; [|done|cbn [fst]; lia]. f_equal. rewrite Hb by lia. destruct (_ && _) eqn:Hc; [lia|done].
Qed.

(** C6: On a disk whose writes meet no media error, sfs_write at an offset that is not behind
    the end of the file puts the caller's bytes into the file at the offset, in place of what
    was there and behind its end, and moves the uio by all of them. When it fails, for one of
    the reasons of [write_error], the bytes outside of the request are as they were. With a
    media error the write of a block may be lost and reported as done all the same
    ([sfs_wblock_media_error] in Lhd.v). *)
Theorem sfs_write_spec `{!ReliableWrites D t_vmspace} s u :
  file s → request u UIO_WRITE → uio_offset u ≤ sfi_size (f_i s) →
  wp safe (sfs_write user_read user_write t_vmspace st) (s, u)
    (λ _ t, t.2 = advance (uio_resid u) u ∧
       contents t.1 = splice (uio_offset u) (umem (f_mem s) u (uio_resid u)) (contents s) ∧ file t.1)
    (λ e t, write_error t.1 u e ∧ st_ok st t.1 ∧
       ∀ x, 0 ≤ x < sfi_size (f_i s) → ¬ (uio_offset u ≤ x < uio_offset u + uio_resid u) →
         zlookup (contents t.1) x = zlookup (contents s) x).
Proof. apply sfs_write_ok. Qed.

(** C4: On a disk whose writes meet no media error, what sfs_write has put into a file, at an
    offset that is not behind its end, a later sfs_read of the same place delivers, wherever
    in memory it goes; reading may fail with an error of the disk. With a media error the
    write of a block may be lost and reported as done ([sfs_wblock_media_error] in Lhd.v). *)
Theorem sfs_write_read_roundtrip `{!ReliableWrites D t_vmspace} s u v :
  file s → request u UIO_WRITE → uio_offset u ≤ sfi_size (f_i s) →
  request v UIO_READ → uio_offset v = uio_offset u → uio_resid v = uio_resid u →
  wp safe (sfs_write user_read user_write t_vmspace st;;
           upd_u (λ _, v);;
           sfs_read user_read user_write t_vmspace st) (s, u)
    (λ _ t, umem (f_mem t.1) v (uio_resid v) = umem (f_mem s) u (uio_resid u) ∧
       contents t.1 = splice (uio_offset u) (umem (f_mem s) u (uio_resid u)) (contents s))
    (λ e t, write_error t.1 u e ∨ dev_error e ∨ e = EFAULT).
Proof.
  intros Hf Hu Hoff Hv Hvo Hvr. pose proof (rq_off _ _ _ Hu) as [Ho _]. pose proof (request_slack _ _ _ Hu) as Hr0.
  wp_steps. eapply wp_mono; [by apply sfs_write_ok| |by intros e t (? & _); left].
  intros [] [s1 u1] (_ & Hc & Hf1). cbn [fst] in Hc, Hf1. unfold upd_u. wp_steps. cbn [fst snd].
  eapply wp_mono; [by apply sfs_read_ok| |].
  2: { intros e t ([?|[? _]] & _); right; [by left|by right]. }
  intros [] [s2 u2] (_ & Hm & Hc2 & _). cbn [fst] in Hm, Hc2 |- *. split; [|congruence].
  pose proof (length_contents s ltac:(destruct Hf; lia)) as Hl. pose proof (length_contents s1 ltac:(destruct Hf1; lia)) as Hl1.
  pose proof (length_umem (f_mem s) u (uio_resid u) Hr0) as Hlu.
  rewrite Hc, length_splice, Hlu in Hl1 by lia.
  assert (available s1 v = uio_resid v) as Ha by (unfold available; lia). rewrite Ha in Hm. rewrite Hm, Hc, Hvo, Hvr.
  rewrite <- Hlu at 1. apply splice_read. lia.
Qed.

(** ** Other files *)

(** A file with the inode [j], that has no block in common with the file of the state *)
Definition apart s j : Prop :=
  file_ok (f_fs s) (f_dev s) j ∧ ∀ b, owns (f_dev s) j b → ¬ owns (f_dev s) (f_i s) b.

Lemma ext_apart s s' j :
  fs_ok (f_fs s) → ext st s s' → apart s j →
  apart s' j ∧ ∀ x, 0 ≤ x < MAXSIZE → fbyte (f_dev s') j x = fbyte (f_dev s) j x.
Proof.
  intros Hf He [Hj Hd].
  assert (∀ b k, 0 ≤ k < SFS_BLOCKSIZE → owns (f_dev s) j b → dbyte (f_dev s') b k = dbyte (f_dev s) b k) as Hdisk.
  { intros b k Hk Hb. destruct (fo_used _ _ _ Hj b Hb) as [Hr Hm]. apply (ex_disk _ _ _ He); [done|lia|done|auto]. }
  assert (∀ k, 0 ≤ k < SFS_BLOCKSIZE → sfi_indirect j ≠ 0 →
    dbyte (f_dev s') (sfi_indirect j) k = dbyte (f_dev s) (sfi_indirect j) k) as Hind.
  { intros k Hk Hi. apply Hdisk; [done|by apply owns_indirect]. }
  assert (∀ n, fblock (f_dev s') j n = fblock (f_dev s) j n) as Hfb by (intros n; apply fblock_ext; auto).
  split; [split|].
  - eapply file_ok_marked; [by eapply file_ok_disk|unfold nblocks; by rewrite (fx_super _ _ (ex_fs _ _ _ He))|].
    apply (fx_marked _ _ (ex_fs _ _ _ He)).
  - intros b Hb Ho. apply (owns_ext (f_dev s)) in Hb; [|auto]. destruct (ex_owns _ _ _ He b Ho) as [|Hm]; [by apply (Hd b)|].
    destruct (fo_used _ _ _ Hj b Hb). congruence.
  - intros x Hx. unfold fbyte. rewrite Hfb. pose proof (div_block x Hx).
    destruct (Z.eqb_spec (fblock (f_dev s) j (x / SFS_BLOCKSIZE)) 0); [done|]. apply Hdisk; [apply fbyte_mod|by apply owns_fblock].
Qed.

(** C5: On a disk whose writes meet no media error, writing to a file leaves every other file
    alone: it keeps its blocks and its bytes, and no block of it becomes part of the written
    file, also when the write fails, because the disk or the inode has no more room, a block
    cannot be read or the caller's memory cannot. A media error may lose the write of a new
    indirect block, whose old contents then are taken for block numbers. *)
Theorem sfs_write_other_files `{!ReliableWrites D t_vmspace} s u j :
  file s → request u UIO_WRITE → apart s j →
  wp safe (sfs_write user_read user_write t_vmspace st) (s, u)
    (λ _ t, apart t.1 j ∧ ∀ x, 0 ≤ x < MAXSIZE → fbyte (f_dev t.1) j x = fbyte (f_dev s) j x)
    (λ _ t, apart t.1 j ∧ ∀ x, 0 ≤ x < MAXSIZE → fbyte (f_dev t.1) j x = fbyte (f_dev s) j x).
Proof.
  intros Hf Hu Hj. pose proof Hf as [Hok Hz]. unfold sfs_write, get_u. wp_steps.
  wp_assert by (cbn; rewrite (rq_rw _ _ _ Hu); done).
  apply (sfs_io_write user_read user_write st Hst); [done|done|by apply file_size31| |].
  - intros s' Hw. apply ext_apart; [apply Hok|apply Hw|done].
  - intros e s' n k _ _ _ Hw. apply ext_apart; [apply Hok|apply Hw|done].
Qed.

(** ** Truncation *)

Lemma shrunk_fbyte keep s s' x :
  shrunk st keep s s' → st_ok st s → 0 ≤ x < MAXSIZE →
  fbyte (f_dev s') (f_i s') x = if keep (x / SFS_BLOCKSIZE) then fbyte (f_dev s) (f_i s) x else 0.
Proof.
  intros Hs Hok Hx. unfold fbyte. pose proof (div_block x Hx) as Hn. rewrite (sh_blocks _ _ _ _ Hs) by done.
  destruct (keep _); [|done]. destruct (Z.eqb_spec (fblock (f_dev s) (f_i s) (x / SFS_BLOCKSIZE)) 0); [done|].
  apply (sh_disk _ _ _ _ Hs); [apply fbyte_mod|]. by apply (fo_ind _ _ _ (so_file _ _ Hok)).
Qed.

Lemma keeps_eq bl n : keeps bl n = (n <? bl) || (SFS_NDIRECT <=? n) && (n =? bl).
Proof.
  unfold keeps. destruct (Z.ltb_spec n SFS_NDIRECT), (Z.leb_spec SFS_NDIRECT n), (Z.ltb_spec n bl),
    (Z.leb_spec n bl), (Z.eqb_spec n bl); done || lia.
Qed.

Lemma shrunk_contents s s' len :
  shrunk st (keeps (blocks_of len)) s s' → file s → 0 ≤ len ≤ sfi_size (f_i s) → sfi_size (f_i s') = len →
  contents s' = ztake len (contents s).
Proof.
  intros Hs [Hok Hz] Hlen Hsz.
  pose proof (length_contents s ltac:(lia)) as Hl. pose proof (length_contents s' ltac:(lia)) as Hl'. apply zlist_eq.
  - unfold ztake. rewrite length_take. lia.
  - intros x Hx. rewrite Hl', Hsz in Hx. rewrite contents_lookup by lia. rewrite zlookup_ztake by lia.
    destruct (Z.ltb_spec x len); [|lia]. rewrite contents_lookup by lia. f_equal.
    rewrite (shrunk_fbyte _ _ _ _ Hs Hok) by lia. pose proof (blocks_of_lt x len ltac:(lia)).
    rewrite keeps_eq. by destruct (Z.ltb_spec (x / SFS_BLOCKSIZE) (blocks_of len)); [|lia].
Qed.

(** An entry of the map stays, with its block in use, or goes, and its block is free. *)
Lemma shrunk_block keep s s' n :
  shrunk st keep s s' → st_ok st s → 0 ≤ n < MAXBLOCKS →
  fblock (f_dev s') (f_i s') n = (if keep n then fblock (f_dev s) (f_i s) n else 0) ∧
  (fblock (f_dev s) (f_i s) n ≠ 0 → marked (f_fs s') (fblock (f_dev s) (f_i s) n) = keep n).
Proof.
  intros Hs Hok Hn. pose proof (sh_blocks _ _ _ _ Hs n Hn) as Hb. split; [done|]. intros Hnz.
  destruct (keep n) eqn:Hk.
  - apply (fo_used _ _ _ (so_file _ _ (sh_ok _ _ _ _ Hs))). rewrite <- Hb. apply owns_fblock; [done|by rewrite Hb].
  - apply (sh_freed _ _ _ _ Hs); [by apply owns_fblock|]. intros [_ Ho].
    pose proof (so_file _ _ Hok) as Hfo. destruct Ho as [Ho|(m & Hm & Ho)].
    + destruct (sh_indirect _ _ _ _ Hs); [|congruence]. apply (fo_ind _ _ _ Hfo n); congruence.
    + rewrite (sh_blocks _ _ _ _ Hs) in Ho by done. destruct (keep m) eqn:Hkm; [|congruence].
      assert (n = m) as -> by (apply (fo_inj _ _ _ Hfo); congruence). congruence.
Qed.

(** C9: On a disk whose writes meet no media error, sfs_truncate to a length that is not
    above the file's keeps exactly the bytes below the length. The map of the blocks keeps
    its entries below the new end and drops every other one, and what it drops is marked
    free, but for one entry: the block right behind the new end stays in the map, in use,
    when it is one of the indirect block, where the code compares with less-than and not
    with less-or-equal as for the direct blocks. A block that the file did not own is marked
    as before and keeps its contents. *)
Theorem sfs_truncate_spec `{!ReliableWrites D t_vmspace} s len :
  file s → 0 ≤ len ≤ sfi_size (f_i s) →
  wp safe (sfs_truncate st len) s
    (λ _ s', file s' ∧ contents s' = ztake len (contents s) ∧
       (∀ n, 0 ≤ n < MAXBLOCKS →
          let kept := (n <? blocks_of len) || (SFS_NDIRECT <=? n) && (n =? blocks_of len) in
          let b := fblock (f_dev s) (f_i s) n in
          fblock (f_dev s') (f_i s') n = (if kept then b else 0) ∧
          (b ≠ 0 → marked (f_fs s') b = kept)) ∧
       (∀ b, owns (f_dev s') (f_i s') b → owns (f_dev s) (f_i s) b) ∧
       (∀ b, owns (f_dev s) (f_i s) b → ¬ owns (f_dev s') (f_i s') b → marked (f_fs s') b = false) ∧
       (∀ b, 0 ≤ b → ¬ owns (f_dev s) (f_i s) b → marked (f_fs s') b = marked (f_fs s) b ∧
          ∀ k, 0 ≤ k < SFS_BLOCKSIZE → b ≠ 0 → dbyte (f_dev s') b k = dbyte (f_dev s) b k))
    (λ e _, dev_error e).
Proof.
  intros Hf Hlen. pose proof Hf as [Hok Hz]. pose proof (file_size31 s Hf).
  apply (sfs_truncate_ok st Hst); [done|lia| | |done].
  { unfold MAXSIZE, MAXBLOCKS, SFS_NDIRECT, SFS_DBPERIDB, SFS_BLOCKSIZE, INT_MAX in *. lia. }
  intros s' Hs Hsz _. split; [|split; [|split; [|split; [apply Hs|split; [apply Hs|]]]]].
  - split; [apply Hs|]. rewrite Hsz. lia.
  - by apply (shrunk_contents s s' len).
  - intros n Hn. rewrite <- keeps_eq. by apply (shrunk_block _ s s' n).
  - intros b Hb Hno. split; [apply (sh_marked _ _ _ _ Hs); [done|by left]|]. intros k Hk Hb0.
    apply (sh_disk _ _ _ _ Hs); [done|]. intros ->. by apply Hno, owns_indirect.
Qed.

(** ** Directories *)

Context (Hdb : dir_buffers_ok st).

Notation entries s := (dentry (f_dev s) (f_i s)).

(** C8: On a disk whose writes meet no media error, sfs_dir_link enters a name that the
    directory does not have yet, in a free slot or behind the last one, and changes no other
    entry; sfs_dir_findname finds it there with its inode. The directory still has no name
    twice. With a media error the entry may be lost and reported as made. *)
Theorem sfs_dir_link_findname `{!ReliableWrites D t_vmspace} s n name ino :
  is_dir st s n → name_ok name → is_u32 ino → ino ≠ SFS_NOINO →
  wp safe (slot ← sfs_dir_link user_read user_write t_vmspace st name ino;
           r ← sfs_dir_findname user_read user_write t_vmspace st name;
           mret (slot, r.1)) s
    (λ a s', a.2 = Some (ino, a.1) ∧ 0 ≤ a.1 ≤ n ∧ (a.1 < n → dfree (entries s a.1)) ∧
       is_dir st s' (Z.max n (a.1 + 1)) ∧
       ∀ x, 0 ≤ x < n → x ≠ a.1 → entries s' x = entries s x)
    (λ e s', link_error st s s' n name e ∨ dev_error e).
Proof.
  intros Hd Hname Hino Hino0. pose proof (id_max _ _ _ Hd) as Hmax.
  wp_steps. apply (sfs_dir_link_ok user_read user_write st Hst Hdb s n); [done|done|done| |by intros; left].
  intros slot s1 Hnew Hlen Hslot Hfree Hset Hd1. wp_steps.
  apply (sfs_dir_findname_ok user_read user_write st Hst Hdb s1 (Z.max n (slot + 1))); [done| |by intros; right].
  intros r s2 Hq [Hr _]. wp_steps. cbn [fst snd].
  assert (entries s1 slot = MkDir ino (padded SFS_NAMELEN name)) as He.
  { rewrite (ds_entries _ _ _ _ _ Hset); [by rewrite Z.eqb_refl|lia|apply (ds_max _ _ _ _ _ Hset)]. }
  assert (dnamed (entries s1 slot) name) as Hn by (rewrite He; split; [done|by apply dname_padded]).
  destruct r.1 as [[ino' slot']|]; [|by destruct (Hr slot); [lia|]]. destruct Hr as (Hs' & Hn' & <-).
  assert (slot' = slot) as -> by (apply (id_uniq _ _ _ Hd1 slot' slot name); [lia|lia|done|done]).
  split; [by rewrite He|]. split; [done|]. split; [done|]. split; [by eapply is_dir_quiet|].
  intros x Hx Hxs. rewrite (quiet_dentry _ _ _ x Hq), (ds_entries _ _ _ _ _ Hset); [|lia|].
  - by destruct (Z.eqb_spec x slot).
  - unfold sizeof_sfs_dir, SFS_NAMELEN in *. lia.
Qed.

(** After sfs_dir_unlink of the slot of a name, sfs_dir_findname does not find the name,
    and every other entry is as before. *)
Theorem sfs_dir_unlink_findname `{!ReliableWrites D t_vmspace} s n name slot :
  is_dir st s n → 0 ≤ slot < n → dnamed (entries s slot) name →
  wp safe (sfs_dir_unlink user_read user_write t_vmspace st slot;;
           r ← sfs_dir_findname user_read user_write t_vmspace st name;
           mret r.1) s
    (λ r s', r = None ∧ is_dir st s' n ∧ ∀ x, 0 ≤ x < n → x ≠ slot → entries s' x = entries s x)
    (λ e s', dir_error s' slot e ∨ dev_error e).
Proof.
  intros Hd Hslot Hn. pose proof (id_max _ _ _ Hd) as Hmax.
  wp_steps. apply (sfs_dir_unlink_ok user_read user_write st Hst Hdb s n); [done|done| |by intros; left].
  intros s1 Hset Hd1. wp_steps.
  apply (sfs_dir_findname_ok user_read user_write st Hst Hdb s1 n); [done| |by intros; right].
  intros r s2 Hq [Hr _]. wp_steps.
  assert (∀ x, 0 ≤ x < n → entries s1 x = if x =? slot then MkDir SFS_NOINO (padded SFS_NAMELEN []) else entries s x) as He.
  { intros x Hx. apply (ds_entries _ _ _ _ _ Hset); [lia|]. unfold sizeof_sfs_dir, SFS_NAMELEN in *. lia. }
  split; [|split; [by eapply is_dir_quiet|]].
  - destruct r.1 as [[ino' slot']|]; [|done]. destruct Hr as (Hs' & Hn' & _). rewrite He in Hn' by done.
    destruct (Z.eqb_spec slot' slot); [by destruct Hn'|]. by rewrite (id_uniq _ _ _ Hd slot' slot name) in * by done.
  - intros x Hx Hxs. rewrite (quiet_dentry _ _ _ x Hq), He by done. by destruct (Z.eqb_spec x slot).
Qed.

(** ** Inodes *)

(** After sfs_sync_inode of a dirty inode the block of the inode is the inode: reading
    it gives the inode back. No other block changes. When the write fails, the inode stays
    dirty. *)
Theorem sfs_sync_inode_spec `{!ReliableWrites D t_vmspace} s :
  st_ok st s → sv_dirty (f_sv s) ≠ 0 → block_buffer (sv_i_at (f_at s)) → 0 ≤ sv_ino (f_sv s) < dev_blocks →
  wp safe sfs_sync_inode s
    (λ _ s', inode_of (sector (f_dev s') (sv_ino (f_sv s))) = f_i s ∧ f_sv s' = with_dirty 0 (f_sv s) ∧
       (∀ b k, 0 ≤ k < SFS_BLOCKSIZE → b ≠ sv_ino (f_sv s) → dbyte (f_dev s') b k = dbyte (f_dev s) b k))
    (λ e s', dev_error e ∧ f_sv s' = f_sv s ∧ same_disk (f_dev s) (f_dev s')).
Proof.
  intros [Hd Hc Hf Hfo] Hdirty Hbuf Hino. unfold sfs_sync_inode, store, on_io, set_dirty. wp_steps.
  destruct (Z.eqb_spec (sv_dirty (f_sv s)) 0); [done|]. cbn [negb]. wp_steps. cbn [with_io f_dev f_mem fst snd].
  pose proof (length_inode_bytes _ (fo_wf _ _ _ Hfo)) as Hl.
  apply sfs_wblock_ok; [done|apply Hc|done|done| |].
  - intros d' c' Hd' Hw _. wp_steps. split; [|split; [done|]].
    + change (f_dev _) with d'. rewrite (sector_written _ _ _ _ _ Hw). change SFS_BLOCKSIZE with (Z.of_nat 512).
      rewrite <- Hl, peek_poke by apply bytes_of_bytes. apply inode_of_bytes, Hfo.
    + intros b k Hk Hb. change (dbyte d' b k = dbyte (f_dev s) b k). rewrite Hw by done.
      by destruct (Z.eqb_spec b (sv_ino (f_sv s))).
  - done.
Qed.
End theorems.
