(* ===== verification/Lhd.v ===== *)
(** * The disk driver

    Model of kern/dev/lamebus/lhd.c. The card is hardware: its registers and its work
    are an interface, [LhdCard], with a contract that says what the driver relies on.
    The on-card buffer is memory, at [lh_buf].

    A thread that waits in [P(lh->lh_done)] sleeps until the card interrupts: the
    model lets the card work and runs the interrupt handler. A thread that waits in
    [P(lh->lh_clear)] waits for another thread, and does not return here.

    The driver meets the contract of a block device of SfsDev.v, for every card that
    meets its own contract; both allow media errors on reads and on writes. With a card that
    does not fail when it writes, [CardWrites], the writes of the device are reliable. *)

From Stdlib Require Import ZArith Lia.
From stdpp Require Import base list gmap numbers.
From S2P Require Import Prelude CopyInOut Uio SfsData SfsDev.

Local Open Scope Z_scope.

Definition LHD_REG_NSECT : Z := 0.
Definition LHD_REG_STAT : Z := 4.
Definition LHD_REG_SECT : Z := 8.
Definition LHD_IDLE : Z := 0.
Definition LHD_WORKING : Z := 1.
Definition LHD_OK : Z := 4.
Definition LHD_INVSECT : Z := 12.
Definition LHD_MEDIA : Z := 20.
Definition LHD_ISWRITE : Z := 2.
Definition LHD_STATEMASK : Z := 0x1d.
Definition LHD_SECTSIZE : Z := 512.

(** [bus_read_register], [bus_write_register], and what the card does until it
    interrupts *)
Class LhdCard (C : Type) := {
  bus_read_register : Z → M C Z;
  bus_write_register : Z → Z → M C ();
  card_work : M (C * copystate) ();
}.

(** [lh_clear] and [lh_done] are the counts of the semaphores. *)
Record lhd_softc (C : Type) := MkLhd {
  lh_card : C;
  lh_result : Z;
  lh_clear : Z;
  lh_done : Z;
}.
Arguments MkLhd {C}.
Arguments lh_card {C}.
Arguments lh_result {C}.
Arguments lh_clear {C}.
Arguments lh_done {C}.

Section driver.
Context {C : Type} `{!LhdCard C} (user_read user_write : Z → bool) (t_vmspace lh_buf d_blocks : Z).
Implicit Types l : lhd_softc C.

Definition set_card x l : lhd_softc C := MkLhd x (lh_result l) (lh_clear l) (lh_done l).
Definition set_lh_result x l : lhd_softc C := MkLhd (lh_card l) x (lh_clear l) (lh_done l).
Definition set_clear x l : lhd_softc C := MkLhd (lh_card l) (lh_result l) x (lh_done l).
Definition set_done x l : lhd_softc C := MkLhd (lh_card l) (lh_result l) (lh_clear l) x.

Definition lhd_rdreg (reg : Z) : M (lhd_softc C) Z := zoom lh_card set_card (bus_read_register reg).
Definition lhd_wreg (reg val : Z) : M (lhd_softc C) () := zoom lh_card set_card (bus_write_register reg val).

Definition lhd_code_to_errno (code : Z) : Z :=
  let state := Z.land code LHD_STATEMASK in
  if state =? LHD_OK then 0
  else if state =? LHD_INVSECT then EINVAL
  else if state =? LHD_MEDIA then EIO
  else EAGAIN.

Definition lhd_iodone (err : Z) : M (lhd_softc C) () :=
  modify (set_lh_result err);;
  modify (λ l, set_done (lh_done l + 1) l).

Definition lhd_irq : M (lhd_softc C) () :=
  val ← lhd_rdreg LHD_REG_STAT;
  let state := Z.land val LHD_STATEMASK in
  if (state =? LHD_IDLE) || (state =? LHD_WORKING) then mret tt
  else if (state =? LHD_OK) || (state =? LHD_INVSECT) || (state =? LHD_MEDIA) then
    lhd_wreg LHD_REG_STAT 0;;
    lhd_iodone (lhd_code_to_errno val)
  else mret tt.

Definition lhd_open (openflags : Z) : M (lhd_softc C) () := mret tt.
Definition lhd_close : M (lhd_softc C) () := mret tt.
Definition lhd_ioctl (op data : Z) : M (lhd_softc C) () := fail EIOCTL.

Definition LU : Type := lhd_softc C * US.
Definition on_lhd {A} (m : M (lhd_softc C) A) : M LU A := zoom fst (λ l s, (l, s.2)) m.
Definition on_uio {A} (m : M US A) : M LU A := zoom snd (λ us s, (s.1, us)) m.
Definition on_card {A} (m : M (C * copystate) A) : M LU A :=
  zoom (λ s, (lh_card s.1, s.2.1)) (λ t s, (set_card t.1 s.1, (t.2, s.2.2))) m.

Definition P_clear : M LU () :=
  s ← get;
  if 0 <? lh_clear s.1 then on_lhd (modify (λ l, set_clear (lh_clear l - 1) l)) else noreturn.
Definition V_clear : M LU () := on_lhd (modify (λ l, set_clear (lh_clear l + 1) l)).

(** The interrupt handler runs when the card is done. *)
Definition P_done : M LU () :=
  s ← get;
  (if 0 <? lh_done s.1 then mret tt else on_card card_work;; on_lhd lhd_irq);;
  s ← get;
  if 0 <? lh_done s.1 then on_lhd (modify (λ l, set_done (lh_done l - 1) l)) else noreturn.

Definition lhd_sector (sector statval : Z) : M LU () :=
  P_clear;;
  s ← get;
  let write := uio_rw s.2.2 =? UIO_WRITE in
  r ← (if write then try (on_uio (uiomove user_read user_write t_vmspace lh_buf LHD_SECTSIZE))
       else mret (inl tt));
  match r with
  | inr e => V_clear;; fail e
  | inl _ =>
    on_lhd (lhd_wreg LHD_REG_SECT sector);;
    on_lhd (lhd_wreg LHD_REG_STAT statval);;
    P_done;;
    s ← get;
    r ← (if negb (lh_result s.1 =? 0) then mret (inr (lh_result s.1))
         else if uio_rw s.2.2 =? UIO_READ then
           try (on_uio (uiomove user_read user_write t_vmspace lh_buf LHD_SECTSIZE))
         else mret (inl tt));
    V_clear;;
    match r with
    | inr e => fail e
    | inl _ => mret tt
    end
  end.

Definition lhd_io : M LU () :=
  s ← get;
  let u := s.2.2 in
  let sector := u32 (Z.quot (uio_offset u) LHD_SECTSIZE) in
  let sectoff := u32 (Z.rem (uio_offset u) LHD_SECTSIZE) in
  let len := uio_resid u / LHD_SECTSIZE in
  let lenoff := uio_resid u `mod` LHD_SECTSIZE in
  if negb (sectoff =? 0) || negb (lenoff =? 0) then fail EINVAL else
  if d_blocks <? u32 (sector + len) then fail EINVAL else
  let statval := if uio_rw u =? UIO_WRITE then Z.lor LHD_WORKING LHD_ISWRITE else LHD_WORKING in
  for_range 0 len (λ i, lhd_sector (u32 (sector + i)) statval).
End driver.
Arguments LU : clear implicits.

Ltac wp_run := repeat (progress (wp_steps; cbn [fst snd])).

(** ** The contract of the card

    [csect c b k] is byte [k] of sector [b], [creg c r] the register [r]. A read and a write
    may end in a media error; what a failed write leaves in its sector is not known. *)
Class LhdCardLaws (C : Type) `{!LhdCard C} (lh_buf nsect : Z) := {
  csect : C → Z → Z → Z;
  creg : C → Z → Z;
  card_ok : C → Prop;
  bus_write_law c r v :
    wp safe (bus_write_register r v) c
      (λ _ c', (∀ b k, csect c' b k = csect c b k) ∧ creg c' r = v ∧
         (∀ r', r' ≠ r → creg c' r' = creg c r') ∧ (card_ok c → card_ok c')) noerr;
  bus_read_law c r : wp safe (bus_read_register r) c (λ v c', v = creg c r ∧ c' = c) noerr;
  card_reads c m b :
    creg c LHD_REG_STAT = LHD_WORKING → creg c LHD_REG_SECT = b → 0 ≤ b < nsect →
    wp safe card_work (c, m)
      (λ _ s', (∀ b' k, csect s'.1 b' k = csect c b' k) ∧ (card_ok c → card_ok s'.1) ∧
         badfaultfunc s'.2 = badfaultfunc m ∧ same_outside lh_buf LHD_SECTSIZE (bytes m) (bytes s'.2) ∧
         (creg s'.1 LHD_REG_STAT = LHD_MEDIA ∨
          creg s'.1 LHD_REG_STAT = LHD_OK ∧
          ∀ k, 0 ≤ k < LHD_SECTSIZE → bytes s'.2 (lh_buf + k) = csect c b k)) noerr;
  card_writes c m b :
    card_ok c →
    creg c LHD_REG_STAT = Z.lor LHD_WORKING LHD_ISWRITE → creg c LHD_REG_SECT = b → 0 ≤ b < nsect →
    wp safe card_work (c, m)
      (λ _ s', (∀ b' k, b' ≠ b → csect s'.1 b' k = csect c b' k) ∧ card_ok s'.1 ∧ s'.2 = m ∧
         (creg s'.1 LHD_REG_STAT = Z.lor LHD_MEDIA LHD_ISWRITE ∨
          creg s'.1 LHD_REG_STAT = Z.lor LHD_OK LHD_ISWRITE ∧
          ∀ k, 0 ≤ k < LHD_SECTSIZE → csect s'.1 b k = bytes m (lh_buf + k))) noerr;
}.

(** A card whose writes do not end in a media error *)
Class CardWrites (C : Type) `{!LhdCard C} (lh_buf nsect : Z) `{!LhdCardLaws C lh_buf nsect} : Prop :=
  card_writes_media c m b :
    card_ok c →
    creg c LHD_REG_STAT = Z.lor LHD_WORKING LHD_ISWRITE → creg c LHD_REG_SECT = b → 0 ≤ b < nsect →
    wp safe card_work (c, m) (λ _ s', creg s'.1 LHD_REG_STAT ≠ Z.lor LHD_MEDIA LHD_ISWRITE) noerr.

(** ** The driver is a block device *)

#[global] Instance lhd_device {C} `{!LhdCard C} (user_read user_write : Z → bool) (t_vmspace lh_buf d_blocks : Z) :
  BlockDev (lhd_softc C) | 100 := {| d_io := lhd_io user_read user_write t_vmspace lh_buf d_blocks |}.

Section laws.
Context {C : Type} `{!LhdCard C} (user_read user_write : Z → bool) (t_vmspace lh_buf nsect : Z).
Context `{HC : !LhdCardLaws C lh_buf nsect}.
Context (Hbuf : USERTOP ≤ lh_buf ∧ lh_buf + LHD_SECTSIZE ≤ 2 ^ 32) (Hnsect : 0 ≤ nsect ≤ 2 ^ 22).
Implicit Types (l : lhd_softc C) (c : copystate) (u : uio).

(** Idle: nobody uses the card and nothing is left over from the last operation. *)
Definition lhd_idle l : Prop := lh_clear l = 1 ∧ lh_done l = 0 ∧ card_ok (lh_card l).

Notation sector := (lhd_sector user_read user_write t_vmspace lh_buf).

Lemma wreg_ok l r v (Q : () → lhd_softc C → Prop) E :
  (∀ x, (∀ b k, csect x b k = csect (lh_card l) b k) → creg x r = v →
     (∀ r', r' ≠ r → creg x r' = creg (lh_card l) r') → (card_ok (lh_card l) → card_ok x) →
     Q tt (set_card x l)) →
  wp safe (lhd_wreg r v) l Q E.
Proof.
  intros HQ. unfold lhd_wreg. wp_steps. eapply wp_mono; [apply bus_write_law| |done].
  intros [] x (H1 & H2 & H3 & H4). by apply HQ.
Qed.

(** The interrupt handler after an operation ended in state [v] *)
Lemma lhd_irq_ok l v (Q : () → lhd_softc C → Prop) E :
  creg (lh_card l) LHD_REG_STAT = v →
  Z.land v LHD_STATEMASK = LHD_OK ∨ Z.land v LHD_STATEMASK = LHD_MEDIA →
  (∀ x, (∀ b k, csect x b k = csect (lh_card l) b k) → (card_ok (lh_card l) → card_ok x) →
     Q tt (MkLhd x (lhd_code_to_errno v) (lh_clear l) (lh_done l + 1))) →
  wp safe lhd_irq l Q E.
Proof.
  intros Hv Hst HQ. unfold lhd_irq, lhd_rdreg. wp_steps. eapply wp_mono; [apply bus_read_law| |done].
  intros ? ? [-> ->]. rewrite Hv. wp_steps.
  assert ((Z.land v LHD_STATEMASK =? LHD_IDLE) || (Z.land v LHD_STATEMASK =? LHD_WORKING) = false) as ->
    by (destruct Hst as [-> | ->]; done).
  assert ((Z.land v LHD_STATEMASK =? LHD_OK) || (Z.land v LHD_STATEMASK =? LHD_INVSECT) ||
          (Z.land v LHD_STATEMASK =? LHD_MEDIA) = true) as -> by (destruct Hst as [-> | ->]; done).
  wp_steps. replace (set_card (lh_card l) l) with l by (by destruct l).
  apply wreg_ok. intros x Hx _ _ Ho. unfold lhd_iodone. wp_steps. by apply HQ.
Qed.

(** One sector: the checks of [lhd_io] pass, and the loop runs once. *)
Lemma lhd_io_one s (Q : () → LU C → Prop) E b rw :
  block_io t_vmspace nsect (range lh_buf LHD_SECTSIZE) s.2.2 b rw →
  wp safe (sector b (if rw =? UIO_WRITE then Z.lor LHD_WORKING LHD_ISWRITE else LHD_WORKING)) s Q E →
  wp safe (lhd_io user_read user_write t_vmspace lh_buf nsect) s Q E.
Proof.
  intros [Hwf Hrw Hoff Hb Hres _] Hrun. unfold lhd_io. wp_steps. rewrite Hoff, Hres, Hrw.
  assert (u32 (Z.quot (SFS_BLOCKSIZE * b) LHD_SECTSIZE) = b) as ->.
  { unfold SFS_BLOCKSIZE, LHD_SECTSIZE. rewrite Z.quot_div_nonneg, Z.mul_comm, Z.div_mul by lia.
    apply u32_small. lia. }
  assert (u32 (Z.rem (SFS_BLOCKSIZE * b) LHD_SECTSIZE) = 0) as ->.
  { unfold SFS_BLOCKSIZE, LHD_SECTSIZE. rewrite Z.rem_mod_nonneg, Z.mul_comm, Z.mod_mul by lia. done. }
  change (SFS_BLOCKSIZE `mod` LHD_SECTSIZE) with 0. change (SFS_BLOCKSIZE / LHD_SECTSIZE) with 1.
  cbn [negb orb Z.eqb]. rewrite (u32_small (b + 1)) by lia. destruct (Z.ltb_spec nsect (b + 1)); [lia|]. wp_steps.
  unfold for_range. change (seqZ 0 1) with [0]. cbn [for_each]. apply wp_bind. rewrite Z.add_0_r, u32_small by lia.
  eapply wp_mono; [exact Hrun| |done]. intros [] s' HQ. by wp_steps.
Qed.

(** Waiting for the card: it works, its interrupt handler runs, the thread goes on. *)
Lemma P_done_ok l c u (W : C * copystate → Prop) (Q : () → LU C → Prop) E :
  lh_done l = 0 →
  wp safe card_work (lh_card l, c)
    (λ _ t, W t ∧ (Z.land (creg t.1 LHD_REG_STAT) LHD_STATEMASK = LHD_OK ∨
                   Z.land (creg t.1 LHD_REG_STAT) LHD_STATEMASK = LHD_MEDIA)) noerr →
  (∀ t x, W t → (∀ b k, csect x b k = csect t.1 b k) → (card_ok t.1 → card_ok x) →
     Q tt (MkLhd x (lhd_code_to_errno (creg t.1 LHD_REG_STAT)) (lh_clear l) 0, (t.2, u))) →
  wp safe P_done (l, (c, u)) Q E.
Proof.
  intros Hdn Hwork HQ. unfold P_done, on_card, on_lhd. wp_steps. cbn [fst snd]. rewrite Hdn.
  change (0 <? 0) with false. wp_run. eapply wp_mono; [exact Hwork| |done].
  intros [] [x3 c3] [HW Hst]. wp_steps. cbn [fst snd] in *.
  eapply (lhd_irq_ok _ (creg x3 LHD_REG_STAT)); [done|done|]. intros x4 H4 Ho4. wp_steps.
  cbn [fst snd lh_done set_card]. rewrite Hdn. change (0 <? 0 + 1) with true. wp_run.
  by apply (HQ (x3, c3)).
Qed.

Lemma lhd_read d c u b :
  lhd_idle d → badfaultfunc c = false →
  block_io t_vmspace nsect (range lh_buf LHD_SECTSIZE) u b UIO_READ →
  wp safe (lhd_io user_read user_write t_vmspace lh_buf nsect) (d, (c, u))
    (λ _ s', lhd_idle s'.1 ∧ (∀ b' k, csect (lh_card s'.1) b' k = csect (lh_card d) b' k) ∧
       s'.2.2 = advance SFS_BLOCKSIZE u ∧ iov_base (uio_iovec u) + SFS_BLOCKSIZE < 2 ^ 32 ∧
       same_but (λ x, range lh_buf LHD_SECTSIZE x ∨ uio_mem u x) c s'.2.1 ∧
       ∀ k, 0 ≤ k < SFS_BLOCKSIZE → bytes s'.2.1 (iov_base (uio_iovec u) + k) = csect (lh_card d) b k)
    (λ e s', io_error (λ e, e = EIO) u e ∧
       lhd_idle s'.1 ∧ (∀ b' k, csect (lh_card s'.1) b' k = csect (lh_card d) b' k) ∧
       s'.2.2 = u ∧ same_but (λ x, range lh_buf LHD_SECTSIZE x ∨ uio_mem u x) c s'.2.1).
Proof.
  intros (Hcl & Hdn & Hcok) Hc Hu. apply (lhd_io_one _ _ _ b UIO_READ); [done|]. destruct Hu as [Hwf Hrw Hoff Hb Hres Hap].
  change (UIO_READ =? UIO_WRITE) with false. unfold lhd_sector, P_clear, V_clear, on_lhd, on_uio. wp_steps. cbn [fst snd].
  rewrite Hcl. change (0 <? 1) with true. wp_run. rewrite Hrw. change (UIO_READ =? UIO_WRITE) with false. wp_run.
  apply wreg_ok. intros x1 H1 H1r _ Ho1. wp_run. apply wreg_ok. intros x2 H2' H2s H2o Ho2. wp_run.
  assert (creg x2 LHD_REG_SECT = b) as H2r by (by rewrite H2o).
  assert (∀ b' k, csect x2 b' k = csect (lh_card d) b' k) as H2 by (intros; rewrite H2'; apply H1).
  apply (P_done_ok _ _ _ (λ t, (∀ b' k, csect t.1 b' k = csect x2 b' k) ∧ card_ok t.1 ∧
    same_but (range lh_buf LHD_SECTSIZE) c t.2 ∧
    (creg t.1 LHD_REG_STAT = LHD_MEDIA ∨ creg t.1 LHD_REG_STAT = LHD_OK ∧
     ∀ k, 0 ≤ k < LHD_SECTSIZE → bytes t.2 (lh_buf + k) = csect x2 b k))); [done| |].
  { eapply wp_mono; [by apply (card_reads x2 c b)| |done]. intros [] [x3 c3] (H3 & Ho3 & Hbf & Hsame & Hst).
    split; [|destruct Hst as [-> |[-> _]]; [by right|by left]]. split; [done|]. split; [by auto|]. split; [|done].
    split; [by rewrite <- Hc|done]. }
  intros [x3 c3] x4 (H3 & Ho3 & Hm3 & Hst) H4 Ho4. cbn [fst snd] in *. wp_steps. cbn [fst snd lh_result]. rewrite Hrw.
  change (UIO_READ =? UIO_READ) with true.
  assert (∀ b' k, csect x4 b' k = csect (lh_card d) b' k) as Hcs by (intros; rewrite H4, H3; apply H2).
  destruct Hst as [-> |[-> Hdata]].
  - change (lhd_code_to_errno LHD_MEDIA) with EIO. cbn [Z.eqb negb EIO]. wp_steps. cbn.
    split; [by left|]. split; [split_and!; [by rewrite Hcl|done|by auto]|]. split; [done|]. split; [done|].
    eapply same_but_mono; [done|by left].
  - change (lhd_code_to_errno LHD_OK) with 0. cbn [Z.eqb negb]. wp_steps. cbn [fst snd].
    apply uiomove_exact; [done|unfold LHD_SECTSIZE, SFS_BLOCKSIZE in *; lia|done|apply Hm3| | |].
    + rewrite Hoff. unfold SFS_BLOCKSIZE. lia.
    + intros c5 (Hb5 & Hbase & Hs5 & Hc5). unfold uio_dest, uio_src in *. rewrite Hrw in *.
      change (UIO_READ =? UIO_READ) with true in *. cbv iota in Hs5, Hc5. wp_steps. cbn [fst snd]. cbn.
      split; [split_and!; [by rewrite Hcl|done|by auto]|]. split; [done|]. split; [done|]. split; [done|]. split.
      * eapply same_but_trans; [eapply same_but_mono; [exact Hm3|by left]|]. split; [done|].
        intros x Hx. apply Hs5. intros Hr. apply Hx. right. unfold uio_mem, range. by rewrite Hres.
      * intros k Hk. rewrite Hc5 by done. rewrite Hdata by done. apply H2.
    + intros e [c5 u5] (-> & Hu5 & Hseg & Hb5 & Hs5). cbn in Hu5, Hb5, Hs5. subst u5. wp_steps. cbn.
      split; [right; done|]. split; [split_and!; [by rewrite Hcl|done|by auto]|]. split; [done|]. split; [done|].
      eapply same_but_trans; [eapply same_but_mono; [exact Hm3|by left]|]. split; [done|].
      intros x Hx. apply Hs5. unfold uio_dest. rewrite Hrw. change (UIO_READ =? UIO_READ) with true. cbv iota.
      intros Hr. apply Hx. right. unfold uio_mem, range. by rewrite Hres.
Qed.

(** A write, whatever else is known of how the card ends: the error is EIO only when the
    card ended in a media error. *)
Lemma lhd_write_ends (media : Prop) d c u b :
  lhd_idle d → badfaultfunc c = false →
  block_io t_vmspace nsect (range lh_buf LHD_SECTSIZE) u b UIO_WRITE →
  (∀ x m, card_ok x → creg x LHD_REG_STAT = Z.lor LHD_WORKING LHD_ISWRITE → creg x LHD_REG_SECT = b →
     wp safe card_work (x, m) (λ _ s', creg s'.1 LHD_REG_STAT = Z.lor LHD_MEDIA LHD_ISWRITE → media) noerr) →
  wp safe (lhd_io user_read user_write t_vmspace lh_buf nsect) (d, (c, u))
    (λ _ s', lhd_idle s'.1 ∧
       (∀ b' k, 0 ≤ k < SFS_BLOCKSIZE → csect (lh_card s'.1) b' k =
          if b' =? b then bytes c (iov_base (uio_iovec u) + k) else csect (lh_card d) b' k) ∧
       s'.2.2 = advance SFS_BLOCKSIZE u ∧ iov_base (uio_iovec u) + SFS_BLOCKSIZE < 2 ^ 32 ∧
       same_but (range lh_buf LHD_SECTSIZE) c s'.2.1)
    (λ e s', (io_error (λ e, e = EIO) u e ∧
       lhd_idle s'.1 ∧ (∀ b' k, b' ≠ b ∨ e ≠ EIO → csect (lh_card s'.1) b' k = csect (lh_card d) b' k) ∧
       (s'.2.2 = u ∨ s'.2.2 = advance SFS_BLOCKSIZE u ∧
                     iov_base (uio_iovec u) + SFS_BLOCKSIZE < 2 ^ 32) ∧
       same_but (range lh_buf LHD_SECTSIZE) c s'.2.1) ∧ (e = EIO → media)).
Proof.
  intros (Hcl & Hdn & Hcok) Hc Hu Hends. apply (lhd_io_one _ _ _ b UIO_WRITE); [done|]. destruct Hu as [Hwf Hrw Hoff Hb Hres Hap].
  change (UIO_WRITE =? UIO_WRITE) with true. unfold lhd_sector, P_clear, V_clear, on_lhd, on_uio. wp_steps. cbn [fst snd].
  rewrite Hcl. change (0 <? 1) with true. wp_run. rewrite Hrw. change (UIO_WRITE =? UIO_WRITE) with true. wp_run.
  apply uiomove_exact; [done|unfold LHD_SECTSIZE, SFS_BLOCKSIZE in *; lia|done|done| | |].
  { rewrite Hoff. unfold SFS_BLOCKSIZE. lia. }
  2: { intros e [c5 u5] (-> & Hu5 & Hseg & Hb5 & Hs5). cbn in Hu5, Hb5, Hs5. subst u5. wp_run. cbn. split; [|done].
       split; [right; done|]. split; [split_and!; [by rewrite Hcl|done|by auto]|]. split; [done|]. split; [by left|].
       split; [done|]. intros x Hx. apply Hs5. unfold uio_dest. by rewrite Hrw. }
  intros c1 (Hb1 & Hbase & Hs1 & Hc1). unfold uio_dest, uio_src in *. rewrite Hrw in *.
  change (UIO_WRITE =? UIO_READ) with false in *. cbv iota in Hs1, Hc1. wp_run.
  apply wreg_ok. intros x1 H1 H1r _ Ho1. wp_run. apply wreg_ok. intros x2 H2' H2s H2o Ho2. wp_run.
  assert (creg x2 LHD_REG_SECT = b) as H2r by (by rewrite H2o).
  assert (∀ b' k, csect x2 b' k = csect (lh_card d) b' k) as H2 by (intros; rewrite H2'; apply H1).
  apply (P_done_ok _ _ _ (λ t, (∀ b' k, b' ≠ b → csect t.1 b' k = csect x2 b' k) ∧ card_ok t.1 ∧ t.2 = c1 ∧
    (creg t.1 LHD_REG_STAT = Z.lor LHD_MEDIA LHD_ISWRITE ∧ media ∨
     creg t.1 LHD_REG_STAT = Z.lor LHD_OK LHD_ISWRITE ∧
     ∀ k, 0 ≤ k < LHD_SECTSIZE → csect t.1 b k = bytes c1 (lh_buf + k)))); [done| |].
  { eapply wp_mono; [apply wp_and; [by apply (card_writes x2 c1 b); [auto|..]|by apply Hends; [auto|..]]| |by intros ?? []].
    intros [] [x3 c3] [(H3 & Ho3 & Hm3 & Hst) Hmed]. cbn [fst snd] in *.
    destruct Hst as [Hst|[Hst Hw]]; (split; [|rewrite Hst; auto]); (split; [done|]); (split; [done|]); (split; [done|]); auto. }
  intros [x3 c3] x4 (H3 & Ho3 & Hm3 & Hst) H4 Ho4. cbn [fst snd] in *. subst c3. wp_run. cbn [lh_result].
  change (uio_rw (advance LHD_SECTSIZE u)) with (uio_rw u). rewrite Hrw. change (UIO_WRITE =? UIO_READ) with false.
  assert (same_but (range lh_buf LHD_SECTSIZE) c c1) as Hmem by (split; [done|]; intros x Hx; by apply Hs1).
  assert (lhd_idle (MkLhd x4 (lhd_code_to_errno (creg x3 LHD_REG_STAT)) (lh_clear d) 0)) as Hidle
    by (split_and!; cbn; auto).
  destruct Hst as [[-> Hmed]|[-> Hw]].
  - change (lhd_code_to_errno (Z.lor LHD_MEDIA LHD_ISWRITE)) with EIO. cbn [Z.eqb negb EIO]. wp_run. cbn.
    split; [|done]. split; [by left|]. split; [split_and!; [by rewrite Hcl|done|by auto]|].
    split; [|split; [by right|done]]. intros b' k [Hb'|]; [|done]. rewrite H4, H3 by done. apply H2.
  - change (lhd_code_to_errno (Z.lor LHD_OK LHD_ISWRITE)) with 0. cbn [Z.eqb negb]. wp_run. cbn.
    split; [split_and!; [by rewrite Hcl|done|by auto]|]. split; [|done].
    intros b' k Hk. rewrite H4. destruct (Z.eqb_spec b' b) as [->|Hb']; [rewrite Hw by done; by apply Hc1|].
    rewrite H3 by done. apply H2.
Qed.

(** Nothing is left to transfer: [lhd_io] succeeds without touching the card. *)
Lemma lhd_io_empty l c u b :
  uio_resid u = 0 → uio_offset u = SFS_BLOCKSIZE * b → 0 ≤ b ≤ nsect →
  wp safe (lhd_io user_read user_write t_vmspace lh_buf nsect) (l, (c, u)) (λ _ s', s' = (l, (c, u))) noerr.
Proof.
  intros Hres Hoff Hb. unfold lhd_io. wp_steps. cbn [fst snd]. rewrite Hoff, Hres.
  unfold SFS_BLOCKSIZE, LHD_SECTSIZE. rewrite Z.quot_div_nonneg, Z.rem_mod_nonneg by lia.
  rewrite (Z.mul_comm 512 b), Z.div_mul, Z.mod_mul by lia. rewrite (u32_small b) by lia.
  change (u32 0 =? 0) with true. change (0 `mod` 512 =? 0) with true. change (0 / 512) with 0. cbn [negb orb].
  rewrite Z.add_0_r, u32_small by lia. destruct (Z.ltb_spec nsect b); [lia|]. wp_steps.
  unfold for_range. cbn. by wp_steps.
Qed.

#[refine] Instance lhd_device_laws :
  @BlockDevLaws (lhd_softc C) (lhd_device user_read user_write t_vmspace lh_buf nsect) t_vmspace :=
  {| dev_blocks := nsect;
     dbyte l b k := csect (lh_card l) b k;
     dev_area := range lh_buf LHD_SECTSIZE;
     dev_error e := e = EIO;
     dev_ok := lhd_idle |}.
Proof.
  - done.
  - by intros e ->.
  - intros. by apply lhd_read.
  - intros. eapply wp_mono; [apply (lhd_write_ends True); [done..|]|done|by intros ?? []].
    intros x m Hx Hst Hse. eapply wp_mono; [apply (card_writes x m b); [done..|]| |]; try done.
    by destruct H1.
  - intros. by apply (lhd_io_empty _ _ _ b).
Defined.

#[export] Instance lhd_device_reliable `{HR : !CardWrites C lh_buf nsect} :
  @ReliableWrites (lhd_softc C) (lhd_device user_read user_write t_vmspace lh_buf nsect) t_vmspace lhd_device_laws.
Proof.
  intros d c u b Hd Hc Hu. eapply wp_mono; [apply (lhd_write_ends False); [done..|]|done|by intros ?? [_ ?]].
  intros x m Hx Hst Hse. eapply wp_mono; [apply (card_writes_media x m b); [done..|]|done|done].
  by destruct Hu.
Qed.
End laws.

(** ** A card that meets the contract

    Its next [bad_writes] writes end in a media error. [card_laws errors] is the contract,
    for the states with no such write to come unless [errors] allows them. *)
Module SimpleCard.
Record t := MkCard { sects : Z → Z → Z; regs : Z → Z; bad_writes : nat }.

Section card.
Context (lh_buf : Z).

Definition set_reg r v (c : t) : t := MkCard (sects c) (λ x, if x =? r then v else regs c x) (bad_writes c).

Definition work : M (t * copystate) () :=
  s ← get;
  let '(c, m) := s in
  let b := regs c LHD_REG_SECT in
  if regs c LHD_REG_STAT =? LHD_WORKING then
    put (set_reg LHD_REG_STAT LHD_OK c,
         MkCopy (λ x, if (lh_buf <=? x) && (x <? lh_buf + LHD_SECTSIZE) then sects c b (x - lh_buf) else bytes m x)
           (badfaultfunc m))
  else if regs c LHD_REG_STAT =? Z.lor LHD_WORKING LHD_ISWRITE then
    match bad_writes c with
    | S n => put (set_reg LHD_REG_STAT (Z.lor LHD_MEDIA LHD_ISWRITE) (MkCard (sects c) (regs c) n), m)
    | O =>
      put (set_reg LHD_REG_STAT (Z.lor LHD_OK LHD_ISWRITE)
             (MkCard (λ b' k, if b' =? b then bytes m (lh_buf + k) else sects c b' k) (regs c) 0), m)
    end
  else mret tt.

#[global] Instance card : LhdCard t := {|
  bus_read_register r := gets (λ c, regs c r);
  bus_write_register r v := modify (set_reg r v);
  card_work := work |}.

#[global] Instance card_laws (errors : bool) nsect : @LhdCardLaws t card lh_buf nsect.
Proof.
  refine {| csect c := sects c; creg c := regs c; card_ok c := errors = false → bad_writes c = 0%nat |}.
  - intros c r v. cbn. wp_steps. split; [done|]. split; [by rewrite Z.eqb_refl|]. split; [|done].
    intros r' Hr. cbn. by destruct (Z.eqb_spec r' r).
  - intros c r. cbn. by wp_steps.
  - intros c m b Hs Hb Hr. cbn. unfold work. wp_steps. rewrite Hs, Hb. change (LHD_WORKING =? LHD_WORKING) with true.
    wp_steps. cbn [fst snd]. split; [done|]. split; [done|]. split; [done|]. split.
    + intros x Hx. cbn. destruct (Z.leb_spec lh_buf x), (Z.ltb_spec x (lh_buf + LHD_SECTSIZE)); try done.
      exfalso. apply Hx. lia.
    + right. split; [done|]. intros k Hk. cbn. destruct (Z.leb_spec lh_buf (lh_buf + k)); [|lia].
      destruct (Z.ltb_spec (lh_buf + k) (lh_buf + LHD_SECTSIZE)); [|lia]. cbn. f_equal. lia.
  - intros c m b Hg Hs Hb Hr. cbn. unfold work. wp_steps. rewrite Hs, Hb.
    change (Z.lor LHD_WORKING LHD_ISWRITE =? LHD_WORKING) with false. rewrite Z.eqb_refl.
    destruct (bad_writes c) as [|n]; wp_steps; cbn [fst snd].
    + split; [|split; [done|split; [done|right]]].
      * intros b' k Hb'. cbn. by destruct (Z.eqb_spec b' b).
      * split; [done|]. intros k _. cbn. by rewrite Z.eqb_refl.
    + split; [done|]. split; [by intros He; specialize (Hg He)|]. split; [done|by left].
Defined.

#[global] Instance card_reliable nsect : @CardWrites t card lh_buf nsect (card_laws false nsect).
Proof.
  intros c m b Hg Hs Hb Hr. cbn in Hs, Hb, Hg |- *. unfold work. wp_steps. rewrite Hs, Hg by done.
  change (Z.lor LHD_WORKING LHD_ISWRITE =? LHD_WORKING) with false. rewrite Z.eqb_refl. by wp_steps.
Qed.
End card.

(** A driver of such a card, that is not in use *)
Definition attached (c : t) : lhd_softc t := MkLhd c 0 1 0.
End SimpleCard.

(** ** Media errors

    A write that fails with a media error has consumed its [uio]: [sfs_rwblock] tries
    again, and the second [lhd_io] finds nothing left to do. *)
Lemma lhd_io_media_error user_read user_write t_vmspace lh_buf nsect (c : SimpleCard.t) m n u b :
  USERTOP ≤ lh_buf ∧ lh_buf + LHD_SECTSIZE ≤ 2 ^ 32 → 0 ≤ nsect ≤ 2 ^ 22 →
  SimpleCard.bad_writes c = S n → badfaultfunc m = false →
  uio_segflg u = UIO_SYSSPACE → block_io t_vmspace nsect (range lh_buf LHD_SECTSIZE) u b UIO_WRITE →
  wp safe (@lhd_io _ (SimpleCard.card lh_buf) user_read user_write t_vmspace lh_buf nsect) (SimpleCard.attached c, (m, u))
    (λ _ _, False)
    (λ e s', e = EIO ∧ (∀ b k, SimpleCard.sects (lh_card s'.1) b k = SimpleCard.sects c b k) ∧
       s'.2.2 = advance SFS_BLOCKSIZE u).
Proof.
  intros Hbuf Hns Hbad Hm Hseg Hu.
  apply (lhd_io_one user_read user_write t_vmspace lh_buf nsect Hns _ _ _ b UIO_WRITE); [done|].
  destruct Hu as [Hwf Hrw Hoff Hb Hres Hap]. change (UIO_WRITE =? UIO_WRITE) with true.
  unfold lhd_sector, P_clear, V_clear, on_lhd, on_uio. wp_steps. cbn [fst snd].
  cbn [SimpleCard.attached lh_clear]. change (0 <? 1) with true. wp_run. rewrite Hrw. change (UIO_WRITE =? UIO_WRITE) with true. wp_run.
  apply uiomove_exact; [done|unfold LHD_SECTSIZE, SFS_BLOCKSIZE in *; lia|done|done| | |].
  { rewrite Hoff. unfold SFS_BLOCKSIZE. lia. }
  2: { intros e [c5 u5] (_ & _ & Hns5 & _). by destruct Hns5. }
  intros c1 _. unfold lhd_wreg. wp_run. cbn [bus_write_register SimpleCard.card]. wp_run.
  apply (@P_done_ok _ (SimpleCard.card lh_buf) lh_buf nsect (SimpleCard.card_laws lh_buf true nsect) _ _ _ (λ t, SimpleCard.sects t.1 = SimpleCard.sects c ∧
    SimpleCard.regs t.1 LHD_REG_STAT = Z.lor LHD_MEDIA LHD_ISWRITE)); [done| |].
  { cbn [card_work SimpleCard.card]. unfold SimpleCard.work. wp_run. cbn -[wp]. rewrite Hbad. wp_run. by split; [|right]. }
  intros [x3 c3] x4 [H3 Hst] H4 _. wp_run. cbn [lh_result fst] in *.
  change (creg x3 LHD_REG_STAT) with (SimpleCard.regs x3 LHD_REG_STAT). rewrite Hst.
  change (lhd_code_to_errno (Z.lor LHD_MEDIA LHD_ISWRITE) =? 0) with false. cbn [negb]. wp_run.
  split; [done|]. split; [|done]. intros b' k. cbn in H4 |- *. by rewrite H4, H3.
Qed.

(** C27: A block write that ends in a media error is reported as done, and the block is not
    written: the retry of sfs_rwblock passes the uio that the failed attempt has used up,
    for which lhd_io has no sector left to transfer and returns 0. *)
Theorem sfs_wblock_media_error user_read user_write t_vmspace lh_buf nsect (c : SimpleCard.t) m n data b :
  USERTOP ≤ lh_buf ∧ lh_buf + LHD_SECTSIZE ≤ 2 ^ 32 → 0 ≤ nsect < 2 ^ 22 →
  SimpleCard.bad_writes c = S n → badfaultfunc m = false → 0 ≤ b < nsect →
  USERTOP ≤ data ∧ data + SFS_BLOCKSIZE ≤ lh_buf →
  wp safe (@sfs_wblock _ (@lhd_device _ (SimpleCard.card lh_buf) user_read user_write t_vmspace lh_buf nsect) data b)
    (SimpleCard.attached c, m)
    (λ _ s', ∀ b' k, SimpleCard.sects (lh_card s'.1) b' k = SimpleCard.sects c b' k) noerr.
Proof.
  intros Hbuf Hns' Hbad Hm Hb Hdata. assert (0 ≤ nsect ≤ 2 ^ 22) as Hns by lia. unfold sfs_wblock, local_uio, SFSUIO, mk_kuio, upd_uio. wp_steps. cbn [fst snd].
  unfold sfs_rwblock. cbn [rw_try d_io lhd_device]. wp_steps. eapply wp_mono; [eapply lhd_io_media_error; try done| |].
  - apply (sfsuio_block_io (t_vmspace := t_vmspace) (HL := @lhd_device_laws SimpleCard.t (SimpleCard.card lh_buf)
      user_read user_write t_vmspace lh_buf nsect (SimpleCard.card_laws lh_buf true nsect) Hbuf Hns)); [|done|by right].
    split; [lia|]. cbn. unfold range, LHD_SECTSIZE, SFS_BLOCKSIZE in *. split; [lia|]. intros. lia.
  - done.
  - intros e [l [m' u']] (-> & Hs & Hu'). cbn [fst snd] in Hu'. subst u'. wp_steps.
    change (EIO =? EINVAL) with false. change (EIO =? EIO) with true. cbv iota. wp_steps.
    eapply wp_mono; [eapply (lhd_io_empty user_read user_write t_vmspace lh_buf nsect Hns _ _ _ (b + 1)); [done| |lia]| |done].
    + cbn. unfold SFS_BLOCKSIZE. rewrite (s32_small b) by lia. rewrite (s32_small (b * 512)) by lia. rewrite s32_small by lia. lia.
    + intros [] ? ->. wp_steps. apply Hs.
Qed.

(** One bad write to sector 3 of a disk of 8 sectors *)
Lemma sfs_wblock_media_error_witness :
  wp safe (@sfs_wblock _ (@lhd_device _ (SimpleCard.card (2 ^ 31 + 4096)) (λ _, true) (λ _, true) 0 (2 ^ 31 + 4096) 8) (2 ^ 31) 3)
    (SimpleCard.attached (SimpleCard.MkCard (λ _ _, 7) (λ _, 0) 1), MkCopy (λ _, 9) false)
    (λ _ s', ∀ b' k, SimpleCard.sects (lh_card s'.1) b' k = 7) noerr.
Proof.
  apply (sfs_wblock_media_error (λ _, true) (λ _, true) 0 (2 ^ 31 + 4096) 8
    (SimpleCard.MkCard (λ _ _, 7) (λ _, 0) 1) (MkCopy (λ _, 9) false) 0 (2 ^ 31) 3); done || (vm_compute; split; congruence).
Defined.
