(* ===== verification/SfsExample.v ===== *)
(** * SFS: a file system on a disk

    A disk of 64 sectors behind the driver of Lhd.v, with a file of 16 blocks, of which the
    first and the last are there, and a directory with one name. The theorems of
    SfsTheorems.v on it. *)

From Stdlib Require Import ZArith Lia.
From stdpp Require Import base list gmap numbers.
From S2P Require Import Prelude CopyInOut Uio Bitmap Array Vnode SfsData SfsDev Sfs SfsInv SfsBlock SfsIo SfsRw SfsDir SfsTrunc SfsTheorems Lhd.

Local Open Scope Z_scope.

Definition KBASE : Z := 2 ^ 31.
Definition ex_buffers : buffers :=
  MkBuffers KBASE (KBASE + 512) (KBASE + 1024) (KBASE + 1536) (KBASE + 2048) (KBASE + 2112) (KBASE + 2240).
Definition ex_lh_buf : Z := KBASE + 4096.
(** Memory of the callers of [sfs_read] and [sfs_write] *)
Definition ex_mem : copystate :=
  MkCopy (λ x, if (KBASE + 8192 <=? x) && (x <? KBASE + 12288) then 66 else 0) false.

Lemma ex_lh_buf_ok : USERTOP ≤ ex_lh_buf ∧ ex_lh_buf + LHD_SECTSIZE ≤ 2 ^ 32.
Proof. by vm_compute. Qed.
Lemma ex_nsect_ok : 0 ≤ 64 ≤ 2 ^ 22.
Proof. lia. Qed.

#[local] Instance ex_dev : BlockDev (lhd_softc SimpleCard.t) :=
  @lhd_device _ (SimpleCard.card ex_lh_buf) (λ _, true) (λ _, true) 0 ex_lh_buf 64.
#[local] Instance ex_laws : BlockDevLaws (lhd_softc SimpleCard.t) 0 :=
  @lhd_device_laws _ (SimpleCard.card ex_lh_buf) (λ _, true) (λ _, true) 0 ex_lh_buf 64
    (SimpleCard.card_laws ex_lh_buf false 64) ex_lh_buf_ok ex_nsect_ok.
#[local] Instance ex_reliable : ReliableWrites (lhd_softc SimpleCard.t) 0 :=
  lhd_device_reliable (λ _, true) (λ _, true) 0 ex_lh_buf 64 ex_lh_buf_ok ex_nsect_ok.

(** Sector 5 has data, sector 6 the entries of the directory, sector 7 is an indirect block
    with block 8 in it. *)
Definition ex_entries : list Z :=
  dir_bytes (MkDir 9 (padded SFS_NAMELEN [97; 98])) ++ dir_bytes (MkDir SFS_NOINO (padded SFS_NAMELEN [])).
Definition ex_sects (b k : Z) : Z :=
  if b =? 5 then 65
  else if b =? 6 then default 0 (zlookup ex_entries k)
  else if b =? 7 then (if k =? 3 then 8 else 0)
  else if b =? 8 then 72 else 0.
Definition ex_disk : lhd_softc SimpleCard.t := SimpleCard.attached (SimpleCard.MkCard ex_sects (λ _, 0) 0).

(** Blocks 0 to 9 are in use; the bits from 64 on are those of sectors that do not exist. *)
Definition ex_freemap : bitmap := MkBitmap 4096 ([255; 3] ++ replicate 6 0 ++ replicate 504 255).
Definition ex_fs : sfs_fs :=
  MkFs (MkSuper SFS_MAGIC 64 (padded SFS_VOLNAME_SIZE []) (replicate 118 0)) 0 (MkArray 0 0 0 []) 0 ex_freemap (0, 0) 0.

Definition ex_vnode : vnode := MkVnode 1 0 0 0 0 0 0 VOP_MAGIC.
Definition ex_file_inode : sfs_inode := MkInode 8192 SFS_TYPE_FILE 1 (5 :: replicate 14 0) 7 (replicate 110 0).
Definition ex_dir_inode : sfs_inode := MkInode 128 SFS_TYPE_DIR 1 (6 :: replicate 14 0) 0 (replicate 110 0).
Definition ex_state (i : sfs_inode) (ino : Z) : F (lhd_softc SimpleCard.t) :=
  MkF ex_disk ex_mem ex_fs (MkSv ex_vnode i ino 1) (KBASE + 2400).
Definition ex_file : F (lhd_softc SimpleCard.t) := ex_state ex_file_inode 4.
Definition ex_dir : F (lhd_softc SimpleCard.t) := ex_state ex_dir_inode SFS_ROOT_LOCATION.

Lemma ex_buffers_ok : buffers_ok ex_buffers.
Proof.
  split; try (split; [by vm_compute|split; [by vm_compute|]]);
    unfold kernel_range, USERTOP, MIPS_KSEG0, zero_area, scratch, dev_area, ex_laws, lhd_device_laws, range, ex_buffers, ex_lh_buf,
      KBASE, SFS_BLOCKSIZE, LHD_SECTSIZE; cbn; try lia.
Qed.

Lemma ex_dir_buffers_ok : dir_buffers_ok ex_buffers.
Proof.
  split; [split; by vm_compute|split; by vm_compute|].
  unfold dir_mem, zero_area, scratch, dev_area, ex_laws, lhd_device_laws, range, ex_buffers, ex_lh_buf, KBASE, sizeof_sfs_dir,
    SFS_NAMELEN, SFS_BLOCKSIZE, LHD_SECTSIZE; cbn; lia.
Qed.

Lemma ex_mem_ok : mem_ok ex_buffers ex_mem.
Proof.
  split; [done|]. intros x Hx. cbn. unfold zero_area, range, ex_buffers, KBASE, SFS_BLOCKSIZE in *. cbn in Hx.
  destruct (_ && _) eqn:?; [lia|done].
Qed.

Lemma ex_marked b : 0 ≤ b < 4096 → marked ex_fs b = (b <? 10) || (64 <=? b).
Proof.
  intros Hb. assert (forallb (λ b, Bool.eqb (marked ex_fs b) ((b <? 10) || (64 <=? b))) (seqZ 0 4096) = true) as H
    by (vm_compute; reflexivity).
  rewrite forallb_forall in H. apply Bool.eqb_prop, H, list_elem_of_In, elem_of_seqZ. lia.
Qed.

Lemma ex_fs_ok : fs_ok ex_fs.
Proof.
  split.
  - split; [by cbn|by vm_compute| |cbn; lia]. cbn [bits sfs_freemap ex_fs ex_freemap].
    rewrite !list.Forall_app, !list.Forall_cons, list.Forall_nil. split_and!; try (done || lia); apply Forall_replicate; lia.
  - by vm_compute.
  - by vm_compute.
  - intros b Hb. change (64 ≤ b < 4096) in Hb. rewrite ex_marked by lia. lia.
  - by vm_compute.
Qed.

(** The blocks of the file and of the directory *)
Lemma ex_file_blocks n : 0 ≤ n < MAXBLOCKS →
  fblock ex_disk ex_file_inode n = if n =? 0 then 5 else if n =? 15 then 8 else 0.
Proof.
  intros Hn. assert (forallb (λ n, fblock ex_disk ex_file_inode n =? if n =? 0 then 5 else if n =? 15 then 8 else 0)
    (seqZ 0 MAXBLOCKS) = true) as H by (vm_compute; reflexivity).
  rewrite forallb_forall in H. apply Z.eqb_eq, H, list_elem_of_In, elem_of_seqZ. lia.
Qed.

Lemma ex_dir_blocks n : 0 ≤ n < MAXBLOCKS → fblock ex_disk ex_dir_inode n = if n =? 0 then 6 else 0.
Proof.
  intros Hn. assert (forallb (λ n, fblock ex_disk ex_dir_inode n =? if n =? 0 then 6 else 0)
    (seqZ 0 MAXBLOCKS) = true) as H by (vm_compute; reflexivity).
  rewrite forallb_forall in H. apply Z.eqb_eq, H, list_elem_of_In, elem_of_seqZ. lia.
Qed.

Lemma ex_inode_wf size type b ind :
  is_u32 size → 0 ≤ type < 2 ^ 16 → is_u32 b → is_u32 ind →
  inode_wf (MkInode size type 1 (b :: replicate 14 0) ind (replicate 110 0)).
Proof.
  intros Hs Ht Hb Hi. split; cbn [sfi_size sfi_type sfi_linkcount sfi_direct sfi_indirect sfi_waste]; try done.
  - apply list.Forall_cons. split; [done|by apply Forall_replicate].
  - by apply Forall_replicate.
Qed.

Lemma ex_owns_file b : owns ex_disk ex_file_inode b → b = 5 ∨ b = 7 ∨ b = 8.
Proof.
  intros [Hb [->|(n & Hn & <-)]]; [by right; left|]. rewrite ex_file_blocks in * by done.
  destruct (n =? 0); [by left|]. destruct (n =? 15); [by right; right|done].
Qed.

Lemma ex_owns_dir b : owns ex_disk ex_dir_inode b → b = 6.
Proof.
  intros [Hb [->|(n & Hn & <-)]]; [done|]. rewrite ex_dir_blocks in * by done. by destruct (n =? 0).
Qed.

Lemma ex_in_use b : 0 < b < 10 → in_use ex_fs b.
Proof. intros Hb. split; [change (nblocks ex_fs) with 64; lia|]. rewrite ex_marked by lia. lia. Qed.

Lemma ex_file_file_ok : file_ok ex_fs ex_disk ex_file_inode.
Proof.
  split; [by apply ex_inode_wf| | |].
  - intros b Hb%ex_owns_file. apply ex_in_use. lia.
  - intros n m Hn Hm. rewrite !ex_file_blocks by done.
    destruct (Z.eqb_spec n 0), (Z.eqb_spec m 0), (Z.eqb_spec n 15), (Z.eqb_spec m 15); lia || done.
  - intros n Hn. rewrite ex_file_blocks by done. destruct (n =? 0); [done|]. by destruct (n =? 15).
Qed.

Lemma ex_dir_file_ok : file_ok ex_fs ex_disk ex_dir_inode.
Proof.
  split; [by apply ex_inode_wf| | |].
  - intros b Hb%ex_owns_dir. apply ex_in_use. lia.
  - intros n m Hn Hm. rewrite !ex_dir_blocks by done. destruct (Z.eqb_spec n 0), (Z.eqb_spec m 0); lia || done.
  - intros n Hn. rewrite ex_dir_blocks by done. by destruct (n =? 0).
Qed.

Lemma ex_disk_ok : dev_ok ex_disk.
Proof. done. Qed.

Lemma ex_file_is_file : file ex_buffers ex_file.
Proof. split; [split; [done|apply ex_mem_ok|apply ex_fs_ok|apply ex_file_file_ok]|by vm_compute]. Qed.

Lemma ex_dir_st_ok : st_ok ex_buffers ex_dir.
Proof. split; [done|apply ex_mem_ok|apply ex_fs_ok|apply ex_dir_file_ok]. Qed.

(** One entry, [ab], and a free one *)
Lemma ex_dir_entries :
  dentry ex_disk ex_dir_inode 0 = MkDir 9 (padded SFS_NAMELEN [97; 98]) ∧
  dentry ex_disk ex_dir_inode 1 = MkDir SFS_NOINO (padded SFS_NAMELEN []).
Proof. split; vm_compute; reflexivity. Qed.

Lemma ex_dir_is_dir : is_dir ex_buffers ex_dir 2.
Proof.
  split; [apply ex_dir_st_ok|done|done|by vm_compute|].
  assert (∀ a name, 0 ≤ a < 2 → dnamed (dentry ex_disk ex_dir_inode a) name → a = 0) as H.
  { intros a name Ha Hn. destruct (decide (a = 0)); [done|]. replace a with 1 in Hn by lia.
    destruct ex_dir_entries as [_ H1]. rewrite H1 in Hn. by destruct Hn. }
  intros a b name Ha Hb Hna Hnb. by rewrite (H a name), (H b name).
Qed.

(** 600 bytes at offset 8000, where the file has 192 more *)
Definition ex_uio (rw a : Z) : uio := MkUio (MkIovec a 600) 8000 600 UIO_SYSSPACE rw 0.

Lemma ex_request rw a :
  rw = UIO_READ ∨ rw = UIO_WRITE → KBASE + 8192 ≤ a ≤ KBASE + 16384 →
  request (t_vmspace := 0) ex_buffers (ex_uio rw a) rw.
Proof.
  intros Hrw Ha. unfold KBASE in Ha. split; [|done|by vm_compute|].
  - split; [done|]. split; [by cbn|]. split; [by vm_compute|]. split; [unfold is_u32; cbn; lia|]. left. split; [done|]. split; [done|]. cbn. lia.
  - unfold uio_mem, zero_area, scratch, dev_area, ex_laws, lhd_device_laws, range, ex_buffers, ex_lh_buf, KBASE, SFS_BLOCKSIZE, LHD_SECTSIZE.
    cbn. lia.
Qed.

Lemma sfs_read_spec_witness :
  wp safe (sfs_read (λ _, true) (λ _, true) 0 ex_buffers) (ex_file, ex_uio UIO_READ (KBASE + 8192))
    (λ _ t, t.2 = advance 192 (ex_uio UIO_READ (KBASE + 8192)) ∧
       umem (f_mem t.1) (ex_uio UIO_READ (KBASE + 8192)) 192 = ztake 600 (zdrop 8000 (contents ex_file)) ∧
       contents t.1 = contents ex_file ∧ file ex_buffers t.1)
    (λ e t, (dev_error e ∨ e = EFAULT ∧ UIO_SYSSPACE ≠ UIO_SYSSPACE) ∧ contents t.1 = contents ex_file ∧ file ex_buffers t.1).
Proof.
  apply (sfs_read_spec (λ _, true) (λ _, true) ex_buffers ex_buffers_ok ex_file (ex_uio UIO_READ (KBASE + 8192)));
    [apply ex_file_is_file|apply ex_request; [by left|unfold KBASE; lia]].
Defined.

Lemma sfs_write_spec_witness :
  wp safe (sfs_write (λ _, true) (λ _, true) 0 ex_buffers) (ex_file, ex_uio UIO_WRITE (KBASE + 8192))
    (λ _ t, t.2 = advance 600 (ex_uio UIO_WRITE (KBASE + 8192)) ∧
       contents t.1 = splice 8000 (umem ex_mem (ex_uio UIO_WRITE (KBASE + 8192)) 600) (contents ex_file) ∧ file ex_buffers t.1)
    (λ e t, write_error t.1 (ex_uio UIO_WRITE (KBASE + 8192)) e ∧ st_ok ex_buffers t.1 ∧
       ∀ x, 0 ≤ x < 8192 → ¬ (8000 ≤ x < 8000 + 600) → zlookup (contents t.1) x = zlookup (contents ex_file) x).
Proof.
  apply (sfs_write_spec (λ _, true) (λ _, true) ex_buffers ex_buffers_ok ex_file (ex_uio UIO_WRITE (KBASE + 8192)));
    [apply ex_file_is_file|apply ex_request; [by right|unfold KBASE; lia]|by vm_compute].
Defined.

Lemma sfs_write_read_roundtrip_witness :
  wp safe (sfs_write (λ _, true) (λ _, true) 0 ex_buffers;;
           upd_u (λ _, ex_uio UIO_READ (KBASE + 16384));;
           sfs_read (λ _, true) (λ _, true) 0 ex_buffers) (ex_file, ex_uio UIO_WRITE (KBASE + 8192))
    (λ _ t, umem (f_mem t.1) (ex_uio UIO_READ (KBASE + 16384)) 600 = umem ex_mem (ex_uio UIO_WRITE (KBASE + 8192)) 600 ∧
       contents t.1 = splice 8000 (umem ex_mem (ex_uio UIO_WRITE (KBASE + 8192)) 600) (contents ex_file))
    (λ e t, write_error t.1 (ex_uio UIO_WRITE (KBASE + 8192)) e ∨ dev_error e ∨ e = EFAULT).
Proof.
  apply (sfs_write_read_roundtrip (λ _, true) (λ _, true) ex_buffers ex_buffers_ok ex_file (ex_uio UIO_WRITE (KBASE + 8192))
    (ex_uio UIO_READ (KBASE + 16384)));
    [apply ex_file_is_file|apply ex_request; [by right|unfold KBASE; lia]|by vm_compute
    |apply ex_request; [by left|unfold KBASE; lia]|done|done].
Defined.

(** Writing to the file leaves the directory alone. *)
Lemma sfs_write_other_files_witness :
  wp safe (sfs_write (λ _, true) (λ _, true) 0 ex_buffers) (ex_file, ex_uio UIO_WRITE (KBASE + 8192))
    (λ _ t, apart t.1 ex_dir_inode ∧ ∀ x, 0 ≤ x < MAXSIZE → fbyte (f_dev t.1) ex_dir_inode x = fbyte ex_disk ex_dir_inode x)
    (λ _ t, apart t.1 ex_dir_inode ∧ ∀ x, 0 ≤ x < MAXSIZE → fbyte (f_dev t.1) ex_dir_inode x = fbyte ex_disk ex_dir_inode x).
Proof.
  apply (sfs_write_other_files (λ _, true) (λ _, true) ex_buffers ex_buffers_ok ex_file (ex_uio UIO_WRITE (KBASE + 8192)) ex_dir_inode);
    [apply ex_file_is_file|apply ex_request; [by right|unfold KBASE; lia]|].
  split; [apply ex_dir_file_ok|]. intros b ->%ex_owns_dir Hb%ex_owns_file. lia.
Defined.

(** 15 blocks are left: block 0 of the file stays, and so does block 15, the first one of
    the indirect block. *)
Lemma sfs_truncate_spec_witness :
  wp safe (sfs_truncate ex_buffers 7680) ex_file
    (λ _ s', file ex_buffers s' ∧ contents s' = ztake 7680 (contents ex_file) ∧
       (∀ n, 0 ≤ n < MAXBLOCKS →
          let kept := (n <? blocks_of 7680) || (SFS_NDIRECT <=? n) && (n =? blocks_of 7680) in
          let b := fblock ex_disk ex_file_inode n in
          fblock (f_dev s') (f_i s') n = (if kept then b else 0) ∧
          (b ≠ 0 → marked (f_fs s') b = kept)) ∧
       (∀ b, owns (f_dev s') (f_i s') b → owns ex_disk ex_file_inode b) ∧
       (∀ b, owns ex_disk ex_file_inode b → ¬ owns (f_dev s') (f_i s') b → marked (f_fs s') b = false) ∧
       (∀ b, 0 ≤ b → ¬ owns ex_disk ex_file_inode b → marked (f_fs s') b = marked ex_fs b ∧
          ∀ k, 0 ≤ k < SFS_BLOCKSIZE → b ≠ 0 → dbyte (f_dev s') b k = dbyte ex_disk b k))
    (λ e _, dev_error e).
Proof.
  apply (sfs_truncate_spec ex_buffers ex_buffers_ok ex_file 7680); [apply ex_file_is_file|].
  change (sfi_size (f_i ex_file)) with 8192. lia.
Defined.

(** The name [c] for inode 4 *)
Lemma sfs_dir_link_findname_witness :
  wp safe (slot ← sfs_dir_link (λ _, true) (λ _, true) 0 ex_buffers [99] 4;
           r ← sfs_dir_findname (λ _, true) (λ _, true) 0 ex_buffers [99];
           mret (slot, r.1)) ex_dir
    (λ a s', a.2 = Some (4, a.1) ∧ 0 ≤ a.1 ≤ 2 ∧ (a.1 < 2 → dfree (dentry ex_disk ex_dir_inode a.1)) ∧
       is_dir ex_buffers s' (Z.max 2 (a.1 + 1)) ∧
       ∀ x, 0 ≤ x < 2 → x ≠ a.1 → dentry (f_dev s') (f_i s') x = dentry ex_disk ex_dir_inode x)
    (λ e s', link_error ex_buffers ex_dir s' 2 [99] e ∨ dev_error e).
Proof.
  apply (sfs_dir_link_findname (λ _, true) (λ _, true) ex_buffers ex_buffers_ok ex_dir_buffers_ok ex_dir 2 [99] 4);
    [apply ex_dir_is_dir|apply list.Forall_cons; split; [done|apply list.Forall_nil; done]|done|done].
Defined.

Lemma sfs_dir_unlink_findname_witness :
  wp safe (sfs_dir_unlink (λ _, true) (λ _, true) 0 ex_buffers 0;;
           r ← sfs_dir_findname (λ _, true) (λ _, true) 0 ex_buffers [97; 98];
           mret r.1) ex_dir
    (λ r s', r = None ∧ is_dir ex_buffers s' 2 ∧
       ∀ x, 0 ≤ x < 2 → x ≠ 0 → dentry (f_dev s') (f_i s') x = dentry ex_disk ex_dir_inode x)
    (λ e s', dir_error s' 0 e ∨ dev_error e).
Proof.
  apply (sfs_dir_unlink_findname (λ _, true) (λ _, true) ex_buffers ex_buffers_ok ex_dir_buffers_ok ex_dir 2 [97; 98] 0);
    [apply ex_dir_is_dir|done|vm_compute; split; congruence].
Defined.

Lemma sfs_sync_inode_spec_witness :
  wp safe sfs_sync_inode ex_file
    (λ _ s', inode_of (sector (f_dev s') 4) = ex_file_inode ∧ f_sv s' = with_dirty 0 (f_sv ex_file) ∧
       (∀ b k, 0 ≤ k < SFS_BLOCKSIZE → b ≠ 4 → dbyte (f_dev s') b k = dbyte ex_disk b k))
    (λ e s', dev_error e ∧ f_sv s' = f_sv ex_file ∧ same_disk ex_disk (f_dev s')).
Proof.
  apply (sfs_sync_inode_spec ex_buffers ex_file); [apply ex_file_is_file|done| |done].
  split; [by vm_compute|]. split; [by vm_compute|].
  unfold dev_area, ex_laws, lhd_device_laws, range, ex_lh_buf, KBASE, SFS_BLOCKSIZE, LHD_SECTSIZE. cbn [f_at ex_file ex_state sv_i_at]. unfold sv_i_at, KBASE. intros x Hx1 Hx2. lia.
Defined.
