(* ===== verification/Libc.v ===== *)
(** * The C library: memory blocks and strings

    Model of the functions of lib/libc that the kernel and the user programs share
    (memcpy.c, memmove.c, bzero.c, strlen.c, strcpy.c, strcat.c, strcmp.c, strchr.c,
    strrchr.c, strtok_r.c, atoi.c), and of memset.c and memcmp.c. The state is memory, a
    byte for every address. A [char] is signed on this machine, a [long] is four bytes,
    most significant first. A loop without a counter has [fuel], and does not return
    without it. *)

From Stdlib Require Import ZArith Lia.
From stdpp Require Import base list gmap numbers.
From S2P Require Import Prelude SfsData.

Local Open Scope Z_scope.

Definition mem : Type := Z → Z.
Implicit Types m : mem.

Definition NULL : Z := 0.
Definition sizeof_long : Z := 4.

(** The value of a [char] *)
Definition s8 (x : Z) : Z := (x + 2 ^ 7) `mod` 2 ^ 8 - 2 ^ 7.

Definition set_mem (a x : Z) m : mem := λ y, if y =? a then x else m y.
Definition ldb (a : Z) : M mem Z := gets (λ m, m a).
Definition stb (a x : Z) : M mem () := modify (set_mem a x).
Definition ldw (a : Z) : M mem Z := gets (λ m, word32 (m a) (m (a + 1)) (m (a + 2)) (m (a + 3))).
Definition stw (a w : Z) : M mem () :=
  modify (λ m x, if (a <=? x) && (x <? a + 4) then default 0 (zlookup (be32 w) (x - a)) else m x).

Section functions.
Context (fuel : nat).

(** ** Blocks of memory *)

(** [d[i] = s[i]] for [long] and for [char] *)
Definition copy_word (d s i : Z) : M mem () := w ← ldw (s + sizeof_long * i); stw (d + sizeof_long * i) w.
Definition copy_byte (d s i : Z) : M mem () := c ← ldb (s + i); stb (d + i) c.

Definition all_aligned (dst src len : Z) : bool :=
  (dst `mod` sizeof_long =? 0) && (src `mod` sizeof_long =? 0) && (len `mod` sizeof_long =? 0).

Definition memcpy (dst src len : Z) : M mem Z :=
  (if all_aligned dst src len then for_range 0 (len / sizeof_long) (copy_word dst src)
   else for_range 0 len (copy_byte dst src));;
  mret dst.

(** [for (i=n; i>0; i--)]; [f] gets [i-1]. *)
Definition for_down (n : Z) (f : Z → M mem ()) : M mem () := for_range 0 n (λ k, f (n - k - 1)).

Definition memmove (dst src len : Z) : M mem Z :=
  if dst <? src then memcpy dst src len else
  (if all_aligned dst src len then for_down (len / sizeof_long) (copy_word dst src)
   else for_down len (copy_byte dst src));;
  mret dst.

Definition bzero (block len : Z) : M mem () :=
  if (block `mod` sizeof_long =? 0) && (len `mod` sizeof_long =? 0) then
    for_range 0 (len / sizeof_long) (λ i, stw (block + sizeof_long * i) 0)
  else for_range 0 len (λ i, stb (block + i) 0).

Definition memset (ptr ch len : Z) : M mem Z :=
  for_range 0 len (λ i, stb (ptr + i) (u8 ch));;
  mret ptr.

Fixpoint memcmp_from (fuel : nat) (a b i len : Z) : M mem Z :=
  match fuel with
  | O => noreturn
  | S fuel =>
    if i <? len then
      x ← ldb (a + i);
      y ← ldb (b + i);
      if negb (x =? y) then mret (x - y) else memcmp_from fuel a b (i + 1) len
    else mret 0
  end.
Definition memcmp (a b len : Z) : M mem Z := memcmp_from fuel a b 0 len.

(** ** Strings *)

Fixpoint strlen_from (fuel : nat) (s ret : Z) : M mem Z :=
  match fuel with
  | O => noreturn
  | S fuel =>
    c ← ldb (s + ret);
    if c =? 0 then mret ret else strlen_from fuel s (u32 (ret + 1))
  end.
Definition strlen (s : Z) : M mem Z := strlen_from fuel s 0.

Fixpoint strcpy_from (fuel : nat) (dest src i : Z) : M mem () :=
  match fuel with
  | O => noreturn
  | S fuel =>
    c ← ldb (src + i);
    if c =? 0 then stb (dest + i) 0 else stb (dest + i) c;; strcpy_from fuel dest src (u32 (i + 1))
  end.
Definition strcpy (dest src : Z) : M mem Z := strcpy_from fuel dest src 0;; mret dest.

Definition strcat (dest src : Z) : M mem Z :=
  offset ← strlen dest;
  strcpy (dest + offset) src;;
  mret dest.

Fixpoint strcmp_from (fuel : nat) (a b i : Z) : M mem Z :=
  match fuel with
  | O => noreturn
  | S fuel =>
    x ← ldb (a + i);
    y ← ldb (b + i);
    if negb (x =? 0) && (x =? y) then strcmp_from fuel a b (u32 (i + 1))
    else mret (if s8 y <? s8 x then 1 else if s8 x =? s8 y then 0 else -1)
  end.
Definition strcmp (a b : Z) : M mem Z := strcmp_from fuel a b 0.

Fixpoint strchr_from (fuel : nat) (s ch : Z) : M mem Z :=
  match fuel with
  | O => noreturn
  | S fuel =>
    c ← ldb s;
    if c =? 0 then mret (if s8 c =? ch then s else NULL)
    else if s8 c =? ch then mret s
    else strchr_from fuel (s + 1) ch
  end.
Definition strchr (s ch : Z) : M mem Z := strchr_from fuel s ch.

Fixpoint strrchr_from (i : nat) (s ch : Z) : M mem Z :=
  match i with
  | O => mret NULL
  | S i =>
    c ← ldb (s + Z.of_nat i);
    if s8 c =? ch then mret (s + Z.of_nat i) else strrchr_from i s ch
  end.
Definition strrchr (s ch : Z) : M mem Z :=
  n ← strlen s;
  strrchr_from (Z.to_nat (u32 (n + 1))) s ch.

(** The loops of [strtok_r]: on to the first character whose membership in the separators
    is not [skip] *)
Fixpoint span (fuel : nat) (skip : bool) (seps p : Z) : M mem Z :=
  match fuel with
  | O => noreturn
  | S fuel' =>
    c ← ldb p;
    if c =? 0 then mret p else
    r ← strchr seps (s8 c);
    if Bool.eqb (negb (r =? NULL)) skip then span fuel' skip seps (p + 1) else mret p
  end.

(** The word, and the new value of [*context] *)
Definition strtok_r (string seps context : Z) : M mem (Z * Z) :=
  let head := if negb (string =? NULL) then string else context in
  if head =? NULL then mret (NULL, head) else
  head ← span fuel true seps head;
  c ← ldb head;
  if c =? 0 then mret (NULL, NULL) else
  tail ← span fuel false seps head;
  c ← ldb tail;
  if c =? 0 then mret (head, NULL) else
  stb tail 0;;
  mret (head, tail + 1).

(** ** Numbers *)

Fixpoint skip_white (fuel : nat) (s : Z) : M mem Z :=
  match fuel with
  | O => noreturn
  | S fuel =>
    c ← ldb s;
    if (c =? 32) || (c =? 9) then skip_white fuel (s + 1) else mret s
  end.

(** [digits] is the address of the static string of that name. *)
Fixpoint atoi_digits (fuel' : nat) (digits s val : Z) : M mem Z :=
  match fuel' with
  | O => noreturn
  | S fuel' =>
    c ← ldb s;
    if c =? 0 then mret val else
    where_ ← strchr digits (s8 c);
    if where_ =? NULL then mret val else
    let digit := u32 (where_ - digits) in
    atoi_digits fuel' digits (s + 1) (u32 (u32 (val * 10) + digit))
  end.

Definition atoi (digits s : Z) : M mem Z :=
  s ← skip_white fuel s;
  c ← ldb s;
  let neg := c =? 45 in
  let s := if (c =? 45) || (c =? 43) then s + 1 else s in
  val ← atoi_digits fuel digits s 0;
  mret (s32 (if neg then u32 (- val) else val)).
End functions.

(** ** Blocks of memory: what the functions do *)

Definition bytes_ok m : Prop := ∀ x, 0 ≤ m x < 2 ^ 8.

(** [len] bytes from [src] at [dst], all at once *)
Definition copied (dst src len : Z) m : mem :=
  λ x, if (dst <=? x) && (x <? dst + len) then m (src + (x - dst)) else m x.

Lemma copy_byte_ok d s i m (Q : () → mem → Prop) E :
  (∀ m', (∀ x, m' x = copied (d + i) (s + i) 1 m x) → Q tt m') → wp safe (copy_byte d s i) m Q E.
Proof.
  intros HQ. unfold copy_byte, ldb, stb. wp_steps. apply HQ. intros x. unfold set_mem, copied.
  destruct (Z.eqb_spec x (d + i)) as [->|], (_ && _) eqn:?; try lia. f_equal. lia.
Qed.

Lemma copy_word_ok d s i m (Q : () → mem → Prop) E :
  bytes_ok m →
  (∀ m', (∀ x, m' x = copied (d + sizeof_long * i) (s + sizeof_long * i) sizeof_long m x) → Q tt m') →
  wp safe (copy_word d s i) m Q E.
Proof.
  intros Hm HQ. unfold copy_word, ldw, stw. wp_steps. apply HQ. intros x. unfold copied, sizeof_long.
  rewrite be32_word32 by apply Hm. destruct (_ && _) eqn:Hx; [|done].
  assert (x - (d + 4 * i) = 0 ∨ x - (d + 4 * i) = 1 ∨ x - (d + 4 * i) = 2 ∨ x - (d + 4 * i) = 3) as [E' | [E' | [E' | E']]] by lia;
    rewrite E'; [rewrite Z.add_0_r|..]; reflexivity.
Qed.

(** A loop that copies upwards in pieces of [u] bytes, from below or from elsewhere *)
Definition up_safe (dst src len : Z) : Prop := dst ≤ src ∨ src + len ≤ dst.

Lemma copied_up dst src len u i m m1 m2 :
  0 < u → 0 ≤ i → u * (i + 1) ≤ len → up_safe dst src len →
  (∀ x, m1 x = copied dst src (u * i) m x) →
  (∀ x, m2 x = copied (dst + u * i) (src + u * i) u m1 x) →
  ∀ x, m2 x = copied dst src (u * (i + 1)) m x.
Proof.
  intros Hu Hi Hlen Hs H1 H2 x. rewrite H2. unfold copied. rewrite !H1. unfold copied.
  destruct ((dst + u * i <=? x) && _) eqn:Ha.
  - replace (src + u * i + (x - (dst + u * i))) with (src + (x - dst)) by lia.
    destruct ((dst <=? src + (x - dst)) && _) eqn:Hb; [exfalso; destruct Hs; lia|].
    by destruct ((dst <=? x) && _) eqn:Hc; [|lia].
  - destruct ((dst <=? x) && (x <? dst + u * i)) eqn:Hb, ((dst <=? x) && (x <? dst + u * (i + 1))) eqn:Hc; lia || done.
Qed.

(** A loop that copies downwards; [k] pieces are done. *)
Lemma copied_down dst src n u k m m1 m2 :
  0 < u → 0 ≤ k < n → src ≤ dst →
  (∀ x, m1 x = copied (dst + u * (n - k)) (src + u * (n - k)) (u * k) m x) →
  (∀ x, m2 x = copied (dst + u * (n - k - 1)) (src + u * (n - k - 1)) u m1 x) →
  ∀ x, m2 x = copied (dst + u * (n - (k + 1))) (src + u * (n - (k + 1))) (u * (k + 1)) m x.
Proof.
  intros Hu Hk Hs H1 H2 x. rewrite H2. unfold copied. rewrite !H1. unfold copied.
  replace (n - (k + 1)) with (n - k - 1) by lia. set (a := n - k - 1) in *. replace (n - k) with (a + 1) in * by lia.
  assert (u * (a + 1) = u * a + u) as Ea by lia. assert (u * (k + 1) = u * k + u) as Ek by lia. rewrite Ea, Ek. clear Ea Ek.
  destruct ((dst + u * a <=? x) && (x <? dst + u * a + u)) eqn:Ha.
  - destruct ((dst + (u * a + u) <=? src + u * a + (x - (dst + u * a))) && _) eqn:Hb; [exfalso; lia|].
    by destruct ((dst + u * a <=? x) && (x <? dst + u * a + (u * k + u))) eqn:Hc; [|nia].
  - destruct ((dst + (u * a + u) <=? x) && _) eqn:Hb, ((dst + u * a <=? x) && (x <? dst + u * a + (u * k + u))) eqn:Hc; try lia; try done.
    f_equal. lia.
Qed.

Lemma copied_bytes_ok dst src len m m' : bytes_ok m → (∀ x, m' x = copied dst src len m x) → bytes_ok m'.
Proof. intros Hm H x. rewrite H. unfold copied. destruct (_ && _); apply Hm. Qed.

Lemma copied_0 dst src m x : copied dst src 0 m x = m x.
Proof. unfold copied. by destruct (_ && _) eqn:?; [lia|]. Qed.

Lemma aligned_len len : 0 ≤ len → (len `mod` sizeof_long =? 0) = true → len = sizeof_long * (len / sizeof_long).
Proof. unfold sizeof_long. intros. Z.div_mod_to_equations; lia. Qed.

Lemma libc_memcpy_ok dst src len m (Q : Z → mem → Prop) E :
  bytes_ok m → 0 ≤ len → up_safe dst src len →
  (∀ m', (∀ x, m' x = copied dst src len m x) → Q dst m') →
  wp safe (memcpy dst src len) m Q E.
Proof.
  intros Hm Hlen Hs HQ. unfold memcpy. wp_steps. destruct (all_aligned dst src len) eqn:Ha.
  - unfold all_aligned in Ha. apply andb_prop in Ha as [_ Hl]. apply aligned_len in Hl; [|done].
    set (n := len / sizeof_long) in *. assert (0 ≤ n) as Hn by (unfold sizeof_long in *; lia).
    apply (wp_for_range _ _ (λ i m1, ∀ x, m1 x = copied dst src (sizeof_long * i) m x)); [done| | |].
    + intros i m1 Hi H1. apply copy_word_ok; [by eapply copied_bytes_ok|]. intros m2 H2.
      apply (copied_up dst src len sizeof_long i m m1); [done|lia|unfold sizeof_long in *; lia|done|done|done].
    + intros x. by rewrite Z.mul_0_r, copied_0.
    + intros m' H'. wp_steps. apply HQ. intros x. rewrite H'. by rewrite Z.add_0_l, <- Hl.
  - apply (wp_for_range _ _ (λ i m1, ∀ x, m1 x = copied dst src (1 * i) m x)); [done| | |].
    + intros i m1 Hi H1. apply copy_byte_ok. intros m2 H2.
      apply (copied_up dst src len 1 i m m1); [done|lia|lia|done|done|]. intros x. rewrite H2. by rewrite Z.mul_1_l.
    + intros x. by rewrite Z.mul_0_r, copied_0.
    + intros m' H'. wp_steps. apply HQ. intros x. rewrite H'. by rewrite Z.mul_1_l.
Qed.

Lemma memmove_ok dst src len m (Q : Z → mem → Prop) E :
  bytes_ok m → 0 ≤ len →
  (∀ m', (∀ x, m' x = copied dst src len m x) → Q dst m') →
  wp safe (memmove dst src len) m Q E.
Proof.
  intros Hm Hlen HQ. unfold memmove. destruct (Z.ltb_spec dst src); [apply libc_memcpy_ok; [done|done|left; lia|done]|].
  wp_steps. unfold for_down. destruct (all_aligned dst src len) eqn:Ha.
  - unfold all_aligned in Ha. apply andb_prop in Ha as [_ Hl]. apply aligned_len in Hl; [|done].
    set (n := len / sizeof_long) in *. assert (0 ≤ n) as Hn by (unfold sizeof_long in *; lia).
    apply (wp_for_range _ _ (λ k m1, ∀ x, m1 x =
      copied (dst + sizeof_long * (n - k)) (src + sizeof_long * (n - k)) (sizeof_long * k) m x)); [done| | |].
    + intros k m1 Hk H1. apply copy_word_ok; [by eapply copied_bytes_ok|]. intros m2 H2.
      apply (copied_down dst src n sizeof_long k m m1); [done|lia|lia|done|done].
    + intros x. by rewrite Z.mul_0_r, copied_0.
    + intros m' H'. wp_steps. apply HQ. intros x. rewrite H', Z.add_0_l, Z.sub_diag, Z.mul_0_r, !Z.add_0_r. by rewrite <- Hl.
  - apply (wp_for_range _ _ (λ k m1, ∀ x, m1 x = copied (dst + 1 * (len - k)) (src + 1 * (len - k)) (1 * k) m x)); [done| | |].
    + intros k m1 Hk H1. apply copy_byte_ok. intros m2 H2.
      apply (copied_down dst src len 1 k m m1); [done|lia|lia|done|]. intros x. rewrite H2. by rewrite Z.mul_1_l.
    + intros x. by rewrite Z.mul_0_r, copied_0.
    + intros m' H'. wp_steps. apply HQ. intros x. rewrite H', Z.add_0_l, Z.sub_diag, Z.mul_0_r, !Z.add_0_r. by rewrite Z.mul_1_l.
Qed.
