(* ===== verification/LibcStr.v ===== *)
(** * The C library: what the string functions do

    [cstr m a s]: memory has the characters [s] from [a] on, and a zero behind them. *)

From Stdlib Require Import ZArith Lia.
From stdpp Require Import base list gmap numbers.
From S2P Require Import Prelude SfsData Libc.

Local Open Scope Z_scope.

Implicit Types (m : mem) (s t : list Z).

(** A character of a string *)
Definition is_char (c : Z) : Prop := 0 < c < 2 ^ 8.

Fixpoint cstr m (a : Z) s : Prop :=
  match s with
  | [] => m a = 0
  | c :: s => m a = c ∧ is_char c ∧ cstr m (a + 1) s
  end.

Notation len s := (Z.of_nat (length s)).

Lemma cstr_ext m m' a s :
  cstr m a s → (∀ x, a ≤ x ≤ a + len s → m' x = m x) → cstr m' a s.
Proof.
  revert a. induction s as [|c s IH]; intros a; cbn.
  - intros H He. rewrite He by lia. done.
  - intros (H & Hc & Hs) He. split; [rewrite He by lia; done|]. split; [done|]. apply IH; [done|]. intros x Hx. apply He. lia.
Qed.

(** The same string somewhere else *)
Lemma cstr_moved m m' a b s :
  cstr m a s → (∀ k, 0 ≤ k ≤ len s → m' (b + k) = m (a + k)) → cstr m' b s.
Proof.
  revert a b. induction s as [|c s IH]; intros a b; cbn.
  - intros H He. specialize (He 0). rewrite !Z.add_0_r in He. rewrite He by lia. done.
  - intros (H & Hc & Hs) He. pose proof (He 0 ltac:(lia)) as H0. rewrite !Z.add_0_r in H0. split; [by rewrite H0|]. split; [done|].
    apply (IH (a + 1)); [done|]. intros k Hk. rewrite <- !Z.add_assoc. apply He. lia.
Qed.

Lemma cstr_app m a s t : cstr m a (s ++ t) → Forall is_char s ∧ cstr m (a + len s) t.
Proof.
  revert a. induction s as [|c s IH]; intros a; cbn [app cstr length].
  - intros H. split; [apply list.Forall_nil; done|by rewrite Z.add_0_r].
  - intros (H & Hc & Hs). destruct (IH _ Hs) as [Hf Ht]. split; [by apply list.Forall_cons|].
    by replace (a + Z.of_nat (S (length s))) with (a + 1 + len s) by lia.
Qed.

Lemma cstr_lookup m a s (k : nat) c : cstr m a s → s !! k = Some c → m (a + Z.of_nat k) = c ∧ is_char c.
Proof.
  revert a k. induction s as [|d s IH]; intros a k; [done|]. intros (H & Hc & Hs). destruct k as [|k].
  - intros [= <-]. by rewrite Z.add_0_r.
  - intros Hk. destruct (IH (a + 1) k Hs Hk) as [Hm Hch].
    by replace (a + Z.of_nat (S k)) with (a + 1 + Z.of_nat k) by lia.
Qed.

Lemma cstr_end m a s : cstr m a s → m (a + len s) = 0.
Proof.
  intros H. rewrite <- (app_nil_r s) in H. by destruct (cstr_app _ _ _ _ H) as [_ ?].
Qed.

Lemma cstr_join m a s t :
  (∀ (k : nat) c, s !! k = Some c → m (a + Z.of_nat k) = c ∧ is_char c) → cstr m (a + len s) t → cstr m a (s ++ t).
Proof.
  revert a. induction s as [|c s IH]; intros a Hs Ht; cbn [app cstr length] in *.
  - by rewrite Z.add_0_r in Ht.
  - destruct (Hs 0%nat c eq_refl) as [Hc Hch]. rewrite Z.add_0_r in Hc. split; [done|]. split; [done|]. apply IH.
    + intros k d Hk. destruct (Hs (S k) d Hk). by replace (a + 1 + Z.of_nat k) with (a + Z.of_nat (S k)) by lia.
    + by replace (a + 1 + len s) with (a + Z.of_nat (S (length s))) by lia.
Qed.

(** A memory has one string at an address. *)
Lemma cstr_unique m a s t : cstr m a s → cstr m a t → s = t.
Proof.
  revert a t. induction s as [|c s IH]; intros a [|d t]; cbn; try done.
  - intros H (H' & Hd & _). unfold is_char in Hd. lia.
  - intros (H & Hc & _) H'. unfold is_char in Hc. lia.
  - intros (H & Hc & Hs) (H' & Hd & Ht). f_equal; [congruence|by apply (IH (a + 1))].
Qed.

Lemma is_char_ne c : is_char c → (c =? 0) = false.
Proof. unfold is_char. lia. Qed.

Lemma s8_inj c d : 0 ≤ c < 2 ^ 8 → 0 ≤ d < 2 ^ 8 → s8 c = s8 d → c = d.
Proof. unfold s8. intros. Z.div_mod_to_equations; lia. Qed.

Section spec.
Context (fuel : nat).

Lemma strlen_from_ok f a ret s m (Q : Z → mem → Prop) E :
  cstr m (a + ret) s → (length s < f)%nat → 0 ≤ ret → ret + len s < 2 ^ 32 →
  Q (ret + len s) m → wp safe (strlen_from f a ret) m Q E.
Proof.
  revert f ret. induction s as [|c s IH]; intros [|f] ret Hs Hf Hr Hl HQ; cbn in Hf; try lia; cbn [strlen_from]; unfold ldb; wp_steps.
  - cbn in Hs. rewrite Hs. cbn. wp_steps. by rewrite Z.add_0_r in HQ.
  - destruct Hs as (H & Hc & Hs). rewrite H, is_char_ne by done. cbn [length] in Hl, HQ. rewrite u32_small by lia.
    apply IH; [by rewrite Z.add_assoc|lia|lia|lia|]. by replace (ret + 1 + len s) with (ret + Z.of_nat (S (length s))) by lia.
Qed.

Lemma strlen_ok a s m (Q : Z → mem → Prop) E :
  cstr m a s → (length s < fuel)%nat → len s < 2 ^ 32 → Q (len s) m → wp safe (strlen fuel a) m Q E.
Proof. intros. apply (strlen_from_ok fuel a 0 s); [by rewrite Z.add_0_r|done|lia|lia|done]. Qed.

Lemma set_copied dst src i c m :
  m (src + i) = c → ∀ x, set_mem (dst + i) c m x = copied (dst + 1 * i) (src + 1 * i) 1 m x.
Proof.
  intros Hc x. unfold set_mem, copied. rewrite !Z.mul_1_l. destruct (Z.eqb_spec x (dst + i)) as [->|], (_ && _) eqn:?; try lia.
  rewrite <- Hc. f_equal. lia.
Qed.

Lemma strcpy_from_ok f dst src n i s m0 m (Q : () → mem → Prop) E :
  cstr m0 (src + i) s → (length s < f)%nat → 0 ≤ i → n = i + len s + 1 → n ≤ 2 ^ 32 →
  up_safe dst src n →
  (∀ x, m x = copied dst src (1 * i) m0 x) →
  (∀ m', (∀ x, m' x = copied dst src n m0 x) → Q tt m') →
  wp safe (strcpy_from f dst src i) m Q E.
Proof.
  revert f i m. induction s as [|c s IH]; intros [|f] i m Hs Hf Hi Hn Hl Hup Hm HQ; cbn [length] in *; try lia;
    cbn [strcpy_from]; unfold ldb, stb; wp_steps;
    (assert (m (src + i) = m0 (src + i)) as Hsrc;
      [rewrite Hm; unfold copied; destruct (_ && _) eqn:Hb; [exfalso; destruct Hup; lia|done]|]).
  - rewrite Hsrc, Hs. cbn [Z.eqb]. wp_steps. cbn in Hs. rewrite Hs in Hsrc. apply HQ.
    pose proof (copied_up dst src n 1 i m0 m _ ltac:(lia) Hi ltac:(lia) Hup Hm (set_copied dst src i 0 m Hsrc)) as H.
    replace n with (1 * (i + 1)) by lia. exact H.
  - destruct Hs as (Hc & Hch & Hs). rewrite Hsrc, Hc, is_char_ne by done. rewrite Hc in Hsrc. wp_steps. rewrite u32_small by lia.
    apply IH; [by rewrite Z.add_assoc|lia|lia|lia|done|done| |done].
    apply (copied_up dst src n 1 i m0 m _ ltac:(lia) Hi ltac:(lia) Hup Hm (set_copied dst src i c m Hsrc)).
Qed.

Lemma strcpy_ok dst src s m (Q : Z → mem → Prop) E :
  cstr m src s → (length s < fuel)%nat → len s < 2 ^ 32 → up_safe dst src (len s + 1) →
  (∀ m', (∀ x, m' x = copied dst src (len s + 1) m x) → cstr m' dst s → Q dst m') →
  wp safe (strcpy fuel dst src) m Q E.
Proof.
  intros Hs Hf Hl Hup HQ. unfold strcpy. wp_steps.
  apply (strcpy_from_ok fuel dst src (len s + 1) 0 s m); [by rewrite Z.add_0_r|done|lia|lia|lia|done| |].
  - intros x. by rewrite copied_0.
  - intros m' Hm'. wp_steps. apply HQ; [done|]. eapply cstr_moved; [exact Hs|]. intros k Hk. rewrite Hm'. unfold copied.
    destruct (_ && _) eqn:?; [|lia]. f_equal. lia.
Qed.

(** [strcat]: the two strings one behind the other *)
Lemma strcat_ok dst src s t m (Q : Z → mem → Prop) E :
  cstr m dst s → cstr m src t → (length s < fuel)%nat → (length t < fuel)%nat → len s + len t < 2 ^ 32 →
  up_safe (dst + len s) src (len t + 1) →
  (∀ m', (∀ x, m' x = copied (dst + len s) src (len t + 1) m x) → cstr m' dst (s ++ t) → Q dst m') →
  wp safe (strcat fuel dst src) m Q E.
Proof.
  intros Hs Ht Hfs Hft Hl Hup HQ. unfold strcat. wp_steps. apply (strlen_ok dst s); [done|done|lia|]. wp_steps.
  apply (strcpy_ok _ _ t); [done|done|lia|done|]. intros m' Hm' Ht'. wp_steps. apply HQ; [done|].
  apply cstr_join; [|done]. intros k c Hk. pose proof (lookup_lt_Some _ _ _ Hk). rewrite Hm'. unfold copied.
  destruct (_ && _) eqn:?; [lia|]. by eapply cstr_lookup.
Qed.

(** ** Comparing *)

Definition csign (x y : Z) : Z := if s8 y <? s8 x then 1 else if s8 x =? s8 y then 0 else -1.

(** The order of two strings *)
Fixpoint scompare s t : Z :=
  match s, t with
  | [], [] => 0
  | [], d :: _ => csign 0 d
  | c :: _, [] => csign c 0
  | c :: s, d :: t => if c =? d then scompare s t else csign c d
  end.

Lemma csign_0 c d : 0 ≤ c < 2 ^ 8 → 0 ≤ d < 2 ^ 8 → csign c d = 0 → c = d.
Proof.
  intros Hc Hd. unfold csign. destruct (_ <? _); [done|]. destruct (Z.eqb_spec (s8 c) (s8 d)); [|done]. intros _. by apply s8_inj.
Qed.

Lemma csign_opp c d : csign d c = - csign c d.
Proof. unfold csign. destruct (Z.ltb_spec (s8 d) (s8 c)), (Z.ltb_spec (s8 c) (s8 d)), (Z.eqb_spec (s8 c) (s8 d)), (Z.eqb_spec (s8 d) (s8 c)); lia. Qed.

Lemma scompare_eq s t : Forall is_char s → Forall is_char t → scompare s t = 0 ↔ s = t.
Proof.
  intros Hs. revert t. induction Hs as [|c s Hc Hs IH]; intros t Ht; destruct Ht as [|d t Hd Ht]; cbn [scompare]; [done| | |].
  - split; [|done]. unfold is_char in *. intros ?%csign_0; lia.
  - split; [|done]. unfold is_char in *. intros ?%csign_0; lia.
  - destruct (Z.eqb_spec c d) as [->|Hne].
    + rewrite IH by done. split; [by intros ->|by intros [= ->]].
    + split; [|by intros [= ->]]. unfold is_char in *. intros ?%csign_0; lia.
Qed.

Lemma scompare_opp s t : scompare t s = - scompare s t.
Proof.
  revert t. induction s as [|c s IH]; intros [|d t]; cbn [scompare]; try done; try apply csign_opp.
  rewrite (Z.eqb_sym d c). destruct (c =? d); [done|apply csign_opp].
Qed.

Lemma strcmp_from_ok f a b i s t m (Q : Z → mem → Prop) E :
  cstr m (a + i) s → cstr m (b + i) t → (length s < f)%nat → 0 ≤ i → i + len s < 2 ^ 32 →
  Q (scompare s t) m → wp safe (strcmp_from f a b i) m Q E.
Proof.
  revert f t i. induction s as [|c s IH]; intros [|f] t i Hs Ht Hf Hi Hl HQ; cbn [length] in *; try lia;
    cbn [strcmp_from]; unfold ldb; wp_steps.
  - cbn in Hs. rewrite Hs. cbn [Z.eqb negb andb]. wp_steps. destruct t as [|d t]; cbn in Ht.
    + by rewrite Ht.
    + destruct Ht as (-> & _). exact HQ.
  - destruct Hs as (-> & Hc & Hs). rewrite is_char_ne by done. cbn [negb andb]. destruct t as [|d t].
    + cbn in Ht. rewrite Ht. rewrite is_char_ne by done. wp_steps. exact HQ.
    + destruct Ht as (-> & Hd & Ht). cbn [scompare] in HQ. destruct (c =? d).
      * rewrite u32_small by lia. apply (IH f t); [by rewrite Z.add_assoc|by rewrite Z.add_assoc|lia|lia|lia|done].
      * wp_steps. exact HQ.
Qed.

Lemma strcmp_ok a b s t m (Q : Z → mem → Prop) E :
  cstr m a s → cstr m b t → (length s < fuel)%nat → len s < 2 ^ 32 →
  Q (scompare s t) m → wp safe (strcmp fuel a b) m Q E.
Proof. intros. eapply (strcmp_from_ok fuel a b 0); rewrite ?Z.add_0_r; [done..|lia|lia|done]. Qed.

(** ** Searching *)

(** The first place of a character *)
Fixpoint find_char (ch : Z) s : option nat :=
  match s with
  | [] => None
  | c :: s => if s8 c =? ch then Some 0%nat else S <$> find_char ch s
  end.

Lemma find_char_spec c s : Forall is_char s → is_char c → is_Some (find_char (s8 c) s) ↔ c ∈ s.
Proof.
  intros Hs Hc. induction Hs as [|d s Hd Hs IH]; cbn [find_char]; [split; [by intros []|by intros ?%not_elem_of_nil]|].
  rewrite elem_of_cons, <- IH. destruct (Z.eqb_spec (s8 d) (s8 c)) as [He|He].
  - split; [|by eexists]. intros _. left. unfold is_char in *. symmetry. apply s8_inj; [lia|lia|done].
  - rewrite fmap_is_Some. split; [by right|]. by intros [->|].
Qed.

Lemma strchr_from_ok f a ch s m (Q : Z → mem → Prop) E :
  cstr m a s → (length s < f)%nat →
  Q (match find_char ch s with Some k => a + Z.of_nat k | None => if ch =? 0 then a + len s else NULL end) m →
  wp safe (strchr_from f a ch) m Q E.
Proof.
  revert f a Q. induction s as [|c s IH]; intros [|f] a Q Hs Hf HQ; cbn [length] in *; try lia;
    cbn [strchr_from]; unfold ldb; wp_steps.
  - cbn in Hs. rewrite Hs. cbn [Z.eqb]. wp_steps. change (s8 0) with 0. rewrite Z.eqb_sym.
    cbn [find_char] in HQ. by rewrite Z.add_0_r in HQ.
  - destruct Hs as (-> & Hc & Hs). rewrite is_char_ne by done. cbn [find_char] in HQ.
    destruct (s8 c =? ch); [wp_steps; by rewrite Z.add_0_r in HQ|].
    apply IH; [done|lia|]. destruct (find_char ch s) as [k|]; cbn [fmap option_fmap option_map] in HQ.
    + by replace (a + 1 + Z.of_nat k) with (a + Z.of_nat (S k)) by lia.
    + by replace (a + 1 + len s) with (a + Z.of_nat (S (length s))) by lia.
Qed.

(** Membership: the test the callers make *)
Lemma strchr_mem a c s m (Q : Z → mem → Prop) E :
  cstr m a s → (length s < fuel)%nat → is_char c → 0 < a →
  (∀ p, (p =? NULL) = negb (bool_decide (c ∈ s)) → Q p m) → wp safe (strchr fuel a (s8 c)) m Q E.
Proof.
  intros Hs Hf Hc Ha HQ. apply (strchr_from_ok fuel a _ s); [done|done|]. apply HQ.
  assert (Forall is_char s) as Hchars by (rewrite <- (app_nil_r s) in Hs; by destruct (cstr_app _ _ _ _ Hs)).
  pose proof (find_char_spec c s Hchars Hc) as Hf'. unfold NULL. destruct (find_char (s8 c) s) as [k|].
  - rewrite bool_decide_true by (apply Hf'; by eexists). cbn [negb]. apply Z.eqb_neq. clear - Ha. lia.
  - rewrite bool_decide_false by (intros [? ?]%Hf'; done).
    assert (s8 c ≠ 0) as Hn.
    { intros H0. assert (c = 0); [|unfold is_char in Hc; lia]. unfold is_char in Hc. apply s8_inj; [lia|lia|done]. }
    by destruct (Z.eqb_spec (s8 c) 0).
Qed.

(** The last place: [strrchr] looks at the end of the string too. *)
Definition is_last_char (ch : Z) (l : list Z) (r : option nat) : Prop :=
  match r with
  | Some k => (∃ c, l !! k = Some c ∧ s8 c = ch) ∧ ∀ j c, (k < j)%nat → l !! j = Some c → s8 c ≠ ch
  | None => ∀ j c, l !! j = Some c → s8 c ≠ ch
  end.

Lemma strrchr_from_ok a ch l m i (Q : Z → mem → Prop) E :
  (∀ (k : nat) c, l !! k = Some c → m (a + Z.of_nat k) = c) → (i ≤ length l)%nat →
  (∀ j c, (i ≤ j)%nat → l !! j = Some c → s8 c ≠ ch) →
  (∀ r, is_last_char ch l r → Q (match r with Some k => a + Z.of_nat k | None => NULL end) m) →
  wp safe (strrchr_from i a ch) m Q E.
Proof.
  intros Hm. induction i as [|i IH]; intros Hi Hno HQ; cbn [strrchr_from].
  - wp_steps. apply (HQ None). intros j c. apply Hno. lia.
  - destruct (lookup_lt_is_Some_2 l i) as [c Hc]; [lia|]. unfold ldb. wp_steps. rewrite (Hm i c Hc).
    destruct (Z.eqb_spec (s8 c) ch) as [He|He].
    + wp_steps. apply (HQ (Some i)). split; [by exists c|]. intros j d Hj. apply Hno. lia.
    + apply IH; [lia| |done]. intros j d Hj Hd. destruct (decide (j = i)) as [->|]; [congruence|]. apply (Hno j); [lia|done].
Qed.

Lemma strrchr_ok a ch s m (Q : Z → mem → Prop) E :
  cstr m a s → (length s < fuel)%nat → len s + 1 < 2 ^ 32 →
  (∀ r, is_last_char ch (s ++ [0]) r → Q (match r with Some k => a + Z.of_nat k | None => NULL end) m) →
  wp safe (strrchr fuel a ch) m Q E.
Proof.
  intros Hs Hf Hl HQ. unfold strrchr. wp_steps. apply (strlen_ok a s); [done|done|lia|]. rewrite u32_small by lia.
  replace (Z.to_nat (len s + 1)) with (length (s ++ [0])) by (rewrite length_app; cbn [length]; lia).
  apply (strrchr_from_ok a ch (s ++ [0])); [|done| |done].
  - intros k c [Hk|[Hk Hc]]%lookup_app_Some; [by eapply cstr_lookup|]. apply list_lookup_singleton_Some in Hc as [Hk0 <-].
    replace k with (length s) by lia. by apply cstr_end.
  - intros j c Hj Hc%lookup_lt_Some. lia.
Qed.

(** ** Words *)

(** How many characters at the start are separators ([b = true]), or are not *)
Fixpoint span_len (b : bool) (seps s : list Z) : nat :=
  match s with
  | [] => 0
  | c :: s => if Bool.eqb (bool_decide (c ∈ seps)) b then S (span_len b seps s) else 0
  end.

Lemma span_len_le b seps s : (span_len b seps s ≤ length s)%nat.
Proof. induction s as [|c s IH]; cbn; [done|]. destruct (Bool.eqb _ _); lia. Qed.

Lemma span_len_take b seps s c : c ∈ take (span_len b seps s) s → bool_decide (c ∈ seps) = b.
Proof.
  induction s as [|d s IH]; cbn; [by intros ?%not_elem_of_nil|]. destruct (Bool.eqb _ _) eqn:He; [|by intros ?%not_elem_of_nil].
  cbn. rewrite elem_of_cons. intros [->|]; [by apply Bool.eqb_prop|by apply IH].
Qed.

Lemma span_len_drop b seps s c t : drop (span_len b seps s) s = c :: t → bool_decide (c ∈ seps) = negb b.
Proof.
  induction s as [|d s IH]; cbn; [done|]. destruct (Bool.eqb _ _) eqn:He; cbn; [done|]. intros [= -> ->].
  by destruct (bool_decide _), b.
Qed.

Lemma span_ok f b sp seps p s m (Q : Z → mem → Prop) E :
  cstr m sp seps → (length seps < fuel)%nat → 0 < sp → cstr m p s → (length s < f)%nat →
  Q (p + Z.of_nat (span_len b seps s)) m → wp safe (span fuel f b sp p) m Q E.
Proof.
  intros Hsp Hf Ha. revert f p. induction s as [|c s IH]; intros [|f] p Hs Hfs HQ; cbn [length] in *; try lia;
    cbn [span]; unfold ldb; wp_steps; cbn [span_len] in HQ.
  - cbn in Hs. rewrite Hs. cbn [Z.eqb]. wp_steps. by rewrite Z.add_0_r in HQ.
  - destruct Hs as (-> & Hc & Hs). rewrite is_char_ne by done. wp_steps.
    apply (strchr_mem sp c seps); [done|done|done|done|]. intros r ->. rewrite negb_involutive.
    destruct (Bool.eqb _ b).
    + apply IH; [done|lia|]. by replace (p + 1 + Z.of_nat (span_len b seps s)) with (p + Z.of_nat (S (span_len b seps s))) by lia.
    + wp_steps. by rewrite Z.add_0_r in HQ.
Qed.

(** The words of a string *)
Definition emit (w : list Z) : list (list Z) := if w is [] then [] else [w].
Fixpoint tokens_from (acc seps s : list Z) : list (list Z) :=
  match s with
  | [] => emit acc
  | c :: s => if bool_decide (c ∈ seps) then emit acc ++ tokens_from [] seps s else tokens_from (acc ++ [c]) seps s
  end.
Definition tokens (seps s : list Z) : list (list Z) := tokens_from [] seps s.

Lemma tokens_skip seps s : tokens seps s = tokens seps (drop (span_len true seps s) s).
Proof.
  unfold tokens. induction s as [|c s IH]; [done|]. cbn. destruct (bool_decide _) eqn:He; cbn; [done|]. by rewrite He.
Qed.

Lemma tokens_word acc seps s :
  tokens_from acc seps s = tokens_from (acc ++ take (span_len false seps s) s) seps (drop (span_len false seps s) s).
Proof.
  revert acc. induction s as [|c s IH]; intros acc; cbn; [by rewrite app_nil_r|].
  destruct (bool_decide _) eqn:He; cbn; [by rewrite app_nil_r, He|]. rewrite IH. by rewrite <- app_assoc.
Qed.

Lemma cstr_drop m a s k : cstr m a s → (k ≤ length s)%nat → cstr m (a + Z.of_nat k) (drop k s).
Proof.
  intros Hs Hk. rewrite <- (take_drop k s) in Hs. apply cstr_app in Hs as [_ Hs]. rewrite length_take in Hs.
  by replace (Z.of_nat k) with (Z.of_nat (k `min` length s)) by lia.
Qed.

(** Ending a string at one of its characters *)
Lemma cstr_cut m a s k :
  cstr m a s → (k < length s)%nat →
  cstr (set_mem (a + Z.of_nat k) 0 m) a (take k s) ∧ cstr (set_mem (a + Z.of_nat k) 0 m) (a + Z.of_nat k + 1) (drop (S k) s).
Proof.
  intros Hs Hk. split.
  - rewrite <- (app_nil_r (take k s)). apply cstr_join.
    + intros j c [Hj Hlt]%lookup_take_Some. unfold set_mem. destruct (Z.eqb_spec (a + Z.of_nat j) (a + Z.of_nat k)); [lia|].
      by eapply cstr_lookup.
    + cbn. rewrite length_take. unfold set_mem. destruct (Z.eqb_spec (a + Z.of_nat (k `min` length s)) (a + Z.of_nat k)); [done|lia].
  - eapply (cstr_ext m).
    + replace (a + Z.of_nat k + 1) with (a + Z.of_nat (S k)) by lia. apply cstr_drop; [done|lia].
    + intros x Hx. unfold set_mem. destruct (Z.eqb_spec x (a + Z.of_nat k)); [lia|done].
Qed.

(** What is left of the string behind a word *)
Definition rest_at m (ctx e : Z) (rest : list Z) : Prop :=
  ctx = NULL ∧ rest = [] ∨ 0 < ctx ∧ cstr m ctx rest ∧ ctx + len rest = e.

Lemma strtok_r_ok string sp seps ctx p s m (Q : Z * Z → mem → Prop) E :
  cstr m sp seps → (length seps < fuel)%nat → 0 < sp →
  (if string =? NULL then ctx else string) = p → 0 < p → cstr m p s → (length s < fuel)%nat →
  (tokens seps s = [] → Q (NULL, NULL) m) →
  (∀ w rest h ctx' m',
     tokens seps s = w :: tokens seps rest → p ≤ h → h + len w + 1 + len rest ≤ p + len s + 1 →
     cstr m' h w → rest_at m' ctx' (p + len s) rest →
     (∀ x, x ≠ h + len w → m' x = m x) → (len w + h = p + len s → m' = m) → (ctx' ≠ NULL → ctx' = h + len w + 1) → Q (h, ctx') m') →
  wp safe (strtok_r fuel string sp ctx) m Q E.
Proof.
  intros Hsp Hfs Ha Hp Hp0 Hs Hf HQ0 HQ. unfold strtok_r. wp_steps.
  replace (if negb (string =? NULL) then string else ctx) with p by (rewrite <- Hp; by destruct (string =? NULL)).
  destruct (Z.eqb_spec p NULL); [unfold NULL in *; lia|]. wp_steps. set (k1 := span_len true seps s).
  pose proof (span_len_le true seps s) as Hk1. fold k1 in Hk1.
  apply (span_ok fuel true sp seps p s); [done|done|done|done|done|]. fold k1. unfold ldb. wp_steps.
  set (h := p + Z.of_nat k1). pose proof (cstr_drop m p s k1 Hs Hk1) as Hr. fold h in Hr.
  rewrite tokens_skip in HQ0, HQ. fold k1 in HQ0, HQ. pose proof (span_len_drop true seps s) as Hd. fold k1 in Hd.
  assert (len (drop k1 s) = len s - Z.of_nat k1) as Hlr by (rewrite length_drop; lia).
  destruct (drop k1 s) as [|c r] eqn:Er.
  { change (m h = 0) in Hr. rewrite Hr. cbn [Z.eqb]. wp_steps. by apply HQ0. }
  pose proof (Hd c r eq_refl) as Hc. cbn [negb] in Hc. pose proof Hr as (Hch & Hc' & _). rewrite Hch, is_char_ne by done.
  wp_steps. set (w0 := c :: r) in *. set (k2 := span_len false seps w0). pose proof (span_len_le false seps w0) as Hk2. fold k2 in Hk2.
  apply (span_ok fuel false sp seps h w0); [done|done|done|done|unfold w0 in *; lia|]. fold k2. wp_steps.
  pose proof (cstr_drop m h w0 k2 Hr Hk2) as Hr2. pose proof (tokens_word [] seps w0) as Ht. fold k2 in Ht. cbn [app] in Ht.
  assert (emit (take k2 w0) = [take k2 w0]) as Hemit by (unfold k2, w0; cbn; by rewrite Hc).
  assert (length (take k2 w0) = k2) as Hlt by (rewrite length_take; lia).
  assert (length (drop k2 w0) = length w0 - k2)%nat as Hld by apply length_drop.
  destruct (drop k2 w0) as [|d r2] eqn:Er2; cbn [length] in Hld.
  - change (m (h + Z.of_nat k2) = 0) in Hr2. rewrite Hr2. cbn [Z.eqb]. wp_steps.
    assert (take k2 w0 = w0) as Htw by (apply take_ge; lia). rewrite Htw in *.
    apply (HQ w0 [] h NULL m); [unfold tokens; rewrite Ht; cbn [tokens_from]; by rewrite Hemit|lia|cbn [length]; lia|done|by left|done|done|done].
  - pose proof Hr2 as (Hdm & Hdc & _). rewrite Hdm, is_char_ne by done. unfold stb. wp_steps.
    pose proof (span_len_drop false seps w0 d r2 Er2) as Hds. cbn [negb] in Hds.
    destruct (cstr_cut m h w0 k2 Hr ltac:(lia)) as [Hw Hrest].
    assert (drop (S k2) w0 = r2) as Hdr by (replace (S k2) with (k2 + 1)%nat by lia; rewrite <- drop_drop, Er2; done). rewrite Hdr in Hrest.
    apply (HQ (take k2 w0) r2 h).
    + unfold tokens. rewrite Ht. cbn [tokens_from]. by rewrite Hds, Hemit.
    + lia.
    + rewrite Hlt. lia.
    + done.
    + right. split; [lia|]. split; [done|]. lia.
    + rewrite Hlt. intros x Hx. unfold set_mem. destruct (Z.eqb_spec x (h + Z.of_nat k2)); [done|done].
    + rewrite Hlt. intros Hx. exfalso. lia.
    + rewrite Hlt. done.
Qed.
End spec.
