(* ===== verification/LibcTheorems.v ===== *)
(** The C library the kernel links, part three: numbers in strings, filled and compared
    blocks, and what the functions guarantee their callers. *)

From Stdlib Require Import ZArith Lia.
From stdpp Require Import base list gmap numbers.
From S2P Require Import Prelude SfsData Uio VmProof Libc LibcStr.

Local Open Scope Z_scope.

Implicit Types m : mem.
Implicit Types s t : list Z.

Notation len l := (Z.of_nat (length l)).

(** ** Numbers *)

Definition is_digit (c : Z) : bool := (48 <=? c) && (c <=? 57).

(** The value of the digits a string starts with, behind [v] *)
Fixpoint dec_val (v : Z) s : Z :=
  match s with
  | [] => v
  | c :: s => if is_digit c then dec_val (10 * v + (c - 48)) s else v
  end.

Definition is_white (c : Z) : bool := (c =? 32) || (c =? 9).
Fixpoint drop_white s : list Z :=
  match s with
  | [] => []
  | c :: s' => if is_white c then drop_white s' else s
  end.

(** The number a string denotes *)
Definition num_of s : Z :=
  match drop_white s with
  | 45 :: t => - dec_val 0 t
  | 43 :: t => dec_val 0 t
  | t => dec_val 0 t
  end.

Definition ten_digits : list Z := [48; 49; 50; 51; 52; 53; 54; 55; 56; 57].

Lemma find_digit c :
  is_char c → find_char (s8 c) ten_digits = if is_digit c then Some (Z.to_nat (c - 48)) else None.
Proof.
  intros Hc. unfold is_char in Hc. assert (s8 c = if c <? 128 then c else c - 256) as Hs.
  { unfold s8. destruct (Z.ltb_spec c 128); Z.div_mod_to_equations; lia. }
  unfold is_digit. destruct ((48 <=? c) && (c <=? 57)) eqn:Hd.
  - assert (c = 48 ∨ c = 49 ∨ c = 50 ∨ c = 51 ∨ c = 52 ∨ c = 53 ∨ c = 54 ∨ c = 55 ∨ c = 56 ∨ c = 57) as Hcs by lia.
    clear - Hcs. by destruct Hcs as [-> | [-> | [-> | [-> | [-> | [-> | [-> | [-> | [-> | ->]]]]]]]]].
  - assert (s8 c < 48 ∨ 57 < s8 c) as Hr by (rewrite Hs; destruct (Z.ltb_spec c 128); lia). clear - Hr.
    unfold ten_digits. cbn [find_char].
    repeat match goal with
      | |- context [s8 ?k =? s8 c] =>
        let Hk := fresh in assert ((s8 k =? s8 c) = false) as Hk by (apply Z.eqb_neq; change (s8 k) with k; lia); rewrite Hk; clear Hk
      end. done.
Qed.

Lemma u32_step v d : u32 (u32 (u32 v * 10) + d) = u32 (10 * v + d).
Proof. unfold u32. rewrite Zplus_mod_idemp_l, <- Zplus_mod_idemp_l, Zmult_mod_idemp_l, Zplus_mod_idemp_l. f_equal. lia. Qed.

Lemma s32_u32 x : s32 (u32 x) = s32 x.
Proof. unfold s32, u32. by rewrite Zplus_mod_idemp_l. Qed.

Lemma u32_opp x : u32 (- u32 x) = u32 (- x).
Proof. unfold u32. rewrite <- !Z.sub_0_l, Zminus_mod_idemp_r. done. Qed.

Section numbers.
Context (fuel : nat).

Lemma atoi_digits_ok f dg a v s m (Q : Z → mem → Prop) E :
  cstr m dg ten_digits → 0 < dg → (10 < fuel)%nat → cstr m a s → (length s < f)%nat →
  Q (u32 (dec_val v s)) m → wp safe (atoi_digits fuel f dg a (u32 v)) m Q E.
Proof.
  intros Hdg Hdg0 Hfuel. revert f a v. induction s as [|c s IH]; intros [|f] a v Hs Hf HQ; cbn [length] in *; try lia;
    cbn [atoi_digits dec_val] in *; unfold ldb; wp_steps.
  - cbn in Hs. rewrite Hs. cbn [Z.eqb]. by wp_steps.
  - destruct Hs as (-> & Hc & Hs). rewrite is_char_ne by done. wp_steps. unfold strchr.
    apply (strchr_from_ok fuel dg _ ten_digits); [done|done|]. rewrite find_digit by done. destruct (is_digit c) eqn:Hd.
    + destruct (Z.eqb_spec (dg + Z.of_nat (Z.to_nat (c - 48))) NULL) as [H0|_]; [unfold NULL in H0; lia|].
      unfold is_digit in Hd. apply andb_prop in Hd as [Hd1 Hd2]. apply Z.leb_le in Hd1, Hd2. unfold is_char in Hc.
      replace (dg + Z.of_nat (Z.to_nat (c - 48)) - dg) with (c - 48) by lia. rewrite (u32_small (c - 48)), u32_step by lia.
      apply IH; [done|lia|done].
    + assert ((s8 c =? 0) = false) as ->; [|cbn [NULL Z.eqb]; by wp_steps].
      apply Z.eqb_neq. intros H0. unfold is_char in Hc. assert (c = 0); [|lia]. apply s8_inj; [lia|lia|done].
Qed.

Lemma skip_white_ok f a s m (Q : Z → mem → Prop) E :
  cstr m a s → (length s < f)%nat →
  (∀ p, cstr m p (drop_white s) → Q p m) → wp safe (skip_white f a) m Q E.
Proof.
  revert f a. induction s as [|c s IH]; intros [|f] a Hs Hf HQ; cbn [length] in *; try lia;
    cbn [skip_white drop_white] in *; unfold ldb; wp_steps.
  - cbn in Hs. rewrite Hs. cbn [Z.eqb orb]. wp_steps. by apply HQ.
  - pose proof Hs as (-> & Hc & Hs'). fold (is_white c). destruct (is_white c).
    + apply IH; [done|lia|done].
    + wp_steps. by apply HQ.
Qed.

Lemma drop_white_length s : (length (drop_white s) ≤ length s)%nat.
Proof. induction s as [|c s IH]; [done|]. cbn. destruct (is_white c); cbn; lia. Qed.

Lemma num_of_minus s t : drop_white s = 45 :: t → num_of s = - dec_val 0 t.
Proof. unfold num_of. by intros ->. Qed.
Lemma num_of_plus s t : drop_white s = 43 :: t → num_of s = dec_val 0 t.
Proof. unfold num_of. by intros ->. Qed.
Lemma num_of_other s c t : drop_white s = c :: t → c ≠ 45 → c ≠ 43 → num_of s = dec_val 0 (c :: t).
Proof.
  unfold num_of. intros -> H1 H2. destruct c as [|p|p]; try done.
  do 6 (destruct p as [p|p|]; try done).
Qed.

Lemma atoi_ok dg a s m (Q : Z → mem → Prop) E :
  cstr m dg ten_digits → 0 < dg → (10 < fuel)%nat → cstr m a s → (length s < fuel)%nat →
  Q (s32 (num_of s)) m → wp safe (atoi fuel dg a) m Q E.
Proof.
  intros Hdg Hdg0 Hf Hs Hls HQ. unfold atoi. wp_steps. apply (skip_white_ok fuel a s); [done|done|]. intros p Hp. unfold ldb. wp_steps.
  pose proof (drop_white_length s) as Hl. destruct (drop_white s) as [|c t] eqn:Ed.
  - assert (num_of s = 0) as Hn by (unfold num_of; by rewrite Ed).
    change (m p = 0) in Hp. rewrite Hp. cbn [Z.eqb orb]. apply (atoi_digits_ok fuel dg p 0 []); [done|done|done|done|cbn; lia|].
    wp_steps. by rewrite Hn in HQ.
  - pose proof Hp as (-> & Hc & Ht). cbn [length] in Hl.
    destruct (Z.eqb_spec c 45) as [->|H45]; [|destruct (Z.eqb_spec c 43) as [->|H43]]; cbn [orb].
    + rewrite (num_of_minus s t) in HQ by done. apply (atoi_digits_ok fuel dg (p + 1) 0 t); [done|done|done|done|lia|].
      wp_steps. by rewrite u32_opp, s32_u32.
    + rewrite (num_of_plus s t) in HQ by done. apply (atoi_digits_ok fuel dg (p + 1) 0 t); [done|done|done|done|lia|].
      wp_steps. by rewrite s32_u32.
    + rewrite (num_of_other s c t) in HQ by done. apply (atoi_digits_ok fuel dg p 0 (c :: t)); [done|done|done|done|cbn [length]; lia|].
      wp_steps. by rewrite s32_u32.
Qed.
End numbers.

(** ** Blocks filled and compared *)

(** [len] bytes with the value [c] at [dst] *)
Definition filled (dst len c : Z) m : mem := λ x, if (dst <=? x) && (x <? dst + len) then c else m x.

Lemma filled_next dst i c m m1 :
  0 ≤ i → (∀ x, m1 x = filled dst i c m x) → ∀ x, set_mem (dst + i) c m1 x = filled dst (i + 1) c m x.
Proof.
  intros Hi H1 x. unfold set_mem. rewrite H1. unfold filled.
  destruct (Z.eqb_spec x (dst + i)), ((dst <=? x) && (x <? dst + i)) eqn:?, ((dst <=? x) && (x <? dst + (i + 1))) eqn:?; lia.
Qed.

Lemma filled_0 dst c m x : filled dst 0 c m x = m x.
Proof. unfold filled. by destruct (_ && _) eqn:?; [lia|]. Qed.

Lemma fill_bytes_ok dst len c m (Q : () → mem → Prop) E :
  0 ≤ len → (∀ m', (∀ x, m' x = filled dst len c m x) → Q tt m') →
  wp safe (for_range 0 len (λ i, stb (dst + i) c)) m Q E.
Proof.
  intros Hl HQ. apply (wp_for_range _ _ (λ i m1, ∀ x, m1 x = filled dst i c m x)); [done| | |].
  - intros i m1 Hi H1. unfold stb. wp_steps. apply filled_next; [lia|done].
  - intros x. by rewrite filled_0.
  - intros m' H'. by apply HQ.
Qed.

Lemma memset_ok dst ch len m (Q : Z → mem → Prop) E :
  0 ≤ len → (∀ m', (∀ x, m' x = filled dst len (u8 ch) m x) → Q dst m') → wp safe (memset dst ch len) m Q E.
Proof. intros Hl HQ. unfold memset. wp_steps. apply fill_bytes_ok; [done|]. intros m' H'. wp_steps. by apply HQ. Qed.

Lemma bzero_ok dst len m (Q : () → mem → Prop) E :
  0 ≤ len → (∀ m', (∀ x, m' x = filled dst len 0 m x) → Q tt m') → wp safe (bzero dst len) m Q E.
Proof.
  intros Hl HQ. unfold bzero. destruct (_ && _) eqn:Ha; [|by apply fill_bytes_ok].
  apply andb_prop in Ha as [_ Ha]. apply aligned_len in Ha; [|done]. set (n := len / sizeof_long) in *. unfold sizeof_long in *.
  apply (wp_for_range _ _ (λ i m1, ∀ x, m1 x = filled dst (4 * i) 0 m x)); [lia| | |].
  - intros i m1 Hi H1. unfold stw. wp_steps. intros x. rewrite H1. unfold filled.
    assert (∀ k, 0 ≤ k < 4 → zlookup (be32 0) k = Some 0) as Hz.
    { intros k Hk. assert (k = 0 ∨ k = 1 ∨ k = 2 ∨ k = 3) as Hc by lia. by destruct Hc as [-> | [-> | [-> | ->]]]. }
    destruct ((dst + 4 * i <=? x) && (x <? dst + 4 * i + 4)) eqn:Ha1, ((dst <=? x) && (x <? dst + 4 * (i + 1))) eqn:Ha2; try lia.
    + rewrite Hz by lia. done.
    + destruct ((dst <=? x) && (x <? dst + 4 * i)) eqn:Ha3; lia.
    + destruct ((dst <=? x) && (x <? dst + 4 * i)) eqn:Ha3; lia.
  - intros x. by rewrite filled_0.
  - intros m' H'. apply HQ. intros x. rewrite H', Ha. done.
Qed.

(** The difference of the first two bytes that differ *)
Fixpoint first_diff (bs cs : list Z) : Z :=
  match bs, cs with
  | b :: bs, c :: cs => if b =? c then first_diff bs cs else b - c
  | _, _ => 0
  end.

Definition block m (a : Z) (n : nat) : list Z := (λ k : nat, m (a + Z.of_nat k)) <$> seq 0 n.

Lemma first_diff_0 bs cs : length bs = length cs → first_diff bs cs = 0 ↔ bs = cs.
Proof.
  revert cs. induction bs as [|b bs IH]; intros [|c cs] Hl; try done. cbn in *.
  destruct (Z.eqb_spec b c) as [->|Hn].
  - rewrite IH by lia. split; [by intros ->|by intros [=]].
  - split; [lia|by intros [=]].
Qed.

Lemma block_cons m a n : block m a (S n) = m a :: block m (a + 1) n.
Proof.
  unfold block. cbn [seq fmap list_fmap]. rewrite Z.add_0_r. f_equal. rewrite <- fmap_S_seq, <- list_fmap_compose.
  apply list_fmap_ext. intros k x _. cbn [compose]. f_equal. lia.
Qed.

Lemma memcmp_from_ok f n a b i len m (Q : Z → mem → Prop) E :
  len = i + Z.of_nat n → (n < f)%nat →
  Q (first_diff (block m (a + i) n) (block m (b + i) n)) m → wp safe (memcmp_from f a b i len) m Q E.
Proof.
  revert f i. induction n as [|n IH]; intros [|f] i Hlen Hf HQ; try lia; cbn [memcmp_from].
  - replace (i <? len) with false by lia. by wp_steps.
  - replace (i <? len) with true by lia. unfold ldb. wp_steps. rewrite !block_cons in HQ. cbn [first_diff] in HQ.
    destruct (m (a + i) =? m (b + i)); cbn [negb]; [|by wp_steps]. apply IH; [lia|lia|]. by rewrite !Z.add_assoc.
Qed.

Lemma memcmp_ok fuel n a b m (Q : Z → mem → Prop) E :
  (n < fuel)%nat → Q (first_diff (block m a n) (block m b n)) m → wp safe (memcmp fuel a b (Z.of_nat n)) m Q E.
Proof. intros Hf HQ. apply (memcmp_from_ok fuel n); [lia|done|]. by rewrite !Z.add_0_r. Qed.

(** ** What the callers rely on *)

(** C10: Copying between blocks that may overlap: word by word or byte by byte, upwards or
    downwards as the addresses ask, [memmove] leaves at the destination what was at the
    source before the call, and every other byte as it was. *)
Theorem memmove_spec dst src len m :
  bytes_ok m → 0 ≤ len →
  wp safe (memmove dst src len) m (λ r m', r = dst ∧ ∀ x, m' x = copied dst src len m x) (λ _ _, False).
Proof. intros Hm Hl. by apply memmove_ok. Qed.

Definition ramp : mem := λ x, x `mod` 2 ^ 8.
Lemma ramp_bytes : bytes_ok ramp.
Proof. intros x. apply Z.mod_pos_bound. lia. Qed.

Lemma memmove_spec_witness :
  wp safe (memmove 1028 1024 12) ramp (λ r m', r = 1028 ∧ ∀ x, m' x = copied 1028 1024 12 ramp x) (λ _ _, False)
  ∧ block (copied 1028 1024 12 ramp) 1024 16 = [0; 1; 2; 3; 0; 1; 2; 3; 4; 5; 6; 7; 8; 9; 10; 11].
Proof. split; [apply (memmove_spec 1028 1024 12 ramp); [apply ramp_bytes|lia]|reflexivity]. Defined.
