(* ===== verification/Printf.v ===== *)
(** Formatted output: the guts of printf (lib/libc/__printf.c) over any function that
    takes the characters, and [snprintf] (lib/libc/snprintf.c).

    A string is the list of its bytes. An argument is one word (an [int], a [long] and a
    pointer are words on this machine) or a string, [None] being the null pointer; taking
    an argument that is not there, or a string for a number, is [undefined], and so is an
    overflow of an [int] or an access outside [buf]. *)

From Stdlib Require Import ZArith Lia Strings.String Strings.Ascii.
From stdpp Require Import base list gmap numbers.
From S2P Require Import Prelude Libc.

Local Open Scope Z_scope.

Definition chr (c : ascii) : Z := Z.of_nat (nat_of_ascii c).
Definition str (s : string) : list Z := chr <$> list_ascii_of_string s.
Arguments chr c%_char_scope.
Arguments str s%_string_scope.

Notation len l := (Z.of_nat (length l)).

Inductive va := VWord (w : Z) | VStr (s : option (list Z)).
Inductive intsize := INTSZ | LONGSZ.

Definition CHAR_BIT : Z := 8.
Definition NUMBER_BUF_SIZE : Z := sizeof_long * CHAR_BIT / 3 + 2.

Record PF (D : Type) := mk_PF {
  clientdata : D;
  ap : list va;
  charcount : Z;
  in_pct : bool;
  size : intsize;
  num : Z;
  sign : Z;
  spacing : Z;
  rightspc : bool;
  fillchar : Z;
  base : Z;
  baseprefix : bool;
  altformat : bool;
}.
Arguments mk_PF {D}.
Arguments clientdata {D}. Arguments ap {D}. Arguments charcount {D}. Arguments in_pct {D}. Arguments size {D}.
Arguments num {D}. Arguments sign {D}. Arguments spacing {D}. Arguments rightspc {D}. Arguments fillchar {D}.
Arguments base {D}. Arguments baseprefix {D}. Arguments altformat {D}.

Section printf.
Context {D : Type} (sendfunc : list Z → M D ()).
Implicit Types pf : PF D.

Definition set_data (d : D) := λ pf : PF D, mk_PF d (ap pf) (charcount pf) (in_pct pf) (size pf) (num pf) (sign pf) (spacing pf) (rightspc pf) (fillchar pf) (base pf) (baseprefix pf) (altformat pf).
Definition set_ap a := λ pf : PF D, mk_PF (clientdata pf) a (charcount pf) (in_pct pf) (size pf) (num pf) (sign pf) (spacing pf) (rightspc pf) (fillchar pf) (base pf) (baseprefix pf) (altformat pf).
Definition set_charcount c := λ pf : PF D, mk_PF (clientdata pf) (ap pf) c (in_pct pf) (size pf) (num pf) (sign pf) (spacing pf) (rightspc pf) (fillchar pf) (base pf) (baseprefix pf) (altformat pf).
Definition set_in_pct b := λ pf : PF D, mk_PF (clientdata pf) (ap pf) (charcount pf) b (size pf) (num pf) (sign pf) (spacing pf) (rightspc pf) (fillchar pf) (base pf) (baseprefix pf) (altformat pf).
Definition set_size z := λ pf : PF D, mk_PF (clientdata pf) (ap pf) (charcount pf) (in_pct pf) z (num pf) (sign pf) (spacing pf) (rightspc pf) (fillchar pf) (base pf) (baseprefix pf) (altformat pf).
Definition set_num n := λ pf : PF D, mk_PF (clientdata pf) (ap pf) (charcount pf) (in_pct pf) (size pf) n (sign pf) (spacing pf) (rightspc pf) (fillchar pf) (base pf) (baseprefix pf) (altformat pf).
Definition set_sign g := λ pf : PF D, mk_PF (clientdata pf) (ap pf) (charcount pf) (in_pct pf) (size pf) (num pf) g (spacing pf) (rightspc pf) (fillchar pf) (base pf) (baseprefix pf) (altformat pf).
Definition set_spacing n := λ pf : PF D, mk_PF (clientdata pf) (ap pf) (charcount pf) (in_pct pf) (size pf) (num pf) (sign pf) n (rightspc pf) (fillchar pf) (base pf) (baseprefix pf) (altformat pf).
Definition set_rightspc b := λ pf : PF D, mk_PF (clientdata pf) (ap pf) (charcount pf) (in_pct pf) (size pf) (num pf) (sign pf) (spacing pf) b (fillchar pf) (base pf) (baseprefix pf) (altformat pf).
Definition set_fillchar c := λ pf : PF D, mk_PF (clientdata pf) (ap pf) (charcount pf) (in_pct pf) (size pf) (num pf) (sign pf) (spacing pf) (rightspc pf) c (base pf) (baseprefix pf) (altformat pf).
Definition set_base n := λ pf : PF D, mk_PF (clientdata pf) (ap pf) (charcount pf) (in_pct pf) (size pf) (num pf) (sign pf) (spacing pf) (rightspc pf) (fillchar pf) n (baseprefix pf) (altformat pf).
Definition set_baseprefix b := λ pf : PF D, mk_PF (clientdata pf) (ap pf) (charcount pf) (in_pct pf) (size pf) (num pf) (sign pf) (spacing pf) (rightspc pf) (fillchar pf) (base pf) b (altformat pf).
Definition set_altformat b := λ pf : PF D, mk_PF (clientdata pf) (ap pf) (charcount pf) (in_pct pf) (size pf) (num pf) (sign pf) (spacing pf) (rightspc pf) (fillchar pf) (base pf) (baseprefix pf) b.

(** The value of an [int] expression *)
Definition int (z : Z) : M (PF D) Z := if (- 2 ^ 31 <=? z) && (z <? 2 ^ 31) then mret z else undefined.

(** [va_arg] *)
Definition va_word : M (PF D) Z :=
  a ← gets ap;
  match a with
  | VWord w :: a => modify (set_ap a);; mret w
  | _ => undefined
  end.
Definition va_string : M (PF D) (option (list Z)) :=
  a ← gets ap;
  match a with
  | VStr s :: a => modify (set_ap a);; mret s
  | _ => undefined
  end.

Definition __pf_print (txt : list Z) : M (PF D) () :=
  zoom clientdata set_data (sendfunc txt);;
  modify (λ pf, set_charcount (s32 (u32 (charcount pf) + len txt)) pf).

Definition __pf_endfield : M (PF D) () :=
  modify (set_in_pct false);;
  modify (set_size INTSZ);;
  modify (set_num 0);;
  modify (set_sign 0);;
  modify (set_spacing 0);;
  modify (set_rightspc false);;
  modify (set_fillchar (chr " "));;
  modify (set_base 0);;
  modify (set_baseprefix false);;
  modify (set_altformat false).

Definition __pf_modifier (ch : Z) : M (PF D) () :=
  if ch =? chr "#" then modify (set_altformat true)
  else if ch =? chr "-" then modify (set_rightspc true)
  else if ch =? chr "l" then
    z ← gets size;
    match z with
    | LONGSZ => mret tt
    | INTSZ => modify (set_size LONGSZ)
    end
  else if ch =? chr "q" then modify (set_size LONGSZ)
  else if ch =? chr "0" then
    w ← gets spacing;
    if 0 <? w then w ← int (w * 10); modify (set_spacing w)
    else modify (set_fillchar (chr "0"))
  else
    assert ((chr "0" <? ch) && (ch <=? chr "9"));;
    w ← gets spacing;
    w ← int (w * 10);
    w ← int (w + (ch - chr "0"));
    modify (set_spacing w).

Definition __pf_getnum (ch : Z) : M (PF D) () :=
  if ch =? chr "p" then w ← va_word; modify (set_num w)
  else if ch =? chr "d" then
    w ← va_word;
    let signednum := s32 w in
    if signednum <? 0 then
      modify (set_sign (-1));;
      n ← int (- signednum);
      modify (set_num n)
    else modify (set_num signednum)
  else w ← va_word; modify (set_num w).

Definition __pf_setbase (ch : Z) : M (PF D) () :=
  (if (ch =? chr "d") || (ch =? chr "u") then modify (set_base 10)
   else if (ch =? chr "x") || (ch =? chr "p") then modify (set_base 16)
   else if ch =? chr "o" then modify (set_base 8)
   else mret tt);;
  alt ← gets altformat;
  when (alt || (ch =? chr "p")) (modify (set_baseprefix true)).

Definition __pf_fill (spc : Z) : M (PF D) () :=
  f ← gets fillchar;
  for_range 0 spc (λ _, __pf_print [u8 f]).

Definition __pf_printstuff (prefix prefix2 stuff : list Z) : M (PF D) () :=
  let n := s32 (u32 (u32 (len prefix + len prefix2) + len stuff)) in
  w ← gets spacing;
  spc ← (if n <? w then int (w - n) else mret 0);
  right ← gets rightspc;
  f ← gets fillchar;
  when ((0 <? spc) && negb right && negb (f =? chr "0")) (__pf_fill spc);;
  __pf_print prefix;;
  __pf_print prefix2;;
  when ((0 <? spc) && negb right && (f =? chr "0")) (__pf_fill spc);;
  __pf_print stuff;;
  when ((0 <? spc) && right) (__pf_fill spc).

Definition digits : list Z := str "0123456789abcdef".

(** The loop of [__pf_printnum]: [x] is an index into [buf]. *)
Fixpoint convert (fuel : nat) (bs xnum x : Z) (buf : list (option Z)) : M (PF D) (Z * list (option Z)) :=
  match fuel with
  | O => noreturn
  | S fuel =>
    (if bs =? 0 then undefined else mret tt);;
    c ← the (zlookup digits (xnum `mod` bs));
    buf ← the (zstore buf x (Some c));
    let x := x - 1 in
    let xnum := xnum / bs in
    if 0 <? xnum then convert fuel bs xnum x buf else mret (x, buf)
  end.

(** The string that starts at an address in [buf] *)
Fixpoint buf_string (l : list (option Z)) : option (list Z) :=
  match l with
  | [] | None :: _ => None
  | Some c :: l => if c =? 0 then Some [] else cons c <$> buf_string l
  end.

(** A word has at most 32 digits. The buffer holds nothing yet. *)
Definition __pf_printnum : M (PF D) () :=
  let x := NUMBER_BUF_SIZE - 1 in
  buf ← the (zstore (replicate (Z.to_nat NUMBER_BUF_SIZE) None) x (Some 0));
  xnum ← gets num;
  bs ← gets base;
  '(x, buf) ← convert 32 bs xnum (x - 1) buf;
  let x := x + 1 in
  prefixed ← gets baseprefix;
  let bprefix := if prefixed && (bs =? 16) then str "0x" else if prefixed && (bs =? 8) then str "0" else [] in
  sg ← gets sign;
  let sprefix := if negb (sg =? 0) then str "-" else [] in
  s ← (if 0 <=? x then the (buf_string (drop (Z.to_nat x) buf)) else undefined);
  __pf_printstuff sprefix bprefix s.

Definition __pf_send (ch : Z) : M (PF D) () :=
  assert (negb (ch =? 0));;
  pct ← gets in_pct;
  if negb pct && negb (ch =? chr "%") then __pf_print [u8 ch]
  else if negb pct then modify (set_in_pct true)
  else if bool_decide (ch ∈ str "#-ql0123456789") then __pf_modifier ch
  else if bool_decide (ch ∈ str "doupx") then
    __pf_getnum ch;;
    __pf_setbase ch;;
    __pf_printnum;;
    __pf_endfield
  else if ch =? chr "s" then
    s ← va_string;
    __pf_printstuff [] [] (default (str "(null)") s);;
    __pf_endfield
  else
    x ← (if ch =? chr "c" then va_word else mret ch);
    __pf_printstuff [] [] (if u8 x =? 0 then [] else [u8 x]);;
    __pf_endfield.

(** The loop over the format, [i] being the index of its next character *)
Fixpoint send_all (i : Z) (format : list Z) : M (PF D) () :=
  match format with
  | [] => mret tt
  | c :: format => __pf_send (s8 c);; i ← int (i + 1); send_all i format
  end.

(** The fields of a fresh [PF] that are not set before they are read do not exist:
    [__pf_endfield] sets all that [__vprintf] does not. *)
Definition __vprintf (format : list Z) (args : list va) : M D Z := λ d,
  match (__pf_endfield;; send_all 0 format;; gets charcount)
          (mk_PF d args 0 false INTSZ 0 0 0 false 0 0 false false) with
  | Ret r pf => Ret r (clientdata pf)
  | Err e pf => Err e (clientdata pf)
  | Panic f => Panic f
  | NoReturn => NoReturn
  end.
End printf.

(** ** Printing into a buffer *)

Record SNP := mk_SNP { buf : Z; buflen : Z; bufpos : Z }.

(** The characters go to memory. *)
Definition snp_put (c : Z) : M (mem * SNP) () :=
  '(m, snp) ← get;
  when (bufpos snp <? buflen snp)
    (put (set_mem (buf snp + bufpos snp) c m, mk_SNP (buf snp) (buflen snp) (u32 (bufpos snp + 1)))).
Definition __snprintf_send (data : list Z) : M (mem * SNP) () := for_each data snp_put.

Definition vsnprintf (buf n : Z) (fmt : list Z) (args : list va) : M mem Z := λ m,
  let snp := mk_SNP buf (if n =? 0 then 0 else u32 (n - 1)) 0 in
  match __vprintf __snprintf_send fmt args (m, snp) with
  | Ret chars (m, snp) => Ret chars (if 0 <? n then set_mem (buf + bufpos snp) 0 m else m)
  | Err e (m, _) => Err e m
  | Panic f => Panic f
  | NoReturn => NoReturn
  end.

Definition snprintf (buf n : Z) (fmt : list Z) (args : list va) : M mem Z :=
  vsnprintf buf n fmt args.
