(* ===== verification/PrintfProof.v ===== *)
(** Formatted output, the proofs: what a format and its arguments stand for, that the
    guts of printf send exactly that whatever takes the characters, and that [snprintf]
    puts as much of it in the buffer as the buffer holds. *)

From Stdlib Require Import ZArith Lia Strings.String Strings.Ascii.
From stdpp Require Import base list gmap numbers option.
From S2P Require Import Prelude SfsData Uio VmProof Libc LibcStr LibcTheorems Printf.

Local Open Scope Z_scope.

Implicit Types m : mem.
Implicit Types s t out : list Z.

(** ** What a format stands for *)

Record flags := mk_flags { fl_alt : bool; fl_left : bool; fl_zero : bool; fl_width : Z }.
Definition no_flags : flags := mk_flags false false false 0.

Definition add_flag (c : Z) (fl : flags) : option flags :=
  let '(mk_flags alt lft zero w) := fl in
  if c =? chr "#" then Some (mk_flags true lft zero w)
  else if c =? chr "-" then Some (mk_flags alt true zero w)
  else if (c =? chr "l") || (c =? chr "q") then Some fl
  else if (c =? chr "0") && (w =? 0) then Some (mk_flags alt lft true w)
  else
    let w := 10 * w + (c - chr "0") in
    if w <? 2 ^ 31 then Some (mk_flags alt lft zero w) else None.

(** A text in its field: the fill goes between the prefix and the text when it is zeros. *)
Definition field (fl : flags) (prefix body : list Z) : list Z :=
  let fill := replicate (Z.to_nat (fl_width fl - len (prefix ++ body))) (chr (if fl_zero fl then "0" else " ")%char) in
  if fl_left fl then prefix ++ body ++ fill
  else if fl_zero fl then prefix ++ fill ++ body
  else fill ++ prefix ++ body.

(** The digits of a number, the most significant first *)
Definition digit_char (d : Z) : Z := default 0 (zlookup digits d).
Fixpoint numeral_from (fuel : nat) (bs n : Z) (acc : list Z) : list Z :=
  match fuel with
  | O => acc
  | S fuel =>
    let acc := digit_char (n `mod` bs) :: acc in
    if 0 <? n / bs then numeral_from fuel bs (n / bs) acc else acc
  end.
Definition numeral (bs n : Z) : list Z := numeral_from 32 bs n [].

Definition base_of (c : Z) : Z :=
  if (c =? chr "d") || (c =? chr "u") then 10 else if c =? chr "o" then 8 else 16.
Definition prefix_of (fl : flags) (c : Z) : list Z :=
  if fl_alt fl || (c =? chr "p") then
    if base_of c =? 16 then str "0x" else if base_of c =? 8 then str "0" else []
  else [].

(** One conversion: its text, and the arguments it leaves, as the manual page
    (man/libc/printf.html) has it; a character that is no type is printed, as the comment in
    [__pf_send] says. There is no text for the least [int], which has no opposite, and none
    for the documented X, uppercase hexadecimal: the code does not know it and prints the
    letter ([snprintf_upper_hex]). *)
Definition conversion (fl : flags) (c : Z) (args : list va) : option (list Z * list va) :=
  if bool_decide (c ∈ str "doupx") then
    match args with
    | VWord w :: args =>
      let v := if c =? chr "d" then s32 w else w in
      if v =? - 2 ^ 31 then None
      else Some (field fl ((if v <? 0 then str "-" else []) ++ prefix_of fl c) (numeral (base_of c) (Z.abs v)), args)
    | _ => None
    end
  else if c =? chr "s" then
    match args with
    | VStr s :: args => Some (field fl [] (default (str "(null)") s), args)
    | _ => None
    end
  else if c =? chr "c" then
    match args with
    | VWord w :: args => Some (field fl [] (if u8 w =? 0 then [] else [u8 w]), args)
    | _ => None
    end
  else if c =? chr "X" then None
  else Some (field fl [] [u8 c], args).

(** The whole output; [st] holds the flags seen since a percent sign. None when the arguments
    are not those that the format asks for, when a field is 2 GB wide or wider, and for the
    two conversions without a text. *)
Fixpoint render (st : option flags) (fmt : list Z) (args : list va) : option (list Z) :=
  match fmt with
  | [] => Some []
  | b :: fmt =>
    let c := s8 b in
    match st with
    | None => if c =? chr "%" then render (Some no_flags) fmt args else cons b <$> render None fmt args
    | Some fl =>
      if bool_decide (c ∈ str "#-ql0123456789") then
        fl ← add_flag c fl; render (Some fl) fmt args
      else
        '(txt, args) ← conversion fl c args; app txt <$> render None fmt args
    end
  end.

(** ** Numbers *)

Definition is_base (bs : Z) : Prop := bs = 8 ∨ bs = 10 ∨ bs = 16.

Lemma base_of_ok c : is_base (base_of c).
Proof. unfold base_of, is_base. destruct (_ || _); [lia|]. destruct (_ =? _); lia. Qed.

Lemma digit_char_ok d : 0 ≤ d < 16 → zlookup digits d = Some (digit_char d) ∧ is_char (digit_char d).
Proof.
  intros Hd. assert (Forall (λ d, zlookup digits d = Some (digit_char d) ∧ is_char (digit_char d)) (seqZ 0 16)) as HF.
  { repeat (apply list.Forall_cons; split; [split; [reflexivity|split; reflexivity]|]). apply list.Forall_nil_2. }
  apply (proj1 (list.Forall_forall _ _) HF), elem_of_seqZ. lia.
Qed.

Lemma digit_char_dec d : 0 ≤ d < 10 → digit_char d = 48 + d.
Proof.
  intros Hd. assert (Forall (λ d, digit_char d = 48 + d) (seqZ 0 10)) as HF.
  { repeat (apply list.Forall_cons; split; [reflexivity|]). apply list.Forall_nil_2. }
  apply (proj1 (list.Forall_forall _ _) HF), elem_of_seqZ. lia.
Qed.

Lemma digits_left bs n j : is_base bs → 0 ≤ j → 0 ≤ n < 8 ^ (j + 1) → 0 ≤ n / bs < 8 ^ j ∧ 0 ≤ n `mod` bs < 16.
Proof.
  intros Hb Hj Hn. rewrite Z.pow_add_r in Hn by lia. change (8 ^ 1) with 8 in Hn.
  pose proof (Z.mod_pos_bound n bs). pose proof (Z.div_mod n bs). unfold is_base in Hb. nia.
Qed.

Lemma numeral_from_chars f bs n acc :
  is_base bs → 0 ≤ n → Forall is_char acc → Forall is_char (numeral_from f bs n acc).
Proof.
  intros Hb. revert n acc. induction f as [|f IH]; intros n acc Hn Ha; cbn [numeral_from]; [done|].
  assert (Forall is_char (digit_char (n `mod` bs) :: acc)) as Ha'.
  { apply list.Forall_cons. split; [|done]. apply digit_char_ok. unfold is_base in Hb. pose proof (Z.mod_pos_bound n bs). lia. }
  destruct (0 <? n / bs); [|done]. apply IH; [|done]. apply Z.div_pos; [done|unfold is_base in Hb; lia].
Qed.

(** The digits of a number in base ten denote it. *)
Lemma dec_val_app v s t : Forall (λ c : Z, is_digit c = true) s → dec_val v (s ++ t) = dec_val (dec_val v s) t.
Proof. intros Hs. revert v. induction Hs as [|c s Hc Hs IH]; intros v; [done|]. cbn. rewrite Hc. apply IH. Qed.

Lemma numeral_from_app f bs n acc : numeral_from f bs n acc = numeral_from f bs n [] ++ acc.
Proof.
  revert n acc. induction f as [|f IH]; intros n acc; cbn [numeral_from]; [done|].
  destruct (0 <? n / bs); [|done]. rewrite IH, (IH _ [_]), <- (assoc_L (++)). done.
Qed.

Lemma is_digit_char d : 0 ≤ d < 10 → is_digit (digit_char d) = true.
Proof. intros Hd. rewrite digit_char_dec by done. unfold is_digit. lia. Qed.

Lemma dec_numeral_from f n :
  0 ≤ n < 10 ^ Z.of_nat f → f ≠ 0%nat →
  Forall (λ c : Z, is_digit c = true) (numeral_from f 10 n []) ∧ dec_val 0 (numeral_from f 10 n []) = n.
Proof.
  revert n. induction f as [|f IH]; intros n Hn Hf; [done|]. cbn [numeral_from].
  pose proof (Z.mod_pos_bound n 10). pose proof (Z.div_mod n 10). rewrite Nat2Z.inj_succ, Z.pow_succ_r in Hn by lia.
  pose proof (is_digit_char (n `mod` 10) ltac:(lia)) as Hd. destruct (Z.ltb_spec 0 (n / 10)).
  - rewrite numeral_from_app. destruct (IH (n / 10)) as [Hall Hv]; [nia|intros ->; cbn in Hn; lia|].
    split; [apply Forall_app; split; [done|]; by apply list.Forall_singleton|].
    rewrite dec_val_app, Hv by done. cbn [dec_val]. rewrite Hd, digit_char_dec by lia. lia.
  - split; [by apply list.Forall_singleton|]. cbn [dec_val]. rewrite Hd, digit_char_dec by lia. assert (0 ≤ n / 10) by (apply Z.div_pos; lia). lia.
Qed.

(** ** The guts send what the format stands for *)

(** A function that takes characters: [sent d out] says that all it has been given is [out]. *)
Class SendLaws {D : Type} (sendfunc : list Z → M D ()) (sent : D → list Z → Prop) : Prop :=
  send_ok : ∀ d out txt (Q : () → D → Prop) E,
    sent d out → (∀ d', sent d' (out ++ txt) → Q tt d') → wp safe (sendfunc txt) d Q E.

Section proof.
Context {D : Type} (sendfunc : list Z → M D ()) (sent : D → list Z → Prop) `{!SendLaws sendfunc sent}.
Implicit Types pf : PF D.

(** After more output *)
Definition put_out (d : D) (n : Z) pf : PF D := set_charcount n (set_data d pf).

Definition emits (txt : list Z) (p : M (PF D) ()) pf : Prop :=
  ∀ out (Q : () → PF D → Prop) E,
    sent (clientdata pf) out → charcount pf = s32 (len out) →
    (∀ d', sent d' (out ++ txt) → Q tt (put_out d' (s32 (len (out ++ txt))) pf)) → wp safe p pf Q E.

Lemma s32_count (a b : Z) : s32 (u32 (s32 a) + b) = s32 (a + b).
Proof.
  assert (∃ k, u32 (s32 a) = a + k * 2 ^ 32) as [k ->].
  { unfold u32, s32. pose proof (Z.div_mod (a + 2 ^ 31) (2 ^ 32) ltac:(lia)) as H1. set (r := (a + 2 ^ 31) `mod` 2 ^ 32) in *.
    pose proof (Z.div_mod (r - 2 ^ 31) (2 ^ 32) ltac:(lia)) as H2.
    exists (- ((a + 2 ^ 31) / 2 ^ 32) - (r - 2 ^ 31) / 2 ^ 32). lia. }
  unfold s32. replace (a + k * 2 ^ 32 + b + 2 ^ 31) with (a + b + 2 ^ 31 + k * 2 ^ 32) by lia. by rewrite Z_mod_plus_full.
Qed.

Lemma print_emits txt pf : emits txt (__pf_print sendfunc txt) pf.
Proof.
  intros out Q E Hs Hc HQ. unfold __pf_print. wp_steps. eapply send_ok; [exact Hs|]. intros d' Hd'. wp_steps.
  specialize (HQ d' Hd'). unfold put_out in HQ. cbn [charcount set_data] in *. rewrite Hc, s32_count.
  by rewrite length_app, Nat2Z.inj_add in HQ.
Qed.

Lemma emits_bind s t (p : M (PF D) ()) (q : () → M (PF D) ()) pf :
  emits s p pf → (∀ d n, emits t (q tt) (put_out d n pf)) → emits (s ++ t) (p ≫= q) pf.
Proof.
  intros Hp Hq out Q E Hs Hc HQ. wp_steps. apply (Hp out); [done|done|]. intros d' Hd'.
  apply (Hq d' _ (out ++ s)); [done|done|]. intros d'' Hd''. rewrite <- !(assoc_L (++)) in *. by apply HQ.
Qed.

Lemma fill_emits spc f pf :
  fillchar pf = f → emits (replicate (Z.to_nat spc) (u8 f)) (__pf_fill sendfunc spc) pf.
Proof.
  intros <- out Q E Hs Hc HQ. unfold __pf_fill. wp_steps. set (f := u8 (fillchar pf)) in *.
  destruct (Z.leb_spec 0 spc) as [H0|H0].
  - apply (wp_for_range _ _ (λ i pf1, ∃ d, let o := out ++ replicate (Z.to_nat i) f in
      sent d o ∧ pf1 = put_out d (s32 (len o)) pf)); [done| | |].
    + intros i pf1 Hi (d & Hd & ->). apply (print_emits [f] _ (out ++ replicate (Z.to_nat i) f)); [done|done|].
      intros d' Hd'. exists d'. replace (Z.to_nat (i + 1)) with (Z.to_nat i + 1)%nat by lia.
      rewrite replicate_add, (assoc_L (++)). done.
    + exists (clientdata pf). cbn [replicate]. rewrite app_nil_r. split; [done|]. unfold put_out. rewrite <- Hc. by destruct pf.
    + intros pf' (d & Hd & ->). by apply HQ.
  - unfold for_range. replace (seqZ 0 spc) with (@nil Z) by (unfold seqZ; by replace (Z.to_nat spc) with 0%nat by lia).
    wp_steps. replace (Z.to_nat spc) with 0%nat in HQ by lia. specialize (HQ (clientdata pf)). cbn [replicate] in HQ.
    rewrite app_nil_r in HQ. specialize (HQ Hs). unfold put_out in HQ. rewrite <- Hc in HQ. by destruct pf.
Qed.

Lemma when_emits (b : bool) txt (p : M (PF D) ()) pf : emits txt p pf → emits (if b then txt else []) (when b p) pf.
Proof.
  intros Hp out Q E Hs Hc HQ. destruct b; [by apply (Hp out)|]. unfold when. wp_steps. specialize (HQ (clientdata pf)).
  rewrite app_nil_r in HQ. specialize (HQ Hs). unfold put_out in HQ. rewrite <- Hc in HQ. by destruct pf.
Qed.

(** The flags of a field, as the record holds them *)
Definition flags_at (fl : flags) pf : Prop :=
  spacing pf = fl_width fl ∧ rightspc pf = fl_left fl ∧ fillchar pf = chr (if fl_zero fl then "0" else " ")%char ∧
  altformat pf = fl_alt fl ∧ 0 ≤ fl_width fl < 2 ^ 31.

Lemma int_ok z pf (Q : Z → PF D → Prop) E : - 2 ^ 31 ≤ z < 2 ^ 31 → Q z pf → wp safe (int z) pf Q E.
Proof. intros Hz HQ. unfold int. replace (_ && _) with true by lia. by wp_steps. Qed.

Definition padding (fl : flags) (n : Z) : Z := if n <? fl_width fl then fl_width fl - n else 0.

Lemma field_parts fl p1 p2 body :
  let spc := padding fl (len p1 + len p2 + len body) in
  let fill := replicate (Z.to_nat spc) (u8 (chr (if fl_zero fl then "0" else " ")%char)) in
  let fc := chr (if fl_zero fl then "0" else " ")%char in
  field fl (p1 ++ p2) body =
  (if (0 <? spc) && negb (fl_left fl) && negb (fc =? chr "0") then fill else []) ++ p1 ++ p2 ++
  (if (0 <? spc) && negb (fl_left fl) && (fc =? chr "0") then fill else []) ++ body ++
  (if (0 <? spc) && fl_left fl then fill else []).
Proof.
  intros spc fill fc. unfold field. rewrite !length_app.
  assert (Z.to_nat (fl_width fl - Z.of_nat (length p1 + length p2 + length body)) = Z.to_nat spc) as ->.
  { unfold spc, padding. destruct (Z.ltb_spec (len p1 + len p2 + len body) (fl_width fl)); lia. }
  replace (chr (if fl_zero fl then "0" else " ")%char) with (u8 fc) by (unfold fc; by destruct (fl_zero fl)). fold fill.
  destruct (Z.ltb_spec 0 spc) as [Hp|Hp].
  - unfold fc. destruct (fl_left fl), (fl_zero fl);
      change (chr " " =? chr "0") with false; change (chr "0" =? chr "0") with true; cbn [negb andb]; rewrite <- ?(assoc_L (++)), ?app_nil_r, ?app_nil_l; done.
  - replace (Z.to_nat spc) with 0%nat by lia. cbn [andb replicate]. destruct (fl_left fl), (fl_zero fl); rewrite <- ?(assoc_L (++)), ?app_nil_r, ?app_nil_l; done.
Qed.

Lemma printstuff_emits fl p1 p2 body pf :
  flags_at fl pf → len (p1 ++ p2) + len body < 2 ^ 31 →
  emits (field fl (p1 ++ p2) body) (__pf_printstuff sendfunc p1 p2 body) pf.
Proof.
  intros (Hw & Hr & Hf & _ & Hb) Hl out Q E Hs Hc HQ. unfold __pf_printstuff. rewrite length_app in Hl.
  rewrite (u32_small (len p1 + len p2)), u32_small, s32_small by lia. wp_steps. rewrite Hw.
  set (spc := padding fl (len p1 + len p2 + len body)).
  assert (∀ (Q' : Z → PF D → Prop) E', Q' spc pf →
    wp safe (if len p1 + len p2 + len body <? fl_width fl then int (fl_width fl - (len p1 + len p2 + len body)) else mret 0) pf Q' E') as Hpad.
  { intros Q' E' H'. unfold spc, padding in H'. destruct (Z.ltb_spec (len p1 + len p2 + len body) (fl_width fl)); [apply int_ok; [lia|done]|by wp_steps]. }
  apply Hpad. clear Hpad. do 2 (apply wp_bind, wp_gets). rewrite Hr. pose proof (field_parts fl p1 p2 body) as Hfp.
  cbv zeta in Hfp. fold spc in Hfp. rewrite Hfp in HQ. clear Hfp. rewrite <- Hf in HQ.
  revert HQ. apply (λ H, H out Q E Hs Hc).
  apply emits_bind; [apply when_emits, fill_emits; reflexivity|]. intros d1 n1. apply emits_bind; [apply print_emits|]. intros d2 n2.
  apply emits_bind; [apply print_emits|]. intros d3 n3. apply emits_bind; [apply when_emits, fill_emits; reflexivity|]. intros d4 n4.
  apply emits_bind; [apply print_emits|]. intros d5 n5. apply when_emits, fill_emits. reflexivity.
Qed.

(** The conversion of a number: [x] always is an index of the buffer. *)
Lemma convert_ok f bs n x acc (bf : list (option Z)) pf (Q : Z * list (option Z) → PF D → Prop) E :
  is_base bs → 0 ≤ x → 0 ≤ n < 8 ^ (x + 1) → x < Z.of_nat f → x < len bf →
  drop (Z.to_nat (x + 1)) bf = (Some <$> acc) ++ [Some 0] →
  (∀ x' bf', - 1 ≤ x' → drop (Z.to_nat (x' + 1)) bf' = (Some <$> numeral_from f bs n acc) ++ [Some 0] → Q (x', bf') pf) →
  wp safe (convert f bs n x bf) pf Q E.
Proof.
  intros Hb. revert n x acc bf. induction f as [|f IH]; intros n x acc bf Hx Hn Hf Hl Hd HQ; [lia|].
  destruct (digits_left bs n x Hb Hx Hn) as [Hq Hr]. destruct (digit_char_ok (n `mod` bs) Hr) as [Hdg _].
  cbn [convert numeral_from] in *. destruct (Z.eqb_spec bs 0); [unfold is_base in Hb; lia|]. wp_steps.
  wp_the (digit_char (n `mod` bs)) by done. wp_the _ by (apply zstore_Some; lia).
  set (bf1 := <[Z.to_nat x := Some (digit_char (n `mod` bs))]> bf).
  assert (drop (Z.to_nat x) bf1 = (Some <$> digit_char (n `mod` bs) :: acc) ++ [Some 0]) as Hd1.
  { unfold bf1. rewrite drop_S with (x := Some (digit_char (n `mod` bs))) by (apply list_lookup_insert_eq; lia). cbn [fmap list_fmap app].
    f_equal. replace (S (Z.to_nat x)) with (Z.to_nat (x + 1)) by lia. rewrite drop_insert_lt by lia. done. }
  destruct (Z.ltb_spec 0 (n / bs)) as [Hpos|Hz].
  - assert (0 < x) by (destruct (Z.eq_dec x 0) as [->|]; [cbn in Hq; lia|lia]).
    apply (IH _ _ (digit_char (n `mod` bs) :: acc)); [lia|by replace (x - 1 + 1) with x by lia|lia| | |done].
    + unfold bf1. rewrite length_insert. lia.
    + by replace (x - 1 + 1) with x by lia.
  - wp_steps. apply HQ; [lia|]. by replace (x - 1 + 1) with x by lia.
Qed.

Lemma buf_string_ok s : Forall is_char s → buf_string ((Some <$> s) ++ [Some 0]) = Some s.
Proof.
  induction 1 as [|c s Hc Hs IH]; [done|]. cbn [fmap list_fmap app buf_string]. rewrite is_char_ne by done.
  cbn [fmap list_fmap] in IH. by rewrite IH.
Qed.

(** The prefixes [__pf_printnum] chooses *)
Definition num_prefix pf : list Z :=
  if baseprefix pf && (base pf =? 16) then str "0x" else if baseprefix pf && (base pf =? 8) then str "0" else [].
Definition sign_prefix pf : list Z := if negb (sign pf =? 0) then str "-" else [].

Lemma numeral_length bs n : is_base bs → 0 ≤ n < 2 ^ 32 → len (numeral bs n) ≤ 32.
Proof.
  intros _ _. assert (∀ f n acc, length (numeral_from f bs n acc) ≤ length acc + f)%nat as H.
  { clear n. induction f as [|f IH]; intros n acc; cbn [numeral_from]; [lia|]. destruct (0 <? n / bs); [|cbn [length]; lia].
    etrans; [apply IH|]. cbn [length]. lia. }
  specialize (H 32%nat n []). unfold numeral. cbn [length] in H. lia.
Qed.

Lemma printnum_emits fl pf :
  flags_at fl pf → is_base (base pf) → 0 ≤ num pf < 2 ^ 32 →
  emits (field fl (sign_prefix pf ++ num_prefix pf) (numeral (base pf) (num pf))) (__pf_printnum sendfunc) pf.
Proof.
  intros Hfl Hb Hn out Q E Hs Hc HQ. unfold __pf_printnum. change (Z.to_nat NUMBER_BUF_SIZE) with 12%nat.
  change (NUMBER_BUF_SIZE - 1) with 11. wp_the _ by reflexivity. cbv zeta. wp_steps.
  apply (convert_ok 32 (base pf) (num pf) 10 []); [done|lia| |reflexivity|reflexivity|reflexivity|].
  { change (8 ^ (10 + 1)) with (2 ^ 33). clear - Hn. lia. }
  intros x bf Hx Hd. replace (0 <=? x + 1) with true by lia. wp_steps. fold (num_prefix pf) (sign_prefix pf).
  fold (numeral (base pf) (num pf)) in Hd.
  wp_the (numeral (base pf) (num pf)) by (rewrite Hd; apply buf_string_ok, numeral_from_chars; [done|lia|apply list.Forall_nil_2]).
  apply (printstuff_emits fl (sign_prefix pf) (num_prefix pf) _ pf Hfl) with (out := out); [|done|done|done].
  pose proof (numeral_length (base pf) (num pf) Hb Hn) as Hnl. rewrite length_app.
  assert (length (sign_prefix pf) ≤ 2)%nat by (unfold sign_prefix; destruct (negb _); cbn; lia).
  assert (length (num_prefix pf) ≤ 2)%nat by (unfold num_prefix; destruct (_ && _); [cbn; lia|]; destruct (_ && _); cbn; lia).
  lia.
Qed.

(** ** One character of the format *)

Definition pf_at (st : option flags) (args : list va) pf : Prop :=
  in_pct pf = bool_decide (is_Some st) ∧ flags_at (default no_flags st) pf ∧ ap pf = args ∧ sign pf = 0 ∧ baseprefix pf = false.

Definition same_out pf pf' : Prop := clientdata pf' = clientdata pf ∧ charcount pf' = charcount pf.

Definition words (args : list va) : Prop := Forall (λ a, if a is VWord w then is_u32 w else True) args.

Lemma modifier_chars c : c ∈ str "#-ql0123456789" → c = 35 ∨ c = 45 ∨ c = 113 ∨ c = 108 ∨ 48 ≤ c ≤ 57.
Proof.
  change (str "#-ql0123456789") with [35; 45; 113; 108; 48; 49; 50; 51; 52; 53; 54; 55; 56; 57].
  rewrite !elem_of_cons, elem_of_nil. lia.
Qed.

Lemma modifier_ok c fl fl' args pf (Q : () → PF D → Prop) E :
  c ∈ str "#-ql0123456789" → add_flag c fl = Some fl' → pf_at (Some fl) args pf →
  (∀ pf', pf_at (Some fl') args pf' → same_out pf pf' → Q tt pf') → wp safe (__pf_modifier c) pf Q E.
Proof.
  intros Hin Hadd (Hp & Hfl & Ha & Hsg & Hbp) HQ. destruct fl as [alt lft zero w]. destruct Hfl as (Hw & Hr & Hf & Halt & Hb).
  cbn [fl_width fl_left fl_zero fl_alt default from_option id] in *.
  assert (∀ wd, c = chr "0" + wd → 0 ≤ wd ≤ 9 → wd ≠ 0 ∨ w ≠ 0 → add_flag c (mk_flags alt lft zero w) =
    if 10 * w + wd <? 2 ^ 31 then Some (mk_flags alt lft zero (10 * w + wd)) else None) as Hdig.
  { intros wd -> Hwd Hne. unfold add_flag. change (chr "#") with 35. change (chr "-") with 45. change (chr "l") with 108. change (chr "q") with 113. change (chr "0") with 48.
    replace (48 + wd =? 35) with false by lia. replace (48 + wd =? 45) with false by lia. replace ((48 + wd =? 108) || (48 + wd =? 113)) with false by lia.
    replace ((48 + wd =? 48) && (w =? 0)) with false by lia. by replace (48 + wd - 48) with wd by lia. }
  assert (∀ wd, c = chr "0" + wd → 0 ≤ wd ≤ 9 → wd ≠ 0 ∨ w ≠ 0 →
    10 * w + wd < 2 ^ 31 ∧ fl' = mk_flags alt lft zero (10 * w + wd)) as Hdig'.
  { intros wd Hc Hwd Hne. rewrite (Hdig wd) in Hadd by done. destruct (Z.ltb_spec (10 * w + wd) (2 ^ 31)); by simplify_eq. }
  clear Hdig. unfold __pf_modifier.
  unfold add_flag in Hadd. destruct (Z.eqb_spec c (chr "#")) as [->|]; [|destruct (Z.eqb_spec c (chr "-")) as [->|]; [|destruct (Z.eqb_spec c (chr "l")) as [->|];
    [|destruct (Z.eqb_spec c (chr "q")) as [->|]; [|destruct (Z.eqb_spec c (chr "0")) as [->|]]]]].
  - wp_steps. simplify_eq/=. apply HQ; split_done.
  - wp_steps. simplify_eq/=. apply HQ; split_done.
  - wp_steps. simplify_eq/=. destruct (size pf); wp_steps; apply HQ; split_done.
  - wp_steps. simplify_eq/=. apply HQ; split_done.
  - wp_steps. rewrite Hw. destruct (Z.ltb_spec 0 w).
    + destruct (Hdig' 0) as [Hlt ->]; [by rewrite Z.add_0_r|lia|lia|]. wp_steps. apply int_ok; [lia|]. wp_steps. rewrite Z.add_0_r in *.
      replace (w * 10) with (10 * w) by lia. apply HQ; [|done]. split; [done|]. split; [|done]. split; [done|]. split; [done|]. split; [done|]. split; [done|]. cbn. lia.
    + assert (w = 0) as -> by lia. wp_steps. simplify_eq/=. apply HQ; [|done]. split; [done|]. split; [|done]. split_done.
  - assert (chr "0" < c ≤ chr "9") as Hc.
    { clear Hadd Hdig'. apply modifier_chars in Hin. change (chr "0") with 48 in *. change (chr "9") with 57. change (chr "#") with 35 in *.
      change (chr "-") with 45 in *. change (chr "l") with 108 in *. change (chr "q") with 113 in *. lia. }
    change (chr "0") with 48 in *. change (chr "9") with 57 in *.
    wp_assert by lia. wp_steps. rewrite Hw. destruct (Hdig' (c - 48)) as [Hlt ->]; [lia|lia|lia|].
    apply int_ok; [lia|]. wp_steps. apply int_ok; [lia|]. wp_steps.
    replace (w * 10 + (c - 48)) with (10 * w + (c - 48)) by lia. apply HQ; [|done]. split; [done|]. split; [|done]. split; [done|]. split; [done|]. split; [done|]. split; [done|]. cbn [default from_option id fl_width]. lia.
Qed.

Lemma field_length fl prefix body : len prefix + len body ≤ len (field fl prefix body).
Proof. unfold field. destruct (fl_left fl); [|destruct (fl_zero fl)]; rewrite !length_app; lia. Qed.

Lemma u8_s8 b : is_char b → u8 (s8 b) = b.
Proof.
  unfold is_char. intros Hb. unfold u8, s8. assert ((b + 2 ^ 7) `mod` 2 ^ 8 - 2 ^ 7 = b ∨ (b + 2 ^ 7) `mod` 2 ^ 8 - 2 ^ 7 = b + -1 * 2 ^ 8) as [-> | ->].
  - destruct (Z.ltb_spec b 128); [left; rewrite Z.mod_small; lia|right]. replace (b + 2 ^ 7) with (b - 2 ^ 7 + 1 * 2 ^ 8) by lia.
    rewrite Z_mod_plus_full, Z.mod_small; lia.
  - apply Z.mod_small. lia.
  - rewrite Z_mod_plus_full. apply Z.mod_small. lia.
Qed.

Lemma endfield_ok args pf (Q : () → PF D → Prop) E :
  ap pf = args → (∀ pf', pf_at None args pf' → same_out pf pf' → Q tt pf') → wp safe __pf_endfield pf Q E.
Proof. intros Ha HQ. unfold __pf_endfield. wp_steps. apply HQ; [|done]. split; [done|]. split; [|split_done]. split_done. Qed.

(** Text sent and the field ended *)
Lemma field_done txt args (p : M (PF D) ()) pf out (Q : () → PF D → Prop) E :
  emits txt p pf → ap pf = args → sent (clientdata pf) out → charcount pf = s32 (len out) →
  (∀ pf', pf_at None args pf' → sent (clientdata pf') (out ++ txt) → charcount pf' = s32 (len (out ++ txt)) → Q tt pf') →
  wp safe (p;; __pf_endfield) pf Q E.
Proof.
  intros Hp Ha Hs Hc HQ. wp_steps. apply (Hp out); [done|done|]. intros d' Hd'. apply (endfield_ok args); [done|].
  intros pf' Hat [Hd Hn]. apply HQ; [done|by rewrite Hd|by rewrite Hn].
Qed.

Lemma number_chars c : c ∈ str "doupx" → c = chr "d" ∨ c = chr "o" ∨ c = chr "u" ∨ c = chr "p" ∨ c = chr "x".
Proof. change (str "doupx") with [chr "d"; chr "o"; chr "u"; chr "p"; chr "x"]. rewrite !elem_of_cons, elem_of_nil. tauto. Qed.

Lemma setbase_ok c pf E :
  c ∈ str "doupx" → baseprefix pf = false →
  wp safe (__pf_setbase c) pf (λ _ pf', pf' = set_baseprefix (altformat pf || (c =? chr "p")) (set_base (base_of c) pf)) E.
Proof.
  intros Hin Hbp. apply number_chars in Hin. unfold __pf_setbase.
  assert (wp safe (if (c =? chr "d") || (c =? chr "u") then modify (set_base 10)
    else if (c =? chr "x") || (c =? chr "p") then modify (set_base 16)
    else if c =? chr "o" then modify (set_base 8) else mret tt) pf (λ _ pf', pf' = set_base (base_of c) pf) E) as Hb
    by (by destruct Hin as [-> | [-> | [-> | [-> | ->]]]]).
  wp_steps. eapply wp_mono; [exact Hb| |done]. intros [] pf1 ->. wp_steps.
  change (altformat (set_base (base_of c) pf)) with (altformat pf).
  destruct (altformat pf || (c =? chr "p")); unfold when; wp_steps; [done|]. destruct pf; cbn in Hbp |- *. by rewrite Hbp.
Qed.

(** Fetching a number and choosing its base *)
Lemma getnum_ok c fl w args pf (Q : () → PF D → Prop) E :
  c ∈ str "doupx" → let v := if c =? chr "d" then s32 w else w in
  is_u32 w → v ≠ - 2 ^ 31 → pf_at (Some fl) (VWord w :: args) pf →
  (∀ pf', flags_at fl pf' → ap pf' = args → same_out pf pf' → base pf' = base_of c → num pf' = Z.abs v →
     sign_prefix pf' = (if v <? 0 then str "-" else []) → num_prefix pf' = prefix_of fl c → Q tt pf') →
  wp safe (__pf_getnum c;; __pf_setbase c) pf Q E.
Proof.
  intros Hin v Hw Hv (_ & (H1 & H2 & H3 & H4 & H5) & Ha & Hsg & Hbp) HQ. unfold is_u32 in Hw.
  cbn [default from_option id] in *.
  assert (wp safe (__pf_getnum c) pf (λ _ pf', pf' = set_num (Z.abs v) (set_sign (if v <? 0 then -1 else 0) (set_ap args pf))) E) as Hget.
  { unfold __pf_getnum, va_word. destruct (Z.eqb_spec c (chr "p")) as [->|].
    - wp_steps. rewrite Ha. wp_steps. change (chr "p" =? chr "d") with false in v. unfold v. replace (w <? 0) with false by lia.
      rewrite Z.abs_eq by lia. destruct pf; cbn in *. by rewrite Hsg.
    - destruct (c =? chr "d") eqn:Hd; wp_steps; rewrite Ha; wp_steps.
      + fold v. destruct (Z.ltb_spec v 0).
        * wp_steps. apply int_ok; [pose proof (s32_range w); unfold v in *; lia|]. wp_steps. by rewrite Z.abs_neq by lia.
        * wp_steps. rewrite Z.abs_eq by lia. destruct pf; cbn in *. by rewrite Hsg.
      + unfold v. replace (w <? 0) with false by lia. rewrite Z.abs_eq by lia. destruct pf; cbn in *. by rewrite Hsg. }
  wp_steps. eapply wp_mono; [exact Hget| |done]. intros [] pf1 ->. clear Hget.
  eapply wp_mono; [apply setbase_ok; [done|done]| |done]. intros [] pf2 ->. apply HQ; try done.
  - unfold sign_prefix. change (sign _) with (if v <? 0 then -1 else 0). by destruct (v <? 0).
  - unfold num_prefix, prefix_of. change (base _) with (base_of c). change (baseprefix _) with (altformat pf || (c =? chr "p")).
    rewrite H4. by destruct (fl_alt fl || (c =? chr "p")).
Qed.

(** [emits] only looks at what is printed. *)
Lemma text_ok fl body args args' pf out (Q : () → PF D → Prop) E :
  pf_at (Some fl) args pf → len body < 2 ^ 31 → sent (clientdata pf) out → charcount pf = s32 (len out) →
  (∀ pf', pf_at None args' pf' → sent (clientdata pf') (out ++ field fl [] body) →
     charcount pf' = s32 (len (out ++ field fl [] body)) → Q tt pf') →
  wp safe (__pf_printstuff sendfunc [] [] body;; __pf_endfield) (set_ap args' pf) Q E.
Proof.
  intros (_ & Hfl & _) Hl Hs Hc HQ. apply (field_done (field fl [] body) args' _ _ out); [|done|done|done|done].
  apply (printstuff_emits fl [] [] body); [exact Hfl|cbn [length app]; lia].
Qed.

Lemma set_ap_same pf : set_ap (ap pf) pf = pf.
Proof. by destruct pf. Qed.

Lemma conversion_ok fl c txt args args' pf out (Q : () → PF D → Prop) E :
  words args → conversion fl c args = Some (txt, args') → pf_at (Some fl) args pf →
  sent (clientdata pf) out → charcount pf = s32 (len out) → len txt < 2 ^ 31 →
  c ≠ 0 → u8 c ≠ 0 → c ∉ str "#-ql0123456789" →
  (∀ pf', pf_at None args' pf' → sent (clientdata pf') (out ++ txt) → charcount pf' = s32 (len (out ++ txt)) → Q tt pf') →
  wp safe (__pf_send sendfunc c) pf Q E.
Proof.
  intros Hargs Hconv Hat Hs Hc Hl Hc0 Hu8 Hmod HQ. pose proof Hat as (Hp & Hfl & Ha & _ & _). unfold __pf_send.
  wp_assert by (destruct (Z.eqb_spec c 0); done). wp_steps. rewrite Hp, bool_decide_true by (by eexists). cbn [negb andb].
  rewrite bool_decide_false by done. unfold conversion in Hconv. destruct (bool_decide (c ∈ str "doupx")) eqn:Hnum.
  - apply bool_decide_eq_true in Hnum. destruct args as [|[w|] args]; try done. apply list.Forall_cons in Hargs as [Hw _].
    set (v := if c =? chr "d" then s32 w else w) in *. destruct (Z.eqb_spec v (- 2 ^ 31)) as [|Hv]; [done|]. simplify_eq.
    pose proof (getnum_ok c fl w args' pf) as Hg. cbv zeta in Hg. fold v in Hg.
    change (wp safe (__pf_getnum c;; __pf_setbase c;; __pf_printnum sendfunc;; __pf_endfield) pf Q E).
    assert (0 ≤ Z.abs v < 2 ^ 32) as Hav by (unfold v, is_u32 in *; pose proof (s32_range w); destruct (c =? chr "d"); lia).
    pose proof (wp_unbind safe _ _ _ _ _ (Hg (λ _ pf', wp safe (__pf_printnum sendfunc;; __pf_endfield) pf' Q E) E Hnum Hw Hv Hat
      ltac:(idtac; intros pf' Hfl' Ha' [Hd Hn] Hb Hnm Hsp Hnp;
        refine (field_done _ args' _ pf' out Q E (printnum_emits fl pf' Hfl' _ _) Ha' _ _ _);
        [rewrite Hb; apply base_of_ok|by rewrite Hnm|by rewrite Hd|by rewrite Hn|by rewrite Hb, Hnm, Hsp, Hnp]))) as H.
    wp_steps. eapply wp_mono; [exact H| |done]. intros [] pf1 H1. wp_steps. exact H1.
  - destruct (Z.eqb_spec c (chr "s")) as [->|Hns].
    + destruct args as [|[|s] args]; try done. simplify_eq. unfold va_string. wp_steps. rewrite Ha. wp_steps.
      pose proof (field_length fl [] (default (str "(null)") s)). cbn [length] in *.
      eapply wp_unbind, (text_ok fl _ _ args' pf out); [done|lia|done|done|done].
    + destruct (Z.eqb_spec c (chr "c")) as [->|Hnc].
      * destruct args as [|[w|] args]; try done. simplify_eq. unfold va_word. wp_steps. rewrite Ha. wp_steps.
        pose proof (field_length fl [] (if u8 w =? 0 then [] else [u8 w])). cbn [length] in *.
        eapply wp_unbind, (text_ok fl _ _ args' pf out); [done|lia|done|done|done].
      * destruct (Z.eqb_spec c (chr "X")); [done|]. simplify_eq. wp_steps. replace (u8 c =? 0) with false by lia. rewrite <- (set_ap_same pf).
        eapply wp_unbind, (text_ok fl _ _ (ap pf) pf out); [done|cbn; lia|done|done|done].
Qed.

Lemma send_all_ok fmt st args i txt pf out (Q : () → PF D → Prop) E :
  Forall is_char fmt → words args → render st fmt args = Some txt → pf_at st args pf →
  sent (clientdata pf) out → charcount pf = s32 (len out) → len txt < 2 ^ 31 →
  0 ≤ i → i + len fmt < 2 ^ 31 →
  (∀ pf', sent (clientdata pf') (out ++ txt) → charcount pf' = s32 (len (out ++ txt)) → Q tt pf') →
  wp safe (send_all sendfunc i fmt) pf Q E.
Proof.
  intros Hfmt. revert st args i txt pf out. induction Hfmt as [|b fmt Hb Hfmt IH]; intros st args i txt pf out Hargs Hr Hat Hs Hc Hl Hi Hil HQ.
  { cbn [send_all]. wp_steps. cbn [render] in Hr. simplify_eq. rewrite app_nil_r in HQ. by apply HQ. }
  cbn [send_all render length] in *. wp_steps. pose proof (u8_s8 b Hb) as Hu. pose proof Hb as Hb'. unfold is_char in Hb'.
  assert (s8 b ≠ 0) as Hc0 by (intros H0; rewrite H0 in Hu; change (u8 0) with 0 in Hu; lia). set (c := s8 b) in *.
  destruct st as [fl|].
  - destruct (bool_decide (c ∈ str "#-ql0123456789")) eqn:Hm.
    + apply bind_Some in Hr as (fl' & Hadd & Hr). apply bool_decide_eq_true in Hm. pose proof Hat as (Hp & _).
      unfold __pf_send. wp_assert by (destruct (Z.eqb_spec c 0); done). wp_steps. rewrite Hp, bool_decide_true by (by eexists). cbn [negb andb].
      rewrite bool_decide_true by done. apply (modifier_ok c fl fl' args); [done|done|done|]. intros pf' Hat' [Hd Hn]. wp_steps.
      apply int_ok; [lia|]. apply (IH (Some fl') args (i + 1) txt pf' out); [done|done|done|by rewrite Hd|by rewrite Hn|lia|lia|lia|done].
    + apply bool_decide_eq_false in Hm. apply bind_Some in Hr as ([t args'] & Hconv & Hr). apply fmap_Some in Hr as (t' & Hr & ->).
      rewrite length_app, Nat2Z.inj_add in Hl.
      assert (words args') as Hargs' by (clear - Hargs Hconv; unfold conversion in Hconv; repeat case_match; simplify_eq; try done; by apply list.Forall_cons in Hargs as [_ ?]).
      apply (conversion_ok fl c t args args' pf out); [done|done|done|done|done|lia|done|lia|done|]. intros pf' Hat' Hs' Hc'. wp_steps.
      apply int_ok; [lia|]. apply (IH None args' (i + 1) t' pf' (out ++ t)); [done|done|done|done|done|lia|lia|lia|]. by rewrite <- (assoc_L (++)).
  - pose proof Hat as (Hp & Hrest). unfold __pf_send. wp_assert by (destruct (Z.eqb_spec c 0); done). wp_steps.
    rewrite Hp, bool_decide_false by (by intros [? ?]). cbn [negb andb]. destruct (Z.eqb_spec c (chr "%")) as [He|He]; cbn [negb].
    + wp_steps. apply int_ok; [lia|]. apply (IH (Some no_flags) args (i + 1) txt _ out); [done|done| |done|done|lia|lia|lia|done].
      split; [by rewrite bool_decide_true by (by eexists)|exact Hrest].
    + apply fmap_Some in Hr as (t' & Hr & ->). cbn [length] in Hl. rewrite Hu. apply (print_emits [b] pf out); [done|done|]. intros d' Hd'.
      wp_steps. apply int_ok; [lia|]. apply (IH None args (i + 1) t' _ (out ++ [b])); [done|done|done|done|done|lia|lia|lia|]. by rewrite <- (assoc_L (++)).
Qed.

(** [__vprintf] sends the output of the format and returns its length. *)
Lemma vprintf_ok fmt args txt d (Q : Z → D → Prop) E :
  Forall is_char fmt → words args → render None fmt args = Some txt → sent d [] → len txt < 2 ^ 31 → len fmt < 2 ^ 31 →
  (∀ d', sent d' txt → Q (len txt) d') → wp safe (__vprintf sendfunc fmt args) d Q E.
Proof.
  intros Hfmt Hargs Hr Hs Hl Hlf HQ. unfold __vprintf.
  set (pf0 := mk_PF d args 0 false INTSZ 0 0 0 false 0 0 false false).
  cut (wp safe (__pf_endfield;; send_all sendfunc 0 fmt;; gets charcount) pf0 (λ r pf, Q r (clientdata pf)) (λ e pf, E e (clientdata pf)));
    [generalize (__pf_endfield;; send_all sendfunc 0 fmt;; gets charcount); intros p; unfold wp; fold pf0; by destruct (p pf0)|].
  wp_steps. apply (endfield_ok args); [done|]. intros pf1 Hat [Hd Hn]. wp_steps.
  apply (send_all_ok fmt None args 0 txt pf1 []); [done|done|done|done|by rewrite Hd|by rewrite Hn|done|lia|lia|].
  intros pf2 Hs2 Hc2. wp_steps. rewrite Hc2. cbn [app] in *. rewrite s32_small by lia. by apply HQ.
Qed.
End proof.

(** ** Printing into a buffer *)

(** The first [n] characters of [out] at [b] *)
Definition printed (b n : Z) out m : mem :=
  λ x, if (b <=? x) && (x <? b + n) then default (m x) (zlookup out (x - b)) else m x.

(** What [snprintf]'s function has been given: as much as fits is in the buffer, the rest is
    dropped. *)
Definition snp_sent m0 (b n : Z) (st : mem * SNP) out : Prop :=
  st.2 = mk_SNP b n (Z.min (len out) n) ∧ ∀ x, st.1 x = printed b n out m0 x.

Lemma printed_snoc b n out c m x :
  0 ≤ n → printed b n (out ++ [c]) m x =
    if (len out <? n) && (x =? b + len out) then c else printed b n out m x.
Proof.
  intros Hn. unfold printed. destruct (Z.eqb_spec x (b + len out)) as [->|Hx].
  - replace (b + len out - b) with (len out) by lia.
    rewrite (proj2 (Z.leb_le b (b + len out))) by lia.
    replace (b + len out <? b + n) with (len out <? n) by (destruct (Z.ltb_spec (len out) n), (Z.ltb_spec (b + len out) (b + n)); lia). cbn [andb]. rewrite andb_true_r.
    destruct (len out <? n); [|done]. rewrite zlookup_nat, lookup_app_r, Nat.sub_diag by done. done.
  - rewrite andb_false_r. destruct (_ && _) eqn:Hr; [|done]. f_equal. unfold zlookup. destruct (0 <=? x - b) eqn:H0; [|done].
    destruct (decide (Z.to_nat (x - b) < length out)%nat); [by rewrite lookup_app_l|].
    rewrite lookup_app_r by lia. rewrite (lookup_ge_None_2 out) by lia. apply lookup_ge_None_2. cbn [length]. lia.
Qed.

Lemma snp_put_ok m0 b n st out c (Q : () → mem * SNP → Prop) E :
  0 ≤ n < 2 ^ 32 → snp_sent m0 b n st out → (∀ st', snp_sent m0 b n st' (out ++ [c]) → Q tt st') → wp safe (snp_put c) st Q E.
Proof.
  intros Hn [H2 H1] HQ. unfold snp_put. wp_steps. destruct st as [m snp]. cbn [fst snd] in *. subst snp. cbn [bufpos buflen buf].
  destruct (Z.ltb_spec (Z.min (len out) n) n) as [Hlt|Hge]; unfold when; wp_steps; apply HQ; split; cbn [fst snd].
  - f_equal. rewrite length_app. cbn [length]. rewrite u32_small by lia. lia.
  - intros x. rewrite printed_snoc by lia. unfold set_mem. rewrite Z.min_l, H1 by lia. by replace (len out <? n) with true by lia.
  - f_equal. rewrite length_app. cbn [length]. lia.
  - intros x. rewrite printed_snoc, H1 by lia. by replace (len out <? n) with false by lia.
Qed.

#[export] Instance snp_laws m0 b n (Hn : 0 ≤ n < 2 ^ 32) : SendLaws __snprintf_send (snp_sent m0 b n).
Proof.
  intros d out txt Q E Hs HQ. unfold __snprintf_send. revert d out Hs HQ. induction txt as [|c txt IH]; intros d out Hs HQ; cbn [for_each].
  - wp_steps. apply HQ. by rewrite app_nil_r.
  - wp_steps. apply (snp_put_ok m0 b n d out); [done|done|]. intros st' Hs'. apply (IH st' (out ++ [c])); [done|].
    intros d' Hd'. apply HQ. by rewrite <- (assoc_L (++)) in Hd'.
Qed.

Lemma vsnprintf_ok b n fmt args txt m (Q : Z → mem → Prop) E :
  0 ≤ n < 2 ^ 32 → Forall is_char fmt → words args → render None fmt args = Some txt → len txt < 2 ^ 31 → len fmt < 2 ^ 31 →
  (∀ m', (∀ x, m' x = if (0 <? n) && (x =? b + Z.min (len txt) (n - 1)) then 0 else printed b (n - 1) txt m x) → Q (len txt) m') →
  wp safe (vsnprintf b n fmt args) m Q E.
Proof.
  intros Hn Hfmt Hargs Hr Hl Hlf HQ. unfold vsnprintf. set (n' := if n =? 0 then 0 else u32 (n - 1)).
  assert (0 ≤ n' < 2 ^ 32 ∧ n' = Z.max 0 (n - 1)) as [Hn' En] by (unfold n'; destruct (Z.eqb_spec n 0); [lia|rewrite u32_small by lia; lia]).
  pose proof (snp_laws m b n' Hn') as Hlaws.
  cut (wp safe (__vprintf __snprintf_send fmt args) (m, mk_SNP b n' 0)
         (λ r st, Q r (if 0 <? n then set_mem (b + bufpos st.2) 0 st.1 else st.1)) (λ e st, E e st.1));
    [unfold wp; by destruct (__vprintf __snprintf_send fmt args (m, mk_SNP b n' 0)) as [? []|? []| |]|].
  apply (vprintf_ok __snprintf_send (snp_sent m b n') fmt args txt); [done|done|done| |done|done|].
  - split; [cbn [snd length]; f_equal; lia|]. intros x. unfold printed. cbn [fst]. destruct (_ && _) eqn:Hx; [|done].
    unfold zlookup. destruct (0 <=? x - b); done.
  - intros [m' snp] [H2 H1]. cbn [fst snd] in *. subst snp. cbn [bufpos]. apply HQ. intros x.
    destruct (Z.ltb_spec 0 n) as [Hp|Hp]; cbn [andb].
    + unfold set_mem. rewrite En, Z.max_r in * by lia. by destruct (x =? _).
    + rewrite H1. unfold printed. destruct ((b <=? x) && (x <? b + n')) eqn:H3; [lia|]. by destruct ((b <=? x) && (x <? b + (n - 1))) eqn:H4; [lia|].
Qed.

(** The buffer holds the text as a string when there is room for it. *)
Lemma printed_cstr b n txt m m' :
  len txt < n → Forall is_char txt →
  (∀ x, m' x = if (0 <? n) && (x =? b + Z.min (len txt) (n - 1)) then 0 else printed b (n - 1) txt m x) →
  cstr m' b txt ∧ ∀ x, ¬ (b ≤ x < b + n) → m' x = m x.
Proof.
  intros Hn Hc Hm. split.
  - rewrite <- (app_nil_r txt). apply cstr_join.
    + intros k c Hk. pose proof (lookup_lt_Some _ _ _ Hk). rewrite Hm.
      replace ((0 <? n) && (b + Z.of_nat k =? b + Z.min (len txt) (n - 1))) with false by lia.
      unfold printed. destruct (_ && _) eqn:?; [|lia]. replace (b + Z.of_nat k - b) with (Z.of_nat k) by lia. rewrite zlookup_nat, Hk.
      split; [done|]. by eapply Forall_lookup_1 in Hk.
    + cbn [cstr]. rewrite Hm. by replace ((0 <? n) && (b + len txt =? b + Z.min (len txt) (n - 1))) with true by lia.
  - intros x Hx. rewrite Hm. destruct ((0 <? n) && (x =? b + Z.min (len txt) (n - 1))) eqn:H1; [lia|]. unfold printed.
    by destruct ((b <=? x) && (x <? b + (n - 1))) eqn:H2; [lia|].
Qed.

Lemma numeral_from_length f k n :
  0 ≤ n < 10 ^ Z.of_nat (S k) → (length (numeral_from f 10 n []) ≤ S k)%nat.
Proof.
  revert k n. induction f as [|f IH]; intros k n Hn; cbn [numeral_from]; [cbn; lia|].
  rewrite Nat2Z.inj_succ, Z.pow_succ_r in Hn by lia. pose proof (Z.div_mod n 10). pose proof (Z.mod_pos_bound n 10).
  destruct (Z.ltb_spec 0 (n / 10)); [|cbn; lia]. rewrite numeral_from_app, length_app. cbn [length].
  destruct k as [|k]; [cbn in Hn; lia|]. specialize (IH k (n / 10)). lia.
Qed.

(** The text of a number denotes it. *)
Lemma num_of_text v :
  - 2 ^ 31 < v < 2 ^ 31 → let txt := (if v <? 0 then str "-" else []) ++ numeral 10 (Z.abs v) in
  num_of txt = v ∧ Forall is_char txt ∧ len txt ≤ 11.
Proof.
  intros Hv txt. destruct (dec_numeral_from 32 (Z.abs v)) as [Hd Hval]; [split; [lia|]; apply (Z.lt_le_trans _ (2 ^ 31)); [lia|by vm_compute]|done|].
  pose proof (numeral_from_length 32 9 (Z.abs v)) as Hl. specialize (Hl ltac:(split; [lia|]; apply (Z.lt_le_trans _ (2 ^ 31)); [lia|by vm_compute])).
  pose proof (numeral_from_chars 32 10 (Z.abs v) []) as Hch. fold (numeral 10 (Z.abs v)) in *. set (ds := numeral 10 (Z.abs v)) in *.
  assert (is_base 10) as Hb by (unfold is_base; lia). specialize (Hch Hb ltac:(lia) (list.Forall_nil_2 _)).
  unfold txt. destruct (Z.ltb_spec v 0).
  - split; [rewrite (num_of_minus _ ds) by reflexivity; lia|].
    split; [apply Forall_app; split; [|done]; apply list.Forall_singleton; split; reflexivity|]. rewrite length_app. cbn [length]. change (length (str "-")) with 1%nat. lia.
  - cbn [app]. split; [|split; [done|lia]]. destruct ds as [|c ds'] eqn:E; [cbn in Hval; unfold num_of; cbn; lia|].
    apply list.Forall_cons in Hd as [Hc _]. unfold is_digit in Hc. rewrite (num_of_other _ c ds'); [lia| |lia|lia].
    cbn [drop_white]. unfold is_white. by replace ((c =? 32) || (c =? 9)) with false by lia.
Qed.

Lemma render_d w :
  s32 w ≠ - 2 ^ 31 → render None (str "%d") [VWord w] = Some ((if s32 w <? 0 then str "-" else []) ++ numeral 10 (Z.abs (s32 w))).
Proof.
  intros Hw. change (str "%d") with [chr "%"; chr "d"]. cbn [render]. change (s8 (chr "%") =? chr "%") with true. cbv beta iota.
  change (s8 (chr "d")) with (chr "d"). change (bool_decide (chr "d" ∈ str "#-ql0123456789")) with false. cbv beta iota.
  unfold conversion. change (bool_decide (chr "d" ∈ str "doupx")) with true. change (chr "d" =? chr "d") with true. cbv beta iota.
  destruct (Z.eqb_spec (s32 w) (- 2 ^ 31)); [done|]. change (base_of (chr "d")) with 10. change (prefix_of no_flags (chr "d")) with (@nil Z).
  set (p := if s32 w <? 0 then str "-" else []). set (ds := numeral 10 (Z.abs (s32 w))).
  unfold field. change (fl_left no_flags) with false. change (fl_zero no_flags) with false. change (fl_width no_flags) with 0. cbv beta iota.
  replace (Z.to_nat (0 - len ((p ++ []) ++ ds))) with 0%nat by lia. cbn [replicate app mbind option_bind fmap option_fmap option_map].
  by rewrite !app_nil_r.
Qed.




(** The manual page's X, uppercase hexadecimal, prints the letter, and the number is left for
    the next conversion. *)
Lemma snprintf_upper_hex :
  ∃ m', snprintf 1024 10 (str "%X %u") [VWord 171; VWord 205] ramp = Ret 5 m' ∧ block m' 1024 6 = str "X 171" ++ [0].
Proof. eexists. split; [reflexivity|vm_compute; reflexivity]. Qed.

(** C12: Numbers survive being printed and read: [atoi] of what [snprintf] puts in the buffer
    for a percent d is the number that was printed, for every [int] but the least one, in a
    buffer of twelve bytes. *)
Theorem snprintf_atoi fuel dg b n w m :
  12 ≤ n < 2 ^ 32 → is_u32 w → s32 w ≠ - 2 ^ 31 → (12 < fuel)%nat →
  cstr m dg ten_digits → 0 < dg → (dg + 11 ≤ b ∨ b + n ≤ dg) →
  wp safe (snprintf b n (str "%d") [VWord w];; atoi fuel dg b) m (λ r _, r = s32 w) noerr.
Proof.
  intros Hn Hw Hv Hf Hdg Hdg0 Hdisj. pose proof (s32_range w) as Hr. wp_steps. destruct (num_of_text (s32 w)) as (Hnum & Hch & Hlen); [lia|].
  pose proof (render_d w Hv) as Hren. set (txt := (if s32 w <? 0 then str "-" else []) ++ numeral 10 (Z.abs (s32 w))) in *.
  apply (vsnprintf_ok b n (str "%d") [VWord w] txt m); [lia| | |done|lia|done|].
  - apply list.Forall_cons; split; [split; reflexivity|]. apply list.Forall_singleton. split; reflexivity.
  - by apply list.Forall_singleton.
  - intros m' Hm'. destruct (printed_cstr b n txt m m' ltac:(lia) Hch Hm') as [Hs Hkeep].
    apply (atoi_ok fuel dg b txt); [|done|lia|done|lia|].
    + eapply cstr_ext; [exact Hdg|]. intros x Hx. apply Hkeep. cbn [length ten_digits] in Hx. lia.
    + rewrite Hnum. apply s32_small. lia.
Qed.

Definition digits_mem : mem := λ x, default 0 (zlookup ten_digits (x - 100)).

Lemma snprintf_atoi_witness :
  wp safe (snprintf 1024 16 (str "%d") [VWord (2 ^ 32 - 161)];; atoi 20 100 1024) digits_mem (λ r _, r = -161) noerr.
Proof.
  apply (snprintf_atoi 20 100 1024 16 (2 ^ 32 - 161) digits_mem).
  - lia.
  - split; [lia|reflexivity].
  - by vm_compute.
  - lia.
  - unfold ten_digits. cbn [cstr]. repeat (split; [reflexivity|split; [split; reflexivity|]]). reflexivity.
  - lia.
  - left. lia.
Defined.
