(* ===== verification/Console.v ===== *)
(** The kernel's own console output and input: [kprintf] (kern/lib/kprintf.c), [kgets]
    (kern/lib/kgets.c) and [strerror] (kern/lib/misc.c).

    The console driver is an interface: characters go out, characters come in. The state is
    memory and the machine the driver runs on. [kgets] has [fuel] for its loops. *)

From Stdlib Require Import ZArith Lia Strings.String Strings.Ascii.
From stdpp Require Import base list gmap numbers option.
From S2P Require Import Prelude SfsData Libc LibcStr LibcTheorems Printf PrintfProof.

Local Open Scope Z_scope.

Implicit Types m : mem.
Implicit Types s out : list Z.

(** What the driver and the lock of [kprintf] offer *)
Class Console (W : Type) := {
  putch : Z → M W ();
  getch : M W Z;
  beep : M W ();
  may_lock : W → bool;   (* kprintf_lock != NULL && !in_interrupt && curspl == 0 *)
  klock_acquire : M W ();
  klock_release : M W ();
}.

(** [con w inp out]: [inp] is what will be typed, [out] what has been shown. *)
Class ConsoleLaws (W : Type) `{Console W} (con : W → list Z → list Z → Prop) : Prop := {
  putch_ok : ∀ w inp out c (Q : () → W → Prop) E,
    con w inp out → (∀ w', con w' inp (out ++ [u8 c]) → Q tt w') → wp safe (putch c) w Q E;
  getch_ok : ∀ w inp out c (Q : Z → W → Prop) E,
    con w (c :: inp) out → (∀ w', con w' inp out → Q c w') → wp safe getch w Q E;
  beep_ok : ∀ w inp out (Q : () → W → Prop) E,
    con w inp out → (∀ w', con w' inp out → Q tt w') → wp safe beep w Q E;
  klock_ok : ∀ w inp out (Q : () → W → Prop) E,
    con w inp out → may_lock w = true → (∀ w', con w' inp out → Q tt w') → wp safe klock_acquire w Q E;
  kunlock_ok : ∀ w inp out (Q : () → W → Prop) E,
    con w inp out → may_lock w = true → (∀ w', con w' inp out → Q tt w') → wp safe klock_release w Q E;
}.

(** ** The code *)
Section console.
Context {W : Type} `{Console W} (fuel : nat).

Definition console_send (data : list Z) : M W () := for_each data putch.

Definition kprintf (fmt : list Z) (args : list va) : M W Z :=
  b ← gets may_lock;
  when b klock_acquire;;
  chars ← __vprintf console_send fmt args;
  b ← gets may_lock;
  when b klock_release;;
  mret chars.

Definition on_mem {A} (p : M mem A) : M (mem * W) A := zoom fst (λ m st, (m, st.2)) p.
Definition on_con {A} (p : M W A) : M (mem * W) A := zoom snd (λ w st, (st.1, w)) p.

(** The string at an address, as an argument of [kprintf] *)
Fixpoint string_at (f : nat) (a : Z) : M mem (list Z) :=
  match f with
  | O => noreturn
  | S f => c ← ldb a; if c =? 0 then mret [] else l ← string_at f (a + 1); mret (c :: l)
  end.

Definition backsp : M W () :=
  putch (chr "008");;
  putch (chr " ");;
  putch (chr "008").

(** [while (pos > 0 && test(buf[pos-1])) { backsp(); pos--; }] *)
Fixpoint erase (f : nat) (test : Z → bool) (buf pos : Z) : M (mem * W) Z :=
  match f with
  | O => noreturn
  | S f =>
    if 0 <? pos then
      c ← on_mem (ldb (buf + (pos - 1)));
      if test c then on_con backsp;; erase f test buf (pos - 1) else mret pos
    else mret pos
  end.

Fixpoint kgets_loop (f : nat) (buf maxlen pos : Z) : M (mem * W) Z :=
  match f with
  | O => noreturn
  | S f =>
    ch ← on_con getch;
    if (ch =? 10) || (ch =? 13) then on_con (putch 10);; mret pos
    else if (32 <=? ch) && (ch <? 127) && (pos <? u32 (maxlen - 1)) then
      on_con (putch ch);;
      on_mem (stb (buf + pos) (u8 ch));;
      kgets_loop f buf maxlen (u32 (pos + 1))
    else if ((ch =? 8) || (ch =? 127)) && (0 <? pos) then
      on_con backsp;;
      kgets_loop f buf maxlen (pos - 1)
    else if ch =? 3 then
      on_con (putch (chr "^"));;
      on_con (putch (chr "C"));;
      on_con (putch 10);;
      mret 0
    else if ch =? 18 then
      on_mem (stb (buf + pos) 0);;
      s ← on_mem (string_at fuel buf);
      on_con (kprintf (str "^R" ++ [10] ++ str "%s") [VStr (Some s)]);;
      kgets_loop f buf maxlen pos
    else if ch =? 21 then
      pos ← erase fuel (λ _, true) buf pos;
      kgets_loop f buf maxlen pos
    else if ch =? 23 then
      pos ← erase fuel (λ c, c =? chr " ") buf pos;
      pos ← erase fuel (λ c, negb (c =? chr " ")) buf pos;
      kgets_loop f buf maxlen pos
    else
      on_con beep;;
      kgets_loop f buf maxlen pos
  end.

Definition kgets (buf maxlen : Z) : M (mem * W) () :=
  pos ← kgets_loop fuel buf maxlen 0;
  on_mem (stb (buf + pos) 0).

Definition sys_errlist : list (list Z) := str <$>
  ["Operation succeeded"; "Invalid argument"; "Bad memory address"; "String too long"; "Out of memory";
   "Input/output error"; "No such file or directory"; "Not a directory"; "Is a directory"; "File or object exists";
   "Cross-device link"; "Try again later"; "Illegal seek"; "Unimplemented feature"; "Device not available";
   "No such device"; "Device or resource busy"; "Invalid/inappropriate ioctl"; "Directory not empty";
   "Result too large"; "No space left on device"; "Too many open files"; "Too many open files in system";
   "No such system call"; "File is not executable"; "Argument list too long"; "Bad file number"]%string.
Definition sys_nerr : Z := Z.of_nat (length sys_errlist).

Definition strerror (errcode : Z) : M (mem * W) (list Z) :=
  if (0 <=? errcode) && (errcode <? sys_nerr) then the (zlookup sys_errlist errcode) else panic.
End console.

(** ** Line editing *)

(** A line without the characters at its end that pass the test *)
Fixpoint drop_while (test : Z → bool) s : list Z :=
  match s with
  | [] => []
  | c :: s' => if test c then drop_while test s' else s
  end.
Definition strip (test : Z → bool) s : list Z := reverse (drop_while test (reverse s)).

Lemma strip_nil test : strip test [] = [].
Proof. done. Qed.
Lemma strip_snoc test s c : strip test (s ++ [c]) = if test c then strip test s else s ++ [c].
Proof. unfold strip. rewrite reverse_snoc. cbn [drop_while]. destruct (test c); [done|]. by rewrite reverse_cons, reverse_involutive. Qed.
Lemma strip_prefix test s : strip test s `prefix_of` s.
Proof.
  induction s as [|c s IH] using rev_ind; [done|]. rewrite strip_snoc. destruct (test c); [|done].
  etrans; [exact IH|]. by apply prefix_app_r.
Qed.
Lemma strip_all s : strip (λ _, true) s = [].
Proof. induction s as [|c s IH] using rev_ind; [done|]. by rewrite strip_snoc. Qed.

(** The line that the characters typed make, when they complete one: [None] otherwise *)
Fixpoint edit (room : Z) (line inp : list Z) : option (list Z) :=
  match inp with
  | [] => None
  | ch :: inp =>
    if (ch =? 10) || (ch =? 13) then Some line
    else if (32 <=? ch) && (ch <? 127) && (Z.of_nat (length line) <? room) then edit room (line ++ [ch]) inp
    else if ((ch =? 8) || (ch =? 127)) && (0 <? Z.of_nat (length line)) then edit room (take (pred (length line)) line) inp
    else if ch =? 3 then Some []
    else if ch =? 21 then edit room [] inp
    else if ch =? 23 then edit room (strip (λ c, negb (c =? chr " ")) (strip (λ c, c =? chr " ") line)) inp
    else edit room line inp
  end.

Definition holds m (buf : Z) s : Prop := ∀ k c, s !! k = Some c → m (buf + Z.of_nat k) = c.
Definition printable (c : Z) : Prop := 32 ≤ c < 127.

Lemma holds_prefix m buf s t : s `prefix_of` t → holds m buf t → holds m buf s.
Proof. intros [r ->] Ht k c Hk. apply Ht. by apply lookup_app_l_Some. Qed.

Lemma holds_set m buf s c : holds m buf s → holds (set_mem (buf + len s) c m) buf (s ++ [c]).
Proof.
  intros Hs k d Hk. unfold set_mem. apply lookup_snoc_Some in Hk as [[Hk Hd]|[-> ->]].
  - destruct (Z.eqb_spec (buf + Z.of_nat k) (buf + len s)); [lia|]. by apply Hs.
  - by rewrite Z.eqb_refl.
Qed.

Lemma holds_end m buf s : holds m buf s → holds (set_mem (buf + len s) 0 m) buf s.
Proof. intros Hs. eapply holds_prefix; [|by apply holds_set]. by apply prefix_app_r. Qed.

Lemma printable_char c : printable c → is_char c ∧ u8 c = c.
Proof. unfold printable, is_char, u8. intros Hc. split; [lia|]. apply Z.mod_small. lia. Qed.

Lemma holds_cstr m buf s : holds m buf s → Forall printable s → m (buf + len s) = 0 → cstr m buf s.
Proof.
  intros Hs Hp H0. rewrite <- (app_nil_r s). apply cstr_join; [|done]. intros k c Hk. split; [by apply Hs|].
  apply printable_char. by apply (Forall_lookup_1 _ _ _ _ Hp Hk).
Qed.

Lemma string_at_ok f a s m (Q : list Z → mem → Prop) E :
  cstr m a s → (length s < f)%nat → Q s m → wp safe (string_at f a) m Q E.
Proof.
  revert f a Q. induction s as [|c s IH]; intros [|f] a Q Hs Hf HQ; cbn [length] in *; try lia; cbn [string_at]; unfold ldb; wp_steps.
  - cbn in Hs. rewrite Hs. cbn [Z.eqb]. by wp_steps.
  - destruct Hs as (-> & Hc & Hs). rewrite is_char_ne by done. wp_steps. apply IH; [done|lia|]. by wp_steps.
Qed.

Lemma render_s prefix s :
  Forall (λ c : Z, s8 c ≠ chr "%") prefix → render None (prefix ++ str "%s") [VStr (Some s)] = Some (prefix ++ s).
Proof.
  induction 1 as [|c prefix Hc _ IH].
  - cbn [app]. change (str "%s") with [chr "%"; chr "s"]. cbn [render]. change (s8 (chr "%") =? chr "%") with true. cbv beta iota.
    change (s8 (chr "s")) with (chr "s"). change (bool_decide (chr "s" ∈ str "#-ql0123456789")) with false. cbv beta iota.
    unfold conversion. change (bool_decide (chr "s" ∈ str "doupx")) with false. change (chr "s" =? chr "s") with true. cbv beta iota.
    unfold field. change (fl_left no_flags) with false. change (fl_zero no_flags) with false. change (fl_width no_flags) with 0. cbv beta iota.
    cbn [default from_option id app]. replace (Z.to_nat (0 - len s)) with 0%nat by lia. cbn [replicate app mbind option_bind fmap option_fmap option_map].
    by rewrite app_nil_r.
  - cbn [app render]. destruct (Z.eqb_spec (s8 c) (chr "%")); [done|]. by rewrite IH.
Qed.

(** ** The proofs *)
Section laws.
Context {W : Type} `{!Console W} (con : W → list Z → list Z → Prop) `{!ConsoleLaws W con} (fuel : nat).

#[export] Instance console_send_laws inp out0 : SendLaws console_send (λ w o, con w inp (out0 ++ (u8 <$> o))).
Proof.
  intros w out txt Q E Hs HQ. unfold console_send. revert w out Hs HQ. induction txt as [|c txt IH]; intros w out Hs HQ; cbn [for_each].
  - wp_steps. apply HQ. by rewrite app_nil_r.
  - wp_steps. eapply putch_ok; [exact Hs|]. intros w' Hw'. apply (IH w' (out ++ [c])).
    + by rewrite fmap_app, (assoc_L (++)).
    + intros d'. rewrite <- (assoc_L (++)). apply HQ.
Qed.

(** [kprintf] shows what the format stands for. *)
Lemma kprintf_ok fmt args txt w inp out (Q : Z → W → Prop) E :
  Forall is_char fmt → words args → render None fmt args = Some txt → len txt < 2 ^ 31 → len fmt < 2 ^ 31 →
  con w inp out → (∀ w', con w' inp (out ++ (u8 <$> txt)) → Q (len txt) w') → wp safe (kprintf fmt args) w Q E.
Proof.
  intros Hf Ha Hr Hl Hlf Hc HQ. unfold kprintf. wp_steps.
  assert (∀ w1 (Q1 : () → W → Prop), con w1 inp out → (∀ w', con w' inp out → Q1 tt w') → wp safe (when (may_lock w1) klock_acquire) w1 Q1 E) as H1.
  { intros w1 Q1 Hc1 HQ1. apply wp_when; [|by auto]. intros Hm. by apply (klock_ok w1 inp out). }
  apply H1; [done|]. intros w2 Hc2. wp_steps.
  apply (vprintf_ok console_send (λ w o, con w inp (out ++ (u8 <$> o))) fmt args txt); [done|done|done|by rewrite app_nil_r|done|done|].
  intros w3 Hc3. wp_steps. apply wp_when.
  - intros Hm. apply (kunlock_ok w3 inp (out ++ (u8 <$> txt))); [done|done|]. intros w4 Hc4. wp_steps. by apply HQ.
  - intros _. wp_steps. by apply HQ.
Qed.

Definition con_some (w : W) (inp : list Z) : Prop := ∃ out, con w inp out.

Lemma putch_some c w inp (Q : () → W → Prop) E :
  con_some w inp → (∀ w', con_some w' inp → Q tt w') → wp safe (putch c) w Q E.
Proof. intros [out Hc] HQ. apply (putch_ok w inp out); [done|]. intros w' Hw'. apply HQ. by eexists. Qed.

Lemma backsp_some w inp (Q : () → W → Prop) E :
  con_some w inp → (∀ w', con_some w' inp → Q tt w') → wp safe backsp w Q E.
Proof.
  intros Hc HQ. unfold backsp. wp_steps. eapply putch_some; [done|]. intros w1 H1. wp_steps.
  eapply putch_some; [done|]. intros w2 H2. by eapply putch_some.
Qed.

Lemma erase_ok f test buf s m w inp (Q : Z → mem * W → Prop) E :
  (length s < f)%nat → holds m buf s → con_some w inp →
  (∀ w', con_some w' inp → Q (len (strip test s)) (m, w')) →
  wp safe (erase f test buf (len s)) (m, w) Q E.
Proof.
  revert f w. induction s as [|c s IH] using rev_ind; intros [|f] w Hf Hs Hc HQ; try (cbn in Hf; lia); cbn [erase].
  - cbn [length]. change (0 <? Z.of_nat 0) with false. wp_steps. by apply HQ.
  - rewrite length_app in *. cbn [length] in *. rewrite (proj2 (Z.ltb_lt 0 (Z.of_nat (length s + 1)))) by lia.
    unfold on_mem, ldb. wp_steps. cbn [fst snd]. replace (buf + (Z.of_nat (length s + 1) - 1)) with (buf + len s) by lia.
    rewrite (Hs (length s) c) by (by apply list_lookup_middle). rewrite strip_snoc in HQ. destruct (test c).
    + unfold on_con. wp_steps. eapply backsp_some; [done|]. intros w' Hw'. cbn [fst snd].
      replace (Z.of_nat (length s + 1) - 1) with (len s) by lia. apply IH; [lia|eapply holds_prefix; [|exact Hs]; by apply prefix_app_r|done|done].
    + wp_steps. rewrite length_app in HQ. cbn [length] in HQ. by apply HQ.
Qed.

(** The invariant of the loop: the line is in the buffer, which has room for it and a NUL,
    and nothing else has been written. *)
Definition line_at (buf room : Z) m0 s m : Prop :=
  holds m buf s ∧ len s ≤ room ∧ Forall printable s ∧ ∀ x, ¬ (buf ≤ x ≤ buf + room) → m x = m0 x.

Lemma line_at_prefix buf room m0 s t m : s `prefix_of` t → line_at buf room m0 t m → line_at buf room m0 s m.
Proof.
  intros Hp (Hh & Hl & Hf & Hk). split; [by eapply holds_prefix|]. pose proof (prefix_length _ _ Hp). split; [lia|]. split; [|done].
  destruct Hp as [r ->]. by apply Forall_app in Hf as [? _].
Qed.

Lemma line_at_set buf room m0 s c m :
  line_at buf room m0 s m → printable c → len s < room → line_at buf room m0 (s ++ [c]) (set_mem (buf + len s) c m).
Proof.
  intros (Hh & Hl & Hf & Hk) Hc Hr. split; [by apply holds_set|]. rewrite length_app. cbn [length]. split; [lia|].
  split; [apply Forall_app; split; [done|]; by apply list.Forall_singleton|]. intros x Hx. unfold set_mem.
  destruct (Z.eqb_spec x (buf + len s)); [lia|]. by apply Hk.
Qed.

Lemma line_at_end buf room m0 s m :
  line_at buf room m0 s m → line_at buf room m0 s (set_mem (buf + len s) 0 m) ∧ cstr (set_mem (buf + len s) 0 m) buf s.
Proof.
  intros (Hh & Hl & Hf & Hk). split.
  - split; [by apply holds_end|]. split; [done|]. split; [done|]. intros x Hx. unfold set_mem.
    destruct (Z.eqb_spec x (buf + len s)); [lia|]. by apply Hk.
  - apply holds_cstr; [by apply holds_end|done|]. unfold set_mem. by rewrite Z.eqb_refl.
Qed.

Lemma take_prefix s n : take n s `prefix_of` s.
Proof. exists (drop n s). by rewrite take_drop. Qed.

Lemma kgets_loop_ok f buf room m0 inp s line m w (Q : Z → mem * W → Prop) E :
  0 ≤ room → room + 1 < 2 ^ 30 → (Z.to_nat room < fuel)%nat → (length inp ≤ f)%nat →
  edit room s inp = Some line → line_at buf room m0 s m → con_some w inp →
  (∀ m' w', line_at buf room m0 line m' → (∃ rest, con_some w' rest) → Q (len line) (m', w')) →
  wp safe (kgets_loop fuel f buf (room + 1) (len s)) (m, w) Q E.
Proof.
  intros Hr Hr2 Hfuel. revert f s m w. induction inp as [|ch inp IH]; intros [|f] s m w Hf He Hl Hc HQ; try done; [cbn in Hf; lia|].
  cbn [kgets_loop edit length] in *. destruct Hc as [out Hc]. unfold on_con, on_mem. wp_steps. cbn [fst snd].
  apply (getch_ok w inp out ch); [done|]. intros w1 Hc1. assert (con_some w1 inp) as Hs1 by (by eexists). cbn [fst snd].
  pose proof Hl as (Hh & Hlen & Hp & _). replace (room + 1 - 1) with room by lia. rewrite (u32_small room) by lia.
  assert (length s < fuel)%nat as Hfs by lia.
  destruct ((ch =? 10) || (ch =? 13)).
  { wp_steps. cbn [fst snd]. eapply putch_some; [done|]. intros w2 Hs2. wp_steps. simplify_eq. apply HQ; [done|by eexists]. }
  destruct ((32 <=? ch) && (ch <? 127) && (len s <? room)) eqn:Hpr.
  { assert (printable ch ∧ len s < room) as [Hch Hlt] by (unfold printable; lia). destruct (printable_char ch Hch) as [_ Hu].
    wp_steps. cbn [fst snd]. eapply putch_some; [done|]. intros w2 Hs2. unfold stb. wp_steps. cbn [fst snd]. rewrite Hu, u32_small by lia.
    replace (len s + 1) with (len (s ++ [ch])) by (rewrite length_app; cbn [length]; lia). apply IH; [lia|done|by apply line_at_set|done|done]. }
  destruct (((ch =? 8) || (ch =? 127)) && (0 <? len s)) eqn:Hb.
  { wp_steps. cbn [fst snd]. eapply backsp_some; [done|]. intros w2 Hs2. cbn [fst snd].
    replace (len s - 1) with (len (take (pred (length s)) s)) by (rewrite length_take; lia).
    apply IH; [lia|done|eapply line_at_prefix; [apply take_prefix|done]|done|done]. }
  destruct (ch =? 3).
  { wp_steps. cbn [fst snd]. eapply putch_some; [done|]. intros w2 Hs2. wp_steps. cbn [fst snd]. eapply putch_some; [done|]. intros w3 Hs3.
    wp_steps. cbn [fst snd]. eapply putch_some; [done|]. intros w4 Hs4. wp_steps. simplify_eq. change 0 with (len (@nil Z)).
    apply HQ; [eapply line_at_prefix; [|exact Hl]; apply prefix_nil|by eexists]. }
  destruct (Z.eqb_spec ch 18) as [->|].
  { unfold stb. wp_steps. cbn [fst snd]. destruct (line_at_end buf room m0 s m Hl) as [Hl' Hcs].
    apply (string_at_ok fuel buf s); [done|done|]. wp_steps. cbn [fst snd].
    apply (kprintf_ok _ _ (str "^R" ++ [10] ++ s) w1 inp out); [| | | | |done|].
    - repeat (apply list.Forall_cons; split; [split; reflexivity|]). apply list.Forall_nil_2.
    - by apply list.Forall_singleton.
    - rewrite !(assoc_L (++)). apply render_s. repeat (apply list.Forall_cons; split; [discriminate|]). apply list.Forall_nil_2.
    - rewrite !length_app. change (length (str "^R")) with 2%nat. change (length [10]) with 1%nat. lia.
    - reflexivity.
    - intros w2 Hc2. cbn [fst snd]. apply IH; [lia|done|done|by eexists|done]. }
  destruct (ch =? 21).
  { wp_steps. apply (erase_ok fuel _ buf s m w1 inp); [done|done|done|]. intros w2 Hs2. rewrite strip_all.
    apply IH; [lia|done|eapply line_at_prefix; [|exact Hl]; apply prefix_nil|done|done]. }
  destruct (ch =? 23).
  { wp_steps. apply (erase_ok fuel _ buf s m w1 inp); [done|done|done|]. intros w2 Hs2. pose proof (strip_prefix (λ c : Z, c =? chr " ") s) as Hpre.
    set (s1 := strip (λ c, c =? chr " ") s) in *. pose proof (prefix_length _ _ Hpre). wp_steps.
    apply (erase_ok fuel _ buf s1 m w2 inp); [lia|by eapply holds_prefix|done|]. intros w3 Hs3.
    apply IH; [lia|done|eapply line_at_prefix; [|exact Hl]; etrans; [apply strip_prefix|done]|done|done]. }
  wp_steps. cbn [fst snd]. apply (beep_ok w1 inp out); [done|]. intros w2 Hc2. cbn [fst snd]. apply IH; [lia|done|done|by eexists|done].
Qed.

Lemma kgets_ok buf maxlen inp line m w (Q : () → mem * W → Prop) E :
  1 ≤ maxlen < 2 ^ 30 → (Z.to_nat maxlen ≤ fuel)%nat → (length inp ≤ fuel)%nat →
  edit (maxlen - 1) [] inp = Some line → con_some w inp →
  (∀ m' w', cstr m' buf line → len line < maxlen → (∀ x, ¬ (buf ≤ x < buf + maxlen) → m' x = m x) → (∃ rest, con_some w' rest) → Q tt (m', w')) →
  wp safe (kgets fuel buf maxlen) (m, w) Q E.
Proof.
  intros Hm Hf Hfi He Hc HQ. unfold kgets. wp_steps. replace maxlen with (maxlen - 1 + 1) at 1 by lia. change 0 with (len (@nil Z)).
  apply (kgets_loop_ok fuel buf (maxlen - 1) m inp [] line m w); [lia|lia|lia|done|done| |done|].
  - split; [by intros k c Hk|]. split; [cbn; lia|]. split; [apply list.Forall_nil_2|done].
  - intros m' w' Hl Hw'. unfold on_mem, stb. wp_steps. cbn [fst snd]. destruct (line_at_end _ _ _ _ _ Hl) as [(Hh & Hlen & Hp & Hk) Hcs].
    apply HQ; [done|lia| |done]. intros x Hx. apply Hk. lia.
Qed.
End laws.

(** A console that is its input and its output *)
Module SimpleConsole.
Definition W : Type := list Z * list Z.

#[export] Instance console : Console W := {|
  putch c := modify (λ w, (w.1, w.2 ++ [u8 c]));
  getch := λ w, match w.1 with c :: l => Ret c (l, w.2) | [] => NoReturn end;
  beep := mret tt;
  may_lock _ := true;
  klock_acquire := mret tt;
  klock_release := mret tt |}.

Definition con (w : W) (inp out : list Z) : Prop := w = (inp, out).

#[export] Instance console_laws : ConsoleLaws W con.
Proof.
  split.
  - intros w inp out c Q E -> HQ. cbn [putch console]. wp_steps. by apply HQ.
  - intros w inp out c Q E -> HQ. by apply HQ.
  - intros w inp out Q E Hc HQ. cbn [beep console]. wp_steps. by apply HQ.
  - intros w inp out Q E Hc _ HQ. cbn [klock_acquire console]. wp_steps. by apply HQ.
  - intros w inp out Q E Hc _ HQ. cbn [klock_release console]. wp_steps. by apply HQ.
Qed.
End SimpleConsole.

(** C28: Whatever is typed, control characters and lines that are too long included, [kgets]
    leaves in the buffer the line that line editing makes of it, a string shorter than the
    buffer, and writes nowhere else. *)
Theorem kgets_spec {W : Type} `{!Console W} (con : W → list Z → list Z → Prop) `{!ConsoleLaws W con} fuel buf maxlen inp out line m w :
  1 ≤ maxlen < 2 ^ 30 → (Z.to_nat maxlen ≤ fuel)%nat → (length inp ≤ fuel)%nat →
  edit (maxlen - 1) [] inp = Some line → con w inp out →
  wp safe (kgets fuel buf maxlen) (m, w) (λ _ st,
    cstr st.1 buf line ∧ len line < maxlen ∧ ∀ x, ¬ (buf ≤ x < buf + maxlen) → st.1 x = m x) noerr.
Proof. intros Hm Hf Hi He Hc. apply (kgets_ok con fuel buf maxlen inp line); [done|done|done|done|by eexists|]. by intros. Qed.

(** Typed: ab, a backspace, " cd", the erasing of a word, "pwd" into a buffer of six bytes,
    which has no room for the last character, a reprint, and the end of the line. *)
Lemma kgets_spec_witness :
  wp safe (@kgets SimpleConsole.W SimpleConsole.console 64 1024 6) (ramp, ([97; 98; 8; 32; 99; 100; 23; 112; 119; 100; 100; 18; 10], [])) (λ _ st,
    cstr st.1 1024 (str "a pwd") ∧ len (str "a pwd") < 6 ∧ ∀ x, ¬ (1024 ≤ x < 1024 + 6) → st.1 x = ramp x) noerr.
Proof.
  apply (@kgets_spec _ _ SimpleConsole.con SimpleConsole.console_laws 64 1024 6 [97; 98; 8; 32; 99; 100; 23; 112; 119; 100; 100; 18; 10] [] (str "a pwd") ramp).
  - lia.
  - vm_compute. lia.
  - vm_compute. lia.
  - reflexivity.
  - reflexivity.
Defined.
