(* ===== verification/Menu.v ===== *)
(** The kernel menu (kern/main/menu.c): a command line is split into commands and a command
    into words, and the function of the table that the first word names is called.

    The commands themselves, like the clock, belong to other parts: the table is given, as
    the addresses of the names with the functions, and so are the addresses of the two
    strings of separators. The state is memory and the machine the commands run on. *)

From Stdlib Require Import ZArith Lia Strings.String Strings.Ascii.
From stdpp Require Import base list gmap numbers option.
From S2P Require Import Prelude SfsData Libc LibcStr LibcTheorems Printf PrintfProof Console.

Local Open Scope Z_scope.

Implicit Types m : mem.
Implicit Types s : list Z.

Definition MAXMENUARGS : Z := 16.

Section menu.
Context {W : Type} `{!Console W} (gettime : M W (Z * Z)) (fuel : nat).
Context (s_white s_semi : Z).

(** A function of the table gets the number of words and their addresses. *)
Definition func : Type := Z → list Z → M (mem * W) Z.
Context (cmdtable : list (Z * option func)).

Definition nl : list Z := [10].
Definition say (fmt : list Z) (args : list va) : M (mem * W) () := on_con (kprintf fmt args);; mret tt.

(** A signed [int] or [time_t] *)
Definition sint (z : Z) : M (mem * W) Z := if (- 2 ^ 31 <=? z) && (z <? 2 ^ 31) then mret z else undefined.

Definition getinterval (s1 ns1 s2 ns2 : Z) : M (mem * W) (Z * Z) :=
  '(s2, ns2) ← (if ns2 <? ns1 then s2 ← sint (s2 - 1); mret (s2, u32 (ns2 + 1000000000)) else mret (s2, ns2));
  rs ← sint (s2 - s1);
  mret (rs, u32 (ns2 - ns1)).

(** The loop over the words; [None] when there are too many of them *)
Fixpoint get_words (f : nat) (word context : Z) (args : list Z) : M (mem * W) (option (list Z)) :=
  match f with
  | O => noreturn
  | S f =>
    if word =? NULL then mret (Some args)
    else if MAXMENUARGS <=? Z.of_nat (length args) then
      say (str "Command line has too many words" ++ nl) [];;
      mret None
    else
      '(word', context) ← on_mem (strtok_r fuel NULL s_white context);
      get_words f word' context (args ++ [word])
  end.

(** The loop over the table *)
Fixpoint find_command (table : list (Z * option func)) (nargs arg0 : Z) (args : list Z) : M (mem * W) Z :=
  match table with
  | [] =>
    s ← on_mem (string_at fuel arg0);
    say (str "%s: Command not found" ++ nl) [VStr (Some s)];;
    mret EINVAL
  | (name, fn) :: table =>
    c ← on_mem (ldb name);
    r ← (if c =? 0 then mret 1 else on_mem (strcmp fuel arg0 name));
    if r =? 0 then
      fn ← (match fn with Some fn => mret fn | None => panic end);
      '(beforesecs, beforensecs) ← on_con gettime;
      result ← (fn : func) nargs args;
      '(aftersecs, afternsecs) ← on_con gettime;
      '(secs, nsecs) ← getinterval beforesecs beforensecs aftersecs afternsecs;
      say (str "Operation took %lu.%09lu seconds" ++ nl) [VWord (u32 secs); VWord (u32 nsecs)];;
      mret result
    else find_command table nargs arg0 args
  end.

Definition cmd_dispatch (cmd : Z) : M (mem * W) Z :=
  '(word, context) ← on_mem (strtok_r fuel cmd s_white NULL);
  args ← get_words fuel word context [];
  match args with
  | None => mret E2BIG
  | Some [] => mret 0
  | Some (arg0 :: rest) => find_command cmdtable (Z.of_nat (length (arg0 :: rest))) arg0 (arg0 :: rest)
  end.

(** The loop over the commands of a line *)
Fixpoint execute_from (f : nat) (command context : Z) (isargs : bool) : M (mem * W) () :=
  match f with
  | O => noreturn
  | S f =>
    if command =? NULL then mret tt
    else
      when isargs (s ← on_mem (string_at fuel command); say (str "OS/161 kernel: %s" ++ nl) [VStr (Some s)]);;
      result ← cmd_dispatch command;
      when (negb (result =? 0)) (
        e ← strerror result;
        say (str "Menu command failed: %s" ++ nl) [VStr (Some e)];;
        when isargs panic);;
      '(command, context) ← on_mem (strtok_r fuel NULL s_semi context);
      execute_from f command context isargs
  end.

Definition menu_execute (line : Z) (isargs : bool) : M (mem * W) () :=
  '(command, context) ← on_mem (strtok_r fuel line s_semi NULL);
  execute_from fuel command context isargs.
End menu.

(** ** The messages *)

Lemma render_text txt fmt args :
  Forall (λ c : Z, s8 c ≠ chr "%") txt → render None (txt ++ fmt) args = app txt <$> render None fmt args.
Proof.
  induction 1 as [|c txt Hc _ IH]; cbn [app]; [by destruct (render None fmt args)|].
  cbn [render]. destruct (Z.eqb_spec (s8 c) (chr "%")); [done|]. rewrite IH. by destruct (render None fmt args).
Qed.

Lemma field_none body : field no_flags [] body = body.
Proof.
  unfold field. change (fl_left no_flags) with false. change (fl_zero no_flags) with false. change (fl_width no_flags) with 0. cbv beta iota.
  cbn [app]. replace (Z.to_nat (0 - len body)) with 0%nat by lia. done.
Qed.

Lemma render_str s fmt args :
  render None (str "%s" ++ fmt) (VStr (Some s) :: args) = app s <$> render None fmt args.
Proof.
  change (str "%s" ++ fmt) with (chr "%" :: chr "s" :: fmt). cbn [render]. change (s8 (chr "%") =? chr "%") with true. cbv beta iota.
  change (s8 (chr "s")) with (chr "s"). change (bool_decide (chr "s" ∈ str "#-ql0123456789")) with false. cbv beta iota.
  unfold conversion. change (bool_decide (chr "s" ∈ str "doupx")) with false. change (chr "s" =? chr "s") with true. cbv beta iota.
  cbn [mbind option_bind default from_option id]. by rewrite field_none.
Qed.

Lemma conversion_u fl w args :
  is_u32 w → conversion fl (chr "u") (VWord w :: args) = Some (field fl (prefix_of fl (chr "u")) (numeral 10 w), args).
Proof.
  intros Hw. unfold is_u32 in Hw. unfold conversion. change (bool_decide (chr "u" ∈ str "doupx")) with true. change (chr "u" =? chr "d") with false.
  cbv beta iota. destruct (Z.eqb_spec w (- 2 ^ 31)); [lia|]. destruct (Z.ltb_spec w 0); [lia|]. cbn [app]. by rewrite Z.abs_eq by lia.
Qed.

Lemma field_length_le fl prefix body : len (field fl prefix body) ≤ Z.max (fl_width fl) (len prefix + len body).
Proof. unfold field. destruct (fl_left fl); [|destruct (fl_zero fl)]; rewrite !length_app, length_replicate; lia. Qed.

Lemma render_time a b :
  is_u32 a → is_u32 b → ∃ txt, render None (str "Operation took %lu.%09lu seconds" ++ nl) [VWord a; VWord b] = Some txt ∧ len txt < 200.
Proof.
  intros Ha Hb.
  change (str "Operation took %lu.%09lu seconds" ++ nl) with (str "Operation took " ++ chr "%" :: chr "l" :: chr "u" :: chr "." :: chr "%" :: chr "0" :: chr "9" :: chr "l" :: chr "u" :: (str " seconds" ++ nl)).
  rewrite render_text by (repeat (apply list.Forall_cons; split; [discriminate|]); apply list.Forall_nil_2).
  set (fl9 := mk_flags false false true 9).
  eexists. split.
  - cbn [render]. change (s8 (chr "%") =? chr "%") with true. change (s8 (chr "l")) with (chr "l"). change (s8 (chr "u")) with (chr "u").
    change (s8 (chr "0")) with (chr "0"). change (s8 (chr "9")) with (chr "9"). change (s8 (chr ".") =? chr "%") with false.
    change (bool_decide (chr "l" ∈ str "#-ql0123456789")) with true. change (bool_decide (chr "u" ∈ str "#-ql0123456789")) with false.
    change (bool_decide (chr "0" ∈ str "#-ql0123456789")) with true. change (bool_decide (chr "9" ∈ str "#-ql0123456789")) with true. cbv beta iota.
    change (add_flag (chr "l") no_flags) with (Some no_flags). cbn [mbind option_bind]. rewrite conversion_u by done. cbn [mbind option_bind].
    change (add_flag (chr "0") no_flags) with (Some (mk_flags false false true 0)). cbn [mbind option_bind].
    change (add_flag (chr "9") (mk_flags false false true 0)) with (Some fl9). cbn [mbind option_bind].
    change (add_flag (chr "l") fl9) with (Some fl9). cbn [mbind option_bind]. rewrite conversion_u by done. cbn [mbind option_bind].
    change (render None (str " seconds" ++ nl) []) with (Some (str " seconds" ++ nl)). cbn [fmap option_fmap option_map]. reflexivity.
  - pose proof (field_length_le no_flags (prefix_of no_flags (chr "u")) (numeral 10 a)). pose proof (field_length_le fl9 (prefix_of fl9 (chr "u")) (numeral 10 b)).
    assert (is_base 10) as H10 by (unfold is_base; lia). pose proof (numeral_length 10 a H10 Ha). pose proof (numeral_length 10 b H10 Hb).
    change (prefix_of no_flags (chr "u")) with (@nil Z) in *. change (prefix_of fl9 (chr "u")) with (@nil Z) in *. change (fl_width no_flags) with 0 in *. change (fl_width fl9) with 9 in *.
    cbn [length] in *. rewrite !length_app. cbn [length]. rewrite !length_app. change (length (str "Operation took ")) with 15%nat. change (length (str " seconds")) with 8%nat. change (length nl) with 1%nat. lia.
Qed.

(** ** What a command line does *)

Definition white : list Z := [32; 9].
Definition semi : list Z := [59].

(** What the console shows of a text *)
Definition shows (txt : list Z) : list Z := u8 <$> txt.

(** The messages *)
Definition too_many : list Z := str "Command line has too many words" ++ nl.
Definition not_found (w0 : list Z) : list Z := w0 ++ str ": Command not found" ++ nl.
Definition took (secs nsecs : Z) : list Z :=
  default [] (render None (str "Operation took %lu.%09lu seconds" ++ nl) [VWord secs; VWord nsecs]).
Definition failed (r : Z) : list Z := str "Menu command failed: " ++ default [] (zlookup sys_errlist r) ++ nl.
Definition banner (s : list Z) : list Z := str "OS/161 kernel: " ++ s ++ nl.

(** The commands that have been run, each a list of words *)
Definition trace : Type := list (list (list Z)).

Section line.
(** The names of the table; [sure ws]: the command with the words [ws] returns 0. *)
Context (names : list (list Z)) (sure : list (list Z) → bool).

(** The table has the command. *)
Definition known (nms : list (list Z)) (ws : list (list Z)) : bool :=
  match ws with w0 :: _ => bool_decide (w0 ∈ nms) | [] => false end.

(** The words [ws] looked up and run: from the commands run [t] and the text shown [out] to
    [t'] and [out'], with the result [r]. A command shows what it likes, [own]. *)
Definition dispatched nms ws (r : Z) (t : trace) (out : list Z) (t' : trace) (out' : list Z) : Prop :=
  if known nms ws then
    t' = t ++ [ws] ∧ (∃ own secs nsecs, out' = out ++ own ++ shows (took secs nsecs)) ∧ (sure ws = true → r = 0)
  else t' = t ∧ out' = out ++ shows (not_found (default [] (head ws))) ∧ r = EINVAL.

(** One command *)
Definition command_done s (r : Z) (t : trace) (out : list Z) (t' : trace) (out' : list Z) : Prop :=
  let ws := tokens white s in
  if (16 <? length ws)%nat then t' = t ∧ out' = out ++ shows too_many ∧ r = E2BIG
  else if bool_decide (ws = []) then t' = t ∧ out' = out ∧ r = 0
  else dispatched names ws r t out t' out'.

(** The commands of a line, one after the other. With [isargs] each is shown before it runs,
    and none has failed. *)
Fixpoint line_done (isargs : bool) (cs : list (list Z)) (t : trace) (out : list Z) (t' : trace) (out' : list Z) : Prop :=
  match cs with
  | [] => t' = t ∧ out' = out
  | s :: cs => ∃ r t1 out1, 0 ≤ r < sys_nerr ∧
      command_done s r t (out ++ if isargs then shows (banner s) else []) t1 out1 ∧
      (isargs = true → r = 0) ∧
      line_done isargs cs t1 (out1 ++ if r =? 0 then [] else shows (failed r)) t' out'
  end.

(** A command that does not fail *)
Definition succeeds s : bool :=
  let ws := tokens white s in
  (length ws <=? 16)%nat && (bool_decide (ws = []) || known names ws && sure ws).

Lemma succeeds_done s r t out t' out' : succeeds s = true → command_done s r t out t' out' → r = 0.
Proof.
  unfold succeeds, command_done, dispatched. intros [H1 H2]%andb_prop. apply Nat.leb_le in H1. rewrite (proj2 (Nat.ltb_ge 16 _)) by lia.
  destruct (bool_decide (tokens white s = [])); [by intros (_ & _ & ->)|]. cbn [orb] in H2. apply andb_prop in H2 as [-> Hs].
  intros (_ & _ & Hr). by apply Hr.
Qed.
End line.

Section proofs.
Context {W : Type} `{!Console W} (gettime : M W (Z * Z)) (fuel : nat) (s_white s_semi : Z).
Context (cmdtable : list (Z * option (@func W))) (names : list (list Z)) (sure : list (list Z) → bool).

(** [con t]: the console, and the commands [t] have been run. *)
Context (con : trace → W → list Z → list Z → Prop) `{!∀ t, ConsoleLaws W (con t)}.
Definition ran (t : trace) (out : list Z) (w : W) : Prop := ∃ inp, con t w inp out.

(** The line is in memory from [lo] to [hi]; what is in [K] belongs to the menu. *)
Context (lo hi : Z) (K : Z → Prop).
Hypothesis line_range : 0 < lo ∧ hi - lo < 2 ^ 30 ∧ hi - lo < Z.of_nat fuel ∧ ∀ x, lo ≤ x ≤ hi → K x.

Hypothesis gettime_ok : ∀ t out w (Q : Z * Z → W → Prop) E,
  ran t out w → (∀ (sec ns : Z) w', 0 ≤ sec < 2 ^ 31 → is_u32 ns → ran t out w' → Q (sec, ns) w') → wp safe gettime w Q E.

(** A word that has been found, with its end before [lim] *)
Definition word_in m (cmd lim a : Z) s : Prop := cmd ≤ a ∧ a + len s < lim ∧ cstr m a s.

(** A command is called with its words, and writes nothing of the menu's but those. *)
Definition command_ok (fn : @func W) : Prop := ∀ t out args ws m w (Q : Z → mem * W → Prop) E,
  Forall2 (word_in m lo (hi + 1)) args ws → ran t out w →
  (∀ r m' w' own, 0 ≤ r < sys_nerr → (sure ws = true → r = 0) → ran (t ++ [ws]) (out ++ own) w' →
     (∀ x, K x → Forall2 (λ a s, ¬ (a ≤ x ≤ a + len s)) args ws → m' x = m x) → Q r (m', w')) →
  wp safe (fn (len ws) args) (m, w) Q E.

(** The entries of the table for the words [calls], those that the line has as the first word
    of a command, are such commands; the other entries are not called. *)
Context (calls : list (list Z)).
Definition table_ok (table : list (Z * option (@func W))) nms : Prop :=
  Forall2 (λ en nm, nm ∈ calls → ∃ fn, en.2 = Some fn ∧ command_ok fn) table nms.
Hypothesis cmdtable_ok : table_ok cmdtable names.

(** A string of the menu's that no command line reaches *)
Definition constant m (a : Z) s : Prop :=
  cstr m a s ∧ 0 < a ∧ (length s < fuel)%nat ∧ ∀ x, a ≤ x ≤ a + len s → K x ∧ ¬ (lo ≤ x ≤ hi).
Definition constants m : Prop :=
  constant m s_white white ∧ constant m s_semi semi ∧ Forall2 (λ e, constant m e.1) cmdtable names.

Definition line_only (cmd e : Z) m m' : Prop := ∀ x, K x → ¬ (cmd ≤ x ≤ e) → m' x = m x.

Lemma constant_keep m m' a s : line_only lo hi m m' → constant m a s → constant m' a s.
Proof.
  intros Hm (Hs & Ha & Hf & Hk). split; [|done]. eapply cstr_ext; [exact Hs|]. intros x Hx. by apply Hm; apply Hk.
Qed.

Lemma constants_keep m m' : line_only lo hi m m' → constants m → constants m'.
Proof.
  intros Hm (H1 & H2 & H3). split; [by eapply constant_keep|]. split; [by eapply constant_keep|].
  eapply list.Forall2_impl; [exact H3|]. intros e s. by apply constant_keep.
Qed.

Lemma line_only_widen cmd e cmd' e' m m' : cmd' ≤ cmd → e ≤ e' → line_only cmd e m m' → line_only cmd' e' m m'.
Proof. intros H1 H2 Hm x Hk Hx. apply Hm; [done|lia]. Qed.

Lemma line_only_trans cmd e m m1 m2 : line_only cmd e m m1 → line_only cmd e m1 m2 → line_only cmd e m m2.
Proof. intros H1 H2 x Hk Hx. by rewrite H2, H1. Qed.

Lemma say_ok fmt args txt t out m w (Q : () → mem * W → Prop) E :
  Forall is_char fmt → words args → render None fmt args = Some txt → len txt < 2 ^ 31 → len fmt < 2 ^ 31 →
  ran t out w → (∀ w', ran t (out ++ shows txt) w' → Q tt (m, w')) → wp safe (say fmt args) (m, w) Q E.
Proof.
  intros Hf Ha Hr Hl Hlf (inp & Hc) HQ. unfold say, on_con. wp_steps. cbn [fst snd].
  apply (kprintf_ok (con t) fmt args txt w inp out); [done|done|done|done|done|done|]. intros w' Hw'. cbn [fst]. wp_steps. apply HQ. by eexists.
Qed.

Lemma strtok_null sp m (Q : Z * Z → mem → Prop) E : Q (NULL, NULL) m → wp safe (strtok_r fuel NULL sp NULL) m Q E.
Proof. intros HQ. unfold strtok_r. cbn [NULL Z.eqb negb]. by wp_steps. Qed.

Lemma word_in_keep m m' cmd lim p a s :
  (∀ x, x ≠ p → m' x = m x) → lim ≤ p → word_in m cmd lim a s → word_in m' cmd lim a s.
Proof.
  intros Hm Hp (H1 & H2 & H3). split; [done|]. split; [done|]. eapply cstr_ext; [exact H3|]. intros x Hx. apply Hm. lia.
Qed.

(** What is still to be found *)
Definition pending m (e lim word ctx : Z) (seps : list Z) (todo : list (list Z)) : Prop :=
  word = NULL ∧ todo = [] ∨
  ∃ s rest, 0 < word ∧ lim ≤ word ∧ word + len s + len rest ≤ e ∧ cstr m word s ∧ todo = s :: tokens seps rest ∧
    rest_at m ctx e rest ∧ (ctx ≠ NULL → ctx = word + len s + 1).

(** The next word: [strtok_r] on what is left *)
Lemma next_word string sp seps cmd ctx e lim p ws args rest m (Q : Z * Z → mem → Prop) E :
  constant m sp seps → lo ≤ cmd → e ≤ hi → cmd ≤ lim → lim ≤ p ∨ rest = [] → cmd ≤ p ∨ p = NULL →
  (if string =? NULL then ctx else string) = p → rest_at m p e rest →
  Forall2 (word_in m cmd lim) args ws →
  (∀ word' ctx' m', Forall2 (word_in m' cmd lim) args ws → pending m' e lim word' ctx' seps (tokens seps rest) →
     (∀ x, ¬ (cmd ≤ x ≤ e) → m' x = m x) → Q (word', ctx') m') →
  wp safe (strtok_r fuel string sp ctx) m Q E.
Proof.
  intros (Hsp & Hsp0 & Hfsp & _) Hlo He Hcl Hlp Hpc Hp Hrest Hws HQ. destruct Hrest as [[-> ->]|(Hp0 & Hs & Hpe)].
  - assert (string = NULL ∧ ctx = NULL) as [-> ->] by (destruct (Z.eqb_spec string NULL); done).
    apply strtok_null, HQ; [done|by left|done].
  - destruct Hpc as [Hpc| ->]; [|unfold NULL in Hp0; lia].
    apply (strtok_r_ok fuel string sp seps ctx p rest); [done|done|done|done|done|done|destruct line_range; lia| |].
    + intros Ht. rewrite Ht in HQ. apply HQ; [done|by left|done].
    + intros w rest' h ctx' m' Ht Hph Hend Hw Hr Hm Hsame Hctx. apply HQ.
      * destruct Hlp as [Hlp|Hnil]; [|subst rest; discriminate Ht].
        eapply list.Forall2_impl; [exact Hws|]. intros a s. apply (word_in_keep m m' cmd lim (h + len w)); [done|lia].
      * right. exists w, rest'. split; [lia|]. split; [destruct Hlp as [|Hnil]; [lia|subst rest; discriminate Ht]|]. split; [lia|]. split; [done|].
        split; [done|]. split; [by rewrite Hpe in Hr|done].
      * intros x Hx. destruct (Z.eq_dec x (h + len w)) as [->|]; [exfalso; lia|by apply Hm].
Qed.

Lemma tokens_from_ne acc seps s : Forall (λ w, w ≠ []) (tokens_from acc seps s).
Proof.
  revert acc. induction s as [|c s IH]; intros acc; cbn [tokens_from].
  - unfold emit. destruct acc; [apply list.Forall_nil_2|by apply list.Forall_singleton].
  - destruct (bool_decide (c ∈ seps)); [|apply IH]. apply Forall_app. split; [|apply IH].
    unfold emit. destruct acc; [apply list.Forall_nil_2|by apply list.Forall_singleton].
Qed.

Lemma tokens_length acc seps s : (length (tokens_from acc seps s) ≤ length acc + length s)%nat.
Proof.
  revert acc. induction s as [|c s IH]; intros acc; cbn [tokens_from].
  - unfold emit. destruct acc; cbn; lia.
  - destruct (bool_decide (c ∈ seps)); [|etrans; [apply IH|]; rewrite length_app; cbn; lia].
    rewrite length_app. specialize (IH []). unfold emit. destruct acc; cbn in *; lia.
Qed.

Lemma word_in_lim m cmd lim lim' a s : lim ≤ lim' → word_in m cmd lim a s → word_in m cmd lim' a s.
Proof. intros Hl (H1 & H2 & H3). split; [done|]. split; [lia|done]. Qed.

Lemma get_words_ok f cmd e lim word ctx args ws todo t out m w (Q : option (list Z) → mem * W → Prop) E :
  (length todo < f)%nat → constants m → lo ≤ cmd → e ≤ hi → cmd ≤ lim ≤ e + 1 →
  Forall2 (word_in m cmd lim) args ws → pending m e lim word ctx white todo → ran t out w → (length ws ≤ 16)%nat →
  (∀ m' w', line_only cmd e m m' → ran t (out ++ shows too_many) w' → (16 < length (ws ++ todo))%nat → Q None (m', w')) →
  (∀ m' w' args', line_only cmd e m m' → ran t out w' → (length (ws ++ todo) ≤ 16)%nat →
     Forall2 (word_in m' cmd (e + 1)) args' (ws ++ todo) → Q (Some args') (m', w')) →
  wp safe (get_words fuel s_white f word ctx args) (m, w) Q E.
Proof.
  revert lim word ctx args ws todo m w. induction f as [|f IH]; intros lim word ctx args ws todo m w Hf Hcon Hlo He Hlim Hws Hpend Hran H16 HN HS; [lia|].
  cbn [get_words]. destruct Hpend as [[-> ->]|(s & rest & Hw0 & Hlw & Hend & Hs & -> & Hrest & Hctx)].
  { change (NULL =? NULL) with true. wp_steps. rewrite app_nil_r in HS. apply HS; [done|done|done|].
    eapply list.Forall2_impl; [exact Hws|]. intros a s. apply word_in_lim. lia. }
  destruct (Z.eqb_spec word NULL) as [->|_]; [unfold NULL in Hw0; lia|]. pose proof (list.Forall2_length _ _ _ Hws) as Hlen.
  destruct (Z.leb_spec MAXMENUARGS (len args)) as [Hmax|Hmax]; unfold MAXMENUARGS in Hmax.
  - wp_steps. apply (say_ok _ _ too_many t out); [| |reflexivity|reflexivity|reflexivity|done|].
    + repeat (apply list.Forall_cons; split; [split; reflexivity|]). apply list.Forall_nil_2.
    + apply list.Forall_nil_2.
    + intros w' Hw'. wp_steps. apply HN; [done|done|]. rewrite length_app. cbn [length]. lia.
  - unfold on_mem. wp_steps. cbn [fst snd]. set (lim' := word + len s + 1).
    apply (next_word NULL s_white white cmd ctx e lim' ctx (ws ++ [s]) (args ++ [word]) rest m);
      [apply Hcon|done|done|unfold lim'; lia| | |done|done| |].
    + destruct Hrest as [[_ ->]|(Hc0 & _)]; [by right|left]. unfold lim'. rewrite Hctx by (unfold NULL; lia). lia.
    + destruct Hrest as [[-> _]|(Hc0 & _)]; [by right|left]. rewrite Hctx by (unfold NULL; lia). lia.
    + apply Forall2_app; [|apply list.Forall2_cons; split; [|constructor]].
      * eapply list.Forall2_impl; [exact Hws|]. intros a s'. apply word_in_lim. unfold lim'. lia.
      * split; [lia|]. split; [unfold lim'; lia|done].
    + intros word' ctx' m' Hws' Hpend' Hm'. cbn [fst snd].
      assert (line_only cmd e m m') as Hlo' by (intros x _ Hx; by apply Hm').
      apply (IH lim' word' ctx' (args ++ [word]) (ws ++ [s]) (tokens white rest)).
      * cbn [length] in Hf. lia.
      * eapply constants_keep; [|exact Hcon]. by eapply (line_only_widen cmd e).
      * done.
      * done.
      * unfold lim'. lia.
      * done.
      * done.
      * done.
      * rewrite length_app. cbn [length]. lia.
      * intros m2 w2 H2 Hr2 Hl2. apply HN; [by eapply line_only_trans|done|]. rewrite <- (assoc_L (++)) in Hl2. done.
      * intros m2 w2 args2 H2 Hr2 Hl2 Hf2. rewrite <- (assoc_L (++)) in Hl2, Hf2. apply HS; [by eapply line_only_trans|done|done|done].
Qed.

Lemma cstr_chars m a s : cstr m a s → Forall is_char s.
Proof. intros Hs. rewrite <- (app_nil_r s) in Hs. by destruct (cstr_app _ _ _ _ Hs). Qed.

Lemma sint_ok z st (Q : Z → mem * W → Prop) E : - 2 ^ 31 ≤ z < 2 ^ 31 → Q z st → wp safe (sint z) st Q E.
Proof. intros Hz HQ. unfold sint. replace ((- 2 ^ 31 <=? z) && (z <? 2 ^ 31)) with true by lia. by wp_steps. Qed.

Lemma getinterval_ok (s1 ns1 s2 ns2 : Z) st (Q : Z * Z → mem * W → Prop) E :
  0 ≤ s1 < 2 ^ 31 → 0 ≤ s2 < 2 ^ 31 → (∀ rs rns, Q (rs, rns) st) → wp safe (getinterval s1 ns1 s2 ns2) st Q E.
Proof.
  intros H1 H2 HQ. unfold getinterval. wp_steps. destruct (ns2 <? ns1); wp_steps.
  - apply sint_ok; [lia|]. wp_steps. apply sint_ok; [lia|]. wp_steps. apply HQ.
  - apply sint_ok; [lia|]. wp_steps. apply HQ.
Qed.

(** The function of the table, between the two looks at the clock *)
Lemma run_command_ok fn cmd e arg0 args w0 ws t out m w (Q : Z → mem * W → Prop) E :
  command_ok fn → lo ≤ cmd → e ≤ hi → Forall2 (word_in m cmd (e + 1)) (arg0 :: args) (w0 :: ws) → ran t out w →
  (∀ r m' w' own secs nsecs, 0 ≤ r < sys_nerr → (sure (w0 :: ws) = true → r = 0) → line_only cmd e m m' →
     ran (t ++ [w0 :: ws]) (out ++ own ++ shows (took secs nsecs)) w' → Q r (m', w')) →
  wp safe ('(beforesecs, beforensecs) ← on_con gettime;
           result ← fn (len (w0 :: ws)) (arg0 :: args);
           '(aftersecs, afternsecs) ← on_con gettime;
           '(secs, nsecs) ← getinterval beforesecs beforensecs aftersecs afternsecs;
           say (str "Operation took %lu.%09lu seconds" ++ nl) [VWord (u32 secs); VWord (u32 nsecs)];;
           mret result) (m, w) Q E.
Proof.
  intros Hok Hlo He Hargs Hran HQ. unfold on_con. wp_steps. cbn [fst snd].
  eapply gettime_ok; [done|]. intros s1 ns1 w1 Hs1 _ Hr1. cbn [fst snd]. wp_steps.
  apply (Hok t out (arg0 :: args) (w0 :: ws)); [|done|].
  { eapply list.Forall2_impl; [exact Hargs|]. intros a s (? & ? & ?); split; [lia|split; [lia|done]]. }
  intros r' m' w2 own Hr' Hsure Hr2 Hm'. wp_steps. cbn [fst snd]. eapply gettime_ok; [done|]. intros s2 ns2 w3 Hs2 _ Hr3. cbn [fst snd]. wp_steps.
  apply getinterval_ok; [done|done|]. intros rs rns. wp_steps.
  destruct (render_time (u32 rs) (u32 rns)) as (txt & Htxt & Hlt); [apply u32_range|apply u32_range|].
  apply (say_ok _ _ txt (t ++ [w0 :: ws]) (out ++ own)); [| |done|lia|reflexivity|done|].
  - repeat (apply list.Forall_cons; split; [split; reflexivity|]). apply list.Forall_nil_2.
  - apply list.Forall_cons; split; [apply u32_range|]. apply list.Forall_singleton. apply u32_range.
  - intros w4 Hr4. wp_steps. apply (HQ _ _ _ own (u32 rs) (u32 rns)); [done|done| |].
    + intros x Hk Hx. apply Hm'; [done|]. eapply list.Forall2_impl; [exact Hargs|]. intros a s (H1 & H2 & _). lia.
    + unfold took. rewrite Htxt. cbn [default from_option id]. by rewrite (assoc_L (++)).
Qed.

Lemma find_command_ok table nms cmd e arg0 args w0 ws t out m w (Q : Z → mem * W → Prop) E :
  Forall2 (λ en, constant m en.1) table nms → table_ok table nms → w0 ∈ calls →
  constants m → lo ≤ cmd → e ≤ hi → Forall2 (word_in m cmd (e + 1)) (arg0 :: args) (w0 :: ws) → w0 ≠ [] → ran t out w →
  (∀ r m' w' t' out', 0 ≤ r < sys_nerr → line_only cmd e m m' → dispatched sure nms (w0 :: ws) r t out t' out' →
     ran t' out' w' → Q r (m', w')) →
  wp safe (find_command gettime fuel table (len (w0 :: ws)) arg0 (arg0 :: args)) (m, w) Q E.
Proof.
  intros Hnms Htab Hcall Hcon Hlo He Hargs Hne Hran HQ.
  assert (cstr m arg0 w0 ∧ len w0 < 2 ^ 30 ∧ (length w0 < fuel)%nat) as (Hw0 & Hl0 & Hf0).
  { apply list.Forall2_cons in Hargs as [(H1 & H2 & H3) _]. split; [done|]. destruct line_range as (? & ? & ? & _). lia. }
  induction Hnms as [|[na fn] nm table nms Hna Hnms IH]; cbn [find_command].
  - unfold on_mem. wp_steps. cbn [fst snd]. apply (string_at_ok fuel arg0 w0); [done|done|]. wp_steps. cbn [fst snd].
    apply (say_ok _ _ (not_found w0) t out); [| | | |reflexivity|done|].
    + repeat (apply list.Forall_cons; split; [split; reflexivity|]). apply list.Forall_nil_2.
    + by apply list.Forall_singleton.
    + change (str "%s: Command not found" ++ nl) with (str "%s" ++ str ": Command not found" ++ nl). by rewrite render_str.
    + unfold not_found. rewrite !length_app. change (length (str ": Command not found")) with 19%nat. change (length nl) with 1%nat. lia.
    + intros w' Hw'. wp_steps. apply (HQ _ _ _ t (out ++ shows (not_found w0))); [split; [done|reflexivity]|done|done|done].
  - apply list.Forall2_cons in Htab as [Hfn Htab]. pose proof Hna as (Hnm & Hna0 & Hfna & _). cbn [fst snd] in *.
    unfold on_mem, ldb. wp_steps. cbn [fst snd].
    assert (∀ (Q' : Z → mem * W → Prop) E', (∀ r, r = 0 ↔ w0 = nm → Q' r (m, w)) →
      wp safe (if m na =? 0 then mret 1 else zoom fst (λ m st, (m, st.2)) (strcmp fuel arg0 na)) (m, w) Q' E') as Hcmp.
    { intros Q' E' HQ'. destruct nm as [|c nm].
      - cbn in Hnm. rewrite Hnm. cbn [Z.eqb]. wp_steps. apply HQ'. split; [done|]. intros ->. done.
      - pose proof Hnm as (-> & Hc & _). rewrite is_char_ne by done. wp_steps. cbn [fst snd].
        apply (strcmp_ok fuel arg0 na w0 (c :: nm)); [done|done|done|lia|]. cbn [fst snd]. apply HQ'.
        apply scompare_eq; by eapply cstr_chars. }
    apply Hcmp. clear Hcmp. intros r Hr. destruct (Z.eqb_spec r 0) as [H0|H0].
    + apply Hr in H0. subst nm. destruct (Hfn Hcall) as (fn' & -> & Hok). apply wp_bind, wp_ret.
      apply (run_command_ok fn' cmd e arg0 args w0 ws t out); [done|done|done|done|done|].
      intros r' m' w' own secs nsecs Hr' Hsure Hm' Hr2. apply (HQ _ _ _ (t ++ [w0 :: ws]) (out ++ own ++ shows (took secs nsecs))); [done|done| |done].
      unfold dispatched, known. rewrite bool_decide_true by apply list_elem_of_here. split; [done|]. split; [by do 3 eexists|done].
    + assert (w0 ≠ nm) as Hnn by (intros ->; by apply H0, Hr). apply IH; [done|]. intros r' m' w' t' out' Hr' Hm' Hd. apply HQ; [done|done|].
      unfold dispatched, known in *. replace (bool_decide (w0 ∈ nm :: nms)) with (bool_decide (w0 ∈ nms)); [done|].
      apply bool_decide_ext. rewrite elem_of_cons. split; [by right|by intros [?|?]].
Qed.

Lemma cmd_dispatch_ok cmd s t out m w (Q : Z → mem * W → Prop) E :
  constants m → lo ≤ cmd → cmd + len s ≤ hi → cstr m cmd s → head (tokens white s) ∈ None :: (Some <$> calls) → ran t out w →
  (∀ r m' w' t' out', 0 ≤ r < sys_nerr → command_done names sure s r t out t' out' → line_only cmd (cmd + len s) m m' →
     ran t' out' w' → Q r (m', w')) →
  wp safe (cmd_dispatch gettime fuel s_white cmdtable cmd) (m, w) Q E.
Proof.
  intros Hcon Hlo He Hs Hcall Hran HQ. unfold cmd_dispatch. unfold on_mem at 1. wp_steps. cbn [fst snd].
  set (e := cmd + len s) in *. assert (0 < cmd) as Hc0 by (destruct line_range; lia).
  apply (next_word cmd s_white white cmd NULL e cmd cmd [] [] s m); [apply Hcon|done|done|done|by left|by left| |by right|constructor|].
  { destruct (Z.eqb_spec cmd NULL); [unfold NULL in *; lia|done]. }
  intros word ctx m1 _ Hpend Hm1. cbn [fst snd]. wp_steps. assert (line_only cmd e m m1) as Hlo1 by (intros x _ Hx; by apply Hm1).
  assert (constants m1) as Hcon1 by (eapply constants_keep; [|exact Hcon]; by eapply (line_only_widen cmd e)).
  pose proof (tokens_length [] white s) as Htl. cbn [length] in Htl. fold (tokens white s) in Htl.
  assert (length s < fuel)%nat as Hfs by (destruct line_range as (? & ? & ? & _); lia).
  unfold command_done in HQ. apply (get_words_ok fuel cmd e cmd word ctx [] [] (tokens white s) t out m1);
    [lia|done|done|done|unfold e; lia|constructor|done|done|cbn; lia| |].
  - intros m2 w2 Hl2 Hr2 H16. cbn [app] in H16. wp_steps. rewrite (proj2 (Nat.ltb_lt 16 _)) in HQ by done.
    eapply HQ; [split; [done|reflexivity]|done|by eapply line_only_trans|done].
  - intros m2 w2 args Hl2 Hr2 H16 Hargs. cbn [app] in H16, Hargs. rewrite (proj2 (Nat.ltb_ge 16 _)) in HQ by done.
    assert (line_only cmd e m m2) as Hlo2 by (by eapply line_only_trans). wp_steps.
    pose proof (tokens_from_ne [] white s) as Hne. fold (tokens white s) in Hne.
    destruct (tokens white s) as [|w0 ws] eqn:Ht.
    + apply Forall2_nil_inv_r in Hargs. subst args. wp_steps. by eapply HQ; [split; [done|reflexivity]|..].
    + pose proof (list.Forall2_length _ _ _ Hargs) as Hlen. destruct args as [|arg0 args]; [done|]. rewrite Hlen.
      assert (constants m2) as Hcon2 by (eapply constants_keep; [|exact Hcon]; by eapply (line_only_widen cmd e)).
      apply list.Forall_cons in Hne as [Hne _].
      apply (find_command_ok cmdtable names cmd e arg0 args w0 ws t out m2 w2); [apply Hcon2|done| |done|done|done|done|done|done|].
      * cbn [head] in Hcall. apply elem_of_cons in Hcall as [?|Hcall]; [done|]. apply list_elem_of_fmap in Hcall as (x & [= ->] & Hx). done.
      * intros r m3 w3 t' out' Hr Hlo3 Hd Hr3. eapply HQ; [done|by rewrite bool_decide_false by done|by eapply line_only_trans|done].
Qed.

Lemma strerror_ok r st (Q : list Z → mem * W → Prop) E :
  0 ≤ r < sys_nerr → (len (default [] (zlookup sys_errlist r)) < 100 → Q (default [] (zlookup sys_errlist r)) st) →
  wp safe (strerror r) st Q E.
Proof.
  intros Hr HQ. unfold strerror. replace ((0 <=? r) && (r <? sys_nerr)) with true by lia.
  destruct (zlookup_lt_is_Some sys_errlist r Hr) as [txt Ht]. eapply wp_the; [exact Ht|].
  rewrite Ht in HQ. apply HQ. cbn [default from_option id].
  assert (Forall (λ l : list Z, len l < 100) sys_errlist) as HF.
  { repeat (apply list.Forall_cons; split; [reflexivity|]). apply list.Forall_nil_2. }
  unfold zlookup in Ht. destruct (0 <=? r); [|done]. by apply (Forall_lookup_1 _ _ _ _ HF Ht).
Qed.

Lemma rest_keep cmd e' e ctx rest m m' :
  e ≤ hi → line_only cmd e' m m' → (ctx ≠ NULL → e' < ctx ∧ lo ≤ ctx) → rest_at m ctx e rest → rest_at m' ctx e rest.
Proof.
  intros He Hm Hc [[-> ->]|(H0 & Hs & Hend)]; [by left|right]. split; [done|]. split; [|done].
  assert (e' < ctx ∧ lo ≤ ctx) as [Hlt Hlc] by (apply Hc; unfold NULL; lia). eapply cstr_ext; [exact Hs|]. intros x Hx.
  apply Hm; [destruct line_range as (_ & _ & _ & HK); apply HK; lia|lia].
Qed.

(** Panics only because of a command of [todo] that may fail, and only with [isargs] *)
Definition may_panic (isargs : bool) (todo : list (list Z)) (f : fault) : Prop :=
  isargs = true ∧ f = Panic_called ∧ ∃ c, c ∈ todo ∧ succeeds names sure c = false.

Lemma banner_ok (isargs : bool) command s t out m w (Q : () → mem * W → Prop) E :
  cstr m command s → len s < 2 ^ 30 → (length s < fuel)%nat → ran t out w →
  (∀ w', ran t (out ++ if isargs then shows (banner s) else []) w' → Q tt (m, w')) →
  wp safe (when isargs (s ← on_mem (string_at fuel command); say (str "OS/161 kernel: %s" ++ nl) [VStr (Some s)])) (m, w) Q E.
Proof.
  intros Hs Hl Hf Hran HQ. apply wp_when; [|intros ->; apply HQ; by rewrite app_nil_r]. intros ->. unfold on_mem. wp_steps. cbn [fst snd].
  apply (string_at_ok fuel command s); [done|done|]. wp_steps. cbn [fst snd].
  apply (say_ok _ _ (banner s) t out); [| | | |reflexivity|done|done].
  - repeat (apply list.Forall_cons; split; [split; reflexivity|]). apply list.Forall_nil_2.
  - by apply list.Forall_singleton.
  - change (str "OS/161 kernel: %s" ++ nl) with (str "OS/161 kernel: " ++ str "%s" ++ nl).
    rewrite render_text by (repeat (apply list.Forall_cons; split; [discriminate|]); apply list.Forall_nil_2). by rewrite render_str.
  - unfold banner. rewrite !length_app. change (length (str "OS/161 kernel: ")) with 15%nat. change (length nl) with 1%nat. lia.
Qed.

(** The report of a command that failed; with [isargs] it is the last thing shown. *)
Lemma report_ok F (isargs : bool) r t out m w (Q : () → mem * W → Prop) E :
  0 ≤ r < sys_nerr → (isargs = true → r ≠ 0 → F Panic_called) → ran t out w →
  (∀ w', (isargs = true → r = 0) → ran t (out ++ if r =? 0 then [] else shows (failed r)) w' → Q tt (m, w')) →
  wp F (when (negb (r =? 0)) (
          e ← strerror r;
          say (str "Menu command failed: %s" ++ nl) [VStr (Some e)];;
          when isargs panic)) (m, w) Q E.
Proof.
  intros Hr HF Hran HQ. destruct (Z.eqb_spec r 0) as [->|Hr0]; cbn [negb when].
  { wp_steps. apply HQ; [done|]. by rewrite app_nil_r. }
  wp_steps. apply wp_faults with safe; [|done]. apply strerror_ok; [done|]. intros Htxt. wp_steps. apply wp_faults with safe; [|done].
  apply (say_ok _ _ (failed r) t out); [| | | |reflexivity|done|].
  - repeat (apply list.Forall_cons; split; [split; reflexivity|]). apply list.Forall_nil_2.
  - by apply list.Forall_singleton.
  - change (str "Menu command failed: %s" ++ nl) with (str "Menu command failed: " ++ str "%s" ++ nl).
    rewrite render_text by (repeat (apply list.Forall_cons; split; [discriminate|]); apply list.Forall_nil_2). by rewrite render_str.
  - unfold failed. rewrite !length_app. change (length (str "Menu command failed: ")) with 21%nat. change (length nl) with 1%nat. lia.
  - intros w2 Hr2. wp_steps. apply wp_when; [intros Hi; by apply HF|]. intros ->. apply HQ; [done|done].
Qed.

Lemma execute_from_ok F isargs f e lim command ctx todo t out m w (Q : () → mem * W → Prop) E :
  (∀ ft, may_panic isargs todo ft → F ft) →
  (length todo < f)%nat → constants m → e ≤ hi → lo ≤ lim → pending m e lim command ctx semi todo →
  (∀ c, c ∈ todo → head (tokens white c) ∈ None :: (Some <$> calls)) → ran t out w →
  (∀ m' w' t' out', line_done names sure isargs todo t out t' out' → ran t' out' w' → Q tt (m', w')) →
  wp F (execute_from gettime fuel s_white s_semi cmdtable f command ctx isargs) (m, w) Q E.
Proof.
  revert lim command ctx todo t out m w Q. induction f as [|f IH]; intros lim command ctx todo t out m w Q HF Hf Hcon He Hlim Hpend Hcalls Hran HQ; [lia|].
  cbn [execute_from]. destruct Hpend as [[-> ->]|(s & rest & Hw0 & Hlw & Hend & Hs & -> & Hrest & Hctx)].
  { change (NULL =? NULL) with true. wp_steps. by apply (HQ _ _ t out). }
  destruct (Z.eqb_spec command NULL) as [->|_]; [unfold NULL in Hw0; lia|]. wp_steps.
  apply wp_faults with safe; [|done]. assert (len s < 2 ^ 30 ∧ (length s < fuel)%nat) as [Hl30 Hlf] by (destruct line_range as (? & ? & ? & _); lia).
  apply (banner_ok isargs command s t out); [done|done|done|done|]. intros w0 Hr0. wp_steps. apply wp_faults with safe; [|done].
  eapply (cmd_dispatch_ok command s t); [done|lia|lia|done|apply Hcalls, list_elem_of_here|done|].
  intros r m1 w1 t1 out1 Hr Hdone Hm1 Hr1. wp_steps.
  assert (constants m1) as Hcon1 by (eapply constants_keep; [|exact Hcon]; by eapply (line_only_widen command (command + len s)); [lia|lia|]).
  assert (rest_at m1 ctx e rest) as Hrest1.
  { eapply (rest_keep command (command + len s)); [done|exact Hm1| |exact Hrest]. intros Hn. rewrite Hctx by done. lia. }
  apply (report_ok F isargs r t1 out1); [done| |done|].
  { intros Hi Hr0'. apply HF. split; [done|]. split; [done|]. exists s. split; [apply list_elem_of_here|].
    destruct (succeeds names sure s) eqn:Hsu; [|done]. by destruct Hr0'; eapply succeeds_done. }
  intros w2 Hi Hr2. unfold on_mem. wp_steps. cbn [fst snd]. set (lim' := command + len s + 1). apply wp_faults with safe; [|done].
  apply (next_word NULL s_semi semi lo ctx e lim' ctx [] [] rest m1); [apply Hcon1|done|done|unfold lim'; lia| | |done|done|constructor|].
  - destruct Hrest as [[_ ->]|(Hc0 & _)]; [by right|left]. unfold lim'. rewrite Hctx by (unfold NULL; lia). lia.
  - destruct Hrest as [[-> _]|(Hc0 & _)]; [by right|left]. rewrite Hctx by (unfold NULL; lia). lia.
  - intros word' ctx' m2 _ Hpend' Hm2. cbn [fst snd].
    eapply (IH lim' word' ctx' (tokens semi rest) t1); [|cbn [length] in Hf; lia| |done|unfold lim'; lia|done| |done|].
    + intros ft (H1 & H2 & c & Hc & H3). apply HF. split; [done|]. split; [done|]. exists c. split; [by apply list_elem_of_further|done].
    + eapply constants_keep; [|exact Hcon1]. intros x _ Hx. apply Hm2. lia.
    + intros c Hc. by apply Hcalls, list_elem_of_further.
    + intros m' w' t' out' Hd Hr'. apply (HQ _ _ t' out'); [|done]. cbn [line_done]. by exists r, t1, out1.
Qed.

Lemma menu_execute_ok isargs line s t out m w (Q : () → mem * W → Prop) E :
  constants m → lo = line → line + len s = hi → cstr m line s →
  (∀ c, c ∈ tokens semi s → head (tokens white c) ∈ None :: (Some <$> calls)) → ran t out w →
  (∀ m' w' t' out', line_done names sure isargs (tokens semi s) t out t' out' → ran t' out' w' → Q tt (m', w')) →
  wp (may_panic isargs (tokens semi s)) (menu_execute gettime fuel s_white s_semi cmdtable line isargs) (m, w) Q E.
Proof.
  intros Hcon <- Hhi Hs Hcalls Hran HQ. unfold menu_execute. unfold on_mem at 1. wp_steps. cbn [fst snd]. destruct line_range as (Hlo0 & _ & Hfl & _).
  apply wp_faults with safe; [|done].
  apply (next_word lo s_semi semi lo NULL hi lo lo [] [] s m); [apply Hcon|done|done|done|by left|by left| |by right|constructor|].
  { destruct (Z.eqb_spec lo NULL); [unfold NULL in *; lia|done]. }
  intros command ctx m1 _ Hpend Hm1. cbn [fst snd]. wp_steps.
  apply (execute_from_ok _ isargs fuel hi lo command ctx (tokens semi s) t out m1 w); [done| | |done|done|done|done|done|done].
  - pose proof (tokens_length [] semi s) as Hl. cbn [length] in Hl. fold (tokens semi s) in Hl. lia.
  - eapply constants_keep; [|exact Hcon]. intros x _ Hx. by apply Hm1.
Qed.
End proofs.

(** The first words of the commands of a line *)
Definition first_words (s : list Z) : list (list Z) := omap (λ c, head (tokens white c)) (tokens semi s).

Lemma first_words_calls s c : c ∈ tokens semi s → head (tokens white c) ∈ None :: (Some <$> first_words s).
Proof.
  intros Hc. destruct (head (tokens white c)) as [w0|] eqn:Hw; [|apply list_elem_of_here].
  apply list_elem_of_further, list_elem_of_fmap. exists w0. split; [done|]. apply list_elem_of_omap. by exists c.
Qed.

(** C29: A command line of the menu runs its commands in their order: the line is cut at the
    semicolons and each command at its blanks. A command whose first word is in the table is
    called with all its words, at most sixteen of them, and the time it took is shown behind
    what it showed itself; a command that is not in the table, or that has too many words,
    calls nothing and the console shows why. After a command whose result is not 0 the console
    shows the text of the error. With [isargs] each command is shown before it runs, and a
    command that fails ends in a panic; no panic comes otherwise. The functions that the line
    calls are assumed to return, with an error number that exists, and to leave the menu's
    strings alone; of the other functions of the table nothing is assumed. *)
Theorem menu_execute_spec {W : Type} `{!Console W} (gettime : M W (Z * Z)) fuel s_white s_semi cmdtable names sure
    (con : trace → W → list Z → list Z → Prop) `{!∀ t, ConsoleLaws W (con t)} lo hi (K : Z → Prop) isargs s out m w :
  0 < lo ∧ hi - lo < 2 ^ 30 ∧ hi - lo < Z.of_nat fuel ∧ (∀ x, lo ≤ x ≤ hi → K x) →
  (∀ t out w (Q : Z * Z → W → Prop) E, ran con t out w →
     (∀ (sec ns : Z) w', 0 ≤ sec < 2 ^ 31 → is_u32 ns → ran con t out w' → Q (sec, ns) w') → wp safe gettime w Q E) →
  table_ok sure con lo hi K (first_words s) cmdtable names →
  constants fuel s_white s_semi cmdtable names lo hi K m → lo + len s = hi → cstr m lo s → ran con [] out w →
  wp (may_panic names sure isargs (tokens semi s)) (menu_execute gettime fuel s_white s_semi cmdtable lo isargs) (m, w)
    (λ _ st, ∃ t' out', line_done names sure isargs (tokens semi s) [] out t' out' ∧ ran con t' out' st.2) noerr.
Proof.
  intros Hline Hgt Htab Hcon Hhi Hs Hran.
  apply (menu_execute_ok gettime fuel s_white s_semi cmdtable names sure con lo hi K Hline Hgt (first_words s) Htab isargs lo s [] out);
    [done|done|done|done|apply first_words_calls|done|]. intros m' w' t' out' Hd Hr. by exists t', out'.
Qed.

(** A console that remembers the commands *)
Module TracedConsole.
Definition W : Type := SimpleConsole.W * trace.

Definition lift {A} (p : M SimpleConsole.W A) : M W A := zoom fst (λ c w, (c, w.2)) p.
#[export] Instance traced_console : Console W := {|
  putch c := lift (@putch _ SimpleConsole.console c);
  getch := lift (@getch _ SimpleConsole.console);
  beep := mret tt;
  may_lock _ := false;
  klock_acquire := mret tt;
  klock_release := mret tt |}.

Definition con (t : trace) (w : W) (inp out : list Z) : Prop := w = ((inp, out), t).

#[export] Instance traced_laws t : ConsoleLaws W (con t).
Proof.
  split.
  - intros w inp out c Q E -> HQ. cbn [putch traced_console]. unfold lift. wp_steps. cbn [putch SimpleConsole.console]. wp_steps. by apply HQ.
  - intros w inp out c Q E -> HQ. by apply HQ.
  - intros w inp out Q E Hc HQ. cbn [beep traced_console]. wp_steps. by apply HQ.
  - intros w inp out Q E Hc _ HQ. cbn [klock_acquire traced_console]. wp_steps. by apply HQ.
  - intros w inp out Q E Hc _ HQ. cbn [klock_release traced_console]. wp_steps. by apply HQ.
Qed.

Fixpoint strings (fuel : nat) (args : list Z) : M (mem * W) (list (list Z)) :=
  match args with
  | [] => mret []
  | a :: args => s ← on_mem (string_at fuel a); l ← strings fuel args; mret (s :: l)
  end.

(** A command that notes its words *)
Definition note (fuel : nat) : @func W := λ _ args,
  ws ← strings fuel args;
  modify (λ st, (st.1, (st.2.1, st.2.2 ++ [ws])));;
  mret 0.

Definition clock : M W (Z * Z) := mret (0, 0).

Lemma strings_ok fuel lo hi args ws m w (Q : list (list Z) → mem * W → Prop) E :
  hi - lo < Z.of_nat fuel → Forall2 (word_in m lo (hi + 1)) args ws → Q ws (m, w) → wp safe (strings fuel args) (m, w) Q E.
Proof.
  intros Hf Hargs. revert Q. induction Hargs as [|a s args ws (H1 & H2 & H3) Hargs IH]; intros Q HQ; cbn [strings]; [by wp_steps|].
  unfold on_mem. wp_steps. cbn [fst snd]. apply (string_at_ok fuel a s); [done|lia|]. cbn [fst snd]. wp_steps. apply IH. by wp_steps.
Qed.

Lemma note_ok fuel lo hi : hi - lo < Z.of_nat fuel → command_ok (λ _, true) con lo hi (λ _, True) (note fuel).
Proof.
  intros Hf t out args ws m w Q E Hargs (inp & ->) HQ. unfold note. wp_steps.
  apply (strings_ok fuel lo hi args ws); [done|done|]. wp_steps. cbn [fst snd].
  apply (HQ _ _ _ []); [split; [done|reflexivity]|done|by eexists; rewrite app_nil_r|done].
Qed.
End TracedConsole.
Import TracedConsole.

Definition menu_line : list Z := str "p cat f1;q; zz 3".
Definition menu_mem : mem := λ x,
  default (default (default (default (default (default 0
    (zlookup (str "halt") (x - 2040))) (zlookup (str "q") (x - 2030))) (zlookup (str "p") (x - 2020))) (zlookup semi (x - 2010))) (zlookup white (x - 2000)))
    (zlookup menu_line (x - 1000)).

(** [p] and [q] are run, [zz] is not found; the function of [halt] would not return. *)
Lemma menu_execute_spec_witness :
  wp (may_panic [str "p"; str "q"; str "halt"] (λ _, true) false (tokens semi menu_line))
    (menu_execute TracedConsole.clock 64 2000 2010
      [(2020, Some (TracedConsole.note 64)); (2030, Some (TracedConsole.note 64)); (2040, Some (λ _ _, noreturn))] 1000 false)
    (menu_mem, (([], []), []))
    (λ _ st, ∃ t' out', line_done [str "p"; str "q"; str "halt"] (λ _, true) false (tokens semi menu_line) [] [] t' out' ∧
       ran TracedConsole.con t' out' st.2) noerr.
Proof.
  apply (menu_execute_spec TracedConsole.clock 64 2000 2010
    [(2020, Some (TracedConsole.note 64)); (2030, Some (TracedConsole.note 64)); (2040, Some (λ _ _, noreturn))]
    [str "p"; str "q"; str "halt"] (λ _, true) TracedConsole.con 1000 1016 (λ _, True) false menu_line).
  - split; [lia|]. split; [lia|]. split; [lia|done].
  - intros t out w Q E Hr HQ. unfold TracedConsole.clock. wp_steps. by apply HQ.
  - apply list.Forall2_cons; split; [by intros _; eexists; split; [reflexivity|apply TracedConsole.note_ok]|].
    apply list.Forall2_cons; split; [by intros _; eexists; split; [reflexivity|apply TracedConsole.note_ok]|].
    apply list.Forall2_cons; split; [|constructor]. intros Hin. exfalso. revert Hin. by apply (bool_decide_unpack (str "halt" ∉ first_words menu_line)).
  - assert (∀ a s, cstr menu_mem a s → 1016 < a → (length s < 64)%nat → constant 64 1000 1016 (λ _, True) menu_mem a s) as Hc.
    { intros a s H1 H2 H3. split; [done|]. split; [lia|]. split; [done|]. intros x Hx. split; [done|lia]. }
    split; [apply Hc; [repeat (split; [reflexivity|split; [split; reflexivity|]]); reflexivity|lia|cbn; lia]|].
    split; [apply Hc; [repeat (split; [reflexivity|split; [split; reflexivity|]]); reflexivity|lia|cbn; lia]|].
    do 3 (apply list.Forall2_cons; split; [apply Hc; [repeat (split; [reflexivity|split; [split; reflexivity|]]); reflexivity|cbn; lia|cbn; lia]|]). constructor.
  - reflexivity.
  - repeat (split; [reflexivity|split; [split; reflexivity|]]). reflexivity.
  - by eexists.
Defined.
