(* ===== verification/Vfs.v ===== *)
(** The VFS layer: the table of named devices (fs/vfs/vfslist.c), the translation of
    names (fs/vfs/vfslookup.c), the current directory (fs/vfs/vfscwd.c) and the operations
    on names (fs/vfs/vfspath.c).

    What is behind a [struct vnode] or a [struct fs] is reached through function tables in
    the code; here it is an interface, the class [FsOps], whose contract [FsLaws] follows
    vnode.h and fs.h: it counts the references to every vnode. Names are the lists of their
    bytes ([strcmp] is equality, see LibcStr.v); a path is a value, its buffer, which the
    code may destroy, is not read again. The table is an array of array.c. Locks are held
    or not; nobody contends for them. Messages on the console are left out. *)

From Stdlib Require Import ZArith Lia.
From stdpp Require Import base list gmap gmultiset numbers option.
From S2P Require Import Prelude KMem Array.

Local Open Scope Z_scope.

Notation name := (list Z).

Definition colon : Z := 58.
Definition slash : Z := 47.
Definition NAME_MAX : Z := 255.
Definition O_WRONLY : Z := 1.
Definition O_RDWR : Z := 2.
Definition O_CREAT : Z := 4.
Definition O_EXCL : Z := 8.
Definition O_TRUNC : Z := 16.
Definition O_ACCMODE : Z := 3.
Definition S_IFMT : Z := 0x7000.
Definition S_IFDIR : Z := 0x2000.
Definition S_ISDIR (mode : Z) : bool := Z.land mode S_IFMT =? S_IFDIR.

(** ** What is behind vnodes and file systems *)

Class FsOps (W : Type) := {
  VOP_INIT : Z → Z → M W ();             (* vnode, device *)
  VOP_INCREF : Z → M W ();
  VOP_DECREF : Z → M W ();
  VOP_INCOPEN : Z → M W ();
  VOP_DECOPEN : Z → M W ();
  VOP_OPEN : Z → Z → M W ();
  VOP_TRUNCATE : Z → Z → M W ();
  VOP_GETTYPE : Z → M W Z;
  VOP_NAMEFILE : Z → M W ();
  VOP_READLINK : Z → M W ();
  VOP_LOOKUP : Z → name → M W Z;
  VOP_LOOKPARENT : Z → name → Z → M W (Z * name);
  VOP_CREAT : Z → name → bool → M W Z;
  VOP_REMOVE : Z → name → M W ();
  VOP_MKDIR : Z → name → M W ();
  VOP_RMDIR : Z → name → M W ();
  VOP_SYMLINK : Z → name → name → M W ();
  VOP_LINK : Z → name → Z → M W ();
  VOP_RENAME : Z → name → Z → name → M W ();
  vn_fs : Z → M W Z;
  FSOP_SYNC : Z → M W ();
  FSOP_GETVOLNAME : Z → M W (option name);
  FSOP_GETROOT : Z → M W Z;
  FSOP_UNMOUNT : Z → M W ();
  uiomove : name → M W ();               (* to the uio of the caller *)
}.

(** ** The state *)

(** No file system and no raw name are [0] and [None]. *)
Record knowndev := MkKnowndev {
  kd_name : name;
  kd_rawname : option name;
  kd_device : Z;
  kd_vnode : Z;
  kd_fs : Z;
}.

Definition sizeof_knowndev : Z := 20.
Definition sizeof_vnode : Z := 24.

Record vfs := MkVfs {
  knowndevs : array Z;
  kds : gmap Z knowndev;
  knowndevs_lock : bool;
  bootfs_vnode : Z;
  bootfs_lock : bool;
  t_cwd : Z;
}.

Definition set_fs (f : Z) (kd : knowndev) : knowndev :=
  MkKnowndev (kd_name kd) (kd_rawname kd) (kd_device kd) (kd_vnode kd) f.
Definition set_knowndevs a (s : vfs) : vfs := MkVfs a (kds s) (knowndevs_lock s) (bootfs_vnode s) (bootfs_lock s) (t_cwd s).
Definition set_kds k (s : vfs) : vfs := MkVfs (knowndevs s) k (knowndevs_lock s) (bootfs_vnode s) (bootfs_lock s) (t_cwd s).
Definition set_klock b (s : vfs) : vfs := MkVfs (knowndevs s) (kds s) b (bootfs_vnode s) (bootfs_lock s) (t_cwd s).
Definition set_bootfs v (s : vfs) : vfs := MkVfs (knowndevs s) (kds s) (knowndevs_lock s) v (bootfs_lock s) (t_cwd s).
Definition set_block b (s : vfs) : vfs := MkVfs (knowndevs s) (kds s) (knowndevs_lock s) (bootfs_vnode s) b (t_cwd s).
Definition set_cwd v (s : vfs) : vfs := MkVfs (knowndevs s) (kds s) (knowndevs_lock s) (bootfs_vnode s) (bootfs_lock s) v.

Section operations.
Context `{!KHeap H} `{!FsOps W}.
Notation St := (H * vfs * W)%type.
Notation MV := (M St).

Definition on_w {A} (p : M W A) : MV A := zoom snd (λ w s, (s.1, w)) p.
Definition on_h {A} (p : M H A) : MV A := zoom (λ s, s.1.1) (λ h s, ((h, s.1.2), s.2)) p.
Definition on_vfs {A} (p : M vfs A) : MV A := zoom (λ s, s.1.2) (λ v s, ((s.1.1, v), s.2)) p.
Definition on_array {A} (p : M (H * array Z) A) : MV A :=
  zoom (λ s, (s.1.1, knowndevs s.1.2)) (λ a s, ((a.1, set_knowndevs a.2 s.1.2), s.2)) p.

(** [lock_acquire] and [lock_release] of a lock that is free, [lock_do_i_hold] *)
Definition klock : MV () :=
  s ← on_vfs get;
  assert (negb (knowndevs_lock s));;
  on_vfs (modify (set_klock true)).
Definition kunlock : MV () :=
  s ← on_vfs get;
  assert (knowndevs_lock s);;
  on_vfs (modify (set_klock false)).
Definition block : MV () :=
  s ← on_vfs get;
  assert (negb (bootfs_lock s));;
  on_vfs (modify (set_block true)).
Definition bunlock : MV () :=
  s ← on_vfs get;
  assert (bootfs_lock s);;
  on_vfs (modify (set_block false)).

(** A loop over a range that may stop with a result *)
Fixpoint scan {A} (l : list Z) (f : Z → MV (option A)) : MV (option A) :=
  match l with
  | [] => mret None
  | i :: l => r ← f i; match r with Some a => mret (Some a) | None => scan l f end
  end.
(** [num = array_getnum(knowndevs); for (i=0; i<num; i++)] *)
Definition scan_known {A} (f : Z → knowndev → MV (option A)) : MV (option A) :=
  n ← on_array array_getnum;
  scan (seqZ 0 n) (λ i,
    p ← on_array (array_getguy i);
    s ← on_vfs get;
    kd ← the (kds s !! p);
    f p kd).

(** ** fs/vfs/vfslist.c *)

Definition vfs_sync : MV () :=
  klock;;
  _ ← scan_known (A := Empty_set) (λ _ kd,
    when (negb (kd_fs kd =? 0)) (_ ← try (on_w (FSOP_SYNC (kd_fs kd))); mret tt);;
    mret None);
  kunlock.

(** The vnode itself, of a device that has been named *)
Definition device_itself (kd : knowndev) : MV (option (Z + Z)) :=
  assert (negb (kd_device kd =? 0));;
  on_w (VOP_INCREF (kd_vnode kd));;
  mret (Some (inl (kd_vnode kd))).

Definition getroot_at (devname : name) (kd : knowndev) : MV (option (Z + Z)) :=
  let named := bool_decide (kd_name kd = devname) in
  volname ← (if negb (kd_fs kd =? 0) then on_w (FSOP_GETVOLNAME (kd_fs kd)) else mret None);
  if negb (kd_fs kd =? 0) && (named || bool_decide (volname = Some devname)) then
    r ← on_w (FSOP_GETROOT (kd_fs kd));
    mret (Some (inl r))
  else if (kd_fs kd =? 0) && bool_decide (is_Some (kd_rawname kd)) && named then mret (Some (inr ENXIO))
  else if named then
    assert (kd_fs kd =? 0);;
    assert (bool_decide (kd_rawname kd = None));;
    device_itself kd
  else if bool_decide (kd_rawname kd = Some devname) then device_itself kd
  else mret None.

Definition vfs_getroot (devname : name) : MV Z :=
  klock;;
  r ← scan_known (λ _ kd, getroot_at devname kd);
  kunlock;;
  match r with
  | Some (inl v) => mret v
  | Some (inr e) => fail e
  | None => fail ENODEV
  end.

Definition vfs_getdevname (fs : Z) : MV (option name) :=
  assert (negb (fs =? 0));;
  klock;;
  r ← scan_known (λ _ kd, mret (if kd_fs kd =? fs then Some (kd_name kd) else None));
  kunlock;;
  mret r.

Definition raw : name := [114; 97; 119].
Definition kstrdup (s : name) : MV Z := on_h (kmalloc (Z.of_nat (length s) + 1)).
Definition mkrawname (s : name) : MV Z := on_h (kmalloc (Z.of_nat (length s) + 3 + 1)).

Definition samestring (a b : option name) : bool :=
  match a, b with Some a, Some b => bool_decide (a = b) | _, _ => false end.
Definition samestring3 (a b c d : option name) : bool := samestring a b || samestring a c || samestring a d.

Definition badnames (n1 n2 n3 : option name) : MV bool :=
  s ← on_vfs get;
  assert (knowndevs_lock s);;
  r ← scan_known (λ _ kd,
    volname ← (if negb (kd_fs kd =? 0) then on_w (FSOP_GETVOLNAME (kd_fs kd)) else mret None);
    mret (if samestring3 volname n1 n2 n3 || samestring3 (kd_rawname kd) n1 n2 n3 || samestring3 (Some (kd_name kd)) n1 n2 n3
          then Some tt else None));
  mret (bool_decide (is_Some r)).

(** fs/vfs/device.c; it panics when the vnode cannot be initialised *)
Definition dev_create_vnode (dev : Z) : MV Z :=
  v ← on_h (kmalloc sizeof_vnode);
  if v =? 0 then mret 0 else
  r ← try (on_w (VOP_INIT v dev));
  match r with inl _ => mret v | inr _ => panic end.

(** [if (p) kfree(p);] *)
Definition free_if (p : Z) : MV () := when (negb (p =? 0)) (on_h (kfree p)).
Definition puke (nm rawnm vnode kd : Z) : MV () :=
  free_if nm;;
  free_if rawnm;;
  free_if vnode;;
  free_if kd;;
  fail ENOMEM.

Definition vfs_doadd (dname : name) (mountable : bool) (dev fs : Z) : MV () :=
  nm ← kstrdup dname;
  if nm =? 0 then puke 0 0 0 0 else
  rawnm ← (if mountable then mkrawname dname else mret 0);
  if mountable && (rawnm =? 0) then puke nm 0 0 0 else
  vnode ← dev_create_vnode dev;
  if vnode =? 0 then puke nm rawnm 0 0 else
  kd ← on_h (kmalloc sizeof_knowndev);
  if kd =? 0 then puke nm rawnm vnode 0 else
  let rawname := if mountable then Some (dname ++ raw) else None in
  on_vfs (modify (λ s, set_kds (<[kd := MkKnowndev dname rawname dev vnode fs]> (kds s)) s));;
  volname ← (if negb (fs =? 0) then on_w (FSOP_GETVOLNAME fs) else mret None);
  klock;;
  bad ← badnames (Some dname) rawname volname;
  err ← (if bad : bool then mret (inr EEXIST) else try (on_array (array_add kd)));
  kunlock;;
  match err with inl _ => mret tt | inr e => fail e end.

Definition vfs_adddev (devname : name) (dev : Z) (mountable : bool) : MV () := vfs_doadd devname mountable dev 0.
Definition vfs_addfs (devname : name) (fs : Z) : MV () := vfs_doadd devname false 0 fs.

Definition findmount (devname : name) : MV (option (Z * knowndev)) :=
  s ← on_vfs get;
  assert (knowndevs_lock s);;
  scan_known (λ p kd,
    mret (if bool_decide (is_Some (kd_rawname kd)) && bool_decide (devname = kd_name kd) then Some (p, kd) else None)).

Definition set_kd_fs (p : Z) (kd : knowndev) (fs : Z) : MV () :=
  on_vfs (modify (λ s, set_kds (<[p := set_fs fs kd]> (kds s)) s)).

(** [goto puke]: the lock is released and the result returned *)
Definition locked (p : MV ()) : MV () :=
  klock;;
  r ← try p;
  kunlock;;
  match r with inl _ => mret tt | inr e => fail e end.

Definition vfs_mount (devname : name) (mountfunc : Z → M W Z) : MV () := locked (
  r ← findmount devname;
  match r with
  | None => fail ENODEV
  | Some (p, kd) =>
    if negb (kd_fs kd =? 0) then fail EBUSY else
    assert (bool_decide (is_Some (kd_rawname kd)));;
    assert (negb (kd_device kd =? 0));;
    fs ← on_w (mountfunc (kd_device kd));
    assert (negb (fs =? 0));;
    set_kd_fs p kd fs;;
    _ ← on_w (FSOP_GETVOLNAME fs);
    mret tt
  end).

Definition vfs_unmount (devname : name) : MV () := locked (
  r ← findmount devname;
  match r with
  | None => fail ENODEV
  | Some (p, kd) =>
    if kd_fs kd =? 0 then fail EINVAL else
    assert (bool_decide (is_Some (kd_rawname kd)));;
    assert (negb (kd_device kd =? 0));;
    on_w (FSOP_SYNC (kd_fs kd));;
    on_w (FSOP_UNMOUNT (kd_fs kd));;
    set_kd_fs p kd 0
  end).

Definition vfs_unmountall : MV () :=
  klock;;
  _ ← scan_known (A := Empty_set) (λ p kd,
    when (bool_decide (is_Some (kd_rawname kd)) && negb (kd_fs kd =? 0)) (
      r ← try (on_w (FSOP_SYNC (kd_fs kd)));
      r ← (match r with inl _ => mret (inl tt) | inr _ => try (on_w (FSOP_SYNC (kd_fs kd))) end);
      match r with
      | inr _ => mret tt
      | inl _ =>
        r ← try (on_w (FSOP_UNMOUNT (kd_fs kd)));
        match r with inr _ => mret tt | inl _ => set_kd_fs p kd 0 end
      end);;
    mret None);
  kunlock.

(** ** fs/vfs/vfscwd.c, first part *)

Definition vfs_getcurdir : MV Z :=
  s ← on_vfs get;
  if negb (t_cwd s =? 0) then on_w (VOP_INCREF (t_cwd s));; mret (t_cwd s)
  else fail ENOENT.

Definition vfs_setcurdir (dir : Z) : MV () :=
  vtype ← on_w (VOP_GETTYPE dir);
  if negb (S_ISDIR vtype) then fail ENOTDIR else
  on_w (VOP_INCREF dir);;
  s ← on_vfs get;
  let old := t_cwd s in
  on_vfs (modify (set_cwd dir));;
  when (negb (old =? 0)) (on_w (VOP_DECREF old)).

Definition vfs_clearcurdir : MV () :=
  s ← on_vfs get;
  let old := t_cwd s in
  on_vfs (modify (set_cwd 0));;
  when (negb (old =? 0)) (on_w (VOP_DECREF old)).

(** ** fs/vfs/vfslookup.c *)

Definition change_bootfs (newguy : Z) : MV () :=
  block;;
  s ← on_vfs get;
  let oldguy := bootfs_vnode s in
  on_vfs (modify (set_bootfs newguy));;
  bunlock;;
  when (negb (oldguy =? 0)) (on_w (VOP_DECREF oldguy)).
Definition vfs_clearbootfs : MV () := change_bootfs 0.

(** The first colon or slash: its index, and whether it is a colon *)
Fixpoint first_sep (i : Z) (path : name) : option (Z * bool) :=
  match path with
  | [] => None
  | c :: path => if c =? colon then Some (i, true) else if c =? slash then Some (i, false) else first_sep (i + 1) path
  end.

Fixpoint skip_slashes (path : name) : name :=
  match path with
  | c :: rest => if c =? slash then skip_slashes rest else path
  | [] => []
  end.

(** The rest of the path and the vnode it starts from *)
Definition getdevice (path : name) : MV (name * Z) :=
  let '(colon_at, slash_at) := match first_sep 0 path with
    | Some (i, true) => (i, -1)
    | Some (i, false) => (-1, i)
    | None => (-1, -1)
    end in
  if (colon_at <? 0) && negb (slash_at =? 0) then
    v ← vfs_getcurdir;
    mret (path, v)
  else if 0 <? colon_at then
    v ← vfs_getroot (take (Z.to_nat colon_at) path);
    mret (skip_slashes (drop (Z.to_nat colon_at + 1) path), v)
  else
    assert ((colon_at =? 0) || (slash_at =? 0));;
    startvn ← (if bool_decide (head path = Some slash) then
        block;;
        s ← on_vfs get;
        if bootfs_vnode s =? 0 then bunlock;; fail ENOENT
        else
          on_w (VOP_INCREF (bootfs_vnode s));;
          bunlock;;
          mret (bootfs_vnode s)
      else
        assert (bool_decide (head path = Some colon));;
        vn ← vfs_getcurdir;
        fs ← on_w (vn_fs vn);
        assert (negb (fs =? 0));;
        r ← on_w (FSOP_GETROOT fs);
        on_w (VOP_DECREF vn);;
        mret r);
    mret (skip_slashes (drop 1 path), startvn).

(** [VOP_DECREF(v); return result;] *)
Definition decref_after {A} (v : Z) (r : A + Z) : MV A :=
  on_w (VOP_DECREF v);;
  match r with inl a => mret a | inr e => fail e end.

Definition vfs_lookparent (path : name) (buflen : Z) : MV (Z * name) :=
  '(path, startvn) ← getdevice path;
  result ← (if bool_decide (path = []) then mret (inr EINVAL)
            else try (on_w (VOP_LOOKPARENT startvn path buflen)));
  decref_after startvn result.

Definition vfs_lookup (path : name) : MV Z :=
  '(path, startvn) ← getdevice path;
  if bool_decide (path = []) then mret startvn else
  result ← try (on_w (VOP_LOOKUP startvn path));
  decref_after startvn result.

(** ** fs/vfs/vfscwd.c, second part *)

Definition vfs_chdir (path : name) : MV () :=
  vn ← vfs_lookup path;
  result ← try (vfs_setcurdir vn);
  decref_after vn result.

(** The [uio] is part of the file systems' state; it is one for reading, as the code asserts. *)
Definition vfs_getcwd : MV () :=
  cwd ← vfs_getcurdir;
  fs ← on_w (vn_fs cwd);
  assert (negb (fs =? 0));;
  volname ← on_w (FSOP_GETVOLNAME fs);
  nm ← (match volname with Some n => mret (Some n) | None => vfs_getdevname fs end);
  nm ← (match nm with Some n => mret n | None => panic end);
  result ← try (
    on_w (uiomove nm);;
    on_w (uiomove [colon]);;
    on_w (VOP_NAMEFILE cwd));
  decref_after cwd result.

(** [strchr(tmp, ':')]: the rest of the name from its first colon on *)
Fixpoint from_colon (tmp : name) : option name :=
  match tmp with
  | [] => None
  | c :: rest => if c =? colon then Some tmp else from_colon rest
  end.

(** [snprintf(tmp, sizeof(tmp)-1, ...)] keeps 254 bytes. *)
Definition vfs_setbootfs (fsname : name) : MV () :=
  let tmp := take 254 fsname in
  tmp ← (match from_colon tmp with
         | Some s => if 0 <? Z.of_nat (length s) then fail EINVAL else mret tmp
         | None => mret (tmp ++ [colon])
         end);
  vfs_chdir tmp;;
  newguy ← vfs_getcurdir;
  change_bootfs newguy.

(** ** fs/vfs/vfspath.c *)

Definition vfs_open (path : name) (openflags : Z) : MV Z :=
  let how := Z.land openflags O_ACCMODE in
  canwrite ← (if how =? 0 then mret false
              else if (how =? O_WRONLY) || (how =? O_RDWR) then mret true else fail EINVAL);
  vn ← (if negb (Z.land openflags O_CREAT =? 0) then
      let excl := negb (Z.land openflags O_EXCL =? 0) in
      '(dir, nm) ← vfs_lookparent path (NAME_MAX + 1);
      result ← try (on_w (VOP_CREAT dir nm excl));
      decref_after dir result
    else vfs_lookup path);
  assert (negb (vn =? 0));;
  result ← try (on_w (VOP_OPEN vn openflags));
  match result with
  | inr e => on_w (VOP_DECREF vn);; fail e
  | inl _ =>
    on_w (VOP_INCOPEN vn);;
    result ← (if negb (Z.land openflags O_TRUNC =? 0) then
        if canwrite : bool then try (on_w (VOP_TRUNCATE vn 0)) else mret (inr EINVAL)
      else mret (inl tt));
    match result with
    | inr e => on_w (VOP_DECOPEN vn);; on_w (VOP_DECREF vn);; fail e
    | inl _ => mret vn
    end
  end.

Definition vfs_close (vn : Z) : MV () := on_w (VOP_DECOPEN vn);; on_w (VOP_DECREF vn).

(** An operation on the parent directory of a path *)
Definition in_parent (path : name) (op : Z → name → M W ()) : MV () :=
  '(dir, nm) ← vfs_lookparent path (NAME_MAX + 1);
  result ← try (on_w (op dir nm));
  decref_after dir result.

Definition vfs_remove (path : name) : MV () := in_parent path VOP_REMOVE.
Definition vfs_mkdir (path : name) : MV () := in_parent path VOP_MKDIR.
Definition vfs_rmdir (path : name) : MV () := in_parent path VOP_RMDIR.
Definition vfs_symlink (contents path : name) : MV () := in_parent path (λ dir nm, VOP_SYMLINK dir nm contents).

(** [result] of an operation, with references to two vnodes *)
Definition decref2 (v2 v1 : Z) (r : () + Z) : MV () :=
  on_w (VOP_DECREF v2);;
  on_w (VOP_DECREF v1);;
  match r with inl _ => mret tt | inr e => fail e end.

Definition across (fs1 fs2 : Z) : bool := (fs1 =? 0) || (fs2 =? 0) || negb (fs1 =? fs2).

Definition vfs_rename (oldpath newpath : name) : MV () :=
  '(olddir, oldname) ← vfs_lookparent oldpath (NAME_MAX + 1);
  r ← try (vfs_lookparent newpath (NAME_MAX + 1));
  match r with
  | inr e => on_w (VOP_DECREF olddir);; fail e
  | inl (newdir, newname) =>
    fs1 ← on_w (vn_fs olddir);
    fs2 ← on_w (vn_fs newdir);
    if across fs1 fs2 then decref2 newdir olddir (inr EXDEV) else
    result ← try (on_w (VOP_RENAME olddir oldname newdir newname));
    decref2 newdir olddir result
  end.

Definition vfs_link (oldpath newpath : name) : MV () :=
  oldfile ← vfs_lookup oldpath;
  r ← try (vfs_lookparent newpath (NAME_MAX + 1));
  match r with
  | inr e => on_w (VOP_DECREF oldfile);; fail e
  | inl (newdir, newname) =>
    fs1 ← on_w (vn_fs oldfile);
    fs2 ← on_w (vn_fs newdir);
    if across fs1 fs2 then decref2 newdir oldfile (inr EXDEV) else
    result ← try (on_w (VOP_LINK newdir newname oldfile));
    decref2 newdir oldfile result
  end.

Definition vfs_readlink (path : name) : MV () :=
  vn ← vfs_lookup path;
  result ← try (on_w (VOP_READLINK vn));
  decref_after vn result.

(** ** fs/vfs/devnull.c and the start of the layer *)

Definition sizeof_device : Z := 28.
Definition null_name : name := [110; 117; 108; 108].

(** The fields of the device are read through [d_io] and the like. *)
Definition devnull_create : MV () :=
  dev ← on_h (kmalloc sizeof_device);
  if dev =? 0 then panic else
  r ← try (vfs_adddev null_name dev false);
  match r with inl _ => mret tt | inr _ => panic end.

(** [lock_create] takes two blocks, for the lock and for its name, and can fail. *)
Context (lock_create : M H bool).
Definition vfs_initbootfs : MV () :=
  b ← on_h lock_create;
  if b : bool then mret tt else panic.
Definition vfs_bootstrap : MV () :=
  a ← on_h (array_create (A := Z));
  match a with
  | None => panic
  | Some (_, a) =>
    on_vfs (modify (set_knowndevs a));;
    b ← on_h lock_create;
    if negb b then panic else
    vfs_initbootfs;;
    devnull_create
  end.
End operations.
