(* ===== verification/VfsProof.v ===== *)
(** The VFS layer, the proofs: the contract of what is behind vnodes and file systems, the
    invariant of the layer, in which every reference to a vnode is accounted for, and that
    the operations keep it. *)

From Stdlib Require Import ZArith Lia.
From stdpp Require Import base list gmap gmultiset numbers option.
From S2P Require Import Prelude KMem Array Vfs.

Local Open Scope Z_scope.

Notation refs := (gmultiset Z).

(** [fsw w R O FS]: [R] are the references to vnodes the rest of the kernel holds, [O] the
    times a vnode is open, [FS] the file systems. Each has a volume name and a root; a
    vnode belongs to a file system or to none. *)
Class FsLaws (W : Type) `{!FsOps W} := {
  fsw : W → refs → refs → gset Z → Prop;
  fs_of : Z → Z;
  fs_vol : Z → option name;
  fs_root : Z → Z;
  fsw_null w R O FS : fsw w R O FS → 0 ∉ FS ∧ 0 ∉ R;
  fsw_mounted w R O FS v : fsw w R O FS → v ∈ R → fs_of v ≠ 0 → fs_of v ∈ FS;
  init_law w R O FS v dev : fsw w R O FS → v ≠ 0 →
    wp safe (VOP_INIT v dev) w (λ _ w', fsw w' (R ⊎ {[+ v +]}) O FS) (λ _ w', fsw w' R O FS);
  incref_law w R O FS v : fsw w R O FS → v ∈ R →
    wp safe (VOP_INCREF v) w (λ _ w', fsw w' (R ⊎ {[+ v +]}) O FS) noerr;
  decref_law w R O FS v : fsw w (R ⊎ {[+ v +]}) O FS →
    wp safe (VOP_DECREF v) w (λ _ w', fsw w' R O FS) noerr;
  incopen_law w R O FS v : fsw w R O FS → v ∈ R →
    wp safe (VOP_INCOPEN v) w (λ _ w', fsw w' R (O ⊎ {[+ v +]}) FS) noerr;
  decopen_law w R O FS v : fsw w R (O ⊎ {[+ v +]}) FS → v ∈ R →
    wp safe (VOP_DECOPEN v) w (λ _ w', fsw w' R O FS) noerr;
  lookup_law w R O FS v p : fsw w R O FS → v ∈ R →
    wp safe (VOP_LOOKUP v p) w (λ r w', fsw w' (R ⊎ {[+ r +]}) O FS) (λ _ w', fsw w' R O FS);
  lookparent_law w R O FS v p n : fsw w R O FS → v ∈ R →
    wp safe (VOP_LOOKPARENT v p n) w (λ r w', fsw w' (R ⊎ {[+ r.1 +]}) O FS) (λ _ w', fsw w' R O FS);
  creat_law w R O FS v p excl : fsw w R O FS → v ∈ R →
    wp safe (VOP_CREAT v p excl) w (λ r w', fsw w' (R ⊎ {[+ r +]}) O FS) (λ _ w', fsw w' R O FS);
  gettype_law w R O FS v : fsw w R O FS → v ∈ R →
    wp safe (VOP_GETTYPE v) w (λ t w', (S_ISDIR t = true → fs_of v ≠ 0) ∧ fsw w' R O FS) (λ _ w', fsw w' R O FS);
  vn_fs_law w R O FS v : fsw w R O FS → v ∈ R →
    wp safe (vn_fs v) w (λ f w', f = fs_of v ∧ fsw w' R O FS) noerr;
  volname_law w R O FS f : fsw w R O FS → f ∈ FS →
    wp safe (FSOP_GETVOLNAME f) w (λ r w', r = fs_vol f ∧ fsw w' R O FS) noerr;
  getroot_law w R O FS f : fsw w R O FS → f ∈ FS →
    wp safe (FSOP_GETROOT f) w (λ r w', r = fs_root f ∧ fsw w' (R ⊎ {[+ r +]}) O FS) noerr;
  unmount_law w R O FS f : fsw w R O FS → f ∈ FS →
    wp safe (FSOP_UNMOUNT f) w (λ _ w', fsw w' R O (FS ∖ {[f]})) (λ _ w', fsw w' R O FS);
  sync_law w R O FS f : fsw w R O FS → f ∈ FS →
    wp safe (FSOP_SYNC f) w (λ _ w', fsw w' R O FS) (λ _ w', fsw w' R O FS);
  (* operations that leave the references as they are, whatever they return *)
  open_law w R O FS v fl : fsw w R O FS → v ∈ R →
    wp safe (VOP_OPEN v fl) w (λ _ w', fsw w' R O FS) (λ _ w', fsw w' R O FS);
  truncate_law w R O FS v n : fsw w R O FS → v ∈ R →
    wp safe (VOP_TRUNCATE v n) w (λ _ w', fsw w' R O FS) (λ _ w', fsw w' R O FS);
  namefile_law w R O FS v : fsw w R O FS → v ∈ R →
    wp safe (VOP_NAMEFILE v) w (λ _ w', fsw w' R O FS) (λ _ w', fsw w' R O FS);
  readlink_law w R O FS v : fsw w R O FS → v ∈ R →
    wp safe (VOP_READLINK v) w (λ _ w', fsw w' R O FS) (λ _ w', fsw w' R O FS);
  remove_law w R O FS v n : fsw w R O FS → v ∈ R →
    wp safe (VOP_REMOVE v n) w (λ _ w', fsw w' R O FS) (λ _ w', fsw w' R O FS);
  mkdir_law w R O FS v n : fsw w R O FS → v ∈ R →
    wp safe (VOP_MKDIR v n) w (λ _ w', fsw w' R O FS) (λ _ w', fsw w' R O FS);
  rmdir_law w R O FS v n : fsw w R O FS → v ∈ R →
    wp safe (VOP_RMDIR v n) w (λ _ w', fsw w' R O FS) (λ _ w', fsw w' R O FS);
  symlink_law w R O FS v n c : fsw w R O FS → v ∈ R →
    wp safe (VOP_SYMLINK v n c) w (λ _ w', fsw w' R O FS) (λ _ w', fsw w' R O FS);
  link_law w R O FS v n u : fsw w R O FS → v ∈ R → u ∈ R →
    wp safe (VOP_LINK v n u) w (λ _ w', fsw w' R O FS) (λ _ w', fsw w' R O FS);
  rename_law w R O FS v n u k : fsw w R O FS → v ∈ R → u ∈ R →
    wp safe (VOP_RENAME v n u k) w (λ _ w', fsw w' R O FS) (λ _ w', fsw w' R O FS);
  uiomove_law w R O FS s : fsw w R O FS →
    wp safe (uiomove s) w (λ _ w', fsw w' R O FS) (λ _ w', fsw w' R O FS);
}.

(** ** The invariant *)

Definition opt_ref (v : Z) : refs := if v =? 0 then ∅ else {[+ v +]}.

(** The references the layer itself holds: its devices, the boot file system and the
    current directory *)
Definition dev_refs (ds : list (Z * knowndev)) : refs := list_to_set_disj ((λ d, kd_vnode d.2) <$> ds).
Definition base (ds : list (Z * knowndev)) (boot cwd : Z) : refs := dev_refs ds ⊎ opt_ref boot ⊎ opt_ref cwd.

(** A device with a raw name has a device; one without a device has a file system. *)
Definition dev_ok (FS : gset Z) (kd : knowndev) : Prop :=
  (is_Some (kd_rawname kd) → kd_device kd ≠ 0) ∧ (kd_device kd = 0 → kd_fs kd ≠ 0) ∧ (kd_fs kd ≠ 0 → kd_fs kd ∈ FS).

Definition mounted (ds : list (Z * knowndev)) : list Z := filter (λ f, f ≠ 0) ((λ d, kd_fs d.2) <$> ds).

Section proofs.
Context `{HL : KHeapLaws H} `{FL : FsLaws W}.
Notation St := (H * vfs * W)%type.
Implicit Types (st : St) (X O : refs) (FS : gset Z) (ds : list (Z * knowndev)).

(** The live blocks are [m]: among them the buffer of the table and the devices. *)
Definition devs_in (m : gmap Z Z) ds (s : vfs) : Prop :=
  array_rep m (knowndevs s) ds.*1 ∧ ∀ p, p ∈ ds.*1 → is_Some (m !! p) ∧ p ≠ v (knowndevs s).
Definition heap_at (m : gmap Z Z) ds st : Prop := heap_owns st.1.1 m ∧ devs_in m ds st.1.2.

(** [kl] and [bl]: the locks are held. [X] are the references of the rest of the kernel. *)
Record vrep (kl bl : bool) ds (boot cwd : Z) X O FS st : Prop := {
  vr_heap : ∃ m, heap_at m ds st;
  vr_kds i p kd : ds !! i = Some (p, kd) → kds st.1.2 !! p = Some kd;
  vr_nodup : NoDup ds.*1;
  vr_locks : knowndevs_lock st.1.2 = kl ∧ bootfs_lock st.1.2 = bl;
  vr_boot : bootfs_vnode st.1.2 = boot;
  vr_cwd : t_cwd st.1.2 = cwd ∧ (cwd ≠ 0 → fs_of cwd ≠ 0);
  vr_devs : Forall (λ d, dev_ok FS d.2) ds;
  vr_mounted : NoDup (mounted ds);
  vr_fsw : fsw st.2 (base ds boot cwd ⊎ X) O FS;
}.

(** A step behind the interface *)
Lemma wp_on_w {A} F (p : M W A) st (P : A → W → Prop) (P' : Z → W → Prop) (Q : A → St → Prop) E :
  wp safe p st.2 P P' → (∀ a w', P a w' → Q a (st.1, w')) → (∀ e w', P' e w' → E e (st.1, w')) → wp F (on_w p) st Q E.
Proof.
  intros Hp HQ HE. unfold on_w. apply wp_zoom. apply wp_faults with safe; [|done]. eapply wp_mono; [exact Hp|exact HQ|exact HE].
Qed.

Lemma vrep_fsw kl bl ds boot cwd X O FS X' O' st w' :
  vrep kl bl ds boot cwd X O FS st → fsw w' (base ds boot cwd ⊎ X') O' FS → vrep kl bl ds boot cwd X' O' FS (st.1, w').
Proof. intros [? ? ? ? ? ? ? ?] Hw. by split. Qed.

(** What the layer holds a reference to *)
(** One file system more, which is not in the table *)
Lemma vrep_more_fs kl bl ds boot cwd X O FS f st w' :
  vrep kl bl ds boot cwd X O FS st → fsw w' (base ds boot cwd ⊎ X) O ({[f]} ∪ FS) → vrep kl bl ds boot cwd X O ({[f]} ∪ FS) (st.1, w').
Proof.
  intros [H1 H3 H4 H5 H6 H7 H8 H9 H10] Hw. split; try done. eapply list.Forall_impl; [exact H8|].
  intros d (D1 & D2 & D3). split; [done|]. split; [done|]. intros Hf. set_solver.
Qed.

Lemma base_cwd ds boot cwd X : cwd ≠ 0 → cwd ∈ base ds boot cwd ⊎ X.
Proof. intros Hc. unfold base, opt_ref. destruct (Z.eqb_spec cwd 0); [done|]. multiset_solver. Qed.
Lemma base_boot ds boot cwd X : boot ≠ 0 → boot ∈ base ds boot cwd ⊎ X.
Proof. intros Hc. unfold base, opt_ref. destruct (Z.eqb_spec boot 0); [done|]. multiset_solver. Qed.
Lemma base_dev ds boot cwd X i p kd : ds !! i = Some (p, kd) → kd_vnode kd ∈ base ds boot cwd ⊎ X.
Proof.
  intros Hi. assert (kd_vnode kd ∈ dev_refs ds) as Hd; [|unfold base; multiset_solver].
  unfold dev_refs. apply elem_of_list_to_set_disj, list_elem_of_fmap. exists (p, kd). split; [done|]. by eapply list_elem_of_lookup_2.
Qed.

Section ops.
Context (F : fault → Prop) (kl bl : bool) ds (boot cwd : Z).
Notation rep := (vrep kl bl ds boot cwd).

Lemma incref_ok X O FS v st (Q : () → St → Prop) E :
  rep X O FS st → v ∈ base ds boot cwd ⊎ X → (∀ st', rep (X ⊎ {[+ v +]}) O FS st' → Q tt st') → wp F (on_w (VOP_INCREF v)) st Q E.
Proof.
  intros Hr Hv HQ. eapply wp_on_w; [by apply (incref_law _ _ _ _ v (vr_fsw _ _ _ _ _ _ _ _ _ Hr))| |done]. intros [] w' Hw'.
  apply HQ. eapply vrep_fsw; [done|]. by rewrite (assoc_L (⊎)).
Qed.

Lemma decref_ok X O FS v st (Q : () → St → Prop) E :
  rep (X ⊎ {[+ v +]}) O FS st → (∀ st', rep X O FS st' → Q tt st') → wp F (on_w (VOP_DECREF v)) st Q E.
Proof.
  intros Hr HQ. pose proof (vr_fsw _ _ _ _ _ _ _ _ _ Hr) as Hw. rewrite (assoc_L (⊎)) in Hw.
  eapply wp_on_w; [by apply (decref_law _ _ _ _ _ Hw)| |done]. intros [] w' Hw'. apply HQ. by eapply vrep_fsw.
Qed.

(** Operations that hand out a reference, and those that do not *)
Lemma yields_ok {A} (p : M W A) (f : A → Z) X O FS v st (Q : A → St → Prop) E :
  (∀ w R, fsw w R O FS → v ∈ R → wp safe p w (λ r w', fsw w' (R ⊎ {[+ f r +]}) O FS) (λ _ w', fsw w' R O FS)) →
  rep X O FS st → v ∈ base ds boot cwd ⊎ X →
  (∀ r st', rep (X ⊎ {[+ f r +]}) O FS st' → Q r st') → (∀ e st', rep X O FS st' → E e st') → wp F (on_w p) st Q E.
Proof.
  intros Hp Hr Hv HQ HE. eapply wp_on_w; [by apply (Hp _ _ (vr_fsw _ _ _ _ _ _ _ _ _ Hr))| |].
  - intros r w' Hw'. apply HQ. eapply vrep_fsw; [done|]. by rewrite (assoc_L (⊎)).
  - intros e w' Hw'. apply HE. by eapply vrep_fsw.
Qed.

Lemma keeps_ok {A} (p : M W A) X O FS st (Q : A → St → Prop) E :
  (∀ w, fsw w (base ds boot cwd ⊎ X) O FS → wp safe p w (λ _ w', fsw w' (base ds boot cwd ⊎ X) O FS) (λ _ w', fsw w' (base ds boot cwd ⊎ X) O FS)) →
  rep X O FS st → (∀ r st', rep X O FS st' → Q r st') → (∀ e st', rep X O FS st' → E e st') → wp F (on_w p) st Q E.
Proof.
  intros Hp Hr HQ HE. eapply wp_on_w; [apply Hp, (vr_fsw _ _ _ _ _ _ _ _ _ Hr)| |].
  - intros r w' Hw'. apply HQ. by eapply vrep_fsw.
  - intros e w' Hw'. apply HE. by eapply vrep_fsw.
Qed.

Lemma vn_fs_ok X O FS v st (Q : Z → St → Prop) E :
  rep X O FS st → v ∈ base ds boot cwd ⊎ X → (∀ st', rep X O FS st' → Q (fs_of v) st') → wp F (on_w (vn_fs v)) st Q E.
Proof.
  intros Hr Hv HQ. eapply wp_on_w; [by apply (vn_fs_law _ _ _ _ v (vr_fsw _ _ _ _ _ _ _ _ _ Hr))| |done].
  intros f w' [-> Hw']. apply HQ. by eapply vrep_fsw.
Qed.

Lemma volname_ok X O FS f st (Q : option name → St → Prop) E :
  rep X O FS st → f ∈ FS → (∀ st', rep X O FS st' → Q (fs_vol f) st') → wp F (on_w (FSOP_GETVOLNAME f)) st Q E.
Proof.
  intros Hr Hv HQ. eapply wp_on_w; [by apply (volname_law _ _ _ _ f (vr_fsw _ _ _ _ _ _ _ _ _ Hr))| |done].
  intros r w' [-> Hw']. apply HQ. by eapply vrep_fsw.
Qed.

Lemma fsroot_ok X O FS f st (Q : Z → St → Prop) E :
  rep X O FS st → f ∈ FS → (∀ st', rep (X ⊎ {[+ fs_root f +]}) O FS st' → Q (fs_root f) st') → wp F (on_w (FSOP_GETROOT f)) st Q E.
Proof.
  intros Hr Hv HQ. eapply wp_on_w; [by apply (getroot_law _ _ _ _ f (vr_fsw _ _ _ _ _ _ _ _ _ Hr))| |done].
  intros r w' [-> Hw']. apply HQ. eapply vrep_fsw; [done|]. by rewrite (assoc_L (⊎)).
Qed.
End ops.

(** ** The table *)

Lemma klock_ok F bl ds boot cwd X O FS st (Q : () → St → Prop) E :
  vrep false bl ds boot cwd X O FS st → (∀ st', vrep true bl ds boot cwd X O FS st' → Q tt st') → wp F klock st Q E.
Proof.
  intros [H1 H3 H4 [Hk Hb] H6 H7 H8 H9 H10] HQ. unfold klock, on_vfs. wp_steps. wp_assert by (by rewrite Hk). wp_steps.
  apply HQ. by split.
Qed.

Lemma kunlock_ok F bl ds boot cwd X O FS st (Q : () → St → Prop) E :
  vrep true bl ds boot cwd X O FS st → (∀ st', vrep false bl ds boot cwd X O FS st' → Q tt st') → wp F kunlock st Q E.
Proof.
  intros [H1 H3 H4 [Hk Hb] H6 H7 H8 H9 H10] HQ. unfold kunlock, on_vfs. wp_steps. wp_assert by (by rewrite Hk). wp_steps.
  apply HQ. by split.
Qed.

Definition table_at (ptrs : list Z) st : Prop :=
  (∃ m, array_rep m (knowndevs st.1.2) ptrs) ∧ ∀ p, p ∈ ptrs → is_Some (kds st.1.2 !! p).

Lemma vrep_table kl bl ds boot cwd X O FS st : vrep kl bl ds boot cwd X O FS st → table_at ds.*1 st.
Proof.
  intros Hr. destruct (vr_heap _ _ _ _ _ _ _ _ _ Hr) as (m & _ & Ha & _). split; [by exists m|].
  intros p Hp. apply list_elem_of_fmap in Hp as ([q kd] & -> & Hin). apply list_elem_of_lookup in Hin as [i Hi].
  exists kd. by eapply (vr_kds _ _ _ _ _ _ _ _ _ Hr).
Qed.

Lemma getguy_ok F ptrs i p st (Q : Z → St → Prop) E :
  table_at ptrs st → ptrs !! i = Some p → Q p st → wp F (on_array (array_getguy (Z.of_nat i))) st Q E.
Proof.
  intros [[m Ha] _] Hi HQ. unfold on_array. apply wp_zoom. eapply wp_mono; [apply (array_getguy_spec F _ m _ ptrs _ p Ha)| |done].
  - by rewrite zlookup_nat.
  - intros q s' [-> ->]. destruct st as [[h []] w]. exact HQ.
Qed.

Lemma scan_known_ok {A} F ptrs (I : nat → St → Prop) (f : Z → knowndev → M St (option A)) st (Q : option A → St → Prop) E :
  (∀ i st, I i st → table_at ptrs st) → I 0%nat st →
  (∀ i p kd st, ptrs !! i = Some p → kds st.1.2 !! p = Some kd → I i st →
     wp F (f p kd) st (λ r st', if r is Some a then Q (Some a) st' else I (S i) st') E) →
  (∀ st, I (length ptrs) st → Q None st) → wp F (scan_known f) st Q E.
Proof.
  intros Ht H0 Hf HQ. unfold scan_known. wp_steps. unfold array_getnum, on_array, on_data. wp_steps. cbn [fst snd].
  destruct (Ht 0%nat st H0) as [[m Ha] _]. rewrite (array_rep_num _ _ _ Ha).
  replace (st.1.1, set_knowndevs (knowndevs st.1.2) st.1.2, st.2) with st by (by destruct st as [[? []] ?]). clear m Ha.
  cut (∀ k i st, (i + k)%nat = length ptrs → I i st →
    wp F (scan (seqZ (Z.of_nat i) (Z.of_nat k)) (λ i, p ← on_array (array_getguy i); s ← on_vfs get; kd ← the (kds s !! p); f p kd)) st Q E).
  { intros Hk. apply (Hk (length ptrs) 0%nat); [lia|done]. }
  clear st H0. induction k as [|k IH]; intros i st Hik HI.
  - cbn [scan seqZ]. change (seqZ (Z.of_nat i) (Z.of_nat 0)) with (@nil Z). cbn [scan]. wp_steps. apply HQ. by replace (length ptrs) with i by lia.
  - rewrite seqZ_cons by lia. cbn [scan]. wp_steps. destruct (lookup_lt_is_Some_2 ptrs i) as [p Hp]; [lia|].
    apply (getguy_ok F ptrs i p); [by eapply Ht|done|]. unfold on_vfs. wp_steps. cbn [fst snd].
    replace (st.1.1, st.1.2, st.2) with st by (by destruct st as [[? ?] ?]).
    destruct (proj2 (Ht i st HI) p) as [kd Hkd]; [by eapply list_elem_of_lookup_2|]. wp_the kd by done.
    eapply wp_mono; [apply (Hf i p kd st Hp Hkd HI)| |done]. intros [a|] st' HI'; wp_steps; [done|].
    replace (Z.succ (Z.of_nat i)) with (Z.of_nat (S i)) by lia. replace (Z.pred (Z.of_nat (S k))) with (Z.of_nat k) by lia. apply IH; [lia|done].
Qed.

(** What a device name stands for: the first device that has it decides. *)
Definition match_at (devname : name) (kd : knowndev) : option (Z + Z) :=
  if negb (kd_fs kd =? 0) && (bool_decide (kd_name kd = devname) || bool_decide (fs_vol (kd_fs kd) = Some devname)) then Some (inl (fs_root (kd_fs kd)))
  else if bool_decide (kd_name kd = devname) then
    if bool_decide (is_Some (kd_rawname kd)) then Some (inr ENXIO) else Some (inl (kd_vnode kd))
  else if bool_decide (kd_rawname kd = Some devname) then Some (inl (kd_vnode kd))
  else None.
Fixpoint resolve (devname : name) (devs : list knowndev) : Z + Z :=
  match devs with
  | [] => inr ENODEV
  | kd :: devs => if match_at devname kd is Some r then r else resolve devname devs
  end.

Definition add_ref X (r : Z + Z) : refs := match r with inl v => X ⊎ {[+ v +]} | inr _ => X end.

Lemma getroot_at_ok F kl bl ds boot cwd X O FS i p kd devname st (Q : option (Z + Z) → St → Prop) E :
  vrep kl bl ds boot cwd X O FS st → ds !! i = Some (p, kd) →
  (∀ st', match_at devname kd = None → vrep kl bl ds boot cwd X O FS st' → Q None st') →
  (∀ r st', match_at devname kd = Some r → vrep kl bl ds boot cwd (add_ref X r) O FS st' → Q (Some r) st') →
  wp F (getroot_at devname kd) st Q E.
Proof.
  intros Hr Hi HN HS. pose proof (vr_devs _ _ _ _ _ _ _ _ _ Hr) as Hd. rewrite Forall_lookup in Hd. destruct (Hd _ _ Hi) as (Hd1 & Hd2 & Hd3).
  cbn [snd] in *. assert (∀ st, kd_device kd ≠ 0 → vrep kl bl ds boot cwd X O FS st → match_at devname kd = Some (inl (kd_vnode kd)) →
    wp F (device_itself kd) st Q E) as Hitself.
  { intros st1 Hdev Hr1 Hm. unfold device_itself. wp_assert by (by destruct (Z.eqb_spec (kd_device kd) 0)). wp_steps.
    eapply incref_ok; [done|by eapply base_dev|]. intros st2 Hr2. wp_steps. by apply (HS (inl (kd_vnode kd))). }
  unfold getroot_at. unfold match_at in *. destruct (Z.eqb_spec (kd_fs kd) 0) as [Hf|Hf]; cbn [negb andb] in *.
  - wp_steps. destruct (bool_decide (kd_name kd = devname)) eqn:Hn.
    + rewrite andb_true_r. destruct (bool_decide (is_Some (kd_rawname kd))) eqn:Hraw; cbn [andb].
      * wp_steps. by apply (HS (inr ENXIO)).
      * wp_assert by done. wp_assert by (rewrite bool_decide_eq_false in Hraw; apply bool_decide_eq_true; destruct (kd_rawname kd); [by destruct Hraw|done]).
        wp_steps. apply Hitself; [|done|done]. intros H0. by apply Hd2 in H0.
    + rewrite andb_false_r. destruct (bool_decide (kd_rawname kd = Some devname)) eqn:Hraw; [|wp_steps; by apply HN].
      apply Hitself; [|done|done]. apply Hd1. apply bool_decide_eq_true in Hraw. by rewrite Hraw.
  - wp_steps. eapply volname_ok; [done|by apply Hd3|]. intros st1 Hr1.
    destruct (bool_decide (kd_name kd = devname) || bool_decide (fs_vol (kd_fs kd) = Some devname)) eqn:Hm.
    + wp_steps. eapply fsroot_ok; [done|by apply Hd3|]. intros st2 Hr2. wp_steps. by apply (HS (inl (fs_root (kd_fs kd)))).
    + apply orb_false_iff in Hm as [Hn _]. rewrite Hn in *.
      destruct (bool_decide (kd_rawname kd = Some devname)) eqn:Hraw; [|wp_steps; by apply HN].
      apply Hitself; [|done|done]. apply Hd1. apply bool_decide_eq_true in Hraw. by rewrite Hraw.
Qed.

Lemma vfs_getroot_ok F bl ds boot cwd X O FS devname st (Q : Z → St → Prop) (E : Z → St → Prop) :
  vrep false bl ds boot cwd X O FS st →
  (∀ v st', resolve devname ds.*2 = inl v → vrep false bl ds boot cwd (X ⊎ {[+ v +]}) O FS st' → Q v st') →
  (∀ e st', resolve devname ds.*2 = inr e → vrep false bl ds boot cwd X O FS st' → E e st') →
  wp F (vfs_getroot devname) st Q E.
Proof.
  intros Hr HQ HE. unfold vfs_getroot. wp_steps. eapply klock_ok; [done|]. clear st Hr. intros st Hr. wp_steps.
  apply (scan_known_ok F ds.*1 (λ i st, vrep true bl ds boot cwd X O FS st ∧ resolve devname ds.*2 = resolve devname (drop i ds.*2))).
  - intros i st' [Hr' _]. by eapply vrep_table.
  - by split.
  - intros i p kd st' Hp Hkd [Hr' Hres]. rewrite list_lookup_fmap in Hp. apply fmap_Some in Hp as ([p' kd'] & Hi & ->). cbn [fst] in *.
    pose proof (vr_kds _ _ _ _ _ _ _ _ _ Hr' _ _ _ Hi) as Hk2. simplify_eq.
    assert (drop i ds.*2 = kd :: drop (S i) ds.*2) as Hdrop by (apply drop_S; by rewrite list_lookup_fmap, Hi). rewrite Hdrop in Hres. cbn [resolve] in Hres.
    eapply (getroot_at_ok F true bl ds boot cwd X O FS i p' kd); [done|done| |].
    + intros st2 Hm Hr2. rewrite Hm in Hres. by split.
    + intros r st2 Hm Hr2. rewrite Hm in Hres. wp_steps. eapply kunlock_ok; [done|]. intros st3 Hr3. wp_steps.
      destruct r as [v|e]; cbn [add_ref] in *; wp_steps; [by apply HQ|by apply HE].
  - intros st' [Hr' Hres]. wp_steps. eapply kunlock_ok; [done|]. intros st3 Hr3. wp_steps. apply HE; [|done].
    rewrite Hres. rewrite drop_ge; [done|]. by rewrite !length_fmap.
Qed.

(** ** Names *)

(** Where a path starts, and the rest of it *)
Inductive origin := FromCwd | FromDev (d : name) | FromBoot | FromCurfs.
Definition parse (path : name) : origin * name :=
  match first_sep 0 path with
  | Some (i, true) => if i =? 0 then (FromCurfs, skip_slashes (drop 1 path))
                      else (FromDev (take (Z.to_nat i) path), skip_slashes (drop (Z.to_nat i + 1) path))
  | Some (i, false) => if i =? 0 then (FromBoot, skip_slashes (drop 1 path)) else (FromCwd, path)
  | None => (FromCwd, path)
  end.
Definition start_of ds (boot cwd : Z) (o : origin) : Z + Z :=
  match o with
  | FromCwd => if cwd =? 0 then inr ENOENT else inl cwd
  | FromDev d => resolve d ds.*2
  | FromBoot => if boot =? 0 then inr ENOENT else inl boot
  | FromCurfs => if cwd =? 0 then inr ENOENT else inl (fs_root (fs_of cwd))
  end.

Lemma first_sep_spec i path :
  match first_sep i path with
  | Some (j, b) => i ≤ j ∧ path !! Z.to_nat (j - i) = Some (if b then colon else slash)
  | None => True
  end.
Proof.
  revert i. induction path as [|c path IH]; intros i; cbn [first_sep]; [done|].
  destruct (Z.eqb_spec c colon) as [->|]; [by rewrite Z.sub_diag|]. destruct (Z.eqb_spec c slash) as [->|]; [by rewrite Z.sub_diag|].
  specialize (IH (i + 1)). destruct (first_sep (i + 1) path) as [[j b]|]; [|done]. destruct IH as [Hj Hl]. split; [lia|].
  replace (Z.to_nat (j - i)) with (S (Z.to_nat (j - (i + 1)))) by lia. done.
Qed.

Section names.
Context (F : fault → Prop) ds (boot cwd : Z).
Notation rep := (vrep false false ds boot cwd).

Lemma getcurdir_ok X O FS st (Q : Z → St → Prop) (E : Z → St → Prop) :
  rep X O FS st → (∀ st', cwd ≠ 0 → rep (X ⊎ {[+ cwd +]}) O FS st' → Q cwd st') →
  (∀ st', cwd = 0 → rep X O FS st' → E ENOENT st') → wp F vfs_getcurdir st Q E.
Proof.
  intros Hr HQ HE. unfold vfs_getcurdir, on_vfs. wp_steps. cbn [fst snd]. destruct (vr_cwd _ _ _ _ _ _ _ _ _ Hr) as [Hc _]. rewrite Hc.
  replace (st.1.1, st.1.2, st.2) with st by (by destruct st as [[? ?] ?]).
  destruct (Z.eqb_spec cwd 0); cbn [negb]; wp_steps; [by apply HE|].
  eapply incref_ok; [done|by apply base_cwd|]. intros st' Hr'. wp_steps. by apply HQ.
Qed.

Lemma block_ok kl bl' X O FS st (Q : () → St → Prop) E :
  vrep kl false ds boot cwd X O FS st → bl' = true → (∀ st', vrep kl bl' ds boot cwd X O FS st' → Q tt st') → wp F block st Q E.
Proof.
  intros [H1 H3 H4 [Hk Hb] H6 H7 H8 H9 H10] -> HQ. unfold block, on_vfs. wp_steps. wp_assert by (by rewrite Hb). wp_steps.
  apply HQ. by split.
Qed.
Lemma bunlock_ok kl X O FS st (Q : () → St → Prop) E :
  vrep kl true ds boot cwd X O FS st → (∀ st', vrep kl false ds boot cwd X O FS st' → Q tt st') → wp F bunlock st Q E.
Proof.
  intros [H1 H3 H4 [Hk Hb] H6 H7 H8 H9 H10] HQ. unfold bunlock, on_vfs. wp_steps. wp_assert by (by rewrite Hb). wp_steps.
  apply HQ. by split.
Qed.

Lemma getdevice_ok X O FS path st (Q : name * Z → St → Prop) (E : Z → St → Prop) :
  rep X O FS st →
  (∀ v st', start_of ds boot cwd (parse path).1 = inl v → rep (X ⊎ {[+ v +]}) O FS st' → Q ((parse path).2, v) st') →
  (∀ e st', start_of ds boot cwd (parse path).1 = inr e → rep X O FS st' → E e st') →
  wp F (getdevice path) st Q E.
Proof.
  intros Hr HQ HE. unfold getdevice, parse in *. pose proof (first_sep_spec 0 path) as Hsep.
  assert (∀ (P : name) (Q' : name * Z → St → Prop), (∀ st', cwd ≠ 0 → rep (X ⊎ {[+ cwd +]}) O FS st' → Q' (P, cwd) st') →
    (∀ st', cwd = 0 → rep X O FS st' → E ENOENT st') → wp F (v ← vfs_getcurdir; mret (P, v)) st Q' E) as Hcwd.
  { intros P Q' HQ' HE'. wp_steps. apply (getcurdir_ok X O FS); [done| |done]. intros st' Hc Hr'. wp_steps. by apply HQ'. }
  destruct (first_sep 0 path) as [[i [|]]|]; [destruct Hsep as [Hi Hl]; rewrite Z.sub_0_r in Hl|destruct Hsep as [Hi Hl]; rewrite Z.sub_0_r in Hl|].
  - (* a colon *)
    replace (i <? 0) with false by lia. cbn [andb]. destruct (Z.eqb_spec i 0) as [Hi0|Hn].
    + subst i. change (0 <? 0) with false. cbn [fst snd start_of] in *. wp_assert by done. wp_steps.
      assert (head path = Some colon) as Hhead by (destruct path; [done|exact Hl]). rewrite Hhead.
      rewrite bool_decide_false by done. wp_steps. wp_assert by (by apply bool_decide_eq_true). wp_steps.
      apply (getcurdir_ok X O FS); [done| |].
      * intros st1 Hc Hr1. destruct (Z.eqb_spec cwd 0); [done|]. wp_steps. destruct (vr_cwd _ _ _ _ _ _ _ _ _ Hr1) as [_ Hfs]. specialize (Hfs Hc).
        assert (fs_of cwd ∈ FS) as Hin by (eapply fsw_mounted; [apply (vr_fsw _ _ _ _ _ _ _ _ _ Hr1)|by apply base_cwd|done]).
        eapply vn_fs_ok; [done|by apply base_cwd|]. intros st2 Hr2. wp_assert by (by destruct (Z.eqb_spec (fs_of cwd) 0)). wp_steps.
        eapply fsroot_ok; [done|done|]. intros st3 Hr3. wp_steps.
        eapply (decref_ok F false false ds boot cwd (X ⊎ {[+ fs_root (fs_of cwd) +]})).
        { replace (X ⊎ {[+ fs_root (fs_of cwd) +]} ⊎ {[+ cwd +]}) with (X ⊎ {[+ cwd +]} ⊎ {[+ fs_root (fs_of cwd) +]}) by multiset_solver. exact Hr3. }
        intros st4 Hr4. wp_steps. by apply HQ.
      * intros st1 Hc Hr1. destruct (Z.eqb_spec cwd 0); [|done]. by apply HE.
    + replace (0 <? i) with true by lia. cbn [fst snd start_of] in *. wp_steps.
      apply (vfs_getroot_ok F false ds boot cwd X O FS); [done| |done]. intros v st1 Hres Hr1. wp_steps. by apply HQ.
  - (* a slash *)
    change (-1 <? 0) with true. cbn [andb]. destruct (Z.eqb_spec i 0) as [Hi0|Hn]; cbn [negb].
    + subst i. change (0 <? -1) with false. cbn [fst snd start_of] in *. wp_assert by done. wp_steps.
      assert (head path = Some slash) as Hhead by (destruct path; [done|exact Hl]). rewrite Hhead.
      rewrite bool_decide_true by done. wp_steps. apply (block_ok false true X O FS); [done|done|]. intros st1 Hr1. unfold on_vfs. wp_steps. cbn [fst snd].
      replace (st1.1.1, st1.1.2, st1.2) with st1 by (by destruct st1 as [[? ?] ?]). rewrite (vr_boot _ _ _ _ _ _ _ _ _ Hr1).
      destruct (Z.eqb_spec boot 0) as [Hb|Hb].
      * wp_steps. apply (bunlock_ok false X O FS); [done|]. intros st2 Hr2. wp_steps. by apply HE.
      * wp_steps. eapply incref_ok; [done|by apply base_boot|]. intros st2 Hr2. wp_steps.
        apply (bunlock_ok false (X ⊎ {[+ boot +]}) O FS); [done|]. intros st3 Hr3. wp_steps. by apply HQ.
    + cbn [fst snd start_of] in *. apply Hcwd.
      * intros st' Hc Hr'. destruct (Z.eqb_spec cwd 0); [done|]. by apply HQ.
      * intros st' Hc Hr'. destruct (Z.eqb_spec cwd 0); [|done]. by apply HE.
  - change (-1 <? 0) with true. change (-1 =? 0) with false. cbn [andb negb fst snd start_of] in *. apply Hcwd.
    + intros st' Hc Hr'. destruct (Z.eqb_spec cwd 0); [done|]. by apply HQ.
    + intros st' Hc Hr'. destruct (Z.eqb_spec cwd 0); [|done]. by apply HE.
Qed.

(** A result, after a reference has been dropped *)
Lemma decref_after_ok {A} X O FS v (r : A + Z) st (Q : A → St → Prop) (E : Z → St → Prop) :
  rep (X ⊎ {[+ v +]}) O FS st → (∀ a st', r = inl a → rep X O FS st' → Q a st') → (∀ e st', r = inr e → rep X O FS st' → E e st') →
  wp F (decref_after v r) st Q E.
Proof.
  intros Hr HQ HE. unfold decref_after. wp_steps. eapply decref_ok; [done|]. intros st' Hr'. destruct r as [a|e]; wp_steps; [by apply HQ|by apply HE].
Qed.

Lemma refs_swap X (a b : Z) : X ⊎ {[+ a +]} ⊎ {[+ b +]} = X ⊎ {[+ b +]} ⊎ {[+ a +]}.
Proof. multiset_solver. Qed.

Lemma vfs_lookparent_ok X O FS path n st (Q : Z * name → St → Prop) (E : Z → St → Prop) :
  rep X O FS st → (∀ r st', rep (X ⊎ {[+ r.1 +]}) O FS st' → Q r st') → (∀ e st', rep X O FS st' → E e st') →
  wp F (vfs_lookparent path n) st Q E.
Proof.
  intros Hr HQ HE. unfold vfs_lookparent. wp_steps. eapply getdevice_ok; [done| |by intros e st' _ ?; apply HE]. intros v st1 _ Hr1. wp_steps.
  destruct (bool_decide _); wp_steps.
  - eapply decref_after_ok; [done|done|]. intros e st2 [= <-] Hr2. by apply HE.
  - eapply (yields_ok F false false ds boot cwd _ fst); [intros w R Hw Hv; by apply (lookparent_law w R O FS v)|done|multiset_solver| |].
    + intros r st2 Hr2. rewrite refs_swap in Hr2. eapply decref_after_ok; [done| |done]. intros a st3 [= <-] Hr3. by apply HQ.
    + intros e st2 Hr2. eapply decref_after_ok; [done|done|]. intros e' st3 [= <-] Hr3. by apply HE.
Qed.

Lemma vfs_lookup_ok X O FS path st (Q : Z → St → Prop) (E : Z → St → Prop) :
  rep X O FS st → (∀ v st', rep (X ⊎ {[+ v +]}) O FS st' → Q v st') → (∀ e st', rep X O FS st' → E e st') →
  wp F (vfs_lookup path) st Q E.
Proof.
  intros Hr HQ HE. unfold vfs_lookup. wp_steps. eapply getdevice_ok; [done| |by intros e st' _ ?; apply HE]. intros v st1 _ Hr1. wp_steps.
  destruct (bool_decide _); wp_steps; [by apply HQ|].
  eapply (yields_ok F false false ds boot cwd _ id); [intros w R Hw Hv; by apply (lookup_law w R O FS v)|done|multiset_solver| |].
  - intros r st2 Hr2. rewrite refs_swap in Hr2. eapply decref_after_ok; [done| |done]. intros a st3 [= <-] Hr3. by apply HQ.
  - intros e st2 Hr2. eapply decref_after_ok; [done|done|]. intros e' st3 [= <-] Hr3. by apply HE.
Qed.
End names.

(** ** The current directory and the boot file system *)

Lemma opt_ref_some v : v ≠ 0 → opt_ref v = {[+ v +]}.
Proof. unfold opt_ref. by destruct (Z.eqb_spec v 0). Qed.

Lemma vrep_nonzero kl bl ds boot cwd X O FS st v : vrep kl bl ds boot cwd X O FS st → v ∈ base ds boot cwd ⊎ X → v ≠ 0.
Proof. intros Hr Hv ->. by destruct (fsw_null _ _ _ _ (vr_fsw _ _ _ _ _ _ _ _ _ Hr)). Qed.

(** The reference to the old directory, if there is one, is dropped. *)
Lemma drop_old_ok F kl bl ds boot cwd X O FS old st (Q : () → St → Prop) E :
  vrep kl bl ds boot cwd (X ⊎ opt_ref old) O FS st → (∀ st', vrep kl bl ds boot cwd X O FS st' → Q tt st') →
  wp F (when (negb (old =? 0)) (on_w (VOP_DECREF old))) st Q E.
Proof.
  intros Hr HQ. unfold opt_ref in Hr. apply wp_when; intros Ho; destruct (Z.eqb_spec old 0); try done.
  - by eapply decref_ok.
  - apply HQ. by rewrite (right_id_L ∅ (⊎)) in Hr.
Qed.

Lemma vrep_set_cwd kl bl ds boot cwd X O FS dir st :
  vrep kl bl ds boot cwd (X ⊎ opt_ref dir) O FS st → (dir ≠ 0 → fs_of dir ≠ 0) →
  vrep kl bl ds boot dir (X ⊎ opt_ref cwd) O FS ((st.1.1, set_cwd dir st.1.2), st.2).
Proof.
  intros [H1 H3 H4 H5 H6 H7 H8 H9 H10] Hd. split; try done. cbn [snd].
  replace (base ds boot dir ⊎ (X ⊎ opt_ref cwd)) with (base ds boot cwd ⊎ (X ⊎ opt_ref dir)) by (unfold base; multiset_solver). exact H10.
Qed.

Lemma vrep_set_boot kl bl ds boot cwd X O FS b st :
  vrep kl bl ds boot cwd (X ⊎ opt_ref b) O FS st →
  vrep kl bl ds b cwd (X ⊎ opt_ref boot) O FS ((st.1.1, set_bootfs b st.1.2), st.2).
Proof.
  intros [H1 H3 H4 H5 H6 H7 H8 H9 H10]. split; try done. cbn [snd].
  replace (base ds b cwd ⊎ (X ⊎ opt_ref boot)) with (base ds boot cwd ⊎ (X ⊎ opt_ref b)) by (unfold base; multiset_solver). exact H10.
Qed.

Lemma vfs_setcurdir_ok F ds boot cwd X O FS dir st (Q : () → St → Prop) (E : Z → St → Prop) :
  vrep false false ds boot cwd X O FS st → dir ∈ base ds boot cwd ⊎ X →
  (∀ st', vrep false false ds boot dir X O FS st' → Q tt st') → (∀ e st', vrep false false ds boot cwd X O FS st' → E e st') →
  wp F (vfs_setcurdir dir) st Q E.
Proof.
  intros Hr Hd HQ HE. unfold vfs_setcurdir. wp_steps. pose proof (vrep_nonzero _ _ _ _ _ _ _ _ _ _ Hr Hd) as Hd0.
  eapply wp_on_w; [by apply (gettype_law _ _ _ _ dir (vr_fsw _ _ _ _ _ _ _ _ _ Hr))| |intros e w' Hw'; apply HE; by eapply vrep_fsw].
  intros t w' [Hdir Hw']. pose proof (vrep_fsw _ _ _ _ _ _ _ _ _ _ _ _ Hr Hw') as Hr1. destruct (S_ISDIR t); cbn [negb]; [|wp_steps; by apply HE].
  wp_steps. eapply incref_ok; [exact Hr1|done|]. intros st2 Hr2. unfold on_vfs. wp_steps. cbn [fst snd].
  destruct (vr_cwd _ _ _ _ _ _ _ _ _ Hr2) as [-> _]. rewrite <- (opt_ref_some dir) in Hr2 by done.
  eapply drop_old_ok; [|exact HQ]. replace (st2.1.1, st2.1.2, st2.2) with st2 by (by destruct st2 as [[? ?] ?]). cbn [fst snd].
  apply vrep_set_cwd; [exact Hr2|]. intros _. by apply Hdir.
Qed.

Lemma vfs_clearcurdir_ok F ds boot cwd X O FS st (Q : () → St → Prop) (E : Z → St → Prop) :
  vrep false false ds boot cwd X O FS st → (∀ st', vrep false false ds boot 0 X O FS st' → Q tt st') → wp F vfs_clearcurdir st Q E.
Proof.
  intros Hr HQ. unfold vfs_clearcurdir, on_vfs. wp_steps. cbn [fst snd]. destruct (vr_cwd _ _ _ _ _ _ _ _ _ Hr) as [-> _].
  eapply drop_old_ok; [|exact HQ]. apply vrep_set_cwd; [|done]. change (opt_ref 0) with (∅ : refs). rewrite (right_id_L ∅ (⊎)).
  by destruct st as [[? ?] ?].
Qed.

Lemma vfs_chdir_ok F ds boot cwd X O FS path st (Q : () → St → Prop) (E : Z → St → Prop) :
  vrep false false ds boot cwd X O FS st →
  (∀ dir st', dir ≠ 0 → vrep false false ds boot dir X O FS st' → Q tt st') → (∀ e st', vrep false false ds boot cwd X O FS st' → E e st') →
  wp F (vfs_chdir path) st Q E.
Proof.
  intros Hr HQ HE. unfold vfs_chdir. wp_steps. eapply vfs_lookup_ok; [done| |done]. intros v st1 Hr1. wp_steps.
  assert (v ∈ base ds boot cwd ⊎ (X ⊎ {[+ v +]})) as Hv by multiset_solver. pose proof (vrep_nonzero _ _ _ _ _ _ _ _ _ _ Hr1 Hv) as Hv0.
  eapply vfs_setcurdir_ok; [done|done| |].
  - intros st2 Hr2. eapply decref_after_ok; [done| |done]. intros [] st3 _ Hr3. by eapply HQ.
  - intros e st2 Hr2. eapply decref_after_ok; [done|done|]. intros e' st3 [= <-] Hr3. by apply HE.
Qed.

Lemma change_bootfs_ok F kl ds boot cwd X O FS b st (Q : () → St → Prop) E :
  vrep kl false ds boot cwd (X ⊎ opt_ref b) O FS st → (∀ st', vrep kl false ds b cwd X O FS st' → Q tt st') →
  wp F (change_bootfs b) st Q E.
Proof.
  intros Hr HQ. unfold change_bootfs. wp_steps. eapply block_ok; [done|done|]. intros st1 Hr1. unfold on_vfs. wp_steps. cbn [fst snd].
  replace (st1.1.1, st1.1.2, st1.2) with st1 by (by destruct st1 as [[? ?] ?]). rewrite (vr_boot _ _ _ _ _ _ _ _ _ Hr1).
  eapply bunlock_ok; [apply vrep_set_boot; exact Hr1|]. intros st2 Hr2. wp_steps. by eapply drop_old_ok.
Qed.

Lemma from_colon_spec t :
  match from_colon t with Some s => colon ∈ t ∧ (0 < length s)%nat | None => colon ∉ t end.
Proof.
  induction t as [|c t IH]; cbn [from_colon]; [by apply not_elem_of_nil|].
  destruct (Z.eqb_spec c colon) as [->|Hc]; [split; [by left|cbn; lia]|].
  destruct (from_colon t); [split; [by right; apply IH|apply IH]|]. by apply not_elem_of_cons.
Qed.

Lemma vfs_setbootfs_ok F ds boot cwd X O FS nm st (Q : () → St → Prop) (E : Z → St → Prop) :
  vrep false false ds boot cwd X O FS st →
  (∀ dir st', colon ∉ take 254 nm → dir ≠ 0 → vrep false false ds dir dir X O FS st' → Q tt st') →
  (∀ e st', (colon ∈ take 254 nm → e = EINVAL) → vrep false false ds boot cwd X O FS st' → E e st') →
  wp F (vfs_setbootfs nm) st Q E.
Proof.
  intros Hr HQ HE. unfold vfs_setbootfs. wp_steps. pose proof (from_colon_spec (take 254 nm)) as Hc.
  destruct (from_colon (take 254 nm)) as [t|]; [destruct Hc as [Hc Ht]; rewrite (proj2 (Z.ltb_lt 0 _)) by lia; wp_steps; by apply HE|].
  wp_steps. eapply vfs_chdir_ok; [done| |by intros e st' Hr'; apply HE]. intros dir st1 Hd Hr1. wp_steps.
  eapply getcurdir_ok; [done| |by intros st2 H0; destruct (Hd H0)]. intros st2 _ Hr2. wp_steps.
  rewrite <- (opt_ref_some dir) in Hr2 by done. eapply change_bootfs_ok; [exact Hr2|]. intros st3 Hr3. by eapply HQ.
Qed.

(** ** Operations on names *)

Section paths.
Context (F : fault → Prop) ds (boot cwd : Z).
Notation rep := (vrep false false ds boot cwd).

Lemma vfs_open_ok X O FS path fl st (Q : Z → St → Prop) (E : Z → St → Prop) :
  rep X O FS st → (∀ v st', rep (X ⊎ {[+ v +]}) (O ⊎ {[+ v +]}) FS st' → Q v st') → (∀ e st', rep X O FS st' → E e st') →
  wp F (vfs_open path fl) st Q E.
Proof.
  intros Hr HQ HE. unfold vfs_open.
  assert (∀ (k : bool → M St Z), (∀ b, wp F (k b) st Q E) →
    wp F (canwrite ← (if Z.land fl O_ACCMODE =? 0 then mret false
              else if (Z.land fl O_ACCMODE =? O_WRONLY) || (Z.land fl O_ACCMODE =? O_RDWR) then mret true else fail EINVAL); k canwrite) st Q E) as Hhow.
  { intros k Hk. destruct (Z.land fl O_ACCMODE =? 0); [wp_steps; apply Hk|]. destruct (_ || _); wp_steps; [apply Hk|by apply HE]. }
  apply Hhow. clear Hhow. intros canwrite.
  assert (∀ (k : Z → M St Z), (∀ v st', rep (X ⊎ {[+ v +]}) O FS st' → wp F (k v) st' Q E) →
    wp F (vn ← (if negb (Z.land fl O_CREAT =? 0) then
      let excl := negb (Z.land fl O_EXCL =? 0) in
      '(dir, nm) ← vfs_lookparent path (NAME_MAX + 1);
      result ← try (on_w (VOP_CREAT dir nm excl));
      decref_after dir result
    else vfs_lookup path); k vn) st Q E) as Hfind.
  { intros k Hk. destruct (negb (Z.land fl O_CREAT =? 0)).
    - wp_steps. eapply vfs_lookparent_ok; [done| |done]. intros [dir nm] st1 Hr1. cbn [fst] in *. wp_steps.
      eapply (yields_ok F false false ds boot cwd _ id); [intros w R Hw Hv; by apply (creat_law w R O FS dir)|done|multiset_solver| |].
      + intros r st2 Hr2. rewrite refs_swap in Hr2. eapply decref_after_ok; [done| |done]. intros a st3 [= <-] Hr3. by apply Hk.
      + intros e st2 Hr2. eapply decref_after_ok; [done|done|]. intros e' st3 [= <-] Hr3. by apply HE.
    - wp_steps. by eapply vfs_lookup_ok. }
  apply Hfind. clear Hfind st Hr. intros v st Hr. assert (v ∈ base ds boot cwd ⊎ (X ⊎ {[+ v +]})) as Hv by multiset_solver.
  pose proof (vrep_nonzero _ _ _ _ _ _ _ _ _ _ Hr Hv) as Hv0. wp_assert by (by destruct (Z.eqb_spec v 0)). wp_steps.
  eapply keeps_ok; [intros w Hw; by apply (open_law w _ O FS v)|done| |].
  - intros [] st1 Hr1. wp_steps.
    eapply wp_on_w; [apply (incopen_law _ _ _ _ v (vr_fsw _ _ _ _ _ _ _ _ _ Hr1)); multiset_solver| |done]. intros [] w' Hw'.
    pose proof (vrep_fsw _ _ _ _ _ _ _ _ _ _ _ _ Hr1 Hw') as Hr2. clear Hw'. set (st2 := (st1.1, w')) in *. clearbody st2. wp_steps.
    assert (∀ e st', rep (X ⊎ {[+ v +]}) (O ⊎ {[+ v +]}) FS st' →
      wp F (on_w (VOP_DECOPEN v);; on_w (VOP_DECREF v);; fail e) st' Q E) as Hundo.
    { intros e st3 Hr3. wp_steps. eapply wp_on_w; [apply (decopen_law _ _ _ _ v (vr_fsw _ _ _ _ _ _ _ _ _ Hr3)); multiset_solver| |done].
      intros [] w3 Hw3. pose proof (vrep_fsw _ _ _ _ _ _ _ _ _ _ _ _ Hr3 Hw3) as Hr4. wp_steps. eapply decref_ok; [exact Hr4|].
      intros st5 Hr5. wp_steps. by apply HE. }
    destruct (negb (Z.land fl O_TRUNC =? 0)); [|wp_steps; by apply HQ]. destruct canwrite; [|wp_steps; by apply wp_unbind, Hundo].
    wp_steps. eapply keeps_ok; [intros w Hw; apply (truncate_law w _ _ FS v 0 Hw); multiset_solver|done| |].
    + intros [] st3 Hr3. wp_steps. by apply HQ.
    + intros e st3 Hr3. by apply Hundo.
  - intros e st1 Hr1. wp_steps. eapply decref_ok; [exact Hr1|]. intros st2 Hr2. wp_steps. by apply HE.
Qed.

Lemma vfs_close_ok X O FS v st (Q : () → St → Prop) E :
  rep (X ⊎ {[+ v +]}) (O ⊎ {[+ v +]}) FS st → (∀ st', rep X O FS st' → Q tt st') → wp F (vfs_close v) st Q E.
Proof.
  intros Hr HQ. unfold vfs_close. wp_steps. eapply wp_on_w; [apply (decopen_law _ _ _ _ v (vr_fsw _ _ _ _ _ _ _ _ _ Hr)); multiset_solver| |done].
  intros [] w3 Hw3. pose proof (vrep_fsw _ _ _ _ _ _ _ _ _ _ _ _ Hr Hw3) as Hr4. by eapply decref_ok.
Qed.

Lemma in_parent_ok X O FS path (op : Z → name → M W ()) st (Q : () → St → Prop) (E : Z → St → Prop) :
  (∀ w R v n, fsw w R O FS → v ∈ R → wp safe (op v n) w (λ _ w', fsw w' R O FS) (λ _ w', fsw w' R O FS)) →
  rep X O FS st → (∀ st', rep X O FS st' → Q tt st') → (∀ e st', rep X O FS st' → E e st') → wp F (in_parent path op) st Q E.
Proof.
  intros Hop Hr HQ HE. unfold in_parent. wp_steps. eapply vfs_lookparent_ok; [done| |done]. intros [dir nm] st1 Hr1. cbn [fst] in *. wp_steps.
  eapply (keeps_ok F false false ds boot cwd _ (X ⊎ {[+ dir +]})); [intros w Hw; apply (Hop w _ dir nm Hw); multiset_solver|done| |].
  - intros [] st2 Hr2. eapply decref_after_ok; [done| |done]. intros [] st3 _ Hr3. by apply HQ.
  - intros e st2 Hr2. eapply decref_after_ok; [done|done|]. intros e' st3 [= <-] Hr3. by apply HE.
Qed.

Lemma decref2_ok X O FS v2 v1 r st (Q : () → St → Prop) (E : Z → St → Prop) :
  rep (X ⊎ {[+ v1 +]} ⊎ {[+ v2 +]}) O FS st → (∀ st', rep X O FS st' → Q tt st') → (∀ e st', rep X O FS st' → E e st') →
  wp F (decref2 v2 v1 r) st Q E.
Proof.
  intros Hr HQ HE. unfold decref2. wp_steps. eapply decref_ok; [exact Hr|]. intros st1 Hr1. wp_steps. eapply decref_ok; [exact Hr1|].
  intros st2 Hr2. destruct r as [[]|e]; wp_steps; [by apply HQ|by apply HE].
Qed.

(** An operation on two vnodes of one file system *)
Lemma two_vnodes_ok X O FS v1 v2 (op : M W ()) st (Q : () → St → Prop) (E : Z → St → Prop) :
  (∀ w R, fsw w R O FS → v1 ∈ R → v2 ∈ R → wp safe op w (λ _ w', fsw w' R O FS) (λ _ w', fsw w' R O FS)) →
  rep (X ⊎ {[+ v1 +]} ⊎ {[+ v2 +]}) O FS st → (∀ st', rep X O FS st' → Q tt st') → (∀ e st', rep X O FS st' → E e st') →
  wp F (fs1 ← on_w (vn_fs v1); fs2 ← on_w (vn_fs v2); if across fs1 fs2 then decref2 v2 v1 (inr EXDEV) else
        result ← try (on_w op); decref2 v2 v1 result) st Q E.
Proof.
  intros Hop Hr HQ HE. wp_steps. eapply vn_fs_ok; [done|multiset_solver|]. intros st1 Hr1. wp_steps.
  eapply vn_fs_ok; [done|multiset_solver|]. intros st2 Hr2. destruct (across (fs_of v1) (fs_of v2)); [by eapply decref2_ok|].
  wp_steps. eapply (keeps_ok F false false ds boot cwd _ (X ⊎ {[+ v1 +]} ⊎ {[+ v2 +]})); [intros w Hw; apply (Hop w _ Hw); multiset_solver|done| |].
  - intros [] st3 Hr3. by eapply decref2_ok.
  - intros e st3 Hr3. by eapply decref2_ok.
Qed.

Lemma vfs_rename_ok X O FS old new st (Q : () → St → Prop) (E : Z → St → Prop) :
  rep X O FS st → (∀ st', rep X O FS st' → Q tt st') → (∀ e st', rep X O FS st' → E e st') → wp F (vfs_rename old new) st Q E.
Proof.
  intros Hr HQ HE. unfold vfs_rename. wp_steps. eapply vfs_lookparent_ok; [done| |done]. intros [d1 n1] st1 Hr1. cbn [fst] in *. wp_steps.
  eapply vfs_lookparent_ok; [done| |].
  - intros [d2 n2] st2 Hr2. cbn [fst] in *. eapply two_vnodes_ok; [|exact Hr2|done|done]. intros w R Hw H1 H2. by apply rename_law.
  - intros e st2 Hr2. wp_steps. eapply decref_ok; [exact Hr2|]. intros st3 Hr3. wp_steps. by apply HE.
Qed.

Lemma vfs_link_ok X O FS old new st (Q : () → St → Prop) (E : Z → St → Prop) :
  rep X O FS st → (∀ st', rep X O FS st' → Q tt st') → (∀ e st', rep X O FS st' → E e st') → wp F (vfs_link old new) st Q E.
Proof.
  intros Hr HQ HE. unfold vfs_link. wp_steps. eapply vfs_lookup_ok; [done| |done]. intros v1 st1 Hr1. wp_steps.
  eapply vfs_lookparent_ok; [done| |].
  - intros [d2 n2] st2 Hr2. cbn [fst] in *. eapply two_vnodes_ok; [|exact Hr2|done|done]. intros w R Hw H1 H2. by apply link_law.
  - intros e st2 Hr2. wp_steps. eapply decref_ok; [exact Hr2|]. intros st3 Hr3. wp_steps. by apply HE.
Qed.

Lemma vfs_readlink_ok X O FS path st (Q : () → St → Prop) (E : Z → St → Prop) :
  rep X O FS st → (∀ st', rep X O FS st' → Q tt st') → (∀ e st', rep X O FS st' → E e st') → wp F (vfs_readlink path) st Q E.
Proof.
  intros Hr HQ HE. unfold vfs_readlink. wp_steps. eapply vfs_lookup_ok; [done| |done]. intros v st1 Hr1. wp_steps.
  eapply (keeps_ok F false false ds boot cwd _ (X ⊎ {[+ v +]})); [intros w Hw; apply (readlink_law w _ O FS v Hw); multiset_solver|done| |].
  - intros [] st2 Hr2. eapply decref_after_ok; [done| |done]. intros [] st3 _ Hr3. by apply HQ.
  - intros e st2 Hr2. eapply decref_after_ok; [done|done|]. intros e' st3 [= <-] Hr3. by apply HE.
Qed.
End paths.
End proofs.
