(* ===== verification/VfsList.v ===== *)
(** The table of devices: adding a device, mounting and unmounting file systems. *)

From Stdlib Require Import ZArith Lia.
From stdpp Require Import base list gmap gmultiset numbers option.
From S2P Require Import Prelude KMem Array Vfs VfsProof.

Local Open Scope Z_scope.

Notation len l := (Z.of_nat (length l)).

(** Exhausted memory, or a call of [panic]: [dev_create_vnode] panics when a vnode cannot be
    initialised. *)
Definition safe_panic : fault → Prop := λ f, f = Out_of_memory ∨ f = Panic_called.

Section table.
Context `{HL : KHeapLaws H} `{FL : FsLaws W}.
Notation St := (H * vfs * W)%type.
Implicit Types (st : St) (X O : refs) (FS : gset Z) (ds : list (Z * knowndev)) (m : gmap Z Z).

(** ** The heap *)

Lemma array_rep_more {A} m m' (a : array A) l : array_rep m a l → m ⊆ m' → array_rep m' a l.
Proof.
  intros [H1 H2 H3 H4] Hm. split; [done..|]. destruct (v a =? 0); [done|]. destruct H4 as [n Hn]. exists n. by eapply lookup_weaken.
Qed.

Lemma devs_more m m' ds s : devs_in m ds s → m ⊆ m' → devs_in m' ds s.
Proof.
  intros (H2 & H3) Hm. split; [by eapply array_rep_more|]. intros p Hp. destruct (H3 p Hp) as [[n Hn] Hv].
  split; [|done]. exists n. by eapply lookup_weaken.
Qed.

Lemma vrep_heap kl bl ds boot cwd X O FS st h' m' :
  vrep kl bl ds boot cwd X O FS st → heap_owns h' m' → devs_in m' ds st.1.2 → vrep kl bl ds boot cwd X O FS ((h', st.1.2), st.2).
Proof. intros [? ? ? ? ? ? ? ? ?] Hh Hd. split; try done. by exists m'. Qed.

Lemma kmalloc_one_ok kl bl ds boot cwd X O FS m sz st (Q : Z → St → Prop) E :
  vrep kl bl ds boot cwd X O FS st → heap_at m ds st → 0 ≤ sz < 2 ^ 31 →
  (∀ st', st'.1.2 = st.1.2 → vrep kl bl ds boot cwd X O FS st' → heap_at m ds st' → Q 0 st') →
  (∀ p st', st'.1.2 = st.1.2 → p ≠ 0 → m !! p = None → vrep kl bl ds boot cwd X O FS st' → heap_at (<[p := sz]> m) ds st' → Q p st') →
  wp safe_panic (on_h (kmalloc sz)) st Q E.
Proof.
  intros Hr [Hh Hd] Hsz H0 H1. unfold on_h. apply wp_zoom. apply wp_faults with safe_oom; [|by left].
  eapply wp_mono; [by apply (kmalloc_law _ m sz)| |done]. intros p h' [[-> Hh']|(Hp & Hm & Hh')].
  - apply H0; [done| |by split]. by eapply vrep_heap.
  - assert (devs_in (<[p := sz]> m) ds st.1.2) by (eapply devs_more; [done|by apply insert_subseteq]).
    apply H1; [done|done|done| |by split]. by eapply vrep_heap.
Qed.

(** Giving back a block that is not one of [m] *)
Lemma free_if_ok kl bl ds boot cwd X O FS m m' p st (Q : () → St → Prop) E :
  vrep kl bl ds boot cwd X O FS st → devs_in m ds st.1.2 → heap_owns st.1.1 m' → m ⊆ m' → m !! p = None → p = 0 ∨ is_Some (m' !! p) →
  (∀ st' m'', st'.1.2 = st.1.2 → vrep kl bl ds boot cwd X O FS st' → heap_owns st'.1.1 m'' → m ⊆ m'' →
     (∀ q, q ≠ p → m'' !! q = m' !! q) → Q tt st') →
  wp safe_panic (free_if p) st Q E.
Proof.
  intros Hr Hd Hh Hsub Hm Hp HQ. unfold free_if. apply wp_when.
  - intros Hp0. destruct Hp as [->|Hp]; [done|]. unfold on_h. apply wp_zoom. apply wp_faults with safe; [|done].
    eapply wp_mono; [by apply (kfree_law _ m' p)| |done]. intros [] h' Hh'.
    assert (m ⊆ delete p m') as Hsub'.
    { apply map_subseteq_spec. intros q n Hq. rewrite lookup_delete_ne by congruence. by eapply lookup_weaken. }
    apply (HQ _ (delete p m')); [done| |done|done|intros q Hq; by rewrite lookup_delete_ne].
    eapply vrep_heap; [done|done|]. by eapply devs_more.
  - intros _. by apply (HQ _ m').
Qed.

(** The error path of [vfs_doadd]: everything that was allocated goes back, the reference to a
    vnode that had been initialised is never given up. *)
Lemma puke_ok kl bl ds boot cwd X O FS m m' nm rawnm vn st (Q : () → St → Prop) (E : Z → St → Prop) :
  vrep kl bl ds boot cwd X O FS st → devs_in m ds st.1.2 → heap_owns st.1.1 m' → m ⊆ m' →
  m !! nm = None → m !! rawnm = None → m !! vn = None →
  (nm = 0 ∨ is_Some (m' !! nm)) → (rawnm = 0 ∨ is_Some (m' !! rawnm) ∧ rawnm ≠ nm) → (vn = 0 ∨ is_Some (m' !! vn) ∧ vn ≠ nm ∧ vn ≠ rawnm) →
  (∀ st', vrep kl bl ds boot cwd X O FS st' → E ENOMEM st') → wp safe_panic (puke nm rawnm vn 0) st Q E.
Proof.
  intros Hr Hd Hh Hsub N1 N2 N3 P1 P2 P3 HE. unfold puke. wp_steps. eapply (free_if_ok _ _ _ _ _ _ _ _ m m'); [done..|].
  intros st1 m1 E1 Hr1 Hh1 Hs1 Hq1. wp_steps. eapply (free_if_ok _ _ _ _ _ _ _ _ m m1); [done|by rewrite E1|done|done|done| |].
  { destruct P2 as [?|[? ?]]; [by left|right]. by rewrite Hq1. }
  intros st2 m2 E2 Hr2 Hh2 Hs2 Hq2. wp_steps. eapply (free_if_ok _ _ _ _ _ _ _ _ m m2); [done|by rewrite E2, E1|done|done|done| |].
  { destruct P3 as [?|(? & ? & ?)]; [by left|right]. by rewrite Hq2, Hq1. }
  intros st3 m3 E3 Hr3 Hh3 Hs3 Hq3. wp_steps. unfold free_if. apply wp_when; [done|]. intros _. wp_steps. by apply HE.
Qed.

(** ** Names in use *)

Definition vol_of (kd : knowndev) : option name := if kd_fs kd =? 0 then None else fs_vol (kd_fs kd).
Definition clash_at (n1 n2 n3 : option name) (kd : knowndev) : bool :=
  samestring3 (vol_of kd) n1 n2 n3 || samestring3 (kd_rawname kd) n1 n2 n3 || samestring3 (Some (kd_name kd)) n1 n2 n3.
Definition clash ds (n1 n2 n3 : option name) : bool := existsb (clash_at n1 n2 n3) ds.*2.

(** The entry of the table a loop looks at *)
Lemma entry_at kl bl ds boot cwd X O FS st i p kd :
  vrep kl bl ds boot cwd X O FS st → ds.*1 !! i = Some p → kds st.1.2 !! p = Some kd → ds !! i = Some (p, kd).
Proof.
  intros Hr Hp Hkd. rewrite list_lookup_fmap in Hp. apply fmap_Some in Hp as ([p' kd'] & Hi & ->).
  pose proof (vr_kds _ _ _ _ _ _ _ _ _ Hr _ _ _ Hi) as Hk2. cbn [fst] in *. by simplify_eq.
Qed.

Lemma entry_ok kl bl ds boot cwd X O FS st i p kd :
  vrep kl bl ds boot cwd X O FS st → ds !! i = Some (p, kd) → dev_ok FS kd.
Proof. intros Hr Hi. pose proof (vr_devs _ _ _ _ _ _ _ _ _ Hr) as Hd. rewrite Forall_lookup in Hd. exact (Hd _ _ Hi). Qed.

Lemma seconds_drop ds i p kd : ds !! i = Some (p, kd) → drop i ds.*2 = kd :: drop (S i) ds.*2.
Proof. intros Hi. apply drop_S. by rewrite list_lookup_fmap, Hi. Qed.

Lemma badnames_ok F bl ds boot cwd X O FS n1 n2 n3 st (Q : bool → St → Prop) E :
  vrep true bl ds boot cwd X O FS st →
  (∀ st', st'.1 = st.1 → vrep true bl ds boot cwd X O FS st' → Q (clash ds n1 n2 n3) st') → wp F (badnames n1 n2 n3) st Q E.
Proof.
  intros Hr HQ. unfold badnames, on_vfs. wp_steps. cbn [fst snd]. wp_assert by (by destruct (vr_locks _ _ _ _ _ _ _ _ _ Hr)). wp_steps.
  replace (st.1.1, st.1.2, st.2) with st by (by destruct st as [[? ?] ?]). unfold clash in HQ.
  apply (scan_known_ok F ds.*1 (λ i st', st'.1 = st.1 ∧ vrep true bl ds boot cwd X O FS st' ∧
    existsb (clash_at n1 n2 n3) ds.*2 = existsb (clash_at n1 n2 n3) (drop i ds.*2))).
  - intros i st' (_ & Hr' & _). by eapply vrep_table.
  - done.
  - intros i p kd st' Hp Hkd (E1 & Hr' & Hex). pose proof (entry_at _ _ _ _ _ _ _ _ _ _ _ _ Hr' Hp Hkd) as Hi.
    rewrite (seconds_drop _ _ _ _ Hi) in Hex. cbn [existsb] in Hex. pose proof (entry_ok _ _ _ _ _ _ _ _ _ _ _ _ Hr' Hi) as (_ & _ & Hfs).
    assert (∀ st1, st1.1 = st.1 → vrep true bl ds boot cwd X O FS st1 →
      wp F (mret (if clash_at n1 n2 n3 kd then Some tt else None)) st1
        (λ r st', if r is Some a then wp F (mret (bool_decide (is_Some (Some a)))) st' Q E
          else st'.1 = st.1 ∧ vrep true bl ds boot cwd X O FS st' ∧ existsb (clash_at n1 n2 n3) ds.*2 = existsb (clash_at n1 n2 n3) (drop (S i) ds.*2)) E) as Hend.
    { intros st1 E1' Hr1. wp_steps. destruct (clash_at n1 n2 n3 kd); cbn [orb] in Hex; [|done]. wp_steps.
      rewrite bool_decide_true by (by eexists). rewrite Hex in HQ. by apply HQ. }
    unfold clash_at, vol_of in Hend. destruct (Z.eqb_spec (kd_fs kd) 0) as [Hf|Hf]; cbn [negb].
    + wp_steps. by apply (Hend st').
    + wp_steps. eapply (wp_on_w F); [by apply (volname_law _ _ _ _ (kd_fs kd) (vr_fsw _ _ _ _ _ _ _ _ _ Hr')), Hfs| |done].
      intros r w' [-> Hw']. apply Hend; [done|]. by eapply vrep_fsw.
  - intros st' (E1 & Hr' & Hex). wp_steps. rewrite bool_decide_false by (by intros [? ?]).
    rewrite Hex, drop_ge in HQ by (by rewrite !length_fmap). by apply HQ.
Qed.

(** ** Adding a device *)

Lemma vrep_insert kl bl ds boot cwd X O FS st p kd :
  vrep kl bl ds boot cwd X O FS st → p ∉ ds.*1 →
  vrep kl bl ds boot cwd X O FS ((st.1.1, set_kds (<[p := kd]> (kds st.1.2)) st.1.2), st.2).
Proof.
  intros [H1 H3 H4 H5 H6 H7 H8 H9 H10] Hp. split; try done. intros i q kd' Hi. cbn [fst snd set_kds kds].
  rewrite lookup_insert_ne; [by eapply H3|]. intros ->. apply Hp. apply list_elem_of_fmap. exists (q, kd'). split; [done|]. by eapply list_elem_of_lookup_2.
Qed.

Lemma dev_refs_snoc ds p kd : dev_refs (ds ++ [(p, kd)]) = dev_refs ds ⊎ {[+ kd_vnode kd +]}.
Proof. unfold dev_refs. rewrite fmap_app, list_to_set_disj_app. cbn [fmap list_fmap list_to_set_disj snd]. multiset_solver. Qed.

Lemma mounted_snoc ds p kd : mounted (ds ++ [(p, kd)]) = mounted ds ++ (if kd_fs kd =? 0 then [] else [kd_fs kd]).
Proof.
  unfold mounted. rewrite fmap_app, list.filter_app. f_equal. cbn [fmap list_fmap snd]. rewrite list.filter_cons. cbn [filter list_filter].
  destruct (Z.eqb_spec (kd_fs kd) 0), (decide (kd_fs kd ≠ 0)); done.
Qed.

(** [array_add] of the new entry *)
Lemma add_entry_ok kl bl ds boot cwd X O FS m p kd st (Q : () → St → Prop) (E : Z → St → Prop) :
  vrep kl bl ds boot cwd (X ⊎ {[+ kd_vnode kd +]}) O FS st → heap_at m ds st →
  kds st.1.2 !! p = Some kd → is_Some (m !! p) → p ∉ ds.*1 → p ≠ v (knowndevs st.1.2) →
  dev_ok FS kd → (kd_fs kd ≠ 0 → kd_fs kd ∉ mounted ds) →
  max (knowndevs st.1.2) < 2 ^ 28 → len ds < 2 ^ 28 - 1 →
  (∀ st', vrep kl bl (ds ++ [(p, kd)]) boot cwd X O FS st' → Q tt st') →
  (∀ st', vrep kl bl ds boot cwd (X ⊎ {[+ kd_vnode kd +]}) O FS st' → E ENOMEM st') →
  wp safe_panic (on_array (array_add p)) st Q E.
Proof.
  intros Hr [Hh [Ha Hps]] Hkd Hm Hp Hv Hok Hmt Hmax Hlen HQ HE. unfold on_array. apply wp_zoom. apply wp_faults with safe_oom; [|by left].
  pose proof (array_rep_num _ _ _ Ha) as Hnum. rewrite length_fmap in Hnum.
  eapply wp_mono; [apply (array_add_spec _ m _ ds.*1 p Hh Ha Hmax); lia| |].
  - intros [] [h' a'] (m' & Hh' & Ha' & Hfr). unfold array_frame in Hfr. cbn [fst snd].
    assert (∀ q, is_Some (m !! q) → q ≠ v (knowndevs st.1.2) → is_Some (m' !! q) ∧ q ≠ v a') as Hq.
    { intros q [n Hn] Hqv. assert (delete (v a') m' !! q = Some n) as Hl by (rewrite Hfr; by rewrite lookup_delete_ne).
      apply lookup_delete_Some in Hl as [? ?]. by split. }
    apply HQ. destruct Hr as [H1 H3 H4 H5 H6 H7 H8 H9 H10]. split; cbn [fst snd set_knowndevs knowndevs kds knowndevs_lock bootfs_lock bootfs_vnode t_cwd].
    + exists m'. split; [done|]. unfold devs_in. cbn [fst snd set_knowndevs knowndevs]. rewrite fmap_app. cbn [fmap list_fmap fst]. split; [done|]. intros q [Hin|Hin]%elem_of_app.
      * destruct (Hps q Hin). by apply Hq.
      * apply list_elem_of_singleton in Hin. subst q. by apply Hq.
    + intros i q kd' Hi. apply lookup_snoc_Some in Hi as [[_ Hi]|[_ [= -> ->]]]; [by eapply H3|done].
    + rewrite fmap_app. apply list.NoDup_app. split; [done|]. split; [|apply list.NoDup_singleton]. intros q Hq1 Hq2%list_elem_of_singleton. by subst q.
    + done.
    + done.
    + done.
    + apply Forall_app. split; [done|]. by apply list.Forall_singleton.
    + rewrite mounted_snoc. destruct (Z.eqb_spec (kd_fs kd) 0); [by rewrite app_nil_r|]. apply list.NoDup_app. split; [done|]. split; [|apply list.NoDup_singleton].
      intros q Hq1 Hq2%list_elem_of_singleton. subst q. by apply Hmt.
    + unfold base in *. rewrite dev_refs_snoc.
      replace (dev_refs ds ⊎ {[+ kd_vnode kd +]} ⊎ opt_ref boot ⊎ opt_ref cwd ⊎ X) with (dev_refs ds ⊎ opt_ref boot ⊎ opt_ref cwd ⊎ (X ⊎ {[+ kd_vnode kd +]})) by multiset_solver.
      exact H10.
  - intros e [h' a'] (-> & -> & Hh'). cbn [fst snd]. apply HE. replace (set_knowndevs (knowndevs st.1.2) st.1.2) with st.1.2 by (by destruct st as [[? []] ?]).
    eapply vrep_heap; [done|done|by split].
Qed.

Lemma insert_some m (p sz : Z) : is_Some (<[p := sz]> m !! p).
Proof. rewrite lookup_insert_eq. by eexists. Qed.
Lemma insert_more m (p q sz : Z) : is_Some (m !! q) → is_Some (<[p := sz]> m !! q).
Proof. intros Hq. destruct (decide (p = q)) as [->|]; [apply insert_some|]. by rewrite lookup_insert_ne. Qed.

Definition volname_of (fs : Z) : option name := if fs =? 0 then None else fs_vol fs.

Lemma klock_keeps F bl ds boot cwd X O FS st (Q : () → St → Prop) E :
  vrep false bl ds boot cwd X O FS st →
  (∀ st', st'.1 = (st.1.1, set_klock true st.1.2) → vrep true bl ds boot cwd X O FS st' → Q tt st') → wp F klock st Q E.
Proof.
  intros [H1 H3 H4 [Hk Hb] H6 H7 H8 H9 H10] HQ. unfold klock, on_vfs. wp_steps. wp_assert by (by rewrite Hk). wp_steps.
  apply HQ; [done|]. by split.
Qed.

(** From the point where the vnode and the entry are to be made *)
Lemma doadd_rest bl ds boot cwd X O FS m m2 dname (mountable : bool) dev fs nm rawnm st (Q : () → St → Prop) (E : Z → St → Prop) :
  let rawname := if mountable then Some (dname ++ raw) else None in
  vrep false bl ds boot cwd X O FS st → devs_in m ds st.1.2 → heap_at m2 ds st → m ⊆ m2 →
  m !! nm = None → m !! rawnm = None → is_Some (m2 !! nm) → (rawnm = 0 ∨ is_Some (m2 !! rawnm) ∧ rawnm ≠ nm) →
  (∀ vn, dev_ok FS (MkKnowndev dname rawname dev vn fs)) →
  (fs ≠ 0 → fs ∈ FS ∧ fs ∉ mounted ds) → max (knowndevs st.1.2) < 2 ^ 28 → len ds < 2 ^ 28 - 1 →
  (∀ p vn st', clash ds (Some dname) rawname (volname_of fs) = false →
     vrep false bl (ds ++ [(p, MkKnowndev dname rawname dev vn fs)]) boot cwd X O FS st' → Q tt st') →
  (∀ e L st', e = ENOMEM ∨ e = EEXIST ∧ clash ds (Some dname) rawname (volname_of fs) = true →
     (size L ≤ 1)%nat → vrep false bl ds boot cwd (X ⊎ L) O FS st' → E e st') →
  wp safe_panic (
    vnode ← dev_create_vnode dev;
    if vnode =? 0 then puke nm rawnm 0 0 else
    kd ← on_h (kmalloc sizeof_knowndev);
    if kd =? 0 then puke nm rawnm vnode 0 else
    on_vfs (modify (λ s, set_kds (<[kd := MkKnowndev dname rawname dev vnode fs]> (kds s)) s));;
    volname ← (if negb (fs =? 0) then on_w (FSOP_GETVOLNAME fs) else mret None);
    klock;;
    bad ← badnames (Some dname) rawname volname;
    err ← (if bad : bool then mret (inr EEXIST) else try (on_array (array_add kd)));
    kunlock;;
    match err with inl _ => mret tt | inr e => fail e end) st Q E.
Proof.
  intros rawname Hr Hd Hh2 Hsub N1 N2 S1 S2 Hok Hfs Hmax Hlen HQ HE. pose proof (heap_owns_null _ _ (proj1 Hh2)) as Hnull2.
  assert (m !! 0 = None) as Hnull by (by eapply lookup_weaken_None).
  unfold dev_create_vnode. wp_steps. eapply (kmalloc_one_ok _ _ _ _ _ _ _ _ m2); [done|done|unfold sizeof_vnode; lia| |].
  { intros st1 E1 Hr1 Hh1. change (0 =? 0) with true. wp_steps. change (0 =? 0) with true. cbv beta iota. eapply (puke_ok _ _ _ _ _ _ _ _ m m2);
      [done|by rewrite E1|apply Hh1|done|done|done|done|by right|done|by left|]. intros st' Hr'. apply (HE _ ∅); [by left|rewrite gmultiset_size_empty; lia|by rewrite (right_id_L ∅ (⊎))]. }
  intros vn st1 E1 Hvn Nvn2 Hr1 Hh1. destruct (Z.eqb_spec vn 0); [done|]. wp_steps. assert (m !! vn = None) as Nvn by (by eapply lookup_weaken_None).
  eapply wp_on_w; [by apply (init_law _ _ _ _ vn dev (vr_fsw _ _ _ _ _ _ _ _ _ Hr1))| |].
  2: { intros e w' _. wp_steps. by right. }
  intros [] w1 Hw1. rewrite <- (assoc_L (⊎)) in Hw1. pose proof (vrep_fsw _ _ _ _ _ _ _ _ _ _ _ _ Hr1 Hw1) as Hr2. wp_steps.
  destruct (Z.eqb_spec vn 0); [done|]. wp_steps. set (st2 := (st1.1, w1)) in *. assert (st2.1.2 = st.1.2) as E2 by done.
  assert (heap_at (<[vn:=sizeof_vnode]> m2) ds st2) as Hh3 by exact Hh1. clearbody st2. clear Hr1 Hh1 Hw1.
  assert (m ⊆ <[vn:=sizeof_vnode]> m2) as Hsub3 by (etrans; [exact Hsub|by apply insert_subseteq]).
  assert (vn ≠ nm ∧ vn ≠ rawnm) as [Hn1 Hn2].
  { split; intros <-; [by rewrite Nvn2 in S1; destruct S1|]. destruct S2 as [?|[S2 _]]; [done|]. by rewrite Nvn2 in S2; destruct S2. }
  eapply (kmalloc_one_ok _ _ _ _ _ _ _ _ (<[vn:=sizeof_vnode]> m2)); [done|done|unfold sizeof_knowndev; lia| |].
  { intros st3 E3 Hr3 Hh4. change (0 =? 0) with true. cbv beta iota. eapply (puke_ok _ _ _ _ _ _ _ _ m (<[vn:=sizeof_vnode]> m2));
      [done|by rewrite E3, E2|apply Hh4|done|done|done|done|right; by apply insert_more| | |].
    - destruct S2 as [?|[? ?]]; [by left|right]. split; [by apply insert_more|done].
    - right. split; [apply insert_some|done].
    - intros st' Hr'. apply (HE _ {[+ vn +]}); [by left|by rewrite gmultiset_size_singleton|done]. }
  intros p st3 E3 Hp0 Np Hr3 Hh4. destruct (Z.eqb_spec p 0); [done|]. unfold on_vfs at 1. wp_steps.
  set (kd := MkKnowndev dname rawname dev vn fs). destruct Hh4 as [Hho [Ha4 Hps4]].
  assert (p ∉ ds.*1) as Hpn.
  { intros Hin. destruct (proj2 (proj2 Hh3) p Hin) as [[sz0 Hsz0] _]. by rewrite Np in Hsz0. }
  assert (p ≠ v (knowndevs st3.1.2)) as Hpv.
  { intros ->. pose proof (array_rep_buf _ _ _ (proj1 (proj2 Hh3))) as Hb. rewrite <- E3 in Hb. destruct (Z.eqb_spec (v (knowndevs st3.1.2)) 0); [done|]. destruct Hb as [sz0 Hsz0]. by rewrite Np in Hsz0. }
  pose proof (vrep_insert _ _ _ _ _ _ _ _ _ p kd Hr3 Hpn) as Hr5. cbn [fst snd].
  set (st5 := (st3.1.1, set_kds (<[p:=kd]> (kds st3.1.2)) st3.1.2, st3.2)) in *.
  assert (kds st5.1.2 !! p = Some kd) as Hkd by apply lookup_insert_eq.
  assert (heap_at (<[p:=sizeof_knowndev]> (<[vn:=sizeof_vnode]> m2)) ds st5) as Hh5 by (split; [exact Hho|split; [exact Ha4|exact Hps4]]).
  assert (knowndevs st5.1.2 = knowndevs st.1.2) as E5 by (unfold st5; cbn [fst snd set_kds knowndevs]; by rewrite E3, E2).
  assert (p ≠ v (knowndevs st5.1.2)) as Hpv5 by exact Hpv. clearbody st5. clear Hr3 Hho Ha4 Hps4 Hpv.
  assert (∀ Q' : option name → St → Prop, (∀ st6, st6.1 = st5.1 → vrep false bl ds boot cwd (X ⊎ {[+ vn +]}) O FS st6 → Q' (volname_of fs) st6) →
    wp safe_panic (if negb (fs =? 0) then on_w (FSOP_GETVOLNAME fs) else mret None) st5 Q' E) as Hvol.
  { intros Q' Hk. unfold volname_of in Hk. destruct (Z.eqb_spec fs 0) as [|Hf]; cbn [negb]; wp_steps; [by apply Hk|].
    eapply wp_on_w; [by apply (volname_law _ _ _ _ fs (vr_fsw _ _ _ _ _ _ _ _ _ Hr5)), Hfs| |done]. intros r w' [-> Hw']. apply Hk; [done|]. by eapply vrep_fsw. }
  apply Hvol. clear Hvol. intros st6 E6 Hr6. wp_steps. eapply klock_keeps; [done|]. intros st7 E7 Hr7. wp_steps.
  eapply badnames_ok; [done|]. intros st8 E8 Hr8. destruct (clash ds (Some dname) rawname (volname_of fs)) eqn:Hclash.
  - wp_steps. eapply kunlock_ok; [done|]. intros st9 Hr9. wp_steps. apply (HE _ {[+ vn +]}); [by right|by rewrite gmultiset_size_singleton|done].
  - wp_steps. assert (st8.1 = (st5.1.1, set_klock true st5.1.2)) as E8' by (by rewrite E8, E7, E6).
    eapply (add_entry_ok true bl ds boot cwd X O FS (<[p:=sizeof_knowndev]> (<[vn:=sizeof_vnode]> m2)) p kd).
    + done.
    + unfold heap_at, devs_in. rewrite E8'. exact Hh5.
    + rewrite E8'. exact Hkd.
    + apply insert_some.
    + done.
    + rewrite E8'. exact Hpv5.
    + apply Hok.
    + intros Hf. by apply Hfs.
    + rewrite E8'. cbn [snd set_klock knowndevs]. by rewrite E5.
    + done.
    + intros st9 Hr9. wp_steps. eapply kunlock_ok; [done|]. intros st10 Hr10. wp_steps. by eapply HQ.
    + intros st9 Hr9. wp_steps. eapply kunlock_ok; [done|]. intros st10 Hr10. wp_steps. apply (HE _ {[+ vn +]}); [by left|by rewrite gmultiset_size_singleton|done].
Qed.

(** [vfs_doadd]: the device is at the end of the table, its names are new; or nothing is, and
    the only thing lost is the reference to a vnode nobody knows. *)
Lemma vfs_doadd_ok bl ds boot cwd X O FS dname (mountable : bool) dev fs st (Q : () → St → Prop) (E : Z → St → Prop) :
  let rawname := if mountable then Some (dname ++ raw) else None in
  vrep false bl ds boot cwd X O FS st → len dname < 2 ^ 30 →
  (mountable = true → dev ≠ 0) → (dev = 0 → fs ≠ 0) → (fs ≠ 0 → fs ∈ FS ∧ fs ∉ mounted ds) →
  max (knowndevs st.1.2) < 2 ^ 28 → len ds < 2 ^ 28 - 1 →
  (∀ p vn st', clash ds (Some dname) rawname (volname_of fs) = false →
     vrep false bl (ds ++ [(p, MkKnowndev dname rawname dev vn fs)]) boot cwd X O FS st' → Q tt st') →
  (∀ e L st', e = ENOMEM ∨ e = EEXIST ∧ clash ds (Some dname) rawname (volname_of fs) = true →
     (size L ≤ 1)%nat → vrep false bl ds boot cwd (X ⊎ L) O FS st' → E e st') →
  wp safe_panic (vfs_doadd dname mountable dev fs) st Q E.
Proof.
  intros rawname Hr Hl Hdev Hdf Hfs Hmax Hlen HQ HE. destruct (vr_heap _ _ _ _ _ _ _ _ _ Hr) as [m Hh].
  assert (∀ st', vrep false bl ds boot cwd X O FS st' → E ENOMEM st') as HE0.
  { intros st' Hr'. apply (HE _ ∅); [by left|rewrite gmultiset_size_empty; lia|by rewrite (right_id_L ∅ (⊎))]. }
  pose proof (heap_owns_null _ _ (proj1 Hh)) as Hnull. pose proof (proj2 Hh) as Hd.
  assert (∀ vn, dev_ok FS (MkKnowndev dname rawname dev vn fs)) as Hok.
  { intros vn. split; cbn [kd_rawname kd_device kd_fs]; [|split; [done|by intros ?; apply Hfs]]. unfold rawname. destruct mountable; [by intros _; apply Hdev|by intros [? ?]]. }
  unfold vfs_doadd, kstrdup. wp_steps. eapply (kmalloc_one_ok _ _ _ _ _ _ _ _ m); [done|done|lia| |].
  { intros st1 E1 Hr1 Hh1. change (0 =? 0) with true. cbv beta iota. eapply (puke_ok _ _ _ _ _ _ _ _ m m);
      [done|by rewrite E1|apply Hh1|done|done|done|done|by left|by left|by left|done]. }
  intros nm st1 E1 Hnm Nnm Hr1 Hh1. destruct (Z.eqb_spec nm 0); [done|]. set (m1 := <[nm:=len dname + 1]> m) in *.
  assert (m ⊆ m1) as Hsub1 by (by apply insert_subseteq).
  destruct mountable eqn:Hmt; cbn [andb].
  - wp_steps. unfold mkrawname. eapply (kmalloc_one_ok _ _ _ _ _ _ _ _ m1); [done|done|lia| |].
    { intros st2 E2 Hr2 Hh2. change (0 =? 0) with true. cbv beta iota. eapply (puke_ok _ _ _ _ _ _ _ _ m m1);
        [done|by rewrite E2, E1|apply Hh2|done|done|done|done|right; apply insert_some|by left|by left|done]. }
    intros rawnm st2 E2 Hrn Nrn Hr2 Hh2. destruct (Z.eqb_spec rawnm 0); [done|]. set (m2 := <[rawnm:=len dname + 3 + 1]> m1) in *.
    apply (doadd_rest bl ds boot cwd X O FS m m2 dname true dev fs nm rawnm); try done.
    + by rewrite E2, E1.
    + etrans; [exact Hsub1|by apply insert_subseteq].
    + by eapply lookup_weaken_None.
    + apply insert_more, insert_some.
    + right. split; [apply insert_some|]. intros ->. unfold m1 in Nrn. by rewrite lookup_insert_eq in Nrn.
    + by rewrite E2, E1.
  - apply wp_bind, wp_ret. cbv beta iota. apply (doadd_rest bl ds boot cwd X O FS m m1 dname false dev fs nm 0); try done.
    + by rewrite E1.
    + apply insert_some.
    + by left.
    + by rewrite E1.
Qed.

(** ** Mounting *)

Definition opt_fs (f : Z) : list Z := if f =? 0 then [] else [f].

Lemma mounted_split pre p kd post : mounted (pre ++ (p, kd) :: post) = mounted pre ++ opt_fs (kd_fs kd) ++ mounted post.
Proof.
  unfold mounted, opt_fs. rewrite fmap_app, list.filter_app. f_equal. cbn [fmap list_fmap snd]. rewrite list.filter_cons.
  destruct (Z.eqb_spec (kd_fs kd) 0), (decide (kd_fs kd ≠ 0)); done.
Qed.

Lemma mounted_fs kl bl ds boot cwd X O FS st f : vrep kl bl ds boot cwd X O FS st → f ∈ mounted ds → f ∈ FS.
Proof.
  intros Hr Hf. unfold mounted in Hf. apply list_elem_of_filter in Hf as [Hf0 Hf]. apply list_elem_of_fmap in Hf as ([p kd] & -> & Hin).
  apply list_elem_of_lookup in Hin as [i Hi]. by apply (entry_ok _ _ _ _ _ _ _ _ _ _ _ _ Hr Hi).
Qed.

(** Changing the file system of one entry, and the set of file systems with it *)
Lemma vrep_set_fs kl bl pre p kd post boot cwd X O FS FS' f st w' :
  let ds := pre ++ (p, kd) :: post in let ds' := pre ++ (p, set_fs f kd) :: post in
  vrep kl bl ds boot cwd X O FS st → fsw w' (base ds boot cwd ⊎ X) O FS' →
  dev_ok FS' (set_fs f kd) → (∀ g, g ∈ mounted pre ++ mounted post → g ∈ FS → g ∈ FS') → NoDup (mounted ds') →
  vrep kl bl ds' boot cwd X O FS' ((st.1.1, set_kds (<[p := set_fs f kd]> (kds st.1.2)) st.1.2), w').
Proof.
  intros ds ds' Hr Hw Hok Hkeep Hnd. pose proof Hr as [H1 H3 H4 H5 H6 H7 H8 H9 _].
  assert (ds'.*1 = ds.*1) as Efst by (unfold ds, ds'; by rewrite !fmap_app). assert (p ∉ pre.*1 ∧ p ∉ post.*1) as [Hp1 Hp2].
  { unfold ds in H4. rewrite fmap_app in H4. cbn [fmap list_fmap fst] in H4. apply list.NoDup_app in H4 as (_ & Hd & Hn). split.
    - intros Hin. apply (Hd p Hin). apply list_elem_of_here.
    - by apply list.NoDup_cons in Hn as [? _]. }
  split; cbn [fst snd set_kds knowndevs kds knowndevs_lock bootfs_lock bootfs_vnode t_cwd].
  - destruct H1 as (m & Hh & Hd). exists m. split; [done|]. unfold devs_in. rewrite Efst. exact Hd.
  - intros i q kd' Hi. destruct (decide (q = p)) as [->|Hq].
    + rewrite lookup_insert_eq. f_equal. apply list_elem_of_lookup_2 in Hi. unfold ds' in Hi. rewrite elem_of_app, elem_of_cons in Hi.
      destruct Hi as [Hi|[[= ->]|Hi]]; [|done|]; exfalso; [apply Hp1|apply Hp2]; apply list_elem_of_fmap; by exists (p, kd').
    + rewrite lookup_insert_ne by done. apply list_elem_of_lookup_2 in Hi. assert ((q, kd') ∈ ds) as Hin.
      { unfold ds, ds' in *. rewrite elem_of_app, elem_of_cons in *. destruct Hi as [?|[[= -> _]|?]]; [by left|done|by right; right]. }
      apply list_elem_of_lookup in Hin as [j Hj]. by eapply H3.
  - by rewrite Efst.
  - done.
  - done.
  - done.
  - assert (∀ l, Forall (λ d : Z * knowndev, dev_ok FS d.2) l → (∀ g, g ∈ mounted l → g ∈ mounted pre ++ mounted post) → Forall (λ d, dev_ok FS' d.2) l) as Hmono.
    { intros l Hl Hsub. rewrite Forall_lookup in *. intros i [q kd'] Hi. destruct (Hl _ _ Hi) as (D1 & D2 & D3). cbn [snd] in *. split; [done|]. split; [done|].
      intros Hf. apply Hkeep; [|by apply D3]. apply Hsub. unfold mounted. apply list_elem_of_filter. split; [done|].
      apply list_elem_of_fmap. exists (q, kd'). split; [done|]. by eapply list_elem_of_lookup_2. }
    unfold ds, ds' in *. apply Forall_app in H8 as [H8a H8b]. apply list.Forall_cons in H8b as [_ H8b].
    apply Forall_app. split; [|apply list.Forall_cons; split; [done|]]; apply Hmono; try done; intros g Hg; rewrite elem_of_app; auto.
  - done.
  - replace (base ds' boot cwd) with (base ds boot cwd); [done|]. unfold base. do 2 f_equal. unfold dev_refs, ds, ds'. by rewrite !fmap_app.
Qed.

Lemma vrep_unmounted kl bl pre p kd post boot cwd X O FS st w' :
  let ds := pre ++ (p, kd) :: post in
  vrep kl bl ds boot cwd X O FS st → fsw w' (base ds boot cwd ⊎ X) O (FS ∖ {[kd_fs kd]}) → is_Some (kd_rawname kd) → kd_fs kd ≠ 0 →
  vrep kl bl (pre ++ (p, set_fs 0 kd) :: post) boot cwd X O (FS ∖ {[kd_fs kd]})
    ((st.1.1, set_kds (<[p := set_fs 0 kd]> (kds st.1.2)) st.1.2), w').
Proof.
  intros ds Hr2 Hw' Hraw Hf. assert (ds !! length pre = Some (p, kd)) as Hi by (by apply list_lookup_middle).
  pose proof (entry_ok _ _ _ _ _ _ _ _ _ _ _ _ Hr2 Hi) as (D1 & D2 & D3).
  pose proof (vr_mounted _ _ _ _ _ _ _ _ _ Hr2) as Hnd. unfold ds in Hnd. rewrite mounted_split in Hnd. unfold opt_fs in Hnd.
  destruct (Z.eqb_spec (kd_fs kd) 0); [done|]. cbn [app] in Hnd. rewrite <- Permutation_middle in Hnd. apply list.NoDup_cons in Hnd as [Hn Hnd].
  eapply vrep_set_fs; [exact Hr2|exact Hw'| | |].
  - split; [done|]. split; [intros H0; by destruct (D1 Hraw)|]. done.
  - intros g Hg Hgf. apply elem_of_difference. split; [done|]. intros ->%elem_of_singleton. done.
  - rewrite mounted_split. exact Hnd.
Qed.

(** The entry that [findmount] finds *)
Fixpoint mount_target (devname : name) (l : list knowndev) : option knowndev :=
  match l with
  | [] => None
  | kd :: l => if bool_decide (is_Some (kd_rawname kd) ∧ kd_name kd = devname) then Some kd else mount_target devname l
  end.

Lemma mount_target_none ds devname :
  (∀ p kd, (p, kd) ∈ ds → is_Some (kd_rawname kd) → kd_name kd ≠ devname) → mount_target devname ds.*2 = None.
Proof.
  induction ds as [|[p kd] ds IH]; [done|]. intros Hno. cbn [fmap list_fmap mount_target snd].
  rewrite bool_decide_false by (intros [? ?]; by apply (Hno p kd); [apply list_elem_of_here|..]).
  apply IH. intros q kd' Hin. apply (Hno q). by apply list_elem_of_further.
Qed.

Lemma mount_target_some (pre : list (Z * knowndev)) p kd post devname :
  (∀ q kd', (q, kd') ∈ pre → is_Some (kd_rawname kd') → kd_name kd' ≠ devname) → is_Some (kd_rawname kd) → kd_name kd = devname →
  mount_target devname (pre ++ (p, kd) :: post).*2 = Some kd.
Proof.
  intros Hno Hraw Hnm. induction pre as [|[q kd'] pre IH]; cbn [app fmap list_fmap mount_target snd].
  - by rewrite bool_decide_true.
  - rewrite bool_decide_false by (intros [? ?]; by apply (Hno q kd'); [apply list_elem_of_here|..]).
    apply IH. intros q' kd2 Hin. apply (Hno q'). by apply list_elem_of_further.
Qed.

(** Why [vfs_mount] fails: no mountable device has the name, it has a file system already, or
    the function that mounts fails. *)
Definition mount_error ds (devname : name) (mountfunc : Z → M W Z) (e : Z) : Prop :=
  match mount_target devname ds.*2 with
  | None => e = ENODEV
  | Some kd => if kd_fs kd =? 0 then ∃ w w', mountfunc (kd_device kd) w = Err e w' else e = EBUSY
  end.

Lemma findmount_ok F bl ds boot cwd X O FS devname st (Q : option (Z * knowndev) → St → Prop) E :
  vrep true bl ds boot cwd X O FS st →
  (∀ st', (∀ p kd, (p, kd) ∈ ds → is_Some (kd_rawname kd) → kd_name kd ≠ devname) → vrep true bl ds boot cwd X O FS st' → Q None st') →
  (∀ pre p kd post st', ds = pre ++ (p, kd) :: post →
     (∀ q kd', (q, kd') ∈ pre → is_Some (kd_rawname kd') → kd_name kd' ≠ devname) → is_Some (kd_rawname kd) → kd_name kd = devname →
     vrep true bl ds boot cwd X O FS st' → Q (Some (p, kd)) st') →
  wp F (findmount devname) st Q E.
Proof.
  intros Hr HN HS. unfold findmount, on_vfs. wp_steps. cbn [fst snd]. wp_assert by (by destruct (vr_locks _ _ _ _ _ _ _ _ _ Hr)).
  replace (st.1.1, st.1.2, st.2) with st by (by destruct st as [[? ?] ?]).
  apply (scan_known_ok F ds.*1 (λ i st', vrep true bl ds boot cwd X O FS st' ∧
    ∀ j p kd, (j < i)%nat → ds !! j = Some (p, kd) → is_Some (kd_rawname kd) → kd_name kd ≠ devname)).
  - intros i st' (Hr' & _). by eapply vrep_table.
  - split; [done|]. intros j p kd Hj. lia.
  - intros i p kd st' Hp Hkd (Hr' & Hbef). pose proof (entry_at _ _ _ _ _ _ _ _ _ _ _ _ Hr' Hp Hkd) as Hi. wp_steps.
    destruct (bool_decide (is_Some (kd_rawname kd)) && bool_decide (devname = kd_name kd)) eqn:Hm.
    + apply andb_prop in Hm as [H1 H2]. apply bool_decide_eq_true in H1, H2. apply (HS (take i ds) p kd (drop (S i) ds)); [| |done|done|done].
      * symmetry. by apply take_drop_middle.
      * intros q kd' Hin. apply list_elem_of_lookup in Hin as [j Hj]. apply lookup_take_Some in Hj as [Hj Hji]. by apply (Hbef j q).
    + split; [done|]. intros j q kd' Hj Hj2 Hraw Hnm. destruct (decide (j = i)) as [->|]; [|by eapply (Hbef j); [lia|..]].
      simplify_eq. rewrite bool_decide_true in Hm by done. rewrite bool_decide_true in Hm by done. done.
  - intros st' (Hr' & Hbef). apply HN; [|done]. intros p kd Hin Hraw. apply list_elem_of_lookup in Hin as [j Hj].
    apply (Hbef j p kd); [|done|done]. rewrite length_fmap. by eapply lookup_lt_Some.
Qed.

(** What a function that mounts a file system does *)
Definition mounts (mountfunc : Z → M W Z) : Prop := ∀ w R O FS dev,
  fsw w R O FS → dev ≠ 0 →
  wp safe (mountfunc dev) w (λ f w', f ≠ 0 ∧ f ∉ FS ∧ fsw w' R O ({[f]} ∪ FS)) (λ _ w', fsw w' R O FS).

(** The lock is released on every path. *)
Lemma vlocked_ok F bl ds boot cwd X O FS (p : M St ()) st (Q : () → St → Prop) (E : Z → St → Prop) :
  vrep false bl ds boot cwd X O FS st →
  (∀ st', vrep true bl ds boot cwd X O FS st' →
     wp F p st' (λ _ st2, ∃ ds2 FS2, vrep true bl ds2 boot cwd X O FS2 st2 ∧ ∀ st3, vrep false bl ds2 boot cwd X O FS2 st3 → Q tt st3)
                (λ e st2, ∃ ds2 FS2, vrep true bl ds2 boot cwd X O FS2 st2 ∧ ∀ st3, vrep false bl ds2 boot cwd X O FS2 st3 → E e st3)) →
  wp F (locked p) st Q E.
Proof.
  intros Hr Hp. unfold locked. wp_steps. eapply klock_ok; [done|]. intros st1 Hr1. wp_steps. eapply wp_mono; [by apply Hp| |].
  - intros [] st2 (ds2 & FS2 & Hr2 & HQ). wp_steps. eapply kunlock_ok; [done|]. intros st3 Hr3. wp_steps. by apply HQ.
  - intros e st2 (ds2 & FS2 & Hr2 & HE). wp_steps. eapply kunlock_ok; [done|]. intros st3 Hr3. wp_steps. by apply HE.
Qed.

Lemma vfs_mount_ok F bl ds boot cwd X O FS devname mountfunc st (Q : () → St → Prop) (E : Z → St → Prop) :
  vrep false bl ds boot cwd X O FS st → mounts mountfunc →
  (∀ pre p kd post f st', ds = pre ++ (p, kd) :: post →
     (∀ q kd', (q, kd') ∈ pre → is_Some (kd_rawname kd') → kd_name kd' ≠ devname) → is_Some (kd_rawname kd) → kd_name kd = devname → kd_fs kd = 0 → f ≠ 0 → f ∉ FS →
     vrep false bl (pre ++ (p, set_fs f kd) :: post) boot cwd X O ({[f]} ∪ FS) st' → Q tt st') →
  (∀ e st', mount_error ds devname mountfunc e → vrep false bl ds boot cwd X O FS st' → E e st') →
  wp F (vfs_mount devname mountfunc) st Q E.
Proof.
  intros Hr Hmf HQ HE. unfold vfs_mount. eapply vlocked_ok; [done|]. clear st Hr. intros st Hr. wp_steps.
  assert (∀ e st', mount_error ds devname mountfunc e → vrep true bl ds boot cwd X O FS st' → ∃ ds2 FS2, vrep true bl ds2 boot cwd X O FS2 st' ∧ ∀ st3, vrep false bl ds2 boot cwd X O FS2 st3 → E e st3) as HE'.
  { intros e st' He Hr'. exists ds, FS. split; [done|]. intros st3. by apply HE. }
  eapply findmount_ok; [done| |].
  { intros st1 Hno Hr1. wp_steps. apply HE'; [|done]. unfold mount_error. by rewrite mount_target_none. }
  intros pre p kd post st1 Hds Hfirst Hraw Hnm Hr1.
  assert (mount_target devname ds.*2 = Some kd) as Htgt by (rewrite Hds; by apply mount_target_some).
  destruct (Z.eqb_spec (kd_fs kd) 0) as [Hf|Hf]; cbn [negb].
  2: { wp_steps. apply HE'; [|done]. unfold mount_error. rewrite Htgt. by destruct (Z.eqb_spec (kd_fs kd) 0). }
  assert (ds !! length pre = Some (p, kd)) as Hi by (rewrite Hds; by apply list_lookup_middle).
  pose proof (entry_ok _ _ _ _ _ _ _ _ _ _ _ _ Hr1 Hi) as (D1 & D2 & D3).
  wp_assert by (by apply bool_decide_eq_true). wp_assert by (destruct (Z.eqb_spec (kd_device kd) 0) as [H0|]; [by destruct (D1 Hraw)|done]). wp_steps.
  eapply wp_on_w; [apply wp_run, Hmf; [apply (vr_fsw _ _ _ _ _ _ _ _ _ Hr1)|by apply D1]| |].
  2: { intros e w' [Hw' Hrun]. apply HE'; [|by eapply vrep_fsw]. unfold mount_error. rewrite Htgt, Hf. by eauto. }
  intros f w' [(Hf0 & Hfn & Hw') _]. cbn beta. wp_assert by (by destruct (Z.eqb_spec f 0)). unfold set_kd_fs, on_vfs. wp_steps. cbn [fst snd].
  assert (vrep true bl (pre ++ (p, set_fs f kd) :: post) boot cwd X O ({[f]} ∪ FS)
    ((st1.1.1, set_kds (<[p:=set_fs f kd]> (kds st1.1.2)) st1.1.2), w')) as Hr2.
  { subst ds. eapply vrep_set_fs; [exact Hr1|exact Hw'| |set_solver|].
    - split; [done|]. split; [done|]. intros _. cbn [kd_fs set_fs]. set_solver.
    - pose proof (vr_mounted _ _ _ _ _ _ _ _ _ Hr1) as Hnd. rewrite mounted_split in *. unfold opt_fs in *. rewrite Hf in Hnd. cbn [kd_fs set_fs].
      destruct (Z.eqb_spec f 0); [done|]. cbn [Z.eqb app] in *. rewrite <- Permutation_middle. apply list.NoDup_cons. split; [|done]. intros Hin. apply Hfn.
      eapply mounted_fs; [exact Hr1|]. rewrite mounted_split. unfold opt_fs. by rewrite Hf. }
  eapply volname_ok; [exact Hr2|set_solver|]. intros st3 Hr3. wp_steps. eexists _, _. split; [exact Hr3|]. intros st4 Hr4. by eapply HQ.
Qed.

Lemma vfs_unmount_ok F bl ds boot cwd X O FS devname st (Q : () → St → Prop) (E : Z → St → Prop) :
  vrep false bl ds boot cwd X O FS st →
  (∀ pre p kd post st', ds = pre ++ (p, kd) :: post → is_Some (kd_rawname kd) → kd_name kd = devname → kd_fs kd ≠ 0 →
     vrep false bl (pre ++ (p, set_fs 0 kd) :: post) boot cwd X O (FS ∖ {[kd_fs kd]}) st' → Q tt st') →
  (∀ e st', vrep false bl ds boot cwd X O FS st' → E e st') →
  wp F (vfs_unmount devname) st Q E.
Proof.
  intros Hr HQ HE. unfold vfs_unmount. eapply vlocked_ok; [done|]. clear st Hr. intros st Hr. wp_steps.
  assert (∀ e st', vrep true bl ds boot cwd X O FS st' → ∃ ds2 FS2, vrep true bl ds2 boot cwd X O FS2 st' ∧ ∀ st3, vrep false bl ds2 boot cwd X O FS2 st3 → E e st3) as HE'.
  { intros e st' Hr'. exists ds, FS. split; [done|]. by apply HE. }
  eapply findmount_ok; [done| |].
  { intros st1 _ Hr1. wp_steps. by apply HE'. }
  intros pre p kd post st1 Hds Hfirst Hraw Hnm Hr1. destruct (Z.eqb_spec (kd_fs kd) 0) as [Hf|Hf]; [wp_steps; by apply HE'|].
  assert (ds !! length pre = Some (p, kd)) as Hi by (rewrite Hds; by apply list_lookup_middle).
  pose proof (entry_ok _ _ _ _ _ _ _ _ _ _ _ _ Hr1 Hi) as (D1 & D2 & D3).
  wp_assert by (by apply bool_decide_eq_true). wp_assert by (destruct (Z.eqb_spec (kd_device kd) 0) as [H0|]; [by destruct (D1 Hraw)|done]). wp_steps.
  eapply keeps_ok; [intros w Hw; by apply sync_law, D3|done| |by intros e st2 Hr2; apply HE']. intros [] st2 Hr2. wp_steps.
  eapply wp_on_w; [apply (unmount_law _ _ _ _ _ (vr_fsw _ _ _ _ _ _ _ _ _ Hr2)); by apply D3| |intros e w' Hw'; apply HE'; by eapply vrep_fsw].
  intros [] w' Hw'. unfold set_kd_fs, on_vfs. wp_steps. cbn [fst snd].
  eexists _, _. split; [|intros st4 Hr4; by eapply HQ]. subst ds. by apply vrep_unmounted.
Qed.

(** ** The loops over all devices *)

Lemma vfs_sync_ok F bl ds boot cwd X O FS st (Q : () → St → Prop) E :
  vrep false bl ds boot cwd X O FS st → (∀ st', vrep false bl ds boot cwd X O FS st' → Q tt st') → wp F vfs_sync st Q E.
Proof.
  intros Hr HQ. unfold vfs_sync. wp_steps. eapply klock_ok; [done|]. clear st Hr. intros st Hr. wp_steps.
  apply (scan_known_ok F ds.*1 (λ _ st', vrep true bl ds boot cwd X O FS st')).
  - intros i st'. apply vrep_table.
  - done.
  - intros i p kd st' Hp Hkd Hr'. pose proof (entry_at _ _ _ _ _ _ _ _ _ _ _ _ Hr' Hp Hkd) as Hi.
    pose proof (entry_ok _ _ _ _ _ _ _ _ _ _ _ _ Hr' Hi) as (_ & _ & D3). wp_steps. apply wp_when; [|intros _; by wp_steps].
    intros Hf. wp_steps. eapply keeps_ok; [intros w Hw; apply sync_law; [done|apply D3; by destruct (Z.eqb_spec (kd_fs kd) 0)]|done| |]; intros ? ? ?; by wp_steps.
  - intros st' Hr'. wp_steps. eapply kunlock_ok; [done|]. exact HQ.
Qed.

Lemma vfs_getdevname_ok F bl ds boot cwd X O FS f st (Q : option name → St → Prop) E :
  vrep false bl ds boot cwd X O FS st → f ≠ 0 →
  (∀ r st', (f ∈ mounted ds → is_Some r) → vrep false bl ds boot cwd X O FS st' → Q r st') → wp F (vfs_getdevname f) st Q E.
Proof.
  intros Hr Hf HQ. unfold vfs_getdevname. wp_assert by (by destruct (Z.eqb_spec f 0)). wp_steps. eapply klock_ok; [done|]. clear st Hr. intros st Hr. wp_steps.
  apply (scan_known_ok F ds.*1 (λ i st', vrep true bl ds boot cwd X O FS st' ∧ ∀ j p kd, (j < i)%nat → ds !! j = Some (p, kd) → kd_fs kd ≠ f)).
  - intros i st' [Hr' _]. by eapply vrep_table.
  - split; [done|]. intros j p kd Hj. lia.
  - intros i p kd st' Hp Hkd [Hr' Hbef]. pose proof (entry_at _ _ _ _ _ _ _ _ _ _ _ _ Hr' Hp Hkd) as Hi. wp_steps.
    destruct (Z.eqb_spec (kd_fs kd) f).
    + wp_steps. eapply kunlock_ok; [done|]. intros st2 Hr2. wp_steps. by apply HQ.
    + split; [done|]. intros j q kd' Hj Hj2. destruct (decide (j = i)) as [->|]; [by simplify_eq|]. apply (Hbef j q); [lia|done].
  - intros st' [Hr' Hbef]. wp_steps. eapply kunlock_ok; [done|]. intros st2 Hr2. wp_steps. apply HQ; [|done]. intros Hin.
    unfold mounted in Hin. apply list_elem_of_filter in Hin as [_ Hin]. apply list_elem_of_fmap in Hin as ([q kd'] & -> & Hin).
    apply list_elem_of_lookup in Hin as [j Hj]. exfalso. apply (Hbef j q kd'); [|done|done]. rewrite length_fmap. by eapply lookup_lt_Some.
Qed.

Lemma vfs_getcwd_ok F ds boot cwd X O FS st (Q : () → St → Prop) (E : Z → St → Prop) :
  vrep false false ds boot cwd X O FS st → F Panic_called ∨ is_Some (fs_vol (fs_of cwd)) ∨ fs_of cwd ∈ mounted ds →
  (∀ st', vrep false false ds boot cwd X O FS st' → Q tt st') → (∀ e st', vrep false false ds boot cwd X O FS st' → E e st') →
  wp F vfs_getcwd st Q E.
Proof.
  intros Hr Hname HQ HE. unfold vfs_getcwd. wp_steps. eapply getcurdir_ok; [done| |by intros st' _; apply HE]. intros st1 Hc Hr1. wp_steps.
  destruct (vr_cwd _ _ _ _ _ _ _ _ _ Hr1) as [_ Hfs]. specialize (Hfs Hc).
  assert (fs_of cwd ∈ FS) as Hin by (eapply fsw_mounted; [apply (vr_fsw _ _ _ _ _ _ _ _ _ Hr1)|by apply base_cwd|done]).
  eapply vn_fs_ok; [done|by apply base_cwd|]. intros st2 Hr2. wp_assert by (by destruct (Z.eqb_spec (fs_of cwd) 0)). wp_steps.
  eapply volname_ok; [done|done|]. intros st3 Hr3. wp_steps.
  assert (∀ (Q' : option name → St → Prop), (F Panic_called → ∀ st', Q' None st') →
    (∀ n st', vrep false false ds boot cwd (X ⊎ {[+ cwd +]}) O FS st' → Q' (Some n) st') →
    wp F (match fs_vol (fs_of cwd) with Some n => mret (Some n) | None => vfs_getdevname (fs_of cwd) end) st3 Q' E) as Hnm.
  { intros Q' HQN HQ'. destruct (fs_vol (fs_of cwd)) as [n|] eqn:Hv; [wp_steps; by apply HQ'|].
    eapply vfs_getdevname_ok; [done|done|]. intros [n|] st4 Hr4 Hr5; [by apply HQ'|].
    destruct Hname as [?|[[? ?]|Hm]]; [by apply HQN|done|]. by destruct (Hr4 Hm). }
  apply Hnm; [by intros HF st4; wp_steps|]. clear Hnm st3 Hr3. intros n st3 Hr3. wp_steps.
  assert (∀ e st', vrep false false ds boot cwd (X ⊎ {[+ cwd +]}) O FS st' → wp F (decref_after cwd (inr e : () + Z)) st' Q E) as Herr.
  { intros e st' Hr'. eapply decref_after_ok; [exact Hr'|done|]. intros e' st5 [= <-] Hr5. by apply HE. }
  eapply keeps_ok; [intros w Hw; by apply uiomove_law|done| |by intros e st4 Hr4; apply Herr]. intros [] st4 Hr4. wp_steps.
  eapply keeps_ok; [intros w Hw; by apply uiomove_law|done| |by intros e st5 Hr5; apply Herr]. intros [] st5 Hr5.
  eapply keeps_ok; [intros w Hw; apply namefile_law; [done|by apply base_cwd]|done| |by intros e st6 Hr6; apply Herr]. intros [] st6 Hr6.
  eapply decref_after_ok; [exact Hr6| |done]. intros [] st7 _ Hr7. by apply HQ.
Qed.

Lemma vfs_unmountall_ok F bl ds boot cwd X O FS st (Q : () → St → Prop) E :
  vrep false bl ds boot cwd X O FS st →
  (∀ ds' FS' st', ds'.*1 = ds.*1 → vrep false bl ds' boot cwd X O FS' st' → Q tt st') → wp F vfs_unmountall st Q E.
Proof.
  intros Hr HQ. unfold vfs_unmountall. wp_steps. eapply klock_ok; [done|]. clear st Hr. intros st Hr. wp_steps.
  set (I := λ st', ∃ ds' FS', ds'.*1 = ds.*1 ∧ vrep true bl ds' boot cwd X O FS' st').
  apply (scan_known_ok F ds.*1 (λ _ st', I st')).
  - intros i st' (ds' & FS' & <- & Hr'). by eapply vrep_table.
  - by exists ds, FS.
  - intros i p kd st' Hp Hkd (ds' & FS' & Hfst & Hr'). rewrite <- Hfst in Hp. pose proof (entry_at _ _ _ _ _ _ _ _ _ _ _ _ Hr' Hp Hkd) as Hi.
    pose proof (entry_ok _ _ _ _ _ _ _ _ _ _ _ _ Hr' Hi) as (D1 & D2 & D3). wp_steps.
    assert (∀ st2, vrep true bl ds' boot cwd X O FS' st2 → I st2) as HI by (intros st2 Hr2; by exists ds', FS').
    apply wp_when; [|intros _; wp_steps; by apply HI]. intros [Hraw Hf]%andb_prop. apply bool_decide_eq_true in Hraw.
    assert (kd_fs kd ≠ 0) as Hf0 by (by destruct (Z.eqb_spec (kd_fs kd) 0)). wp_steps.
    assert (∀ st2, vrep true bl ds' boot cwd X O FS' st2 →
      wp F (r ← try (on_w (FSOP_UNMOUNT (kd_fs kd))); match r with inr _ => mret tt | inl _ => set_kd_fs p kd 0 end) st2
        (λ _ s', I s') E) as Hdrop.
    { intros st2 Hr2. wp_steps. eapply wp_on_w; [apply (unmount_law _ _ _ _ _ (vr_fsw _ _ _ _ _ _ _ _ _ Hr2)); by apply D3| |intros e w' Hw'; wp_steps; apply HI; by eapply vrep_fsw].
      intros [] w' Hw'. unfold set_kd_fs, on_vfs. wp_steps. cbn [fst snd]. rewrite <- (take_drop_middle _ _ _ Hi) in Hr2, Hw', Hfst.
      eexists _, _. split; [|by eapply vrep_unmounted]. rewrite <- Hfst. by rewrite !fmap_app. }
    eapply keeps_ok; [intros w Hw; apply sync_law; [done|by apply D3]|done| |].
    + intros [] st2 Hr2. cbv beta iota. apply wp_bind. apply wp_ret. cbv beta iota. eapply wp_mono; [by apply Hdrop|by intros [] s' HIs; wp_steps|done].
    + intros e st2 Hr2. wp_steps. eapply keeps_ok; [intros w Hw; apply sync_law; [done|by apply D3]|done| |].
      * intros [] st3 Hr3. eapply wp_mono; [by apply Hdrop|by intros [] s' HIs; wp_steps|done].
      * intros e' st3 Hr3. wp_steps. by apply HI.
  - intros st' (ds' & FS' & Hfst & Hr'). wp_steps. eapply kunlock_ok; [done|]. intros st2 Hr2. by eapply HQ.
Qed.
End table.
