(* ===== verification/VfsTheorems.v ===== *)
(** The VFS layer: what it guarantees, and an instance of its interface with examples. *)

From Stdlib Require Import ZArith Lia.
From stdpp Require Import base list gmap gmultiset numbers option.
From S2P Require Import Prelude KMem Array Vfs VfsProof VfsList.

Local Open Scope Z_scope.

Section theorems.
Context `{HL : KHeapLaws H} `{FL : FsLaws W}.
Notation St := (H * vfs * W)%type.
Implicit Types (st : St) (X O : refs) (FS : gset Z) (ds : list (Z * knowndev)).

(** ** Sequences of calls *)

(** [CAddfs] makes a file system of its own with [mk], as emu.c does, and adds it. *)
Inductive call :=
  | COpen (path : name) (flags : Z) | CClose (v : Z)
  | CRemove (path : name) | CMkdir (path : name) | CRmdir (path : name)
  | CSymlink (contents path : name) | CReadlink (path : name)
  | CLink (old new : name) | CRename (old new : name)
  | CChdir (path : name) | CClearcurdir | CGetcwd | CSetbootfs (n : name) | CClearbootfs
  | CSync | CMount (dev : name) (mountfunc : Z → M W Z) | CUnmount (dev : name) | CUnmountall
  | CAdddev (n : name) (dev : Z) (mountable : bool) | CAddfs (n : name) (mk : M W Z).

(** [files] are the vnodes that have been opened and not closed; only they are closed.
    [lost] counts the calls of [vfs_adddev] and [vfs_addfs] that have failed. They are made
    only while the table has fewer entries than memory could hold. *)
Definition held : Type := list Z * nat.
Definition quiet (r : held) (p : M St ()) : M St held := _ ← try p; mret r.
Definition adding (r : held) (p : M St ()) : M St held :=
  s ← get;
  let t := knowndevs s.1.2 in
  if (max t <? 2 ^ 28) && (num t <? 2 ^ 28 - 1) then
    e ← try p; mret (match e with inl _ => r | inr _ => (r.1, S r.2) end)
  else mret r.
Fixpoint remove_one (v : Z) (l : list Z) : list Z :=
  match l with
  | [] => []
  | u :: l => if u =? v then l else u :: remove_one v l
  end.
Definition run_call (r : held) (c : call) : M St held :=
  match c with
  | COpen path fl => e ← try (vfs_open path fl); mret (match e with inl v => (v :: r.1, r.2) | inr _ => r end)
  | CClose v => if bool_decide (v ∈ r.1) then vfs_close v;; mret (remove_one v r.1, r.2) else mret r
  | CRemove p => quiet r (vfs_remove p)
  | CMkdir p => quiet r (vfs_mkdir p)
  | CRmdir p => quiet r (vfs_rmdir p)
  | CSymlink c p => quiet r (vfs_symlink c p)
  | CReadlink p => quiet r (vfs_readlink p)
  | CLink p q => quiet r (vfs_link p q)
  | CRename p q => quiet r (vfs_rename p q)
  | CChdir p => quiet r (vfs_chdir p)
  | CClearcurdir => quiet r vfs_clearcurdir
  | CGetcwd => quiet r vfs_getcwd
  | CSetbootfs n => quiet r (vfs_setbootfs n)
  | CClearbootfs => quiet r vfs_clearbootfs
  | CSync => quiet r vfs_sync
  | CMount d f => quiet r (vfs_mount d f)
  | CUnmount d => quiet r (vfs_unmount d)
  | CUnmountall => quiet r vfs_unmountall
  | CAdddev n dev mountable => adding r (vfs_adddev n dev mountable)
  | CAddfs n mk => e ← try (on_w mk); match e with inl f => adding r (vfs_addfs n f) | inr _ => mret r end
  end.
Fixpoint run_calls (r : held) (cs : list call) : M St held :=
  match cs with
  | [] => mret r
  | c :: cs => r ← run_call r c; run_calls r cs
  end.

(** What the caller passes *)
Definition call_ok (c : call) : Prop :=
  match c with
  | CMount _ f => mounts f
  | CAdddev n dev _ => len n < 2 ^ 30 ∧ dev ≠ 0
  | CAddfs n mk => len n < 2 ^ 30 ∧ mounts (λ _, mk)
  | _ => True
  end.
(** The calls that can end in a panic: [dev_create_vnode] panics when it cannot initialise
    the vnode, [vfs_getcwd] when the file system of the current directory has no name. *)
Definition can_panic (c : call) : bool :=
  match c with CAdddev _ _ _ | CAddfs _ _ | CGetcwd => true | _ => false end.

(** The open files are all the references there are besides those of the layer itself and at
    most [r.2] lost ones, [L]. *)
Definition accounted (r : held) st : Prop :=
  ∃ ds boot cwd FS L, (size L ≤ r.2)%nat ∧
    vrep false false ds boot cwd (list_to_set_disj r.1 ⊎ L) (list_to_set_disj r.1) FS st.

Lemma remove_one_set v l : v ∈ l → list_to_set_disj l = (list_to_set_disj (remove_one v l) ⊎ {[+ v +]} : refs).
Proof.
  induction l as [|u l IH]; [by intros ?%elem_of_nil|]. cbn [remove_one list_to_set_disj]. destruct (Z.eqb_spec u v) as [->|Hn].
  - intros _. multiset_solver.
  - intros [->|Hin]%elem_of_cons; [done|]. cbn [list_to_set_disj]. rewrite IH by done. multiset_solver.
Qed.

Lemma vquiet_ok F r p st :
  (∀ (Q : () → St → Prop) (E : Z → St → Prop), (∀ st', accounted r st' → Q tt st') → (∀ e st', accounted r st' → E e st') → wp F p st Q E) →
  wp F (quiet r p) st (λ r' st', accounted r' st') noerr.
Proof. intros Hp. unfold quiet. wp_steps. apply Hp; intros; by wp_steps. Qed.

Lemma adding_ok F r ds boot cwd FS L dname (mountable : bool) dev fs st :
  (∀ f, safe_panic f → F f) → (size L ≤ r.2)%nat →
  vrep false false ds boot cwd (list_to_set_disj r.1 ⊎ L) (list_to_set_disj r.1) FS st → len dname < 2 ^ 30 →
  (mountable = true → dev ≠ 0) → (dev = 0 → fs ≠ 0) → (fs ≠ 0 → fs ∈ FS ∧ fs ∉ mounted ds) →
  wp F (adding r (vfs_doadd dname mountable dev fs)) st (λ r' st', accounted r' st') noerr.
Proof.
  intros HF HsL Hr Hl Hdev Hdf Hfs. unfold adding. wp_steps. destruct (_ && _) eqn:Hroom; [|wp_steps; by exists ds, boot, cwd, FS, L].
  apply andb_prop in Hroom as [Hmax Hnum]. wp_steps. eapply wp_faults; [|exact HF].
  destruct (vr_heap _ _ _ _ _ _ _ _ _ Hr) as (m & _ & Ha & _). pose proof (array_rep_num _ _ _ Ha) as Hn. rewrite length_fmap in Hn.
  eapply (vfs_doadd_ok _ _ _ _ _ _ _ dname mountable dev fs); [done|done|done|done|done|lia|lia| |].
  - intros p vn st' _ Hr'. wp_steps. do 5 eexists. split; [exact HsL|exact Hr'].
  - intros e L' st' _ HsL' Hr'. wp_steps. exists ds, boot, cwd, FS, (L ⊎ L'). cbn [fst snd]. split; [rewrite gmultiset_size_disj_union; lia|].
    by rewrite (assoc_L (⊎)).
Qed.

Lemma run_call_ok F r c st :
  (can_panic c = true → ∀ f, safe_panic f → F f) →
  call_ok c → accounted r st → wp F (run_call r c) st (λ r' st', accounted r' st') noerr.
Proof.
  intros HF Hc (ds & boot & cwd & FS & L & HsL & Hr).
  assert (∀ st', vrep false false ds boot cwd (list_to_set_disj r.1 ⊎ L) (list_to_set_disj r.1) FS st' → accounted r st') as Hacc
    by (intros st' Hr'; by exists ds, boot, cwd, FS, L).
  assert (∀ ds' boot' cwd' FS' st', vrep false false ds' boot' cwd' (list_to_set_disj r.1 ⊎ L) (list_to_set_disj r.1) FS' st' → accounted r st') as Hany
    by (intros ds' boot' cwd' FS' st' Hr'; by exists ds', boot', cwd', FS', L).
  destruct c; cbn [run_call].
  - wp_steps. eapply vfs_open_ok; [done| |intros e st' Hr'; wp_steps; by apply Hacc]. intros v st' Hr'. wp_steps. exists ds, boot, cwd, FS, L. split; [done|].
    cbn [fst list_to_set_disj]. replace ({[+ v +]} ⊎ list_to_set_disj r.1 ⊎ L : refs) with (list_to_set_disj r.1 ⊎ L ⊎ {[+ v +]} : refs) by multiset_solver.
    rewrite (comm_L (⊎) {[+ v +]}). exact Hr'.
  - destruct (bool_decide (v ∈ r.1)) eqn:Hv; [|wp_steps; by apply Hacc]. apply bool_decide_eq_true in Hv. wp_steps.
    rewrite (remove_one_set v r.1 Hv) in Hr.
    replace (list_to_set_disj (remove_one v r.1) ⊎ {[+ v +]} ⊎ L : refs) with (list_to_set_disj (remove_one v r.1) ⊎ L ⊎ {[+ v +]} : refs) in Hr by multiset_solver.
    eapply vfs_close_ok; [exact Hr|]. intros st' Hr'. wp_steps. by exists ds, boot, cwd, FS, L.
  - apply vquiet_ok. intros Q E HQ HE. eapply in_parent_ok; [intros; by apply remove_law|done|eauto|eauto].
  - apply vquiet_ok. intros Q E HQ HE. eapply in_parent_ok; [intros; by apply mkdir_law|done|eauto|eauto].
  - apply vquiet_ok. intros Q E HQ HE. eapply in_parent_ok; [intros; by apply rmdir_law|done|eauto|eauto].
  - apply vquiet_ok. intros Q E HQ HE. eapply in_parent_ok; [intros; by apply symlink_law|done|eauto|eauto].
  - apply vquiet_ok. intros Q E HQ HE. eapply vfs_readlink_ok; [done|eauto|eauto].
  - apply vquiet_ok. intros Q E HQ HE. eapply vfs_link_ok; [done|eauto|eauto].
  - apply vquiet_ok. intros Q E HQ HE. eapply vfs_rename_ok; [done|eauto|eauto].
  - apply vquiet_ok. intros Q E HQ HE. eapply vfs_chdir_ok; [done| |eauto]. intros dir st' _ Hr'. by eapply HQ, Hany.
  - apply vquiet_ok. intros Q E HQ HE. eapply vfs_clearcurdir_ok; [done..|]. intros st' Hr'. by eapply HQ, Hany.
  - apply vquiet_ok. intros Q E HQ HE. eapply vfs_getcwd_ok; [done|left; apply HF; [done|by right]|eauto|eauto].
  - apply vquiet_ok. intros Q E HQ HE. eapply vfs_setbootfs_ok; [done| |eauto]. intros dir st' _ _ Hr'. by eapply HQ, Hany.
  - apply vquiet_ok. intros Q E HQ HE. unfold vfs_clearbootfs. eapply change_bootfs_ok.
    + change (opt_ref 0) with (∅ : refs). rewrite (right_id_L ∅ (⊎)). exact Hr.
    + intros st' Hr'. by eapply HQ, Hany.
  - apply vquiet_ok. intros Q E HQ HE. eapply vfs_sync_ok; [done|eauto].
  - apply vquiet_ok. intros Q E HQ HE. eapply vfs_mount_ok; [done|done| |eauto]. intros pre p kd post f st' _ _ _ _ _ _ _ Hr'. by eapply HQ, Hany.
  - apply vquiet_ok. intros Q E HQ HE. eapply vfs_unmount_ok; [done| |eauto]. intros pre p kd post st' _ _ _ _ Hr'. by eapply HQ, Hany.
  - apply vquiet_ok. intros Q E HQ HE. eapply vfs_unmountall_ok; [done|]. intros ds' FS' st' _ Hr'. by eapply HQ, Hany.
  - destruct Hc as [Hl Hdev]. eapply adding_ok; [by apply HF|done|done|done|done|done|done].
  - destruct Hc as [Hl Hmk]. wp_steps. eapply wp_on_w; [by eapply (Hmk _ _ _ FS 1 (vr_fsw _ _ _ _ _ _ _ _ _ Hr))| |].
    + intros f w' (Hf0 & HfF & Hw'). wp_steps. eapply (adding_ok _ _ ds boot cwd ({[f]} ∪ FS)); [by apply HF|done| |done|done|done|].
      * by apply (vrep_more_fs _ _ _ _ _ _ _ FS).
      * intros _. split; [set_solver|]. intros Hin. apply HfF. by eapply mounted_fs.
    + intros e w' Hw'. wp_steps. apply Hacc. by eapply vrep_fsw.
Qed.

(** C13: No sequence of calls of the VFS layer - open and close, remove, mkdir, rmdir, symlink,
    readlink, link, rename, chdir, the current directory and the boot file system set, cleared
    and read, sync, mount and unmount, devices and file systems added - loses track of a
    reference to a vnode, whether the calls succeed or fail, but for those that add: each call
    of vfs_adddev or vfs_addfs that fails may leave one reference that nobody has. Afterwards
    the references there are, and the open counts, are exactly those of the files that are
    open, one for each device of the table, for the boot file system and for the current
    directory, and those lost ones. No assertion fails on the way; the kernel can panic or run
    out of memory only in a call that adds, and panic in vfs_getcwd. *)
Theorem vfs_calls_accounted r cs st :
  Forall call_ok cs → accounted r st →
  wp (λ f, existsb can_panic cs = true ∧ safe_panic f) (run_calls r cs) st (λ r' st', accounted r' st') noerr.
Proof.
  intros Hcs Ha. assert (∀ c, c ∈ cs → can_panic c = true → ∀ f, safe_panic f → existsb can_panic cs = true ∧ safe_panic f) as HF.
  { intros c Hin Hp f Hf. split; [|done]. apply existsb_exists. exists c. split; [by apply list_elem_of_In|done]. }
  set (F := λ f, existsb can_panic cs = true ∧ safe_panic f) in *.
  change (∀ c, c ∈ cs → can_panic c = true → ∀ f, safe_panic f → F f) in HF. clearbody F.
  revert r st Hcs Ha HF. induction cs as [|c cs IH]; intros r st Hc Ha HF; cbn [run_calls]; [by wp_steps|]. apply list.Forall_cons in Hc as [Hc Hcs].
  wp_steps. eapply wp_mono; [apply run_call_ok; [apply HF, list_elem_of_here|done|done]| |done]. intros r' st' Ha'.
  apply IH; [done|done|]. intros c' Hin. by apply HF, list_elem_of_further.
Qed.

(** ** Devices *)

Lemma resolve_app n l1 l2 : resolve n (l1 ++ l2) = if existsb (λ kd, bool_decide (is_Some (match_at n kd))) l1 then resolve n l1 else resolve n l2.
Proof.
  induction l1 as [|kd l1 IH]; [done|]. cbn [app resolve existsb]. destruct (match_at n kd) as [r|]; [done|]. rewrite IH. by destruct (existsb _ l1).
Qed.

Lemma match_samestring n kd : is_Some (match_at n kd) →
  vol_of kd = Some n ∨ kd_rawname kd = Some n ∨ kd_name kd = n.
Proof.
  unfold match_at, vol_of. destruct (Z.eqb_spec (kd_fs kd) 0) as [Hf|Hf]; cbn [negb andb].
  - destruct (bool_decide (kd_name kd = n)) eqn:Hn; [apply bool_decide_eq_true in Hn; auto|].
    destruct (bool_decide (kd_rawname kd = Some n)) eqn:Hr; [apply bool_decide_eq_true in Hr; auto|by intros [? ?]].
  - destruct (bool_decide (kd_name kd = n)) eqn:Hn; [apply bool_decide_eq_true in Hn; auto|].
    destruct (bool_decide (fs_vol (kd_fs kd) = Some n)) eqn:Hv; [apply bool_decide_eq_true in Hv; auto|]. cbn [orb].
    destruct (bool_decide (kd_rawname kd = Some n)) eqn:Hr; [apply bool_decide_eq_true in Hr; auto|by intros [? ?]].
Qed.

(** A name that does not clash stands for nothing yet. *)
Lemma no_clash_no_match ds n1 n2 n3 n :
  clash ds n1 n2 n3 = false → n1 = Some n ∨ n2 = Some n ∨ n3 = Some n → existsb (λ kd, bool_decide (is_Some (match_at n kd))) ds.*2 = false.
Proof.
  unfold clash. generalize ds.*2. clear ds. intros l. induction l as [|kd l IH]; [done|]. cbn [existsb]. intros [H1 H2]%orb_false_iff Hn.
  rewrite IH, orb_false_r by done. apply bool_decide_eq_false. intros Hm%match_samestring.
  assert (∀ a, a = Some n → samestring3 a n1 n2 n3 = true) as Hs.
  { intros a ->. unfold samestring3. destruct Hn as [-> | [-> | ->]]; cbn [samestring]; rewrite (bool_decide_true (n = n)) by done; cbn [orb]; by rewrite ?orb_true_r. }
  unfold clash_at in H1. apply orb_false_iff in H1 as [[H1 H3]%orb_false_iff H4]. destruct Hm as [Hm|[Hm|Hm]].
  - by rewrite Hs in H1.
  - by rewrite Hs in H3.
  - rewrite Hs in H4; [done|by rewrite Hm].
Qed.

Lemma resolve_none n l : existsb (λ kd, bool_decide (is_Some (match_at n kd))) l = false → resolve n l = inr ENODEV.
Proof. induction l as [|kd l IH]; [done|]. cbn. destruct (match_at n kd); [done|]. done. Qed.

Lemma resolve_enxio n l : resolve n l = inr ENXIO → ∃ kd, kd ∈ l ∧ is_Some (kd_rawname kd) ∧ kd_name kd = n.
Proof.
  induction l as [|kd l IH]; [done|]. cbn [resolve]. destruct (match_at n kd) as [r|] eqn:Hm.
  - intros ->. exists kd. split; [apply list_elem_of_here|]. unfold match_at in Hm.
    destruct (negb (kd_fs kd =? 0) && _); [done|]. destruct (bool_decide (kd_name kd = n)) eqn:Hn.
    + apply bool_decide_eq_true in Hn. destruct (bool_decide (is_Some (kd_rawname kd))) eqn:Hr; [|done]. by apply bool_decide_eq_true in Hr.
    + by destruct (bool_decide (kd_rawname kd = Some n)).
  - intros (kd' & Hin & ?)%IH. exists kd'. split; [by apply list_elem_of_further|done].
Qed.

Lemma raw_ne (n : name) : n ≠ n ++ raw.
Proof. intros He. assert (length n = length (n ++ raw)) as Hl by (by rewrite <- He). rewrite length_app in Hl. cbn in Hl. lia. Qed.

(** C31: Adding a mountable device: afterwards its raw name stands for the device itself, its
    own name for nothing until something is mounted, and every name that stood for something
    still stands for the same. When the call fails, memory was short or one of the two names
    was in use, and the table is as it was; the reference to the vnode made for the device may
    be lost then, [L]. *)
Theorem vfs_adddev_spec ds boot cwd X O FS dname dev st :
  vrep false false ds boot cwd X O FS st → Z.of_nat (length dname) < 2 ^ 30 → dev ≠ 0 →
  max (knowndevs st.1.2) < 2 ^ 28 → Z.of_nat (length ds) < 2 ^ 28 - 1 →
  wp safe_panic (vfs_adddev dname dev true) st
    (λ _ st', ∃ p vn, let ds' := ds ++ [(p, MkKnowndev dname (Some (dname ++ raw)) dev vn 0)] in
       vrep false false ds' boot cwd X O FS st' ∧
       resolve (dname ++ raw) ds'.*2 = inl vn ∧ resolve dname ds'.*2 = inr ENXIO ∧
       ∀ n, resolve n ds.*2 ≠ inr ENODEV → resolve n ds'.*2 = resolve n ds.*2)
    (λ e st', (e = ENOMEM ∨ e = EEXIST ∧ clash ds (Some dname) (Some (dname ++ raw)) None = true) ∧
       ∃ L, vrep false false ds boot cwd (X ⊎ L) O FS st').
Proof.
  intros Hr Hl Hdev Hmax Hlen. unfold vfs_adddev. eapply (vfs_doadd_ok _ _ _ _ _ _ _ dname true dev 0); try done.
  - intros p vn st' Hcl Hr'. cbn [volname_of Z.eqb] in Hcl. exists p, vn. split; [done|]. rewrite fmap_app. cbn [fmap list_fmap snd].
    rewrite !resolve_app. rewrite (no_clash_no_match _ _ _ _ (dname ++ raw) Hcl) by auto. rewrite (no_clash_no_match _ _ _ _ dname Hcl) by auto. cbn [resolve].
    unfold match_at at 1. cbn [kd_fs kd_name kd_rawname kd_vnode Z.eqb negb andb]. rewrite (bool_decide_false (dname = dname ++ raw)) by apply raw_ne.
    rewrite (bool_decide_true (Some (dname ++ raw) = Some (dname ++ raw))) by done. split; [done|].
    unfold match_at at 1. cbn [kd_fs kd_name kd_rawname kd_vnode Z.eqb negb andb]. rewrite (bool_decide_true (dname = dname)) by done. split; [done|].
    intros n Hn. rewrite resolve_app. destruct (existsb _ ds.*2) eqn:Hex; [done|]. by apply resolve_none in Hex.
  - intros e L st' He _ Hr'. split; [exact He|]. by exists L.
Qed.

(** C32: Mounting: [vfs_mount] takes the first mountable device with the name. When it has
    no file system, a new one, made by the function passed, is attached to it and nothing else
    in the table is changed; if the name stood for that device, and not for a volume or a raw
    device before it, it stands for the root of the new file system afterwards. The call fails
    with ENODEV when there is no such device, with EBUSY when it has a file system already,
    and else with an error of the function passed; the table is then as it was. *)
Theorem vfs_mount_spec ds boot cwd X O FS devname mountfunc st :
  vrep false false ds boot cwd X O FS st → mounts mountfunc →
  wp safe (vfs_mount devname mountfunc) st
    (λ _ st', ∃ pre p kd post f, let ds' := pre ++ (p, set_fs f kd) :: post in
       ds = pre ++ (p, kd) :: post ∧ mount_target devname ds.*2 = Some kd ∧ kd_fs kd = 0 ∧ f ∉ FS ∧
       vrep false false ds' boot cwd X O ({[f]} ∪ FS) st' ∧
       (resolve devname ds.*2 = inr ENXIO → resolve devname ds'.*2 = inl (fs_root f)))
    (λ e st', mount_error ds devname mountfunc e ∧ vrep false false ds boot cwd X O FS st').
Proof.
  intros Hr Hm. eapply vfs_mount_ok; [done|done| |done]. intros pre p kd post f st' Hds Hfirst Hraw Hnm Hfs Hf0 HfF Hr'.
  exists pre, p, kd, post, f. split; [done|]. split; [rewrite Hds; by apply mount_target_some|]. split; [done|]. split; [done|]. split; [exact Hr'|].
  intros Hres. subst ds. rewrite fmap_app in *. cbn [fmap list_fmap snd] in *. rewrite resolve_app in *.
  assert (existsb (λ kd, bool_decide (is_Some (match_at devname kd))) pre.*2 = false) as Hex.
  { destruct (existsb _ pre.*2) eqn:Hex; [|done]. exfalso. apply resolve_enxio in Hres as (kd' & Hin & Hraw' & Hnm').
    apply list_elem_of_fmap in Hin as ([q kd2] & -> & Hin). by eapply Hfirst. }
  rewrite Hex in *. cbn [resolve]. unfold match_at at 1. cbn [kd_fs kd_name set_fs]. destruct (Z.eqb_spec f 0); [done|]. cbn [negb andb].
  by rewrite bool_decide_true by done.
Qed.

(** ** Paths *)

Lemma first_sep_plain i d rest :
  Forall (λ c, c ≠ colon ∧ c ≠ slash) d → first_sep i (d ++ colon :: rest) = Some (i + Z.of_nat (length d), true).
Proof.
  intros Hd. revert i. induction Hd as [|c d [Hc Hs] _ IH]; intros i; cbn [app first_sep length].
  - rewrite Z.eqb_refl. do 2 f_equal. lia.
  - destruct (Z.eqb_spec c colon); [done|]. destruct (Z.eqb_spec c slash); [done|]. rewrite IH. do 2 f_equal. lia.
Qed.

Lemma skip_slashes_spec k sub : head sub ≠ Some slash → skip_slashes (replicate k slash ++ sub) = sub.
Proof.
  intros Hs. induction k as [|k IH]; cbn [replicate app skip_slashes].
  - destruct sub as [|c sub]; [done|]. cbn [skip_slashes]. destruct (Z.eqb_spec c slash) as [->|]; done.
  - exact IH.
Qed.

Lemma parse_device d k sub :
  d ≠ [] → Forall (λ c, c ≠ colon ∧ c ≠ slash) d → head sub ≠ Some slash → parse (d ++ colon :: replicate k slash ++ sub) = (FromDev d, sub).
Proof.
  intros Hn Hd Hs. unfold parse. rewrite first_sep_plain by done. destruct (Z.eqb_spec (0 + Z.of_nat (length d)) 0); [destruct d; [done|cbn [length] in *; lia]|].
  rewrite Z.add_0_l, Nat2Z.id, take_app_length. f_equal. replace (length d + 1)%nat with (length (d ++ [colon])) by (rewrite length_app; done).
  change (colon :: replicate k slash ++ sub) with ([colon] ++ replicate k slash ++ sub). rewrite (assoc_L (++)), drop_app_length. by apply skip_slashes_spec.
Qed.

(** C33: A path that is a device name with a colon, and slashes behind it or not, stands for what
    the first device with that name stands for: the root of its file system when it has one,
    the device itself when it cannot have one, and else an error. The caller gets a reference
    to it. *)
Theorem vfs_lookup_device ds boot cwd X O FS d k st :
  d ≠ [] → Forall (λ c, c ≠ colon ∧ c ≠ slash) d → vrep false false ds boot cwd X O FS st →
  wp safe (vfs_lookup (d ++ colon :: replicate k slash)) st
    (λ v st', resolve d ds.*2 = inl v ∧ vrep false false ds boot cwd (X ⊎ {[+ v +]}) O FS st')
    (λ e st', resolve d ds.*2 = inr e ∧ vrep false false ds boot cwd X O FS st').
Proof.
  intros Hn Hd Hr. unfold vfs_lookup. wp_steps. rewrite <- (app_nil_r (replicate k slash)). eapply getdevice_ok; [done| |].
  - intros v st' Hv Hr'. rewrite parse_device in * by done. cbn [fst snd start_of] in *. wp_steps. rewrite bool_decide_true by done. by wp_steps.
  - intros e st' He Hr'. rewrite parse_device in * by done. by cbn [fst start_of] in *.
Qed.

(** C34: [vfs_setbootfs] copies the first 254 bytes of the name and refuses every name with a
    colon among them, a trailing one included: the test meant to allow it looks at the length
    of the string from the colon on, which is never zero. *)
Theorem vfs_setbootfs_colon ds boot cwd X O FS nm st :
  colon ∈ take 254 nm → vrep false false ds boot cwd X O FS st →
  wp safe (vfs_setbootfs nm) st (λ _ _, False) (λ e st', e = EINVAL ∧ vrep false false ds boot cwd X O FS st').
Proof.
  intros Hc Hr. eapply vfs_setbootfs_ok; [done| |].
  - by intros dir st' Hn.
  - intros e st' He Hr'. by split; [apply He|].
Qed.
End theorems.

(** ** An instance: one file system, whose only vnode is its root *)
Module SimpleFs.
Definition W : Type := refs * refs * gset Z.
Definition fs_id : Z := 7.
Definition root : Z := 1000.
Definition vnode_fs (v : Z) : Z := if 1000 <=? v then fs_id else 0.

Definition give (v : Z) : M W () := modify (λ w, (w.1.1 ⊎ {[+ v +]}, w.1.2, w.2)).
Definition give_root : M W Z := w ← get; if bool_decide (fs_id ∈ w.2) then give root;; mret root else fail ENOENT.
Definition skip : M W () := mret tt.

#[export] Instance ops : FsOps W := {|
  VOP_INIT v _ := if v <? 1000 then give v else fail ENOMEM;
  VOP_INCREF v := give v;
  VOP_DECREF v := modify (λ w, (w.1.1 ∖ {[+ v +]}, w.1.2, w.2));
  VOP_INCOPEN v := modify (λ w, (w.1.1, w.1.2 ⊎ {[+ v +]}, w.2));
  VOP_DECOPEN v := modify (λ w, (w.1.1, w.1.2 ∖ {[+ v +]}, w.2));
  VOP_OPEN _ _ := skip;
  VOP_TRUNCATE _ _ := fail EISDIR;
  VOP_GETTYPE v := mret (if 1000 <=? v then S_IFDIR else 0x4000);
  VOP_NAMEFILE _ := skip;
  VOP_READLINK _ := fail EINVAL;
  VOP_LOOKUP _ _ := give_root;
  VOP_LOOKPARENT _ p _ := r ← give_root; mret (r, p);
  VOP_CREAT _ _ _ := give_root;
  VOP_REMOVE _ _ := fail ENOENT;
  VOP_MKDIR _ _ := skip;
  VOP_RMDIR _ _ := fail ENOENT;
  VOP_SYMLINK _ _ _ := skip;
  VOP_LINK _ _ _ := skip;
  VOP_RENAME _ _ _ _ := skip;
  vn_fs v := mret (vnode_fs v);
  FSOP_SYNC _ := skip;
  FSOP_GETVOLNAME _ := mret None;
  FSOP_GETROOT f := let r := if f =? fs_id then root else 500 in give r;; mret r;
  FSOP_UNMOUNT f :=
    w ← get;
    if existsb (λ v, vnode_fs v =? f) (elements w.1.1) then fail EBUSY else put (w.1.1, w.1.2, w.2 ∖ {[f]});
  uiomove _ := skip |}.

Definition world (w : W) (R O : refs) (FS : gset Z) : Prop :=
  w = (R, O, FS) ∧ 0 ∉ FS ∧ 0 ∉ R ∧ ∀ v, v ∈ R → vnode_fs v ≠ 0 → vnode_fs v ∈ FS.

Lemma give_ok R O FS v w (Q : () → W → Prop) E :
  world w R O FS → v ≠ 0 → (vnode_fs v ≠ 0 → vnode_fs v ∈ FS) → (∀ w', world w' (R ⊎ {[+ v +]}) O FS → Q tt w') → wp safe (give v) w Q E.
Proof.
  intros (-> & H1 & H2 & H3) Hv Hf HQ. unfold give. wp_steps. apply HQ. split; [done|]. split; [done|]. split; [multiset_solver|].
  intros u [Hu|Hu%gmultiset_elem_of_singleton]%gmultiset_elem_of_disj_union; [by apply H3|by subst u].
Qed.

Lemma give_root_ok R O FS w (Q : Z → W → Prop) (E : Z → W → Prop) :
  world w R O FS → (∀ w', world w' (R ⊎ {[+ root +]}) O FS → Q root w') → (∀ w', world w' R O FS → E ENOENT w') → wp safe give_root w Q E.
Proof.
  intros Hw HQ HE. pose proof Hw as (-> & _). unfold give_root. wp_steps. cbn [snd]. destruct (bool_decide (fs_id ∈ FS)) eqn:Hf; wp_steps; [|by apply HE].
  apply bool_decide_eq_true in Hf. apply (give_ok R O FS root); [done|done|done|]. intros w' Hw'. wp_steps. by apply HQ.
Qed.

#[export] Instance laws : FsLaws W.
Proof.
  refine {| fsw := world; fs_of := vnode_fs; fs_vol := λ _, None; fs_root := λ f, if f =? fs_id then root else 500 |}.
  all: intros w R O FS.
  - by intros (_ & ? & ? & _).
  - intros v (_ & _ & _ & H3). apply H3.
  - intros v dev Hw Hv. cbn [VOP_INIT ops]. destruct (Z.ltb_spec v 1000); [|by wp_steps]. apply (give_ok R O FS v); [done|done| |done].
    intros Hf. exfalso. apply Hf. unfold vnode_fs. destruct (Z.leb_spec 1000 v); [lia|done].
  - intros v Hw Hv. cbn [VOP_INCREF ops]. pose proof Hw as (_ & _ & H2 & H3). apply (give_ok R O FS v); [done|by intros ->|by apply H3|done].
  - intros v (-> & H1 & H2 & H3). cbn [VOP_DECREF ops]. wp_steps. cbn [fst snd].
    replace ((R ⊎ {[+ v +]}) ∖ {[+ v +]}) with R by multiset_solver. split; [done|]. split; [done|]. split; [multiset_solver|].
    intros u Hu. apply H3. multiset_solver.
  - intros v (-> & H) Hv. cbn [VOP_INCOPEN ops]. wp_steps. by split.
  - intros v (-> & H) Hv. cbn [VOP_DECOPEN ops]. wp_steps. cbn [fst snd]. replace ((O ⊎ {[+ v +]}) ∖ {[+ v +]}) with O by multiset_solver. by split.
  - intros v p Hw Hv. cbn [VOP_LOOKUP ops]. by apply (give_root_ok R O FS).
  - intros v p n Hw Hv. cbn [VOP_LOOKPARENT ops]. wp_steps. apply (give_root_ok R O FS); [done| |done]. intros w' Hw'. by wp_steps.
  - intros v p excl Hw Hv. cbn [VOP_CREAT ops]. by apply (give_root_ok R O FS).
  - intros v Hw Hv. cbn [VOP_GETTYPE ops]. wp_steps. split; [|done]. unfold vnode_fs. by destruct (1000 <=? v).
  - intros v Hw Hv. cbn [vn_fs ops]. by wp_steps.
  - intros f Hw Hf. cbn [FSOP_GETVOLNAME ops]. by wp_steps.
  - intros f Hw Hf. cbn [FSOP_GETROOT ops]. wp_steps. apply (give_ok R O FS); [done|by destruct (f =? fs_id)| |].
    + intros Hn. destruct (Z.eqb_spec f fs_id) as [->|]; [exact Hf|done].
    + intros w' Hw'. wp_steps. by split.
  - intros f (-> & H1 & H2 & H3) Hf. cbn [FSOP_UNMOUNT ops]. wp_steps. cbn [fst snd].
    destruct (existsb (λ v, vnode_fs v =? f) (elements R)) eqn:Hex; wp_steps; [by split|].
    split; [done|]. split; [set_solver|]. split; [done|]. intros u Hu Hn. apply elem_of_difference. split; [by apply H3|].
    intros Hfu%elem_of_singleton. apply gmultiset_elem_of_elements, list_elem_of_In in Hu.
    assert (existsb (λ v, vnode_fs v =? f) (elements R) = true) as Ht; [|congruence]. apply existsb_exists. exists u. split; [done|]. by apply Z.eqb_eq.
  - intros f Hw Hf. cbn [FSOP_SYNC ops]. unfold skip. by wp_steps.
  - intros v fl Hw Hv. cbn [VOP_OPEN ops]. unfold skip. by wp_steps.
  - intros v n Hw Hv. cbn [VOP_TRUNCATE ops]. by wp_steps.
  - intros v Hw Hv. cbn [VOP_NAMEFILE ops]. unfold skip. by wp_steps.
  - intros v Hw Hv. cbn [VOP_READLINK ops]. by wp_steps.
  - intros v n Hw Hv. cbn [VOP_REMOVE ops]. by wp_steps.
  - intros v n Hw Hv. cbn [VOP_MKDIR ops]. unfold skip. by wp_steps.
  - intros v n Hw Hv. cbn [VOP_RMDIR ops]. by wp_steps.
  - intros v n c Hw Hv. cbn [VOP_SYMLINK ops]. unfold skip. by wp_steps.
  - intros v n u Hw Hv Hu. cbn [VOP_LINK ops]. unfold skip. by wp_steps.
  - intros v n u k Hw Hv Hu. cbn [VOP_RENAME ops]. unfold skip. by wp_steps.
  - intros s Hw. cbn [uiomove ops]. unfold skip. by wp_steps.
Defined.

(** Mounting it *)
Definition mount (dev : Z) : M W Z :=
  w ← get;
  if bool_decide (fs_id ∈ w.2) then fail EBUSY else put (w.1.1, w.1.2, {[fs_id]} ∪ w.2);; mret fs_id.

Lemma mount_ok : mounts mount.
Proof.
  intros w R O FS dev (-> & H1 & H2 & H3) Hd. unfold mount. wp_steps. cbn [fst snd]. destruct (bool_decide (fs_id ∈ FS)) eqn:Hf; wp_steps; [by split|].
  apply bool_decide_eq_false in Hf. split; [done|]. split; [done|]. split; [done|]. split; [set_solver|]. split; [done|]. intros v Hv Hn. set_solver.
Qed.
End SimpleFs.
Import SimpleFs.

(** A kernel with one disk, and nothing mounted on it *)
Definition lhd0 : name := [108; 104; 100; 48].
Definition lhd0_kd : knowndev := MkKnowndev lhd0 (Some (lhd0 ++ raw)) 200 100 0.
Definition ex_heap : SimpleHeap.t := {| SimpleHeap.next := 40; SimpleHeap.live := {[16 := 20; 36 := 4]}; SimpleHeap.budget := 64 |}.
Definition ex_vfs : vfs := MkVfs (MkArray 1 1 36 [Some 16]) {[16 := lhd0_kd]} false 0 false 0.
Definition ex_state : SimpleHeap.t * vfs * SimpleFs.W := (ex_heap, ex_vfs, ({[+ 100 +]}, ∅, ∅)).

Lemma ex_vrep : vrep false false [(16, lhd0_kd)] 0 0 ∅ ∅ ∅ ex_state.
Proof.
  split; cbn [fst snd ex_state ex_vfs kds knowndevs_lock bootfs_lock bootfs_vnode t_cwd].
  - exists {[16 := 20; 36 := 4]}. split; [|split].
    + change (SimpleHeap.owns ex_heap {[16 := 20; 36 := 4]}). unfold ex_heap. split; cbn [SimpleHeap.live SimpleHeap.next].
      * done.
      * lia.
      * intros p sz. rewrite lookup_insert_Some, lookup_singleton_Some. intros [[<- <-]|[_ [<- <-]]]; lia.
      * intros p sz q sz'. rewrite !lookup_insert_Some, !lookup_singleton_Some. intros [[<- <-]|[_ [<- <-]]] [[<- <-]|[_ [<- <-]]] Hne; lia.
    + change (array_rep {[16 := 20; 36 := 4]} (MkArray 1 1 36 [Some 16]) [16]). split; [done|done|done|]. by eexists.
    + intros p Hp. apply list_elem_of_singleton in Hp. subst p. split; [by eexists|done].
  - intros [|i] p kd Hi; [|done]. by simplify_eq/=.
  - apply list.NoDup_singleton.
  - done.
  - done.
  - done.
  - apply list.Forall_singleton. split; [done|]. split; [done|]. done.
  - constructor.
  - assert (base [(16, lhd0_kd)] 0 0 ⊎ ∅ = {[+ 100 +]}) as ->.
    { unfold base, dev_refs. cbn [fmap list_fmap snd list_to_set_disj lhd0_kd kd_vnode]. change (opt_ref 0) with (∅ : refs). multiset_solver. }
    split; [done|]. split; [set_solver|]. split; [multiset_solver|]. intros v Hv Hn. assert (v = 100) as -> by multiset_solver. done.
Qed.

(** The disk is mounted, becomes the current directory and the boot file system, files are
    opened on it, names are changed, and it cannot be unmounted before all is given up. A
    second device is added, and a third one that has the name of the first. *)
Definition ex_calls : list (call (W := SimpleFs.W)) :=
  [CMount lhd0 SimpleFs.mount; CChdir (lhd0 ++ [colon]); CGetcwd; COpen [102] 2; CSetbootfs lhd0; COpen [slash; 103] 6;
   CRename [97] [slash; 98]; CUnmount lhd0; CClose 1000; CAdddev null_name 300 true; CAdddev lhd0 301 true;
   CClearcurdir; CClearbootfs; CUnmountall].

Lemma vfs_calls_accounted_witness :
  wp safe_panic (run_calls ([], 0%nat) ex_calls) ex_state (λ r' st', accounted r' st') noerr
  ∧ (match run_calls ([], 0%nat) ex_calls ex_state with Ret r _ => r | _ => ([], 0%nat) end) = ([1000], 1%nat).
Proof.
  split; [|by vm_compute].
  eapply wp_faults; [apply (vfs_calls_accounted ([], 0%nat) ex_calls ex_state)|by intros f [_ Hf]].
  - repeat (apply list.Forall_cons; split; [first [exact SimpleFs.mount_ok|exact I|by split]|]). apply list.Forall_nil_2.
  - exists [(16, lhd0_kd)], 0, 0, ∅, ∅. split; [done|]. exact ex_vrep.
Defined.

Lemma vfs_adddev_spec_witness :
  wp safe_panic (vfs_adddev null_name 300 true) ex_state
    (λ _ st', ∃ p vn, let ds' := [(16, lhd0_kd)] ++ [(p, MkKnowndev null_name (Some (null_name ++ raw)) 300 vn 0)] in
       vrep false false ds' 0 0 ∅ ∅ ∅ st' ∧
       resolve (null_name ++ raw) ds'.*2 = inl vn ∧ resolve null_name ds'.*2 = inr ENXIO ∧
       ∀ n, resolve n [lhd0_kd] ≠ inr ENODEV → resolve n ds'.*2 = resolve n [lhd0_kd])
    (λ e st', (e = ENOMEM ∨ e = EEXIST ∧ clash [(16, lhd0_kd)] (Some null_name) (Some (null_name ++ raw)) None = true) ∧
       ∃ L, vrep false false [(16, lhd0_kd)] 0 0 (∅ ⊎ L) ∅ ∅ st').
Proof.
  apply (vfs_adddev_spec [(16, lhd0_kd)] 0 0 ∅ ∅ ∅ null_name 300 ex_state).
  - exact ex_vrep.
  - done.
  - done.
  - done.
  - done.
Defined.

Lemma vfs_mount_spec_witness :
  wp safe (vfs_mount lhd0 SimpleFs.mount) ex_state
    (λ _ st', ∃ pre p kd post f, let ds' := pre ++ (p, set_fs f kd) :: post in
       [(16, lhd0_kd)] = pre ++ (p, kd) :: post ∧ mount_target lhd0 [lhd0_kd] = Some kd ∧ kd_fs kd = 0 ∧ f ∉ (∅ : gset Z) ∧
       vrep false false ds' 0 0 ∅ ∅ ({[f]} ∪ ∅) st' ∧
       (resolve lhd0 [lhd0_kd] = inr ENXIO → resolve lhd0 ds'.*2 = inl (fs_root f)))
    (λ e st', mount_error [(16, lhd0_kd)] lhd0 SimpleFs.mount e ∧ vrep false false [(16, lhd0_kd)] 0 0 ∅ ∅ ∅ st').
Proof.
  apply (vfs_mount_spec [(16, lhd0_kd)] 0 0 ∅ ∅ ∅ lhd0 SimpleFs.mount ex_state).
  - exact ex_vrep.
  - exact SimpleFs.mount_ok.
Defined.

Lemma vfs_lookup_device_witness :
  wp safe (vfs_lookup (lhd0 ++ raw ++ [colon; slash])) ex_state
    (λ v st', inl 100 = (inl v : Z + Z) ∧ vrep false false [(16, lhd0_kd)] 0 0 (∅ ⊎ {[+ v +]}) ∅ ∅ st')
    (λ e st', inl 100 = (inr e : Z + Z) ∧ vrep false false [(16, lhd0_kd)] 0 0 ∅ ∅ ∅ st').
Proof.
  apply (vfs_lookup_device [(16, lhd0_kd)] 0 0 ∅ ∅ ∅ (lhd0 ++ raw) 1 ex_state).
  - done.
  - repeat (apply list.Forall_cons; split; [done|]). apply list.Forall_nil_2.
  - exact ex_vrep.
Defined.

Lemma vfs_setbootfs_colon_witness :
  wp safe (vfs_setbootfs (lhd0 ++ [colon])) ex_state (λ _ _, False)
    (λ e st', e = EINVAL ∧ vrep false false [(16, lhd0_kd)] 0 0 ∅ ∅ ∅ st').
Proof.
  apply (vfs_setbootfs_colon [(16, lhd0_kd)] 0 0 ∅ ∅ ∅ (lhd0 ++ [colon]) ex_state).
  - apply list_elem_of_In. cbn. tauto.
  - exact ex_vrep.
Defined.
