(* ===== verification/Device.v ===== *)
(** Devices as files (fs/vfs/device.c) and the null device (fs/vfs/devnull.c). The functions of
    a device are fields of its structure, and run on the machine [S] the device is part of;
    a transfer also has its [struct uio] in the state, so a transfer that fails half way keeps
    what it changed. [d_data] is what these functions close over. *)

From Stdlib Require Import ZArith Lia.
From stdpp Require Import base list gmap numbers.
From S2P Require Import Prelude CopyInOut Uio.

Local Open Scope Z_scope.

Record device (S : Type) := MkDevice {
  d_open : Z → M S ();
  d_close : M S ();
  d_io : M (S * uio) ();
  d_ioctl : Z → Z → M S ();
  d_blocks : Z;
  d_blocksize : Z;
}.
Arguments MkDevice {S}.
Arguments d_open {S}.
Arguments d_close {S}.
Arguments d_io {S}.
Arguments d_ioctl {S}.
Arguments d_blocks {S}.
Arguments d_blocksize {S}.

Definition O_CREAT : Z := 4.
Definition O_EXCL : Z := 8.
Definition O_TRUNC : Z := 16.
Definition O_APPEND : Z := 32.
Definition S_IFCHR : Z := 0x4000.
Definition S_IFBLK : Z := 0x5000.

Record stat := MkStat {
  st_mode : Z;
  st_nlink : Z;
  st_size : Z;
  st_blocks : Z;
}.

(** A pathname or a name in it, as the list of its characters. *)
Notation path := (list Z).

(** The function table of a vnode, without the magic number. *)
Record vnode_ops (S : Type) := MkOps {
  vop_open : Z → M S ();
  vop_close : M S ();
  vop_reclaim : M S ();
  vop_read : M (S * uio) ();
  vop_readlink : M (S * uio) ();
  vop_getdirentry : M (S * uio) ();
  vop_write : M (S * uio) ();
  vop_ioctl : Z → Z → M S ();
  vop_stat : M S stat;
  vop_gettype : M S Z;
  vop_tryseek : Z → M S ();
  vop_fsync : M S ();
  vop_mmap : M S ();
  vop_truncate : Z → M S ();
  vop_namefile : M (S * uio) ();
  vop_creat : path → bool → M S Z;
  vop_symlink : path → path → M S ();
  vop_mkdir : path → M S ();
  vop_link : path → Z → M S ();
  vop_remove : path → M S ();
  vop_rmdir : path → M S ();
  vop_rename : path → Z → path → M S ();
  vop_lookup : path → M S Z;
  vop_lookparent : path → Z → M S (Z * path);
}.
Arguments MkOps {S}.

Section ops.
Context {S : Type} (d : device S).
(** [VOP_INCREF], and the device's own vnode. *)
Context (incref : Z → M S ()) (self : Z).

Definition dev_open (flags : Z) : M S () :=
  if negb (Z.land flags (Z.lor (Z.lor (Z.lor O_CREAT O_TRUNC) O_EXCL) O_APPEND) =? 0) then fail EINVAL
  else d_open d flags.

Definition dev_close : M S () := d_close d.

Definition dev_reclaim : M S () := mret tt.

Definition dev_read : M (S * uio) () :=
  u ← gets snd;
  assert (uio_rw u =? UIO_READ);;
  d_io d.

Definition null_io : M (S * uio) () := fail EINVAL.

Definition dev_write : M (S * uio) () :=
  u ← gets snd;
  assert (uio_rw u =? UIO_WRITE);;
  d_io d.

Definition dev_ioctl (op data : Z) : M S () := d_ioctl d op data.

Definition dev_gettype : M S Z := mret (if 0 <? d_blocks d then S_IFBLK else S_IFCHR).

Definition dev_stat : M S stat :=
  mode ← dev_gettype;
  mret (MkStat mode 1
    (if 0 <? d_blocks d then s32 (u32 (d_blocks d * d_blocksize d)) else 0) (d_blocks d)).

(** [pos] is signed and [d_blocksize] unsigned: the remainder and the quotient are those of
    [pos] as an unsigned number, the comparison with 0 that of the signed one. *)
Definition dev_tryseek (pos : Z) : M S () :=
  if 0 <? d_blocks d then
    if d_blocksize d =? 0 then undefined
    else if negb (u32 pos `mod` d_blocksize d =? 0) then fail EINVAL
    else if pos <? 0 then fail EINVAL
    else if d_blocks d <=? u32 pos / d_blocksize d then fail EINVAL
    else mret tt
  else fail ESPIPE.

Definition null_fsync : M S () := mret tt.

Definition dev_mmap : M S () := fail EUNIMP.

Definition dev_truncate (len : Z) : M S () :=
  if (0 <? d_blocks d) && (s32 (u32 (d_blocks d * d_blocksize d)) =? len) then mret tt
  else fail EINVAL.

Definition dev_namefile : M (S * uio) () := mret tt.

Definition null_creat (name : path) (excl : bool) : M S Z := fail ENOTDIR.
Definition null_symlink (contents name : path) : M S () := fail ENOTDIR.
Definition null_nameop (name : path) : M S () := fail ENOTDIR.
Definition null_link (name : path) (file : Z) : M S () := fail ENOTDIR.
Definition null_rename (n1 : path) (v2 : Z) (n2 : path) : M S () := fail ENOTDIR.

Definition dev_lookup (pathname : path) : M S Z :=
  if 0 <? Z.of_nat (length pathname) then fail ENOENT else
  incref self;;
  mret self.

Definition dev_lookparent (pathname : path) (buflen : Z) : M S (Z * path) := fail ENOTDIR.

Definition dev_vnode_ops : vnode_ops S :=
  MkOps dev_open dev_close dev_reclaim dev_read null_io null_io dev_write dev_ioctl dev_stat
    dev_gettype dev_tryseek null_fsync dev_mmap dev_truncate dev_namefile null_creat
    null_symlink null_nameop null_link null_nameop null_nameop null_rename dev_lookup
    dev_lookparent.
End ops.

(** ** The null device *)
Section null.
Context {S : Type}.

Definition nullopen (openflags : Z) : M S () := mret tt.
Definition nullclose : M S () := mret tt.
Definition nullio : M (S * uio) () :=
  u ← gets snd;
  when (uio_rw u =? UIO_WRITE) (modify (λ s, (s.1,
    MkUio (uio_iovec s.2) (uio_offset s.2) 0 (uio_segflg s.2) (uio_rw s.2) (uio_space s.2)))).
Definition nullioctl (op data : Z) : M S () := fail EINVAL.

Definition null_device : device S := MkDevice nullopen nullclose nullio nullioctl 0 1.
End null.

(** ** Theorems *)

(** On a block device a seek succeeds exactly at the block boundaries within the device and
    is refused with EINVAL elsewhere, for every offset, negative ones included; on a stream
    device it is refused with ESPIPE; it never changes anything. *)
Theorem dev_tryseek_spec {S} (d : device S) (pos : Z) (s : S) :
  is_u32 (d_blocks d) → 0 < d_blocksize d < 2 ^ 32 → - 2 ^ 31 ≤ pos < 2 ^ 31 →
  (d_blocks d = 0 → dev_tryseek d pos s = Err ESPIPE s) ∧
  (0 < d_blocks d → (∃ b, pos = b * d_blocksize d ∧ 0 ≤ b < d_blocks d) →
     dev_tryseek d pos s = Ret tt s) ∧
  (0 < d_blocks d → ¬ (∃ b, pos = b * d_blocksize d ∧ 0 ≤ b < d_blocks d) →
     dev_tryseek d pos s = Err EINVAL s).
Proof.
  intros Hb Hz Hp. unfold is_u32 in Hb. unfold dev_tryseek.
  rewrite (proj2 (Z.eqb_neq (d_blocksize d) 0)) by lia. split_and!.
  - intros ->. done.
  - intros H (b & -> & Hr). rewrite (proj2 (Z.ltb_lt 0 _)), u32_small by nia.
    rewrite Z.mod_mul, Z.div_mul by lia. cbn.
    rewrite (proj2 (Z.ltb_ge _ 0)), (proj2 (Z.leb_gt _ _)) by nia. done.
  - intros H Hn. rewrite (proj2 (Z.ltb_lt 0 _)) by lia.
    destruct (Z.eqb_spec (u32 pos `mod` d_blocksize d) 0) as [E|]; [|done]. cbn.
    destruct (Z.ltb_spec pos 0); [done|]. rewrite u32_small in * by lia.
    destruct (Z.leb_spec (d_blocks d) (pos / d_blocksize d)); [done|].
    destruct Hn. exists (pos / d_blocksize d). split; [|split; [apply Z.div_pos; lia|done]].
    pose proof (Z.div_mod pos (d_blocksize d)). lia.
Qed.

(** A 4 KB disk of 512-byte sectors: its last sector can be reached. *)
Lemma dev_tryseek_spec_witness :
  dev_tryseek (MkDevice nullopen nullclose nullio nullioctl 8 512) 3584 tt = Ret tt tt.
Proof.
  refine (proj1 (proj2 (dev_tryseek_spec (MkDevice nullopen nullclose nullio nullioctl 8 512)
    3584 tt _ _ _)) _ _); cbn; unfold is_u32; try lia.
  exists 7. lia.
Defined.

(** The length that [dev_stat] reports is the one that [dev_truncate] accepts. *)
Lemma dev_truncate_stat {S} (d : device S) (len : Z) (s : S) :
  0 < d_blocks d →
  ∃ st, dev_stat d s = Ret st s ∧
    dev_truncate d len s = (if len =? st_size st then Ret tt s else Err EINVAL s).
Proof.
  intros H. eexists. split; [done|]. unfold dev_truncate. cbn.
  rewrite (proj2 (Z.ltb_lt 0 _)) by done. cbn.
  rewrite Z.eqb_sym. destruct (len =? _); done.
Qed.

(** The null device through the table of a device vnode: reading is an immediate end of file,
    writing takes all of the data, seeking and truncating are refused. *)
Lemma null_device_io {S} (incref : Z → M S ()) (self : Z) (s : S) (u : uio) :
  let v := dev_vnode_ops null_device incref self in
  (uio_rw u = UIO_READ → vop_read _ v (s, u) = Ret tt (s, u)) ∧
  (uio_rw u = UIO_WRITE → ∃ u', vop_write _ v (s, u) = Ret tt (s, u') ∧ uio_resid u' = 0 ∧
     uio_iovec u' = uio_iovec u ∧ uio_offset u' = uio_offset u) ∧
  (∀ pos, vop_tryseek _ v pos s = Err ESPIPE s) ∧
  (∀ len, vop_truncate _ v len s = Err EINVAL s).
Proof.
  split_and!; [intros E|intros E|done|done]; destruct u; cbn in E; subst; [done|].
  by eexists.
Qed.
