(* ===== verification/Args.v ===== *)
(** * The arguments of a program

    Model of [copyArgsOut] of kern/userprog/runprogram.c (with OPT_A2), which puts the
    arguments of the first program on its stack: the array of pointers, and behind it the
    strings. The state is the kernel heap and the memory of CopyInOut.v. [argv] is the array
    [src]; [nullPtr_at] is the address of the local [nullPtr]. Overflow of an [int] is
    undefined, as is the use of [ptr] when [kmalloc] has failed. *)

From Stdlib Require Import ZArith Lia.
From stdpp Require Import base list gmap numbers.
From S2P Require Import Prelude KMem CopyInOut SfsData Libc LibcStr.

Local Open Scope Z_scope.

Definition sizeof_int : Z := 4.
Definition sizeof_charp : Z := 4.

Section operations.
Context `{!KHeap H} (user_write : Z → bool) (fuel : nat) (nullPtr_at : Z).
Notation MA := (M (H * copystate)).

Definition on_copy {A} (p : M copystate A) : MA A := zoom snd (λ c s, (s.1, c)) p.
(** The C library, on the bytes of the memory *)
Definition on_bytes {A} (p : M mem A) : MA A :=
  on_copy (zoom bytes (λ m c, MkCopy m (badfaultfunc c)) p).

Definition int_value (z : Z) : MA Z := if (- 2 ^ 31 <=? z) && (z <? 2 ^ 31) then mret z else undefined.

(** [*p = w] *)
Definition store_int (p w : Z) : MA () := if p =? 0 then undefined else on_bytes (stw p w).

Definition ceilTo4 (value : Z) : MA Z := int_value (value + (4 - Z.rem value 4)).

(** [strlen], as an [int] *)
Definition int_strlen (p : Z) : MA Z := n ← on_bytes (strlen fuel p); mret (s32 n).

(** The first loop: the size of the strings *)
Fixpoint args_size (src : list Z) (ixs : list Z) (argSize : Z) : MA Z :=
  match ixs with
  | [] => mret argSize
  | i :: ixs =>
    p ← the (zlookup src i);
    if p =? 0 then args_size src ixs argSize else
    n ← int_strlen p;
    len ← ceilTo4 n;
    argSize ← int_value (argSize + len);
    args_size src ixs argSize
  end.

(** [if (error) { kfree(ptr); return error; }] *)
Definition or_free {A} (ptr : Z) (p : MA A) : MA () :=
  r ← try p;
  match r with
  | inl _ => mret tt
  | inr e => on_heap (kfree ptr);; fail e
  end.

(** The second loop: each string and the pointer to it *)
Fixpoint copy_args (src : list Z) (dst argc totalSize ptrSize ptr : Z) (ixs : list Z) (argSize : Z) : MA () :=
  match ixs with
  | [] => mret tt
  | i :: ixs =>
    p ← (if i <? argc then the (zlookup src i) else mret 0);
    if negb (p =? 0) then
      len ← int_strlen p;
      padlen ← ceilTo4 len;
      a ← int_value (s32 dst - totalSize);
      a ← int_value (a + ptrSize);
      a ← int_value (a + argSize);
      store_int ptr (u32 a);;
      n ← int_value (len + 1);
      or_free ptr (on_copy (copyoutstr user_write p (u32 a) (u32 n)));;
      or_free ptr (on_copy (copyout user_write ptr (u32 (dst - totalSize + i * 4)) 4));;
      argSize ← int_value (argSize + padlen);
      copy_args src dst argc totalSize ptrSize ptr ixs argSize
    else
      or_free ptr (on_copy (copyout user_write nullPtr_at (u32 (dst - totalSize + i * 4)) 4));;
      copy_args src dst argc totalSize ptrSize ptr ixs argSize
  end.

(** The result is [*offset]. *)
Definition copyArgsOut (src : list Z) (dst argc : Z) : MA Z :=
  let ptrSize := s32 (u32 (sizeof_charp * u32 (argc + 1))) in
  store_int nullPtr_at 0;;
  ptr ← on_heap (kmalloc sizeof_int);
  argSize ← args_size src (seqZ 0 argc) 0;
  totalSize ← int_value (ptrSize + argSize);
  copy_args src dst argc totalSize ptrSize ptr (seqZ 0 (argc + 1)) 0;;
  on_heap (kfree ptr);;
  mret totalSize.
End operations.

(** ** The layout *)

Definition word_at (m : mem) (a : Z) : Z := word32 (m a) (m (a + 1)) (m (a + 2)) (m (a + 3)).

(** The place of a string: its characters and a zero, up to the next multiple of four *)
Definition pad (s : list Z) : Z := Z.of_nat (length s) + (4 - Z.of_nat (length s) `mod` 4).
Definition strings_size (strs : list (list Z)) : Z := foldr (λ s n, pad s + n) 0 strs.
Definition args_total (strs : list (list Z)) : Z := 4 * (Z.of_nat (length strs) + 1) + strings_size strs.

(** An array of pointers at [a], ended by a null pointer, to the strings, which are one
    behind the other from [b] on *)
Fixpoint argv_at (m : mem) (a b : Z) (strs : list (list Z)) : Prop :=
  match strs with
  | [] => word_at m a = 0
  | s :: strs => word_at m a = b ∧ cstr m b s ∧ argv_at m (a + 4) (b + pad s) strs
  end.

(** A string in kernel memory that is in use *)
Definition arg_ok (K : Z → Prop) (m : mem) (p : Z) (s : list Z) : Prop :=
  p ≠ 0 ∧ cstr m p s ∧ kernel_range p (Z.of_nat (length s) + 1) ∧
  ∀ x, p ≤ x ≤ p + Z.of_nat (length s) → K x.

(** Only the bytes of [P] have changed. *)
Definition only (P : Z → Prop) (c c' : copystate) : Prop :=
  badfaultfunc c' = false ∧ ∀ x, ¬ P x → bytes c' x = bytes c x.

Lemma only_trans (P P' P'' : Z → Prop) c c' c'' :
  only P c c' → only P' c' c'' → (∀ x, P x ∨ P' x → P'' x) → only P'' c c''.
Proof. intros [_ H1] [Hb H2] HP. split; [done|]. intros x Hx. rewrite H2, H1; [done|intros H..]; apply Hx, HP; auto. Qed.

Lemma pad_range s : Z.of_nat (length s) + 1 ≤ pad s ≤ Z.of_nat (length s) + 4.
Proof. unfold pad. pose proof (Z.mod_pos_bound (Z.of_nat (length s)) 4). lia. Qed.

Lemma strings_size_nonneg strs : 0 ≤ strings_size strs.
Proof. induction strs as [|s strs IH]; cbn [strings_size foldr]; [lia|]. pose proof (pad_range s). unfold strings_size in IH. lia. Qed.

Lemma word_at_ext m m' a : (∀ x, a ≤ x < a + 4 → m' x = m x) → word_at m' a = word_at m a.
Proof. intros Hx. unfold word_at. by rewrite !Hx by lia. Qed.

Lemma arg_ok_only (K P : Z → Prop) c c' p s :
  only P c c' → (∀ x, P x → ¬ K x) → arg_ok K (bytes c) p s → arg_ok K (bytes c') p s.
Proof.
  intros [_ Ho] HP (Hp & Hc & Hk & HK). split; [done|]. split; [|done]. eapply cstr_ext; [done|].
  intros x Hx. apply Ho. intros H%HP. by apply H, HK.
Qed.

Section proofs.
Context `{HL : KHeapLaws H} (user_write : Z → bool) (fuel : nat) (nullPtr_at : Z).
Notation SA := (H * copystate)%type.
Implicit Types (h : H) (c : copystate) (strs : list (list Z)).

Definition block4 (a x : Z) : Prop := a ≤ x < a + 4.

Lemma int_value_ok z (st : SA) (Q : Z → SA → Prop) E :
  - 2 ^ 31 ≤ z < 2 ^ 31 → Q z st → wp safe (int_value z) st Q E.
Proof.
  intros Hz HQ. unfold int_value. rewrite (proj2 (Z.leb_le _ _)), (proj2 (Z.ltb_lt _ _)) by lia. by wp_steps.
Qed.

Lemma ceilTo4_ok s (st : SA) (Q : Z → SA → Prop) E :
  Z.of_nat (length s) < 2 ^ 31 - 4 → Q (pad s) st → wp safe (ceilTo4 (Z.of_nat (length s))) st Q E.
Proof.
  intros Hs HQ. pose proof (pad_range s). unfold ceilTo4. rewrite Z.rem_mod_nonneg by lia. by apply int_value_ok; [unfold pad in *; lia|].
Qed.

Lemma int_strlen_ok h c p s (Q : Z → SA → Prop) E :
  cstr (bytes c) p s → (length s < fuel)%nat → Z.of_nat (length s) < 2 ^ 31 → Q (Z.of_nat (length s)) (h, c) →
  wp safe (int_strlen fuel p) (h, c) Q E.
Proof.
  intros Hc Hf Hl HQ. unfold int_strlen, on_bytes, on_copy. wp_steps. cbn [snd]. apply (strlen_ok fuel p s); [done|done|lia|].
  cbn [fst snd]. wp_steps. rewrite s32_small by lia. by destruct c.
Qed.

Lemma store_int_ok h c p w (Q : () → SA → Prop) E :
  p ≠ 0 → is_u32 w → badfaultfunc c = false →
  (∀ c', only (block4 p) c c' → word_at (bytes c') p = w → Q tt (h, c')) → wp safe (store_int p w) (h, c) Q E.
Proof.
  intros Hp Hw Hb HQ. unfold store_int, on_bytes, on_copy, stw. destruct (Z.eqb_spec p 0); [done|]. wp_steps. cbn [fst snd]. apply HQ.
  - split; [done|]. intros x Hx. cbn [bytes]. unfold block4 in Hx.
    destruct (Z.leb_spec p x), (Z.ltb_spec x (p + 4)); cbn [andb]; try done. lia.
  - unfold word_at. cbn [bytes].
    rewrite !(proj2 (Z.leb_le _ _)) by lia. rewrite !(proj2 (Z.ltb_lt _ _)) by lia. cbn [andb].
    replace (p - p) with 0 by lia. replace (p + 1 - p) with 1 by lia. replace (p + 2 - p) with 2 by lia.
    replace (p + 3 - p) with 3 by lia. cbn. by apply word32_be32.
Qed.

(** A byte of the stack that cannot be written *)
Definition unwritable (lo hi : Z) : Prop := ∃ x, lo ≤ x < hi ∧ user_write x = false.

Lemma forallb_seqZ_false a n : forallb user_write (seqZ a n) = false → unwritable a (a + n).
Proof.
  intros Hf. apply not_true_iff_false in Hf. rewrite forallb_forall in Hf.
  destruct (decide (Exists (λ x, user_write x = false) (seqZ a n))) as [He|He].
  - apply list.Exists_exists in He as (x & Hx & Hw). apply elem_of_seqZ in Hx. exists x. split; [lia|done].
  - destruct Hf. intros x Hx. destruct (user_write x) eqn:Hw; [done|]. destruct He. apply list.Exists_exists. exists x.
    split; [by apply list_elem_of_In|done].
Qed.

(** [kfree] of a block or of NULL *)
Lemma kfree_or_null F h m c ptr (Q : () → SA → Prop) E :
  heap_owns h m → ptr = 0 ∨ is_Some (m !! ptr) → (∀ h', heap_owns h' (delete ptr m) → Q tt (h', c)) →
  wp F (on_heap (kfree ptr)) (h, c) Q E.
Proof.
  intros Hh [->|Hp] HQ; [|by eapply wp_kfree]. apply wp_zoom. apply wp_faults with safe; [|done].
  eapply wp_mono; [apply kfree_null| |done]. intros [] h' ->. apply HQ. rewrite delete_id; [done|by eapply heap_owns_null].
Qed.

(** [copyout] of a word, with the error path of its caller *)
Lemma copyout_word_ok h m c ptr src dest lo hi (Q : () → SA → Prop) (E : Z → SA → Prop) :
  heap_owns h m → ptr = 0 ∨ is_Some (m !! ptr) → badfaultfunc c = false → kernel_range src 4 →
  0 ≤ lo ≤ dest → dest + 4 ≤ hi → hi ≤ USERTOP →
  (∀ c', only (block4 dest) c c' → word_at (bytes c') dest = word_at (bytes c) src → Q tt (h, c')) →
  (∀ h' c', unwritable lo hi → heap_owns h' (delete ptr m) → only (λ x, lo ≤ x < hi) c c' → E EFAULT (h', c')) →
  wp safe (or_free ptr (on_copy (copyout user_write src dest 4))) (h, c) Q E.
Proof.
  intros Hh Hp Hb Hk Hlo Hd Hhi HQ HE. unfold or_free, on_copy. wp_steps. cbn [snd].
  eapply wp_mono; [apply copyout_ok; [unfold is_u32, USERTOP, MIPS_KSEG0 in *; lia|done|done|done|done]| |].
  - intros [] c' [(Hb' & _ & _ & Ho & Hc) _]. wp_steps. apply HQ.
    + split; [done|]. intros x Hx. apply Ho. exact Hx.
    + unfold word_at. rewrite <- (Z.add_0_r dest) at 1. rewrite !Hc by lia. by rewrite Z.add_0_r.
  - intros e c' [(-> & Hb' & [[? _]|(_ & Hf & Ho)]) _]; [lia|]. wp_steps. cbn [fst snd]. eapply kfree_or_null; [done|done|]. intros h' Hh'. wp_steps.
    apply HE; [|done|].
    + destruct (forallb_seqZ_false _ _ Hf) as (x & Hx & Hw). exists x. split; [lia|done].
    + split; [done|]. intros x Hx. apply Ho. lia.
Qed.

Lemma copyoutstr_ok' h m c ptr p s dest lo hi (Q : () → SA → Prop) (E : Z → SA → Prop) :
  heap_owns h m → is_Some (m !! ptr) → badfaultfunc c = false → cstr (bytes c) p s →
  kernel_range p (Z.of_nat (length s) + 1) → 0 ≤ lo ≤ dest → dest + Z.of_nat (length s) + 1 ≤ hi → hi ≤ USERTOP →
  (∀ c', only (λ x, dest ≤ x < dest + Z.of_nat (length s) + 1) c c' → cstr (bytes c') dest s → Q tt (h, c')) →
  (∀ h' c', unwritable lo hi → heap_owns h' (delete ptr m) → only (λ x, lo ≤ x < hi) c c' → E EFAULT (h', c')) →
  wp safe (or_free ptr (on_copy (copyoutstr user_write p dest (Z.of_nat (length s) + 1)))) (h, c) Q E.
Proof.
  intros Hh Hp Hb Hs Hk Hlo Hd Hhi HQ HE. unfold or_free, on_copy. wp_steps. cbn [snd].
  assert (∀ j, 0 ≤ j < Z.of_nat (length s) → bytes c (p + j) ≠ 0) as Hnz.
  { intros j Hj. destruct (lookup_lt_is_Some_2 s (Z.to_nat j)) as [ch Hch]; [lia|].
    destruct (cstr_lookup _ _ _ _ _ Hs Hch) as [Hm Hc]. rewrite Z2Nat.id in Hm by lia. rewrite Hm. unfold is_char in Hc. lia. }
  pose proof (cstr_end _ _ _ Hs) as Hend.
  eapply wp_mono; [apply copyoutstr_ok; unfold is_u32, USERTOP, MIPS_KSEG0 in *; try done; lia| |].
  - intros n c' (Hb' & Hn & _ & (_ & Hz & _) & Ho & Hc). wp_steps.
    assert (n = Z.of_nat (length s) + 1) as ->.
    { destruct (decide (n - 1 < Z.of_nat (length s))); [|lia]. destruct (Hnz (n - 1)); [lia|done]. }
    apply HQ; [split; [done|]; intros x Hx; apply Ho; lia|].
    eapply cstr_moved; [exact Hs|]. intros k Hk'. apply Hc. lia.
  - intros e c' (Hb' & Ho & Hcase). wp_steps.
    destruct Hcase as [(_ & _ & Hn)|[(_ & ? & _)|(-> & k & Hkr & Hw & _)]];
      [destruct (Hn (Z.of_nat (length s))); [lia|done]|unfold USERTOP, MIPS_KSEG0 in *; lia|].
    cbn [fst snd]. eapply wp_kfree; [done|done|]. intros h' Hh'. wp_steps.
    apply HE; [|done|split; [done|]; intros x Hx; apply Ho; lia].
    exists (dest + k). split; [lia|]. destruct Hw; [lia|done].
Qed.


Section loops.
Context (K : Z → Prop) (HK : ∀ x, K x → USERTOP ≤ x).

Definition short (s : list Z) : Prop := (length s < fuel)%nat.

Lemma args_size_ok h c ps : ∀ strs pre acc (Q : Z → SA → Prop) E,
  Forall2 (arg_ok K (bytes c)) ps strs → Forall short strs → 0 ≤ acc → acc + strings_size strs < 2 ^ 31 - 4 →
  Q (acc + strings_size strs) (h, c) →
  wp safe (args_size fuel (pre ++ ps) (seqZ (Z.of_nat (length pre)) (Z.of_nat (length ps))) acc) (h, c) Q E.
Proof.
  induction ps as [|p ps IH]; intros strs pre acc Q E Hps Hsh Ha Hsz HQ.
  { apply list.Forall2_nil_inv_l in Hps as ->. cbn. wp_steps. cbn in HQ. by rewrite Z.add_0_r in HQ. }
  apply list.Forall2_cons_inv_l in Hps as (s & rest & Harg & Hps & ->). apply list.Forall_cons in Hsh as [Hs Hsh].
  destruct Harg as (Hp & Hc & Hk & _). cbn [strings_size foldr] in Hsz, HQ. fold (strings_size rest) in Hsz, HQ.
  pose proof (strings_size_nonneg rest). pose proof (pad_range s).
  rewrite seqZ_cons by (cbn [length]; lia). cbn [args_size].
  wp_the p by (unfold zlookup; rewrite (proj2 (Z.leb_le _ _)), Nat2Z.id by lia; by apply list_lookup_middle).
  destruct (Z.eqb_spec p 0); [done|]. wp_steps. apply (int_strlen_ok h c p s); [done|done|lia|]. wp_steps.
  apply ceilTo4_ok; [lia|]. wp_steps. apply int_value_ok; [lia|].
  replace (Z.succ (Z.of_nat (length pre))) with (Z.of_nat (length (pre ++ [p]))) by (rewrite length_app; cbn [length]; lia).
  replace (Z.pred (Z.of_nat (length (p :: ps)))) with (Z.of_nat (length ps)) by (cbn [length]; lia).
  replace (pre ++ p :: ps) with ((pre ++ [p]) ++ ps) by (by rewrite <- (assoc_L (++))).
  apply (IH rest); [done|done|lia|lia|]. by rewrite <- Z.add_assoc.
Qed.

Context (dst total ptrSize ptr : Z) (argc : Z) (m : gmap Z Z).
Notation base := (dst - total).
Context (Hptr : is_Some (m !! ptr)) (Hptr0 : ptr ≠ 0) (Hpk : kernel_range ptr 4) (HpK : ∀ x, block4 ptr x → ¬ K x).
Context (Hnk : kernel_range nullPtr_at 4) (HnK : ∀ x, block4 nullPtr_at x → K x).
Context (Hdst : dst < 2 ^ 31) (Hbase : 0 ≤ base) (Hps : ptrSize = 4 * (argc + 1)) (Hargc : 0 ≤ argc) (Htot : ptrSize ≤ total).

(** The part of the stack that the rest of the loop writes, and [*ptr] *)
Definition rest_area (i sp n x : Z) : Prop :=
  base + 4 * i ≤ x < base + ptrSize ∨ sp ≤ x < sp + n ∨ block4 ptr x.

Lemma copy_args_ok h ps : ∀ c strs pre argSize (Q : () → SA → Prop) (E : Z → SA → Prop),
  let i := Z.of_nat (length pre) in
  let sp := base + ptrSize + argSize in
  heap_owns h m → argc = Z.of_nat (length (pre ++ ps)) → badfaultfunc c = false →
  Forall2 (arg_ok K (bytes c)) ps strs → Forall short strs → word_at (bytes c) nullPtr_at = 0 →
  0 ≤ argSize → ptrSize + argSize + strings_size strs ≤ total →
  (∀ c', only (rest_area i sp (strings_size strs)) c c' → argv_at (bytes c') (base + 4 * i) sp strs → Q tt (h, c')) →
  (∀ h' c', unwritable base dst → heap_owns h' (delete ptr m) → only (λ x, base ≤ x < dst ∨ block4 ptr x) c c' →
     E EFAULT (h', c')) →
  wp safe (copy_args user_write fuel nullPtr_at (pre ++ ps) dst argc total ptrSize ptr (seqZ i (argc + 1 - i)) argSize) (h, c) Q E.
Proof.
  induction ps as [|p ps IH]; intros c strs pre argSize Q E i sp Hh Ha Hb Harg Hsh Hnull Has Hsz HQ HE.
  { apply list.Forall2_nil_inv_l in Harg as ->. rewrite app_nil_r in *. replace (argc + 1 - i) with 1 by lia. cbn [seqZ copy_args].
    rewrite seqZ_cons by lia. cbn [copy_args]. destruct (Z.ltb_spec i argc); [lia|]. wp_steps. cbn [Z.eqb negb].
    rewrite u32_small by (unfold USERTOP, MIPS_KSEG0 in *; lia). wp_steps.
    eapply (copyout_word_ok h m c ptr nullPtr_at _ base dst); try done; [by right|lia|lia|unfold USERTOP, MIPS_KSEG0; lia| |].
    - intros c' Ho Hw. wp_steps. apply HQ.
      + destruct Ho as [Hb' Ho]. split; [done|]. intros x Hx. apply Ho. intros Hx'. apply Hx. left. unfold block4 in Hx'. lia.
      + cbn [argv_at]. replace (base + 4 * i) with (base + i * 4) by lia. by rewrite Hw.
    - intros h' c' Hu Hh' [Hb' Ho]. apply HE; [done|done|]. split; [done|]. intros x Hx. apply Ho. tauto. }
  apply list.Forall2_cons_inv_l in Harg as (s & rest & Hp & Harg & ->). apply list.Forall_cons in Hsh as [Hs Hsh].
  pose proof Hp as (Hp0 & Hc & Hk & _). cbn [strings_size foldr] in Hsz, HQ. fold (strings_size rest) in Hsz, HQ.
  pose proof (strings_size_nonneg rest) as Hnn. pose proof (pad_range s) as Hpad. rewrite length_app in Ha. cbn [length] in Ha.
  assert (USERTOP = 2 ^ 31) as Htop by done.
  rewrite seqZ_cons by lia. cbn [copy_args]. destruct (Z.ltb_spec i argc); [|lia].
  wp_the p by (unfold zlookup; rewrite (proj2 (Z.leb_le _ _)) by lia; unfold i; rewrite Nat2Z.id; by apply list_lookup_middle).
  destruct (Z.eqb_spec p 0); [done|]. cbn [negb]. wp_steps. apply (int_strlen_ok h c p s); [done|done|lia|]. wp_steps.
  apply ceilTo4_ok; [lia|]. wp_steps. rewrite (s32_small dst) by lia. apply int_value_ok; [lia|]. wp_steps.
  apply int_value_ok; [lia|]. wp_steps. apply int_value_ok; [lia|]. wp_steps. fold sp. rewrite (u32_small sp) by lia.
  apply store_int_ok; [done|unfold is_u32; lia|done|]. intros c1 Ho1 Hw1. wp_steps. apply int_value_ok; [lia|]. wp_steps.
  rewrite (u32_small (_ + 1)) by lia.
  assert (∀ c', only (λ x, base ≤ x < dst) c1 c' → only (λ x, base ≤ x < dst ∨ block4 ptr x) c c') as Hfail1.
  { intros c' Ho. eapply only_trans; [exact Ho1|exact Ho|]. tauto. }
  pose proof (arg_ok_only K _ _ _ _ _ Ho1 HpK Hp) as (_ & Hc1 & _).
  eapply (copyoutstr_ok' h m c1 ptr p s sp base dst); try done; [apply Ho1|lia|lia|lia| |by intros h' c' Hu Hh' Ho; apply HE; auto].
  intros c2 Ho2 Hs2. wp_steps. rewrite (u32_small (base + i * 4)) by lia.
  assert (word_at (bytes c2) ptr = sp) as Hw2.
  { rewrite <- Hw1. apply word_at_ext. intros x Hx. apply Ho2. unfold kernel_range in Hpk. lia. }
  eapply (copyout_word_ok h m c2 ptr ptr _ base dst); try done; [by right|apply Ho2|lia|lia|lia| |].
  2: { intros h' c' Hu Hh' Ho. apply HE; [done|done|]. apply Hfail1. eapply only_trans; [exact Ho2|exact Ho|]. intros x. cbn. lia. }
  intros c3 Ho3 Hw3. wp_steps. apply int_value_ok; [lia|].
  assert (only (λ x, block4 ptr x ∨ sp ≤ x < sp + Z.of_nat (length s) + 1 ∨ block4 (base + i * 4) x) c c3) as Ho.
  { eapply only_trans; [exact Ho1|eapply only_trans; [exact Ho2|exact Ho3|intros x Hx; exact Hx]|]. intros x. cbn. tauto. }
  assert (∀ x, block4 ptr x ∨ sp ≤ x < sp + Z.of_nat (length s) + 1 ∨ block4 (base + i * 4) x → ¬ K x) as HP.
  { intros x [Hx|Hx] Hx'; [by apply (HpK x)|]. apply HK in Hx'. unfold block4 in Hx. lia. }
  replace (Z.succ i) with (Z.of_nat (length (pre ++ [p]))) by (rewrite length_app; cbn [length]; lia).
  replace (Z.pred (argc + 1 - i)) with (argc + 1 - Z.of_nat (length (pre ++ [p]))) by (rewrite length_app; cbn [length]; lia).
  replace (pre ++ p :: ps) with ((pre ++ [p]) ++ ps) by (by rewrite <- (assoc_L (++))).
  apply (IH c3 rest).
  - done.
  - rewrite !length_app. cbn [length]. lia.
  - apply Ho.
  - eapply list.Forall2_impl; [exact Harg|]. intros q t. by apply (arg_ok_only K _ _ _ _ _ Ho HP).
  - done.
  - rewrite <- Hnull. apply word_at_ext. intros x Hx. apply Ho. intros Hx'%HP. by apply Hx', HnK.
  - lia.
  - lia.
  - intros c' Ho' Hargv. pose proof (length_app pre [p]) as Hlen. cbn [length] in Hlen. unfold rest_area in Ho'. rewrite Hlen in Ho', Hargv. apply HQ.
    + eapply only_trans; [exact Ho|exact Ho'|]. intros x. unfold rest_area, block4. lia.
    + cbn [argv_at]. split_and!.
      * rewrite (word_at_ext (bytes c3)); [replace (base + 4 * i) with (base + i * 4) by lia; by rewrite Hw3|].
        intros x Hx. apply Ho'. unfold block4, kernel_range in *. lia.
      * eapply cstr_ext; [eapply cstr_ext; [exact Hs2|]|].
        -- intros x Hx. apply Ho3. unfold block4. lia.
        -- intros x Hx. apply Ho'. unfold block4, kernel_range in *. lia.
      * replace (base + 4 * i + 4) with (base + 4 * Z.of_nat (length pre + 1)) by lia.
        by replace (sp + pad s) with (base + ptrSize + (argSize + pad s)) by lia.
  - intros h' c' Hu Hh' Ho'. apply HE; [done|done|]. eapply only_trans; [exact Ho|exact Ho'|]. intros x. unfold block4. lia.
Qed.
End loops.

Lemma arg_ok_mono (K K' : Z → Prop) c p s : (∀ x, K x → K' x) → arg_ok K (bytes c) p s → arg_ok K' (bytes c) p s.
Proof. intros HK (? & ? & ? & Hx). split_and!; try done. auto. Qed.

(** What the call leaves alone: everything but the [n] bytes below [dst] and two words of the
    kernel that are not in use, its local variable and the block it takes from the heap *)
Definition stack_only (K : Z → Prop) (dst n : Z) c c' : Prop :=
  ∃ ptr, only (λ x, dst - n ≤ x < dst ∨ block4 nullPtr_at x ∨ block4 ptr x) c c' ∧ ∀ x, block4 ptr x → ¬ K x.

(** Where the block of [kmalloc] lies, if there is one: in kernel memory, away from what is in
    use and from the local variable *)
Definition kmalloc_int (K : Z → Prop) h : Prop :=
  wp safe_oom (kmalloc sizeof_int) h (λ p _, p = 0 ∨ kernel_range p 4 ∧ ∀ x, block4 p x → ¬ K x ∧ ¬ block4 nullPtr_at x) noerr.

(** [kmalloc] returns NULL. *)
Definition no_block h : Prop := ∃ h', kmalloc sizeof_int h = Ret 0 h'.

Lemma kmalloc_int_ok F K h m c (Q : Z → SA → Prop) E :
  heap_owns h m → kmalloc_int K h → (∀ f, safe_oom f → F f) →
  (∀ h', no_block h → heap_owns h' m → Q 0 (h', c)) →
  (∀ p h', p ≠ 0 → m !! p = None → heap_owns h' (<[p := sizeof_int]> m) → kernel_range p 4 →
     (∀ x, block4 p x → ¬ K x ∧ ¬ block4 nullPtr_at x) → ¬ no_block h → Q p (h', c)) →
  wp F (on_heap (kmalloc sizeof_int)) (h, c) Q E.
Proof.
  intros Hh Hk HF HQ0 HQ. apply wp_zoom. apply wp_faults with safe_oom; [|done].
  eapply wp_mono; [apply wp_run, wp_and; [apply (kmalloc_law h m); [done|done]|exact Hk]| |].
  - intros p h' [[[[-> Hm]|(Hp & Hfr & Hm)] [Hz|[Hr Hx]]] Hrun]; cbn [fst snd]; try done.
    + apply HQ0; [by exists h'|done].
    + apply HQ0; [by exists h'|done].
    + apply HQ; try done. intros [h'' Hno]. cbn in Hrun. rewrite Hrun in Hno. by injection Hno.
  - by intros e h' [[Hc _] _].
Qed.

(** Without a block the first argument is stored through a null pointer. *)
Lemma copy_args_null F K dst total ptrSize h c p s ps strs argc (Q : () → SA → Prop) E :
  F Undefined → arg_ok K (bytes c) p s → short s → argc = Z.of_nat (length (p :: ps)) → dst < 2 ^ 31 →
  0 ≤ dst - total → 8 ≤ ptrSize → ptrSize + strings_size (s :: strs) ≤ total →
  wp F (copy_args user_write fuel nullPtr_at (p :: ps) dst argc total ptrSize 0 (seqZ 0 (argc + 1)) 0) (h, c) Q E.
Proof.
  intros HF (Hp & Hc & _) Hs -> Hd Hb Hp0 Hsz. cbn [length strings_size foldr] in *. fold (strings_size strs) in Hsz.
  pose proof (pad_range s). pose proof (strings_size_nonneg strs).
  rewrite seqZ_cons by lia. cbn [copy_args]. destruct (Z.ltb_spec 0 (Z.of_nat (S (length ps)))); [|lia]. wp_the p by done.
  destruct (Z.eqb_spec p 0); [done|]. cbn [negb]. wp_steps.
  apply wp_faults with safe; [|done]. apply (int_strlen_ok h c p s); [done|done|lia|]. wp_steps.
  apply wp_faults with safe; [|done]. apply ceilTo4_ok; [lia|]. wp_steps. rewrite (s32_small dst) by lia.
  do 3 (apply wp_faults with safe; [|done]; apply int_value_ok; [lia|]; wp_steps).
  unfold store_int. cbn [Z.eqb]. by wp_steps.
Qed.

(** With no arguments the block is not used. *)
Lemma copy_args_none dst h m c (Q : () → SA → Prop) (E : Z → SA → Prop) :
  heap_owns h m → badfaultfunc c = false → kernel_range nullPtr_at 4 → word_at (bytes c) nullPtr_at = 0 → 4 ≤ dst < 2 ^ 31 →
  (∀ c', only (block4 (dst - 4)) c c' → word_at (bytes c') (dst - 4) = 0 → Q tt (h, c')) →
  (∀ h' c', unwritable (dst - 4) dst → heap_owns h' m → only (λ x, dst - 4 ≤ x < dst) c c' → E EFAULT (h', c')) →
  wp safe (copy_args user_write fuel nullPtr_at [] dst 0 4 4 0 (seqZ 0 1) 0) (h, c) Q E.
Proof.
  intros Hh Hb Hnk Hw Hd HQ HE. change (seqZ 0 1) with [0]. cbn [copy_args]. change (0 <? 0) with false. wp_steps. cbn [Z.eqb negb].
  replace (dst - 4 + 0 * 4) with (dst - 4) by lia. rewrite u32_small by lia. wp_steps. assert (USERTOP = 2 ^ 31) as Htop by done.
  eapply (copyout_word_ok h m c 0 nullPtr_at _ (dst - 4) dst); [done|by left|done|done|lia|lia|lia| |].
  - intros c' Ho Hw'. wp_steps. apply HQ; [done|]. by rewrite Hw'.
  - intros h' c' Hu Hh' Ho. apply HE; [done| |done]. rewrite delete_id in Hh'; [done|by eapply heap_owns_null].
Qed.

(** With a block: the loop, the block given back *)
Lemma copy_args_block (K : Z → Prop) dst ptr h m c ps strs (Q : Z → SA → Prop) (E : Z → SA → Prop) :
  let total := args_total strs in
  (∀ x, K x → USERTOP ≤ x) → kernel_range nullPtr_at 4 → (∀ x, block4 nullPtr_at x → K x) →
  ptr ≠ 0 → m !! ptr = None → heap_owns h (<[ptr := sizeof_int]> m) → kernel_range ptr 4 → (∀ x, block4 ptr x → ¬ K x) →
  badfaultfunc c = false → word_at (bytes c) nullPtr_at = 0 → total ≤ dst < 2 ^ 31 →
  Forall2 (arg_ok K (bytes c)) ps strs → Forall short strs →
  (∀ h' c', heap_owns h' m → only (λ x, dst - total ≤ x < dst ∨ block4 ptr x) c c' →
     argv_at (bytes c') (dst - total) (dst - total + 4 * (Z.of_nat (length strs) + 1)) strs → Q total (h', c')) →
  (∀ h' c', unwritable (dst - total) dst → heap_owns h' m → only (λ x, dst - total ≤ x < dst ∨ block4 ptr x) c c' → E EFAULT (h', c')) →
  wp safe (copy_args user_write fuel nullPtr_at ps dst (Z.of_nat (length strs)) total (4 * (Z.of_nat (length strs) + 1)) ptr
             (seqZ 0 (Z.of_nat (length strs) + 1)) 0;;
           on_heap (kfree ptr);; mret total) (h, c) Q E.
Proof.
  intros total HK Hnk HnK Hp0 Hfr Hh Hpk HpK Hb Hw Hd Harg Hsh HQ HE. pose proof (list.Forall2_length _ _ _ Harg) as Hlen.
  pose proof (strings_size_nonneg strs) as Hnn. unfold args_total in total. wp_steps.
  pose proof (copy_args_ok K HK dst total (4 * (Z.of_nat (length strs) + 1)) ptr (Z.of_nat (length strs)) (<[ptr := sizeof_int]> m)) as Hloop.
  specialize (Hloop ltac:(rewrite lookup_insert_eq; by eexists) Hp0 Hpk HpK Hnk HnK ltac:(lia) ltac:(lia) ltac:(done) ltac:(lia) ltac:(lia)).
  specialize (Hloop h ps c strs [] 0). cbn [length app] in Hloop. rewrite Z.sub_0_r in Hloop.
  apply Hloop; try done; [by rewrite Hlen|lia| |].
  - intros c' Ho Hargv. wp_steps. eapply wp_kfree; [exact Hh|rewrite lookup_insert_eq; by eexists|]. intros h' Hh'. wp_steps.
    rewrite delete_insert_id in Hh' by done. apply HQ; [done| |by rewrite Z.mul_0_r, !Z.add_0_r in Hargv].
    destruct Ho as [Hb' Ho]. split; [done|]. intros x Hx. apply Ho. intros Hx'. apply Hx. destruct Hx' as [?|[?|?]]; [left|left|by right]; lia.
  - intros h' c' Hu Hh' Ho. rewrite delete_insert_id in Hh' by done. by apply HE.
Qed.

(** [kmalloc] may return NULL, and then the first argument is stored through a null pointer. *)
Definition args_fault h strs (f : fault) : Prop := safe_oom f ∨ f = Undefined ∧ no_block h ∧ strs ≠ [].

(** C14: Passing arguments: when [copyArgsOut] succeeds, the stack below [dst] has, from
    [dst] minus the offset it returns on, the array of pointers to copies of the strings, in
    their order and ended by a null pointer; it fails only with EFAULT, when a byte of that part
    of the stack cannot be written. Either way nothing else in memory changes but the two
    words it uses itself, and the block it took from the heap has been given back. The strings
    are in kernel memory and fit below [dst]. The result of [kmalloc] is not checked: when
    it is NULL and there is an argument, and only then, the code writes through a null
    pointer; [kmalloc] itself panics when physical memory is exhausted. *)
Theorem copyArgsOut_spec (K : Z → Prop) h m c ps strs dst :
  heap_owns h m → badfaultfunc c = false → kernel_range nullPtr_at 4 →
  (∀ x, K x → USERTOP ≤ x ∧ ¬ block4 nullPtr_at x) →
  Forall2 (arg_ok K (bytes c)) ps strs → Forall short strs →
  args_total strs ≤ dst < 2 ^ 31 → kmalloc_int K h →
  wp (args_fault h strs) (copyArgsOut user_write fuel nullPtr_at ps dst (Z.of_nat (length ps))) (h, c)
    (λ n st, n = args_total strs ∧ argv_at (bytes st.2) (dst - n) (dst - n + 4 * (Z.of_nat (length strs) + 1)) strs ∧
       heap_owns st.1 m ∧ stack_only K dst n c st.2 ∧ (no_block h → strs = []))
    (λ e st, e = EFAULT ∧ unwritable (dst - args_total strs) dst ∧
       heap_owns st.1 m ∧ stack_only K dst (args_total strs) c st.2 ∧ (no_block h → strs = [])).
Proof.
  intros Hh Hb Hnk HK Harg Hsh Htot Hmal. pose proof (list.Forall2_length _ _ _ Harg) as Hlen.
  pose proof (strings_size_nonneg strs) as Hnn. assert (args_total strs = 4 * (Z.of_nat (length strs) + 1) + strings_size strs) as Htl by done.
  assert (USERTOP = 2 ^ 31) as Htop by done.
  assert (s32 (u32 (sizeof_charp * u32 (Z.of_nat (length ps) + 1))) = 4 * (Z.of_nat (length ps) + 1)) as Hpsz.
  { unfold sizeof_charp. rewrite (u32_small (Z.of_nat (length ps) + 1)) by lia. rewrite u32_small, s32_small by lia. done. }
  unfold copyArgsOut. rewrite Hpsz. wp_steps. apply wp_faults with safe; [|done]. apply store_int_ok; [unfold kernel_range in Hnk; lia|done|done|].
  intros c1 Ho1 Hw1. wp_steps. set (K' := λ x, K x ∨ block4 nullPtr_at x).
  assert (Forall2 (arg_ok K' (bytes c1)) ps strs) as Harg1.
  { eapply list.Forall2_impl; [exact Harg|]. intros p s Hp. eapply arg_ok_mono; [|eapply arg_ok_only; [exact Ho1| |exact Hp]].
    - intros x Hx. by left.
    - intros x Hx Hx'. by apply (HK x). }
  assert (∀ P ptr c', only P c1 c' → (∀ x, P x → dst - args_total strs ≤ x < dst ∨ block4 ptr x) → (∀ x, block4 ptr x → ¬ K x) →
    stack_only K dst (args_total strs) c c') as Hfr.
  { intros P ptr c' Ho HP HpK. exists ptr. split; [|done]. eapply only_trans; [exact Ho1|exact Ho|]. intros x [Hx|Hx%HP]; tauto. }
  apply (kmalloc_int_ok _ K h m); [done|done|by left| |].
  - intros h1 Hno Hh1. wp_steps. apply wp_faults with safe; [|done].
    apply (args_size_ok K' h1 c1 ps strs [] 0); [done|done|lia|lia|]. wp_steps. apply wp_faults with safe; [|done]. apply int_value_ok; [lia|].
    rewrite Hlen, Z.add_0_l, <- Htl. destruct Harg1 as [|p s ps strs Hp Harg1].
    + apply wp_faults with safe; [|done]. wp_steps. apply (copy_args_none dst h1 m c1); [done|apply Ho1|done|done|done| |].
      * intros c' Ho Hw. wp_steps. eapply (kfree_or_null safe h1 m c' 0); [done|by left|]. intros h' Hh'. rewrite delete_id in Hh' by (by eapply heap_owns_null).
        wp_steps. split; [done|]. split; [done|]. split; [done|]. split; [|done].
        eapply (Hfr _ nullPtr_at); [exact Ho| |by intros x Hx Hx'%HK; tauto]. intros x Hx. left. unfold block4 in Hx. cbn in Htl |- *. lia.
      * intros h' c' Hu Hh' Ho. split; [done|]. split; [done|]. split; [done|]. split; [|done].
        eapply (Hfr _ nullPtr_at); [exact Ho| |by intros x Hx Hx'%HK; tauto]. intros x Hx. by left.
    + wp_steps. apply list.Forall_cons in Hsh as [Hs _]. apply (copy_args_null _ K' _ _ _ h1 c1 p s ps strs); [by right|done|done|by rewrite Hlen|lia|lia|cbn [length]; lia|lia].
  - intros ptr h1 Hp0 Hfresh Hh1 Hpk Hpx Hyes. wp_steps. apply wp_faults with safe; [|done].
    apply (args_size_ok K' h1 c1 ps strs [] 0); [done|done|lia|lia|]. wp_steps. apply wp_faults with safe; [|done]. apply int_value_ok; [lia|].
    rewrite Hlen, Z.add_0_l, <- Htl. apply wp_faults with safe; [|done].
    apply (copy_args_block K' dst ptr h1 m c1); try done; [| | |apply Ho1| |].
    + unfold K', block4, kernel_range in *; intros x [Hx%HK|Hx]; lia.
    + by right.
    + intros x Hx HKx; destruct (Hpx x Hx); unfold K' in HKx; tauto.
    + intros h' c' Hh' Ho Hargv. split; [done|]. split; [done|]. split; [done|]. split; [|done]. eapply (Hfr _ ptr); [exact Ho|done|]. intros x Hx. by apply Hpx.
    + intros h' c' Hu Hh' Ho. split; [done|]. split; [done|]. split; [done|]. split; [|done]. eapply (Hfr _ ptr); [exact Ho|done|]. intros x Hx. by apply Hpx.
Qed.
End proofs.

(** ** An example: the arguments [cat] and [f1] *)

Definition ex_strings : list (list Z) := [[99; 97; 116]; [102; 49]].
Definition ex_argv : list Z := [0x80010000; 0x80010010].
Definition ex_args : copystate :=
  MkCopy (λ x, if x =? 0x80010000 then 99 else if x =? 0x80010001 then 97 else if x =? 0x80010002 then 116
               else if x =? 0x80010010 then 102 else if x =? 0x80010011 then 49 else 0) false.
Definition ex_used (x : Z) : Prop := 0x80010000 ≤ x < 0x80010020.
Definition ex_heap (budget : nat) : SimpleHeap.t :=
  {| SimpleHeap.next := 0x80200000; SimpleHeap.live := ∅; SimpleHeap.budget := budget |}.
(** The stack is one page. *)
Definition ex_stack (x : Z) : bool := (0x7ffff000 <=? x) && (x <? 0x80000000).

Lemma args_heap_owns b : heap_owns (ex_heap b) ∅.
Proof. split; [done|done|intros p sz|intros p sz q sz']; by rewrite lookup_empty. Qed.

Lemma ex_args_ok : Forall2 (arg_ok ex_used (bytes ex_args)) ex_argv ex_strings.
Proof.
  unfold ex_argv, ex_strings. constructor; [|constructor; [|constructor]].
  - split; [lia|]. split; [vm_compute; intuition congruence|]. split; [unfold kernel_range, USERTOP, MIPS_KSEG0; cbn; lia|].
    intros x. unfold ex_used. cbn. lia.
  - split; [lia|]. split; [vm_compute; intuition congruence|]. split; [unfold kernel_range, USERTOP, MIPS_KSEG0; cbn; lia|].
    intros x. unfold ex_used. cbn. lia.
Qed.

Lemma ex_kmalloc : kmalloc_int 0x80020000 ex_used (ex_heap 4).
Proof.
  unfold kmalloc_int, kmalloc. cbn [SimpleHeap.heap]. unfold SimpleHeap.malloc. wp_steps. cbn [ex_heap SimpleHeap.budget]. wp_steps.
  cbn [ex_heap SimpleHeap.next SimpleHeap.live]. right. split; [by vm_compute|]. intros x Hx. unfold block4, ex_used in *. lia.
Qed.

Lemma copyArgsOut_spec_witness :
  wp (args_fault (ex_heap 4) ex_strings) (copyArgsOut ex_stack 64 0x80020000 ex_argv 0x7ffffff8 2) (ex_heap 4, ex_args)
    (λ n st, n = 20 ∧ argv_at (bytes st.2) (0x7ffffff8 - n) (0x7ffffff8 - n + 12) ex_strings ∧
       heap_owns st.1 ∅ ∧ stack_only 0x80020000 ex_used 0x7ffffff8 n ex_args st.2 ∧ (no_block (ex_heap 4) → ex_strings = []))
    (λ e st, e = EFAULT ∧ unwritable ex_stack (0x7ffffff8 - 20) 0x7ffffff8 ∧
       heap_owns st.1 ∅ ∧ stack_only 0x80020000 ex_used 0x7ffffff8 20 ex_args st.2 ∧ (no_block (ex_heap 4) → ex_strings = [])).
Proof.
  apply (copyArgsOut_spec ex_stack 64 0x80020000 ex_used (ex_heap 4) ∅ ex_args ex_argv ex_strings 0x7ffffff8).
  - apply args_heap_owns.
  - done.
  - by vm_compute.
  - intros x Hx. unfold ex_used, block4, USERTOP, MIPS_KSEG0 in *. lia.
  - apply ex_args_ok.
  - unfold ex_strings, short. constructor; [cbn; lia|]. constructor; [cbn; lia|constructor].
  - by vm_compute.
  - apply ex_kmalloc.
Defined.

(** The array and the strings on the stack, evaluated *)
Example copyArgsOut_run :
  match copyArgsOut ex_stack 64 0x80020000 ex_argv 0x7ffffff8 2 (ex_heap 4, ex_args) with
  | Ret n (_, c) => (n, word_at (bytes c) 0x7fffffe4, word_at (bytes c) 0x7fffffe8, word_at (bytes c) 0x7fffffec,
                     bytes c <$> seqZ 0x7ffffff0 7)
  | _ => (0, 0, 0, 0, [])
  end = (20, 0x7ffffff0, 0x7ffffff4, 0, [99; 97; 116; 0; 102; 49; 0]).
Proof. by vm_compute. Qed.

(** The result of [kmalloc] is not checked: without memory the code writes through a null
    pointer. *)
Example copyArgsOut_no_memory :
  copyArgsOut ex_stack 64 0x80020000 ex_argv 0x7ffffff8 2 (ex_heap 0, ex_args) = Panic Undefined.
Proof. by vm_compute. Qed.
